(* ===== verification/_CoqProject ===== *)
-Q . S2P
Prelude.v
GoStrings.v
GoRegexp.v
GoPath.v
Semver.v
GoModule.v
PolicyMatch.v
License.v
Osv.v
Policy.v
Capabilities.v
GoHash.v
GoBase64.v
Identity.v
Token.v
AuthX.v
S3Chunked.v
S3Sig.v
S3List.v
BlobStore.v
GoJson.v
GoJsonLaws.v
RubyMarshal.v
RawFS.v
Backend.v
LocalFS.v
AtomicFS.v
Listing.v
LocalBlob.v
LocalBlobSafety.v
PkgStore.v
PkgStoreSafety.v
StoreLaws.v
StoreListing.v
RawBlob.v
GitLfs.v
GitLfsSafety.v
GitLfsRemote.v
GitLfsRemoteSafety.v
DockerStore.v
DockerGC.v
DockerGCSafety.v
DockerNames.v
DockerLocal.v
DockerLocalSafety.v
PkgVersion.v
RubyGems.v
RubyGemsLaws.v
RubyGemsSafety.v
Retention.v
Virtual.v
RubyGemsRemote.v
RubyGemsRemoteSafety.v
GoProxy.v
GoProxyPaths.v
GoRegistry.v
GoProxySafety.v
GoRegistrySafety.v
GoRegistryCases.v
Singleflight.v
S3Objects.v
S3ObjectsSafety.v
Prog.v
Accounts.v
Totp.v
TotpSafety.v
AccountsSafety.v
RegistryConf.v
RegistryConfSafety.v
Vhost.v
VhostSafety.v
ServeManager.v
ServeConf.v
ServeSafety.v
ServerKeys.v
ServerKeysSafety.v
