(* ===== verification/Prelude.v ===== *)
(** * Kutu: a verification development for the artifact registry and gateway

    Kutu (src/) serves package registries over HTTP, an OCI registry with
    garbage collection, file shares over S3, FTP and WebDAV, and the users,
    tokens and policies that decide who may read and write what.  This library
    translates the parts that carry that logic into executable definitions and
    proves what they guarantee.  Paths below are under src/internal/.

    ** The files

    Ground: this file (scopes, tactics, the hint database [kutu], results, 64-bit
    integers, insertion-ordered sets, stable sorting, comparators), GoStrings.v
    (package strings and UTF-8), GoRegexp.v, GoPath.v (packages path and
    path/filepath: Match, Clean, Join, resolving absolute paths), GoHash.v
    (SHA-2, MD5, HMAC, hex), GoBase64.v (base64 and basic authentication),
    GoJson.v and GoJsonLaws.v (encoding/json, and that the decoder inverts the
    encoder), Prog.v (programs of atomic calls and their interleavings).

    Versions and names: Semver.v (registry/common/semver), GoModule.v
    (registry/goproxy/module.go), PkgVersion.v (registry/pkgbase/version.go).

    Read policy: PolicyMatch.v, License.v, Osv.v, Policy.v (registry/policy).
    Policy.v evaluates a request over the other three; the registry it asks is a
    record of the interface methods.

    Identity and access: Capabilities.v (service/capabilities.go, permission.go
    and the tables of storage/auth_store.go), Identity.v (service/oidc_roles.go),
    Token.v (service/token.go, token_usage.go), AuthX.v (server/authx: caps.go,
    caps_token.go, principal.go), which composes the three; Accounts.v and
    AccountsSafety.v (the user and session services and external logins), Totp.v
    and TotpSafety.v (two-factor login and recovery codes).

    Configuration and keys: RegistryConf.v and RegistryConfSafety.v
    (service/registry.go, registry_validate.go, registry_listener.go, the secret
    references), ServerKeys.v and ServerKeysSafety.v (secret/crypto,
    secret/envelope, secret/keymgr, storage/registry_store.go, service/keyops.go,
    registry_token_key.go).

    Blobs and mounts: BlobStore.v (registry/blobstore: digests, the contract as a
    class, the in-memory store), LocalBlob.v and LocalBlobSafety.v (local.go,
    which refines the contract), RawBlob.v (the store over a mount), RawFS.v
    (rawfs/rawfs.go as the registries use it, with an object store), Backend.v
    (the same interface as the file servers use it, with readers and partial
    failures), LocalFS.v (rawfs/localfs over a model of the system calls, an
    instance of Backend.v), AtomicFS.v (the mounts whose failed writes leave
    nothing behind).

    Container registry (registry/docker): DockerStore.v (layout, manifests, tags,
    referrers), DockerGC.v and DockerGCSafety.v (gc.go), DockerNames.v (name.go
    and the request parser), DockerLocal.v and DockerLocalSafety.v (local.go, the
    upload protocol).  They are proved over any RawFS and any BlobStore with
    their laws, and run on the object store and the in-memory blobs.

    Package registries: PkgStore.v and PkgStoreSafety.v (registry/pkgbase/pkgbase.go
    and guard.go), StoreLaws.v (the laws a registry over the store relies on),
    Listing.v and StoreListing.v (directory listings of a mount, and what a write
    or a delete does to those of a store), Retention.v
    (registry/ops/retention.go), Virtual.v (registry/virtualbase,
    pkgbase/virtual.go, gate.go), RubyMarshal.v, RubyGems.v, RubyGemsLaws.v and
    RubyGemsSafety.v (registry/rubygems: marshal.go, gemfile.go, rubygems.go),
    RubyGemsRemote.v and RubyGemsRemoteSafety.v (its pull-through cache and its
    virtual repositories, on top of Virtual.v), GoProxy.v and GoRegistry.v
    (registry/goproxy: store.go, and the handlers, hosted, remote and virtual
    repositories) with GoProxyPaths.v, GoProxySafety.v, GoRegistrySafety.v and
    GoRegistryCases.v, Singleflight.v (registry/common/singleflight.go, as steps of
    goroutines), GitLfs.v and GitLfsSafety.v (registry/gitlfs:
    the hosted repository), GitLfsRemote.v and GitLfsRemoteSafety.v (its
    pull-through cache).

    Listeners: Vhost.v and VhostSafety.v (server/vhost: the shared HTTP listeners,
    and the registry listeners RegistryConf.v validates), ServeManager.v,
    ServeConf.v and ServeSafety.v (server/serve/manager.go and api/serve.go: the
    file servers, their settings and what they publish on Vhost.v).

    S3 server (serve/s3serve): S3Chunked.v (chunked.go), S3Sig.v (sigv4.go),
    S3List.v (list.go), S3Objects.v and S3ObjectsSafety.v (handlers.go,
    multipart.go, server.go).  [S3Objects.handle] authenticates with S3Sig.v,
    decodes bodies with S3Chunked.v and changes mounts through Backend.v.

    ** Conventions

    A Go [(value, error)] is a [result]; a stateful operation takes and returns
    its state; an error keeps what the program inspects of it.  A map is a gmap
    where its order does not matter and an association list where it does; a
    function that ranges over a map takes the order as an argument or returns
    what no order changes.  [int] and [int64] wrap at 64 bits ([wrap64]) where
    the code computes with them.  Clocks and random bytes are arguments.
    Interfaces are classes or records, with their laws in a second class
    (RawFSLaws, BackendLaws, BlobStore, AtomicWrites, AEAD, Listings, Names); each has an
    instance, so that no law is vacuous.  Library code the program only calls is
    a parameter: the time layouts and durations, net/url, doublestar outside
    Capabilities.v, bcrypt, TOTP codes, AES-GCM and argon2, TLS key pairs, binding
    a port, the file servers themselves, the HTTP client, the OSV service, the XML
    decoder, the gem archive (tar, gzip, YAML), compression, the Unicode tables
    above ASCII.  The monad of
    ServerKeys.v threads the tables and a list that says which database call
    fails; the programs of Prog.v interleave at their calls.

    Fuel: structural recursion is used wherever the code's loop allows it.
    Elsewhere the entry point provides the fuel and a lemma or the definition
    shows it is enough: [PolicyMatch.globMatch_eq] (the pattern's length),
    [License.parseOr_enough] (the tokens), [DockerGC.mark_fuel] (the references
    in the store; [DockerGC.returns] is the recursion without fuel, which always
    ends with the same result), GoJson (the bytes left, [GoJsonLaws.parse_write]), GoPath (the
    bytes left), S3Chunked (any fuel above the input, in the theorem), S3List (the
    depth of the tree, [fits]), [GoProxySafety.walk_enough] (the depth of the tree
    of modules), [S3Objects.dechunk] (the bytes of the body).

    ** What is proved

    Each theorem's comment states its conditions; most are about the mount (see
    the limits below).

    Registry safety: an immutable tag keeps its manifest under every request and
    deletion; a served manifest hashes to its digest; a push, a delete and a
    garbage collection keep what the tags reach; uploads publish under their
    digest; the directory of blobs refines the blob contract and the mounted one
    only serves bytes of the digest asked for; the publish guard.  Mount safety:
    a local mount never touches anything outside its directory; an S3 request
    changes only clean keys of a writable share its user sees; what was put is
    read back; the multipart table refines a map of part contents and a
    completion is their concatenation.  Access: capability resolution,
    grants, token matching, revocation, the password cache, request
    signatures, two-factor logins under every interleaving, recovery codes.
    Keys: stored credentials decrypt to what was saved, a rotation keeps every
    one of them and forgets the old password, the live key is the stored one.
    Configuration: the validators accept exactly the well-formed registries and
    disjoint listeners.  Policy: the exact condition of a read, and that virtual
    registries cannot be used around it.  Retention deletes what its
    policy retires, for ages below 106752 days.  Git LFS: a stored or cached object hashes to its id, a lock is
    held against everybody else, pages cover every lock.  RubyGems: the compact
    index is rebuilt from the stored metadata and lists the stored gems unless their
    metadata breaks lines, a pushed gem is served with the
    metadata of its gemspec, Ruby reads the legacy indexes back, a cache reads the
    index of a hosted repository as it was written, and a virtual repository
    lists the hash of the merged document it serves.  Go modules: each document has one path, an
    upload is served back, the list of a hosted module is exactly its versions, a
    cached version never changes; coalesced calls end under every schedule.
    Listeners: what the
    validators accept is routed to the repository it names, one binding per host
    and port; the file servers that run are those of the document.  Round trips: license expressions, JSON, chunked
    streams, canonical requests, S3 objects, credentials.  The theorems that end
    in a failure (lost referrer blobs, overwritten manifests, cascades into tagged
    manifests, lost parts, copies that empty a file, durations that overflow,
    torn rotations, raced recovery codes, a module list that is never fetched
    again) are behaviours of the code.

    ** Limits of the models

    RawFS.v, the mount of the container registry, is atomic: a write that fails
    changes nothing, while a local directory keeps the bytes that arrived.
    Backend.v has such partial writes; the package registries over it are proved
    for mounts that clean up (AtomicFS.v), or say which states a failed write
    leaves.  LocalFS.v has no symbolic links (the code checks paths as text and
    would follow them) and no errors of the disk other than a write that breaks
    off.  The tables of Capabilities.v and Accounts.v have the keys and cascades of
    the SQL schema built in; the JSON of a stored row (ServerKeys.v) is its value.
    [RubyMarshal.load] is a reader written from the documented format.  Queries of
    a database fail only where a file says so.

    ** Not modelled

    The protocol heads of the other package formats (registry/npm, maven, pypi,
    and so on), which are HTTP and document formats over the common package
    store; remote mounts and the FTP, SFTP, TFTP and WebDAV servers, adapters of
    third-party protocols; the admin API and the server's wiring; OAuth2 and
    WebAuthn; SQL statements beyond the tables of Capabilities.v, Token.v,
    Accounts.v and ServerKeys.v; hooks.  Next: the registry manager, promotion
    and the retention schedule.  Concurrency: Prog.v interleaves the
    account services at their database calls, Singleflight.v the goroutines of one
    table of calls; elsewhere a run is a sequence of
    whole operations, and where the code releases a lock in between (the OSV
    cache, the password cache) the two halves are separate steps. *)

From Stdlib Require Import ZArith Lia.
From stdpp Require Import base list strings gmap sorting.

(** ** Scopes, hint databases and tactics *)

Declare Scope kutu_scope.
Delimit Scope kutu_scope with kutu.

Create HintDb kutu.

(** [bool_prop] turns the boolean tests a Go condition becomes into the
    propositions they decide. *)
Ltac bool_prop :=
  repeat match goal with
  | H : _ && _ = true |- _ => apply andb_true_iff in H as [? ?]
  | H : _ || _ = false |- _ => apply orb_false_iff in H as [? ?]
  | H : negb _ = true |- _ => apply negb_true_iff in H
  | H : negb _ = false |- _ => apply negb_false_iff in H
  | H : bool_decide _ = true |- _ => apply bool_decide_eq_true in H
  | H : bool_decide _ = false |- _ => apply bool_decide_eq_false in H
  | H : (_ <? _)%Z = true |- _ => apply Z.ltb_lt in H
  | H : (_ <? _)%Z = false |- _ => apply Z.ltb_ge in H
  | H : (_ <=? _)%Z = true |- _ => apply Z.leb_le in H
  | H : (_ <=? _)%Z = false |- _ => apply Z.leb_gt in H
  | H : (_ =? _)%Z = true |- _ => apply Z.eqb_eq in H
  | H : (_ =? _)%Z = false |- _ => apply Z.eqb_neq in H
  | H : String.eqb _ _ = true |- _ => apply String.eqb_eq in H
  | H : String.eqb _ _ = false |- _ => apply String.eqb_neq in H
  end.

(** [case_if] splits on the first [if] of the goal and normalises the test. *)
Ltac case_if_name H :=
  match goal with
  | |- context [if ?b then _ else _] =>
      lazymatch type of b with
      | bool => destruct b eqn:H
      | _ => destruct b as [H|H]
      end
  end.

Tactic Notation "case_if" "as" ident(H) := case_if_name H; bool_prop.
Tactic Notation "case_if" := let H := fresh "Hif" in case_if as H.

(** [split_matches] destructs every [match] the goal or a hypothesis is stuck
    on and closes the branches that are contradictory. *)
Ltac split_matches :=
  repeat (case_match; simplify_eq/=; try done).

(** [find_elem] proves that a concrete list has an element. *)
Ltac find_elem :=
  solve [repeat first [apply list_elem_of_here | apply list_elem_of_further]].

(** ** Results: Go's [(value, error)] pairs *)

Inductive result (E A : Type) : Type :=
| Ok (a : A)
| Err (e : E).

Arguments Ok {E A} a.
Arguments Err {E A} e.

Definition rbind {E A B} (m : result E A) (f : A -> result E B) : result E B :=
  match m with Ok a => f a | Err e => Err e end.

Notation "'let!' x := m 'in' k" := (rbind m (fun x => k))
  (at level 200, x binder, m at level 100, k at level 200) : kutu_scope.

Definition is_ok {E A} (m : result E A) : bool :=
  match m with Ok _ => true | Err _ => false end.

Lemma rbind_ok {E A B} (m : result E A) (f : A -> result E B) b :
  rbind m f = Ok b <-> exists a, m = Ok a /\ f a = Ok b.
Proof. destruct m as [a|e]; simpl; naive_solver. Qed.

(** ** Contexts: what [ctx.Err()] reports; a run polls it in sequence *)

Inductive CtxError := Canceled | DeadlineExceeded.

(** ** 64-bit integers: Go's [int] and [int64] wrap around silently *)

Definition int64_min : Z := - 2 ^ 63.
Definition int64_max : Z := 2 ^ 63 - 1.

Definition wrap64 (z : Z) : Z := (z + 2 ^ 63) mod 2 ^ 64 - 2 ^ 63.

Definition in64 (z : Z) : Prop := (int64_min <= z <= int64_max)%Z.

#[export] Instance in64_dec z : Decision (in64 z).
Proof. unfold in64. apply _. Defined.

Lemma wrap64_range z : in64 (wrap64 z).
Proof.
  unfold in64, wrap64, int64_min, int64_max.
  pose proof (Z.mod_pos_bound (z + 2 ^ 63) (2 ^ 64) ltac:(lia)). lia.
Qed.

Lemma wrap64_id z : in64 z -> wrap64 z = z.
Proof.
  unfold in64, wrap64, int64_min, int64_max. intros [H1 H2].
  rewrite Z.mod_small; lia.
Qed.

Lemma wrap64_add_mult z k : wrap64 (z + k * 2 ^ 64) = wrap64 z.
Proof.
  unfold wrap64. f_equal.
  replace (z + k * 2 ^ 64 + 2 ^ 63)%Z with (z + 2 ^ 63 + k * 2 ^ 64)%Z by lia.
  apply Z.mod_add. lia.
Qed.

#[export] Hint Resolve wrap64_range : kutu.

(** ** Lists *)

Lemma existsb_elem {A} (f : A -> bool) (l : list A) :
  existsb f l = true <-> exists x, x ∈ l /\ f x = true.
Proof. rewrite existsb_exists. by setoid_rewrite list_elem_of_In. Qed.

Lemma existsb_ext {A} (f g : A -> bool) l : (forall x, f x = g x) -> existsb f l = existsb g l.
Proof. intros H. induction l as [|x l IH]; [done|]. simpl. by rewrite H, IH. Qed.

(** ** Loops that keep a [seen] set and append the first occurrence *)

Section push_new.
Context {A : Type} `{Countable A}.

(** [if _, dup := seen[x]; !dup { seen[x] = struct{}{}; out = append(out, x) }] *)
Definition push_new (acc : gset A * list A) (x : A) : gset A * list A :=
  if bool_decide (x ∈ acc.1) then acc else ({[x]} ∪ acc.1, acc.2 ++ [x]).

Definition push_all (acc : gset A * list A) (xs : list A) : gset A * list A :=
  foldl push_new acc xs.

(** The first occurrences of [xs], in order. *)
Definition dedup (xs : list A) : list A := (push_all (∅, []) xs).2.

Definition seen_wf (acc : gset A * list A) : Prop :=
  NoDup acc.2 /\ acc.1 = list_to_set acc.2.

Lemma push_new_wf acc x : seen_wf acc -> seen_wf (push_new acc x).
Proof.
  intros [Hnd Hset]. unfold push_new. case_bool_decide as Hin; [done|].
  split; simpl.
  - apply NoDup_app. split; [done|]. split; [|apply NoDup_singleton].
    intros y Hy ->%list_elem_of_singleton. rewrite Hset in Hin. set_solver.
  - rewrite Hset. set_solver.
Qed.

Lemma push_all_wf acc xs : seen_wf acc -> seen_wf (push_all acc xs).
Proof.
  revert acc. induction xs as [|x xs IH]; intros acc Hwf; [done|].
  simpl. apply IH, push_new_wf, Hwf.
Qed.

Lemma push_new_elem acc x y : seen_wf acc ->
  y ∈ (push_new acc x).2 <-> y ∈ acc.2 \/ y = x.
Proof.
  intros [_ Hset]. unfold push_new. case_bool_decide as Hin; simpl.
  - rewrite Hset in Hin. set_solver.
  - set_solver.
Qed.

Lemma push_all_elem acc xs y : seen_wf acc ->
  y ∈ (push_all acc xs).2 <-> y ∈ acc.2 \/ y ∈ xs.
Proof.
  revert acc. induction xs as [|x xs IH]; intros acc Hwf; simpl; [set_solver|].
  rewrite IH by (by apply push_new_wf). rewrite push_new_elem by done. set_solver.
Qed.

Lemma empty_wf : seen_wf (∅, []).
Proof. split; [constructor|done]. Qed.

Lemma dedup_NoDup xs : NoDup (dedup xs).
Proof. apply push_all_wf, empty_wf. Qed.

Lemma dedup_elem xs y : y ∈ dedup xs <-> y ∈ xs.
Proof. unfold dedup. rewrite push_all_elem by apply empty_wf. set_solver. Qed.

Lemma push_all_app acc xs ys :
  push_all acc (xs ++ ys) = push_all (push_all acc xs) ys.
Proof. apply foldl_app. Qed.
End push_new.

#[export] Hint Resolve dedup_NoDup push_new_wf push_all_wf empty_wf : kutu.

(** ** Stable sorting: [sort.SliceStable] on a [less] function *)

Section stable_sort.
Context {A : Type} (less : A -> A -> bool).

(** Insertion from the left: [x] moves past the suffix it is less than. *)
Fixpoint insert_sorted (x : A) (l : list A) : list A :=
  match l with
  | [] => [x]
  | y :: l' => if less x y then x :: l else y :: insert_sorted x l'
  end.

Definition SliceStable (l : list A) : list A :=
  foldl (fun acc x => insert_sorted x acc) [] l.

Lemma insert_sorted_perm x l : insert_sorted x l ≡ₚ x :: l.
Proof.
  induction l as [|y l IH]; simpl; [done|].
  case_if; [done|]. rewrite IH. apply Permutation_swap.
Qed.

Lemma SliceStable_perm_gen l acc :
  foldl (fun acc x => insert_sorted x acc) acc l ≡ₚ l ++ acc.
Proof.
  revert acc. induction l as [|x l IH]; intros acc; simpl; [done|].
  rewrite IH, insert_sorted_perm. by rewrite <-Permutation_middle.
Qed.

Lemma SliceStable_perm l : SliceStable l ≡ₚ l.
Proof. unfold SliceStable. by rewrite SliceStable_perm_gen, app_nil_r. Qed.

(** [less] restricted to [P] is a strict weak order: what Go's [sort]
    requires of its argument. *)
Record strict_weak (P : A -> Prop) : Prop := {
  sw_asym : forall x y, P x -> P y -> less x y = true -> less y x = false;
  sw_trans : forall x y z, P x -> P y -> P z ->
    less y x = false -> less z y = false -> less z x = false;
}.

Definition not_after (x y : A) : Prop := less y x = false.

Lemma insert_sorted_Sorted P x l :
  strict_weak P -> P x -> Forall P l ->
  StronglySorted not_after l -> StronglySorted not_after (insert_sorted x l).
Proof.
  intros Hsw Hx. induction l as [|y l IH]; intros HP Hs; simpl.
  { repeat constructor. }
  apply Forall_cons in HP as [Hy HP]. inversion Hs as [|? ? Hs' Hall]; subst.
  case_if as E.
  - constructor; [done|]. constructor; [by apply (sw_asym P)|].
    apply Forall_forall. intros z Hz. unfold not_after in *.
    rewrite Forall_forall in HP, Hall.
    apply (sw_trans P Hsw x y z); auto. by apply (sw_asym P).
  - constructor; [by apply IH|].
    rewrite insert_sorted_perm. constructor; [done|]. done.
Qed.

Lemma SliceStable_Sorted P l :
  strict_weak P -> Forall P l -> StronglySorted not_after (SliceStable l).
Proof.
  intros Hsw. unfold SliceStable.
  assert (Hgen : forall acc, Forall P acc -> StronglySorted not_after acc -> Forall P l ->
    StronglySorted not_after (foldl (fun acc x => insert_sorted x acc) acc l)).
  { induction l as [|x l IH]; intros acc Hacc Hs Hl; [done|]. simpl.
    apply Forall_cons in Hl as [Hx Hl]. apply IH; [| |done].
    - rewrite insert_sorted_perm. by constructor.
    - by apply (insert_sorted_Sorted P). }
  intros Hl. apply Hgen; [done|constructor|done].
Qed.

(** Stability: elements that tie with [x] keep their relative order. *)
Definition ties (x y : A) : bool := negb (less x y) && negb (less y x).
End stable_sort.

#[export] Hint Resolve SliceStable_perm : kutu.

(** ** Lists without repetition *)

Lemma NoDup_fmap_eq {A B} (f : A -> B) l x y : NoDup (f <$> l) -> x ∈ l -> y ∈ l -> f x = f y -> x = y.
Proof.
  intros Hn [i Hi]%list_elem_of_lookup [j Hj]%list_elem_of_lookup E.
  pose proof (NoDup_lookup (f <$> l) i j (f y) Hn) as H2. rewrite !list_lookup_fmap, Hi, Hj in H2. cbn in H2.
  rewrite E in H2. specialize (H2 eq_refl eq_refl). congruence.
Qed.

(** ** Three-way comparators *)

Section comparator.
Context {A : Type}.
Local Open Scope Z_scope.

(** [cmp] orders the elements of [P] totally: a total preorder. *)
Class Comparator (cmp : A -> A -> Z) (P : A -> Prop) : Prop := {
  cmp_antisym : forall x y, P x -> P y -> cmp x y = - cmp y x;
  cmp_trans : forall x y z, P x -> P y -> P z ->
    cmp x y <= 0 -> cmp y z <= 0 -> cmp x z <= 0;
}.

Lemma cmp_refl cmp P x : Comparator cmp P -> P x -> cmp x x = 0.
Proof. intros HC HP. pose proof (cmp_antisym x x HP HP). lia. Qed.

Lemma cmp_lt_trans cmp P x y z : Comparator cmp P -> P x -> P y -> P z ->
  cmp x y < 0 -> cmp y z <= 0 -> cmp x z < 0.
Proof.
  intros HC Hx Hy Hz H1 H2.
  pose proof (cmp_trans x y z Hx Hy Hz). pose proof (cmp_trans y z x Hy Hz Hx).
  pose proof (cmp_antisym x y Hx Hy). pose proof (cmp_antisym x z Hx Hz). lia.
Qed.

Lemma cmp_le_lt_trans cmp P x y z : Comparator cmp P -> P x -> P y -> P z ->
  cmp x y <= 0 -> cmp y z < 0 -> cmp x z < 0.
Proof.
  intros HC Hx Hy Hz H1 H2.
  pose proof (cmp_trans x y z Hx Hy Hz). pose proof (cmp_trans z x y Hz Hx Hy).
  pose proof (cmp_antisym y z Hy Hz). pose proof (cmp_antisym x z Hx Hz). lia.
Qed.

(** The lexicographic combination of two comparators. *)
Lemma Comparator_lex (c1 c2 : A -> A -> Z) P :
  Comparator c1 P -> Comparator c2 P ->
  Comparator (fun x y => if c1 x y =? 0 then c2 x y else c1 x y) P.
Proof.
  intros H1 H2. split.
  - intros x y Hx Hy. pose proof (@cmp_antisym c1 P H1 x y Hx Hy) as E1.
    pose proof (@cmp_antisym c2 P H2 x y Hx Hy) as E2.
    destruct (Z.eqb_spec (c1 x y) 0), (Z.eqb_spec (c1 y x) 0); lia.
  - intros x y z Hx Hy Hz Hxy Hyz.
    pose proof (@cmp_antisym c1 P H1 x y Hx Hy). pose proof (@cmp_antisym c1 P H1 y z Hy Hz).
    pose proof (@cmp_antisym c1 P H1 x z Hx Hz).
    pose proof (@cmp_trans c1 P H1 x y z Hx Hy Hz). pose proof (@cmp_trans c1 P H1 z y x Hz Hy Hx).
    pose proof (@cmp_trans c2 P H2 x y z Hx Hy Hz).
    pose proof (cmp_lt_trans c1 P x y z H1 Hx Hy Hz).
    pose proof (cmp_le_lt_trans c1 P x y z H1 Hx Hy Hz).
    destruct (Z.eqb_spec (c1 x y) 0), (Z.eqb_spec (c1 y z) 0), (Z.eqb_spec (c1 x z) 0); lia.
Qed.

(** What Go's sort needs: both directions of a comparator give a strict
    weak order. *)
Lemma Comparator_less cmp P : Comparator cmp P -> strict_weak (fun x y => cmp x y <? 0) P.
Proof.
  intros HC. split.
  - intros x y Hx Hy H%Z.ltb_lt. apply Z.ltb_ge. pose proof (cmp_antisym x y Hx Hy). lia.
  - intros x y z Hx Hy Hz H1%Z.ltb_ge H2%Z.ltb_ge. apply Z.ltb_ge.
    pose proof (cmp_antisym x y Hx Hy). pose proof (cmp_antisym y z Hy Hz).
    pose proof (cmp_antisym x z Hx Hz). pose proof (cmp_trans x y z Hx Hy Hz). lia.
Qed.

Lemma Comparator_greater cmp P : Comparator cmp P -> strict_weak (fun x y => 0 <? cmp x y) P.
Proof.
  intros HC. split.
  - intros x y Hx Hy H%Z.ltb_lt. apply Z.ltb_ge. pose proof (cmp_antisym x y Hx Hy). lia.
  - intros x y z Hx Hy Hz H1%Z.ltb_ge H2%Z.ltb_ge. apply Z.ltb_ge.
    pose proof (cmp_antisym x y Hx Hy). pose proof (cmp_antisym y z Hy Hz).
    pose proof (cmp_antisym x z Hx Hz). pose proof (cmp_trans z y x Hz Hy Hx). lia.
Qed.

End comparator.

Arguments Comparator {A} cmp P.
