(* ===== verification/GoStrings.v ===== *)
(** * Go strings

    A Go [string] is a sequence of bytes, here Rocq's [string]; [len] counts
    bytes and [<] compares bytes.  This file gives the functions of the
    packages [strings] and [unicode/utf8] that the modelled code calls, and
    the lemmas about them that the components share.  A position Go reports as
    [-1] is [None].  [TrimSpace] knows every Unicode white-space rune in its
    UTF-8 encoding; [ToLower], [ToUpper] and [EqualFold] map the ASCII letters
    and leave other bytes alone, so the definitions that use them describe the
    code on ASCII text. *)

From Stdlib Require Import ZArith Lia Ascii OrderedTypeEx.
From stdpp Require Import base list strings gmap.
From S2P Require Import Prelude.

Local Open Scope Z_scope.

#[global] Arguments String.append !_ _ / : simpl nomatch.

Definition ord (c : ascii) : Z := Z.of_N (N_of_ascii c).
Definition chr (z : Z) : ascii := ascii_of_N (Z.to_N z).

Definition len (s : string) : nat := String.length s.

(** ** Slices of strings *)

(** [s[:n]], for [n <= len s] *)
Fixpoint str_take (n : nat) (s : string) : string :=
  match n, s with
  | O, _ => ""
  | S n, String c s => String c (str_take n s)
  | S _, EmptyString => ""
  end.

(** [s[n:]], for [n <= len s] *)
Fixpoint str_drop (n : nat) (s : string) : string :=
  match n, s with
  | O, _ => s
  | S n, String _ s => str_drop n s
  | S _, EmptyString => ""
  end.

Fixpoint str_rev_app (s acc : string) : string :=
  match s with
  | "" => acc
  | String c s => str_rev_app s (String c acc)
  end.

Definition str_rev (s : string) : string := str_rev_app s "".

Fixpoint str_forallb (p : ascii -> bool) (s : string) : bool :=
  match s with "" => true | String c s => p c && str_forallb p s end.

Fixpoint str_existsb (p : ascii -> bool) (s : string) : bool :=
  match s with "" => false | String c s => p c || str_existsb p s end.

Fixpoint str_map (f : ascii -> ascii) (s : string) : string :=
  match s with "" => "" | String c s => String (f c) (str_map f s) end.

(** ** Comparison *)

Definition str_compare (a b : string) : Z :=
  match String.compare a b with Lt => -1 | Eq => 0 | Gt => 1 end.

Definition str_ltb (a b : string) : bool := str_compare a b <? 0.
Definition str_leb (a b : string) : bool := str_compare a b <=? 0.

(** ** Prefixes and suffixes *)

Fixpoint HasPrefix (s prefix : string) {struct prefix} : bool :=
  match prefix, s with
  | "", _ => true
  | String p prefix, String c s => Ascii.eqb p c && HasPrefix s prefix
  | _, _ => false
  end.

Definition HasSuffix (s suffix : string) : bool :=
  (len suffix <=? len s)%nat && String.eqb (str_drop (len s - len suffix) s) suffix.

Definition TrimPrefix (s prefix : string) : string :=
  if HasPrefix s prefix then str_drop (len prefix) s else s.

Definition TrimSuffix (s suffix : string) : string :=
  if HasSuffix s suffix then str_take (len s - len suffix) s else s.

(** ** Searching *)

Fixpoint IndexByte (s : string) (c : ascii) : option nat :=
  match s with
  | "" => None
  | String d s => if Ascii.eqb d c then Some 0%nat else S <$> IndexByte s c
  end.

Fixpoint LastIndexByte (s : string) (c : ascii) : option nat :=
  match s with
  | "" => None
  | String d s =>
      match LastIndexByte s c with
      | Some i => Some (S i)
      | None => if Ascii.eqb d c then Some 0%nat else None
      end
  end.

Fixpoint Index (s sub : string) : option nat :=
  if HasPrefix s sub then Some 0%nat else
  match s with
  | "" => None
  | String _ s => S <$> Index s sub
  end.

Definition is_some {A} (o : option A) : bool :=
  match o with Some _ => true | None => false end.

(** [strings.LastIndex] *)
Fixpoint LastIndex (s sub : string) : option nat :=
  match s with
  | "" => if HasPrefix s sub then Some O else None
  | String _ t =>
      match LastIndex t sub with
      | Some i => Some (S i)
      | None => if HasPrefix s sub then Some O else None
      end
  end.

(** An index the code tests with [i > 0], and the two sides of the separator. *)
Definition cut_at (body sep : string) (i : option nat) : option (string * string) :=
  match i with
  | Some (S i) => Some (str_take (S i) body, str_drop (S i + len sep) body)
  | _ => None
  end.

Definition Contains (s sub : string) : bool := is_some (Index s sub).

Fixpoint ContainsByte (s : string) (c : ascii) : bool :=
  match s with "" => false | String d s => Ascii.eqb d c || ContainsByte s c end.

Definition ContainsAny (s chars : string) : bool :=
  str_existsb (fun c => ContainsByte chars c) s.

(** [strings.Cut] around a separator: (before, after, found) *)
Definition Cut (s sep : string) : string * string * bool :=
  match Index s sep with
  | Some i => (str_take i s, str_drop (i + len sep) s, true)
  | None => (s, "", false)
  end.

(** ** Splitting and joining on a one-byte separator *)

Fixpoint Split (s : string) (sep : ascii) : list string :=
  match s with
  | "" => [""]
  | String c s =>
      if Ascii.eqb c sep then "" :: Split s sep
      else match Split s sep with
           | [] => [String c ""]
           | w :: ws => String c w :: ws
           end
  end.

Fixpoint Join (l : list string) (sep : string) : string :=
  match l with
  | [] => ""
  | [w] => w
  | w :: ws => w +:+ sep +:+ Join ws sep
  end.

Fixpoint ReplaceByte (s : string) (old new : ascii) : string :=
  match s with
  | "" => ""
  | String c s => String (if Ascii.eqb c old then new else c) (ReplaceByte s old new)
  end.

(** ** Trimming *)

Fixpoint TrimLeft (s cutset : string) : string :=
  match s with
  | "" => ""
  | String c s' => if ContainsByte cutset c then TrimLeft s' cutset else s
  end.

Definition TrimRight (s cutset : string) : string :=
  str_rev (TrimLeft (str_rev s) cutset).

Definition Trim (s cutset : string) : string := TrimRight (TrimLeft s cutset) cutset.

(** ASCII white space: tab, LF, VT, FF, CR, space *)
Definition ascii_space (c : ascii) : bool :=
  ((9 <=? ord c) && (ord c <=? 13)) || (ord c =? 32).

(** U+0085 and U+00A0, whose encodings are two bytes *)
Definition space2 (a b : ascii) : bool :=
  (ord a =? 0xC2) && ((ord b =? 0x85) || (ord b =? 0xA0)).

(** U+1680, U+2000 to U+200A, U+2028, U+2029, U+202F, U+205F and U+3000 *)
Definition space3 (a b c : ascii) : bool :=
  ((ord a =? 0xE1) && (ord b =? 0x9A) && (ord c =? 0x80)) ||
  ((ord a =? 0xE2) && (ord b =? 0x80) &&
     (((0x80 <=? ord c) && (ord c <=? 0x8A)) || (ord c =? 0xA8) || (ord c =? 0xA9)
      || (ord c =? 0xAF))) ||
  ((ord a =? 0xE2) && (ord b =? 0x81) && (ord c =? 0x9F)) ||
  ((ord a =? 0xE3) && (ord b =? 0x80) && (ord c =? 0x80)).

Fixpoint TrimLeftSpace (s : string) : string :=
  match s with
  | "" => ""
  | String a s1 =>
      if ascii_space a then TrimLeftSpace s1 else
      match s1 with
      | "" => s
      | String b s2 =>
          if space2 a b then TrimLeftSpace s2 else
          match s2 with
          | "" => s
          | String c s3 => if space3 a b c then TrimLeftSpace s3 else s
          end
      end
  end.

(** The same scan from the right, on the reversed bytes. *)
Fixpoint TrimRevSpace (s : string) : string :=
  match s with
  | "" => ""
  | String c s1 =>
      if ascii_space c then TrimRevSpace s1 else
      match s1 with
      | "" => s
      | String b s2 =>
          if space2 b c then TrimRevSpace s2 else
          match s2 with
          | "" => s
          | String a s3 => if space3 a b c then TrimRevSpace s3 else s
          end
      end
  end.

Definition TrimSpace (s : string) : string :=
  str_rev (TrimRevSpace (str_rev (TrimLeftSpace s))).

(** [strings.Fields] on ASCII white space *)
Fixpoint Fields_go (s cur : string) : list string :=
  match s with
  | "" => if String.eqb cur "" then [] else [str_rev cur]
  | String c s =>
      if ascii_space c
      then if String.eqb cur "" then Fields_go s "" else str_rev cur :: Fields_go s ""
      else Fields_go s (String c cur)
  end.

Definition Fields (s : string) : list string := Fields_go s "".

(** ** ASCII letters and digits *)

Definition is_upper (c : ascii) : bool := (65 <=? ord c) && (ord c <=? 90).
Definition is_lower (c : ascii) : bool := (97 <=? ord c) && (ord c <=? 122).
Definition is_digit (c : ascii) : bool := (48 <=? ord c) && (ord c <=? 57).

Definition lower (c : ascii) : ascii := if is_upper c then chr (ord c + 32) else c.
Definition upper (c : ascii) : ascii := if is_lower c then chr (ord c - 32) else c.

Definition ToLower (s : string) : string := str_map lower s.
Definition ToUpper (s : string) : string := str_map upper s.
Definition EqualFold (a b : string) : bool := String.eqb (ToLower a) (ToLower b).

Definition is_ascii (s : string) : bool := str_forallb (fun c => ord c <? 128) s.

(** ** UTF-8 *)

Definition RuneError : Z := 0xFFFD.

Definition is_cont (c : ascii) : bool := (0x80 <=? ord c) && (ord c <=? 0xBF).

(** What the second byte of a sequence that starts with [b0] may be. *)
Definition second_ok (b0 : Z) (c : ascii) : bool :=
  if b0 =? 0xE0 then (0xA0 <=? ord c) && (ord c <=? 0xBF)
  else if b0 =? 0xED then (0x80 <=? ord c) && (ord c <=? 0x9F)
  else if b0 =? 0xF0 then (0x90 <=? ord c) && (ord c <=? 0xBF)
  else if b0 =? 0xF4 then (0x80 <=? ord c) && (ord c <=? 0x8F)
  else is_cont c.

(** [utf8.DecodeRuneInString]: the rune and the number of bytes it takes;
    (RuneError, 1) for an invalid encoding and (RuneError, 0) for "". *)
Definition DecodeRune (s : string) : Z * nat :=
  match s with
  | "" => (RuneError, 0%nat)
  | String c0 t =>
      let b0 := ord c0 in
      if b0 <? 0x80 then (b0, 1%nat) else
      if (b0 <? 0xC2) || (0xF4 <? b0) then (RuneError, 1%nat) else
      match t with
      | "" => (RuneError, 1%nat)
      | String c1 t =>
          if negb (second_ok b0 c1) then (RuneError, 1%nat) else
          if b0 <? 0xE0 then ((b0 mod 32) * 64 + ord c1 mod 64, 2%nat) else
          match t with
          | "" => (RuneError, 1%nat)
          | String c2 t =>
              if negb (is_cont c2) then (RuneError, 1%nat) else
              if b0 <? 0xF0
              then ((b0 mod 16) * 4096 + (ord c1 mod 64) * 64 + ord c2 mod 64, 3%nat) else
              match t with
              | "" => (RuneError, 1%nat)
              | String c3 _ =>
                  if negb (is_cont c3) then (RuneError, 1%nat) else
                  ((b0 mod 8) * 262144 + (ord c1 mod 64) * 4096
                   + (ord c2 mod 64) * 64 + ord c3 mod 64, 4%nat)
              end
          end
      end
  end.

(** The runes of [for _, r := range s], with fuel for the bytes left. *)
Fixpoint runes_go (fuel : nat) (s : string) : list Z :=
  match fuel, s with
  | O, _ | _, "" => []
  | S fuel, _ => let '(r, n) := DecodeRune s in r :: runes_go fuel (str_drop n s)
  end.

Definition runes (s : string) : list Z := runes_go (len s) s.

(** [strings.Builder.WriteRune] *)
Definition EncodeRune (r : Z) : string :=
  let bytes l := String.string_of_list_ascii (map chr l) in
  if (0 <=? r) && (r <? 0x80) then bytes [r] else
  if (0x80 <=? r) && (r <? 0x800) then bytes [0xC0 + r / 64; 0x80 + r mod 64] else
  let r := if (r <? 0) || (0x10FFFF <? r) || ((0xD800 <=? r) && (r <=? 0xDFFF))
           then RuneError else r in
  if r <? 0x10000
  then bytes [0xE0 + r / 4096; 0x80 + (r / 64) mod 64; 0x80 + r mod 64]
  else bytes [0xF0 + r / 262144; 0x80 + (r / 4096) mod 64; 0x80 + (r / 64) mod 64;
              0x80 + r mod 64].

Definition EncodeRunes (rs : list Z) : string :=
  foldr (fun r acc => EncodeRune r +:+ acc) "" rs.

(** A string is valid UTF-8 when decoding and encoding it changes nothing. *)
Definition ValidString (s : string) : bool := String.eqb (EncodeRunes (runes s)) s.

(** ** Decimal numbers *)

(** The value of a digit string, in Go's [int]: [n = n*10 + int(c-'0')]. *)
Fixpoint digits_value (s : string) (n : Z) : Z :=
  match s with
  | "" => n
  | String c s => digits_value s (wrap64 (n * 10 + (ord c - 48)))
  end.

Fixpoint digits_exact (s : string) (n : Z) : Z :=
  match s with
  | "" => n
  | String c s => digits_exact s (n * 10 + (ord c - 48))
  end.

(** [strconv.Itoa] of a non-negative number, with fuel for the digits. *)
Fixpoint itoa_go (fuel : nat) (n : Z) (acc : string) : string :=
  match fuel with
  | O => acc
  | S fuel =>
      let acc := String (chr (48 + n mod 10)) acc in
      if n / 10 =? 0 then acc else itoa_go fuel (n / 10) acc
  end.

Definition itoa (n : Z) : string :=
  if n <? 0 then String "-" (itoa_go 20 (- n) "") else itoa_go 20 n "".

(** [strconv.ParseInt(s, 10, 64)] *)
Definition ParseInt10 (s : string) : option Z :=
  let '(neg, digits) :=
    match s with
    | String c t => if Ascii.eqb c "-" then (true, t)
                    else if Ascii.eqb c "+" then (false, t) else (false, s)
    | "" => (false, s)
    end in
  if String.eqb digits "" || negb (str_forallb is_digit digits) then None
  else
    let v := digits_exact digits 0 in
    if neg then (if v <=? 2 ^ 63 then Some (- v) else None)
    else (if v <=? int64_max then Some v else None).

(** [strconv.Atoi] with its error dropped: a number out of range is clipped,
    anything else is 0. *)
Definition Atoi (s : string) : Z :=
  match ParseInt10 s with
  | Some v => v
  | None =>
      let '(neg, digits) :=
        match s with
        | String c t => if Ascii.eqb c "-" then (true, t)
                        else if Ascii.eqb c "+" then (false, t) else (false, s)
        | "" => (false, s)
        end in
      if String.eqb digits "" || negb (str_forallb is_digit digits) then 0
      else if neg then int64_min else int64_max
  end.

(** * Lemmas *)

Lemma ord_range c : 0 <= ord c < 256.
Proof. unfold ord. pose proof (N_ascii_bounded c). lia. Qed.

Lemma chr_ord c : chr (ord c) = c.
Proof. unfold chr, ord. by rewrite N2Z.id, ascii_N_embedding. Qed.

Lemma ord_chr z : 0 <= z < 256 -> ord (chr z) = z.
Proof. intros H. unfold chr, ord. rewrite N_ascii_embedding; lia. Qed.

Lemma ord_inj c d : ord c = ord d -> c = d.
Proof. intros H. by rewrite <-(chr_ord c), H, chr_ord. Qed.

#[export] Hint Rewrite chr_ord : kutu.

Lemma app_empty_r (s : string) : s +:+ "" = s.
Proof. induction s as [|c s IH]; [done|]. simpl. by rewrite IH. Qed.

Lemma str_app_assoc (a b c : string) : (a +:+ b) +:+ c = a +:+ (b +:+ c).
Proof. induction a as [|x a IH]; [done|]. simpl. by rewrite IH. Qed.

Lemma app_cons c (a b : string) : String c a +:+ b = String c (a +:+ b).
Proof. done. Qed.

Lemma len_app a b : len (a +:+ b) = (len a + len b)%nat.
Proof. induction a as [|c a IH]; [done|]. unfold len in *. simpl. by rewrite IH. Qed.

Lemma take_drop_str n s : str_take n s +:+ str_drop n s = s.
Proof.
  revert s. induction n as [|n IH]; intros [|c s]; try done.
  simpl. by rewrite IH.
Qed.

Lemma str_drop_app a b : str_drop (len a) (a +:+ b) = b.
Proof. induction a as [|c a IH]; [done|]. apply IH. Qed.

Lemma str_take_app a b : str_take (len a) (a +:+ b) = a.
Proof. induction a as [|c a IH]; [done|]. simpl. by f_equal. Qed.

Lemma str_drop_len s : str_drop (len s) s = "".
Proof. induction s as [|c s IH]; [done|]. apply IH. Qed.

Lemma str_take_len s : str_take (len s) s = s.
Proof. induction s as [|c s IH]; [done|]. simpl. by f_equal. Qed.

Lemma len_drop n s : len (str_drop n s) = (len s - n)%nat.
Proof. revert s. induction n as [|n IH]; intros [|c s]; simpl; auto. Qed.

Lemma len_take n s : len (str_take n s) = Nat.min n (len s).
Proof.
  revert s. induction n as [|n IH]; intros [|c s]; try done.
  unfold len in *; simpl. by rewrite IH.
Qed.

Lemma HasPrefix_spec s p : HasPrefix s p = true <-> exists r, s = p +:+ r.
Proof.
  revert s. induction p as [|a p IH]; intros s; simpl.
  { split; [intros _; by exists s|done]. }
  destruct s as [|c s]; [split; [done|by intros [? ?]]|].
  rewrite andb_true_iff, Ascii.eqb_eq, IH. split.
  - intros [-> [r ->]]. by exists r.
  - intros [r [= -> ->]]. split; [done|by exists r].
Qed.

Lemma HasPrefix_app p r : HasPrefix (p +:+ r) p = true.
Proof. apply HasPrefix_spec. by exists r. Qed.

Lemma HasPrefix_refl s : HasPrefix s s = true.
Proof. apply HasPrefix_spec. exists "". by rewrite app_empty_r. Qed.

Lemma TrimPrefix_app p r : TrimPrefix (p +:+ r) p = r.
Proof. unfold TrimPrefix. by rewrite HasPrefix_app, str_drop_app. Qed.

Lemma HasSuffix_app s x : HasSuffix (s +:+ x) x = true.
Proof.
  unfold HasSuffix. rewrite len_app. apply andb_true_iff. split.
  - apply Nat.leb_le. lia.
  - replace (len s + len x - len x)%nat with (len s) by lia.
    rewrite str_drop_app. apply String.eqb_refl.
Qed.

Lemma HasSuffix_spec s x : HasSuffix s x = true <-> exists r, s = r +:+ x.
Proof.
  split.
  - unfold HasSuffix. intros [_ H%String.eqb_eq]%andb_true_iff.
    exists (str_take (len s - len x) s).
    pose proof (take_drop_str (len s - len x) s) as Ht. by rewrite H in Ht.
  - intros [r ->]. apply HasSuffix_app.
Qed.

Lemma TrimSuffix_app s x : TrimSuffix (s +:+ x) x = s.
Proof.
  unfold TrimSuffix. rewrite HasSuffix_app, len_app.
  replace (len s + len x - len x)%nat with (len s) by lia. apply str_take_app.
Qed.

Lemma str_app_inj_l a b c : a +:+ b = a +:+ c -> b = c.
Proof. induction a as [|x a IH]; [done|]. intros [=]. by apply IH. Qed.

(** Order *)

Lemma str_ltb_lt a b : str_ltb a b = true <-> String_as_OT.lt a b.
Proof.
  rewrite <-String_as_OT.cmp_lt. unfold str_ltb, str_compare, String_as_OT.cmp.
  destruct (String.compare a b); simpl; naive_solver.
Qed.

Lemma str_ltb_irrefl a : str_ltb a a = false.
Proof.
  destruct (str_ltb a a) eqn:E; [|done]. apply str_ltb_lt in E.
  exfalso. by eapply String_as_OT.lt_not_eq.
Qed.

Lemma str_ltb_trans a b c : str_ltb a b = true -> str_ltb b c = true -> str_ltb a c = true.
Proof. rewrite !str_ltb_lt. apply String_as_OT.lt_trans. Qed.

Lemma str_compare_antisym a b : str_compare a b = - str_compare b a.
Proof.
  unfold str_compare. rewrite String.compare_antisym.
  by destruct (String.compare b a).
Qed.

Lemma str_compare_eq a b : str_compare a b = 0 <-> a = b.
Proof.
  unfold str_compare. split.
  - destruct (String.compare a b) eqn:E; try done. intros _. by apply String.compare_eq_iff.
  - intros ->. assert (E : String.compare b b = Eq); [|by rewrite E].
    pose proof (String.compare_antisym b b) as H. by destruct (String.compare b b).
Qed.

Lemma str_compare_range a b : -1 <= str_compare a b <= 1.
Proof. unfold str_compare. destruct (String.compare a b); lia. Qed.

Lemma str_ltb_asym a b : str_ltb a b = true -> str_ltb b a = false.
Proof. unfold str_ltb. rewrite (str_compare_antisym b a). intros. bool_prop. apply Z.ltb_ge. lia. Qed.

Lemma str_ltb_total a b : str_ltb a b = false -> str_ltb b a = false -> a = b.
Proof.
  unfold str_ltb. rewrite (str_compare_antisym b a). intros. bool_prop.
  apply str_compare_eq. lia.
Qed.

Lemma str_ltb_false_trans a b c :
  str_ltb b a = false -> str_ltb c b = false -> str_ltb c a = false.
Proof.
  intros H1 H2. destruct (str_ltb c a) eqn:E; [|done].
  destruct (str_ltb a b) eqn:E1.
  - by rewrite (str_ltb_trans c a b) in H2.
  - pose proof (str_ltb_total a b E1 H1) as ->. congruence.
Qed.

Lemma str_leb_ltb a b : str_leb a b = negb (str_ltb b a).
Proof.
  unfold str_leb, str_ltb. rewrite (str_compare_antisym b a).
  destruct (Z.leb_spec (str_compare a b) 0); symmetry.
  - apply negb_true_iff, Z.ltb_ge. lia.
  - apply negb_false_iff, Z.ltb_lt. lia.
Qed.

Lemma str_ltb_strict_weak P : strict_weak str_ltb P.
Proof.
  split; intros *; eauto using str_ltb_asym, str_ltb_false_trans.
Qed.

#[export] Instance str_compare_Comparator P : Comparator str_compare P.
Proof.
  split; [intros; apply str_compare_antisym|].
  intros x y z _ _ _ H1%Z.leb_le H2%Z.leb_le. apply Z.leb_le.
  change (str_leb x y = true) in H1. change (str_leb y z = true) in H2.
  change (str_leb x z = true). rewrite str_leb_ltb, negb_true_iff in *.
  by apply (str_ltb_false_trans x y z).
Qed.

#[export] Hint Resolve HasPrefix_app HasPrefix_refl HasSuffix_app str_ltb_irrefl : kutu.
#[export] Hint Resolve str_ltb_strict_weak : kutu.

(** Predicates on the bytes of a string *)

Lemma str_forallb_app p a b : str_forallb p (a +:+ b) = str_forallb p a && str_forallb p b.
Proof. induction a as [|c a IH]; [done|]. simpl. by rewrite IH, andb_assoc. Qed.

Lemma str_forallb_impl (p q : ascii -> bool) s :
  (forall c, p c = true -> q c = true) -> str_forallb p s = true -> str_forallb q s = true.
Proof.
  intros Hpq. induction s as [|c s IH]; [done|]. simpl.
  rewrite !andb_true_iff. naive_solver.
Qed.

(** Splitting *)

Lemma Split_nonempty s c : Split s c <> [].
Proof. destruct s as [|d s]; simpl; [done|]. case_if; [done|]. by case_match. Qed.

Lemma Join_Split s c : Join (Split s c) (String c "") = s.
Proof.
  induction s as [|d s IH]; simpl; [done|].
  pose proof (Split_nonempty s c) as Hne.
  destruct (Split s c) as [|w ws] eqn:E; [done|].
  destruct (Ascii.eqb d c) eqn:Ec.
  - apply Ascii.eqb_eq in Ec as ->. simpl in *. by rewrite IH.
  - destruct ws; simpl in *; by rewrite IH.
Qed.

Definition no_byte (c : ascii) (s : string) : bool := negb (ContainsByte s c).

Lemma Split_no_sep s c : Forall (fun w => no_byte c w = true) (Split s c).
Proof.
  induction s as [|d s IH]; simpl; [by repeat constructor|].
  destruct (Ascii.eqb d c) eqn:Ec; [by constructor|].
  destruct (Split s c) as [|w ws]; inversion IH; subst.
  - constructor; [|done]. unfold no_byte. simpl. by rewrite Ec.
  - constructor; [|done]. unfold no_byte in *. simpl. by rewrite Ec.
Qed.

Lemma Split_app_sep w s c : no_byte c w = true ->
  Split (w +:+ String c s) c = w :: Split s c.
Proof.
  unfold no_byte. induction w as [|d w IH]; simpl.
  - by rewrite Ascii.eqb_refl.
  - destruct (Ascii.eqb d c) eqn:E; [done|]. simpl. intros H. by rewrite (IH H).
Qed.

Lemma Split_single w c : no_byte c w = true -> Split w c = [w].
Proof.
  unfold no_byte. induction w as [|d w IH]; simpl; [done|].
  destruct (Ascii.eqb d c) eqn:E; [done|]. simpl. intros H. by rewrite (IH H).
Qed.

Lemma Split_Join l c : l <> [] -> Forall (fun w => no_byte c w = true) l ->
  Split (Join l (String c "")) c = l.
Proof.
  intros Hne Hall. induction Hall as [|w l Hw Hall IH]; [done|].
  destruct l as [|w' l]; simpl; [by apply Split_single|].
  rewrite Split_app_sep by done. f_equal. by apply IH.
Qed.

Lemma ContainsByte_spec s c : ContainsByte s c = true <-> exists a b, s = a +:+ String c b.
Proof.
  induction s as [|d s IH]; simpl.
  - split; [done|]. intros (a & b & H). by destruct a.
  - rewrite orb_true_iff, Ascii.eqb_eq, IH. split.
    + intros [->|(a & b & ->)]; [by exists "", s|by exists (String d a), b].
    + intros ([|x a] & b & H); simplify_eq/=; [by left|right; by exists a, b].
Qed.

Lemma ContainsByte_app a b c : ContainsByte (a +:+ b) c = ContainsByte a c || ContainsByte b c.
Proof. induction a as [|d a IH]; [done|]. simpl. by rewrite IH, orb_assoc. Qed.

(** Searching *)

Lemma Index_Some s sub i : Index s sub = Some i ->
  exists r, s = str_take i s +:+ sub +:+ r /\ (i <= len s)%nat.
Proof.
  revert i. induction s as [|c s IH]; intros i; simpl.
  - destruct sub; simpl; [|done]. intros [= <-]. exists "". done.
  - case_if as E.
    + intros [= <-]. apply HasPrefix_spec in E as [r Hr]. exists r. simpl.
      split; [done|lia].
    + destruct (Index s sub) as [j|] eqn:Ej; [|done]. intros [= <-].
      destruct (IH j eq_refl) as (r & Hr & Hl). exists r.
      unfold len in *. simpl. split; [|lia]. by rewrite Hr at 1.
Qed.

Lemma Index_None s sub a b : Index s sub = None -> s <> a +:+ sub +:+ b.
Proof.
  revert a. induction s as [|c s IH]; intros a HN Hs.
  - destruct a, sub; simplify_eq/=.
  - cbn [Index] in HN. destruct (HasPrefix (String c s) sub) eqn:E; [done|].
    destruct a as [|x a].
    + rewrite Hs in E. simpl in E. by rewrite HasPrefix_app in E.
    + simplify_eq/=. destruct (Index (a +:+ sub +:+ b) sub) eqn:Ei; [done|].
      by apply (IH a).
Qed.

Lemma Index_byte_app v c r : no_byte c v = true ->
  Index (v +:+ String c r) (String c "") = Some (len v).
Proof.
  unfold no_byte, len. induction v as [|d v IH]; simpl.
  - by rewrite Ascii.eqb_refl.
  - destruct (Ascii.eqb_spec d c) as [->|Hd]; simpl; [done|]. intros H.
    rewrite (IH H). destruct (Ascii.eqb_spec c d) as [->|_]; [done|]. done.
Qed.

Lemma Index_byte_none v c : no_byte c v = true -> Index v (String c "") = None.
Proof.
  unfold no_byte. induction v as [|d v IH]; simpl; [done|].
  destruct (Ascii.eqb_spec d c) as [->|Hd]; simpl; [done|]. intros H.
  rewrite (IH H). by destruct (Ascii.eqb_spec c d) as [->|_].
Qed.

Lemma no_byte_app c a b : no_byte c (a +:+ b) = no_byte c a && no_byte c b.
Proof. unfold no_byte. by rewrite ContainsByte_app, negb_orb. Qed.

Lemma no_byte_forallb p c s : p c = false -> str_forallb p s = true -> no_byte c s = true.
Proof.
  intros Hp. unfold no_byte. induction s as [|d s IH]; simpl; [done|].
  intros [Hd Hs]%andb_true_iff. destruct (Ascii.eqb_spec d c) as [->|_]; [congruence|].
  by apply IH.
Qed.

Lemma Join_cons w w' l sep : Join (w :: w' :: l) sep = w +:+ sep +:+ Join (w' :: l) sep.
Proof. done. Qed.

Lemma no_byte_Join c sep l : c <> sep -> Forall (fun w => no_byte c w = true) l ->
  no_byte c (Join l (String sep "")) = true.
Proof.
  intros Hne Hall. induction Hall as [|w l Hw Hall IH]; [done|].
  destruct l as [|w' l]; [done|].
  rewrite Join_cons, !no_byte_app, Hw, IH. unfold no_byte; simpl.
  destruct (Ascii.eqb_spec sep c) as [->|_]; done.
Qed.

Lemma Split_app a b c : Split (a +:+ String c b) c = Split a c ++ Split b c.
Proof.
  induction a as [|d a IH]; simpl; [by rewrite Ascii.eqb_refl|].
  rewrite IH. destruct (Ascii.eqb d c); [done|].
  pose proof (Split_nonempty a c) as Hne. by destruct (Split a c).
Qed.

(** [sub] does not occur in [s]. *)
Lemma Contains_false s sub : Contains s sub = false <-> forall a b, s <> a +:+ sub +:+ b.
Proof.
  unfold Contains, is_some. split.
  - destruct (Index s sub) eqn:E; [done|]. intros _ a b. by apply Index_None.
  - intros H. destruct (Index s sub) as [i|] eqn:E; [|done].
    apply Index_Some in E as (r & Hr & _). by apply H in Hr.
Qed.

(** Bytes of an encoded rune: one ASCII byte or bytes above it. *)
Lemma EncodeRune_bytes r :
  (0 <= r < 128 /\ EncodeRune r = String (chr r) "") \/
  (~ 0 <= r < 128) /\ str_forallb (fun c => 128 <=? ord c) (EncodeRune r) = true.
Proof.
  unfold EncodeRune.
  destruct (Z.leb_spec 0 r), (Z.ltb_spec r 0x80); simpl; try (left; split; [lia|done]);
    right; (split; [lia|]).
  all: repeat match goal with
    | |- context [if ?b then _ else _] => destruct b eqn:?
    end; bool_prop; simpl; rewrite ?andb_true_r; repeat (apply andb_true_iff; split);
    rewrite ?ord_chr; try (apply Z.leb_le); unfold RuneError in *;
    try lia; try (Z.div_mod_to_equations; lia).
Qed.

(** Reversal *)

Lemma str_rev_app_spec s acc : str_rev_app s acc = str_rev s +:+ acc.
Proof.
  unfold str_rev. revert acc. induction s as [|c s IH]; intros acc; [done|]. cbn [str_rev_app].
  by rewrite (IH (String c acc)), (IH (String c "")), str_app_assoc.
Qed.

Lemma str_rev_cons c s : str_rev (String c s) = str_rev s +:+ String c "".
Proof. unfold str_rev at 1. cbn [str_rev_app]. by rewrite str_rev_app_spec. Qed.

Lemma str_rev_dist a b : str_rev (a +:+ b) = str_rev b +:+ str_rev a.
Proof.
  induction a as [|c a IH]; [by rewrite app_empty_r|].
  by rewrite app_cons, !str_rev_cons, IH, str_app_assoc.
Qed.

Lemma str_rev_invol s : str_rev (str_rev s) = s.
Proof. induction s as [|c s IH]; [done|]. by rewrite str_rev_cons, str_rev_dist, IH. Qed.

Lemma TrimLeft_noop s c : (forall t, s <> String c t) -> TrimLeft s (String c "") = s.
Proof.
  intros H. destruct s as [|d s]; [done|]. cbn [TrimLeft ContainsByte].
  destruct (Ascii.eqb_spec c d) as [->|]; [by destruct (H s)|]. done.
Qed.

Lemma Trim_noop s c : (forall t, s <> String c t) -> (forall t, s <> t +:+ String c "") ->
  Trim s (String c "") = s.
Proof.
  intros H1 H2. unfold Trim, TrimRight. rewrite (TrimLeft_noop s) by done.
  rewrite TrimLeft_noop; [apply str_rev_invol|]. intros t Ht.
  apply (H2 (str_rev t)). rewrite <-(str_rev_invol s), Ht. apply str_rev_cons.
Qed.

(** [strings.Cut] at a byte, through the segments. *)
Lemma Cut_Split p c :
  Cut p (String c "") =
  match Split p c with
  | h :: (_ :: _) as rest => (h, Join rest (String c ""), true)
  | _ => (p, "", false)
  end.
Proof.
  pose proof (Split_no_sep p c) as Hall. pose proof (Join_Split p c) as HJ.
  destruct (Split p c) as [|h [|h2 rest]]; unfold Cut.
  - cbn in HJ. by subst.
  - cbn in HJ. subst. inversion Hall; subst. by rewrite Index_byte_none.
  - rewrite Join_cons in HJ. inversion Hall as [|? ? Hh _]; subst.
    set (J := Join (h2 :: rest) (String c "")) in *.
    change (String c "" +:+ J) with (String c J). rewrite Index_byte_app by done.
    rewrite str_take_app. do 2 f_equal. clear. unfold len.
    induction h as [|d h IH]; [by destruct J|]. exact IH.
Qed.

(** Strings of visible ASCII have no space to trim. *)

Definition graphic (c : ascii) : bool := (33 <=? ord c) && (ord c <? 127).

Lemma str_forallb_rev p s : str_forallb p (str_rev s) = str_forallb p s.
Proof.
  induction s as [|c s IH]; [done|]. rewrite str_rev_cons, str_forallb_app, IH.
  cbn [str_forallb]. by rewrite andb_true_r, andb_comm.
Qed.

Lemma graphic_no_space c : graphic c = true -> ascii_space c = false /\
  (forall d, space2 c d = false) /\ (forall d e, space3 c d e = false) /\
  (forall d, space2 d c = false) /\ (forall d e, space3 d e c = false).
Proof.
  unfold graphic, ascii_space, space2, space3. intros H.
  split_and!; intros; lia.
Qed.

Lemma TrimSpace_noop s : str_forallb graphic s = true -> TrimSpace s = s.
Proof.
  intros Hs. unfold TrimSpace.
  assert (Hl : TrimLeftSpace s = s).
  { destruct s as [|a [|b [|c s]]]; [done|..]; cbn [str_forallb] in Hs;
      apply andb_true_iff in Hs as [(E1 & E2 & E3 & _)%graphic_no_space _]; cbn [TrimLeftSpace];
      by rewrite ?E1, ?E2, ?E3. }
  assert (Hr : TrimRevSpace (str_rev s) = str_rev s).
  { rewrite <-str_forallb_rev in Hs. destruct (str_rev s) as [|a [|b [|c t]]]; [done|..];
      cbn [str_forallb] in Hs;
      apply andb_true_iff in Hs as [(E1 & _ & _ & E2 & E3)%graphic_no_space _]; cbn [TrimRevSpace];
      by rewrite ?E1, ?E2, ?E3. }
  by rewrite Hl, Hr, str_rev_invol.
Qed.

Lemma IndexByte_app v c r : no_byte c v = true -> IndexByte (v +:+ String c r) c = Some (len v).
Proof.
  unfold no_byte, len. induction v as [|d v IH]; cbn [ContainsByte String.length String.append IndexByte].
  - by rewrite Ascii.eqb_refl.
  - destruct (Ascii.eqb_spec d c) as [->|Hne]; [done|]. cbn. intros H. by rewrite (IH H).
Qed.

Lemma IndexByte_none v c : no_byte c v = true -> IndexByte v c = None.
Proof.
  unfold no_byte. induction v as [|d v IH]; [done|]. cbn [ContainsByte IndexByte].
  destruct (Ascii.eqb_spec d c) as [->|Hne]; [done|]. cbn. intros H. by rewrite (IH H).
Qed.

(** The first separator cuts a string in one way. *)

Lemma IndexByte_Some s c i : IndexByte s c = Some i ->
  s = str_take i s +:+ String c (str_drop (i + 1) s) /\ no_byte c (str_take i s) = true.
Proof.
  revert i. induction s as [|a s IH]; intros i; [done|]. cbn [IndexByte].
  destruct (Ascii.eqb_spec a c) as [->|Hne].
  - intros [= <-]. done.
  - destruct (IndexByte s c) as [j|]; [|done]. cbn. intros [= <-].
    destruct (IH j eq_refl) as [Hs Hn]. cbn [str_take str_drop Nat.add]. rewrite app_cons.
    split; [by rewrite <-Hs|]. unfold no_byte in *. cbn [ContainsByte].
    apply Ascii.eqb_neq in Hne. by rewrite Hne.
Qed.

Lemma IndexByte_None s c : IndexByte s c = None -> no_byte c s = true.
Proof.
  unfold no_byte. induction s as [|a s IH]; [done|]. cbn [IndexByte ContainsByte].
  destruct (Ascii.eqb a c); [done|]. destruct (IndexByte s c); [done|]. intros _. by apply IH.
Qed.

Lemma no_byte_cut c a b a' b' : no_byte c a = true -> no_byte c a' = true ->
  a +:+ String c b = a' +:+ String c b' -> a = a' /\ b = b'.
Proof.
  intros Ha Ha' H. pose proof (Index_byte_app a c b Ha) as E1.
  pose proof (Index_byte_app a' c b' Ha') as E2. rewrite H, E2 in E1.
  injection E1 as Hlen.
  assert (Heq : str_take (len a) (a +:+ String c b) = str_take (len a') (a' +:+ String c b'))
    by by rewrite H, Hlen.
  rewrite !str_take_app in Heq. subst a'. apply str_app_inj_l in H. by injection H.
Qed.

(** The byte order and prefixes *)

Lemma str_ltb_nil_r s : str_ltb s "" = false.
Proof. by destruct s. Qed.

Lemma str_ltb_same c a b : str_ltb (String c a) (String c b) = str_ltb a b.
Proof.
  unfold str_ltb, str_compare. cbn [String.compare].
  assert (E : Ascii.compare c c = Eq); [|by rewrite E].
  unfold Ascii.compare. apply N.compare_refl.
Qed.

Lemma str_ltb_diff c d a b a' b' : c <> d ->
  str_ltb (String c a) (String d b) = str_ltb (String c a') (String d b').
Proof.
  intros Hne. unfold str_ltb, str_compare. cbn [String.compare].
  destruct (Ascii.compare c d) eqn:E; [|done..]. by apply Ascii.compare_eq_iff in E.
Qed.

(** What is below a string but not a prefix of it stays below however it is
    extended. *)
Lemma str_ltb_extend d x b : str_ltb d b = true -> HasPrefix b d = false ->
  str_ltb (d +:+ x) b = true.
Proof.
  revert b. induction d as [|a d IH]; intros b Hlt Hp; [done|].
  destruct b as [|c b]; [by rewrite str_ltb_nil_r in Hlt|]. rewrite app_cons.
  cbn [HasPrefix] in Hp. destruct (Ascii.eqb_spec a c) as [->|Hne].
  - rewrite str_ltb_same in *. by apply IH.
  - by rewrite (str_ltb_diff a c _ _ d b Hne).
Qed.

Lemma str_ltb_prefix d x : str_ltb (d +:+ x) d = false.
Proof.
  induction d as [|a d IH]; [by rewrite str_ltb_nil_r|]. by rewrite app_cons, str_ltb_same.
Qed.

Lemma str_ltb_leb_trans a d x : str_ltb a d = true -> str_ltb a (d +:+ x) = true.
Proof.
  intros H. destruct (str_ltb a (d +:+ x)) eqn:E; [done|].
  pose proof (str_ltb_false_trans a (d +:+ x) d) as Ht.
  destruct (decide (a = d +:+ x)) as [->|Hne]; [by rewrite str_ltb_prefix in H|].
  assert (Hgt : str_ltb (d +:+ x) a = true).
  { destruct (str_ltb (d +:+ x) a) eqn:E2; [done|]. destruct Hne. by apply str_ltb_total. }
  pose proof (str_ltb_trans _ _ _ Hgt H). by rewrite str_ltb_prefix in *.
Qed.

(** Two prefixes of one string are comparable. *)
Lemma HasPrefix_comparable s p q : HasPrefix s p = true -> HasPrefix s q = true ->
  HasPrefix p q = true \/ HasPrefix q p = true.
Proof.
  revert s q. induction p as [|a p IH]; intros s q; [by right; destruct q|].
  destruct q as [|b q]; [by left|]. destruct s as [|c s]; [done|]. cbn [HasPrefix].
  intros [->%Ascii.eqb_eq Hp]%andb_true_iff [->%Ascii.eqb_eq Hq]%andb_true_iff.
  rewrite Ascii.eqb_refl. eauto.
Qed.

(** ** Decimal numbers are read back *)

Lemma itoa_go_value fuel n acc : 0 <= n < 10 ^ Z.of_nat fuel -> digits_exact (itoa_go fuel n acc) 0 = digits_exact acc n.
Proof.
  revert n acc. induction fuel as [|fuel IH]; intros n acc Hn.
  { rewrite Z.pow_0_r in Hn. cbn [itoa_go]. by replace n with 0 by lia. }
  cbn [itoa_go]. pose proof (Z.mod_pos_bound n 10 ltac:(lia)). pose proof (Z.div_mod n 10 ltac:(lia)).
  assert (Hs : digits_exact (String (chr (48 + n mod 10)) acc) (n / 10) = digits_exact acc n).
  { cbn [digits_exact]. rewrite ord_chr by lia. f_equal. lia. }
  destruct (Z.eqb_spec (n / 10) 0) as [E|E]; [by rewrite <-Hs, E|]. rewrite IH; [done|].
  rewrite Nat2Z.inj_succ, Z.pow_succ_r in Hn by lia. split; [apply Z.div_pos; lia|apply Z.div_lt_upper_bound; lia].
Qed.

Lemma itoa_go_digits fuel n acc : 0 <= n -> str_forallb is_digit acc = true -> str_forallb is_digit (itoa_go fuel n acc) = true.
Proof.
  revert n acc. induction fuel as [|fuel IH]; intros n acc Hn Hacc; [done|]. cbn [itoa_go].
  pose proof (Z.mod_pos_bound n 10 ltac:(lia)).
  assert (H' : str_forallb is_digit (String (chr (48 + n mod 10)) acc) = true).
  { cbn [str_forallb]. rewrite Hacc, andb_true_r. unfold is_digit. rewrite ord_chr by lia.
    apply andb_true_iff. split; apply Z.leb_le; lia. }
  destruct (_ =? 0); [done|]. apply IH; [apply Z.div_pos; lia|done].
Qed.

Lemma itoa_go_nonempty fuel n acc : itoa_go (S fuel) n acc <> "".
Proof.
  revert n acc. induction fuel as [|fuel IH]; intros n acc; cbn [itoa_go]; destruct (_ =? 0); try done. apply IH.
Qed.

Lemma itoa_value n : 0 <= n <= int64_max -> digits_exact (itoa n) 0 = n.
Proof.
  intros Hn. unfold itoa. rewrite (proj2 (Z.ltb_ge n 0)) by lia. rewrite itoa_go_value; [done|].
  unfold int64_max in Hn. change (10 ^ Z.of_nat 20) with 100000000000000000000. lia.
Qed.

Lemma itoa_digits n : 0 <= n -> str_forallb is_digit (itoa n) = true.
Proof. intros Hn. unfold itoa. rewrite (proj2 (Z.ltb_ge n 0)) by lia. by apply itoa_go_digits. Qed.

Lemma itoa_inj a b : 0 <= a <= int64_max -> 0 <= b <= int64_max -> itoa a = itoa b -> a = b.
Proof. intros Ha Hb E. rewrite <-(itoa_value a), <-(itoa_value b) by done. by rewrite E. Qed.

Lemma ParseInt10_itoa n : 0 <= n <= int64_max -> ParseInt10 (itoa n) = Some n.
Proof.
  intros Hn. pose proof (itoa_digits n ltac:(lia)) as Hd. pose proof (itoa_value n Hn) as Hv.
  assert (Hne : itoa n <> "").
  { unfold itoa. rewrite (proj2 (Z.ltb_ge n 0)) by lia. apply itoa_go_nonempty. }
  unfold ParseInt10. destruct (itoa n) as [|c t] eqn:E; [done|]. pose proof Hd as Hd'. cbn [str_forallb] in Hd'.
  apply andb_true_iff in Hd' as [Hc _].
  destruct (Ascii.eqb_spec c "-") as [->|_]; [done|]. destruct (Ascii.eqb_spec c "+") as [->|_]; [done|].
  rewrite Hd. cbn [String.eqb negb orb]. rewrite Hv. by rewrite (proj2 (Z.leb_le n int64_max)) by lia.
Qed.

(** A string cut at its last separator. *)
Lemma last_cut c a b x y : no_byte c x = true -> no_byte c y = true -> a +:+ String c x = b +:+ String c y -> a = b /\ x = y.
Proof.
  intros Hx Hy E.
  assert (H : Split a c ++ [x] = Split b c ++ [y]).
  { rewrite <-(Split_single x c), <-(Split_single y c) by done. rewrite <-!Split_app. by f_equal. }
  apply app_inj_tail in H as [Ha ->]. split; [|done]. by rewrite <-(Join_Split a c), Ha, Join_Split.
Qed.

(** ** Cutting at a separator *)

Lemma app_nil_inv s t : s +:+ t = "" -> s = "" /\ t = "".
Proof. by destruct s. Qed.

Lemma LastIndex_Some s sub i : LastIndex s sub = Some i ->
  s = str_take i s +:+ sub +:+ str_drop (i + len sub) s.
Proof.
  revert i. induction s as [|c s IH]; intros i; cbn [LastIndex].
  - destruct (HasPrefix "" sub) eqn:E; [|done]. apply HasPrefix_spec in E as [r E]. intros [= <-].
    symmetry in E. by apply app_nil_inv in E as [-> _].
  - destruct (LastIndex s sub) as [j|] eqn:Ej.
    + intros [= <-]. cbn [str_take str_drop Nat.add]. rewrite app_cons. f_equal. by apply IH.
    + destruct (HasPrefix (String c s) sub) eqn:E; [|done]. intros [= <-].
      apply HasPrefix_spec in E as [r E]. cbn [str_take Nat.add].
      by rewrite E, str_drop_app.
Qed.

Lemma LastIndex_None s sub : LastIndex s sub = None -> forall a b, s <> a +:+ sub +:+ b.
Proof.
  induction s as [|c s IH]; cbn [LastIndex]; intros H a b E.
  - destruct (HasPrefix "" sub) eqn:Ep; [done|]. symmetry in E.
    apply app_nil_inv in E as [_ E]. apply app_nil_inv in E as [-> _]. done.
  - destruct (LastIndex s sub) eqn:El; [done|].
    destruct (HasPrefix (String c s) sub) eqn:Ep; [done|].
    destruct a as [|d a].
    { change (String c s = sub +:+ b) in E. by rewrite E, HasPrefix_app in Ep. }
    injection E as <- E. by eapply IH.
Qed.

Lemma cut_at_Some body sep i a b : cut_at body sep i = Some (a, b) ->
  exists j, i = Some j /\ a = str_take j body /\ b = str_drop (j + len sep) body.
Proof. destruct i as [[|i]|]; [done| |done]. intros [= <- <-]. eauto. Qed.

Lemma cut_Index body sep a b : cut_at body sep (Index body sep) = Some (a, b) ->
  body = a +:+ sep +:+ b.
Proof.
  intros (i & Hi & -> & ->)%cut_at_Some. destruct (Index_Some body sep i Hi) as (r & Hr & Hl).
  assert (El : len (str_take i body +:+ sep) = (i + len sep)%nat) by (rewrite len_app, len_take; lia).
  pose proof (str_drop_app (str_take i body +:+ sep) r) as Hd.
  rewrite (str_app_assoc _ sep r), <-Hr, El in Hd. by rewrite Hd.
Qed.

Lemma cut_LastIndex body sep a b : cut_at body sep (LastIndex body sep) = Some (a, b) ->
  body = a +:+ sep +:+ b.
Proof. intros (i & Hi & -> & ->)%cut_at_Some. by apply LastIndex_Some. Qed.
