(* ===== verification/GoRegexp.v ===== *)
(** * Anchored regular expressions

    The package [regexp] on the patterns the code compiles: anchored at both
    ends, over ASCII character classes, with [?], [*], [+] and non-capturing
    groups.  [re_match] runs Brzozowski derivatives; [re_match_spec] relates
    it to the language of the expression. *)

From Stdlib Require Import ZArith Lia Ascii.
From stdpp Require Import base list strings.
From S2P Require Import Prelude GoStrings.

Inductive re : Type :=
| Nothing
| Empty
| Class (p : ascii -> bool)
| Alt (a b : re)
| Cat (a b : re)
| Star (a : re).

Definition Plus (a : re) : re := Cat a (Star a).
Definition Opt (a : re) : re := Alt Empty a.
Definition Chr (c : ascii) : re := Class (Ascii.eqb c).

Fixpoint nullable (r : re) : bool :=
  match r with
  | Nothing | Class _ => false
  | Empty | Star _ => true
  | Alt a b => nullable a || nullable b
  | Cat a b => nullable a && nullable b
  end.

Fixpoint deriv (c : ascii) (r : re) : re :=
  match r with
  | Nothing | Empty => Nothing
  | Class p => if p c then Empty else Nothing
  | Alt a b => Alt (deriv c a) (deriv c b)
  | Cat a b =>
      if nullable a then Alt (Cat (deriv c a) b) (deriv c b) else Cat (deriv c a) b
  | Star a => Cat (deriv c a) (Star a)
  end.

(** [MustCompile("^r$").MatchString(s)] *)
Fixpoint re_match (r : re) (s : string) : bool :=
  match s with "" => nullable r | String c s => re_match (deriv c r) s end.

(** The language of an expression. *)
Inductive lang : re -> string -> Prop :=
| lang_empty : lang Empty ""
| lang_class p c : p c = true -> lang (Class p) (String c "")
| lang_alt_l a b s : lang a s -> lang (Alt a b) s
| lang_alt_r a b s : lang b s -> lang (Alt a b) s
| lang_cat a b s t : lang a s -> lang b t -> lang (Cat a b) (s +:+ t)
| lang_star_nil a : lang (Star a) ""
| lang_star_cons a s t : lang a s -> lang (Star a) t -> lang (Star a) (s +:+ t).

#[export] Hint Constructors lang : kutu.

Lemma nullable_spec r : nullable r = true <-> lang r "".
Proof.
  induction r as [| |p|a IHa b IHb|a IHa b IHb|a IHa]; simpl.
  - split; [done|inversion 1].
  - split; [constructor|done].
  - split; [done|inversion 1].
  - rewrite orb_true_iff, IHa, IHb. split; [intros []; eauto with kutu|].
    inversion 1; subst; auto.
  - rewrite andb_true_iff, IHa, IHb. split.
    + intros [Ha Hb]. by apply (lang_cat a b "" "").
    + inversion 1 as [| | | |? ? s t Hs Ht Heq Hst| |]; subst.
      by apply app_nil_inv in Hst as [-> ->].
  - split; [constructor|done].
Qed.

Lemma lang_star_inv a c u : lang (Star a) (String c u) ->
  exists s t, u = s +:+ t /\ lang a (String c s) /\ lang (Star a) t.
Proof.
  intros H. remember (Star a) as r eqn:Hr. remember (String c u) as w eqn:Hw.
  revert u Hw. induction H as [| | | | | |a' s t Hs _ Ht IH]; intros u Hw; simplify_eq.
  destruct s as [|d s]; simplify_eq/=; [by apply IH|]. eauto 6.
Qed.

Lemma deriv_spec c r s : lang (deriv c r) s <-> lang r (String c s).
Proof.
  revert s. induction r as [| |p|a IHa b IHb|a IHa b IHb|a IHa]; intros s; simpl.
  - split; inversion 1.
  - split; inversion 1.
  - destruct (p c) eqn:E; split; inversion 1; subst; auto with kutu. congruence.
  - split; inversion 1; subst.
    + apply lang_alt_l. by apply IHa.
    + apply lang_alt_r. by apply IHb.
    + apply lang_alt_l. by apply IHa.
    + apply lang_alt_r. by apply IHb.
  - assert (Hl : lang (Cat (deriv c a) b) s -> lang (Cat a b) (String c s)).
    { inversion 1 as [| | | |? ? u t Hu Ht| |]; subst.
      rewrite <-app_cons. constructor; [by apply IHa|done]. }
    assert (Hr : lang (Cat a b) (String c s) ->
      lang (Cat (deriv c a) b) s \/ (nullable a = true /\ lang (deriv c b) s)).
    { inversion 1 as [| | | |? ? u t Hu Ht Heq Hst| |]; subst.
      destruct u as [|d u]; simplify_eq/=.
      - right. split; [by apply nullable_spec|by apply IHb].
      - left. constructor; [by apply IHa|done]. }
    destruct (nullable a) eqn:En; split.
    + inversion 1; subst; [auto|]. apply (lang_cat a b "").
      * by apply nullable_spec.
      * by apply IHb.
    + intros H%Hr. destruct H as [?|[_ ?]]; auto with kutu.
    + auto.
    + intros H%Hr. by destruct H as [?|[? _]].
  - split.
    + inversion 1 as [| | | |? ? u t Hu Ht| |]; subst.
      rewrite <-app_cons. constructor; [by apply IHa|done].
    + intros (u & t & -> & Hu & Ht)%lang_star_inv. constructor; [by apply IHa|done].
Qed.

Theorem re_match_spec r s : re_match r s = true <-> lang r s.
Proof.
  revert r. induction s as [|c s IH]; intros r; simpl; [apply nullable_spec|].
  by rewrite IH, deriv_spec.
Qed.

(** Every byte of a string of the language is in some class of the
    expression. *)
Fixpoint alphabet (r : re) (c : ascii) : bool :=
  match r with
  | Nothing | Empty => false
  | Class p => p c
  | Alt a b | Cat a b => alphabet a c || alphabet b c
  | Star a => alphabet a c
  end.

Lemma lang_alphabet r s : lang r s -> str_forallb (alphabet r) s = true.
Proof.
  induction 1 as [|p c Hc|a b s _ IH|a b s _ IH|a b s t _ IHs _ IHt| |a s t _ IHs _ IHt];
    simpl; try done.
  - by rewrite Hc.
  - eapply str_forallb_impl; [|exact IH]. intros c Hc. simpl. by rewrite Hc.
  - eapply str_forallb_impl; [|exact IH]. intros c Hc. simpl. by rewrite Hc, orb_true_r.
  - rewrite str_forallb_app. apply andb_true_iff. split.
    + eapply str_forallb_impl; [|exact IHs]. intros c Hc. simpl. by rewrite Hc.
    + eapply str_forallb_impl; [|exact IHt]. intros c Hc. simpl. by rewrite Hc, orb_true_r.
  - rewrite str_forallb_app. apply andb_true_iff. split; [exact IHs|exact IHt].
Qed.

Lemma lang_no_byte r c s : alphabet r c = false -> lang r s -> no_byte c s = true.
Proof. intros Hc Hs. eapply no_byte_forallb; [exact Hc|by apply lang_alphabet]. Qed.
