(* ===== verification/GoPath.v ===== *)
(** * Go's package [path]: the glob matcher, Clean and Join

    [path.Match], on which the policy filters and the retention patterns
    rest: "*" matches any run without "/", "?" one rune other than "/", "[...]"
    a class of runes and "\" takes the next character literally.  [None]
    stands for [ErrBadPattern].  The loops run on fuel that the length of the
    pattern bounds.  [Clean] and [PathJoin] normalise paths; joining paths of
    plain segments only puts the separators. *)

From Stdlib Require Import ZArith Lia Ascii.
From stdpp Require Import base list strings.
From S2P Require Import Prelude GoStrings.

Local Open Scope Z_scope.

(** One, possibly escaped, rune of a character class. *)
Definition getEsc (chunk : string) : option (Z * string) :=
  match chunk with
  | "" => None
  | String c ch =>
      if Ascii.eqb c "-" || Ascii.eqb c "]" then None else
      let body := if Ascii.eqb c "\" then ch else chunk in
      if String.eqb body "" then None else
      let '(r, n) := DecodeRune body in
      if (r =? RuneError) && (n =? 1)%nat then None else
      let nchunk := str_drop n body in
      if String.eqb nchunk "" then None else Some (r, nchunk)
  end.

(** The ranges of a class up to its "]": does one hold [r]? *)
Fixpoint class_ranges (fuel : nat) (chunk : string) (r : Z) (m : bool) (nrange : nat)
    : option (bool * string) :=
  match fuel with
  | O => None
  | S fuel =>
      match chunk with
      | String "]" ch => if (0 <? nrange)%nat then Some (m, ch) else None
      | _ =>
          match getEsc chunk with
          | None => None
          | Some (lo, ch) =>
              match ch with
              | String "-" ch' =>
                  match getEsc ch' with
                  | None => None
                  | Some (hi, ch'') =>
                      class_ranges fuel ch'' r (m || ((lo <=? r) && (r <=? hi))) (S nrange)
                  end
              | _ => class_ranges fuel ch r (m || ((lo <=? r) && (r <=? lo))) (S nrange)
              end
          end
      end
  end.

Fixpoint matchChunk_go (fuel : nat) (chunk s : string) (failed : bool) : option (option string) :=
  match fuel with
  | O => None
  | S fuel =>
      match chunk with
      | "" => Some (if failed then None else Some s)
      | String c ch =>
          let failed := failed || String.eqb s "" in
          let literal l ch :=
            match s with
            | String d s' =>
                if failed then matchChunk_go fuel ch s true
                else matchChunk_go fuel ch s' (negb (Ascii.eqb l d))
            | "" => matchChunk_go fuel ch s true
            end in
          if Ascii.eqb c "[" then
            let '(r, n) := if failed then (0, 0%nat) else DecodeRune s in
            let '(negated, ch) :=
              match ch with String "^" ch' => (true, ch') | _ => (false, ch) end in
            match class_ranges (S (len ch)) ch r false 0 with
            | None => None
            | Some (m, ch) => matchChunk_go fuel ch (str_drop n s) (failed || Bool.eqb m negated)
            end
          else if Ascii.eqb c "?" then
            if failed then matchChunk_go fuel ch s true
            else matchChunk_go fuel ch (str_drop (snd (DecodeRune s)) s) (HasPrefix s "/")
          else if Ascii.eqb c "\" then
            match ch with "" => None | String l ch => literal l ch end
          else literal c ch
      end
  end.

Definition matchChunk (chunk s : string) : option (option string) :=
  matchChunk_go (S (len chunk)) chunk s false.

Fixpoint skip_stars (pattern : string) : string :=
  match pattern with
  | String c p => if Ascii.eqb c "*" then skip_stars p else pattern
  | "" => ""
  end.

(** The chunk up to the next "*" outside a class. *)
Fixpoint scan_go (pattern : string) (inrange : bool) : string * string :=
  match pattern with
  | "" => ("", "")
  | String c p =>
      if Ascii.eqb c "\" then
        match p with
        | "" => (String c "", "")
        | String d p' => let '(a, b) := scan_go p' inrange in (String c (String d a), b)
        end
      else if Ascii.eqb c "*" && negb inrange then ("", pattern)
      else
        let inrange :=
          if Ascii.eqb c "[" then true else if Ascii.eqb c "]" then false else inrange in
        let '(a, b) := scan_go p inrange in (String c a, b)
  end.

Definition scanChunk (pattern : string) : bool * string * string :=
  let '(chunk, rest) := scan_go (skip_stars pattern) false in
  (HasPrefix pattern "*", chunk, rest).

(** The search of a chunk that follows a star, skipping bytes other than "/". *)
Fixpoint skip_match (chunk rest name : string) : option (option string) :=
  match name with
  | "" => Some None
  | String c name =>
      if Ascii.eqb c "/" then Some None else
      match matchChunk chunk name with
      | None => None
      | Some (Some t) =>
          if String.eqb rest "" && negb (String.eqb t "") then skip_match chunk rest name
          else Some (Some t)
      | Some None => skip_match chunk rest name
      end
  end.

(** The check of the rest of the pattern before a mismatch is reported. *)
Fixpoint rest_valid (fuel : nat) (pattern : string) : bool :=
  match fuel with
  | O => true
  | S fuel =>
      if String.eqb pattern "" then true else
      let '(_, chunk, rest) := scanChunk pattern in
      is_some (matchChunk chunk "") && rest_valid fuel rest
  end.

Fixpoint Match_go (fuel : nat) (pattern name : string) : option bool :=
  match fuel with
  | O => None
  | S fuel =>
      if String.eqb pattern "" then Some (String.eqb name "") else
      let '(star, chunk, rest) := scanChunk pattern in
      if star && String.eqb chunk "" then Some (no_byte "/" name) else
      let no_match := if rest_valid (S (len rest)) rest then Some false else None in
      let skip := if star then skip_match chunk rest name else Some None in
      match matchChunk chunk name with
      | None => None
      | Some (Some t) =>
          if String.eqb t "" || negb (String.eqb rest "") then Match_go fuel rest t
          else match skip with
               | None => None
               | Some (Some t) => Match_go fuel rest t
               | Some None => no_match
               end
      | Some None =>
          match skip with
          | None => None
          | Some (Some t) => Match_go fuel rest t
          | Some None => no_match
          end
      end
  end.

Definition Match (pattern name : string) : option bool :=
  Match_go (S (len pattern)) pattern name.

(** [ok, err := path.Match(...); err == nil && ok] *)
Definition matches (pattern name : string) : bool :=
  match Match pattern name with Some b => b | None => false end.

(** ** Patterns without metacharacters *)

Definition meta (c : ascii) : bool :=
  Ascii.eqb c "*" || Ascii.eqb c "?" || Ascii.eqb c "[" || Ascii.eqb c "\".

Definition plain (p : string) : bool := str_forallb (fun c => negb (meta c)) p.

Lemma plain_cons c p : plain (String c p) = true ->
  Ascii.eqb c "*" = false /\ Ascii.eqb c "?" = false /\ Ascii.eqb c "[" = false /\
  Ascii.eqb c "\" = false /\ plain p = true.
Proof.
  unfold plain, meta. simpl. rewrite andb_true_iff, negb_true_iff, !orb_false_iff. tauto.
Qed.

Lemma scan_plain p b : plain p = true -> scan_go p b = (p, "").
Proof.
  revert b. induction p as [|c p IH]; intros b; [done|].
  intros (H1 & _ & _ & H4 & Hp)%plain_cons. cbn [scan_go]. rewrite H1, H4. simpl.
  by rewrite IH.
Qed.

Lemma matchChunk_plain n p s : plain p = true -> (len p < n)%nat ->
  matchChunk_go n p s false =
    Some (if HasPrefix s p then Some (str_drop (len p) s) else None)
  /\ matchChunk_go n p s true = Some None.
Proof.
  revert p s. induction n as [|n IH]; intros p s Hp Hl; [lia|].
  destruct p as [|c p]; [by destruct s|].
  apply plain_cons in Hp as (H1 & H2 & H3 & H4 & Hp). unfold len in Hl. simpl in Hl.
  cbn [matchChunk_go]. rewrite H2, H3, H4.
  assert (Hlen : (len p < n)%nat) by (unfold len; lia).
  destruct s as [|d s]; cbn [orb String.eqb HasPrefix].
  - split; apply IH; done.
  - destruct (IH p s Hp Hlen) as [E1 E2]. destruct (Ascii.eqb c d); cbn [negb andb].
    + split; [exact E1|by apply (IH p (String d s))].
    + split; [exact E2|by apply (IH p (String d s))].
Qed.

(** A pattern without metacharacters matches itself alone. *)
Lemma Match_plain p name : plain p = true -> Match p name = Some (String.eqb name p).
Proof.
  intros Hp. unfold Match. destruct p as [|c p].
  { simpl. by destruct name. }
  cbn [Match_go String.eqb]. unfold scanChunk.
  assert (Hs : skip_stars (String c p) = String c p /\ HasPrefix (String c p) "*" = false).
  { apply plain_cons in Hp as (H1 & _). cbn [skip_stars HasPrefix].
    rewrite (Ascii.eqb_sym "*"), H1. done. }
  destruct Hs as [-> ->]. rewrite scan_plain by done. cbn [andb].
  unfold matchChunk. destruct (matchChunk_plain (S (len (String c p))) (String c p) name Hp) as [-> _]; [lia|].
  destruct (HasPrefix name (String c p)) eqn:E.
  - apply HasPrefix_spec in E as [r ->]. rewrite str_drop_app.
    cbn [negb String.eqb]. rewrite orb_false_r.
    destruct (String.eqb_spec r "") as [->|Hr].
    + rewrite app_empty_r. unfold len. cbn [String.length Match_go String.eqb].
      by rewrite Ascii.eqb_refl, String.eqb_refl.
    + cbn [rest_valid String.eqb]. symmetry. f_equal. apply String.eqb_neq. intros Heq.
      apply Hr, (str_app_inj_l (String c p)). by rewrite app_empty_r.
  - cbn [rest_valid String.eqb]. symmetry. f_equal. apply String.eqb_neq. intros ->.
    by rewrite HasPrefix_refl in E.
Qed.

Lemma matches_plain p name : plain p = true -> matches p name = String.eqb name p.
Proof. intros Hp. unfold matches. by rewrite Match_plain. Qed.

(** ** Cleaning and joining *)

(** One segment of a path against the stack of kept segments, top first. *)
Definition clean_step (rooted : bool) (stack : list string) (seg : string) : list string :=
  if String.eqb seg "" || String.eqb seg "." then stack
  else if String.eqb seg ".." then
    match stack with
    | [] => if rooted then [] else [".."]
    | top :: rest => if String.eqb top ".." then ".." :: stack else rest
    end
  else seg :: stack.

Definition Clean (p : string) : string :=
  let rooted := HasPrefix p "/" in
  let body := Join (rev (foldl (clean_step rooted) [] (Split p "/"))) "/" in
  let out := if rooted then "/" +:+ body else body in
  if String.eqb out "" then "." else out.

(** [path.Join] puts a separator before every element after the first
    non-empty one and cleans the result. *)
Definition join_step (buf e : string) : string :=
  if (0 <? len buf)%nat || negb (String.eqb e "")
  then (if (0 <? len buf)%nat then buf +:+ "/" else buf) +:+ e
  else buf.

Definition PathJoin (elems : list string) : string :=
  if forallb (fun e => String.eqb e "") elems then ""
  else Clean (foldl join_step "" elems).

(** A segment that names an entry, and a relative path of such segments. *)
Definition good_seg (s : string) : Prop :=
  s <> "" /\ s <> "." /\ s <> ".." /\ no_byte "/" s = true.

Definition good_path (p : string) : Prop := Forall good_seg (Split p "/").

#[export] Instance good_seg_dec s : Decision (good_seg s).
Proof. unfold good_seg. apply _. Defined.

#[export] Instance good_path_dec p : Decision (good_path p).
Proof. unfold good_path. apply _. Defined.

Lemma clean_good stack segs : Forall good_seg segs ->
  foldl (clean_step false) stack segs = rev segs ++ stack.
Proof.
  intros H. revert stack. induction H as [|s segs (H1 & H2 & H3 & _) _ IH]; intros stack; [done|].
  cbn [foldl rev]. unfold clean_step at 2.
  apply String.eqb_neq in H1, H2, H3. rewrite H1, H2, H3. cbn [orb].
  by rewrite IH, <-app_assoc.
Qed.

Lemma good_path_nonempty p : good_path p -> p <> "".
Proof. intros H ->. by inversion H as [|? ? [? _]]. Qed.

Lemma good_path_unrooted p : good_path p -> HasPrefix p "/" = false.
Proof.
  intros H. destruct (HasPrefix p "/") eqn:E; [|done].
  apply HasPrefix_spec in E as [r ->]. inversion H as [|? ? [? _]]; done.
Qed.

Lemma Clean_good p : good_path p -> Clean p = p.
Proof.
  intros H. unfold Clean. rewrite good_path_unrooted by done.
  rewrite clean_good, app_nil_r, rev_involutive, Join_Split by done.
  by rewrite (proj2 (String.eqb_neq p "") (good_path_nonempty p H)).
Qed.

Lemma good_path_app a b : good_path a -> good_path b -> good_path (a +:+ "/" +:+ b).
Proof.
  intros Ha Hb. unfold good_path. change ("/" +:+ b) with (String "/" b).
  rewrite Split_app. by apply Forall_app.
Qed.

Lemma good_seg_path s : good_seg s -> good_path s.
Proof.
  intros H. unfold good_path. rewrite Split_single by apply H. by constructor.
Qed.

#[export] Hint Resolve good_path_app good_seg_path : kutu.

Lemma Join_good l : l <> [] -> Forall good_path l -> good_path (Join l "/").
Proof.
  intros Hl H. induction H as [|p l Hp H IH]; [done|]. destruct l as [|q l]; [done|].
  rewrite Join_cons. apply good_path_app; [done|by apply IH].
Qed.

Lemma join_steps l : Forall good_path l -> forall buf, buf <> "" ->
  foldl join_step buf l = Join (buf :: l) "/".
Proof.
  intros H. induction H as [|p l Hp H IH]; intros buf Hb; [done|]. cbn [foldl].
  assert (E : join_step buf p = buf +:+ "/" +:+ p).
  { unfold join_step. replace (0 <? len buf)%nat with true by (by destruct buf). cbn [orb].
    by rewrite str_app_assoc. }
  rewrite E, IH by (by destruct buf).
  destruct l as [|q l]; [by rewrite Join_cons|].
  by rewrite !Join_cons, !str_app_assoc.
Qed.

(** Joining paths of plain segments only puts the separators. *)
Lemma PathJoin_good l : l <> [] -> Forall good_path l -> PathJoin l = Join l "/".
Proof.
  intros Hl H. pose proof (Join_good l Hl H) as Hg. unfold PathJoin.
  destruct H as [|p l Hp H]; [done|]. pose proof (good_path_nonempty p Hp) as Hne.
  cbn [forallb]. rewrite (proj2 (String.eqb_neq p "") Hne). cbn [andb foldl].
  assert (E : join_step "" p = p).
  { unfold join_step. by rewrite (proj2 (String.eqb_neq p "") Hne). }
  rewrite E, join_steps by done. by apply Clean_good.
Qed.

(** A path cut at its last separator. *)
Lemma last_segment a b x y : no_byte "/" x = true -> no_byte "/" y = true ->
  a +:+ "/" +:+ x = b +:+ "/" +:+ y -> a = b /\ x = y.
Proof. exact (last_cut "/" a b x y). Qed.

(** ** Absolute paths *)

(** The segments an absolute path resolves to. *)
Definition resolve (p : string) : list string := rev (foldl (clean_step true) [] (Split p "/")).

Definition abs (l : list string) : string := "/" +:+ Join l "/".

Lemma clean_step_good (stack : list string) seg : Forall good_seg stack -> no_byte "/" seg = true ->
  Forall good_seg (clean_step true stack seg).
Proof.
  intros Hs Hn. unfold clean_step. case_if; [done|]. case_if as E2.
  - destruct Hs as [|top rest Ht Hr]; [done|]. case_if; [|done].
    destruct Ht as (_ & _ & ? & _). congruence.
  - constructor; [|done]. by bool_prop.
Qed.

Lemma resolve_good p : Forall good_seg (resolve p).
Proof.
  unfold resolve. apply Forall_rev. pose proof (Split_no_sep p "/") as Hs.
  assert (H : Forall good_seg (@nil string)) by done. revert H.
  generalize (@nil string) as stack. induction Hs as [|seg segs Hn _ IH]; intros stack H; [done|].
  by apply IH, clean_step_good.
Qed.

Lemma clean_good_rooted stack segs : Forall good_seg segs ->
  foldl (clean_step true) stack segs = rev segs ++ stack.
Proof.
  intros H. revert stack. induction H as [|s segs (H1 & H2 & H3 & _) _ IH]; intros stack; [done|].
  cbn [foldl rev]. unfold clean_step at 2.
  apply String.eqb_neq in H1, H2, H3. rewrite H1, H2, H3. cbn [orb].
  by rewrite IH, <-app_assoc.
Qed.

(** A leading separator adds an empty segment. *)
Lemma resolve_slash p : resolve (String "/" p) = resolve p.
Proof. unfold resolve. by cbn [Split Ascii.eqb Bool.eqb foldl clean_step String.eqb orb]. Qed.

Lemma resolve_app a b : Forall good_seg (Split b "/") \/ b = "" ->
  resolve (a +:+ String "/" b) = resolve a ++ (if String.eqb b "" then [] else Split b "/").
Proof.
  intros Hb. unfold resolve. rewrite Split_app, foldl_app. destruct Hb as [Hb| ->].
  - rewrite clean_good_rooted by done. rewrite rev_app_distr, rev_involutive.
    destruct (String.eqb_spec b "") as [->|_]; [|done]. by inversion Hb as [|? ? [? _]].
  - cbn. by rewrite app_nil_r.
Qed.

Lemma Split_Join_good l : l <> [] -> Forall good_seg l -> Split (Join l "/") "/" = l.
Proof.
  intros Hl H. apply Split_Join; [done|]. eapply Forall_impl; [exact H|]. by intros s (_ & _ & _ & ?).
Qed.

Lemma resolve_abs l : Forall good_seg l -> resolve (abs l) = l.
Proof.
  intros H. unfold abs. change ("/" +:+ Join l "/") with (String "/" (Join l "/")).
  rewrite resolve_slash. destruct l as [|s l]; [done|]. unfold resolve.
  rewrite Split_Join_good by done. by rewrite clean_good_rooted, app_nil_r, rev_involutive.
Qed.

Lemma Clean_rooted p : HasPrefix p "/" = true -> Clean p = abs (resolve p).
Proof. intros H. unfold Clean, abs, resolve. by rewrite H. Qed.

Lemma Clean_abs l : Forall good_seg l -> Clean (abs l) = abs l.
Proof. intros H. rewrite Clean_rooted by done. by rewrite resolve_abs. Qed.

Lemma abs_inj l l' : Forall good_seg l -> Forall good_seg l' -> abs l = abs l' -> l = l'.
Proof. intros H H' E. by rewrite <-(resolve_abs l), E, resolve_abs. Qed.

(** [Join] of an absolute path and a relative one resolves in the first. *)
Lemma PathJoin_abs l b : Forall good_seg l -> Forall good_seg (Split b "/") \/ b = "" ->
  PathJoin [abs l; b] = abs (l ++ (if String.eqb b "" then [] else Split b "/")).
Proof.
  intros Hl Hb. unfold PathJoin. cbn [forallb foldl].
  replace (String.eqb (abs l) "") with false by done. cbn [andb].
  replace (join_step "" (abs l)) with (abs l) by done.
  assert (E : join_step (abs l) b = abs l +:+ String "/" b).
  { unfold join_step. replace (0 <? len (abs l))%nat with true by done. cbn [orb].
    by rewrite str_app_assoc. }
  rewrite E, Clean_rooted by done. by rewrite resolve_app, resolve_abs.
Qed.

Lemma good_path_resolve p : good_path p -> resolve p = Split p "/".
Proof. intros H. unfold resolve. by rewrite clean_good_rooted, app_nil_r, rev_involutive. Qed.

Lemma Trim_good p : good_path p -> Trim p "/" = p.
Proof.
  intros Hp. apply Trim_noop.
  - intros t ->. by apply good_path_unrooted in Hp.
  - intros t ->. unfold good_path in Hp. change (t +:+ "/") with (t +:+ String "/" "") in Hp.
    rewrite Split_app in Hp. apply Forall_app in Hp as [_ Hp]. by inversion Hp as [|? ? [? _]].
Qed.

(** A joined list of clean paths resolves to their segments. *)
Lemma resolve_Join l : Forall good_path l -> resolve (Join l "/") = concat ((fun p => Split p "/") <$> l).
Proof.
  induction 1 as [|p l Hp Hl IH]; [done|]. destruct l as [|q l].
  - cbn. rewrite app_nil_r. by apply good_path_resolve.
  - rewrite Join_cons. change ("/" +:+ Join (q :: l) "/") with (String "/" (Join (q :: l) "/")).
    assert (Hg : good_path (Join (q :: l) "/")) by (by apply Join_good).
    rewrite resolve_app by (by left).
    rewrite (proj2 (String.eqb_neq _ "") (good_path_nonempty _ Hg)).
    rewrite <-(good_path_resolve _ Hg), IH, good_path_resolve by done. done.
Qed.

Lemma resolve_PathJoin l : Forall good_path l -> resolve (PathJoin l) = concat ((fun p => Split p "/") <$> l).
Proof.
  intros H. destruct l as [|p l]; [done|]. rewrite PathJoin_good by done. by apply resolve_Join.
Qed.

Lemma Join_segs_good l : l <> [] -> Forall good_seg l -> good_path (Join l "/").
Proof. intros Hl H. unfold good_path. by rewrite Split_Join_good. Qed.
