(* ===== verification/Semver.v ===== *)
(** * internal/registry/common/semver: the version comparator

    [Compare], [SortDesc] and [split] of semver.go.  A numeric component is a
    Go [int]: [n = n*10 + digit] wraps around at 64 bits.  The theorems: on
    versions [split] accepts, [Compare] is a total preorder that orders
    components numerically and a pre-release below its release and ignores
    build metadata, so that [SortDesc] sorts newest first; components of up to
    eighteen digits are read exactly.  Two more state what the comparator does
    outside that range: the lexicographic fallback for unparseable input makes
    a cycle with the numeric order, and a component past 2^64 wraps. *)

From Stdlib Require Import ZArith Lia Ascii.
From stdpp Require Import base list strings gmap sorting.
From S2P Require Import Prelude GoStrings.

Local Open Scope Z_scope.

(** ** The code *)

Inductive Mode := ModeStrict | ModeLenient.

(** The inner loop of [split]: one component, rune by rune. *)
Fixpoint component (rs : list Z) (n : Z) : option Z :=
  match rs with
  | [] => Some n
  | c :: rs =>
      if (c <? 48) || (57 <? c) then None
      else component rs (wrap64 (n * 10 + (c - 48)))
  end.

(** The outer loop of [split] over the parts. *)
Fixpoint components (parts : list string) : option (list Z) :=
  match parts with
  | [] => Some []
  | p :: parts =>
      if String.eqb p "" then None else
      match component (runes p) 0, components parts with
      | Some n, Some out => Some (n :: out)
      | _, _ => None
      end
  end.

Definition split (v : string) (m : Mode) : option (list Z * string) :=
  match (match m with
         | ModeStrict => if HasPrefix v "v" then Some (str_drop 1 v) else None
         | ModeLenient => Some (TrimPrefix v "v")
         end) with
  | None => None
  | Some v =>
      if String.eqb v "" then None else
      let v := match Index v "+" with Some i => str_take i v | None => v end in
      let '(v, pre) :=
        match Index v "-" with
        | Some i => (str_take i v, str_drop (i + 1) v)
        | None => (v, "")
        end in
      match components (Split v "."%char) with
      | Some out => Some (out, pre)
      | None => None
      end
  end.

(** The component loop of [Compare]: [k] positions are left; a missing
    component is zero. *)
Fixpoint compareComponents (k : nat) (an bn : list Z) : Z :=
  match k with
  | O => 0
  | S k =>
      let ai := hd 0%Z an in let bi := hd 0%Z bn in
      if (ai =? bi)%Z then compareComponents k (tl an) (tl bn)
      else if (ai <? bi)%Z then -1 else 1
  end.

Definition Compare (a b : string) (m : Mode) : Z :=
  if String.eqb a b then 0 else
  match split a m, split b m with
  | Some (an, apre), Some (bn, bpre) =>
      let c := compareComponents (Nat.max (length an) (length bn)) an bn in
      if negb (c =? 0) then c
      else if String.eqb apre "" && String.eqb bpre "" then 0
      else if String.eqb apre "" then 1
      else if String.eqb bpre "" then -1
      else if str_ltb apre bpre then -1
      else if str_ltb bpre apre then 1 else 0
  | _, _ => if str_ltb a b then -1 else if str_ltb b a then 1 else 0
  end.

Definition SortDesc (versions : list string) (m : Mode) : list string :=
  SliceStable (fun x y => 0 <? Compare x y m) versions.

(** ** Lemmas *)

Lemma compareComponents_nil k : compareComponents k [] [] = 0%Z.
Proof. induction k as [|k IH]; [done|]. apply IH. Qed.

Lemma compareComponents_more k j an bn :
  (length an <= k)%nat -> (length bn <= k)%nat ->
  compareComponents (k + j) an bn = compareComponents k an bn.
Proof.
  revert an bn. induction k as [|k IH]; intros an bn Ha Hb.
  - destruct an, bn; simpl in *; try lia. apply compareComponents_nil.
  - simpl. rewrite IH; [done| |]; destruct an, bn; simpl in *; lia.
Qed.

Lemma compareComponents_antisym k an bn :
  compareComponents k an bn = (- compareComponents k bn an)%Z.
Proof.
  revert an bn. induction k as [|k IH]; intros an bn; simpl; [done|].
  rewrite (Z.eqb_sym (hd 0%Z bn)).
  destruct (Z.eqb_spec (hd 0%Z an) (hd 0%Z bn)); [apply IH|].
  destruct (Z.ltb_spec (hd 0%Z an) (hd 0%Z bn)), (Z.ltb_spec (hd 0%Z bn) (hd 0%Z an)); lia.
Qed.

Lemma compareComponents_trans k an bn cn :
  (compareComponents k an bn <= 0)%Z -> (compareComponents k bn cn <= 0)%Z ->
  (compareComponents k an cn <= 0)%Z.
Proof.
  revert an bn cn. induction k as [|k IH]; intros an bn cn; simpl; [done|].
  destruct (Z.eqb_spec (hd 0%Z an) (hd 0%Z bn)), (Z.eqb_spec (hd 0%Z bn) (hd 0%Z cn)),
    (Z.eqb_spec (hd 0%Z an) (hd 0%Z cn)); try lia; try (by apply IH);
  destruct (Z.ltb_spec (hd 0%Z an) (hd 0%Z bn)), (Z.ltb_spec (hd 0%Z bn) (hd 0%Z cn)),
    (Z.ltb_spec (hd 0%Z an) (hd 0%Z cn)); lia.
Qed.

Definition compareNums (an bn : list Z) : Z :=
  compareComponents (Nat.max (length an) (length bn)) an bn.

Lemma compareNums_pad k an bn :
  (length an <= k)%nat -> (length bn <= k)%nat ->
  compareNums an bn = compareComponents k an bn.
Proof.
  intros Ha Hb. unfold compareNums.
  replace k with (Nat.max (length an) (length bn) + (k - Nat.max (length an) (length bn)))%nat by lia.
  rewrite compareComponents_more; [done|lia..].
Qed.

#[export] Instance compareNums_Comparator P : Comparator compareNums P.
Proof.
  split.
  - intros x y _ _. unfold compareNums. rewrite Nat.max_comm. apply compareComponents_antisym.
  - intros x y z _ _ _.
    set (k := Nat.max (length x) (Nat.max (length y) (length z))).
    rewrite (compareNums_pad k x y), (compareNums_pad k y z), (compareNums_pad k x z) by lia.
    apply compareComponents_trans.
Qed.

(** How two pre-release tags compare: none is above any. *)
Definition comparePre (a b : string) : Z :=
  if String.eqb a "" && String.eqb b "" then 0
  else if String.eqb a "" then 1
  else if String.eqb b "" then -1
  else if str_ltb a b then -1
  else if str_ltb b a then 1 else 0.

Lemma comparePre_compare a b : a <> "" -> b <> "" -> comparePre a b = str_compare a b.
Proof.
  intros Ha%String.eqb_neq Hb%String.eqb_neq. unfold comparePre. rewrite Ha, Hb. simpl.
  unfold str_ltb. pose proof (str_compare_antisym b a). pose proof (str_compare_range a b).
  destruct (Z.ltb_spec (str_compare a b) 0), (Z.ltb_spec (str_compare b a) 0); lia.
Qed.

#[export] Instance comparePre_Comparator P : Comparator comparePre P.
Proof.
  split.
  - intros x y _ _. destruct (decide (x = "")) as [->|Hx], (decide (y = "")) as [->|Hy]; try done.
    + unfold comparePre. apply String.eqb_neq in Hy. by rewrite Hy.
    + unfold comparePre. apply String.eqb_neq in Hx. by rewrite Hx.
    + rewrite !comparePre_compare by done. apply str_compare_antisym.
  - intros x y z _ _ _.
    destruct (decide (x = "")) as [->|Hx], (decide (y = "")) as [->|Hy],
      (decide (z = "")) as [->|Hz]; try done;
      rewrite ?comparePre_compare by done;
      try (unfold comparePre; repeat match goal with H : _ <> "" |- _ =>
             apply String.eqb_neq in H; rewrite ?H end; simpl; lia).
    apply (@cmp_trans _ str_compare (fun _ => True)); done || apply _.
Qed.

Definition parseable (m : Mode) (v : string) : Prop := is_Some (split v m).

Definition key (m : Mode) (v : string) : list Z * string := default ([], "") (split v m).

Definition compareKeys (x y : list Z * string) : Z :=
  if compareNums x.1 y.1 =? 0 then comparePre x.2 y.2 else compareNums x.1 y.1.

#[export] Instance compareKeys_Comparator P : Comparator compareKeys P.
Proof.
  apply (Comparator_lex (fun x y : list Z * string => compareNums x.1 y.1)
           (fun x y => comparePre x.2 y.2) P).
  - pose proof (compareNums_Comparator (fun _ => True)) as HC. split; intros *;
      [intros; by apply (cmp_antisym (Comparator := HC))
      |intros _ _ _; by apply (cmp_trans (Comparator := HC))].
  - pose proof (comparePre_Comparator (fun _ => True)) as HC. split; intros *;
      [intros; by apply (cmp_antisym (Comparator := HC))
      |intros _ _ _; by apply (cmp_trans (Comparator := HC))].
Qed.

Lemma Compare_split m a b x y : a <> b -> split a m = Some x -> split b m = Some y ->
  Compare a b m = compareKeys x y.
Proof.
  intros Hne%String.eqb_neq Ha Hb. unfold Compare. rewrite Hne, Ha, Hb.
  destruct x as [an apre], y as [bn bpre]. unfold compareKeys, comparePre. simpl.
  fold (compareNums an bn). by destruct (compareNums an bn =? 0).
Qed.

Lemma Compare_keys m a b : parseable m a -> parseable m b ->
  Compare a b m = compareKeys (key m a) (key m b).
Proof.
  intros [x Ha] [y Hb]. unfold key.
  destruct (decide (a = b)) as [->|Hne].
  - rewrite (cmp_refl compareKeys (fun _ => True)); [|apply _|done].
    unfold Compare. by rewrite String.eqb_refl.
  - by rewrite (Compare_split m a b x y), Ha, Hb.
Qed.

#[export] Instance Compare_Comparator m : Comparator (fun a b => Compare a b m) (parseable m).
Proof.
  pose proof (compareKeys_Comparator (fun _ => True)) as HC. split.
  - intros x y Hx Hy. rewrite !Compare_keys by done. by apply (cmp_antisym (Comparator := HC)).
  - intros x y z Hx Hy Hz. rewrite !Compare_keys by done.
    by apply (cmp_trans (Comparator := HC)).
Qed.

(** Digits *)

Lemma ord_ascii_runes_go n s : (len s <= n)%nat -> is_ascii s = true ->
  runes_go n s = map ord (String.list_ascii_of_string s).
Proof.
  revert s. induction n as [|n IH]; intros s; destruct s as [|c s]; unfold len; simpl; try done; [lia|].
  unfold is_ascii. simpl. intros Hl [Hc Hs]%andb_true_iff. rewrite Hc. simpl.
  f_equal. apply IH; [unfold len; lia|done].
Qed.

Lemma runes_ascii s : is_ascii s = true -> runes s = map ord (String.list_ascii_of_string s).
Proof. intros H. by apply ord_ascii_runes_go. Qed.

Definition all_digits (s : string) : bool := str_forallb is_digit s.

Lemma all_digits_ascii s : all_digits s = true -> is_ascii s = true.
Proof.
  apply str_forallb_impl. intros c. unfold is_digit. intros. bool_prop.
  apply Z.ltb_lt. lia.
Qed.

Lemma component_digits s n k :
  all_digits s = true -> 0 <= n < 10 ^ k -> 0 <= k -> k + Z.of_nat (len s) <= 18 ->
  component (map ord (String.list_ascii_of_string s)) n = Some (digits_exact s n)
  /\ 0 <= digits_exact s n < 10 ^ 18.
Proof.
  revert n k. induction s as [|c s IH]; intros n k Hd Hn Hk Hl; simpl.
  - split; [done|]. pose proof (Z.pow_le_mono_r 10 k 18 ltac:(lia) ltac:(simpl in *; lia)). lia.
  - unfold all_digits in Hd. simpl in Hd. apply andb_true_iff in Hd as [Hc Hd].
    unfold is_digit in Hc. bool_prop. unfold len in Hl. cbn [String.length] in Hl.
    pose proof (Z.pow_succ_r 10 k Hk).
    pose proof (Z.pow_le_mono_r 10 (Z.succ k) 18 ltac:(lia) ltac:(lia)).
    replace ((ord c <? 48) || (57 <? ord c)) with false
      by (symmetry; apply orb_false_iff; split; apply Z.ltb_ge; lia).
    rewrite wrap64_id by (unfold in64, int64_min, int64_max; lia).
    apply (IH _ (Z.succ k)); [done|lia|lia|unfold len; lia].
Qed.

Definition number (s : string) : Prop :=
  s <> "" /\ all_digits s = true /\ (len s <= 18)%nat.

Lemma component_number s : number s -> component (runes s) 0 = Some (digits_exact s 0).
Proof.
  intros (Hne & Hd & Hl). rewrite runes_ascii by by apply all_digits_ascii.
  apply (component_digits s 0 0); [done|lia|lia|lia].
Qed.

Lemma components_numbers l : Forall number l ->
  components l = Some (map (fun s => digits_exact s 0) l).
Proof.
  induction 1 as [|s l Hs Hl IH]; [done|]. simpl.
  rewrite component_number, IH by done.
  destruct Hs as (Hne%String.eqb_neq & _). by rewrite Hne.
Qed.

Lemma number_no_byte c s : is_digit c = false -> number s -> no_byte c s = true.
Proof. intros Hc (_ & Hd & _). by apply (no_byte_forallb is_digit). Qed.

Lemma Join_nonempty s l sep : s <> "" -> Join (s :: l) sep <> "".
Proof. destruct l, s; simpl; done. Qed.

(** The part of [split] after the prefix is off: a body without "+". *)
Lemma split_strip m v body :
  (v = "v" +:+ body \/ m = ModeLenient /\ v = body /\ HasPrefix body "v" = false) ->
  split v m =
    (if String.eqb body "" then None else
     let v := match Index body "+" with Some i => str_take i body | None => body end in
     let '(v, pre) :=
       match Index v "-" with
       | Some i => (str_take i v, str_drop (i + 1) v)
       | None => (v, "")
       end in
     match components (Split v "."%char) with
     | Some out => Some (out, pre)
     | None => None
     end).
Proof.
  intros [->|(-> & -> & Hp)]; unfold split.
  - destruct m; [done|]. by rewrite TrimPrefix_app.
  - unfold TrimPrefix. by rewrite Hp.
Qed.

Lemma parseable_strip m v : parseable m v ->
  exists body, body <> "" /\ (v = "v" +:+ body \/ m = ModeLenient /\ v = body /\ HasPrefix body "v" = false).
Proof.
  intros [k Hk]. unfold split in Hk. destruct m.
  - destruct (HasPrefix v "v") eqn:E; [|done]. apply HasPrefix_spec in E as [r ->].
    exists r. split; [|by left]. intros ->. done.
  - unfold TrimPrefix in Hk. destruct (HasPrefix v "v") eqn:E.
    + apply HasPrefix_spec in E as [r ->]. exists r. split; [|by left]. by intros ->.
    + exists v. split; [|by right]. by intros ->.
Qed.

Lemma split_metadata m v meta : parseable m v -> no_byte "+" v = true ->
  split (v +:+ "+" +:+ meta) m = split v m.
Proof.
  intros Hp Hn. destruct (parseable_strip m v Hp) as (body & Hne & Hv).
  assert (Hb : no_byte "+" body = true).
  { destruct Hv as [->|(_ & -> & _)]; [|done]. rewrite no_byte_app in Hn. by bool_prop. }
  rewrite (split_strip m v body Hv).
  rewrite (split_strip m (v +:+ "+" +:+ meta) (body +:+ "+" +:+ meta)).
  - simpl. rewrite Index_byte_app, str_take_app, (Index_byte_none body "+"%char) by done.
    destruct body; done.
  - destruct Hv as [->|(-> & -> & Hv)]; [by left|right; repeat split].
    destruct body; [done|]. simpl in *. done.
Qed.

(** ** Properties *)

(** on any two strings, parseable or not, the answers of [Compare] for the
    two orders of its arguments are opposite. *)
Theorem Compare_antisym a b m : Compare a b m = - Compare b a m.
Proof.
  destruct (decide (a = b)) as [->|Hne].
  { unfold Compare. by rewrite String.eqb_refl. }
  pose proof (str_ltb_asym a b) as H1. pose proof (str_ltb_asym b a) as H2.
  destruct (split a m) as [x|] eqn:Ea, (split b m) as [y|] eqn:Eb.
  { rewrite (Compare_split m a b x y), (Compare_split m b a y x) by done.
    by apply (@cmp_antisym _ compareKeys (fun _ => True) _). }
  all: unfold Compare; rewrite Ea, Eb, (String.eqb_sym b a);
    apply String.eqb_neq in Hne; rewrite Hne;
    destruct (str_ltb a b), (str_ltb b a); try destruct x; try destruct y;
    try done; by specialize (H1 eq_refl).
Qed.

(** [SortDesc] of versions that [split] accepts is a permutation of its
    input in which no version is below a later one. *)
Theorem SortDesc_newest_first m vs :
  Forall (parseable m) vs ->
  SortDesc vs m ≡ₚ vs /\ StronglySorted (fun x y => Compare y x m <= 0) (SortDesc vs m).
Proof.
  intros Hvs. split; [apply SliceStable_perm|].
  pose proof (SliceStable_Sorted (fun x y => 0 <? Compare x y m) (parseable m) vs
    (Comparator_greater _ _ (Compare_Comparator m)) Hvs) as Hs.
  fold (SortDesc vs m) in Hs. induction Hs as [|x l Hs IH Hall]; constructor; [done|].
  eapply Forall_impl; [exact Hall|]. intros y Hy. by apply Z.ltb_ge in Hy.
Qed.

Lemma SortDesc_newest_first_witness :
  SortDesc ["1.9.0"; "1.10.0-rc.1"; "1.10.0"] ModeLenient ≡ₚ ["1.9.0"; "1.10.0-rc.1"; "1.10.0"]
  /\ StronglySorted (fun x y => Compare y x ModeLenient <= 0)
       (SortDesc ["1.9.0"; "1.10.0-rc.1"; "1.10.0"] ModeLenient).
Proof.
  apply SortDesc_newest_first. repeat constructor; vm_compute; by eexists.
Defined.

(** components of up to eighteen digits are read as the numbers they
    denote, in either mode, and two such versions compare as their lists of
    numbers, a missing component counting as zero. *)
Theorem Compare_numeric m ps qs :
  ps <> [] -> qs <> [] -> Forall number ps -> Forall number qs ->
  Compare ("v" +:+ Join ps ".") ("v" +:+ Join qs ".") m
  = compareNums (map (fun s => digits_exact s 0) ps) (map (fun s => digits_exact s 0) qs).
Proof.
  assert (Hsplit : forall l, l <> [] -> Forall number l ->
    split ("v" +:+ Join l ".") m = Some (map (fun s => digits_exact s 0) l, "")).
  { intros l Hne Hl. rewrite (split_strip m _ (Join l ".")) by (by left).
    assert (Hj : Join l "." <> "").
    { destruct Hl as [|s l [Hs _] Hl]; [done|]. by apply Join_nonempty. }
    apply String.eqb_neq in Hj as ->.
    assert (Hno : forall c, is_digit c = false -> c <> "."%char ->
      no_byte c (Join l ".") = true).
    { intros c Hc Hd. apply no_byte_Join; [done|].
      eapply Forall_impl; [exact Hl|]. intros s. by apply number_no_byte. }
    rewrite (Index_byte_none _ "+") by (by apply Hno). cbn zeta.
    rewrite (Index_byte_none _ "-") by (by apply Hno).
    rewrite Split_Join; [|done|].
    - by rewrite components_numbers.
    - eapply Forall_impl; [exact Hl|]. intros s. by apply number_no_byte. }
  intros Hp Hq Hps Hqs.
  pose proof (Hsplit ps Hp Hps) as E1. pose proof (Hsplit qs Hq Hqs) as E2.
  rewrite Compare_keys by (unfold parseable; rewrite ?E1, ?E2; by eexists).
  unfold key. rewrite E1, E2. unfold compareKeys, default, id, fst, snd, comparePre. simpl.
  destruct (compareNums _ _ =? 0) eqn:E; [by apply Z.eqb_eq in E|done].
Qed.

Lemma Compare_numeric_witness :
  Compare ("v" +:+ Join ["1"; "10"] ".") ("v" +:+ Join ["1"; "9"; "3"] ".") ModeStrict
  = compareNums [1; 10] [1; 9; 3] /\ compareNums [1; 10] [1; 9; 3] = 1.
Proof.
  split; [|done].
  apply (Compare_numeric ModeStrict ["1"; "10"] ["1"; "9"; "3"]);
    [done|done|repeat constructor; done || (vm_compute; lia)..].
Defined.

(** build metadata does not count: a version and the same version with
    "+meta" appended have the same precedence against every parseable
    version. *)
Theorem Compare_ignores_metadata m v w meta :
  parseable m v -> no_byte "+" v = true -> parseable m w ->
  Compare (v +:+ "+" +:+ meta) w m = Compare v w m.
Proof.
  intros Hv Hn Hw. pose proof (split_metadata m v meta Hv Hn) as E.
  assert (Hvm : parseable m (v +:+ "+" +:+ meta)) by (unfold parseable; by rewrite E).
  rewrite !Compare_keys by done. unfold key. by rewrite E.
Qed.

Lemma Compare_ignores_metadata_witness :
  Compare "1.2.0-rc.1+sha.abc" "1.2.0" ModeLenient = Compare "1.2.0-rc.1" "1.2.0" ModeLenient
  /\ Compare "1.2.0-rc.1" "1.2.0" ModeLenient = -1.
Proof.
  split; [|done].
  apply (Compare_ignores_metadata ModeLenient "1.2.0-rc.1" "1.2.0" "sha.abc");
    [vm_compute; by eexists|done|vm_compute; by eexists].
Defined.

(** outside that range the comparator is not an order.  The fallback for
    unparseable input closes a cycle with the numeric order, so a sort of such
    a list has no right answer, and a component of 2^64 wraps around to 0. *)
Theorem Compare_limits :
  (Compare "v10" "v1x" ModeStrict = -1 /\ Compare "v1x" "v2" ModeStrict = -1
   /\ Compare "v2" "v10" ModeStrict = -1)
  /\ Compare "1.18446744073709551616" "1.0" ModeLenient = 0.
Proof. vm_compute. auto. Qed.
