(* ===== verification/GoModule.v ===== *)
(** * internal/registry/goproxy: module paths, versions and go.mod

    module.go: the case encoding of module paths, the checks on the paths and
    versions of a request, and the scan of go.mod.  [EncodeModulePath] walks
    the runes of its input and [DecodeModulePath] its bytes, as the code does.
    The theorems: the encoding round-trips on valid UTF-8 without "!", so two
    such paths share a storage name only when they are equal; no encoded path
    holds an upper-case letter, so a file system that folds case keeps them
    apart; an accepted path or version cannot leave the directory it names. *)

From Stdlib Require Import ZArith Lia Ascii.
From stdpp Require Import base list strings.
From S2P Require Import Prelude GoStrings GoRegexp.

Local Open Scope Z_scope.

Inductive module_error :=
| ErrEmpty | ErrDotDot | ErrSlash | ErrWhitespace | ErrEmptySegment
| ErrTrailingBang | ErrBadEscape | ErrLatest | ErrFormat.

(** ** The code *)

Definition encode_rune (r : Z) : string :=
  if (65 <=? r) && (r <=? 90) then String "!" (EncodeRune (r + 32)) else EncodeRune r.

Definition EncodeModulePath (p : string) : string :=
  foldl (fun b r => b +:+ encode_rune r) "" (runes p).

Fixpoint DecodeModulePath (p : string) : result module_error string :=
  match p with
  | "" => Ok ""
  | String c p' =>
      if negb (Ascii.eqb c "!") then
        match DecodeModulePath p' with Ok b => Ok (String c b) | Err e => Err e end
      else match p' with
           | "" => Err ErrTrailingBang
           | String nx p'' =>
               if (ord nx <? 97) || (122 <? ord nx) then Err ErrBadEscape
               else match DecodeModulePath p'' with
                    | Ok b => Ok (String (chr (ord nx - 32)) b)
                    | Err e => Err e
                    end
           end
  end.

(** The four white-space characters of the code's [ContainsAny]. *)
Definition blanks : string :=
  String " " (String (chr 9) (String (chr 10) (String (chr 13) ""))).

Definition ValidateModulePath (p : string) : option module_error :=
  if String.eqb p "" then Some ErrEmpty
  else if Contains p ".." then Some ErrDotDot
  else if HasPrefix p "/" || HasSuffix p "/" then Some ErrSlash
  else if ContainsAny p blanks then Some ErrWhitespace
  else if existsb (fun seg => String.eqb seg "") (Split p "/"%char) then Some ErrEmptySegment
  else None.

Definition version_char (c : ascii) : bool :=
  is_digit c || is_upper c || is_lower c || Ascii.eqb c "." || Ascii.eqb c "-".

(** [^v\d+(\.\d+)*([-+][0-9A-Za-z.\-]+)*$] *)
Definition versionRegexp : re :=
  Cat (Chr "v") (Cat (Plus (Class is_digit))
    (Cat (Star (Cat (Chr ".") (Plus (Class is_digit))))
         (Star (Cat (Class (fun c => Ascii.eqb c "-" || Ascii.eqb c "+"))
                    (Plus (Class version_char)))))).

Definition ValidateVersion (v : string) : option module_error :=
  if String.eqb v "" then Some ErrEmpty
  else if String.eqb v "latest" then Some ErrLatest
  else if negb (re_match versionRegexp v) then Some ErrFormat
  else None.

Record GoModRetract := { Version : string; Rationale : string }.
Record GoModInfo := { Module_ : string; Retracts : list GoModRetract }.

(** The state of the scan: what was found and [inRetractBlock]. *)
Definition goModLine (st : GoModInfo * bool) (raw : string) : GoModInfo * bool :=
  let '(out, inRetractBlock) := st in
  let line := TrimSpace raw in
  let '(comment, line) :=
    match Index line "//" with
    | Some i => (TrimSpace (str_drop (i + 2) line), TrimSpace (str_take i line))
    | None => ("", line)
    end in
  if String.eqb line "" then (out, inRetractBlock)
  else if inRetractBlock then
    if String.eqb line ")" then (out, false)
    else ({| Module_ := Module_ out;
             Retracts := Retracts out ++ [{| Version := line; Rationale := comment |}] |}, true)
  else if HasPrefix line "module " then
    ({| Module_ := Trim (TrimSpace (TrimPrefix line "module")) (String (chr 34) "");
        Retracts := Retracts out |}, false)
  else if String.eqb line "retract (" then (out, true)
  else if HasPrefix line "retract " then
    ({| Module_ := Module_ out;
        Retracts := Retracts out ++
          [{| Version := TrimSpace (TrimPrefix line "retract"); Rationale := comment |}] |}, false)
  else (out, false).

Definition ParseGoMod (body : string) : GoModInfo :=
  fst (foldl goModLine ({| Module_ := ""; Retracts := [] |}, false) (Split body (chr 10))).

(** ** Lemmas *)

Lemma foldl_append (f : Z -> string) rs b :
  foldl (fun b r => b +:+ f r) b rs = b +:+ foldr (fun r acc => f r +:+ acc) "" rs.
Proof.
  revert b. induction rs as [|r rs IH]; intros b; simpl; [by rewrite app_empty_r|].
  by rewrite IH, str_app_assoc.
Qed.

Lemma EncodeModulePath_eq p :
  EncodeModulePath p = foldr (fun r acc => encode_rune r +:+ acc) "" (runes p).
Proof. unfold EncodeModulePath. by rewrite foldl_append. Qed.

Lemma Decode_high x s : str_forallb (fun c => 128 <=? ord c) x = true ->
  DecodeModulePath (x +:+ s) =
    match DecodeModulePath s with Ok b => Ok (x +:+ b) | Err e => Err e end.
Proof.
  induction x as [|c x IH]; simpl; [by destruct (DecodeModulePath s)|].
  intros [Hc Hx]%andb_true_iff. bool_prop.
  destruct (Ascii.eqb_spec c "!") as [->|_]; [by vm_compute in Hc|]. simpl.
  rewrite IH by done. by destruct (DecodeModulePath s).
Qed.

Lemma Decode_encode_rune r s : no_byte "!" (EncodeRune r) = true ->
  DecodeModulePath (encode_rune r +:+ s) =
    match DecodeModulePath s with Ok b => Ok (EncodeRune r +:+ b) | Err e => Err e end.
Proof.
  intros Hn. unfold encode_rune.
  destruct ((65 <=? r) && (r <=? 90)) eqn:E; bool_prop.
  - destruct (EncodeRune_bytes (r + 32)) as [[_ ->]|[? _]]; [|lia].
    destruct (EncodeRune_bytes r) as [[_ ->]|[? _]]; [|lia]. simpl.
    rewrite ord_chr by lia.
    replace ((r + 32 <? 97) || (122 <? r + 32)) with false
      by (symmetry; apply orb_false_iff; split; apply Z.ltb_ge; lia).
    replace (r + 32 - 32) with r by lia. done.
  - destruct (EncodeRune_bytes r) as [[_ Er]|[_ Hh]].
    + rewrite Er in *. simpl in *. unfold no_byte in Hn. simpl in Hn.
      rewrite orb_false_r in Hn. rewrite Hn. done.
    + by apply Decode_high.
Qed.

Lemma Decode_encode_runes rs : no_byte "!" (EncodeRunes rs) = true ->
  DecodeModulePath (foldr (fun r acc => encode_rune r +:+ acc) "" rs) = Ok (EncodeRunes rs).
Proof.
  induction rs as [|r rs IH]; [done|]. cbn [foldr EncodeRunes].
  intros Hn. rewrite no_byte_app in Hn. apply andb_true_iff in Hn as [Hr Hrs].
  rewrite Decode_encode_rune, IH by done. done.
Qed.

Lemma upper_lower c : is_upper c = true -> ord c < 97.
Proof. unfold is_upper. intros. bool_prop. lia. Qed.

(** ** Properties *)

(** decoding undoes the case encoding on every valid UTF-8 module path
    without "!", so on those paths the encoding is injective. *)
Theorem EncodeModulePath_roundtrip p :
  ValidString p = true -> no_byte "!" p = true ->
  DecodeModulePath (EncodeModulePath p) = Ok p.
Proof.
  unfold ValidString. intros Hv%String.eqb_eq Hn. rewrite EncodeModulePath_eq.
  rewrite Decode_encode_runes; by rewrite Hv.
Qed.

Lemma EncodeModulePath_roundtrip_witness :
  DecodeModulePath (EncodeModulePath "github.com/MakeNowJust/heredoc")
  = Ok "github.com/MakeNowJust/heredoc"
  /\ EncodeModulePath "github.com/MakeNowJust/heredoc" = "github.com/!make!now!just/heredoc".
Proof. split; [by apply EncodeModulePath_roundtrip|done]. Defined.

(** an encoded path holds no upper-case ASCII letter, whatever the input,
    so a file system that folds case cannot merge two encoded paths. *)
Theorem EncodeModulePath_no_upper p :
  str_forallb (fun c => negb (is_upper c)) (EncodeModulePath p) = true.
Proof.
  rewrite EncodeModulePath_eq. induction (runes p) as [|r rs IH]; [done|].
  cbn [foldr]. rewrite str_forallb_app, IH, andb_true_r. unfold encode_rune.
  destruct ((65 <=? r) && (r <=? 90)) eqn:E; bool_prop.
  - destruct (EncodeRune_bytes (r + 32)) as [[_ ->]|[? _]]; [|lia]. simpl.
    rewrite andb_true_r. unfold is_upper. rewrite ord_chr by lia.
    apply negb_true_iff, andb_false_iff. right. apply Z.leb_gt. lia.
  - destruct (EncodeRune_bytes r) as [[Hr ->]|[_ Hh]].
    + simpl. rewrite andb_true_r. unfold is_upper. rewrite ord_chr by lia. by rewrite E.
    + eapply str_forallb_impl; [|exact Hh]. intros c Hc%Z.leb_le.
      apply negb_true_iff. destruct (is_upper c) eqn:Hu; [|done].
      apply upper_lower in Hu. lia.
Qed.

Lemma existsb_nonempty l : existsb (fun seg => String.eqb seg "") l = false <-> Forall (fun s => s <> "") l.
Proof.
  induction l as [|s l IH]; simpl; [split; [constructor|done]|].
  rewrite orb_false_iff, String.eqb_neq, IH, Forall_cons. done.
Qed.

Lemma Split_first_empty r : ~ Forall (fun s => s <> "") (Split (String "/" r) "/"%char).
Proof. simpl. by inversion 1. Qed.

Lemma Split_last_empty r : ~ Forall (fun s => s <> "") (Split (r +:+ "/") "/"%char).
Proof. rewrite Split_app, Forall_app. intros [_ H]. by inversion H. Qed.

(** [ValidateModulePath] accepts exactly the non-empty paths without "..",
    blanks or empty segments; the code's test for a leading or trailing slash
    rejects nothing more. *)
Theorem ValidateModulePath_spec p :
  ValidateModulePath p = None <->
  p <> "" /\ (forall a b, p <> a +:+ ".." +:+ b) /\ ContainsAny p blanks = false
  /\ Forall (fun seg => seg <> "") (Split p "/"%char).
Proof.
  unfold ValidateModulePath. rewrite <-Contains_false, <-existsb_nonempty. split.
  - intros H. split_matches.
  - intros (Hne%String.eqb_neq & Hdd & Hb & Hseg). rewrite Hne, Hdd, Hb, Hseg.
    apply existsb_nonempty in Hseg.
    destruct (HasPrefix p "/") eqn:E1.
    { apply HasPrefix_spec in E1 as [r ->]. by apply Split_first_empty in Hseg. }
    destruct (HasSuffix p "/") eqn:E2; [|done].
    apply HasSuffix_spec in E2 as [r ->]. by apply Split_last_empty in Hseg.
Qed.

Definition version_byte (c : ascii) : bool :=
  version_char c || Ascii.eqb c "v" || Ascii.eqb c "+".

(** an accepted version is "v", a digit and bytes that are letters,
    digits, ".", "-" or "+": it holds no separator and is not a dot segment,
    so it names one file. *)
Theorem ValidateVersion_safe v :
  ValidateVersion v = None ->
  str_forallb version_byte v = true /\ no_byte "/" v = true /\
  exists d rest, v = String "v" (String d rest) /\ is_digit d = true.
Proof.
  unfold ValidateVersion. intros H.
  destruct (String.eqb v ""), (String.eqb v "latest"), (re_match versionRegexp v) eqn:E; try done.
  apply re_match_spec in E. split; [|split].
  - eapply str_forallb_impl; [|by eapply lang_alphabet].
    intros c. unfold version_byte, versionRegexp, Plus, Chr. cbn [alphabet].
    unfold version_char. rewrite (Ascii.eqb_sym "v"), (Ascii.eqb_sym "."), !orb_true_iff. tauto.
  - by apply (lang_no_byte versionRegexp).
  - inversion E as [| | | |? ? s t Hs Ht| |]; subst. clear E.
    inversion Hs as [|? ? Hv| | | | |]; subst. apply Ascii.eqb_eq in Hv as <-.
    inversion Ht as [| | | |? ? s t' Hs' Ht'| |]; subst.
    inversion Hs' as [| | | |? ? s1 s2 Hd Hstar| |]; subst.
    inversion Hd as [|? d Hdig| | | | |]; subst. simpl. by eexists _, _.
Qed.

Lemma ValidateVersion_safe_witness :
  ValidateVersion "v1.2.3-0.20240101000000-abcdef012345" = None /\
  no_byte "/" "v1.2.3-0.20240101000000-abcdef012345" = true /\
  ValidateVersion "../evil" <> None.
Proof.
  split; [by vm_compute|]. split; [|done].
  apply (ValidateVersion_safe "v1.2.3-0.20240101000000-abcdef012345"). by vm_compute.
Defined.
