(* ===== verification/PolicyMatch.v ===== *)
(** * internal/registry/policy/match.go: the include and exclude filters

    [MatchName] adds "**", which crosses "/", to [path.Match].  [globMatch]
    recurses on what follows a "**"; it runs here on fuel above the length of
    the pattern, and [globMatch_eq] shows that this is the recursion of the
    code. *)

From Stdlib Require Import ZArith Lia Ascii.
From stdpp Require Import base list strings.
From S2P Require Import Prelude GoStrings GoPath.

(** ** The code *)

(** One call of [globMatch], with its recursive calls abstracted. *)
Definition globMatch_body (rec : string -> string -> bool) (pattern name : string) : bool :=
  if HasPrefix pattern "**" then
    let rest := TrimLeft pattern "*" in
    if String.eqb rest "" then true
    else existsb (fun i => rec rest (str_drop i name)) (seq 0 (S (len name)))
  else
    match Index pattern "**" with
    | None => matches pattern name
    | Some k =>
        let head := str_take k pattern in
        let tail := str_drop k pattern in
        existsb (fun i => matches head (str_take i name) && rec tail (str_drop i name))
                (seq 0 (S (len name)))
    end.

Fixpoint globMatch_go (fuel : nat) (pattern name : string) : bool :=
  match fuel with
  | O => false
  | S fuel => globMatch_body (globMatch_go fuel) pattern name
  end.

Definition globMatch (pattern name : string) : bool :=
  globMatch_go (S (len pattern)) pattern name.

Definition MatchName (pattern name : string) : bool :=
  if String.eqb pattern "" then false
  else if String.eqb pattern "**" then true
  else globMatch pattern name.

Definition NameAllowed (include exclude : list string) (name : string) : bool :=
  if existsb (fun p => MatchName p name) exclude then false
  else if (length include =? 0)%nat then true
  else existsb (fun p => MatchName p name) include.

(** ** Lemmas *)

Lemma TrimLeft_len s cut : (len (TrimLeft s cut) <= len s)%nat.
Proof.
  induction s as [|c s IH]; simpl; [lia|]. case_if; unfold len in *; simpl; lia.
Qed.

Lemma TrimLeft_stars_len p : HasPrefix p "**" = true -> (len (TrimLeft p "*") < len p)%nat.
Proof.
  intros [r ->]%HasPrefix_spec. simpl. pose proof (TrimLeft_len r "*").
  unfold len in *. simpl. lia.
Qed.

Lemma Index_pos p sub k : HasPrefix p sub = false -> Index p sub = Some k -> (0 < k)%nat.
Proof.
  destruct p as [|c p]; simpl; intros ->; [done|].
  destruct (Index p sub); [|done]. intros [= <-]. lia.
Qed.

Lemma globMatch_body_ext r1 r2 p name :
  (forall q n, (len q < len p)%nat -> r1 q n = r2 q n) ->
  globMatch_body r1 p name = globMatch_body r2 p name.
Proof.
  intros H. unfold globMatch_body. destruct (HasPrefix p "**") eqn:E.
  - case_if; [done|]. apply existsb_ext. intros i. apply H. by apply TrimLeft_stars_len.
  - destruct (Index p "**") as [k|] eqn:Ek; [|done].
    apply existsb_ext. intros i. f_equal. apply H. rewrite len_drop.
    pose proof (Index_pos p "**" k E Ek). apply Index_Some in Ek as (r & Hr & Hl).
    destruct p; [|unfold len in *; simpl in *; lia]. unfold len in Hl. simpl in Hl. lia.
Qed.

Lemma globMatch_fuel n m p name : (len p < n)%nat -> (len p < m)%nat ->
  globMatch_go n p name = globMatch_go m p name.
Proof.
  revert m p name. induction n as [|n IH]; intros [|m] p name Hn Hm; try lia.
  simpl. apply globMatch_body_ext. intros q x Hq. apply IH; lia.
Qed.

(** The fuel is enough: [globMatch] satisfies the equation of the source. *)
Lemma globMatch_eq p name : globMatch p name = globMatch_body globMatch p name.
Proof.
  unfold globMatch at 1. cbn [globMatch_go]. apply globMatch_body_ext.
  intros q x Hq. apply globMatch_fuel; lia.
Qed.

Lemma globMatch_stars name : globMatch "**" name = true.
Proof. by rewrite globMatch_eq. Qed.

Lemma plain_no_star p : plain p = true -> no_byte "*" p = true.
Proof. by apply no_byte_forallb. Qed.

Lemma Index_stars p : plain p = true -> Index (p +:+ "**") "**" = Some (len p).
Proof.
  induction p as [|c p IH]; [done|]. intros (H1 & _ & _ & _ & Hp)%plain_cons.
  rewrite app_cons. cbn [Index HasPrefix]. by rewrite (Ascii.eqb_sym "*"), H1, IH.
Qed.

Lemma existsb_take name p (f : string -> bool) :
  (forall s, f s = true) ->
  existsb (fun i => String.eqb (str_take i name) p && f (str_drop i name)) (seq 0 (S (len name)))
  = HasPrefix name p.
Proof.
  intros Hf. apply eq_true_iff_eq. rewrite existsb_exists, HasPrefix_spec. split.
  - intros (i & _ & H). rewrite Hf, andb_true_r in H. apply String.eqb_eq in H.
    exists (str_drop i name). by rewrite <-H, take_drop_str.
  - intros [r ->]. exists (len p). rewrite Hf, str_take_app, String.eqb_refl. split; [|done].
    apply in_seq. rewrite len_app. lia.
Qed.

(** ** Properties *)

(** a pattern made of a plain prefix and "**" matches exactly the names
    that start with the prefix, whatever "/" follows: "@acme/**" selects the
    scope @acme and "com/acme/**" everything below com/acme/. *)
Theorem MatchName_prefix p name :
  plain p = true -> MatchName (p +:+ "**") name = HasPrefix name p.
Proof.
  intros Hp. unfold MatchName.
  destruct p as [|c p]; [by destruct name|].
  assert (E : String.eqb (String c p +:+ "**") "" = false /\
              String.eqb (String c p +:+ "**") "**" = false /\
              HasPrefix (String c p +:+ "**") "**" = false).
  { apply plain_cons in Hp as (H1 & _). rewrite app_cons. cbn [HasPrefix String.eqb].
    rewrite (Ascii.eqb_sym "*"), H1. done. }
  destruct E as (-> & -> & E). rewrite globMatch_eq. unfold globMatch_body.
  rewrite E, Index_stars, str_take_app, str_drop_app by done.
  erewrite existsb_ext; [apply (existsb_take _ _ (globMatch "**")); apply globMatch_stars|].
  intros i. simpl. by rewrite matches_plain.
Qed.

Lemma MatchName_prefix_witness :
  MatchName ("@acme/" +:+ "**") "@acme/ui/button" = HasPrefix "@acme/ui/button" "@acme/"
  /\ MatchName "@acme/**" "@other/ui" = false.
Proof. split; [by apply MatchName_prefix|by vm_compute]. Defined.

(** a name passes the filters exactly when no exclude pattern matches it
    and the include list is empty or has a pattern that matches it: exclude
    wins over include. *)
Theorem NameAllowed_spec include exclude name :
  NameAllowed include exclude name = true <->
  (forall p, In p exclude -> MatchName p name = false) /\
  (include = [] \/ exists p, In p include /\ MatchName p name = true).
Proof.
  unfold NameAllowed. destruct (existsb (fun p => MatchName p name) exclude) eqn:E.
  - split; [done|]. intros [H _]. apply existsb_exists in E as (p & Hp & Hm).
    by rewrite (H p Hp) in Hm.
  - assert (Hex : forall p, In p exclude -> MatchName p name = false).
    { intros p Hp. destruct (MatchName p name) eqn:Em; [|done].
      assert (existsb (fun p => MatchName p name) exclude = true); [|congruence].
      apply existsb_exists. eauto. }
    destruct include as [|q include]; simpl; [naive_solver|].
    rewrite <-(existsb_exists (fun p => MatchName p name) (q :: include)). simpl. naive_solver.
Qed.
