(* ===== verification/License.v ===== *)
(** * internal/registry/policy/license.go: SPDX license expressions

    The tokenizer, the recursive-descent parser and [LicensePermitted].  The
    parser of the code keeps a position into its tokens; here a parser takes
    the tokens that are left and returns those it did not use.  [parseOr] runs
    on fuel for the nesting of parentheses, and [parseOr_enough] shows that
    more tokens than that never need more.  The theorems: the parser inverts a
    printer of expressions, with the precedence of AND over OR and the
    grouping by parentheses; [LicensePermitted] holds exactly when the
    expression can be satisfied by licenses that are all acceptable. *)

From Stdlib Require Import ZArith Lia Ascii.
From stdpp Require Import base list strings.
From S2P Require Import Prelude GoStrings.

Local Open Scope Z_scope.

(** ** The code *)

Inductive LicenseExpr : Type :=
| Lic (ID : string) (Op : string) (Args : list LicenseExpr).

Definition ID (e : LicenseExpr) : string := let 'Lic i _ _ := e in i.

Definition licenseAliases : list (string * string) :=
  [ ("apache 2.0", "apache-2.0"); ("apache 2", "apache-2.0"); ("apache-2", "apache-2.0");
    ("apache2", "apache-2.0"); ("apache license 2.0", "apache-2.0");
    ("apache license, version 2.0", "apache-2.0");
    ("apache software license", "apache-2.0");
    ("the apache license, version 2.0", "apache-2.0");
    ("the apache software license, version 2.0", "apache-2.0");
    ("mit license", "mit"); ("the mit license", "mit"); ("bsd", "bsd-3-clause");
    ("new bsd license", "bsd-3-clause"); ("bsd license", "bsd-3-clause");
    ("isc license", "isc"); ("mozilla public license 2.0", "mpl-2.0");
    ("gplv2", "gpl-2.0"); ("gplv3", "gpl-3.0"); ("lgplv3", "lgpl-3.0") ].

Fixpoint alias (s : string) (l : list (string * string)) : option string :=
  match l with
  | [] => None
  | (k, v) :: l => if String.eqb k s then Some v else alias s l
  end.

Definition normalizeID (s : string) : string :=
  let s := ToLower (TrimSpace s) in
  match alias s licenseAliases with Some a => a | None => s end.

(** The state of the tokenizer: the tokens so far and the builder. *)
Definition flush (st : list string * string) : list string * string :=
  let '(toks, cur) := st in
  if (0 <? len cur)%nat then (toks ++ [cur], "") else st.

Definition tokenizeRune (st : list string * string) (r : Z) : list string * string :=
  if (r =? 40) || (r =? 41) then
    let '(toks, cur) := flush st in (toks ++ [EncodeRune r], cur)
  else if r =? 47 then
    let '(toks, cur) := flush st in (toks ++ ["OR"], cur)
  else if (r =? 32) || (r =? 9) || (r =? 10) || (r =? 13) then flush st
  else (fst st, snd st +:+ EncodeRune r).

Definition tokenizeLicense (s : string) : list string :=
  fst (flush (foldl tokenizeRune ([], "") (runes s))).

Definition parser : Type := list string -> option (LicenseExpr * list string).

Definition peekOp (toks : list string) (op : string) : bool :=
  match toks with t :: _ => EqualFold t op | [] => false end.

(** The loop of [parseBinary]; [n] bounds the operators still to read. *)
Fixpoint parseBinary_loop (n : nat) (op : string) (next : parser)
    (args : list LicenseExpr) (toks : list string)
    : option (list LicenseExpr * list string) :=
  match n with
  | O => Some (args, toks)
  | S n =>
      if peekOp toks op then
        match next (tail toks) with
        | None => None
        | Some (e, toks) => parseBinary_loop n op next (args ++ [e]) toks
        end
      else Some (args, toks)
  end.

Definition parseBinary (op : string) (next : parser) : parser := fun toks =>
  match next toks with
  | None => None
  | Some (first, toks) =>
      match parseBinary_loop (length toks) op next [first] toks with
      | None => None
      | Some ([e], toks) => Some (e, toks)
      | Some (args, toks) => Some (Lic "" op args, toks)
      end
  end.

Definition parseAtom (parseOr : parser) : parser := fun toks =>
  match toks with
  | [] => None
  | t :: ts =>
      if String.eqb t "(" then
        match parseOr ts with
        | Some (e, c :: rest) => if String.eqb c ")" then Some (e, rest) else None
        | _ => None
        end
      else if String.eqb t ")" || peekOp toks "or" || peekOp toks "and" || peekOp toks "with"
      then None
      else Some (Lic (normalizeID t) "" [], ts)
  end.

Definition parseWith (parseOr : parser) : parser := fun toks =>
  match parseAtom parseOr toks with
  | None => None
  | Some (e, toks) =>
      if peekOp toks "with" then
        match parseAtom parseOr (tail toks) with
        | None => None
        | Some (_, toks) => Some (e, toks)
        end
      else Some (e, toks)
  end.

Definition parseAnd (parseOr : parser) : parser := parseBinary "and" (parseWith parseOr).

Fixpoint parseOr (fuel : nat) : parser :=
  match fuel with
  | O => fun _ => None
  | S fuel => parseBinary "or" (parseAnd (parseOr fuel))
  end.

Definition ParseLicense (s : string) : option LicenseExpr :=
  let s := TrimSpace s in
  if String.eqb s "" then None else
  let up := ToUpper s in
  if String.eqb up "NOASSERTION" || String.eqb up "UNKNOWN" || HasPrefix up "SEE LICENSE IN"
  then None else
  let toks := tokenizeLicense s in
  let leaf := Some (Lic (normalizeID s) "" []) in
  if (0 <? length toks)%nat then
    match parseOr (S (length toks)) toks with
    | Some (e, []) => Some e
    | _ => leaf
    end
  else leaf.

Definition licenseIn (id : string) (l : list string) : bool :=
  let base := TrimSuffix id "+" in
  existsb (fun x => String.eqb (normalizeID x) id || String.eqb (normalizeID x) base) l.

Fixpoint LicensePermitted (expr : LicenseExpr) (allowed denied : list string) : bool :=
  let 'Lic id op args := expr in
  if String.eqb op "or" then existsb (fun a => LicensePermitted a allowed denied) args
  else if String.eqb op "and" then forallb (fun a => LicensePermitted a allowed denied) args
  else if licenseIn id denied then false
  else (length allowed =? 0)%nat || licenseIn id allowed.

(** ** Lemmas: the fuel of the parser *)

Section expr_ind.
Variable P : LicenseExpr -> Prop.
Hypothesis Hlic : forall i op args, Forall P args -> P (Lic i op args).

Fixpoint LicenseExpr_nested (e : LicenseExpr) : P e :=
  let 'Lic i op args := e in
  Hlic i op args
    ((fix go (l : list LicenseExpr) : Forall P l :=
        match l with
        | [] => List.Forall_nil P
        | e :: l => List.Forall_cons P e l (LicenseExpr_nested e) (go l)
        end) args).
End expr_ind.

(** A parser that succeeds uses at least one token. *)
Definition consumes (p : parser) : Prop :=
  forall toks e rest, p toks = Some (e, rest) -> (length rest < length toks)%nat.

Lemma parseBinary_loop_len n op next args toks res rest :
  consumes next -> parseBinary_loop n op next args toks = Some (res, rest) ->
  (length rest <= length toks)%nat.
Proof.
  intros Hc. revert args toks. induction n as [|n IH]; intros args toks; simpl.
  - intros [= <- <-]. lia.
  - case_if; [|intros [= <- <-]; lia].
    destruct (next (tail toks)) as [[e toks']|] eqn:En; [|done].
    intros H%IH. apply Hc in En. destruct toks; simpl in *; lia.
Qed.

Lemma parseBinary_consumes op next : consumes next -> consumes (parseBinary op next).
Proof.
  intros Hc toks e rest. unfold parseBinary.
  destruct (next toks) as [[first toks']|] eqn:En; [|done]. apply Hc in En.
  destruct (parseBinary_loop _ _ _ _ _) as [[args toks'']|] eqn:El; [|done].
  apply parseBinary_loop_len in El; [|done].
  destruct args as [|a [|b args]]; intros [= <- <-]; lia.
Qed.

Lemma parseAtom_consumes p : (forall toks e rest, p toks = Some (e, rest) ->
  (length rest <= length toks)%nat) -> consumes (parseAtom p).
Proof.
  intros Hc [|t ts] e rest; simpl; [done|].
  case_if; [|case_if; [done|intros [= <- <-]; lia]].
  destruct (p ts) as [[e' [|c rest']]|] eqn:Ep; try done. case_if; [|done].
  intros [= <- <-]. apply Hc in Ep. simpl in *. lia.
Qed.

Lemma parseWith_consumes p : (forall toks e rest, p toks = Some (e, rest) ->
  (length rest <= length toks)%nat) -> consumes (parseWith p).
Proof.
  intros Hc toks e rest. unfold parseWith. pose proof (parseAtom_consumes p Hc) as Ha.
  destruct (parseAtom p toks) as [[e1 toks1]|] eqn:E1; [|done]. apply Ha in E1.
  case_if; [|intros [= <- <-]; lia].
  destruct (parseAtom p (tail toks1)) as [[e2 toks2]|] eqn:E2; [|done].
  apply Ha in E2. intros [= <- <-]. destruct toks1; simpl in *; lia.
Qed.

Lemma parseOr_consumes fuel : consumes (parseOr fuel).
Proof.
  induction fuel as [|fuel IH]; [by intros ? ? ?|]. cbn [parseOr]. unfold parseAnd.
  apply parseBinary_consumes, parseBinary_consumes, parseWith_consumes.
  intros toks e rest H. apply IH in H. lia.
Qed.

(** Two parsers that agree on fewer than [n] tokens. *)
Definition agree (n : nat) (p q : parser) : Prop :=
  forall toks, (length toks < n)%nat -> p toks = q toks.

Lemma parseBinary_loop_agree n op p q k args toks :
  agree n p q -> consumes p -> (length toks < n)%nat ->
  parseBinary_loop k op p args toks = parseBinary_loop k op q args toks.
Proof.
  intros Ha Hc. revert args toks. induction k as [|k IH]; intros args toks Hl; [done|].
  simpl. case_if; [|done]. rewrite <-(Ha (tail toks)) by (destruct toks; simpl in *; lia).
  destruct (p (tail toks)) as [[e toks']|] eqn:E; [|done]. apply Hc in E.
  apply IH. destruct toks; simpl in *; lia.
Qed.

Lemma parseBinary_agree n op p q : agree n p q -> consumes p ->
  agree n (parseBinary op p) (parseBinary op q).
Proof.
  intros Ha Hc toks Hl. unfold parseBinary. rewrite <-(Ha toks) by done.
  destruct (p toks) as [[e toks']|] eqn:E; [|done]. apply Hc in E.
  by rewrite (parseBinary_loop_agree n op p q) by (done || lia).
Qed.

Lemma parseWith_agree n p q : agree n p q -> consumes p ->
  agree (S n) (parseWith p) (parseWith q).
Proof.
  intros Ha Hc.
  assert (Hatom : agree (S n) (parseAtom p) (parseAtom q)).
  { intros [|t ts] Hl; [done|]. simpl. rewrite <-(Ha ts) by (simpl in *; lia). done. }
  intros toks Hl. unfold parseWith. rewrite <-(Hatom toks) by done.
  destruct (parseAtom p toks) as [[e toks']|] eqn:E; [|done].
  apply parseAtom_consumes in E; [|intros ??? H; apply Hc in H; lia].
  by rewrite <-(Hatom (tail toks')) by (destruct toks'; simpl in *; lia).
Qed.

(** More fuel than tokens is enough. *)
Lemma parseOr_enough f g toks : (length toks < f)%nat -> (length toks < g)%nat ->
  parseOr f toks = parseOr g toks.
Proof.
  revert g toks. induction f as [|f IH]; intros [|g] toks Hf Hg; try lia.
  cbn [parseOr]. set (n := S (length toks)).
  assert (Hr : agree (length toks) (parseOr f) (parseOr g)).
  { intros ts Hl. apply IH; lia. }
  assert (Hw : agree n (parseAnd (parseOr f)) (parseAnd (parseOr g))).
  { apply parseBinary_agree; [by apply parseWith_agree; [|apply parseOr_consumes]|].
    apply parseWith_consumes. intros ??? H%parseOr_consumes. lia. }
  apply (parseBinary_agree n); [done| |unfold n; lia].
  apply parseBinary_consumes, parseWith_consumes. intros ??? H%parseOr_consumes. lia.
Qed.

(** [parseOr] with the fuel [ParseLicense] gives it satisfies the recursive
    equation of the source. *)
Lemma parseOr_eq toks :
  parseOr (S (length toks)) toks =
  parseBinary "or" (parseAnd (fun ts => parseOr (S (length ts)) ts)) toks.
Proof.
  cbn [parseOr]. set (q := fun ts => parseOr (S (length ts)) ts).
  assert (Hr : agree (length toks) (parseOr (length toks)) q).
  { intros ts Hl. apply parseOr_enough; lia. }
  apply (parseBinary_agree (S (length toks))); [|
    apply parseBinary_consumes, parseWith_consumes; intros ??? H%parseOr_consumes; lia|lia].
  apply parseBinary_agree; [by apply parseWith_agree; [|apply parseOr_consumes]|].
  apply parseWith_consumes. intros ??? H%parseOr_consumes. lia.
Qed.

(** ** A printer, to state what the parser reads *)

Definition Op (e : LicenseExpr) : string := let 'Lic _ o _ := e in o.
Definition Args (e : LicenseExpr) : list LicenseExpr := let 'Lic _ _ l := e in l.

Fixpoint separated (sep : string) (l : list (list string)) : list string :=
  match l with
  | [] => []
  | [x] => x
  | x :: l => x ++ sep :: separated sep l
  end.

(** AND binds tighter than OR, so only an OR inside an AND, and a node inside
    one of its own kind, needs parentheses. *)
Fixpoint print (e : LicenseExpr) : list string :=
  let 'Lic i op args := e in
  match args with
  | [] => [i]
  | _ =>
      separated (ToUpper op)
        (map (fun a =>
                match Args a with
                | [] => print a
                | _ => if String.eqb op "or" && String.eqb (Op a) "and" then print a
                       else "(" :: print a ++ [")"]
                end) args)
  end.

Definition group (a : LicenseExpr) : list string :=
  match Args a with [] => print a | _ => "(" :: print a ++ [")"] end.

(** A token that is an operand and its own normal form. *)
Definition operand (t : string) : bool :=
  negb (String.eqb t "(" || String.eqb t ")" || EqualFold t "or" || EqualFold t "and"
        || EqualFold t "with") && String.eqb (normalizeID t) t.

Inductive wf : LicenseExpr -> Prop :=
| wf_leaf i : operand i = true -> wf (Lic i "" [])
| wf_node op a b args : op = "or" \/ op = "and" -> Forall wf (a :: b :: args) ->
    wf (Lic "" op (a :: b :: args)).

Definition pOr : parser := fun toks => parseOr (S (length toks)) toks.

(** No operator of [ops] is next. *)
Definition stops (ops : list string) (rest : list string) : Prop :=
  Forall (fun op => peekOp rest op = false) ops.

(** [p] reads what [tk] prints, before any [rest] that stops [ops]. *)
Definition reads (p : parser) (tk : list string) (e : LicenseExpr) (ops : list string) : Prop :=
  forall rest, stops ops rest -> p (tk ++ rest) = Some (e, rest).

Lemma separated_length sep l x : (length l <= length (separated sep (x :: l)))%nat.
Proof.
  revert x. induction l as [|y l IH]; intros x; simpl; [lia|].
  rewrite length_app. simpl. specialize (IH y). simpl in IH. lia.
Qed.

Lemma parseBinary_loop_reads op sep next ops tk items acc rest k :
  peekOp [sep] op = true -> stops ops [sep] -> stops (op :: ops) rest ->
  (forall e, In e items -> reads next (tk e) e ops) ->
  (length items <= k)%nat ->
  parseBinary_loop k op next acc (flat_map (fun e => sep :: tk e) items ++ rest)
  = Some (acc ++ items, rest).
Proof.
  intros Hsep Hstop Hrest. revert acc k.
  induction items as [|e items IH]; intros acc k Hr Hk; simpl.
  - rewrite app_nil_r. destruct k; [done|]. simpl.
    apply Forall_cons in Hrest as [-> _]. done.
  - destruct k as [|k]; [simpl in Hk; lia|]. simpl in *. rewrite Hsep, <-app_assoc.
    rewrite (Hr e (or_introl eq_refl)).
    + rewrite IH by (auto with lia). by rewrite <-app_assoc.
    + destruct items as [|e' items]; simpl; [by apply Forall_cons in Hrest as [_ ?]|].
      exact Hstop.
Qed.

Lemma separated_flat {A} sep (tk : A -> list string) a items :
  separated sep (map tk (a :: items)) = tk a ++ flat_map (fun e => sep :: tk e) items.
Proof.
  revert a. induction items as [|b items IH]; intros a; simpl; [by rewrite app_nil_r|].
  simpl in IH. by rewrite IH.
Qed.

Lemma parseBinary_reads op sep next ops tk a b items :
  peekOp [sep] op = true -> stops ops [sep] ->
  (forall e, In e (a :: b :: items) -> reads next (tk e) e ops) ->
  reads (parseBinary op next) (separated sep (map tk (a :: b :: items)))
        (Lic "" op (a :: b :: items)) (op :: ops).
Proof.
  intros Hsep Hstop Hr rest Hrest. unfold parseBinary.
  rewrite separated_flat, <-app_assoc. rewrite (Hr a (or_introl eq_refl)).
  2: { simpl. exact Hstop. }
  rewrite (parseBinary_loop_reads op sep next ops tk (b :: items) [a] rest); try done.
  - intros e He. apply Hr. by right.
  - clear. rewrite length_app. simpl. rewrite length_app.
    enough (length items <= length (flat_map (fun e => sep :: tk e) items))%nat by lia.
    induction items as [|e items IH]; simpl; [lia|]. rewrite length_app. lia.
Qed.

Lemma parseBinary_single op next tk e ops :
  reads next tk e ops -> reads (parseBinary op next) tk e (op :: ops).
Proof.
  intros Hr rest Hrest. unfold parseBinary. apply Forall_cons in Hrest as [Hop Hrest].
  rewrite (Hr rest) by done. destruct rest as [|t rest]; simpl; [done|].
  simpl in Hop. by rewrite Hop.
Qed.

Definition level_ops : list string := ["or"; "and"; "with"].

Lemma operand_spec i : operand i = true ->
  String.eqb i "(" = false /\ String.eqb i ")" = false /\ EqualFold i "or" = false /\
  EqualFold i "and" = false /\ EqualFold i "with" = false /\ normalizeID i = i.
Proof.
  unfold operand. rewrite andb_true_iff, negb_true_iff, !orb_false_iff, String.eqb_eq. tauto.
Qed.

Lemma leaf_atom p j r : operand j = true -> parseAtom p (j :: r) = Some (Lic j "" [], r).
Proof.
  intros (H1 & H2 & H3 & H4 & H5 & H6)%operand_spec.
  unfold parseAtom. cbn [peekOp]. by rewrite H1, H2, H3, H4, H5, H6.
Qed.

Lemma atom_reads e : wf e -> reads pOr (print e) e level_ops ->
  reads (parseAtom pOr) (group e) e [].
Proof.
  intros Hwf Hr rest _. destruct Hwf as [i Hi|op a b args Hop Hargs].
  - by apply leaf_atom.
  - unfold group. cbn [Args app parseAtom]. rewrite String.eqb_refl.
    rewrite <-app_assoc. rewrite Hr; [done|]. by repeat constructor.
Qed.

Lemma with_reads e : wf e -> reads pOr (print e) e level_ops ->
  reads (parseWith pOr) (group e) e ["with"].
Proof.
  intros Hwf Hr rest [Hw _]%Forall_cons. unfold parseWith.
  rewrite (atom_reads e Hwf Hr) by constructor. by rewrite Hw.
Qed.

(** What the induction carries: [pOr] reads the printed expression, and
    [parseAnd] does when it is an AND node. *)
Definition read_back (e : LicenseExpr) : Prop :=
  reads pOr (print e) e level_ops /\
  (Op e = "and" -> reads (parseAnd pOr) (print e) e ["and"; "with"]).

Lemma pOr_reads tk e :
  reads (parseBinary "or" (parseAnd pOr)) tk e level_ops -> reads pOr tk e level_ops.
Proof. intros H rest Hrest. unfold pOr at 1. rewrite parseOr_eq. by apply H. Qed.

Lemma leaf_read_back j : operand j = true -> read_back (Lic j "" []).
Proof.
  intros Hj. split; [|done]. apply pOr_reads.
  apply (parseBinary_single _ _ _ _ ["and"; "with"]), (parseBinary_single _ _ _ _ ["with"]).
  intros r [Hw _]%Forall_cons. unfold parseWith.
  change (print (Lic j "" []) ++ r) with (j :: r). rewrite leaf_atom by done. by rewrite Hw.
Qed.

Lemma and_read_back a b args :
  (forall e, In e (a :: b :: args) -> wf e /\ read_back e) ->
  read_back (Lic "" "and" (a :: b :: args)).
Proof.
  intros Hitem.
  assert (Hand : reads (parseAnd pOr) (print (Lic "" "and" (a :: b :: args)))
                   (Lic "" "and" (a :: b :: args)) ["and"; "with"]).
  { apply (parseBinary_reads "and" "AND" _ ["with"]); [done|by repeat constructor|].
    intros e He. destruct (Hitem e He) as [Hwe [Hre _]]. by apply with_reads. }
  split; [|done]. by apply pOr_reads, (parseBinary_single _ _ _ _ ["and"; "with"]).
Qed.

Lemma or_read_back a b args :
  (forall e, In e (a :: b :: args) -> wf e /\ read_back e) ->
  read_back (Lic "" "or" (a :: b :: args)).
Proof.
  intros Hitem. split; [|done]. apply pOr_reads.
  apply (parseBinary_reads "or" "OR" _ ["and"; "with"]); [done|by repeat constructor|].
  intros e He. destruct (Hitem e He) as [Hwe [Hre Hand]].
  assert (Hgrp : reads (parseAnd pOr) (group e) e ["and"; "with"]).
  { apply (parseBinary_single _ _ _ _ ["with"]). by apply with_reads. }
  unfold group in Hgrp. cbn [String.eqb]. destruct (Args e); [done|].
  destruct (String.eqb_spec (Op e) "and") as [Heq|_]; [by apply Hand|done].
Qed.

Lemma print_reads e : wf e -> read_back e.
Proof.
  induction e as [i op args IH] using LicenseExpr_nested. intros Hwf.
  assert (Hitem : forall a, In a args -> wf a /\ read_back a).
  { intros a Ha. assert (Hwa : wf a).
    { inversion Hwf as [|? a' b' args' _ Hall]; subst; [done|].
      rewrite List.Forall_forall in Hall. auto. }
    rewrite List.Forall_forall in IH. auto. }
  inversion Hwf as [j Hj|op' a b args' Hop Hall]; subst.
  - by apply leaf_read_back.
  - destruct Hop as [-> | ->]; [by apply or_read_back|by apply and_read_back].
Qed.

(** ** What an expression asks for *)

(** [satisfies e ids]: agreeing to the licenses [ids] satisfies [e]. *)
Inductive satisfies : LicenseExpr -> list string -> Prop :=
| sat_leaf i op args : op <> "or" -> op <> "and" -> satisfies (Lic i op args) [i]
| sat_or i args a ids : In a args -> satisfies a ids -> satisfies (Lic i "or" args) ids
| sat_and i args idss : Forall2 satisfies args idss ->
    satisfies (Lic i "and" args) (concat idss).

Definition acceptable (allowed denied : list string) (id : string) : Prop :=
  licenseIn id denied = false /\ (allowed = [] \/ licenseIn id allowed = true).

Lemma permitted_leaf id allowed denied :
  (if licenseIn id denied then false
   else (length allowed =? 0)%nat || licenseIn id allowed) = true
  <-> acceptable allowed denied id.
Proof.
  unfold acceptable. destruct (licenseIn id denied); [naive_solver|].
  rewrite orb_true_iff. destruct allowed; simpl; naive_solver.
Qed.

Lemma Forall_concat {A} (P : A -> Prop) ls : Forall P (concat ls) <-> Forall (Forall P) ls.
Proof.
  induction ls as [|l ls IH]; simpl; [split; constructor|].
  by rewrite Forall_app, Forall_cons, IH.
Qed.

Lemma permitted_all allowed denied args :
  Forall (fun e => LicensePermitted e allowed denied = true <->
    exists ids, satisfies e ids /\ Forall (acceptable allowed denied) ids) args ->
  forallb (fun a => LicensePermitted a allowed denied) args = true <->
  exists idss, Forall2 satisfies args idss /\ Forall (Forall (acceptable allowed denied)) idss.
Proof.
  induction 1 as [|e args He _ IH]; simpl.
  - split; [intros _; exists []; by split|done].
  - rewrite andb_true_iff, He, IH. split.
    + intros ((ids & Hs & Ha) & idss & Hss & Has). exists (ids :: idss). by split; constructor.
    + intros (idss & Hss & Has). inversion Hss as [|? ids ? idss' Hs Hss']; subst.
      apply Forall_cons in Has as [Ha Has]. eauto 6.
Qed.

(** ** Properties *)

(** the parser reads back every printed expression, whatever the nesting
    of AND and OR: an AND inside an OR needs no parentheses, everything else
    nested is grouped by them. *)
Theorem parse_print e : wf e -> parseOr (S (length (print e))) (print e) = Some (e, []).
Proof.
  intros Hwf. destruct (print_reads e Hwf) as [Hr _]. specialize (Hr []).
  rewrite app_nil_r in Hr. apply Hr. by repeat constructor.
Qed.

Lemma parse_print_witness :
  let e := Lic "" "or" [Lic "mit" "" []; Lic "" "and" [Lic "isc" "" [];
             Lic "" "or" [Lic "bsd-3-clause" "" []; Lic "mpl-2.0" "" []]]] in
  print e = ["mit"; "OR"; "isc"; "AND"; "("; "bsd-3-clause"; "OR"; "mpl-2.0"; ")"]
  /\ parseOr (S (length (print e))) (print e) = Some (e, []).
Proof.
  split; [done|]. apply parse_print.
  repeat first [ apply wf_leaf; reflexivity | apply wf_node; [auto|] | apply List.Forall_nil
               | apply List.Forall_cons ].
Defined.

(** an expression is permitted exactly when it can be satisfied by
    licenses that are all off the denylist and, if there is an allowlist, on
    it: an OR needs one acceptable side, an AND needs all of them. *)
Theorem LicensePermitted_spec e allowed denied :
  LicensePermitted e allowed denied = true <->
  exists ids, satisfies e ids /\ Forall (acceptable allowed denied) ids.
Proof.
  induction e as [i op args IH] using LicenseExpr_nested. cbn [LicensePermitted].
  destruct (String.eqb_spec op "or") as [->|Hor].
  { rewrite existsb_exists. rewrite List.Forall_forall in IH. split.
    - intros (a & Ha & Hp). apply IH in Hp as (ids & Hs & Hids); [|done].
      exists ids. split; [by eapply sat_or|done].
    - intros (ids & Hs & Hids). inversion Hs as [|? ? a ? Ha Hsa|]; subst; [done|].
      exists a. split; [done|]. apply IH; eauto. }
  destruct (String.eqb_spec op "and") as [->|Hand].
  { rewrite permitted_all by done. split.
    - intros (idss & Hss & Has). exists (concat idss). by split; [constructor|apply Forall_concat].
    - intros (ids & Hs & Hids). inversion Hs as [| |? ? idss Hss]; subst; [done|].
      apply Forall_concat in Hids. eauto. }
  rewrite permitted_leaf. split.
  - intros Ha. exists [i]. split; [by apply sat_leaf|by constructor; [|constructor]].
  - intros (ids & Hs & Hids). inversion Hs; subst; [|done..]. by inversion Hids.
Qed.
