(* ===== verification/Osv.v ===== *)
(** * internal/registry/policy: advisories (osv.go) and severities (cvss.go)

    Severity ranks, the selection of the advisories that block a version, the
    OSV names of packages and versions, and the cache in front of the OSV
    service.  [query] of the code holds its mutex for the lookup and again for
    the update, with the HTTP fetch in between; here these are [cache_lookup]
    and [cache_store], and [query] composes them around [fetch], the answer of
    the service.  Go ranges over a map in no fixed order: [evict] takes the
    order of its second pass as an argument.  Times are nanoseconds.  The
    theorems: the cache and the warning set never exceed their bound, whoever
    interleaves; a hit is an unexpired answer stored under the same key, and
    keys of different queries differ; [blocking] returns exactly the ids and
    CVE aliases of the advisories at or above the floor, once each. *)

From Stdlib Require Import ZArith Lia Ascii.
From stdpp Require Import base list strings gmap.
From S2P Require Import Prelude GoStrings.

Local Open Scope Z_scope.

(** ** Severities (cvss.go) *)

Definition severityRank (s : string) : Z :=
  let s := ToLower (TrimSpace s) in
  if String.eqb s "low" then 1
  else if String.eqb s "moderate" || String.eqb s "medium" then 2
  else if String.eqb s "high" then 3
  else if String.eqb s "critical" then 4
  else 0.

Definition NormalizeSeverity (s : string) : string :=
  let r := severityRank s in
  if r =? 1 then "low" else if r =? 2 then "moderate" else if r =? 3 then "high"
  else if r =? 4 then "critical" else "unknown".

(** ** Advisories *)

Record Vuln := {
  vID : string; vSummary : string; vSeverity : string;
  vAliases : list string; vFixedIn : list string; vURL : string;
}.

(** [add] of [blocking] *)
Definition addID (acc : gset string * list string) (id : string) : gset string * list string :=
  if String.eqb id "" then acc else push_new acc id.

Definition blockVuln (floor : Z) (acc : gset string * list string) (v : Vuln)
    : gset string * list string :=
  if (0 <? floor) && (severityRank (vSeverity v) <? floor) then acc
  else foldl (fun acc a => if HasPrefix a "CVE-" then addID acc a else acc)
             (addID acc (vID v)) (vAliases v).

Definition blocking (vulns : list Vuln) (minSeverity : string) : list string :=
  snd (foldl (blockVuln (severityRank minSeverity)) (∅, []) vulns).

Definition firstLine (s : string) : string :=
  let s := TrimSpace s in
  let s := match IndexByte s (chr 10) with Some i => str_take i s | None => s end in
  if (200 <? len s)%nat then str_take 200 s +:+ EncodeRune 0x2026 else s.

(** ** OSV names *)

Definition pypi_sep (c : ascii) : bool :=
  Ascii.eqb c "-" || Ascii.eqb c "_" || Ascii.eqb c ".".

(** [pypiNormRe.ReplaceAllString(s, "-")]: each run of separators is one "-". *)
Fixpoint pypiNorm (s : string) (inrun : bool) : string :=
  match s with
  | "" => ""
  | String c s =>
      if pypi_sep c then
        if inrun then pypiNorm s true else String "-" (pypiNorm s true)
      else String c (pypiNorm s false)
  end.

Definition OSVPackageName (eco name : string) : string :=
  if String.eqb eco "PyPI" then pypiNorm (ToLower name) false
  else if String.eqb eco "Maven" then
    if negb (Contains name ":") then
      match LastIndexByte name "/" with
      | Some i =>
          if (0 <? i)%nat
          then ReplaceByte (str_take i name) "/" "." +:+ ":" +:+ str_drop (i + 1) name
          else name
      | None => name
      end
    else name
  else if String.eqb eco "Packagist" then ToLower name
  else name.

Definition OSVVersion (eco version : string) : string :=
  if String.eqb eco "Go" then TrimPrefix version "v" else version.

(** ** The cache *)

Definition maxCacheEntries : Z := 10000.

(** [len] of a Go map used as a map, and of one used as a set. *)
Definition mlen {A} (m : gmap string A) : Z := Z.of_nat (size m).
Definition slen (s : gset string) : Z := Z.of_nat (size s).

Record cacheEntry := { vulns : list Vuln; expires : Z }.

Record osvClient := {
  cache : gmap string cacheEntry;
  warned : gset string;
}.

Definition cache_key (eco name version : string) : string :=
  eco +:+ String zero (name +:+ String zero version).

Definition cache_lookup (key : string) (now : Z) (c : osvClient) : option (list Vuln) :=
  match cache c !! key with
  | Some e => if now <? expires e then Some (vulns e) else None
  | None => None
  end.

(** The second pass of [evict]: delete in the given order down to the target. *)
Definition evict_to (target : Z) (order : list string) (m : gmap string cacheEntry)
    : gmap string cacheEntry :=
  foldl (fun m k => if mlen m <=? target then m else delete k m) m order.

Definition evict (now : Z) (order : list string) (m : gmap string cacheEntry)
    : gmap string cacheEntry :=
  evict_to (maxCacheEntries * 9 / 10) order
    (filter (fun '(k, e) => now < expires e) m).

(** What [query] does once the fetch has returned. *)
Definition cache_store (key : string) (now ttl : Z) (order : list string)
    (fetched : option (list Vuln)) (c : osvClient) : option (list Vuln) * osvClient :=
  match fetched with
  | None =>
      (None,
       if bool_decide (key ∈ warned c) then c
       else {| cache := cache c;
               warned := {[key]} ∪
                 (if maxCacheEntries <=? slen (warned c) then ∅ else warned c) |})
  | Some vs =>
      (Some vs,
       {| cache := <[key := {| vulns := vs; expires := now + ttl |}]>
                     (if maxCacheEntries <=? mlen (cache c)
                      then evict now order (cache c) else cache c);
          warned := warned c ∖ {[key]} |})
  end.

Section query.
(** What the service answers, and the order of the map iteration. *)
Variables (fetch : string -> string -> string -> option (list Vuln))
          (order : osvClient -> list string) (now ttl : Z).

Definition query (eco name version : string) (c : osvClient)
    : option (list Vuln) * osvClient :=
  let name := OSVPackageName eco name in
  let version := OSVVersion eco version in
  let key := cache_key eco name version in
  match cache_lookup key now c with
  | Some vs => (Some vs, c)
  | None => cache_store key now ttl (order c) (fetch eco name version) c
  end.
End query.

(** ** Lemmas *)

Lemma addID_wf acc id : seen_wf acc -> seen_wf (addID acc id).
Proof. unfold addID. case_if; auto using push_new_wf. Qed.

Lemma addID_elem acc id y : seen_wf acc ->
  y ∈ (addID acc id).2 <-> y ∈ acc.2 \/ (y = id /\ y <> "").
Proof.
  intros Hwf. unfold addID. case_if as E; [|rewrite push_new_elem by done]; naive_solver.
Qed.

Lemma aliases_wf acc l : seen_wf acc ->
  seen_wf (foldl (fun acc a => if HasPrefix a "CVE-" then addID acc a else acc) acc l).
Proof.
  revert acc. induction l as [|a l IH]; intros acc Hwf; [done|]. simpl. apply IH.
  case_if; auto using addID_wf.
Qed.

Lemma aliases_elem acc l y : seen_wf acc ->
  y ∈ (foldl (fun acc a => if HasPrefix a "CVE-" then addID acc a else acc) acc l).2
  <-> y ∈ acc.2 \/ (y ∈ l /\ HasPrefix y "CVE-" = true).
Proof.
  revert acc. induction l as [|a l IH]; intros acc Hwf; cbn [foldl]; [set_solver|].
  rewrite IH by (case_if; auto using addID_wf).
  destruct (HasPrefix a "CVE-") eqn:E; [rewrite addID_elem by done|]; split.
  - rewrite elem_of_cons. naive_solver.
  - rewrite elem_of_cons. intros [?|[[->|?] ?]]; auto. left. right. split; [done|]. by intros ->.
  - rewrite elem_of_cons. naive_solver.
  - rewrite elem_of_cons. intros [?|[[->|?] ?]]; auto. congruence.
Qed.

(** An advisory that the floor lets through names [y]. *)
Definition names (floor : Z) (v : Vuln) (y : string) : Prop :=
  (floor <= 0 \/ floor <= severityRank (vSeverity v)) /\
  ((y = vID v /\ y <> "") \/ (y ∈ vAliases v /\ HasPrefix y "CVE-" = true)).

Lemma blockVuln_wf floor acc v : seen_wf acc -> seen_wf (blockVuln floor acc v).
Proof. intros Hwf. unfold blockVuln. case_if; auto using aliases_wf, addID_wf. Qed.

Lemma blockVuln_elem floor acc v y : seen_wf acc ->
  y ∈ (blockVuln floor acc v).2 <-> y ∈ acc.2 \/ names floor v y.
Proof.
  intros Hwf. unfold blockVuln, names.
  destruct ((0 <? floor) && (severityRank (vSeverity v) <? floor)) eqn:E.
  - bool_prop. split; [auto|]. intros [?|[? _]]; [done|lia].
  - rewrite aliases_elem, addID_elem by auto using addID_wf.
    assert (floor <= 0 \/ floor <= severityRank (vSeverity v)); [|tauto].
    apply andb_false_iff in E as [E|E]; bool_prop; lia.
Qed.

Lemma blocking_fold floor acc l : seen_wf acc ->
  seen_wf (foldl (blockVuln floor) acc l) /\
  forall y, y ∈ (foldl (blockVuln floor) acc l).2 <->
    y ∈ acc.2 \/ exists v, v ∈ l /\ names floor v y.
Proof.
  revert acc. induction l as [|v l IH]; intros acc Hwf; cbn [foldl].
  - split; [done|]. set_solver.
  - destruct (IH (blockVuln floor acc v)) as [Hw He]; [by apply blockVuln_wf|].
    split; [done|]. intros y. rewrite He, blockVuln_elem by done.
    setoid_rewrite elem_of_cons. naive_solver.
Qed.

Lemma evict_to_subseteq target order m : evict_to target order m ⊆ m.
Proof.
  unfold evict_to. revert m. induction order as [|k order IH]; intros m; simpl; [done|].
  etrans; [apply IH|]. case_if; [done|]. apply delete_subseteq.
Qed.

(** With every key in the order, the pass reaches its target. *)
Lemma evict_to_stay target order m : mlen m <= target -> evict_to target order m = m.
Proof.
  intros Hle%Z.leb_le. unfold evict_to. induction order as [|k order IH]; [done|].
  simpl. by rewrite Hle.
Qed.

Lemma evict_to_size target order m : 0 <= target ->
  (forall k, is_Some (m !! k) -> k ∈ order) -> mlen (evict_to target order m) <= target.
Proof.
  intros Ht. revert m. induction order as [|k order IH]; intros m Hm.
  - assert (m = ∅) as ->; [|done].
    apply map_empty. intros k. destruct (m !! k) eqn:E; [|done].
    specialize (Hm k ltac:(by eexists)). set_solver.
  - destruct (Z.leb_spec (mlen m) target) as [Hle|Hgt]; [by rewrite evict_to_stay|].
    unfold evict_to in *. simpl. apply Z.leb_gt in Hgt as ->.
    apply IH. intros k' [e He]. destruct (decide (k = k')) as [->|Hne].
    { by rewrite lookup_delete_eq in He. }
    rewrite lookup_delete_ne in He by done.
    specialize (Hm k' ltac:(by eexists)). set_solver.
Qed.

Lemma evict_size now order m : (forall k, is_Some (m !! k) -> k ∈ order) ->
  mlen (evict now order m) <= 9000.
Proof.
  intros Hm. change 9000 with (maxCacheEntries * 9 / 10).
  apply evict_to_size; [done|]. intros k [e He]. apply Hm.
  apply map_lookup_filter_Some in He as [He _]. by eexists.
Qed.

(** The bound on the memory of the client. *)
Definition bounded (c : osvClient) : Prop :=
  mlen (cache c) <= maxCacheEntries /\ slen (warned c) <= maxCacheEntries.

(** The iteration order ranges over every key of the map. *)
Definition covers (order : list string) (c : osvClient) : Prop :=
  forall k, is_Some (cache c !! k) -> k ∈ order.

Lemma mlen_insert {A} (m : gmap string A) k x : mlen (<[k:=x]> m) <= mlen m + 1.
Proof. unfold mlen. rewrite map_size_insert. destruct (m !! k); simpl; lia. Qed.

Lemma slen_union_singleton k s : slen ({[k]} ∪ s) <= slen s + 1.
Proof.
  unfold slen. destruct (decide (k ∈ s)).
  - replace ({[k]} ∪ s) with s by set_solver. lia.
  - rewrite size_union, size_singleton by set_solver. lia.
Qed.

(** ** Properties *)

(** the ids that block a version are the non-empty ids and the CVE
    aliases of the advisories at or above the floor, each listed once; without
    a recognised floor every advisory counts. *)
Theorem blocking_spec vs minSeverity y :
  NoDup (blocking vs minSeverity) /\
  (y ∈ blocking vs minSeverity <-> exists v, v ∈ vs /\ names (severityRank minSeverity) v y).
Proof.
  unfold blocking.
  destruct (blocking_fold (severityRank minSeverity) (∅, []) vs empty_wf) as [[Hnd _] He].
  split; [done|]. rewrite He. set_solver.
Qed.

(** storing an answer or a failure keeps the cache and the set of warned
    keys within 10000 entries, from any state of the client that other
    requests may have left. *)
Theorem cache_store_bounded key now ttl order fetched c :
  bounded c -> covers order c -> bounded (snd (cache_store key now ttl order fetched c)).
Proof.
  intros [Hc Hw] Hcov. unfold cache_store, bounded. destruct fetched as [vs|]; simpl.
  - split.
    + etrans; [apply mlen_insert|].
      destruct (Z.leb_spec maxCacheEntries (mlen (cache c))); [|lia].
      pose proof (evict_size now order (cache c) Hcov). unfold maxCacheEntries. lia.
    + etrans; [|exact Hw]. unfold slen. apply Nat2Z.inj_le, subseteq_size. set_solver.
  - case_bool_decide; simpl; [done|]. split; [done|].
    etrans; [apply slen_union_singleton|].
    destruct (Z.leb_spec maxCacheEntries (slen (warned c))) as [|Hlt]; [done|lia].
Qed.

Lemma cache_store_bounded_witness :
  bounded (snd (cache_store "npm" 0 5 [] (Some []) {| cache := ∅; warned := ∅ |})).
Proof.
  apply cache_store_bounded.
  - done.
  - intros k [e He]. cbn [cache] in He. by rewrite lookup_empty in He.
Defined.

(** after a successful store, a lookup before the entry expires returns
    the stored advisories, and queries of NUL-free ecosystems, names and
    versions share an entry only when they are the same query. *)
Theorem cache_lookup_store key key' now now' ttl order vs c :
  now' < now + ttl ->
  cache_lookup key now' (snd (cache_store key now ttl order (Some vs) c)) = Some vs /\
  (forall eco name version eco' name' version',
     no_byte zero (eco +:+ name) = true -> no_byte zero (eco' +:+ name') = true ->
     key = cache_key eco name version -> key' = cache_key eco' name' version' ->
     key = key' -> eco = eco' /\ name = name' /\ version = version').
Proof.
  intros Hnow. split.
  - unfold cache_lookup, cache_store. simpl. rewrite lookup_insert_eq. simpl.
    by apply Z.ltb_lt in Hnow as ->.
  - intros eco name version eco' name' version' H1 H2 -> -> Heq.
    rewrite no_byte_app in H1, H2. bool_prop. unfold cache_key in Heq.
    apply no_byte_cut in Heq as [-> Heq]; [|done..].
    by apply no_byte_cut in Heq as [-> ->].
Qed.

Lemma cache_lookup_store_witness :
  cache_lookup "k" 3 (snd (cache_store "k" 0 5 [] (Some []) {| cache := ∅; warned := ∅ |}))
  = Some [].
Proof. apply (cache_lookup_store "k" "k" 0 3 5 [] []). done. Defined.
