(* ===== verification/Policy.v ===== *)
(** * internal/registry/policy/policy.go: the data-plane request gate

    [Engine] evaluates the policy of a repository on a request: name filters,
    quarantine, licenses, advisories and signatures.  A registry is a record
    of the interface methods the engine calls, the optional interfaces
    ([ArtifactClassifier], [ArtifactInfoProvider], [SignatureChecker]) being
    options.  The OSV client is explicit state.  Times are nanoseconds since
    Go's zero time, so [IsZero] is [= 0]; durations are 64-bit.  The text of a
    reason is a constructor with the arguments of its format string.  The
    theorems give the exact condition under which a request passes, what fails
    open and what fails closed, and the overflow of the quarantine window. *)

From Stdlib Require Import ZArith Lia Ascii.
From stdpp Require Import base list strings gmap.
From S2P Require Import Prelude GoStrings PolicyMatch License Osv.

Local Open Scope Z_scope.

(** ** internal/service/registry.go: the policy of a repository *)

Record RegistryRetentionPolicy := {
  GCMinAgeSeconds : Z;
  AbandonedUploadMaxAgeSeconds : Z;
  KeepLastVersions : Z;
  MaxVersionAgeDays : Z;
  KeepPatterns : list string;
}.

Record RegistryPolicy := {
  ImmutableTags : list string;
  Retention : option RegistryRetentionPolicy;
  Include : list string;
  Exclude : list string;
  ImmutableVersions : bool;
  QuotaBytes : Z;
  QuarantineDays : Z;
  BlockVulnerable : bool;
  MinSeverity : string;
  AllowedLicenses : list string;
  DeniedLicenses : list string;
  BlockUnknownLicense : bool;
  RequireSignature : bool;
}.

(** ** internal/registry/registry.go: what the engine asks of a registry *)

Record ArtifactRef := { Name : string; Version : string }.

Record ArtifactMeta := { License : string; PublishedAt : Z }.

Inductive RegistryError :=
| ErrPackageNotFound
| OtherError (msg : string).

Record Request := { Method : string; URLPath : string }.

Record Registry := {
  rNamespace : string;
  rName : string;
  rType : string;
  ClassifyRequest : option (Request -> option ArtifactRef);
  ArtifactInfo : option (ArtifactRef -> result RegistryError ArtifactMeta);
  HasSignature : option (string -> string -> bool * option RegistryError);
}.

Definition Ecosystem (registryType : string) : string :=
  if String.eqb registryType "go" then "Go"
  else if String.eqb registryType "npm" then "npm"
  else if String.eqb registryType "maven" then "Maven"
  else if String.eqb registryType "pypi" then "PyPI"
  else if String.eqb registryType "cargo" then "crates.io"
  else if String.eqb registryType "nuget" then "NuGet"
  else if String.eqb registryType "rubygems" then "RubyGems"
  else if String.eqb registryType "composer" then "Packagist"
  else if String.eqb registryType "pub" then "Pub"
  else if String.eqb registryType "swift" then "SwiftURL"
  else if String.eqb registryType "cran" then "CRAN"
  else if String.eqb registryType "conan" then "ConanCenter"
  else "".

(** ** Decisions *)

Inductive Reason :=
| NoReason
| NameBlocked (name : string)
| Quarantined (label : string) (until : Z)
| LicenseUnknown (label : string)
| LicenseDenied (license label : string)
| Vulnerable (label ids : string)
| NotSigned (name version : string)
| SignatureUnverified (name version : string) (err : RegistryError).

Record Decision := { Allowed : bool; Status : Z; reason : Reason }.

Definition allow : Decision := {| Allowed := true; Status := 0; reason := NoReason |}.

Definition deny (r : Reason) : Decision :=
  {| Allowed := false; Status := 403; reason := r |}.

Definition nonempty {A} (l : list A) : bool := (0 <? length l)%nat.

Definition readActive (p : RegistryPolicy) : bool :=
  nonempty (Include p) || nonempty (Exclude p) || (0 <? QuarantineDays p) ||
  BlockVulnerable p || nonempty (AllowedLicenses p) || nonempty (DeniedLicenses p) ||
  BlockUnknownLicense p || RequireSignature p.

Definition checkName (p : RegistryPolicy) (name : string) : Decision :=
  if negb (NameAllowed (Include p) (Exclude p) name) then deny (NameBlocked name) else allow.

Definition checkLicense (p : RegistryPolicy) (label license : string) : Decision :=
  if negb (nonempty (AllowedLicenses p)) && negb (nonempty (DeniedLicenses p)) &&
     negb (BlockUnknownLicense p) then allow
  else
    match ParseLicense license with
    | None => if BlockUnknownLicense p then deny (LicenseUnknown label) else allow
    | Some expr =>
        if negb (LicensePermitted expr (AllowedLicenses p) (DeniedLicenses p))
        then deny (LicenseDenied (TrimSpace license) label) else allow
    end.

Definition summarizeIDs (ids : list string) : string :=
  if (length ids <=? 6)%nat then Join ids ", "
  else Join (take 6 ids) ", " +:+ " and " +:+ itoa (Z.of_nat (length ids - 6)) +:+ " more".

Definition hour : Z := 3600000000000.

(** [meta.PublishedAt.Add(time.Duration(days) * 24 * time.Hour)] *)
Definition quarantineUntil (published days : Z) : Z :=
  published + wrap64 (wrap64 (days * 24) * hour).

(** ** The engine *)

Section engine.
(** The OSV service, the iteration order of the cache, the clock and the
    lifetime of cache entries. *)
Variables (fetch : string -> string -> string -> option (list Vuln))
          (order : osvClient -> list string) (now ttl : Z).

(** The quarantine and license part of [evaluate]. *)
Definition evaluateMeta (reg : Registry) (p : RegistryPolicy) (ref : ArtifactRef) : Decision :=
  let label := Name ref +:+ "@" +:+ Version ref in
  if (0 <? QuarantineDays p) || nonempty (AllowedLicenses p) ||
     nonempty (DeniedLicenses p) || BlockUnknownLicense p then
    let '(meta, known) :=
      match ArtifactInfo reg with
      | Some info =>
          match info ref with
          | Ok m => (m, true)
          | Err _ => ({| License := ""; PublishedAt := 0 |}, false)
          end
      | None => ({| License := ""; PublishedAt := 0 |}, false)
      end in
    let until := quarantineUntil (PublishedAt meta) (QuarantineDays p) in
    if (0 <? QuarantineDays p) && known && negb (PublishedAt meta =? 0) && (now <? until)
    then deny (Quarantined label until)
    else checkLicense p label (License meta)
  else allow.

(** The advisory part: the OSV client may fetch and cache. *)
Definition evaluateVulns (reg : Registry) (p : RegistryPolicy) (ref : ArtifactRef)
    (c : osvClient) : Decision * osvClient :=
  let label := Name ref +:+ "@" +:+ Version ref in
  let eco := Ecosystem (rType reg) in
  if BlockVulnerable p && negb (String.eqb eco "") then
    match query fetch order now ttl eco (Name ref) (Version ref) c with
    | (Some vs, c) =>
        let ids := blocking vs (MinSeverity p) in
        if nonempty ids then (deny (Vulnerable label (summarizeIDs ids)), c) else (allow, c)
    | (None, c) => (allow, c)
    end
  else (allow, c).

(** The signature part. *)
Definition evaluateSignature (reg : Registry) (p : RegistryPolicy) (ref : ArtifactRef)
    : Decision :=
  if RequireSignature p && String.eqb (rType reg) "docker" &&
     negb (HasPrefix (Version ref) "sha256:") then
    match HasSignature reg with
    | None => deny (NotSigned (Name ref) (Version ref))
    | Some check =>
        match check (Name ref) (Version ref) with
        | (_, Some (OtherError m)) =>
            deny (SignatureUnverified (Name ref) (Version ref) (OtherError m))
        | (signed, _) =>
            if signed then allow else deny (NotSigned (Name ref) (Version ref))
        end
    end
  else allow.

Definition evaluate (reg : Registry) (p : RegistryPolicy) (ref : ArtifactRef)
    (c : osvClient) : Decision * osvClient :=
  if negb (Allowed (checkName p (Name ref))) then (checkName p (Name ref), c)
  else if String.eqb (Version ref) "" then (allow, c)
  else
    let d := evaluateMeta reg p ref in
    if negb (Allowed d) then (d, c)
    else
      let '(d, c) := evaluateVulns reg p ref c in
      if negb (Allowed d) then (d, c)
      else (evaluateSignature reg p ref, c).

(** [lookup] returns the row of a repository, here its policy if it has a
    row and the row has one. *)
Variable lookup : option (string -> string -> option (option RegistryPolicy)).

Definition policyFor (reg : option Registry) : option RegistryPolicy :=
  match lookup, reg with
  | Some lookup, Some reg =>
      match lookup (rNamespace reg) (rName reg) with
      | Some policy => policy
      | None => None
      end
  | _, _ => None
  end.

Definition pass : Z * Reason * bool := (0, NoReason, true).

Definition Gate (oreg : option Registry) (r : Request) (c : osvClient)
    : (Z * Reason * bool) * osvClient :=
  match policyFor oreg, oreg with
  | Some p, Some reg =>
      let read := String.eqb (Method r) "GET" || String.eqb (Method r) "HEAD" in
      if negb read && (String.eqb (Method r) "OPTIONS" ||
                       (negb (nonempty (Include p)) && negb (nonempty (Exclude p))))
      then (pass, c)
      else if read && negb (readActive p) then (pass, c)
      else
        match ClassifyRequest reg with
        | None => (pass, c)
        | Some classify =>
            match classify r with
            | None => (pass, c)
            | Some ref =>
                let '(d, c) := if read then evaluate reg p ref c
                               else (checkName p (Name ref), c) in
                if Allowed d then (pass, c) else ((Status d, reason d, false), c)
            end
        end
  | _, _ => (pass, c)
  end.

Definition Evaluate (oreg : option Registry) (ref : ArtifactRef) (c : osvClient)
    : Decision * osvClient :=
  match policyFor oreg, oreg with
  | Some p, Some reg => if negb (readActive p) then (allow, c) else evaluate reg p ref c
  | _, _ => (allow, c)
  end.

Definition Vulnerabilities (regType name version : string) (c : osvClient)
    : option (list Vuln) * osvClient :=
  let eco := Ecosystem regType in
  if String.eqb eco "" || String.eqb name "" || String.eqb version "" then (Some [], c)
  else query fetch order now ttl eco name version c.
End engine.

(** ** What a policy promises *)

Section admits.
Variables (fetch : string -> string -> string -> option (list Vuln))
          (order : osvClient -> list string) (now ttl : Z).

Definition known_meta (reg : Registry) (ref : ArtifactRef) (m : ArtifactMeta) : Prop :=
  exists info, ArtifactInfo reg = Some info /\ info ref = Ok m.

(** A version with a known publish time is served once its window is over. *)
Definition quarantine_over (reg : Registry) (p : RegistryPolicy) (ref : ArtifactRef) : Prop :=
  forall m, 0 < QuarantineDays p -> known_meta reg ref m -> PublishedAt m <> 0 ->
  quarantineUntil (PublishedAt m) (QuarantineDays p) <= now.

(** A license that reads as an expression is permitted; one that does not is
    refused only by [BlockUnknownLicense]. *)
Definition license_acceptable (p : RegistryPolicy) (license : string) : Prop :=
  (AllowedLicenses p = [] /\ DeniedLicenses p = [] /\ BlockUnknownLicense p = false) \/
  match ParseLicense license with
  | None => BlockUnknownLicense p = false
  | Some e => LicensePermitted e (AllowedLicenses p) (DeniedLicenses p) = true
  end.

Definition license_ok (reg : Registry) (p : RegistryPolicy) (ref : ArtifactRef) : Prop :=
  (exists m, known_meta reg ref m /\ license_acceptable p (License m)) \/
  ((forall m, ~ known_meta reg ref m) /\ license_acceptable p "").

(** No advisory the service reports reaches the floor: an unanswered query
    lets the version through. *)
Definition no_advisory (reg : Registry) (p : RegistryPolicy) (ref : ArtifactRef)
    (c : osvClient) : Prop :=
  BlockVulnerable p = true -> Ecosystem (rType reg) <> "" ->
  forall vs v y,
    fst (query fetch order now ttl (Ecosystem (rType reg)) (Name ref) (Version ref) c) = Some vs ->
    v ∈ vs -> ~ names (severityRank (MinSeverity p)) v y.

(** An image asked for by tag has a verified signature: an unanswered check
    refuses it. *)
Definition signature_ok (reg : Registry) (p : RegistryPolicy) (ref : ArtifactRef) : Prop :=
  RequireSignature p = true -> rType reg = "docker" ->
  HasPrefix (Version ref) "sha256:" = false ->
  exists check err, HasSignature reg = Some check /\
    check (Name ref) (Version ref) = (true, err) /\ (err = None \/ err = Some ErrPackageNotFound).

Definition admits (reg : Registry) (p : RegistryPolicy) (ref : ArtifactRef)
    (c : osvClient) : Prop :=
  NameAllowed (Include p) (Exclude p) (Name ref) = true /\
  (Version ref = "" \/
   (quarantine_over reg p ref /\ license_ok reg p ref /\ no_advisory reg p ref c /\
    signature_ok reg p ref)).
End admits.

(** ** Lemmas *)

Lemma nonempty_false {A} (l : list A) : nonempty l = false <-> l = [].
Proof. destruct l; unfold nonempty; simpl; split; done. Qed.

Lemma nonempty_true {A} (l : list A) : nonempty l = true <-> l <> [].
Proof. destruct l; unfold nonempty; simpl; split; done. Qed.

Lemma checkName_allowed p name :
  Allowed (checkName p name) = NameAllowed (Include p) (Exclude p) name.
Proof. unfold checkName. by destruct (NameAllowed _ _ _). Qed.

Lemma checkLicense_allowed p label license :
  Allowed (checkLicense p label license) = true <-> license_acceptable p license.
Proof.
  unfold checkLicense, license_acceptable.
  destruct (nonempty (AllowedLicenses p)) eqn:Ea; simpl;
    [|destruct (nonempty (DeniedLicenses p)) eqn:Ed; simpl;
      [|destruct (BlockUnknownLicense p) eqn:Eb; simpl]].
  4:{ apply nonempty_false in Ea, Ed. split; auto. }
  all: rewrite ?nonempty_true in *; rewrite ?nonempty_false in *;
    destruct (ParseLicense license) as [e|];
    [destruct (LicensePermitted e _ _)|try destruct (BlockUnknownLicense p)]; simpl;
    naive_solver.
Qed.

Lemma blocking_nil vs minSeverity : blocking vs minSeverity = [] <->
  forall v y, v ∈ vs -> ~ names (severityRank minSeverity) v y.
Proof.
  unfold blocking.
  destruct (blocking_fold (severityRank minSeverity) (∅, []) vs empty_wf) as [_ He]. simpl in He.
  split.
  - intros Hnil v y Hv Hn. assert (Hy : y ∈ @nil string); [|by apply elem_of_nil in Hy].
    rewrite <-Hnil. apply He. eauto.
  - intros Hno. destruct (snd (foldl _ _ _)) as [|y l] eqn:E; [done|].
    destruct (proj1 (He y)) as [Hy|(v & Hv & Hn)]; [set_solver|set_solver|].
    by destruct (Hno v y Hv).
Qed.

Section facts.
Context (fetch : string -> string -> string -> option (list Vuln))
        (order : osvClient -> list string) (now ttl : Z).

Lemma known_meta_unique reg ref m m' : known_meta reg ref m -> known_meta reg ref m' -> m = m'.
Proof. intros (i & ? & ?) (i' & ? & ?). simplify_eq. congruence. Qed.

Lemma license_ok_known reg p ref m : known_meta reg ref m ->
  license_ok reg p ref <-> license_acceptable p (License m).
Proof.
  intros Hm. split; [|unfold license_ok; eauto].
  intros [(m' & Hm' & ?)|[Hno _]]; [|by destruct (Hno m)].
  by rewrite (known_meta_unique _ _ _ _ Hm Hm').
Qed.

Lemma license_ok_unknown reg p ref : (forall m, ~ known_meta reg ref m) ->
  license_ok reg p ref <-> license_acceptable p "".
Proof.
  intros Hno. split; [|unfold license_ok; eauto].
  intros [(m' & Hm' & ?)|[_ ?]]; [by destruct (Hno m')|done].
Qed.

Lemma license_acceptable_off p license :
  AllowedLicenses p = [] -> DeniedLicenses p = [] -> BlockUnknownLicense p = false ->
  license_acceptable p license.
Proof. unfold license_acceptable; auto. Qed.

Lemma evaluateMeta_allowed reg p ref :
  Allowed (evaluateMeta now reg p ref) = true <->
  quarantine_over now reg p ref /\ license_ok reg p ref.
Proof.
  unfold evaluateMeta.
  destruct ((0 <? QuarantineDays p) || _ || _ || _) eqn:Eactive.
  2:{ bool_prop. rewrite nonempty_false in *. split; [|done]. intros _. split.
      - intros m Hq. lia.
      - destruct (ArtifactInfo reg) as [info|] eqn:Ei; [destruct (info ref) as [m|e] eqn:Em|].
        + apply (license_ok_known _ _ _ m); [by exists info|by apply license_acceptable_off].
        + apply license_ok_unknown; [|by apply license_acceptable_off].
          intros m (i & ? & ?). congruence.
        + apply license_ok_unknown; [|by apply license_acceptable_off].
          intros m (i & ? & ?). congruence. }
  assert (Hunknown : (forall m, ~ known_meta reg ref m) -> forall label,
    Allowed (checkLicense p label "") = true <->
    quarantine_over now reg p ref /\ license_ok reg p ref).
  { intros Hno label. rewrite checkLicense_allowed, license_ok_unknown by done.
    split; [|tauto]. intros ?. split; [|done]. intros m _ Hm. by destruct (Hno m). }
  destruct (ArtifactInfo reg) as [info|] eqn:Ei; [destruct (info ref) as [m|e] eqn:Em|].
  - assert (Hm : known_meta reg ref m) by by exists info.
    rewrite (license_ok_known _ _ _ m) by done. rewrite andb_true_r.
    destruct ((0 <? QuarantineDays p) && negb _ && _) eqn:Eq.
    + simpl. split; [done|]. bool_prop. intros [Hq _].
      specialize (Hq m ltac:(done) Hm ltac:(done)). lia.
    + rewrite checkLicense_allowed. split; [|tauto]. intros Hl. split; [|done].
      intros m' Hd Hm' Hp. rewrite <-(known_meta_unique _ _ _ _ Hm Hm') in *.
      apply Z.ltb_lt in Hd. apply Z.eqb_neq in Hp. rewrite Hd, Hp in Eq. simpl in Eq.
      by apply Z.ltb_ge in Eq.
  - rewrite andb_false_r. simpl. apply Hunknown. intros m (i & ? & ?). congruence.
  - rewrite andb_false_r. simpl. apply Hunknown. intros m (i & ? & ?). congruence.
Qed.

Lemma evaluateVulns_allowed reg p ref c :
  Allowed (fst (evaluateVulns fetch order now ttl reg p ref c)) = true <->
  no_advisory fetch order now ttl reg p ref c.
Proof.
  unfold evaluateVulns, no_advisory.
  destruct (BlockVulnerable p); simpl; [|by split].
  destruct (String.eqb_spec (Ecosystem (rType reg)) "") as [E|E]; simpl; [by split|].
  destruct (query _ _ _ _ _ _ _ _) as [[vs|] c']; simpl; [|naive_solver].
  destruct (nonempty (blocking vs (MinSeverity p))) eqn:Eb; simpl.
  - split; [done|]. intros H. apply nonempty_true in Eb. destruct Eb. apply blocking_nil.
    intros v y Hv. by apply (H eq_refl E vs).
  - split; [|done]. intros _ _ _ vs' v y [= <-]. apply nonempty_false in Eb.
    by apply blocking_nil.
Qed.

Lemma evaluateSignature_allowed reg p ref :
  Allowed (evaluateSignature reg p ref) = true <-> signature_ok reg p ref.
Proof.
  unfold evaluateSignature, signature_ok.
  destruct (RequireSignature p); cbn [andb]; [|by split].
  destruct (String.eqb_spec (rType reg) "docker") as [E|E]; cbn [andb]; [|by split].
  destruct (HasPrefix (Version ref) "sha256:"); cbn [negb]; [by split|].
  destruct (HasSignature reg) as [check|]; simpl;
    [|split; [done|]; intros H; by destruct (H eq_refl E eq_refl) as (? & ? & ? & _)].
  destruct (check (Name ref) (Version ref)) as [signed [[|m]|]] eqn:Ec; simpl;
    [destruct signed| |destruct signed]; simpl; split; intros H; try done.
  - intros _ _ _. exists check. eauto.
  - destruct (H eq_refl E eq_refl) as (? & ? & [= <-] & ? & ?). congruence.
  - destruct (H eq_refl E eq_refl) as (? & ? & [= <-] & ? & ?). rewrite Ec in *. naive_solver.
  - intros _ _ _. exists check. eauto.
  - destruct (H eq_refl E eq_refl) as (? & ? & [= <-] & ? & ?). congruence.
Qed.

Lemma evaluate_allowed reg p ref c :
  Allowed (fst (evaluate fetch order now ttl reg p ref c)) = true <->
  admits fetch order now ttl reg p ref c.
Proof.
  unfold evaluate, admits. rewrite checkName_allowed.
  destruct (NameAllowed _ _ _) eqn:En; simpl.
  2:{ rewrite checkName_allowed, En. split; [done|]. by intros [? _]. }
  destruct (String.eqb_spec (Version ref) "") as [E|E]; simpl; [tauto|].
  rewrite <-evaluateSignature_allowed, <-evaluateVulns_allowed.
  destruct (Allowed (evaluateMeta now reg p ref)) eqn:Em; simpl.
  - apply evaluateMeta_allowed in Em.
    destruct (evaluateVulns _ _ _ _ _ _ _ _) as [d c'] eqn:Ev; simpl.
    destruct (Allowed d) eqn:Ed; simpl; [tauto|]. rewrite Ed. naive_solver.
  - rewrite Em. split; [done|]. intros [_ [?|(? & ? & _)]]; [done|].
    assert (Allowed (evaluateMeta now reg p ref) = true); [|congruence].
    by apply evaluateMeta_allowed.
Qed.

(** Every decision is an allowance or a 403 with a reason. *)
Definition proper (d : Decision) : Prop :=
  d = allow \/ exists r, r <> NoReason /\ d = deny r.

Lemma deny_proper r : r <> NoReason -> proper (deny r).
Proof. unfold proper; eauto. Qed.

Lemma allow_proper : proper allow.
Proof. by left. Qed.

Lemma checkName_proper p name : proper (checkName p name).
Proof. unfold checkName. case_if; [by apply deny_proper|apply allow_proper]. Qed.

Lemma checkLicense_proper p label license : proper (checkLicense p label license).
Proof.
  unfold checkLicense. repeat (case_match; try apply allow_proper; try by apply deny_proper).
Qed.

Lemma evaluateMeta_proper reg p ref : proper (evaluateMeta now reg p ref).
Proof.
  unfold evaluateMeta. case_if; [|apply allow_proper].
  destruct (match ArtifactInfo reg with Some _ => _ | None => _ end) as [m k].
  case_if; [by apply deny_proper|apply checkLicense_proper].
Qed.

Lemma evaluateVulns_proper reg p ref c :
  proper (fst (evaluateVulns fetch order now ttl reg p ref c)).
Proof.
  unfold evaluateVulns. case_if; [|apply allow_proper].
  destruct (query _ _ _ _ _ _ _ _) as [[vs|] c']; [|apply allow_proper].
  case_if; [by apply deny_proper|apply allow_proper].
Qed.

Lemma evaluateSignature_proper reg p ref : proper (evaluateSignature reg p ref).
Proof.
  unfold evaluateSignature.
  repeat (case_match; try apply allow_proper; try by apply deny_proper).
Qed.

Lemma evaluate_proper reg p ref c :
  proper (fst (evaluate fetch order now ttl reg p ref c)).
Proof.
  unfold evaluate. case_if; [apply checkName_proper|]. case_if; [apply allow_proper|].
  case_if; [apply evaluateMeta_proper|].
  pose proof (evaluateVulns_proper reg p ref c).
  destruct (evaluateVulns _ _ _ _ _ _ _ _) as [d c']; simpl in *.
  case_if; [done|apply evaluateSignature_proper].
Qed.
End facts.

(** A policy with nothing to say about reads lets them through. *)
Lemma evaluate_inactive fetch order now ttl reg p ref c : readActive p = false ->
  Allowed (fst (evaluate fetch order now ttl reg p ref c)) = true.
Proof.
  intros Ha. unfold readActive in Ha. bool_prop. rewrite nonempty_false in *.
  apply evaluate_allowed. split.
  { by replace (Include p) with (@nil string); replace (Exclude p) with (@nil string). }
  assert (Hm : Allowed (evaluateMeta now reg p ref) = true).
  { unfold evaluateMeta. rewrite (proj2 (Z.ltb_ge _ _)) by done.
    rewrite (proj2 (nonempty_false (AllowedLicenses p))) by done.
    rewrite (proj2 (nonempty_false (DeniedLicenses p))) by done.
    by replace (BlockUnknownLicense p) with false by done. }
  apply (evaluateMeta_allowed fetch) in Hm as [Hq Hl].
  right. split_and!; [done|done|intros ?; congruence|intros ?; congruence].
Qed.

(** ** Properties *)

(** a version passes the read policy exactly when its name passes the
    filters and, unless no version is asked for, its quarantine is over, its
    license acceptable, no known advisory reaches the floor, and (for an image
    by tag) its signature verified.  An OSV failure lets it through, a
    signature failure does not. *)
Theorem evaluate_spec fetch order now ttl reg p ref c :
  Allowed (fst (evaluate fetch order now ttl reg p ref c)) = true <->
  admits fetch order now ttl reg p ref c.
Proof. apply evaluate_allowed. Qed.

(** the gate, on a request the registry classifies under a policy: a read
    passes when the policy admits the artifact, OPTIONS always, any other
    method when the name passes the filters; and every refusal is a 403 with a
    reason. *)
Theorem Gate_spec fetch order now ttl lookup reg p classify r ref c :
  policyFor lookup (Some reg) = Some p ->
  ClassifyRequest reg = Some classify -> classify r = Some ref ->
  let '(status, why, ok) := fst (Gate fetch order now ttl lookup (Some reg) r c) in
  (ok = true <->
     (if String.eqb (Method r) "GET" || String.eqb (Method r) "HEAD"
      then admits fetch order now ttl reg p ref c
      else Method r = "OPTIONS" \/ NameAllowed (Include p) (Exclude p) (Name ref) = true)) /\
  (ok = false -> status = 403 /\ why <> NoReason).
Proof.
  intros Hp Hcl Href. unfold Gate. rewrite Hp, Hcl, Href.
  destruct (String.eqb (Method r) "GET" || _) eqn:Eread; cbn [andb negb].
  - destruct (readActive p) eqn:Ea; simpl.
    + pose proof (evaluate_allowed fetch order now ttl reg p ref c) as He.
      pose proof (evaluate_proper fetch order now ttl reg p ref c) as Hd.
      destruct (evaluate _ _ _ _ _ _ _ _) as [d c']; simpl in *.
      destruct Hd as [->|(why & Hwhy & ->)]; simpl; split; naive_solver.
    + split; [|done]. split; [|done]. intros _. rewrite <-evaluate_allowed.
      by rewrite evaluate_inactive.
  - destruct (String.eqb_spec (Method r) "OPTIONS") as [Eo|Eo]; cbn [orb]; [simpl; naive_solver|].
    destruct (negb (nonempty (Include p)) && negb (nonempty (Exclude p))) eqn:Ei; cbn [fst].
    + bool_prop. rewrite nonempty_false in *. split; [|done]. split; [|done]. intros _. right.
      by replace (Include p) with (@nil string); replace (Exclude p) with (@nil string).
    + pose proof (checkName_allowed p (Name ref)) as Hn.
      destruct (checkName_proper p (Name ref)) as [Hd|(why & Hwhy & Hd)];
        rewrite Hd in Hn |- *; cbn; cbn in Hn; rewrite <-Hn; naive_solver.
Qed.

(** A registry of the given type that classifies by path and knows when its
    artifacts were published. *)
Definition sample_registry (typ : string) (published : Z) : Registry := {|
  rNamespace := "ns"; rName := "r"; rType := typ;
  ClassifyRequest := Some (fun r => Some {| Name := URLPath r; Version := "1.0" |});
  ArtifactInfo := Some (fun _ => Ok {| License := "MIT"; PublishedAt := published |});
  HasSignature := None;
|}.

Definition sample_policy (days : Z) (allowed : list string) : RegistryPolicy := {|
  ImmutableTags := []; Retention := None; Include := ["@acme/**"]; Exclude := [];
  ImmutableVersions := false; QuotaBytes := 0; QuarantineDays := days;
  BlockVulnerable := false; MinSeverity := ""; AllowedLicenses := allowed;
  DeniedLicenses := []; BlockUnknownLicense := false; RequireSignature := false;
|}.

Lemma Gate_spec_witness :
  let lookup := Some (fun _ _ => Some (Some (sample_policy 1 ["mit"]))) in
  let reg := sample_registry "npm" 1 in
  let r := {| Method := "GET"; URLPath := "@acme/ui" |} in
  let c := {| cache := ∅; warned := ∅ |} in
  let fetch := fun _ _ _ => None in
  fst (Gate fetch (fun _ => []) (24 * hour) 0 lookup (Some reg) r c)
    = (403, Quarantined "@acme/ui@1.0" (1 + 24 * hour), false) /\
  let '(status, why, ok) :=
    fst (Gate fetch (fun _ => []) (24 * hour) 0 lookup (Some reg) r c) in
  (ok = true <->
     (if String.eqb (Method r) "GET" || String.eqb (Method r) "HEAD"
      then admits fetch (fun _ => []) (24 * hour) 0 reg (sample_policy 1 ["mit"])
             {| Name := "@acme/ui"; Version := "1.0" |} c
      else Method r = "OPTIONS" \/ NameAllowed ["@acme/**"] [] "@acme/ui" = true)) /\
  (ok = false -> status = 403 /\ why <> NoReason).
Proof.
  intros lookup reg r c fetch. split; [by vm_compute|].
  exact (Gate_spec fetch (fun _ => []) (24 * hour) 0 lookup reg (sample_policy 1 ["mit"])
    (fun r => Some {| Name := URLPath r; Version := "1.0" |}) r
    {| Name := "@acme/ui"; Version := "1.0" |} c eq_refl eq_refl eq_refl).
Defined.

(** a quarantine of up to 106751 days ends that many days after the
    publish time; one day more overflows the 64-bit duration and ends in the
    past, so it blocks nothing. *)
Theorem quarantineUntil_bounds published days :
  (0 <= days <= 106751 ->
     quarantineUntil published days = published + days * (24 * hour)) /\
  quarantineUntil published 106752 < published.
Proof.
  split.
  - intros Hd. unfold quarantineUntil, hour.
    rewrite (wrap64_id (days * 24)), wrap64_id; [lia| |];
      unfold in64, int64_min, int64_max; lia.
  - unfold quarantineUntil.
    replace (wrap64 (wrap64 (106752 * 24) * hour)) with (-9223371273709551616) by by vm_compute.
    lia.
Qed.
