(* ===== verification/Capabilities.v ===== *)
(** * internal/service: capabilities.go, permission.go and the permission tables

    A permission is a named bundle of capability keys, each optionally
    narrowed to path globs.  The file models the check of a key on a path
    ([Allows], [AllowsAncestor]), the union of bundles
    ([CapabilitiesFromBundles], [ResolveUserCapabilityPatterns]), the cleaning
    of patterns, the service operations on permissions and the tables of
    internal/storage/auth_store.go they run on: a table is a finite map by id,
    an operation of the store its SQL statement with the constraints of the
    schema (unique keys, foreign keys with cascade).  Failures of the database
    itself are not modelled.  [Match] is doublestar.Match; [None] is
    ErrBadPattern.  A nil map of patterns is the empty map. *)

From Stdlib Require Import ZArith Lia Ascii.
From stdpp Require Import base list strings gmap.
From S2P Require Import Prelude GoStrings.

Local Open Scope Z_scope.

(** ** Errors of the service *)

Inductive ServiceError :=
| ErrBadRequest | ErrNotFound | ErrConflict | ErrForbidden | ErrUnauthorized.

(** ** The capability vocabulary *)

Record Capability := { capKey : string; capName : string; capDescription : string }.

Definition CapRawRead := "raw.read".
Definition CapRawWrite := "raw.write".
Definition CapRegistryRead := "registry.read".
Definition CapRegistryWrite := "registry.write".
Definition CapRegistryDelete := "registry.delete".
Definition CapRegistryAdmin := "registry.admin".
Definition CapSettingsManage := "settings.manage".
Definition CapTokensManage := "tokens.manage".
Definition CapUsersManage := "users.manage".
Definition CapPermissionsManage := "permissions.manage".

Definition KnownCapabilities : list Capability := [
  Build_Capability CapRawRead "Raw Files Read"
    "Browse and download files from raw mounts";
  Build_Capability CapRawWrite "Raw Files Write"
    "Upload, delete, rename, copy and move files on raw mounts";
  Build_Capability CapRegistryRead "Registry Read"
    "Browse repositories and pull artifacts";
  Build_Capability CapRegistryWrite "Registry Write"
    "Publish and push artifacts to local registries";
  Build_Capability CapRegistryDelete "Registry Delete"
    "Remove tags, versions and manifests; purge caches";
  Build_Capability CapRegistryAdmin "Registry Admin"
    "Manage namespaces, repositories and listeners; run garbage collection";
  Build_Capability CapSettingsManage "Settings Management"
    "Raw mounts, file serving, encryption key and authentication settings";
  Build_Capability CapTokensManage "Token Management"
    "Create, edit and revoke API access tokens";
  Build_Capability CapUsersManage "User Management"
    "Create, edit, delete and kick users";
  Build_Capability CapPermissionsManage "Permission Management"
    "Create, edit, delete permissions and assign them to users"
].

Definition KnownCapabilityKeys : list string := capKey <$> KnownCapabilities.

Definition Has (c : list string) (key : string) : bool :=
  existsb (fun k => String.eqb k key) c.

(** ** Path patterns *)

Notation CapabilityPatterns := (gmap string (list string)).

(** [m[k]] of a Go map of slices: nil when absent. *)
Definition get_slice (m : gmap string (list string)) (k : string) : list string :=
  default [] (m !! k).

Definition isNil {A} (l : list A) : bool := match l with [] => true | _ => false end.

Section match_glob.
(** doublestar.Match *)
Variable Match : string -> string -> option bool.

Definition matchesGlob (pat path : string) : bool :=
  match Match pat path with Some b => b | None => false end.

Definition Allows (cp : CapabilityPatterns) (key path : string) : bool :=
  match cp !! key with
  | None => true
  | Some pats =>
      if isNil pats then true
      else if String.eqb path "" then true
      else existsb (fun pat => matchesGlob pat (TrimLeft path "/")) pats
  end.

Definition splitSegments (p : string) : list string :=
  if String.eqb p "" then [] else Split p "/".

Fixpoint isAncestorOfPattern_loop (pathSegs patSegs : list string) : bool :=
  match pathSegs, patSegs with
  | [], [] => false
  | [], _ :: _ => true
  | _ :: _, [] => false
  | seg :: pathSegs, ps :: patSegs =>
      if String.eqb ps "**" then true
      else if negb (matchesGlob ps seg) then false
      else isAncestorOfPattern_loop pathSegs patSegs
  end.

Definition isAncestorOfPattern (pathSegs : list string) (pattern : string) : bool :=
  isAncestorOfPattern_loop pathSegs (Split pattern "/").

Definition AllowsAncestor (cp : CapabilityPatterns) (key path : string) : bool :=
  if Allows cp key path then true
  else if isNil (get_slice cp key) then true
  else existsb (isAncestorOfPattern
                  (splitSegments (Trim path "/")))
               (get_slice cp key).
End match_glob.

(** ** Permissions *)

Record Permission := {
  pID : string;
  pKey : string;
  pName : string;
  pDescription : string;
  pKeys : list string;
  pKeyPatterns : gmap string (list string);
  pCreatedAt : Z;
}.

Definition hasTraversalSegment (p : string) : bool :=
  existsb (fun seg => String.eqb seg "..") (Split p "/").

(** The patterns of one key, cleaned. *)
Definition cleanPatterns (ps : list string) : list string :=
  snd (foldl (fun acc p =>
    let p := TrimSpace p in
    if String.eqb p "" then acc
    else if hasTraversalSegment p then acc
    else push_new acc p) ((∅ : gset string), []) ps).

Definition sanitizeKeyPatterns (m : gmap string (list string)) : gmap string (list string) :=
  omap (fun ps => let clean := cleanPatterns ps in
                  if isNil clean then None else Some clean) m.

(** ** The union of bundles *)

(** Pass 1: the keys some granting bundle carries no patterns for. *)
Definition unrestrictedKeys (perms : list Permission) : gset string :=
  list_to_set (perms ≫= fun p =>
    filter (fun k => get_slice (pKeyPatterns p) k = []) (pKeys p)).

(** One step of pass 2: append the new patterns of a key. *)
Definition addPatterns (out : gmap string (list string)) (k : string) (pats : list string)
    : gmap string (list string) :=
  let existing := get_slice out k in
  <[k := snd (push_all (list_to_set existing, existing) pats)]> out.

(** Pass 2 over one bundle; Go visits its map in some order. *)
Definition unionPatterns (skip : string -> bool) (out : gmap string (list string))
    (entries : list (string * list string)) : gmap string (list string) :=
  foldl (fun out '(k, pats) =>
    if skip k || isNil pats then out else addPatterns out k pats) out entries.

Definition unionBundles (skip : string -> bool) (perms : list Permission)
    : gmap string (list string) :=
  foldl (fun out p => unionPatterns skip out (map_to_list (pKeyPatterns p))) ∅ perms.

Definition bundleKeys (perms : list Permission) : list string :=
  dedup (perms ≫= pKeys).

Definition CapabilitiesFromBundles (perms : list Permission)
    : list string * gmap string (list string) :=
  let keys := bundleKeys perms in
  (keys,
   unionBundles (fun k => negb (bool_decide (k ∈ keys)) ||
                          bool_decide (k ∈ unrestrictedKeys perms)) perms).

(** ** The tables (internal/storage/auth_store.go) *)

Record User := {
  uID : string;
  uUsername : string;
  uDisabled : bool;
  uIsSuperadmin : bool;
  uDenied : list string;
}.

Record Tables := {
  users : gmap string User;
  permissions : gmap string Permission;
  userPermissions : gset (string * string);
}.

Definition set_permissions (m : gmap string Permission) (t : Tables) : Tables :=
  {| users := users t; permissions := m; userPermissions := userPermissions t |}.

Definition set_userPermissions (s : gset (string * string)) (t : Tables) : Tables :=
  {| users := users t; permissions := permissions t; userPermissions := s |}.

Definition findUser (t : Tables) (test : User -> bool) : option User :=
  snd <$> list_find (fun u => test u = true) (snd <$> map_to_list (users t)).

Module UserStore.
Definition Get (id : string) (t : Tables) : result ServiceError User :=
  if String.eqb id "" then Err ErrNotFound
  else match users t !! id with Some u => Ok u | None => Err ErrNotFound end.

Definition GetByUsername (username : string) (t : Tables) : result ServiceError User :=
  if String.eqb username "" then Err ErrNotFound
  else match findUser t (fun u => String.eqb (uUsername u) username) with
       | Some u => Ok u
       | None => Err ErrNotFound
       end.
End UserStore.

Module PermissionStore.
(** The unique index on [key]: some other row carries it. *)
Definition keyTaken (id key : string) (t : Tables) : bool :=
  existsb (fun '(i, p) => negb (String.eqb i id) && String.eqb (pKey p) key)
          (map_to_list (permissions t)).

Definition Create (p : Permission) (t : Tables) : result ServiceError Tables :=
  if bool_decide (is_Some (permissions t !! pID p)) || keyTaken (pID p) (pKey p) t
  then Err ErrConflict
  else Ok (set_permissions (<[pID p := p]> (permissions t)) t).

Definition Get (id : string) (t : Tables) : result ServiceError Permission :=
  match permissions t !! id with Some p => Ok p | None => Err ErrNotFound end.

(** [ORDER BY p.name] *)
Definition by_name (ps : list Permission) : list Permission :=
  SliceStable (fun a b => str_ltb (pName a) (pName b)) ps.

Definition List (t : Tables) : list Permission :=
  by_name (snd <$> map_to_list (permissions t)).

(** The row keeps its [id] and [created_at]. *)
Definition Update (p : Permission) (t : Tables) : result ServiceError Tables :=
  match permissions t !! pID p with
  | None => Err ErrNotFound
  | Some old =>
      if keyTaken (pID p) (pKey p) t then Err ErrConflict
      else Ok (set_permissions
        (<[pID p := {| pID := pID p; pKey := pKey p; pName := pName p;
                       pDescription := pDescription p; pKeys := pKeys p;
                       pKeyPatterns := pKeyPatterns p; pCreatedAt := pCreatedAt old |}]>
           (permissions t)) t)
  end.

(** Grants go with the permission: [ON DELETE CASCADE]. *)
Definition Delete (id : string) (t : Tables) : result ServiceError Tables :=
  match permissions t !! id with
  | None => Err ErrNotFound
  | Some _ => Ok {| users := users t; permissions := delete id (permissions t);
                    userPermissions := filter (fun up => up.2 <> id) (userPermissions t) |}
  end.

(** The inserts of the transaction; a missing permission or user violates
    a foreign key and rolls everything back. *)
Fixpoint insertGrants (userID : string) (ids : list string) (t : Tables)
    : result ServiceError Tables :=
  match ids with
  | [] => Ok t
  | pid :: ids =>
      if String.eqb pid "" then insertGrants userID ids t
      else if bool_decide (is_Some (permissions t !! pid)) &&
              bool_decide (is_Some (users t !! userID))
      then insertGrants userID ids
             (set_userPermissions ({[ (userID, pid) ]} ∪ userPermissions t) t)
      else Err ErrNotFound
  end.

Definition SetUserPermissions (userID : string) (ids : list string) (t : Tables)
    : result ServiceError Tables :=
  insertGrants userID ids
    (set_userPermissions (filter (fun up => up.1 <> userID) (userPermissions t)) t).

Definition GetUserPermissions (userID : string) (t : Tables) : list Permission :=
  by_name (snd <$> filter (fun '(id, _) => (userID, id) ∈ userPermissions t)
                          (map_to_list (permissions t))).

Definition ListUserIDsByPermission (permissionID : string) (t : Tables) : list string :=
  fst <$> filter (fun up => up.2 = permissionID) (elements (userPermissions t)).

Definition GetUserCapabilityKeys (userID : string) (t : Tables) : list string :=
  fst (CapabilitiesFromBundles (GetUserPermissions userID t)).

(** [keys ? $1] *)
Definition HasCapabilityKey (key : string) (t : Tables) : bool :=
  existsb (fun '(_, p) => Has (pKeys p) key) (map_to_list (permissions t)).
End PermissionStore.

(** ** The service *)

Record CreatePermissionRequest := {
  cpKey : string; cpName : string; cpDescription : string;
  cpKeys : list string; cpKeyPatterns : gmap string (list string);
}.

Record UpdatePermissionRequest := {
  upKey : option string; upName : option string; upDescription : option string;
  upKeys : option (list string); upKeyPatterns : option (gmap string (list string));
}.

(** [id] is the random identifier, [now] the clock. *)
Definition CreatePermission (id : string) (now : Z) (req : CreatePermissionRequest) (t : Tables)
    : result ServiceError (Permission * Tables) :=
  if String.eqb (cpKey req) "" then Err ErrBadRequest
  else if String.eqb (cpName req) "" then Err ErrBadRequest
  else
    let perm := {| pID := id; pKey := cpKey req; pName := cpName req;
                   pDescription := cpDescription req; pKeys := cpKeys req;
                   pKeyPatterns := sanitizeKeyPatterns (cpKeyPatterns req);
                   pCreatedAt := now |} in
    match PermissionStore.Create perm t with
    | Ok t => Ok (perm, t)
    | Err e => Err e
    end.

Definition ListPermissions (t : Tables) : list Permission := PermissionStore.List t.

Definition PermissionsByKeys (keys : list string) (t : Tables) : list Permission :=
  let want : gset string := list_to_set (filter (fun k => k <> "") keys) in
  if bool_decide (want = ∅) then []
  else filter (fun p => pKey p ∈ want) (PermissionStore.List t).

Definition UpdatePermission (id : string) (req : UpdatePermissionRequest) (t : Tables)
    : result ServiceError Tables :=
  match PermissionStore.Get id t with
  | Err e => Err e
  | Ok perm =>
      PermissionStore.Update
        {| pID := pID perm;
           pKey := default (pKey perm) (upKey req);
           pName := default (pName perm) (upName req);
           pDescription := default (pDescription perm) (upDescription req);
           pKeys := default (pKeys perm) (upKeys req);
           pKeyPatterns := match upKeyPatterns req with
                           | Some m => sanitizeKeyPatterns m
                           | None => pKeyPatterns perm
                           end;
           pCreatedAt := pCreatedAt perm |} t
  end.

Definition DeletePermission (id : string) (t : Tables) : result ServiceError Tables :=
  PermissionStore.Delete id t.

Definition SetUserPermissions (userID : string) (ids : list string) (t : Tables)
    : result ServiceError Tables :=
  match UserStore.Get userID t with
  | Err e => Err e
  | Ok _ => PermissionStore.SetUserPermissions userID ids t
  end.

Inductive PermissionSource := PermissionSourceNone | PermissionSourceBuiltin.

Definition resolveCapabilityKeysForUser (user : User) (t : Tables)
    : list string * bool * PermissionSource :=
  if uIsSuperadmin user then (KnownCapabilityKeys, true, PermissionSourceBuiltin)
  else (PermissionStore.GetUserCapabilityKeys (uID user) t, false, PermissionSourceBuiltin).

Definition ResolveLocalCapabilityKeys (username : string) (t : Tables)
    : list string * bool * PermissionSource :=
  if String.eqb username "" then ([], false, PermissionSourceNone)
  else match UserStore.GetByUsername username t with
       | Ok user => resolveCapabilityKeysForUser user t
       | Err _ => ([], false, PermissionSourceNone)
       end.

Definition ResolveUserCapabilityKeysByID (userID : string) (t : Tables)
    : list string * bool * PermissionSource :=
  if String.eqb userID "" then ([], false, PermissionSourceNone)
  else match UserStore.Get userID t with
       | Ok user => resolveCapabilityKeysForUser user t
       | Err _ => ([], false, PermissionSourceNone)
       end.

Definition ResolveUserCapabilityPatterns (userID : string) (t : Tables)
    : gmap string (list string) :=
  if String.eqb userID "" then ∅
  else
    let perms := PermissionStore.GetUserPermissions userID t in
    unionBundles (fun k => bool_decide (k ∈ unrestrictedKeys perms)) perms.

(** [None] is success. *)
Definition CheckPermission (username permKey : string) (t : Tables) : option ServiceError :=
  match ResolveLocalCapabilityKeys username t with
  | (_, true, _) => None
  | (_, false, PermissionSourceNone) => None
  | (keys, false, PermissionSourceBuiltin) =>
      if negb (PermissionStore.HasCapabilityKey permKey t) then None
      else if Has keys permKey then None
      else Some ErrForbidden
  end.

(** ** Lemmas: the union of bundles *)

Lemma Has_elem c key : Has c key = true <-> key ∈ c.
Proof.
  unfold Has. rewrite existsb_exists. split.
  - intros (k & Hk & ->%String.eqb_eq). by apply list_elem_of_In.
  - intros Hk. exists key. split; [by apply list_elem_of_In|apply String.eqb_refl].
Qed.

Lemma bundleKeys_elem perms k : k ∈ bundleKeys perms <-> exists p, p ∈ perms /\ k ∈ pKeys p.
Proof. unfold bundleKeys. rewrite dedup_elem, list_elem_of_bind. naive_solver. Qed.

Lemma unrestrictedKeys_elem perms k : k ∈ unrestrictedKeys perms <->
  exists p, p ∈ perms /\ k ∈ pKeys p /\ get_slice (pKeyPatterns p) k = [].
Proof.
  unfold unrestrictedKeys. rewrite elem_of_list_to_set, list_elem_of_bind.
  setoid_rewrite list_elem_of_filter. naive_solver.
Qed.

Definition nodup_slices (out : gmap string (list string)) : Prop :=
  forall k, NoDup (get_slice out k).

Lemma slice_wf out k : nodup_slices out ->
  seen_wf (list_to_set (get_slice out k) : gset string, get_slice out k).
Proof. intros H. split; [apply H|done]. Qed.

Lemma addPatterns_nodup out k pats : nodup_slices out -> nodup_slices (addPatterns out k pats).
Proof.
  intros H k'. unfold addPatterns, get_slice at 1.
  destruct (decide (k = k')) as [->|Hne].
  - rewrite lookup_insert_eq. simpl. by apply push_all_wf, slice_wf.
  - rewrite lookup_insert_ne by done. apply H.
Qed.

Lemma addPatterns_elem out k pats k' y : nodup_slices out ->
  y ∈ get_slice (addPatterns out k pats) k' <->
  y ∈ get_slice out k' \/ (k = k' /\ y ∈ pats).
Proof.
  intros H. unfold addPatterns, get_slice at 1.
  destruct (decide (k = k')) as [->|Hne].
  - rewrite lookup_insert_eq. simpl. rewrite push_all_elem by by apply slice_wf. naive_solver.
  - rewrite lookup_insert_ne by done. unfold get_slice. naive_solver.
Qed.

Lemma unionPatterns_spec skip entries out : nodup_slices out ->
  nodup_slices (unionPatterns skip out entries) /\
  forall k y, y ∈ get_slice (unionPatterns skip out entries) k <->
    y ∈ get_slice out k \/ (skip k = false /\ exists pats, (k, pats) ∈ entries /\ y ∈ pats).
Proof.
  unfold unionPatterns.
  revert out. induction entries as [|[k0 pats0] entries IH]; intros out Hout; cbn [foldl].
  { split; [done|]. intros k y. setoid_rewrite elem_of_nil. naive_solver. }
  assert (Hstep : nodup_slices (if skip k0 || isNil pats0 then out else addPatterns out k0 pats0) /\
    forall k y, y ∈ get_slice (if skip k0 || isNil pats0 then out else addPatterns out k0 pats0) k
      <-> y ∈ get_slice out k \/ (skip k = false /\ k0 = k /\ y ∈ pats0)).
  { destruct (skip k0) eqn:Es; [|destruct pats0]; simpl.
    - split; [done|]. intros k y. split; [by left|]. intros [?|(? & <- & _)]; congruence.
    - split; [done|]. intros k y. rewrite elem_of_nil. naive_solver.
    - split; [by apply addPatterns_nodup|]. intros k y. rewrite addPatterns_elem by done.
      naive_solver. }
  destruct Hstep as [Hn He]. destruct (IH _ Hn) as [Hn' He']. split; [done|].
  intros k y. rewrite He', He. setoid_rewrite elem_of_cons. naive_solver.
Qed.

Lemma get_slice_elem m k y : y ∈ get_slice m k <-> exists pats, m !! k = Some pats /\ y ∈ pats.
Proof.
  unfold get_slice. destruct (m !! k) as [pats|]; simpl; [naive_solver|].
  rewrite elem_of_nil. split; [done|]. by intros (? & ? & _).
Qed.

Lemma unionBundles_gen skip perms out : nodup_slices out ->
  nodup_slices (foldl (fun out p => unionPatterns skip out (map_to_list (pKeyPatterns p))) out perms)
  /\ forall k y,
    y ∈ get_slice (foldl (fun out p => unionPatterns skip out (map_to_list (pKeyPatterns p)))
          out perms) k <->
    y ∈ get_slice out k \/
    (skip k = false /\ exists p, p ∈ perms /\ y ∈ get_slice (pKeyPatterns p) k).
Proof.
  revert out. induction perms as [|p perms IH]; intros out Hout; cbn [foldl].
  { split; [done|]. intros k y. setoid_rewrite elem_of_nil. naive_solver. }
  destruct (unionPatterns_spec skip (map_to_list (pKeyPatterns p)) out Hout) as [Hn He].
  destruct (IH _ Hn) as [Hn' He']. split; [done|].
  intros k y. rewrite He', He. setoid_rewrite elem_of_map_to_list.
  setoid_rewrite elem_of_cons. setoid_rewrite get_slice_elem. naive_solver.
Qed.

Lemma unionBundles_nodup skip perms : nodup_slices (unionBundles skip perms).
Proof. apply unionBundles_gen. intros k. unfold get_slice. rewrite lookup_empty. constructor. Qed.

Lemma unionBundles_elem skip perms k y :
  y ∈ get_slice (unionBundles skip perms) k <->
  skip k = false /\ exists p, p ∈ perms /\ y ∈ get_slice (pKeyPatterns p) k.
Proof.
  unfold unionBundles.
  destruct (unionBundles_gen skip perms ∅) as [_ He].
  { intros k'. unfold get_slice. rewrite lookup_empty. constructor. }
  rewrite He. unfold get_slice at 1. rewrite lookup_empty. simpl. rewrite elem_of_nil. naive_solver.
Qed.

Lemma addPatterns_eq out k pats : get_slice (addPatterns out k pats) k =
  snd (push_all (list_to_set (get_slice out k), get_slice out k) pats).
Proof. unfold addPatterns, get_slice at 1. by rewrite lookup_insert_eq. Qed.

Lemma addPatterns_ne out k0 k pats : k0 <> k ->
  get_slice (addPatterns out k0 pats) k = get_slice out k.
Proof. intros Hne. unfold addPatterns, get_slice at 1. by rewrite lookup_insert_ne. Qed.

(** A slot of the union depends on [skip] only at its key. *)
Lemma unionPatterns_local skip skip' k entries out out' : skip k = skip' k ->
  get_slice out k = get_slice out' k ->
  get_slice (unionPatterns skip out entries) k = get_slice (unionPatterns skip' out' entries) k.
Proof.
  intros Hs. unfold unionPatterns. revert out out'.
  induction entries as [|[k0 pats] entries IH]; intros out out' Hout; [done|]. cbn [foldl].
  apply IH. destruct (decide (k0 = k)) as [->|Hne].
  - rewrite Hs. case_if; [done|]. by rewrite !addPatterns_eq, Hout.
  - repeat case_if; by rewrite ?addPatterns_ne.
Qed.

Lemma unionBundles_local skip skip' k perms : skip k = skip' k ->
  get_slice (unionBundles skip perms) k = get_slice (unionBundles skip' perms) k.
Proof.
  intros Hs. unfold unionBundles.
  cut (forall out out', get_slice out k = get_slice out' k ->
    get_slice (foldl (fun out p => unionPatterns skip out (map_to_list (pKeyPatterns p)))
                 out perms) k =
    get_slice (foldl (fun out p => unionPatterns skip' out (map_to_list (pKeyPatterns p)))
                 out' perms) k); [by intros H; apply H|].
  induction perms as [|p perms IH]; intros out out' Hout; [done|]. cbn [foldl].
  by apply IH, unionPatterns_local.
Qed.

Lemma Allows_slice Match cp key path : Allows Match cp key path =
  (isNil (get_slice cp key) || String.eqb path "" ||
   existsb (fun pat => matchesGlob Match pat (TrimLeft path "/")) (get_slice cp key)).
Proof.
  unfold Allows, get_slice. destruct (cp !! key) as [pats|]; simpl; [|done].
  destruct (isNil pats), (String.eqb path ""); done.
Qed.

Lemma isNil_nil {A} (l : list A) : isNil l = true <-> l = [].
Proof. by destruct l. Qed.

Lemma slice_nil (l : list string) : (forall y, ~ y ∈ l) -> l = [].
Proof. destruct l as [|y l]; [done|]. intros H. destruct (H y). set_solver. Qed.

Lemma bundles_slice perms k y : k ∈ bundleKeys perms ->
  y ∈ get_slice (snd (CapabilitiesFromBundles perms)) k <->
  k ∉ unrestrictedKeys perms /\ exists p, p ∈ perms /\ y ∈ get_slice (pKeyPatterns p) k.
Proof.
  intros Hk. cbn [CapabilitiesFromBundles snd]. rewrite unionBundles_elem.
  rewrite orb_false_iff, negb_false_iff, bool_decide_eq_true, bool_decide_eq_false. tauto.
Qed.

Lemma bundles_slice_nil perms k : k ∈ bundleKeys perms ->
  get_slice (snd (CapabilitiesFromBundles perms)) k = [] <-> k ∈ unrestrictedKeys perms.
Proof.
  intros Hk. split.
  - intros Hnil. destruct (decide (k ∈ unrestrictedKeys perms)) as [|Hno]; [done|].
    apply bundleKeys_elem in Hk as Hk'. destruct Hk' as (p & Hp & Hkp).
    destruct (get_slice (pKeyPatterns p) k) as [|y l] eqn:E.
    { destruct Hno. apply unrestrictedKeys_elem. eauto. }
    assert (Hy : y ∈ get_slice (snd (CapabilitiesFromBundles perms)) k).
    { apply bundles_slice; [done|]. split; [done|]. exists p. rewrite E. set_solver. }
    rewrite Hnil in Hy. by apply elem_of_nil in Hy.
  - intros Hu. apply slice_nil. intros y. rewrite bundles_slice by done. tauto.
Qed.

Lemma cleanPatterns_spec ps : NoDup (cleanPatterns ps) /\
  forall y, y ∈ cleanPatterns ps <->
    exists p, p ∈ ps /\ y = TrimSpace p /\ y <> "" /\ hasTraversalSegment y = false.
Proof.
  unfold cleanPatterns.
  set (step := fun acc p => _).
  assert (Hgen : forall acc, seen_wf acc -> seen_wf (foldl step acc ps) /\
    forall y, y ∈ (foldl step acc ps).2 <-> y ∈ acc.2 \/
      exists p, p ∈ ps /\ y = TrimSpace p /\ y <> "" /\ hasTraversalSegment y = false).
  { induction ps as [|p ps IH]; intros acc Hwf; cbn [foldl].
    { split; [done|]. intros y. setoid_rewrite elem_of_nil. naive_solver. }
    assert (Hstep : seen_wf (step acc p) /\ forall y, y ∈ (step acc p).2 <-> y ∈ acc.2 \/
      (y = TrimSpace p /\ y <> "" /\ hasTraversalSegment y = false)).
    { unfold step. case_if as E1; [split; [done|]; naive_solver|].
      case_if as E2; [split; [done|]; intros y; split; [auto|]; intros [?|(-> & _ & ?)]; congruence|].
      split; [by apply push_new_wf|]. intros y. rewrite push_new_elem by done. naive_solver. }
    destruct Hstep as [Hw He]. destruct (IH _ Hw) as [Hw' He']. split; [done|].
    intros y. rewrite He', He. setoid_rewrite elem_of_cons. naive_solver. }
  destruct (Hgen (∅, []) empty_wf) as [[Hnd _] He]. split; [done|].
  intros y. rewrite He. simpl. rewrite elem_of_nil. naive_solver.
Qed.

Lemma sanitize_slice m k : get_slice (sanitizeKeyPatterns m) k = cleanPatterns (get_slice m k).
Proof.
  unfold get_slice, sanitizeKeyPatterns. rewrite lookup_omap.
  destruct (m !! k) as [ps|]; simpl; [|done].
  by destruct (cleanPatterns ps).
Qed.

(** ** Lemmas: the tables *)

Lemma insertGrants_spec userID ids t t' :
  PermissionStore.insertGrants userID ids t = Ok t' ->
  permissions t' = permissions t /\ users t' = users t /\
  (forall pid, pid ∈ ids -> pid <> "" -> is_Some (permissions t !! pid) /\ is_Some (users t !! userID)) /\
  forall u pid, (u, pid) ∈ userPermissions t' <->
    (u, pid) ∈ userPermissions t \/ (u = userID /\ pid ∈ ids /\ pid <> "").
Proof.
  revert t. induction ids as [|p ids IH]; intros t; cbn [PermissionStore.insertGrants].
  { intros [= <-]. split_and!; try done; set_solver. }
  destruct (String.eqb_spec p "") as [->|Hp].
  { intros (-> & -> & Hex & He)%IH. split_and!; [done|done| |].
    - intros pid [->|?]%elem_of_cons; [done|auto].
    - intros u pid. rewrite He, elem_of_cons. naive_solver. }
  case_if as E; [|done]. bool_prop.
  intros (Hperm & Hus & Hex & He)%IH. simpl in *. split_and!; [done|done| |].
  - intros pid [->|?]%elem_of_cons; auto.
  - intros u pid. rewrite He. simpl. rewrite elem_of_union, elem_of_singleton, elem_of_cons.
    naive_solver.
Qed.

Lemma insertGrants_ok userID ids t : is_Some (users t !! userID) ->
  (forall pid, pid ∈ ids -> pid <> "" -> is_Some (permissions t !! pid)) ->
  exists t', PermissionStore.insertGrants userID ids t = Ok t'.
Proof.
  revert t. induction ids as [|p ids IH]; intros t Hu Hex; cbn [PermissionStore.insertGrants]; [eauto|].
  destruct (String.eqb_spec p "") as [->|Hp].
  { apply IH; [done|]. intros pid Hpid. apply Hex. set_solver. }
  rewrite !bool_decide_eq_true_2; [|done|apply Hex; [set_solver|done]].
  apply IH; [done|]. simpl. intros pid Hpid. apply Hex. set_solver.
Qed.

(** Each directory on the way to an ancestor of a pattern is one too. *)
Lemma isAncestor_prefix Match segs more pats :
  isAncestorOfPattern_loop Match (segs ++ more) pats = true ->
  isAncestorOfPattern_loop Match segs pats = true.
Proof.
  revert pats. induction segs as [|seg segs IH]; intros pats; cbn [app isAncestorOfPattern_loop].
  - destruct more, pats; done.
  - destruct pats as [|ps pats]; [done|]. case_if; [done|]. case_if; [done|]. apply IH.
Qed.

Lemma findUser_Some t test u : findUser t test = Some u ->
  exists id, users t !! id = Some u /\ test u = true.
Proof.
  unfold findUser. rewrite fmap_Some. intros ([i u'] & Hf & ->).
  apply list_find_Some in Hf as (Hl & Ht & _). simpl.
  apply list_elem_of_lookup_2, list_elem_of_fmap in Hl as ([id u] & -> & Hu).
  apply elem_of_map_to_list in Hu. eauto.
Qed.

Lemma findUser_None t test : findUser t test = None ->
  forall id u, users t !! id = Some u -> test u = false.
Proof.
  unfold findUser. rewrite fmap_None, list_find_None, Forall_forall. intros H id u Hu.
  apply not_true_iff_false, H, list_elem_of_fmap. exists (id, u).
  by rewrite elem_of_map_to_list.
Qed.

Lemma HasCapabilityKey_spec key t : PermissionStore.HasCapabilityKey key t = true <->
  exists id p, permissions t !! id = Some p /\ key ∈ pKeys p.
Proof.
  unfold PermissionStore.HasCapabilityKey. rewrite existsb_elem. split.
  - intros ([id p] & Hp & Hk%Has_elem). apply elem_of_map_to_list in Hp. eauto.
  - intros (id & p & Hp & Hk). exists (id, p). by rewrite elem_of_map_to_list, Has_elem.
Qed.

Lemma by_name_elem ps p : p ∈ PermissionStore.by_name ps <-> p ∈ ps.
Proof. unfold PermissionStore.by_name. by rewrite SliceStable_perm. Qed.

Lemma GetUserPermissions_elem userID t p : p ∈ PermissionStore.GetUserPermissions userID t <->
  exists id, permissions t !! id = Some p /\ (userID, id) ∈ userPermissions t.
Proof.
  unfold PermissionStore.GetUserPermissions. rewrite by_name_elem, list_elem_of_fmap. split.
  - intros ([id q] & -> & Hq). apply list_elem_of_filter in Hq as [Hg Hq].
    apply elem_of_map_to_list in Hq. eauto.
  - intros (id & Hp & Hg). exists (id, p). split; [done|].
    by rewrite list_elem_of_filter, elem_of_map_to_list.
Qed.

Lemma List_elem t p : p ∈ PermissionStore.List t <-> exists id, permissions t !! id = Some p.
Proof.
  unfold PermissionStore.List. rewrite by_name_elem, list_elem_of_fmap. split.
  - intros ([id q] & -> & Hq). apply elem_of_map_to_list in Hq. eauto.
  - intros (id & Hp). exists (id, p). by rewrite elem_of_map_to_list.
Qed.

(** ** Properties *)

(** what a set of bundles allows on a path, for a key they grant: some
    bundle grants the key without patterns, or some bundle of the set has a
    pattern for the key that matches the path.  The second case does not ask
    that the bundle with the pattern grants the key: its patterns widen the
    grant of another bundle. *)
Theorem CapabilitiesFromBundles_allows Match perms k path :
  k ∈ fst (CapabilitiesFromBundles perms) -> path <> "" ->
  Allows Match (snd (CapabilitiesFromBundles perms)) k path = true <->
  (exists p, p ∈ perms /\ k ∈ pKeys p /\ get_slice (pKeyPatterns p) k = []) \/
  (exists p pat, p ∈ perms /\ pat ∈ get_slice (pKeyPatterns p) k /\
     matchesGlob Match pat (TrimLeft path "/") = true).
Proof.
  intros Hk Hpath. cbn [fst CapabilitiesFromBundles] in Hk. apply String.eqb_neq in Hpath.
  rewrite Allows_slice, Hpath, orb_false_r, orb_true_iff, isNil_nil, bundles_slice_nil by done.
  rewrite existsb_elem, unrestrictedKeys_elem.
  setoid_rewrite bundles_slice; [|done]. setoid_rewrite unrestrictedKeys_elem. split.
  - intros [?|(pat & [_ (p & ? & ?)] & ?)]; [by left|right; eauto].
  - intros [?|(p & pat & ? & ? & ?)]; [by left|].
    destruct (decide (k ∈ unrestrictedKeys perms)) as [Hu|Hu]; rewrite unrestrictedKeys_elem in Hu.
    + by left.
    + right. exists pat. split; [|done]. split; [done|eauto].
Qed.

(** A bundle with the given key, capabilities and patterns. *)
Definition sample_bundle (key : string) (keys : list string)
    (pats : list (string * list string)) : Permission :=
  {| pID := key; pKey := key; pName := key; pDescription := ""; pKeys := keys;
     pKeyPatterns := list_to_map pats; pCreatedAt := 0 |}.

Lemma CapabilitiesFromBundles_allows_witness :
  let perms := [sample_bundle "a" [CapRawRead] [(CapRawRead, ["a/x"])];
                sample_bundle "b" [] [(CapRawRead, ["b/x"])]] in
  let Match := fun pat path => Some (String.eqb pat path) in
  (CapRawRead ∈ fst (CapabilitiesFromBundles perms) /\ "b/x" <> "") /\
  Allows Match (snd (CapabilitiesFromBundles [sample_bundle "a" [CapRawRead]
    [(CapRawRead, ["a/x"])]])) CapRawRead "b/x" = false /\
  (Allows Match (snd (CapabilitiesFromBundles perms)) CapRawRead "b/x" = true <->
  (exists p, p ∈ perms /\ CapRawRead ∈ pKeys p /\ get_slice (pKeyPatterns p) CapRawRead = []) \/
  (exists p pat, p ∈ perms /\ pat ∈ get_slice (pKeyPatterns p) CapRawRead /\
     matchesGlob Match pat (TrimLeft "b/x" "/") = true)).
Proof.
  intros perms Match.
  assert (H : CapRawRead ∈ fst (CapabilitiesFromBundles perms) /\ "b/x" <> "").
  { split; [|done]. vm_compute. apply list_elem_of_here. }
  split; [exact H|]. split; [by vm_compute|].
  apply (CapabilitiesFromBundles_allows Match perms CapRawRead "b/x"); apply H.
Defined.

(** the resolver of a user's patterns and the shared union of bundles
    agree on every key the user's bundles grant. *)
Theorem ResolveUserCapabilityPatterns_eq userID t k :
  userID <> "" -> k ∈ PermissionStore.GetUserCapabilityKeys userID t ->
  get_slice (ResolveUserCapabilityPatterns userID t) k =
  get_slice (snd (CapabilitiesFromBundles (PermissionStore.GetUserPermissions userID t))) k.
Proof.
  intros Hid Hk. unfold ResolveUserCapabilityPatterns. apply String.eqb_neq in Hid. rewrite Hid.
  cbn [CapabilitiesFromBundles snd]. apply unionBundles_local.
  unfold PermissionStore.GetUserCapabilityKeys in Hk. cbn [CapabilitiesFromBundles fst] in Hk.
  by rewrite (bool_decide_eq_true_2 (k ∈ bundleKeys _) Hk).
Qed.

Lemma ResolveUserCapabilityPatterns_eq_witness :
  let t := {| users := ∅;
              permissions := {[ "b" := sample_bundle "b" [CapRawRead] [(CapRawRead, ["x/**"])] ]};
              userPermissions := {[ ("u", "b") ]} |} in
  get_slice (ResolveUserCapabilityPatterns "u" t) CapRawRead = ["x/**"] /\
  get_slice (ResolveUserCapabilityPatterns "u" t) CapRawRead =
  get_slice (snd (CapabilitiesFromBundles (PermissionStore.GetUserPermissions "u" t))) CapRawRead.
Proof.
  intros t. split; [by vm_compute|]. apply ResolveUserCapabilityPatterns_eq; [done|].
  vm_compute. apply list_elem_of_here.
Defined.

(** the patterns a new permission stores for a key are the trimmed,
    non-empty, traversal-free patterns of the request, each once; and when
    cleaning leaves none, the key it grants is unrestricted: a grant narrowed
    only to rejected patterns allows every path. *)
Theorem CreatePermission_patterns Match id now req t perm t' k :
  CreatePermission id now req t = Ok (perm, t') ->
  NoDup (get_slice (pKeyPatterns perm) k) /\
  (forall y, y ∈ get_slice (pKeyPatterns perm) k <->
     exists p, p ∈ get_slice (cpKeyPatterns req) k /\
       y = TrimSpace p /\ y <> "" /\ hasTraversalSegment y = false) /\
  (k ∈ cpKeys req ->
   (forall p, p ∈ get_slice (cpKeyPatterns req) k ->
      TrimSpace p = "" \/ hasTraversalSegment (TrimSpace p) = true) ->
   forall path, Allows Match (snd (CapabilitiesFromBundles [perm])) k path = true).
Proof.
  unfold CreatePermission. case_if; [done|]. case_if; [done|].
  destruct (PermissionStore.Create _ t); [|done]. intros [= <- <-]. cbn [pKeyPatterns].
  rewrite sanitize_slice. destruct (cleanPatterns_spec (get_slice (cpKeyPatterns req) k)) as [Hn He].
  split; [done|]. split; [done|]. intros Hk Hbad path.
  rewrite Allows_slice. replace (isNil _) with true; [done|]. symmetry. apply isNil_nil.
  apply bundles_slice_nil; [|apply unrestrictedKeys_elem; eexists]; cbn.
  - apply bundleKeys_elem. eexists. split; [by apply list_elem_of_here|done].
  - split; [by apply list_elem_of_here|]. cbn. split; [done|]. rewrite sanitize_slice.
    apply slice_nil. intros y (p & Hp & -> & Hne & Ht)%He.
    destruct (Hbad p Hp); congruence.
Qed.

Lemma CreatePermission_patterns_witness :
  let req := {| cpKey := "k"; cpName := "n"; cpDescription := ""; cpKeys := [CapRawRead];
                cpKeyPatterns := {[ CapRawRead := ["../builds/**"] ]} |} in
  let t := {| users := ∅; permissions := ∅; userPermissions := ∅ |} in
  exists perm t', CreatePermission "1" 0 req t = Ok (perm, t') /\
    Allows (fun _ _ => Some false) (snd (CapabilitiesFromBundles [perm])) CapRawRead "secret" = true.
Proof.
  intros req t. eexists _, _. split; [vm_compute; reflexivity|].
  eapply (CreatePermission_patterns (fun _ _ => Some false) "1" 0 req t); [reflexivity| |].
  - apply list_elem_of_here.
  - intros p Hp. right. vm_compute in Hp. apply list_elem_of_singleton in Hp as ->. reflexivity.
Defined.

(** replacing a user's grants is all or nothing: it succeeds when the
    user and every named permission exist, and then the user's grants are
    exactly the named ones and nobody else's change. *)
Theorem SetUserPermissions_spec userID ids t :
  userID <> "" ->
  (is_ok (SetUserPermissions userID ids t) = true <->
     is_Some (users t !! userID) /\
     forall pid, pid ∈ ids -> pid <> "" -> is_Some (permissions t !! pid)) /\
  forall t', SetUserPermissions userID ids t = Ok t' ->
    permissions t' = permissions t /\ users t' = users t /\
    forall u pid, (u, pid) ∈ userPermissions t' <->
      (u <> userID /\ (u, pid) ∈ userPermissions t) \/ (u = userID /\ pid ∈ ids /\ pid <> "").
Proof.
  intros Hid. unfold SetUserPermissions, PermissionStore.SetUserPermissions, UserStore.Get.
  apply String.eqb_neq in Hid. rewrite Hid.
  destruct (users t !! userID) as [u|] eqn:Eu.
  2:{ split; [|done]. simpl. split; [done|]. intros [[] _]. done. }
  set (t0 := set_userPermissions _ t). split.
  - split.
    + destruct (PermissionStore.insertGrants userID ids t0) as [t'|] eqn:E; [|done]. intros _.
      apply insertGrants_spec in E as (_ & _ & Hex & _). split; [done|].
      intros pid Hp Hne. by apply Hex.
    + intros [_ Hex]. destruct (insertGrants_ok userID ids t0) as [t' ->]; [by eexists|done|done].
  - intros t' (Hp & Hu & _ & He)%insertGrants_spec. split; [done|]. split; [done|].
    intros v pid. rewrite He. simpl. rewrite elem_of_filter. simpl. tauto.
Qed.

Lemma SetUserPermissions_spec_witness :
  let p := sample_bundle "b" [] [] in
  let u := {| uID := "u"; uUsername := "ann"; uDisabled := false; uIsSuperadmin := false;
              uDenied := [] |} in
  let t := {| users := {[ "u" := u ]}; permissions := {[ "b" := p ]};
              userPermissions := {[ ("u", "old") ]} |} in
  exists t', SetUserPermissions "u" ["b"; ""] t = Ok t' /\ ~ ("u", "old") ∈ userPermissions t'.
Proof.
  intros p u t. eexists. split; [vm_compute; reflexivity|].
  intros Hin. destruct (SetUserPermissions_spec "u" ["b"; ""] t ltac:(done)) as [_ H].
  apply (H _ eq_refl) in Hin as [[? _]|(_ & Ho & _)]; [done|].
  apply elem_of_cons in Ho as [?|Ho]; [done|]. apply list_elem_of_singleton in Ho. done.
Defined.

(** the permission check refuses exactly a known user who is not a
    superadmin, when some permission mentions the key and none of the user's
    grants it. *)
Theorem CheckPermission_spec username permKey t :
  username <> "" ->
  match CheckPermission username permKey t with
  | None =>
      (forall id u, users t !! id = Some u -> uUsername u <> username) \/
      (exists id u, users t !! id = Some u /\ uUsername u = username /\
         (uIsSuperadmin u = true \/
          (forall pid p, permissions t !! pid = Some p -> permKey ∉ pKeys p) \/
          exists pid p, permissions t !! pid = Some p /\ (uID u, pid) ∈ userPermissions t /\
            permKey ∈ pKeys p))
  | Some e => e = ErrForbidden /\
      exists id u, users t !! id = Some u /\ uUsername u = username /\ uIsSuperadmin u = false /\
        (exists pid p, permissions t !! pid = Some p /\ permKey ∈ pKeys p) /\
        (forall pid p, permissions t !! pid = Some p -> (uID u, pid) ∈ userPermissions t ->
           permKey ∉ pKeys p)
  end.
Proof.
  intros Hne. apply String.eqb_neq in Hne.
  unfold CheckPermission, ResolveLocalCapabilityKeys, UserStore.GetByUsername. rewrite Hne.
  destruct (findUser t _) as [u|] eqn:Ef.
  2:{ left. intros id u Hu. apply (findUser_None _ _ Ef) in Hu. by bool_prop. }
  apply findUser_Some in Ef as (id & Hu & Hname). bool_prop.
  unfold resolveCapabilityKeysForUser. destruct (uIsSuperadmin u) eqn:Es; [right; eauto 7|].
  destruct (PermissionStore.HasCapabilityKey permKey t) eqn:Eh; cbn [negb].
  2:{ right. exists id, u. split; [done|]. split; [done|]. right. left. intros pid p Hp Hin.
      assert (PermissionStore.HasCapabilityKey permKey t = true); [|congruence].
      apply HasCapabilityKey_spec. eauto. }
  assert (Hkey : permKey ∈ PermissionStore.GetUserCapabilityKeys (uID u) t <->
    exists pid p, permissions t !! pid = Some p /\ (uID u, pid) ∈ userPermissions t /\
      permKey ∈ pKeys p).
  { unfold PermissionStore.GetUserCapabilityKeys. cbn [CapabilitiesFromBundles fst].
    rewrite bundleKeys_elem. setoid_rewrite GetUserPermissions_elem. naive_solver. }
  case_if as E.
  - right. apply Has_elem, Hkey in E. eauto 8.
  - split; [done|]. exists id, u. split_and!; [done|done|done| |].
    + by apply HasCapabilityKey_spec.
    + intros pid p Hp Hg Hin. apply not_true_iff_false in E. apply E, Has_elem, Hkey. eauto.
Qed.

Lemma CheckPermission_spec_witness :
  let u := {| uID := "u"; uUsername := "ann"; uDisabled := false; uIsSuperadmin := false;
              uDenied := [] |} in
  let t := {| users := {[ "u" := u ]};
              permissions := {[ "b" := sample_bundle "b" [CapRawRead] [] ]};
              userPermissions := ∅ |} in
  CheckPermission "ann" CapRawRead t = Some ErrForbidden /\
  exists pid p, permissions t !! pid = Some p /\ CapRawRead ∈ pKeys p.
Proof.
  intros u t. split; [by vm_compute|].
  pose proof (CheckPermission_spec "ann" CapRawRead t ltac:(done)) as H.
  change (CheckPermission "ann" CapRawRead t) with (Some ErrForbidden) in H.
  destruct H as (_ & _ & _ & _ & _ & _ & H & _). exact H.
Defined.
