(* ===== verification/GoHash.v ===== *)
(** * Hashes and hexadecimal: crypto/sha256, crypto/sha512, crypto/md5,
    crypto/hmac and encoding/hex

    The SHA-2 hashes (FIPS 180-4), MD5 (RFC 1321) and the HMAC (RFC 2104) on
    byte strings, executable on words kept as [Z] below 2^32 or 2^64, and the
    lower-case hexadecimal encoding.  Digests, token hashes, ETags and request
    signatures of the other files use them.  The lemmas: the length of a sum
    and of its hexadecimal form, lower-case digits, and decoding undoes
    encoding. *)

From Stdlib Require Import ZArith Lia Ascii.
From stdpp Require Import base list strings.
From S2P Require Import Prelude GoStrings.

Local Open Scope Z_scope.

(** ** Bytes and words *)

Definition bytes_of (s : string) : list Z := (fun c => ord c) <$> String.list_ascii_of_string s.
Definition string_of (l : list Z) : string := String.string_of_list_ascii (chr <$> l).

(** [n] big-endian and little-endian bytes of [x]. *)
Fixpoint be_bytes (n : nat) (x : Z) : list Z :=
  match n with
  | O => []
  | S n => Z.land (Z.shiftr x (8 * Z.of_nat n)) 255 :: be_bytes n x
  end.

Fixpoint le_bytes (n : nat) (x : Z) : list Z :=
  match n with
  | O => []
  | S n => Z.land x 255 :: le_bytes n (Z.shiftr x 8)
  end.

Definition word_of (b : list Z) : Z := foldl (fun acc x => acc * 256 + x) 0 b.

(** The first [n] words of [b], each of [size] bytes. *)
Fixpoint words_of (of_bytes : list Z -> Z) (size n : nat) (b : list Z) : list Z :=
  match n with
  | O => []
  | S n => of_bytes (take size b) :: words_of of_bytes size n (drop size b)
  end.

(** ** SHA-2 *)

(** The largest [r] with [r ^ k <= x], one bit at a time from bit [n]. *)
Fixpoint root (k x : Z) (n : nat) (r : Z) : Z :=
  match n with
  | O => r
  | S n => let r' := r + 2 ^ Z.of_nat n in root k x n (if r' ^ k <=? x then r' else r)
  end.

Definition primes : list Z :=
  [2; 3; 5; 7; 11; 13; 17; 19; 23; 29; 31; 37; 41; 43; 47; 53; 59; 61; 67; 71; 73; 79; 83; 89;
   97; 101; 103; 107; 109; 113; 127; 131; 137; 139; 149; 151; 157; 163; 167; 173; 179; 181; 191;
   193; 197; 199; 211; 223; 227; 229; 233; 239; 241; 251; 257; 263; 269; 271; 277; 281; 283; 293;
   307; 311; 313; 317; 331; 337; 347; 349; 353; 359; 367; 373; 379; 383; 389; 397; 401; 409].

(** The first [w] bits of the fractional part of the [k]-th root of [p]. *)
Definition root_fraction (k w p : Z) : Z :=
  root k (p * 2 ^ (k * w)) (Z.to_nat (w + 5)) 0 mod 2 ^ w.

Record sha2 := {
  bits : Z;                       (** of a word *)
  rounds : nat;
  constants : list Z;
  initial : list Z;
  big0 : Z * Z * Z;               (** the rotations of the two big sigmas *)
  big1 : Z * Z * Z;
  small0 : Z * Z * Z;             (** two rotations and a shift *)
  small1 : Z * Z * Z;
}.

Definition sha256_constants : list Z := Eval vm_compute in root_fraction 3 32 <$> take 64 primes.
Definition sha256_initial : list Z := Eval vm_compute in root_fraction 2 32 <$> take 8 primes.
Definition sha512_constants : list Z := Eval vm_compute in root_fraction 3 64 <$> take 80 primes.
Definition sha512_initial : list Z := Eval vm_compute in root_fraction 2 64 <$> take 8 primes.

Definition sha256_params : sha2 := {|
  bits := 32; rounds := 64;
  constants := sha256_constants;
  initial := sha256_initial;
  big0 := (2, 13, 22); big1 := (6, 11, 25); small0 := (7, 18, 3); small1 := (17, 19, 10);
|}.

Definition sha512_params : sha2 := {|
  bits := 64; rounds := 80;
  constants := sha512_constants;
  initial := sha512_initial;
  big0 := (28, 34, 39); big1 := (14, 18, 41); small0 := (1, 8, 7); small1 := (19, 61, 6);
|}.

Section Sha2.
Context (p : sha2).

Definition mask (x : Z) : Z := Z.land x (Z.ones (bits p)).
Definition rotr (n x : Z) : Z := Z.lor (Z.shiftr x n) (mask (Z.shiftl x (bits p - n))).
Definition big (r : Z * Z * Z) (x : Z) : Z :=
  Z.lxor (Z.lxor (rotr r.1.1 x) (rotr r.1.2 x)) (rotr r.2 x).
Definition small (r : Z * Z * Z) (x : Z) : Z :=
  Z.lxor (Z.lxor (rotr r.1.1 x) (rotr r.1.2 x)) (Z.shiftr x r.2).

Definition wordBytes : nat := Z.to_nat (bits p / 8).

(** The message schedule, newest word first. *)
Definition schedule_step (w : list Z) : list Z :=
  mask (nth 15 w 0 + small (small0 p) (nth 14 w 0) + nth 6 w 0 + small (small1 p) (nth 1 w 0)) :: w.

Definition schedule (block : list Z) : list Z :=
  rev (Nat.iter (rounds p - 16) schedule_step (rev (words_of word_of wordBytes 16 block))).

Definition round (st : list Z) (kw : Z * Z) : list Z :=
  match st with
  | [a; b; c; d; e; f; g; h] =>
      let ch := Z.lxor (Z.land e f) (Z.land (Z.lxor e (Z.ones (bits p))) g) in
      let t1 := mask (h + big (big1 p) e + ch + kw.1 + kw.2) in
      let maj := Z.lxor (Z.lxor (Z.land a b) (Z.land a c)) (Z.land b c) in
      let t2 := mask (big (big0 p) a + maj) in
      [mask (t1 + t2); a; b; c; mask (d + t1); e; f; g]
  | _ => st
  end.

Definition compress (st block : list Z) : list Z :=
  zip_with (fun x y => mask (x + y)) st (foldl round st (zip (constants p) (schedule block))).

(** The message, a one bit, zeros and the length in bits in two words. *)
Definition padded (b : list Z) : list Z :=
  let n := Z.of_nat (length b) in
  let block := 2 * bits p in
  let field := bits p / 4 in
  b ++ 128 :: replicate (Z.to_nat ((2 * block - 1 - field - n) mod block)) 0
    ++ be_bytes (Z.to_nat field) (8 * n).

Fixpoint blocks (fuel : nat) (b : list Z) (st : list Z) : list Z :=
  match fuel with
  | O => st
  | S fuel =>
      if (length b =? 0)%nat then st
      else blocks fuel (drop (16 * wordBytes) b) (compress st (take (16 * wordBytes) b))
  end.

(** Each round of the fuel takes a block off, so the length is enough. *)
Definition sha2_bytes (b : list Z) : list Z :=
  let m := padded b in blocks (length m) m (initial p) ≫= be_bytes wordBytes.

Lemma length_round st kw : length (round st kw) = length st.
Proof. unfold round. by repeat (case_match; try done). Qed.

Lemma length_compress st block : length (compress st block) = length st.
Proof.
  unfold compress. rewrite length_zip_with.
  assert (H : forall l st, length (foldl round st l) = length st).
  { induction l as [|kw l IH]; intros st'; [done|]. simpl. by rewrite IH, length_round. }
  rewrite H. lia.
Qed.

Lemma length_blocks fuel b st : length (blocks fuel b st) = length st.
Proof.
  revert b st. induction fuel as [|fuel IH]; intros b st; [done|]. simpl.
  case_if; [done|]. by rewrite IH, length_compress.
Qed.

Lemma length_be_bytes n x : length (be_bytes n x) = n.
Proof. induction n as [|n IH]; simpl; congruence. Qed.

Lemma length_sha2_bytes b : length (sha2_bytes b) = (wordBytes * length (initial p))%nat.
Proof.
  unfold sha2_bytes. cbv zeta.
  assert (H : forall l, length (l ≫= be_bytes wordBytes) = (wordBytes * length l)%nat).
  { induction l as [|x l IH]; [by rewrite Nat.mul_0_r|].
    rewrite bind_cons, length_app, length_be_bytes, IH. cbn [length]. lia. }
  by rewrite H, length_blocks.
Qed.

End Sha2.

Definition sha256_bytes : list Z -> list Z := sha2_bytes sha256_params.
Definition sha512_bytes : list Z -> list Z := sha2_bytes sha512_params.

Definition Sum256 (s : string) : string := string_of (sha256_bytes (bytes_of s)).
Definition Sum512 (s : string) : string := string_of (sha512_bytes (bytes_of s)).

Definition hmac_bytes (key msg : list Z) : list Z :=
  let key := if (64 <? length key)%nat then sha256_bytes key else key in
  let key := key ++ replicate (64 - length key) 0 in
  sha256_bytes ((Z.lxor 0x5c <$> key) ++ sha256_bytes ((Z.lxor 0x36 <$> key) ++ msg)).

Definition HmacSHA256 (key msg : string) : string :=
  string_of (hmac_bytes (bytes_of key) (bytes_of msg)).

(** ** MD5 *)

(** floor (2^32 * |sin i|), i = 1, ..., 64 *)
Definition md5_constants : list Z := [
  3614090360; 3905402710; 606105819; 3250441966; 4118548399; 1200080426;
  2821735955; 4249261313; 1770035416; 2336552879; 4294925233; 2304563134;
  1804603682; 4254626195; 2792965006; 1236535329; 4129170786; 3225465664;
  643717713; 3921069994; 3593408605; 38016083; 3634488961; 3889429448;
  568446438; 3275163606; 4107603335; 1163531501; 2850285829; 4243563512;
  1735328473; 2368359562; 4294588738; 2272392833; 1839030562; 4259657740;
  2763975236; 1272893353; 4139469664; 3200236656; 681279174; 3936430074;
  3572445317; 76029189; 3654602809; 3873151461; 530742520; 3299628645;
  4096336452; 1126891415; 2878612391; 4237533241; 1700485571; 2399980690;
  4293915773; 2240044497; 1873313359; 4264355552; 2734768916; 1309151649;
  4149444226; 3174756917; 718787259; 3951481745].

Definition md5_shifts : list Z :=
  [7; 12; 17; 22; 5; 9; 14; 20; 4; 11; 16; 23; 6; 10; 15; 21].

Definition m32 (x : Z) : Z := Z.land x (Z.ones 32).

Definition md5_round (words : list Z) (st : Z * Z * Z * Z) (i : nat) : Z * Z * Z * Z :=
  let '(a, b, c, d) := st in
  let n := Z.of_nat i in
  let '(f, g) :=
    if n <? 16 then (Z.lor (Z.land b c) (Z.land (Z.lxor b (Z.ones 32)) d), n)
    else if n <? 32 then (Z.lor (Z.land d b) (Z.land (Z.lxor d (Z.ones 32)) c), (5 * n + 1) mod 16)
    else if n <? 48 then (Z.lxor b (Z.lxor c d), (3 * n + 5) mod 16)
    else (Z.lxor c (Z.lor b (Z.lxor d (Z.ones 32))), (7 * n) mod 16) in
  let f := m32 (f + a + nth i md5_constants 0 + nth (Z.to_nat g) words 0) in
  let s := nth (Z.to_nat (4 * (n / 16) + n mod 4)) md5_shifts 0 in
  (d, m32 (b + Z.lor (m32 (Z.shiftl f s)) (Z.shiftr f (32 - s))), b, c).

Definition md5_block (st : Z * Z * Z * Z) (block : list Z) : Z * Z * Z * Z :=
  let words := words_of (fun b => word_of (rev b)) 4 16 block in
  let '(a, b, c, d) := st in
  let '(a', b', c', d') := foldl (md5_round words) st (seq 0 64) in
  (m32 (a + a'), m32 (b + b'), m32 (c + c'), m32 (d + d')).

Fixpoint md5_blocks (fuel : nat) (b : list Z) (st : Z * Z * Z * Z) : Z * Z * Z * Z :=
  match fuel with
  | O => st
  | S fuel => if (length b =? 0)%nat then st else md5_blocks fuel (drop 64 b) (md5_block st (take 64 b))
  end.

Definition md5_bytes (b : list Z) : list Z :=
  let n := Z.of_nat (length b) in
  let m := b ++ 128 :: replicate (Z.to_nat ((119 - n) mod 64)) 0 ++ le_bytes 8 (8 * n) in
  let '(a, b, c, d) :=
    md5_blocks (length m) m (1732584193, 4023233417, 2562383102, 271733878) in
  [a; b; c; d] ≫= le_bytes 4.

Definition Md5Sum (s : string) : string := string_of (md5_bytes (bytes_of s)).

(** ** encoding/hex *)

Definition hex_digit (n : Z) : ascii :=
  if n <? 10 then chr (48 + n) else chr (87 + n).

Fixpoint EncodeToString (s : string) : string :=
  match s with
  | "" => ""
  | String c s =>
      String (hex_digit (ord c / 16)) (String (hex_digit (ord c mod 16)) (EncodeToString s))
  end.

Definition fromHexChar (c : ascii) : option Z :=
  let n := ord c in
  if (48 <=? n) && (n <=? 57) then Some (n - 48)
  else if (97 <=? n) && (n <=? 102) then Some (n - 87)
  else if (65 <=? n) && (n <=? 70) then Some (n - 55)
  else None.

Fixpoint DecodeString (s : string) : option string :=
  match s with
  | "" => Some ""
  | String a (String b s) =>
      match fromHexChar a, fromHexChar b, DecodeString s with
      | Some x, Some y, Some r => Some (String (chr (16 * x + y)) r)
      | _, _, _ => None
      end
  | String _ "" => None
  end.

(** [hex.EncodeToString(sum[:])] of a SHA-256 sum *)
Definition hexSHA256 (s : string) : string := EncodeToString (Sum256 s).

(** ** Lemmas *)

Example sha256_abc :
  hexSHA256 "abc" = "ba7816bf8f01cfea414140de5dae2223b00361a396177a9cb410ff61f20015ad".
Proof. by vm_compute. Qed.

Example hmac_jefe :
  EncodeToString (HmacSHA256 "Jefe" "what do ya want for nothing?")
  = "5bdcc146bf60754e6a042426089575c75a003f089d2739839dec58b964ec3843".
Proof. by vm_compute. Qed.

Example sha512_abc :
  EncodeToString (Sum512 "abc")
  = "ddaf35a193617abacc417349ae20413112e6fa4e89a97ea20a9eeee64b55d39a"
    +:+ "2192992a274fc1a836ba3c23a3feebbd454d4423643ce80e2a9ac94fa54ca49f".
Proof. by vm_compute. Qed.

Example md5_alphabet :
  EncodeToString (Md5Sum "abcdefghijklmnopqrstuvwxyz") = "c3fcd3d76192e4007dfb496cca67e13b".
Proof. by vm_compute. Qed.

Lemma length_sha256_bytes b : length (sha256_bytes b) = 32%nat.
Proof. apply length_sha2_bytes. Qed.

Lemma length_sha512_bytes b : length (sha512_bytes b) = 64%nat.
Proof. apply length_sha2_bytes. Qed.

Lemma length_le_bytes n x : length (le_bytes n x) = n.
Proof. revert x. induction n as [|n IH]; intros x; simpl; congruence. Qed.

Lemma length_md5_bytes b : length (md5_bytes b) = 16%nat.
Proof. unfold md5_bytes. cbv zeta. by destruct (md5_blocks _ _ _) as [[[]]]. Qed.

Lemma len_string_of l : len (string_of l) = length l.
Proof.
  induction l as [|x l IH]; [done|]. unfold string_of in *. rewrite fmap_cons.
  cbn [String.string_of_list_ascii length]. unfold len in *. cbn [String.length]. by rewrite IH.
Qed.

Lemma len_Sum256 s : len (Sum256 s) = 32%nat.
Proof. unfold Sum256. by rewrite len_string_of, length_sha256_bytes. Qed.

Lemma len_Sum512 s : len (Sum512 s) = 64%nat.
Proof. unfold Sum512. by rewrite len_string_of, length_sha512_bytes. Qed.

Lemma len_Md5Sum s : len (Md5Sum s) = 16%nat.
Proof. unfold Md5Sum. by rewrite len_string_of, length_md5_bytes. Qed.

Lemma len_EncodeToString s : len (EncodeToString s) = (2 * len s)%nat.
Proof. induction s as [|c s IH]; [done|]. simpl in *. lia. Qed.

Definition is_lower_hex (c : ascii) : bool :=
  is_digit c || ((97 <=? ord c) && (ord c <=? 102)).

Lemma hex_digit_ord n : 0 <= n < 16 ->
  ord (hex_digit n) = if n <? 10 then 48 + n else 87 + n.
Proof. intros H. unfold hex_digit. case_if; apply ord_chr; lia. Qed.

Lemma hex_digit_lower n : 0 <= n < 16 -> is_lower_hex (hex_digit n) = true.
Proof.
  intros H. unfold is_lower_hex, is_digit. rewrite hex_digit_ord by done.
  destruct (Z.ltb_spec n 10); lia.
Qed.

Lemma fromHexChar_digit n : 0 <= n < 16 -> fromHexChar (hex_digit n) = Some n.
Proof.
  intros H. unfold fromHexChar. rewrite hex_digit_ord by done.
  destruct (Z.ltb_spec n 10).
  - replace ((48 <=? 48 + n) && (48 + n <=? 57)) with true by (symmetry; lia). f_equal. lia.
  - replace ((48 <=? 87 + n) && (87 + n <=? 57)) with false by (symmetry; lia).
    replace ((97 <=? 87 + n) && (87 + n <=? 102)) with true by (symmetry; lia). f_equal. lia.
Qed.

Lemma ord_nibbles c : 0 <= ord c / 16 < 16 /\ 0 <= ord c mod 16 < 16.
Proof.
  pose proof (ord_range c). split; [|apply Z.mod_pos_bound; lia].
  split; [apply Z.div_pos; lia|apply Z.div_lt_upper_bound; lia].
Qed.

Lemma Decode_Encode s : DecodeString (EncodeToString s) = Some s.
Proof.
  induction s as [|c s IH]; [done|]. cbn [EncodeToString DecodeString].
  destruct (ord_nibbles c). rewrite !fromHexChar_digit by done. rewrite IH.
  by rewrite <-(Z.div_mod (ord c) 16), chr_ord by done.
Qed.

Lemma EncodeToString_lower s : str_forallb is_lower_hex (EncodeToString s) = true.
Proof.
  induction s as [|c s IH]; [done|]. cbn [EncodeToString str_forallb].
  destruct (ord_nibbles c). by rewrite !hex_digit_lower, IH by done.
Qed.

Lemma len_hexSHA256 s : len (hexSHA256 s) = 64%nat.
Proof. unfold hexSHA256. by rewrite len_EncodeToString, len_Sum256. Qed.

#[export] Hint Rewrite len_hexSHA256 Decode_Encode : kutu.

(** Proofs never look inside a hash; [vm_compute] still evaluates it. *)
#[global] Opaque sha256_bytes sha512_bytes md5_bytes.
