(* ===== verification/GoBase64.v ===== *)
(** * encoding/base64 and the credentials of net/http

    The standard encoding with padding: the decoder skips line breaks and
    ignores the bits after the last byte, as Go's does.  [BasicAuth] reads a
    request's basic credentials. *)

From Stdlib Require Import ZArith Lia Ascii.
From stdpp Require Import base list strings.
From S2P Require Import Prelude GoStrings.

Local Open Scope Z_scope.

(** ** The alphabet *)

Definition sextet_char (n : Z) : ascii :=
  if n <? 26 then chr (65 + n)
  else if n <? 52 then chr (97 + (n - 26))
  else if n <? 62 then chr (48 + (n - 52))
  else if n =? 62 then "+" else "/".

Definition sextet (c : ascii) : option Z :=
  let n := ord c in
  if is_upper c then Some (n - 65)
  else if is_lower c then Some (n - 97 + 26)
  else if is_digit c then Some (n - 48 + 52)
  else if n =? 43 then Some 62
  else if n =? 47 then Some 63
  else None.

(** ** Encoding *)

Fixpoint EncodeBase64 (s : string) : string :=
  match s with
  | "" => ""
  | String a "" =>
      let n := ord a * 16 in
      String (sextet_char (n / 64)) (String (sextet_char (n mod 64)) "==")
  | String a (String b "") =>
      let n := (ord a * 256 + ord b) * 4 in
      String (sextet_char (n / 4096)) (String (sextet_char (n / 64 mod 64)) (String (sextet_char (n mod 64)) "="))
  | String a (String b (String c t)) =>
      let n := (ord a * 256 + ord b) * 256 + ord c in
      String (sextet_char (n / 262144)) (String (sextet_char (n / 4096 mod 64))
        (String (sextet_char (n / 64 mod 64)) (String (sextet_char (n mod 64)) (EncodeBase64 t))))
  end.

(** ** Decoding *)

Definition line_break (c : ascii) : bool := (ord c =? 10) || (ord c =? 13).

Fixpoint without_breaks (s : string) : string :=
  match s with
  | "" => ""
  | String c t => if line_break c then without_breaks t else String c (without_breaks t)
  end.

(** Groups of four; a padded one is the last. *)
Fixpoint decode_quanta (s : string) : option string :=
  match s with
  | "" => Some ""
  | String a (String b (String c (String d t))) =>
      x ← sextet a; y ← sextet b;
      if Ascii.eqb c "=" then
        if Ascii.eqb d "=" && String.eqb t "" then Some (String (chr (x * 4 + y / 16)) "") else None
      else
        z ← sextet c;
        if Ascii.eqb d "=" then
          if String.eqb t "" then Some (String (chr (x * 4 + y / 16)) (String (chr (y mod 16 * 16 + z / 4)) "")) else None
        else
          w ← sextet d; r ← decode_quanta t;
          Some (String (chr (x * 4 + y / 16)) (String (chr (y mod 16 * 16 + z / 4)) (String (chr (z mod 4 * 64 + w)) r)))
  | _ => None
  end.

Definition DecodeBase64 (s : string) : option string := decode_quanta (without_breaks s).

(** ** Basic credentials *)

(** [http.Request.BasicAuth], of the Authorization header: the user and the
    password. *)
Definition BasicAuth (auth : string) : option (string * string) :=
  if (len auth <? 6)%nat || negb (EqualFold (str_take 6 auth) "Basic ") then None
  else
    c ← DecodeBase64 (str_drop 6 auth);
    let '(username, password, ok) := Cut c ":" in
    if ok then Some (username, password) else None.

(** ** The decoder inverts the encoder *)

Lemma sextet_back n : 0 <= n < 64 -> sextet (sextet_char n) = Some n /\ Ascii.eqb (sextet_char n) "=" = false /\
  line_break (sextet_char n) = false.
Proof.
  intros Hn. assert (H : forallb (fun k : nat => let m := Z.of_nat k in
    match sextet (sextet_char m) with Some v => v =? m | None => false end && negb (Ascii.eqb (sextet_char m) "=") &&
    negb (line_break (sextet_char m))) (List.seq 0 64) = true) by reflexivity.
  rewrite forallb_forall in H. specialize (H (Z.to_nat n)). rewrite Z2Nat.id in H by lia.
  specialize (H ltac:(apply List.in_seq; lia)). cbv zeta in H. destruct (sextet _) as [v|]; [|done]. bool_prop.
  split_and!; [by subst|done|done].
Qed.

Lemma byte3 a b c : 0 <= a < 256 -> 0 <= b < 256 -> 0 <= c < 256 ->
  let n := (a * 256 + b) * 256 + c in
  let x := n / 262144 in let y := n / 4096 mod 64 in let z := n / 64 mod 64 in let w := n mod 64 in
  (0 <= x < 64 /\ 0 <= y < 64 /\ 0 <= z < 64 /\ 0 <= w < 64) /\
  x * 4 + y / 16 = a /\ y mod 16 * 16 + z / 4 = b /\ z mod 4 * 64 + w = c.
Proof. cbv zeta. intros. Z.to_euclidean_division_equations. lia. Qed.

Lemma quantum a b c : exists x y z w,
  EncodeBase64 (String a (String b (String c ""))) = String x (String y (String z (String w ""))) /\
  (forall t, EncodeBase64 (String a (String b (String c t))) = String x (String y (String z (String w (EncodeBase64 t))))) /\
  (forall t, without_breaks (String x (String y (String z (String w t)))) = String x (String y (String z (String w (without_breaks t))))) /\
  forall t r, decode_quanta t = Some r ->
    decode_quanta (String x (String y (String z (String w t)))) = Some (String a (String b (String c r))).
Proof.
  pose proof (byte3 _ _ _ (ord_range a) (ord_range b) (ord_range c)) as Hb. cbv zeta in Hb.
  destruct Hb as ((Hx & Hy & Hz & Hw) & Ea & Eb & Ec). do 4 eexists. split; [reflexivity|]. split; [reflexivity|].
  destruct (sextet_back _ Hx) as (X1 & X2 & X3), (sextet_back _ Hy) as (Y1 & Y2 & Y3).
  destruct (sextet_back _ Hz) as (Z1 & Z2 & Z3), (sextet_back _ Hw) as (W1 & W2 & W3). split.
  - intros t. cbn [without_breaks]. by rewrite X3, Y3, Z3, W3.
  - intros t r E. cbn [decode_quanta]. rewrite X1, Y1, Z1, W1, Z2, W2, E. cbn. by rewrite Ea, Eb, Ec, !chr_ord.
Qed.

Lemma byte1 a : 0 <= a < 256 -> (0 <= a * 16 / 64 < 64 /\ 0 <= a * 16 mod 64 < 64) /\
  a * 16 / 64 * 4 + a * 16 mod 64 / 16 = a.
Proof. intros. Z.to_euclidean_division_equations. lia. Qed.

Lemma byte2 a b : 0 <= a < 256 -> 0 <= b < 256 ->
  let n := (a * 256 + b) * 4 in
  (0 <= n / 4096 < 64 /\ 0 <= n / 64 mod 64 < 64 /\ 0 <= n mod 64 < 64) /\
  n / 4096 * 4 + n / 64 mod 64 / 16 = a /\ n / 64 mod 64 mod 16 * 16 + n mod 64 / 4 = b.
Proof.
  cbv zeta. intros Ha Hb.
  assert (E1 : (a * 256 + b) * 4 / 4096 = a / 4) by (Z.to_euclidean_division_equations; lia).
  assert (E2 : (a * 256 + b) * 4 / 64 = a * 16 + b / 16) by (Z.to_euclidean_division_equations; lia).
  assert (E3 : (a * 256 + b) * 4 mod 64 = b mod 16 * 4) by (Z.to_euclidean_division_equations; lia).
  rewrite E1, E2, E3.
  assert (E4 : (a * 16 + b / 16) mod 64 = a mod 4 * 16 + b / 16) by (Z.to_euclidean_division_equations; lia).
  rewrite E4. clear E1 E2 E3 E4.
  split; [|split]; Z.to_euclidean_division_equations; lia.
Qed.

Lemma DecodeBase64_Encode s : DecodeBase64 (EncodeBase64 s) = Some s.
Proof.
  unfold DecodeBase64. remember (len s) as n eqn:En. assert (Hn : (len s <= n)%nat) by lia. clear En.
  revert s Hn. induction n as [|n IH]; intros s Hn; [by destruct s; [|cbn in Hn; lia]|].
  destruct s as [|a [|b [|c t]]]; [done|..].
  - destruct (byte1 (ord a) (ord_range a)) as ((Hx & Hy) & Ea).
    destruct (sextet_back _ Hx) as (X1 & X2 & X3), (sextet_back _ Hy) as (Y1 & Y2 & Y3).
    cbn [EncodeBase64 without_breaks]. rewrite X3, Y3. cbn [without_breaks decode_quanta]. rewrite X1, Y1. cbn.
    by rewrite Ea, chr_ord.
  - destruct (byte2 (ord a) (ord b) (ord_range a) (ord_range b)) as ((Hx & Hy & Hz) & Ea & Eb).
    destruct (sextet_back _ Hx) as (X1 & X2 & X3), (sextet_back _ Hy) as (Y1 & Y2 & Y3), (sextet_back _ Hz) as (Z1 & Z2 & Z3).
    cbn [EncodeBase64 without_breaks]. cbv zeta. rewrite X3, Y3, Z3. cbn [without_breaks decode_quanta]. rewrite X1, Y1, Z1, Z2.
    cbn. by rewrite Ea, Eb, !chr_ord.
  - destruct (quantum a b c) as (x & y & z & w & _ & E & Hb & Hd). rewrite E, Hb. apply Hd, IH. unfold len in *. cbn in Hn. lia.
Qed.

(** Credentials that a client sends are the ones the server reads. *)
Lemma BasicAuth_encoded u p : no_byte ":" u = true ->
  BasicAuth ("Basic " +:+ EncodeBase64 (u +:+ ":" +:+ p)) = Some (u, p).
Proof.
  intros Hu. unfold BasicAuth. rewrite len_app. change (len "Basic ") with 6%nat.
  replace (_ <? 6)%nat with false by (symmetry; apply Nat.ltb_ge; lia).
  change 6%nat with (len "Basic ") at 1 2. rewrite str_take_app, str_drop_app, DecodeBase64_Encode. cbn [orb].
  change (EqualFold "Basic " "Basic ") with true. cbn [negb mbind option_bind].
  unfold Cut. change (u +:+ ":" +:+ p) with (u +:+ String ":" p). rewrite (Index_byte_app u ":" p Hu), str_take_app.
  replace (len u + len ":")%nat with (len (u +:+ ":")) by (by rewrite len_app).
  change (u +:+ String ":" p) with (u +:+ ":" +:+ p). by rewrite <-str_app_assoc, str_drop_app.
Qed.
