(* ===== verification/Identity.v ===== *)
(** * Identities and internal/service/oidc_roles.go: roles from nested claims

    [Identity] has the fields kutu reads of an ada identity; a claim is the
    JSON-like value Go keeps as [any], with the token scopes that kutu itself
    stores there.  A Go map is an association list in its iteration order.
    [HarvestRoles] walks dotted paths through the claims.  The theorem: it
    returns exactly the non-empty roles at the leaves the paths reach, each
    once. *)

From Stdlib Require Import ZArith Lia Ascii.
From stdpp Require Import base list strings gmap.
From S2P Require Import Prelude GoStrings.

(** ** Data *)

Record TokenScope := { Path : string; Operations : list string }.

Inductive claim :=
| CString (s : string)
| CStrings (l : list string)
| CList (l : list claim)
| CMap (m : list (string * claim))
| CScopes (l : list TokenScope)
| COther.

Record Identity := {
  Subject : string;
  Provider : string;
  Roles : list string;
  Scopes : list string;
  Claims : list (string * claim);
}.

Fixpoint assoc {A} (k : string) (m : list (string * A)) : option A :=
  match m with
  | [] => None
  | (k', v) :: m => if String.eqb k' k then Some v else assoc k m
  end.

(** ** Harvesting *)

Definition splitPath (path : string) : list string :=
  filter (fun s => s <> "") (TrimSpace <$> Split path ".").

Definition rolesFromLeaf (v : claim) : list string :=
  match v with
  | CList l => l ≫= fun item =>
      match item with CString s => if String.eqb s "" then [] else [s] | _ => [] end
  | CStrings l => l
  | CString s => Fields s
  | _ => []
  end.

(** The roles [emit] receives, in order. *)
Fixpoint walkClaimPath (node : claim) (segs : list string) {struct segs} : list string :=
  match segs with
  | [] => rolesFromLeaf node
  | seg :: rest =>
      match node with
      | CMap m =>
          if String.eqb seg "*" then m ≫= fun kv => walkClaimPath kv.2 rest
          else match assoc seg m with
               | Some next => walkClaimPath next rest
               | None => []
               end
      | _ => []
      end
  end.

(** [add]: skip empty roles and duplicates. *)
Definition addRoles (acc : gset string * list string) (roles : list string)
    : gset string * list string :=
  foldl (fun acc r => if String.eqb r "" then acc else push_new acc r) acc roles.

Definition HarvestRoles (claims : list (string * claim)) (paths : list string) : list string :=
  if (length claims =? 0)%nat || (length paths =? 0)%nat then []
  else
    snd (foldl (fun acc p =>
      let segs := splitPath p in
      if (length segs =? 0)%nat then acc
      else addRoles acc (walkClaimPath (CMap claims) segs)) ((∅ : gset string), []) paths).

(** ** Specification *)

(** [reach node segs leaf]: the path leads from [node] to [leaf]. *)
Inductive reach : claim -> list string -> claim -> Prop :=
| reach_leaf v : reach v [] v
| reach_field m seg rest next v :
    seg <> "*" -> assoc seg m = Some next -> reach next rest v -> reach (CMap m) (seg :: rest) v
| reach_any m k next rest v :
    (k, next) ∈ m -> reach next rest v -> reach (CMap m) ("*" :: rest) v.

Lemma walkClaimPath_spec node segs r :
  r ∈ walkClaimPath node segs <-> exists v, reach node segs v /\ r ∈ rolesFromLeaf v.
Proof.
  revert node. induction segs as [|seg rest IH]; intros node; cbn [walkClaimPath].
  { split; [intros Hr; exists node; by split; [constructor|]|].
    intros (v & Hv & Hr). by inversion Hv; subst. }
  destruct node as [| | |m| |];
    try (rewrite elem_of_nil; split; [done|intros (v & Hv & _); inversion Hv]).
  destruct (String.eqb_spec seg "*") as [->|Hne].
  - rewrite list_elem_of_bind. setoid_rewrite IH. split.
    + intros ([k next] & (v & Hv & Hr) & Hin). exists v. split; [by eapply reach_any|done].
    + intros (v & Hv & Hr). inversion Hv as [| |? k next ? ? Hin Hv']; subst; [done|].
      exists (k, next). eauto.
  - destruct (assoc seg m) as [next|] eqn:E.
    + rewrite IH. split; intros (v & Hv & Hr); exists v; split; try done.
      * by eapply reach_field.
      * inversion Hv; subst; [congruence|done].
    + rewrite elem_of_nil. split; [done|]. intros (v & Hv & _). inversion Hv; subst; congruence.
Qed.

Lemma addRoles_spec acc roles : seen_wf acc -> seen_wf (addRoles acc roles) /\
  forall y, y ∈ (addRoles acc roles).2 <-> y ∈ acc.2 \/ (y ∈ roles /\ y <> "").
Proof.
  unfold addRoles. revert acc.
  induction roles as [|r roles IH]; intros acc Hwf; cbn [foldl].
  { split; [done|]. intros y. rewrite elem_of_nil. naive_solver. }
  assert (Hw : seen_wf (if String.eqb r "" then acc else push_new acc r)).
  { case_if; [done|by apply push_new_wf]. }
  destruct (IH _ Hw) as [Hw' He']. split; [done|]. intros y. rewrite He', elem_of_cons.
  case_if as E; [subst|rewrite push_new_elem by done]; naive_solver.
Qed.

(** ** Properties *)

(** the harvested roles are exactly the non-empty role strings at the
    leaves the configured paths reach ("*" through every value of a map), each
    listed once. *)
Theorem HarvestRoles_spec claims paths :
  NoDup (HarvestRoles claims paths) /\
  forall r, r ∈ HarvestRoles claims paths <->
    r <> "" /\ exists p v, p ∈ paths /\ splitPath p <> [] /\
      reach (CMap claims) (splitPath p) v /\ r ∈ rolesFromLeaf v.
Proof.
  unfold HarvestRoles. set (step := fun acc p => _).
  assert (Hgen : forall acc, seen_wf acc -> seen_wf (foldl step acc paths) /\
    forall r, r ∈ (foldl step acc paths).2 <-> r ∈ acc.2 \/
      (r <> "" /\ exists p v, p ∈ paths /\ splitPath p <> [] /\
        reach (CMap claims) (splitPath p) v /\ r ∈ rolesFromLeaf v)).
  { induction paths as [|p paths IH]; intros acc Hwf; cbn [foldl].
    { split; [done|]. intros r. setoid_rewrite elem_of_nil. naive_solver. }
    assert (Hstep : seen_wf (step acc p) /\ forall r, r ∈ (step acc p).2 <-> r ∈ acc.2 \/
      (r <> "" /\ splitPath p <> [] /\ exists v, reach (CMap claims) (splitPath p) v /\
         r ∈ rolesFromLeaf v)).
    { unfold step. destruct (splitPath p) as [|s segs] eqn:E; cbn [length Nat.eqb].
      - split; [done|]. naive_solver.
      - destruct (addRoles_spec acc (walkClaimPath (CMap claims) (s :: segs)) Hwf) as [Hw He].
        split; [done|]. intros r. rewrite He, walkClaimPath_spec. naive_solver. }
    destruct Hstep as [Hw He]. destruct (IH _ Hw) as [Hw' He']. split; [done|].
    intros r. rewrite He', He. setoid_rewrite elem_of_cons. naive_solver. }
  destruct ((length claims =? 0)%nat || (length paths =? 0)%nat) eqn:E0.
  - split; [constructor|]. intros r. rewrite elem_of_nil. split; [done|].
    intros (_ & p & v & Hp & Hne & Hv & _).
    apply orb_true_iff in E0 as [E0|E0]; apply Nat.eqb_eq in E0.
    + destruct claims; [|done]. destruct (splitPath p); [done|]. inversion Hv; subst; [done|set_solver].
    + destruct paths; [set_solver|done].
  - destruct (Hgen (∅, []) empty_wf) as [[Hnd _] He]. split; [done|].
    intros r. rewrite He. simpl. rewrite elem_of_nil. naive_solver.
Qed.
