(* ===== verification/Token.v ===== *)
(** * internal/service: token.go, token_usage.go and the token table

    API tokens: their scopes, the matcher of scope paths, the service
    operations and the usage recorder, on the token table of
    internal/storage/auth_store.go (a map by id with a unique hash).  Random
    ids and keys and the clock are arguments; times are nanoseconds since Go's
    zero time.  The theorems: the recursive matcher decides the declarative
    meaning of "*" and "**"; authentication succeeds exactly for the key of an
    active, unexpired token; disabling or deleting a token revokes its key and
    its derived credentials; flushing usage never moves a last use back nor
    brings a deleted token back. *)

From Stdlib Require Import ZArith Lia Ascii.
From stdpp Require Import base list strings gmap.
From S2P Require Import Prelude GoStrings GoHash Identity Capabilities.

Local Open Scope Z_scope.

(** ** Data *)

Record Token := {
  tID : string;
  tName : string;
  tHashedKey : string;
  tScopes : list TokenScope;
  tCreatedAt : Z;
  tCreatedBy : string;
  tExpiresAt : option Z;
  tActive : bool;
  tLastUsedAt : option Z;
}.

Record TokenAuth := { aID : string; aName : string; aScopes : list TokenScope }.

Record tokenUsage := { pending : gmap string Z; seen : gmap string Z }.

Record TokenState := { tokens : gmap string Token; usage : tokenUsage }.

Definition TokenPrefix := "kutu_".

(** The index of the offending scope. *)
Inductive ScopeError :=
| PathRequired (i : nat) | OperationRequired (i : nat) | UnknownOperation (i : nat) (op : string).

Definition known_operation (op : string) : bool :=
  String.eqb op "read" || String.eqb op "write" || String.eqb op "delete" || String.eqb op "*".

Fixpoint validateTokenScopes_from (i : nat) (scopes : list TokenScope) : option ScopeError :=
  match scopes with
  | [] => None
  | sc :: scopes =>
      if String.eqb (TrimSpace (Path sc)) "" then Some (PathRequired i)
      else if isNil (Operations sc) then Some (OperationRequired i)
      else match list_find (fun op => known_operation op = false) (Operations sc) with
           | Some (_, op) => Some (UnknownOperation i op)
           | None => validateTokenScopes_from (S i) scopes
           end
  end.

Definition validateTokenScopes (scopes : list TokenScope) : option ScopeError :=
  validateTokenScopes_from 0 scopes.

Definition hashKey (raw : string) : string := hexSHA256 raw.

(** ** Matching scope paths *)

Fixpoint matchPathParts (pattern path : list string) {struct pattern} : bool :=
  match path with
  | [] => forallb (fun p => String.eqb p "**") pattern
  | seg :: path' =>
      match pattern with
      | [] => false
      | p :: rest =>
          if String.eqb p "**" then
            if isNil rest then true
            else existsb (fun i => matchPathParts rest (drop i path)) (seq 0 (S (length path)))
          else if String.eqb p "*" then matchPathParts rest path'
          else if negb (String.eqb p seg) then false
          else matchPathParts rest path'
      end
  end.

Definition matchPath (pattern path : string) : bool :=
  if String.eqb pattern "*" || String.eqb pattern "**" then true
  else matchPathParts (Split (Trim pattern "/") "/") (Split (Trim path "/") "/").

Definition containsOperation (ops : list string) (op : string) : bool :=
  existsb (fun o => String.eqb o op || String.eqb o "*") ops.

Definition TokenScopesAllow (scopes : list TokenScope) (configPath operation : string) : bool :=
  existsb (fun sc => matchPath (Path sc) configPath && containsOperation (Operations sc) operation)
          scopes.

(** ** Usage (token_usage.go) *)

Definition second : Z := 1000000000.

Definition record_use (id : string) (now : Z) (u : tokenUsage) : tokenUsage :=
  let now := now - now mod second in
  {| pending := <[id := now]> (pending u); seen := <[id := now]> (seen u) |}.

Definition take_pending (u : tokenUsage) : gmap string Z * tokenUsage :=
  (pending u, {| pending := ∅; seen := seen u |}).

Definition lastSeen (id : string) (u : tokenUsage) : option Z := seen u !! id.

Definition forget (id : string) (u : tokenUsage) : tokenUsage :=
  {| pending := delete id (pending u); seen := delete id (seen u) |}.

Definition tokenLastUsed (id : string) (stored : option Z) (u : tokenUsage) : option Z :=
  match lastSeen id u with
  | Some t =>
      match stored with
      | None => Some t
      | Some s => if s <? t then Some t else stored
      end
  | None => stored
  end.

(** ** The table (internal/storage/auth_store.go) *)

Definition touch (at_ : Z) (t : Token) : Token :=
  {| tID := tID t; tName := tName t; tHashedKey := tHashedKey t; tScopes := tScopes t;
     tCreatedAt := tCreatedAt t; tCreatedBy := tCreatedBy t; tExpiresAt := tExpiresAt t;
     tActive := tActive t; tLastUsedAt := Some at_ |}.

Module TokenStore.
Definition Get (id : string) (m : gmap string Token) : result ServiceError Token :=
  match m !! id with Some t => Ok t | None => Err ErrNotFound end.

Definition FindByHash (hashed : string) (m : gmap string Token) : result ServiceError Token :=
  match list_find (fun t => String.eqb (tHashedKey t) hashed = true)
                  (snd <$> map_to_list m) with
  | Some (_, t) => Ok t
  | None => Err ErrNotFound
  end.

Definition Create (t : Token) (m : gmap string Token) : result ServiceError (gmap string Token) :=
  if bool_decide (is_Some (m !! tID t)) || is_ok (FindByHash (tHashedKey t) m)
  then Err ErrConflict else Ok (<[tID t := t]> m).

(** Only name, scopes, active and expiry are written. *)
Definition Update (t : Token) (m : gmap string Token) : result ServiceError (gmap string Token) :=
  match m !! tID t with
  | None => Err ErrNotFound
  | Some old =>
      Ok (<[tID t := {| tID := tID t; tName := tName t; tHashedKey := tHashedKey old;
                        tScopes := tScopes t; tCreatedAt := tCreatedAt old;
                        tCreatedBy := tCreatedBy old; tExpiresAt := tExpiresAt t;
                        tActive := tActive t; tLastUsedAt := tLastUsedAt old |}]> m)
  end.

Definition TouchLastUsed (id : string) (at_ : Z) (m : gmap string Token) : gmap string Token :=
  alter (fun t => match tLastUsedAt t with
                  | None => touch at_ t
                  | Some last => if last <? at_ then touch at_ t else t
                  end) id m.

Definition Delete (id : string) (m : gmap string Token) : result ServiceError (gmap string Token) :=
  match m !! id with Some _ => Ok (delete id m) | None => Err ErrNotFound end.
End TokenStore.

(** ** The service *)

Record CreateTokenRequest := {
  ctName : string; ctScopes : list TokenScope; ctExpiresAt : option Z;
}.

Record PatchTokenRequest := {
  ptName : option string; ptScopes : option (list TokenScope);
  ptActive : option bool; ptExpiresAt : option Z;
}.

(** [id] and [key] are the random id and the random hex of the raw key. *)
Definition CreateToken (id key : string) (now : Z) (user : string) (req : CreateTokenRequest)
    (st : TokenState) : result ServiceError (Token * string * TokenState) :=
  if String.eqb (ctName req) "" then Err ErrBadRequest
  else if isNil (ctScopes req) then Err ErrBadRequest
  else match validateTokenScopes (ctScopes req) with
  | Some _ => Err ErrBadRequest
  | None =>
      let rawKey := TokenPrefix +:+ key in
      let token := {| tID := id; tName := ctName req; tHashedKey := hashKey rawKey;
                      tScopes := ctScopes req; tCreatedAt := now; tCreatedBy := user;
                      tExpiresAt := ctExpiresAt req; tActive := true; tLastUsedAt := None |} in
      match TokenStore.Create token (tokens st) with
      | Err e => Err e
      | Ok m => Ok (token, rawKey, {| tokens := m; usage := usage st |})
      end
  end.

Definition DeleteToken (id : string) (st : TokenState) : result ServiceError TokenState :=
  match TokenStore.Delete id (tokens st) with
  | Err e => Err e
  | Ok m => Ok {| tokens := m; usage := forget id (usage st) |}
  end.

Definition PatchToken (id : string) (req : PatchTokenRequest) (st : TokenState)
    : result ServiceError TokenState :=
  match TokenStore.Get id (tokens st) with
  | Err e => Err e
  | Ok token =>
      match default None (validateTokenScopes <$> ptScopes req) with
      | Some _ => Err ErrBadRequest
      | None =>
          match TokenStore.Update
            {| tID := tID token;
               tName := default (tName token) (ptName req);
               tHashedKey := tHashedKey token;
               tScopes := default (tScopes token) (ptScopes req);
               tCreatedAt := tCreatedAt token; tCreatedBy := tCreatedBy token;
               tExpiresAt := match ptExpiresAt req with
                             | Some e => Some e
                             | None => tExpiresAt token
                             end;
               tActive := default (tActive token) (ptActive req);
               tLastUsedAt := tLastUsedAt token |} (tokens st) with
          | Err e => Err e
          | Ok m => Ok {| tokens := m; usage := usage st |}
          end
      end
  end.

(** The checks shared by both validations: active, then expiry. *)
Definition usable (now : Z) (t : Token) : result ServiceError Token :=
  if negb (tActive t) then Err ErrForbidden
  else match tExpiresAt t with
       | Some e => if e <? now then Err ErrForbidden else Ok t
       | None => Ok t
       end.

Definition auth_of (t : Token) : TokenAuth :=
  {| aID := tID t; aName := tName t; aScopes := tScopes t |}.

Definition AuthenticateToken (rawKey : string) (now : Z) (st : TokenState)
    : result ServiceError TokenAuth * TokenState :=
  match TokenStore.FindByHash (hashKey rawKey) (tokens st) with
  | Err _ => (Err ErrUnauthorized, st)
  | Ok token =>
      match usable now token with
      | Err e => (Err e, st)
      | Ok token =>
          (Ok (auth_of token),
           {| tokens := tokens st; usage := record_use (tID token) now (usage st) |})
      end
  end.

Definition ValidateToken (rawKey configPath operation : string) (now : Z) (st : TokenState)
    : option ServiceError * TokenState :=
  match AuthenticateToken rawKey now st with
  | (Err e, st) => (Some e, st)
  | (Ok auth, st) =>
      if TokenScopesAllow (aScopes auth) configPath operation then (None, st)
      else (Some ErrForbidden, st)
  end.

(** ** Token identities *)

Definition TokenProvider := "apikey".
Definition TokenScopesClaim := "kutu_token_scopes".

Definition flatOps (scopes : list TokenScope) : list string :=
  dedup (scopes ≫= Operations).

Definition tokenIdentity (auth : TokenAuth) : Identity := {|
  Subject := aName auth; Provider := TokenProvider; Roles := [];
  Scopes := Path <$> aScopes auth;
  Claims := [("token_id", CString (aID auth)); ("operations", CStrings (flatOps (aScopes auth)));
             (TokenScopesClaim, CScopes (aScopes auth))];
|}.

Definition TokenScopesFromIdentity (id : Identity) : list TokenScope :=
  if negb (String.eqb (Provider id) TokenProvider) then []
  else match assoc TokenScopesClaim (Claims id) with
       | Some (CScopes scopes) => scopes
       | _ => []
       end.

Definition ValidateTokenIdentity (rawKey : string) (now : Z) (st : TokenState)
    : result ServiceError Identity * TokenState :=
  match AuthenticateToken rawKey now st with
  | (Err e, st) => (Err e, st)
  | (Ok auth, st) => (Ok (tokenIdentity auth), st)
  end.

Definition TokenIdentityByID (id : string) (now : Z) (st : TokenState)
    : result ServiceError Identity :=
  match TokenStore.Get id (tokens st) with
  | Err _ => Err ErrUnauthorized
  | Ok token =>
      match usable now token with
      | Err e => Err e
      | Ok token => Ok (tokenIdentity (auth_of token))
      end
  end.

(** [FlushTokenUsage]: the batch is written in the order of the map. *)
Definition FlushTokenUsage (st : TokenState) : TokenState :=
  let '(batch, u) := take_pending (usage st) in
  {| tokens := foldl (fun m '(id, at_) => TokenStore.TouchLastUsed id at_ m)
                     (tokens st) (map_to_list batch);
     usage := u |}.

(** [ListTokens] shows the merged last use of a row. *)
Definition listed_last_use (id : string) (st : TokenState) : option (option Z) :=
  (fun t => tokenLastUsed id (tLastUsedAt t) (usage st)) <$> (tokens st !! id).

(** ** What scope patterns mean *)

(** Segment by segment: a literal matches itself, "*" any one segment, "**"
    any number of them. *)
Inductive scope_match : list string -> list string -> Prop :=
| sm_nil : scope_match [] []
| sm_literal p rest path :
    p <> "*" -> p <> "**" -> scope_match rest path -> scope_match (p :: rest) (p :: path)
| sm_star seg rest path :
    scope_match rest path -> scope_match ("*" :: rest) (seg :: path)
| sm_globstar pre rest post :
    scope_match rest post -> scope_match ("**" :: rest) (pre ++ post).

Lemma scope_match_nil pattern : scope_match pattern [] <-> Forall (fun p => p = "**") pattern.
Proof.
  split.
  - induction pattern as [|p rest IH]; intros H; [constructor|].
    inversion H as [| | |pre ? post ? Hp Heq]; subst.
    apply app_nil in Heq as [-> ->]. constructor; [done|auto].
  - induction 1 as [|p rest -> _ IH]; [constructor|]. by apply (sm_globstar []).
Qed.

Lemma all_globstar pattern :
  forallb (fun p => String.eqb p "**") pattern = true <-> Forall (fun p => p = "**") pattern.
Proof.
  rewrite forallb_forall, Forall_forall. setoid_rewrite list_elem_of_In.
  by setoid_rewrite String.eqb_eq.
Qed.

Lemma scope_match_globstar rest path :
  scope_match ("**" :: rest) path <->
  exists i, (i <= length path)%nat /\ scope_match rest (drop i path).
Proof.
  split.
  - intros H. inversion H as [|? ? ? ? Hno| |pre ? post Hpost]; subst; [done|].
    exists (length pre). rewrite drop_app_length, length_app. split; [lia|done].
  - intros (i & _ & H). rewrite <-(take_drop i path). by constructor.
Qed.

Lemma matchPathParts_match pattern path :
  matchPathParts pattern path = true <-> scope_match pattern path.
Proof.
  revert path. induction pattern as [|p rest IH]; intros path.
  { destruct path; cbn; split; try done; [constructor|]. by inversion 1. }
  destruct path as [|seg path].
  { cbn [matchPathParts]. by rewrite all_globstar, scope_match_nil. }
  cbn [matchPathParts]. destruct (String.eqb_spec p "**") as [->|Hgs].
  { rewrite scope_match_globstar. destruct rest as [|q rest].
    - split; [|done]. intros _. exists (length (seg :: path)). rewrite drop_all. split; [done|constructor].
    - cbn [isNil]. rewrite existsb_elem. setoid_rewrite elem_of_seq.
      split; intros (i & Hi & H); exists i; (split; [lia|by apply IH]). }
  destruct (String.eqb_spec p "*") as [->|Hst].
  { rewrite IH. split; [by constructor|]. inversion 1; subst; done. }
  destruct (String.eqb_spec p seg) as [->|Hne]; cbn [negb].
  - rewrite IH. split; [by constructor|]. inversion 1; subst; done.
  - split; [done|]. inversion 1; subst; done.
Qed.

(** ** Lemmas: the table *)

Record tokens_wf (m : gmap string Token) : Prop := {
  wf_tID : forall i t, m !! i = Some t -> tID t = i;
  wf_tHash : forall i j t u, m !! i = Some t -> m !! j = Some u ->
    tHashedKey t = tHashedKey u -> i = j;
}.

Lemma FindByHash_Ok h m t : TokenStore.FindByHash h m = Ok t ->
  exists i, m !! i = Some t /\ tHashedKey t = h.
Proof.
  unfold TokenStore.FindByHash. destruct (list_find _ _) as [[i u]|] eqn:E; [|done].
  intros [= <-]. apply list_find_Some in E as (Hl & Hh & _). bool_prop.
  apply list_elem_of_lookup_2, list_elem_of_fmap in Hl as ([j v] & -> & Hv).
  apply elem_of_map_to_list in Hv. eauto.
Qed.

Lemma FindByHash_Err h m e : TokenStore.FindByHash h m = Err e ->
  forall i t, m !! i = Some t -> tHashedKey t <> h.
Proof.
  unfold TokenStore.FindByHash. destruct (list_find _ _) as [[i u]|] eqn:E; [done|].
  intros _ i t Ht. apply list_find_None in E. rewrite Forall_forall in E.
  intros Hh. apply (E t).
  - apply list_elem_of_fmap. exists (i, t). by rewrite elem_of_map_to_list.
  - by rewrite Hh, String.eqb_refl.
Qed.

(** With unique hashes, the row of a hash is found. *)
Lemma FindByHash_wf m i t : tokens_wf m -> m !! i = Some t ->
  TokenStore.FindByHash (tHashedKey t) m = Ok t.
Proof.
  intros Hwf Ht. destruct (TokenStore.FindByHash _ m) as [u|e] eqn:E.
  - apply FindByHash_Ok in E as (j & Hu & Hh).
    rewrite (wf_tHash m Hwf j i u t) in Hu by done. congruence.
  - by destruct (FindByHash_Err _ _ _ E i t Ht).
Qed.

Lemma insert_tokens_wf m i t : tokens_wf m -> tID t = i ->
  (forall j u, m !! j = Some u -> tHashedKey u = tHashedKey t -> j = i) ->
  tokens_wf (<[i := t]> m).
Proof.
  intros [H1 H2] Hi Hh. split.
  - intros j u. rewrite lookup_insert_Some. naive_solver.
  - intros j k u v. rewrite !lookup_insert_Some.
    intros [[<- <-]|[? ?]] [[<- <-]|[? ?]] ?; naive_solver.
Qed.

Lemma Create_tokens_wf t m m' : tokens_wf m -> TokenStore.Create t m = Ok m' ->
  tokens_wf m' /\ m' = <[tID t := t]> m.
Proof.
  intros Hwf. unfold TokenStore.Create. case_if as E; [done|]. intros [= <-].
  split; [|done]. bool_prop. apply insert_tokens_wf; [done|done|].
  intros j u Hj Hh. destruct (TokenStore.FindByHash (tHashedKey t) m) eqn:Ef; [done|].
  by destruct (FindByHash_Err _ _ _ Ef j u Hj).
Qed.

Lemma Delete_tokens_wf id m m' : tokens_wf m -> TokenStore.Delete id m = Ok m' ->
  tokens_wf m' /\ m' = delete id m.
Proof.
  intros [H1 H2]. unfold TokenStore.Delete. destruct (m !! id); [|done]. intros [= <-].
  split; [|done]. split.
  - intros i u. rewrite lookup_delete_Some. naive_solver.
  - intros i j u v. rewrite !lookup_delete_Some. naive_solver.
Qed.

(** What an update leaves of a row: its id and hash. *)
Lemma Update_tokens_wf t m m' : tokens_wf m -> TokenStore.Update t m = Ok m' ->
  tokens_wf m' /\ exists old new, m !! tID t = Some old /\ m' = <[tID t := new]> m /\
    tHashedKey new = tHashedKey old /\ tActive new = tActive t /\ tExpiresAt new = tExpiresAt t /\
    tScopes new = tScopes t.
Proof.
  intros Hwf. unfold TokenStore.Update. destruct (m !! tID t) as [old|] eqn:E; [|done].
  intros [= <-]. split; [|eauto 10]. apply insert_tokens_wf; [done|done|].
  intros j u Hj Hh. by eapply (wf_tHash m Hwf).
Qed.

(** The effect of a flush on one row. *)
Definition touch_opt (pend : option Z) (t : Token) : Token :=
  match pend with
  | None => t
  | Some at_ => match tLastUsedAt t with
                | None => touch at_ t
                | Some last => if last <? at_ then touch at_ t else t
                end
  end.

Lemma touch_same t at_ : tID (touch_opt at_ t) = tID t /\ tHashedKey (touch_opt at_ t) = tHashedKey t.
Proof. unfold touch_opt. by repeat (case_match; try done). Qed.

Lemma flush_fold batch m id : NoDup (batch.*1) ->
  foldl (fun m '(id, at_) => TokenStore.TouchLastUsed id at_ m) m batch !! id =
  touch_opt ((list_to_map batch : gmap string Z) !! id) <$> (m !! id).
Proof.
  revert m. induction batch as [|[k at_] batch IH]; intros m Hnd; cbn [foldl].
  - simpl. rewrite lookup_empty. by destruct (m !! id).
  - apply NoDup_cons in Hnd as [Hk Hnd]. rewrite IH by done. clear IH.
    unfold TokenStore.TouchLastUsed. cbn [list_to_map fst snd]. rewrite list_to_map_cons.
    destruct (decide (k = id)) as [->|Hne].
    + rewrite lookup_insert_eq, lookup_alter_eq, <-option_fmap_compose.
      rewrite (not_elem_of_list_to_map_1 batch id) by done. by destruct (m !! id).
    + by rewrite lookup_insert_ne, lookup_alter_ne by done.
Qed.

Lemma Flush_lookup st id : tokens (FlushTokenUsage st) !! id =
  touch_opt (pending (usage st) !! id) <$> (tokens st !! id).
Proof.
  unfold FlushTokenUsage. simpl. rewrite flush_fold by apply NoDup_fst_map_to_list.
  by rewrite list_to_map_to_list.
Qed.

Lemma Flush_wf st : tokens_wf (tokens st) -> tokens_wf (tokens (FlushTokenUsage st)).
Proof.
  intros [H1 H2]. split.
  - intros i t. rewrite Flush_lookup, fmap_Some. intros (u & Hu & ->).
    destruct (touch_same u (pending (usage st) !! i)) as [-> _]. eauto.
  - intros i j t u. rewrite !Flush_lookup, !fmap_Some.
    intros (t' & Ht & ->) (u' & Hu & ->).
    destruct (touch_same t' (pending (usage st) !! i)) as [_ ->].
    destruct (touch_same u' (pending (usage st) !! j)) as [_ ->]. eauto.
Qed.

(** Every pending use is also the last one seen. *)
Definition usage_wf (u : tokenUsage) : Prop :=
  forall id at_, pending u !! id = Some at_ -> seen u !! id = Some at_.

Lemma usable_Ok now t t' : usable now t = Ok t' <->
  t' = t /\ tActive t = true /\ (forall e, tExpiresAt t = Some e -> now <= e).
Proof.
  unfold usable. destruct (tActive t); simpl; [|split; [done|by intros (_ & ? & _)]].
  destruct (tExpiresAt t) as [e|].
  - destruct (Z.ltb_spec e now) as [Hlt|Hge]; split; try done.
    + intros (_ & _ & He). specialize (He e eq_refl). lia.
    + intros [= <-]. split_and!; [done|done|by intros ? [= <-]].
    + by intros (-> & _).
  - split; [intros [= <-]|intros (-> & _)]; done.
Qed.

Lemma usable_inactive now t : tActive t = false -> usable now t = Err ErrForbidden.
Proof. unfold usable. by intros ->. Qed.

Lemma AuthenticateToken_state raw now st : tokens (snd (AuthenticateToken raw now st)) = tokens st.
Proof. unfold AuthenticateToken. by repeat (case_match; simpl; try done). Qed.

Lemma Authenticate_row raw now m u i t (st := {| tokens := m; usage := u |}) :
  tokens_wf m -> m !! i = Some t -> tHashedKey t = hashKey raw ->
  fst (AuthenticateToken raw now st) = rbind (usable now t) (fun t => Ok (auth_of t)) /\
  TokenIdentityByID i now st = rbind (usable now t) (fun t => Ok (tokenIdentity (auth_of t))).
Proof.
  intros Hwf Ht Hh. unfold AuthenticateToken, TokenIdentityByID, TokenStore.Get, st.
  cbn [tokens]. rewrite <-Hh, (FindByHash_wf _ i), Ht by done. by destruct (usable now t).
Qed.

Lemma record_use_wf id now u : usage_wf u -> usage_wf (record_use id now u).
Proof. intros H i a. simpl. rewrite !lookup_insert_Some. naive_solver. Qed.

Lemma no_pending_wf s : usage_wf {| pending := ∅; seen := s |}.
Proof. intros i a. cbn [pending]. by rewrite lookup_empty. Qed.

Lemma forget_wf id u : usage_wf u -> usage_wf (forget id u).
Proof. intros H i a. simpl. rewrite !lookup_delete_Some. naive_solver. Qed.

(** ** Properties *)

(** the matcher of scope paths decides the meaning of the patterns:
    segment by segment, "*" one segment, "**" any number of segments. *)
Theorem matchPathParts_spec pattern path :
  matchPathParts pattern path = true <-> scope_match pattern path.
Proof. apply matchPathParts_match. Qed.

(** a raw key authenticates exactly as the active, unexpired token whose
    stored hash is the hash of the key; and a token that has just been created
    authenticates by the key that was handed out, with the scopes that were
    asked for, until it expires. *)
Theorem AuthenticateToken_spec raw now st :
  tokens_wf (tokens st) ->
  (forall a, fst (AuthenticateToken raw now st) = Ok a <->
     exists i t, tokens st !! i = Some t /\ tHashedKey t = hashKey raw /\
       tActive t = true /\ (forall e, tExpiresAt t = Some e -> now <= e) /\ a = auth_of t) /\
  (forall id key created user req token st',
     CreateToken id key created user req st = Ok (token, raw, st') ->
     (forall e, ctExpiresAt req = Some e -> now <= e) ->
     fst (AuthenticateToken raw now st') =
       Ok {| aID := id; aName := ctName req; aScopes := ctScopes req |}).
Proof.
  intros Hwf. split.
  - intros a. unfold AuthenticateToken.
    destruct (TokenStore.FindByHash _ _) as [t|e] eqn:E.
    + apply FindByHash_Ok in E as (i & Ht & Hh).
      destruct (usable now t) as [t'|e] eqn:Eu; simpl.
      * apply usable_Ok in Eu as (-> & Ha & He). split.
        -- intros [= <-]. eauto 8.
        -- intros (j & u & Hu & Hhu & _ & _ & ->).
           rewrite (wf_tHash _ Hwf j i u t) in Hu by congruence. congruence.
      * split; [done|]. intros (j & u & Hu & Hhu & Ha & He & _).
        rewrite (wf_tHash _ Hwf j i u t) in Hu by congruence.
        assert (u = t) as -> by congruence. assert (usable now t = Ok t); [|congruence]. by apply usable_Ok.
    + simpl. split; [done|]. intros (i & t & Ht & Hh & _). by destruct (FindByHash_Err _ _ _ E i t).
  - intros id key created user req token st'. unfold CreateToken.
    destruct (String.eqb (ctName req) ""), (isNil (ctScopes req)); try done.
    destruct (validateTokenScopes (ctScopes req)); [done|].
    destruct (TokenStore.Create _ _) as [m|] eqn:Ec; [|done]. intros [= <- Hraw <-] He.
    apply Create_tokens_wf in Ec as [Hwf' ->]; [|done].
    destruct (Authenticate_row raw now _ (usage st) _ _ Hwf' (lookup_insert_eq _ _ _)) as [Ha _];
      [cbn [tHashedKey]; by rewrite <-Hraw|].
    rewrite Ha. match goal with |- context [usable now ?t] =>
      rewrite (proj2 (usable_Ok now t t)) by done end. done.
Qed.

Definition empty_state : TokenState :=
  {| tokens := ∅; usage := {| pending := ∅; seen := ∅ |} |}.

Definition sample_request : CreateTokenRequest :=
  {| ctName := "ci"; ctScopes := [{| Path := "registry/**"; Operations := ["read"] |}];
     ctExpiresAt := Some 100 |}.

Lemma empty_tokens_wf : tokens_wf ∅.
Proof. split; [by intros i t|by intros i j t u]. Qed.

Lemma AuthenticateToken_spec_witness :
  exists token st', CreateToken "t1" "00ff" 0 "ann" sample_request empty_state
    = Ok (token, "kutu_00ff", st') /\
  fst (AuthenticateToken "kutu_00ff" 100 st') =
    Ok {| aID := "t1"; aName := "ci"; aScopes := ctScopes sample_request |}.
Proof.
  eexists _, _. split; [vm_compute; reflexivity|].
  apply (proj2 (AuthenticateToken_spec "kutu_00ff" 100 empty_state empty_tokens_wf)
           "t1" "00ff" 0 "ann" sample_request _ _ eq_refl).
  intros e [= <-]. done.
Defined.

(** disabling a token refuses its raw key and everything derived from its
    id, and deleting it makes them unknown, whenever they are tried. *)
Theorem token_revocation raw id t st :
  tokens_wf (tokens st) -> tokens st !! id = Some t -> tHashedKey t = hashKey raw ->
  (forall req st', ptActive req = Some false -> PatchToken id req st = Ok st' ->
     forall now, fst (AuthenticateToken raw now st') = Err ErrForbidden /\
                 TokenIdentityByID id now st' = Err ErrForbidden) /\
  (exists st', DeleteToken id st = Ok st' /\
     forall now, fst (AuthenticateToken raw now st') = Err ErrUnauthorized /\
                 TokenIdentityByID id now st' = Err ErrUnauthorized /\
                 lastSeen id (usage st') = None).
Proof.
  intros Hwf Ht Hh. pose proof (wf_tID _ Hwf id t Ht) as Hid. split.
  - intros req st' Hoff. unfold PatchToken, TokenStore.Get. rewrite Ht.
    destruct (default None _); [done|].
    destruct (TokenStore.Update _ _) as [m|] eqn:Eu; [|done]. intros [= <-] now.
    apply Update_tokens_wf in Eu as (Hwf' & old & new & Hold & -> & Hnh & Hna & _); [|done].
    cbn [tID tActive] in *. rewrite Hoff in Hna. rewrite Hid in *. simplify_eq.
    destruct (Authenticate_row raw now _ (usage st) _ _ Hwf' (lookup_insert_eq _ _ _)) as [Ha Hb];
      [congruence|].
    rewrite Ha, Hb, usable_inactive by done. done.
  - unfold DeleteToken. destruct (TokenStore.Delete id (tokens st)) as [m|] eqn:Ed.
    2:{ unfold TokenStore.Delete in Ed. by rewrite Ht in Ed. }
    eexists. split; [reflexivity|]. intros now.
    apply Delete_tokens_wf in Ed as [_ ->]; [|done].
    unfold AuthenticateToken, TokenIdentityByID, TokenStore.Get, lastSeen. cbn [tokens usage].
    rewrite lookup_delete_eq. split_and!; [|done|by apply lookup_delete_eq].
    destruct (TokenStore.FindByHash _ _) as [u|] eqn:E; [|done].
    apply FindByHash_Ok in E as (j & Hu & Hhu). apply lookup_delete_Some in Hu as [Hne Hu].
    destruct Hne. apply (wf_tHash _ Hwf id j t u); [done|done|congruence].
Qed.

Definition sample_token : Token :=
  {| tID := "t1"; tName := "ci"; tHashedKey := hashKey "kutu_00ff"; tScopes := [];
     tCreatedAt := 0; tCreatedBy := ""; tExpiresAt := None; tActive := true;
     tLastUsedAt := None |}.

Lemma sample_tokens_wf : tokens_wf {[ "t1" := sample_token ]}.
Proof.
  apply insert_tokens_wf; [apply empty_tokens_wf|reflexivity|].
  intros j u Hj. destruct (lookup_empty_Some _ _ Hj).
Qed.

Lemma token_revocation_witness :
  let st := {| tokens := {[ "t1" := sample_token ]}; usage := usage empty_state |} in
  fst (AuthenticateToken "kutu_00ff" 0 st) = Ok (auth_of sample_token) /\
  exists st', DeleteToken "t1" st = Ok st' /\
    fst (AuthenticateToken "kutu_00ff" 0 st') = Err ErrUnauthorized.
Proof.
  intros st. split; [by vm_compute|].
  destruct (token_revocation "kutu_00ff" "t1" sample_token st sample_tokens_wf
    (lookup_insert_eq _ _ _) eq_refl) as [_ (st' & Hd & Hr)].
  exists st'. split; [exact Hd|apply Hr].
Defined.

(** flushing the recorded uses persists, for every token that still
    exists, the later of the stored and the recorded use; it creates no row,
    and the listed last use of every token is the same before and after. *)
Theorem FlushTokenUsage_spec st id :
  usage_wf (usage st) ->
  pending (usage (FlushTokenUsage st)) = ∅ /\
  (is_Some (tokens (FlushTokenUsage st) !! id) <-> is_Some (tokens st !! id)) /\
  (forall t t', tokens st !! id = Some t -> tokens (FlushTokenUsage st) !! id = Some t' ->
     tLastUsedAt t' = match pending (usage st) !! id with
                      | None => tLastUsedAt t
                      | Some at_ => Some (match tLastUsedAt t with
                                          | None => at_
                                          | Some last => Z.max last at_
                                          end)
                      end) /\
  listed_last_use id (FlushTokenUsage st) = listed_last_use id st.
Proof.
  intros Hwf. assert (Hlast : forall t pend,
    tLastUsedAt (touch_opt pend t) = match pend with
      | None => tLastUsedAt t
      | Some at_ => Some (match tLastUsedAt t with None => at_ | Some last => Z.max last at_ end)
      end).
  { intros t [at_|]; [|done]. simpl. destruct (tLastUsedAt t) as [last|] eqn:El; [|done].
    destruct (Z.ltb_spec last at_); simpl; rewrite ?El; f_equal; lia. }
  split; [done|]. rewrite Flush_lookup. split; [by rewrite fmap_is_Some|]. split.
  - intros t t' ->. intros [= <-]. apply Hlast.
  - unfold listed_last_use. rewrite Flush_lookup. destruct (tokens st !! id) as [t|]; [|done].
    simpl. f_equal. rewrite Hlast. unfold tokenLastUsed, lastSeen. cbn [usage FlushTokenUsage seen].
    simpl. specialize (Hwf id). destruct (pending (usage st) !! id) as [at_|]; [|done].
    rewrite (Hwf _ eq_refl). destruct (tLastUsedAt t) as [last|].
    + destruct (Z.ltb_spec (Z.max last at_) at_), (Z.ltb_spec last at_); f_equal; lia.
    + by rewrite Z.ltb_irrefl.
Qed.

Lemma FlushTokenUsage_spec_witness :
  let st := {| tokens := {[ "t1" := sample_token ]};
               usage := record_use "t1" (5 * second + 1) (usage empty_state) |} in
  usage_wf (usage st) /\ listed_last_use "t1" (FlushTokenUsage st) = listed_last_use "t1" st /\
  listed_last_use "t1" st = Some (Some (5 * second)).
Proof.
  intros st. assert (H : usage_wf (usage st)) by apply record_use_wf, no_pending_wf.
  split; [exact H|]. split; [apply (FlushTokenUsage_spec st "t1" H)|by vm_compute].
Defined.

(** every operation of the service on tokens keeps ids and hashes unique
    and every pending use equal to the last one seen. *)
Theorem token_ops_wf st st' :
  tokens_wf (tokens st) -> usage_wf (usage st) ->
  (exists id key now user req token raw, CreateToken id key now user req st = Ok (token, raw, st')) \/
  (exists id req, PatchToken id req st = Ok st') \/
  (exists id, DeleteToken id st = Ok st') \/
  (exists raw now, st' = snd (AuthenticateToken raw now st)) \/
  st' = FlushTokenUsage st ->
  tokens_wf (tokens st') /\ usage_wf (usage st').
Proof.
  intros Hwf Hu
    [(id & key & now & user & req & token & raw & H)|[(id & req & H)|[(id & H)|[(raw & now & ->)| ->]]]].
  - unfold CreateToken in H.
    destruct (String.eqb (ctName req) ""), (isNil (ctScopes req)); try done.
    destruct (validateTokenScopes _); [done|].
    destruct (TokenStore.Create _ _) eqn:E; [|done]. injection H as <- <- <-.
    split; [|done]. by apply Create_tokens_wf in E as [? _].
  - unfold PatchToken in H. destruct (TokenStore.Get _ _); [|done]. destruct (default None _); [done|].
    destruct (TokenStore.Update _ _) eqn:E; [|done]. injection H as <-.
    split; [|done]. by apply Update_tokens_wf in E as [? _].
  - unfold DeleteToken in H. destruct (TokenStore.Delete _ _) eqn:E; [|done]. injection H as <-.
    split; [by apply Delete_tokens_wf in E as [? _]|by apply forget_wf].
  - rewrite AuthenticateToken_state. split; [done|]. unfold AuthenticateToken.
    destruct (TokenStore.FindByHash _ _); [|done]. destruct (usable _ _); [|done].
    by apply record_use_wf.
  - split; [by apply Flush_wf|apply no_pending_wf].
Qed.

Lemma token_ops_wf_witness :
  exists token raw st', CreateToken "t1" "00ff" 0 "ann" sample_request empty_state
    = Ok (token, raw, st') /\ tokens_wf (tokens st') /\ usage_wf (usage st').
Proof.
  eexists _, _, _. split; [vm_compute; reflexivity|].
  apply (token_ops_wf empty_state); [apply empty_tokens_wf|apply no_pending_wf|].
  left. exists "t1", "00ff", 0, "ann", sample_request. eexists _, _. reflexivity.
Defined.
