(* ===== verification/AuthX.v ===== *)
(** * internal/server/authx: caps.go, caps_token.go, principal.go

    What a caller may do.  [resolveDetailed] turns an identity into a report
    of capability keys and path patterns: API tokens by their own scopes
    ([tokenReport]), people by the superadmin allowlist, the superadmin column,
    or the union of the bundles assigned to them and mapped from their roles
    and scopes, less the capabilities denied to them.  [Principal] is the
    caller of a data-plane request; [basicCache] remembers verified passwords
    for two minutes.  Go ranges over the operations of an area in any order:
    here in the order they are written.  The theorems: what a resolved caller
    holds, that a deny removes a capability from everybody but the allowlist,
    that tokens never reach a capability outside the data plane, and that the
    projection of a token's scopes onto patterns agrees with the token matcher
    on every scope but those that start with "**/". *)

From Stdlib Require Import ZArith Lia Ascii.
From stdpp Require Import base list strings gmap.
From S2P Require Import Prelude GoStrings GoHash Identity Capabilities Token.

Local Open Scope Z_scope.

(** ** Reports *)

Record CapSource := {
  csCapability : string; csKind : string; csBundle : string; csRole : string; csScope : string;
}.

Record EffectiveReport := {
  Username : string;
  UserID : string;
  Superadmin : bool;
  SuperadminReason : string;
  repRoles : list string;
  repScopes : list string;
  repCapabilities : list string;
  Patterns : gmap string (list string);
  Sources : list CapSource;
  Denied : list string;
}.

Record CapabilityMapping := {
  Superadmins : list string;
  RoleMapping : gmap string (list string);
  ScopeMapping : gmap string (list string);
}.

Record CapResolver := {
  svc : option Tables;
  settings : CapabilityMapping;
  rolePaths : gmap string (list string);
}.

Definition UserIDClaim := "kutu_user_id".

(** ** API tokens (caps_token.go) *)

Record tokenScopeArea := { prefix : string; ops : list (string * string) }.

Definition tokenScopeAreas : list tokenScopeArea := [
  {| prefix := "raw";
     ops := [("read", CapRawRead); ("write", CapRawWrite); ("delete", CapRawWrite)] |};
  {| prefix := "registry";
     ops := [("read", CapRegistryRead); ("write", CapRegistryWrite);
             ("delete", CapRegistryDelete)] |}
].

Definition isMeta (r : Z) : bool :=
  existsb (fun c => ord c =? r) ["*"; "?"; "["; "]"; "{"; "}"; chr 92]%char.

Definition hasMeta (s : string) : bool := str_existsb (fun c => isMeta (ord c)) s.

Definition escapeGlobMeta (segment : string) : string :=
  if negb (hasMeta segment) then segment
  else foldr (fun r acc => (if isMeta r then String (chr 92) "" else "") +:+ EncodeRune r +:+ acc) ""
         (runes segment).

Definition normalizeSegment (segment : string) : string :=
  if String.eqb segment "*" || String.eqb segment "**" then segment else escapeGlobMeta segment.

Definition normalizeScopePath (path : string) : string :=
  Join (normalizeSegment <$> Split path "/") "/".

(** [None]: the path does not reach the area; [Some ""]: unrestricted. *)
Definition scopePatternFor (path prefix : string) : option string :=
  if String.eqb path "**" || String.eqb path "*" then Some ""
  else
    let '(head, rest, _) := Cut path "/" in
    if String.eqb head "**" then Some ""
    else if negb (String.eqb head "*" || String.eqb head prefix) then None
    else if String.eqb rest "" then None
    else if String.eqb rest "**" then Some ""
    else Some (normalizeScopePath rest).

Definition scopeHasAnyOp (scope : TokenScope) (want : list string) : bool :=
  existsb (fun have => String.eqb have "*" || existsb (fun w => String.eqb have w) want)
          (Operations scope).

Record grants := {
  gCapabilities : list string;
  gSources : list CapSource;
  gUnrestricted : gset string;
  gPatterns : gmap string (list string);
}.

Definition grant (g : grants) (cp : string * string) : grants :=
  let '(capKey, pattern) := cp in
  let held := Has (gCapabilities g) capKey in
  let caps := if held then gCapabilities g else gCapabilities g ++ [capKey] in
  let srcs := if held then gSources g
              else gSources g ++ [{| csCapability := capKey; csKind := "token_scope";
                                     csBundle := ""; csRole := ""; csScope := "" |}] in
  if String.eqb pattern "" then
    {| gCapabilities := caps; gSources := srcs;
       gUnrestricted := {[capKey]} ∪ gUnrestricted g; gPatterns := gPatterns g |}
  else if Has (get_slice (gPatterns g) capKey) pattern then
    {| gCapabilities := caps; gSources := srcs;
       gUnrestricted := gUnrestricted g; gPatterns := gPatterns g |}
  else
    {| gCapabilities := caps; gSources := srcs; gUnrestricted := gUnrestricted g;
       gPatterns := <[capKey := get_slice (gPatterns g) capKey ++ [pattern]]> (gPatterns g) |}.

(** The calls of [grant] for one scope, in order. *)
Definition scopeGrants (sc : TokenScope) : list (string * string) :=
  let path := Trim (Path sc) "/" in
  tokenScopeAreas ≫= fun area =>
    match scopePatternFor path (prefix area) with
    | None => []
    | Some pattern =>
        ops area ≫= fun '(op, capKey) =>
          if scopeHasAnyOp sc [op] then [(capKey, pattern)] else []
    end.

Definition tokenGrants (scopes : list TokenScope) : grants :=
  foldl grant {| gCapabilities := []; gSources := []; gUnrestricted := ∅; gPatterns := ∅ |}
        (scopes ≫= scopeGrants).

Definition tokenReport (id : Identity) : EffectiveReport :=
  let g := tokenGrants (TokenScopesFromIdentity id) in
  {| Username := Subject id; UserID := ""; Superadmin := false; SuperadminReason := "";
     repRoles := []; repScopes := Scopes id; repCapabilities := gCapabilities g;
     Patterns := filter (fun '(k, _) => k ∉ gUnrestricted g) (gPatterns g);
     Sources := gSources g; Denied := [] |}.

(** ** People (caps.go) *)

Definition superadminSources (keys : list string) : list CapSource :=
  (fun k => {| csCapability := k; csKind := "superadmin"; csBundle := ""; csRole := "";
               csScope := "" |}) <$> keys.

Definition subtractDenied (keys : list string) (patterns : gmap string (list string))
    (denied : list string) : list string * gmap string (list string) :=
  if isNil denied then (keys, patterns)
  else
    let deny : gset string := list_to_set denied in
    (filter (fun k => k ∉ deny) keys, filter (fun '(k, _) => k ∉ deny) patterns).

Definition effectiveRoles (r : CapResolver) (id : Identity) : list string :=
  let paths := get_slice (rolePaths r) (Provider id) in
  if isNil paths then Roles id
  else
    let harvested := HarvestRoles (Claims id) paths in
    if isNil harvested then Roles id
    else if isNil (Roles id) then harvested
    else snd (addRoles (addRoles ((∅ : gset string), []) (Roles id)) harvested).

Definition mappedPermissionKeys (r : CapResolver) (roles scopes : list string) : list string :=
  let collect := addRoles in
  snd (foldl collect
    (foldl collect ((∅ : gset string), [])
           ((fun role => get_slice (RoleMapping (settings r)) role) <$> roles))
    ((fun sc => get_slice (ScopeMapping (settings r)) sc) <$> scopes)).

(** [byKey] keeps the last bundle of a key. *)
Definition bundle_by_key (mb : list Permission) (k : string) : option Permission :=
  list_to_map (M := gmap string Permission) (reverse ((fun p => (pKey p, p)) <$> mb)) !! k.

Definition mappedSources (kind : string) (mapping : gmap string (list string))
    (mb : list Permission) (names : list string) : list CapSource :=
  names ≫= fun n => get_slice mapping n ≫= fun bk =>
    match bundle_by_key mb bk with
    | None => []
    | Some p => (fun k => {| csCapability := k; csKind := kind; csBundle := pKey p;
                             csRole := if String.eqb kind "role" then n else "";
                             csScope := if String.eqb kind "scope" then n else "" |}) <$> pKeys p
    end.

Definition claimString (id : Identity) (k : string) : string :=
  match assoc k (Claims id) with Some (CString s) => s | _ => "" end.

(** [GetUserByID] of the service, on the tables. *)
Definition lookupUser (r : CapResolver) (userID : string) : option User :=
  match svc r with
  | Some t => if String.eqb userID "" then None
              else match UserStore.Get userID t with Ok u => Some u | Err _ => None end
  | None => None
  end.

(** The bundles assigned to the user, and those its roles and scopes map to. *)
Definition assignedBundles (r : CapResolver) (user : option User) : list Permission :=
  match svc r, user with
  | Some t, Some u => PermissionStore.GetUserPermissions (uID u) t
  | _, _ => []
  end.

Definition mappedBundles (r : CapResolver) (roles scopes : list string) : list Permission :=
  match svc r with
  | Some t => if isNil roles && isNil scopes then []
              else PermissionsByKeys (mappedPermissionKeys r roles scopes) t
  | None => []
  end.

Definition resolveDetailed (r : CapResolver) (id : Identity) : EffectiveReport :=
  if String.eqb (Provider id) TokenProvider then tokenReport id
  else
    let userID := claimString id UserIDClaim in
    let user := lookupUser r userID in
    let username := match user with Some u => uUsername u | None => Subject id end in
    let denied := match user with Some u => uDenied u | None => [] end in
    let roles := effectiveRoles r id in
    let report superadmin reason caps patterns sources :=
      {| Username := username; UserID := userID; Superadmin := superadmin;
         SuperadminReason := reason; repRoles := roles; repScopes := Scopes id;
         repCapabilities := caps; Patterns := patterns; Sources := sources;
         Denied := denied |} in
    if existsb (fun admin => String.eqb admin (Subject id)) (Superadmins (settings r)) then
      report true "allowlist" KnownCapabilityKeys ∅ (superadminSources KnownCapabilityKeys)
    else if match user with Some u => uIsSuperadmin u | None => false end then
      report true "column" (fst (subtractDenied KnownCapabilityKeys ∅ denied)) ∅
             (superadminSources KnownCapabilityKeys)
    else
      let dbB := assignedBundles r user in
      let mb := mappedBundles r roles (Scopes id) in
      let sources :=
        (dbB ≫= fun p => (fun k => {| csCapability := k; csKind := "db_bundle";
             csBundle := pKey p; csRole := ""; csScope := "" |}) <$> pKeys p) ++
        mappedSources "role" (RoleMapping (settings r)) mb roles ++
        mappedSources "scope" (ScopeMapping (settings r)) mb (Scopes id) in
      let '(keys, patterns) := CapabilitiesFromBundles (dbB ++ mb) in
      let '(keys, patterns) := subtractDenied keys patterns denied in
      report false "" keys patterns sources.

(** ** Principals (principal.go) *)

Record Principal := {
  Kind : string;
  ID : string;
  prUsername : string;
  Caps : list string;
  prPatterns : gmap string (list string);
}.

Section principal.
(** doublestar.Match *)
Variable Match : string -> string -> option bool.

(** [nil] principals allow nothing. *)
Definition PrincipalAllows (p : option Principal) (capKey path : string) : bool :=
  match p with
  | None => false
  | Some p => Has (Caps p) capKey && Allows Match (prPatterns p) capKey path
  end.
End principal.

Definition ResolveIdentity (resolver : option CapResolver) (oid : option Identity)
    : option Principal :=
  match resolver, oid with
  | Some r, Some id =>
      let rep := resolveDetailed r id in
      let isToken := String.eqb (Provider id) TokenProvider in
      Some {| Kind := if isToken then "token" else "user";
              ID := if isToken then claimString id "token_id" else UserID rep;
              prUsername := Username rep; Caps := repCapabilities rep;
              prPatterns := Patterns rep |}
  | _, _ => None
  end.

Definition PrincipalForUser (resolver : option CapResolver) (t : Tables) (userID : string)
    : option Principal :=
  match UserStore.Get userID t with
  | Err _ => None
  | Ok user =>
      if uDisabled user then None
      else ResolveIdentity resolver
        (Some {| Subject := uUsername user; Provider := "local"; Roles := []; Scopes := [];
                 Claims := [(UserIDClaim, CString (uID user))] |})
  end.

(** *** The cache of verified passwords *)

Definition basicCacheTTL : Z := 120 * second.

Record basicCacheEntry := { bUserID : string; bExpires : Z }.

Definition basicCacheKey (username password : string) : string :=
  hexSHA256 (username +:+ String zero password).

Definition basic_get (key : string) (now : Z) (c : gmap string basicCacheEntry)
    : option string * gmap string basicCacheEntry :=
  match c !! key with
  | None => (None, delete key c)
  | Some e => if bExpires e <? now then (None, delete key c) else (Some (bUserID e), c)
  end.

Definition basic_put (key userID : string) (now : Z) (c : gmap string basicCacheEntry)
    : gmap string basicCacheEntry :=
  let c := if (10000 <? Z.of_nat (size c))
           then filter (fun '(_, e) => now <= bExpires e) c else c in
  <[key := {| bUserID := userID; bExpires := now + basicCacheTTL |}]> c.

Section password.
(** [Svc.Authenticate]: bcrypt on the stored hash; and [totpEnabled], whose
    errors count as enabled. *)
Variable Authenticate : string -> string -> option string.
Variable totpEnabled : string -> bool.
Variables (resolver : option CapResolver) (t : Tables).

Definition PrincipalForPassword (username password : string) (now : Z)
    (c : gmap string basicCacheEntry) : option Principal * gmap string basicCacheEntry :=
  if String.eqb username "" || String.eqb password "" then (None, c)
  else
    let key := basicCacheKey username password in
    match basic_get key now c with
    | (Some userID, c) =>
        (if totpEnabled userID then None else PrincipalForUser resolver t userID, c)
    | (None, c) =>
        match Authenticate username password with
        | None => (None, c)
        | Some userID =>
            (if totpEnabled userID then None else PrincipalForUser resolver t userID,
             basic_put key userID now c)
        end
    end.
End password.

Definition PrincipalForToken (resolver : option CapResolver) (raw : string) (now : Z)
    (st : TokenState) : result ServiceError (option Principal) * TokenState :=
  match ValidateTokenIdentity raw now st with
  | (Err e, st) => (Err e, st)
  | (Ok id, st) => (Ok (ResolveIdentity resolver (Some id)), st)
  end.

Definition PrincipalForTokenID (resolver : option CapResolver) (tokenID : string) (now : Z)
    (st : TokenState) : option Principal :=
  match TokenIdentityByID tokenID now st with
  | Err _ => None
  | Ok id => ResolveIdentity resolver (Some id)
  end.

(** ** Lemmas: escaping *)

(** [p] is a pattern for the literal [s]: every metacharacter is escaped. *)
Inductive glob_literal : string -> string -> Prop :=
| gl_nil : glob_literal "" ""
| gl_char c p s : isMeta (ord c) = false -> glob_literal p s ->
    glob_literal (String c p) (String c s)
| gl_escape c p s : isMeta (ord c) = true -> glob_literal p s ->
    glob_literal (String (chr 92) (String c p)) (String c s).

(** What a segment of a pattern denotes in the token matcher. *)
Definition denotes (p s : string) : Prop :=
  (p = s /\ (s = "*" \/ s = "**")) \/ (s <> "*" /\ s <> "**" /\ glob_literal p s).

Lemma glob_literal_plain s : hasMeta s = false -> glob_literal s s.
Proof.
  induction s as [|c s IH]; [constructor|]. cbn [hasMeta str_existsb]. intros H. bool_prop.
  by apply gl_char; [|apply IH].
Qed.

Lemma glob_literal_high b p s : str_forallb (fun c => 128 <=? ord c) b = true ->
  glob_literal p s -> glob_literal (b +:+ p) (b +:+ s).
Proof.
  induction b as [|c b IH]; [done|]. cbn [str_forallb]. intros H Hps. bool_prop.
  rewrite !app_cons. apply gl_char; [|by apply IH].
  unfold isMeta. cbn [existsb]. rewrite !orb_false_iff. repeat split; apply Z.eqb_neq;
    change (ord "*") with 42; change (ord "?") with 63; change (ord "[") with 91;
    change (ord "]") with 93; change (ord "{") with 123; change (ord "}") with 125;
    change (ord (chr 92)) with 92; lia.
Qed.

Lemma isMeta_ascii r : isMeta r = true -> 0 <= r < 128.
Proof.
  unfold isMeta. cbn [existsb]. rewrite !orb_true_iff.
  repeat (intros [?|H]; [bool_prop; subst; vm_compute; by split|revert H]). done.
Qed.

Lemma escape_literal segment : ValidString segment = true ->
  glob_literal (escapeGlobMeta segment) segment.
Proof.
  intros Hv. unfold escapeGlobMeta. case_if as E; [by apply glob_literal_plain|].
  unfold ValidString in Hv. apply String.eqb_eq in Hv.
  rewrite <-Hv at 2. generalize (runes segment) as rs. clear.
  induction rs as [|r rs IH]; [constructor|]. cbn [foldr EncodeRunes].
  destruct (EncodeRune_bytes r) as [[Hr Er]|[Hr Hb]].
  - rewrite Er. destruct (isMeta r) eqn:Em.
    + apply gl_escape; [by rewrite ord_chr by lia|done].
    + apply gl_char; [by rewrite ord_chr by lia|done].
  - destruct (isMeta r) eqn:Em; [by apply isMeta_ascii in Em|]. by apply (glob_literal_high (EncodeRune r)).
Qed.

Lemma normalize_denotes segment : ValidString segment = true ->
  denotes (normalizeSegment segment) segment.
Proof.
  intros Hv. unfold normalizeSegment, denotes.
  destruct (String.eqb_spec segment "*") as [->|H1]; [left; auto|].
  destruct (String.eqb_spec segment "**") as [->|H2]; [left; auto|].
  right. split_and!; [done|done|by apply escape_literal].
Qed.

Lemma denotes_nonempty p s : denotes p s -> p = "" -> s = "".
Proof. intros [[-> [->| ->]]|(_ & _ & H)] E; [done|done|]. subst. by inversion H. Qed.

(** ** Lemmas: collecting grants *)

Definition grants_wf (g : grants) : Prop := nodup_slices (gPatterns g).

Lemma grant_spec g cap pat : 
  (forall k, k ∈ gCapabilities (grant g (cap, pat)) <-> k ∈ gCapabilities g \/ k = cap) /\
  (forall k, k ∈ gUnrestricted (grant g (cap, pat)) <->
     k ∈ gUnrestricted g \/ (k = cap /\ pat = "")) /\
  (forall k y, y ∈ get_slice (gPatterns (grant g (cap, pat))) k <->
     y ∈ get_slice (gPatterns g) k \/ (k = cap /\ y = pat /\ pat <> "")).
Proof.
  assert (Hcaps : forall k, k ∈ (if Has (gCapabilities g) cap then gCapabilities g
      else gCapabilities g ++ [cap]) <-> k ∈ gCapabilities g \/ k = cap).
  { intros k. case_if as E; [apply Has_elem in E; naive_solver|]. set_solver. }
  unfold grant. destruct (String.eqb_spec pat "") as [->|Hp].
  { cbn. split; [done|]. split; [set_solver|]. naive_solver. }
  case_if as E; cbn; (split; [done|]); (split; [naive_solver|]); intros k y.
  - apply Has_elem in E. naive_solver.
  - unfold get_slice at 1. destruct (decide (cap = k)) as [->|Hne].
    + rewrite lookup_insert_eq. simpl. set_solver.
    + rewrite lookup_insert_ne by done. fold (get_slice (gPatterns g) k). naive_solver.
Qed.

Lemma grants_fold gs g :
  (forall k, k ∈ gCapabilities (foldl grant g gs) <->
     k ∈ gCapabilities g \/ exists pat, (k, pat) ∈ gs) /\
  (forall k, k ∈ gUnrestricted (foldl grant g gs) <->
     k ∈ gUnrestricted g \/ (k, "") ∈ gs) /\
  (forall k y, y ∈ get_slice (gPatterns (foldl grant g gs)) k <->
     y ∈ get_slice (gPatterns g) k \/ (y <> "" /\ (k, y) ∈ gs)).
Proof.
  revert g. induction gs as [|[cap pat] gs IH]; intros g; cbn [foldl].
  { repeat split; setoid_rewrite elem_of_nil; naive_solver. }
  destruct (IH (grant g (cap, pat))) as (H1 & H2 & H3).
  destruct (grant_spec g cap pat) as (E1 & E2 & E3).
  split_and!; [intros k|intros k|intros k y].
  - rewrite H1, E1. setoid_rewrite elem_of_cons. naive_solver.
  - rewrite H2, E2, elem_of_cons. naive_solver.
  - rewrite H3, E3, elem_of_cons. naive_solver.
Qed.

(** What the report of a token allows, in terms of its grants. *)
Lemma tokenReport_allows Match id k path : path <> "" ->
  Has (repCapabilities (tokenReport id)) k && Allows Match (Patterns (tokenReport id)) k path = true
  <-> exists pat, (k, pat) ∈ (TokenScopesFromIdentity id ≫= scopeGrants) /\
        (pat = "" \/ matchesGlob Match pat (TrimLeft path "/") = true).
Proof.
  intros Hpath. unfold tokenReport. cbn [repCapabilities Patterns].
  set (gs := _ ≫= scopeGrants). unfold tokenGrants. fold gs. set (g0 := Build_grants _ _ _ _).
  destruct (grants_fold gs g0) as (H1 & H2 & H3). cbn [gCapabilities gUnrestricted gPatterns] in *.
  rewrite andb_true_iff, Has_elem, H1, Allows_slice.
  apply String.eqb_neq in Hpath. rewrite Hpath, orb_false_r, orb_true_iff, isNil_nil, existsb_elem.
  set (m := foldl grant g0 gs) in *.
  assert (Hslice : get_slice (filter (fun '(k, _) => k ∉ gUnrestricted m) (gPatterns m)) k =
    if bool_decide (k ∈ gUnrestricted m) then [] else get_slice (gPatterns m) k).
  { unfold get_slice. case_bool_decide as E.
    - rewrite map_lookup_filter_None_2; [done|]. right. intros x _. tauto.
    - destruct (gPatterns m !! k) as [l|] eqn:El.
      + by rewrite (map_lookup_filter_Some_2 _ _ k l).
      + by rewrite map_lookup_filter_None_2 by auto. }
  rewrite Hslice.
  assert (H3' : forall y, y ∈ get_slice (gPatterns m) k <-> y <> "" /\ (k, y) ∈ gs).
  { intros y. rewrite H3. unfold g0, get_slice at 1. cbn. rewrite lookup_empty. cbn.
    rewrite elem_of_nil. tauto. }
  assert (H2' : k ∈ gUnrestricted m <-> (k, "") ∈ gs).
  { rewrite H2. split; [|by right]. intros [Hf|?]; [by apply not_elem_of_empty in Hf|done]. }
  case_bool_decide as Eu.
  - split; [|intros (pat & Hp & _); split; [right; eauto|by left]].
    intros _. exists "". tauto.
  - split.
    + intros [[Hf|(pat0 & Hp0)] [Hnil|(pat & Hpat & Hm)]].
      * by apply elem_of_nil in Hf.
      * by apply elem_of_nil in Hf.
      * destruct (decide (pat0 = "")) as [->|Hne]; [tauto|].
        assert (Hin : pat0 ∈ get_slice (gPatterns m) k) by by apply H3'.
        rewrite Hnil in Hin. by apply elem_of_nil in Hin.
      * apply H3' in Hpat as [_ ?]. exists pat. auto.
    + intros (pat & Hp & [->|Hm]); [tauto|]. split; [right; eauto|]. right. exists pat.
      split; [|done]. apply H3'. split; [|done]. intros ->. tauto.
Qed.

(** ** Lemmas: scopes and their projection *)

(** A path of non-empty segments. *)
Definition clean (path : string) : Prop := Forall (fun s => s <> "") (Split path "/").

Lemma clean_ends path : clean path ->
  path <> "" /\ (forall t, path <> String "/" t) /\ (forall t, path <> t +:+ "/").
Proof.
  intros Hc. unfold clean in Hc. split_and!.
  - intros ->. by inversion Hc.
  - intros t ->. by inversion Hc.
  - intros t ->. change "/" with (String "/" "") in Hc. rewrite Split_app in Hc.
    apply Forall_app in Hc as [_ Hc]. by inversion Hc.
Qed.

Lemma clean_trim path : clean path -> TrimLeft path "/" = path.
Proof. intros (_ & H & _)%clean_ends. by apply TrimLeft_noop. Qed.

(** The path of a capability pattern below its area. *)
Definition area_path (area path : string) : string := area +:+ String "/" path.

Lemma area_segments area path : area = "raw" \/ area = "registry" -> clean path ->
  Split (Trim (area_path area path) "/") "/" = area :: Split path "/".
Proof.
  intros Ha Hc. pose proof (clean_ends path Hc) as (_ & _ & He).
  assert (Hn : no_byte "/" area = true) by by destruct Ha as [-> | ->].
  unfold area_path. rewrite Trim_noop; [by apply Split_app_sep| |].
  - destruct Ha as [-> | ->]; by intros t [=].
  - intros t Ht. destruct (decide (path = "")) as [->|Hp]; [by destruct (clean_ends "" Hc)|].
    clear - Ht He Hp. revert t Ht. induction area as [|c area IH]; intros t Ht.
    + destruct t as [|d t]; [by injection Ht|]. injection Ht as _ Ht. by destruct (He t).
    + destruct t as [|d t]; [by destruct area|]. injection Ht as _ Ht. by apply (IH t).
Qed.

(** The scopes that are projected onto the whole data plane: "*" between slashes, or
    a path that starts with "**". *)
Definition unbounded (sc : TokenScope) : Prop :=
  Trim (Path sc) "/" = "*" \/ head (Split (Trim (Path sc) "/") "/") = Some "**".

#[export] Instance unbounded_dec sc : Decision (unbounded sc).
Proof. unfold unbounded. apply _. Defined.

Lemma unbounded_pattern sc area : unbounded sc -> scopePatternFor (Trim (Path sc) "/") area = Some "".
Proof.
  unfold unbounded, scopePatternFor. generalize (Trim (Path sc) "/") as p. intros p [->|H]; [done|].
  destruct (String.eqb p "**" || String.eqb p "*"); [done|]. rewrite Cut_Split.
  pose proof (Join_Split p "/") as HJ. destruct (Split p "/") as [|h [|h2 rest]]; [done|..]; injection H as ->; [by subst p|done].
Qed.

Definition valid_scope (sc : TokenScope) : Prop :=
  Forall (fun s => ValidString s = true) (Split (Trim (Path sc) "/") "/").

Section projection.
Variable Match : string -> string -> option bool.

(** doublestar on patterns whose segments are "*", "**" or escaped literals:
    segment by segment, "*" any segment, "**" any number of them. *)
Hypothesis Match_segments : forall ps segs path,
  Forall2 denotes ps segs -> segs <> [] -> Forall (fun s => no_byte "/" s = true) segs ->
  clean path ->
  matchesGlob Match (Join ps "/") path = matchPathParts segs (Split path "/").

Lemma normalized_match rest path :
  Forall (fun s => ValidString s = true) (Split rest "/") -> clean path ->
  matchesGlob Match (normalizeScopePath rest) path =
  matchPathParts (Split rest "/") (Split path "/").
Proof.
  intros Hv Hc. apply Match_segments; [|apply Split_nonempty|apply Split_no_sep|done].
  induction Hv as [|s l Hs Hl IH]; constructor; [by apply normalize_denotes|done].
Qed.

Lemma normalize_empty rest : Forall (fun s => ValidString s = true) (Split rest "/") ->
  normalizeScopePath rest = "" -> rest = "".
Proof.
  intros Hv. unfold normalizeScopePath. rewrite <-(Join_Split rest "/") at 2.
  destruct (Split rest "/") as [|s [|s2 l]]; [done| |].
  - inversion Hv; subst. cbn. intros H. eapply denotes_nonempty; [|exact H].
    by apply normalize_denotes.
  - rewrite !fmap_cons, Join_cons. intros H. by destruct (normalizeSegment s).
Qed.

(** One scope, one area: the pattern it grants and the matcher agree. *)
Lemma scope_area_match sc area path : area = "raw" \/ area = "registry" ->
  ~ unbounded sc -> valid_scope sc -> clean path ->
  matchPath (Path sc) (area_path area path) = true <->
  exists pat, scopePatternFor (Trim (Path sc) "/") area = Some pat /\
    (pat = "" \/ matchesGlob Match pat path = true).
Proof.
  intros Ha Hp Hv Hc. unfold matchPath.
  destruct (String.eqb (Path sc) "*" || String.eqb (Path sc) "**") eqn:Estar.
  { split; [|done]. intros _. exists "". split; [|by left].
    apply orb_true_iff in Estar as [E|E]; apply String.eqb_eq in E as ->; by vm_compute. }
  apply orb_false_iff in Estar as [E1 E2]. apply String.eqb_neq in E1, E2.
  assert (Hns : Trim (Path sc) "/" <> "*") by (intros E; apply Hp; by left).
  assert (Hhead : head (Split (Trim (Path sc) "/") "/") <> Some "**") by (intros E; apply Hp; by right).
  rewrite area_segments by done. unfold scopePatternFor, valid_scope in *.
  revert Hhead Hv Hns. generalize (Trim (Path sc) "/") as p. intros p Hhead Hv Hns.
  destruct (String.eqb_spec p "**") as [->|Hp2]; [by destruct Hhead|].
  destruct (String.eqb_spec p "*") as [->|_]; [done|]. cbn [orb].
  rewrite Cut_Split. pose proof (Join_Split p "/") as HJ.
  destruct (Split p "/") as [|h [|h2 rest]] eqn:Es; [by destruct (Split_nonempty p "/")| |].
  - (* a single segment reaches nothing below the area *)
    cbn in HJ. subst h. apply String.eqb_neq in Hp2 as Hp2'. rewrite Hp2'. cbn [matchPathParts].
    rewrite Hp2'. destruct (Split path "/") as [|x xs] eqn:Ex; [by destruct (Split_nonempty path "/")|].
    cbn [matchPathParts].
    destruct (String.eqb p "*"), (String.eqb p area); cbn; split; try done; by intros (? & ? & _).
  - set (r := Join (h2 :: rest) "/").
    assert (Hh : h <> "**") by (intros ->; by apply Hhead).
    apply String.eqb_neq in Hh as Hh'. rewrite Hh'. cbn [matchPathParts]. rewrite Hh'.
    assert (Hr : Split r "/" = h2 :: rest).
    { apply Split_Join; [done|]. pose proof (Split_no_sep p "/") as Hs. rewrite Es in Hs.
      by inversion Hs. }
    assert (Hvr : Forall (fun s => ValidString s = true) (Split r "/")).
    { rewrite Hr. by inversion Hv. }
    assert (Hbody : matchPathParts (h2 :: rest) (Split path "/") = true <->
      exists pat, (if String.eqb r "" then None else if String.eqb r "**" then Some ""
                   else Some (normalizeScopePath r)) = Some pat /\
        (pat = "" \/ matchesGlob Match pat path = true)).
    { rewrite <-Hr. destruct (String.eqb_spec r "") as [->|Hr1].
      - split; [|by intros (? & ? & _)]. unfold clean in Hc.
        destruct (Split path "/") as [|x [|y l]]; [done|inversion Hc; subst..]; cbn;
          by destruct x.
      - destruct (String.eqb_spec r "**") as [->|Hr2].
        + split; [exists ""; auto|]. intros _. cbn. by destruct (Split path "/").
        + rewrite <-normalized_match by done. split; [eauto|].
          intros (pat & [= <-] & [Hn|?]); [|done]. by destruct Hr1; apply normalize_empty. }
    destruct (String.eqb_spec h "*") as [->|Hh1]; [exact Hbody|].
    destruct (String.eqb_spec h area) as [->|Hh2]; [exact Hbody|]. cbn. split; [done|].
    by intros (? & ? & _).
Qed.
End projection.

(** The data-plane capabilities: the area of each, and the token operations
    that grant it. *)
Definition data_plane : list (string * string * list string) := [
  ("raw", CapRawRead, ["read"]); ("raw", CapRawWrite, ["write"; "delete"]);
  ("registry", CapRegistryRead, ["read"]); ("registry", CapRegistryWrite, ["write"]);
  ("registry", CapRegistryDelete, ["delete"]) ].

Lemma scopeHasAnyOp_contains sc op :
  scopeHasAnyOp sc [op] = containsOperation (Operations sc) op.
Proof.
  unfold scopeHasAnyOp, containsOperation. apply existsb_ext. intros o. cbn [existsb].
  by rewrite orb_false_r, orb_comm.
Qed.

Lemma scopeGrants_elem sc cap pat : (cap, pat) ∈ scopeGrants sc <->
  exists area wants op, (area, cap, wants) ∈ data_plane /\ op ∈ wants /\
    scopePatternFor (Trim (Path sc) "/") area = Some pat /\
    containsOperation (Operations sc) op = true.
Proof.
  unfold scopeGrants. rewrite list_elem_of_bind. split.
  - intros (area & Hin & Harea). destruct (scopePatternFor _ (prefix area)) as [p|] eqn:Ep;
      [|by apply elem_of_nil in Hin].
    apply list_elem_of_bind in Hin as ([op capKey] & Hin & Hop).
    rewrite scopeHasAnyOp_contains in Hin.
    destruct (containsOperation (Operations sc) op) eqn:Eo; [|by apply elem_of_nil in Hin].
    apply list_elem_of_singleton in Hin as [= -> ->].
    apply elem_of_cons in Harea as [->|Harea]; [|apply list_elem_of_singleton in Harea as ->];
      cbn [prefix ops] in *;
      repeat (apply elem_of_cons in Hop as [[= -> ->]|Hop];
        [eexists _, _, _; split; [|split; [|split; [exact Ep|exact Eo]]]; find_elem|]);
      by apply elem_of_nil in Hop.
  - intros (area & wants & op & Hd & Hop & Hp & Ho).
    unfold data_plane in Hd. rewrite !elem_of_cons in Hd.
    destruct Hd as [[= -> -> ->]|[[= -> -> ->]|[[= -> -> ->]|[[= -> -> ->]|[[= -> -> ->]|Hd]]]]];
      [..|by apply elem_of_nil in Hd];
      rewrite ?elem_of_cons in Hop; destruct_or? Hop; subst;
      try by apply elem_of_nil in Hop.
    1-3: exists {| prefix := "raw"; ops := [("read", CapRawRead); ("write", CapRawWrite);
           ("delete", CapRawWrite)] |}; (split; [|by left]).
    4-6: exists {| prefix := "registry"; ops := [("read", CapRegistryRead);
           ("write", CapRegistryWrite); ("delete", CapRegistryDelete)] |};
         (split; [|right; by left]).
    all: cbn [prefix ops]; rewrite Hp; apply list_elem_of_bind.
    1: exists ("read", CapRawRead). 2: exists ("write", CapRawWrite).
    3: exists ("delete", CapRawWrite). 4: exists ("read", CapRegistryRead).
    5: exists ("write", CapRegistryWrite). 6: exists ("delete", CapRegistryDelete).
    all: rewrite scopeHasAnyOp_contains, Ho; split; [apply list_elem_of_here|set_solver].
Qed.

Lemma data_plane_area area cap wants : (area, cap, wants) ∈ data_plane ->
  area = "raw" \/ area = "registry".
Proof. unfold data_plane. rewrite !elem_of_cons, elem_of_nil. naive_solver. Qed.

Lemma data_plane_unique area area' cap wants wants' :
  (area, cap, wants) ∈ data_plane -> (area', cap, wants') ∈ data_plane ->
  area = area' /\ wants = wants'.
Proof.
  unfold data_plane. rewrite !elem_of_cons, !elem_of_nil. intros H H'.
  repeat destruct H as [[= -> -> ->]|H]; [..|done];
    repeat destruct H' as [[=]|H']; subst; try done.
Qed.

Lemma TokenScopesAllow_elem scopes path op : TokenScopesAllow scopes path op = true <->
  exists sc, sc ∈ scopes /\ matchPath (Path sc) path = true /\
    containsOperation (Operations sc) op = true.
Proof.
  unfold TokenScopesAllow. rewrite existsb_elem. setoid_rewrite andb_true_iff. naive_solver.
Qed.

(** ** Properties *)

(** C14: the capability check of a token, exactly: with a doublestar that matches
    segment by segment, a token whose scopes are valid UTF-8 holds a data-plane
    capability on a non-empty clean path when, for one of the operations behind
    the capability, the token matcher allows the operation on the path, or a scope
    with the operation is "*" between slashes or starts with "**"; the token
    matcher, which the code names as the single definition of token authorization,
    restricts the latter to the paths they match. *)
Theorem token_projection Match r id area cap wants path :
  (forall ps segs path, Forall2 denotes ps segs -> segs <> [] ->
     Forall (fun s => no_byte "/" s = true) segs -> clean path ->
     matchesGlob Match (Join ps "/") path = matchPathParts segs (Split path "/")) ->
  Provider id = TokenProvider ->
  Forall valid_scope (TokenScopesFromIdentity id) ->
  (area, cap, wants) ∈ data_plane -> clean path ->
  PrincipalAllows Match (ResolveIdentity (Some r) (Some id)) cap path = true <->
  exists op, op ∈ wants /\
    (TokenScopesAllow (TokenScopesFromIdentity id) (area_path area path) op = true \/
     exists sc, sc ∈ TokenScopesFromIdentity id /\ unbounded sc /\ containsOperation (Operations sc) op = true).
Proof.
  intros HM Hp Hvalid Hd Hc. unfold PrincipalAllows, ResolveIdentity, resolveDetailed. rewrite Hp, String.eqb_refl.
  cbn [Caps prPatterns]. rewrite tokenReport_allows by apply (clean_ends path Hc). rewrite clean_trim by done.
  setoid_rewrite list_elem_of_bind. setoid_rewrite scopeGrants_elem.
  setoid_rewrite TokenScopesAllow_elem. rewrite !Forall_forall in *. split.
  - intros (pat & (sc & (area' & wants' & op & Hd' & Hop & Hpat & Ho) & Hsc) & Hm).
    destruct (data_plane_unique _ _ _ _ _ Hd Hd') as [<- <-].
    exists op. split; [done|]. destruct (decide (unbounded sc)) as [Hu|Hu]; [right; by exists sc|left].
    exists sc. split; [done|]. split; [|done]. apply (scope_area_match Match HM); eauto using data_plane_area.
  - intros (op & Hop & [(sc & Hsc & Hm & Ho)|(sc & Hsc & Hu & Ho)]).
    + destruct (decide (unbounded sc)) as [Hu|Hu].
      { exists "". split; [|by left]. exists sc. split; [|done]. eauto 8 using unbounded_pattern. }
      apply (scope_area_match Match HM) in Hm as (pat & Hpat & Hg); eauto using data_plane_area.
      exists pat. split; [|done]. exists sc. split; [|done]. eauto 8.
    + exists "". split; [|by left]. exists sc. split; [|done]. eauto 8 using unbounded_pattern.
Qed.

(** A matcher of the kind the theorem asks for: undo the escapes, then compare
    segments. *)
Fixpoint unescape (p : string) : string :=
  match p with
  | "" => ""
  | String c p' =>
      match p' with
      | String d p'' => if Ascii.eqb c (chr 92) then String d (unescape p'') else String c (unescape p')
      | "" => p
      end
  end.

Definition segment_match (pat path : string) : option bool :=
  Some (matchPathParts (unescape <$> Split pat "/") (Split path "/")).

Lemma unescape_literal p s : glob_literal p s -> unescape p = s.
Proof.
  induction 1 as [|c p s Hc H IH|c p s Hc H IH]; [done| |].
  - cbn [unescape]. destruct p as [|d p]; [by inversion H|].
    destruct (Ascii.eqb_spec c (chr 92)) as [->|_]; [by vm_compute in Hc|]. by rewrite IH.
  - cbn [unescape]. by rewrite Ascii.eqb_refl, IH.
Qed.

Lemma literal_no_byte p s : glob_literal p s -> no_byte "/" s = true -> no_byte "/" p = true.
Proof.
  unfold no_byte. rewrite !negb_true_iff.
  induction 1 as [|c p s Hc H IH|c p s Hc H IH]; [done| |]; cbn [ContainsByte];
    rewrite !orb_false_iff; naive_solver.
Qed.

Lemma segment_match_segments ps segs path :
  Forall2 denotes ps segs -> segs <> [] -> Forall (fun s => no_byte "/" s = true) segs ->
  clean path ->
  matchesGlob segment_match (Join ps "/") path = matchPathParts segs (Split path "/").
Proof.
  intros H2 Hne Hs _. unfold matchesGlob, segment_match.
  assert (Hps : unescape <$> ps = segs /\ Forall (fun s => no_byte "/" s = true) ps).
  { clear Hne. induction H2 as [|p s ps segs Hd H2 IH]; [done|]. inversion Hs; subst.
    destruct IH as [IH1 IH2]; [done|].
    assert (Hp : unescape p = s /\ no_byte "/" p = true).
    { destruct Hd as [[-> [-> | ->]]|(_ & _ & Hd)]; [done..|].
      by eauto using unescape_literal, literal_no_byte. }
    destruct Hp as [Hp1 Hp2]. rewrite fmap_cons, Hp1, IH1. auto. }
  destruct Hps as [Hu Hn]. rewrite Split_Join; [by rewrite Hu| |done]. by intros ->.
Qed.

Definition sample_resolver : CapResolver :=
  {| svc := None; settings := {| Superadmins := ["root"]; RoleMapping := ∅; ScopeMapping := ∅ |};
     rolePaths := ∅ |}.

Definition sample_identity (name : string) (scopes : list TokenScope) : Identity :=
  tokenIdentity {| aID := "t1"; aName := name; aScopes := scopes |}.

Lemma token_projection_witness :
  let scopes := [{| Path := "registry/acme/my*/**"; Operations := ["read"] |}] in
  let id := sample_identity "ci" scopes in
  let p := ResolveIdentity (Some sample_resolver) (Some id) in
  PrincipalAllows segment_match p CapRegistryRead "acme/my*/app" = true /\
  PrincipalAllows segment_match p CapRegistryRead "acme/mine/app" = false /\
  (PrincipalAllows segment_match p CapRegistryRead "acme/my*/app" = true <->
   exists op, op ∈ ["read"] /\
     (TokenScopesAllow scopes (area_path "registry" "acme/my*/app") op = true \/
      exists sc, sc ∈ scopes /\ unbounded sc /\ containsOperation (Operations sc) op = true)).
Proof.
  intros scopes id p. split; [by vm_compute|]. split; [by vm_compute|].
  apply (token_projection segment_match sample_resolver id "registry" CapRegistryRead ["read"]
           "acme/my*/app" segment_match_segments eq_refl).
  - apply Forall_singleton. unfold valid_scope.
    replace (Split _ _) with ["registry"; "acme"; "my*"; "**"] by by vm_compute.
    rewrite !Forall_cons. split_and!; [by vm_compute..|apply List.Forall_nil].
  - unfold data_plane. find_elem.
  - unfold clean. vm_compute. repeat constructor; discriminate.
Defined.

(** A scope "/*" is projected onto the whole data plane, while the token matcher
    takes it for one segment. *)
Theorem slashed_star_widens :
  let scopes := [{| Path := "/*"; Operations := ["read"] |}] in
  PrincipalAllows segment_match (ResolveIdentity (Some sample_resolver) (Some (sample_identity "ci" scopes))) CapRegistryRead "acme/x/app" = true /\
  TokenScopesAllow scopes (area_path "registry" "acme/x/app") "read" = false.
Proof. by split; vm_compute. Qed.

(** A scope for one name anywhere, on a path that ends otherwise. *)
Lemma globstar_no_match rest segs : rest <> "*" -> rest <> "**" ->
  last segs <> Some rest -> matchPathParts ["**"; rest] segs = false.
Proof.
  intros H1 H2 Hlast. apply not_true_iff_false. rewrite matchPathParts_match, scope_match_globstar.
  intros (i & _ & H). apply Hlast. rewrite <-(take_drop i segs).
  inversion H as [|? ? ? _ _ Hr Heq| |]; subst; [|done..].
  inversion Hr; subst. by rewrite last_snoc.
Qed.

(** a scope "**/name" is projected onto every path of the data plane,
    although the token matcher restricts it to paths that end in that name. *)
Theorem globstar_scope_widens Match r token op area cap wants name path :
  (area, cap, wants) ∈ data_plane -> op ∈ wants ->
  no_byte "/" name = true -> name <> "" -> name <> "*" -> name <> "**" ->
  clean path -> last (Split path "/") <> Some name ->
  let scopes := [{| Path := "**/" +:+ name; Operations := [op] |}] in
  PrincipalAllows Match (ResolveIdentity (Some r) (Some (sample_identity token scopes))) cap path = true
  /\ TokenScopesAllow scopes (area_path area path) op = false.
Proof.
  intros Hd Hop Hn Hne Hs1 Hs2 Hc Hlast scopes.
  set (sc := {| Path := "**/" +:+ name; Operations := [op] |}).
  assert (Htrim : Trim (Path sc) "/" = "**/" +:+ name).
  { apply Trim_noop; [by intros t [=]|]. intros t Ht.
    change ("**/" +:+ name) with ("**" +:+ String "/" name) in Ht.
    assert (Hsp : Split ("**" +:+ String "/" name) "/" = Split (t +:+ "/") "/") by by rewrite Ht.
    rewrite (Split_app t "" "/"), Split_app_sep in Hsp by done.
    rewrite (Split_single name) in Hsp by done.
    apply (f_equal last) in Hsp. cbn [Split] in Hsp. rewrite last_snoc in Hsp. by injection Hsp. }
  assert (Hsplit : Split ("**/" +:+ name) "/" = ["**"; name]).
  { change ("**/" +:+ name) with ("**" +:+ String "/" name).
    by rewrite Split_app_sep, Split_single by done. }
  split.
  - unfold PrincipalAllows, ResolveIdentity, resolveDetailed. cbn [Provider sample_identity tokenIdentity].
    rewrite String.eqb_refl. cbn [Caps prPatterns].
    rewrite tokenReport_allows by apply (clean_ends path Hc). exists "". split; [|by left].
    apply list_elem_of_bind. exists sc. split; [|by apply list_elem_of_here].
    apply scopeGrants_elem. exists area, wants, op. split; [done|]. split; [done|].
    split; [|cbn; by rewrite String.eqb_refl].
    rewrite Htrim. unfold scopePatternFor. by rewrite Cut_Split, Hsplit.
  - unfold TokenScopesAllow, scopes. cbn [existsb Path]. unfold matchPath. fold (Path sc).
    change (Trim ("**/" +:+ name) "/") with (Trim (Path sc) "/").
    rewrite Htrim, Hsplit, area_segments by eauto using data_plane_area.
    rewrite globstar_no_match; [done|done|done|].
    destruct (Split path "/") as [|s l] eqn:E; [by destruct (Split_nonempty path "/")|done].
Qed.

Lemma globstar_scope_widens_witness :
  let scopes := [{| Path := "**/deploy"; Operations := ["read"] |}] in
  PrincipalAllows segment_match (ResolveIdentity (Some sample_resolver)
    (Some (sample_identity "ci" scopes))) CapRegistryRead "acme/app" = true
  /\ TokenScopesAllow scopes "registry/acme/app" "read" = false.
Proof.
  apply (globstar_scope_widens segment_match sample_resolver "ci" "read" "registry" CapRegistryRead
           ["read"] "deploy" "acme/app"); try done.
  - unfold data_plane. find_elem.
  - find_elem.
  - unfold clean. vm_compute. repeat constructor; discriminate.
Defined.

(** ** Lemmas: people *)

Lemma subtractDenied_spec keys patterns denied k :
  (k ∈ fst (subtractDenied keys patterns denied) <-> k ∈ keys /\ k ∉ denied) /\
  snd (subtractDenied keys patterns denied) !! k =
    if bool_decide (k ∈ denied) then None else patterns !! k.
Proof.
  unfold subtractDenied. destruct denied as [|d denied]; cbn [isNil fst snd].
  { split; [rewrite elem_of_nil; tauto|]. by rewrite bool_decide_eq_false_2 by apply not_elem_of_nil. }
  split; [rewrite list_elem_of_filter, elem_of_list_to_set; tauto|].
  case_bool_decide as E.
  - apply map_lookup_filter_None_2. right. intros x _. rewrite elem_of_list_to_set. tauto.
  - destruct (patterns !! k) as [l|] eqn:El.
    + apply map_lookup_filter_Some_2; [done|]. by rewrite elem_of_list_to_set.
    + apply map_lookup_filter_None_2. by left.
Qed.

Lemma fold_addRoles acc (ls : list (list string)) : seen_wf acc ->
  seen_wf (foldl addRoles acc ls) /\
  forall y, y ∈ (foldl addRoles acc ls).2 <-> y ∈ acc.2 \/ (y <> "" /\ exists l, l ∈ ls /\ y ∈ l).
Proof.
  revert acc. induction ls as [|l ls IH]; intros acc Hwf; cbn [foldl].
  { split; [done|]. intros y. setoid_rewrite elem_of_nil. naive_solver. }
  destruct (addRoles_spec acc l Hwf) as [Hw He]. destruct (IH _ Hw) as [Hw' He'].
  split; [done|]. intros y. rewrite He', He. setoid_rewrite elem_of_cons. naive_solver.
Qed.

Lemma mappedPermissionKeys_elem r roles scopes k :
  k ∈ mappedPermissionKeys r roles scopes <-> k <> "" /\
    ((exists role, role ∈ roles /\ k ∈ get_slice (RoleMapping (settings r)) role) \/
     (exists sc, sc ∈ scopes /\ k ∈ get_slice (ScopeMapping (settings r)) sc)).
Proof.
  unfold mappedPermissionKeys. cbv zeta.
  set (l1 := _ <$> roles). set (l2 := _ <$> scopes).
  destruct (fold_addRoles (∅, []) l1 empty_wf) as [Hw He].
  destruct (fold_addRoles _ l2 Hw) as [_ He']. rewrite He', He. cbn [snd]. rewrite elem_of_nil.
  unfold l1, l2. setoid_rewrite list_elem_of_fmap. naive_solver.
Qed.

Lemma PermissionsByKeys_elem keys t p : p ∈ PermissionsByKeys keys t <->
  (exists id, permissions t !! id = Some p) /\ pKey p ∈ keys /\ pKey p <> "".
Proof.
  unfold PermissionsByKeys. case_bool_decide as E.
  - rewrite elem_of_nil. split; [done|]. intros (_ & Hk & Hne).
    assert (Hin : pKey p ∈ (list_to_set (filter (fun k => k <> "") keys) : gset string))
      by by apply elem_of_list_to_set, list_elem_of_filter.
    rewrite E in Hin. by apply not_elem_of_empty in Hin.
  - rewrite list_elem_of_filter, elem_of_list_to_set, list_elem_of_filter, List_elem. tauto.
Qed.

(** The bundles that count for a person: assigned, or mapped from a role or a
    scope. *)
Definition entitled (r : CapResolver) (t : Tables) (user : option User) (id : Identity)
    (p : Permission) : Prop :=
  (exists u pid, user = Some u /\ permissions t !! pid = Some p /\
     (uID u, pid) ∈ userPermissions t) \/
  ((exists pid, permissions t !! pid = Some p) /\ pKey p <> "" /\
   ((exists role, role ∈ effectiveRoles r id /\
       pKey p ∈ get_slice (RoleMapping (settings r)) role) \/
    (exists sc, sc ∈ Scopes id /\ pKey p ∈ get_slice (ScopeMapping (settings r)) sc))).

Lemma bundles_entitled r t user id p : svc r = Some t ->
  p ∈ assignedBundles r user ++ mappedBundles r (effectiveRoles r id) (Scopes id) <->
  entitled r t user id p.
Proof.
  intros Hs. rewrite elem_of_app. unfold assignedBundles, mappedBundles, entitled. rewrite Hs.
  assert (Hm : p ∈ (if isNil (effectiveRoles r id) && isNil (Scopes id) then []
      else PermissionsByKeys (mappedPermissionKeys r (effectiveRoles r id) (Scopes id)) t) <->
    (exists pid, permissions t !! pid = Some p) /\ pKey p <> "" /\
   ((exists role, role ∈ effectiveRoles r id /\
       pKey p ∈ get_slice (RoleMapping (settings r)) role) \/
    (exists sc, sc ∈ Scopes id /\ pKey p ∈ get_slice (ScopeMapping (settings r)) sc))).
  { case_if as E.
    - rewrite elem_of_nil. split; [done|]. bool_prop. rewrite !isNil_nil in *.
      destruct (effectiveRoles r id), (Scopes id); try done. set_solver.
    - rewrite PermissionsByKeys_elem, mappedPermissionKeys_elem. tauto. }
  rewrite Hm. destruct user as [u|].
  - rewrite GetUserPermissions_elem. naive_solver.
  - rewrite elem_of_nil. naive_solver.
Qed.

(** ** Properties *)

(** whatever its name, scopes and the settings, an API token holds only
    data-plane capabilities, and never as a superadmin. *)
Theorem token_data_plane_only r id k :
  Provider id = TokenProvider ->
  Superadmin (resolveDetailed r id) = false /\
  (k ∈ repCapabilities (resolveDetailed r id) ->
   k ∈ [CapRawRead; CapRawWrite; CapRegistryRead; CapRegistryWrite; CapRegistryDelete]).
Proof.
  intros Hp. unfold resolveDetailed. rewrite Hp, String.eqb_refl. split; [done|].
  unfold tokenReport, tokenGrants. cbn [repCapabilities].
  intros Hk. apply grants_fold in Hk as [Hk|(pat & Hk)]; [by apply elem_of_nil in Hk|].
  apply list_elem_of_bind in Hk as (sc & (area & wants & op & Hd & _)%scopeGrants_elem & _).
  unfold data_plane in Hd. rewrite !elem_of_cons, elem_of_nil in Hd.
  destruct_or? Hd; try done; injection Hd as -> -> ->; find_elem.
Qed.

Lemma token_data_plane_only_witness :
  let id := sample_identity "root" [{| Path := "**"; Operations := ["*"] |}] in
  repCapabilities (resolveDetailed sample_resolver id) =
    [CapRawRead; CapRawWrite; CapRegistryRead; CapRegistryWrite; CapRegistryDelete] /\
  Superadmin (resolveDetailed sample_resolver id) = false.
Proof.
  intros id. split; [by vm_compute|].
  apply (token_data_plane_only sample_resolver id CapRawRead eq_refl).
Defined.

(** what a person may do: the superadmin allowlist gives every capability,
    the superadmin column every one that is not denied; anybody else holds
    exactly the keys of the bundles assigned to the user or mapped from its
    roles and scopes, less the denied ones. *)
Theorem resolveDetailed_people r t id k :
  svc r = Some t -> Provider id <> TokenProvider ->
  let user := lookupUser r (claimString id UserIDClaim) in
  let denied := match user with Some u => uDenied u | None => [] end in
  k ∈ repCapabilities (resolveDetailed r id) <->
  if existsb (fun admin => String.eqb admin (Subject id)) (Superadmins (settings r))
  then k ∈ KnownCapabilityKeys
  else k ∉ denied /\
    if match user with Some u => uIsSuperadmin u | None => false end
    then k ∈ KnownCapabilityKeys
    else exists p, entitled r t user id p /\ k ∈ pKeys p.
Proof.
  intros Hs Hp user denied. unfold resolveDetailed. apply String.eqb_neq in Hp. rewrite Hp.
  fold user. fold denied. cbv zeta.
  destruct (existsb _ (Superadmins (settings r))); [done|].
  destruct (match user with Some u => uIsSuperadmin u | None => false end); cbn [repCapabilities].
  { destruct (subtractDenied_spec KnownCapabilityKeys ∅ denied k) as [-> _]. tauto. }
  set (bs := assignedBundles r user ++ _).
  destruct (CapabilitiesFromBundles bs) as [keys patterns] eqn:Eb.
  destruct (subtractDenied_spec keys patterns denied k) as [Hk _].
  destruct (subtractDenied keys patterns denied) as [keys' patterns']. cbn [repCapabilities fst] in *.
  rewrite Hk. replace keys with (bundleKeys bs) by (by injection Eb).
  assert (Hb : forall p, p ∈ bs <-> entitled r t user id p)
    by (intros p; by apply bundles_entitled).
  rewrite bundleKeys_elem. setoid_rewrite Hb. tauto.
Qed.

Definition sample_tables (denied : list string) : Tables :=
  {| users := {[ "u1" := {| uID := "u1"; uUsername := "ann"; uDisabled := false;
                            uIsSuperadmin := false; uDenied := denied |} ]};
     permissions := {[ "b" := sample_bundle "b" [CapRegistryRead; CapRegistryWrite] [] ]};
     userPermissions := {[ ("u1", "b") ]} |}.

Lemma resolveDetailed_people_witness :
  let r := {| svc := Some (sample_tables [CapRegistryWrite]); settings := settings sample_resolver;
              rolePaths := ∅ |} in
  let id := {| Subject := "ann"; Provider := "local"; Roles := []; Scopes := [];
               Claims := [(UserIDClaim, CString "u1")] |} in
  repCapabilities (resolveDetailed r id) = [CapRegistryRead] /\
  ~ CapRegistryWrite ∈ repCapabilities (resolveDetailed r id).
Proof.
  intros r id. split; [by vm_compute|].
  intros H. apply (resolveDetailed_people r (sample_tables [CapRegistryWrite]) id) in H;
    [|reflexivity|discriminate].
  destruct H as [H _]. apply H. vm_compute. apply list_elem_of_here.
Defined.

(** *** The password cache over time *)

Section cache_safety.
(** The stored hashes and the TOTP enrolments may change between requests. *)
Variables (Authenticate : Z -> string -> string -> option string)
          (totpEnabled : Z -> string -> bool)
          (resolver : Z -> option CapResolver) (tables : Z -> Tables).

(** The states of the cache after any sequence of requests. *)
Inductive reachable : gmap string basicCacheEntry -> Prop :=
| reachable_start : reachable ∅
| reachable_request username password now c :
    reachable c ->
    reachable (snd (PrincipalForPassword (Authenticate now) (totpEnabled now) (resolver now)
                      (tables now) username password now c)).

(** An entry comes from a successful verification, two minutes before it
    expires, of credentials with its key. *)
Definition verified (key : string) (e : basicCacheEntry) : Prop :=
  exists u p, key = basicCacheKey u p /\
    Authenticate (bExpires e - basicCacheTTL) u p = Some (bUserID e).

Lemma basic_get_subset key now c : snd (basic_get key now c) ⊆ c.
Proof.
  unfold basic_get. repeat (case_match; simpl); try done; apply delete_subseteq.
Qed.

Lemma map_Forall_sub (c c' : gmap string basicCacheEntry) :
  map_Forall verified c -> c' ⊆ c -> map_Forall verified c'.
Proof. intros H Hs k e He. apply H. by eapply lookup_weaken. Qed.

Lemma basic_put_lookup key user now c k e :
  basic_put key user now c !! k = Some e ->
  (k = key /\ e = {| bUserID := user; bExpires := now + basicCacheTTL |}) \/ c !! k = Some e.
Proof.
  unfold basic_put. rewrite lookup_insert_Some. intros [[<- <-]|[_ H]]; [by left|right].
  case_match; [|done]. by apply map_lookup_filter_Some in H as [? _].
Qed.

Lemma reachable_verified c : reachable c -> map_Forall verified c.
Proof.
  induction 1 as [|username password now c Hr IH]; [apply map_Forall_empty|].
  unfold PrincipalForPassword. case_if; [done|].
  pose proof (basic_get_subset (basicCacheKey username password) now c) as Hsub.
  destruct (basic_get _ now c) as [[user|] c']; cbn [snd] in *.
  - eauto using map_Forall_sub.
  - destruct (Authenticate now username password) as [user|] eqn:Ea; cbn [snd];
      [|eauto using map_Forall_sub].
    intros k e He. apply basic_put_lookup in He as [[-> ->]|He].
    + exists username, password. split; [done|]. cbn [bExpires bUserID].
      by replace (now + basicCacheTTL - basicCacheTTL) with now by lia.
    + apply IH. by eapply lookup_weaken.
Qed.
End cache_safety.

(** in every state the cache can reach, a password gives a principal only
    if credentials with the same SHA-256 key were verified in the last two
    minutes for that user, who now exists, is enabled and has no TOTP: turning
    any of these off takes effect at once, cached or not. *)
Theorem password_safety Authenticate totpEnabled resolver tables c username password now p :
  reachable Authenticate totpEnabled resolver tables c ->
  fst (PrincipalForPassword (Authenticate now) (totpEnabled now) (resolver now) (tables now)
         username password now c) = Some p ->
  exists u pw userID at_ user,
    basicCacheKey u pw = basicCacheKey username password /\
    Authenticate at_ u pw = Some userID /\ now - basicCacheTTL <= at_ /\
    totpEnabled now userID = false /\
    UserStore.Get userID (tables now) = Ok user /\ uDisabled user = false.
Proof.
  intros Hr%reachable_verified. unfold PrincipalForPassword.
  destruct (String.eqb username "" || String.eqb password ""); [done|].
  assert (Huser : forall userID, (if totpEnabled now userID then None
      else PrincipalForUser (resolver now) (tables now) userID) = Some p ->
    totpEnabled now userID = false /\ exists user,
      UserStore.Get userID (tables now) = Ok user /\ uDisabled user = false).
  { intros userID. destruct (totpEnabled now userID); [done|]. unfold PrincipalForUser.
    destruct (UserStore.Get userID (tables now)) as [user|]; [|done].
    destruct (uDisabled user) eqn:Ed; [done|]. eauto. }
  unfold basic_get. destruct (c !! basicCacheKey username password) as [e|] eqn:Ec;
    [destruct (Z.ltb_spec (bExpires e) now) as [Hx|Hx]|]; cbn [fst];
    [destruct (Authenticate now username password) as [userID|] eqn:Ea| |
     destruct (Authenticate now username password) as [userID|] eqn:Ea]; cbn [fst]; try done.
  - intros (Ht & user & Hu & Hd)%Huser. unfold basicCacheTTL, second.
    exists username, password, userID, now, user. split_and!; try done. lia.
  - intros (Ht & user & Hu & Hd)%Huser. destruct (Hr _ _ Ec) as (u & pw & Hk & Ha).
    exists u, pw, (bUserID e), (bExpires e - basicCacheTTL), user.
    split_and!; try done. unfold basicCacheTTL. lia.
  - intros (Ht & user & Hu & Hd)%Huser. unfold basicCacheTTL, second.
    exists username, password, userID, now, user. split_and!; try done. lia.
Qed.

Lemma password_safety_witness :
  let tables := fun _ : Z => sample_tables [] in
  let auth := fun (_ : Z) (u p : string) => if String.eqb p "secret" then Some "u1" else None in
  let totp := fun (now : Z) (_ : string) => 50 <? now in
  let resolver := fun _ : Z => Some sample_resolver in
  let c := snd (PrincipalForPassword (auth 0) (totp 0) (resolver 0) (tables 0) "ann" "secret" 0 ∅) in
  reachable auth totp resolver tables c /\
  fst (PrincipalForPassword (auth 60) (totp 60) (resolver 60) (tables 60) "ann" "secret" 60 c) = None /\
  exists u pw userID at_ user,
    basicCacheKey u pw = basicCacheKey "ann" "secret" /\
    auth at_ u pw = Some userID /\ 40 - basicCacheTTL <= at_ /\
    totp 40 userID = false /\ UserStore.Get userID (tables 40) = Ok user /\ uDisabled user = false.
Proof.
  intros tables auth totp resolver c.
  assert (Hr : reachable auth totp resolver tables c) by (apply reachable_request, reachable_start).
  split; [exact Hr|]. split; [vm_compute; reflexivity|].
  eapply (password_safety auth totp resolver tables c "ann" "secret" 40); [exact Hr|].
  vm_compute. reflexivity.
Defined.
