(* ===== verification/S3Chunked.v ===== *)
(** * internal/serve/s3serve/chunked.go: the aws-chunked decoder

    [chunkedReader] over a buffered reader: the state is the input that is
    left, the bytes left of the current chunk and the final flag.  The buffered
    reader may return fewer bytes than asked for; each [Read] takes the size of
    the caller's buffer and the most the reader has ready.  The loop of [Read]
    makes at most one turn that reads a header before it returns, so it is two
    steps.  [readAll] is io.ReadAll with fuel.  The theorems: whatever the sizes
    of the reads, the chunks of a well-formed stream are decoded to the bytes
    they carry, with a clean end; no read returns bytes past the chunk; and a
    stream that stops after whole chunks, without the zero-size chunk, ends as
    cleanly. *)

From Stdlib Require Import ZArith Lia Ascii.
From stdpp Require Import base list strings.
From S2P Require Import Prelude GoStrings GoHash.

Local Open Scope Z_scope.

Definition CR : ascii := chr 13.
Definition LF : ascii := chr 10.
Definition CRLF : string := String CR (String LF "").

Inductive ReadError :=
| EOF | ErrUnexpectedEOF | InvalidChunkSize (s : string) | MalformedTerminator.

Record chunkedReader := { input : string; remaining : Z; finished : bool }.

Definition newChunkedReader (r : string) : chunkedReader :=
  {| input := r; remaining := 0; finished := false |}.

(** ** Reading lines and sizes *)

(** [readLine]: the line without its CR and LF bytes, and the rest; [None] at
    the end of the input. *)
Definition readLine (s : string) : option (string * string) :=
  match IndexByte s LF with
  | Some i => Some (TrimRight (str_take (i + 1) s) CRLF, str_drop (i + 1) s)
  | None => if String.eqb s "" then None else Some (TrimRight s CRLF, "")
  end.

Fixpoint hex_value (s : string) (n : Z) : option Z :=
  match s with
  | "" => Some n
  | String c s => match fromHexChar c with
                  | Some d => hex_value s (16 * n + d)
                  | None => None
                  end
  end.

(** [strconv.ParseInt(s, 16, 64)] *)
Definition ParseInt16 (s : string) : option Z :=
  let '(neg, digits) :=
    match s with
    | String c t => if Ascii.eqb c "-" then (true, t)
                    else if Ascii.eqb c "+" then (false, t) else (false, s)
    | "" => (false, s)
    end in
  if String.eqb digits "" then None
  else match hex_value digits 0 with
       | None => None
       | Some v => if neg then (if v <=? 2 ^ 63 then Some (- v) else None)
                   else (if v <=? int64_max then Some v else None)
       end.

Definition chunkSize (line : string) : result ReadError Z :=
  let sizeStr := match IndexByte line ";" with Some i => str_take i line | None => line end in
  match ParseInt16 (TrimSpace sizeStr) with
  | Some size => if size <? 0 then Err (InvalidChunkSize sizeStr) else Ok size
  | None => Err (InvalidChunkSize sizeStr)
  end.

(** Drain the trailers until an empty line or the end; every line takes at
    least one byte. *)
Fixpoint drain (fuel : nat) (s : string) : string :=
  match fuel with
  | O => s
  | S fuel => match readLine s with
              | None => s
              | Some (tline, s') => if String.eqb tline "" then s' else drain fuel s'
              end
  end.

Definition nextChunk (c : chunkedReader) : option ReadError * chunkedReader :=
  let at_ s := {| input := s; remaining := remaining c; finished := finished c |} in
  match readLine (input c) with
  | None => (Some EOF, c)
  | Some (line, s) =>
      match (if String.eqb line "" then readLine s else Some (line, s)) with
      | None => (Some EOF, at_ s)
      | Some (line, s) =>
          match chunkSize line with
          | Err e => (Some e, at_ s)
          | Ok size =>
              if size =? 0 then
                (None, {| input := drain (S (len s)) s; remaining := 0; finished := true |})
              else (None, {| input := s; remaining := size; finished := finished c |})
          end
      end
  end.

(** The bytes that end the data of a chunk. *)
Definition expectCRLF (s : string) : option ReadError * string :=
  match s with
  | "" => (None, s)
  | String b s' =>
      if Ascii.eqb b CR then
        match s' with
        | "" => (None, s')
        | String b2 s'' => if negb (Ascii.eqb b2 LF) then (Some MalformedTerminator, s'')
                           else (None, s'')
        end
      else if Ascii.eqb b LF then (None, s')
      else (Some MalformedTerminator, s')
  end.

(** ** Reading data *)

(** [c.br.Read(p)] with [plen] bytes of room, when at most [ready] are ready. *)
Definition bufRead (plen ready : nat) (s : string) : string * option ReadError * string :=
  let n := Nat.min plen (Nat.min ready (len s)) in
  if (n =? 0)%nat && (0 <? plen)%nat then ("", Some EOF, s)
  else (str_take n s, None, str_drop n s).

Definition readData (plen ready : nat) (c : chunkedReader)
    : string * option ReadError * chunkedReader :=
  let plen := if remaining c <? Z.of_nat plen then Z.to_nat (remaining c) else plen in
  let '(data, err, s) := bufRead plen ready (input c) in
  let left := remaining c - Z.of_nat (len data) in
  let '(err, s) :=
    if left =? 0 then
      let '(crlfErr, s) := expectCRLF s in
      (match crlfErr, err with Some e, None => Some e | _, _ => err end, s)
    else (err, s) in
  let err := match err with
             | Some EOF => if negb (finished c) then Some ErrUnexpectedEOF else Some EOF
             | _ => err
             end in
  (data, err, {| input := s; remaining := left; finished := finished c |}).

Definition Read (plen ready : nat) (c : chunkedReader) : string * option ReadError * chunkedReader :=
  if finished c then ("", Some EOF, c)
  else if remaining c =? 0 then
    match nextChunk c with
    | (Some e, c) => ("", Some e, c)
    | (None, c) => if finished c then ("", Some EOF, c) else readData plen ready c
    end
  else readData plen ready c.

(** [io.ReadAll] with a caller that offers [sizes], then buffers of 512 bytes:
    the data and the error that ended it; a clean end is no error. *)
Fixpoint readAll (fuel : nat) (sizes : list (nat * nat)) (c : chunkedReader)
    : option (string * option ReadError) :=
  match fuel with
  | O => None
  | S fuel =>
      let '(plen, ready) := match sizes with p :: _ => p | [] => (512%nat, 512%nat) end in
      let '(data, err, c) := Read plen ready c in
      match err with
      | Some EOF => Some (data, None)
      | Some e => Some (data, Some e)
      | None => match readAll fuel (tail sizes) c with
                | Some (rest, e) => Some (data +:+ rest, e)
                | None => None
                end
      end
  end.

(** ** The wire format *)

(** [strconv.FormatInt(n, 16)], with fuel for the digits. *)
Fixpoint formatHex_go (fuel : nat) (n : Z) (acc : string) : string :=
  match fuel with
  | O => acc
  | S fuel =>
      let acc := String (hex_digit (n mod 16)) acc in
      if n / 16 =? 0 then acc else formatHex_go fuel (n / 16) acc
  end.

Definition FormatHex (n : Z) : string := formatHex_go 16 n "".

(** One chunk with its extension, [""] or [;chunk-signature=...]. *)
Definition encodeChunk (chunk : string * string) : string :=
  let '(ext, data) := chunk in
  FormatHex (Z.of_nat (len data)) +:+ ext +:+ CRLF +:+ data +:+ CRLF.

Definition chunk_ok (chunk : string * string) : Prop :=
  let '(ext, data) := chunk in
  data <> "" /\ Z.of_nat (len data) <= int64_max /\
  no_byte LF ext = true /\ no_byte CR ext = true /\ (ext = "" \/ HasPrefix ext ";" = true).

Definition encodeChunks (chunks : list (string * string)) : string :=
  foldr (fun ch acc => encodeChunk ch +:+ acc) "" chunks.

Definition payload (chunks : list (string * string)) : string :=
  foldr (fun ch acc => ch.2 +:+ acc) "" chunks.

(** The stream a client sends: the chunks and the zero-size chunk; the trailers
    are whatever follows. *)
Definition encodeStream (chunks : list (string * string)) (ext trailers : string) : string :=
  encodeChunks chunks +:+ "0" +:+ ext +:+ CRLF +:+ trailers.

(** ** Lemmas: headers *)

Lemma TrimRight_CRLF line : no_byte LF line = true -> no_byte CR line = true ->
  TrimRight (line +:+ CRLF) CRLF = line.
Proof.
  intros Hl Hc. unfold TrimRight. rewrite str_rev_dist.
  change (str_rev CRLF) with (String LF (String CR "")).
  assert (Hrev : TrimLeft (str_rev line) CRLF = str_rev line).
  { destruct (str_rev line) as [|d t] eqn:E; [done|].
    assert (Hline : line = str_rev t +:+ String d "").
    { rewrite <-(str_rev_invol line), E. apply str_rev_cons. }
    rewrite Hline, no_byte_app in Hl, Hc. apply andb_true_iff in Hl as [_ Hl], Hc as [_ Hc].
    unfold no_byte in Hl, Hc. cbn [ContainsByte] in Hl, Hc.
    cbn [TrimLeft CRLF ContainsByte]. rewrite (Ascii.eqb_sym CR d), (Ascii.eqb_sym LF d).
    bool_prop. destruct (Ascii.eqb d CR), (Ascii.eqb d LF); done. }
  change (TrimLeft (String LF (String CR "") +:+ str_rev line) CRLF)
    with (TrimLeft (str_rev line) CRLF).
  by rewrite Hrev, str_rev_invol.
Qed.

Lemma readLine_app line rest : no_byte LF line = true -> no_byte CR line = true ->
  readLine (line +:+ CRLF +:+ rest) = Some (line, rest).
Proof.
  intros Hl Hc. unfold readLine.
  change (line +:+ CRLF +:+ rest) with (line +:+ (String CR "" +:+ String LF rest)).
  rewrite <-str_app_assoc, IndexByte_app by (rewrite no_byte_app, Hl; done).
  assert (Hsplit : (line +:+ String CR "") +:+ String LF rest
                   = (line +:+ CRLF) +:+ rest) by (rewrite !str_app_assoc; done).
  assert (Hlen : (len (line +:+ String CR "") + 1)%nat = len (line +:+ CRLF)).
  { rewrite !len_app. cbn. lia. }
  by rewrite Hsplit, Hlen, str_take_app, str_drop_app, TrimRight_CRLF.
Qed.

Lemma formatHex_digits fuel n acc : 0 <= n -> str_forallb is_lower_hex acc = true ->
  str_forallb is_lower_hex (formatHex_go fuel n acc) = true.
Proof.
  revert n acc. induction fuel as [|fuel IH]; intros n acc Hn Hacc; [done|]. cbn [formatHex_go].
  assert (H : str_forallb is_lower_hex (String (hex_digit (n mod 16)) acc) = true).
  { cbn [str_forallb]. rewrite hex_digit_lower, Hacc; [done|]. apply Z.mod_pos_bound. lia. }
  case_if; [done|]. apply IH; [|done]. apply Z.div_pos; lia.
Qed.

Lemma formatHex_nonempty fuel n acc : acc <> "" -> formatHex_go fuel n acc <> "".
Proof.
  revert n acc. induction fuel as [|fuel IH]; intros n acc Hacc; [done|]. cbn [formatHex_go].
  case_if; [done|by apply IH].
Qed.

Lemma formatHex_nonempty_S fuel n acc : formatHex_go (S fuel) n acc <> "".
Proof. cbn [formatHex_go]. case_if; [done|by apply formatHex_nonempty]. Qed.

Lemma hex_value_go fuel n acc : 0 <= n < 16 ^ Z.of_nat fuel ->
  hex_value (formatHex_go fuel n acc) 0 = hex_value acc n.
Proof.
  revert n acc. induction fuel as [|fuel IH]; intros n acc Hn.
  { cbn [formatHex_go]. rewrite Z.pow_0_r in Hn. by replace n with 0 by lia. }
  cbn [formatHex_go].
  assert (Hstep : hex_value (String (hex_digit (n mod 16)) acc) (n / 16) = hex_value acc n).
  { cbn [hex_value]. rewrite fromHexChar_digit by (apply Z.mod_pos_bound; lia).
    by rewrite <-(Z.div_mod n 16) by lia. }
  case_if as E.
  - rewrite <-Hstep, E. done.
  - rewrite IH; [done|]. rewrite Nat2Z.inj_succ, Z.pow_succ_r in Hn by lia.
    split; [apply Z.div_pos; lia|]. apply Z.div_lt_upper_bound; lia.
Qed.

Lemma lower_hex_graphic c : is_lower_hex c = true -> graphic c = true.
Proof. unfold is_lower_hex, is_digit, graphic. lia. Qed.

Lemma FormatHex_digits n : 0 <= n -> str_forallb is_lower_hex (FormatHex n) = true.
Proof. intros Hn. by apply formatHex_digits. Qed.

Lemma FormatHex_no_byte n c : 0 <= n -> is_lower_hex c = false -> no_byte c (FormatHex n) = true.
Proof. intros Hn Hc. eapply no_byte_forallb; [exact Hc|by apply FormatHex_digits]. Qed.

Lemma ParseInt16_FormatHex n : 0 <= n <= int64_max -> ParseInt16 (FormatHex n) = Some n.
Proof.
  intros Hn. unfold int64_max in Hn.
  pose proof (FormatHex_digits n ltac:(lia)) as Hd.
  assert (Hv : hex_value (FormatHex n) 0 = Some n).
  { unfold FormatHex. rewrite hex_value_go; [done|].
    change (16 ^ Z.of_nat 16) with 18446744073709551616. lia. }
  assert (Hne : FormatHex n <> "").
  { apply (formatHex_nonempty_S 15 n ""). }
  unfold ParseInt16. destruct (FormatHex n) as [|c t]; [done|].
  cbn [str_forallb] in Hd. apply andb_true_iff in Hd as [Hc _].
  assert (Ascii.eqb c "-" = false /\ Ascii.eqb c "+" = false) as [E1 E2].
  { split; apply not_true_iff_false; intros ->%Ascii.eqb_eq; by vm_compute in Hc. }
  rewrite E1, E2. cbn [String.eqb]. rewrite Hv. unfold int64_max.
  by replace (n <=? 2 ^ 63 - 1) with true by (symmetry; apply Z.leb_le; lia).
Qed.

Lemma chunkSize_header n ext : 0 <= n <= int64_max -> ext = "" \/ HasPrefix ext ";" = true ->
  chunkSize (FormatHex n +:+ ext) = Ok n.
Proof.
  intros Hn Hext. unfold chunkSize.
  assert (Hs : (match IndexByte (FormatHex n +:+ ext) ";" with
      | Some i => str_take i (FormatHex n +:+ ext) | None => FormatHex n +:+ ext end) = FormatHex n).
  { pose proof (FormatHex_no_byte n ";" ltac:(lia) ltac:(done)) as Hb.
    destruct Hext as [->|Hp].
    - by rewrite app_empty_r, IndexByte_none.
    - apply HasPrefix_spec in Hp as [r ->]. change (";" +:+ r) with (String ";" r).
      by rewrite IndexByte_app, str_take_app. }
  rewrite Hs, TrimSpace_noop.
  - rewrite ParseInt16_FormatHex by done.
    by replace (n <? 0) with false by (symmetry; apply Z.ltb_ge; lia).
  - eapply str_forallb_impl; [apply lower_hex_graphic|]. apply FormatHex_digits. lia.
Qed.

(** ** Lemmas: one read *)

Lemma nextChunk_header n ext rest fin : 0 < n <= int64_max ->
  no_byte LF ext = true -> no_byte CR ext = true -> ext = "" \/ HasPrefix ext ";" = true ->
  nextChunk {| input := FormatHex n +:+ ext +:+ CRLF +:+ rest; remaining := 0; finished := fin |}
  = (None, {| input := rest; remaining := n; finished := fin |}).
Proof.
  intros Hn Hl Hc Hext. unfold nextChunk. cbn [input remaining finished].
  rewrite <-str_app_assoc, readLine_app by
    (rewrite no_byte_app, FormatHex_no_byte, ?Hl, ?Hc by (try done; lia); done).
  replace (String.eqb (FormatHex n +:+ ext) "") with false.
  - rewrite chunkSize_header by (try done; lia). by replace (n =? 0) with false by lia.
  - symmetry. apply String.eqb_neq. intros E.
    apply (formatHex_nonempty_S 15 n ""). unfold FormatHex in E. by destruct (formatHex_go 16 n "").
Qed.

Lemma nextChunk_last ext trailers fin :
  no_byte LF ext = true -> no_byte CR ext = true -> ext = "" \/ HasPrefix ext ";" = true ->
  exists s, nextChunk {| input := "0" +:+ ext +:+ CRLF +:+ trailers; remaining := 0; finished := fin |}
  = (None, {| input := s; remaining := 0; finished := true |}).
Proof.
  intros Hl Hc Hext. unfold nextChunk. cbn [input remaining finished].
  rewrite <-str_app_assoc, readLine_app by (rewrite no_byte_app, ?Hl, ?Hc; done).
  assert (Hsize : chunkSize ("0" +:+ ext) = Ok 0).
  { apply (chunkSize_header 0 ext); [unfold int64_max; lia|done]. }
  replace (String.eqb ("0" +:+ ext) "") with false by done. rewrite Hsize. eexists. reflexivity.
Qed.

Lemma take_take_app n (a b : string) : (n <= len a)%nat ->
  str_take n (a +:+ b) = str_take n a /\ str_drop n (a +:+ b) = str_drop n a +:+ b.
Proof.
  revert a. induction n as [|n IH]; intros a Hn; [done|].
  destruct a as [|c a]; [cbn in Hn; lia|].
  destruct (IH a) as [E1 E2]; [unfold len in *; cbn in *; lia|].
  rewrite app_cons. cbn [str_take str_drop]. by rewrite E1, E2.
Qed.

(** A read inside a chunk returns some of its bytes; with the last of them the
    terminator goes. *)
Lemma readData_chunk plen ready data rest : (0 < plen)%nat -> (0 < ready)%nat -> data <> "" ->
  exists d data', data = d +:+ data' /\ d <> "" /\
    readData plen ready {| input := data +:+ CRLF +:+ rest; remaining := Z.of_nat (len data);
                           finished := false |}
    = (d, None, {| input := if String.eqb data' "" then rest else data' +:+ CRLF +:+ rest;
                   remaining := Z.of_nat (len data'); finished := false |}).
Proof.
  intros Hp Hr Hd. assert (Hl : (0 < len data)%nat) by (destruct data; [done|cbn; lia]).
  set (n := Nat.min (if Z.of_nat (len data) <? Z.of_nat plen then len data else plen) ready).
  assert (Hn : (0 < n <= len data)%nat).
  { unfold n. destruct (Z.ltb_spec (Z.of_nat (len data)) (Z.of_nat plen)); lia. }
  exists (str_take n data), (str_drop n data).
  assert (Hld : len (str_take n data) = n) by (rewrite len_take; lia).
  split; [by rewrite take_drop_str|]. split; [intros E; rewrite E in Hld; cbn in Hld; lia|].
  unfold readData, bufRead. cbn [input remaining finished].
  assert (Hplen : (if Z.of_nat (len data) <? Z.of_nat plen then Z.to_nat (Z.of_nat (len data)) else plen)
    = (if Z.of_nat (len data) <? Z.of_nat plen then len data else plen)).
  { case_if; [lia|done]. }
  rewrite Hplen.
  assert (Hmin : Nat.min (if Z.of_nat (len data) <? Z.of_nat plen then len data else plen)
      (Nat.min ready (len (data +:+ CRLF +:+ rest))) = n).
  { rewrite len_app. unfold n. lia. }
  rewrite Hmin. replace (n =? 0)%nat with false by (symmetry; apply Nat.eqb_neq; lia). cbn [andb].
  destruct (take_take_app n data (CRLF +:+ rest)) as [-> ->]; [lia|]. rewrite Hld.
  assert (Hleft : Z.of_nat (len data) - Z.of_nat n = Z.of_nat (len (str_drop n data))).
  { rewrite len_drop. lia. }
  rewrite Hleft. destruct (str_drop n data) as [|c t] eqn:Et.
  - cbn. done.
  - cbn [String.eqb]. replace (Z.of_nat (len (String c t)) =? 0) with false; [done|].
    symmetry. apply Z.eqb_neq. cbn. lia.
Qed.

(** ** The stream *)

(** What is left to decode: at a header, or inside a chunk. [stop] is the
    stream after the data chunks. *)
Inductive pending_stream (stop : string) : chunkedReader -> string -> Prop :=
| ps_header chunks : Forall chunk_ok chunks ->
    pending_stream stop {| input := encodeChunks chunks +:+ stop; remaining := 0; finished := false |}
      (payload chunks)
| ps_data data chunks : Forall chunk_ok chunks -> data <> "" ->
    pending_stream stop
      {| input := data +:+ CRLF +:+ encodeChunks chunks +:+ stop;
         remaining := Z.of_nat (len data); finished := false |}
      (data +:+ payload chunks).

Lemma data_step stop plen ready data chunks : (0 < plen)%nat -> (0 < ready)%nat ->
  Forall chunk_ok chunks -> data <> "" ->
  exists d c' out', data +:+ payload chunks = d +:+ out' /\ d <> "" /\
    readData plen ready {| input := data +:+ CRLF +:+ encodeChunks chunks +:+ stop;
                           remaining := Z.of_nat (len data); finished := false |} = (d, None, c') /\
    pending_stream stop c' out'.
Proof.
  intros Hp Hr Hok Hd.
  destruct (readData_chunk plen ready data (encodeChunks chunks +:+ stop) Hp Hr Hd)
    as (d & data' & -> & Hdne & ->).
  eexists d, _, (data' +:+ payload chunks). rewrite str_app_assoc. split_and!; try done.
  destruct data' as [|c t]; [by apply ps_header|by apply ps_data].
Qed.

(** A read of a stream with bytes to come makes progress. *)
Lemma Read_step stop plen ready c out : (0 < plen)%nat -> (0 < ready)%nat ->
  pending_stream stop c out -> out <> "" ->
  exists d c' out', out = d +:+ out' /\ d <> "" /\ Read plen ready c = (d, None, c') /\
    pending_stream stop c' out'.
Proof.
  intros Hp Hr Hc Hout. destruct Hc as [chunks Hok|data chunks Hok Hd].
  - destruct chunks as [|[ext data] chunks]; [done|]. apply Forall_cons in Hok as [Hch Hok].
    destruct Hch as (Hd & Hlen & Hl & Hcr & Hext).
    assert (Hpos : 0 < Z.of_nat (len data)) by (destruct data; [done|cbn; lia]).
    destruct (data_step stop plen ready data chunks Hp Hr Hok Hd) as (d & c' & out' & Ho & Hdn & Hrd & Hps).
    exists d, c', out'. cbn [payload foldr snd]. split; [done|]. split; [done|]. split; [|done].
    unfold Read. cbn [finished remaining Z.eqb encodeChunks foldr encodeChunk].
    rewrite !str_app_assoc, nextChunk_header by (try done; lia). cbn [finished]. exact Hrd.
  - destruct (data_step stop plen ready data chunks Hp Hr Hok Hd) as (d & c' & out' & Ho & Hdn & Hrd & Hps).
    exists d, c', out'. split; [done|]. split; [done|]. split; [|done].
    unfold Read. cbn [finished remaining].
    replace (Z.of_nat (len data) =? 0) with false; [done|].
    symmetry. apply Z.eqb_neq. destruct data; [done|cbn; lia].
Qed.

(** How the stream ends decides how the decoding ends. *)
Lemma readAll_stream stop fin fuel sizes c out :
  (forall plen ready c, pending_stream stop c "" -> exists c', Read plen ready c = ("", fin, c')) ->
  fin <> None ->
  Forall (fun p => (0 < p.1)%nat /\ (0 < p.2)%nat) sizes ->
  pending_stream stop c out -> (len out < fuel)%nat ->
  readAll fuel sizes c = Some (out, match fin with Some EOF => None | _ => fin end).
Proof.
  intros Hend Hfin. revert sizes c out.
  induction fuel as [|fuel IH]; intros sizes c out Hs Hc Hf; [lia|]. cbn [readAll].
  assert (Hsz : exists plen ready, (match sizes with p :: _ => p | [] => (512%nat, 512%nat) end)
    = (plen, ready) /\ (0 < plen)%nat /\ (0 < ready)%nat).
  { destruct sizes as [|[pl rd] sizes]; [exists 512%nat, 512%nat; split; [done|lia]|].
    apply Forall_cons in Hs as [Hs _]. eauto. }
  destruct Hsz as (plen & ready & -> & Hp & Hr).
  destruct (decide (out = "")) as [->|Hout].
  - destruct (Hend plen ready c Hc) as [c' ->]. by destruct fin as [[]|].
  - destruct (Read_step stop plen ready c out Hp Hr Hc Hout) as (d & c' & out' & -> & Hd & -> & Hc').
    rewrite (IH (tail sizes) c' out'); [done| |done|].
    + destruct sizes as [|p sizes]; [done|]. by apply Forall_cons in Hs as [_ Hs].
    + rewrite len_app in Hf. destruct d; [done|]. unfold len in *. cbn in Hf. lia.
Qed.

(** ** Properties *)

(** C37: whatever the sizes of the caller's buffers and of the reads below,
    a stream of chunks with a zero-size chunk is decoded to the bytes of the
    chunks in order and ends cleanly, after at most one read per byte. *)
Theorem chunked_roundtrip chunks ext trailers sizes :
  Forall chunk_ok chunks ->
  no_byte LF ext = true -> no_byte CR ext = true -> (ext = "" \/ HasPrefix ext ";" = true) ->
  Forall (fun p => (0 < p.1)%nat /\ (0 < p.2)%nat) sizes ->
  readAll (S (len (payload chunks))) sizes (newChunkedReader (encodeStream chunks ext trailers))
  = Some (payload chunks, None).
Proof.
  intros Hok Hl Hc Hext Hs.
  rewrite (readAll_stream ("0" +:+ ext +:+ CRLF +:+ trailers) (Some EOF) _ _ _ (payload chunks));
    [done| |done|done|by apply ps_header|lia].
  intros plen ready c Hps. unfold Read.
  inversion Hps as [chunks' Hok' Heq Hnil|data chunks' Hok' Hd Heq Hnil]; subst.
  - destruct chunks' as [|[e d] chunks']; [|apply Forall_cons in Hok' as [(? & _) _]; by destruct d].
    cbn [finished remaining Z.eqb encodeChunks foldr].
    destruct (nextChunk_last ext trailers false Hl Hc Hext) as [s Hn].
    lazymatch goal with |- context [nextChunk ?c] => replace (nextChunk c) with
      (None (A := ReadError), {| input := s; remaining := 0; finished := true |}) end.
    cbn [finished]. eauto.
  - by destruct data.
Qed.

Lemma chunked_roundtrip_witness :
  let chunks := [(";chunk-signature=ab", "hello"); ("", " world")] in
  readAll 12 [(2, 1); (3, 9)]%nat (newChunkedReader (encodeStream chunks ";chunk-signature=cd" CRLF))
  = Some ("hello world", None).
Proof.
  intros chunks.
  apply (chunked_roundtrip chunks ";chunk-signature=cd" CRLF [(2, 1); (3, 9)]%nat).
  - apply Forall_cons. split; [|apply Forall_singleton]; unfold chunk_ok;
      (split_and!; [done|by vm_compute|done|done|]); [by right|by left].
  - done.
  - done.
  - by right.
  - apply Forall_cons. split; [cbn; lia|]. apply Forall_singleton. cbn; lia.
Defined.

(** a stream that stops after whole chunks, without the zero-size chunk
    that ends the format, is taken for complete: the upload is cut short and no
    read reports it. *)
Theorem chunked_truncated chunks sizes :
  Forall chunk_ok chunks -> Forall (fun p => (0 < p.1)%nat /\ (0 < p.2)%nat) sizes ->
  readAll (S (len (payload chunks))) sizes (newChunkedReader (encodeChunks chunks))
  = Some (payload chunks, None).
Proof.
  intros Hok Hs. rewrite <-(app_empty_r (encodeChunks chunks)).
  rewrite (readAll_stream "" (Some EOF) _ _ _ (payload chunks));
    [done| |done|done|by apply ps_header|lia].
  intros plen ready c Hps. unfold Read.
  inversion Hps as [chunks' Hok' Heq Hnil|data chunks' Hok' Hd Heq Hnil]; subst.
  - destruct chunks' as [|[e d] chunks']; [|apply Forall_cons in Hok' as [(? & _) _]; by destruct d].
    cbn. eauto.
  - by destruct data.
Qed.

Lemma chunked_truncated_witness :
  readAll 6 [] (newChunkedReader (encodeChunks [("", "hello")])) = Some ("hello", None).
Proof.
  apply (chunked_truncated [("", "hello")] []); [|by constructor].
  apply Forall_singleton. unfold chunk_ok. split_and!; [done|by vm_compute|done|done|by left].
Defined.
