(* ===== verification/S3List.v ===== *)
(** * internal/serve/s3serve/list.go: listing a bucket in key order

    A share merges sources; a source is a file system ([ReadDir], None for an
    error) below a path.  [collectRecursive] walks the tree and stops at the
    limit, [collectSingleLevel] reads one directory, [listShare] merges, sorts,
    removes duplicate keys and cuts the page.  The recursion of the walk takes
    fuel for the depth of the tree.  sort.Slice is any function that returns a
    sorted permutation.  The theorems: a recursive page holds the first keys
    after the marker, in order, without loss or repetition; the same does not
    hold of a page with a delimiter, nor does the first source always win. *)

From Stdlib Require Import ZArith Lia Ascii.
From stdpp Require Import base list strings sorting.
From S2P Require Import Prelude GoStrings.

(** ** Data *)

Record FileInfo := { Name : string; IsDir : bool; Size : Z }.

(** The part of a share source the listing uses. *)
Record ShareSource := { Path : string; ReadDir : string -> option (list FileInfo) }.

Record listEntry := { key : string; size : Z; isPrefix : bool; src : ShareSource }.

Definition sourceFSPath (s : ShareSource) (relPath : string) : string :=
  if String.eqb (Path s) "" then relPath
  else if String.eqb relPath "" then Path s
  else Path s +:+ "/" +:+ relPath.

Definition joinKey (dir name : string) : string :=
  if String.eqb dir "" then name else dir +:+ "/" +:+ name.

(** "foo/ba" -> ("foo", "ba") *)
Definition splitPrefixDir (prefix : string) : string * string :=
  match LastIndexByte prefix "/" with
  | Some i => (str_take i prefix, str_drop (i + 1) prefix)
  | None => ("", prefix)
  end.

Definition key_less (a b : listEntry) : bool := str_ltb (key a) (key b).

Definition dirMayContain (dirKey prefix after : string) : bool :=
  if negb (HasPrefix dirKey prefix) && negb (HasPrefix prefix dirKey) then false
  else String.eqb after "" || str_ltb after dirKey || HasPrefix after dirKey.

(** ** One source *)

Definition itemKey (dir : string) (e : FileInfo) : string :=
  if IsDir e then joinKey dir (Name e) +:+ "/" else joinKey dir (Name e).

Section recursive.
Variables (source : ShareSource) (prefix after : string) (limit : nat).

(** Directories sort by their key with the "/". *)
Definition sortItems (dir : string) (entries : list FileInfo) : list FileInfo :=
  SliceStable (fun a b => str_ltb (itemKey dir a) (itemKey dir b)) entries.

Fixpoint walk (fuel : nat) (dir : string) (out : list listEntry) : list listEntry :=
  match fuel with
  | O => out
  | S fuel =>
      if (limit <=? length out)%nat then out
      else match ReadDir source (sourceFSPath source dir) with
      | None => out
      | Some entries =>
          foldl (fun out it =>
            if (limit <=? length out)%nat then out
            else if IsDir it then
              if dirMayContain (itemKey dir it) prefix after
              then walk fuel (joinKey dir (Name it)) out else out
            else
              let k := joinKey dir (Name it) in
              if negb (HasPrefix k prefix) || str_leb k after then out
              else out ++ [{| key := k; size := Size it; isPrefix := false; src := source |}])
            out (sortItems dir entries)
      end
  end.

Definition collectRecursive (fuel : nat) : list listEntry :=
  walk fuel (fst (splitPrefixDir prefix)) [].

(** One directory: sub-directories are common prefixes; the loop stops at the
    limit, in the order of [ReadDir]. *)
Definition collectSingleLevel : list listEntry :=
  let '(scanDir, namePfx) := splitPrefixDir prefix in
  match ReadDir source (sourceFSPath source scanDir) with
  | None => []
  | Some entries =>
      SliceStable key_less (foldl (fun out e =>
        if (0 <? length out)%nat && (limit <=? length out)%nat then out
        else if negb (HasPrefix (Name e) namePfx) then out
        else
          let k := itemKey scanDir e in
          if str_leb k after then out
          else out ++ [{| key := k; size := if IsDir e then 0%Z else Size e;
                          isPrefix := IsDir e; src := source |}]) [] entries)
  end.
End recursive.

Definition collectSource (fuel : nat) (source : ShareSource) (prefix delimiter after : string)
    (limit : nat) : list listEntry :=
  if String.eqb delimiter "/" then collectSingleLevel source prefix after limit
  else collectRecursive source prefix after limit fuel.

(** ** The share *)

(** Drop an entry with the key of the last one kept. *)
Definition dedupKeys (all : list listEntry) : list listEntry :=
  foldl (fun out e => if match last out with Some l => String.eqb (key e) (key l) | None => false end
                      then out else out ++ [e]) [] all.

Section share.
(** [sort.Slice] by key. *)
Variable sortSlice : list listEntry -> list listEntry.

Definition listShare (fuel : nat) (sources : list ShareSource) (prefix delimiter after : string)
    (max : Z) : list listEntry * bool :=
  let max := Z.to_nat (if (max <=? 0)%Z then 1000%Z else max) in
  let all := sources ≫= fun s => collectSource fuel s prefix delimiter after (max + 1) in
  let deduped := dedupKeys (sortSlice all) in
  let truncated := (max <? length deduped)%nat in
  (if truncated then take max deduped else deduped, truncated).
End share.

(** ** The ideal listing *)

(** Every file below a directory with its key, in key order, without filter or
    limit. *)
Section listing.
Variable source : ShareSource.

Fixpoint listing (fuel : nat) (dir : string) : list (string * Z) :=
  match fuel with
  | O => []
  | S fuel =>
      match ReadDir source (sourceFSPath source dir) with
      | None => []
      | Some entries =>
          sortItems dir entries ≫= fun it =>
            if IsDir it then listing fuel (joinKey dir (Name it))
            else [(joinKey dir (Name it), Size it)]
      end
  end.

(** The files of the tree. *)
Inductive object_at : string -> string -> Z -> Prop :=
| oa_file dir entries e :
    ReadDir source (sourceFSPath source dir) = Some entries -> e ∈ entries -> IsDir e = false ->
    object_at dir (joinKey dir (Name e)) (Size e)
| oa_dir dir entries e k n :
    ReadDir source (sourceFSPath source dir) = Some entries -> e ∈ entries -> IsDir e = true ->
    object_at (joinKey dir (Name e)) k n -> object_at dir k n.

(** The tree below [dir] is at most [fuel] levels deep. *)
Fixpoint fits (fuel : nat) (dir : string) : Prop :=
  match fuel with
  | O => False
  | S fuel => forall entries e, ReadDir source (sourceFSPath source dir) = Some entries ->
      e ∈ entries -> IsDir e = true -> fits fuel (joinKey dir (Name e))
  end.

(** Names are what a file system has: distinct in a directory, not empty,
    without "/". *)
Definition names_ok : Prop := forall path entries, ReadDir source path = Some entries ->
  NoDup (Name <$> entries) /\
  Forall (fun e => Name e <> "" /\ no_byte "/" (Name e) = true) entries.

Lemma listing_elem fuel dir k n : fits fuel dir ->
  (k, n) ∈ listing fuel dir <-> object_at dir k n.
Proof.
  revert dir. induction fuel as [|fuel IH]; intros dir Hf; [done|]. cbn [listing]. cbn [fits] in Hf.
  destruct (ReadDir source (sourceFSPath source dir)) as [entries|] eqn:Er.
  - rewrite list_elem_of_bind. unfold sortItems. split.
    + intros (e & Hin & He). rewrite SliceStable_perm in He.
      destruct (IsDir e) eqn:Ed.
      * rewrite IH in Hin by eauto. by eapply oa_dir.
      * apply list_elem_of_singleton in Hin as [= -> ->]. by eapply oa_file.
    + intros H. inversion H as [? entries' e Hr He Hd|? entries' e ? ? Hr He Hd Ho]; subst;
        assert (entries' = entries) as -> by congruence; exists e;
        rewrite SliceStable_perm, Hd; (split; [|done]); [apply list_elem_of_here|].
      apply IH; eauto.
  - rewrite elem_of_nil. split; [done|].
    intros H. by inversion H; subst; congruence.
Qed.

Lemma joinKey_ne dir name : name <> "" -> joinKey dir name <> "".
Proof. unfold joinKey. intros H. case_if; [done|]. by destruct dir. Qed.

Lemma listing_prefix fuel dir k n : dir <> "" -> (k, n) ∈ listing fuel dir ->
  names_ok -> HasPrefix k (dir +:+ "/") = true.
Proof.
  revert dir. induction fuel as [|fuel IH]; intros dir Hd Hin Hok; [by apply elem_of_nil in Hin|].
  cbn [listing] in Hin.
  destruct (ReadDir source (sourceFSPath source dir)) as [entries|] eqn:Er;
    [|by apply elem_of_nil in Hin].
  apply list_elem_of_bind in Hin as (e & Hin & He). unfold sortItems in He.
  rewrite SliceStable_perm in He.
  destruct (Hok _ _ Er) as [_ Hn]. rewrite Forall_forall in Hn. destruct (Hn e He) as [Hne _].
  assert (Hj : joinKey dir (Name e) = dir +:+ "/" +:+ Name e).
  { unfold joinKey. apply String.eqb_neq in Hd. by rewrite Hd. }
  destruct (IsDir e).
  - apply IH in Hin; [|by apply joinKey_ne|done]. rewrite Hj in Hin.
    apply HasPrefix_spec in Hin as [r ->]. rewrite !str_app_assoc.
    apply HasPrefix_spec. exists (Name e +:+ "/" +:+ r). by rewrite !str_app_assoc.
  - apply list_elem_of_singleton in Hin as [= -> ->]. rewrite Hj, <-str_app_assoc.
    apply HasPrefix_app.
Qed.
End listing.

(** ** Lemmas: the order of the listing *)

Lemma sorted_app {A} (R : A -> A -> Prop) l1 l2 :
  StronglySorted R l1 -> StronglySorted R l2 ->
  (forall x y, x ∈ l1 -> y ∈ l2 -> R x y) -> StronglySorted R (l1 ++ l2).
Proof.
  intros H1 H2 Hx. induction H1 as [|x l1 H1 IH Hall]; [done|]. cbn. constructor.
  - apply IH. intros y z Hy. apply Hx. by right.
  - apply Forall_app. split; [done|]. apply Forall_forall. intros y Hy. apply Hx; [by left|done].
Qed.

Lemma sorted_bind {A B} (R : A -> A -> Prop) (S : B -> B -> Prop) (f : A -> list B) l :
  StronglySorted R l -> (forall x, x ∈ l -> StronglySorted S (f x)) ->
  (forall x y, x ∈ l -> y ∈ l -> R x y -> forall u v, u ∈ f x -> v ∈ f y -> S u v) ->
  StronglySorted S (l ≫= f).
Proof.
  intros Hs Hf Hx. induction Hs as [|x l Hs IH Hall]; [constructor|]. rewrite bind_cons.
  apply sorted_app.
  - apply Hf. by left.
  - apply IH; [intros y Hy; apply Hf; by right|]. intros y z Hy Hz. apply Hx; by right.
  - intros u v Hu Hv. apply list_elem_of_bind in Hv as (y & Hv & Hy).
    rewrite Forall_forall in Hall. apply (Hx x y); [by left|by right|auto|done|done].
Qed.

Lemma sorted_filter {A} (R : A -> A -> Prop) (P : A -> Prop) `{forall x, Decision (P x)} l :
  StronglySorted R l -> StronglySorted R (filter P l).
Proof.
  induction 1 as [|x l Hs IH Hall]; [constructor|]. rewrite filter_cons. case_decide; [|done].
  constructor; [done|]. rewrite Forall_forall in Hall |- *. intros y Hy.
  apply Hall. by apply list_elem_of_filter in Hy as [_ ?].
Qed.

Lemma sorted_take {A} (R : A -> A -> Prop) n l : StronglySorted R l -> StronglySorted R (take n l).
Proof.
  intros Hs. revert n. induction Hs as [|x l Hs IH Hall]; intros [|n]; try constructor; [apply IH|].
  by apply Forall_take.
Qed.

(** The part of every key of a directory before the name. *)
Definition dirPart (dir : string) : string := if String.eqb dir "" then "" else dir +:+ "/".

Lemma joinKey_part dir name : joinKey dir name = dirPart dir +:+ name.
Proof. unfold joinKey, dirPart. case_if; [done|]. by rewrite str_app_assoc. Qed.

Lemma itemKey_part dir e : itemKey dir e = dirPart dir +:+ Name e +:+ (if IsDir e then "/" else "").
Proof.
  unfold itemKey. rewrite joinKey_part. case_if; [by rewrite str_app_assoc|by rewrite app_empty_r].
Qed.

Section ordered.
Variable source : ShareSource.
Hypothesis Hnames : names_ok source.

Lemma block_prefix fuel dir e k n entries :
  ReadDir source (sourceFSPath source dir) = Some entries -> e ∈ entries ->
  (k, n) ∈ (if IsDir e then listing source fuel (joinKey dir (Name e))
            else [(joinKey dir (Name e), Size e)]) ->
  (IsDir e = false /\ k = itemKey dir e) \/ (IsDir e = true /\ HasPrefix k (itemKey dir e) = true).
Proof.
  intros Hr He Hin. unfold itemKey. destruct (IsDir e) eqn:Ed.
  - right. split; [done|]. destruct (Hnames _ _ Hr) as [_ Hn]. rewrite Forall_forall in Hn.
    destruct (Hn e He) as [Hne _]. eapply listing_prefix; [|exact Hin|done]. by apply joinKey_ne.
  - left. apply list_elem_of_singleton in Hin as [= -> ->]. done.
Qed.

Lemma block_lt dir entries e1 e2 k1 k2 :
  ReadDir source (sourceFSPath source dir) = Some entries -> e1 ∈ entries -> e2 ∈ entries ->
  Name e1 <> Name e2 -> str_ltb (itemKey dir e1) (itemKey dir e2) = true ->
  (IsDir e1 = false /\ k1 = itemKey dir e1) \/ (IsDir e1 = true /\ HasPrefix k1 (itemKey dir e1) = true) ->
  (IsDir e2 = false /\ k2 = itemKey dir e2) \/ (IsDir e2 = true /\ HasPrefix k2 (itemKey dir e2) = true) ->
  str_ltb k1 k2 = true.
Proof.
  intros Hr H1 H2 Hne Hlt Hk1 Hk2. destruct (Hnames _ _ Hr) as [_ Hn]. rewrite Forall_forall in Hn.
  destruct (Hn e1 H1) as [_ Hb1], (Hn e2 H2) as [_ Hb2].
  assert (Hk2lt : str_ltb (itemKey dir e1) k2 = true).
  { destruct Hk2 as [[_ ->]|[_ [r ->]%HasPrefix_spec]]; [done|]. by apply str_ltb_leb_trans. }
  destruct Hk1 as [[_ ->]|[Hd1 [r1 ->]%HasPrefix_spec]]; [done|].
  apply str_ltb_extend; [done|]. apply not_true_iff_false. intros [r Hp]%HasPrefix_spec.
  rewrite itemKey_part, Hd1, !str_app_assoc in Hp.
  change ("/" +:+ r) with (String "/" r) in Hp.
  destruct Hk2 as [[Hd2 ->]|[Hd2 [r2 ->]%HasPrefix_spec]].
  - rewrite itemKey_part, Hd2, app_empty_r in Hp. apply str_app_inj_l in Hp. rewrite Hp in Hb2.
    rewrite no_byte_app in Hb2. unfold no_byte in Hb2 at 2. cbn [ContainsByte] in Hb2.
    rewrite Ascii.eqb_refl in Hb2. by rewrite andb_false_r in Hb2.
  - rewrite itemKey_part, Hd2, !str_app_assoc in Hp. apply str_app_inj_l in Hp.
    change ("/" +:+ r2) with (String "/" r2) in Hp. by apply no_byte_cut in Hp as [? _].
Qed.

Lemma itemKey_inj dir entries e1 e2 :
  ReadDir source (sourceFSPath source dir) = Some entries -> e1 ∈ entries -> e2 ∈ entries ->
  itemKey dir e1 = itemKey dir e2 -> Name e1 = Name e2.
Proof.
  intros Hr H1 H2 Heq. destruct (Hnames _ _ Hr) as [_ Hn]. rewrite Forall_forall in Hn.
  destruct (Hn e1 H1) as [_ Hb1], (Hn e2 H2) as [_ Hb2].
  rewrite !itemKey_part in Heq. apply str_app_inj_l in Heq.
  assert (Hcut : forall a b, no_byte "/" a = true -> a <> b +:+ "/").
  { intros a b Ha ->. rewrite no_byte_app in Ha. by rewrite andb_false_r in Ha. }
  destruct (IsDir e1), (IsDir e2); rewrite ?app_empty_r in Heq.
  - change ("/") with (String "/" "") in Heq. by apply no_byte_cut in Heq as [? _].
  - symmetry in Heq. by apply Hcut in Heq.
  - by apply Hcut in Heq.
  - done.
Qed.

Lemma sortItems_strict dir entries :
  ReadDir source (sourceFSPath source dir) = Some entries ->
  StronglySorted (fun a b => Name a <> Name b /\ str_ltb (itemKey dir a) (itemKey dir b) = true)
    (sortItems dir entries).
Proof.
  intros Hr. destruct (Hnames _ _ Hr) as [Hnd _].
  assert (Hs : StronglySorted (not_after (fun a b => str_ltb (itemKey dir a) (itemKey dir b)))
    (sortItems dir entries)).
  { apply SliceStable_Sorted with (P := fun _ => True); [|by apply Forall_true].
    split; intros *; eauto using str_ltb_asym, str_ltb_false_trans. }
  assert (Hperm : sortItems dir entries ≡ₚ entries) by apply SliceStable_perm.
  rewrite <-Hperm in Hnd.
  assert (Hin : forall e, e ∈ sortItems dir entries -> e ∈ entries) by (intros e; by rewrite Hperm).
  revert Hin Hnd. generalize (sortItems dir entries) as l, Hs. clear Hs Hperm.
  induction 1 as [|a l Hs IH Hall]; intros Hin Hnd; [constructor|].
  rewrite fmap_cons in Hnd. apply NoDup_cons in Hnd as [Ha Hnd]. constructor.
  { apply IH; [|done]. intros e He. apply Hin. by right. }
  rewrite Forall_forall in Hall |- *. intros b Hb.
  assert (Hne : Name a <> Name b).
  { intros E. apply Ha. rewrite E. by apply list_elem_of_fmap_2. }
  split; [done|]. specialize (Hall b Hb). unfold not_after in Hall.
  destruct (str_ltb (itemKey dir a) (itemKey dir b)) eqn:E; [done|].
  destruct Hne. eapply (itemKey_inj dir entries); [done|apply Hin; by left|apply Hin; by right|].
  by apply str_ltb_total.
Qed.

Lemma listing_sorted fuel dir :
  StronglySorted (fun a b => str_ltb a.1 b.1 = true) (listing source fuel dir).
Proof.
  revert dir. induction fuel as [|fuel IH]; intros dir; [constructor|]. cbn [listing].
  destruct (ReadDir source (sourceFSPath source dir)) as [entries|] eqn:Hr; [|constructor].
  assert (Hin : forall e, e ∈ sortItems dir entries -> e ∈ entries).
  { intros e. unfold sortItems. by rewrite SliceStable_perm. }
  eapply sorted_bind; [by apply sortItems_strict| |].
  - intros e He. destruct (IsDir e); [apply IH|]. by repeat constructor.
  - intros e1 e2 H1 H2 [Hne Hlt] [k1 n1] [k2 n2] Hk1 Hk2. cbn [fst].
    eapply (block_lt dir entries e1 e2); eauto using block_prefix.
Qed.
End ordered.

(** ** Lemmas: the walk is a prefix of the filtered listing *)

Section walk.
Variables (source : ShareSource) (prefix after : string) (limit : nat).
Hypothesis Hnames : names_ok source.

Definition wanted (kn : string * Z) : Prop :=
  HasPrefix kn.1 prefix = true /\ str_leb kn.1 after = false.

#[local] Instance wanted_dec kn : Decision (wanted kn).
Proof. unfold wanted. apply _. Defined.

Definition fileEntry (kn : string * Z) : listEntry :=
  {| key := kn.1; size := kn.2; isPrefix := false; src := source |}.

Definition extend (out : list listEntry) (l : list (string * Z)) : list listEntry :=
  out ++ (fileEntry <$> take (limit - length out) (filter wanted l)).

Lemma extend_app out l1 l2 : extend (extend out l1) l2 = extend out (l1 ++ l2).
Proof.
  unfold extend. rewrite filter_app, take_app, fmap_app, app_assoc. do 3 f_equal.
  rewrite length_app, length_fmap, length_take. lia.
Qed.

Lemma extend_nil out : extend out [] = out.
Proof. unfold extend. by rewrite filter_nil, take_nil, app_nil_r. Qed.

Lemma extend_full out l : (limit <= length out)%nat -> extend out l = out.
Proof. intros H. unfold extend. replace (limit - length out)%nat with 0%nat by lia. by rewrite app_nil_r. Qed.

Lemma extend_none out l : (forall x, x ∈ l -> ~ wanted x) -> extend out l = out.
Proof.
  intros H. unfold extend. replace (filter wanted l) with (@nil (string * Z)); [by rewrite take_nil, app_nil_r|].
  induction l as [|x l IH]; [done|]. rewrite filter_cons_False by (apply H; by left).
  apply IH. intros y Hy. apply H. by right.
Qed.

(** A directory that is skipped has nothing to list. *)
Lemma dirMayContain_sound dirKey k : dirMayContain dirKey prefix after = false ->
  HasPrefix k dirKey = true -> HasPrefix k prefix = true -> str_leb k after = true.
Proof.
  unfold dirMayContain. intros H Hd Hp.
  destruct (negb (HasPrefix dirKey prefix) && negb (HasPrefix prefix dirKey)) eqn:E.
  { bool_prop. destruct (HasPrefix_comparable k dirKey prefix Hd Hp); congruence. }
  bool_prop. apply HasPrefix_spec in Hd as [r ->]. rewrite str_leb_ltb, negb_true_iff.
  apply str_ltb_asym, str_ltb_extend; [|done].
  destruct (str_ltb dirKey after) eqn:E2; [done|].
  assert (after = dirKey) as -> by by apply str_ltb_total. by rewrite HasPrefix_refl in *.
Qed.

Lemma walk_eq fuel dir out :
  walk source prefix after limit fuel dir out = extend out (listing source fuel dir).
Proof.
  revert dir out. induction fuel as [|fuel IH]; intros dir out; cbn [walk listing];
    [by rewrite extend_nil|].
  destruct (Nat.leb_spec limit (length out)) as [Hfull|_]; [by rewrite extend_full|].
  destruct (ReadDir source (sourceFSPath source dir)) as [entries|] eqn:Hr; [|by rewrite extend_nil].
  assert (Hin : forall e, e ∈ sortItems dir entries -> e ∈ entries).
  { intros e. unfold sortItems. by rewrite SliceStable_perm. }
  revert out Hin. generalize (sortItems dir entries) as items.
  induction items as [|it items IHi]; intros out Hin; [by rewrite extend_nil|].
  cbn [foldl]. rewrite bind_cons, <-extend_app, IHi by (intros e He; apply Hin; by right).
  f_equal. clear IHi. destruct (Nat.leb_spec limit (length out)) as [Hfull|Hroom];
    [by rewrite extend_full|].
  destruct (IsDir it) eqn:Ed.
  - destruct (dirMayContain (itemKey dir it) prefix after) eqn:Em; [apply IH|].
    symmetry. apply extend_none. intros [k n] Hk [Hp Ha]. cbn [fst] in *.
    assert (Hb : (k, n) ∈ (if IsDir it then listing source fuel (joinKey dir (Name it))
      else [(joinKey dir (Name it), Size it)])) by by rewrite Ed.
    eapply block_prefix in Hb as [[? _]|[_ Hb]]; [congruence| |done|done|apply Hin; by left].
    pose proof (dirMayContain_sound _ _ Em Hb Hp). congruence.
  - unfold extend, wanted.
    destruct (negb (HasPrefix (joinKey dir (Name it)) prefix) ||
              str_leb (joinKey dir (Name it)) after) eqn:Ew.
    + rewrite filter_cons_False, filter_nil, take_nil, app_nil_r; [done|]. cbn [fst].
      intros [Hp Ha]. rewrite Hp, Ha in Ew. done.
    + bool_prop. rewrite filter_cons_True by done. rewrite filter_nil.
      replace (limit - length out)%nat with (S (limit - length out - 1)) by lia. cbn [take].
      by rewrite take_nil.
Qed.
End walk.

#[export] Existing Instance wanted_dec.

(** What a page of a source is. *)
Lemma collectRecursive_eq source prefix after limit fuel : names_ok source ->
  collectRecursive source prefix after limit fuel =
  fileEntry source <$> take limit (filter (wanted prefix after)
                                     (listing source fuel (splitPrefixDir prefix).1)).
Proof.
  intros Hn. unfold collectRecursive. rewrite walk_eq by done. unfold extend. cbn [length app].
  by rewrite Nat.sub_0_r.
Qed.

(** The first elements of a sorted list: every element of the list is among
    them or after them. *)
Lemma take_complete {A} (R : A -> A -> Prop) n (l : list A) x :
  StronglySorted R l -> x ∈ l ->
  x ∈ take n l \/ (length (take n l) = n /\ forall y, y ∈ take n l -> R y x).
Proof.
  intros Hs Hx. rewrite <-(take_drop n l) in Hx. apply elem_of_app in Hx as [Hx|Hx]; [by left|].
  right. split.
  - rewrite length_take. enough (n <= length l)%nat by lia.
    destruct (decide (n <= length l)%nat); [done|]. rewrite drop_ge in Hx by lia.
    by apply elem_of_nil in Hx.
  - intros y Hy. rewrite <-(take_drop n l) in Hs.
    revert Hs Hy Hx. generalize (take n l) as l1, (drop n l) as l2. intros l1 l2.
    induction l1 as [|z l1 IH]; intros Hs Hy Hx; [by apply elem_of_nil in Hy|].
    inversion Hs as [|? ? Hs' Hall]; subst. apply elem_of_cons in Hy as [->|Hy]; [|by apply IH].
    rewrite Forall_forall in Hall. apply Hall, elem_of_app. by right.
Qed.

(** ** Lemmas: merging the sources *)

Definition key_lt (a b : listEntry) : Prop := str_ltb (key a) (key b) = true.

Lemma sorted_last {A} (R : A -> A -> Prop) l x z :
  StronglySorted R l -> x ∈ l -> last l = Some z -> x = z \/ R x z.
Proof.
  intros Hs Hx Hl. apply last_Some in Hl as [l' ->].
  apply elem_of_app in Hx as [Hx|Hx]; [right|left; by apply list_elem_of_singleton in Hx].
  induction l' as [|y l' IH]; [by apply elem_of_nil in Hx|].
  inversion Hs as [|? ? Hs' Hall]; subst. apply elem_of_cons in Hx as [->|Hx]; [|by apply IH].
  rewrite Forall_forall in Hall. apply Hall, elem_of_app. right. apply list_elem_of_here.
Qed.

Lemma dedupKeys_spec l : StronglySorted (not_after key_less) l ->
  StronglySorted key_lt (dedupKeys l) /\
  (forall e, e ∈ dedupKeys l -> e ∈ l) /\
  (forall e, e ∈ l -> exists d, d ∈ dedupKeys l /\ key d = key e).
Proof.
  unfold dedupKeys. set (step := fun out e => _). intros Hs.
  assert (Hgen : forall out, StronglySorted key_lt out ->
    (forall d e, d ∈ out -> e ∈ l -> str_ltb (key e) (key d) = false) ->
    StronglySorted key_lt (foldl step out l) /\
    (forall e, e ∈ foldl step out l -> e ∈ out \/ e ∈ l) /\
    (forall e, e ∈ out \/ e ∈ l -> exists d, d ∈ foldl step out l /\ key d = key e)).
  { induction Hs as [|e l Hs IH Hall]; intros out Hout Hle; cbn [foldl].
    { split_and!; [done|auto|]. intros e [He|He]; [eauto|by apply elem_of_nil in He]. }
    rewrite Forall_forall in Hall.
    assert (Hstep : StronglySorted key_lt (step out e) /\
      (forall d, d ∈ step out e -> d ∈ out \/ d = e) /\
      (forall d, d ∈ out \/ d = e -> exists c, c ∈ step out e /\ key c = key d)).
    { unfold step. destruct (last out) as [z|] eqn:El.
      - destruct (String.eqb_spec (key e) (key z)) as [Heq|Hne].
        + split_and!; [done|auto|]. intros d [Hd| ->]; [eauto|]. exists z.
          split; [|done]. apply last_Some in El as [l' ->]. apply elem_of_app. right. apply list_elem_of_here.
        + split_and!.
          * apply sorted_app; [done|by repeat constructor|]. intros d y Hd ->%list_elem_of_singleton.
            unfold key_lt. pose proof (Hle d e Hd ltac:(by left)) as Hde.
            destruct (str_ltb (key d) (key e)) eqn:E; [done|]. exfalso.
            assert (Hk : key d = key e) by by apply str_ltb_total.
            destruct (sorted_last _ _ _ _ Hout Hd El) as [->|Hdz]; [done|].
            unfold key_lt in Hdz. rewrite Hk in Hdz.
            assert (Hz : z ∈ out) by (apply last_Some in El as [l' ->]; apply elem_of_app; right; apply list_elem_of_here).
            rewrite (Hle z e Hz) in Hdz; [done|by left].
          * intros d Hd. apply elem_of_app in Hd as [?| ->%list_elem_of_singleton]; auto.
          * intros d [Hd| ->]; [exists d|exists e]; (split; [|done]); apply elem_of_app;
              [by left|right; apply list_elem_of_here].
      - apply last_None in El as ->. split_and!; [by repeat constructor| |].
        + intros d Hd. right. by apply list_elem_of_singleton in Hd.
        + intros d [Hd| ->]; [by apply elem_of_nil in Hd|]. exists e. split; [apply list_elem_of_here|done]. }
    destruct Hstep as (S1 & S2 & S3).
    destruct (IH (step out e)) as (I1 & I2 & I3); [done| |].
    { intros d f Hd Hf. apply S2 in Hd as [Hd| ->]; [apply Hle; [done|by right]|]. by apply Hall. }
    split_and!; [done| |].
    - intros f Hf. apply I2 in Hf as [Hf|Hf]; [|right; by right].
      apply S2 in Hf as [Hf| ->]; [by left|right; by left].
    - intros f [Hf|Hf]; [|apply elem_of_cons in Hf as [->|Hf]].
      + destruct (S3 f ltac:(by left)) as (c & Hc & Hk). destruct (I3 c ltac:(by left)) as (d & Hd & Hk').
        exists d. split; [done|congruence].
      + destruct (S3 e ltac:(by right)) as (c & Hc & Hk). destruct (I3 c ltac:(by left)) as (d & Hd & Hk').
        exists d. split; [done|congruence].
      + apply I3. by right. }
  destruct (Hgen [] ltac:(constructor) ltac:(intros d e Hd; by apply elem_of_nil in Hd)) as (H1 & H2 & H3).
  split_and!; [done| |auto]. intros e He. apply H2 in He as [He|He]; [by apply elem_of_nil in He|done].
Qed.

(** The start of a strictly sorted list is closed downwards. *)
Lemma take_closed n (l : list listEntry) x y :
  StronglySorted key_lt l -> x ∈ take n l -> y ∈ l -> str_ltb (key y) (key x) = true -> y ∈ take n l.
Proof.
  intros Hs Hx Hy Hlt. destruct (take_complete key_lt n l y Hs Hy) as [?|[_ H]]; [done|].
  specialize (H x Hx). unfold key_lt in H. pose proof (str_ltb_asym _ _ H). congruence.
Qed.

Lemma key_lt_NoDup l : StronglySorted key_lt l -> NoDup (key <$> l).
Proof.
  induction 1 as [|x l Hs IH Hall]; [constructor|]. rewrite fmap_cons. constructor; [|done].
  intros Hx. apply list_elem_of_fmap in Hx as (y & Heq & Hy). rewrite Forall_forall in Hall.
  specialize (Hall y Hy). unfold key_lt in Hall. by rewrite Heq, str_ltb_irrefl in Hall.
Qed.

Lemma NoDup_subset_length (l1 l2 : list string) : NoDup l1 -> (forall x, x ∈ l1 -> x ∈ l2) ->
  (length l1 <= length l2)%nat.
Proof. intros Hn Hs. by apply submseteq_length, NoDup_submseteq. Qed.

(** The page of a source, in the terms of its files. *)
Lemma page_spec source prefix after limit fuel : names_ok source ->
  fits source fuel (splitPrefixDir prefix).1 ->
  let page := collectRecursive source prefix after limit fuel in
  StronglySorted key_lt page /\
  (forall e, e ∈ page -> src e = source /\ isPrefix e = false /\
     object_at source (splitPrefixDir prefix).1 (key e) (size e) /\ wanted prefix after (key e, size e)) /\
  (forall k n, object_at source (splitPrefixDir prefix).1 k n -> wanted prefix after (k, n) ->
     (exists e, e ∈ page /\ key e = k) \/
     (length page = limit /\ forall e, e ∈ page -> str_ltb (key e) k = true)).
Proof.
  intros Hn Hf page. unfold page. rewrite collectRecursive_eq by done.
  set (dir := (splitPrefixDir prefix).1) in *.
  set (L := filter (wanted prefix after) (listing source fuel dir)).
  assert (HL : StronglySorted (fun a b => str_ltb a.1 b.1 = true) L)
    by (apply sorted_filter, listing_sorted, Hn).
  split_and!.
  - pose proof (sorted_take _ limit _ HL) as Ht. revert Ht. generalize (take limit L). clear.
    induction 1 as [|x l Hs IH Hall]; [constructor|]. rewrite fmap_cons. constructor; [done|].
    apply Forall_fmap. rewrite Forall_forall in Hall |- *. intros y Hy. by apply Hall.
  - intros e He. apply list_elem_of_fmap in He as ([k n] & -> & Hin).
    apply elem_of_take in Hin as (i & Hin & _). apply list_elem_of_lookup_2 in Hin.
    apply list_elem_of_filter in Hin as [Hw Hin]. cbn [fileEntry src isPrefix key size fst snd].
    split_and!; [done|done| |done]. by eapply listing_elem.
  - intros k n Ho Hw. assert (Hin : (k, n) ∈ L).
    { apply list_elem_of_filter. split; [done|]. by apply listing_elem. }
    destruct (take_complete _ limit L (k, n) HL Hin) as [Ht|[Hl Hlt]].
    + left. exists (fileEntry source (k, n)). split; [|done]. by apply list_elem_of_fmap_2.
    + right. split; [by rewrite length_fmap|]. intros e He.
      apply list_elem_of_fmap in He as ([k' n'] & -> & He). by apply (Hlt (k', n')).
Qed.

(** When one source fills its share of the page below [k], so does the merge. *)
Lemma below_full M D P k : StronglySorted key_lt D -> StronglySorted key_lt P ->
  length P = (M + 1)%nat -> (forall e, e ∈ P -> exists d, d ∈ D /\ key d = key e) ->
  (forall e, e ∈ P -> str_ltb (key e) k = true) ->
  (M < length D)%nat /\ forall e, e ∈ take M D -> str_ltb (key e) k = true.
Proof.
  intros HD HP Hlen HPD Hlt. split.
  - enough (length (key <$> P) <= length (key <$> D))%nat by (rewrite !length_fmap in *; lia).
    apply NoDup_subset_length; [by apply key_lt_NoDup|].
    intros x Hx. apply list_elem_of_fmap in Hx as (p & -> & Hp).
    destruct (HPD p Hp) as (d & Hd & <-). by apply list_elem_of_fmap_2.
  - intros e He. destruct (str_ltb (key e) k) eqn:E; [done|]. exfalso.
    enough (length (key <$> P) <= length (key <$> take M D))%nat
      by (rewrite !length_fmap, length_take in *; lia).
    apply NoDup_subset_length; [by apply key_lt_NoDup|].
    intros x Hx. apply list_elem_of_fmap in Hx as (p & -> & Hp). specialize (Hlt p Hp).
    destruct (HPD p Hp) as (d & Hd & Hkd). rewrite <-Hkd in *. apply list_elem_of_fmap_2.
    apply (take_closed M D e d HD He Hd).
    destruct (str_ltb (key d) (key e)) eqn:E2; [done|].
    pose proof (str_ltb_false_trans k (key e) (key d) E E2). congruence.
Qed.

Definition pageSize (max : Z) : nat := Z.to_nat (if (max <=? 0)%Z then 1000%Z else max).

(** ** Properties *)

(** a recursive page of a share, whatever the sorting algorithm: the keys
    are strictly increasing, each is a file of a source with the prefix and
    after the marker, and every such file is on the page or, when the page is
    full and marked truncated, comes after all of it; a page is marked
    truncated only then. *)
Theorem listShare_recursive_page sortSlice fuel sources prefix after max :
  (forall l, sortSlice l ≡ₚ l /\ StronglySorted (not_after key_less) (sortSlice l)) ->
  (forall s, s ∈ sources -> names_ok s /\ fits s fuel (splitPrefixDir prefix).1) ->
  let '(page, truncated) := listShare sortSlice fuel sources prefix "" after max in
  StronglySorted key_lt page /\
  (forall e, e ∈ page -> src e ∈ sources /\
     object_at (src e) (splitPrefixDir prefix).1 (key e) (size e) /\
     wanted prefix after (key e, size e)) /\
  (forall s k n, s ∈ sources -> object_at s (splitPrefixDir prefix).1 k n ->
     wanted prefix after (k, n) ->
     (exists e, e ∈ page /\ key e = k) \/
     (truncated = true /\ length page = pageSize max /\
      forall e, e ∈ page -> str_ltb (key e) k = true)) /\
  (truncated = true -> exists s k n, s ∈ sources /\
     object_at s (splitPrefixDir prefix).1 k n /\ wanted prefix after (k, n) /\
     forall e, e ∈ page -> str_ltb (key e) k = true).
Proof.
  intros Hsort Hsrc. unfold listShare. fold (pageSize max). set (M := pageSize max).
  set (dir := (splitPrefixDir prefix).1) in *.
  set (all := sources ≫= _). destruct (Hsort all) as [Hperm Hsorted].
  destruct (dedupKeys_spec _ Hsorted) as (HD & Hsub & Hcov).
  set (D := dedupKeys (sortSlice all)) in *.
  assert (Hall : forall e, e ∈ all <-> exists s, s ∈ sources /\
    e ∈ collectRecursive s prefix after (M + 1) fuel).
  { intros e. unfold all. rewrite list_elem_of_bind. cbn. naive_solver. }
  assert (HDobj : forall e, e ∈ D -> src e ∈ sources /\ object_at (src e) dir (key e) (size e) /\
     wanted prefix after (key e, size e)).
  { intros e He. apply Hsub in He. rewrite Hperm, Hall in He. destruct He as (s & Hs & He).
    destruct (Hsrc s Hs) as [Hn Hf].
    destruct (page_spec s prefix after (M + 1) fuel Hn Hf) as (_ & Hobj & _).
    destruct (Hobj e He) as (<- & _ & ? & ?). done. }
  assert (Hout : (if (M <? length D)%nat then take M D else D) = take M D).
  { destruct (Nat.ltb_spec M (length D)); [done|]. by rewrite take_ge by lia. }
  rewrite Hout. split_and!.
  - by apply sorted_take.
  - intros e He. apply HDobj. by apply elem_of_take in He as (i & He%list_elem_of_lookup_2 & _).
  - intros s k n Hs Ho Hw. destruct (Hsrc s Hs) as [Hn Hf].
    destruct (page_spec s prefix after (M + 1) fuel Hn Hf) as (Hps & Hpo & Hpc).
    set (P := collectRecursive s prefix after (M + 1) fuel) in *.
    assert (HPD : forall e, e ∈ P -> exists d, d ∈ D /\ key d = key e).
    { intros e He. apply Hcov. rewrite Hperm, Hall. eauto. }
    destruct (Hpc k n Ho Hw) as [(e & He & Hk)|[Hlen Hlt]].
    + destruct (HPD e He) as (d & Hd & Hkd).
      destruct (Nat.ltb_spec M (length D)) as [Hm|Hm].
      2:{ left. exists d. rewrite take_ge by lia. split; [done|congruence]. }
      destruct (take_complete key_lt M D d HD Hd) as [Ht|[Hl Hbelow]].
      * left. exists d. split; [done|congruence].
      * right. split_and!; [done|done|]. intros e' He'. specialize (Hbelow e' He').
        unfold key_lt in Hbelow. by rewrite Hkd, Hk in Hbelow.
    + destruct (below_full M D P k HD Hps Hlen HPD Hlt) as [Hm Hbelow]. right.
      split_and!; [by apply Nat.ltb_lt|rewrite length_take; lia|done].
  - intros Hm%Nat.ltb_lt. destruct (lookup_lt_is_Some_2 D M Hm) as [d Hd].
    apply list_elem_of_lookup_2 in Hd as Hin. destruct (HDobj d Hin) as (Hs & Ho & Hw).
    exists (src d), (key d), (size d). split_and!; [done|done|done|].
    intros e He. destruct (take_complete key_lt M D d HD Hin) as [Ht|[_ Hlt]]; [|by apply Hlt].
    exfalso. apply elem_of_take in Ht as (i & Hi & Hlt).
    pose proof (key_lt_NoDup D HD) as Hnd.
    assert (i = M); [|lia]. apply (NoDup_lookup (key <$> D) i M (key d)); [done| |];
      by rewrite list_lookup_fmap, ?Hi, ?Hd.
Qed.

Lemma SliceStable_sorts l :
  SliceStable key_less l ≡ₚ l /\ StronglySorted (not_after key_less) (SliceStable key_less l).
Proof.
  split; [apply SliceStable_perm|]. apply SliceStable_Sorted with (P := fun _ => True);
    [|by apply Forall_true].
  unfold key_less. split; intros *; eauto using str_ltb_asym, str_ltb_false_trans.
Qed.

Definition file (name : string) (n : Z) : FileInfo := {| Name := name; IsDir := false; Size := n |}.
Definition dir (name : string) : FileInfo := {| Name := name; IsDir := true; Size := 0 |}.

(** A source with the root and one directory "b". *)
Definition sample_source : ShareSource := {|
  Path := "";
  ReadDir := fun p =>
    if String.eqb p "" then Some [file "a" 1; dir "b"; file "b-c" 2]
    else if String.eqb p "b" then Some [file "x" 3; file "y" 4] else None;
|}.

Lemma sample_source_ok : names_ok sample_source /\ fits sample_source 2 "".
Proof.
  split.
  - intros path entries. cbn [ReadDir sample_source].
    destruct (String.eqb path ""); [|destruct (String.eqb path "b"); [|done]]; intros [= <-];
      (split; [by apply (bool_decide_unpack _); vm_compute|repeat constructor; discriminate]).
  - cbn. intros entries e [= <-] He Hd.
    rewrite !elem_of_cons in He. destruct_or? He; subst; try done; [|by apply elem_of_nil in He].
    cbn. intros entries e [= <-] He Hd'. rewrite !elem_of_cons in He.
    destruct_or? He; subst; try done. by apply elem_of_nil in He.
Qed.

Lemma listShare_recursive_page_witness :
  key <$> fst (listShare (SliceStable key_less) 2 [sample_source] "" "" "a" 2) = ["b-c"; "b/x"] /\
  forall e, e ∈ fst (listShare (SliceStable key_less) 2 [sample_source] "" "" "a" 2) ->
    object_at (src e) "" (key e) (size e).
Proof.
  split; [by vm_compute|].
  pose proof (listShare_recursive_page (SliceStable key_less) 2 [sample_source] "" "a" 2
    SliceStable_sorts) as H.
  destruct (listShare (SliceStable key_less) 2 [sample_source] "" "" "a" 2) as [page truncated].
  destruct H as (_ & H & _).
  - intros s Hs. apply list_elem_of_singleton in Hs as ->. exact sample_source_ok.
  - intros e He. apply (H e He).
Defined.

(** Directories "a" and "a-" and a file "a-!": sorted by name as [ReadDir]
    returns them, but not by key. *)
Definition dashed_source : ShareSource := {|
  Path := "";
  ReadDir := fun p => if String.eqb p "" then Some [dir "a"; dir "a-"; file "a-!" 1]
                      else Some [];
|}.

(** with a delimiter the scan of a directory stops at the limit before it
    sorts, so a key that sorts early can be left out of its page and skipped
    by the next: here "a-!" is the first key of the bucket, and paging through
    it one key at a time never shows it. *)
Theorem listShare_delimiter_skips :
  let list after max := listShare (SliceStable key_less) 1 [dashed_source] "" "/" after max in
  key <$> fst (list "" 10%Z) = ["a-!"; "a-/"; "a/"] /\
  (key <$> fst (list "" 1%Z) = ["a-/"] /\ snd (list "" 1%Z) = true) /\
  (key <$> fst (list "a-/" 1%Z) = ["a/"] /\ snd (list "a-/" 1%Z) = false).
Proof. by vm_compute. Qed.

Definition one_file_source (n : Z) : ShareSource :=
  {| Path := ""; ReadDir := fun p => if String.eqb p "" then Some [file "k" n] else None |}.

(** which source wins a duplicate key depends on the order in which an
    unstable sort leaves equal keys: one correct sort lists the first source's
    object, another the second's. *)
Theorem listShare_duplicate_source :
  exists sort1 sort2,
    (forall l, sort1 l ≡ₚ l /\ StronglySorted (not_after key_less) (sort1 l)) /\
    (forall l, sort2 l ≡ₚ l /\ StronglySorted (not_after key_less) (sort2 l)) /\
    size <$> fst (listShare sort1 1 [one_file_source 1; one_file_source 2] "" "" "" 10) = [1%Z] /\
    size <$> fst (listShare sort2 1 [one_file_source 1; one_file_source 2] "" "" "" 10) = [2%Z].
Proof.
  exists (SliceStable key_less), (fun l => SliceStable key_less (reverse l)).
  split_and!; [apply SliceStable_sorts| |by vm_compute|by vm_compute].
  intros l. destruct (SliceStable_sorts (reverse l)) as [Hp Hs].
  split; [by rewrite Hp, reverse_Permutation|done].
Qed.
