(* ===== verification/BlobStore.v ===== *)
(** * internal/registry/blobstore: digest.go, memblob.go and the contract of blobstore.go

    Digests "algorithm:hex", the in-memory blob store with its upload
    sessions, and the interface [BlobStore] that clients (the Docker registry)
    are proved against, which the in-memory store implements.  A session is an
    object that outlives its entry in the session table, so a handle kept after
    Commit or Cancel still exists, closed.  Random ids and the clock are
    arguments.  The theorems: a parsed digest is in normal form; a blob is
    always stored under the hash of its bytes; Commit publishes all or
    nothing. *)

From Stdlib Require Import ZArith Lia Ascii.
From stdpp Require Import base list strings gmap.
From S2P Require Import Prelude GoStrings GoPath GoHash.

Local Open Scope Z_scope.

(** ** Digests *)

Record Digest := { Algorithm : string; Hex : string }.

#[export] Instance Digest_eq_dec : EqDecision Digest.
Proof. solve_decision. Defined.

Definition zeroDigest : Digest := {| Algorithm := ""; Hex := "" |}.

Definition DigestString (d : Digest) : string :=
  if String.eqb (Algorithm d) "" || String.eqb (Hex d) "" then ""
  else Algorithm d +:+ ":" +:+ Hex d.

Definition IsZero (d : Digest) : bool := String.eqb (Algorithm d) "" && String.eqb (Hex d) "".

Definition Equal (d other : Digest) : bool :=
  if negb (String.eqb (Algorithm d) (Algorithm other)) then false
  else EqualFold (Hex d) (Hex other).

Definition algorithmHexLength (alg : string) : option nat :=
  if String.eqb alg "sha256" then Some 64%nat
  else if String.eqb alg "sha512" then Some 128%nat
  else None.

Inductive DigestError := MissingSeparator | UnknownAlgorithm | BadLength | BadHex.

Definition ParseDigest (s : string) : result DigestError Digest :=
  match IndexByte s ":" with
  | None | Some O => Err MissingSeparator
  | Some idx =>
      if (idx =? len s - 1)%nat then Err MissingSeparator
      else
        let alg := str_take idx s in
        let hx := str_drop (idx + 1) s in
        match algorithmHexLength alg with
        | None => Err UnknownAlgorithm
        | Some wantLen =>
            if negb (len hx =? wantLen)%nat then Err BadLength
            else match DecodeString hx with
                 | None => Err BadHex
                 | Some _ => Ok {| Algorithm := alg; Hex := ToLower hx |}
                 end
        end
  end.

(** [NewHasher]: the hash function of an algorithm. *)
Definition NewHasher (alg : string) : option (string -> string) :=
  if String.eqb alg "sha256" then Some Sum256
  else if String.eqb alg "sha512" then Some Sum512
  else None.

(** [DigestFromHash]: the digest of a finished sum. *)
Definition DigestFromHash (alg sum : string) : Digest :=
  {| Algorithm := alg; Hex := EncodeToString sum |}.

(** ** The contract *)

(** [ModTime]: Unix seconds, None when unknown. *)
Record BlobInfo := { Size : Z; ModTime : option Z }.

Inductive BlobError :=
| ErrNotFound | ErrDigestMismatch (got : Digest) | ErrSessionNotFound | ErrSessionClosed
| ErrUnsupported | ErrBackend.

(** The calls garbage collection uses.  [Delete] may fail for reasons of the
    backend; [ListBlobs] is the snapshot the walk visits;
    [PruneAbandonedUploads], of a store that implements it, takes the maximal
    age in seconds and the dry-run flag. *)
Class BlobStore (B : Type) := {
  Get : B -> Digest -> result BlobError (string * BlobInfo);
  Delete : B -> Digest -> result BlobError B;
  ListBlobs : B -> list (Digest * BlobInfo);
  PruneAbandonedUploads : option (B -> Z -> bool -> nat * Z * option BlobError * B);
}.

(** A digest in normal form. *)
Definition normal (d : Digest) : Prop := ParseDigest (DigestString d) = Ok d.

(** What the contract promises of a store in an admissible state: the walk
    visits exactly the stored blobs, under their parsed digests, each once; a
    delete removes that blob and nothing else. *)
Class BlobStoreLaws (B : Type) `{BlobStore B} := {
  admissible : B -> Prop;
  List_parsed b d info : admissible b -> (d, info) ∈ ListBlobs b ->
    ParseDigest (DigestString d) = Ok d;
  List_Get b d info : admissible b -> (d, info) ∈ ListBlobs b ->
    exists data, Get b d = Ok (data, info);
  Get_List b d data info : admissible b -> ParseDigest (DigestString d) = Ok d ->
    Get b d = Ok (data, info) -> (d, info) ∈ ListBlobs b;
  List_NoDup b : admissible b -> NoDup (ListBlobs b).*1;
  Delete_admissible b d b' : admissible b -> normal d -> Delete b d = Ok b' -> admissible b';
  Delete_gone b d b' : admissible b -> normal d -> Delete b d = Ok b' -> is_ok (Get b' d) = false;
  Delete_other b d b' d' : admissible b -> normal d -> normal d' -> Delete b d = Ok b' ->
    d' <> d -> Get b' d' = Get b d';
  Prune_admissible prune b age dry : PruneAbandonedUploads = Some prune -> admissible b ->
    admissible (prune b age dry).2;
  Prune_Get prune b age dry d : PruneAbandonedUploads = Some prune -> admissible b -> normal d ->
    Get (prune b age dry).2 d = Get b d;
  Prune_dry prune b age : PruneAbandonedUploads = Some prune -> (prune b age true).2 = b;
}.

(** ** The in-memory store *)

Record memBlob := { data : string; modTime : Z }.

Record memSession := { buf : string; closed : bool }.

(** [objects] holds every session ever created; [sessions] is the table. *)
Record MemBlobStore := {
  blobs : gmap string memBlob;
  sessions : gset string;
  objects : gmap string memSession;
}.

Definition NewMemBlobStore : MemBlobStore := {| blobs := ∅; sessions := ∅; objects := ∅ |}.

Definition info_of (b : memBlob) : BlobInfo :=
  {| Size := Z.of_nat (len (data b)); ModTime := Some (modTime b) |}.

Definition memGet (m : MemBlobStore) (d : Digest) : result BlobError (string * BlobInfo) :=
  match blobs m !! DigestString d with
  | None => Err ErrNotFound
  | Some b => Ok (data b, info_of b)
  end.

Definition memStat (m : MemBlobStore) (d : Digest) : result BlobError BlobInfo :=
  match blobs m !! DigestString d with
  | None => Err ErrNotFound
  | Some b => Ok (info_of b)
  end.

Definition with_blobs (m : MemBlobStore) (bs : gmap string memBlob) : MemBlobStore :=
  {| blobs := bs; sessions := sessions m; objects := objects m |}.

Definition memDelete (m : MemBlobStore) (d : Digest) : result BlobError MemBlobStore :=
  match blobs m !! DigestString d with
  | None => Err ErrNotFound
  | Some _ => Ok (with_blobs m (delete (DigestString d) (blobs m)))
  end.

Definition memStartUpload (id : string) (m : MemBlobStore) : MemBlobStore := {|
  blobs := blobs m;
  sessions := {[ id ]} ∪ sessions m;
  objects := <[ id := {| buf := ""; closed := false |} ]> (objects m);
|}.

(** The handle of a session is its id. *)
Definition memResumeUpload (id : string) (m : MemBlobStore) : result BlobError string :=
  if bool_decide (id ∈ sessions m) then
    match objects m !! id with
    | Some s => if closed s then Err ErrSessionClosed else Ok id
    | None => Err ErrSessionNotFound
    end
  else Err ErrSessionNotFound.

Definition memListBlobs (m : MemBlobStore) : list (Digest * BlobInfo) :=
  omap (fun '(k, b) =>
    match ParseDigest k with Ok d => Some (d, info_of b) | Err _ => None end)
    (map_to_list (blobs m)).

(** Methods of a session object; an id without object is no session at all. *)
Definition sessionWrite (id p : string) (m : MemBlobStore) : result BlobError MemBlobStore :=
  match objects m !! id with
  | None => Err ErrSessionNotFound
  | Some s =>
      if closed s then Err ErrSessionClosed
      else Ok {| blobs := blobs m; sessions := sessions m;
                 objects := <[ id := {| buf := buf s +:+ p; closed := false |} ]> (objects m) |}
  end.

Definition sessionOffset (id : string) (m : MemBlobStore) : Z :=
  match objects m !! id with None => 0 | Some s => Z.of_nat (len (buf s)) end.

Definition sessionCommit (id : string) (expected : Digest) (now : Z) (m : MemBlobStore)
    : result BlobError Digest * MemBlobStore :=
  match objects m !! id with
  | None => (Err ErrSessionNotFound, m)
  | Some s =>
      if closed s then (Err ErrSessionClosed, m)
      else
        let alg := if String.eqb (Algorithm expected) "" then "sha256" else Algorithm expected in
        match NewHasher alg with
        | None => (Err ErrUnsupported, m)
        | Some h =>
            let got := DigestFromHash alg (h (buf s)) in
            if negb (IsZero expected) && negb (Equal expected got) then
              (Err (ErrDigestMismatch got), m)
            else
              (Ok got,
               {| blobs := <[ DigestString got := {| data := buf s; modTime := now |} ]> (blobs m);
                  sessions := sessions m ∖ {[ id ]};
                  objects := <[ id := {| buf := buf s; closed := true |} ]> (objects m) |})
        end
  end.

Definition sessionCancel (id : string) (m : MemBlobStore) : MemBlobStore :=
  match objects m !! id with
  | None => m
  | Some s =>
      if closed s then m
      else {| blobs := blobs m; sessions := sessions m ∖ {[ id ]};
              objects := <[ id := {| buf := ""; closed := true |} ]> (objects m) |}
  end.

#[export] Instance MemBlobStore_store : BlobStore MemBlobStore := {
  Get := memGet; Delete := memDelete; ListBlobs := memListBlobs; PruneAbandonedUploads := None;
}.

(** ** Lemmas: digests *)

Lemma lower_idem c : lower (lower c) = lower c.
Proof. by destruct c as [[] [] [] [] [] [] [] []]. Qed.

Lemma fromHexChar_lower c : fromHexChar (lower c) = fromHexChar c.
Proof. by destruct c as [[] [] [] [] [] [] [] []]. Qed.

Lemma lower_hex_id c : is_lower_hex c = true -> lower c = c.
Proof. by destruct c as [[] [] [] [] [] [] [] []]. Qed.

Lemma len_ToLower s : len (ToLower s) = len s.
Proof. unfold ToLower. induction s as [|c s IH]; [done|]. simpl in *. congruence. Qed.

Lemma ToLower_idem s : ToLower (ToLower s) = ToLower s.
Proof. unfold ToLower. induction s as [|c s IH]; [done|]. simpl. by rewrite lower_idem, IH. Qed.

Lemma ToLower_app a b : ToLower (a +:+ b) = ToLower a +:+ ToLower b.
Proof. unfold ToLower. induction a as [|c a IH]; [done|]. rewrite !app_cons. simpl. by rewrite IH. Qed.

Lemma ToLower_hex s : str_forallb is_lower_hex s = true -> ToLower s = s.
Proof.
  unfold ToLower. induction s as [|c s IH]; [done|]. simpl. intros H. bool_prop.
  by rewrite lower_hex_id, IH.
Qed.

Lemma DecodeString_lower s : is_Some (DecodeString s) -> is_Some (DecodeString (ToLower s)).
Proof.
  assert (H : forall n s, (len s < n)%nat -> is_Some (DecodeString s) ->
    is_Some (DecodeString (ToLower s))); [|by eauto].
  induction n as [|n IH]; [lia|]. intros [|a [|b t]] Hn; [done|done|].
  unfold ToLower in *. cbn [DecodeString str_map]. rewrite !fromHexChar_lower.
  destruct (fromHexChar a), (fromHexChar b); try by intros [].
  intros Ht. destruct (IH t) as [r ->]; [unfold len in *; simpl in Hn; lia| |by eexists].
  destruct (DecodeString t); [by eexists|by destruct Ht].
Qed.

(** The body of [ParseDigest] on a string cut at its first colon. *)
Lemma ParseDigest_cut alg hx : no_byte ":" alg = true -> alg <> "" -> hx <> "" ->
  ParseDigest (alg +:+ ":" +:+ hx) =
  match algorithmHexLength alg with
  | None => Err UnknownAlgorithm
  | Some wantLen =>
      if negb (len hx =? wantLen)%nat then Err BadLength
      else match DecodeString hx with
           | None => Err BadHex
           | Some _ => Ok {| Algorithm := alg; Hex := ToLower hx |}
           end
  end.
Proof.
  intros Hn Ha Hx. unfold ParseDigest. change (":" +:+ hx) with (String ":" hx).
  rewrite IndexByte_app by done.
  destruct alg as [|c alg]; [done|]. destruct hx as [|x hx]; [done|].
  set (a := String c alg) in *. destruct (len a) as [|n] eqn:El; [done|].
  rewrite len_app, El.
  replace (S n =? S n + len (String ":" (String x hx)) - 1)%nat with false
    by (symmetry; apply Nat.eqb_neq; unfold len; cbn [String.length]; lia).
  rewrite <-El, str_take_app.
  replace (a +:+ String ":" (String x hx)) with ((a +:+ ":") +:+ String x hx)
    by (by rewrite str_app_assoc).
  replace (len a + 1)%nat with (len (a +:+ ":")) by (by rewrite len_app).
  by rewrite str_drop_app.
Qed.

Lemma algorithmHexLength_Some alg n : algorithmHexLength alg = Some n ->
  (alg = "sha256" /\ n = 64%nat) \/ (alg = "sha512" /\ n = 128%nat).
Proof.
  unfold algorithmHexLength. destruct (String.eqb_spec alg "sha256"); [intros [= <-]; by left|].
  destruct (String.eqb_spec alg "sha512"); [intros [= <-]; by right|done].
Qed.

Lemma ParseDigest_inv s d : ParseDigest s = Ok d ->
  exists alg hx n, s = alg +:+ ":" +:+ hx /\ algorithmHexLength alg = Some n /\ len hx = n /\
    is_Some (DecodeString hx) /\ d = {| Algorithm := alg; Hex := ToLower hx |}.
Proof.
  unfold ParseDigest. destruct (IndexByte s ":") as [[|i]|] eqn:E; [done| |done].
  destruct (IndexByte_Some _ _ _ E) as [Hs _].
  case_if; [done|]. destruct (algorithmHexLength _) as [n|] eqn:Ea; [|done].
  case_if as El; [done|]. destruct (DecodeString _) as [x|] eqn:Ed; [|done]. intros [= <-].
  eexists _, _, n. split; [exact Hs|]. split; [done|].
  split; [|split; [by rewrite Ed; eexists|done]].
  apply Nat.eqb_eq. by destruct (_ =? _)%nat.
Qed.

Lemma ParseDigest_Ok alg hx n : algorithmHexLength alg = Some n -> len hx = n ->
  is_Some (DecodeString hx) ->
  ParseDigest (alg +:+ ":" +:+ hx) = Ok {| Algorithm := alg; Hex := ToLower hx |}.
Proof.
  intros Ha Hl [x Hx].
  rewrite ParseDigest_cut; [|by destruct (algorithmHexLength_Some _ _ Ha) as [[-> _]|[-> _]]..|].
  - by rewrite Ha, Hl, Nat.eqb_refl, Hx.
  - intros ->. destruct (algorithmHexLength_Some _ _ Ha) as [[_ ->]|[_ ->]]; done.
Qed.

Lemma DigestString_parsed alg hx n : algorithmHexLength alg = Some n -> len hx = n ->
  DigestString {| Algorithm := alg; Hex := hx |} = alg +:+ ":" +:+ hx.
Proof.
  intros Ha Hl. unfold DigestString. cbn [Algorithm Hex].
  destruct hx as [|c hx].
  - destruct (algorithmHexLength_Some _ _ Ha) as [[_ ->]|[_ ->]]; done.
  - by destruct (algorithmHexLength_Some _ _ Ha) as [[-> _]|[-> _]].
Qed.

(** A parsed digest prints as its source in lower case and is read back. *)
Lemma ParseDigest_normal s d : ParseDigest s = Ok d ->
  DigestString d = ToLower s /\ ParseDigest (DigestString d) = Ok d.
Proof.
  intros (alg & hx & n & -> & Ha & Hl & Hx & ->)%ParseDigest_inv.
  rewrite (DigestString_parsed _ _ n) by (by rewrite ?len_ToLower).
  split.
  - rewrite !ToLower_app. by destruct (algorithmHexLength_Some _ _ Ha) as [[-> _]|[-> _]].
  - rewrite (ParseDigest_Ok _ _ n) by (rewrite ?len_ToLower; eauto using DecodeString_lower).
    by rewrite ToLower_idem.
Qed.

Lemma DigestString_inj d d' : ParseDigest (DigestString d) = Ok d ->
  ParseDigest (DigestString d') = Ok d' -> DigestString d = DigestString d' -> d = d'.
Proof. intros H H' E. rewrite E in H. congruence. Qed.

Lemma NewHasher_length alg h : NewHasher alg = Some h ->
  exists n, algorithmHexLength alg = Some n /\ forall s, len (EncodeToString (h s)) = n.
Proof.
  unfold NewHasher, algorithmHexLength.
  destruct (String.eqb alg "sha256"); [intros [= <-]|destruct (String.eqb alg "sha512");
    [intros [= <-]|done]]; eexists; (split; [done|]); intros s;
    by rewrite len_EncodeToString, ?len_Sum256, ?len_Sum512.
Qed.

(** The digest of a sum is in normal form. *)
Lemma DigestFromHash_parses alg h s : NewHasher alg = Some h ->
  ParseDigest (DigestString (DigestFromHash alg (h s))) = Ok (DigestFromHash alg (h s)).
Proof.
  intros (n & Ha & Hl)%NewHasher_length. unfold DigestFromHash.
  rewrite (DigestString_parsed _ _ n), (ParseDigest_Ok _ _ n) by eauto using Decode_Encode.
  by rewrite ToLower_hex by apply EncodeToString_lower.
Qed.

Definition hex_char (c : ascii) : bool := is_some (fromHexChar c).

Lemma DecodeString_hex s : is_Some (DecodeString s) -> str_forallb hex_char s = true.
Proof.
  assert (H : forall k s, (len s < k)%nat -> is_Some (DecodeString s) ->
    str_forallb hex_char s = true); [|by eauto].
  induction k as [|k IH]; [lia|]. intros [|a [|b t]] Hk; [done|by intros []|].
  cbn [DecodeString]. intros [y Hy].
  destruct (fromHexChar a) eqn:Ea, (fromHexChar b) eqn:Eb; try done.
  destruct (DecodeString t) eqn:Et; [|done]. cbn [str_forallb]. unfold hex_char at 1 2.
  rewrite Ea, Eb. cbn [is_some andb]. apply IH; [|by eexists].
  unfold len in *. simpl in Hk. lia.
Qed.

Lemma hex_char_graphic c : hex_char c = true -> graphic c = true.
Proof. by destruct c as [[] [] [] [] [] [] [] []]; vm_compute. Qed.

Lemma ParseDigest_graphic s d : ParseDigest s = Ok d -> str_forallb graphic s = true.
Proof.
  intros (alg & hx & n & -> & Ha & _ & Hx & _)%ParseDigest_inv.
  rewrite !str_forallb_app, (str_forallb_impl hex_char graphic hx) by eauto using
    DecodeString_hex, hex_char_graphic.
  by destruct (algorithmHexLength_Some _ _ Ha) as [[-> _]|[-> _]].
Qed.

Lemma DecodeString_no_slash s : is_Some (DecodeString s) -> no_byte "/" s = true.
Proof. intros H%DecodeString_hex. by eapply no_byte_forallb; [|exact H]. Qed.

Lemma ParseDigest_no_slash s d : ParseDigest s = Ok d -> no_byte "/" s = true.
Proof.
  intros (alg & hx & n & -> & Ha & _ & Hx & _)%ParseDigest_inv.
  rewrite !no_byte_app, (DecodeString_no_slash hx Hx).
  by destruct (algorithmHexLength_Some _ _ Ha) as [[-> _]|[-> _]].
Qed.

Lemma DigestString_good d : ParseDigest (DigestString d) = Ok d -> good_seg (DigestString d).
Proof.
  intros Hd. pose proof (ParseDigest_no_slash _ _ Hd) as Hs.
  destruct (ParseDigest_inv _ _ Hd) as (alg & hx & n & E & Ha & _).
  unfold good_seg. rewrite Hs, E.
  destruct (algorithmHexLength_Some _ _ Ha) as [[-> _]|[-> _]]; split_and!; done.
Qed.

(** ** Invariant of the in-memory store *)

(** Every blob is stored under a digest of its own bytes, and the table lists
    exactly the open sessions. *)
Record mem_ok (m : MemBlobStore) : Prop := {
  ok_blobs : forall k b, blobs m !! k = Some b ->
    exists alg h, NewHasher alg = Some h /\ k = DigestString (DigestFromHash alg (h (data b)));
  ok_sessions : forall id, id ∈ sessions m <->
    exists s, objects m !! id = Some s /\ closed s = false;
}.

(** One call on the store or on a session; [ms_fail] covers the calls that
    only report. *)
Inductive mem_step (m : MemBlobStore) : MemBlobStore -> Prop :=
| ms_delete d m' : memDelete m d = Ok m' -> mem_step m m'
| ms_start id : mem_step m (memStartUpload id m)
| ms_write id p m' : sessionWrite id p m = Ok m' -> mem_step m m'
| ms_commit id expected now : mem_step m (snd (sessionCommit id expected now m))
| ms_cancel id : mem_step m (sessionCancel id m).

Inductive mem_reachable : MemBlobStore -> Prop :=
| mr_new : mem_reachable NewMemBlobStore
| mr_step m m' : mem_reachable m -> mem_step m m' -> mem_reachable m'.

Lemma mem_ok_new : mem_ok NewMemBlobStore.
Proof. split; cbn; [done|]. set_solver. Qed.

Lemma sessions_insert (ss : gset string) (os : gmap string memSession) id s :
  (forall i, i ∈ ss <-> exists s, os !! i = Some s /\ closed s = false) ->
  forall i, i ∈ (if closed s then ss ∖ {[ id ]} else {[ id ]} ∪ ss) <->
    exists s', <[ id := s ]> os !! i = Some s' /\ closed s' = false.
Proof.
  intros H i. destruct (decide (i = id)) as [->|Hne].
  - rewrite lookup_insert_eq. destruct (closed s) eqn:E; [|set_solver].
    split; [set_solver|]. intros (s' & [= <-] & Hs). congruence.
  - rewrite lookup_insert_ne, <-H by done. destruct (closed s); set_solver.
Qed.

Lemma sessions_write (ss : gset string) (os : gmap string memSession) id p s :
  (forall i, i ∈ ss <-> exists s, os !! i = Some s /\ closed s = false) ->
  os !! id = Some s -> closed s = false ->
  forall i, i ∈ ss <->
    exists s', <[ id := {| buf := p; closed := false |} ]> os !! i = Some s' /\ closed s' = false.
Proof.
  intros H Hs Hc i. rewrite <-(sessions_insert _ _ id {| buf := p; closed := false |} H i). cbn.
  assert (id ∈ ss) by (apply H; eauto). set_solver.
Qed.

Lemma mem_step_ok m m' : mem_ok m -> mem_step m m' -> mem_ok m'.
Proof.
  intros [Hb Hs] Hstep. destruct Hstep as [d m' H|id|id p m' H|id expected now|id].
  - unfold memDelete in H. destruct (blobs m !! _); [|done]. injection H as <-.
    split; cbn; [|done]. intros k b [_ H]%lookup_delete_Some. by apply Hb.
  - split; cbn; [done|].
    apply (sessions_insert _ _ id {| buf := ""; closed := false |} Hs).
  - unfold sessionWrite in H. destruct (objects m !! id) as [s|] eqn:E; [|done].
    destruct (closed s) eqn:Ec; [done|]. injection H as <-. split; cbn; [done|].
    by apply (sessions_write _ _ _ _ s Hs).
  - unfold sessionCommit. destruct (objects m !! id) as [s|]; [|by split].
    destruct (closed s); [by split|]. cbv zeta. destruct (NewHasher _) as [h|] eqn:Eh; [|by split].
    case_if; [by split|]. split; cbn.
    + intros k b [[<- <-]|[_ H]]%lookup_insert_Some; cbn; eauto.
    + apply (sessions_insert _ _ id {| buf := buf s; closed := true |} Hs).
  - unfold sessionCancel. destruct (objects m !! id) as [s|]; [|by split].
    destruct (closed s); [by split|]. split; cbn; [done|].
    apply (sessions_insert _ _ id {| buf := ""; closed := true |} Hs).
Qed.

Lemma mem_reachable_ok m : mem_reachable m -> mem_ok m.
Proof. induction 1; eauto using mem_ok_new, mem_step_ok. Qed.

#[export] Hint Resolve mem_reachable_ok mem_ok_new mem_step_ok : kutu.

Lemma mem_key_parses m k b : mem_ok m -> blobs m !! k = Some b ->
  exists d, k = DigestString d /\ ParseDigest k = Ok d.
Proof.
  intros Hm Hk. destruct (ok_blobs m Hm k b Hk) as (alg & h & Hh & ->).
  eexists. split; [done|by apply DigestFromHash_parses].
Qed.

Lemma memListBlobs_elem m d info : mem_ok m -> (d, info) ∈ memListBlobs m <->
  ParseDigest (DigestString d) = Ok d /\
  exists b, blobs m !! DigestString d = Some b /\ info = info_of b.
Proof.
  intros Hm. unfold memListBlobs. rewrite list_elem_of_omap. split.
  - intros ([k b] & Hk%elem_of_map_to_list & H).
    destruct (mem_key_parses m k b Hm Hk) as (d' & -> & Hd). rewrite Hd in H.
    injection H as <- <-. eauto.
  - intros (Hd & b & Hb & ->). exists (DigestString d, b). rewrite elem_of_map_to_list, Hd. done.
Qed.

Lemma memListBlobs_NoDup m : mem_ok m -> NoDup (memListBlobs m).*1.
Proof.
  intros Hm. unfold memListBlobs.
  assert (H : forall l : list (string * memBlob), l ⊆ map_to_list (blobs m) -> NoDup l.*1 ->
    NoDup (omap (fun '(k, b) => match ParseDigest k with
      Ok d => Some (d, info_of b) | Err _ => None end) l).*1).
  { induction l as [|[k b] l IH]; intros Hsub Hnd; [constructor|].
    rewrite fmap_cons in Hnd. apply NoDup_cons in Hnd as [Hk Hnd].
    assert (Hl : l ⊆ map_to_list (blobs m)) by set_solver.
    assert (Hkb : (k, b) ∈ map_to_list (blobs m)) by set_solver.
    cbn. apply elem_of_map_to_list, (mem_key_parses m k b Hm) in Hkb as (d & Ek & Hd).
    rewrite Hd, fmap_cons. apply NoDup_cons. split; [|by apply IH].
    intros ([d' info] & E & ([k' b'] & Hin & H)%list_elem_of_omap)%list_elem_of_fmap. cbn in E.
    subst d'. destruct (ParseDigest k') as [d'|] eqn:Hd'; [|done]. injection H as -> _.
    apply Hk, list_elem_of_fmap. exists (k', b'). split; [|done]. cbn.
    assert (Hk' : (k', b') ∈ map_to_list (blobs m)) by set_solver.
    apply elem_of_map_to_list, (mem_key_parses m k' b' Hm) in Hk' as (d'' & -> & Hd'').
    congruence. }
  apply H; [done|apply NoDup_fst_map_to_list].
Qed.

(** The in-memory store keeps the contract. *)
#[export] Program Instance MemBlobStore_laws : BlobStoreLaws MemBlobStore := {
  admissible := mem_ok;
}.
Next Obligation. intros b d info Hm H. by apply (memListBlobs_elem b d info Hm) in H as [? _]. Qed.
Next Obligation.
  intros b d info Hm H. apply (memListBlobs_elem b d info Hm) in H as (_ & x & Hx & ->).
  cbn. unfold memGet. rewrite Hx. by eexists.
Qed.
Next Obligation.
  cbn. unfold memGet. intros b d x info Hm Hd. destruct (blobs b !! _) as [y|] eqn:E; [|done].
  intros [= <- <-]. apply memListBlobs_elem; eauto.
Qed.
Next Obligation. exact memListBlobs_NoDup. Qed.
Next Obligation. intros b d b' Hm _ H. eapply mem_step_ok; [done|by eapply ms_delete]. Qed.
Next Obligation.
  cbn. unfold memDelete, memGet. intros b d b' Hm _. destruct (blobs b !! _); [|done].
  intros [= <-]. cbn. by rewrite lookup_delete_eq.
Qed.
Next Obligation.
  cbn. unfold memDelete, memGet. intros b d b' d' Hm Hd Hd'. destruct (blobs b !! _); [|done].
  intros [= <-] Hne. cbn. rewrite lookup_delete_ne; [done|].
  intros E. apply Hne. unfold normal in *. congruence.
Qed.
Next Obligation. done. Qed.
Next Obligation. done. Qed.
Next Obligation. done. Qed.

(** ** Lemmas: uploads *)

Definition concatAll (l : list string) : string := foldr (fun a b => a +:+ b) "" l.

Fixpoint writeAll (id : string) (chunks : list string) (m : MemBlobStore)
    : result BlobError MemBlobStore :=
  match chunks with
  | [] => Ok m
  | p :: chunks =>
      match sessionWrite id p m with Err e => Err e | Ok m => writeAll id chunks m end
  end.

Lemma writeAll_open id chunks : forall m b,
  objects m !! id = Some {| buf := b; closed := false |} ->
  exists m', writeAll id chunks m = Ok m' /\ blobs m' = blobs m /\ sessions m' = sessions m /\
    objects m' !! id = Some {| buf := b +:+ concatAll chunks; closed := false |}.
Proof.
  induction chunks as [|p chunks IH]; intros m b Ho; cbn [writeAll concatAll foldr].
  { exists m. by rewrite app_empty_r. }
  unfold sessionWrite. rewrite Ho. cbn [closed].
  destruct (IH {| blobs := blobs m; sessions := sessions m;
    objects := <[ id := {| buf := b +:+ p; closed := false |} ]> (objects m) |} (b +:+ p))
    as (m' & Hw & Hb & Hs & Ho'); [apply lookup_insert_eq|].
  exists m'. rewrite str_app_assoc in Ho'. eauto.
Qed.

Lemma writeAll_reachable id chunks : forall m m',
  mem_reachable m -> writeAll id chunks m = Ok m' -> mem_reachable m'.
Proof.
  induction chunks as [|p chunks IH]; intros m m' Hm; cbn [writeAll]; [by intros [= <-]|].
  destruct (sessionWrite id p m) as [m1|] eqn:E; [|done]. apply IH.
  eapply mr_step; [done|by eapply ms_write].
Qed.

Lemma parsed_hex d s : ParseDigest s = Ok d -> ToLower (Hex d) = Hex d.
Proof. intros (? & ? & ? & ? & ? & ? & ? & ->)%ParseDigest_inv. apply ToLower_idem. Qed.

(** On digests in normal form [Equal] is equality. *)
Lemma Equal_parsed d s alg h x : ParseDigest s = Ok d -> NewHasher alg = Some h ->
  Equal d (DigestFromHash alg (h x)) = true <-> d = DigestFromHash alg (h x).
Proof.
  intros Hd Hh. unfold Equal, EqualFold, DigestFromHash. rewrite (parsed_hex d s Hd).
  cbn [Algorithm Hex]. rewrite (ToLower_hex (EncodeToString _)) by apply EncodeToString_lower.
  destruct d as [a hx]. cbn [Algorithm Hex].
  destruct (String.eqb_spec a alg) as [->|]; cbn [negb]; [|split; [done|congruence]].
  rewrite String.eqb_eq. split; congruence.
Qed.

Lemma parsed_hasher d s : ParseDigest s = Ok d ->
  IsZero d = false /\ Algorithm d <> "" /\ exists h, NewHasher (Algorithm d) = Some h.
Proof.
  intros (alg & hx & n & _ & Ha & Hl & _ & ->)%ParseDigest_inv. unfold IsZero. cbn [Algorithm].
  destruct (algorithmHexLength_Some _ _ Ha) as [[-> _]|[-> _]]; split_and!; try done;
    by eexists.
Qed.

(** ** Properties *)

(** an accepted digest string is read into a normal form: printing gives the
    string in lower case, which reads back as the same digest, and two accepted
    strings are the same digest exactly when they differ only in case. *)
Theorem ParseDigest_spec s s' d d' : ParseDigest s = Ok d -> ParseDigest s' = Ok d' ->
  DigestString d = ToLower s /\ ParseDigest (DigestString d) = Ok d /\
  (d = d' <-> ToLower s = ToLower s').
Proof.
  intros Hs Hs'. destruct (ParseDigest_normal s d Hs) as [E Hp].
  destruct (ParseDigest_normal s' d' Hs') as [E' Hp']. rewrite <-E, <-E'.
  split_and!; [done|done|]. split; [by intros ->|by apply DigestString_inj].
Qed.

Definition sample_hex : string := "BA7816BF8F01CFEA414140DE5DAE2223B00361A396177A9CB410FF61F20015AD".

Lemma ParseDigest_spec_witness :
  exists d, ParseDigest ("sha256:" +:+ sample_hex) = Ok d /\
    DigestString d = ToLower ("sha256:" +:+ sample_hex).
Proof.
  eexists. split; [by vm_compute|].
  eapply (ParseDigest_spec ("sha256:" +:+ sample_hex) ("sha256:" +:+ sample_hex));
    by vm_compute.
Defined.

(** in every state the in-memory store reaches, whatever the calls on it and
    on its sessions, a blob read under a digest hashes to that digest. *)
Theorem memblob_integrity m d x info : mem_reachable m -> memGet m d = Ok (x, info) ->
  Size info = Z.of_nat (len x) /\
  exists alg h, NewHasher alg = Some h /\ DigestString d = DigestString (DigestFromHash alg (h x)).
Proof.
  intros Hm. unfold memGet. destruct (blobs m !! _) as [b|] eqn:E; [|done].
  intros [= <- <-]. split; [done|]. by apply (ok_blobs m (mem_reachable_ok m Hm)).
Qed.

Definition abc_digest : Digest := DigestFromHash "sha256" (Sum256 "abc").

(** One upload of "abc", committed at time 7. *)
Definition abc_store : MemBlobStore :=
  snd (sessionCommit "s" abc_digest 7
    (match writeAll "s" ["ab"; "c"] (memStartUpload "s" NewMemBlobStore) with
     | Ok m => m | Err _ => NewMemBlobStore end)).

Lemma memblob_integrity_witness : exists alg h, NewHasher alg = Some h /\
  DigestString abc_digest = DigestString (DigestFromHash alg (h "abc")).
Proof.
  eapply (memblob_integrity abc_store abc_digest "abc" {| Size := 3; ModTime := Some 7 |}).
  - apply (mr_step _ _ (writeAll_reachable "s" ["ab"; "c"] _ _
      (mr_step _ _ mr_new (ms_start _ "s")) eq_refl)), ms_commit.
  - by vm_compute.
Defined.

(** an upload publishes all or nothing: after any number of writes the
    blobs are untouched, committing under the digest of the bytes makes exactly
    that blob readable and closes the session for good, and committing under
    another digest changes nothing and leaves the session open. *)
Theorem upload_publishes m id chunks s d now :
  ParseDigest s = Ok d ->
  exists m2 h, writeAll id chunks (memStartUpload id m) = Ok m2 /\
    sessionOffset id m2 = Z.of_nat (len (concatAll chunks)) /\ blobs m2 = blobs m /\
    NewHasher (Algorithm d) = Some h /\
    let got := DigestFromHash (Algorithm d) (h (concatAll chunks)) in
    (d = got -> exists m3, sessionCommit id d now m2 = (Ok d, m3) /\
       memGet m3 d = Ok (concatAll chunks,
         {| Size := Z.of_nat (len (concatAll chunks)); ModTime := Some now |}) /\
       (forall d', DigestString d' <> DigestString d -> memGet m3 d' = memGet m d') /\
       memResumeUpload id m3 = Err ErrSessionNotFound /\
       forall p, sessionWrite id p m3 = Err ErrSessionClosed) /\
    (d <> got -> sessionCommit id d now m2 = (Err (ErrDigestMismatch got), m2) /\
       memResumeUpload id m2 = Ok id).
Proof.
  intros Hd. destruct (parsed_hasher d s Hd) as (Hz & Ha & h & Hh).
  destruct (writeAll_open id chunks (memStartUpload id m) "") as (m2 & Hw & Hb & Hs & Ho).
  { apply lookup_insert_eq. }
  change ("" +:+ concatAll chunks) with (concatAll chunks) in Ho.
  exists m2, h. unfold sessionOffset, sessionCommit. rewrite Ho. cbn [closed buf]. cbv zeta.
  apply String.eqb_neq in Ha. rewrite Ha, Hh, Hz. split_and!; [done|done|done|done| |]; cbn [negb andb].
  - intros Hg. rewrite <-Hg.
    assert (E : Equal d d = true) by (rewrite Hg at 2; by apply (Equal_parsed d s)).
    rewrite E. cbn [negb]. eexists. split; [done|]. unfold memGet, memResumeUpload, sessionWrite.
    cbn [blobs sessions objects]. rewrite !lookup_insert_eq, bool_decide_false by set_solver.
    split_and!; [done| |done|done]. intros d' Hne. by rewrite lookup_insert_ne, Hb.
  - intros Hg. destruct (Equal d _) eqn:E; [by apply (Equal_parsed d s) in E|].
    cbn [negb]. split; [done|]. unfold memResumeUpload.
    rewrite Hs, bool_decide_true by (cbn; set_solver). by rewrite Ho.
Qed.

Lemma upload_publishes_witness :
  exists m, writeAll "s" ["ab"; "c"] (memStartUpload "s" NewMemBlobStore) = Ok m /\ blobs m = ∅.
Proof.
  destruct (upload_publishes NewMemBlobStore "s" ["ab"; "c"] (DigestString abc_digest)
    abc_digest 7) as (m & _ & Hw & _ & Hb & _); [by vm_compute|by eauto].
Defined.
