(* ===== verification/GoJson.v ===== *)
(** * encoding/json as the program uses it

    A JSON document as a tree, the parser with Go's grammar (whitespace, string
    escapes with surrogate pairs, a nesting limit of 10000), the writer with
    Go's string escaping, and the accessors the program applies to decoded
    values.  An object keeps its members in order; [field] reads the last of
    equal keys, as a decoded map does, and [struct_field] looks a struct's key
    up with Go's case folding.  The parser takes fuel for the bytes left, which
    its entry point provides. *)

From Stdlib Require Import ZArith Lia Ascii.
From stdpp Require Import base list strings.
From S2P Require Import Prelude GoStrings GoHash.

Local Open Scope Z_scope.

(** ** Documents *)

Inductive Json :=
| JNull
| JBool (b : bool)
| JNumber (text : string)
| JString (s : string)
| JArray (l : list Json)
| JObject (members : list (string * Json)).

Section json_ind.
Variable P : Json -> Prop.
Hypothesis Pnull : P JNull.
Hypothesis Pbool : forall b, P (JBool b).
Hypothesis Pnumber : forall t, P (JNumber t).
Hypothesis Pstring : forall s, P (JString s).
Hypothesis Parray : forall l, Forall P l -> P (JArray l).
Hypothesis Pobject : forall m, Forall (fun kv => P kv.2) m -> P (JObject m).

Fixpoint Json_nested (j : Json) : P j :=
  match j with
  | JNull => Pnull
  | JBool b => Pbool b
  | JNumber t => Pnumber t
  | JString s => Pstring s
  | JArray l =>
      Parray l ((fix go (l : list Json) : Forall P l :=
        match l with
        | [] => List.Forall_nil P
        | j :: l => List.Forall_cons P j l (Json_nested j) (go l)
        end) l)
  | JObject m =>
      Pobject m ((fix go (m : list (string * Json)) : Forall (fun kv => P kv.2) m :=
        match m with
        | [] => List.Forall_nil _
        | (k, j) :: m => List.Forall_cons _ (k, j) m (Json_nested j) (go m)
        end) m)
  end.
End json_ind.

(** ** Reading *)

Definition is_space (c : ascii) : bool :=
  let n := ord c in (n =? 32) || (n =? 9) || (n =? 10) || (n =? 13).

Fixpoint skip_space (s : string) : string :=
  match s with
  | "" => ""
  | String c t => if is_space c then skip_space t else s
  end.

(** The longest prefix of digits and the rest. *)
Fixpoint span_digits (s : string) : string * string :=
  match s with
  | "" => ("", "")
  | String c t =>
      if is_digit c then let '(d, r) := span_digits t in (String c d, r) else ("", s)
  end.

(** An optional part of a number: [Some ("", s)] when it is absent, None when it
    starts but has no digits. *)
Definition fraction_part (s : string) : option (string * string) :=
  match s with
  | String "." t =>
      let '(d, r) := span_digits t in
      if String.eqb d "" then None else Some (String "." d, r)
  | _ => Some ("", s)
  end.

Definition exponent_part (s : string) : option (string * string) :=
  match s with
  | String c t =>
      if Ascii.eqb c "e" || Ascii.eqb c "E" then
        let '(sign, t) := match t with
          | String g u => if Ascii.eqb g "+" || Ascii.eqb g "-" then (String g "", u) else ("", t)
          | "" => ("", t)
          end in
        let '(d, r) := span_digits t in
        if String.eqb d "" then None else Some (String c (sign +:+ d), r)
      else Some ("", s)
  | "" => Some ("", s)
  end.

Definition integer_part (s : string) : option (string * string) :=
  match s with
  | String "0" t => Some ("0", t)
  | _ => let '(d, r) := span_digits s in if String.eqb d "" then None else Some (d, r)
  end.

Definition parse_number (s : string) : option (string * string) :=
  let '(sign, s) := match s with String "-" t => ("-", t) | _ => ("", s) end in
  i ← integer_part s; f ← fraction_part i.2; e ← exponent_part f.2;
  Some (sign +:+ i.1 +:+ f.1 +:+ e.1, e.2).

Definition hex4 (s : string) : option (Z * string) :=
  match s with
  | String a (String b (String c (String d t))) =>
      match fromHexChar a, fromHexChar b, fromHexChar c, fromHexChar d with
      | Some a, Some b, Some c, Some d => Some (4096 * a + 256 * b + 16 * c + d, t)
      | _, _, _, _ => None
      end
  | _ => None
  end.

Definition is_surrogate (r : Z) : bool := (0xD800 <=? r) && (r <=? 0xDFFF).

(** The rune of an escape [\uXXXX], whose digits are the start of [s]: a high
    surrogate joins a low one that follows, and is an error rune alone. *)
Definition unicode_escape (s : string) : option (Z * string) :=
  match hex4 s with
  | None => None
  | Some (r, t) =>
      if negb (is_surrogate r) then Some (r, t)
      else
        let alone := Some (RuneError, t) in
        match t with
        | String "\" (String "u" u) =>
            match hex4 u with
            | Some (r2, u') =>
                if (r <? 0xDC00) && (0xDC00 <=? r2) && (r2 <=? 0xDFFF)
                then Some (0x10000 + (r - 0xD800) * 1024 + (r2 - 0xDC00), u')
                else alone
            | None => alone
            end
        | _ => alone
        end
  end.

(** The text of a string after its opening quote, escapes replaced. *)
Fixpoint parse_chars (fuel : nat) (s : string) : option (string * string) :=
  match fuel, s with
  | O, _ | _, "" => None
  | S fuel, String c t =>
      let n := ord c in
      if n =? 34 then Some ("", t)
      else if n <? 32 then None
      else if negb (n =? 92) then
        r ← parse_chars fuel t; Some (String c r.1, r.2)
      else
        match t with
        | "" => None
        | String e t =>
            let plain (x : Z) := r ← parse_chars fuel t; Some (String (chr x) r.1, r.2) in
            let n := ord e in
            if (n =? 34) || (n =? 92) || (n =? 47) then plain n
            else if n =? 98 then plain 8
            else if n =? 102 then plain 12
            else if n =? 110 then plain 10
            else if n =? 114 then plain 13
            else if n =? 116 then plain 9
            else if n =? 117 then
              u ← unicode_escape t; r ← parse_chars fuel u.2; Some (EncodeRune u.1 +:+ r.1, r.2)
            else None
        end
  end.

(** A string value: bytes that are not UTF-8 become error runes. *)
Definition parse_string (s : string) : option (string * string) :=
  r ← parse_chars (S (len s)) s; Some (EncodeRunes (runes r.1), r.2).

Definition maxNestingDepth : Z := 10000.

Definition literal (w : string) (j : Json) (s : string) : option (Json * string) :=
  if HasPrefix s w then Some (j, TrimPrefix s w) else None.

(** [parse_value], [parse_elements] after "[" or ",", [parse_members] after "{"
    or ","; [depth] arrays and objects are open. *)
Fixpoint parse_value (fuel : nat) (depth : Z) (s : string) {struct fuel}
    : option (Json * string) :=
  match fuel with
  | O => None
  | S fuel =>
      match skip_space s with
      | "" => None
      | String c t as s =>
          let n := ord c in
          if n =? 34 then r ← parse_string t; Some (JString r.1, r.2)
          else if n =? 123 then
            if maxNestingDepth <=? depth then None else
            match skip_space t with
            | String "}" u => Some (JObject [], u)
            | _ => r ← parse_members fuel (depth + 1) t; Some (JObject r.1, r.2)
            end
          else if n =? 91 then
            if maxNestingDepth <=? depth then None else
            match skip_space t with
            | String "]" u => Some (JArray [], u)
            | _ => r ← parse_elements fuel (depth + 1) t; Some (JArray r.1, r.2)
            end
          else if n =? 116 then literal "true" (JBool true) s
          else if n =? 102 then literal "false" (JBool false) s
          else if n =? 110 then literal "null" JNull s
          else r ← parse_number s; Some (JNumber r.1, r.2)
      end
  end
with parse_elements (fuel : nat) (depth : Z) (s : string) {struct fuel}
    : option (list Json * string) :=
  match fuel with
  | O => None
  | S fuel =>
      v ← parse_value fuel depth s;
      match skip_space v.2 with
      | String "]" u => Some ([v.1], u)
      | String "," u => r ← parse_elements fuel depth u; Some (v.1 :: r.1, r.2)
      | _ => None
      end
  end
with parse_members (fuel : nat) (depth : Z) (s : string) {struct fuel}
    : option (list (string * Json) * string) :=
  match fuel with
  | O => None
  | S fuel =>
      match skip_space s with
      | String c t =>
          if negb (ord c =? 34) then None else
          k ← parse_string t;
          match skip_space k.2 with
          | String ":" u =>
              v ← parse_value fuel depth u;
              match skip_space v.2 with
              | String "}" w => Some ([(k.1, v.1)], w)
              | String "," w => r ← parse_members fuel depth w; Some ((k.1, v.1) :: r.1, r.2)
              | _ => None
              end
          | _ => None
          end
      | "" => None
      end
  end.

(** One document and nothing after it. *)
Definition parse (s : string) : option Json :=
  match parse_value (S (2 * len s)) 0 s with
  | Some (j, rest) => if String.eqb (skip_space rest) "" then Some j else None
  | None => None
  end.

(** ** Decoding into [any] *)

(** Whether a number is within float64: its digits times a power of ten stay
    below the midpoint of the largest float and the next power of two. *)
Definition number_ok (text : string) : bool :=
  let text := TrimPrefix text "-" in
  let '(int, rest) := span_digits text in
  let '(frac, rest) := match rest with
    | String "." t => span_digits t
    | _ => ("", rest)
    end in
  let exp := match rest with
    | String _ (String "-" t) => - digits_exact t 0
    | String _ (String "+" t) => digits_exact t 0
    | String _ t => digits_exact t 0
    | "" => 0
    end in
  let digits := TrimLeft (int +:+ frac) "0" in
  let e := exp - Z.of_nat (len frac) in
  let magnitude := Z.of_nat (len digits) + e in
  if String.eqb digits "" then true
  else if 310 <? magnitude then false
  else if magnitude <? 300 then true
  else digits_exact digits 0 * 10 ^ (Z.max e 0) <? (2 ^ 1024 - 2 ^ 970) * 10 ^ (Z.max (- e) 0).

Fixpoint numbers_ok (j : Json) : bool :=
  match j with
  | JNumber t => number_ok t
  | JArray l => forallb numbers_ok l
  | JObject m => forallb (fun kv => numbers_ok kv.2) m
  | _ => true
  end.

(** [json.Unmarshal(body, &v)] for [v] of type map[string]any: the members of
    the object; null leaves a nil map. *)
Definition UnmarshalMap (body : string) : option (list (string * Json)) :=
  match parse body with
  | Some (JObject m) => if numbers_ok (JObject m) then Some m else None
  | Some JNull => Some []
  | _ => None
  end.

(** A key of a decoded map: the last of equal members. *)
Fixpoint field (k : string) (m : list (string * Json)) : option Json :=
  match m with
  | [] => None
  | (k', v) :: m =>
      match field k m with
      | Some v' => Some v'
      | None => if String.eqb k' k then Some v else None
      end
  end.

Definition as_object (j : Json) : option (list (string * Json)) :=
  match j with JObject m => Some m | _ => None end.
Definition as_array (j : Json) : option (list Json) :=
  match j with JArray l => Some l | _ => None end.
Definition as_string (j : Json) : option string :=
  match j with JString s => Some s | _ => None end.

(** ** Decoding into structs *)

(** The members that set the field [name]: equal up to case.  The names the
    program uses are plain ASCII, and so are their only foldings but two: the
    long s and the Kelvin sign, which [fold_key] maps to their letters. *)
Fixpoint fold_key (s : string) : string :=
  match s with
  | String "197" (String "191" t) => String "s" (fold_key t)
  | String "226" (String "132" (String "170" t)) => String "k" (fold_key t)
  | String c t => String (lower c) (fold_key t)
  | "" => ""
  end.

Definition struct_field (name : string) (m : list (string * Json)) : list Json :=
  omap (fun kv => if String.eqb (fold_key kv.1) (ToLower name) then Some kv.2 else None) m.

(** Decoding into a field of a type, one member after the other: None is a
    type error; null sets a pointer, slice or map to nil and leaves the rest. *)
Definition decode_field {A} (decode : A -> Json -> option A) (nullable : bool) (name : string)
    (zero : A) (m : list (string * Json)) : option A :=
  foldl (fun acc j =>
           a ← acc;
           match j with
           | JNull => Some (if nullable then zero else a)
           | _ => decode a j
           end)
        (Some zero) (struct_field name m).

Definition decode_string (_ : string) (j : Json) : option string := as_string j.

(** An int64: a number without fraction or exponent, in range. *)
Definition decode_int (_ : Z) (j : Json) : option Z :=
  match j with
  | JNumber t =>
      let z := match t with
        | String "-" d => if str_forallb is_digit d then Some (- digits_exact d 0) else None
        | d => if str_forallb is_digit d then Some (digits_exact d 0) else None
        end in
      z ← z; if bool_decide (in64 z) then Some z else None
  | _ => None
  end.

(** map[string]string: later members replace earlier ones; a null value sets
    the empty string. *)
Definition set_entry (k v : string) (m : list (string * string)) : list (string * string) :=
  filter (fun kv => kv.1 <> k) m ++ [(k, v)].

Definition decode_strings (old : list (string * string)) (j : Json)
    : option (list (string * string)) :=
  members ← as_object j;
  foldl (fun acc kv => m ← acc;
    match kv.2 with
    | JNull => Some (set_entry kv.1 "" m)
    | v => s ← as_string v; Some (set_entry kv.1 s m)
    end) (Some old) members.

(** ** Decoding a whole struct *)

(** The Go types of the structs the program decodes; a text type may reject
    what it does not parse. *)
Inductive Shape :=
| TBool
| TInt
| TText (ok : string -> bool)
| TSlice (e : Shape)
| TMap (e : Shape)
| TStruct (fields : list (string * Shape)).

Definition TString : Shape := TText (fun _ => true).

Fixpoint shape_of (k : string) (fields : list (string * Shape)) : option Shape :=
  match fields with
  | [] => None
  | (name, sh) :: fields => if String.eqb (fold_key k) (ToLower name) then Some sh else shape_of k fields
  end.

(** The decoder reports no type error: null fits everything, members that are
    no field are skipped. *)
Fixpoint fits (sh : Shape) (j : Json) {struct j} : bool :=
  match j with
  | JNull => true
  | JBool _ => match sh with TBool => true | _ => false end
  | JNumber _ => match sh with TInt => match decode_int 0 j with Some _ => true | None => false end | _ => false end
  | JString s => match sh with TText ok => ok s | _ => false end
  | JArray l => match sh with TSlice e => forallb (fits e) l | _ => false end
  | JObject m =>
      match sh with
      | TMap e => forallb (fun kv => fits e kv.2) m
      | TStruct fs => forallb (fun kv => match shape_of kv.1 fs with Some e => fits e kv.2 | None => true end) m
      | _ => false
      end
  end.

(** The fields are set in the order of the members, a value of another type and
    null leave a scalar as it was. *)
Definition members (j : Json) : list (string * Json) := match j with JObject m => m | _ => [] end.

Definition scan_field {A} (get : Json -> option A) (name : string) (zero : A) (m : list (string * Json)) : A :=
  foldl (fun a j => default a (get j)) zero (struct_field name m).

Definition as_bool (j : Json) : option bool := match j with JBool b => Some b | _ => None end.

Definition as_int (j : Json) : option Z := decode_int 0 j.

(** A slice: null empties it, the elements of an array are decoded into those it
    had. *)
Definition scan_slice {A} (set : A -> Json -> A) (zero : A) (name : string) (m : list (string * Json)) : list A :=
  foldl (fun old j =>
           match j with
           | JNull => []
           | JArray l => imap (fun i j => set (default zero (old !! i)) j) l
           | _ => old
           end) [] (struct_field name m).

(** [json.NewDecoder(r).Decode]: the first document of the input. *)
Definition decode_first (s : string) : option Json := fst <$> parse_value (S (2 * len s)) 0 s.

(** ** Writing *)

Definition hex_byte (n : Z) : string :=
  String (hex_digit (n / 16)) (String (hex_digit (n mod 16)) "").

(** A rune inside a string: quotes, backslashes, control characters, the three
    HTML characters and the line separators are escaped. *)
Definition write_rune (r : Z) : string :=
  if r <? 128 then
    if (r =? 34) || (r =? 92) then String "\" (String (chr r) "")
    else if r =? 8 then "\b" else if r =? 12 then "\f" else if r =? 10 then "\n"
    else if r =? 13 then "\r" else if r =? 9 then "\t"
    else if (r <? 32) || (r =? 60) || (r =? 62) || (r =? 38) then "\u00" +:+ hex_byte r
    else String (chr r) ""
  else if (r =? 0x2028) || (r =? 0x2029) then "\u202" +:+ String (hex_digit (r mod 16)) ""
  else EncodeRune r.

(** Invalid bytes are written as the escape of the error rune. *)
Fixpoint write_runes (fuel : nat) (s : string) : string :=
  match fuel, s with
  | O, _ | _, "" => ""
  | S fuel, _ =>
      let '(r, n) := DecodeRune s in
      (if (r =? RuneError) && (n =? 1)%nat then "\ufffd" else write_rune r)
      +:+ write_runes fuel (str_drop n s)
  end.

Definition quote : string := String (chr 34) "".

Definition write_string (s : string) : string := quote +:+ write_runes (len s) s +:+ quote.

Fixpoint write (j : Json) : string :=
  match j with
  | JNull => "null"
  | JBool true => "true"
  | JBool false => "false"
  | JNumber t => t
  | JString s => write_string s
  | JArray l => "[" +:+ Join (write <$> l) "," +:+ "]"
  | JObject m => "{" +:+ Join ((fun kv => write_string kv.1 +:+ ":" +:+ write kv.2) <$> m) ","
                 +:+ "}"
  end.

(** The same without [SetEscapeHTML]. *)
Definition plain_rune (r : Z) : string :=
  if (r =? 60) || (r =? 62) || (r =? 38) then String (chr r) "" else write_rune r.

Fixpoint plain_runes (fuel : nat) (s : string) : string :=
  match fuel, s with
  | O, _ | _, "" => ""
  | S fuel, _ =>
      let '(r, n) := DecodeRune s in
      (if (r =? RuneError) && (n =? 1)%nat then "\ufffd" else plain_rune r)
      +:+ plain_runes fuel (str_drop n s)
  end.

Definition plain_string (s : string) : string := quote +:+ plain_runes (len s) s +:+ quote.

Fixpoint write_plain (j : Json) : string :=
  match j with
  | JNull => "null"
  | JBool true => "true"
  | JBool false => "false"
  | JNumber t => t
  | JString s => plain_string s
  | JArray l => "[" +:+ Join (write_plain <$> l) "," +:+ "]"
  | JObject m => "{" +:+ Join ((fun kv => plain_string kv.1 +:+ ":" +:+ write_plain kv.2) <$> m) "," +:+ "}"
  end.
