(* ===== verification/GoJsonLaws.v ===== *)
(** * encoding/json: what is written is read back

    [DecodeRune] of [EncodeRune], the string escapes, and the round trip of
    whole documents: [parse] of [write] is the document, for documents whose
    strings are valid UTF-8, whose numbers follow the grammar and that are not
    nested deeper than the parser allows. *)

From Stdlib Require Import ZArith Lia Ascii.
From stdpp Require Import base list strings.
From S2P Require Import Prelude GoStrings GoHash GoJson.

Local Open Scope Z_scope.

(** ** UTF-8 *)

(** The code points that UTF-8 encodes. *)
Definition scalar (r : Z) : Prop := 0 <= r < 0xD800 \/ 0xDFFF < r <= 0x10FFFF.

(** [cases] splits a goal on the tests of a decoder, one at a time. *)
Ltac cases :=
  repeat match goal with
  | |- context [if ?b then _ else _] => destruct b eqn:?; cbn [fst snd negb orb andb]
  end; bool_prop.

Ltac euclid := Z.div_mod_to_equations; lia.

Lemma DecodeRune_scalar s : scalar (DecodeRune s).1.
Proof.
  unfold DecodeRune, scalar, RuneError.
  destruct s as [|c0 t]; [cbn; lia|]. pose proof (ord_range c0).
  destruct (ord c0 <? 0x80) eqn:E0; [bool_prop; cbn; lia|].
  destruct ((ord c0 <? 0xC2) || (0xF4 <? ord c0)) eqn:E1; [cbn; lia|].
  destruct t as [|c1 t]; [cbn; lia|]. pose proof (ord_range c1).
  destruct (negb (second_ok (ord c0) c1)) eqn:E2; [cbn; lia|]. unfold second_ok, is_cont in E2.
  destruct (ord c0 <? 0xE0) eqn:E3; [cbn [fst]; bool_prop; euclid|].
  destruct t as [|c2 t]; [cbn; lia|]. pose proof (ord_range c2).
  destruct (negb (is_cont c2)) eqn:E4; [cbn; lia|]. unfold is_cont in E4.
  destruct (ord c0 <? 0xF0) eqn:E5.
  { cbn [fst]. revert E2. cases; intros; bool_prop; euclid. }
  destruct t as [|c3 t]; [cbn; lia|]. pose proof (ord_range c3).
  destruct (negb (is_cont c3)) eqn:E6; [cbn; lia|]. unfold is_cont in E6.
  cbn [fst]. revert E2. cases; intros; bool_prop; euclid.
Qed.

Lemma runes_go_scalar fuel s : Forall scalar (runes_go fuel s).
Proof.
  revert s. induction fuel as [|fuel IH]; intros s; [constructor|].
  destruct s as [|c t]; [constructor|]. cbn [runes_go].
  pose proof (DecodeRune_scalar (String c t)). destruct (DecodeRune (String c t)) as [r n]. constructor; [done|apply IH].
Qed.

(** A valid string is the encoding of scalar values. *)
Lemma ValidString_runes s : ValidString s = true -> s = EncodeRunes (runes s) /\ Forall scalar (runes s).
Proof. intros E%String.eqb_eq. split; [done|apply runes_go_scalar]. Qed.

Lemma ltb_true a b : a < b -> (a <? b) = true.
Proof. apply Z.ltb_lt. Qed.
Lemma ltb_false a b : b <= a -> (a <? b) = false.
Proof. apply Z.ltb_ge. Qed.
Lemma leb_true a b : a <= b -> (a <=? b) = true.
Proof. apply Z.leb_le. Qed.
Lemma leb_false a b : b < a -> (a <=? b) = false.
Proof. apply Z.leb_gt. Qed.

(** [tests] decides every comparison in the goal that linear arithmetic does. *)
Ltac tests :=
  repeat match goal with
  | |- context [?a <? ?b] => first [rewrite (ltb_true a b) by lia | rewrite (ltb_false a b) by lia]
  | |- context [?a <=? ?b] => first [rewrite (leb_true a b) by lia | rewrite (leb_false a b) by lia]
  | |- context [?a =? ?b] =>
      first [rewrite (proj2 (Z.eqb_eq a b)) by lia | rewrite (proj2 (Z.eqb_neq a b)) by lia]
  end; cbn [andb orb negb].

Lemma DecodeRune_Encode r t : scalar r ->
  DecodeRune (EncodeRune r +:+ t) = (r, len (EncodeRune r)).
Proof.
  intros Hr. unfold scalar in Hr. unfold EncodeRune.
  destruct (Z.ltb_spec r 0x80).
  { tests. cbn. rewrite ord_chr by lia. tests. done. }
  destruct (Z.ltb_spec r 0x800).
  { tests. assert (2 <= r / 64 < 32) by euclid. assert (0 <= r mod 64 < 64) by euclid.
    cbn. unfold second_ok, is_cont. rewrite !ord_chr by lia. tests. f_equal. euclid. }
  tests. replace ((0xD800 <=? r) && (r <=? 0xDFFF)) with false
    by (symmetry; apply andb_false_iff; destruct Hr; [left; apply leb_false|right; apply leb_false]; lia).
  cbn [orb]. destruct (Z.ltb_spec r 0x10000).
  { assert (0 <= r / 4096 < 16) by euclid. assert (0 <= (r / 64) mod 64 < 64) by euclid.
    assert (0 <= r mod 64 < 64) by euclid.
    cbn. unfold second_ok, is_cont. rewrite !ord_chr by lia. tests.
    destruct (Z.eqb_spec (0xE0 + r / 4096) 0xE0).
    - assert (32 <= (r / 64) mod 64) by euclid. tests. f_equal. euclid.
    - destruct (Z.eqb_spec (0xE0 + r / 4096) 0xED).
      + assert ((r / 64) mod 64 < 32) by euclid. tests. f_equal. euclid.
      + tests. f_equal. euclid. }
  assert (0 <= r / 262144 < 5) by euclid. assert (0 <= (r / 4096) mod 64 < 64) by euclid.
  assert (0 <= (r / 64) mod 64 < 64) by euclid. assert (0 <= r mod 64 < 64) by euclid.
  cbn. unfold second_ok, is_cont. rewrite !ord_chr by lia. tests.
  destruct (Z.eqb_spec (0xF0 + r / 262144) 0xF0).
  - assert (16 <= (r / 4096) mod 64) by euclid. tests. f_equal. euclid.
  - destruct (Z.eqb_spec (0xF0 + r / 262144) 0xF4).
    + assert ((r / 4096) mod 64 < 16) by euclid. tests. f_equal. euclid.
    + tests. f_equal. euclid.
Qed.

(** ** Strings *)

(** Reading one more piece: [w] stands for the bytes [x]. *)
Definition reads (w x : string) : Prop := exists k, (k <= len w)%nat /\
  forall fuel t, parse_chars (k + fuel) (w +:+ t) =
    match parse_chars fuel t with Some r => Some (x +:+ r.1, r.2) | None => None end.

Lemma reads_app w1 x1 w2 x2 : reads w1 x1 -> reads w2 x2 -> reads (w1 +:+ w2) (x1 +:+ x2).
Proof.
  intros (k1 & H1 & E1) (k2 & H2 & E2). exists (k1 + k2)%nat. split; [rewrite len_app; lia|].
  intros fuel t. rewrite str_app_assoc, <-Nat.add_assoc, E1, E2.
  destruct (parse_chars fuel t) as [r|]; cbn; [by rewrite str_app_assoc|done].
Qed.

Lemma reads_nil : reads "" "".
Proof. exists 0%nat. split; [done|]. intros fuel t. cbn. by destruct (parse_chars fuel t) as [[]|]. Qed.

(** A byte that stands for itself. *)
Lemma reads_plain c : 32 <= ord c -> ord c <> 34 -> ord c <> 92 -> reads (String c "") (String c "").
Proof. intros H1 H2 H3. exists 1%nat. split; [done|]. intros fuel t. cbn. tests. by destruct (parse_chars fuel t). Qed.

Lemma reads_high x : str_forallb (fun c => 128 <=? ord c) x = true -> reads x x.
Proof.
  induction x as [|c x IH]; [intros _; apply reads_nil|]. cbn [str_forallb]. intros [Hc Hx]%andb_true_iff. bool_prop.
  change (String c x) with (String c "" +:+ x). apply reads_app; [apply reads_plain; lia|by apply IH].
Qed.

(** An escape that names its rune. *)
Lemma reads_escape r : 0 <= r < 128 -> write_rune r <> String (chr r) "" -> reads (write_rune r) (String (chr r) "").
Proof.
  intros Hr Hw. exists 1%nat. split; [|intros fuel t].
  - unfold write_rune. tests. cases; cbn; lia.
  - assert (Hall : Forall (fun r => bool_decide (write_rune r = String (chr r) "") = true \/
      parse_chars (1 + fuel) (write_rune r +:+ t) =
      match parse_chars fuel t with Some p => Some (String (chr r) "" +:+ p.1, p.2) | None => None end) (Z.of_nat <$> seq 0 128)).
    { cbn [seq fmap list_fmap]. repeat (apply Forall_cons; split; [first [left; reflexivity|right; reflexivity]|]). apply Forall_nil. done. }
    rewrite Forall_forall in Hall. destruct (Hall r) as [E|E]; [|by bool_prop|exact E].
    replace r with (Z.of_nat (Z.to_nat r)) by lia. apply list_elem_of_fmap. eexists; split; [done|]. apply elem_of_seq. lia.
Qed.

Lemma EncodeRune_high r : 128 <= r -> str_forallb (fun c => 128 <=? ord c) (EncodeRune r) = true.
Proof. intros Hr. destruct (EncodeRune_bytes r) as [[? _]|[_ H]]; [lia|done]. Qed.

Lemma reads_rune r : scalar r -> reads (write_rune r) (EncodeRune r).
Proof.
  intros Hr. destruct (Z.ltb_spec r 128).
  - assert (0 <= r) by (unfold scalar in Hr; lia).
    replace (EncodeRune r) with (String (chr r) "") by (unfold EncodeRune; tests; done).
    destruct (decide (write_rune r = String (chr r) "")) as [E|E]; [|by apply reads_escape].
    assert (Ho : ord (chr r) = r) by (apply ord_chr; lia).
    rewrite E. apply reads_plain; rewrite Ho; revert E; unfold write_rune; tests.
    + intros E. destruct (Z.ltb_spec r 32); [|lia]. exfalso. revert E. tests. cases; intros E; cbn in E; discriminate E.
    + intros E ->. discriminate E.
    + intros E ->. discriminate E.
  - unfold write_rune. tests.
    destruct ((r =? 0x2028) || (r =? 0x2029)) eqn:E; [|by apply reads_high, EncodeRune_high].
    apply orb_true_iff in E as [E|E]; apply Z.eqb_eq in E as ->; exists 1%nat; (split; [cbn; lia|]); intros fuel t.
    + reflexivity.
    + reflexivity.
Qed.

Lemma write_runes_eq fuel rs : (len (EncodeRunes rs) <= fuel)%nat -> Forall scalar rs ->
  write_runes fuel (EncodeRunes rs) = foldr (fun r acc => write_rune r +:+ acc) "" rs.
Proof.
  revert fuel. induction rs as [|r rs IH]; intros fuel Hf Hrs; [by destruct fuel|].
  apply Forall_cons in Hrs as [Hr Hrs]. cbn [EncodeRunes foldr] in *. fold (EncodeRunes rs) in *.
  rewrite len_app in Hf.
  pose proof (DecodeRune_Encode r (EncodeRunes rs) Hr) as Ed.
  destruct (EncodeRune r) as [|c x] eqn:Ee.
  { pose proof (DecodeRune_Encode r "a" Hr) as Ea. rewrite Ee in Ea. discriminate Ea. }
  destruct fuel as [|fuel]; [cbn in Hf; lia|]. cbn [write_runes].
  rewrite <-Ee in *. destruct (EncodeRune r +:+ EncodeRunes rs) as [|c' t] eqn:Es; [by rewrite Ee in Es|].
  rewrite Ed, <-Es, str_drop_app, IH by (try done; rewrite Ee in Hf; cbn in Hf; lia).
  f_equal. destruct (Z.eqb_spec r RuneError) as [->|]; [|done]. vm_compute in Ee |- *. done.
Qed.

Lemma reads_runes rs : Forall scalar rs -> reads (foldr (fun r acc => write_rune r +:+ acc) "" rs) (EncodeRunes rs).
Proof.
  induction 1 as [|r rs Hr _ IH]; [apply reads_nil|]. cbn [foldr EncodeRunes]. apply reads_app; [by apply reads_rune|done].
Qed.

(** Reading a written string up to its closing quote. *)
Lemma parse_string_write s t : ValidString s = true ->
  parse_string (write_runes (len s) s +:+ quote +:+ t) = Some (s, t).
Proof.
  intros Hv. destruct (ValidString_runes s Hv) as [Es Hs].
  assert (Hr : reads (write_runes (len s) s) s).
  { rewrite Es at 2 3. rewrite Es at 1. rewrite write_runes_eq by (rewrite <-?Es; done). by apply reads_runes. }
  destruct Hr as (k & Hk & E). unfold parse_string.
  set (w := write_runes (len s) s) in *.
  replace (S (len (w +:+ quote +:+ t))) with (k + S (len w - k + S (len t)))%nat
    by (rewrite !len_app; cbn; unfold quote; cbn; lia).
  rewrite E. change (parse_chars (S ?n) (quote +:+ t)) with (Some ("", t)).
  cbn [fst snd mbind option_bind]. by rewrite app_empty_r, <-Es.
Qed.

(** ** Numbers *)

(** What may follow a value inside a document. *)
Definition delim (t : string) : Prop :=
  match t with "" => True | String c _ => c = ","%char \/ c = "]"%char \/ c = "}"%char end.

Lemma span_digits_app s d r t : delim t -> span_digits s = (d, r) -> span_digits (s +:+ t) = (d, r +:+ t).
Proof.
  intros Ht. revert d r. induction s as [|c s IH]; intros d r E.
  - cbn in E. injection E as <- <-. destruct t as [|c t]; [done|]. cbn in Ht |- *.
    by destruct Ht as [->|[->| ->]].
  - cbn in E |- *. destruct (is_digit c); [|by injection E as <- <-].
    destruct (span_digits s) as [d' r']. injection E as <- <-. by rewrite (IH d' r').
Qed.

Lemma integer_part_app s d r t : delim t -> integer_part s = Some (d, r) -> integer_part (s +:+ t) = Some (d, r +:+ t).
Proof.
  intros Ht E. destruct s as [|c s]; [discriminate E|]. destruct (Ascii.eqb_spec c "0") as [->|Hc].
  - cbn in E |- *. by injection E as <- <-.
  - assert (Hi : forall u, integer_part (String c u) =
      let '(d, r) := span_digits (String c u) in if String.eqb d "" then None else Some (d, r)).
    { intros u. destruct c as [[] [] [] [] [] [] [] []]; try reflexivity. by contradict Hc. }
    rewrite app_cons, Hi in *. destruct (span_digits (String c s)) as [d' r'] eqn:Es.
    rewrite <-app_cons, (span_digits_app _ _ _ _ Ht Es). destruct (String.eqb d' ""); [done|]. by injection E as <- <-.
Qed.

Lemma fraction_part_app s d r t : delim t -> fraction_part s = Some (d, r) -> fraction_part (s +:+ t) = Some (d, r +:+ t).
Proof.
  intros Ht E. destruct s as [|c s].
  - cbn in E. injection E as <- <-. destruct t as [|c t]; [done|]. cbn in Ht. by destruct Ht as [->|[->| ->]].
  - destruct (Ascii.eqb_spec c ".") as [->|Hc].
    + cbn in E |- *. destruct (span_digits s) as [d' r'] eqn:Es. rewrite (span_digits_app _ _ _ _ Ht Es).
      destruct (String.eqb d' ""); [done|]. by injection E as <- <-.
    + assert (Hi : forall u, fraction_part (String c u) = Some ("", String c u)).
      { intros u. destruct c as [[] [] [] [] [] [] [] []]; try reflexivity. by contradict Hc. }
      rewrite app_cons, Hi in *. by injection E as <- <-.
Qed.

Lemma exponent_part_app s d r t : delim t -> exponent_part s = Some (d, r) -> exponent_part (s +:+ t) = Some (d, r +:+ t).
Proof.
  intros Ht E. destruct s as [|c s].
  - cbn in E. injection E as <- <-. destruct t as [|c t]; [done|]. cbn in Ht. by destruct Ht as [->|[->| ->]].
  - cbn in E |- *. destruct (Ascii.eqb c "e" || Ascii.eqb c "E"); [|by injection E as <- <-].
    destruct s as [|g s].
    + cbn in E. discriminate E.
    + rewrite app_cons. destruct (Ascii.eqb g "+" || Ascii.eqb g "-").
      * destruct (span_digits s) as [d' r'] eqn:Es. rewrite (span_digits_app _ _ _ _ Ht Es).
        destruct (String.eqb d' ""); [done|]. by injection E as <- <-.
      * destruct (span_digits (String g s)) as [d' r'] eqn:Es. rewrite <-app_cons, (span_digits_app _ _ _ _ Ht Es).
        destruct (String.eqb d' ""); [done|]. by injection E as <- <-.
Qed.

Lemma parse_number_app s x t : delim t -> parse_number s = Some (x, "") -> parse_number (s +:+ t) = Some (x, t).
Proof.
  intros Ht. unfold parse_number. intros E.
  assert (Hs : exists sign u, (match s with String "-" t => ("-", t) | _ => ("", s) end) = (sign, u) /\
    (match s +:+ t with String "-" t => ("-", t) | _ => ("", s +:+ t) end) = (sign, u +:+ t)).
  { destruct s as [|c s]; [discriminate E|]. destruct (Ascii.eqb_spec c "-") as [->|Hc]; [by eexists _, _|].
    exists "", (String c s). destruct c as [[] [] [] [] [] [] [] []]; try (by split); by contradict Hc. }
  destruct Hs as (sign & u & E1 & E2). rewrite E1 in E. rewrite E2.
  destruct (integer_part u) as [[i r1]|] eqn:Ei; [|discriminate E]. cbn [mbind option_bind fst snd] in E.
  destruct (fraction_part r1) as [[f r2]|] eqn:Ef; [|discriminate E]. cbn [mbind option_bind fst snd] in E.
  destruct (exponent_part r2) as [[e r3]|] eqn:Ee; [|discriminate E]. cbn [mbind option_bind fst snd] in E.
  injection E as Ex E3. subst r3.
  rewrite (integer_part_app _ _ _ _ Ht Ei). cbn [mbind option_bind fst snd].
  rewrite (fraction_part_app _ _ _ _ Ht Ef). cbn [mbind option_bind fst snd].
  rewrite (exponent_part_app _ _ _ _ Ht Ee). cbn [mbind option_bind fst snd]. by rewrite Ex.
Qed.

(** A number starts with a minus sign or a digit. *)
Lemma parse_number_first s x r : parse_number s = Some (x, r) ->
  exists c t, s = String c t /\ (c = "-"%char \/ is_digit c = true).
Proof.
  intros E. destruct s as [|c s]; [discriminate E|]. exists c, s. split; [done|].
  destruct (Ascii.eqb_spec c "-") as [->|Hc]; [by left|]. right.
  destruct (Ascii.eqb_spec c "0") as [->|Hz]; [done|].
  assert (Hi : parse_number (String c s) =
    (i ← (let '(d, r) := span_digits (String c s) in if String.eqb d "" then None else Some (d, r));
     f ← fraction_part i.2; e ← exponent_part f.2; Some ("" +:+ i.1 +:+ f.1 +:+ e.1, e.2))).
  { destruct c as [[] [] [] [] [] [] [] []]; try reflexivity; [by contradict Hc|by contradict Hz]. }
  rewrite Hi in E. cbn [span_digits] in E. destruct (is_digit c); [done|discriminate E].
Qed.

(** ** Documents *)

(** What [parse] reads back with [depth] arrays and objects open. *)
Fixpoint writable (depth : Z) (j : Json) : bool :=
  match j with
  | JNumber t => match parse_number t with Some (x, "") => String.eqb x t | _ => false end
  | JString s => ValidString s
  | JArray l => (depth <? maxNestingDepth) && forallb (writable (depth + 1)) l
  | JObject m => (depth <? maxNestingDepth) && forallb (fun kv => ValidString kv.1 && writable (depth + 1) kv.2) m
  | _ => true
  end.

Lemma delim_skip t : delim t -> skip_space t = t.
Proof. destruct t as [|c t]; [done|]. intros [->|[->| ->]]; done. Qed.

(** The first byte of a value is neither a space nor a closing bracket. *)
Lemma write_first depth j : writable depth j = true ->
  exists c t, write j = String c t /\ is_space c = false /\ c <> "]"%char /\ c <> "}"%char.
Proof.
  destruct j as [|[]|t|s|l|m]; cbn [writable write]; intros Hw; try (by eexists _, _; split).
  destruct (parse_number t) as [[x []]|] eqn:E; try discriminate Hw.
  destruct (parse_number_first _ _ _ E) as (c & u & -> & Hc). exists c, u. split; [done|].
  destruct Hc as [->|Hc]; [done|].
  split; [|split; intros ->; vm_compute in Hc; discriminate Hc].
  unfold is_digit in Hc. bool_prop. unfold is_space. by tests.
Qed.

Lemma skip_first c t : is_space c = false -> skip_space (String c t) = String c t.
Proof. cbn. by intros ->. Qed.

Definition reads_back (j : Json) : Prop := forall fuel depth t,
  (2 * len (write j) <= fuel)%nat -> writable depth j = true -> delim t ->
  parse_value (S fuel) depth (write j +:+ t) = Some (j, t).

Lemma Join_cons2 x y (l : list string) sep : Join (x :: y :: l) sep = x +:+ sep +:+ Join (y :: l) sep.
Proof. done. Qed.

Lemma elements_back l fuel depth t : Forall reads_back l -> l <> [] ->
  (2 * len (Join (write <$> l) ",") + 2 <= fuel)%nat -> forallb (writable depth) l = true ->
  parse_elements fuel depth (Join (write <$> l) "," +:+ "]" +:+ t) = Some (l, t).
Proof.
  intros Hall. revert fuel. induction Hall as [|j l Hj Hall IH]; intros fuel Hne Hf Hw; [done|].
  cbn [forallb] in Hw. apply andb_true_iff in Hw as [Hw Hl].
  destruct fuel as [|[|fuel]]; [lia..|].
  destruct l as [|j2 l].
  - cbn [fmap list_fmap Join] in *. cbn [parse_elements].
    rewrite (Hj fuel depth ("]" +:+ t)); [done|lia|done|by right; left].
  - cbn [fmap list_fmap] in *. rewrite Join_cons2 in *. rewrite !len_app in Hf. rewrite !str_app_assoc.
    change (parse_elements (S (S fuel)) depth) with (fun s => v ← parse_value (S fuel) depth s;
      match skip_space v.2 with
      | String "]" u => Some ([v.1], u)
      | String "," u => r ← parse_elements (S fuel) depth u; Some (v.1 :: r.1, r.2)
      | _ => None
      end). cbv beta.
    rewrite (Hj fuel depth); [|lia|done|by left]. cbn [mbind option_bind fst snd].
    change (skip_space ("," +:+ ?x)) with (String "," x). cbv iota beta.
    rewrite IH; [done|done|change (len ",") with 1%nat in Hf; lia|done].
Qed.

Lemma members_eq fuel depth s : parse_members (S fuel) depth s =
  match skip_space s with
  | String c t =>
      if negb (ord c =? 34) then None else
      k ← parse_string t;
      match skip_space k.2 with
      | String ":" u =>
          v ← parse_value fuel depth u;
          match skip_space v.2 with
          | String "}" w => Some ([(k.1, v.1)], w)
          | String "," w => r ← parse_members fuel depth w; Some ((k.1, v.1) :: r.1, r.2)
          | _ => None
          end
      | _ => None
      end
  | "" => None
  end.
Proof. done. Qed.

(** One member, with what follows it left over. *)
Definition write_member (kv : string * Json) : string := write_string kv.1 +:+ ":" +:+ write kv.2.

Lemma member_back kv fuel depth t : reads_back kv.2 -> (2 * len (write kv.2) <= fuel)%nat ->
  ValidString kv.1 = true -> writable depth kv.2 = true -> delim t ->
  parse_members (S (S fuel)) depth (write_member kv +:+ t) =
  match t with
  | String "}" w => Some ([kv], w)
  | String "," w => match parse_members (S fuel) depth w with Some r => Some (kv :: r.1, r.2) | None => None end
  | _ => None
  end.
Proof.
  intros Hj Hf Hk Hw Ht. destruct kv as [k j]. cbn [fst snd] in *. rewrite members_eq.
  unfold write_member, write_string. cbn [fst snd]. rewrite !str_app_assoc.
  change (skip_space (quote +:+ ?x)) with (String (chr 34) x). cbv iota beta.
  change (negb (ord (chr 34) =? 34)) with false. cbv iota.
  rewrite parse_string_write by done. cbn [mbind option_bind fst snd].
  change (skip_space (":" +:+ ?x)) with (String ":" x). cbv iota beta.
  rewrite (Hj fuel depth t) by done. cbn [mbind option_bind fst snd].
  rewrite delim_skip by done. destruct t as [|c t]; [done|]. by destruct Ht as [->|[->| ->]].
Qed.

Lemma members_back m fuel depth t : Forall (fun kv => reads_back kv.2) m -> m <> [] ->
  (2 * len (Join (write_member <$> m) ",") + 2 <= fuel)%nat ->
  forallb (fun kv => ValidString kv.1 && writable depth kv.2) m = true ->
  parse_members fuel depth (Join (write_member <$> m) "," +:+ "}" +:+ t) = Some (m, t).
Proof.
  intros Hall. revert fuel. induction Hall as [|kv m Hj Hall IH]; intros fuel Hne Hf Hw; [done|].
  cbn [forallb] in Hw. apply andb_true_iff in Hw as [Hw Hm]. apply andb_true_iff in Hw as [Hk Hw].
  assert (Hlen : (len (write kv.2) <= len (write_member kv))%nat) by (unfold write_member; rewrite !len_app; lia).
  destruct fuel as [|[|fuel]]; [lia..|].
  destruct m as [|kv2 m].
  - cbn [fmap list_fmap Join] in *. by rewrite (member_back kv fuel depth ("}" +:+ t) Hj ltac:(lia) Hk Hw ltac:(by right; right)).
  - cbn [fmap list_fmap] in *. rewrite Join_cons2 in *. rewrite !len_app in Hf. rewrite !str_app_assoc.
    rewrite member_back; [|done|lia|done|done|by left].
    change ("," +:+ ?x) with (String "," x). cbv iota.
    rewrite IH; [done|done|change (len ",") with 1%nat in Hf; lia|done].
Qed.

(** The dispatch on the first byte of a bracket. *)
Lemma value_array fuel depth t : depth < maxNestingDepth ->
  parse_value (S fuel) depth ("[" +:+ t) =
  match skip_space t with
  | String "]" u => Some (JArray [], u)
  | _ => r ← parse_elements fuel (depth + 1) t; Some (JArray r.1, r.2)
  end.
Proof.
  intros Hd. change ("[" +:+ t) with (String "[" t). cbn [parse_value].
  change (skip_space (String "[" t)) with (String "[" t). cbv iota beta zeta.
  change (ord "[") with 91. cbn [Z.eqb]. by rewrite (leb_false maxNestingDepth depth).
Qed.

Lemma value_object fuel depth t : depth < maxNestingDepth ->
  parse_value (S fuel) depth ("{" +:+ t) =
  match skip_space t with
  | String "}" u => Some (JObject [], u)
  | _ => r ← parse_members fuel (depth + 1) t; Some (JObject r.1, r.2)
  end.
Proof.
  intros Hd. change ("{" +:+ t) with (String "{" t). cbn [parse_value].
  change (skip_space (String "{" t)) with (String "{" t). cbv iota beta zeta.
  change (ord "{") with 123. cbn [Z.eqb]. by rewrite (leb_false maxNestingDepth depth).
Qed.

Lemma value_number fuel depth t x r : parse_number t = Some (x, r) -> parse_value (S fuel) depth t = Some (JNumber x, r).
Proof.
  intros E. destruct (parse_number_first _ _ _ E) as (c & u & -> & Hc). cbn [parse_value].
  assert (Hc' : ord c = 45 \/ 48 <= ord c <= 57).
  { destruct Hc as [->|Hc]; [by left|]. right. unfold is_digit in Hc. bool_prop. lia. }
  rewrite skip_first by (unfold is_space; by tests). cbv zeta. tests. by rewrite E.
Qed.

Lemma not_bracket {A} c t (f : string -> A) b : c <> "]"%char ->
  match String c t with String "]" u => f u | _ => b end = b.
Proof. intros Hc. destruct c as [[] [] [] [] [] [] [] []]; done. Qed.

Lemma not_brace {A} c t (f : string -> A) b : c <> "}"%char ->
  match String c t with String "}" u => f u | _ => b end = b.
Proof. intros Hc. destruct c as [[] [] [] [] [] [] [] []]; done. Qed.

Lemma Join_head x l sep : exists y, Join (x :: l) sep = x +:+ y.
Proof. destruct l as [|z l]; [exists ""; by rewrite app_empty_r|by eexists]. Qed.

Lemma write_reads_back j : reads_back j.
Proof.
  induction j as [|b|x|s|l IH|m IH] using Json_nested; intros fuel depth t Hf Hw Ht.
  - done.
  - by destruct b.
  - cbn [writable] in Hw. destruct (parse_number x) as [[y []]|] eqn:E; try discriminate Hw.
    apply String.eqb_eq in Hw as ->. apply value_number. cbn [write]. by apply parse_number_app.
  - cbn [writable] in Hw. cbn [write]. unfold write_string. rewrite !str_app_assoc.
    change (quote +:+ ?x) with (String (chr 34) x) at 1. cbn [parse_value].
    change (skip_space (String (chr 34) ?x)) with (String (chr 34) x). cbv iota beta zeta.
    change (ord (chr 34) =? 34) with true. cbv iota. by rewrite parse_string_write.
  - cbn [writable] in Hw. apply andb_true_iff in Hw as [Hd Hw]. bool_prop.
    cbn [write] in *. rewrite !len_app in Hf. change (len "[") with 1%nat in Hf. change (len "]") with 1%nat in Hf.
    rewrite !str_app_assoc, value_array by done.
    destruct l as [|j l]; [done|].
    assert (He := elements_back (j :: l) fuel (depth + 1) t IH ltac:(done) ltac:(lia) Hw).
    cbn [forallb] in Hw. apply andb_true_iff in Hw as [Hj _].
    destruct (write_first _ _ Hj) as (c & u & Ew & Hs & Hc & _).
    assert (Ej : exists u', Join (write <$> j :: l) "," +:+ "]" +:+ t = String c u').
    { rewrite fmap_cons. destruct (Join_head (write j) (write <$> l) ",") as [y ->]. rewrite Ew. by eexists. }
    destruct Ej as [u' Ej]. rewrite Ej in *. rewrite skip_first by done.
    rewrite (not_bracket c u' (fun u => Some (JArray [], u))), He by done. done.
  - cbn [writable] in Hw. apply andb_true_iff in Hw as [Hd Hw]. bool_prop.
    cbn [write] in *. fold write_member in *. rewrite !len_app in Hf. change (len "{") with 1%nat in Hf. change (len "}") with 1%nat in Hf.
    rewrite !str_app_assoc, value_object by done.
    destruct m as [|kv m]; [done|].
    assert (He := members_back (kv :: m) fuel (depth + 1) t IH ltac:(done) ltac:(lia) Hw).
    assert (Ej : exists u', Join (write_member <$> kv :: m) "," +:+ "}" +:+ t = String (chr 34) u').
    { rewrite fmap_cons. destruct (Join_head (write_member kv) (write_member <$> m) ",") as [y ->].
      unfold write_member, write_string, quote. by eexists. }
    destruct Ej as [u' Ej]. rewrite Ej in *. rewrite skip_first by done.
    rewrite (not_brace _ u' (fun u => Some (JObject [], u))), He by done. done.
Qed.

(** A document that is written is parsed back. *)
Lemma parse_write j : writable 0 j = true -> parse (write j) = Some j.
Proof.
  intros Hw. unfold parse. pose proof (write_reads_back j (2 * len (write j))%nat 0 "" ltac:(lia) Hw I) as E.
  rewrite app_empty_r in E. by rewrite E.
Qed.

(** ** Strings of a parsed document are valid *)

Lemma runes_go_Encode fuel rs : (len (EncodeRunes rs) <= fuel)%nat -> Forall scalar rs -> runes_go fuel (EncodeRunes rs) = rs.
Proof.
  revert fuel. induction rs as [|r rs IH]; intros fuel Hf Hrs; [by destruct fuel|].
  apply Forall_cons in Hrs as [Hr Hrs]. cbn [EncodeRunes foldr] in *. fold (EncodeRunes rs) in *. rewrite len_app in Hf.
  pose proof (DecodeRune_Encode r (EncodeRunes rs) Hr) as Ed. pose proof (DecodeRune_Encode r "a" Hr) as Ea.
  destruct (EncodeRune r) as [|c x] eqn:Ee; [discriminate Ea|].
  destruct fuel as [|fuel]; [cbn in Hf; lia|]. rewrite app_cons in *. cbn [runes_go]. rewrite Ed, <-app_cons, str_drop_app, IH; [done| |done].
  cbn in Hf. lia.
Qed.

Lemma ValidString_Encode rs : Forall scalar rs -> ValidString (EncodeRunes rs) = true.
Proof. intros H. unfold ValidString, runes. rewrite runes_go_Encode by done. apply String.eqb_refl. Qed.

Lemma ValidString_ascii s : is_ascii s = true -> ValidString s = true.
Proof.
  intros H. assert (E : exists rs, Forall scalar rs /\ s = EncodeRunes rs).
  { induction s as [|c s IH]; [by exists []|]. cbn in H. apply andb_true_iff in H as [Hc H]. apply Z.ltb_lt in Hc.
    destruct (IH H) as (rs & Hrs & ->). exists (ord c :: rs). pose proof (ord_range c). split.
    - constructor; [unfold scalar; lia|done].
    - cbn [EncodeRunes foldr]. unfold EncodeRune at 1. tests. cbn. by rewrite chr_ord. }
  destruct E as (rs & Hrs & ->). by apply ValidString_Encode.
Qed.

Fixpoint valid_text (j : Json) : bool :=
  match j with
  | JString s => ValidString s
  | JArray l => forallb valid_text l
  | JObject m => forallb (fun kv => ValidString kv.1 && valid_text kv.2) m
  | _ => true
  end.

Lemma parse_string_valid s x r : parse_string s = Some (x, r) -> ValidString x = true.
Proof.
  unfold parse_string. destruct (parse_chars _ _) as [[y t]|]; [|done]. cbn. intros [= <- _].
  apply ValidString_Encode, runes_go_scalar.
Qed.

Lemma literal_valid w j s v : valid_text j = true -> literal w j s = Some v -> valid_text v.1 = true.
Proof. unfold literal. intros Hj. destruct (HasPrefix s w); [|done]. by intros [= <-]. Qed.

Lemma parsed_valid fuel :
  (forall depth s v, parse_value fuel depth s = Some v -> valid_text v.1 = true) /\
  (forall depth s v, parse_elements fuel depth s = Some v -> forallb valid_text v.1 = true) /\
  (forall depth s v, parse_members fuel depth s = Some v ->
     forallb (fun kv => ValidString kv.1 && valid_text kv.2) v.1 = true).
Proof.
  induction fuel as [|fuel (IHv & IHe & IHm)]; [done|].
  assert (Harr : forall depth t v,
    (r ← parse_elements fuel depth t; Some (JArray r.1, r.2)) = Some v -> valid_text v.1 = true).
  { intros depth t v. destruct (parse_elements fuel depth t) as [r|] eqn:E; [|done]. cbn. intros [= <-]. by apply IHe in E. }
  assert (Hobj : forall depth t v,
    (r ← parse_members fuel depth t; Some (JObject r.1, r.2)) = Some v -> valid_text v.1 = true).
  { intros depth t v. destruct (parse_members fuel depth t) as [r|] eqn:E; [|done]. cbn. intros [= <-]. by apply IHm in E. }
  split_and!; intros depth s v E.
  - cbn [parse_value] in E. destruct (skip_space s) as [|c t]; [done|]. cbv zeta in E.
    destruct (ord c =? 34).
    { destruct (parse_string t) as [[x r]|] eqn:Es; [|done]. cbn in E. injection E as <-. by apply parse_string_valid in Es. }
    destruct (ord c =? 123).
    { destruct (maxNestingDepth <=? depth); [done|]. destruct (skip_space t) as [|c' u]; [by apply Hobj in E|].
      destruct c' as [[] [] [] [] [] [] [] []]; first [by apply Hobj in E|by injection E as <-]. }
    destruct (ord c =? 91).
    { destruct (maxNestingDepth <=? depth); [done|]. destruct (skip_space t) as [|c' u]; [by apply Harr in E|].
      destruct c' as [[] [] [] [] [] [] [] []]; first [by apply Harr in E|by injection E as <-]. }
    do 3 (destruct (ord c =? _); [by apply literal_valid in E|]).
    destruct (parse_number _) as [[x r]|]; [|done]. cbn in E. by injection E as <-.
  - cbn [parse_elements] in E. destruct (parse_value fuel depth s) as [x|] eqn:Ev; [|done]. apply IHv in Ev. cbn in E.
    destruct (skip_space x.2) as [|c u]; [done|].
    destruct c as [[] [] [] [] [] [] [] []]; try done.
    + injection E as <-. cbn. by rewrite Ev.
    + destruct (parse_elements fuel depth u) as [r|] eqn:Er; [|done]. apply IHe in Er. cbn in E. injection E as <-.
      cbn. by rewrite Ev.
  - cbn [parse_members] in E. destruct (skip_space s) as [|c t]; [done|]. destruct (negb _); [done|].
    destruct (parse_string t) as [[k r]|] eqn:Ek; [|done]. apply parse_string_valid in Ek. cbn [mbind option_bind fst snd] in E.
    destruct (skip_space r) as [|c' u]; [done|]. destruct c' as [[] [] [] [] [] [] [] []]; try done.
    destruct (parse_value fuel depth u) as [x|] eqn:Ev; [|done]. apply IHv in Ev. cbn [mbind option_bind] in E.
    destruct (skip_space x.2) as [|c' w]; [done|]. destruct c' as [[] [] [] [] [] [] [] []]; try done.
    + injection E as <-. cbn [fst snd forallb]. by rewrite Ek, Ev.
    + destruct (parse_members fuel depth w) as [q|] eqn:Er; [|done]. apply IHm in Er. cbn in E. injection E as <-.
      cbn [fst snd forallb]. by rewrite Ek, Ev.
Qed.

Lemma decode_first_valid s j : decode_first s = Some j -> valid_text j = true.
Proof.
  unfold decode_first. destruct (parse_value _ _ _) as [v|] eqn:E; [|done]. cbn. intros [= <-]. by eapply (parsed_valid _).
Qed.

Lemma parse_valid s j : parse s = Some j -> valid_text j = true.
Proof.
  unfold parse. destruct (parse_value _ _ _) as [[v r]|] eqn:E; [|done]. destruct (String.eqb _ _); [|done].
  intros [= <-]. change v with (v, r).1. by eapply (parsed_valid _).
Qed.

(** A string field of a parsed document. *)
Lemma struct_field_valid name m : forallb (fun kv => ValidString kv.1 && valid_text kv.2) m = true ->
  Forall (fun j => valid_text j = true) (struct_field name m).
Proof.
  induction m as [|kv m IH]; [constructor|]. cbn [forallb]. intros [Hkv Hm]%andb_true_iff.
  apply andb_true_iff in Hkv as [_ Hv]. unfold struct_field. cbn [omap list_omap].
  destruct (String.eqb _ _); [constructor; [done|]|]; by apply IH.
Qed.

Lemma scan_string_valid name zero j : valid_text j = true -> ValidString zero = true ->
  ValidString (scan_field as_string name zero (members j)) = true.
Proof.
  intros Hj. unfold scan_field.
  assert (H : Forall (fun j => valid_text j = true) (struct_field name (members j))).
  { destruct j; try constructor. by apply struct_field_valid. }
  revert zero. induction H as [|x l Hx _ IH]; intros zero Hz; [done|]. cbn [foldl]. apply IH.
  destruct x; cbn; done.
Qed.

Lemma lower_hex_valid s : str_forallb is_lower_hex s = true -> ValidString s = true.
Proof.
  intros H. apply ValidString_ascii. unfold is_ascii. eapply str_forallb_impl; [|exact H].
  intros c. unfold is_lower_hex, is_digit. intros Hc. apply Z.ltb_lt. apply orb_true_iff in Hc as [Hc|Hc]; bool_prop; lia.
Qed.

Lemma EncodeRunes_app a b : EncodeRunes (a ++ b) = EncodeRunes a +:+ EncodeRunes b.
Proof. induction a as [|r a IH]; [done|]. unfold EncodeRunes in *. cbn [app foldr]. by rewrite IH, str_app_assoc. Qed.

Lemma ValidString_app a b : ValidString a = true -> ValidString b = true -> ValidString (a +:+ b) = true.
Proof.
  intros [Ea Ha]%ValidString_runes [Eb Hb]%ValidString_runes. rewrite Ea, Eb, <-EncodeRunes_app. apply ValidString_Encode.
  by apply Forall_app.
Qed.

(** ** Decimal numbers *)

Lemma itoa_go_first fuel n acc : 0 < n < 10 ^ Z.of_nat fuel -> exists c t, itoa_go fuel n acc = String c t /\ c <> "0"%char.
Proof.
  revert n acc. induction fuel as [|fuel IH]; intros n acc Hn; [cbn in Hn; lia|]. cbn [itoa_go].
  pose proof (Z.mod_pos_bound n 10 ltac:(lia)). pose proof (Z.div_mod n 10 ltac:(lia)).
  rewrite Nat2Z.inj_succ, Z.pow_succ_r in Hn by lia.
  destruct (Z.eqb_spec (n / 10) 0) as [E|E].
  - eexists _, _. split; [done|]. intros E'. apply (f_equal ord) in E'. rewrite ord_chr in E' by lia. change (ord "0") with 48 in E'. lia.
  - apply IH. pose proof (Z.div_pos n 10 ltac:(lia) ltac:(lia)). split; [lia|apply Z.div_lt_upper_bound; lia].
Qed.

Lemma span_digits_all s : str_forallb is_digit s = true -> span_digits s = (s, "").
Proof. induction s as [|c s IH]; [done|]. cbn. intros [Hc Hs]%andb_true_iff. by rewrite Hc, IH. Qed.

Lemma parse_number_itoa n : 0 <= n <= int64_max -> parse_number (itoa n) = Some (itoa n, "").
Proof.
  intros Hn. destruct (decide (n = 0)) as [->|H0]; [done|]. pose proof (itoa_digits n ltac:(lia)) as Hd.
  assert (Hf : exists c t, itoa n = String c t /\ c <> "0"%char).
  { unfold itoa. rewrite (proj2 (Z.ltb_ge n 0)) by lia. apply itoa_go_first. unfold int64_max in Hn.
    change (10 ^ Z.of_nat 20) with 100000000000000000000. lia. }
  destruct Hf as (c & t & E & Hc). rewrite E in *. unfold parse_number.
  assert (Hm : c <> "-"%char). { cbn in Hd. apply andb_true_iff in Hd as [Hd _]. by intros ->. }
  assert (Hi : integer_part (String c t) = Some (String c t, "")).
  { replace (integer_part (String c t)) with (let '(d, r) := span_digits (String c t) in if String.eqb d "" then None else Some (d, r))
      by (destruct c as [[] [] [] [] [] [] [] []]; done). by rewrite span_digits_all. }
  destruct c as [[] [] [] [] [] [] [] []]; try done; rewrite Hi; cbn; by rewrite app_empty_r.
Qed.

Lemma decode_int_digits t : t <> "" -> str_forallb is_digit t = true -> in64 (digits_exact t 0) ->
  decode_int 0 (JNumber t) = Some (digits_exact t 0).
Proof.
  intros Hne Hd Hr. destruct t as [|c t]; [done|]. assert (Hc : c <> "-"%char) by (by intros ->).
  transitivity (z ← (if str_forallb is_digit (String c t) then Some (digits_exact (String c t) 0) else None);
                if bool_decide (in64 z) then Some z else None).
  - clear Hd Hr Hne. by destruct c as [[] [] [] [] [] [] [] []].
  - rewrite Hd. change ((if bool_decide (in64 (digits_exact (String c t) 0)) then Some (digits_exact (String c t) 0) else None)
      = Some (digits_exact (String c t) 0)). by rewrite bool_decide_true.
Qed.

Lemma decode_int_itoa n : 0 <= n <= int64_max -> decode_int 0 (JNumber (itoa n)) = Some n.
Proof.
  intros Hn. pose proof (itoa_value n Hn) as Hv. rewrite decode_int_digits; rewrite ?Hv; [done| |by apply itoa_digits; lia|].
  - unfold itoa. rewrite (proj2 (Z.ltb_ge n 0)) by lia. apply itoa_go_nonempty.
  - unfold in64, int64_min, int64_max in *. lia.
Qed.
