(* ===== verification/RubyMarshal.v ===== *)
(** * internal/registry/rubygems/marshal.go: the Ruby Marshal encoder

    [rubyMarshal] writes a value as a Marshal 4.8 stream, with the table of the
    symbols already written; [load] reads one the way Ruby's documentation of
    the format describes it, for the constructs the encoder emits.  The theorem:
    Ruby loads back what was encoded, integers that do not fit a Fixnum as their
    decimal text. *)

From Stdlib Require Import ZArith Lia Ascii.
From stdpp Require Import base list strings gmap option.
From S2P Require Import Prelude GoStrings.

Local Open Scope Z_scope.

(** ** Values *)

(** What [encode] accepts: the cases of its type switch ([rbObject] names its
    instance variables by symbols). *)
Inductive Ruby :=
| RNil
| RBool (b : bool)
| RInt (n : Z)
| RString (s : string)
| RBinary (s : string)
| RSym (s : string)
| RArray (l : list Ruby)
| RHash (l : list (Ruby * Ruby))
| RUserMar (class : string) (data : Ruby)
| RUserDef (class data : string)
| RObject (class : string) (ivars : list (string * Ruby)).

(** ** The encoder *)

(** At most four bytes, least significant first, until the rest is the sign. *)
Fixpoint long_bytes (k : nat) (n x : Z) : string :=
  match k with
  | O => ""
  | S k =>
      let rest := Z.shiftr x 8 in
      String (chr (Z.land x 255))
        (if (0 <=? n) && (rest =? 0) || (n <? 0) && (rest =? -1) then "" else long_bytes k n rest)
  end.

Definition long (n : Z) : string :=
  if n =? 0 then String (chr 0) ""
  else if (0 <? n) && (n <? 123) then String (chr (n + 5)) ""
  else if (n <? 0) && (-124 <? n) then String (chr (Z.land (n - 5) 255)) ""
  else
    let b := long_bytes 4 n n in
    let cnt := Z.of_nat (len b) in
    String (chr ((if n <? 0 then - cnt else cnt) mod 256)) b.

Definition bytesRaw (s : string) : string := long (Z.of_nat (len s)) +:+ s.

(** The symbols written so far, with their positions. *)
Notation Syms := (gmap string nat).

Definition symbol (s : string) (m : Syms) : string * Syms :=
  match m !! s with
  | Some i => (";" +:+ long (Z.of_nat i), m)
  | None => (":" +:+ bytesRaw s, <[ s := size m ]> m)
  end.

Definition fixnum (n : Z) : bool := (- 2 ^ 30 <=? n) && (n <? 2 ^ 30).

Section lists.
Context {A : Type} (f : A -> Syms -> string * Syms).

Fixpoint encode_all (l : list A) (m : Syms) : string * Syms :=
  match l with
  | [] => ("", m)
  | x :: l => let '(a, m) := f x m in let '(b, m) := encode_all l m in (a +:+ b, m)
  end.

End lists.

Definition encode_string (s : string) (m : Syms) : string * Syms :=
  let '(e, m) := symbol "E" m in ("I" +:+ String (chr 34) (bytesRaw s +:+ long 1 +:+ e +:+ "T"), m).

Definition encode_pair {A B} (f : A -> Syms -> string * Syms) (g : B -> Syms -> string * Syms)
    (kv : A * B) (m : Syms) : string * Syms :=
  let '(a, m) := f kv.1 m in let '(b, m) := g kv.2 m in (a +:+ b, m).

Fixpoint encode (v : Ruby) (m : Syms) : string * Syms :=
  match v with
  | RNil => ("0", m)
  | RBool b => (if b then "T" else "F", m)
  | RInt n => if fixnum n then ("i" +:+ long n, m) else encode_string (itoa n) m
  | RString s => encode_string s m
  | RBinary s => (String (chr 34) (bytesRaw s), m)
  | RSym s => symbol s m
  | RArray l =>
      let '(b, m) := encode_all encode l m in ("[" +:+ long (Z.of_nat (length l)) +:+ b, m)
  | RHash l =>
      let '(b, m) := encode_all (encode_pair encode encode) l m in
      ("{" +:+ long (Z.of_nat (length l)) +:+ b, m)
  | RUserMar c d => let '(a, m) := symbol c m in let '(b, m) := encode d m in ("U" +:+ a +:+ b, m)
  | RUserDef c d => let '(a, m) := symbol c m in ("u" +:+ a +:+ bytesRaw d, m)
  | RObject c ivs =>
      let '(a, m) := symbol c m in
      let '(b, m) := encode_all (encode_pair symbol encode) ivs m in
      ("o" +:+ a +:+ long (Z.of_nat (length ivs)) +:+ b, m)
  end.

Definition rubyMarshal (v : Ruby) : string := String (chr 4) (String (chr 8) (encode v ∅).1).

(** ** Reading a stream *)

(** What a reader carries: the symbols it has met, and the bytes left. *)
Definition Input : Type := list string * string.
Definition P (A : Type) : Type := Input -> option (A * Input).

Fixpoint le_value (s : string) : Z :=
  match s with "" => 0 | String c s => ord c + 256 * le_value s end.

Definition take_bytes (n : Z) : P string :=
  fun st => if (n <? 0) || (Z.of_nat (len st.2) <? n) then None
            else Some (str_take (Z.to_nat n) st.2, (st.1, str_drop (Z.to_nat n) st.2)).

(** A count byte between -4 and 4 tells how many bytes follow; the others are
    the number itself, shifted by 5. *)
Definition r_long : P Z := fun st =>
  match st.2 with
  | "" => None
  | String c s =>
      let b := if ord c <? 128 then ord c else ord c - 256 in
      if b =? 0 then Some (0, (st.1, s))
      else if 4 <? b then Some (b - 5, (st.1, s))
      else if b <? -4 then Some (b + 5, (st.1, s))
      else
        '(w, st) ← take_bytes (Z.abs b) (st.1, s);
        Some (if 0 <? b then le_value w else le_value w - 256 ^ Z.abs b, st)
  end.

Definition r_bytes : P string := fun st => '(n, st) ← r_long st; take_bytes n st.

Definition r_symbol : P string := fun st =>
  match st.2 with
  | String ":" s => '(x, st) ← r_bytes (st.1, s); Some (x, (st.1 ++ [x], st.2))
  | String ";" s =>
      '(i, st) ← r_long (st.1, s);
      if i <? 0 then None else x ← st.1 !! Z.to_nat i; Some (x, st)
  | _ => None
  end.

(** [n] elements; [k] bounds them. *)
Fixpoint r_seq {A} (p : P A) (k : nat) (n : Z) : P (list A) := fun st =>
  if n <=? 0 then Some ([], st)
  else match k with
       | O => None
       | S k => '(x, st) ← p st; '(l, st) ← r_seq p k (n - 1) st; Some (x :: l, st)
       end.

Definition r_pair {A B} (p : P A) (q : P B) : P (A * B) := fun st =>
  '(a, st) ← p st; '(b, st) ← q st; Some ((a, b), st).

Definition r_list {A} (p : P A) (k : nat) : P (list A) := fun st => '(n, st) ← r_long st; r_seq p k n st.

(** A string with its encoding: one instance variable, [:E], true for UTF-8. *)
Definition r_string : P string := fun st =>
  match st.2 with
  | String c s =>
      if negb (Ascii.eqb c (chr 34)) then None
      else
        '(x, st) ← r_bytes (st.1, s);
        '(n, st) ← r_long st;
        '(e, st) ← r_symbol st;
        match st.2 with
        | String "T" s => if (n =? 1) && String.eqb e "E" then Some (x, (st.1, s)) else None
        | _ => None
        end
  | "" => None
  end.

Definition r_map {A B} (f : A -> B) (p : P A) : P B := fun st => '(a, st) ← p st; Some (f a, st).

Fixpoint r_value (fuel : nat) : P Ruby := fun st =>
  match fuel with
  | O => None
  | S fuel =>
      match st.2 with
      | String "0" s => Some (RNil, (st.1, s))
      | String "T" s => Some (RBool true, (st.1, s))
      | String "F" s => Some (RBool false, (st.1, s))
      | String "i" s => r_map RInt r_long (st.1, s)
      | String "I" s => r_map RString r_string (st.1, s)
      | String ":" _ | String ";" _ => r_map RSym r_symbol st
      | String "[" s => r_map RArray (r_list (r_value fuel) fuel) (st.1, s)
      | String "{" s => r_map RHash (r_list (r_pair (r_value fuel) (r_value fuel)) fuel) (st.1, s)
      | String "U" s => r_map (fun cd => RUserMar cd.1 cd.2) (r_pair r_symbol (r_value fuel)) (st.1, s)
      | String "u" s => r_map (fun cd => RUserDef cd.1 cd.2) (r_pair r_symbol r_bytes) (st.1, s)
      | String "o" s =>
          r_map (fun cd => RObject cd.1 cd.2)
            (r_pair r_symbol (r_list (r_pair r_symbol (r_value fuel)) fuel)) (st.1, s)
      | String c s => if Ascii.eqb c (chr 34) then r_map RBinary r_bytes (st.1, s) else None
      | "" => None
      end
  end.

(** [Marshal.load]: the version, and one value. *)
Definition load (s : string) : option Ruby :=
  match s with
  | String a (String b s) =>
      if Ascii.eqb a (chr 4) && Ascii.eqb b (chr 8) then fst <$> r_value (S (len s)) ([], s) else None
  | _ => None
  end.

(** What the reader sees of a value. *)
Fixpoint as_loaded (v : Ruby) : Ruby :=
  match v with
  | RInt n => if fixnum n then RInt n else RString (itoa n)
  | RArray l => RArray (as_loaded <$> l)
  | RHash l => RHash ((fun kv => (as_loaded kv.1, as_loaded kv.2)) <$> l)
  | RUserMar c d => RUserMar c (as_loaded d)
  | RObject c ivs => RObject c ((fun kv => (kv.1, as_loaded kv.2)) <$> ivs)
  | _ => v
  end.

Example long_bounds : long 122 = String (chr 127) "" /\ long (-123) = String (chr 128) "" /\
  long 255 = String (chr 1) (String (chr 255) "") /\ long (-256) = String (chr 255) (String (chr 0) "") /\
  long 65536 = String (chr 3) (String (chr 0) (String (chr 0) (String (chr 1) ""))).
Proof. by split_and!. Qed.

Example load_twice : load (rubyMarshal (RArray [RString "a"; RSym "k"; RString "b"; RInt (2 ^ 30)])) =
  Some (RArray [RString "a"; RSym "k"; RString "b"; RString "1073741824"]).
Proof. vm_compute. reflexivity. Qed.

(** ** The reader undoes the encoder *)

Fixpoint Ruby_nested (Q : Ruby -> Prop) (H0 : Q RNil) (H1 : forall b, Q (RBool b)) (H2 : forall n, Q (RInt n))
  (H3 : forall s, Q (RString s)) (H4 : forall s, Q (RBinary s)) (H5 : forall s, Q (RSym s))
  (H6 : forall l, Forall Q l -> Q (RArray l))
  (H7 : forall l, Forall (fun kv => Q kv.1 /\ Q kv.2) l -> Q (RHash l))
  (H8 : forall c d, Q d -> Q (RUserMar c d)) (H9 : forall c d, Q (RUserDef c d))
  (H10 : forall c l, Forall (fun kv : string * Ruby => Q kv.2) l -> Q (RObject c l)) (v : Ruby) : Q v :=
  let rec := Ruby_nested Q H0 H1 H2 H3 H4 H5 H6 H7 H8 H9 H10 in
  match v with
  | RNil => H0 | RBool b => H1 b | RInt n => H2 n | RString s => H3 s | RBinary s => H4 s | RSym s => H5 s
  | RArray l => H6 l ((fix go l : Forall Q l := match l with
      | [] => List.Forall_nil _ | x :: l => List.Forall_cons _ x l (rec x) (go l) end) l)
  | RHash l => H7 l ((fix go l : Forall (fun kv => Q kv.1 /\ Q kv.2) l := match l with
      | [] => List.Forall_nil _ | x :: l => List.Forall_cons _ x l (conj (rec x.1) (rec x.2)) (go l) end) l)
  | RUserMar c d => H8 c d (rec d)
  | RUserDef c d => H9 c d
  | RObject c l => H10 c l ((fix go l : Forall (fun kv : string * Ruby => Q kv.2) l := match l with
      | [] => List.Forall_nil _ | x :: l => List.Forall_cons _ x l (rec x.2) (go l) end) l)
  end.

Lemma land_255 x : Z.land x 255 = x mod 256.
Proof. change 255 with (Z.ones 8). by rewrite Z.land_ones. Qed.

Lemma shiftr_8 x : Z.shiftr x 8 = x / 256.
Proof. by rewrite Z.shiftr_div_pow2. Qed.

(** The bytes of a number below [256^k] in absolute value. *)
Lemma long_bytes_spec k n x : (0 < k)%nat -> - 256 ^ Z.of_nat k <= x < 256 ^ Z.of_nat k -> (0 <= n <-> 0 <= x) ->
  (0 < len (long_bytes k n x) <= k)%nat /\
  le_value (long_bytes k n x) = if n <? 0 then x + 256 ^ Z.of_nat (len (long_bytes k n x)) else x.
Proof.
  unfold len. revert x. induction k as [|k IH]; intros x Hk Hx Hs; [lia|]. cbn [long_bytes]. rewrite land_255, shiftr_8.
  pose proof (Z.mod_pos_bound x 256 ltac:(lia)) as Hm. pose proof (Z.div_mod x 256 ltac:(lia)) as Hd.
  assert (Hx' : - 256 ^ Z.of_nat k <= x / 256 < 256 ^ Z.of_nat k).
  { rewrite Nat2Z.inj_succ, Z.pow_succ_r in Hx by lia. lia. }
  destruct ((0 <=? n) && (x / 256 =? 0) || (n <? 0) && (x / 256 =? -1)) eqn:Eb; cbn [String.length le_value]; rewrite ord_chr by done.
  - split; [lia|]. change (256 ^ Z.of_nat 1) with 256. destruct (Z.ltb_spec n 0) as [Hn|Hn].
    + rewrite (proj2 (Z.leb_gt 0 n) Hn) in Eb. cbn [andb orb] in Eb. apply Z.eqb_eq in Eb. lia.
    + rewrite (proj2 (Z.leb_le 0 n)) in Eb by lia. cbn [andb] in Eb. rewrite orb_false_r in Eb. apply Z.eqb_eq in Eb. lia.
  - assert (Hk0 : (0 < k)%nat).
    { destruct k as [|k]; [exfalso|lia]. change (256 ^ Z.of_nat 0) with 1 in Hx'.
      assert (x / 256 = 0 \/ x / 256 = -1) as [E|E] by lia; rewrite E in Eb.
      - assert (H0 : 0 <= n) by (apply Hs; lia). rewrite (proj2 (Z.leb_le 0 n) H0) in Eb. done.
      - assert (H0 : n < 0) by (destruct (Z.lt_ge_cases n 0) as [|H0]; [done|apply Hs in H0; lia]).
        rewrite (proj2 (Z.ltb_lt n 0) H0), orb_true_r in Eb. done. }
    destruct (IH (x / 256) Hk0 Hx') as [Hl Hv]; [rewrite Hs; lia|]. split; [lia|]. rewrite Hv.
    rewrite Nat2Z.inj_succ, Z.pow_succ_r by lia. destruct (n <? 0); lia.
Qed.

Lemma take_bytes_app s l rest n : n = Z.of_nat (len s) -> take_bytes n (l, s +:+ rest) = Some (s, (l, rest)).
Proof.
  intros ->. unfold take_bytes. cbn [fst snd]. rewrite len_app, Nat2Z.id, (proj2 (Z.ltb_ge _ _)) by lia.
  rewrite (proj2 (Z.ltb_ge _ _)) by lia. cbn [orb]. by rewrite str_take_app, str_drop_app.
Qed.

Lemma r_long_byte z l rest : 0 <= z < 256 -> let b := if z <? 128 then z else z - 256 in b = 0 \/ 4 < b \/ b < -4 ->
  r_long (l, String (chr z) rest) = Some (if b =? 0 then 0 else if 4 <? b then b - 5 else b + 5, (l, rest)).
Proof.
  intros Hz b Hb. unfold r_long. cbn [fst snd]. rewrite ord_chr by done. fold b.
  destruct (Z.eqb_spec b 0); [done|]. destruct (Z.ltb_spec 4 b); [done|]. by rewrite (proj2 (Z.ltb_lt b (-4))) by lia.
Qed.

Lemma r_long_long n l rest : - 2 ^ 32 <= n < 2 ^ 32 -> r_long (l, long n +:+ rest) = Some (n, (l, rest)).
Proof.
  intros Hn. unfold long. destruct (Z.eqb_spec n 0) as [->|H0]; [done|].
  destruct ((0 <? n) && (n <? 123)) eqn:E1.
  { bool_prop. cbn [app]. change ((String (chr (n + 5)) "" +:+ rest)) with (String (chr (n + 5)) rest).
    rewrite r_long_byte; [|lia|]; (destruct (Z.ltb_spec (n + 5) 128); [|lia]); [|lia].
    rewrite (proj2 (Z.eqb_neq _ _)) by lia. rewrite (proj2 (Z.ltb_lt 4 _)) by lia. do 2 f_equal. lia. }
  destruct ((n <? 0) && (-124 <? n)) eqn:E2.
  { bool_prop. rewrite land_255. assert (Em : (n - 5) mod 256 = n + 251) by (symmetry; apply Z.mod_unique with (-1); lia).
    rewrite Em. change ((String (chr (n + 251)) "" +:+ rest)) with (String (chr (n + 251)) rest).
    rewrite r_long_byte; [|lia|]; (destruct (Z.ltb_spec (n + 251) 128); [lia|]); [|lia].
    rewrite (proj2 (Z.eqb_neq _ _)) by lia. rewrite (proj2 (Z.ltb_ge 4 _)) by lia. do 2 f_equal. lia. }
  destruct (long_bytes_spec 4 n n ltac:(lia)) as [Hl Hv]; [lia|done|]. set (b := long_bytes 4 n n) in *. clearbody b.
  change (String ?c b +:+ rest) with (String c (b +:+ rest)). unfold r_long. cbn [fst snd].
  assert (Hc : exists z, 0 <= z < 256 /\ (if n <? 0 then - Z.of_nat (len b) else Z.of_nat (len b)) mod 256 = z /\
    (if z <? 128 then z else z - 256) = if n <? 0 then - Z.of_nat (len b) else Z.of_nat (len b)).
  { destruct (n <? 0).
    - exists (256 - Z.of_nat (len b)). split; [lia|]. split; [symmetry; apply Z.mod_unique with (-1); lia|].
      destruct (Z.ltb_spec (256 - Z.of_nat (len b)) 128); lia.
    - exists (Z.of_nat (len b)). split; [lia|]. split; [apply Z.mod_small; lia|].
      destruct (Z.ltb_spec (Z.of_nat (len b)) 128); lia. }
  destruct Hc as (z & Hz & -> & Eb). rewrite ord_chr by done. rewrite Eb.
  destruct (Z.ltb_spec n 0) as [Hneg|Hpos].
  - rewrite (proj2 (Z.eqb_neq _ _)), (proj2 (Z.ltb_ge 4 _)), (proj2 (Z.ltb_ge _ (-4))) by lia.
    rewrite take_bytes_app by lia. cbn. rewrite (proj2 (Z.ltb_ge 0 _)) by lia. rewrite Hv. rewrite Z.abs_opp, Z.abs_eq by lia.
    do 2 f_equal. lia.
  - rewrite (proj2 (Z.eqb_neq _ _)), (proj2 (Z.ltb_ge 4 _)), (proj2 (Z.ltb_ge _ (-4))) by lia.
    rewrite take_bytes_app by lia. cbn. rewrite (proj2 (Z.ltb_lt 0 _)) by lia. by rewrite Hv.
Qed.

Lemma r_bytes_raw s l rest : Z.of_nat (len s) < 2 ^ 32 -> r_bytes (l, bytesRaw s +:+ rest) = Some (s, (l, rest)).
Proof.
  intros Hs. unfold r_bytes, bytesRaw. rewrite str_app_assoc, r_long_long by lia. cbn. by rewrite take_bytes_app.
Qed.

(** ** Symbols *)

Record known (m : Syms) (l : list string) : Prop := {
  known_size : size m = length l;
  known_at s i : m !! s = Some i <-> l !! i = Some s;
}.

Lemma known_empty : known ∅ [].
Proof. split; [done|]. intros s i. by rewrite lookup_empty. Qed.

Lemma known_snoc m l s : known m l -> m !! s = None -> known (<[ s := size m ]> m) (l ++ [s]).
Proof.
  intros [Hs Hk] Hn. split; [rewrite map_size_insert_None, length_app by done; cbn; lia|]. intros t i.
  destruct (decide (s = t)) as [<-|Hne].
  - rewrite lookup_insert_eq, Hs. split; [intros [= <-]; by rewrite lookup_app_r, Nat.sub_diag by done|].
    intros [Hi|[Hi Ei]]%lookup_app_Some; [by apply Hk in Hi; rewrite Hn in Hi|].
    apply list_lookup_singleton_Some in Ei as [Ei _]. f_equal. lia.
  - rewrite lookup_insert_ne, Hk by done. rewrite lookup_app_Some. split; [by left|].
    intros [Hi|[Hi Ei]]; [done|]. by apply list_lookup_singleton_Some in Ei as [_ ->].
Qed.

(** What [f] writes of [x], [p] reads as [y]; [p] gets a bound on what it reads. *)
Definition reads {A B} (f : A -> Syms -> string * Syms) (p : nat -> P B) (x : A) (y : B) : Prop :=
  forall m l k, known m l -> let '(b, m') := f x m in
    Z.of_nat (size m + len b) < 2 ^ 32 -> (len b <= k)%nat ->
    exists l', known m' l' /\ (size m' <= size m + len b)%nat /\ (0 < len b)%nat /\
      forall rest, p k (l, b +:+ rest) = Some (y, (l', rest)).

Lemma symbol_reads s : reads symbol (fun _ => r_symbol) s s.
Proof.
  intros m l k Hk. unfold symbol. destruct (m !! s) as [i|] eqn:Em.
  - intros Hb _. exists l. apply (known_at _ _ Hk) in Em. pose proof (lookup_lt_Some _ _ _ Em) as Hi.
    pose proof (known_size _ _ Hk) as Hs. split_and!; [done|lia|rewrite len_app; cbn; lia|]. intros rest.
    rewrite str_app_assoc. cbn. rewrite r_long_long by lia. cbn. by rewrite (proj2 (Z.ltb_ge _ _)), Nat2Z.id, Em by lia.
  - intros Hb _. exists (l ++ [s]). rewrite len_app in *. unfold bytesRaw in Hb. rewrite len_app in Hb. cbn in Hb.
    split_and!; [by apply known_snoc|rewrite map_size_insert_None by done; cbn; lia|cbn; lia|]. intros rest.
    rewrite str_app_assoc. cbn. by rewrite r_bytes_raw by lia.
Qed.

Lemma encode_pair_reads {A B C D} f g (p : nat -> P C) (q : nat -> P D) (x : A) (y : B) x' y' :
  reads f p x x' -> reads g q y y' ->
  reads (encode_pair f g) (fun k => r_pair (p k) (q k)) (x, y) (x', y').
Proof.
  intros Hf Hg m l k Hk. unfold encode_pair. cbn [fst snd]. specialize (Hf m l k Hk).
  destruct (f x m) as [a m1]. specialize (Hg m1). destruct (g y m1) as [b m2]. rewrite len_app. intros Hb Hl.
  destruct Hf as (l1 & Hk1 & Hs1 & Ha & Hr1); [lia|lia|]. destruct (Hg l1 k Hk1) as (l2 & Hk2 & Hs2 & Hb2 & Hr2); [lia|lia|].
  exists l2. split_and!; [done|lia|lia|]. intros rest. unfold r_pair. rewrite str_app_assoc, Hr1. cbn. by rewrite Hr2.
Qed.

Lemma encode_all_reads {A B} f (p : nat -> P B) xs ys m l k (Hf : Forall2 (reads f p) xs ys) : known m l ->
  let '(b, m') := encode_all f xs m in
  Z.of_nat (size m + len b) < 2 ^ 32 -> (len b <= k)%nat ->
  exists l', known m' l' /\ (size m' <= size m + len b)%nat /\ (length xs <= len b)%nat /\
    forall k' rest, (length xs <= k')%nat -> r_seq (A := B) (p k) k' (Z.of_nat (@length A xs)) (l, b +:+ rest) = Some (ys, (l', rest)).
Proof.
  intros Hk. revert m l Hk. induction Hf as [|x y xs ys Hx Hf IH]; intros m l Hk; cbn [encode_all].
  { intros _ _. exists l. split_and!; [done|cbn; lia|cbn; lia|]. intros k' rest _. by destruct k'. }
  specialize (Hx m l k Hk). destruct (f x m) as [a m1]. specialize (IH m1). destruct (encode_all f xs m1) as [b m2].
  rewrite len_app. intros Hb Hl. destruct Hx as (l1 & Hk1 & Hs1 & Ha & Hr1); [lia|lia|].
  destruct (IH l1 Hk1) as (l2 & Hk2 & Hs2 & Hn & Hr2); [lia|lia|]. exists l2. cbn [length]. split_and!; [done|lia|lia|].
  intros k' rest Hk'. destruct k' as [|k']; [lia|]. cbn [r_seq]. rewrite (proj2 (Z.leb_gt _ _)) by lia.
  rewrite str_app_assoc, Hr1. cbn. replace (Z.of_nat (S (length xs)) - 1) with (Z.of_nat (length xs)) by lia.
  rewrite Hr2 by lia. done.
Qed.

(** A list with its length. *)
Definition encode_list {A} (f : A -> Syms -> string * Syms) (xs : list A) (m : Syms) : string * Syms :=
  let '(b, m) := encode_all f xs m in (long (Z.of_nat (length xs)) +:+ b, m).

Lemma long_pos n : (0 < len (long n))%nat.
Proof. unfold long. repeat case_match; cbn; lia. Qed.

Lemma encode_list_reads {A B} f (p : nat -> P B) (xs : list A) ys (Hf : Forall2 (reads f p) xs ys) :
  reads (encode_list f) (fun k => r_list (p k) k) xs ys.
Proof.
  intros m l k Hk. unfold encode_list. pose proof (encode_all_reads f p xs ys m l k Hf Hk) as Ha.
  destruct (encode_all f xs m) as [b m']. rewrite len_app. intros Hb Hl. pose proof (long_pos (Z.of_nat (length xs))) as Hp.
  destruct Ha as (l' & Hk' & Hs & Hn & Hr); [lia|lia|]. exists l'. split_and!; [done|lia|lia|]. intros rest.
  unfold r_list. rewrite str_app_assoc, r_long_long by lia. cbn. by apply Hr; lia.
Qed.

Lemma encode_string_reads s : reads encode_string (fun k => r_value k) s (RString s).
Proof.
  intros m l k Hk. unfold encode_string. pose proof (symbol_reads "E" m l k Hk) as He.
  destruct (symbol "E" m) as [e m']. change ("I" +:+ ?x) with (String "I" x). intros Hb Hl.
  cbn [len String.length] in Hb, Hl. rewrite !len_app in *. unfold bytesRaw in Hb, Hl. rewrite len_app in *.
  unfold len in *. cbn [String.length] in *. rewrite !len_app in *. unfold len in *. cbn [String.length] in *.
  destruct He as (l' & Hk' & Hs & He & Hr); [lia|lia|]. exists l'. split_and!; [done|lia|lia|]. intros rest.
  destruct k as [|k]; [lia|]. cbn [r_value snd fst]. change (String ?c ?x +:+ rest) with (String c (x +:+ rest)).
  change (String ?c ?x +:+ rest) with (String c (x +:+ rest)). cbn [snd fst]. unfold r_map, r_string. cbn [snd fst].
  rewrite Ascii.eqb_refl. cbn [negb].
  rewrite !str_app_assoc, r_bytes_raw by (unfold len; lia). cbn [mbind option_bind]. rewrite r_long_long by lia. cbn [mbind option_bind].
  rewrite Hr. done.
Qed.

(** ** Values *)

Lemma encode_tag_reads {A B} c (f : A -> Syms -> string * Syms) (p : nat -> P B) (g : B -> Ruby) x y v :
  (forall k l s, r_value (S k) (l, String c s) = r_map g (p k) (l, s)) ->
  (forall m, encode v m = let '(b, m) := f x m in (String c b, m)) ->
  reads f p x y -> reads encode r_value v (g y).
Proof.
  intros Hp He Hr m l k Hk. rewrite He. specialize (Hr m l). destruct (f x m) as [b m']. unfold len. cbn [String.length].
  fold (len b). intros Hb Hl. destruct k as [|k]; [lia|].
  destruct (Hr k Hk) as (l' & Hk' & Hs & Hn & Hv); [lia|lia|]. exists l'. split_and!; [done|lia|lia|]. intros rest.
  change (String c b +:+ rest) with (String c (b +:+ rest)). rewrite Hp. unfold r_map. by rewrite Hv.
Qed.

Lemma Forall2_fmap_reads {A B} f (p : nat -> P B) (g : A -> B) xs : Forall (fun x => reads f p x (g x)) xs ->
  Forall2 (reads f p) xs (g <$> xs).
Proof. induction 1; constructor; done. Qed.

Lemma encode_reads v : reads encode r_value v (as_loaded v).
Proof.
  induction v as [|b|n|s|s|s|xs Hxs|kvs Hkvs|c d Hd|c d|c ivs Hivs] using Ruby_nested.
  - intros m l k Hk _ Hl. destruct k as [|k]; [cbn in Hl; lia|]. exists l. split_and!; [done|lia|cbn; lia|done].
  - intros m l k Hk _ Hl. destruct k as [|k]; [destruct b; cbn in Hl; lia|]. exists l.
    split_and!; [done|lia|destruct b; cbn; lia|]. intros rest. by destruct b.
  - cbn [as_loaded]. destruct (fixnum n) eqn:En.
    + apply (encode_tag_reads "i" (fun n m => (long n, m)) (fun _ => r_long) RInt n n); [done| |].
      * intros m. cbn [encode]. by rewrite En.
      * intros m l k Hk Hb _. exists l. split_and!; [done|lia|apply long_pos|]. intros rest. apply r_long_long.
        unfold fixnum in En. bool_prop. lia.
    + pose proof (encode_string_reads (itoa n)) as Hr. intros m l k Hk. specialize (Hr m l k Hk). cbn [encode]. by rewrite En.
  - apply encode_string_reads.
  - apply (encode_tag_reads (chr 34) (fun s m => (bytesRaw s, m)) (fun _ => r_bytes) RBinary s s); [done|done|].
    intros m l k Hk Hb _. unfold bytesRaw in *. rewrite len_app in *. pose proof (long_pos (Z.of_nat (len s))).
    exists l. split_and!; [done|lia|lia|]. intros rest. apply r_bytes_raw. lia.
  - intros m l k Hk. pose proof (symbol_reads s m l k Hk) as Hr. cbn [encode as_loaded].
    assert (Hc : exists x, (symbol s m).1 = String ":" x \/ (symbol s m).1 = String ";" x).
    { unfold symbol. destruct (m !! s); eexists; [by right|by left]. }
    destruct (symbol s m) as [b m'], Hc as (x & Hx). cbn [fst] in Hx. intros Hb Hl.
    destruct Hr as (l' & Hk' & Hs & Hn & Hv); [done|done|]. exists l'. split_and!; [done..|]. intros rest. specialize (Hv rest).
    destruct k as [|k]; [lia|]. cbn [r_value fst snd]. unfold r_map.
    destruct Hx as [-> | ->]; change (String ?c x +:+ rest) with (String c (x +:+ rest)) in *; cbn [snd]; by rewrite Hv.
  - cbn [as_loaded]. apply (encode_tag_reads "[" (encode_list encode) (fun k => r_list (r_value k) k) RArray xs (as_loaded <$> xs)); [done| |].
    + intros m. cbn [encode]. unfold encode_list. by destruct (encode_all encode xs m).
    + apply encode_list_reads. by apply Forall2_fmap_reads.
  - cbn [as_loaded]. set (g := fun kv : Ruby * Ruby => (as_loaded kv.1, as_loaded kv.2)).
    apply (encode_tag_reads "{" (encode_list (encode_pair encode encode)) (fun k => r_list (r_pair (r_value k) (r_value k)) k)
             RHash kvs (g <$> kvs)); [done| |].
    + intros m. cbn [encode]. unfold encode_list. by destruct (encode_all _ kvs m).
    + apply (encode_list_reads _ (fun k => r_pair (r_value k) (r_value k))). apply Forall2_fmap_reads.
      revert Hkvs. apply List.Forall_impl. intros [a b] [Ha Hb]. by apply (encode_pair_reads encode encode r_value r_value).
  - cbn [as_loaded]. apply (encode_tag_reads "U" (encode_pair symbol encode) (fun k => r_pair r_symbol (r_value k))
      (fun cd => RUserMar cd.1 cd.2) (c, d) (c, as_loaded d)); [done| |].
    + intros m. cbn [encode]. unfold encode_pair. cbn [fst snd]. destruct (symbol c m) as [a m1]. by destruct (encode d m1).
    + by apply (encode_pair_reads symbol encode (fun _ => r_symbol) r_value); [apply symbol_reads|].
  - apply (encode_tag_reads "u" (encode_pair symbol (fun s m => (bytesRaw s, m))) (fun k => r_pair r_symbol r_bytes)
      (fun cd => RUserDef cd.1 cd.2) (c, d) (c, d)); [done| |].
    + intros m. cbn [encode]. unfold encode_pair. cbn [fst snd]. by destruct (symbol c m).
    + apply (encode_pair_reads symbol (fun s m => (bytesRaw s, m)) (fun _ => r_symbol) (fun _ => r_bytes)); [apply symbol_reads|].
      intros m l k Hk Hb _. unfold bytesRaw in *. rewrite len_app in *. pose proof (long_pos (Z.of_nat (len d))).
      exists l. split_and!; [done|lia|lia|]. intros rest. apply r_bytes_raw. lia.
  - cbn [as_loaded]. set (g := fun kv : string * Ruby => (kv.1, as_loaded kv.2)).
    change (RObject c (g <$> ivs)) with ((fun cd : string * list (string * Ruby) => RObject cd.1 cd.2) (c, g <$> ivs)).
    apply (encode_tag_reads "o" (encode_pair symbol (encode_list (encode_pair symbol encode)))
      (fun k => r_pair r_symbol (r_list (r_pair r_symbol (r_value k)) k)) (fun cd => RObject cd.1 cd.2) (c, ivs) _ (RObject c ivs)); [done| |].
    + intros m. cbn [encode]. unfold encode_pair at 2, encode_list. cbn [fst snd]. destruct (symbol c m) as [a m1].
      by destruct (encode_all _ ivs m1).
    + apply (encode_pair_reads symbol _ (fun _ => r_symbol) (fun k => r_list (r_pair r_symbol (r_value k)) k)); [apply symbol_reads|].
      apply (encode_list_reads _ (fun k => r_pair r_symbol (r_value k))). apply Forall2_fmap_reads.
      revert Hivs. apply List.Forall_impl. intros [a b] Hb.
      by apply (encode_pair_reads symbol encode (fun _ => r_symbol) r_value); [apply symbol_reads|].
Qed.

Lemma load_rubyMarshal v : Z.of_nat (len (rubyMarshal v)) < 2 ^ 32 -> load (rubyMarshal v) = Some (as_loaded v).
Proof.
  unfold rubyMarshal, load, len. cbn [String.length]. intros Hb. change (Ascii.eqb (chr 4) (chr 4) && Ascii.eqb (chr 8) (chr 8)) with true.
  cbn [andb]. pose proof (encode_reads v ∅ [] (S (len (encode v ∅).1)) known_empty) as Hr. unfold len in *.
  destruct (encode v ∅) as [b m']. cbn [fst] in *. destruct Hr as (l' & _ & _ & _ & Hr); [rewrite map_size_empty; lia|lia|].
  specialize (Hr ""). rewrite app_empty_r in Hr. by rewrite Hr.
Qed.

(** C28: Ruby's [Marshal.load] of a stream shorter than 4 GiB is the value that was
    encoded, whatever symbols it shares, except that integers beyond a Fixnum
    come back as their decimal text. *)
Theorem rubyMarshal_loads v : Z.of_nat (len (rubyMarshal v)) < 2 ^ 32 -> load (rubyMarshal v) = Some (as_loaded v).
Proof. apply load_rubyMarshal. Qed.

Lemma rubyMarshal_loads_witness :
  let v := RArray [RString "a"; RSym "k"; RUserMar "Gem::Version" (RArray [RString "1.0"]); RSym "k"; RInt (2 ^ 40)] in
  as_loaded v <> v /\ load (rubyMarshal v) = Some (as_loaded v).
Proof. cbv zeta. split; [done|]. apply rubyMarshal_loads. vm_compute. reflexivity. Defined.
