(* ===== verification/RawFS.v ===== *)
(** * internal/rawfs/rawfs.go: the file system contract

    [RawFS] is the interface of a mounted backend, [RawFSLaws] what its clients
    rely on, and [ObjectStore] an implementation with the behaviour of an
    object store: files by path, directories only as prefixes, and paths whose
    reads fail.  An error is its text, as the program inspects nothing else of
    it, and a failed write changes nothing (localfs truncates the file first; the
    mounts of Backend.v leave what a failed write made).  [contents] and [depth] enumerate a finite store; they only bound the
    fuel of walks.  A [healthy] backend lists every directory with a readable
    file in it. *)

From Stdlib Require Import ZArith Lia Ascii.
From stdpp Require Import base list strings gmap.
From S2P Require Import Prelude GoStrings GoPath.

Local Open Scope Z_scope.

(** ** The interface *)

Record DirEntry := { Name : string; IsDir : bool }.

(** [fiModTime]: Unix seconds, None when unknown. *)
Record FileInfo := { fiIsDir : bool; fiModTime : option Z }.

(** [Open] reads the whole file; [Remove] is [Delete] of WritableRawFS, and a
    backend that is not [writable] does not implement it. *)
Class RawFS (F : Type) := {
  Stat : F -> string -> result string FileInfo;
  ReadDir : F -> string -> result string (list DirEntry);
  Open : F -> string -> result string string;
  writable : F -> bool;
  Write : F -> string -> string -> result string F;
  Remove : F -> string -> result string F;
  contents : F -> list string;
  depth : F -> nat;
}.

Definition segments (p : string) : nat := length (Split p "/").

Class RawFSLaws (F : Type) `{RawFS F} := {
  ReadDir_names f p es e : ReadDir f p = Ok es -> e ∈ es -> good_seg (Name e);
  ReadDir_depth f p : is_ok (ReadDir f p) = true -> (segments p <= depth f)%nat;
  ReadDir_listed f p x es : good_path p -> good_seg x -> is_ok (Open f (p +:+ "/" +:+ x)) = true ->
    ReadDir f p = Ok es -> {| Name := x; IsDir := false |} ∈ es;
  Open_contents f p c : Open f p = Ok c -> c ∈ contents f;
  Remove_gone f p f' : Remove f p = Ok f' -> is_ok (Open f' p) = false;
  Remove_other f p f' q : Remove f p = Ok f' -> q <> p -> Open f' q = Open f q;
  Remove_writable f p f' : Remove f p = Ok f' -> writable f' = writable f;
  Write_same f p c f' : Write f p c = Ok f' -> Open f' p = Ok c;
  Write_other f p c f' q : Write f p c = Ok f' -> q <> p -> Open f' q = Open f q;
  healthy : F -> Prop;
  healthy_lists f p x : healthy f -> good_path p -> good_seg x ->
    is_ok (Open f (p +:+ "/" +:+ x)) = true -> is_ok (ReadDir f p) = true;
  Write_healthy f p c f' : healthy f -> Write f p c = Ok f' -> healthy f';
  Remove_healthy f p f' : healthy f -> Remove f p = Ok f' -> healthy f';
}.

(** [isNotFound] of the stores: the text of an error that says so. *)
Definition isNotFound (err : string) : bool :=
  let low := ToLower err in
  Contains low "not found" || Contains low "no such file" || Contains low "does not exist".

(** ** An object store *)

Record File := { content : string; mtime : Z }.

(** [now] is the clock of writes; [faulty] paths cannot be read or listed. *)
Record ObjectStore := { files : gmap string File; faulty : gset string; now : Z }.

Definition notFound : string := "not found".
Definition ioError : string := "i/o timeout".

Definition readable {A} (f : ObjectStore) (p : string) (r : result string A) : result string A :=
  if bool_decide (p ∈ faulty f) then Err ioError else r.

(** The entry of [key] in the directory [p], if it is below it. *)
Definition child (p key : string) : option DirEntry :=
  let dir := if String.eqb p "" then "" else p +:+ "/" in
  if HasPrefix key dir then
    let rest := TrimPrefix key dir in
    match IndexByte rest "/" with
    | None => Some {| Name := rest; IsDir := false |}
    | Some i => Some {| Name := str_take i rest; IsDir := true |}
    end
  else None.

#[export] Instance DirEntry_eq_dec : EqDecision DirEntry.
Proof. solve_decision. Defined.

Fixpoint nub {A} `{EqDecision A} (l : list A) : list A :=
  match l with
  | [] => []
  | x :: l => if bool_decide (x ∈ l) then nub l else x :: nub l
  end.

Lemma nub_elem {A} `{EqDecision A} (l : list A) x : x ∈ nub l <-> x ∈ l.
Proof.
  induction l as [|y l IH]; [done|]. cbn [nub]. case_bool_decide.
  - rewrite IH, elem_of_cons. split; [by right|]. by intros [->|?].
  - by rewrite !elem_of_cons, IH.
Qed.

Definition entry_less (a b : DirEntry) : bool := str_ltb (Name a) (Name b).

(** Keys that are not clean paths cannot be listed. *)
Definition objReadDir (f : ObjectStore) (p : string) : result string (list DirEntry) :=
  readable f p
    (let es := omap (fun kv => if bool_decide (good_path kv.1) then child p kv.1 else None)
                    (map_to_list (files f)) in
     if bool_decide (es = []) then Err notFound else Ok (SliceStable entry_less (nub es))).

Definition objOpen (f : ObjectStore) (p : string) : result string string :=
  readable f p
    (match files f !! p with Some x => Ok (content x) | None => Err notFound end).

Definition objStat (f : ObjectStore) (p : string) : result string FileInfo :=
  readable f p
    (match files f !! p with
     | Some x => Ok {| fiIsDir := false; fiModTime := Some (mtime x) |}
     | None => match objReadDir f p with
               | Ok _ => Ok {| fiIsDir := true; fiModTime := None |}
               | Err e => Err e
               end
     end).

Definition with_files (f : ObjectStore) (fs : gmap string File) : ObjectStore :=
  {| files := fs; faulty := faulty f; now := now f |}.

Definition objWrite (f : ObjectStore) (p c : string) : result string ObjectStore :=
  readable f p (Ok (with_files f (<[ p := {| content := c; mtime := now f |} ]> (files f)))).

Definition objRemove (f : ObjectStore) (p : string) : result string ObjectStore :=
  readable f p
    (match files f !! p with
     | Some _ => Ok (with_files f (delete p (files f)))
     | None => Err notFound
     end).

Definition max_segments (l : list string) : nat := foldr (fun p n => Nat.max (segments p) n) O l.

#[export] Instance ObjectStore_fs : RawFS ObjectStore := {
  Stat := objStat; ReadDir := objReadDir; Open := objOpen; writable := fun _ => true;
  Write := objWrite; Remove := objRemove;
  contents f := (fun kv => content kv.2) <$> map_to_list (files f);
  depth f := max_segments (map_to_list (files f)).*1;
}.

(** ** The object store keeps the contract *)

Lemma readable_Ok {A} f p (r : result string A) x : readable f p r = Ok x ->
  p ∉ faulty f /\ r = Ok x.
Proof. unfold readable. by case_bool_decide. Qed.

Lemma max_segments_elem l p : p ∈ l -> (segments p <= max_segments l)%nat.
Proof.
  induction 1 as [p l|p q l _ IH]; cbn [max_segments foldr]; [lia|].
  fold (max_segments l). lia.
Qed.

Lemma child_path p key e : child p key = Some e ->
  exists rest, key = (if String.eqb p "" then "" else p +:+ "/") +:+ rest /\
    ((IsDir e = false /\ Name e = rest /\ no_byte "/" rest = true) \/
     (exists tail, IsDir e = true /\ rest = Name e +:+ "/" +:+ tail /\
        no_byte "/" (Name e) = true)).
Proof.
  unfold child. destruct (HasPrefix key _) eqn:E; [|done].
  apply HasPrefix_spec in E as [rest ->]. rewrite TrimPrefix_app.
  destruct (IndexByte rest "/") as [i|] eqn:Ei; intros [= <-]; exists rest; (split; [done|]).
  - right. destruct (IndexByte_Some _ _ _ Ei) as [Hs Hn]. exists (str_drop (i + 1) rest).
    cbn [IsDir Name]. done.
  - left. cbn [IsDir Name]. split_and!; [done|done|]. by apply IndexByte_None.
Qed.

Lemma segments_app a b : segments (a +:+ "/" +:+ b) = (segments a + segments b)%nat.
Proof.
  unfold segments. change ("/" +:+ b) with (String "/" b). by rewrite Split_app, length_app.
Qed.

Lemma segments_pos p : (1 <= segments p)%nat.
Proof.
  unfold segments. pose proof (Split_nonempty p "/"). destruct (Split p "/"); [done|cbn; lia].
Qed.

(** A child of a directory of a clean key has a plain name. *)
Lemma child_good p key e : good_path key -> child p key = Some e ->
  good_seg (Name e) /\ (segments p <= segments key)%nat.
Proof.
  intros Hk Hc. apply child_path in Hc as (rest & -> & Hr).
  assert (Hg : good_path rest /\
    (segments p <= segments ((if String.eqb p "" then "" else p +:+ "/") +:+ rest))%nat).
  { destruct (String.eqb_spec p "") as [->|_].
    - split; [done|]. pose proof (segments_pos rest). done.
    - rewrite str_app_assoc in Hk |- *. rewrite segments_app. split; [|lia].
      unfold good_path in *. change ("/" +:+ rest) with (String "/" rest) in Hk.
      rewrite Split_app in Hk. by apply Forall_app in Hk as [_ ?]. }
  destruct Hg as [Hg Hs]. split; [|done].
  destruct Hr as [(_ & -> & Hn)|(tail & _ & -> & Hn)]; unfold good_path in Hg.
  - rewrite Split_single in Hg by done. by inversion Hg.
  - change ("/" +:+ tail) with (String "/" tail) in Hg. rewrite Split_app in Hg.
    rewrite (Split_single (Name e)) in Hg by done. by inversion Hg.
Qed.

Lemma objReadDir_entry f p es e : objReadDir f p = Ok es -> e ∈ es ->
  exists key, good_path key /\ is_Some (files f !! key) /\ child p key = Some e.
Proof.
  unfold objReadDir. intros [_ H]%readable_Ok. case_bool_decide; [done|].
  injection H as <-. intros He. rewrite SliceStable_perm, nub_elem in He.
  apply list_elem_of_omap in He as ([key x] & Hk%elem_of_map_to_list & He). cbn in He.
  case_bool_decide; [|done]. eauto.
Qed.

Lemma objReadDir_inhabited f p es : objReadDir f p = Ok es -> exists e, e ∈ es.
Proof.
  unfold objReadDir. intros [_ H]%readable_Ok.
  destruct (omap _ _) as [|e l]; [by rewrite bool_decide_true in H|].
  rewrite bool_decide_false in H by done.
  assert (E : SliceStable entry_less (nub (e :: l)) = es) by congruence.
  exists e. rewrite <-E, SliceStable_perm, nub_elem. apply list_elem_of_here.
Qed.

(** A file of a directory is among its children. *)
Lemma objReadDir_found f p x y : good_path p -> good_seg x ->
  files f !! (p +:+ "/" +:+ x) = Some y ->
  {| Name := x; IsDir := false |} ∈ omap (fun kv =>
    if bool_decide (good_path kv.1) then child p kv.1 else None) (map_to_list (files f)).
Proof.
  intros Hp Hx E. apply list_elem_of_omap. exists (p +:+ "/" +:+ x, y).
  rewrite elem_of_map_to_list. split; [done|].
  cbn [fst]. rewrite bool_decide_true by (apply good_path_app; eauto with kutu).
  unfold child. cbv zeta. rewrite (proj2 (String.eqb_neq p "") (good_path_nonempty p Hp)).
  rewrite <-str_app_assoc, HasPrefix_app, TrimPrefix_app, IndexByte_none by apply Hx. done.
Qed.

Lemma objReadDir_listed f p x es c : good_path p -> good_seg x ->
  objOpen f (p +:+ "/" +:+ x) = Ok c -> objReadDir f p = Ok es ->
  {| Name := x; IsDir := false |} ∈ es.
Proof.
  intros Hp Hx [_ Ho]%readable_Ok [_ H]%readable_Ok.
  destruct (files f !! (p +:+ "/" +:+ x)) as [y|] eqn:E; [|done].
  pose proof (objReadDir_found f p x y Hp Hx E) as Hin.
  cbv zeta in H. destruct (omap _ _) as [|e l] eqn:El; [by apply elem_of_nil in Hin|].
  rewrite bool_decide_false in H by done.
  assert (Es : SliceStable entry_less (nub (e :: l)) = es) by congruence.
  by rewrite <-Es, SliceStable_perm, nub_elem.
Qed.

#[export] Program Instance ObjectStore_laws : RawFSLaws ObjectStore := {
  healthy f := faulty f = ∅;
}.
Next Obligation.
  intros f p es e H He. destruct (objReadDir_entry f p es e H He) as (key & Hg & _ & Hc).
  by destruct (child_good p key e Hg Hc).
Qed.
Next Obligation.
  cbn. intros f p. destruct (objReadDir f p) as [es|] eqn:E; [|done]. intros _.
  destruct (objReadDir_inhabited f p es E) as [e He].
  destruct (objReadDir_entry f p es e E He) as (key & Hg & [x Hx] & Hc).
  destruct (child_good p key e Hg Hc) as [_ Hs].
  etrans; [exact Hs|]. apply max_segments_elem, list_elem_of_fmap.
  exists (key, x). by rewrite elem_of_map_to_list.
Qed.
Next Obligation.
  intros f p x es Hp Hx Ho H. cbn in Ho. destruct (objOpen f _) as [c|] eqn:E; [|done].
  by eapply objReadDir_listed.
Qed.
Next Obligation.
  cbn. unfold objOpen. intros f p c [_ H]%readable_Ok.
  destruct (files f !! p) as [x|] eqn:E; [|done]. injection H as <-.
  apply list_elem_of_fmap. exists (p, x). by rewrite elem_of_map_to_list.
Qed.
Next Obligation.
  cbn. unfold objRemove, objOpen. intros f p f' [Hf H]%readable_Ok.
  destruct (files f !! p); [|done]. injection H as <-. unfold readable. cbn.
  by rewrite bool_decide_false, lookup_delete_eq.
Qed.
Next Obligation.
  cbn. unfold objRemove, objOpen. intros f p f' q [Hf H]%readable_Ok Hne.
  destruct (files f !! p); [|done]. injection H as <-. unfold readable. cbn.
  by rewrite lookup_delete_ne.
Qed.
Next Obligation. done. Qed.
Next Obligation.
  cbn. unfold objWrite, objOpen. intros f p c f' [Hf H]%readable_Ok. injection H as <-.
  unfold readable. cbn. by rewrite bool_decide_false, lookup_insert_eq.
Qed.
Next Obligation.
  cbn. unfold objWrite, objOpen. intros f p c f' q [Hf H]%readable_Ok Hne. injection H as <-.
  unfold readable. cbn. by rewrite lookup_insert_ne.
Qed.
Next Obligation.
  cbn. intros f p x Hh Hp Hx Ho. destruct (objOpen f _) as [c|] eqn:E; [|done].
  unfold objReadDir, readable. rewrite bool_decide_false by (rewrite Hh; set_solver).
  cbv zeta. case_bool_decide as Hnil; [|done]. exfalso.
  unfold objOpen in E. apply readable_Ok in E as [_ E].
  destruct (files f !! _) as [y|] eqn:Ey; [|done].
  by apply (objReadDir_found f p x y Hp Hx) in Ey; rewrite Hnil in Ey; apply elem_of_nil in Ey.
Qed.
Next Obligation.
  cbn. unfold objWrite. intros f p c f' Hh [_ H]%readable_Ok. by injection H as <-.
Qed.
Next Obligation.
  cbn. unfold objRemove. intros f p f' Hh [_ H]%readable_Ok.
  destruct (files f !! p); [|done]. by injection H as <-.
Qed.
