(* ===== verification/Backend.v ===== *)
(** * internal/rawfs/rawfs.go: what the file servers see of a mount

    [Backend] is RawFS with its optional interfaces (WritableRawFS and
    CopyableRawFS); a reader is the bytes it delivers and the error that ends
    it, and a failed operation still has a new state.  [BackendLaws] is what the
    clients rely on, stated of regular files at clean paths ([file_at]).
    LocalFS.v implements it from internal/rawfs/localfs. *)

From Stdlib Require Import ZArith Lia.
From stdpp Require Import base list strings.
From S2P Require Import Prelude GoStrings GoPath.

Local Open Scope Z_scope.

(** What the clients tell apart: os.ErrNotExist, service.ErrNotFound, and the
    text of the others. *)
Inductive FSError := NotExist | NotFound | Failed (msg : string).

Record FileInfo := { Name : string; Size : Z; IsDir : bool; ModTime : Z }.

Record DirEntry := { eName : string; eIsDir : bool; eSize : Z }.

(** A reader: its bytes, and the error it ends with instead of EOF. *)
Record Reader := { rData : string; rErr : option string }.

Definition reader (s : string) : Reader := {| rData := s; rErr := None |}.

Class Backend (F : Type) := {
  Stat : F -> string -> result FSError FileInfo;
  ReadDir : F -> string -> result FSError (list DirEntry);
  Open : F -> string -> result FSError (Reader * FileInfo);
  IsWritable : F -> bool;
  Write : F -> string -> Reader -> Z -> option FSError * F;
  Delete : F -> string -> option FSError * F;
  MkDir : F -> string -> option FSError * F;
  IsCopyable : F -> bool;
  Copy : F -> string -> string -> option FSError * F;
}.

Section backend.
Context {F : Type} `{Backend F}.

(** The regular file at a path. *)
Definition file_at (f : F) (p : string) : option string :=
  match Open f p with
  | Ok (r, fi) => if IsDir fi then None else if rErr r is Some _ then None else Some (rData r)
  | Err _ => None
  end.

Definition exists_at (f : F) (p : string) : bool := is_ok (Stat f p).

End backend.

(** A write, a directory or a copy changes at most the file it names, and
    succeeds only when its reader ends well; a deletion that succeeds leaves
    nothing.  Overwriting what exists brings no other path into existence. *)
Class BackendLaws (F : Type) `{Backend F} := {
  wf : F -> Prop;
  Write_wf f p r n : wf f -> wf (Write f p r n).2;
  Delete_wf f p : wf f -> wf (Delete f p).2;
  MkDir_wf f p : wf f -> wf (MkDir f p).2;
  Copy_wf f p q : wf f -> wf (Copy f p q).2;
  Write_other f p r n q : wf f -> good_path p -> good_path q -> q <> p ->
    file_at (Write f p r n).2 q = file_at f q;
  Delete_other f p q : wf f -> good_path p -> good_path q -> q <> p ->
    file_at (Delete f p).2 q = file_at f q;
  MkDir_other f p q : wf f -> good_path p -> good_path q -> file_at (MkDir f p).2 q = file_at f q;
  Copy_other f p p' q : wf f -> good_path p -> good_path p' -> good_path q -> q <> p' ->
    file_at (Copy f p p').2 q = file_at f q;
  Write_file f p r n f' : wf f -> good_path p -> Write f p r n = (None, f') ->
    rErr r = None /\ file_at f' p = Some (rData r);
  Write_stat f p r n f' : wf f -> good_path p -> Write f p r n = (None, f') ->
    exists fi, Stat f' p = Ok fi /\ IsDir fi = false /\ Size fi = Z.of_nat (len (rData r));
  Write_keeps f p r n q : wf f -> good_path p -> good_path q -> exists_at f p = true ->
    exists_at (Write f p r n).2 q = exists_at f q;
  Delete_gone f p f' : wf f -> good_path p -> Delete f p = (None, f') -> exists_at f' p = false;
  Write_writable f p r n : IsWritable (Write f p r n).2 = IsWritable f;
  Delete_writable f p : IsWritable (Delete f p).2 = IsWritable f;
  MkDir_writable f p : IsWritable (MkDir f p).2 = IsWritable f;
  Copy_writable f p q : IsWritable (Copy f p q).2 = IsWritable f;
}.

(** [GenericCopy] between two mounts. *)
Definition GenericCopy {F} `{Backend F} (srcFS : F) (srcPath : string) (dstFS : F) (dstPath : string)
    : option FSError * F :=
  match Open srcFS srcPath with
  | Err e => (Some e, dstFS)
  | Ok (r, fi) => Write dstFS dstPath r (Size fi)
  end.
