(* ===== verification/LocalFS.v ===== *)
(** * internal/rawfs/localfs/localfs.go: a mount over a local directory

    [OS] is the part of package os the mount uses: a tree of regular files and
    directories by their absolute path, a list of segments; the root directory
    always exists.  It has no symbolic links, which the code would follow.  The
    system's calls fail for the shape of the tree only, permissions and disk errors
    of directories are left out; a write that the disk breaks off is one whose
    reader fails after the bytes that arrived, since io.Copy leaves the same file
    and the same answer.  Every operation first resolves
    its path with [safePath].  The theorems: a path never leaves the root; the
    operations keep the tree well-formed and change nothing outside the root;
    the mount keeps the contract of Backend.v; copying a file onto itself
    empties it. *)

From Stdlib Require Import ZArith Lia Ascii.
From stdpp Require Import base list strings gmap sorting.
From S2P Require Import Prelude GoStrings GoPath Backend.

Local Open Scope Z_scope.

(** ** The operating system's files *)

Inductive Node := RegularFile (data : string) (mtime : Z) | Directory (mtime : Z).

Inductive Errno := ENOENT | ENOTDIR | EISDIR | ENOTEMPTY | EEXIST | EINVAL | EBUSY.

(** [dirSize]: what the system reports as the size of a directory. *)
Record OS := { nodes : gmap (list string) Node; clock : Z; dirSize : Z }.

Definition with_nodes (os : OS) (m : gmap (list string) Node) : OS :=
  {| nodes := m; clock := clock os; dirSize := dirSize os |}.

Definition node_at (os : OS) (p : list string) : option Node :=
  if bool_decide (p = []) then Some (Directory 0) else nodes os !! p.

Definition put (os : OS) (p : list string) (n : Node) : OS := with_nodes os (<[ p := n ]> (nodes os)).

(** The system's walk to a path, from the directory [done]. *)
Fixpoint walk (os : OS) (done rest : list string) : result Errno Node :=
  match node_at os done with
  | None => Err ENOENT
  | Some n =>
      match rest with
      | [] => Ok n
      | s :: rest => match n with
                     | Directory _ => walk os (done ++ [s]) rest
                     | RegularFile _ _ => Err ENOTDIR
                     end
      end
  end.

Definition find (os : OS) (p : list string) : result Errno Node := walk os [] p.

Definition parent (p : list string) : list string := removelast p.

(** [os.MkdirAll] *)
Fixpoint mkdirs (os : OS) (done rest : list string) : result Errno OS :=
  match node_at os done with
  | Some (RegularFile _ _) => Err ENOTDIR
  | n =>
      let os := if n is None then put os done (Directory (clock os)) else os in
      match rest with
      | [] => Ok os
      | s :: rest => mkdirs os (done ++ [s]) rest
      end
  end.

Definition MkdirAll (os : OS) (p : list string) : result Errno OS := mkdirs os [] p.

(** [os.Create]: open for writing, create or truncate. *)
Definition Create (os : OS) (p : list string) : result Errno OS :=
  match find os (parent p) with
  | Err e => Err e
  | Ok (RegularFile _ _) => Err ENOTDIR
  | Ok (Directory _) =>
      match node_at os p with
      | Some (Directory _) => Err EISDIR
      | _ => Ok (put os p (RegularFile "" (clock os)))
      end
  end.

(** The bytes written to the file a path was opened as. *)
Definition write_data (os : OS) (p : list string) (s : string) : OS :=
  put os p (RegularFile s (clock os)).

Definition below (p q : list string) : bool :=
  bool_decide (p `prefix_of` q) && (length p <? length q)%nat.

Definition children (os : OS) (p : list string) : list (string * Node) :=
  omap (fun kv : list string * Node =>
          if below p kv.1 && (length kv.1 =? S (length p))%nat
          then (fun s => (s, kv.2)) <$> last kv.1 else None)
       (map_to_list (nodes os)).

(** [os.Remove]: a file or an empty directory. *)
Definition Remove (os : OS) (p : list string) : result Errno OS :=
  match find os p with
  | Err e => Err e
  | Ok (RegularFile _ _) => Ok (with_nodes os (delete p (nodes os)))
  | Ok (Directory _) =>
      if bool_decide (p = []) then Err EBUSY
      else if bool_decide (children os p = []) then Ok (with_nodes os (delete p (nodes os)))
      else Err ENOTEMPTY
  end.

(** A path of the tree at [old], moved to [new]. *)
Definition move (old new p : list string) : list string :=
  if bool_decide (old `prefix_of` p) then new ++ drop (length old) p else p.

(** [os.Rename]: Go refuses an existing directory as the target; a file is
    replaced. *)
Definition Rename (os : OS) (old new : list string) : result Errno OS :=
  match find os new with
  | Ok (Directory _) => if find os old is Ok _ then Err EEXIST else Err ENOENT
  | target =>
      match find os old with
      | Err e => Err e
      | Ok n =>
          match find os (parent new) with
          | Err e => Err e
          | Ok (RegularFile _ _) => Err ENOTDIR
          | Ok (Directory _) =>
              match n, target with
              | Directory _, Ok _ => Err ENOTDIR
              | _, _ =>
                  if bool_decide (old = new) then Ok os
                  else if below old new then Err EINVAL
                  else Ok (with_nodes os (list_to_map
                         (prod_map (move old new) id <$> map_to_list (delete new (nodes os)))))
              end
          end
      end
  end.

(** ** The mount *)

Record FS := { root : string; os : OS }.

Definition with_os (f : FS) (o : OS) : FS := {| root := root f; os := o |}.

(** [New]: the root is an absolute path ([filepath.Abs] cleans it) of an
    existing directory. *)
Definition New (absRoot : string) (o : OS) : result string FS :=
  match find o (resolve absRoot) with
  | Err _ => Err "stat local mount root"
  | Ok (RegularFile _ _) => Err "local mount root is not a directory"
  | Ok (Directory _) => Ok {| root := Clean absRoot; os := o |}
  end.

Definition safePath (f : FS) (relPath : string) : result FSError string :=
  let cleaned := TrimPrefix (Clean ("/" +:+ relPath)) "/" in
  if existsb (fun part => String.eqb part "..") (Split cleaned "/")
  then Err (Failed "path traversal not allowed")
  else
    let full := PathJoin [root f; cleaned] in
    let absFull := Clean full in
    if negb (HasPrefix absFull (root f +:+ "/")) && negb (String.eqb absFull (root f))
    then Err (Failed "path escapes mount root")
    else Ok absFull.

Definition osError (e : Errno) : FSError :=
  match e with
  | ENOENT => NotExist
  | ENOTDIR => Failed "not a directory"
  | EISDIR => Failed "is a directory"
  | ENOTEMPTY => Failed "directory not empty"
  | EEXIST => Failed "file exists"
  | EINVAL => Failed "invalid argument"
  | EBUSY => Failed "device or resource busy"
  end.

(** An operation on the resolved path. *)
Definition at_path {A} (f : FS) (relPath : string) (k : list string -> result FSError A)
    : result FSError A :=
  match safePath f relPath with Err e => Err e | Ok p => k (resolve p) end.

Definition node_info (o : OS) (p : list string) (n : Node) : FileInfo :=
  {| Name := default "/" (last p);
     Size := match n with RegularFile s _ => Z.of_nat (len s) | Directory _ => dirSize o end;
     IsDir := match n with RegularFile _ _ => false | Directory _ => true end;
     ModTime := match n with RegularFile _ t => t | Directory t => t end |}.

Definition localStat (f : FS) (path : string) : result FSError FileInfo :=
  at_path f path (fun p =>
    match find (os f) p with Err e => Err (osError e) | Ok n => Ok (node_info (os f) p n) end).

Definition entry_of (o : OS) (kv : string * Node) : DirEntry :=
  let fi := node_info o [kv.1] kv.2 in
  {| eName := kv.1; eIsDir := IsDir fi; eSize := Size fi |}.

(** [os.ReadDir] sorts the entries by name. *)
Definition localReadDir (f : FS) (path : string) : result FSError (list DirEntry) :=
  at_path f path (fun p =>
    match find (os f) p with
    | Err e => Err (osError e)
    | Ok (RegularFile _ _) => Err (osError ENOTDIR)
    | Ok (Directory _) =>
        Ok (SliceStable (fun a b => str_ltb (eName a) (eName b))
              (entry_of (os f) <$> children (os f) p))
    end).

(** A directory can be opened; reading it fails. *)
Definition localOpen (f : FS) (path : string) : result FSError (Reader * FileInfo) :=
  at_path f path (fun p =>
    match find (os f) p with
    | Err e => Err (osError e)
    | Ok n => Ok (match n with
                  | RegularFile s _ => reader s
                  | Directory _ => {| rData := ""; rErr := Some "is a directory" |}
                  end, node_info (os f) p n)
    end).

(** An operation that changes the tree. *)
Definition update (f : FS) (relPath : string) (k : list string -> option FSError * OS)
    : option FSError * FS :=
  match safePath f relPath with
  | Err e => (Some e, f)
  | Ok p => let '(err, o) := k (resolve p) in (err, with_os f o)
  end.

Definition os_step (o : OS) (r : result Errno OS) : option FSError * OS :=
  match r with Ok o' => (None, o') | Err e => (Some (osError e), o) end.

Definition localWrite (f : FS) (path : string) (r : Reader) (size : Z) : option FSError * FS :=
  update f path (fun p =>
    match MkdirAll (os f) (parent p) with
    | Err e => (Some (osError e), os f)
    | Ok o =>
        match Create o p with
        | Err e => (Some (osError e), o)
        | Ok o => (Failed <$> rErr r, write_data o p (rData r))
        end
    end).

Definition localDelete (f : FS) (path : string) : option FSError * FS :=
  update f path (fun p => os_step (os f) (Remove (os f) p)).

Definition localMkDir (f : FS) (path : string) : option FSError * FS :=
  update f path (fun p => os_step (os f) (MkdirAll (os f) p)).

Definition localRename (f : FS) (oldPath newPath : string) : option FSError * FS :=
  match safePath f oldPath with
  | Err e => (Some e, f)
  | Ok old =>
      update f newPath (fun new =>
        match MkdirAll (os f) (parent new) with
        | Err e => (Some (osError e), os f)
        | Ok o => os_step o (Rename o (resolve old) new)
        end)
  end.

(** The source is open when the destination is truncated: what is copied is
    what the source holds then. *)
Definition localCopy (f : FS) (srcPath dstPath : string) : option FSError * FS :=
  match safePath f srcPath with
  | Err e => (Some e, f)
  | Ok src =>
      update f dstPath (fun dst =>
        match MkdirAll (os f) (parent dst) with
        | Err e => (Some (osError e), os f)
        | Ok o =>
            match find o (resolve src) with
            | Err e => (Some (osError e), o)
            | Ok n =>
                match Create o dst with
                | Err e => (Some (osError e), o)
                | Ok o =>
                    match n, node_at o (resolve src) with
                    | RegularFile _ _, Some (RegularFile s _) => (None, write_data o dst s)
                    | _, _ => (Some (osError EISDIR), o)
                    end
                end
            end
        end)
  end.

#[export] Instance LocalFS_backend : Backend FS := {
  Stat := localStat; ReadDir := localReadDir; Open := localOpen;
  IsWritable := fun _ => true;
  Write := localWrite; Delete := localDelete; MkDir := localMkDir;
  IsCopyable := fun _ => true;
  Copy := localCopy;
}.

(** ** A well-formed tree: every node's parent is a directory *)

Definition is_dir (o : OS) (p : list string) : Prop := exists t, node_at o p = Some (Directory t).

Definition os_wf (o : OS) : Prop := forall p n, nodes o !! p = Some n -> p <> [] /\ is_dir o (parent p).

Lemma parent_snoc p s : parent (p ++ [s]) = p.
Proof. apply removelast_last. Qed.

Lemma node_at_ne o p : p <> [] -> node_at o p = nodes o !! p.
Proof. intros H. unfold node_at. by rewrite bool_decide_false. Qed.

Lemma is_dir_root o : is_dir o [].
Proof. by exists 0. Qed.

Lemma is_dir_parent o p n : os_wf o -> node_at o p = Some n -> is_dir o (parent p).
Proof.
  intros Hw Hn. destruct (decide (p = [])) as [->|Hp]; [apply is_dir_root|].
  rewrite node_at_ne in Hn by done. by apply Hw in Hn as [_ ?].
Qed.

(** Everything above a node is a directory. *)
Lemma above_dir o p q n : os_wf o -> q <> [] -> node_at o (p ++ q) = Some n -> is_dir o p.
Proof.
  intros Hw. revert n. induction q as [|s q IH] using rev_ind; intros n Hq Hn; [done|].
  rewrite app_assoc in Hn. apply (is_dir_parent o _ n Hw) in Hn. rewrite parent_snoc in Hn.
  destruct (decide (q = [])) as [->|Hne]; [by rewrite app_nil_r in Hn|].
  destruct Hn as [t Ht]. by apply (IH (Directory t)).
Qed.

Lemma walk_sound o rest : forall done n, walk o done rest = Ok n -> node_at o (done ++ rest) = Some n.
Proof.
  induction rest as [|s rest IH]; intros done n H; cbn [walk] in H.
  - rewrite app_nil_r. by destruct (node_at o done); simplify_eq.
  - destruct (node_at o done) as [[]|]; [done| |done]. apply IH in H. by rewrite <-app_assoc in H.
Qed.

Lemma walk_complete o rest : os_wf o -> forall done n, node_at o (done ++ rest) = Some n ->
  walk o done rest = Ok n.
Proof.
  intros Hw. induction rest as [|s rest IH]; intros done n H; cbn [walk].
  - rewrite app_nil_r in H. by rewrite H.
  - destruct (above_dir o done (s :: rest) n) as [t ->]; [done|done|done|].
    apply IH. by rewrite <-app_assoc.
Qed.

Lemma find_spec o p n : os_wf o -> find o p = Ok n <-> node_at o p = Some n.
Proof.
  intros Hw. unfold find. split; [intros H%walk_sound; exact H|]. intros H. by apply walk_complete.
Qed.

Lemma find_None o p e : os_wf o -> find o p = Err e -> node_at o p = None.
Proof.
  intros Hw H. destruct (node_at o p) as [n|] eqn:E; [|done]. apply find_spec in E; [|done]. congruence.
Qed.

(** ** What an operation on a path changes *)

(** Only [p] itself, and missing directories above it are created. *)
Definition changes (o o' : OS) (p : list string) : Prop :=
  forall q, q <> p -> node_at o' q = node_at o q \/
    (node_at o q = None /\ is_dir o' q /\ q `prefix_of` p).

Lemma changes_refl o p : changes o o p.
Proof. by left. Qed.

Lemma changes_trans o1 o2 o3 p : changes o1 o2 p -> changes o2 o3 p -> changes o1 o3 p.
Proof.
  intros H1 H2 q Hq. destruct (H1 q Hq) as [E1|(N1 & [t D1] & P1)], (H2 q Hq) as [E2|(N2 & D2 & P2)].
  - left. congruence.
  - right. split_and!; [congruence|done|done].
  - right. split_and!; [done| |done]. exists t. congruence.
  - congruence.
Qed.

Lemma node_at_put o p n q : p <> [] -> node_at (put o p n) q = if decide (q = p) then Some n else node_at o q.
Proof.
  intros Hp. case_decide as E; [subst q|]; unfold node_at, put, with_nodes; cbn [nodes].
  - rewrite bool_decide_false by done. by rewrite lookup_insert_eq.
  - case_bool_decide; [done|]. by rewrite lookup_insert_ne.
Qed.

Lemma node_at_delete o p q : p <> [] ->
  node_at (with_nodes o (delete p (nodes o))) q = if decide (q = p) then None else node_at o q.
Proof.
  intros Hp. case_decide as E; [subst q|]; unfold node_at, with_nodes; cbn [nodes].
  - rewrite bool_decide_false by done. by rewrite lookup_delete_eq.
  - case_bool_decide; [done|]. by rewrite lookup_delete_ne.
Qed.

Lemma changes_put o p n : p <> [] -> changes o (put o p n) p.
Proof. intros Hp q Hq. left. rewrite node_at_put by done. by rewrite decide_False. Qed.

Lemma parent_ne p : p <> [] -> parent p <> p.
Proof.
  intros Hp E. apply (f_equal length) in E. unfold parent in E.
  destruct p as [|s p] using rev_ind; [done|]. rewrite removelast_last, length_app in E. cbn in E. lia.
Qed.

(** Putting a node where a directory is above it, and no directory is replaced
    by a file. *)
Lemma put_wf o p n : os_wf o -> p <> [] -> is_dir o (parent p) ->
  (is_dir o p -> exists t, n = Directory t) -> os_wf (put o p n).
Proof.
  intros Hw Hp Hd Hn q m Hq.
  assert (Hdir : forall r, is_dir o r -> is_dir (put o p n) r).
  { intros r [t Ht]. unfold is_dir. rewrite node_at_put by done. case_decide as E; [|by exists t].
    subst r. destruct Hn as [t' ->]; [by exists t|]. by exists t'. }
  destruct (decide (q = p)) as [->|Hne]; [by split; [|apply Hdir]|].
  cbn [put with_nodes nodes] in Hq. rewrite lookup_insert_ne in Hq by done.
  apply Hw in Hq as [? Hq]. split; [done|by apply Hdir].
Qed.

Lemma child_of o p s n : nodes o !! (p ++ [s]) = Some n -> (s, n) ∈ children o p.
Proof.
  intros H. unfold children. apply list_elem_of_omap. exists (p ++ [s], n).
  rewrite elem_of_map_to_list. split; [done|]. cbn [fst snd]. unfold below.
  rewrite length_app. cbn [length]. rewrite bool_decide_true by (by apply prefix_app_r).
  replace (length p <? length p + 1)%nat with true by (symmetry; apply Nat.ltb_lt; lia).
  replace (length p + 1 =? S (length p))%nat with true by (symmetry; apply Nat.eqb_eq; lia).
  cbn [andb]. by rewrite last_snoc.
Qed.

Lemma delete_wf o p : os_wf o -> p <> [] -> (is_dir o p -> children o p = []) ->
  os_wf (with_nodes o (delete p (nodes o))).
Proof.
  intros Hw Hp Hc q n Hq. cbn [with_nodes nodes] in Hq.
  apply lookup_delete_Some in Hq as [Hne Hq]. pose proof (Hw q n Hq) as [Hq0 Hd].
  split; [done|]. destruct Hd as [t Ht]. exists t. rewrite node_at_delete by done.
  case_decide as E; [|done]. exfalso. rewrite <-E in Hc.
  destruct q as [|s q _] using rev_ind; [done|]. rewrite parent_snoc in *.
  specialize (Hc (ex_intro _ t Ht)). apply child_of in Hq. rewrite Hc in Hq. by apply elem_of_nil in Hq.
Qed.

Lemma parent_app p q : q <> [] -> parent (p ++ q) = p ++ parent q.
Proof. intros H. unfold parent. by apply removelast_app. Qed.

Lemma parent_prefix p : parent p `prefix_of` p.
Proof.
  destruct p as [|s p] using rev_ind; [done|]. rewrite parent_snoc. by apply prefix_app_r.
Qed.

(** ** The operations of the system *)

Lemma mkdirs_spec rest : forall o done o', os_wf o -> (done = [] \/ is_dir o (parent done)) ->
  mkdirs o done rest = Ok o' ->
  os_wf o' /\ is_dir o' (done ++ rest) /\
  forall q, node_at o' q = node_at o q \/
    (node_at o q = None /\ is_dir o' q /\ q `prefix_of` (done ++ rest)).
Proof.
  induction rest as [|s rest IH]; intros o done o' Hw Hd H; cbn [mkdirs] in H.
  - rewrite app_nil_r. destruct (node_at o done) as [[]|] eqn:E; [done| |];
      cbn [bool_decide decide is_Some_None] in H.
    + assert (o = o') as <- by (simpl in H; congruence). split_and!; [done|by eexists|by left].
    + assert (put o done (Directory (clock o)) = o') as <- by (simpl in H; congruence).
      assert (done <> []) by (intros ->; done). destruct Hd as [|Hd]; [done|]. split_and!.
      * apply put_wf; [done|done|done|]. intros _. by eexists.
      * exists (clock o). rewrite node_at_put by done. by rewrite decide_True.
      * intros q. rewrite node_at_put by done. case_decide as Eq; [subst q|by left].
        right. split_and!; [done| |done]. exists (clock o). rewrite node_at_put by done.
        by rewrite decide_True.
  - assert (Ha : done ++ s :: rest = (done ++ [s]) ++ rest) by (by rewrite <-app_assoc).
    destruct (node_at o done) as [[]|] eqn:E; [done| |]; simpl in H.
    + destruct (IH o (done ++ [s]) o' Hw) as (H1 & H2 & H3); [|done|rewrite Ha; done].
      right. rewrite parent_snoc. by eexists.
    + assert (done <> []) by (intros ->; done). destruct Hd as [|Hd]; [done|].
      set (o1 := put o done (Directory (clock o))) in *.
      assert (Hdone : is_dir o1 done).
      { exists (clock o). unfold o1. rewrite node_at_put by done. by rewrite decide_True. }
      destruct (IH o1 (done ++ [s]) o') as (H1 & H2 & H3); [|right; by rewrite parent_snoc|done|].
      { apply put_wf; [done|done|done|]. intros _. by eexists. }
      rewrite Ha. split_and!; [done|done|]. intros q.
      destruct (H3 q) as [Eq|(N & D & P)]; unfold o1 in *; rewrite node_at_put in * by done.
      * case_decide as Ed; [subst q|by left]. right. split_and!; [done|by eexists|].
        rewrite <-Ha. by apply prefix_app_r.
      * case_decide; [done|]. by right.
Qed.

Lemma MkdirAll_spec o p o' : os_wf o -> MkdirAll o p = Ok o' ->
  os_wf o' /\ is_dir o' p /\ forall q, node_at o' q = node_at o q \/
    (node_at o q = None /\ is_dir o' q /\ q `prefix_of` p).
Proof. intros Hw H. apply (mkdirs_spec p o [] o'); [done|by left|done]. Qed.

Lemma MkdirAll_parent o p o' : os_wf o -> MkdirAll o (parent p) = Ok o' ->
  os_wf o' /\ is_dir o' (parent p) /\ changes o o' p.
Proof.
  intros Hw H. destruct (MkdirAll_spec o _ o' Hw H) as (H1 & H2 & H3). split_and!; [done|done|].
  intros q _. destruct (H3 q) as [|(N & D & P)]; [by left|]. right. split_and!; [done|done|].
  etrans; [exact P|apply parent_prefix].
Qed.

Lemma Create_spec o p o' : os_wf o -> Create o p = Ok o' ->
  p <> [] /\ is_dir o (parent p) /\ ~ is_dir o p /\ o' = put o p (RegularFile "" (clock o)).
Proof.
  intros Hw H. unfold Create in H. destruct (find o (parent p)) as [[]|] eqn:E; [done| |done].
  apply find_spec in E; [|done]. destruct (decide (p = [])) as [->|Hp]; [done|].
  destruct (node_at o p) as [[]|] eqn:En; [| done |];
    (split_and!; [done|by eexists|intros [t Ht]; congruence|congruence]).
Qed.

Lemma write_file_spec o p s : os_wf o -> p <> [] -> is_dir o (parent p) -> ~ is_dir o p ->
  let o' := write_data (put o p (RegularFile "" (clock o))) p s in
  os_wf o' /\ changes o o' p /\ node_at o' p = Some (RegularFile s (clock o)).
Proof.
  intros Hw Hp Hd Hn o'. subst o'. unfold write_data.
  assert (Hw1 : os_wf (put o p (RegularFile "" (clock o)))) by (by apply put_wf).
  assert (Hf : node_at (put o p (RegularFile "" (clock o))) p = Some (RegularFile "" (clock o)))
    by (rewrite node_at_put by done; by rewrite decide_True).
  split_and!.
  - apply put_wf; [done|done|by eapply is_dir_parent|]. intros [t Ht]. congruence.
  - eapply changes_trans; by apply changes_put.
  - rewrite node_at_put by done. by rewrite decide_True.
Qed.

Lemma Remove_spec o p o' : os_wf o -> Remove o p = Ok o' ->
  os_wf o' /\ changes o o' p /\ node_at o' p = None.
Proof.
  intros Hw H. unfold Remove in H. destruct (find o p) as [n|] eqn:E; [|done].
  apply find_spec in E; [|done].
  assert (Hgo : p <> [] -> (is_dir o p -> children o p = []) ->
    let o1 := with_nodes o (delete p (nodes o)) in
    os_wf o1 /\ changes o o1 p /\ node_at o1 p = None).
  { intros Hp Hc. cbv zeta. split_and!; [by apply delete_wf| |].
    - intros q Hq. left. rewrite node_at_delete by done. by rewrite decide_False.
    - rewrite node_at_delete by done. by rewrite decide_True. }
  destruct n.
  - assert (with_nodes o (delete p (nodes o)) = o') as <- by congruence.
    apply Hgo; [by intros ->|]. intros [t Ht]. congruence.
  - case_bool_decide as Hp; [done|]. case_bool_decide as Hc; [|done].
    assert (with_nodes o (delete p (nodes o)) = o') as <- by congruence. by apply Hgo.
Qed.

Lemma below_spec p q : below p q = true <-> p `prefix_of` q /\ p <> q.
Proof.
  unfold below. rewrite andb_true_iff, bool_decide_eq_true, Nat.ltb_lt. split.
  - intros [H Hl]. split; [done|]. intros ->. lia.
  - intros [[k ->] Hne]. split; [by apply prefix_app_r|]. rewrite length_app.
    destruct k; [by rewrite app_nil_r in Hne|cbn; lia].
Qed.

(** What [Rename] may rely on when it moves a tree. *)
Record movable (o : OS) (old new : list string) : Prop := {
  mv_wf : os_wf o;
  mv_dir : is_dir o (parent new);
  mv_target : ~ is_dir o new;
  mv_above : ~ old `prefix_of` new;
}.

Definition moved (o : OS) (old new : list string) : OS :=
  with_nodes o (list_to_map (prod_map (move old new) id <$> map_to_list (delete new (nodes o)))).

Lemma move_app old new x : move old new (old ++ x) = new ++ x.
Proof. unfold move. rewrite bool_decide_true by (by apply prefix_app_r). by rewrite drop_app_length. Qed.

Lemma move_other old new p : ~ old `prefix_of` p -> move old new p = p.
Proof. intros H. unfold move. by rewrite bool_decide_false. Qed.

Section move.
Variables (o : OS) (old new : list string).
Hypothesis M : movable o old new.

(** Nothing is below the target. *)
Lemma target_clear x n : nodes o !! (new ++ x) = Some n -> x = [].
Proof.
  intros H. destruct (decide (x = [])) as [|Hx]; [done|]. destruct (mv_target _ _ _ M).
  eapply (above_dir o new x n); [apply (mv_wf _ _ _ M)|done|].
  rewrite node_at_ne by (by destruct new, x). done.
Qed.

Lemma move_inj p q m n : delete new (nodes o) !! p = Some m -> delete new (nodes o) !! q = Some n ->
  move old new p = move old new q -> p = q.
Proof.
  intros [Hp Hpm]%lookup_delete_Some [Hq Hqm]%lookup_delete_Some E.
  destruct (decide (old `prefix_of` p)) as [[x ->]|Np], (decide (old `prefix_of` q)) as [[y ->]|Nq];
    rewrite ?move_app, ?(move_other _ _ _ Np), ?(move_other _ _ _ Nq) in E.
  - apply (app_inv_head new) in E. by subst.
  - subst q. apply target_clear in Hqm. subst x. by rewrite app_nil_r in Hq.
  - subst p. apply target_clear in Hpm. subst y. by rewrite app_nil_r in Hp.
  - done.
Qed.

Lemma moved_lookup q m : nodes (moved o old new) !! q = Some m <->
  exists p, p <> new /\ nodes o !! p = Some m /\ q = move old new p.
Proof.
  unfold moved. cbn [with_nodes nodes]. rewrite <-elem_of_list_to_map.
  - rewrite list_elem_of_fmap. split.
    + intros ([p n] & E & [Hne Hp]%elem_of_map_to_list%lookup_delete_Some). cbn in E.
      simplify_eq. by exists p.
    + intros (p & Hne & Hp & ->). exists (p, m). split; [done|].
      apply elem_of_map_to_list. by apply lookup_delete_Some.
  - rewrite <-list_fmap_compose. apply NoDup_fmap_2_strong.
    + intros [p m1] [q' m2] Hp Hq E. apply elem_of_map_to_list in Hp, Hq. cbn in E.
      assert (p = q') as -> by (by eapply move_inj). congruence.
    + apply NoDup_map_to_list.
Qed.

Lemma moved_dir p : is_dir o p -> p <> new -> is_dir (moved o old new) (move old new p) \/ old = [].
Proof.
  intros [t Ht] Hne. destruct (decide (old = [])) as [->|Ho]; [by right|left].
  destruct (decide (p = [])) as [->|Hp].
  - rewrite move_other by (by intros [k Hk]; destruct old). apply is_dir_root.
  - exists t. rewrite node_at_ne in Ht by done. rewrite node_at_ne.
    + apply moved_lookup. by exists p.
    + unfold move. case_bool_decide; [|done].
      destruct new; [|done]. by destruct (mv_target _ _ _ M); apply is_dir_root.
Qed.

Lemma moved_wf : os_wf (moved o old new).
Proof.
  pose proof (mv_wf _ _ _ M) as Hw. intros q m (p & Hne & Hp & ->)%moved_lookup.
  assert (Ho : old <> []) by (intros ->; apply (mv_above _ _ _ M), prefix_nil).
  assert (Hn : new <> []).
  { intros E. apply (mv_target _ _ _ M). rewrite E. apply is_dir_root. }
  pose proof (Hw p m Hp) as [Hp0 Hd].
  destruct (decide (old `prefix_of` p)) as [[x ->]|Np].
  - rewrite move_app. split; [by destruct new|]. destruct (decide (x = [])) as [->|Hx].
    + rewrite app_nil_r. destruct (moved_dir (parent new)) as [H|]; [apply M|by apply parent_ne| |done].
      rewrite move_other in H; [done|]. intros Hpre. apply (mv_above _ _ _ M).
      etrans; [exact Hpre|apply parent_prefix].
    + rewrite parent_app in * by done. destruct (moved_dir (old ++ parent x)) as [H|]; [done| | |done].
      * intros E. apply (mv_target _ _ _ M). by rewrite <-E.
      * by rewrite move_app in H.
  - rewrite move_other by done. split; [done|].
    destruct (moved_dir (parent p)) as [H|]; [done| | |done].
    + intros E. apply (mv_target _ _ _ M). by rewrite <-E.
    + rewrite move_other in H; [done|]. intros Hpre. apply Np. etrans; [exact Hpre|apply parent_prefix].
Qed.

(** Paths that neither name extends are kept. *)
Lemma moved_other q : ~ old `prefix_of` q -> ~ new `prefix_of` q ->
  node_at (moved o old new) q = node_at o q.
Proof.
  intros Nold Nnew. unfold node_at. case_bool_decide; [done|]. apply option_eq. intros m.
  rewrite moved_lookup. split.
  - intros (p & Hne & Hp & Eq). destruct (decide (old `prefix_of` p)) as [[x ->]|Np].
    + rewrite move_app in Eq. subst q. destruct Nnew. by apply prefix_app_r.
    + by rewrite move_other in Eq by done; subst.
  - intros Hq. exists q. split_and!; [|done|by rewrite move_other]. intros ->. by apply Nnew.
Qed.
End move.

Lemma Rename_spec o old new o' : os_wf o -> Rename o old new = Ok o' ->
  os_wf o' /\ forall q, ~ old `prefix_of` q -> ~ new `prefix_of` q -> node_at o' q = node_at o q.
Proof.
  intros Hw H. unfold Rename in H.
  assert (Hgo : forall n, find o old = Ok n -> (forall t, find o new <> Ok (Directory t)) ->
    match find o (parent new) with
    | Err e => Err e
    | Ok (RegularFile _ _) => Err ENOTDIR
    | Ok (Directory _) =>
        match n, find o new with
        | Directory _, Ok _ => Err ENOTDIR
        | _, _ => if bool_decide (old = new) then Ok o
                  else if below old new then Err EINVAL else Ok (moved o old new)
        end
    end = Ok o' -> os_wf o' /\ forall q, ~ old `prefix_of` q -> ~ new `prefix_of` q ->
      node_at o' q = node_at o q).
  { clear H. intros n Ho Ht H. destruct (find o (parent new)) as [[|t]|] eqn:Ed; [done| |done].
    assert (H' : (if bool_decide (old = new) then Ok o else if below old new then Err EINVAL
                  else Ok (moved o old new)) = Ok o') by (by destruct n, (find o new)).
    case_bool_decide as En; [by assert (o = o') as <- by congruence|].
    destruct (below old new) eqn:Eb; [done|].
    assert (moved o old new = o') as <- by congruence.
    assert (M : movable o old new).
    { constructor; [done| | |].
      - exists t. by apply find_spec in Ed.
      - intros [t' Ht']. apply (Ht t'). by apply find_spec.
      - intros Hp. apply not_true_iff_false in Eb. apply Eb, below_spec. done. }
    split; [by apply moved_wf|]. intros q. by apply moved_other. }
  destruct (find o new) as [[|t]|] eqn:Et; [|by destruct (find o old)|];
    (destruct (find o old) as [n|] eqn:Eo; [|done]; by apply (Hgo n eq_refl)).
Qed.

(** ** The mount stays below its root *)

Definition rootSegs (f : FS) : list string := resolve (root f).

(** A mount that [New] made: a clean root other than "/", below directories. *)
Record fs_ok (f : FS) : Prop := {
  ok_root : root f = abs (rootSegs f);
  ok_deep : rootSegs f <> [];
  ok_wf : os_wf (os f);
  ok_above : is_dir (os f) (parent (rootSegs f));
}.

Lemma no_dotdot l : Forall good_seg l -> existsb (fun part => String.eqb part "..") l = false.
Proof.
  intros H. induction H as [|s l (_ & _ & Hs & _) _ IH]; [done|]. cbn.
  by rewrite IH, (proj2 (String.eqb_neq s "..") Hs).
Qed.

(** The path an operation works on: the root, then the segments of the request
    with every ".." resolved below it. *)
Definition target (f : FS) (relPath : string) : list string := rootSegs f ++ resolve relPath.

Lemma TrimPrefix_abs l : TrimPrefix (abs l) "/" = Join l "/".
Proof. apply TrimPrefix_app. Qed.

Lemma abs_below r l : r <> [] -> l <> [] -> HasPrefix (abs (r ++ l)) (abs r +:+ "/") = true.
Proof.
  intros Hr Hl. apply HasPrefix_spec. exists (Join l "/"). unfold abs. rewrite !str_app_assoc.
  f_equal. induction r as [|s r IH]; [done|]. destruct r as [|s' r].
  - destruct l; [done|]. cbn [app]. by rewrite Join_cons.
  - cbn [app]. rewrite !Join_cons, !str_app_assoc. do 2 f_equal. by apply IH.
Qed.

Lemma safePath_eq f relPath : root f = abs (rootSegs f) ->
  safePath f relPath =
    if bool_decide (rootSegs f = [] /\ resolve relPath <> [])
    then Err (Failed "path escapes mount root") else Ok (abs (target f relPath)).
Proof.
  intros Hroot. pose proof (resolve_good (root f)) as Hg. fold (rootSegs f) in Hg.
  pose proof (resolve_good relPath) as Hr. unfold safePath.
  rewrite Clean_rooted by done. change ("/" +:+ relPath) with (String "/" relPath).
  rewrite resolve_slash, TrimPrefix_abs.
  assert (Hs : Forall good_seg (Split (Join (resolve relPath) "/") "/") \/ Join (resolve relPath) "/" = "").
  { destruct (resolve relPath) as [|s l]; [by right|left]. by rewrite Split_Join_good. }
  assert (Hd : (if String.eqb (Join (resolve relPath) "/") "" then []
                else Split (Join (resolve relPath) "/") "/") = resolve relPath).
  { destruct (String.eqb_spec (Join (resolve relPath) "/") "") as [E|E].
    - destruct (resolve relPath) as [|s l]; [done|]. inversion Hr as [|? ? [Hs0 _] _]; subst.
      destruct l; [done|]. rewrite Join_cons in E. by destruct s.
    - apply Split_Join_good; [|done]. by intros E'; rewrite E' in E. }
  assert (Hdots : existsb (fun part => String.eqb part "..") (Split (Join (resolve relPath) "/") "/") = false).
  { destruct Hs as [Hs| ->]; [by apply no_dotdot|done]. }
  rewrite Hdots, Hroot, PathJoin_abs, Hd by done.
  assert (Ht : Forall good_seg (rootSegs f ++ resolve relPath)) by (by apply Forall_app).
  rewrite Clean_abs by done. fold (target f relPath).
  destruct (decide (resolve relPath = [])) as [E|E].
  - rewrite bool_decide_false by naive_solver. unfold target. rewrite E, app_nil_r.
    rewrite String.eqb_refl. by rewrite andb_false_r.
  - destruct (decide (rootSegs f = [])) as [E'|E'].
    + rewrite bool_decide_true by done. unfold target. rewrite E'. cbn [app].
      destruct (resolve relPath) as [|s l]; [done|]. inversion Hr as [|? ? (Hs0 & _ & _ & Hs1) _]; subst.
      destruct s as [|c s]; [done|]. assert (c <> "/"%char).
      { intros ->. cbn in Hs1. done. }
      replace (HasPrefix (abs (String c s :: l)) (abs [] +:+ "/")) with false.
      * replace (String.eqb (abs (String c s :: l)) (abs [])) with false; [done|].
        destruct l; [done|]. unfold abs. by rewrite Join_cons.
      * assert (Hj : exists t, abs (String c s :: l) = String "/" (String c t)).
        { destruct l as [|s' l]; [by exists s|]. unfold abs. rewrite Join_cons. by eexists. }
        destruct Hj as [t ->]. symmetry. apply not_true_iff_false.
        intros [r' Er]%HasPrefix_spec. by injection Er.
    + rewrite bool_decide_false by naive_solver. unfold target. by rewrite abs_below.
Qed.

Lemma safePath_ok f relPath : fs_ok f -> safePath f relPath = Ok (abs (target f relPath)).
Proof. intros [Hr Hd _ _]. rewrite safePath_eq by done. rewrite bool_decide_false by naive_solver. done. Qed.

Lemma target_good f relPath : Forall good_seg (target f relPath).
Proof. apply Forall_app. split; apply resolve_good. Qed.

Lemma resolve_target f relPath : resolve (abs (target f relPath)) = target f relPath.
Proof. apply resolve_abs, target_good. Qed.

Lemma at_path_ok {A} f relPath (k : list string -> result FSError A) : fs_ok f ->
  at_path f relPath k = k (target f relPath).
Proof. intros H. unfold at_path. by rewrite safePath_ok, resolve_target. Qed.

Lemma update_ok f relPath k : fs_ok f ->
  update f relPath k = let '(err, o) := k (target f relPath) in (err, with_os f o).
Proof. intros H. unfold update. by rewrite safePath_ok, resolve_target. Qed.

(** Distinct clean paths name distinct places. *)
Lemma target_inj f p q : good_path p -> good_path q -> target f p = target f q -> p = q.
Proof.
  unfold target. intros Hp Hq E%app_inv_head. rewrite !good_path_resolve in E by done.
  by rewrite <-(Join_Split p "/"), E, Join_Split.
Qed.

(** ** Every operation, on its path *)

Lemma Write_changes f p r n : fs_ok f ->
  let '(err, f') := Write f p r n in
  root f' = root f /\ os_wf (os f') /\ changes (os f) (os f') (target f p) /\
  (err = None -> rErr r = None /\
     node_at (os f') (target f p) = Some (RegularFile (rData r) (clock (os f')))).
Proof.
  intros Hf. pose proof (ok_wf _ Hf) as Hw. cbn [Write LocalFS_backend]. unfold localWrite.
  rewrite update_ok by done.
  destruct (MkdirAll (os f) (parent (target f p))) as [o|] eqn:Em;
    [|split_and!; [done|done|apply changes_refl|done]].
  apply MkdirAll_parent in Em as (Hw1 & Hd & Hc); [|done].
  destruct (Create o (target f p)) as [o2|] eqn:Ec; [|by split_and!].
  apply Create_spec in Ec as (Hp & Hd' & Hnd & ->); [|done].
  destruct (write_file_spec o (target f p) (rData r)) as (Hw2 & Hc2 & Hn); [done|done|done|done|].
  cbn [with_os root os]. split_and!; [done|done|by eapply changes_trans|].
  intros E. split; [by destruct (rErr r)|]. rewrite Hn. done.
Qed.

Lemma Delete_changes f p : fs_ok f ->
  let '(err, f') := Delete f p in
  root f' = root f /\ os_wf (os f') /\ changes (os f) (os f') (target f p) /\
  (err = None -> node_at (os f') (target f p) = None).
Proof.
  intros Hf. pose proof (ok_wf _ Hf) as Hw. cbn [Delete LocalFS_backend]. unfold localDelete.
  rewrite update_ok by done. unfold os_step.
  destruct (Remove (os f) (target f p)) as [o|] eqn:Er;
    [|split_and!; [done|done|apply changes_refl|done]].
  apply Remove_spec in Er as (H1 & H2 & H3); [|done]. by split_and!.
Qed.

Lemma MkDir_changes f p : fs_ok f ->
  let '(err, f') := MkDir f p in
  root f' = root f /\ os_wf (os f') /\ changes (os f) (os f') (target f p) /\
  (forall s t, node_at (os f') (target f p) = Some (RegularFile s t) <->
               node_at (os f) (target f p) = Some (RegularFile s t)).
Proof.
  intros Hf. pose proof (ok_wf _ Hf) as Hw. cbn [MkDir LocalFS_backend]. unfold localMkDir.
  rewrite update_ok by done. unfold os_step.
  destruct (MkdirAll (os f) (target f p)) as [o|] eqn:Em;
    [|split_and!; [done|done|apply changes_refl|done]].
  apply MkdirAll_spec in Em as (H1 & [t0 H2] & H3); [|done]. cbn [with_os root os].
  split_and!; [done|done|by intros q _|]. intros s t. rewrite H2.
  destruct (H3 (target f p)) as [E|(N & _ & _)]; [by rewrite <-E, H2|]. by rewrite N.
Qed.

Lemma Copy_changes f src p : fs_ok f ->
  let '(err, f') := Copy f src p in
  root f' = root f /\ os_wf (os f') /\ changes (os f) (os f') (target f p).
Proof.
  intros Hf. pose proof (ok_wf _ Hf) as Hw. cbn [Copy LocalFS_backend]. unfold localCopy.
  rewrite safePath_ok, update_ok by done. rewrite resolve_target.
  destruct (MkdirAll (os f) (parent (target f p))) as [o|] eqn:Em;
    [|split_and!; [done|done|apply changes_refl]].
  apply MkdirAll_parent in Em as (Hw1 & Hd & Hc); [|done].
  destruct (find o (target f src)) as [n|]; [|by split_and!].
  destruct (Create o (target f p)) as [o2|] eqn:Ec; [|by split_and!].
  apply Create_spec in Ec as (Hp & Hd' & Hnd & ->); [|done].
  assert (Hw2 : os_wf (put o (target f p) (RegularFile "" (clock o)))) by (by apply put_wf).
  assert (Hc2 : changes (os f) (put o (target f p) (RegularFile "" (clock o))) (target f p))
    by (eapply changes_trans; [done|by apply changes_put]).
  destruct n; [|by split_and!].
  destruct (node_at (put o _ _) (target f src)) as [[s1 t1|]|]; [|by split_and!|by split_and!].
  destruct (write_file_spec o (target f p) s1) as (Hw3 & Hc3 & _); [done|done|done|done|].
  cbn [with_os root os]. split_and!; [done|done|exact (changes_trans _ _ _ _ Hc Hc3)].
Qed.

(** ** Consequences for the client *)

Lemma with_os_ok f f' p : fs_ok f -> root f' = root f -> os_wf (os f') ->
  changes (os f) (os f') (target f p) -> fs_ok f'.
Proof.
  intros [Hr Hd Hw [t Ha]] E Hw' Hc.
  assert (Es : rootSegs f' = rootSegs f) by (unfold rootSegs; by rewrite E).
  split; [by rewrite E, Es|by rewrite Es|done|]. rewrite Es.
  assert (Hne : parent (rootSegs f) <> target f p).
  { intros E'. apply (f_equal length) in E'. unfold target, parent in E'.
    destruct (rootSegs f) as [|s r _] using rev_ind; [done|].
    rewrite removelast_last, !length_app in E'. cbn in E'. lia. }
  destruct (Hc _ Hne) as [Eq|(_ & D & _)]; [|done]. exists t. by rewrite Eq.
Qed.

Lemma local_file_at f q : fs_ok f ->
  file_at f q = match node_at (os f) (target f q) with Some (RegularFile s _) => Some s | _ => None end.
Proof.
  intros H. unfold file_at. cbn [Open LocalFS_backend]. unfold localOpen. rewrite at_path_ok by done.
  destruct (find (os f) (target f q)) as [n|e] eqn:E.
  - apply find_spec in E as ->; [|apply H]. by destruct n.
  - apply find_None in E as ->; [|apply H]. done.
Qed.

Lemma local_exists_at f q : fs_ok f ->
  exists_at f q = bool_decide (is_Some (node_at (os f) (target f q))).
Proof.
  intros H. unfold exists_at. cbn [Stat LocalFS_backend]. unfold localStat. rewrite at_path_ok by done.
  destruct (find (os f) (target f q)) as [n|e] eqn:E.
  - apply find_spec in E as ->; [|apply H]. done.
  - apply find_None in E as ->; [|apply H]. done.
Qed.

Lemma changes_file_at f f' p q : fs_ok f -> root f' = root f -> os_wf (os f') ->
  changes (os f) (os f') (target f p) -> good_path p -> good_path q -> q <> p ->
  file_at f' q = file_at f q.
Proof.
  intros Hf Hr Hw Hc Hp Hq Hne. pose proof (with_os_ok f f' p Hf Hr Hw Hc) as Hf'.
  rewrite !local_file_at by done.
  assert (E : target f' q = target f q) by (unfold target, rootSegs; by rewrite Hr). rewrite E.
  destruct (Hc (target f q)) as [->|(N & [t D] & _)]; [|done|by rewrite N, D].
  intros E'. by apply Hne, (target_inj f).
Qed.

(** Overwriting what exists creates no directory. *)
Lemma changes_exists f f' p q : fs_ok f -> root f' = root f -> os_wf (os f') ->
  changes (os f) (os f') (target f p) -> good_path p -> good_path q ->
  exists_at f p = true -> exists_at f' p = true -> exists_at f' q = exists_at f q.
Proof.
  intros Hf Hr Hw Hc Hp Hq Hx Hx'. destruct (decide (q = p)) as [->|Hne]; [congruence|].
  pose proof (with_os_ok f f' p Hf Hr Hw Hc) as Hf'. rewrite !local_exists_at in * by done.
  assert (E : target f' q = target f q) by (unfold target, rootSegs; by rewrite Hr). rewrite E.
  destruct (Hc (target f q)) as [->|(N & _ & [k Hk])]; [|done|].
  - intros E'. by apply Hne, (target_inj f).
  - exfalso. bool_prop. destruct Hx as [n Hn]. rewrite Hk in Hn.
    destruct (decide (k = [])) as [->|Hk0].
    + rewrite app_nil_r in Hk. by apply Hne, (target_inj f).
    + apply (above_dir _ _ _ _ (ok_wf _ Hf) Hk0) in Hn as [t Ht]. congruence.
Qed.

Lemma target_root f f' p : root f' = root f -> target f' p = target f p.
Proof. intros E. unfold target, rootSegs. by rewrite E. Qed.

(** ** The mount keeps the contract *)

Lemma Write_some_exists f p r n : fs_ok f -> exists_at f p = true ->
  exists_at (Write f p r n).2 p = true.
Proof.
  intros Hf Hx. pose proof (Write_changes f p r n Hf) as H.
  destruct (Write f p r n) as [err f'] eqn:Ew. destruct H as (Hr & Hw & Hc & Hn). cbn [snd].
  pose proof (with_os_ok f f' p Hf Hr Hw Hc) as Hf'.
  rewrite local_exists_at in * by done. bool_prop. apply bool_decide_eq_true.
  rewrite (target_root f f' p Hr). destruct err as [e|]; [|destruct Hn as [_ ->]; [done|by eexists]].
  cbn [Write LocalFS_backend] in Ew. unfold localWrite in Ew. rewrite update_ok in Ew by done.
  destruct (MkdirAll (os f) (parent (target f p))) as [o|] eqn:Em; [|by injection Ew as _ <-].
  apply MkdirAll_spec in Em as (Hw1 & Hd & Hc1); [|apply Hf].
  destruct (Create o (target f p)) as [o2|] eqn:Ec.
  - apply Create_spec in Ec as (Hp & Hd' & Hnd & ->); [|done]. injection Ew as _ <-.
    cbn [with_os os]. unfold write_data. rewrite node_at_put by done. rewrite decide_True by done.
    by eexists.
  - injection Ew as _ <-. cbn [with_os os]. destruct (Hc1 (target f p)) as [->|(N & _ & _)]; [done|].
    rewrite N in Hx. by destruct Hx.
Qed.

#[export] Program Instance LocalFS_laws : BackendLaws FS := { wf := fs_ok }.
Next Obligation.
  intros f p r n Hf. pose proof (Write_changes f p r n Hf) as H.
  destruct (Write f p r n) as [err f']. destruct H as (Hr & Hw & Hc & _). by eapply with_os_ok.
Qed.
Next Obligation.
  intros f p Hf. pose proof (Delete_changes f p Hf) as H.
  destruct (Delete f p) as [err f']. destruct H as (Hr & Hw & Hc & _). by eapply with_os_ok.
Qed.
Next Obligation.
  intros f p Hf. pose proof (MkDir_changes f p Hf) as H.
  destruct (MkDir f p) as [err f']. destruct H as (Hr & Hw & Hc & _). by eapply with_os_ok.
Qed.
Next Obligation.
  intros f p q Hf. pose proof (Copy_changes f p q Hf) as H.
  destruct (Copy f p q) as [err f']. destruct H as (Hr & Hw & Hc). by eapply with_os_ok.
Qed.
Next Obligation.
  intros f p r n q Hf Hp Hq Hne. pose proof (Write_changes f p r n Hf) as H.
  destruct (Write f p r n) as [err f']. destruct H as (Hr & Hw & Hc & _). by apply (changes_file_at f f' p q).
Qed.
Next Obligation.
  intros f p q Hf Hp Hq Hne. pose proof (Delete_changes f p Hf) as H.
  destruct (Delete f p) as [err f']. destruct H as (Hr & Hw & Hc & _). by apply (changes_file_at f f' p q).
Qed.
Next Obligation.
  intros f p q Hf Hp Hq. pose proof (MkDir_changes f p Hf) as H.
  destruct (MkDir f p) as [err f']. destruct H as (Hr & Hw & Hc & Hn). cbn [snd].
  destruct (decide (q = p)) as [->|Hne]; [|by apply (changes_file_at f f' p q)].
  pose proof (with_os_ok f f' p Hf Hr Hw Hc) as Hf'. rewrite !local_file_at by done.
  rewrite (target_root f f' p Hr).
  destruct (node_at (os f') (target f p)) as [[s t|t]|];
    [by rewrite (proj1 (Hn s t) eq_refl)| |];
    (destruct (node_at (os f) (target f p)) as [[s' t'|]|]; [|done|done];
     by pose proof (proj2 (Hn s' t') eq_refl)).
Qed.
Next Obligation.
  intros f p p' q Hf Hp Hp' Hq Hne. pose proof (Copy_changes f p p' Hf) as H.
  destruct (Copy f p p') as [err f']. destruct H as (Hr & Hw & Hc). by apply (changes_file_at f f' p' q).
Qed.
Next Obligation.
  intros f p r n f' Hf Hp E. pose proof (Write_changes f p r n Hf) as H. rewrite E in H.
  destruct H as (Hr & Hw & Hc & Hn). destruct Hn as [He Hn]; [done|]. split; [done|].
  rewrite local_file_at by (by eapply with_os_ok). by rewrite (target_root f f' p Hr), Hn.
Qed.
Next Obligation.
  intros f p r n f' Hf Hp E. pose proof (Write_changes f p r n Hf) as H. rewrite E in H.
  destruct H as (Hr & Hw & Hc & Hn). destruct Hn as [He Hn]; [done|].
  pose proof (with_os_ok f f' p Hf Hr Hw Hc) as Hf'.
  cbn [Stat LocalFS_backend]. unfold localStat. rewrite at_path_ok, (target_root f f' p Hr) by done.
  apply find_spec in Hn as ->; [|done]. eexists. by split_and!.
Qed.
Next Obligation.
  intros f p r n q Hf Hp Hq Hx. pose proof (Write_some_exists f p r n Hf Hx) as Hx'.
  pose proof (Write_changes f p r n Hf) as H.
  destruct (Write f p r n) as [err f']. destruct H as (Hr & Hw & Hc & _).
  by apply (changes_exists f f' p q).
Qed.
Next Obligation.
  intros f p f' Hf Hp E. pose proof (Delete_changes f p Hf) as H. rewrite E in H.
  destruct H as (Hr & Hw & Hc & Hn). rewrite local_exists_at by (by eapply with_os_ok).
  rewrite (target_root f f' p Hr), Hn by done. done.
Qed.
Next Obligation. done. Qed.
Next Obligation. done. Qed.
Next Obligation. done. Qed.
Next Obligation. done. Qed.

(** ** Runs of operations *)

Inductive Op :=
| OpWrite (path : string) (r : Reader) (size : Z)
| OpDelete (path : string)
| OpMkDir (path : string)
| OpRename (oldPath newPath : string)
| OpCopy (srcPath dstPath : string).

Definition apply_op (f : FS) (op : Op) : FS :=
  match op with
  | OpWrite p r n => (Write f p r n).2
  | OpDelete p => (Delete f p).2
  | OpMkDir p => (MkDir f p).2
  | OpRename p q => (localRename f p q).2
  | OpCopy p q => (Copy f p q).2
  end.

Definition run_ops (f : FS) (l : list Op) : FS := foldl apply_op f l.

(** The tree outside the mount is as it was. *)
Definition outside (f f' : FS) : Prop :=
  root f' = root f /\ forall q, ~ rootSegs f `prefix_of` q -> node_at (os f') q = node_at (os f) q.

Lemma target_below f p : rootSegs f `prefix_of` target f p.
Proof. apply prefix_app_r. done. Qed.

Lemma prefix_parent (r q : list string) : q `prefix_of` r -> q <> r -> q `prefix_of` parent r.
Proof.
  intros [k ->] Hne. destruct k as [|s k _] using rev_ind; [by rewrite app_nil_r in Hne|].
  rewrite app_assoc, parent_snoc. by apply prefix_app_r.
Qed.

Lemma prefix_comparable {A} (a b c : list A) : a `prefix_of` c -> b `prefix_of` c ->
  a `prefix_of` b \/ b `prefix_of` a.
Proof. intros Ha Hb. destruct (prefix_weak_total a b c) as [|]; [done|done|by left|by right]. Qed.

Lemma dir_above o p q : os_wf o -> is_dir o p -> q `prefix_of` p -> is_dir o q.
Proof.
  intros Hw [t Ht] [k ->]. destruct (decide (k = [])) as [->|Hk].
  - rewrite app_nil_r in Ht. by exists t.
  - by apply (above_dir o q k (Directory t)).
Qed.

Lemma changes_outside f f' p : fs_ok f -> root f' = root f -> changes (os f) (os f') (target f p) ->
  outside f f'.
Proof.
  intros Hf Hr Hc. split; [done|]. intros q Hq.
  destruct (Hc q) as [|(N & _ & P)]; [by intros ->; apply Hq, target_below|done|]. exfalso.
  destruct (prefix_comparable _ _ _ (target_below f p) P) as [|Hp]; [done|].
  apply prefix_parent in Hp; [|by intros ->].
  destruct (dir_above _ _ _ (ok_wf _ Hf) (ok_above _ Hf) Hp) as [t Ht]. congruence.
Qed.

Lemma Rename_outside f p q : fs_ok f ->
  os_wf (os (localRename f p q).2) /\ outside f (localRename f p q).2.
Proof.
  intros Hf. pose proof (ok_wf _ Hf) as Hw. unfold localRename.
  rewrite safePath_ok, update_ok by done. rewrite resolve_target.
  destruct (MkdirAll (os f) (parent (target f q))) as [o|] eqn:Em; [|by split].
  apply MkdirAll_parent in Em as (Hw1 & Hd & Hc); [|done].
  assert (H0 : outside f (with_os f o)) by (by eapply (changes_outside f (with_os f o) q)).
  unfold os_step. destruct (Rename o (target f p) (target f q)) as [o2|] eqn:Er; [|by split].
  apply Rename_spec in Er as [Hw2 Hn]; [|done]. cbn [with_os snd os].
  split; [done|]. split; [done|]. intros s Hs. cbn [os]. rewrite Hn.
  - by apply H0.
  - intros P. apply Hs. etrans; [apply (target_below f p)|done].
  - intros P. apply Hs. etrans; [apply (target_below f q)|done].
Qed.

Lemma op_outside f op : fs_ok f -> os_wf (os (apply_op f op)) /\ outside f (apply_op f op).
Proof.
  intros Hf. destruct op as [p r n|p|p|p q|p q]; cbn [apply_op].
  - pose proof (Write_changes f p r n Hf) as H. destruct (Write f p r n) as [e f'].
    destruct H as (Hr & Hw & Hc & _). split; [done|by eapply changes_outside].
  - pose proof (Delete_changes f p Hf) as H. destruct (Delete f p) as [e f'].
    destruct H as (Hr & Hw & Hc & _). split; [done|by eapply changes_outside].
  - pose proof (MkDir_changes f p Hf) as H. destruct (MkDir f p) as [e f'].
    destruct H as (Hr & Hw & Hc & _). split; [done|by eapply changes_outside].
  - by apply Rename_outside.
  - pose proof (Copy_changes f p q Hf) as H. destruct (Copy f p q) as [e f'].
    destruct H as (Hr & Hw & Hc). split; [done|by eapply changes_outside].
Qed.

Lemma outside_ok f f' : fs_ok f -> os_wf (os f') -> outside f f' -> fs_ok f'.
Proof.
  intros [Hr Hd Hw [t Ha]] Hw' [E Ho].
  assert (Es : rootSegs f' = rootSegs f) by (unfold rootSegs; by rewrite E).
  split; [by rewrite E, Es|by rewrite Es|done|]. rewrite Es. exists t. rewrite Ho; [done|].
  intros [k Hk]. apply (f_equal length) in Hk. unfold parent in Hk.
  destruct (rootSegs f) as [|s r _] using rev_ind; [done|].
  rewrite removelast_last, !length_app in Hk. cbn in Hk. lia.
Qed.

Lemma run_outside l : forall f, fs_ok f -> fs_ok (run_ops f l) /\ outside f (run_ops f l).
Proof.
  induction l as [|op l IH]; intros f Hf; [by split|]. cbn [run_ops foldl].
  destruct (op_outside f op Hf) as [Hw Ho]. pose proof (outside_ok f _ Hf Hw Ho) as Hf'.
  destruct (IH _ Hf') as [H1 [Hr H2]]. fold (run_ops (apply_op f op) l) in *. split; [done|].
  destruct Ho as [Er Ho].
  assert (Es : rootSegs (apply_op f op) = rootSegs f) by (unfold rootSegs; by rewrite Er).
  split; [by rewrite Hr|]. intros q Hq. rewrite H2, Ho by (by rewrite ?Es). done.
Qed.

Lemma New_ok absRoot o f : HasPrefix absRoot "/" = true -> resolve absRoot <> [] -> os_wf o ->
  New absRoot o = Ok f -> fs_ok f /\ rootSegs f = resolve absRoot /\ os f = o.
Proof.
  intros Ha Hne Hw H. unfold New in H. destruct (find o (resolve absRoot)) as [[|t]|] eqn:E; [done| |done].
  injection H as <-. pose proof (resolve_good absRoot) as Hg. rewrite Clean_rooted by done.
  assert (Es : rootSegs {| root := abs (resolve absRoot); os := o |} = resolve absRoot)
    by (by apply resolve_abs).
  split_and!; [|done|done]. split; [by rewrite Es|by rewrite Es|done|]. rewrite Es. cbn [os].
  apply find_spec in E; [|done]. by eapply is_dir_parent.
Qed.

(** What a copy leaves at the destination. *)
Lemma localCopy_file f p q f' : fs_ok f -> good_path p -> good_path q ->
  Copy f p q = (None, f') -> exists s, file_at f p = Some s /\
    file_at f' q = Some (if String.eqb p q then "" else s).
Proof.
  intros Hf Hp Hq E. pose proof (Copy_changes f p q Hf) as H. rewrite E in H.
  destruct H as (Hr & Hw & Hc). pose proof (with_os_ok f f' q Hf Hr Hw Hc) as Hf'.
  rewrite !local_file_at, (target_root f f' q Hr) by done. pose proof (ok_wf _ Hf) as Hw0.
  cbn [Copy LocalFS_backend] in E. unfold localCopy in E.
  rewrite safePath_ok, update_ok, resolve_target in E by done.
  destruct (MkdirAll (os f) (parent (target f q))) as [o|] eqn:Em; [|done].
  apply MkdirAll_spec in Em as (Hw1 & Hd & Hm); [|done].
  destruct (find o (target f p)) as [n|] eqn:En; [|done]. apply find_spec in En; [|done].
  destruct (Create o (target f q)) as [o2|] eqn:Ec; [|done].
  apply Create_spec in Ec as (Hne & Hd' & Hnd & ->); [|done].
  destruct n as [s t|]; [|done]. rewrite node_at_put in E by done.
  assert (Ep : node_at (os f) (target f p) = Some (RegularFile s t)).
  { destruct (Hm (target f p)) as [<-|(_ & [t' D] & _)]; [done|congruence]. }
  exists s. rewrite Ep. split; [done|].
  case_decide as Et.
  - apply target_inj in Et as ->; [|done|done]. rewrite String.eqb_refl. injection E as <-.
    cbn [with_os os]. unfold write_data. rewrite node_at_put by done. by rewrite decide_True.
  - rewrite En in E. injection E as <-. cbn [with_os os]. unfold write_data.
    rewrite node_at_put by done. rewrite decide_True by done.
    destruct (String.eqb_spec p q) as [->|]; [done|done].
Qed.

Definition sample_os : OS := {|
  nodes := list_to_map [(["srv"], Directory 1); (["srv"; "data"], Directory 1);
    (["srv"; "data"; "a.txt"], RegularFile "hello" 2); (["srv"; "secret"], RegularFile "key" 3)];
  clock := 10; dirSize := 4096 |}.

Definition os_wfb (o : OS) : bool :=
  forallb (fun kv : list string * Node => negb (bool_decide (kv.1 = [])) &&
             match node_at o (parent kv.1) with Some (Directory _) => true | _ => false end)
          (map_to_list (nodes o)).

Lemma os_wfb_spec o : os_wfb o = true -> os_wf o.
Proof.
  intros H p n Hp. unfold os_wfb in H. rewrite forallb_forall in H.
  specialize (H (p, n)). cbn [fst] in H.
  assert (Hin : In (p, n) (map_to_list (nodes o))) by (by apply list_elem_of_In, elem_of_map_to_list).
  apply H in Hin. apply andb_true_iff in Hin as [H1 H2]. bool_prop. split; [done|].
  destruct (node_at o (parent p)) as [[|t]|] eqn:E; [done|by exists t|done].
Qed.

Lemma sample_os_wf : os_wf sample_os.
Proof. apply os_wfb_spec. by vm_compute. Qed.

Definition sample_mount : FS := {| root := "/srv/data"; os := sample_os |}.

Lemma sample_mount_ok : fs_ok sample_mount.
Proof.
  by destruct (New_ok "/srv//data/" sample_os sample_mount) as [? _];
    [vm_compute|vm_compute|apply sample_os_wf|vm_compute|].
Qed.

(** ** Properties *)

(** C6: a local mount is a jail, in a file system that holds no symbolic links
    (paths are checked as text, so a link below the mount's directory would be
    followed): whatever operations run on a mount of a clean directory, whatever
    paths they name, the tree stays well-formed (every node below directories) and
    nothing outside the mount's directory changes. *)
Theorem localfs_jail absRoot o f l :
  HasPrefix absRoot "/" = true -> resolve absRoot <> [] -> os_wf o -> New absRoot o = Ok f ->
  let f' := run_ops f l in
  os_wf (os f') /\ (forall q, ~ resolve absRoot `prefix_of` q -> node_at (os f') q = node_at o q).
Proof.
  intros Ha Hne Hw H f'. destruct (New_ok absRoot o f Ha Hne Hw H) as (Hf & Es & <-).
  destruct (run_outside l f Hf) as [Hok [_ Ho]]. rewrite Es in Ho. split; [apply Hok|exact Ho].
Qed.

Lemma localfs_jail_witness :
  let l := [OpWrite "../../secret" (reader "stolen") 6; OpRename "a.txt" "../b/c.txt";
            OpDelete "../../../srv/secret"; OpCopy "b/c.txt" "/etc/passwd"] in
  node_at (os (run_ops sample_mount l)) ["srv"; "secret"] = Some (RegularFile "key" 3) /\
  node_at (os (run_ops sample_mount l)) ["srv"; "data"; "b"; "c.txt"] = Some (RegularFile "hello" 2).
Proof.
  cbv zeta. split; [|by vm_compute].
  refine (eq_trans (proj2 (localfs_jail "/srv//data/" sample_os sample_mount _ _ _ sample_os_wf _) _ _) _);
    [by vm_compute|by vm_compute|by vm_compute| |by vm_compute].
  by apply (bool_decide_unpack _); vm_compute.
Defined.

(** resolving a request path: with every root but "/" it is the root, then
    the segments of the path with ".." never leaving it; a mount of "/" itself
    refuses every path but its own root. *)
Theorem safePath_spec absRoot o relPath : HasPrefix absRoot "/" = true ->
  let f := {| root := Clean absRoot; os := o |} in
  safePath f relPath =
    if bool_decide (resolve absRoot = [] /\ resolve relPath <> [])
    then Err (Failed "path escapes mount root")
    else Ok (abs (resolve absRoot ++ resolve relPath)).
Proof.
  intros Ha f. pose proof (resolve_good absRoot) as Hg.
  assert (Es : rootSegs f = resolve absRoot).
  { unfold rootSegs, f. cbn [root]. rewrite Clean_rooted by done. by apply resolve_abs. }
  rewrite safePath_eq by (rewrite Es; unfold f; cbn [root]; by apply Clean_rooted).
  unfold target. by rewrite Es.
Qed.

Lemma safePath_spec_witness :
  safePath {| root := "/"; os := sample_os |} "srv/secret" = Err (Failed "path escapes mount root") /\
  safePath sample_mount "x/../../../etc" = Ok "/srv/data/etc".
Proof.
  split; [exact (safePath_spec "/" sample_os "srv/secret" eq_refl)
         |exact (safePath_spec "/srv/data" sample_os "x/../../../etc" eq_refl)].
Defined.

(** a copy that succeeds leaves the content of the source at the
    destination, except on the source itself: copying a file onto itself
    truncates it before it is read, and leaves it empty. *)
Theorem localCopy_spec f p q f' : fs_ok f -> good_path p -> good_path q ->
  localCopy f p q = (None, f') -> exists s, file_at f p = Some s /\
    file_at f' q = Some (if String.eqb p q then "" else s).
Proof. intros Hf Hp Hq E. by apply localCopy_file. Qed.

Lemma localCopy_spec_witness :
  exists s, file_at sample_mount "a.txt" = Some s /\
    file_at (localCopy sample_mount "a.txt" "a.txt").2 "a.txt" = Some "".
Proof.
  eapply (localCopy_spec sample_mount "a.txt" "a.txt"); [apply sample_mount_ok| | |].
  - by apply (bool_decide_unpack _); vm_compute.
  - by apply (bool_decide_unpack _); vm_compute.
  - by vm_compute.
Defined.
