(* ===== verification/AtomicFS.v ===== *)
(** * Mounts whose failed changes leave the file alone

    A write that fails for a reason other than its reader, and a deletion that
    fails, leave the file they name as it was; a directory cannot be read as a
    file.  Local directories satisfy it. *)

From Stdlib Require Import ZArith Lia.
From stdpp Require Import base list strings gmap.
From S2P Require Import Prelude GoStrings GoPath Backend LocalFS.

Local Open Scope Z_scope.

(** ** The law *)

Class AtomicWrites (F : Type) `{BackendLaws F} := {
  Write_atomic f p s n e f' : wf f -> good_path p -> Write f p (reader s) n = (Some e, f') ->
    file_at f' p = file_at f p;
  Delete_atomic f p e f' : wf f -> good_path p -> Backend.Delete f p = (Some e, f') -> file_at f' p = file_at f p;
  gone_file f p : wf f -> good_path p -> exists_at f p = false -> file_at f p = None;
  Open_dir f p r fi : wf f -> Open f p = Ok (r, fi) -> IsDir fi = true -> rErr r <> None;
}.

(** ** Local directories qualify *)

Lemma local_write_error f p s n e f' : fs_ok f -> Write f p (reader s) n = (Some e, f') ->
  root f' = root f /\ os_wf (os f') /\ changes (os f) (os f') (target f p) /\
  (node_at (os f') (target f p) = node_at (os f) (target f p) \/
   node_at (os f) (target f p) = None /\ is_dir (os f') (target f p)).
Proof.
  intros Hf Hw. pose proof (Write_changes f p (reader s) n Hf) as H. rewrite Hw in H.
  destruct H as (Hr & Hwf & Hc & _). split_and!; [done|done|done|].
  cbn [Write LocalFS_backend] in Hw. unfold localWrite in Hw. rewrite update_ok in Hw by done.
  destruct (MkdirAll _ _) as [o|] eqn:Em; [|injection Hw as _ <-; by left].
  destruct (Create o _) as [o2|] eqn:Ec; [done|]. injection Hw as _ <-. cbn [os with_os].
  destruct (MkdirAll_spec _ _ _ (ok_wf _ Hf) Em) as (_ & _ & Hn).
  destruct (Hn (target f p)) as [E|(N & D & _)]; [by left|by right].
Qed.

#[export] Program Instance LocalFS_atomic : AtomicWrites FS := {}.
Next Obligation.
  intros f p s n e f' Hf Hp Hw. destruct (local_write_error f p s n e f' Hf Hw) as (Hr & Hwf & Hc & Hn).
  rewrite !local_file_at by (done || by apply (with_os_ok f f' p)). rewrite (target_root f f' p Hr).
  destruct Hn as [->|(-> & [t ->])]; done.
Qed.
Next Obligation.
  intros f p e f' Hf Hp Hd. cbn in Hd. unfold localDelete in Hd. rewrite update_ok in Hd by done.
  destruct (Remove _ _) as [o|]; [done|]. cbn in Hd. injection Hd as _ <-. by destruct f.
Qed.
Next Obligation.
  intros f p Hf Hp Hx. cbn in Hf. rewrite local_exists_at in Hx by done. rewrite local_file_at by done.
  destruct (node_at _ _) as [n|]; [|done]. by rewrite bool_decide_true in Hx by (by eexists).
Qed.
Next Obligation.
  intros f p r fi Hf Ho Hd. cbn in Hf, Ho. unfold localOpen in Ho. rewrite at_path_ok in Ho by done.
  destruct (find _ _) as [[x t|t]|]; [|injection Ho as <- _; done|done].
  injection Ho as _ <-. done.
Qed.
