(* ===== verification/Listing.v ===== *)
(** * Mounts whose directories list their files

    A change of a file does not show in the listing of a directory it is not
    below; a directory lists the files in it, each name once.  Local directories
    satisfy it. *)

From Stdlib Require Import ZArith Lia Ascii Sorted.
From stdpp Require Import base list strings gmap sorting.
From S2P Require Import Prelude GoStrings GoPath Backend LocalFS.

Local Open Scope Z_scope.

(** ** The law *)

(** Neither path is below the other. *)
Definition unrelated (p q : string) : Prop :=
  ~ Split q "/" `prefix_of` Split p "/" /\ ~ Split p "/" `prefix_of` Split q "/".

Class Listings (F : Type) `{BackendLaws F} := {
  Write_lists f p r n q : wf f -> good_path p -> good_path q -> unrelated p q ->
    ReadDir (Write f p r n).2 q = ReadDir f q;
  Delete_lists f p q : wf f -> good_path p -> good_path q -> unrelated p q ->
    ReadDir (Delete f p).2 q = ReadDir f q;
  file_listed f p x : wf f -> good_path p -> good_seg x -> is_Some (file_at f (p +:+ "/" +:+ x)) ->
    exists es e, ReadDir f p = Ok es /\ e ∈ es /\ eName e = x /\ eIsDir e = false;
  listed_file f p es e : wf f -> good_path p -> ReadDir f p = Ok es -> e ∈ es -> eIsDir e = false ->
    good_seg (eName e) -> is_Some (file_at f (p +:+ "/" +:+ eName e));
  listed_once f p es : wf f -> ReadDir f p = Ok es -> NoDup (eName <$> es);
}.

(** ** Sorted listings *)

Definition name_less (a b : DirEntry) : bool := str_ltb (eName a) (eName b).

Lemma name_less_weak P : strict_weak name_less P.
Proof.
  split; unfold name_less.
  - intros x y _ _. apply str_ltb_asym.
  - intros x y z _ _ _. apply str_ltb_false_trans.
Qed.

Lemma sort_names_eq l l' : l ≡ₚ l' -> NoDup (eName <$> l) -> SliceStable name_less l = SliceStable name_less l'.
Proof.
  intros Hp Hn. apply (StronglySorted_unique_strong (not_after name_less)).
  - intros x y Hx Hy H1 H2. rewrite SliceStable_perm in Hx, Hy. rewrite <-Hp in Hy.
    apply (NoDup_fmap_eq eName l); [done..|]. by apply str_ltb_total.
  - apply (SliceStable_Sorted _ (fun _ => True)); [apply name_less_weak|by apply Forall_true].
  - apply (SliceStable_Sorted _ (fun _ => True)); [apply name_less_weak|by apply Forall_true].
  - by rewrite !SliceStable_perm.
Qed.

(** ** Local directories *)

Lemma mkdirs_size rest : forall o done o', mkdirs o done rest = Ok o' -> dirSize o' = dirSize o.
Proof.
  induction rest as [|s rest IH]; intros o done o' E; cbn [mkdirs] in E.
  - destruct (node_at o done) as [[|]|]; [done| |]; by injection E as <-.
  - destruct (node_at o done) as [[|]|]; [done| |]; apply IH in E; by rewrite E.
Qed.

Lemma Write_size f p r n : fs_ok f -> dirSize (os (Write f p r n).2) = dirSize (os f).
Proof.
  intros Hf. cbn [Write LocalFS_backend]. unfold localWrite. rewrite update_ok by done.
  destruct (MkdirAll _ _) as [o|] eqn:Em; [|done]. apply mkdirs_size in Em. unfold Create.
  destruct (find o _) as [[|]|]; [by rewrite <-Em| |by rewrite <-Em].
  destruct (node_at o _) as [[|]|]; by rewrite <-Em.
Qed.

Lemma Delete_size f p : fs_ok f -> dirSize (os (Delete f p).2) = dirSize (os f).
Proof.
  intros Hf. cbn [Delete LocalFS_backend]. unfold localDelete. rewrite update_ok by done. unfold os_step, Remove.
  repeat case_match; simplify_eq/=; done.
Qed.

Lemma elem_of_children o p s n : (s, n) ∈ children o p <-> nodes o !! (p ++ [s]) = Some n.
Proof.
  split; [|apply child_of]. unfold children. intros ([k v] & Hin & Hk)%list_elem_of_omap. cbn [fst snd] in Hk.
  apply elem_of_map_to_list in Hin. destruct (below p k && _) eqn:E; [|done]. bool_prop.
  apply below_spec in H as [[x ->] _]. apply Nat.eqb_eq in H0. rewrite length_app in H0.
  destruct x as [|s0 [|]]; cbn in H0; try lia. rewrite last_snoc in Hk. cbn in Hk. by injection Hk as -> ->.
Qed.

Lemma children_names o p : NoDup ((children o p).*1).
Proof.
  unfold children. pose proof (NoDup_fst_map_to_list (nodes o)) as Hn. revert Hn.
  assert (Hkey : forall (kv : list string * Node) (sn : string * Node), (if below p kv.1 && (length kv.1 =? S (length p))%nat
    then (fun s : string => (s, kv.2)) <$> last kv.1 else None) = Some sn -> kv.1 = p ++ [sn.1]).
  { intros [k v] [s n] E. cbn [fst snd] in *. destruct (below p k && _) eqn:Eb; [|done]. bool_prop.
    apply below_spec in H as [[x ->] _]. apply Nat.eqb_eq in H0. rewrite length_app in H0.
    destruct x as [|s0 [|]]; cbn in H0; try lia. rewrite last_snoc in E. by injection E as -> ->. }
  induction (map_to_list (nodes o)) as [|kv l IH]; intros Hn; [constructor|].
  rewrite fmap_cons in Hn. apply NoDup_cons in Hn as [Hx Hn]. cbn [omap list_omap].
  destruct (if below p kv.1 && _ then _ else None) as [sn|] eqn:E; [|by apply IH].
  rewrite fmap_cons. constructor; [|by apply IH]. intros ([s n] & Es & Hin)%list_elem_of_fmap.
  apply list_elem_of_omap in Hin as (kv' & Hin & E'). apply Hx, list_elem_of_fmap. exists kv'. split; [|done].
  rewrite (Hkey _ _ E), (Hkey _ _ E'). by rewrite Es.
Qed.

Lemma entries_names o p : NoDup (eName <$> (entry_of o <$> children o p)).
Proof.
  rewrite <-list_fmap_compose. rewrite (list_fmap_ext _ fst); [apply children_names|]. done.
Qed.

Lemma snoc_ne {A} (p : list A) s : p ++ [s] <> [].
Proof. by destruct p. Qed.

(** The two ends of a change that does not touch [q], what is in it, or what is
    above it except for missing directories. *)
Record untouched (o o' : OS) (q : list string) : Prop := {
  ut_above r : r `prefix_of` q -> node_at o' r = node_at o r \/ node_at o r = None /\ is_dir o' r;
  ut_self : node_at o' q = node_at o q;
  ut_below s : nodes o' !! (q ++ [s]) = nodes o !! (q ++ [s]);
  ut_size : dirSize o' = dirSize o;
}.

Lemma find_absent o q : os_wf o -> forall rest done, done ++ rest = q -> node_at o q = None ->
  (forall r, r `prefix_of` q -> node_at o r = None \/ is_dir o r) -> walk o done rest = Err ENOENT.
Proof.
  intros Hw rest. induction rest as [|s rest IH]; intros done Eq Hn Ha; cbn [walk].
  - rewrite app_nil_r in Eq. by rewrite Eq, Hn.
  - destruct (Ha done) as [E|[t E]]; [subst q; by apply prefix_app_r|by rewrite E|]. rewrite E.
    apply IH; [by rewrite <-Eq, <-app_assoc|done|done].
Qed.

Lemma walk_untouched o o' q : os_wf o -> os_wf o' -> untouched o o' q -> forall rest done, done ++ rest = q ->
  walk o' done rest = walk o done rest.
Proof.
  intros Hw Hw' Hu rest. induction rest as [|s rest IH]; intros done Eq; cbn [walk].
  - rewrite app_nil_r in Eq. subst done. by rewrite (ut_self _ _ _ Hu).
  - assert (Hp : done `prefix_of` q) by (subst q; by apply prefix_app_r).
    destruct (ut_above _ _ _ Hu done Hp) as [E|[E [t E']]].
    + rewrite E. destruct (node_at o done) as [[|]|]; [done| |done]. apply IH. by rewrite <-Eq, <-app_assoc.
    + rewrite E, E'. assert (Hq : node_at o q = None).
      { destruct (node_at o q) as [n|] eqn:En; [|done]. exfalso. rewrite <-Eq in En.
        destruct (above_dir o done (s :: rest) n Hw) as [t' Ht]; [done|done|congruence]. }
      apply (find_absent o' q); [done|by rewrite <-Eq, <-app_assoc|by rewrite (ut_self _ _ _ Hu)|].
      intros r Hr. destruct (ut_above _ _ _ Hu r Hr) as [Er|[_ Er]]; [|by right]. rewrite Er.
      destruct (node_at o r) as [[x t'|t']|] eqn:En; [|by right; exists t'|by left].
      exfalso. destruct (prefix_comparable done r q Hp Hr) as [[k ->]|[k ->]].
      * destruct (decide (k = [])) as [->|Hk]; [rewrite app_nil_r in En; congruence|].
        destruct (above_dir o done k _ Hw Hk En) as [t2 Ht]. congruence.
      * destruct (decide (k = [])) as [->|Hk]; [rewrite app_nil_r in E; congruence|].
        assert (Hr' : node_at o' r = Some (RegularFile x t')) by congruence.
        destruct (above_dir o' r k _ Hw' Hk E') as [t2 Ht]. congruence.
Qed.

Lemma ReadDir_untouched f f' q : fs_ok f -> fs_ok f' -> root f' = root f ->
  untouched (os f) (os f') (target f q) -> ReadDir f' q = ReadDir f q.
Proof.
  intros Hf Hf' Hr Hu. cbn [ReadDir LocalFS_backend]. unfold localReadDir. rewrite !at_path_ok by done.
  rewrite (target_root f f' q Hr). unfold find.
  rewrite (walk_untouched (os f) (os f') (target f q) (ok_wf _ Hf) (ok_wf _ Hf') Hu (target f q) []) by done.
  destruct (walk (os f) [] (target f q)) as [[|]|]; [done| |done]. f_equal.
  change (fun a b : DirEntry => str_ltb (eName a) (eName b)) with name_less. symmetry. apply sort_names_eq; [|apply entries_names].
  rewrite (list_fmap_ext (entry_of (os f)) (entry_of (os f')) (children (os f) (target f q))).
  - apply fmap_Permutation. apply NoDup_Permutation.
    + eapply NoDup_fmap_1, children_names.
    + eapply NoDup_fmap_1, children_names.
    + intros [s n]. by rewrite !elem_of_children, (ut_below _ _ _ Hu).
  - intros i [s n] _. unfold entry_of, node_info. cbn [fst snd]. by rewrite (ut_size _ _ _ Hu).
Qed.

Lemma target_prefix f p q : good_path p -> good_path q -> target f q `prefix_of` target f p <-> Split q "/" `prefix_of` Split p "/".
Proof.
  intros Hp Hq. unfold target. rewrite !good_path_resolve by done. split; [apply prefix_app_inv|].
  intros H. by apply prefix_app.
Qed.

Lemma changes_untouched f f' p q : fs_ok f -> good_path p -> good_path q -> unrelated p q ->
  changes (os f) (os f') (target f p) -> dirSize (os f') = dirSize (os f) ->
  untouched (os f) (os f') (target f q).
Proof.
  intros Hf Hp Hq [H1 H2] Hc Hs. rewrite <-(target_prefix f) in H1, H2 by done.
  assert (Hne : forall x, target f q ++ x <> target f p) by (intros x E; apply H1; exists x; by rewrite E).
  split; [|destruct (Hc (target f q)) as [E|(_ & _ & E)]; [|done|done]|intros s|done].
  - intros r Hr. destruct (Hc r) as [E|(E & D & _)]; [|by left|by right].
    intros ->. done.
  - intros E. apply (Hne []). by rewrite app_nil_r.
  - assert (E : node_at (os f') (target f q ++ [s]) = node_at (os f) (target f q ++ [s])).
    { destruct (Hc (target f q ++ [s])) as [E|(_ & _ & E)]; [by apply Hne|done|].
      exfalso. apply H1. etrans; [|exact E]. by apply prefix_app_r. }
    by rewrite !node_at_ne in E by apply snoc_ne.
Qed.

Lemma good_child p x : good_path p -> good_seg x -> good_path (p +:+ "/" +:+ x).
Proof. intros Hp Hx. apply good_path_app; [done|by apply good_seg_path]. Qed.

Lemma target_child f p x : good_path p -> good_seg x -> target f (p +:+ "/" +:+ x) = target f p ++ [x].
Proof.
  intros Hp Hx. unfold target. rewrite !good_path_resolve by (done || by apply good_child).
  change ("/" +:+ x) with (String "/" x). rewrite Split_app, (Split_single x) by apply Hx. by rewrite app_assoc.
Qed.

Lemma local_listed f p es : fs_ok f -> ReadDir f p = Ok es -> exists t, node_at (os f) (target f p) = Some (Directory t) /\
  forall e, e ∈ es <-> exists s n, nodes (os f) !! (target f p ++ [s]) = Some n /\ e = entry_of (os f) (s, n).
Proof.
  intros Hf. cbn [ReadDir LocalFS_backend]. unfold localReadDir. rewrite at_path_ok by done.
  destruct (find _ _) as [[|t]|] eqn:E; [done| |done]. intros [= <-]. exists t.
  apply find_spec in E; [|apply Hf]. split; [done|]. intros e. rewrite SliceStable_perm, list_elem_of_fmap. split.
  - intros ([s n] & -> & Hin%elem_of_children). by exists s, n.
  - intros (s & n & Hin & ->). exists (s, n). split; [done|]. by apply elem_of_children.
Qed.

#[export] Program Instance LocalFS_listings : Listings FS := {}.
Next Obligation.
  intros f p r n q Hf Hp Hq Hu. pose proof (Write_changes f p r n Hf) as H. pose proof (Write_size f p r n Hf) as Hs.
  destruct (Write f p r n) as [err f']. destruct H as (Hr & Hw & Hc & _). cbn [snd] in *.
  apply ReadDir_untouched; [done|by apply (with_os_ok f f' p)|done|by apply (changes_untouched f f' p q)].
Qed.
Next Obligation.
  intros f p q Hf Hp Hq Hu. pose proof (Delete_changes f p Hf) as H. pose proof (Delete_size f p Hf) as Hs.
  destruct (Delete f p) as [err f']. destruct H as (Hr & Hw & Hc & _). cbn [snd] in *.
  apply ReadDir_untouched; [done|by apply (with_os_ok f f' p)|done|by apply (changes_untouched f f' p q)].
Qed.
Next Obligation.
  intros f p x Hf Hp Hx Hs. rewrite local_file_at, target_child in Hs by done.
  destruct (node_at (os f) (target f p ++ [x])) as [[c t|]|] eqn:En; [|by destruct Hs..].
  assert (Hd : is_dir (os f) (target f p)) by (eapply above_dir; [apply Hf| |exact En]; done).
  destruct Hd as [t' Hd]. cbn [ReadDir LocalFS_backend]. unfold localReadDir. rewrite at_path_ok by done.
  rewrite (proj2 (find_spec _ _ _ (ok_wf _ Hf)) Hd). eexists _, (entry_of (os f) (x, RegularFile c t)). split; [done|].
  rewrite SliceStable_perm. split; [|done]. apply list_elem_of_fmap. eexists. split; [done|].
  apply elem_of_children. by rewrite node_at_ne in En by apply snoc_ne.
Qed.
Next Obligation.
  intros f p es e Hf Hp Hr He Hd Hg. destruct (local_listed f p es Hf Hr) as (t & _ & Hl).
  apply Hl in He as (s & n & Hn & ->). cbn [eName entry_of] in *. rewrite local_file_at, target_child by done.
  cbn [fst]. rewrite node_at_ne, Hn by apply snoc_ne. destruct n; [by eexists|done].
Qed.
Next Obligation.
  intros f p es Hf. cbn [ReadDir LocalFS_backend]. unfold localReadDir. rewrite at_path_ok by done.
  destruct (find _ _) as [[|t]|]; [done| |done]. intros [= <-]. rewrite SliceStable_perm. apply entries_names.
Qed.
