(* ===== verification/LocalBlob.v ===== *)
(** * internal/registry/blobstore/localblob.go: blobs in a directory

    Blobs at root/blobs/algorithm/first two digits/digits, uploads in
    root/_uploads, over the files of LocalFS.v.  An open upload is a position in
    its file; a session object outlives its entry in the table.  Random ids are
    arguments, the clock is the system's.  What fails on an open file (a full
    disk) is not modelled, what the tree makes fail is.  [Rep] relates the
    store to the in-memory one of BlobStore.v; LocalBlobSafety.v proves that it
    refines it. *)

From Stdlib Require Import ZArith Lia Ascii.
From stdpp Require Import base list strings gmap.
From S2P Require Import Prelude GoStrings GoPath GoHash BlobStore LocalFS.

Local Open Scope Z_scope.

(** [handle]: the position of the open file, None once it is closed. *)
Record localSession := { lsPath : string; handle : option nat; lsN : Z; lsClosed : bool }.

(** [table]: the ids of the session table; [objs]: every session ever created. *)
Record LocalBlobStore := {
  lroot : string; los : OS; table : gset string; objs : gmap string localSession;
}.

Definition with_los (l : LocalBlobStore) (o : OS) : LocalBlobStore :=
  {| lroot := lroot l; los := o; table := table l; objs := objs l |}.

Definition with_obj (l : LocalBlobStore) (id : string) (s : localSession) : LocalBlobStore :=
  {| lroot := lroot l; los := los l; table := table l; objs := <[ id := s ]> (objs l) |}.

Definition drop_entry (l : LocalBlobStore) (id : string) : LocalBlobStore :=
  {| lroot := lroot l; los := los l; table := table l ∖ {[ id ]}; objs := objs l |}.

(** [filepath.Abs] of an absolute path cleans it. *)
Definition NewLocalBlobStore (root : string) (o : OS) : result string LocalBlobStore :=
  if String.eqb root "" then Err "localblob: root path is empty"
  else
    let abs := Clean root in
    match MkdirAll o (resolve (PathJoin [abs; "blobs"])) with
    | Err _ => Err "localblob: mkdir blobs"
    | Ok o =>
        match MkdirAll o (resolve (PathJoin [abs; "_uploads"])) with
        | Err _ => Err "localblob: mkdir _uploads"
        | Ok o => Ok {| lroot := abs; los := o; table := ∅; objs := ∅ |}
        end
    end.

Definition blobPath (l : LocalBlobStore) (d : Digest) : string :=
  if (len (Hex d) <? 2)%nat then PathJoin [lroot l; "blobs"; Algorithm d; Hex d]
  else PathJoin [lroot l; "blobs"; Algorithm d; str_take 2 (Hex d); Hex d].

Definition uploadPath (l : LocalBlobStore) (id : string) : string := PathJoin [lroot l; "_uploads"; id].

Definition blobError (e : Errno) : BlobError := match e with ENOENT => ErrNotFound | _ => ErrBackend end.

Definition node_blob (o : OS) (p : list string) (n : Node) : BlobInfo :=
  let fi := node_info o p n in {| Size := Backend.Size fi; ModTime := Some (Backend.ModTime fi) |}.

(** A directory opens, and fails on the first read. *)
Definition localGet (l : LocalBlobStore) (d : Digest) : result BlobError (string * BlobInfo) :=
  let p := resolve (blobPath l d) in
  match find (los l) p with
  | Err e => Err (blobError e)
  | Ok (Directory _) => Err ErrBackend
  | Ok (RegularFile s t) => Ok (s, node_blob (los l) p (RegularFile s t))
  end.

Definition localStat (l : LocalBlobStore) (d : Digest) : result BlobError BlobInfo :=
  let p := resolve (blobPath l d) in
  match find (los l) p with
  | Err e => Err (blobError e)
  | Ok n => Ok (node_blob (los l) p n)
  end.

Definition localDelete (l : LocalBlobStore) (d : Digest) : result BlobError LocalBlobStore :=
  match Remove (los l) (resolve (blobPath l d)) with
  | Err e => Err (blobError e)
  | Ok o => Ok (with_los l o)
  end.

(** [os.OpenFile] with O_CREATE and O_EXCL. *)
Definition create_excl (o : OS) (p : list string) : result Errno OS :=
  match node_at o p with
  | Some _ => match find o (parent p) with Err e => Err e | Ok _ => Err EEXIST end
  | None => Create o p
  end.

Definition StartUpload (id : string) (l : LocalBlobStore) : result BlobError LocalBlobStore :=
  let p := uploadPath l id in
  match create_excl (los l) (resolve p) with
  | Err _ => Err ErrBackend
  | Ok o =>
      Ok {| lroot := lroot l; los := o; table := {[ id ]} ∪ table l;
            objs := <[ id := {| lsPath := p; handle := Some O; lsN := 0; lsClosed := false |} ]> (objs l) |}
  end.

Definition ResumeUpload (id : string) (l : LocalBlobStore) : result BlobError string :=
  if bool_decide (id ∈ table l) then
    match objs l !! id with
    | Some s => if lsClosed s then Err ErrSessionClosed else Ok id
    | None => Err ErrSessionNotFound
    end
  else Err ErrSessionNotFound.

(** ** Listing *)

(** The order of [filepath.WalkDir]: by name in every directory. *)
Fixpoint path_ltb (p q : list string) : bool :=
  match p, q with
  | _, [] => false
  | [], _ :: _ => true
  | a :: p, b :: q => str_ltb a b || (String.eqb a b && path_ltb p q)
  end.

Definition path_less (a b : list string * Node) : bool := path_ltb a.1 b.1.

(** The regular files below [p] in the order of the walk, by their path from it. *)
Definition WalkDir (o : OS) (p : list string) : list (list string * Node) :=
  SliceStable path_less
    (omap (fun kv : list string * Node =>
             if below p kv.1 then
               match kv.2 with
               | RegularFile _ _ => Some (drop (length p) kv.1, kv.2)
               | Directory _ => None
               end
             else None) (map_to_list (nodes o))).

Definition listed (o : OS) (rel : list string) (n : Node) : option (Digest * BlobInfo) :=
  match rel with
  | [alg; _; hx] =>
      match algorithmHexLength alg with
      | Some wantLen => if (len hx =? wantLen)%nat
                        then Some ({| Algorithm := alg; Hex := hx |}, node_blob o rel n) else None
      | None => None
      end
  | _ => None
  end.

(** The blobs the callback sees, as long as it does not stop the walk. *)
Definition localListBlobs (l : LocalBlobStore) : list (Digest * BlobInfo) :=
  omap (fun kv => listed (los l) kv.1 kv.2) (WalkDir (los l) (resolve (PathJoin [lroot l; "blobs"]))).

(** ** Sessions *)

Fixpoint zeros (n : nat) : string := match n with O => "" | S n => String zero (zeros n) end.

(** Writing [p] at a position; a position after the end leaves a hole. *)
Definition write_at (s : string) (pos : nat) (p : string) : string :=
  if String.eqb p "" then s
  else str_take pos (s +:+ zeros (pos - len s)) +:+ p +:+ str_drop (pos + len p) s.

(** What the open file of a path holds. *)
Definition file_data (o : OS) (path : string) : option string :=
  match node_at o (resolve path) with Some (RegularFile s _) => Some s | _ => None end.

Definition write_file (o : OS) (path : string) (pos : nat) (p : string) : OS :=
  if String.eqb p "" then o
  else match file_data o path with
       | Some s => write_data o (resolve path) (write_at s pos p)
       | None => o
       end.

Definition sWrite (id p : string) (l : LocalBlobStore) : result BlobError LocalBlobStore :=
  match objs l !! id with
  | None => Err ErrSessionNotFound
  | Some s =>
      if lsClosed s then Err ErrSessionClosed
      else match handle s with
           | None => Err ErrBackend
           | Some pos =>
               Ok (with_obj (with_los l (write_file (los l) (lsPath s) pos p)) id
                     {| lsPath := lsPath s; handle := Some (pos + len p)%nat;
                        lsN := lsN s + Z.of_nat (len p); lsClosed := false |})
           end
  end.

Definition sOffset (id : string) (l : LocalBlobStore) : Z :=
  match objs l !! id with None => 0 | Some s => lsN s end.

Definition at_pos (s : localSession) (pos : option nat) : localSession :=
  {| lsPath := lsPath s; handle := pos; lsN := lsN s; lsClosed := lsClosed s |}.

Definition closed_session (s : localSession) : localSession :=
  {| lsPath := lsPath s; handle := None; lsN := lsN s; lsClosed := true |}.

(** The move into the blob's place: what the rename replaces, or, when it
    fails over something that is already there, only the removal of the
    temporary file. *)
Definition publish (o : OS) (tmp dst : string) : option OS :=
  match Rename o (resolve tmp) (resolve dst) with
  | Ok o => Some o
  | Err _ =>
      match find o (resolve dst) with
      | Ok _ => Some (match Remove o (resolve tmp) with Ok o => o | Err _ => o end)
      | Err _ => None
      end
  end.

Definition sCommit (id : string) (expected : Digest) (l : LocalBlobStore)
    : result BlobError Digest * LocalBlobStore :=
  match objs l !! id with
  | None => (Err ErrSessionNotFound, l)
  | Some s =>
      if lsClosed s then (Err ErrSessionClosed, l)
      else
        let alg := if String.eqb (Algorithm expected) "" then "sha256" else Algorithm expected in
        match handle s, file_data (los l) (lsPath s) with
        | Some _, Some data =>
            match NewHasher alg with
            | None => (Err ErrUnsupported, with_obj l id (at_pos s (Some O)))
            | Some h =>
                let got := DigestFromHash alg (h data) in
                if negb (IsZero expected) && negb (Equal expected got) then
                  (Err (ErrDigestMismatch got), with_obj l id (at_pos s (Some (Z.to_nat (lsN s)))))
                else
                  let l := with_obj l id (at_pos s None) in
                  let dst := blobPath l got in
                  match MkdirAll (los l) (parent (resolve dst)) with
                  | Err _ => (Err ErrBackend, l)
                  | Ok o =>
                      match publish o (lsPath s) dst with
                      | None => (Err ErrBackend, with_los l o)
                      | Some o => (Ok got, drop_entry (with_obj (with_los l o) id (closed_session s)) id)
                      end
                  end
            end
        | _, _ => (Err ErrBackend, l)
        end
  end.

(** [forceCloseLocked] *)
Definition forceClose (id : string) (s : localSession) (l : LocalBlobStore) : LocalBlobStore :=
  let o := match Remove (los l) (resolve (lsPath s)) with Ok o => o | Err _ => los l end in
  drop_entry (with_obj (with_los l o) id (closed_session s)) id.

Definition sCancel (id : string) (l : LocalBlobStore) : LocalBlobStore :=
  match objs l !! id with
  | None => l
  | Some s => if lsClosed s then l else forceClose id s l
  end.

(** ** Abandoned uploads *)

Definition first_err (e : option BlobError) : option BlobError :=
  match e with Some e => Some e | None => Some ErrBackend end.

(** One entry of _uploads, [threshold] in seconds. *)
Definition prune_entry (threshold : Z) (dry : bool) (live : gset string) (dir : list string)
    (acc : nat * Z * option BlobError * OS) (kv : string * Node) : nat * Z * option BlobError * OS :=
  let '(removed, bytes, err, o) := acc in
  let fi := node_info o [kv.1] kv.2 in
  if Backend.IsDir fi || bool_decide (kv.1 ∈ live) || (threshold <? Backend.ModTime fi) then acc
  else if dry then (S removed, wrap64 (bytes + Backend.Size fi), err, o)
  else match Remove o (dir ++ [kv.1]) with
       | Err _ => (removed, bytes, first_err err, o)
       | Ok o => (S removed, wrap64 (bytes + Backend.Size fi), err, o)
       end.

Definition localPrune (l : LocalBlobStore) (maxAge : Z) (dry : bool)
    : nat * Z * option BlobError * LocalBlobStore :=
  let dir := resolve (PathJoin [lroot l; "_uploads"]) in
  match find (los l) dir with
  | Err ENOENT => (O, 0, None, l)
  | Err _ | Ok (RegularFile _ _) => (O, 0, Some ErrBackend, l)
  | Ok (Directory _) =>
      let entries := SliceStable (fun a b : string * Node => str_ltb a.1 b.1) (children (los l) dir) in
      let '(removed, bytes, err, o) :=
        foldl (prune_entry (clock (los l) - maxAge) dry (table l) dir) (O, 0, None, los l) entries in
      (removed, bytes, err, with_los l o)
  end.

#[export] Instance LocalBlobStore_store : BlobStore LocalBlobStore := {
  Get := localGet; Delete := localDelete; ListBlobs := localListBlobs;
  PruneAbandonedUploads := Some localPrune;
}.

(** A new process on the same directory: the sessions of the old one are gone. *)
Definition restart (l : LocalBlobStore) : LocalBlobStore :=
  {| lroot := lroot l; los := los l; table := ∅; objs := closed_session <$> objs l |}.
