(* ===== verification/LocalBlobSafety.v ===== *)
(** * The directory blob store refines the in-memory one

    Over the definitions of LocalBlob.v.  [Rep l m]: the directory of [l] holds
    exactly the blobs and the open uploads of [m].  Every operation keeps it,
    also a restart in the middle of uploads, with the same answers
    ([local_refines]); so the store keeps the contract of the container
    registry ([LocalBlobStore_laws]), and what GC proves holds of it. *)

From Stdlib Require Import ZArith Lia Ascii.
From stdpp Require Import base list strings gmap fin_maps.
From S2P Require Import Prelude GoStrings GoPath GoHash BlobStore LocalFS LocalBlob.

Local Open Scope Z_scope.

(** ** Paths *)

Lemma resolve_PathJoin_abs r l : Forall good_seg r -> Forall good_seg l -> resolve (PathJoin (abs r :: l)) = r ++ l.
Proof.
  intros Hr Hl. unfold PathJoin.
  replace (forallb _ (abs r :: l)) with false by done. cbn [foldl].
  assert (E : join_step "" (abs r) = abs r) by done. rewrite E.
  rewrite join_steps; [|by eapply Forall_impl; [exact Hl|apply good_seg_path]|done].
  rewrite Clean_rooted.
  2:{ destruct l; [done|]. by rewrite Join_cons. }
  rewrite resolve_abs by apply resolve_good.
  destruct l as [|s l]; [rewrite app_nil_r; by apply resolve_abs|]. rewrite Join_cons.
  change ("/" +:+ Join (s :: l) "/") with (String "/" (Join (s :: l) "/")).
  assert (Hj : Split (Join (s :: l) "/") "/" = s :: l) by (by apply Split_Join_good).
  rewrite resolve_app by (left; by rewrite Hj). rewrite resolve_abs by done. f_equal. rewrite Hj.
  case_if as E'; [|done]. exfalso. rewrite E' in Hj. injection Hj as Hs _.
  inversion Hl as [|? ? [Hne _] _]. congruence.
Qed.

Lemma normal_inv d : normal d -> exists n, algorithmHexLength (Algorithm d) = Some n /\ len (Hex d) = n /\
  is_Some (DecodeString (Hex d)) /\ ToLower (Hex d) = Hex d.
Proof.
  intros Hd. pose proof (parsed_hex _ _ Hd) as Hl. pose proof Hd as Hd'. unfold normal in Hd.
  apply ParseDigest_inv in Hd as (alg & hx & n & E & Ha & Hn & Hx & ->). exists n. cbn [Algorithm Hex] in *.
  rewrite len_ToLower. split_and!; [done|done|by apply DecodeString_lower|done].
Qed.

Lemma hex_seg hx n : len hx = S n -> is_Some (DecodeString hx) -> good_seg hx.
Proof.
  intros Hn Hx. pose proof (DecodeString_no_slash hx Hx) as Hs. destruct Hx as [x Hx].
  split_and!; [by intros ->| | |done]; intros ->; done.
Qed.

Lemma take_hex_seg hx n : len hx = S (S n) -> is_Some (DecodeString hx) -> good_seg (str_take 2 hx).
Proof.
  intros Hn Hx. destruct hx as [|a [|b hx]]; [done|done|]. 
  pose proof (DecodeString_no_slash _ Hx) as Hs. destruct Hx as [x Hx]. cbn [DecodeString] in Hx.
  destruct (fromHexChar a) eqn:Ea; [|done]. destruct (fromHexChar b) eqn:Eb; [|done].
  change (str_take 2 (String a (String b hx))) with (String a (String b "")).
  split_and!; [done|by intros [= -> ->]|by intros [= -> ->]|].
  change (String a (String b hx)) with (String a (String b "") +:+ hx) in Hs.
  rewrite no_byte_app in Hs. by bool_prop.
Qed.

(** Where a digest in normal form is stored, from the directory of the blobs. *)
Definition shard (d : Digest) : list string := [Algorithm d; str_take 2 (Hex d); Hex d].

Lemma shard_good d : normal d -> Forall good_seg (shard d).
Proof.
  intros Hd. destruct (normal_inv d Hd) as (n & Ha & Hn & Hx & _). unfold shard.
  destruct (algorithmHexLength_Some _ _ Ha) as [[E ->]|[E ->]]; rewrite E;
    (repeat apply Forall_cons_2; [done|by eapply take_hex_seg|by eapply hex_seg|by apply Forall_nil]).
Qed.

Lemma shard_inj d d' : shard d = shard d' -> d = d'.
Proof. destruct d, d'. by intros [= -> _ ->]. Qed.

(** A clean absolute root. *)
Definition rooted (l : LocalBlobStore) (r : list string) : Prop := lroot l = abs r /\ Forall good_seg r /\ r <> [].

Lemma blobPath_at l r d : rooted l r -> normal d -> resolve (blobPath l d) = r ++ "blobs" :: shard d.
Proof.
  intros (E & Hr & _) Hd. unfold blobPath. rewrite E.
  destruct (normal_inv d Hd) as (n & Ha & Hn & _ & _).
  replace (len (Hex d) <? 2)%nat with false.
  2:{ rewrite Hn. by destruct (algorithmHexLength_Some _ _ Ha) as [[_ ->]|[_ ->]]. }
  change [abs r; "blobs"; Algorithm d; str_take 2 (Hex d); Hex d] with (abs r :: "blobs" :: shard d).
  apply resolve_PathJoin_abs; [done|]. constructor; [done|by apply shard_good].
Qed.

Lemma uploadPath_at l r id : rooted l r -> good_seg id -> resolve (uploadPath l id) = r ++ ["_uploads"; id].
Proof.
  intros (E & Hr & _) Hd. unfold uploadPath. rewrite E. apply resolve_PathJoin_abs; [done|].
  by repeat apply Forall_cons_2.
Qed.

Lemma dir_at l r s : rooted l r -> good_seg s -> resolve (PathJoin [lroot l; s]) = r ++ [s].
Proof. intros (E & Hr & _) Hs. rewrite E. apply resolve_PathJoin_abs; [done|]. by repeat apply Forall_cons_2. Qed.

(** ** The system calls, when nothing is in their way *)

Definition is_file (o : OS) (p : list string) : Prop := exists s t, node_at o p = Some (RegularFile s t).

Lemma mkdirs_total rest : forall o done,
  (forall q, q `prefix_of` done ++ rest -> ~ is_file o q) -> is_ok (mkdirs o done rest) = true.
Proof.
  induction rest as [|s rest IH]; intros o done H; cbn [mkdirs].
  - destruct (node_at o done) as [[]|] eqn:E; [|done|done]. destruct (H done); [by apply prefix_app_r|].
    by eexists _, _.
  - assert (Ha : done ++ s :: rest = (done ++ [s]) ++ rest) by (by rewrite <-app_assoc).
    destruct (node_at o done) as [[]|] eqn:E.
    + destruct (H done); [by apply prefix_app_r|]. by eexists _, _.
    + cbn. apply IH. intros q Hq. apply H. by rewrite Ha.
    + cbn. apply IH. intros q Hq (s' & t & Hf). apply (H q); [by rewrite Ha|].
      destruct (decide (done = [])) as [->|Hne]; [done|]. rewrite node_at_put in Hf by done.
      case_decide; [done|]. by eexists _, _.
Qed.

Lemma MkdirAll_total o p : (forall q, q `prefix_of` p -> ~ is_file o q) -> exists o', MkdirAll o p = Ok o'.
Proof.
  intros H. pose proof (mkdirs_total p o [] H) as E. unfold MkdirAll.
  destruct (mkdirs o [] p); [by eexists|done].
Qed.

Lemma find_missing o p : (forall q, q `prefix_of` p -> ~ is_file o q) -> node_at o p = None -> find o p = Err ENOENT.
Proof.
  intros H Hp. unfold find.
  assert (Hgo : forall rest done, p = done ++ rest -> walk o done rest = Err ENOENT); [|by apply (Hgo p [])].
  induction rest as [|s rest IH]; intros dn E; cbn [walk].
  - rewrite app_nil_r in E. by rewrite <-E, Hp.
  - destruct (node_at o dn) as [[s' t|t]|] eqn:En; [|apply IH; by rewrite <-app_assoc|done].
    destruct (H dn); [rewrite E; by apply prefix_app_r|by eexists _, _].
Qed.

Lemma Remove_file o p s t : os_wf o -> node_at o p = Some (RegularFile s t) ->
  Remove o p = Ok (with_nodes o (delete p (nodes o))).
Proof. intros Hw E. unfold Remove. apply find_spec in E; [|done]. by rewrite E. Qed.

Lemma Remove_nodes o p o' : Remove o p = Ok o' -> o' = with_nodes o (delete p (nodes o)).
Proof.
  unfold Remove. destruct (find o p) as [[]|]; [by intros [= <-]| |done].
  case_bool_decide; [done|]. case_bool_decide; [by intros [= <-]|done].
Qed.

Lemma NoDup_omap {A B} (f : A -> option B) l : NoDup l ->
  (forall x y z, x ∈ l -> y ∈ l -> f x = Some z -> f y = Some z -> x = y) -> NoDup (omap f l).
Proof.
  induction 1 as [|x l Hx _ IH]; intros Hinj; [constructor|]. cbn.
  assert (Hl : NoDup (omap f l)).
  { apply IH. intros a b z Ha Hb. apply Hinj; by right. }
  destruct (f x) as [y|] eqn:Ef; [|done]. constructor; [|done].
  intros (x' & Hx' & E)%list_elem_of_omap. destruct Hx.
  by rewrite (Hinj x x' y (list_elem_of_here _ _) (list_elem_of_further _ _ _ Hx') Ef E).
Qed.

Lemma find_file o p s t : os_wf o -> node_at o p = Some (RegularFile s t) -> find o p = Ok (RegularFile s t).
Proof. intros Hw E. by apply find_spec. Qed.

(** A file over a file or over nothing. *)
Lemma Rename_file o old new s t : os_wf o -> old <> new -> node_at o old = Some (RegularFile s t) ->
  is_dir o (parent new) -> ~ is_dir o new ->
  exists o', Rename o old new = Ok o' /\ os_wf o' /\ clock o' = clock o /\
    node_at o' new = Some (RegularFile s t) /\ node_at o' old = None /\
    forall q, q <> old -> q <> new -> node_at o' q = node_at o q.
Proof.
  intros Hw Hne Eo [td Ed] Hnd.
  assert (Hold0 : old <> []) by (intros ->; done).
  assert (Hnew0 : new <> []) by (intros ->; apply Hnd, is_dir_root).
  assert (Hnp : ~ old `prefix_of` new).
  { intros [k ->]. destruct k as [|x k] using rev_ind; [by rewrite app_nil_r in Hne|].
    rewrite app_assoc, parent_snoc in Ed. destruct (decide (k = [])) as [->|Hk].
    - rewrite app_nil_r in Ed. congruence.
    - destruct (above_dir o old k _ Hw Hk Ed) as [t' Ht']. congruence. }
  assert (M : movable o old new) by (constructor; [done|by exists td|done|done]).
  assert (HR : Rename o old new = Ok (moved o old new)).
  { unfold Rename. rewrite (proj2 (find_spec o old _ Hw) Eo), (proj2 (find_spec o (parent new) _ Hw) Ed).
    rewrite (bool_decide_false (old = new)) by done.
    replace (below old new) with false.
    2:{ symmetry. apply not_true_iff_false. intros [H _]%below_spec. done. }
    destruct (find o new) as [[|t']|] eqn:En; [done| |done].
    destruct Hnd. exists t'. by apply find_spec in En. }
  exists (moved o old new). split; [exact HR|].
  assert (Hbelow : forall x n, nodes o !! (old ++ x) = Some n -> x = []).
  { intros x n H. destruct (decide (x = [])) as [|Hx]; [done|].
    rewrite <-node_at_ne in H by (by destruct old). destruct (above_dir o old x n Hw Hx H) as [t' Ht']. congruence. }
  assert (Hl : forall q m, q <> [] -> node_at (moved o old new) q = Some m <->
     exists p, p <> new /\ nodes o !! p = Some m /\ q = move old new p).
  { intros q m Hq. rewrite node_at_ne by done. by apply moved_lookup. }
  split_and!.
  - by apply moved_wf.
  - done.
  - apply Hl; [done|]. exists old. rewrite node_at_ne in Eo by done. split_and!; [done|done|].
    rewrite <-(app_nil_r old) at 2. by rewrite move_app, app_nil_r.
  - destruct (node_at (moved o old new) old) as [m|] eqn:E; [|done]. apply Hl in E; [|done].
    destruct E as (p & Hp & Hm & E). destruct (decide (old `prefix_of` p)) as [[x ->]|Np].
    + rewrite move_app in E. apply Hbelow in Hm. subst x. by rewrite app_nil_r in E.
    + rewrite move_other in E by done. by destruct Np; rewrite E.
  - intros q Hq Hq'. unfold node_at. case_bool_decide as Hq0; [done|]. apply option_eq. intros m.
    pose proof (Hl q m Hq0) as Hlm. rewrite node_at_ne in Hlm by done. rewrite Hlm. split.
    + intros (p & Hp & Hm & E). destruct (decide (old `prefix_of` p)) as [[x ->]|Np].
      * rewrite move_app in E. apply Hbelow in Hm. subst x. by rewrite app_nil_r in E.
      * rewrite move_other in E by done. by subst.
    + intros Hm. exists q. split_and!; [done|done|]. rewrite move_other; [done|].
      intros [x ->]. apply Hbelow in Hm. subst x. by rewrite app_nil_r in Hq.
Qed.

(** ** The relation to the in-memory store *)

Definition file_of (b : memBlob) : Node := RegularFile (data b) (modTime b).

Definition blob_at (r : list string) (d : Digest) : list string := r ++ "blobs" :: shard d.
Definition upload_at (r : list string) (id : string) : list string := r ++ ["_uploads"; id].

(** A session and its abstraction; the file of an id never used is not there. *)
Definition session_rel (r : list string) (l : LocalBlobStore) (id : string) (x : option localSession)
    (y : option memSession) : Prop :=
  match x, y with
  | None, None => node_at (los l) (upload_at r id) = None
  | Some s, Some ms =>
      good_seg id /\ lsClosed s = closed ms /\ lsPath s = uploadPath l id /\
      (closed ms = false -> handle s = Some (len (buf ms)) /\ lsN s = Z.of_nat (len (buf ms)) /\
         exists t, node_at (los l) (upload_at r id) = Some (RegularFile (buf ms) t))
  | _, _ => False
  end.

Record Rep (r : list string) (l : LocalBlobStore) (m : MemBlobStore) : Prop := {
  rp_root : rooted l r;
  rp_wf : os_wf (los l);
  rp_up : is_dir (los l) (r ++ ["_uploads"]);
  rp_blob d : normal d -> node_at (los l) (blob_at r d) = file_of <$> blobs m !! DigestString d;
  rp_shape q n : node_at (los l) (r ++ "blobs" :: q) = Some n ->
    match n with
    | Directory _ => (length q <= 2)%nat
    | RegularFile _ _ => exists d, normal d /\ q = shard d
    end;
  rp_mem : mem_ok m;
  rp_table : table l = sessions m;
  rp_objs id : session_rel r l id (objs l !! id) (objects m !! id);
}.

(** Distinct places. *)
Lemma blob_not_upload r q q' : r ++ "blobs" :: q <> r ++ "_uploads" :: q'.
Proof. by intros E%app_inv_head. Qed.

Lemma upload_at_inj r id id' : upload_at r id = upload_at r id' -> id = id'.
Proof. intros E%app_inv_head. by injection E. Qed.

Lemma blob_at_inj r d d' : blob_at r d = blob_at r d' -> d = d'.
Proof. intros E%app_inv_head. injection E as E1 E2 E3. apply shard_inj. unfold shard. congruence. Qed.

Lemma upload_parent r id : parent (upload_at r id) = r ++ ["_uploads"].
Proof. unfold upload_at. change ["_uploads"; id] with (["_uploads"] ++ [id]). by rewrite app_assoc, parent_snoc. Qed.

Lemma blob_parent r d : parent (blob_at r d) = r ++ ["blobs"; Algorithm d; str_take 2 (Hex d)].
Proof.
  unfold blob_at, shard.
  change ("blobs" :: [Algorithm d; str_take 2 (Hex d); Hex d])
    with (["blobs"; Algorithm d; str_take 2 (Hex d)] ++ [Hex d]). by rewrite app_assoc, parent_snoc.
Qed.

Lemma at_ne (r : list string) s q : r ++ s :: q <> [].
Proof. by destruct r. Qed.

(** The tables and files of a state that differ from the old one only where the
    uploads are. *)
Lemma Rep_uploads r l m l' m' : Rep r l m -> lroot l' = lroot l -> os_wf (los l') ->
  is_dir (los l') (r ++ ["_uploads"]) -> blobs m' = blobs m ->
  (forall q, node_at (los l') (r ++ "blobs" :: q) = node_at (los l) (r ++ "blobs" :: q)) ->
  mem_ok m' -> table l' = sessions m' ->
  (forall id, session_rel r l' id (objs l' !! id) (objects m' !! id)) -> Rep r l' m'.
Proof.
  intros H Hr Hw Hu Hb Hn Hm Ht Ho. split; try done.
  - unfold rooted. rewrite Hr. apply H.
  - intros d Hd. unfold blob_at. rewrite Hn, Hb. by apply (rp_blob _ _ _ H).
  - intros q n. rewrite Hn. apply (rp_shape _ _ _ H).
Qed.

(** Another session, when only the file of [id] changed. *)
Lemma session_rel_other r l l' id x y : lroot l' = lroot l ->
  node_at (los l') (upload_at r id) = node_at (los l) (upload_at r id) ->
  session_rel r l id x y -> session_rel r l' id x y.
Proof. intros Hr Hn H. unfold session_rel, uploadPath in *. by rewrite Hr, Hn. Qed.

Section ops.
Variables (r : list string) (l : LocalBlobStore) (m : MemBlobStore).
Hypothesis R : Rep r l m.

Lemma rep_paths d : normal d -> resolve (blobPath l d) = blob_at r d.
Proof. apply blobPath_at, R. Qed.

Lemma rep_upload id : good_seg id -> resolve (uploadPath l id) = upload_at r id.
Proof. apply uploadPath_at, R. Qed.

(** On the way to a blob there are only directories. *)
Lemma rep_no_file d q : normal d -> q `prefix_of` blob_at r d -> is_file (los l) q -> q = blob_at r d.
Proof.
  intros Hd Hq (s & t & Hf).
  assert (Hr : is_dir (los l) r).
  { eapply dir_above; [apply R|apply (rp_up _ _ _ R)|by apply prefix_app_r]. }
  destruct (prefix_comparable q r _ Hq) as [H|[k ->]]; [by apply prefix_app_r| |].
  - destruct (dir_above _ _ _ (rp_wf _ _ _ R) Hr H) as [t' Ht']. congruence.
  - apply prefix_app_inv in Hq. destruct k as [|b k].
    { rewrite app_nil_r in Hf. destruct Hr as [t' Ht']. congruence. }
    destruct Hq as [k' Ek]. injection Ek as <- Ek.
    destruct (rp_shape _ _ _ R _ _ Hf) as (d' & _ & ->). unfold blob_at. rewrite Ek.
    apply (f_equal length) in Ek. rewrite length_app in Ek. destruct k'; [by rewrite app_nil_r|cbn in Ek; lia].
Qed.

(** Reading. *)
Lemma rep_Get d : normal d -> localGet l d = memGet m d.
Proof.
  intros Hd. unfold localGet, memGet. rewrite rep_paths by done. pose proof (rp_blob _ _ _ R d Hd) as E.
  destruct (blobs m !! _) as [b|]; cbn in E.
  - by rewrite (find_file _ _ _ _ (rp_wf _ _ _ R) E).
  - rewrite find_missing; [done| |done]. intros q Hq Hf. pose proof (rep_no_file d q Hd Hq Hf) as ->.
    destruct Hf as (s & t & Hf). congruence.
Qed.

Lemma normal_string d d' : normal d -> normal d' -> DigestString d = DigestString d' -> d = d'.
Proof. unfold normal. congruence. Qed.

Lemma rep_root_dir : is_dir (los l) (r ++ ["_uploads"]) /\ (forall q, q `prefix_of` r -> is_dir (los l) q).
Proof.
  split; [apply R|]. intros q Hq. eapply dir_above; [apply R|apply (rp_up _ _ _ R)|].
  etrans; [exact Hq|by apply prefix_app_r].
Qed.

Lemma rep_Delete d : normal d ->
  match localDelete l d, memDelete m d with
  | Ok l', Ok m' => Rep r l' m'
  | Err e, Err e' => e = e'
  | _, _ => False
  end.
Proof.
  intros Hd. pose proof (rep_Get d Hd) as Hg. unfold localGet, memGet in Hg.
  unfold localDelete. rewrite rep_paths in * by done. pose proof (rp_blob _ _ _ R d Hd) as E.
  destruct (memDelete m d) as [m'|e] eqn:Em; pose proof Em as Em'; unfold memDelete in Em';
    destruct (blobs m !! DigestString d) as [b|] eqn:Eb; try done; cbn in E.
  - pose proof (Remove_file _ _ _ _ (rp_wf _ _ _ R) E) as Er. rewrite Er. injection Em' as <-.
    destruct (Remove_spec _ _ _ (rp_wf _ _ _ R) Er) as (Hw & _ & _).
    assert (Hn : forall q, node_at (with_nodes (los l) (delete (blob_at r d) (nodes (los l)))) q =
      if decide (q = blob_at r d) then None else node_at (los l) q) by (intros q; by rewrite node_at_delete by apply at_ne).
    set (o := with_nodes _ _) in *. split; cbn [los with_los blobs with_blobs sessions objects table objs]; try by apply R.
    + done.
    + unfold is_dir. rewrite Hn, decide_False by (intros ?%app_inv_head; done). apply (rp_up _ _ _ R).
    + intros d' Hd'. rewrite Hn. case_decide as Ed.
      * apply blob_at_inj in Ed as ->. by rewrite lookup_delete_eq.
      * rewrite lookup_delete_ne; [by apply (rp_blob _ _ _ R)|]. intros Es. apply Ed. f_equal.
        by apply normal_string.
    + intros q n. rewrite Hn. case_decide; [done|]. apply (rp_shape _ _ _ R).
    + eapply mem_step_ok; [apply (rp_mem _ _ _ R)|by eapply ms_delete].
    + intros id. apply (session_rel_other r l); [done| |apply (rp_objs _ _ _ R)].
      cbn [los with_los]. rewrite Hn, decide_False; [done|]. apply not_eq_sym, blob_not_upload.
  - injection Em' as <-. unfold Remove. destruct (find (los l) (blob_at r d)) as [[]|e']; [done|done|].
    injection Hg as Hg. by destruct e'.
Qed.

(** Ids are looked up in both tables alike. *)
Lemma rep_objs_Some id s : objs l !! id = Some s -> exists ms, objects m !! id = Some ms /\
  good_seg id /\ lsClosed s = closed ms /\ lsPath s = uploadPath l id /\
  (closed ms = false -> handle s = Some (len (buf ms)) /\ lsN s = Z.of_nat (len (buf ms)) /\
     exists t, node_at (los l) (upload_at r id) = Some (RegularFile (buf ms) t)).
Proof.
  intros E. pose proof (rp_objs _ _ _ R id) as H. rewrite E in H. unfold session_rel in H.
  destruct (objects m !! id) as [ms|]; [|done]. by exists ms.
Qed.

Lemma rep_objs_None id : objs l !! id = None -> objects m !! id = None /\ node_at (los l) (upload_at r id) = None.
Proof.
  intros E. pose proof (rp_objs _ _ _ R id) as H. rewrite E in H. unfold session_rel in H. by destruct (objects m !! id).
Qed.

Lemma rep_Resume id : ResumeUpload id l = memResumeUpload id m.
Proof.
  unfold ResumeUpload, memResumeUpload. rewrite (rp_table _ _ _ R). case_bool_decide; [|done].
  destruct (objs l !! id) as [s|] eqn:E.
  - destruct (rep_objs_Some id s E) as (ms & -> & _ & -> & _). done.
  - by destruct (rep_objs_None id E) as [-> _].
Qed.

(** A state that replaces the session [id] and its file. *)
Lemma Rep_session id s ms l' m' : lroot l' = lroot l -> blobs m' = blobs m -> mem_ok m' -> table l' = sessions m' ->
  os_wf (los l') -> (forall q, q <> upload_at r id -> node_at (los l') q = node_at (los l) q) ->
  objs l' = <[ id := s ]> (objs l) -> objects m' = <[ id := ms ]> (objects m) ->
  session_rel r l' id (Some s) (Some ms) -> Rep r l' m'.
Proof.
  intros Hr Hb Hm Ht Hw Hn Eo Em Hs. apply (Rep_uploads r l m l' m' R Hr Hw); try done.
  - unfold is_dir. rewrite Hn; [apply (rp_up _ _ _ R)|]. intros ?%app_inv_head. done.
  - intros q. apply Hn, blob_not_upload.
  - intros id'. rewrite Eo, Em. destruct (decide (id' = id)) as [->|Hne]; [by rewrite !lookup_insert_eq|].
    rewrite !lookup_insert_ne by done. apply (session_rel_other r l); [done| |apply (rp_objs _ _ _ R)].
    apply Hn. intros E%upload_at_inj. done.
Qed.

Lemma rep_Start id : good_seg id -> objects m !! id = None ->
  exists l', StartUpload id l = Ok l' /\ Rep r l' (memStartUpload id m).
Proof.
  intros Hid Hfresh.
  assert (Eo : objs l !! id = None).
  { destruct (objs l !! id) as [s|] eqn:E; [|done]. destruct (rep_objs_Some id s E) as (ms & Hms & _). congruence. }
  destruct (rep_objs_None id Eo) as [_ Hnone].
  unfold StartUpload. rewrite rep_upload by done. unfold create_excl. rewrite Hnone. unfold Create.
  rewrite upload_parent. destruct (rp_up _ _ _ R) as [t Ht]. rewrite (proj2 (find_spec _ _ _ (rp_wf _ _ _ R)) Ht), Hnone.
  eexists. split; [done|].
  assert (Hn : forall q, node_at (put (los l) (upload_at r id) (RegularFile "" (clock (los l)))) q =
    if decide (q = upload_at r id) then Some (RegularFile "" (clock (los l))) else node_at (los l) q)
    by (intros q; by rewrite node_at_put by apply at_ne).
  apply (Rep_session id {| lsPath := uploadPath l id; handle := Some O; lsN := 0; lsClosed := false |}
    {| buf := ""; closed := false |}); cbn [lroot los table objs memStartUpload blobs sessions objects]; try done.
  - eapply mem_step_ok; [apply (rp_mem _ _ _ R)|apply ms_start].
  - by rewrite (rp_table _ _ _ R).
  - apply put_wf; [apply R|apply at_ne|rewrite upload_parent; by exists t|]. intros [t' Ht']. congruence.
  - intros q Hq. by rewrite Hn, decide_False.
  - unfold session_rel. cbn [closed lsClosed lsPath handle lsN buf los]. split_and!; [apply Hid..|done|done|].
    intros _. split_and!; [done|done|]. rewrite Hn, decide_True by done. by eexists.
Qed.

Lemma write_at_end s p : write_at s (len s) p = s +:+ p.
Proof.
  unfold write_at. case_if as E; [by rewrite E, app_empty_r|]. rewrite Nat.sub_diag.
  change (zeros 0) with "". rewrite app_empty_r, str_take_len.
  replace (str_drop (len s + len p) s) with ""; [by rewrite app_empty_r|].
  clear E. induction s as [|c s IH]; [by destruct p|exact IH].
Qed.

(** Writing the file of an open session. *)
Lemma write_file_at id pos p b t : good_seg id -> node_at (los l) (upload_at r id) = Some (RegularFile b t) ->
  let o := write_file (los l) (uploadPath l id) pos p in
  os_wf o /\ (exists t', node_at o (upload_at r id) = Some (RegularFile (write_at b pos p) t')) /\
  forall q, q <> upload_at r id -> node_at o q = node_at (los l) q.
Proof.
  intros Hid Hf. cbv zeta. unfold write_file, write_at.
  destruct (String.eqb p "") eqn:Ep; [split_and!; [apply R|by exists t|done]|].
  unfold file_data. rewrite rep_upload, Hf by done. unfold write_data. split_and!.
  - apply put_wf; [apply R|apply at_ne|rewrite upload_parent; apply (rp_up _ _ _ R)|].
    intros [t' Ht']. congruence.
  - rewrite node_at_put by apply at_ne. rewrite decide_True by done. by eexists.
  - intros q Hq. rewrite node_at_put by apply at_ne. by rewrite decide_False.
Qed.

Lemma rep_Write id p :
  match sWrite id p l, sessionWrite id p m with
  | Ok l', Ok m' => Rep r l' m'
  | Err e, Err e' => e = e'
  | _, _ => False
  end.
Proof.
  unfold sWrite. destruct (objs l !! id) as [s|] eqn:Eo.
  2:{ unfold sessionWrite. by destruct (rep_objs_None id Eo) as [-> _]. }
  destruct (rep_objs_Some id s Eo) as (ms & Em & Hid & Hc & Hp & Hopen).
  destruct (sessionWrite id p m) as [m'|e] eqn:Ew; pose proof Ew as Ew'; unfold sessionWrite in Ew'; rewrite Em in Ew';
    rewrite Hc; destruct (closed ms) eqn:Ec; try done.
  2:{ by injection Ew' as <-. }
  destruct (Hopen eq_refl) as (-> & Hn & t & Hf). injection Ew' as <-. rewrite Hp, Hn.
  destruct (write_file_at id (len (buf ms)) p _ _ Hid Hf) as (Hw & [t' Ht'] & Hother).
  rewrite write_at_end in Ht'.
  apply (Rep_session id {| lsPath := uploadPath l id; handle := Some (len (buf ms) + len p)%nat;
      lsN := Z.of_nat (len (buf ms)) + Z.of_nat (len p); lsClosed := false |}
    {| buf := buf ms +:+ p; closed := false |}); try done.
  - eapply mem_step_ok; [apply (rp_mem _ _ _ R)|by eapply ms_write].
  - apply (rp_table _ _ _ R).
  - unfold session_rel. cbn [closed lsClosed lsPath handle lsN buf los with_obj with_los].
    split_and!; [apply Hid..|done|done|]. intros _. rewrite len_app. split_and!; [done|lia|by exists t'].
Qed.

Lemma rep_Offset id : (forall s, objs l !! id = Some s -> lsClosed s = false) -> sOffset id l = sessionOffset id m.
Proof.
  intros Hop. unfold sOffset, sessionOffset. destruct (objs l !! id) as [s|] eqn:Eo.
  - destruct (rep_objs_Some id s Eo) as (ms & -> & _ & Hc & _ & Hopen). rewrite (Hop s eq_refl) in Hc.
    by destruct (Hopen (eq_sym Hc)) as (_ & -> & _).
  - by destruct (rep_objs_None id Eo) as [-> _].
Qed.

Lemma rep_Cancel id : Rep r (sCancel id l) (sessionCancel id m).
Proof.
  unfold sCancel. destruct (objs l !! id) as [s|] eqn:Eo.
  2:{ unfold sessionCancel. destruct (rep_objs_None id Eo) as [-> _]. done. }
  destruct (rep_objs_Some id s Eo) as (ms & Em & Hid & Hc & Hp & Hopen).
  pose proof (ms_cancel m id) as Hstep. unfold sessionCancel in *. rewrite Em in *. rewrite Hc.
  destruct (closed ms) eqn:Ec; [done|]. destruct (Hopen eq_refl) as (_ & _ & t & Hf).
  unfold forceClose. rewrite Hp, rep_upload by done.
  pose proof (Remove_file _ _ _ _ (rp_wf _ _ _ R) Hf) as Er. rewrite Er.
  destruct (Remove_spec _ _ _ (rp_wf _ _ _ R) Er) as (Hw & _ & _).
  apply (Rep_session id (closed_session s) {| buf := ""; closed := true |});
    cbn [drop_entry with_obj with_los lroot los table objs blobs sessions objects]; try done.
  - by eapply mem_step_ok; [apply (rp_mem _ _ _ R)|].
  - by rewrite (rp_table _ _ _ R).
  - intros q Hq. rewrite node_at_delete by apply at_ne. by rewrite decide_False.
Qed.

(** The directories of a digest are made without touching what is there. *)
Lemma rep_mkdir d : normal d -> exists o, MkdirAll (los l) (parent (blob_at r d)) = Ok o /\ os_wf o /\
  is_dir o (parent (blob_at r d)) /\
  forall q, node_at o q = node_at (los l) q \/
    (node_at (los l) q = None /\ is_dir o q /\ q `prefix_of` parent (blob_at r d)).
Proof.
  intros Hd. destruct (MkdirAll_total (los l) (parent (blob_at r d))) as [o Ho].
  - intros q Hq Hf. assert (Hq' : q `prefix_of` blob_at r d) by (etrans; [exact Hq|apply parent_prefix]).
    pose proof (rep_no_file d q Hd Hq' Hf) as ->. apply prefix_length in Hq. rewrite blob_parent in Hq.
    unfold blob_at, shard in Hq. rewrite !length_app in Hq. cbn in Hq. lia.
  - exists o. destruct (MkdirAll_spec _ _ _ (rp_wf _ _ _ R) Ho) as (H1 & H2 & H3). split_and!; try done.
Qed.

(** What is published: the temporary file's node moves to the blob's place. *)
Lemma rep_publish id d b t o : normal d -> good_seg id ->
  node_at (los l) (upload_at r id) = Some (RegularFile b t) ->
  MkdirAll (los l) (parent (blob_at r d)) = Ok o ->
  exists o', publish o (uploadPath l id) (blobPath l d) = Some o' /\ os_wf o' /\
    node_at o' (blob_at r d) = Some (RegularFile b t) /\ node_at o' (upload_at r id) = None /\
    forall q, q <> upload_at r id -> q <> blob_at r d -> node_at o' q = node_at (los l) q \/
      (node_at (los l) q = None /\ is_dir o' q /\ q `prefix_of` parent (blob_at r d)).
Proof.
  intros Hd Hid Hf Ho. destruct (rep_mkdir d Hd) as (o1 & E & Hw & Hdir & Hn). rewrite Ho in E. injection E as <-.
  assert (Hup : node_at o (upload_at r id) = Some (RegularFile b t)) by (destruct (Hn (upload_at r id)) as [->|(? & _)]; congruence).
  assert (Hnd : ~ is_dir o (blob_at r d)).
  { intros [t' Ht']. destruct (Hn (blob_at r d)) as [E|(_ & _ & Hpre)].
    - rewrite E in Ht'. apply (rp_shape _ _ _ R) in Ht'. cbn in Ht'. lia.
    - apply prefix_length in Hpre. rewrite blob_parent in Hpre. unfold blob_at, shard in Hpre.
      rewrite !length_app in Hpre. cbn in Hpre. lia. }
  destruct (Rename_file o (upload_at r id) (blob_at r d) b t Hw) as (o' & Hr & Hw' & _ & H1 & H2 & H3);
    [by apply not_eq_sym, blob_not_upload|done|done|done|].
  exists o'. unfold publish. rewrite rep_upload, rep_paths, Hr by done. split_and!; try done.
  intros q Hq Hq'. pose proof (H3 q Hq Hq') as Hqo. unfold is_dir. rewrite Hqo. apply Hn.
Qed.

(** The time at which the data of an upload were last written. *)
Definition stamp (id : string) : Z :=
  match objs l !! id with
  | Some s => match node_at (los l) (resolve (lsPath s)) with Some (RegularFile _ t) => t | _ => 0 end
  | None => 0
  end.

Lemma rep_Commit id d : IsZero d = true \/ normal d ->
  let '(a, l') := sCommit id d l in let '(a', m') := sessionCommit id d (stamp id) m in
  a = a' /\ Rep r l' m'.
Proof.
  intros Hd. unfold sCommit. destruct (objs l !! id) as [s|] eqn:Eo.
  2:{ unfold sessionCommit. by destruct (rep_objs_None id Eo) as [-> _]. }
  destruct (rep_objs_Some id s Eo) as (ms & Em & Hid & Hc & Hp & Hopen).
  pose proof (ms_commit m id d (stamp id)) as Hstep. unfold sessionCommit in *. rewrite Em in *. rewrite Hc.
  destruct (closed ms) eqn:Ec; [done|]. destruct (Hopen eq_refl) as (Hh & Hn & t & Hf).
  assert (Est : stamp id = t) by (unfold stamp; by rewrite Eo, Hp, rep_upload, Hf).
  assert (Hfd : file_data (los l) (lsPath s) = Some (buf ms)) by (unfold file_data; by rewrite Hp, rep_upload, Hf).
  cbv zeta. rewrite Hh, Hfd. set (alg := if String.eqb (Algorithm d) "" then "sha256" else Algorithm d) in *.
  assert (Hh' : exists h, NewHasher alg = Some h).
  { destruct Hd as [Hz|Hnorm].
    - exists Sum256. unfold alg. apply andb_true_iff in Hz as [-> _]. done.
    - destruct (parsed_hasher d _ Hnorm) as (_ & Ha & Hh'). unfold alg. by apply String.eqb_neq in Ha as ->. }
  destruct Hh' as [h Hh']. rewrite Hh' in *. set (got := DigestFromHash alg (h (buf ms))) in *.
  destruct (negb (IsZero d) && negb (Equal d got)) eqn:Ecmp.
  - split; [done|]. rewrite Hn, Nat2Z.id.
    apply (Rep_session id (at_pos s (Some (len (buf ms)))) ms); try done; try apply R.
    + by rewrite (insert_id (objects m)).
    + unfold session_rel. cbn [at_pos lsClosed lsPath handle lsN with_obj los]. rewrite Ec.
      split_and!; [apply Hid..|done|done|]. intros _. split_and!; [done|done|by exists t].
  - assert (Hgot : normal got) by (by apply DigestFromHash_parses).
    destruct (rep_mkdir got Hgot) as (o & Ho & _). cbn [with_obj los].
    change (blobPath (with_obj l id (at_pos s None)) got) with (blobPath l got).
    rewrite rep_paths, Ho, Hp by done.
    destruct (rep_publish id got _ _ _ Hgot Hid Hf Ho) as (o' & Hpub & Hw & Hb & Hu & Hother). rewrite Hpub.
    split; [done|]. rewrite Est in *.
    split; cbn [lroot los table objs drop_entry with_obj with_los blobs sessions objects]; try done.
    + apply R.
    + unfold is_dir. destruct (rp_up _ _ _ R) as [tu Htu].
      destruct (Hother (r ++ ["_uploads"])) as [->|(HN & _)]; [by intros ?%app_inv_head|by intros ?%app_inv_head| |congruence].
      by exists tu.
    + intros d' Hd'. destruct (decide (d' = got)) as [->|Hne].
      { by rewrite lookup_insert_eq, Hb. }
      rewrite lookup_insert_ne by (intros E; apply Hne; symmetry; by apply normal_string).
      rewrite <-(rp_blob _ _ _ R) by done.
      destruct (Hother (blob_at r d')) as [->|(_ & _ & Hpre)]; [apply blob_not_upload| |done|].
      { by intros E%blob_at_inj. }
      apply prefix_length in Hpre. rewrite blob_parent in Hpre. unfold blob_at, shard in Hpre.
      rewrite !length_app in Hpre. cbn in Hpre. lia.
    + intros q n Hq. destruct (decide (q = shard got)) as [->|Hne].
      { fold (blob_at r got) in Hq. rewrite Hb in Hq. injection Hq as <-. by exists got. }
      destruct (Hother (r ++ "blobs" :: q)) as [E|(_ & [td Htd] & Hpre)]; [apply blob_not_upload| | |].
      { intros E%app_inv_head. by injection E. }
      { rewrite E in Hq. by apply (rp_shape _ _ _ R) in Hq. }
      rewrite Htd in Hq. injection Hq as <-. apply prefix_length in Hpre. rewrite blob_parent in Hpre.
      rewrite !length_app in Hpre. cbn in Hpre. lia.
    + eapply mem_step_ok; [apply (rp_mem _ _ _ R)|exact Hstep].
    + by rewrite (rp_table _ _ _ R).
    + intros id'. destruct (decide (id' = id)) as [->|Hne]; [by rewrite !lookup_insert_eq|].
      rewrite !lookup_insert_ne by done. apply (session_rel_other r l); [done| |apply (rp_objs _ _ _ R)].
      cbn [los]. destruct (Hother (upload_at r id')) as [E|(_ & _ & Hpre)]; [by intros E%upload_at_inj| |done|].
      { apply not_eq_sym, blob_not_upload. }
      rewrite blob_parent in Hpre. unfold upload_at in Hpre. apply prefix_app_inv in Hpre as [k Hk]. done.
Qed.

(** Listing. *)
Lemma rep_List d info : (d, info) ∈ localListBlobs l <->
  normal d /\ exists b, blobs m !! DigestString d = Some b /\ info = info_of b.
Proof.
  unfold localListBlobs. rewrite (dir_at l r "blobs") by (apply R || done).
  rewrite list_elem_of_omap. split.
  - intros ([q n] & Hq & Hl). cbn [fst snd] in Hl. unfold WalkDir in Hq. rewrite SliceStable_perm in Hq.
    apply list_elem_of_omap in Hq as ([p n'] & Hp%elem_of_map_to_list & Hb). cbn [fst snd] in Hb.
    destruct (below (r ++ ["blobs"]) p) eqn:Eb; [|done]. apply below_spec in Eb as [[k ->] Hne].
    destruct n' as [s t|t]; [|done]. rewrite drop_app_length in Hb. injection Hb as <- <-.
    rewrite <-app_assoc in Hp. cbn [app] in Hp. rewrite <-node_at_ne in Hp by apply at_ne.
    destruct (rp_shape _ _ _ R _ _ Hp) as (d' & Hd' & ->).
    pose proof (rp_blob _ _ _ R d' Hd') as E. unfold blob_at in E. rewrite Hp in E.
    destruct (blobs m !! DigestString d') as [b|] eqn:Eb; [|done]. injection E as -> ->.
    destruct (normal_inv d' Hd') as (n & Ha & Hn & _). unfold shard, listed in Hl.
    rewrite Ha, Hn, Nat.eqb_refl in Hl. destruct d' as [alg hx]. injection Hl as <- <-.
    split; [done|]. by exists b.
  - intros (Hd & b & Hb & ->). exists (shard d, file_of b). split.
    + unfold WalkDir. rewrite SliceStable_perm. apply list_elem_of_omap. exists (blob_at r d, file_of b).
      rewrite elem_of_map_to_list. split.
      * rewrite <-node_at_ne by apply at_ne. by rewrite (rp_blob _ _ _ R), Hb.
      * cbn [fst snd file_of]. unfold blob_at. change ("blobs" :: shard d) with (["blobs"] ++ shard d). rewrite app_assoc.
        replace (below _ _) with true; [by rewrite drop_app_length|]. symmetry. apply below_spec.
        split; [by apply prefix_app_r|]. intros E. apply (f_equal length) in E. rewrite !length_app in E.
        unfold shard in E. cbn in E. lia.
    + cbn [fst snd]. destruct (normal_inv d Hd) as (n & Ha & Hn & _). unfold shard, listed.
      rewrite Ha, Hn, Nat.eqb_refl. by destruct d.
Qed.

Lemma rep_List_NoDup : NoDup (localListBlobs l).*1.
Proof.
  apply NoDup_fmap_2_strong.
  { intros [d i] [d' i'] Hx Hy E. cbn in E. subst d'.
    apply rep_List in Hx as (_ & b & Hb & ->), Hy as (_ & b' & Hb' & ->). congruence. }
  apply NoDup_omap.
  - unfold WalkDir. rewrite SliceStable_perm. apply NoDup_omap; [apply NoDup_map_to_list|].
    intros [p n] [p' n'] z _ _. cbn [fst snd].
    destruct (below _ p) eqn:Eb, (below _ p') eqn:Eb'; try (by destruct n, n'); try done.
    apply below_spec in Eb as [[k ->] _], Eb' as [[k' ->] _]. rewrite !drop_app_length.
    destruct n, n'; congruence.
  - intros [q n] [q' n'] [d i] Hq Hq' H1 H2. cbn [fst snd] in *.
    rewrite (dir_at l r "blobs") in Hq, Hq' by (apply R || done).
    assert (Hgo : forall q n, (q, n) ∈ WalkDir (los l) (r ++ ["blobs"]) -> listed (los l) q n = Some (d, i) ->
      q = shard d /\ node_at (los l) (blob_at r d) = Some n).
    { clear q n q' n' Hq Hq' H1 H2. intros q n Hq Hl. unfold WalkDir in Hq. rewrite SliceStable_perm in Hq.
      apply list_elem_of_omap in Hq as ([p n'] & Hp%elem_of_map_to_list & Hb). cbn [fst snd] in Hb.
      destruct (below (r ++ ["blobs"]) p) eqn:Eb; [|done]. apply below_spec in Eb as [[k ->] Hne].
      destruct n' as [s t|t]; [|done]. rewrite drop_app_length in Hb. injection Hb as <- <-.
      rewrite <-app_assoc in Hp. cbn [app] in Hp. rewrite <-node_at_ne in Hp by apply at_ne.
      destruct (rp_shape _ _ _ R _ _ Hp) as (d' & Hd' & ->). unfold shard, listed in Hl.
      destruct (algorithmHexLength _); [|done]. destruct (_ =? _)%nat; [|done]. destruct d' as [alg hx].
      injection Hl as <- _. by split. }
    destruct (Hgo q n Hq H1) as [-> E1], (Hgo q' n' Hq' H2) as [-> E2]. congruence.
Qed.

(** Pruning. *)
Lemma prune_dry age : (localPrune l age true).2 = l.
Proof.
  clear R. unfold localPrune. destruct (find _ _) as [[]|[]]; try done.
  destruct (foldl _ _ _) as [[[removed bytes] err] o] eqn:E. cbn [snd].
  assert (H : forall entries acc, (foldl (prune_entry (clock (los l) - age) true (table l)
    (resolve (PathJoin [lroot l; "_uploads"]))) acc entries).2 = acc.2).
  { induction entries as [|kv entries IH]; intros acc; [done|]. cbn [foldl]. rewrite IH.
    destruct acc as [[[]]]. unfold prune_entry. by case_match. }
  specialize (H (SliceStable (fun a b : string * Node => str_ltb a.1 b.1)
    (children (los l) (resolve (PathJoin [lroot l; "_uploads"])))) (O, 0, None, los l)).
  rewrite E in H. cbn [snd] in H. rewrite H. by destruct l.
Qed.

Lemma prune_entries dir threshold dry entries : dir = r ++ ["_uploads"] -> forall acc,
  os_wf acc.2 -> let o' := (foldl (prune_entry threshold dry (table l) dir) acc entries).2 in
  os_wf o' /\ forall q, node_at o' q = node_at acc.2 q \/
    (node_at o' q = None /\ exists id, q = upload_at r id /\ id ∉ table l).
Proof.
  intros ->. induction entries as [|[x n] entries IH]; intros acc Hw; cbv zeta; [by split; [|left]|].
  cbn [foldl].
  assert (Hstep : let o1 := (prune_entry threshold dry (table l) (r ++ ["_uploads"]) acc (x, n)).2 in
    os_wf o1 /\ forall q, node_at o1 q = node_at acc.2 q \/ (node_at o1 q = None /\ exists id, q = upload_at r id /\ id ∉ table l)).
  { destruct acc as [[[removed bytes] err] o]. cbn [prune_entry fst snd] in *.
    destruct (_ || _ || _) eqn:Ec; [by split; [|left]|]. bool_prop. destruct dry; [by split; [|left]|].
    destruct (Remove o _) as [o'|] eqn:Er; [|by split; [|left]].
    destruct (Remove_spec _ _ _ Hw Er) as (Hw' & _ & _). split; [done|].
    pose proof (Remove_nodes _ _ _ Er) as ->. cbn [snd]. intros q. rewrite node_at_delete by apply at_ne.
    case_decide as Eq; [|by left]. right. split; [done|]. exists x. rewrite <-app_assoc in Eq. done. }
  cbv zeta in Hstep. destruct Hstep as [H1 H2]. destruct (IH _ H1) as [H3 H4].
  split; [done|]. intros q. destruct (H4 q) as [->|Hq]; [apply H2|by right].
Qed.

Lemma rep_Prune age dry : Rep r (localPrune l age dry).2 m.
Proof.
  unfold localPrune. rewrite (dir_at l r "_uploads") by (apply R || done).
  destruct (find (los l) (r ++ ["_uploads"])) as [[]|[]]; try done.
  destruct (foldl _ _ _) as [[[removed bytes] err] o] eqn:E. cbn [snd].
  pose proof (prune_entries (r ++ ["_uploads"]) (clock (los l) - age) dry
    (SliceStable (fun a b : string * Node => str_ltb a.1 b.1) (children (los l) (r ++ ["_uploads"]))) eq_refl
    (O, 0, None, los l) (rp_wf _ _ _ R)) as Hp. cbv zeta in Hp. rewrite E in Hp. cbn [snd] in Hp.
  destruct Hp as [Hw Hn].
  apply (Rep_uploads r l m (with_los l o) m R); try done.
  - unfold is_dir. destruct (rp_up _ _ _ R) as [t Ht]. exists t. cbn [los with_los].
    destruct (Hn (r ++ ["_uploads"])) as [->|(_ & id & Eq & _)]; [done|]. by apply app_inv_head in Eq.
  - intros q. cbn [los with_los]. destruct (Hn (r ++ "blobs" :: q)) as [->|(_ & id & Eq & _)]; [done|].
    by apply blob_not_upload in Eq.
  - apply R.
  - apply (rp_table _ _ _ R).
  - intros id. pose proof (rp_objs _ _ _ R id) as Ho. cbn [objs with_los].
    destruct (Hn (upload_at r id)) as [Eq|(Eq & id' & Ei & Ht)]; [by apply (session_rel_other r l)|].
    apply upload_at_inj in Ei as <-. unfold session_rel in *. cbn [los with_los].
    destruct (objs l !! id) as [s|], (objects m !! id) as [ms|] eqn:Em; try done.
    destruct Ho as (Hid & Hc & Hpth & Ho). split_and!; try done; try apply Hid. intros Hcl. destruct Ht.
    rewrite (rp_table _ _ _ R). apply (ok_sessions m (rp_mem _ _ _ R)). by exists ms.
Qed.
End ops.

(** ** The contract of the container registry *)

#[export] Program Instance LocalBlobStore_laws : BlobStoreLaws LocalBlobStore := {
  admissible l := exists r m, Rep r l m;
}.
Next Obligation. intros l d info (r & m & R) H. by apply (rep_List r l m R) in H as [? _]. Qed.
Next Obligation.
  cbn. intros l d info (r & m & R) H. apply (rep_List r l m R) in H as (Hd & b & Hb & ->).
  rewrite (rep_Get r l m R) by done. unfold memGet. rewrite Hb. by eexists.
Qed.
Next Obligation.
  cbn. intros l d x info (r & m & R) Hd. rewrite (rep_Get r l m R) by done. unfold memGet.
  destruct (blobs m !! _) as [b|] eqn:E; [|done]. intros [= <- <-]. apply (rep_List r l m R). eauto.
Qed.
Next Obligation. intros l (r & m & R). by apply (rep_List_NoDup r l m R). Qed.
Next Obligation.
  cbn. intros l d l' (r & m & R) Hd H. pose proof (rep_Delete r l m R d Hd) as Hs. rewrite H in Hs.
  destruct (memDelete m d) as [m'|]; [|done]. by exists r, m'.
Qed.
Next Obligation.
  cbn. intros l d l' (r & m & R) Hd H. pose proof (rep_Delete r l m R d Hd) as Hs. rewrite H in Hs.
  destruct (memDelete m d) as [m'|] eqn:E; [|done]. rewrite (rep_Get r l' m' Hs) by done.
  exact (Delete_gone (B := MemBlobStore) m d m' (rp_mem _ _ _ R) Hd E).
Qed.
Next Obligation.
  cbn. intros l d l' d' (r & m & R) Hd Hd' H Hne. pose proof (rep_Delete r l m R d Hd) as Hs. rewrite H in Hs.
  destruct (memDelete m d) as [m'|] eqn:E; [|done]. rewrite (rep_Get r l' m' Hs), (rep_Get r l m R) by done.
  exact (Delete_other (B := MemBlobStore) m d m' d' (rp_mem _ _ _ R) Hd Hd' E Hne).
Qed.
Next Obligation.
  cbn. intros prune l age dry [= <-] (r & m & R). exists r, m. by apply rep_Prune.
Qed.
Next Obligation.
  cbn. intros prune l age dry d [= <-] (r & m & R) Hd. pose proof (rep_Prune r l m R age dry) as R'.
  by rewrite (rep_Get r _ m R'), (rep_Get r l m R).
Qed.
Next Obligation.
  cbn. intros prune l age [= <-]. apply prune_dry.
Qed.

(** ** Runs *)

Inductive BlobOp :=
| OpGet (d : Digest) | OpDelete (d : Digest) | OpStart (id : string) | OpResume (id : string)
| OpWrite (id p : string) | OpCommit (id : string) (d : Digest) | OpCancel (id : string)
| OpPrune (age : Z) (dry : bool) | OpTick (t : Z) | OpRestart.

Inductive Answer :=
| ABlob (r : result BlobError (string * BlobInfo)) | ADone (r : result BlobError unit)
| AId (r : result BlobError string) | ADigest (r : result BlobError Digest) | ASilent.

(** Deletions and commits name digests in normal form, or let the store choose. *)
Definition op_ok (op : BlobOp) : Prop :=
  match op with
  | OpGet d | OpDelete d => normal d
  | OpCommit _ d => IsZero d = true \/ normal d
  | OpStart id => good_seg id
  | _ => True
  end.

Definition done_with {S} (s : S) (x : result BlobError S) : Answer * S :=
  match x with Ok s' => (ADone (Ok tt), s') | Err e => (ADone (Err e), s) end.

Definition set_clock (l : LocalBlobStore) (t : Z) : LocalBlobStore :=
  with_los l {| nodes := nodes (los l); clock := t; dirSize := dirSize (los l) |}.

Definition local_apply (op : BlobOp) (l : LocalBlobStore) : Answer * LocalBlobStore :=
  match op with
  | OpGet d => (ABlob (localGet l d), l)
  | OpDelete d => done_with l (localDelete l d)
  | OpStart id => done_with l (StartUpload id l)
  | OpResume id => (AId (ResumeUpload id l), l)
  | OpWrite id p => done_with l (sWrite id p l)
  | OpCommit id d => let '(a, l) := sCommit id d l in (ADigest a, l)
  | OpCancel id => (ASilent, sCancel id l)
  | OpPrune age dry => (ASilent, (localPrune l age dry).2)
  | OpTick t => (ASilent, set_clock l t)
  | OpRestart => (ASilent, restart l)
  end.

(** The in-memory store forgets its sessions at a restart, and a commit is dated
    [t]. *)
Definition memRestart (m : MemBlobStore) : MemBlobStore :=
  {| blobs := blobs m; sessions := ∅;
     objects := (fun s => {| buf := buf s; closed := true |}) <$> objects m |}.

Definition mem_apply (t : Z) (op : BlobOp) (m : MemBlobStore) : Answer * MemBlobStore :=
  match op with
  | OpGet d => (ABlob (memGet m d), m)
  | OpDelete d => done_with m (memDelete m d)
  | OpStart id => (ADone (Ok tt), memStartUpload id m)
  | OpResume id => (AId (memResumeUpload id m), m)
  | OpWrite id p => done_with m (sessionWrite id p m)
  | OpCommit id d => let '(a, m) := sessionCommit id d t m in (ADigest a, m)
  | OpCancel id => (ASilent, sessionCancel id m)
  | OpPrune _ _ | OpTick _ => (ASilent, m)
  | OpRestart => (ASilent, memRestart m)
  end.

(** The date a commit gets from the directory: that of the last write. *)
Definition commit_time (op : BlobOp) (l : LocalBlobStore) : Z :=
  match op with OpCommit id _ => stamp l id | _ => 0 end.

Fixpoint local_run (ops : list BlobOp) (l : LocalBlobStore) : list Answer * LocalBlobStore :=
  match ops with
  | [] => ([], l)
  | op :: ops => let '(a, l) := local_apply op l in let '(r, l) := local_run ops l in (a :: r, l)
  end.

(** The same operations on both, the in-memory store with the dates of the other. *)
Fixpoint mem_run (ops : list BlobOp) (l : LocalBlobStore) (m : MemBlobStore) : list Answer * MemBlobStore :=
  match ops with
  | [] => ([], m)
  | op :: ops => let '(a, m) := mem_apply (commit_time op l) op m in
                 let '(r, m) := mem_run ops (local_apply op l).2 m in (a :: r, m)
  end.

Definition started (ops : list BlobOp) : list string :=
  omap (fun op => match op with OpStart id => Some id | _ => None end) ops.

Lemma rep_Restart r l m : Rep r l m -> Rep r (restart l) (memRestart m).
Proof.
  intros R. apply (Rep_uploads r l m); try done; try apply R.
  - split; cbn [memRestart blobs sessions objects]; [apply R|]. intros id. split; [set_solver|].
    intros (s & Hs & Hc). rewrite lookup_fmap in Hs. destruct (objects m !! id); [|done].
    cbn in Hs. injection Hs as <-. done.
  - intros id. pose proof (rp_objs _ _ _ R id) as H. cbn [objs restart memRestart objects].
    rewrite !lookup_fmap. unfold session_rel in *.
    destruct (objs l !! id) as [s|], (objects m !! id) as [ms|]; cbn; try done.
    destruct H as (Hid & _ & Hp & _). split_and!; [apply Hid..|done|done|done].
Qed.

Lemma rep_clock r l m t : Rep r l m -> Rep r (set_clock l t) m.
Proof.
  intros R. apply (Rep_uploads r l m); try done; try apply R.
Qed.

Lemma rep_step r l m op : Rep r l m -> op_ok op ->
  (forall id, op = OpStart id -> objects m !! id = None) ->
  (local_apply op l).1 = (mem_apply (commit_time op l) op m).1 /\
  Rep r (local_apply op l).2 (mem_apply (commit_time op l) op m).2.
Proof.
  intros R Hop Hf. destruct op as [d|d|id|id|id p|id d|id|age dry|t|]; cbn [local_apply mem_apply commit_time op_ok] in *.
  - split; [|done]. cbn [fst]. by rewrite (rep_Get r l m R).
  - pose proof (rep_Delete r l m R d Hop) as H. destruct (localDelete l d), (memDelete m d); try done.
    cbn [done_with fst snd]. by subst.
  - destruct (rep_Start r l m R id Hop (Hf id eq_refl)) as (l' & -> & R'). done.
  - split; [|done]. cbn [fst]. by rewrite (rep_Resume r l m R).
  - pose proof (rep_Write r l m R id p) as H. destruct (sWrite id p l), (sessionWrite id p m); try done.
    cbn [done_with fst snd]. by subst.
  - pose proof (rep_Commit r l m R id d Hop) as H. destruct (sCommit id d l) as [a l'].
    destruct (sessionCommit id d (stamp l id) m) as [a' m']. destruct H as [-> R']. done.
  - split; [done|by apply rep_Cancel].
  - split; [done|by apply rep_Prune].
  - split; [done|by apply rep_clock].
  - split; [done|by apply rep_Restart].
Qed.

(** Ids that were never used stay so until they are started. *)
Lemma mem_apply_objects t op m id : objects m !! id = None -> op <> OpStart id ->
  objects (mem_apply t op m).2 !! id = None.
Proof.
  intros H Hne. destruct op as [d|d|id'|id'|id' p|id' d|id'|age dry|t'|]; cbn [mem_apply snd]; try done.
  - unfold memDelete. by destruct (blobs m !! _).
  - cbn. rewrite lookup_insert_ne; congruence.
  - unfold sessionWrite. destruct (objects m !! id') as [s|] eqn:E; [|done]. destruct (closed s); [done|].
    cbn. rewrite lookup_insert_ne; congruence.
  - unfold sessionCommit. destruct (objects m !! id') as [s|] eqn:E; [|done]. destruct (closed s); [done|].
    cbv zeta. destruct (NewHasher _); [|done]. destruct (_ && _); [done|]. cbn. rewrite lookup_insert_ne; congruence.
  - unfold sessionCancel. destruct (objects m !! id') as [s|] eqn:E; [|done]. destruct (closed s); [done|].
    cbn. rewrite lookup_insert_ne; congruence.
  - cbn. by rewrite lookup_fmap, H.
Qed.

Lemma rep_run r ops : forall l m, Rep r l m -> Forall op_ok ops -> NoDup (started ops) ->
  (forall id, id ∈ started ops -> objects m !! id = None) ->
  (local_run ops l).1 = (mem_run ops l m).1 /\ Rep r (local_run ops l).2 (mem_run ops l m).2.
Proof.
  induction ops as [|op ops IH]; intros l m R Hok Hnd Hf; [done|]. inversion_clear Hok as [|? ? Ho Hos].
  destruct (rep_step r l m op R Ho) as [Ea R'].
  { intros id ->. apply Hf. by left. }
  assert (Hnd' : NoDup (started ops) /\ forall id, id ∈ started ops -> objects (mem_apply (commit_time op l) op m).2 !! id = None).
  { unfold started in *. destruct op; cbn in Hnd, Hf; try (split; [done|]; intros id' Hid; by apply mem_apply_objects; [apply Hf|]).
    apply NoDup_cons in Hnd as [Hn Hnd]. split; [done|]. intros id' Hid. apply mem_apply_objects; [apply Hf; by right|congruence]. }
  destruct Hnd' as [Hnd' Hf']. destruct (IH _ _ R' Hos Hnd' Hf') as [Er R''].
  cbn [local_run mem_run]. destruct (local_apply op l) as [a l1]. cbn [fst snd] in *.
  destruct (mem_apply _ op m) as [a' m1]. cbn [fst snd] in *. subst a'.
  destruct (local_run ops l1) as [rs l2]. destruct (mem_run ops l1 m1) as [rs' m2]. cbn [fst snd] in *. by subst.
Qed.

(** A store over an empty directory. *)
Lemma New_Rep root o l : HasPrefix root "/" = true -> resolve root <> [] -> os_wf o ->
  (forall s q, node_at o (resolve root ++ s :: q) = None) -> NewLocalBlobStore root o = Ok l ->
  Rep (resolve root) l NewMemBlobStore.
Proof.
  intros Ha Hr Hw Hnone H. pose proof (resolve_good root) as Hg. unfold NewLocalBlobStore in H.
  destruct (String.eqb root ""); [done|]. cbv zeta in H. rewrite Clean_rooted in H by done.
  rewrite !resolve_PathJoin_abs in H by (done || by apply Forall_cons_2).
  destruct (MkdirAll o _) as [o1|] eqn:E1; [|done]. destruct (MkdirAll o1 _) as [o2|] eqn:E2; [|done]. injection H as <-.
  set (r := resolve root) in *. destruct (MkdirAll_spec _ _ _ Hw E1) as (Hw1 & _ & H1).
  destruct (MkdirAll_spec _ _ _ Hw1 E2) as (Hw2 & Hd2 & H2).
  assert (Hb : forall q n, node_at o2 (r ++ "blobs" :: q) = Some n -> q = [] /\ exists t, n = Directory t).
  { intros q n Hn. destruct (H2 (r ++ "blobs" :: q)) as [E|(_ & _ & Hp)].
    2:{ apply prefix_app_inv in Hp as [k Hk]. done. }
    rewrite E in Hn. destruct (H1 (r ++ "blobs" :: q)) as [E'|(_ & [t Ht] & Hp)]; [by rewrite E', Hnone in Hn|].
    apply prefix_length in Hp. rewrite !length_app in Hp. cbn in Hp.
    split; [destruct q; [done|cbn in Hp; lia]|]. exists t. congruence. }
  assert (Hu : forall id, node_at o2 (upload_at r id) = None).
  { intros id. destruct (H2 (upload_at r id)) as [->|(_ & _ & Hp)].
    2:{ apply prefix_length in Hp. unfold upload_at in Hp. rewrite !length_app in Hp. cbn in Hp. lia. }
    destruct (H1 (upload_at r id)) as [->|(_ & _ & Hp)]; [apply Hnone|].
    apply prefix_app_inv in Hp as [k Hk]. done. }
  split; cbn [lroot los table objs]; try done.
  - intros d Hd. cbn. rewrite lookup_empty. cbn. destruct (node_at o2 (blob_at r d)) as [n|] eqn:E; [|done].
    by apply Hb in E as [E _].
  - intros q n Hn. apply Hb in Hn as [-> [t ->]]. cbn. lia.
  - apply mem_ok_new.
Qed.

(** ** Properties *)

(** C8: a directory store behaves as the in-memory one: over an empty directory,
    any sequence of reads, deletions, uploads written in pieces, resumed,
    committed or cancelled, prunings and restarts, whose digests are in normal form
    (a known algorithm and lower-case hexadecimal, or none, for the store to
    choose) and whose uploads have distinct ids of one path segment, gives the
    answers of the in-memory store whose commits are dated by the last write of the
    upload, and in the end the directory lists exactly its blobs.  [unsupported_commit_overwrites] shows
    what a commit under another algorithm does. *)
Theorem local_refines root o l ops : HasPrefix root "/" = true -> resolve root <> [] -> os_wf o ->
  (forall s q, node_at o (resolve root ++ s :: q) = None) -> NewLocalBlobStore root o = Ok l ->
  Forall op_ok ops -> NoDup (started ops) ->
  let '(answers, l') := local_run ops l in
  let '(answers', m') := mem_run ops l NewMemBlobStore in
  answers = answers' /\ localListBlobs l' ≡ₚ memListBlobs m' /\ forall d, normal d -> localGet l' d = memGet m' d.
Proof.
  intros Ha Hr Hw Hnone Hl Hok Hnd. pose proof (New_Rep root o l Ha Hr Hw Hnone Hl) as R.
  destruct (rep_run _ ops l NewMemBlobStore R Hok Hnd) as [Ea R'].
  { intros id _. apply lookup_empty. }
  destruct (local_run ops l) as [answers l']. destruct (mem_run ops l NewMemBlobStore) as [answers' m'].
  cbn [fst snd] in *. split_and!; [done| |intros d Hd; by apply (rep_Get _ _ _ R')].
  apply NoDup_Permutation.
  - eapply NoDup_fmap_1, (rep_List_NoDup _ _ _ R').
  - eapply NoDup_fmap_1, (memListBlobs_NoDup m' (rp_mem _ _ _ R')).
  - intros [d info]. rewrite (rep_List _ _ _ R'), (memListBlobs_elem m') by apply R'. done.
Qed.

Definition empty_disk : OS := {| nodes := {[ ["srv"] := Directory 0 ]}; clock := 5; dirSize := 0 |}.

Lemma empty_disk_wf : os_wf empty_disk.
Proof. by apply os_wfb_spec; vm_compute. Qed.

Definition sample_local : LocalBlobStore :=
  match NewLocalBlobStore "/srv/blobs" empty_disk with
  | Ok l => l
  | Err _ => {| lroot := ""; los := empty_disk; table := ∅; objs := ∅ |}
  end.

(** An upload in two pieces around a wrong commit, and one lost in a restart. *)
Definition sample_ops : list BlobOp :=
  [OpStart "u"; OpWrite "u" "ab"; OpCommit "u" abc_digest; OpTick 9; OpWrite "u" "c"; OpTick 20;
   OpCommit "u" abc_digest; OpStart "v"; OpWrite "v" "x"; OpRestart; OpPrune 5 false; OpResume "v";
   OpGet abc_digest].

Lemma local_refines_witness : exists answers, (local_run sample_ops sample_local).1 = answers /\
  last answers = Some (ABlob (Ok ("abc", {| Size := 3; ModTime := Some 9 |}))) /\
  answers = (mem_run sample_ops sample_local NewMemBlobStore).1.
Proof.
  eexists. split; [reflexivity|]. split; [by vm_compute|].
  pose proof (local_refines "/srv/blobs" empty_disk sample_local sample_ops eq_refl) as H.
  destruct (local_run sample_ops sample_local) as [answers l'] eqn:E.
  destruct (mem_run sample_ops sample_local NewMemBlobStore) as [answers' m'] eqn:E'. cbn [fst].
  apply H; [by vm_compute|apply empty_disk_wf| |by vm_compute| |].
  - intros s q. unfold node_at. rewrite bool_decide_false by done. cbn [empty_disk nodes].
    by rewrite lookup_singleton_ne.
  - assert (Hn : normal abc_digest) by (by vm_compute).
    unfold sample_ops. clear H E E'. revert Hn. generalize abc_digest. intros d Hd.
    repeat apply Forall_cons_2; cbn [op_ok]; first [exact I|right; exact Hd|exact Hd|done].
  - by apply (bool_decide_unpack _); vm_compute.
Defined.

(** A commit under an algorithm the store does not know rewinds the open file:
    the next write goes over the first bytes. *)
Lemma unsupported_commit_overwrites :
  let '(answers, _) := local_run [OpStart "u"; OpWrite "u" "abcdef"; OpCommit "u" {| Algorithm := "md5"; Hex := "00" |};
    OpWrite "u" "X"; OpCommit "u" zeroDigest] sample_local in
  last answers = Some (ADigest (Ok (DigestFromHash "sha256" (Sum256 "Xbcdef")))).
Proof. by vm_compute. Qed.
