(* ===== verification/PkgStore.v ===== *)
(** * internal/registry/pkgbase: the package store (pkgbase.go) and its publish guard (guard.go)

    [Store] is the path-keyed store that the package registries share, over any
    mount of Backend.v.  A walk threads the state its callback changes and reads
    each directory when it enters it, as the code does; it takes fuel for the
    depth of the tree.  [FetchCached] is the pull-through cache; the upstream
    client is a parameter. *)

From Stdlib Require Import ZArith Lia Ascii.
From stdpp Require Import base list strings.
From S2P Require Import Prelude GoStrings GoPath Backend.

Local Open Scope Z_scope.

(** ** Errors *)

Inductive StoreError := ErrReadOnly | ErrFS (e : FSError).

Definition errText (e : FSError) : string :=
  match e with
  | NotExist => "file does not exist"
  | NotFound => "not found"
  | Failed msg => msg
  end.

(** [IsNotFound] of a store's error. *)
Definition IsNotFound (e : FSError) : bool :=
  match e with
  | NotFound => true
  | _ => let low := ToLower (errText e) in
         Contains low "not found" || Contains low "no such file" || Contains low "does not exist"
  end.

Definition by_name (a b : DirEntry) : bool := str_ltb (eName a) (eName b).

Section store.
Context {F : Type} `{Backend F}.

Record Store := { sfs : F; basePath : string }.

Definition NewStore (fs : F) (base : string) : Store := {| sfs := fs; basePath := Trim base "/" |}.

Definition with_fs (s : Store) (f : F) : Store := {| sfs := f; basePath := basePath s |}.

Definition cleanPart (p : string) : string := Trim (Clean ("/" +:+ p)) "/".

Definition StoreJoin (s : Store) (parts : list string) : string :=
  PathJoin ((if String.eqb (basePath s) "" then [] else [basePath s]) ++
            List.filter (fun p => negb (String.eqb p "") && negb (String.eqb p ".")) (cleanPart <$> parts)).

Definition Rel (s : Store) (abs : string) : string :=
  if String.eqb (basePath s) "" then TrimPrefix abs "/"
  else TrimPrefix (TrimPrefix abs (basePath s)) "/".

(** ** Files *)

Definition mutate (s : Store) (op : F -> option FSError * F) : option StoreError * Store :=
  if IsWritable (sfs s) then
    let '(e, f) := op (sfs s) in (ErrFS <$> e, with_fs s f)
  else (Some ErrReadOnly, s).

Definition StoreWrite (s : Store) (rel body : string) : option StoreError * Store :=
  mutate s (fun f => Write f (StoreJoin s [rel]) (reader body) (Z.of_nat (len body))).

Definition WriteStream (s : Store) (rel : string) (r : Reader) (size : Z) : option StoreError * Store :=
  mutate s (fun f => Write f (StoreJoin s [rel]) r size).

Definition StoreRead (s : Store) (rel : string) : result StoreError string :=
  match Open (sfs s) (StoreJoin s [rel]) with
  | Err e => Err (ErrFS e)
  | Ok (r, _) => match rErr r with
                 | None => Ok (rData r)
                 | Some e => Err (ErrFS (Failed e))
                 end
  end.

Definition StoreStat (s : Store) (rel : string) : result FSError FileInfo :=
  Stat (sfs s) (StoreJoin s [rel]).

Definition Exists (s : Store) (rel : string) : bool := is_ok (StoreStat s rel).

(** Deleting a missing file is no error. *)
Definition StoreDelete (s : Store) (rel : string) : option StoreError * Store :=
  match mutate s (fun f => Delete f (StoreJoin s [rel])) with
  | (Some (ErrFS e), s) => (if IsNotFound e then None else Some (ErrFS e), s)
  | r => r
  end.

(** ** Directories *)

Definition StoreReadDir (s : Store) (rel : string) : result FSError (list DirEntry) :=
  match ReadDir (sfs s) (StoreJoin s [rel]) with
  | Ok es => Ok es
  | Err e => if IsNotFound e then Ok [] else Err e
  end.

Definition sortStr (l : list string) : list string := SliceStable str_ltb l.

Definition ListDirs (s : Store) (rel : string) : result FSError (list string) :=
  match StoreReadDir s rel with
  | Err e => Err e
  | Ok es => Ok (sortStr (eName <$> List.filter eIsDir es))
  end.

Definition ListFiles (s : Store) (rel : string) : result FSError (list DirEntry) :=
  match StoreReadDir s rel with
  | Err e => Err e
  | Ok es => Ok (SliceStable by_name (List.filter (fun e => negb (eIsDir e)) es))
  end.

(** A walk over the state [St] of its callback, which holds the store. *)
Section walk.
Context {St : Type}.
Variable store : St -> Store.
Variable fn : string -> DirEntry -> St -> option FSError * St.

Fixpoint walkEntries (visit : DirEntry -> St -> option FSError * St) (es : list DirEntry) (st : St)
    : option FSError * St :=
  match es with
  | [] => (None, st)
  | e :: es =>
      match visit e st with
      | (Some err, st) => (Some err, st)
      | (None, st) => walkEntries visit es st
      end
  end.

Fixpoint Walk (fuel : nat) (rel : string) (st : St) : option FSError * St :=
  match fuel with
  | O => (Some (Failed "out of fuel"), st)
  | S fuel =>
      match StoreReadDir (store st) rel with
      | Err e => (Some e, st)
      | Ok es =>
          walkEntries (fun e st =>
            let child := PathJoin [rel; eName e] in
            if eIsDir e then Walk fuel child st else fn child e st) (SliceStable by_name es) st
      end
  end.
End walk.

(** The count and the bytes (an int64) of the files below [rel]; an error of the
    walk is dropped. *)
Definition count_file (_ : string) (e : DirEntry) (st : Store * (Z * Z)) : option FSError * (Store * (Z * Z)) :=
  let '(s, (count, size)) := st in (None, (s, (count + 1, wrap64 (size + eSize e)))).

Definition Usage (fuel : nat) (s : Store) (rel : string) : Z * Z :=
  (snd (Walk fst count_file fuel rel (s, (0, 0)))).2.

Definition delete_file (child : string) (e : DirEntry) (st : Store * (Z * Z * list StoreError))
    : option FSError * (Store * (Z * Z * list StoreError)) :=
  let '(s, (count, size, errs)) := st in
  match StoreDelete s child with
  | (Some err, s) => (None, (s, (count, size, errs ++ [err])))
  | (None, s) => (None, (s, (count + 1, wrap64 (size + eSize e), errs)))
  end.

Definition DeleteTree (fuel : nat) (s : Store) (rel : string) : (Z * Z * list StoreError) * Store :=
  match Walk fst delete_file fuel rel (s, (0, 0, [])) with
  | (Some e, (s, (count, size, errs))) => (count, size, errs ++ [ErrFS e], s)
  | (None, (s, r)) => (r, s)
  end.

(** ** The publish guard *)

Record PublishGuard := { Immutable : bool; QuotaBytes : Z }.

(** The status that rejects a publish. *)
Definition Check (fuel : nat) (g : PublishGuard) (s : option Store) (exists_ : bool) (incoming : Z) : option Z :=
  if Immutable g && exists_ then Some 409
  else if 0 <? QuotaBytes g then
    match s with
    | None => None
    | Some s => let '(_, used) := Usage fuel s "" in
                if QuotaBytes g <? wrap64 (used + incoming) then Some 413 else None
    end
  else None.

(** [RemoteRepo.Purge]: the mutable directories of a cache, or all of it. *)
Definition Purge (fuel : nat) (s : Store) (all : bool) (mutableDirs : list string)
    : (Z * Z * list StoreError) * Store :=
  foldl (fun '((files, size, errs), s) d =>
           let '((n, b, es), s) := DeleteTree fuel s d in ((files + n, wrap64 (size + b), errs ++ es), s))
        ((0, 0, []), s) (if all then [""] else mutableDirs).

(** ** Pull-through cache *)

Inductive UpstreamError := UpNotFound | UpUnauthorized | UpFailed (msg : string).

Section remote.
(** [client.Get] of a path: the response's body, or the error. *)
Variable Get : string -> result UpstreamError Reader.
Variables (MutableTTL now : Z).

(** Times in seconds. *)
Definition Fresh (s : Store) (rel : string) : bool :=
  match StoreStat s rel with
  | Err _ => false
  | Ok fi => (0 <? MutableTTL) && (now - ModTime fi <? MutableTTL)
  end.

Definition FetchCached (s : Store) (cacheRel upstreamPath : string) (mutable : bool)
    : result UpstreamError string * Store :=
  let hit := if Exists s cacheRel && (negb mutable || Fresh s cacheRel)
             then match StoreRead s cacheRel with Ok b => Some b | Err _ => None end
             else None in
  match hit with
  | Some b => (Ok b, s)
  | None =>
      match Get upstreamPath with
      | Err e =>
          match StoreRead s cacheRel, e with
          | Ok b, (UpUnauthorized | UpFailed _) => (Ok b, s)
          | _, _ => (Err e, s)
          end
      | Ok r =>
          match rErr r with
          | Some e => (Err (UpFailed e), s)
          | None => (Ok (rData r), (StoreWrite s cacheRel (rData r)).2)
          end
      end
  end.
End remote.
End store.

Arguments Store : clear implicits.
