(* ===== verification/PkgStoreSafety.v ===== *)
(** * What the package store guarantees over a local mount

    Paths stay below the base path of the store.  [Usage] is the number and the
    bytes of the regular files below a path, whatever the shape of the tree;
    [DeleteTree] removes exactly those files; and a publish that the guard lets
    through leaves the store within its quota. *)

From Stdlib Require Import ZArith Lia Ascii.
From stdpp Require Import base list strings gmap sorting.
From S2P Require Import Prelude GoStrings GoPath Backend LocalFS Listing PkgStore.

Local Open Scope Z_scope.

(** ** Paths *)

Definition rel_ok (p : string) : Prop := p = "" \/ good_path p.

Lemma rel_ok_resolve p : rel_ok p -> p = "" \/ resolve p = Split p "/".
Proof. intros [->|Hp]; [by left|right; by apply good_path_resolve]. Qed.

Lemma cleanPart_eq p : cleanPart p = Join (resolve p) "/".
Proof.
  unfold cleanPart. rewrite Clean_rooted by done. change ("/" +:+ p) with (String "/" p).
  rewrite resolve_slash. pose proof (resolve_good p) as Hg.
  destruct (resolve p) as [|s l] eqn:E; [done|]. rewrite <-E in *.
  assert (Hp : good_path (Join (resolve p) "/")) by (apply Join_segs_good; [by rewrite E|done]).
  change (Trim (abs (resolve p)) "/") with (Trim (Join (resolve p) "/") "/"). by apply Trim_good.
Qed.

Lemma joined_parts base parts : rel_ok base ->
  let l := (if String.eqb base "" then [] else [base]) ++
    List.filter (fun p => negb (String.eqb p "") && negb (String.eqb p ".")) (cleanPart <$> parts) in
  Forall good_path l /\
  concat ((fun p => Split p "/") <$> l) = resolve base ++ concat (resolve <$> parts).
Proof.
  intros Hb l. subst l.
  assert (H : Forall good_path (List.filter (fun p => negb (String.eqb p "") && negb (String.eqb p "."))
      (cleanPart <$> parts)) /\
    concat ((fun p => Split p "/") <$> List.filter (fun p => negb (String.eqb p "") && negb (String.eqb p "."))
      (cleanPart <$> parts)) = concat (resolve <$> parts)).
  { induction parts as [|p parts [IH1 IH2]]; [done|]. cbn [fmap list_fmap List.filter].
    rewrite cleanPart_eq. pose proof (resolve_good p) as Hg.
    destruct (resolve p) as [|s l] eqn:E; [done|]. rewrite <-E in *.
    assert (Hp : good_path (Join (resolve p) "/")) by (apply Join_segs_good; [by rewrite E|done]).
    assert (Hd : Join (resolve p) "/" <> ".").
    { intros Hx. rewrite Hx in Hp. by inversion Hp as [|? ? (_ & ? & _)]. }
    rewrite (proj2 (String.eqb_neq _ "") (good_path_nonempty _ Hp)), (proj2 (String.eqb_neq _ ".") Hd).
    cbn [negb andb]. split; [by constructor|]. cbn [fmap list_fmap concat].
    rewrite Split_Join_good; [by f_equal|by rewrite E|done]. }
  destruct H as [H1 H2]. destruct Hb as [->|Hb]; [done|].
  rewrite (proj2 (String.eqb_neq base "") (good_path_nonempty base Hb)).
  split; [by constructor|]. cbn [app fmap list_fmap concat]. rewrite good_path_resolve by done. by f_equal.
Qed.

Lemma StoreJoin_resolve {F} (s : Store F) parts : rel_ok (basePath s) ->
  resolve (StoreJoin s parts) = resolve (basePath s) ++ concat (resolve <$> parts) /\
  rel_ok (StoreJoin s parts).
Proof.
  intros Hb. unfold StoreJoin. destruct (joined_parts (basePath s) parts Hb) as [H1 H2].
  split; [by rewrite resolve_PathJoin|].
  match goal with |- rel_ok (PathJoin ?x) => set (l := x) in * end. clearbody l.
  destruct l as [|p l]; [by left|right]. rewrite PathJoin_good by done. by apply Join_good.
Qed.

(** ** The files below a path *)

Definition files_below (o : OS) (p : list string) : list (list string * string) :=
  omap (fun kv : list string * Node =>
          match kv.2 with
          | RegularFile d _ => if below p kv.1 then Some (kv.1, d) else None
          | Directory _ => None
          end) (map_to_list (nodes o)).

Definition bytes (l : list (list string * string)) : Z :=
  foldr (fun kd acc => Z.of_nat (len kd.2) + acc) 0 l.

Lemma files_below_elem o p k d : (k, d) ∈ files_below o p <->
  below p k = true /\ exists t, nodes o !! k = Some (RegularFile d t).
Proof.
  unfold files_below. rewrite list_elem_of_omap. split.
  - intros ([k' n] & Hk%elem_of_map_to_list & E). cbn in E. destruct n as [d' t|]; [|done].
    destruct (below p k') eqn:Eb; [|done]. injection E as -> ->. split; [done|]. by exists t.
  - intros [Hb [t Hk]]. exists (k, RegularFile d t). rewrite elem_of_map_to_list. split; [done|].
    cbn. by rewrite Hb.
Qed.

Lemma NoDup_omap_keys {A B} (f : list string * A -> option (list string * B)) (m : gmap (list string) A) :
  (forall kv kv', f kv = Some kv' -> kv'.1 = kv.1) -> NoDup (omap f (map_to_list m)).*1.
Proof.
  intros Hf. pose proof (NoDup_fst_map_to_list m) as Hn.
  induction (map_to_list m) as [|kv l IH]; [constructor|]. cbn [fmap list_fmap] in Hn.
  apply NoDup_cons in Hn as [Hnin Hn]. cbn [omap list_omap].
  destruct (f kv) as [kv'|] eqn:E; [|by apply IH]. cbn [fmap list_fmap]. apply NoDup_cons. split; [|by apply IH].
  rewrite (Hf _ _ E). intros Hin. apply Hnin. apply list_elem_of_fmap in Hin as (x & Ex & Hx).
  apply list_elem_of_omap in Hx as (y & Hy & Ey). apply list_elem_of_fmap. exists y.
  split; [|done]. by rewrite Ex, (Hf _ _ Ey).
Qed.

Lemma files_below_NoDup o p : NoDup (files_below o p).
Proof.
  apply (NoDup_fmap_1 fst). apply NoDup_omap_keys. intros [k n] [k' d]. cbn.
  destruct n; [|done]. destruct (below p k); [|done]. by intros [= -> _].
Qed.

(** The same files, the same list up to order. *)
Lemma files_below_perm o o' p p' :
  (forall k d, (k, d) ∈ files_below o p <-> (k, d) ∈ files_below o' p') ->
  files_below o p ≡ₚ files_below o' p'.
Proof.
  intros H. apply NoDup_Permutation; [apply files_below_NoDup|apply files_below_NoDup|].
  intros [k d]. apply H.
Qed.

Lemma bytes_app l l' : bytes (l ++ l') = bytes l + bytes l'.
Proof. unfold bytes. induction l as [|x l IH]; [done|]. cbn. rewrite IH. lia. Qed.

#[export] Instance bytes_perm : Proper (Permutation ==> eq) bytes.
Proof. unfold bytes. induction 1; cbn; lia. Qed.

Lemma bytes_pos l : 0 <= bytes l.
Proof. unfold bytes. induction l; cbn; lia. Qed.

(** ** The entries of a directory *)

(** The files below a directory are those of its entries. *)
Definition entry_files (o : OS) (p : list string) (nm : string * Node) : list (list string * string) :=
  match nm.2 with
  | RegularFile d _ => [(p ++ [nm.1], d)]
  | Directory _ => files_below o (p ++ [nm.1])
  end.

Lemma below_child p n k : below p k = true -> (exists x, k = p ++ n :: x) ->
  k = p ++ [n] \/ below (p ++ [n]) k = true.
Proof.
  intros _ [x ->]. destruct x as [|s x]; [by left|right]. apply below_spec. split.
  - exists (s :: x). by rewrite <-app_assoc.
  - intros E. apply (f_equal length) in E. rewrite !length_app in E. cbn in E. lia.
Qed.

Lemma entry_files_elem o p nm k d : os_wf o -> nm ∈ children o p ->
  (k, d) ∈ entry_files o p nm <-> (exists t, nodes o !! k = Some (RegularFile d t)) /\ p ++ [nm.1] `prefix_of` k.
Proof.
  intros Hw Hnm. destruct nm as [n node]. apply elem_of_children in Hnm. unfold entry_files. cbn [fst snd].
  destruct node as [d' t'|t'].
  - rewrite list_elem_of_singleton. split.
    + intros [= -> ->]. split; [by exists t'|done].
    + intros [[t Hk] [x Ex]]. destruct x as [|s x].
      * rewrite app_nil_r in Ex. subst k. rewrite Hnm in Hk. by injection Hk as -> _.
      * exfalso. subst k. assert (Hd : is_dir o (p ++ [n])).
        { eapply (above_dir o (p ++ [n]) (s :: x)); [done|done|].
          rewrite node_at_ne; [exact Hk|by destruct p]. }
        destruct Hd as [t1 Ht1]. rewrite node_at_ne in Ht1 by (by destruct p). congruence.
  - rewrite files_below_elem, below_spec. split; [by intros [[? _] ?]|].
    intros [Hk Hp]. split; [|done]. split; [done|]. intros E. subst k. destruct Hk as [t Hk]. congruence.
Qed.

Lemma files_below_children o p : os_wf o ->
  files_below o p ≡ₚ concat (entry_files o p <$> children o p).
Proof.
  intros Hw. apply NoDup_Permutation; [apply files_below_NoDup| |].
  - pose proof (children_names o p) as Hn.
    assert (Hsub : forall nm, nm ∈ children o p -> nm ∈ children o p) by done. revert Hsub Hn.
    generalize (children o p) at 1 3 4. intros l. induction l as [|nm l IH]; intros Hsub Hn; [constructor|].
    cbn [fmap list_fmap] in Hn. apply NoDup_cons in Hn as [Hnin Hn]. cbn [fmap list_fmap concat].
    apply NoDup_app. split; [|split].
    + unfold entry_files. destruct nm.2; [apply NoDup_singleton|apply files_below_NoDup].
    + intros [k d] Hk Hin. apply list_elem_of_In, in_concat in Hin as (l0 & Hl0 & Hin).
      apply list_elem_of_In, list_elem_of_fmap in Hl0 as (nm' & -> & Hnm').
      apply list_elem_of_In in Hin.
      apply entry_files_elem in Hk as [_ [x Ex]]; [|done|by apply Hsub; left].
      apply entry_files_elem in Hin as [_ [y Ey]]; [|done|by apply Hsub; right].
      rewrite Ex, <-!app_assoc in Ey. apply (app_inv_head p) in Ey. injection Ey as E _.
      apply Hnin. apply list_elem_of_fmap. by exists nm'.
    + apply IH; [|done]. intros x Hx. apply Hsub. by right.
  - intros [k d]. rewrite files_below_elem. split.
    + intros [Hb Hk]. pose proof Hb as [[x Ex] Hne]%below_spec.
      destruct x as [|n x]; [by rewrite app_nil_r in Ex|].
      assert (Hn : exists node, nodes o !! (p ++ [n]) = Some node).
      { destruct Hk as [t Hk]. destruct (decide (x = [])) as [->|Hx]; [subst k; eauto|].
        assert (Hd : is_dir o (p ++ [n])).
        { eapply (above_dir o (p ++ [n]) x); [done|done|].
          rewrite <-app_assoc. cbn [app]. rewrite <-Ex, node_at_ne; [exact Hk|rewrite Ex; by destruct p]. }
        destruct Hd as [t1 Ht1]. rewrite node_at_ne in Ht1 by (by destruct p). eauto. }
      destruct Hn as [node Hn]. apply elem_of_children in Hn.
      apply list_elem_of_In, in_concat. exists (entry_files o p (n, node)). split.
      * apply list_elem_of_In, list_elem_of_fmap. eauto.
      * apply list_elem_of_In, entry_files_elem; [done|done|]. split; [done|]. exists x.
        by rewrite <-app_assoc.
    + intros Hin. apply list_elem_of_In, in_concat in Hin as (l0 & Hl0 & Hin).
      apply list_elem_of_In, list_elem_of_fmap in Hl0 as (nm & -> & Hnm). apply list_elem_of_In in Hin.
      apply entry_files_elem in Hin as [Hk [x Ex]]; [|done|done]. split; [|done].
      apply below_spec. split; [exists ([nm.1] ++ x); by rewrite app_assoc|].
      intros ->. apply (f_equal length) in Ex. rewrite !length_app in Ex. cbn in Ex. lia.
Qed.

(** ** The store on a local mount *)

(** Every name in the tree is a plain segment. *)
Definition os_good (o : OS) : Prop := forall p n, nodes o !! p = Some n -> Forall good_seg p.

Record store_ok (s : Store FS) : Prop := {
  st_fs : fs_ok (sfs s);
  st_good : os_good (os (sfs s));
  st_base : rel_ok (basePath s);
}.

(** Where a path of the store is in the tree. *)
Definition place (s : Store FS) (rel : string) : list string := target (sfs s) (StoreJoin s [rel]).

Lemma place_eq s rel : rel_ok (basePath s) ->
  place s rel = rootSegs (sfs s) ++ resolve (basePath s) ++ resolve rel.
Proof.
  intros Hb. unfold place, target. destruct (StoreJoin_resolve s [rel] Hb) as [-> _].
  cbn. by rewrite app_nil_r.
Qed.

Lemma PathJoin_child rel n : rel_ok rel -> good_seg n ->
  resolve (PathJoin [rel; n]) = resolve rel ++ [n] /\ rel_ok (PathJoin [rel; n]).
Proof.
  intros Hr Hn. pose proof (good_seg_path n Hn) as Hp. destruct Hr as [->|Hr].
  - assert (E : PathJoin [""; n] = n).
    { unfold PathJoin. cbn [forallb]. rewrite (proj2 (String.eqb_neq n "")) by apply Hn.
      cbn [String.eqb andb foldl]. unfold join_step at 2. cbn [String.eqb len String.length Nat.ltb Nat.leb orb negb].
      unfold join_step. rewrite (proj2 (String.eqb_neq n "")) by apply Hn.
      cbn [len String.length Nat.ltb Nat.leb orb negb]. by apply Clean_good. }
    rewrite E. split; [|by right]. rewrite good_path_resolve by done. rewrite Split_single by apply Hn. done.
  - split.
    + rewrite resolve_PathJoin by (by repeat constructor). cbn [fmap list_fmap concat].
      rewrite app_nil_r, (Split_single n), good_path_resolve by (done || apply Hn). done.
    + right. rewrite PathJoin_good by (done || by repeat constructor). by apply good_path_app.
Qed.

Lemma place_child s rel n : store_ok s -> rel_ok rel -> good_seg n ->
  place s (PathJoin [rel; n]) = place s rel ++ [n].
Proof.
  intros Hs Hr Hn. rewrite !place_eq by apply Hs. destruct (PathJoin_child rel n Hr Hn) as [-> _].
  by rewrite !app_assoc.
Qed.

Lemma ReadDir_place s rel : store_ok s -> StoreReadDir s rel =
  match find (os (sfs s)) (place s rel) with
  | Ok (Directory _) => Ok (SliceStable by_name (entry_of (os (sfs s)) <$> children (os (sfs s)) (place s rel)))
  | Ok (RegularFile _ _) => Err (osError ENOTDIR)
  | Err e => if IsNotFound (osError e) then Ok [] else Err (osError e)
  end.
Proof.
  intros Hs. unfold StoreReadDir. cbn [ReadDir LocalFS_backend]. unfold localReadDir.
  rewrite at_path_ok by apply Hs. fold (place s rel).
  by destruct (find (os (sfs s)) (place s rel)) as [[|]|].
Qed.

(** The entries a walk visits, up to order, and that their names are plain. *)
Lemma walk_entries s rel es : store_ok s -> is_dir (os (sfs s)) (place s rel) ->
  StoreReadDir s rel = Ok es ->
  SliceStable by_name es ≡ₚ entry_of (os (sfs s)) <$> children (os (sfs s)) (place s rel) /\
  forall nm, nm ∈ children (os (sfs s)) (place s rel) -> good_seg nm.1.
Proof.
  intros Hs [t Hd] H. rewrite ReadDir_place in H by done.
  apply find_spec in Hd; [|apply Hs]. rewrite Hd in H.
  assert (SliceStable by_name (entry_of (os (sfs s)) <$> children (os (sfs s)) (place s rel)) = es) as <-
    by congruence.
  split; [by rewrite !SliceStable_perm|]. intros [n node] Hn%elem_of_children.
  apply (st_good _ Hs) in Hn. apply Forall_app in Hn as [_ Hn]. by inversion Hn.
Qed.

Lemma entry_is_dir o nm : eIsDir (entry_of o nm) = match nm.2 with Directory _ => true | _ => false end.
Proof. by destruct nm as [n [|]]. Qed.

(** ** Usage *)

Lemma wrap64_add a b : wrap64 (wrap64 a + b) = wrap64 (a + b).
Proof.
  rewrite <-(wrap64_add_mult (wrap64 a + b) ((a + 2 ^ 63) / 2 ^ 64)). f_equal. unfold wrap64.
  pose proof (Z.div_mod (a + 2 ^ 63) (2 ^ 64) ltac:(lia)). lia.
Qed.

(** Adding up the entries of a directory, in any order. *)
Lemma tally_entries {St} (visit : DirEntry -> St -> option FSError * St) (mk : Z -> Z -> St)
    (n sz : DirEntry -> Z) es :
  (forall e c z, e ∈ es -> visit e (mk c (wrap64 z)) = (None, mk (c + n e) (wrap64 (z + sz e)))) ->
  forall c z, walkEntries visit es (mk c (wrap64 z)) =
    (None, mk (c + foldr (fun e a => n e + a) 0 es) (wrap64 (z + foldr (fun e a => sz e + a) 0 es))).
Proof.
  induction es as [|e es IH]; intros Hv c z; cbn [walkEntries foldr]; [by rewrite !Z.add_0_r|].
  rewrite Hv by (by left). rewrite IH by (intros; apply Hv; by right). by rewrite !Z.add_assoc.
Qed.

Lemma sum_perm {A} (f : A -> Z) l l' : l ≡ₚ l' ->
  foldr (fun e a => f e + a) 0 l = foldr (fun e a => f e + a) 0 l'.
Proof. induction 1; cbn; lia. Qed.

Lemma sum_concat {A} (f : A -> list (list string * string)) (g : list (list string * string) -> Z) l :
  g [] = 0 -> (forall a b, g (a ++ b) = g a + g b) ->
  foldr (fun e a => g (f e) + a) 0 l = g (concat (f <$> l)).
Proof. intros H0 Ha. induction l as [|x l IH]; [done|]. cbn. by rewrite Ha, IH. Qed.

Definition count_of (l : list (list string * string)) : Z := Z.of_nat (length l).

(** How deep the tree is below a path. *)
Definition shallow (o : OS) (p : list string) (fuel : nat) : Prop :=
  forall k n, nodes o !! k = Some n -> below p k = true -> (length k <= length p + fuel)%nat.

Lemma shallow_child o p n fuel : shallow o p (S fuel) -> shallow o (p ++ [n]) fuel.
Proof.
  intros H k m Hk [[x ->] Hne]%below_spec. rewrite length_app. cbn [length].
  assert (Hb : below p ((p ++ [n]) ++ x) = true).
  { apply below_spec. split; [exists ([n] ++ x); by rewrite app_assoc|]. intros E.
    apply (f_equal length) in E. rewrite !length_app in E. cbn in E. lia. }
  specialize (H _ _ Hk Hb). rewrite !length_app in *. cbn [length] in *. lia.
Qed.

Lemma not_shallow o p n node : nodes o !! (p ++ [n]) = Some node -> ~ shallow o p 0.
Proof.
  intros Hn Hsh. assert (Hb : below p (p ++ [n]) = true).
  { apply below_spec. split; [by apply prefix_app_r|]. intros E. apply (f_equal length) in E.
    rewrite length_app in E. cbn in E. lia. }
  specialize (Hsh _ _ Hn Hb). rewrite length_app in Hsh. cbn in Hsh. lia.
Qed.

Lemma child_is_dir o p n t : (n, Directory t) ∈ children o p -> is_dir o (p ++ [n]).
Proof. intros H%elem_of_children. exists t. rewrite node_at_ne by (by destruct p). done. Qed.

Lemma foldr_fmap {A B} (f : A -> B) (g : B -> Z) l :
  foldr (fun e a => g e + a) 0 (f <$> l) = foldr (fun e a => g (f e) + a) 0 l.
Proof. induction l as [|x l IH]; [done|]. cbn. by rewrite IH. Qed.

Lemma foldr_ext_in {A} (f g : A -> Z) l : (forall x, x ∈ l -> f x = g x) ->
  foldr (fun e a => f e + a) 0 l = foldr (fun e a => g e + a) 0 l.
Proof.
  induction l as [|x l IH]; intros H; [done|]. cbn. rewrite H by (by left).
  rewrite IH; [done|]. intros y Hy. apply H. by right.
Qed.

(** The totals over the entries of a directory are those of the files below. *)
Lemma entries_total o p (g : list (list string * string) -> Z) : os_wf o ->
  g [] = 0 -> (forall a b, g (a ++ b) = g a + g b) -> (forall a b, a ≡ₚ b -> g a = g b) ->
  foldr (fun nm a => g (entry_files o p nm) + a) 0 (children o p) = g (files_below o p).
Proof.
  intros Hw H0 Ha Hp. rewrite sum_concat by done. symmetry. by apply Hp, files_below_children.
Qed.

(** ** The tally of a walk *)

(** What an entry of the directory [p] stands for. *)
Definition entry_count (o : OS) (p : list string) (e : DirEntry) : Z :=
  if eIsDir e then count_of (files_below o (p ++ [eName e])) else 1.

Definition entry_bytes (o : OS) (p : list string) (e : DirEntry) : Z :=
  if eIsDir e then bytes (files_below o (p ++ [eName e])) else eSize e.

Lemma count_of_app l l' : count_of (l ++ l') = count_of l + count_of l'.
Proof. unfold count_of. rewrite length_app. lia. Qed.

#[export] Instance count_of_perm : Proper (Permutation ==> eq) count_of.
Proof. unfold count_of. by intros l l' ->. Qed.

Lemma entries_sum s rel es : store_ok s -> is_dir (os (sfs s)) (place s rel) ->
  StoreReadDir s rel = Ok es ->
  let o := os (sfs s) in let p := place s rel in
  foldr (fun e a => entry_count o p e + a) 0 (SliceStable by_name es) = count_of (files_below o p) /\
  foldr (fun e a => entry_bytes o p e + a) 0 (SliceStable by_name es) = bytes (files_below o p).
Proof.
  intros Hs Hd H o p. destruct (walk_entries s rel es Hs Hd H) as [Hp _]. fold o p in Hp.
  split; rewrite (sum_perm _ _ _ Hp), foldr_fmap.
  - rewrite <-(entries_total o p count_of) by (apply Hs || done || apply count_of_app || apply count_of_perm).
    apply foldr_ext_in. intros [n [d t|t]] _; done.
  - rewrite <-(entries_total o p bytes) by (apply Hs || done || apply bytes_app || apply bytes_perm).
    apply foldr_ext_in. intros [n [d t|t]] _; [|done]. change (Z.of_nat (len d) = Z.of_nat (len d) + 0). lia.
Qed.

Lemma sorted_entry s rel es e : store_ok s -> is_dir (os (sfs s)) (place s rel) ->
  StoreReadDir s rel = Ok es -> e ∈ SliceStable by_name es ->
  exists node, nodes (os (sfs s)) !! (place s rel ++ [eName e]) = Some node /\ good_seg (eName e) /\
    eIsDir e = match node with Directory _ => true | _ => false end /\
    (forall d t, node = RegularFile d t -> eSize e = Z.of_nat (len d)).
Proof.
  intros Hs Hd H He. destruct (walk_entries s rel es Hs Hd H) as [Hp Hg].
  rewrite Hp in He. apply list_elem_of_fmap in He as ([n node] & -> & Hn). exists node.
  pose proof (Hg _ Hn). apply elem_of_children in Hn. split; [done|]. split; [done|].
  split; [apply entry_is_dir|]. by intros d t ->.
Qed.

Lemma ReadDir_dir s rel : store_ok s -> is_dir (os (sfs s)) (place s rel) ->
  exists es, StoreReadDir s rel = Ok es.
Proof.
  intros Hs [t Hd]. rewrite ReadDir_place by done. apply find_spec in Hd; [|apply Hs]. rewrite Hd. eauto.
Qed.

Lemma Walk_S {St} (store : St -> Store FS) fn fuel rel (st : St) es :
  StoreReadDir (store st) rel = Ok es ->
  Walk store fn (S fuel) rel st =
    walkEntries (fun e st => if eIsDir e then Walk store fn fuel (PathJoin [rel; eName e]) st
                             else fn (PathJoin [rel; eName e]) e st) (SliceStable by_name es) st.
Proof. intros H. cbn [Walk]. by rewrite H. Qed.

(** A walk that counts, from any count. *)
Lemma Walk_count s : store_ok s -> forall fuel rel c z,
  rel_ok rel -> is_dir (os (sfs s)) (place s rel) -> shallow (os (sfs s)) (place s rel) fuel ->
  Walk fst count_file (S fuel) rel (s, (c, wrap64 z)) =
    (None, (s, (c + count_of (files_below (os (sfs s)) (place s rel)),
                wrap64 (z + bytes (files_below (os (sfs s)) (place s rel)))))).
Proof.
  intros Hs. induction fuel as [|fuel IH]; intros rel c z Hr Hd Hsh;
    destruct (ReadDir_dir s rel Hs Hd) as [es Hes];
    destruct (entries_sum s rel es Hs Hd Hes) as [E1 E2]; rewrite <-E1, <-E2;
    rewrite (Walk_S fst count_file _ rel (s, (c, wrap64 z)) es Hes);
    apply (tally_entries _ (fun c z => (s, (c, z))) (entry_count _ _) (entry_bytes _ _));
    intros e c' z' He; destruct (sorted_entry s rel es e Hs Hd Hes He) as (node & Hn & Hg & Ed & Ez);
    destruct (PathJoin_child rel (eName e) Hr Hg) as [_ Hr'].
  - destruct (not_shallow _ _ _ _ Hn Hsh).
  - unfold entry_count, entry_bytes. rewrite Ed. destruct node as [d t|t].
    + unfold count_file. by rewrite wrap64_add.
    + rewrite IH; [by rewrite place_child|done| |].
      * rewrite place_child by done. exists t. rewrite node_at_ne by (by destruct (place s rel)). done.
      * rewrite place_child by done. by apply shallow_child.
Qed.

Lemma no_dir_no_files o p : os_wf o -> ~ is_dir o p -> files_below o p = [].
Proof.
  intros Hw Hd. destruct (files_below o p) as [|[k d] l] eqn:E; [done|].
  assert (Hk : (k, d) ∈ files_below o p) by (rewrite E; by left).
  apply files_below_elem in Hk as [[[x ->] Hne]%below_spec [t Hk]]. destruct Hd.
  apply (above_dir o p x (RegularFile d t)); [done|by intros ->; rewrite app_nil_r in Hne|].
  rewrite node_at_ne; [done|]. intros E0. apply (Hw _ _) in Hk as [? _]. done.
Qed.

Lemma usage_files s fuel rel : store_ok s -> rel_ok rel -> shallow (os (sfs s)) (place s rel) fuel ->
  Usage (S fuel) s rel = (count_of (files_below (os (sfs s)) (place s rel)),
                          wrap64 (bytes (files_below (os (sfs s)) (place s rel)))).
Proof.
  intros Hs Hr Hsh. unfold Usage. change 0 with (wrap64 0) at 2.
  destruct (find (os (sfs s)) (place s rel)) as [[d t|t]|e] eqn:Ef.
  - apply find_spec in Ef; [|apply Hs]. rewrite no_dir_no_files; [|apply Hs|intros [t' ?]; congruence].
    cbn [Walk fst]. rewrite ReadDir_place by done. apply find_spec in Ef; [|apply Hs]. by rewrite Ef.
  - apply find_spec in Ef; [|apply Hs]. rewrite Walk_count; [done|done|done|by exists t|done].
  - rewrite no_dir_no_files; [|apply Hs|].
    2: { intros [t' Ht]. apply find_None in Ef; [congruence|apply Hs]. }
    cbn [Walk fst]. rewrite ReadDir_place by done. rewrite Ef. by destruct (IsNotFound (osError e)).
Qed.

(** ** Removing the files below a path *)

Definition is_file (n : Node) : bool := match n with RegularFile _ _ => true | Directory _ => false end.

(** The tree without the regular files that satisfy [P]. *)
Definition removed (P : list string -> bool) (o : OS) : OS :=
  with_nodes o (filter (fun kv : list string * Node => is_file kv.2 && P kv.1 = false) (nodes o)).

Definition without (P : list string -> bool) (s : Store FS) : Store FS :=
  with_fs s (with_os (sfs s) (removed P (os (sfs s)))).

Lemma removed_lookup P o k n : nodes (removed P o) !! k = Some n <->
  nodes o !! k = Some n /\ is_file n && P k = false.
Proof. unfold removed, with_nodes. cbn [nodes]. by rewrite map_lookup_filter_Some. Qed.

Lemma removed_dir P o p : is_dir (removed P o) p <-> is_dir o p.
Proof.
  unfold is_dir, node_at. destruct (bool_decide (p = [])); [done|]. split.
  - intros [t Ht]. exists t. by apply removed_lookup in Ht as [? _].
  - intros [t Ht]. exists t. by apply removed_lookup.
Qed.

Lemma removed_ext P Q o : (forall k n, nodes o !! k = Some n -> is_file n = true -> P k = Q k) ->
  removed P o = removed Q o.
Proof.
  intros H. unfold removed. f_equal. apply map_filter_ext. intros k n Hn. cbn [fst snd].
  destruct (is_file n) eqn:E; [|done]. by rewrite (H k n Hn E).
Qed.

Lemma removed_removed P Q o : removed P (removed Q o) = removed (fun k => Q k || P k) o.
Proof.
  unfold removed, with_nodes. cbn [nodes clock dirSize]. f_equal. rewrite map_filter_filter.
  apply map_filter_ext. intros k n _. cbn [fst snd].
  destruct (is_file n), (Q k), (P k); naive_solver.
Qed.

Lemma removed_wf P o : os_wf o -> os_wf (removed P o).
Proof.
  intros Hw p n [Hn _]%removed_lookup. apply Hw in Hn as [? ?]. split; [done|]. by apply removed_dir.
Qed.

Lemma without_ok P s : store_ok s -> store_ok (without P s).
Proof.
  intros [[H1 H2 H3 H4] Hg Hb]. split; [split| |]; cbn [without sfs with_fs root with_os os basePath]; try done.
  - by apply removed_wf.
  - by apply removed_dir.
  - intros p n [Hn _]%removed_lookup. by apply Hg in Hn.
Qed.

Lemma without_without P Q s : without P (without Q s) = without (fun k => Q k || P k) s.
Proof. unfold without, with_fs, with_os. cbn. by rewrite removed_removed. Qed.

Lemma without_place P s rel : place (without P s) rel = place s rel.
Proof. done. Qed.

Lemma removed_shallow P o p fuel : shallow o p fuel -> shallow (removed P o) p fuel.
Proof. intros H k n [Hn _]%removed_lookup. by apply H in Hn. Qed.

(** Files elsewhere are not affected. *)
Lemma removed_files P o p : (forall k, below p k = true -> P k = false) ->
  files_below (removed P o) p ≡ₚ files_below o p.
Proof.
  intros H. apply files_below_perm. intros k d. rewrite !files_below_elem.
  split; intros [Hb [t Ht]]; (split; [done|exists t]).
  - by apply removed_lookup in Ht as [? _].
  - apply removed_lookup. split; [done|]. rewrite (H k Hb). by rewrite andb_false_r.
Qed.

(** Deleting a stored file. *)
Lemma delete_at s rel d t : store_ok s -> node_at (os (sfs s)) (place s rel) = Some (RegularFile d t) ->
  StoreDelete s rel = (None, without (fun k => bool_decide (place s rel `prefix_of` k)) s).
Proof.
  intros Hs Hn. assert (Hw : os_wf (os (sfs s))) by apply Hs.
  unfold StoreDelete, mutate. cbn [IsWritable LocalFS_backend Delete]. unfold localDelete.
  rewrite update_ok by apply Hs. fold (place s rel). unfold os_step, Remove.
  rewrite (proj2 (find_spec _ _ _ Hw) Hn). cbn [fmap option_fmap option_map].
  unfold without. do 4 f_equal. unfold removed. f_equal. apply map_eq. intros k.
  apply option_eq. intros n. rewrite lookup_delete_Some, map_lookup_filter_Some. cbn [fst snd]. split.
  - intros [Hne Hk]. split; [done|]. apply andb_false_iff.
    destruct (bool_decide_reflect (place s rel `prefix_of` k)) as [[x ->]|]; [|by right]. exfalso.
    assert (Hx : x <> []) by (intros ->; by rewrite app_nil_r in Hne).
    destruct (above_dir _ (place s rel) x n Hw Hx) as [t' Ht']; [|congruence].
    rewrite node_at_ne; [done|]. apply Hw in Hk as [? _]. done.
  - intros [Hk Hf]. split; [|done]. intros <-. pose proof (Hw _ _ Hk) as [Hne _].
    rewrite node_at_ne in Hn by done. rewrite Hn in Hk. injection Hk as <-.
    rewrite bool_decide_true in Hf by done. done.
Qed.

Definition under (p : list string) (es : list DirEntry) (k : list string) : bool :=
  existsb (fun e => bool_decide (p ++ [eName e] `prefix_of` k)) es.

(** An entry of the directory at [p], as the walk sees it. *)
Definition entry_at (o : OS) (p : list string) (fuel : nat) (e : DirEntry) : Prop :=
  good_seg (eName e) /\
  ((exists d t, nodes o !! (p ++ [eName e]) = Some (RegularFile d t) /\ eIsDir e = false /\
      eSize e = Z.of_nat (len d)) \/
   (is_dir o (p ++ [eName e]) /\ eIsDir e = true /\ shallow o (p ++ [eName e]) fuel)).

Lemma siblings (p : list string) n m k : p ++ [n] `prefix_of` k -> p ++ [m] `prefix_of` k -> n = m.
Proof.
  intros [x ->] [y E]. rewrite <-!app_assoc in E. apply app_inv_head in E. by injection E.
Qed.

Lemma entry_at_removed o p fuel e e' : eName e <> eName e' -> entry_at o p fuel e' ->
  entry_at (removed (fun k => bool_decide (p ++ [eName e] `prefix_of` k)) o) p fuel e'.
Proof.
  intros Hne [Hg [(d & t & Hn & H)|(Hd & H & Hsh)]]; (split; [done|]).
  - left. exists d, t. split; [|done]. apply removed_lookup. split; [done|].
    apply andb_false_iff. right. apply bool_decide_eq_false. intros Hx. apply Hne.
    by apply (siblings p _ _ _ Hx).
  - right. rewrite removed_dir. split; [done|]. split; [done|]. by apply removed_shallow.
Qed.

Lemma entry_removed o p e e' : eName e <> eName e' ->
  let o' := removed (fun k => bool_decide (p ++ [eName e] `prefix_of` k)) o in
  entry_count o' p e' = entry_count o p e' /\ entry_bytes o' p e' = entry_bytes o p e'.
Proof.
  intros Hne o'. assert (Hp : files_below o' (p ++ [eName e']) ≡ₚ files_below o (p ++ [eName e'])).
  { apply removed_files. intros k [Hk _]%below_spec. apply bool_decide_eq_false.
    intros Hx. apply Hne. by apply (siblings p _ _ k). }
  unfold entry_count, entry_bytes. destruct (eIsDir e'); [|done].
  split; [by apply count_of_perm|by apply bytes_perm].
Qed.

Lemma without_none p s : without (under p []) s = s.
Proof.
  unfold without. assert (E : removed (under p []) (os (sfs s)) = os (sfs s)); [|by rewrite E; destruct s as [[]]].
  unfold removed. destruct (os (sfs s)) as [m cl ds]. unfold with_nodes. cbn [nodes clock dirSize]. f_equal.
  apply map_filter_id. intros k n _. cbn. by rewrite andb_false_r.
Qed.

(** The loop over the entries, when each visit removes its entry's files. *)
Lemma delete_entries rel fuel : rel_ok rel ->
  (forall s n c z, store_ok s -> good_seg n -> is_dir (os (sfs s)) (place s rel ++ [n]) ->
     shallow (os (sfs s)) (place s rel ++ [n]) fuel ->
     Walk fst delete_file (S fuel) (PathJoin [rel; n]) (s, (c, wrap64 z, [])) =
       (None, (without (fun k => bool_decide (place s rel ++ [n] `prefix_of` k)) s,
               (c + count_of (files_below (os (sfs s)) (place s rel ++ [n])),
                wrap64 (z + bytes (files_below (os (sfs s)) (place s rel ++ [n]))), [])))) ->
  forall es s c z, store_ok s -> NoDup (eName <$> es) ->
    (forall e, e ∈ es -> entry_at (os (sfs s)) (place s rel) fuel e) ->
    walkEntries (fun e st => if eIsDir e then Walk fst delete_file (S fuel) (PathJoin [rel; eName e]) st
                             else delete_file (PathJoin [rel; eName e]) e st) es (s, (c, wrap64 z, [])) =
      (None, (without (under (place s rel) es) s,
              (c + foldr (fun e a => entry_count (os (sfs s)) (place s rel) e + a) 0 es,
               wrap64 (z + foldr (fun e a => entry_bytes (os (sfs s)) (place s rel) e + a) 0 es), []))).
Proof.
  intros Hr IH. induction es as [|e es IHes]; intros s c z Hs Hnd Hes; cbn [walkEntries foldr].
  - by rewrite !Z.add_0_r, without_none.
  - cbn [fmap list_fmap] in Hnd. apply NoDup_cons in Hnd as [Hnin Hnd].
    destruct (Hes e) as [Hg He]; [by left|]. set (p := place s rel) in *.
    set (s1 := without (fun k => bool_decide (p ++ [eName e] `prefix_of` k)) s).
    assert (Hv : (if eIsDir e then Walk fst delete_file (S fuel) (PathJoin [rel; eName e]) (s, (c, wrap64 z, []))
        else delete_file (PathJoin [rel; eName e]) e (s, (c, wrap64 z, []))) =
      (None, (s1, (c + entry_count (os (sfs s)) p e, wrap64 (z + entry_bytes (os (sfs s)) p e), [])))).
    { unfold entry_count, entry_bytes. destruct He as [(d & t & Hn & -> & Ez)|(Hd & -> & Hsh)].
      - unfold delete_file. rewrite (delete_at s _ d t); [|done|].
        + rewrite place_child by done. rewrite wrap64_add, Ez. done.
        + rewrite place_child by done. rewrite node_at_ne by apply snoc_ne. done.
      - rewrite IH by done. done. }
    rewrite Hv. clear Hv.
    assert (Hne : forall e', e' ∈ es -> eName e <> eName e').
    { intros e' He' E. apply Hnin. rewrite E. apply list_elem_of_fmap. eauto. }
    rewrite (IHes s1); [|by apply without_ok|done|].
    2: { intros e' He'. apply (entry_at_removed _ p); [by apply Hne|]. apply Hes. by right. }
    change (place s1 rel) with p.
    rewrite (foldr_ext_in (entry_count (os (sfs s1)) p) (entry_count (os (sfs s)) p)).
    2: { intros e' He'. by apply entry_removed, Hne. }
    rewrite (foldr_ext_in (entry_bytes (os (sfs s1)) p) (entry_bytes (os (sfs s)) p)).
    2: { intros e' He'. by apply entry_removed, Hne. }
    unfold s1. rewrite without_without, !Z.add_assoc. done.
Qed.

(** ** What the theorems state *)

(** Everything below a directory is below one of its entries. *)
Lemma under_entries s rel es : store_ok s -> is_dir (os (sfs s)) (place s rel) ->
  StoreReadDir s rel = Ok es ->
  without (under (place s rel) (SliceStable by_name es)) s = without (below (place s rel)) s.
Proof.
  intros Hs Hd H. destruct (walk_entries s rel es Hs Hd H) as [Hp _]. unfold without. do 2 f_equal.
  apply removed_ext. intros k n Hk Hf. set (p := place s rel) in *. apply eq_true_iff_eq.
  unfold under. rewrite existsb_exists, below_spec. split.
  - intros (e & _ & [x ->]%bool_decide_eq_true). split; [rewrite <-app_assoc; by apply prefix_app_r|].
    intros E. apply (f_equal length) in E. rewrite !length_app in E. cbn in E. lia.
  - intros [[x ->] Hne]. destruct x as [|m x]; [by rewrite app_nil_r in Hne|].
    assert (Hm : exists node, nodes (os (sfs s)) !! (p ++ [m]) = Some node).
    { destruct x as [|y x]; [by exists n|]. destruct (above_dir (os (sfs s)) (p ++ [m]) (y :: x) n) as [t Ht].
      - apply Hs.
      - done.
      - rewrite <-app_assoc, node_at_ne; [exact Hk|]. by destruct p.
      - rewrite node_at_ne in Ht by apply snoc_ne. eauto. }
    destruct Hm as [node Hm]. exists (entry_of (os (sfs s)) (m, node)). split.
    + apply list_elem_of_In. rewrite Hp. apply list_elem_of_fmap. exists (m, node). split; [done|].
      by apply elem_of_children.
    + apply bool_decide_eq_true. cbn. exists x. by rewrite <-app_assoc.
Qed.

(** A walk that deletes, from any count. *)
Lemma Walk_delete fuel : forall rel s c z, store_ok s -> rel_ok rel ->
  is_dir (os (sfs s)) (place s rel) -> shallow (os (sfs s)) (place s rel) fuel ->
  Walk fst delete_file (S fuel) rel (s, (c, wrap64 z, [])) =
    (None, (without (below (place s rel)) s,
            (c + count_of (files_below (os (sfs s)) (place s rel)),
             wrap64 (z + bytes (files_below (os (sfs s)) (place s rel))), []))).
Proof.
  induction fuel as [|fuel IH]; intros rel s c z Hs Hr Hd Hsh;
    destruct (ReadDir_dir s rel Hs Hd) as [es Hes];
    destruct (entries_sum s rel es Hs Hd Hes) as [E1 E2]; rewrite <-E1, <-E2;
    rewrite <-(under_entries s rel es Hs Hd Hes);
    rewrite (Walk_S fst delete_file _ rel (s, (c, wrap64 z, [])) es Hes).
  - destruct (SliceStable by_name es) as [|e l] eqn:El; [by rewrite without_none, !Z.add_0_r|].
    destruct (sorted_entry s rel es e Hs Hd Hes) as (node & Hn & _); [rewrite El; by left|].
    destruct (not_shallow _ _ _ _ Hn Hsh).
  - apply delete_entries; [done| |done| |].
    + intros s' n c' z' Hs' Hg Hd' Hsh'. rewrite <-place_child in * by done.
      rewrite IH; [|done|by apply PathJoin_child|done|done]. do 2 f_equal. unfold without. do 2 f_equal.
      apply removed_ext. intros k m Hk Hf. apply eq_true_iff_eq. rewrite below_spec, bool_decide_eq_true.
      split; [by intros [? _]|]. intros Hp. split; [done|]. intros E. destruct Hd' as [t Ht].
      rewrite E, node_at_ne in Ht; [|intros E0; rewrite E0 in Hk; apply (ok_wf _ (st_fs _ Hs')) in Hk as [? _]; done].
      rewrite Hk in Ht. injection Ht as ->. done.
    + destruct (walk_entries s rel es Hs Hd Hes) as [-> _]. rewrite <-list_fmap_compose.
      assert (E : forall l, eName ∘ entry_of (os (sfs s)) <$> l = l.*1)
        by (intros l; apply list_fmap_ext; by intros _ [? [|]] _).
      rewrite E. apply children_names.
    + intros e He. destruct (sorted_entry s rel es e Hs Hd Hes He) as (node & Hn & Hg & Ed & Ez).
      split; [done|]. destruct node as [d t|t]; [left; exists d, t; eauto|right].
      split; [exists t; by rewrite node_at_ne by apply snoc_ne|]. split; [done|]. by apply shallow_child.
Qed.

Lemma delete_tree s fuel rel : store_ok s -> rel_ok rel -> is_dir (os (sfs s)) (place s rel) ->
  shallow (os (sfs s)) (place s rel) fuel ->
  DeleteTree (S fuel) s rel =
    (count_of (files_below (os (sfs s)) (place s rel)), wrap64 (bytes (files_below (os (sfs s)) (place s rel))), [],
     without (below (place s rel)) s).
Proof.
  intros Hs Hr Hd Hsh. unfold DeleteTree. change 0 with (wrap64 0) at 2. by rewrite Walk_delete.
Qed.

(** A write of the store adds at most its own bytes below any path. *)
Lemma bytes_submseteq l l' : l ⊆+ l' -> bytes l <= bytes l'.
Proof.
  intros [k ->]%submseteq_Permutation. rewrite bytes_app. pose proof (bytes_pos k). lia.
Qed.

Lemma write_adds s rel body s' base : store_ok s -> StoreWrite s rel body = (None, s') ->
  bytes (files_below (os (sfs s')) base) <= bytes (files_below (os (sfs s)) base) + Z.of_nat (len body).
Proof.
  intros Hs H. unfold StoreWrite, mutate in H. cbn [IsWritable LocalFS_backend] in H.
  pose proof (Write_changes (sfs s) (StoreJoin s [rel]) (reader body) (Z.of_nat (len body)) (st_fs _ Hs)) as Hc.
  destruct (Write (sfs s) (StoreJoin s [rel]) (reader body) (Z.of_nat (len body))) as [err f] eqn:E.
  destruct err; [done|]. cbn [fmap option_fmap option_map] in H. injection H as <-.
  destruct Hc as (_ & Hw & Hch & Hn). destruct (Hn eq_refl) as [_ Hn']. clear Hn. fold (place s rel) in *.
  cbn [with_fs sfs]. set (o := os (sfs s)) in *. set (o' := os f) in *. set (p := place s rel) in *.
  assert (Hsub : files_below o' base ⊆+ (p, body) :: files_below o base).
  { apply NoDup_submseteq; [apply files_below_NoDup|]. intros [k d].
    rewrite files_below_elem, elem_of_cons, files_below_elem. intros [Hb [t Hk]].
    assert (Hk0 : k <> []) by (by apply Hw in Hk as [? _]).
    destruct (decide (k = p)) as [->|Hne].
    - left. rewrite node_at_ne, Hk in Hn' by done. injection Hn' as -> _. done.
    - right. split; [done|]. exists t. destruct (Hch k Hne) as [Ek|(_ & [t' Hd] & _)].
      + rewrite !node_at_ne in Ek by done. congruence.
      + rewrite node_at_ne in Hd by done. congruence. }
  apply bytes_submseteq in Hsub.
  change (bytes ((p, body) :: files_below o base)) with (Z.of_nat (len body) + bytes (files_below o base)) in Hsub.
  lia.
Qed.

(** ** A concrete store *)

Definition pkg_os : OS := {|
  nodes := list_to_map [(["srv"], Directory 1); (["srv"; "npm"], Directory 1);
    (["srv"; "npm"; "left-pad"], Directory 1); (["srv"; "npm"; "left-pad"; "1.0.0.tgz"], RegularFile "abcde" 2);
    (["srv"; "npm"; "left-pad"; "meta"], Directory 1);
    (["srv"; "npm"; "left-pad"; "meta"; "packument.json"], RegularFile "{}" 3);
    (["srv"; "npm"; "b.tgz"], RegularFile "xyz" 2)];
  clock := 10; dirSize := 4096 |}.

Definition pkg_store : Store FS := NewStore {| root := "/srv"; os := pkg_os |} "/npm/".

Definition os_goodb (o : OS) : bool :=
  forallb (fun kv : list string * Node => bool_decide (Forall good_seg kv.1)) (map_to_list (nodes o)).

Definition shallowb (o : OS) (p : list string) (fuel : nat) : bool :=
  forallb (fun kv : list string * Node => negb (below p kv.1) || (length kv.1 <=? length p + fuel)%nat)
          (map_to_list (nodes o)).

Lemma forall_nodes (f : list string * Node -> bool) o : forallb f (map_to_list (nodes o)) = true ->
  forall k n, nodes o !! k = Some n -> f (k, n) = true.
Proof.
  intros H k n Hk. rewrite forallb_forall in H. apply H. by apply list_elem_of_In, elem_of_map_to_list.
Qed.

Lemma os_goodb_spec o : os_goodb o = true -> os_good o.
Proof. intros H p n Hp. apply (forall_nodes _ _ H) in Hp. by apply bool_decide_eq_true in Hp. Qed.

Lemma shallowb_spec o p fuel : shallowb o p fuel = true -> shallow o p fuel.
Proof.
  intros H k n Hk Hb. apply (forall_nodes _ _ H) in Hk. cbn [fst] in Hk. rewrite Hb in Hk.
  cbn [negb orb] in Hk. by apply Nat.leb_le.
Qed.

Lemma pkg_store_ok : store_ok pkg_store.
Proof.
  split.
  - by destruct (New_ok "/srv" pkg_os {| root := "/srv"; os := pkg_os |}) as [? _];
      [vm_compute|vm_compute|apply os_wfb_spec; by vm_compute|vm_compute|].
  - apply os_goodb_spec. by vm_compute.
  - right. apply (bool_decide_unpack _). by vm_compute.
Qed.

(** ** Properties *)

(** the path of a store never leaves its base: it is the base path, then
    the segments of the parts, each resolved on its own, whatever ".." or empty
    segments they hold. *)
Theorem StoreJoin_confined (s : Store FS) parts : rel_ok (basePath s) ->
  resolve (StoreJoin s parts) = resolve (basePath s) ++ concat (resolve <$> parts).
Proof. intros Hb. by apply StoreJoin_resolve. Qed.

Lemma StoreJoin_confined_witness :
  resolve (StoreJoin pkg_store ["../../etc"; "x/../passwd"]) = ["npm"; "etc"; "passwd"].
Proof. exact (StoreJoin_confined pkg_store _ (st_base _ pkg_store_ok)). Defined.

(** the usage of a path is the number of the regular files below it and
    the sum of their sizes, as an int64, whatever the shape of the tree; a
    missing path, or a file, has none. *)
Theorem Usage_spec s rel fuel : store_ok s -> rel_ok rel ->
  shallow (os (sfs s)) (place s rel) fuel ->
  Usage (S fuel) s rel = (Z.of_nat (length (files_below (os (sfs s)) (place s rel))),
                          wrap64 (bytes (files_below (os (sfs s)) (place s rel)))).
Proof. apply usage_files. Qed.

Lemma Usage_spec_witness :
  Usage 4 pkg_store "" = (3, 10) /\ Usage 4 pkg_store "left-pad/meta" = (1, 2) /\
  Usage 4 pkg_store "b.tgz" = (0, 0).
Proof.
  split; [|split]; (refine (eq_trans (Usage_spec pkg_store _ 3 pkg_store_ok _ _) _);
    [first [by left|right; apply (bool_decide_unpack _); by vm_compute]
    |apply shallowb_spec; by vm_compute|by vm_compute]).
Defined.

(** deleting a tree deletes exactly the regular files below the path,
    each once: nothing else changes, no error is reported, and the totals are
    those the files had. *)
Theorem DeleteTree_spec s rel fuel : store_ok s -> rel_ok rel -> is_dir (os (sfs s)) (place s rel) ->
  shallow (os (sfs s)) (place s rel) fuel ->
  exists s', DeleteTree (S fuel) s rel = (Usage (S fuel) s rel, [], s') /\
    store_ok s' /\ Usage (S fuel) s' rel = (0, 0) /\
    forall k, nodes (os (sfs s')) !! k =
      if decide (k ∈ (files_below (os (sfs s)) (place s rel)).*1) then None else nodes (os (sfs s)) !! k.
Proof.
  intros Hs Hr Hd Hsh. exists (without (below (place s rel)) s). split; [|split; [|split]].
  - rewrite delete_tree by done. by rewrite usage_files.
  - by apply without_ok.
  - rewrite usage_files; [|by apply without_ok|done|by apply removed_shallow].
    rewrite without_place. destruct (files_below _ _) as [|[k d] l] eqn:E; [done|].
    assert (Hk : (k, d) ∈ files_below (os (sfs (without (below (place s rel)) s))) (place s rel))
      by (rewrite E; by left).
    apply files_below_elem in Hk as [Hb [t [_ Hk]%removed_lookup]]. by rewrite Hb in Hk.
  - intros k. apply option_eq. intros n. etrans; [apply removed_lookup|]. case_decide as Hk.
    + apply list_elem_of_fmap in Hk as ([k' d] & -> & [Hb [t Ht]]%files_below_elem). cbn [fst].
      rewrite Hb, Ht. split; [by intros [[= <-] ?]|done].
    + split; [by intros [? _]|]. intros Hn. split; [done|]. destruct n as [d t|]; [|done].
      destruct (below (place s rel) k) eqn:Eb; [|done]. destruct Hk. apply list_elem_of_fmap.
      exists (k, d). split; [done|]. apply files_below_elem. eauto.
Qed.

Lemma DeleteTree_spec_witness : exists s',
  DeleteTree 4 pkg_store "left-pad" = (2, 7, [], s') /\ Usage 4 s' "" = (1, 3).
Proof.
  destruct (DeleteTree_spec pkg_store "left-pad" 3 pkg_store_ok) as (s' & E & Hs & _ & _).
  - right. apply (bool_decide_unpack _). by vm_compute.
  - exists 1. by vm_compute.
  - apply shallowb_spec. by vm_compute.
  - exists s'. split; [etrans; [exact E|by vm_compute]|].
    assert (E' : s' = (DeleteTree 4 pkg_store "left-pad").2) by (by rewrite E). rewrite E'. by vm_compute.
Defined.

(** C34: a write of the bytes that the guard was asked about keeps the quota: on a
    local mount whose tree can be walked, when the guard lets a publish of some
    bytes through, a write of exactly these bytes leaves the files below the base
    path with at most QuotaBytes bytes, as long as the sizes add up in an int64.
    The guard is not asked about the metadata and indexes a publish writes besides
    ([push_exceeds_quota]). *)
Theorem quota_enforced s g ex rel body s' fuel : store_ok s -> 0 < QuotaBytes g ->
  shallow (os (sfs s)) (place s "") fuel ->
  in64 (bytes (files_below (os (sfs s)) (place s "")) + Z.of_nat (len body)) ->
  Check (S fuel) g (Some s) ex (Z.of_nat (len body)) = None ->
  StoreWrite s rel body = (None, s') ->
  bytes (files_below (os (sfs s')) (place s "")) <= QuotaBytes g.
Proof.
  intros Hs Hq Hsh Hin Hc Hw. apply (write_adds s rel body s' (place s "") Hs) in Hw.
  unfold Check in Hc. rewrite (proj2 (Z.ltb_lt _ _) Hq) in Hc. rewrite usage_files in Hc by (done || by left).
  rewrite wrap64_add, wrap64_id in Hc by done.
  destruct (Immutable g && ex); [done|]. destruct (QuotaBytes g <? _) eqn:E in Hc; [done|].
  apply Z.ltb_ge in E. lia.
Qed.

Lemma quota_enforced_witness :
  let g := {| Immutable := false; QuotaBytes := 15 |} in
  let s' := (StoreWrite pkg_store "../c.tgz" "12345").2 in
  Check 4 g (Some pkg_store) false 5 = None /\ Check 4 g (Some s') false 1 = Some 413 /\
  bytes (files_below (os (sfs s')) (place pkg_store "")) <= 15.
Proof.
  intros g s'. split; [by vm_compute|split; [by vm_compute|]].
  apply (quota_enforced pkg_store g false "../c.tgz" "12345" s' 3 pkg_store_ok); [done| | | |].
  - apply shallowb_spec. by vm_compute.
  - vm_compute. split; discriminate.
  - by vm_compute.
  - unfold s'. vm_compute. reflexivity.
Defined.

(** ** The pull-through cache *)

Lemma StoreRead_place s rel : store_ok s -> forall b, StoreRead s rel = Ok b <->
  exists t, node_at (os (sfs s)) (place s rel) = Some (RegularFile b t).
Proof.
  intros Hs b. assert (Hw : os_wf (os (sfs s))) by apply Hs.
  unfold StoreRead. cbn [Open LocalFS_backend]. unfold localOpen. rewrite at_path_ok by apply Hs.
  fold (place s rel). destruct (find (os (sfs s)) (place s rel)) as [[d t|t]|e] eqn:E.
  - apply find_spec in E; [|done]. rewrite E. split; [intros [= <-]; eauto|by intros [t' [= -> ->]]].
  - apply find_spec in E; [|done]. rewrite E. split; [done|by intros [t' ?]].
  - apply find_None in E; [|done]. rewrite E. split; [done|by intros [t' ?]].
Qed.

Lemma Exists_place s rel : store_ok s ->
  Exists s rel = bool_decide (is_Some (node_at (os (sfs s)) (place s rel))).
Proof. intros Hs. apply (local_exists_at (sfs s) (StoreJoin s [rel])), Hs. Qed.

Lemma read_exists s rel b : store_ok s -> StoreRead s rel = Ok b -> Exists s rel = true.
Proof.
  intros Hs [t Ht]%(StoreRead_place s rel Hs). rewrite Exists_place by done. rewrite Ht.
  by apply bool_decide_eq_true.
Qed.

Lemma changes_good o o' p : os_good o -> os_wf o' -> Forall good_seg p -> changes o o' p -> os_good o'.
Proof.
  intros Hg Hw Hp Hc q n Hq. assert (Hq0 : q <> []) by (by apply Hw in Hq as [? _]).
  destruct (decide (q = p)) as [->|Hne]; [done|].
  destruct (Hc q Hne) as [E|(_ & _ & [x ->])]; [|by apply Forall_app in Hp as [? _]].
  rewrite !node_at_ne, Hq in E by done. by apply (Hg q n).
Qed.

Lemma backend_write_read s rel body s' : store_ok s ->
  StoreWrite s rel body = (None, s') -> store_ok s' /\ StoreRead s' rel = Ok body.
Proof.
  intros Hs H. unfold StoreWrite, mutate in H. cbn [IsWritable LocalFS_backend] in H.
  pose proof (Write_changes (sfs s) (StoreJoin s [rel]) (reader body) (Z.of_nat (len body)) (st_fs _ Hs)) as Hc.
  destruct (Write (sfs s) (StoreJoin s [rel]) (reader body) (Z.of_nat (len body))) as [err f] eqn:E.
  destruct err; [done|]. cbn [fmap option_fmap option_map] in H. injection H as <-.
  destruct Hc as (Hr & Hw & Hch & Hn). destruct (Hn eq_refl) as [_ Hn'].
  assert (Hs' : store_ok (with_fs s f)).
  { split; cbn [with_fs sfs]; [by eapply with_os_ok; [apply Hs| | |]| |apply Hs].
    eapply changes_good; [apply Hs|done|apply target_good|exact Hch]. }
  split; [done|]. apply StoreRead_place; [done|]. cbn [with_fs sfs]. exists (clock (os f)).
  unfold place. cbn [with_fs sfs]. rewrite (target_root _ _ _ Hr). exact Hn'.
Qed.

(** once an immutable file was fetched and cached, every later fetch of it
    returns the same bytes and changes nothing, whatever the upstream serves
    then, even nothing. *)
Theorem FetchCached_stable Get Get' ttl now now' s rel up up' b s' : store_ok s ->
  FetchCached Get ttl now s rel up false = (Ok b, s') ->
  StoreRead s rel = Ok b \/ (StoreWrite s rel b).1 = None ->
  FetchCached Get' ttl now' s' rel up' false = (Ok b, s').
Proof.
  intros Hs H Hw.
  assert (Hgo : forall s0, store_ok s0 -> StoreRead s0 rel = Ok b ->
    FetchCached Get' ttl now' s0 rel up' false = (Ok b, s0)).
  { intros s0 Hs0 Hr. unfold FetchCached. by rewrite (read_exists s0 rel b), Hr. }
  unfold FetchCached in H. cbn [negb orb] in H. rewrite andb_true_r in H.
  destruct (StoreRead s rel) as [b0|] eqn:Er.
  - rewrite (read_exists s rel b0) in H by done. injection H as <- <-. by apply Hgo.
  - assert (Hif : (if Exists s rel then @None string else None) = None) by (by destruct (Exists s rel)).
    rewrite Hif in H. destruct (Get up) as [r|e1]; [|by destruct e1].
    destruct (rErr r); [done|]. injection H as <- <-. destruct Hw as [|Hw]; [done|].
    destruct (StoreWrite s rel (rData r)) as [err s2] eqn:Ew. cbn [fst snd] in *. subst err.
    destruct (backend_write_read s rel (rData r) s2 Hs Ew) as [Hs2 Hr]. by apply Hgo.
Qed.

Lemma FetchCached_stable_witness :
  let up := fun p => if String.eqb p "/c.tgz" then Ok (reader "12345") else Err UpNotFound in
  let s' := (FetchCached up 0 50 pkg_store "c.tgz" "/c.tgz" false).2 in
  FetchCached (fun _ => Err UpNotFound) 0 99 s' "c.tgz" "/gone" false = (Ok "12345", s').
Proof.
  intros up s'. apply (FetchCached_stable up _ 0 50 99 pkg_store "c.tgz" "/c.tgz" "/gone" "12345" s' pkg_store_ok).
  - unfold s'. vm_compute. reflexivity.
  - right. by vm_compute.
Defined.
