(* ===== verification/StoreLaws.v ===== *)
(** * The common package store on any lawful mount

    PkgStoreSafety.v is about local directories; here the mount is any instance
    of [BackendLaws], and of [AtomicWrites] where a failed change matters.
    [stored] is the file at a path of the store: what a write, a stream and a
    deletion do to it, to the files at other paths, and what a read returns. *)

From Stdlib Require Import ZArith Lia Ascii.
From stdpp Require Import base list strings.
From S2P Require Import Prelude GoStrings GoPath Backend PkgStore LocalFS AtomicFS PkgStoreSafety.

Local Open Scope Z_scope.

Section laws.
Context {F : Type} {HF : Backend F} {HL : BackendLaws F}.
Implicit Types s : Store F.

Definition store_wf s : Prop := rel_ok (basePath s) /\ wf (sfs s).

Definition stored s (rel : string) : option string := file_at (sfs s) (StoreJoin s [rel]).

(** The path of a file in the store: not the base itself. *)
Definition inside (rel : string) : Prop := resolve rel <> [].

Lemma store_path s rel : rel_ok (basePath s) -> inside rel -> good_path (StoreJoin s [rel]).
Proof.
  intros Hb Hi. destruct (StoreJoin_resolve s [rel] Hb) as [E [H|H]]; [|done].
  rewrite H in E. cbn [fmap list_fmap concat] in E. rewrite app_nil_r in E.
  change (resolve "") with (@nil string) in E. by symmetry in E; apply app_eq_nil in E as [_ ?].
Qed.

Lemma store_path_inj s rel rel' : rel_ok (basePath s) -> StoreJoin s [rel] = StoreJoin s [rel'] -> resolve rel = resolve rel'.
Proof.
  intros Hb E. apply (f_equal resolve) in E.
  rewrite !(fun r => proj1 (StoreJoin_resolve s [r] Hb)) in E. cbn [fmap list_fmap concat] in E.
  rewrite !app_nil_r in E. by apply app_inv_head in E.
Qed.

Lemma stored_with_fs s f rel : stored (with_fs s f) rel = file_at f (StoreJoin s [rel]).
Proof. done. Qed.

(** ** Changes *)

Lemma stream_wf s rel r n : store_wf s -> store_wf (WriteStream s rel r n).2.
Proof.
  intros [Hb Hw]. unfold WriteStream, mutate. destruct (IsWritable _); [|done].
  pose proof (Write_wf (sfs s) (StoreJoin s [rel]) r n Hw) as H.
  destruct (Write _ _ _ _) as [e f]. by split.
Qed.

Lemma stream_base s rel r n : basePath (WriteStream s rel r n).2 = basePath s.
Proof. unfold WriteStream, mutate. destruct (IsWritable _); [|done]. by destruct (Write _ _ _ _). Qed.

Lemma stream_other s rel r n q : store_wf s -> inside rel -> inside q -> resolve q <> resolve rel ->
  stored (WriteStream s rel r n).2 q = stored s q.
Proof.
  intros [Hb Hw] Hi Hq Hne. unfold WriteStream, mutate. destruct (IsWritable _); [|done].
  pose proof (Write_other (sfs s) (StoreJoin s [rel]) r n (StoreJoin s [q]) Hw) as H.
  destruct (Write _ _ _ _) as [e f]. apply H; [by apply store_path..|].
  intros E. by apply Hne, (store_path_inj s).
Qed.

Lemma stream_ok s rel r n s' : store_wf s -> inside rel -> WriteStream s rel r n = (None, s') ->
  rErr r = None /\ stored s' rel = Some (rData r).
Proof.
  intros [Hb Hw] Hi. unfold WriteStream, mutate. destruct (IsWritable _); [|done].
  destruct (Write _ _ _ _) as [[e|] f] eqn:E; [done|]. intros [= <-].
  eapply Write_file; [exact Hw|by apply store_path|exact E].
Qed.

Lemma stream_failed {HA : AtomicWrites F} s rel x n e s' : store_wf s -> inside rel ->
  WriteStream s rel (reader x) n = (Some e, s') -> stored s' rel = stored s rel.
Proof.
  intros [Hb Hw] Hi. unfold WriteStream, mutate. destruct (IsWritable _); [|by intros [= _ <-]].
  destruct (Write _ _ _ _) as [[e'|] f] eqn:E; [|done]. intros [= _ <-].
  eapply Write_atomic; [exact Hw|by apply store_path|exact E].
Qed.

Lemma StoreWrite_stream s rel x : StoreWrite s rel x = WriteStream s rel (reader x) (Z.of_nat (len x)).
Proof. done. Qed.

Lemma StoreDelete_file s rel : (StoreDelete s rel).2 = s \/
  (StoreDelete s rel).2 = with_fs s (Delete (sfs s) (StoreJoin s [rel])).2.
Proof.
  unfold StoreDelete, mutate. destruct (IsWritable _); [|by left].
  destruct (Delete _ _) as [[e|] f]; by right.
Qed.

Lemma store_delete_wf s rel : store_wf s -> store_wf (StoreDelete s rel).2.
Proof.
  intros [Hb Hw]. destruct (StoreDelete_file s rel) as [->| ->]; [done|]. split; [done|]. by apply Delete_wf.
Qed.

Lemma delete_base s rel : basePath (StoreDelete s rel).2 = basePath s.
Proof. by destruct (StoreDelete_file s rel) as [->| ->]. Qed.

Lemma delete_other s rel q : store_wf s -> inside rel -> inside q -> resolve q <> resolve rel ->
  stored (StoreDelete s rel).2 q = stored s q.
Proof.
  intros [Hb Hw] Hi Hq Hne. destruct (StoreDelete_file s rel) as [->| ->]; [done|]. rewrite stored_with_fs.
  apply Delete_other; [done|by apply store_path..|]. intros E. by apply Hne, (store_path_inj s).
Qed.

(** A deletion leaves the file or takes it. *)
Lemma delete_stored {HA : AtomicWrites F} s rel : store_wf s -> inside rel ->
  stored (StoreDelete s rel).2 rel = stored s rel \/ stored (StoreDelete s rel).2 rel = None.
Proof.
  intros [Hb Hw] Hi. destruct (StoreDelete_file s rel) as [->| ->]; [by left|]. rewrite stored_with_fs.
  destruct (Delete _ _) as [[e|] f] eqn:E; cbn [snd].
  - left. eapply Delete_atomic; [exact Hw|by apply store_path|exact E].
  - right. apply gone_file; [|by apply store_path|].
    + pose proof (Delete_wf (sfs s) (StoreJoin s [rel]) Hw) as H. by rewrite E in H.
    + eapply Delete_gone; [exact Hw|by apply store_path|exact E].
Qed.

(** ** Reading *)

Lemma StoreRead_stored {HA : AtomicWrites F} s rel : store_wf s ->
  forall b, StoreRead s rel = Ok b <-> stored s rel = Some b.
Proof.
  intros [Hb Hw] b. unfold StoreRead, stored, file_at. destruct (Open _ _) as [[r fi]|e] eqn:E; [|done].
  destruct (IsDir fi) eqn:Ed.
  - pose proof (Open_dir _ _ _ _ Hw E Ed) as Hr. by destruct (rErr r).
  - destruct (rErr r) eqn:Er; [done|]. split; congruence.
Qed.

(** ** Sizes *)

Lemma stream_stat s rel r n s' : store_wf s -> inside rel -> WriteStream s rel r n = (None, s') ->
  exists fi, StoreStat s' rel = Ok fi /\ IsDir fi = false /\ Size fi = Z.of_nat (len (rData r)).
Proof.
  intros [Hb Hw] Hi. unfold WriteStream, mutate. destruct (IsWritable _); [|done].
  destruct (Write _ _ _ _) as [[e|] f] eqn:E; [done|]. intros [= <-].
  eapply Write_stat; [exact Hw|by apply store_path|exact E].
Qed.

End laws.
