(* ===== verification/StoreListing.v ===== *)
(** * The directories of a package store

    [Names] adds to [Listings] that directories list proper names, and that a
    deletion reports "not found" only when there is no file.  Over any such mount: which listings a change of a file leaves, and when a listing names a
    file.  Local directories whose nodes have proper names qualify. *)

From Stdlib Require Import ZArith Lia Ascii.
From stdpp Require Import base list strings.
From S2P Require Import Prelude GoStrings GoPath Backend LocalFS AtomicFS Listing PkgStore PkgStoreSafety StoreLaws.

Local Open Scope Z_scope.

Class Names (F : Type) `{Listings F} := {
  named : F -> Prop;
  Write_named f p r n : wf f -> named f -> named (Write f p r n).2;
  Delete_named f p : wf f -> named f -> named (Delete f p).2;
  named_listed f p es e : wf f -> named f -> ReadDir f p = Ok es -> e ∈ es -> good_seg (eName e);
  missing_gone f p e f' : wf f -> good_path p -> Delete f p = (Some e, f') -> PkgStore.IsNotFound e = true -> file_at f p = None;
}.

#[export] Program Instance LocalFS_names : Names FS := {| named f := os_good (os f) |}.
Next Obligation.
  intros f p r n Hf Hg. pose proof (Write_changes f p r n Hf) as H. destruct (Write f p r n) as [e f'].
  destruct H as (_ & Hw & Hc & _). cbn in *. eapply changes_good; [exact Hg|done|apply target_good|exact Hc].
Qed.
Next Obligation.
  intros f p Hf Hg. pose proof (Delete_changes f p Hf) as H. destruct (Delete f p) as [e f'].
  destruct H as (_ & Hw & Hc & _). cbn in *. eapply changes_good; [exact Hg|done|apply target_good|exact Hc].
Qed.
Next Obligation.
  intros f p es e Hf Hg Hr He. destruct (local_listed f p es Hf Hr) as (t & _ & Hl).
  apply Hl in He as (s & n & Hn & ->). cbn. apply Hg, Forall_app in Hn as [_ Hn]. by apply Forall_cons in Hn as [? _].
Qed.
Next Obligation.
  intros f p e f' Hf Hp Hd _. cbn in Hf, Hd. unfold localDelete in Hd. rewrite update_ok in Hd by done.
  rewrite local_file_at by done. destruct (node_at _ _) as [[x t|t]|] eqn:E; [|done..].
  unfold Remove in Hd. rewrite (proj2 (find_spec _ _ _ (ok_wf _ Hf)) E) in Hd. unfold os_step in Hd.
  repeat case_match; simplify_eq.
Qed.

Section listings.
Context {F : Type} {HF : Backend F} {HL : BackendLaws F} {HD : Listings F} {HN : Names F}.
Implicit Types s : Store F.

(** A store whose mount is well formed and lists proper names. *)
Record tidy s : Prop := { tidy_wf : store_wf s; tidy_named : named (sfs s) }.

(** Neither is below the other. *)
Definition apart (rel dir : string) : Prop :=
  ~ resolve dir `prefix_of` resolve rel /\ ~ resolve rel `prefix_of` resolve dir.

Lemma store_unrelated s rel dir : rel_ok (basePath s) -> inside rel -> inside dir -> apart rel dir ->
  unrelated (StoreJoin s [rel]) (StoreJoin s [dir]).
Proof.
  intros Hb Hr Hd [H1 H2]. unfold unrelated.
  assert (E : forall q, inside q -> Split (StoreJoin s [q]) "/" = resolve (basePath s) ++ resolve q).
  { intros q Hq. rewrite <-good_path_resolve by (by apply store_path).
    rewrite (proj1 (StoreJoin_resolve s [q] Hb)). cbn [fmap list_fmap concat]. by rewrite app_nil_r. }
  rewrite !E by done. split; intros H; [apply H1|apply H2]; by apply prefix_app_inv in H.
Qed.

Lemma write_tidy s rel b : tidy s -> tidy (StoreWrite s rel b).2.
Proof.
  intros [Hw Hn]. split; [apply stream_wf, Hw|]. destruct Hw as [Hb Hw]. unfold StoreWrite, mutate.
  destruct (IsWritable _); [|done]. pose proof (Write_named (sfs s) (StoreJoin s [rel]) (reader b) (Z.of_nat (len b)) Hw Hn) as H.
  by destruct (Write _ _ _ _).
Qed.

Lemma delete_tidy s rel : tidy s -> tidy (StoreDelete s rel).2.
Proof.
  intros [Hw Hn]. split; [by apply store_delete_wf|]. destruct (StoreDelete_file s rel) as [->| ->]; [done|].
  apply Delete_named; [apply Hw|done].
Qed.

Lemma write_lists s rel b dir : tidy s -> inside rel -> inside dir -> apart rel dir ->
  StoreReadDir (StoreWrite s rel b).2 dir = StoreReadDir s dir.
Proof.
  intros [[Hb Hw] _] Hr Hd Ha. unfold StoreReadDir, StoreWrite, mutate. destruct (IsWritable _); [|done].
  pose proof (Write_lists (sfs s) (StoreJoin s [rel]) (reader b) (Z.of_nat (len b)) (StoreJoin s [dir]) Hw
    (store_path _ _ Hb Hr) (store_path _ _ Hb Hd) (store_unrelated _ _ _ Hb Hr Hd Ha)) as H.
  destruct (Write _ _ _ _) as [e f]. cbn [with_fs sfs fst snd fmap option_fmap option_map] in *.
  change (StoreJoin (with_fs s f) [dir]) with (StoreJoin s [dir]). by rewrite H.
Qed.

Lemma delete_lists s rel dir : tidy s -> inside rel -> inside dir -> apart rel dir ->
  StoreReadDir (StoreDelete s rel).2 dir = StoreReadDir s dir.
Proof.
  intros [[Hb Hw] _] Hr Hd Ha. destruct (StoreDelete_file s rel) as [->| ->]; [done|]. unfold StoreReadDir.
  change (StoreJoin (with_fs s (Delete (sfs s) (StoreJoin s [rel])).2) [dir]) with (StoreJoin s [dir]). cbn [with_fs sfs].
  rewrite Delete_lists; [done|done|by apply store_path..|by apply store_unrelated].
Qed.

Lemma lists_named s dir es e : tidy s -> StoreReadDir s dir = Ok es -> e ∈ es -> good_seg (eName e).
Proof.
  intros [[Hb Hw] Hn]. unfold StoreReadDir. destruct (ReadDir _ _) as [es'|er] eqn:E.
  - intros [= ->]. by eapply named_listed.
  - destruct (PkgStore.IsNotFound er); [|done]. intros [= <-] H. by apply elem_of_nil in H.
Qed.

(** A path of the store below another. *)
Lemma store_child s dir x rel : rel_ok (basePath s) -> inside dir -> good_seg x -> resolve rel = resolve dir ++ [x] ->
  StoreJoin s [rel] = StoreJoin s [dir] +:+ "/" +:+ x.
Proof.
  intros Hb Hd Hx E. assert (Hr : inside rel) by (unfold inside; rewrite E; by destruct (resolve dir)).
  assert (Hg : good_path (StoreJoin s [dir] +:+ "/" +:+ x)) by (apply good_child; [by apply store_path|done]).
  rewrite <-(Join_Split (StoreJoin s [rel]) "/"), <-(Join_Split (StoreJoin s [dir] +:+ "/" +:+ x) "/"). f_equal.
  change ("/" +:+ x) with (String "/" x). rewrite Split_app, (Split_single x) by apply Hx.
  rewrite <-!good_path_resolve by (by apply store_path). rewrite !(proj1 (StoreJoin_resolve s _ Hb)).
  cbn [fmap list_fmap concat]. by rewrite !app_nil_r, E, app_assoc.
Qed.

(** A file's path, up to its spelling. *)
Lemma stored_same s rel rel' : rel_ok (basePath s) -> inside rel -> resolve rel = resolve rel' -> stored s rel = stored s rel'.
Proof.
  intros Hb Hi E. unfold stored. f_equal. assert (Hi' : inside rel') by (unfold inside; by rewrite <-E).
  rewrite <-(Join_Split (StoreJoin s [rel]) "/"), <-(Join_Split (StoreJoin s [rel']) "/"). f_equal.
  rewrite <-!good_path_resolve by (by apply store_path). rewrite !(proj1 (StoreJoin_resolve s _ Hb)).
  cbn [fmap list_fmap concat]. by rewrite E.
Qed.

(** What [ListFiles] of a directory returns: the files in it, each name once. *)
Lemma file_in_listing s dir x rel es : tidy s -> inside dir -> good_seg x -> resolve rel = resolve dir ++ [x] ->
  ListFiles s dir = Ok es -> is_Some (stored s rel) -> exists e, e ∈ es /\ eName e = x.
Proof.
  intros [[Hb Hw] _] Hd Hx E Hl Hs. unfold stored in Hs. rewrite (store_child s dir x rel) in Hs by done.
  destruct (file_listed (sfs s) (StoreJoin s [dir]) x Hw (store_path _ _ Hb Hd) Hx Hs) as (l & e & Hr & He & Hn & Hf).
  revert Hl. unfold ListFiles, StoreReadDir. rewrite Hr. intros [= <-]. exists e. split; [|done].
  rewrite SliceStable_perm. apply list_elem_of_In, filter_In. split; [by apply list_elem_of_In|by rewrite Hf].
Qed.

Lemma listing_has_file s dir es e rel : tidy s -> inside dir -> ListFiles s dir = Ok es -> e ∈ es ->
  resolve rel = resolve dir ++ [eName e] -> good_seg (eName e) /\ is_Some (stored s rel).
Proof.
  intros Ht Hd Hl He E. pose proof Ht as [[Hb Hw] Hn]. revert Hl. unfold ListFiles.
  destruct (StoreReadDir s dir) as [l|] eqn:Er; [|done]. intros [= <-].
  rewrite SliceStable_perm in He. apply list_elem_of_In, filter_In in He as [He Hf]. apply list_elem_of_In in He.
  apply negb_true_iff in Hf. assert (Hg : good_seg (eName e)) by (by eapply lists_named). split; [done|].
  unfold stored. rewrite (store_child s dir (eName e) rel) by done. revert Er. unfold StoreReadDir.
  destruct (ReadDir _ _) as [l'|er] eqn:Ed.
  - intros [= ->]. eapply listed_file; [done|by apply store_path|exact Ed|done..].
  - destruct (PkgStore.IsNotFound er); [|done]. intros [= <-]. by apply elem_of_nil in He.
Qed.
(** ** One file changed *)

Inductive change (rel : string) (s : Store F) : Store F -> Prop :=
| change_write b : change rel s (StoreWrite s rel b).2
| change_delete : change rel s (StoreDelete s rel).2.

Lemma change_tidy rel s s' : tidy s -> change rel s s' -> tidy s'.
Proof. intros Ht [b|]; [by apply write_tidy|by apply delete_tidy]. Qed.

Lemma change_base rel s s' : change rel s s' -> basePath s' = basePath s.
Proof. intros [b|]; [apply stream_base|apply delete_base]. Qed.

Lemma change_other rel s s' q : tidy s -> change rel s s' -> inside rel -> inside q -> resolve q <> resolve rel ->
  stored s' q = stored s q.
Proof. intros [Hw _] [b|] Hr Hq Hne; [by apply stream_other|by apply delete_other]. Qed.

Lemma change_lists rel s s' dir : tidy s -> change rel s s' -> inside rel -> inside dir -> apart rel dir ->
  StoreReadDir s' dir = StoreReadDir s dir.
Proof. intros Ht [b|] Hr Hd Ha; [by apply write_lists|by apply delete_lists]. Qed.

Lemma deleted_gone {HA : AtomicWrites F} s rel s' : tidy s -> inside rel -> StoreDelete s rel = (None, s') -> stored s' rel = None.
Proof.
  intros [[Hb Hw] _] Hr. unfold StoreDelete, mutate. destruct (IsWritable _); [|done].
  destruct (Delete _ _) as [[e|] f] eqn:E; cbn [fmap option_fmap option_map].
  - destruct (PkgStore.IsNotFound e) eqn:En; [|done]. intros [= <-]. rewrite stored_with_fs.
    rewrite (Delete_atomic _ _ _ _ Hw (store_path _ _ Hb Hr) E). by eapply missing_gone; [exact Hw|by apply store_path|exact E|].
  - intros [= <-]. rewrite stored_with_fs. apply gone_file; [|by apply store_path|].
    + pose proof (Delete_wf (sfs s) (StoreJoin s [rel]) Hw) as H. by rewrite E in H.
    + eapply Delete_gone; [exact Hw|by apply store_path|exact E].
Qed.

(** What a read gives, an error being nothing. *)
Lemma read_opt {HA : AtomicWrites F} s rel : store_wf s ->
  match StoreRead s rel with Ok b => Some b | Err _ => None end = stored s rel.
Proof.
  intros Hw. destruct (StoreRead s rel) as [b|e] eqn:E.
  - symmetry. by apply StoreRead_stored.
  - destruct (stored s rel) as [b|] eqn:Es; [|done]. apply StoreRead_stored in Es; [|done]. congruence.
Qed.

Lemma write_change s rel b e s' : StoreWrite s rel b = (e, s') -> change rel s s'.
Proof. intros E. pose proof (change_write rel s b) as H. by rewrite E in H. Qed.

Lemma delete_change s rel e s' : StoreDelete s rel = (e, s') -> change rel s s'.
Proof. intros E. pose proof (change_delete rel s) as H. by rewrite E in H. Qed.

End listings.
