(* ===== verification/RawBlob.v ===== *)
(** * internal/registry/blobstore/rawfsblob.go: blobs on a mount

    Blobs at base/blobs/algorithm/first two digits/digits of any mount of
    Backend.v, uploads in memory until they are committed.  The theorems: a
    committed blob reads back, whatever else a commit does it does not touch
    another digest; on mounts whose failed writes leave no trace every blob that
    can be read hashes to its digest; no upload holds more than the memory
    limit. *)

From Stdlib Require Import ZArith Lia Ascii.
From stdpp Require Import base list strings gmap.
From S2P Require Import Prelude GoStrings GoPath GoHash BlobStore Backend PkgStore LocalFS AtomicFS LocalBlobSafety.

Local Open Scope Z_scope.

(** What the callers tell apart. *)
Inductive RawError := RNotFound | RReadOnly | RSessionNotFound | RSessionClosed | RUnsupported
  | RMismatch (got : Digest) | RFS (e : FSError).

(** [rbuf]: None once the session is cancelled. *)
Record rawfsSession := { rbuf : option string; rclosed : bool }.

Section store.
Context {F : Type} `{Backend F}.

Record RawFSBlobStore := {
  rfs : F; rbase : string; memLimit : Z; rsessions : gset string; robjs : gmap string rawfsSession;
}.

Definition NewRawFSBlobStore (fs : F) (base : string) (limit : Z) : RawFSBlobStore :=
  {| rfs := fs; rbase := Trim base "/"; memLimit := limit; rsessions := ∅; robjs := ∅ |}.

Definition with_rfs (s : RawFSBlobStore) (f : F) : RawFSBlobStore :=
  {| rfs := f; rbase := rbase s; memLimit := memLimit s; rsessions := rsessions s; robjs := robjs s |}.

Definition with_session (s : RawFSBlobStore) (id : string) (x : rawfsSession) : RawFSBlobStore :=
  {| rfs := rfs s; rbase := rbase s; memLimit := memLimit s;
     rsessions := if rclosed x then rsessions s ∖ {[ id ]} else rsessions s;
     robjs := <[ id := x ]> (robjs s) |}.

Definition bjoin (s : RawFSBlobStore) (parts : list string) : string :=
  PathJoin (if String.eqb (rbase s) "" then parts else rbase s :: parts).

Definition blobKey (s : RawFSBlobStore) (d : Digest) : string :=
  if (len (Hex d) <? 2)%nat then bjoin s ["blobs"; Algorithm d; Hex d]
  else bjoin s ["blobs"; Algorithm d; str_take 2 (Hex d); Hex d].

Definition mapRawFSError (e : FSError) : RawError :=
  if PkgStore.IsNotFound e then RNotFound else RFS e.

Definition blob_info (fi : FileInfo) : BlobInfo :=
  {| BlobStore.Size := Backend.Size fi; BlobStore.ModTime := Some (Backend.ModTime fi) |}.

Definition rawGet (s : RawFSBlobStore) (d : Digest) : result RawError (Reader * BlobInfo) :=
  match Open (rfs s) (blobKey s d) with
  | Err e => Err (mapRawFSError e)
  | Ok (r, fi) => Ok (r, blob_info fi)
  end.

Definition rawStat (s : RawFSBlobStore) (d : Digest) : result RawError BlobInfo :=
  match Stat (rfs s) (blobKey s d) with
  | Err e => Err (mapRawFSError e)
  | Ok fi => Ok (blob_info fi)
  end.

Definition rawDelete (s : RawFSBlobStore) (d : Digest) : option RawError * RawFSBlobStore :=
  if negb (IsWritable (rfs s)) then (Some RReadOnly, s)
  else
    match Stat (rfs s) (blobKey s d) with
    | Err e => (Some (mapRawFSError e), s)
    | Ok _ => let '(e, f) := Backend.Delete (rfs s) (blobKey s d) in (RFS <$> e, with_rfs s f)
    end.

Definition rawStart (id : string) (s : RawFSBlobStore) : option RawError * RawFSBlobStore :=
  if negb (IsWritable (rfs s)) then (Some RReadOnly, s)
  else (None, {| rfs := rfs s; rbase := rbase s; memLimit := memLimit s; rsessions := {[ id ]} ∪ rsessions s;
                 robjs := <[ id := {| rbuf := Some ""; rclosed := false |} ]> (robjs s) |}).

Definition rawResume (id : string) (s : RawFSBlobStore) : result RawError string :=
  if bool_decide (id ∈ rsessions s) then
    match robjs s !! id with
    | Some x => if rclosed x then Err RSessionClosed else Ok id
    | None => Err RSessionNotFound
    end
  else Err RSessionNotFound.

(** [ListBlobs]: what its callback sees, or the error of the first directory. *)
Definition list_leaf (s : RawFSBlobStore) (dir alg : string) (wantLen : nat) (leaf : DirEntry)
    : option (Digest * BlobInfo) :=
  if eIsDir leaf || negb (len (eName leaf) =? wantLen)%nat then None
  else
    let d := {| Algorithm := alg; Hex := eName leaf |} in
    Some (d, match Stat (rfs s) (PathJoin [dir; eName leaf]) with
             | Ok fi => blob_info fi
             | Err _ => {| BlobStore.Size := eSize leaf; BlobStore.ModTime := None |}
             end).

Definition list_shard (s : RawFSBlobStore) (algDir alg : string) (wantLen : nat) (shard : DirEntry)
    : list (Digest * BlobInfo) :=
  if eIsDir shard then
    let dir := PathJoin [algDir; eName shard] in
    match ReadDir (rfs s) dir with
    | Err _ => []
    | Ok leaves => omap (list_leaf s dir alg wantLen) leaves
    end
  else [].

Definition list_alg (s : RawFSBlobStore) (algRoot : string) (e : DirEntry) : list (Digest * BlobInfo) :=
  if eIsDir e then
    match algorithmHexLength (eName e) with
    | None => []
    | Some wantLen =>
        let algDir := PathJoin [algRoot; eName e] in
        match ReadDir (rfs s) algDir with
        | Err _ => []
        | Ok shards => concat (list_shard s algDir (eName e) wantLen <$> shards)
        end
    end
  else [].

Definition rawListBlobs (s : RawFSBlobStore) : result RawError (list (Digest * BlobInfo)) :=
  let algRoot := bjoin s ["blobs"] in
  match ReadDir (rfs s) algRoot with
  | Err e => if Contains (errText e) "not found" then Ok [] else Err (RFS e)
  | Ok algs => Ok (concat (list_alg s algRoot <$> algs))
  end.

(** ** Sessions *)

(** The bytes taken of [p], and the error when that is not all of it. *)
Definition rawWrite (id p : string) (s : RawFSBlobStore) : (nat * option RawError) * RawFSBlobStore :=
  match robjs s !! id with
  | None => ((O, Some RSessionNotFound), s)
  | Some x =>
      if rclosed x then ((O, Some RSessionClosed), s)
      else
        let b := default "" (rbuf x) in
        let put p := with_session s id {| rbuf := Some (b +:+ p); rclosed := false |} in
        if (0 <? memLimit s) && (memLimit s <? Z.of_nat (len b) + Z.of_nat (len p)) then
          let remaining := memLimit s - Z.of_nat (len b) in
          if remaining <=? 0 then ((O, Some RReadOnly), s)
          else ((Z.to_nat remaining, Some RReadOnly), put (str_take (Z.to_nat remaining) p))
        else ((len p, None), put p)
  end.

(** None where the code dereferences the buffer that Cancel dropped. *)
Definition rawOffset (id : string) (s : RawFSBlobStore) : option Z :=
  match robjs s !! id with
  | None => Some 0
  | Some x => (fun b => Z.of_nat (len b)) <$> rbuf x
  end.

Definition rawCommit (id : string) (expected : Digest) (s : RawFSBlobStore)
    : result RawError Digest * RawFSBlobStore :=
  match robjs s !! id with
  | None => (Err RSessionNotFound, s)
  | Some x =>
      if rclosed x then (Err RSessionClosed, s)
      else
        let alg := if String.eqb (Algorithm expected) "" then "sha256" else Algorithm expected in
        match NewHasher alg with
        | None => (Err RUnsupported, s)
        | Some h =>
            let data := default "" (rbuf x) in
            let got := DigestFromHash alg (h data) in
            if negb (IsZero expected) && negb (Equal expected got) then (Err (RMismatch got), s)
            else if negb (IsWritable (rfs s)) then (Err RReadOnly, s)
            else
              match Write (rfs s) (blobKey s got) (reader data) (Z.of_nat (len data)) with
              | (Some e, f) => (Err (RFS e), with_rfs s f)
              | (None, f) => (Ok got, with_session (with_rfs s f) id {| rbuf := rbuf x; rclosed := true |})
              end
        end
  end.

Definition rawCancel (id : string) (s : RawFSBlobStore) : RawFSBlobStore :=
  match robjs s !! id with
  | None => s
  | Some x => if rclosed x then s else with_session s id {| rbuf := None; rclosed := true |}
  end.
End store.

Arguments RawFSBlobStore : clear implicits.

(** ** Places *)

Section safety.
Context {F : Type} {HF : Backend F} {HL : BackendLaws F}.
Implicit Types s : RawFSBlobStore F.

Definition base_ok s : Prop := rbase s = "" \/ good_path (rbase s).

Lemma bjoin_good s l : base_ok s -> l <> [] -> Forall good_seg l -> good_path (bjoin s l).
Proof.
  intros Hb Hl H. assert (Hp : Forall good_path l) by (eapply Forall_impl; [exact H|apply good_seg_path]).
  unfold bjoin. destruct (String.eqb_spec (rbase s) "") as [_|Hne].
  - rewrite PathJoin_good by done. by apply Join_good.
  - destruct Hb as [?|Hb]; [done|]. rewrite PathJoin_good by (done || by constructor). apply Join_good; [done|by constructor].
Qed.

Lemma blobKey_eq s d : normal d -> blobKey s d = bjoin s ("blobs" :: shard d).
Proof.
  intros Hd. unfold blobKey. destruct (normal_inv d Hd) as (n & Ha & Hn & _).
  replace (len (Hex d) <? 2)%nat with false; [done|].
  rewrite Hn. by destruct (algorithmHexLength_Some _ _ Ha) as [[_ ->]|[_ ->]].
Qed.

Lemma blobKey_good s d : base_ok s -> normal d -> good_path (blobKey s d).
Proof.
  intros Hb Hd. rewrite blobKey_eq by done. apply bjoin_good; [done|done|]. constructor; [done|by apply shard_good].
Qed.

Lemma blobKey_resolve s d : base_ok s -> normal d ->
  resolve (blobKey s d) = (if String.eqb (rbase s) "" then [] else Split (rbase s) "/") ++ "blobs" :: shard d.
Proof.
  intros Hb Hd. rewrite blobKey_eq by done. unfold bjoin.
  assert (Hs : Forall good_seg ("blobs" :: shard d)) by (constructor; [done|by apply shard_good]).
  assert (Hp : Forall good_path ("blobs" :: shard d)) by (eapply Forall_impl; [exact Hs|apply good_seg_path]).
  assert (Hc : concat ((fun p => Split p "/") <$> ("blobs" :: shard d)) = "blobs" :: shard d).
  { clear Hp. induction Hs as [|x l Hx Hs IH]; [done|]. cbn [fmap list_fmap concat].
    rewrite (Split_single x) by apply Hx. cbn [app]. f_equal. exact IH. }
  destruct (String.eqb_spec (rbase s) "") as [_|Hne].
  - by rewrite resolve_PathJoin, Hc.
  - destruct Hb as [?|Hb]; [done|]. rewrite resolve_PathJoin by (by constructor).
    rewrite fmap_cons. cbn [concat]. by rewrite Hc.
Qed.

Lemma blobKey_inj s d d' : base_ok s -> normal d -> normal d' -> blobKey s d = blobKey s d' -> d = d'.
Proof.
  intros Hb Hd Hd' E. apply (f_equal resolve) in E. rewrite !blobKey_resolve in E by done.
  apply app_inv_head in E. injection E as E1 E2 E3. apply shard_inj. unfold shard. congruence.
Qed.

(** The key depends on the base alone. *)
Lemma blobKey_base s s' d : rbase s' = rbase s -> blobKey s' d = blobKey s d.
Proof. intros E. unfold blobKey, bjoin. by rewrite E. Qed.

(** ** The state *)

(** [x] is what [d] stands for. *)
Definition hashes_to (d : Digest) (x : string) : Prop :=
  exists h, NewHasher (Algorithm d) = Some h /\ d = DigestFromHash (Algorithm d) (h x).

Record raw_ok s : Prop := {
  raw_base : base_ok s;
  raw_wf : wf (rfs s);
  raw_blobs d x : normal d -> file_at (rfs s) (blobKey s d) = Some x -> hashes_to d x;
}.

(** A call, whatever it answers. *)
Inductive raw_step : RawFSBlobStore F -> RawFSBlobStore F -> Prop :=
| raw_delete s d : normal d -> raw_step s (rawDelete s d).2
| raw_start s id : raw_step s (rawStart id s).2
| raw_write s id p : raw_step s (rawWrite id p s).2
| raw_commit s id d : IsZero d = true \/ normal d -> raw_step s (rawCommit id d s).2
| raw_cancel s id : raw_step s (rawCancel id s).

(** What a session changes outside the tables. *)
Lemma commit_hasher d : IsZero d = true \/ normal d ->
  exists h, NewHasher (if String.eqb (Algorithm d) "" then "sha256" else Algorithm d) = Some h.
Proof.
  intros [Hz|Hn].
  - exists Sum256. apply andb_true_iff in Hz as [-> _]. done.
  - destruct (parsed_hasher d _ Hn) as (_ & Ha & Hh). by apply String.eqb_neq in Ha as ->.
Qed.

(** A commit either does nothing to the files or one write under the hash of
    the bytes. *)
Lemma commit_files id d s : raw_ok s ->
  (rfs (rawCommit id d s).2 = rfs s \/
   exists got x, normal got /\ hashes_to got x /\
     rfs (rawCommit id d s).2 = (Write (rfs s) (blobKey s got) (reader x) (Z.of_nat (len x))).2) /\
  rbase (rawCommit id d s).2 = rbase s /\ memLimit (rawCommit id d s).2 = memLimit s.
Proof.
  intros Hs. unfold rawCommit. destruct (robjs s !! id) as [x|]; [|by split; [left|]].
  destruct (rclosed x); [by split; [left|]|]. cbv zeta.
  destruct (NewHasher _) as [h|] eqn:Eh; [|by split; [left|]].
  destruct (negb (IsZero d) && _); [by split; [left|]|].
  destruct (negb (IsWritable _)); [by split; [left|]|].
  set (alg := if String.eqb (Algorithm d) "" then _ else _) in *.
  assert (Hg : normal (DigestFromHash alg (h (default "" (rbuf x))))) by (by apply DigestFromHash_parses).
  assert (Hx : hashes_to (DigestFromHash alg (h (default "" (rbuf x)))) (default "" (rbuf x))) by (by exists h).
  destruct (Write (rfs s) _ _ _) as [[e|] f] eqn:Ew; (split; [right|done]);
    (eexists _, _; split_and!; [exact Hg|exact Hx|by rewrite Ew]).
Qed.

Lemma rawDelete_files d s : rbase (rawDelete s d).2 = rbase s /\ memLimit (rawDelete s d).2 = memLimit s /\
  robjs (rawDelete s d).2 = robjs s /\
  (rfs (rawDelete s d).2 = rfs s \/ rfs (rawDelete s d).2 = (Backend.Delete (rfs s) (blobKey s d)).2).
Proof.
  unfold rawDelete. destruct (negb _); [by split_and!; [..|left]|].
  destruct (Stat _ _); [|by split_and!; [..|left]].
  destruct (Backend.Delete _ _) as [e f]. split_and!; [done..|by right].
Qed.

Lemma session_files s s' : rfs s' = rfs s -> rbase s' = rbase s -> raw_ok s -> raw_ok s'.
Proof.
  intros Ef Eb [H1 H2 H3]. split; [unfold base_ok; by rewrite Eb|by rewrite Ef|].
  intros d x. rewrite Ef, (blobKey_base s s' d Eb). apply H3.
Qed.

Lemma rawWrite_files id p s : rfs (rawWrite id p s).2 = rfs s /\ rbase (rawWrite id p s).2 = rbase s.
Proof. unfold rawWrite. repeat case_match; done. Qed.

Lemma raw_step_ok s s' : AtomicWrites F -> raw_ok s -> raw_step s s' -> raw_ok s'.
Proof.
  intros HA Hs Hstep. destruct Hstep as [s d Hd|s id|s id p|s id d Hd|s id].
  - destruct (rawDelete_files d s) as (Hb & _ & _ & Hf).
    destruct Hf as [Hf|Hf]; [by apply (session_files s)|].
    assert (Hg : good_path (blobKey s d)) by (apply blobKey_good; [apply Hs|done]).
    split; [unfold base_ok; rewrite Hb; apply Hs|rewrite Hf; apply Delete_wf, Hs|].
    intros d' x Hd' Hx. rewrite Hf, (blobKey_base s _ d' Hb) in Hx.
    destruct (decide (d' = d)) as [->|Hne].
    + destruct (Backend.Delete (rfs s) (blobKey s d)) as [[e|] f] eqn:Ed; cbn [snd] in Hx.
      * rewrite (Delete_atomic _ _ _ _ (raw_wf _ Hs) Hg Ed) in Hx. by apply (raw_blobs _ Hs).
      * pose proof (Delete_gone _ _ _ (raw_wf _ Hs) Hg Ed) as Hgone.
        rewrite gone_file in Hx; [done| |done|done].
        pose proof (Delete_wf _ (blobKey s d) (raw_wf _ Hs)) as Hw. by rewrite Ed in Hw.
    + rewrite Delete_other in Hx; [by apply (raw_blobs _ Hs)|apply Hs|done|apply blobKey_good; [apply Hs|done]|].
      intros E. apply Hne. by apply (blobKey_inj s); [apply Hs|..].
  - unfold rawStart. destruct (negb _); [done|]. by apply (session_files s).
  - destruct (rawWrite_files id p s) as [Hf Hb]. by apply (session_files s).
  - destruct (commit_files id d s Hs) as ([Hf|(got & y & Hg & Hy & Hf)] & Hb & _); [by apply (session_files s)|].
    assert (Hgp : good_path (blobKey s got)) by (apply blobKey_good; [apply Hs|done]).
    split; [unfold base_ok; rewrite Hb; apply Hs|rewrite Hf; apply Write_wf, Hs|].
    intros d' x Hd' Hx. rewrite Hf, (blobKey_base s _ d' Hb) in Hx.
    destruct (decide (d' = got)) as [->|Hne].
    + destruct (Write (rfs s) _ _ _) as [[e|] f] eqn:Ew; cbn [snd] in Hx.
      * rewrite (Write_atomic _ _ _ _ _ _ (raw_wf _ Hs) Hgp Ew) in Hx. by apply (raw_blobs _ Hs).
      * destruct (Write_file _ _ _ _ _ (raw_wf _ Hs) Hgp Ew) as [_ Hfile]. rewrite Hfile in Hx. by injection Hx as <-.
    + rewrite Write_other in Hx; [by apply (raw_blobs _ Hs)|apply Hs|done|apply blobKey_good; [apply Hs|done]|].
      intros E. apply Hne. by apply (blobKey_inj s); [apply Hs|..].
  - unfold rawCancel. destruct (robjs s !! id) as [x|]; [|done]. destruct (rclosed x); [done|]. by apply (session_files s).
Qed.

(** ** The memory limit *)

Definition bounded s : Prop := forall id x b, robjs s !! id = Some x -> rbuf x = Some b -> Z.of_nat (len b) <= memLimit s.


Lemma rawWrite_spec id p s : 0 < memLimit s -> bounded s ->
  let '((n, err), s') := rawWrite id p s in
  bounded s' /\ memLimit s' = memLimit s /\ (n <= len p)%nat /\
  (err = None -> n = len p) /\
  forall off, rawOffset id s = Some off -> rawOffset id s' = Some (off + Z.of_nat n) /\ 0 <= off.
Proof.
  intros Hl Hb. unfold rawWrite, rawOffset. destruct (robjs s !! id) as [x|] eqn:Ex.
  2:{ split_and!; [done|done|lia|done|]. intros off. rewrite Ex. intros [= <-]. split; [done|lia]. }
  assert (Hoff : forall n off, (fun b : string => Z.of_nat (len b)) <$> rbuf x = Some off -> n = O ->
    (fun b : string => Z.of_nat (len b)) <$> rbuf x = Some (off + Z.of_nat n) /\ 0 <= off).
  { intros n off E ->. destruct (rbuf x); [|done]. injection E as <-. split; [cbn; f_equal; lia|lia]. }
  destruct (rclosed x) eqn:Ec; cbv zeta.
  { rewrite Ex. split_and!; [done|done|lia|done|]. intros off E. by apply (Hoff O). }
  assert (Hput : forall q, Z.of_nat (len (default "" (rbuf x))) + Z.of_nat (len q) <= memLimit s ->
    bounded (with_session s id {| rbuf := Some (default "" (rbuf x) +:+ q); rclosed := false |})).
  { intros q Hq id' x' b'. cbn [with_session robjs memLimit].
    destruct (decide (id' = id)) as [->|Hne]; [|rewrite lookup_insert_ne by done; apply Hb].
    rewrite lookup_insert_eq. intros [= <-] [= <-]. rewrite len_app. lia. }
  assert (Hcur : Z.of_nat (len (default "" (rbuf x))) <= memLimit s).
  { destruct (rbuf x) as [b|] eqn:Eb; [by apply (Hb id x)|]. cbn. lia. }
  assert (Hnew : forall q off, (fun b : string => Z.of_nat (len b)) <$> rbuf x = Some off ->
    match robjs (with_session s id {| rbuf := Some (default "" (rbuf x) +:+ q); rclosed := false |}) !! id with
    | Some x => (fun b => Z.of_nat (len b)) <$> rbuf x | None => Some 0 end = Some (off + Z.of_nat (len q)) /\ 0 <= off).
  { intros q off E. cbn [with_session robjs]. rewrite lookup_insert_eq. cbn.
    destruct (rbuf x) as [b|]; [|done]. injection E as <-. cbn. rewrite len_app. split; [f_equal; lia|lia]. }
  destruct ((0 <? memLimit s) && _) eqn:Eo; bool_prop.
  - destruct (memLimit s - _ <=? 0) eqn:Er.
    { rewrite Ex. split_and!; [done|done|lia|done|]. intros off E. by apply (Hoff O). }
    apply Z.leb_gt in Er. assert (Ht : (Z.to_nat (memLimit s - Z.of_nat (len (default "" (rbuf x)))) <= len p)%nat) by lia.
    split_and!; [|done|done|done|].
    + apply Hput. rewrite len_take. lia.
    + intros off E. rewrite <-(Nat.min_l _ _ Ht) at 2. rewrite <-len_take. by apply Hnew.
  - split_and!; [|done|done|done|by apply Hnew]. apply Hput.
    destruct (0 <? memLimit s) eqn:Ez; [|apply Z.ltb_ge in Ez; lia]. cbn in Eo. lia.
Qed.

Lemma raw_step_bounded s s' : 0 < memLimit s -> bounded s -> raw_step s s' -> bounded s' /\ memLimit s' = memLimit s.
Proof.
  intros Hl Hb Hstep.
  assert (Hclose : forall s id x y, bounded s -> robjs s !! id = Some x -> (rbuf y = rbuf x \/ rbuf y = None) ->
    bounded (with_session s id y)).
  { clear. intros s id x y Hb Ex Hy id' x' b'. cbn [with_session robjs memLimit].
    destruct (decide (id' = id)) as [->|Hne]; [|rewrite lookup_insert_ne by done; apply Hb].
    rewrite lookup_insert_eq. intros [= <-] Eb. destruct Hy as [Hy|Hy]; rewrite Hy in Eb; [|done]. by apply (Hb id x). }
  destruct Hstep as [s d Hd|s id|s id p|s id d Hd|s id].
  - destruct (rawDelete_files d s) as (_ & Em & Eo & _). unfold bounded. rewrite Em, Eo. by split.
  - unfold rawStart. destruct (negb _); [done|]. split; [|done]. intros id' x b. cbn [snd robjs memLimit].
    destruct (decide (id' = id)) as [->|Hne]; [|rewrite lookup_insert_ne by done; apply Hb].
    rewrite lookup_insert_eq. intros [= <-] [= <-]. cbn. lia.
  - pose proof (rawWrite_spec id p s Hl Hb) as H. destruct (rawWrite id p s) as [[n err] s'].
    destruct H as (H1 & H2 & _). by split.
  - unfold rawCommit. destruct (robjs s !! id) as [x|] eqn:Ex; [|done]. destruct (rclosed x); [done|]. cbv zeta.
    destruct (NewHasher _); [|done]. destruct (_ && _); [done|]. destruct (negb _); [done|].
    destruct (Write _ _ _ _) as [[e|] f]; [done|]. split; [|done].
    apply (Hclose (with_rfs s f) id x); [done|done|by left].
  - unfold rawCancel. destruct (robjs s !! id) as [x|] eqn:Ex; [|done]. destruct (rclosed x); [done|].
    split; [|done]. apply (Hclose s id x); [done|done|by right].
Qed.
End safety.

(** ** Properties *)

(** C9: whatever calls arrive in whatever order, on a mount whose failed writes and
    deletions leave the file alone a blob that can be read hashes to the digest
    it is read under, failed commits included. *)
Theorem raw_integrity {F} `{AtomicWrites F} (s s' : RawFSBlobStore F) d x : raw_ok s -> rtc raw_step s s' ->
  normal d -> file_at (rfs s') (blobKey s' d) = Some x -> hashes_to d x.
Proof.
  intros Hs Hsteps. revert Hs. induction Hsteps as [s|s s1 s2 Hstep _ IH]; intros Hs.
  - apply (raw_blobs _ Hs).
  - apply IH. by eapply raw_step_ok.
Qed.

(** one upload, one blob: a commit under the hash of the bytes makes them
    readable and closes the session, a commit under another digest changes
    nothing at all, and a commit that the mount fails leaves the session as it
    was and every other blob alone. *)
Theorem raw_commit_spec {F} `{BackendLaws F} (s : RawFSBlobStore F) id b d h : raw_ok s ->
  robjs s !! id = Some {| rbuf := Some b; rclosed := false |} -> normal d -> NewHasher (Algorithm d) = Some h ->
  IsWritable (rfs s) = true ->
  let '(answer, s') := rawCommit id d s in
  (d <> DigestFromHash (Algorithm d) (h b) -> answer = Err (RMismatch (DigestFromHash (Algorithm d) (h b))) /\ s' = s) /\
  (d = DigestFromHash (Algorithm d) (h b) ->
     (forall d', normal d' -> d' <> d -> file_at (rfs s') (blobKey s' d') = file_at (rfs s) (blobKey s d')) /\
     match answer with
     | Ok got => got = d /\ file_at (rfs s') (blobKey s' d) = Some b /\ rawResume id s' = Err RSessionNotFound
     | Err e => (exists e', e = RFS e') /\ robjs s' = robjs s /\ rsessions s' = rsessions s
     end).
Proof.
  intros Hs Ho Hd Hh Hw. unfold rawCommit. rewrite Ho. cbn [rclosed rbuf]. change (default "" (Some b)) with b. cbv zeta.
  destruct (parsed_hasher d _ Hd) as (Hz & Ha & _). apply String.eqb_neq in Ha. rewrite Ha, Hh, Hz, Hw.
  cbn [negb andb]. set (got := DigestFromHash (Algorithm d) (h b)).
  destruct (Equal d got) eqn:Eq; cbn [negb].
  - apply (Equal_parsed d _ _ _ _ Hd Hh) in Eq. fold got in Eq. rewrite <-Eq.
    assert (Hg : good_path (blobKey s d)) by (apply blobKey_good; [apply Hs|done]).
    destruct (Write _ _ _ _) as [[e|] f] eqn:Ew; (split; [done|]); intros _.
    + split_and!; [|by eexists|done|done]. intros d' Hd' Hne.
      pose proof (Write_other (rfs s) (blobKey s d) (reader b) (Z.of_nat (len b)) (blobKey s d')) as Hot.
      rewrite Ew in Hot. apply Hot; [apply Hs|done|apply blobKey_good; [apply Hs|done]|].
      intros E. by apply Hne, (blobKey_inj s); [apply Hs|..].
    + destruct (Write_file _ _ _ _ _ (raw_wf _ Hs) Hg Ew) as [_ Hfile]. split_and!; [|done|done|].
      * intros d' Hd' Hne.
        pose proof (Write_other (rfs s) (blobKey s d) (reader b) (Z.of_nat (len b)) (blobKey s d')) as Hot.
        rewrite Ew in Hot. apply Hot; [apply Hs|done|apply blobKey_good; [apply Hs|done]|].
        intros E. by apply Hne, (blobKey_inj s); [apply Hs|..].
      * unfold rawResume. cbn [with_session with_rfs rsessions rclosed]. by rewrite bool_decide_false by set_solver.
  - split; [done|]. intros E. exfalso. assert (Et : Equal d got = true) by (by apply (Equal_parsed d _ _ _ _ Hd Hh)).
    congruence.
Qed.

(** C12: the memory of uploads is bounded: from a fresh store with a limit, whatever
    calls arrive, no session buffers more bytes than the limit; a write takes
    the prefix it reports, moves the offset by it, and reports an error unless
    that is all. *)
Theorem raw_memory_bounded {F} `{BackendLaws F} fs base limit (s : RawFSBlobStore F) id p : 0 < limit ->
  rtc raw_step (NewRawFSBlobStore fs base limit) s ->
  (forall id x b, robjs s !! id = Some x -> rbuf x = Some b -> Z.of_nat (len b) <= limit) /\
  let '((n, err), s') := rawWrite id p s in
  (n <= len p)%nat /\ (err = None -> n = len p) /\
  forall off, rawOffset id s = Some off -> rawOffset id s' = Some (off + Z.of_nat n) /\ off + Z.of_nat n <= limit.
Proof.
  intros Hl Hsteps.
  assert (Hgo : forall s0, memLimit s0 = limit -> bounded s0 -> rtc raw_step s0 s -> memLimit s = limit /\ bounded s).
  { clear Hsteps. intros s0 Hm0 Hb0 Hr. revert Hm0 Hb0. induction Hr as [s0|s0 s1 s2 Hstep _ IH]; intros Hm Hb; [done|].
    destruct (raw_step_bounded s0 s1) as [Hb1 Hm1]; [lia|done|done|]. apply IH; [congruence|done]. }
  destruct (Hgo (NewRawFSBlobStore fs base limit) eq_refl) as [Hm Hb]; [|exact Hsteps|].
  { intros id' x b. cbn. by rewrite lookup_empty. }
  split; [intros id' x b' Hx Hbuf; rewrite <-Hm; by apply (Hb id' x)|].
  pose proof (rawWrite_spec id p s ltac:(lia) Hb) as Hw. destruct (rawWrite id p s) as [[n err] s'].
  destruct Hw as (Hb' & Hm' & Hn & Herr & Hoff). split_and!; [done|done|].
  intros off Eo. destruct (Hoff off Eo) as [E _]. split; [done|].
  unfold rawOffset in E. destruct (robjs s' !! id) as [x|] eqn:Ex; [|injection E as E; lia].
  destruct (rbuf x) as [b|] eqn:Eb; [|done]. injection E as E. specialize (Hb' id x b Ex Eb). lia.
Qed.

(** ** Examples *)

Definition sample_raw : RawFSBlobStore FS := NewRawFSBlobStore sample_mount "/registry/" 4.

Lemma sample_raw_ok : raw_ok sample_raw.
Proof.
  split; [by right; apply (bool_decide_unpack _); vm_compute|apply sample_mount_ok|].
  intros d x Hd. rewrite local_file_at by apply sample_mount_ok.
  change (target (rfs sample_raw) (blobKey sample_raw d)) with (["srv"; "data"] ++ resolve (blobKey sample_raw d)).
  rewrite blobKey_resolve by (done || right; by apply (bool_decide_unpack _); vm_compute).
  change ((if String.eqb (rbase sample_raw) "" then [] else Split (rbase sample_raw) "/")) with ["registry"].
  cbn [app]. unfold node_at. rewrite bool_decide_false by done.
  replace (nodes (os (rfs sample_raw)) !! _) with (@None Node); [done|].
  symmetry. cbn [sample_raw NewRawFSBlobStore rfs sample_mount os sample_os nodes].
  apply not_elem_of_list_to_map_1. cbn. intros Hin.
  repeat (apply elem_of_cons in Hin as [Hin|Hin]; [by injection Hin|]). by apply elem_of_nil in Hin.
Qed.

Definition sample_session : RawFSBlobStore FS := (rawWrite "u" "abc" (rawStart "u" sample_raw).2).2.

Lemma sample_session_steps : rtc raw_step sample_raw sample_session.
Proof. eapply rtc_l; [apply (raw_start _ "u")|]. eapply rtc_once, raw_write. Qed.

Lemma sample_session_ok : raw_ok sample_session.
Proof.
  assert (H : forall s s', rtc raw_step s s' -> raw_ok s -> raw_ok s').
  { induction 1 as [|s s1 s2 Hs _ IH]; [done|]. intros H. apply IH. by apply (raw_step_ok s _ _). }
  exact (H _ _ sample_session_steps sample_raw_ok).
Qed.

Lemma raw_integrity_witness : hashes_to abc_digest "abc".
Proof.
  refine (raw_integrity sample_raw (rawCommit "u" abc_digest sample_session).2 abc_digest "abc" sample_raw_ok _ _ _).
  - eapply rtc_r; [exact sample_session_steps|]. apply raw_commit. right. by vm_compute.
  - by vm_compute.
  - by vm_compute.
Defined.

Lemma raw_commit_spec_witness :
  let '(answer, s') := rawCommit "u" abc_digest sample_session in
  is_ok answer = true /\ file_at (rfs s') (blobKey s' abc_digest) = Some "abc".
Proof.
  assert (Ed : abc_digest = DigestFromHash (Algorithm abc_digest) (Sum256 "abc")) by (by vm_compute).
  assert (En : normal abc_digest) by (by vm_compute).
  assert (Ho : robjs sample_session !! "u" = Some {| rbuf := Some "abc"; rclosed := false |}) by (by vm_compute).
  assert (Ea : is_ok (rawCommit "u" abc_digest sample_session).1 = true) by (by vm_compute).
  pose proof (raw_commit_spec sample_session "u" "abc" abc_digest Sum256 sample_session_ok Ho En eq_refl eq_refl) as H.
  revert Ed En Ea H. generalize abc_digest. intros d Ed _ Ea H.
  destruct (rawCommit "u" d sample_session) as [answer s']. destruct H as [_ H]. specialize (H Ed). cbn [fst] in Ea.
  destruct H as [_ H]. destruct answer as [got|]; [|done]. destruct H as (_ & H & _). done.
Defined.

Lemma raw_memory_bounded_witness :
  (rawWrite "u" "xyz" sample_session).1 = (1%nat, Some RReadOnly) /\
  rawOffset "u" (rawWrite "u" "xyz" sample_session).2 = Some 4.
Proof.
  pose proof (raw_memory_bounded sample_mount "/registry/" 4 sample_session "u" "xyz" ltac:(lia) sample_session_steps) as H.
  assert (E : (rawWrite "u" "xyz" sample_session).1 = (1%nat, Some RReadOnly)) by (by vm_compute).
  destruct (rawWrite "u" "xyz" sample_session) as [[n err] s']. cbn [fst snd] in *. destruct H as [_ (_ & _ & H)].
  split; [done|]. injection E as -> _. apply (H 3). by vm_compute.
Defined.
