(* ===== verification/GitLfs.v ===== *)
(** * internal/registry/gitlfs: the Git LFS server

    gitlfs.go and local.go over the common package store: objects at
    objects/ab/cd/oid of a mount, the batch negotiation, uploads, and the file
    locks of locks.json.  A request is what the handlers read of it; an answer is
    its status and its JSON document (of the errors of other layers only the
    status).  [Env] is the rest of a call: the clock, what becomes of the temporary
    file, the fuel of the walks.  The layout of timestamps is a parameter; events
    and byte ranges are not modelled. *)

From Stdlib Require Import ZArith Lia Ascii.
From stdpp Require Import base list strings.
From S2P Require Import Prelude GoStrings GoPath GoHash GoBase64 GoJson Backend PkgStore.

Local Open Scope Z_scope.

(** ** Objects and routes *)

Definition ValidOID (s : string) : bool := (len s =? 64)%nat && str_forallb is_lower_hex s.

Definition objectRel (oid : string) : string :=
  PathJoin ["objects"; str_take 2 oid; str_take 2 (str_drop 2 oid); oid].

(** The path without an optional "…/info/lfs". *)
Definition route (p : string) : string :=
  let p := "/" +:+ Trim p "/" in
  let p := match Index p "/info/lfs" with
    | None => p
    | Some i =>
        let rest := str_drop (i + len "/info/lfs") p in
        if String.eqb rest "" || HasPrefix rest "/" then rest else p
    end in
  if String.eqb p "" then "/" else p.

Definition objectsOID (p : string) : option string :=
  if HasPrefix p "/objects/" then
    let oid := TrimPrefix p "/objects/" in if ValidOID oid then Some oid else None
  else None.

(** ** Requests and answers *)

(** [PublicBase]: the URL under which the client sees the repository. *)
Record Request := {
  Method : string; URLPath : string; Query : string -> string; Authorization : string;
  ContentLength : Z; Body : Reader; PublicBase : string;
}.

Definition is_method (r : Request) (m : string) : bool := String.eqb (Method r) m.
Definition IsRead (r : Request) : bool := is_method r "GET" || is_method r "HEAD".

(** What [io.LimitReader(r, n)] lets through. *)
Definition LimitReader (r : Reader) (n : Z) : Reader :=
  if Z.of_nat (len (rData r)) <? n then r
  else {| rData := str_take (Z.to_nat n) (rData r); rErr := None |}.

Inductive Answer :=
| Reply (code : Z) (body : Json)
| Done (code : Z)
| Served (content : Reader).

Definition lfsError (code : Z) (msg : string) : Answer := Reply code (JObject [("message", JString msg)]).

(** An error of another layer. *)
Definition failed (code : Z) : Answer := Done code.

Definition code_of (a : Answer) : Z := match a with Reply c _ | Done c => c | Served _ => 200 end.

(** ** The batch documents *)

Record batchObject := { OID : string; Size : Z }.

Record batchRequest := {
  Operation : string; Transfers : list string; Objects : list batchObject; HashAlgo : string;
}.

Definition action_shape : Shape :=
  TStruct [("href", TString); ("header", TMap TString); ("expires_in", TInt); ("expires_at", TString)].

Definition object_shape : Shape :=
  TStruct [("oid", TString); ("size", TInt); ("authenticated", TBool); ("actions", TMap action_shape);
           ("error", TStruct [("code", TInt); ("message", TString)])].

Definition batch_shape : Shape :=
  TStruct [("operation", TString); ("transfers", TSlice TString); ("ref", TStruct [("name", TString)]);
           ("objects", TSlice object_shape); ("hash_algo", TString)].

Definition scan_object (o : batchObject) (j : Json) : batchObject :=
  {| OID := scan_field as_string "oid" (OID o) (members j);
     Size := scan_field as_int "size" (Size o) (members j) |}.

Definition scan_batch (j : Json) : batchRequest :=
  let m := members j in
  {| Operation := scan_field as_string "operation" "" m;
     Transfers := scan_slice (fun s j => default s (as_string j)) "" "transfers" m;
     Objects := scan_slice scan_object {| OID := ""; Size := 0 |} "objects" m;
     HashAlgo := scan_field as_string "hash_algo" "" m |}.

(** The first document of a limited body, when it fits the type. *)
Definition decode_body (limit : Z) (sh : Shape) (r : Request) : option Json :=
  match decode_first (rData (LimitReader (Body r) limit)) with
  | Some j => if fits sh j then Some j else None
  | None => None
  end.

(** The same where the error of Decode is dropped: the fields set before it. *)
Definition decode_lenient (limit : Z) (r : Request) : Json :=
  default JNull (decode_first (rData (LimitReader (Body r) limit))).

Definition decodeBatch (r : Request) : result Answer batchRequest :=
  match decode_body 16777216 batch_shape r with
  | None => Err (failed 422)
  | Some j =>
      let req := scan_batch j in
      if negb (String.eqb (Operation req) "upload") && negb (String.eqb (Operation req) "download") then
        Err (lfsError 422 ("unsupported operation " +:+ Operation req))
      else if match Transfers req with [] => false | ts => negb (existsb (String.eqb "basic") ts) end then
        Err (lfsError 422 "only the basic transfer adapter is supported")
      else if negb (String.eqb (HashAlgo req) "") && negb (String.eqb (HashAlgo req) "sha256") then
        Err (lfsError 409 "unsupported hash algorithm")
      else Ok req
  end.

Definition actionTTL : Z := 3600.

Definition newAction (r : Request) (href : string) : Json :=
  JObject ([("href", JString href)] ++
           (if String.eqb (Authorization r) "" then []
            else [("header", JObject [("Authorization", JString (Authorization r))])]) ++
           [("expires_in", JNumber (itoa actionTTL))]).

Definition objectHref (r : Request) (oid : string) : string := PublicBase r +:+ "/objects/" +:+ oid.

(** What the batch says of an object: a refusal, or the actions offered. *)
Inductive Verdict := Refused (code : Z) (msg : string) | Offered (actions : list (string * Json)).

Definition result_json (o : batchObject) (v : Verdict) : Json :=
  JObject ([("oid", JString (OID o)); ("size", JNumber (itoa (Size o)))] ++
           match v with
           | Refused code msg => [("error", JObject [("code", JNumber (itoa code)); ("message", JString msg)])]
           | Offered [] => []
           | Offered acts => [("actions", JObject acts)]
           end).

Definition batchResponse (rs : list (batchObject * Verdict)) : Answer :=
  Reply 200 (JObject [("transfer", JString "basic");
                      ("objects", JArray ((fun ov => result_json ov.1 ov.2) <$> rs));
                      ("hash_algo", JString "sha256")]).

(** ** Locks *)

Record Lock := { ID : string; Path : string; LockedAt : Z; Owner : string; Ref : string }.

Definition locksRel : string := "locks.json".

Definition nanos : Z := 1000000000.

(** A display name of the caller. *)
Definition owner (r : Request) : string :=
  match BasicAuth (Authorization r) with
  | Some (u, _) => if String.eqb u "" then "token-" +:+ EncodeToString (str_take 4 (Sum256 (Authorization r))) else u
  | None =>
      if String.eqb (Authorization r) "" then "anonymous"
      else "token-" +:+ EncodeToString (str_take 4 (Sum256 (Authorization r)))
  end.

Definition newLockID (now : Z) : string := EncodeToString (str_take 8 (Sum256 (itoa now))).

Fixpoint from_cursor (locks : list Lock) (cursor : string) : option (list Lock) :=
  match locks with
  | [] => None
  | l :: rest => if String.eqb (ID l) cursor then Some locks else from_cursor rest cursor
  end.

Definition pageLocks (locks : list Lock) (cursor : string) (limit : Z) : list Lock * string :=
  let locks := if String.eqb cursor "" then locks else default locks (from_cursor locks cursor) in
  if 0 <? limit then
    match drop (Z.to_nat limit) locks with
    | l :: _ => (take (Z.to_nat limit) locks, ID l)
    | [] => (locks, "")
    end
  else (locks, "").

(** The first lock with an id, with the table that is left without it. *)
Fixpoint take_lock (id : string) (locks : list Lock) : option (Lock * list Lock) :=
  match locks with
  | [] => None
  | l :: rest =>
      if String.eqb (ID l) id then Some (l, rest)
      else match take_lock id rest with Some (x, rest) => Some (x, l :: rest) | None => None end
  end.

Section times.
(** [time.Time] in nanoseconds, its text in a document and back. *)
Variables (FormatTime : Z -> string) (ParseTime : string -> option Z).

Definition lock_json (l : Lock) : Json :=
  JObject [("id", JString (ID l)); ("path", JString (Path l)); ("locked_at", JString (FormatTime (LockedAt l)));
           ("owner", JObject [("name", JString (Owner l))])].

Definition lock_shape : Shape :=
  TStruct [("id", TString); ("path", TString); ("locked_at", TText (fun s => is_some (ParseTime s)));
           ("owner", TStruct [("name", TString)])].

Definition as_time (j : Json) : option Z := s ← as_string j; ParseTime s.

Definition scan_lock (l : Lock) (j : Json) : Lock :=
  let m := members j in
  {| ID := scan_field as_string "id" (ID l) m;
     Path := scan_field as_string "path" (Path l) m;
     LockedAt := scan_field as_time "locked_at" (LockedAt l) m;
     Owner := scan_field as_string "name" (Owner l) (concat (members <$> struct_field "owner" m));
     Ref := Ref l |}.

(** [json.Unmarshal(b, &locks)] *)
Definition decode_locks (b : string) : option (list Lock) :=
  match parse b with
  | Some (JArray l) =>
      if fits (TSlice lock_shape) (JArray l)
      then Some (scan_lock {| ID := ""; Path := ""; LockedAt := 0; Owner := ""; Ref := "" |} <$> l) else None
  | Some JNull => Some []
  | _ => None
  end.

Definition encode_locks (locks : list Lock) : string := write (JArray (lock_json <$> locks)).

(** ** The repository *)

Section local.
Context {F : Type} `{Backend F}.

Record Local := { lstore : Store F; AllowPush : bool; MaxUpload : Z; Guard : PublishGuard }.

Definition with_store (l : Local) (s : Store F) : Local :=
  {| lstore := s; AllowPush := AllowPush l; MaxUpload := MaxUpload l; Guard := Guard l |}.

Definition DefaultMaxUpload : Z := 2 ^ 30.

Definition max_upload (l : Local) : Z := if MaxUpload l <=? 0 then DefaultMaxUpload else MaxUpload l.

(** The stored size, and whether it is the expected one ([size] < 0: any). *)
Definition HasObject (s : Store F) (oid : string) (size : Z) : Z * bool :=
  if negb (ValidOID oid) then (0, false)
  else match StoreStat s (objectRel oid) with
       | Err _ => (0, false)
       | Ok fi => if IsDir fi then (0, false)
                  else (Backend.Size fi, negb ((0 <=? size) && negb (Backend.Size fi =? size)))
       end.

(** What becomes of the temporary file of an upload. *)
Inductive TempFault := CreateFails | CopyFails | SeekFails | ReadFails (n : nat).

Record Env := { efuel : nat; enow : Z; etemp : option TempFault }.

(** ** Batches *)

Definition invalid_object (o : batchObject) : bool := negb (ValidOID (OID o)) || (Size o <? 0).

Definition download_verdict (r : Request) (s : Store F) (o : batchObject) : Verdict :=
  if invalid_object o then Refused 422 "invalid object"
  else if (HasObject s (OID o) (Size o)).2 then Offered [("download", newAction r (objectHref r (OID o)))]
  else Refused 404 "object does not exist".

Definition downloadObjects (r : Request) (s : Store F) (objs : list batchObject) : list (batchObject * Verdict) :=
  (fun o => (o, download_verdict r s o)) <$> objs.

Definition incoming (s : Store F) (objs : list batchObject) : Z :=
  foldl (fun n o => if negb (HasObject s (OID o) (Size o)).2 && (0 <? Size o) then wrap64 (n + Size o) else n) 0 objs.

Definition upload_verdict (r : Request) (l : Local) (o : batchObject) : Verdict :=
  if invalid_object o then Refused 422 "invalid object"
  else if max_upload l <? Size o then Refused 422 ("object exceeds " +:+ itoa (max_upload l) +:+ " bytes")
  else if (HasObject (lstore l) (OID o) (Size o)).2 then Offered []
  else Offered [("upload", newAction r (objectHref r (OID o)));
                ("verify", newAction r (PublicBase r +:+ "/objects/verify"))].

Definition batch (e : Env) (l : Local) (r : Request) : Answer :=
  match decodeBatch r with
  | Err a => a
  | Ok req =>
      if String.eqb (Operation req) "download" then batchResponse (downloadObjects r (lstore l) (Objects req))
      else if negb (AllowPush l) then lfsError 403 "push disabled for this repository"
      else match Check (efuel e) (Guard l) (Some (lstore l)) false (incoming (lstore l) (Objects req)) with
           | Some code => failed code
           | None => batchResponse ((fun o => (o, upload_verdict r l o)) <$> Objects req)
           end
  end.

(** ** Uploads *)

(** What the temporary file gives back. *)
Definition temp_reader (t : option TempFault) (data : string) : Reader :=
  match t with
  | Some (ReadFails n) => {| rData := str_take n data; rErr := Some "read error" |}
  | _ => reader data
  end.

Definition upload (e : Env) (l : Local) (r : Request) (oid : string) : Answer * Local :=
  let max := max_upload l in
  if negb (AllowPush l) then (lfsError 403 "push disabled for this repository", l)
  else if max <? ContentLength r then (lfsError 413 ("object exceeds " +:+ itoa max +:+ " bytes"), l)
  else
    let '(size, ok) := HasObject (lstore l) oid (-1) in
    if ok then
      if (0 <=? ContentLength r) && negb (ContentLength r =? size) then (lfsError 400 "size mismatch", l)
      else (Done 200, l)
    else
      if etemp e is Some CreateFails then (failed 500, l) else
      let body := LimitReader (Body r) (wrap64 (max + 1)) in
      if etemp e is Some CopyFails then (failed 400, l) else
      if rErr body is Some _ then (failed 400, l) else
      let data := rData body in
      let n := Z.of_nat (len data) in
      if max <? n then (lfsError 413 ("object exceeds " +:+ itoa max +:+ " bytes"), l)
      else if (0 <=? ContentLength r) && negb (n =? ContentLength r) then (lfsError 400 "size mismatch", l)
      else if negb (String.eqb (hexSHA256 data) oid) then
        (lfsError 422 "sha256 mismatch: object content does not match oid", l)
      else match Check (efuel e) (Guard l) (Some (lstore l)) false n with
           | Some code => (failed code, l)
           | None =>
               if etemp e is Some SeekFails then (failed 500, l) else
               match WriteStream (lstore l) (objectRel oid) (temp_reader (etemp e) data) n with
               | (Some _, s) => (failed 500, with_store l s)
               | (None, s) => (Done 200, with_store l s)
               end
           end.

Definition serveObject (s : Store F) (oid : string) : option Reader :=
  match Open (sfs s) (StoreJoin s [objectRel oid]) with
  | Err _ => None
  | Ok (r, _) => Some r
  end.

Definition verify (r : Request) (s : Store F) : Answer :=
  match decode_body 1048576 object_shape r with
  | None => lfsError 422 "invalid verify request"
  | Some j =>
      let o := scan_object {| OID := ""; Size := 0 |} j in
      if (HasObject s (OID o) (Size o)).2
      then Reply 200 (JObject [("oid", JString (OID o)); ("size", JNumber (itoa (Size o)))])
      else lfsError 404 "object does not exist"
  end.

(** ** The lock table *)

Definition load (s : Store F) : result StoreError (list Lock) :=
  match StoreRead s locksRel with
  | Ok b => match decode_locks b with Some l => Ok l | None => Err (ErrFS (Failed "invalid locks.json")) end
  | Err (ErrFS e) => if IsNotFound e then Ok [] else Err (ErrFS e)
  | Err e => Err e
  end.

Definition save (s : Store F) (locks : list Lock) : option StoreError * Store F :=
  StoreWrite s locksRel (encode_locks locks).

Definition next_cursor (next : string) : list (string * Json) :=
  if String.eqb next "" then [] else [("next_cursor", JString next)].

Definition selected (r : Request) (lk : Lock) : bool :=
  let q := Query r in
  (String.eqb (q "path") "" || String.eqb (q "path") (Path lk)) &&
  (String.eqb (q "id") "" || String.eqb (q "id") (ID lk)) &&
  (String.eqb (q "refspec") "" || String.eqb (Ref lk) "" || String.eqb (q "refspec") (Ref lk)).

Definition listLocks (l : Local) (r : Request) : Answer :=
  match load (lstore l) with
  | Err _ => failed 500
  | Ok locks =>
      let '(page, next) := pageLocks (List.filter (selected r) locks) (Query r "cursor") (Atoi (Query r "limit")) in
      Reply 200 (JObject ([("locks", JArray (lock_json <$> page))] ++ next_cursor next))
  end.

Definition create_shape : Shape := TStruct [("path", TString); ("ref", TStruct [("name", TString)])].

(** The name of an optional ref. *)
Definition scan_ref (m : list (string * Json)) : option string :=
  foldl (fun ref j => match j with
           | JNull => None
           | j => Some (scan_field as_string "name" (default "" ref) (members j))
           end) None (struct_field "ref" m).

Definition createLock (e : Env) (l : Local) (r : Request) : Answer * Local :=
  if negb (AllowPush l) then (lfsError 403 "push disabled for this repository", l)
  else match decode_body 1048576 create_shape r with
  | None => (lfsError 422 "invalid lock request", l)
  | Some j =>
      let path := scan_field as_string "path" "" (members j) in
      if String.eqb path "" then (lfsError 422 "invalid lock request", l)
      else match load (lstore l) with
      | Err _ => (failed 500, l)
      | Ok locks =>
          match List.find (fun lk => String.eqb (Path lk) path) locks with
          | Some lk => (Reply 409 (JObject [("lock", lock_json lk); ("message", JString "already created lock")]), l)
          | None =>
              let lk := {| ID := newLockID (enow e); Path := path; LockedAt := enow e - enow e mod nanos;
                           Owner := owner r; Ref := default "" (scan_ref (members j)) |} in
              match save (lstore l) (locks ++ [lk]) with
              | (Some _, s) => (failed 500, with_store l s)
              | (None, s) => (Reply 201 (JObject [("lock", lock_json lk)]), with_store l s)
              end
          end
      end
  end.

Definition verifyLocks (l : Local) (r : Request) : Answer :=
  let m := members (decode_lenient 1048576 r) in
  match load (lstore l) with
  | Err _ => failed 500
  | Ok locks =>
      let '(page, next) := pageLocks locks (scan_field as_string "cursor" "" m) (scan_field as_int "limit" 0 m) in
      let mine lk := String.eqb (Owner lk) (owner r) in
      Reply 200 (JObject (next_cursor next ++
        [("ours", JArray (lock_json <$> List.filter mine page));
         ("theirs", JArray (lock_json <$> List.filter (fun lk => negb (mine lk)) page))]))
  end.

Definition unlock (l : Local) (r : Request) (id : string) : Answer * Local :=
  if negb (AllowPush l) then (lfsError 403 "push disabled for this repository", l)
  else
    let force := scan_field as_bool "force" false (members (decode_lenient 1048576 r)) in
    match load (lstore l) with
    | Err _ => (failed 500, l)
    | Ok locks =>
        match take_lock id locks with
        | None => (lfsError 404 "lock not found", l)
        | Some (lk, rest) =>
            if negb (String.eqb (Owner lk) (owner r)) && negb force then
              (lfsError 403 ("lock is owned by " +:+ Owner lk +:+ "; use --force"), l)
            else match save (lstore l) rest with
                 | (Some _, s) => (failed 500, with_store l s)
                 | (None, s) => (Reply 200 (JObject [("lock", lock_json lk)]), with_store l s)
                 end
        end
    end.

Definition serveLocks (e : Env) (l : Local) (r : Request) (p : string) : Answer * Local :=
  if String.eqb p "/locks" && is_method r "GET" then (listLocks l r, l)
  else if String.eqb p "/locks" && is_method r "POST" then createLock e l r
  else if String.eqb p "/locks/verify" && is_method r "POST" then (verifyLocks l r, l)
  else if HasPrefix p "/locks/" && HasSuffix p "/unlock" && is_method r "POST" then
    unlock l r (TrimSuffix (TrimPrefix p "/locks/") "/unlock")
  else (lfsError 404 "not found", l).

Definition ServeHTTP (e : Env) (l : Local) (r : Request) : Answer * Local :=
  let p := route (URLPath r) in
  if String.eqb p "/objects/batch" && is_method r "POST" then (batch e l r, l)
  else if String.eqb p "/objects/verify" && is_method r "POST" then (verify r (lstore l), l)
  else if HasPrefix p "/locks" then serveLocks e l r p
  else if HasPrefix p "/objects/" then
    match objectsOID p with
    | None => (lfsError 404 "not found", l)
    | Some oid =>
        if IsRead r then
          match serveObject (lstore l) oid with
          | Some content => (Served content, l)
          | None => (lfsError 404 "object does not exist", l)
          end
        else if is_method r "PUT" then upload e l r oid
        else (lfsError 405 "method not allowed", l)
    end
  else (lfsError 404 "not found", l).

(** ** Optional interfaces *)

Inductive LfsError := PackageNotFound | InvalidPackageName | Rejected (code : Z) | StoreFailed (e : StoreError).

Definition Stats (fuel : nat) (l : Local) : Z * Z := Usage fuel (lstore l) "objects".

(** The object's size and modification time. *)
Definition objectDetail (s : Store F) (oid : string) : result LfsError (string * Z * Z) :=
  if negb (ValidOID oid) then Err InvalidPackageName
  else match StoreStat s (objectRel oid) with
       | Err _ => Err PackageNotFound
       | Ok fi => Ok (oid, Backend.Size fi, ModTime fi)
       end.

Definition DeleteVersion (l : Local) (name : string) : option LfsError * Local :=
  if negb (HasObject (lstore l) name (-1)).2 then (Some PackageNotFound, l)
  else let '(e, s) := StoreDelete (lstore l) (objectRel name) in (StoreFailed <$> e, with_store l s).

Definition classify (r : Request) : option (string * string) :=
  if IsRead r then (fun oid => (oid, oid)) <$> objectsOID (route (URLPath r)) else None.

(** [PromoteVersion] into another local repository. *)
Definition PromoteVersion (fuel : nat) (l d : Local) (name : string) : option LfsError * Local :=
  let '(size, ok) := HasObject (lstore l) name (-1) in
  if negb ok then (Some PackageNotFound, d)
  else if (HasObject (lstore d) name size).2 then (None, d)
  else match Check fuel (Guard d) (Some (lstore d)) false size with
       | Some code => (Some (Rejected code), d)
       | None =>
           match Open (sfs (lstore l)) (StoreJoin (lstore l) [objectRel name]) with
           | Err e => (Some (StoreFailed (ErrFS e)), d)
           | Ok (rc, _) =>
               let '(e, s) := WriteStream (lstore d) (objectRel name) rc size in (StoreFailed <$> e, with_store d s)
           end
       end.

Definition collect_oid (rel : string) (_ : DirEntry) (st : Store F * list string)
    : option FSError * (Store F * list string) :=
  let name := match LastIndexByte rel "/" with Some i => str_drop (S i) rel | None => rel end in
  (None, if ValidOID name then (st.1, st.2 ++ [name]) else st).

(** Every stored object id, sorted, and the error of the walk. *)
Definition AllObjects (fuel : nat) (s : Store F) : list string * option FSError :=
  let '(e, st) := Walk fst collect_oid fuel "objects" (s, []) in (sortStr st.2, e).

End local.
End times.

Arguments Local : clear implicits.
