(* ===== verification/GitLfsSafety.v ===== *)
(** * The Git LFS server: what it stores and whom it lets lock

    On mounts whose failed changes leave the file alone every stored object
    hashes to its id, whatever requests arrive.  The lock table behind locks.json
    is a list of locks: a request leaves it, adds a lock of its caller on a free
    path, or takes one out that is the caller's or forced; pages enumerate it. *)

From Stdlib Require Import ZArith Lia Ascii.
From stdpp Require Import base list strings relations.
From S2P Require Import Prelude GoStrings GoPath GoHash GoBase64 GoJson GoJsonLaws S3Chunked Backend PkgStore LocalFS AtomicFS PkgStoreSafety StoreLaws GitLfs.

Local Open Scope Z_scope.

(** ** Places *)

Lemma str_forallb_take p n s : str_forallb p s = true -> str_forallb p (str_take n s) = true.
Proof.
  revert s. induction n as [|n IH]; intros [|c s]; [done..|]. cbn. intros [Hc Hs]%andb_true_iff. by rewrite Hc, IH.
Qed.

Lemma str_forallb_drop p n s : str_forallb p s = true -> str_forallb p (str_drop n s) = true.
Proof.
  revert s. induction n as [|n IH]; intros [|c s]; [done..|]. cbn. intros [Hc Hs]%andb_true_iff. by apply IH.
Qed.

Lemma lower_hex_seg s : s <> "" -> str_forallb is_lower_hex s = true -> good_seg s.
Proof.
  intros Hne H. split; [done|]. split; [by intros ->|]. split; [by intros ->|].
  by apply (no_byte_forallb is_lower_hex).
Qed.

Lemma ValidOID_inv oid : ValidOID oid = true -> len oid = 64%nat /\ str_forallb is_lower_hex oid = true.
Proof. unfold ValidOID. intros [H1 H2]%andb_true_iff. by apply Nat.eqb_eq in H1. Qed.

Lemma object_resolve oid : ValidOID oid = true ->
  resolve (objectRel oid) = ["objects"; str_take 2 oid; str_take 2 (str_drop 2 oid); oid].
Proof.
  intros [Hl Hx]%ValidOID_inv. unfold objectRel.
  assert (H : Forall good_seg ["objects"; str_take 2 oid; str_take 2 (str_drop 2 oid); oid]).
  { constructor; [done|]. assert (Hn : forall s, len s <> O -> s <> "") by (by intros s Hs ->).
    repeat constructor; try (apply lower_hex_seg; [|try apply str_forallb_take; try apply str_forallb_drop; done]);
      apply Hn; rewrite ?len_take, ?len_drop, Hl; done. }
  rewrite resolve_PathJoin; [|by eapply Forall_impl; [exact H|apply good_seg_path]].
  clear Hl Hx. revert H. generalize (str_take 2 oid), (str_take 2 (str_drop 2 oid)). intros a b H.
  do 4 (rewrite Forall_cons in H; destruct H as [(? & ? & ? & ?) H]).
  cbn [fmap list_fmap concat]. by rewrite !Split_single by done.
Qed.

Lemma object_inside oid : ValidOID oid = true -> inside (objectRel oid).
Proof. intros H. unfold inside. by rewrite object_resolve. Qed.

Lemma object_apart oid oid' : ValidOID oid = true -> ValidOID oid' = true -> oid <> oid' ->
  resolve (objectRel oid) <> resolve (objectRel oid').
Proof. intros H H' Hne. rewrite !object_resolve by done. congruence. Qed.

Lemma locks_resolve : resolve locksRel = ["locks.json"].
Proof. reflexivity. Qed.

Lemma locks_inside : inside locksRel.
Proof. done. Qed.

Lemma locks_apart oid : ValidOID oid = true ->
  resolve (objectRel oid) <> resolve locksRel /\ resolve locksRel <> resolve (objectRel oid).
Proof. intros H. rewrite object_resolve, locks_resolve by done. done. Qed.

#[export] Hint Resolve object_inside locks_inside object_apart : kutu.

Lemma objectsOID_valid p oid : objectsOID p = Some oid -> ValidOID oid = true.
Proof.
  unfold objectsOID. destruct (HasPrefix _ _); [|done]. cbv zeta.
  destruct (ValidOID (TrimPrefix p "/objects/")) eqn:E; [|done]. by intros [= <-].
Qed.

Section safety.
Variables (FormatTime : Z -> string) (ParseTime : string -> option Z).
Context {F : Type} {HF : Backend F} {HL : BackendLaws F} {HA : AtomicWrites F}.
Implicit Types (l d : Local F) (s : Store F).

Notation ServeHTTP := (ServeHTTP FormatTime ParseTime).
Notation load := (load ParseTime).
Notation decode_locks := (decode_locks ParseTime).
Notation encode_locks := (encode_locks FormatTime).

(** ** What a call does to the store *)

(** The temporary file gives back what was written to it. *)
Definition temp_reads (e : Env) : Prop := match etemp e with Some (ReadFails _) => False | _ => True end.

(** The only changes: an object under the hash of its bytes, the lock file, or
    nothing. *)
Inductive touched : Store F -> Store F -> Prop :=
| touch_none s : touched s s
| touch_object s x n : ValidOID (hexSHA256 x) = true -> touched s (WriteStream s (objectRel (hexSHA256 x)) (reader x) n).2
| touch_locks s b : touched s (StoreWrite s locksRel b).2.

Lemma upload_touched e l r oid : temp_reads e -> ValidOID oid = true ->
  touched (lstore l) (lstore (upload e l r oid).2).
Proof.
  intros Ht Hv. unfold temp_reads in Ht. unfold upload. cbv zeta. destruct (negb (AllowPush l)); [constructor|].
  destruct (max_upload l <? ContentLength r); [constructor|].
  destruct (HasObject (lstore l) oid (-1)) as [size ok]. destruct ok; [destruct (_ && _); constructor|].
  revert Ht.
  destruct (etemp e) as [[| | |k]|]; intros Ht; try done; try constructor;
    (destruct (rErr _); [constructor|]; destruct (max_upload l <? _); [constructor|];
     destruct (_ && _); [constructor|]; destruct (String.eqb (hexSHA256 _) oid) eqn:Eh; cbn [negb]; [|constructor];
     destruct (Check _ _ _ _ _); [constructor|]); try constructor.
  apply String.eqb_eq in Eh. cbn [temp_reader].
  set (x := rData _) in *. set (n := Z.of_nat (len x)). rewrite <-Eh in Hv |- *. pose proof (touch_object (lstore l) x n Hv) as H.
  destruct (WriteStream _ _ _ _) as [[er|] s] eqn:E; exact H.
Qed.

Lemma createLock_touched e l r : touched (lstore l) (lstore (createLock FormatTime ParseTime e l r).2).
Proof.
  unfold createLock. destruct (negb _); [constructor|]. destruct (decode_body _ _ _) as [j|]; [|constructor]. cbv zeta.
  destruct (String.eqb _ ""); [constructor|]. destruct (load _) as [locks|]; [|constructor].
  destruct (List.find _ _); [constructor|]. unfold save.
  match goal with |- context [StoreWrite ?s _ ?b] => pose proof (touch_locks s b) as H end.
  destruct (StoreWrite _ _ _) as [[er|] s]; exact H.
Qed.

Lemma unlock_touched l r id : touched (lstore l) (lstore (unlock FormatTime ParseTime l r id).2).
Proof.
  unfold unlock. destruct (negb _); [constructor|]. cbv zeta. destruct (load _) as [locks|]; [|constructor].
  destruct (take_lock _ _) as [[lk rest]|]; [|constructor]. destruct (_ && _); [constructor|]. unfold save.
  match goal with |- context [StoreWrite ?s _ ?b] => pose proof (touch_locks s b) as H end.
  destruct (StoreWrite _ _ _) as [[er|] s]; exact H.
Qed.

Lemma serve_touched e l r : temp_reads e -> touched (lstore l) (lstore (ServeHTTP e l r).2).
Proof.
  intros Ht. unfold ServeHTTP. cbv zeta. set (p := route (URLPath r)).
  destruct (_ && _); [constructor|]. destruct (_ && _); [constructor|]. destruct (HasPrefix p "/locks").
  { unfold serveLocks. destruct (_ && _); [constructor|]. destruct (_ && _); [apply createLock_touched|].
    destruct (_ && _); [constructor|]. destruct (_ && _); [apply unlock_touched|constructor]. }
  destruct (HasPrefix p "/objects/"); [|constructor]. destruct (objectsOID p) as [oid|] eqn:Eo; [|constructor].
  destruct (IsRead r); [destruct (serveObject _ _); constructor|].
  destruct (is_method r "PUT"); [|constructor]. by apply upload_touched, objectsOID_valid with p.
Qed.

(** ** Integrity *)

Record lfs_ok l : Prop := {
  lfs_wf : store_wf (lstore l);
  lfs_objects oid x : ValidOID oid = true -> stored (lstore l) (objectRel oid) = Some x -> hexSHA256 x = oid;
}.

(** A call, whatever it answers.  A promotion reads an object of a repository in
    order. *)
Inductive lfs_step : Local F -> Local F -> Prop :=
| step_serve e l r : temp_reads e -> lfs_step l (ServeHTTP e l r).2
| step_delete l name : lfs_step l (DeleteVersion l name).2
| step_promote fuel src l name : lfs_ok src -> stored (lstore src) (objectRel name) <> None ->
    lfs_step l (PromoteVersion fuel src l name).2.

Lemma touched_ok l l' : lfs_ok l -> touched (lstore l) (lstore l') -> lfs_ok l'.
Proof.
  intros [Hw Ho] Ht. inversion Ht as [s E E'|s x n Hv E E'|s b E E']; clear Ht.
  - split; rewrite <-E'; done.
  - split; rewrite <-E'; [by apply stream_wf|]. intros oid y Hoid Hy.
    destruct (decide (oid = hexSHA256 x)) as [->|Hne].
    + destruct (WriteStream _ _ _ _) as [[er|] s'] eqn:Ew; cbn [snd] in Hy.
      * rewrite (stream_failed _ _ _ _ _ _ Hw (object_inside _ Hv) Ew) in Hy. by apply Ho.
      * destruct (stream_ok _ _ _ _ _ Hw (object_inside _ Hv) Ew) as [_ Hs]. rewrite Hs in Hy. by injection Hy as <-.
    + rewrite stream_other in Hy by auto with kutu. by apply Ho.
  - split; rewrite <-E'; [by apply stream_wf|]. intros oid y Hoid Hy.
    rewrite StoreWrite_stream, stream_other in Hy; [by apply Ho|done|done|by apply object_inside|by apply locks_apart].
Qed.

Lemma HasObject_valid s oid n : (HasObject s oid n).2 = true -> ValidOID oid = true.
Proof. unfold HasObject. by destruct (ValidOID oid). Qed.

Lemma lfs_step_ok l l' : lfs_ok l -> lfs_step l l' -> lfs_ok l'.
Proof.
  intros Hl Hstep. destruct Hstep as [e l r Ht|l name|fuel src l name Hsrc Hst].
  - apply (touched_ok l); [done|by apply serve_touched].
  - unfold DeleteVersion. destruct (HasObject (lstore l) name (-1)).2 eqn:Ex; [|done]. cbn [negb].
    apply HasObject_valid in Ex.
    assert (H : lfs_ok (with_store l (StoreDelete (lstore l) (objectRel name)).2)).
    { destruct Hl as [Hw Ho]. split; cbn [with_store lstore]; [by apply store_delete_wf|]. intros oid x Hv Hx.
      destruct (decide (oid = name)) as [->|Hne].
      - destruct (delete_stored (lstore l) (objectRel name) Hw (object_inside _ Ex)) as [E|E]; rewrite E in Hx; [|done].
        by apply Ho.
      - rewrite delete_other in Hx by auto with kutu. by apply Ho. }
    by destruct (StoreDelete _ _).
  - unfold PromoteVersion. destruct (HasObject (lstore src) name (-1)) as [size ok] eqn:Ex. destruct ok; [|done].
    cbn [negb]. destruct (HasObject (lstore l) name size).2; [done|]. destruct (Check _ _ _ _ _); [done|].
    destruct (stored (lstore src) (objectRel name)) as [x|] eqn:Es; [|done].
    assert (Hv : ValidOID name = true) by (by apply (HasObject_valid (lstore src) name (-1)); rewrite Ex).
    pose proof (lfs_objects _ Hsrc name x Hv Es) as Hn.
    unfold stored, file_at in Es. destruct (Open _ _) as [[rc fi]|er]; [|done].
    destruct (IsDir fi); [done|]. destruct rc as [dat [er|]]; [done|]. cbn [rErr rData] in Es. injection Es as ->.
    subst name. pose proof (touch_object (lstore l) x size Hv) as H.
    change {| rData := x; rErr := None |} with (reader x).
    assert (H2 : lfs_ok (with_store l (WriteStream (lstore l) (objectRel (hexSHA256 x)) (reader x) size).2)) by (by apply (touched_ok l)).
    by destruct (WriteStream _ _ _ _).
Qed.

(** ** The lock table *)

(** What RFC 3339 keeps of the times that fit a clock of nanoseconds. *)
Definition time_law : Prop := forall t, 0 <= t <= int64_max ->
  ValidString (FormatTime t) = true /\ ParseTime (FormatTime t) = Some t.

Hypothesis Htime : time_law.

Record lock_ok (lk : Lock) : Prop := {
  lk_id : ValidString (ID lk) = true;
  lk_path : ValidString (Path lk) = true;
  lk_owner : ValidString (Owner lk) = true;
  lk_time : 0 <= LockedAt lk <= int64_max;
}.

(** A lock as it comes back from the file. *)
Definition unref (lk : Lock) : Lock :=
  {| ID := ID lk; Path := Path lk; LockedAt := LockedAt lk; Owner := Owner lk; Ref := "" |}.

Lemma lock_json_back zero lk : lock_ok lk -> Ref zero = "" ->
  fits (lock_shape ParseTime) (lock_json FormatTime lk) = true /\
  scan_lock ParseTime zero (lock_json FormatTime lk) = unref lk.
Proof.
  intros Hl Hz. destruct (Htime _ (lk_time _ Hl)) as [_ Ht]. split.
  - change (is_some (ParseTime (FormatTime (LockedAt lk))) && true = true). by rewrite Ht.
  - change ({| ID := ID lk; Path := Path lk; LockedAt := default (LockedAt zero) (ParseTime (FormatTime (LockedAt lk)));
               Owner := Owner lk; Ref := Ref zero |} = unref lk). by rewrite Ht, Hz.
Qed.

Lemma lock_json_writable depth lk : lock_ok lk -> 0 <= depth <= 1 -> writable depth (lock_json FormatTime lk) = true.
Proof.
  intros Hl Hd. destruct (Htime _ (lk_time _ Hl)) as [Hv _]. unfold lock_json. cbn [writable forallb fst snd].
  rewrite (lk_id _ Hl), (lk_path _ Hl), (lk_owner _ Hl), Hv. unfold maxNestingDepth. tests. done.
Qed.

(** The file holds the table: a saved one is loaded, without the refs. *)
Lemma decode_encode locks : Forall lock_ok locks -> decode_locks (encode_locks locks) = Some (unref <$> locks).
Proof.
  intros Hl. unfold decode_locks, encode_locks.
  assert (Hw : writable 0 (JArray (lock_json FormatTime <$> locks)) = true).
  { cbn [writable]. change (0 <? maxNestingDepth) with true. cbn [andb]. apply forallb_forall. intros j Hj.
    apply list_elem_of_In, list_elem_of_fmap in Hj as (lk & -> & Hlk). apply lock_json_writable; [|lia].
    by apply (proj1 (Forall_forall _ _) Hl). }
  rewrite parse_write by done.
  assert (Hf : fits (TSlice (lock_shape ParseTime)) (JArray (lock_json FormatTime <$> locks)) = true).
  { cbn [fits]. apply forallb_forall. intros j Hj. apply list_elem_of_In, list_elem_of_fmap in Hj as (lk & -> & Hlk).
    refine (proj1 (lock_json_back {| ID := ""; Path := ""; LockedAt := 0; Owner := ""; Ref := "" |} lk _ eq_refl)).
    by apply (proj1 (Forall_forall _ _) Hl). }
  rewrite Hf. f_equal. rewrite <-list_fmap_compose. clear Hw Hf. induction Hl as [|lk ls Hlk _ IH]; [done|].
  cbn [fmap list_fmap]. f_equal; [|exact IH]. by apply lock_json_back.
Qed.

(** The table of a store; a missing file is an empty one. *)
Definition table s : option (list Lock) :=
  match stored s locksRel with None => Some [] | Some b => decode_locks b end.

Lemma load_table s T : store_wf s -> load s = Ok T -> table s = Some T.
Proof.
  intros Hw. unfold load, table. destruct (StoreRead s locksRel) as [b|[|e]] eqn:E.
  - apply StoreRead_stored in E; [|done]. rewrite E. destruct (decode_locks b) as [x|]; [|done]. congruence.
  - done.
  - destruct (stored s locksRel) as [b|] eqn:Es.
    + apply StoreRead_stored in Es; [|done]. congruence.
    + destruct (PkgStore.IsNotFound e); [|done]. congruence.
Qed.

(** Saving a table replaces it or leaves it. *)
Lemma save_table s locks : store_wf s -> Forall lock_ok locks ->
  let '(e, s') := save FormatTime s locks in
  store_wf s' /\ (e = None -> table s' = Some (unref <$> locks)) /\ (e <> None -> table s' = table s).
Proof.
  intros Hw Hl. unfold save. rewrite StoreWrite_stream.
  pose proof (stream_wf s locksRel (reader (encode_locks locks)) (Z.of_nat (len (encode_locks locks))) Hw) as Hw'.
  destruct (WriteStream _ _ _ _) as [[e|] s'] eqn:E; (split; [exact Hw'|split; [|]]); try done; intros _.
  - unfold table. by rewrite (stream_failed _ _ _ _ _ _ Hw locks_inside E).
  - destruct (stream_ok _ _ _ _ _ Hw locks_inside E) as [_ Hs]. unfold table. rewrite Hs. by apply decode_encode.
Qed.

Lemma object_table s rel r n : store_wf s -> inside rel -> resolve rel <> resolve locksRel ->
  table (WriteStream s rel r n).2 = table s.
Proof. intros Hw Hi Hne. unfold table. by rewrite stream_other. Qed.

(** ** Who may change it *)

Definition forced (r : Request) : bool := scan_field as_bool "force" false (members (decode_lenient 1048576 r)).

Lemma take_lock_spec id locks lk rest : take_lock id locks = Some (lk, rest) ->
  ID lk = id /\ exists a b, locks = a ++ lk :: b /\ rest = a ++ b.
Proof.
  revert rest. induction locks as [|x locks IH]; intros rest; [done|]. cbn. destruct (String.eqb (ID x) id) eqn:E.
  - intros [= <- <-]. apply String.eqb_eq in E. split; [done|]. by exists [], locks.
  - destruct (take_lock id locks) as [[y rs]|]; [|done]. intros [= -> <-].
    destruct (IH rs eq_refl) as (Hid & a & b & -> & ->). split; [done|]. by exists (x :: a), b.
Qed.

(** The tables that the server keeps. *)
Record table_ok (T : list Lock) : Prop := {
  tb_locks : Forall lock_ok T;
  tb_refs : Forall (fun lk => Ref lk = "") T;
  tb_paths : NoDup (Path <$> T);
}.

Lemma unref_table T : Forall (fun lk => Ref lk = "") T -> unref <$> T = T.
Proof.
  induction 1 as [|lk T Hr _ IH]; [done|]. cbn [fmap list_fmap]. f_equal; [|exact IH]. destruct lk. cbn in Hr. by subst.
Qed.

Lemma table_ok_minus a lk b : table_ok (a ++ lk :: b) -> table_ok (a ++ b).
Proof.
  intros [H1 H2 H3]. split.
  - apply Forall_app in H1 as [? [? ?]%Forall_cons]. by apply Forall_app.
  - apply Forall_app in H2 as [? [? ?]%Forall_cons]. by apply Forall_app.
  - rewrite fmap_app, fmap_cons in H3. rewrite fmap_app. apply NoDup_app in H3 as (Ha & Hab & [Hn Hb]%NoDup_cons).
    apply NoDup_app. split_and!; [done| |done]. intros x Hx Hxb. apply (Hab x Hx). by right.
Qed.

(** One request: the table before, the answer's code and the table after. *)
Inductive lock_change (r : Request) (T : list Lock) : Z -> list Lock -> Prop :=
| change_none code : lock_change r T code T
| change_lock lk : Path lk ∉ Path <$> T -> Owner lk = owner r -> lock_change r T 201 (T ++ [lk])
| change_unlock a lk b : T = a ++ lk :: b -> Owner lk = owner r \/ forced r = true -> lock_change r T 200 (a ++ b).

Definition lock_answer (r : Request) (T : list Lock) (al : Answer * Local F) : Prop :=
  store_wf (lstore al.2) /\
  exists T', table (lstore al.2) = Some T' /\ table_ok T' /\ lock_change r T (code_of al.1) T'.

Lemma same_table r T a l : store_wf (lstore l) -> table (lstore l) = Some T -> table_ok T -> lock_answer r T (a, l).
Proof. intros Hw Ht Hok. split; [done|]. exists T. split_and!; [done|done|constructor]. Qed.

Lemma newLockID_valid now : ValidString (newLockID now) = true.
Proof. apply lower_hex_valid, EncodeToString_lower. Qed.

Lemma createLock_answer e l r T : store_wf (lstore l) -> table (lstore l) = Some T -> table_ok T ->
  0 <= enow e <= int64_max -> ValidString (owner r) = true ->
  lock_answer r T (createLock FormatTime ParseTime e l r).
Proof.
  intros Hw Ht Hok Hnow Hown. assert (Hsame : forall a, lock_answer r T (a, l)) by (intros a; by apply same_table).
  unfold createLock. destruct (negb _); [done|]. destruct (decode_body _ _ _) as [j|] eqn:Ej; [|done]. cbv zeta.
  set (path := scan_field as_string "path" "" (members j)). destruct (String.eqb path ""); [done|].
  destruct (load (lstore l)) as [T0|] eqn:El; [|done]. assert (T0 = T) as -> by (apply load_table in El; [congruence|done]).
  destruct (List.find _ T) as [lk|] eqn:Ef; [done|].
  set (lk := {| ID := _; Path := _; LockedAt := _; Owner := _; Ref := _ |}).
  assert (Hlk : lock_ok lk).
  { split; cbn; [apply newLockID_valid| |done|unfold nanos; pose proof (Z.mod_pos_bound (enow e) 1000000000 ltac:(lia));
      pose proof (Z.mod_le (enow e) 1000000000 ltac:(lia) ltac:(lia)); lia].
    unfold decode_body in Ej. destruct (decode_first _) as [j'|] eqn:Ed; [|done]. destruct (fits _ _); [|done].
    injection Ej as ->. apply scan_string_valid; [by apply decode_first_valid in Ed|done]. }
  assert (Hp : Path lk ∉ Path <$> T).
  { intros (x & Ex & Hx)%list_elem_of_fmap. apply list_elem_of_In in Hx. apply (List.find_none _ _ Ef) in Hx.
    rewrite <-Ex in Hx. by rewrite String.eqb_refl in Hx. }
  pose proof (save_table (lstore l) (T ++ [lk]) Hw) as Hs.
  destruct (save FormatTime (lstore l) (T ++ [lk])) as [[er|] s]; (destruct Hs as (Hw' & Hgood & Hbad);
    [apply Forall_app; split; [apply Hok|by constructor]|]).
  - apply same_table; [done| |done]. cbn. by rewrite Hbad.
  - split; [done|]. exists (T ++ [unref lk]). cbn [snd with_store lstore fst code_of]. split_and!.
    + rewrite Hgood by done. rewrite fmap_app, unref_table by apply Hok. done.
    + split; [apply Forall_app; split; [apply Hok|constructor; [|done]]|apply Forall_app; split; [apply Hok|by constructor]|].
      * destruct Hlk; by split.
      * rewrite fmap_app. cbn [fmap list_fmap]. apply NoDup_app. split_and!; [apply Hok| |apply NoDup_singleton].
        intros x Hx. rewrite list_elem_of_singleton. intros ->. by apply Hp.
    + by apply change_lock.
Qed.

Lemma unlock_answer l r id T : store_wf (lstore l) -> table (lstore l) = Some T -> table_ok T ->
  lock_answer r T (unlock FormatTime ParseTime l r id).
Proof.
  intros Hw Ht Hok. assert (Hsame : forall a, lock_answer r T (a, l)) by (intros a; by apply same_table).
  unfold unlock. destruct (negb _); [done|]. cbv zeta. fold (forced r).
  destruct (load (lstore l)) as [T0|] eqn:El; [|done]. assert (T0 = T) as -> by (apply load_table in El; [congruence|done]).
  destruct (take_lock id T) as [[lk rest]|] eqn:Et; [|done].
  destruct (take_lock_spec _ _ _ _ Et) as (_ & a & b & -> & ->).
  destruct (negb (String.eqb (Owner lk) (owner r)) && negb (forced r)) eqn:Ea; [done|].
  pose proof (table_ok_minus _ _ _ Hok) as Hok'.
  pose proof (save_table (lstore l) (a ++ b) Hw (tb_locks _ Hok')) as Hs.
  destruct (save FormatTime (lstore l) (a ++ b)) as [[er|] s]; destruct Hs as (Hw' & Hgood & Hbad).
  - apply same_table; [done| |done]. cbn. by rewrite Hbad.
  - split; [done|]. exists (a ++ b). cbn [snd with_store lstore fst code_of]. split_and!; [|done|].
    + rewrite Hgood by done. by rewrite unref_table by apply Hok'.
    + apply (change_unlock r _ a lk b); [done|]. apply andb_false_iff in Ea as [Ea|Ea]; apply negb_false_iff in Ea; [left|by right].
      by apply String.eqb_eq.
Qed.

Lemma upload_answer e l r oid T : store_wf (lstore l) -> table (lstore l) = Some T -> table_ok T -> ValidOID oid = true ->
  lock_answer r T (upload e l r oid).
Proof.
  intros Hw Ht Hok Hv. assert (Hsame : forall a, lock_answer r T (a, l)) by (intros a; by apply same_table).
  unfold upload. cbv zeta. destruct (negb _); [done|]. destruct (_ <? _); [done|]. destruct (HasObject _ _ _) as [size ok].
  destruct ok; [by destruct (_ && _)|].
  assert (Hwrite : forall rd n, lock_answer r T match WriteStream (lstore l) (objectRel oid) rd n with
    | (Some _, s) => (failed 500, with_store l s) | (None, s) => (Done 200, with_store l s) end).
  { intros rd n. pose proof (object_table (lstore l) (objectRel oid) rd n Hw (object_inside _ Hv) (proj1 (locks_apart _ Hv))) as Hs.
    pose proof (stream_wf (lstore l) (objectRel oid) rd n Hw) as Hw'.
    destruct (WriteStream _ _ _ _) as [[er|] s]; (apply same_table; [done| |done]); cbn in *; congruence. }
  repeat first [apply Hsame | apply Hwrite | case_match].
Qed.

Lemma serve_answer e l r T : store_wf (lstore l) -> table (lstore l) = Some T -> table_ok T ->
  0 <= enow e <= int64_max -> ValidString (owner r) = true -> lock_answer r T (ServeHTTP e l r).
Proof.
  intros Hw Ht Hok Hnow Hown. assert (Hsame : forall a, lock_answer r T (a, l)) by (intros a; by apply same_table).
  unfold ServeHTTP. cbv zeta. set (p := route (URLPath r)).
  destruct (_ && _); [done|]. destruct (_ && _); [done|]. destruct (HasPrefix p "/locks").
  { unfold serveLocks. destruct (_ && _); [done|]. destruct (_ && _); [by apply createLock_answer|].
    destruct (_ && _); [done|]. destruct (_ && _); [by apply unlock_answer|done]. }
  destruct (HasPrefix p "/objects/"); [|done]. destruct (objectsOID p) as [oid|] eqn:Eo; [|done].
  destruct (IsRead r); [by destruct (serveObject _ _)|].
  destruct (is_method r "PUT"); [|done]. apply upload_answer; try done. by eapply objectsOID_valid.
Qed.

(** Only the route of an object serves bytes. *)
Lemma served_object e l r c : (ServeHTTP e l r).1 = Served c ->
  exists oid, objectsOID (route (URLPath r)) = Some oid /\ serveObject (lstore l) oid = Some c.
Proof.
  unfold ServeHTTP. cbv zeta. set (p := route (URLPath r)).
  assert (Hb : forall res, batchResponse res <> Served c) by done.
  destruct (_ && _). { unfold batch, decodeBatch. repeat case_match; simplify_eq; by intros. }
  destruct (_ && _). { unfold verify. repeat case_match; by intros. }
  destruct (HasPrefix p "/locks").
  { unfold serveLocks, listLocks, createLock, verifyLocks, unlock. repeat case_match; by intros. }
  destruct (HasPrefix p "/objects/"); [|done]. destruct (objectsOID p) as [oid|]; [|done].
  destruct (IsRead r).
  - destruct (serveObject (lstore l) oid) as [c'|] eqn:E; [|done]. cbn. intros [= <-]. by exists oid.
  - destruct (is_method r "PUT"); [|done]. unfold upload. repeat case_match; by intros.
Qed.

Lemma lfs_steps_ok l l' : rtc lfs_step l l' -> lfs_ok l -> lfs_ok l'.
Proof. induction 1 as [|l l1 l2 Hstep _ IH]; [done|]. intros Hl. by eapply IH, lfs_step_ok. Qed.

(** C10: what a request is served in full hashes to the object id it asked for,
    whatever requests, deletions and promotions came before, on a mount where a
    rejected write or deletion leaves the file as it was, as long as the temporary
    file of an upload gives back what was written to it, and a promotion comes from
    a repository that is in the same order and reads the object in full.
    [poisoned_upload] shows what a temporary file that is read short does; a
    promotion copies without comparing the hash. *)
Theorem lfs_integrity l l' e r c : lfs_ok l -> rtc lfs_step l l' ->
  (ServeHTTP e l' r).1 = Served c -> rErr c = None ->
  objectsOID (route (URLPath r)) = Some (hexSHA256 (rData c)).
Proof.
  intros Hl Hsteps Hs Hc. destruct (served_object _ _ _ _ Hs) as (oid & Ho & E). rewrite Ho. f_equal.
  destruct (lfs_steps_ok _ _ Hsteps Hl) as [[Hb Hw] Hobj].
  symmetry. apply Hobj; [by eapply objectsOID_valid|]. unfold serveObject in E. unfold stored, file_at.
  destruct (Open _ _) as [[rd fi]|] eqn:Eo; [|done]. injection E as ->.
  destruct (IsDir fi) eqn:Ed; [by destruct (Open_dir _ _ _ _ Hw Eo Ed)|]. by rewrite Hc.
Qed.

(** ** Locks that are held *)

(** A call of somebody else: neither the owner's nor a forced one. *)
Inductive others (lk : Lock) : Local F -> Local F -> Prop :=
| other_serve e l r : 0 <= enow e <= int64_max -> ValidString (owner r) = true ->
    owner r <> Owner lk -> forced r = false -> others lk l (ServeHTTP e l r).2
| other_delete l name : others lk l (DeleteVersion l name).2
| other_promote fuel src l name : others lk l (PromoteVersion fuel src l name).2.

Definition holds (lk : Lock) l : Prop :=
  store_wf (lstore l) /\ exists T, table (lstore l) = Some T /\ table_ok T /\ lk ∈ T.

Lemma change_holds r T code T' lk : lock_change r T code T' -> lk ∈ T -> owner r <> Owner lk -> forced r = false -> lk ∈ T'.
Proof.
  intros [|k _ _|a k b -> Hk] Hlk Ho Hf; [done|by apply elem_of_app; left|].
  apply elem_of_app in Hlk as [Hlk|Hlk]; [by apply elem_of_app; left|].
  apply elem_of_cons in Hlk as [->|Hlk]; [destruct Hk; congruence|]. apply elem_of_app. by right.
Qed.

Lemma others_holds lk l l' : others lk l l' -> holds lk l -> holds lk l'.
Proof.
  intros Hstep (Hw & T & Ht & Hok & Hlk). destruct Hstep as [e l r Hn Hv Ho Hf|l name|fuel src l name].
  - destruct (serve_answer e l r T Hw Ht Hok Hn Hv) as (Hw' & T' & Ht' & Hok' & Hc). split; [done|].
    exists T'. split_and!; [done|done|]. by eapply change_holds.
  - unfold DeleteVersion. destruct (HasObject (lstore l) name (-1)).2 eqn:Ex; cbn [negb]; [|by split; [|exists T]].
    apply HasObject_valid in Ex. pose proof (store_delete_wf (lstore l) (objectRel name) Hw) as Hw'.
    pose proof (delete_other (lstore l) (objectRel name) locksRel Hw (object_inside _ Ex) locks_inside (proj2 (locks_apart _ Ex))) as Hs.
    destruct (StoreDelete _ _) as [er s]. split; [done|]. exists T. split_and!; [|done|done].
    unfold table. cbn in *. by rewrite Hs.
  - assert (Hsame : holds lk l) by (by split; [|exists T]).
    unfold PromoteVersion. destruct (HasObject (lstore src) name (-1)) as [size ok] eqn:Ex. destruct ok; [|done].
    assert (Hv : ValidOID name = true) by (by apply (HasObject_valid (lstore src) name (-1)); rewrite Ex).
    cbn [negb]. destruct (HasObject (lstore l) name size).2; [done|]. destruct (Check _ _ _ _ _); [done|].
    destruct (Open _ _) as [[rc fi]|]; [|done].
    pose proof (object_table (lstore l) (objectRel name) rc size Hw (object_inside _ Hv) (proj1 (locks_apart _ Hv))) as Hs.
    pose proof (stream_wf (lstore l) (objectRel name) rc size Hw) as Hw'.
    destruct (WriteStream _ _ _ _) as [er s]. split; [done|]. exists T. split_and!; [|done|done]. cbn in *. congruence.
Qed.

(** C17: a lock is held: while neither its owner asks for anything nor anybody
    forces an unlock, whatever else is requested, deleted or promoted into the
    repository, the lock stays in the table and no other lock has its path. *)
Theorem lock_held lk l l' : holds lk l -> rtc (others lk) l l' ->
  exists T, table (lstore l') = Some T /\ lk ∈ T /\ forall other, other ∈ T -> Path other = Path lk -> other = lk.
Proof.
  intros Hh Hsteps. assert (H : holds lk l') by (revert Hh; induction Hsteps; eauto using others_holds).
  destruct H as (_ & T & Ht & Hok & Hlk). exists T. split_and!; [done|done|]. intros other Ho Hp.
  destruct (proj1 (list_elem_of_lookup T other) Ho) as [i Hi]. destruct (proj1 (list_elem_of_lookup T lk) Hlk) as [j Hj].
  pose proof (NoDup_lookup (Path <$> T) i j (Path lk) (tb_paths _ Hok)) as Hn. rewrite !list_lookup_fmap, Hi, Hj in Hn.
  cbn in Hn. rewrite Hp in Hn. specialize (Hn eq_refl eq_refl). congruence.
Qed.

(** one request and the lock table: it stays, or a lock of the caller is added
    on a free path and the answer is 201, or a lock that is the caller's or
    forced goes and the answer is 200; a failed write of the file leaves it. *)
Theorem lock_discipline e l r T : store_wf (lstore l) -> table (lstore l) = Some T -> table_ok T ->
  0 <= enow e <= int64_max -> ValidString (owner r) = true ->
  let '(a, l') := ServeHTTP e l r in
  exists T', table (lstore l') = Some T' /\ table_ok T' /\ lock_change r T (code_of a) T'.
Proof.
  intros Hw Ht Hok Hn Hv. destruct (serve_answer e l r T Hw Ht Hok Hn Hv) as (_ & H).
  by destruct (ServeHTTP e l r).
Qed.

(** ** Uploads *)

Lemma Check_code fuel g s ex n c : Check fuel g (Some s : option (Store F)) ex n = Some c -> c = 409 \/ c = 413.
Proof.
  unfold Check. destruct (Immutable g && ex); [intros [= <-]; by left|]. destruct (0 <? QuotaBytes g); [|done].
  destruct (Usage fuel s ""). destruct (_ <? _); [|done]. intros [= <-]. by right.
Qed.

(** an upload of a new object answers 200 only when the body was read without
    an error, is within the limit, has the announced length and hashes to the
    id; then the object is served as it was sent, the batch offers it for
    download, and every other object and the lock table are as they were. *)
Theorem upload_spec e l r oid : store_wf (lstore l) -> temp_reads e -> ValidOID oid = true ->
  (HasObject (lstore l) oid (-1)).2 = false ->
  let '(a, l') := upload e l r oid in
  (forall rel, inside rel -> resolve rel <> resolve (objectRel oid) -> stored (lstore l') rel = stored (lstore l) rel) /\
  if code_of a =? 200 then
    exists data, stored (lstore l') (objectRel oid) = Some data /\ hexSHA256 data = oid /\
      Z.of_nat (len data) <= max_upload l /\ (ContentLength r < 0 \/ ContentLength r = Z.of_nat (len data)) /\
      LimitReader (Body r) (wrap64 (max_upload l + 1)) = reader data /\
      (HasObject (lstore l') oid (Z.of_nat (len data))).2 = true
  else stored (lstore l') (objectRel oid) = stored (lstore l) (objectRel oid).
Proof.
  intros Hw Ht Hv Hx. unfold temp_reads in Ht. unfold upload. cbv zeta.
  destruct (negb (AllowPush l)); [done|]. destruct (max_upload l <? ContentLength r) eqn:Emax; [done|].
  destruct (HasObject (lstore l) oid (-1)) as [size ok]. cbn [snd] in Hx. subst ok. revert Ht.
  set (body := LimitReader (Body r) (wrap64 (max_upload l + 1))).
  assert (Hgo : forall t : option TempFault, temp_reader t (rData body) = reader (rData body) -> rErr body = None ->
    (max_upload l <? Z.of_nat (len (rData body))) = false ->
    (0 <=? ContentLength r) && negb (Z.of_nat (len (rData body)) =? ContentLength r) = false ->
    hexSHA256 (rData body) = oid ->
    let '(a, l') := match WriteStream (lstore l) (objectRel oid) (temp_reader t (rData body)) (Z.of_nat (len (rData body))) with
      | (Some _, s) => (failed 500, with_store l s) | (None, s) => (Done 200, with_store l s) end in
    (forall rel, inside rel -> resolve rel <> resolve (objectRel oid) -> stored (lstore l') rel = stored (lstore l) rel) /\
    if code_of a =? 200 then
      exists data, stored (lstore l') (objectRel oid) = Some data /\ hexSHA256 data = oid /\
        Z.of_nat (len data) <= max_upload l /\ (ContentLength r < 0 \/ ContentLength r = Z.of_nat (len data)) /\
        body = reader data /\ (HasObject (lstore l') oid (Z.of_nat (len data))).2 = true
    else stored (lstore l') (objectRel oid) = stored (lstore l) (objectRel oid)).
  { intros t -> Hr Hm Hc Hh. set (x := rData body) in *.
    pose proof (fun rel Hi Hne => stream_other (lstore l) (objectRel oid) (reader x) (Z.of_nat (len x)) rel Hw (object_inside _ Hv) Hi Hne) as Hot.
    destruct (WriteStream _ _ _ _) as [[er|] s] eqn:E; (split; [exact Hot|]).
    - by apply (stream_failed _ _ _ _ _ _ Hw (object_inside _ Hv) E).
    - cbn [code_of]. change (200 =? 200) with true. cbv iota. exists x. destruct (stream_ok _ _ _ _ _ Hw (object_inside _ Hv) E) as [_ Hs].
      destruct (stream_stat _ _ _ _ _ Hw (object_inside _ Hv) E) as (fi & Hst & Hd & Hsz).
      bool_prop. split_and!; [done|done|done| | |].
      + apply andb_false_iff in Hc as [Hc|Hc]; bool_prop; [by left|by right].
      + unfold x, reader. destruct body as [b eb]. cbn in *. by rewrite Hr.
      + unfold HasObject. cbn [with_store lstore]. rewrite Hv, Hst, Hd, Hsz. cbn [negb snd rData reader].
        by rewrite Z.eqb_refl, andb_false_r. }
  destruct (etemp e) as [[| | |k]|] eqn:Et; intros Ht; try done;
    destruct (rErr body) eqn:Er; try done; destruct (max_upload l <? Z.of_nat _) eqn:Em; try done;
    destruct ((0 <=? ContentLength r) && _) eqn:Ec; try done;
    destruct (String.eqb (hexSHA256 _) oid) eqn:Eh; try done; cbn [negb]; destruct (Check _ _ _ _ _) eqn:Eg; try (apply Check_code in Eg as [->| ->]); try done.
  apply String.eqb_eq in Eh. by apply (Hgo None).
Qed.

End safety.

(** ** Pages *)

(** A client that follows the cursors. *)
Fixpoint follow (fuel : nat) (locks : list Lock) (cursor : string) (limit : Z) : list Lock :=
  match fuel with
  | O => []
  | S fuel =>
      let '(page, next) := pageLocks locks cursor limit in
      page ++ if String.eqb next "" then [] else follow fuel locks next limit
  end.

Lemma from_cursor_app pre l rest : NoDup (ID <$> pre ++ l :: rest) -> from_cursor (pre ++ l :: rest) (ID l) = Some (l :: rest).
Proof.
  induction pre as [|x pre IH]; cbn; intros Hn; [by rewrite String.eqb_refl|].
  apply NoDup_cons in Hn as [Hx Hn]. destruct (String.eqb_spec (ID x) (ID l)) as [E|_]; [|by apply IH].
  exfalso. apply Hx. rewrite E, fmap_app, fmap_cons. apply elem_of_app. right. by left.
Qed.

Lemma follow_suffix fuel limit : 0 < limit -> forall pre suf cursor, NoDup (ID <$> pre ++ suf) ->
  Forall (fun l => ID l <> "") suf -> (length suf < fuel)%nat ->
  (cursor = "" /\ pre = [] \/ exists l rest, suf = l :: rest /\ cursor = ID l) ->
  follow fuel (pre ++ suf) cursor limit = suf.
Proof.
  intros Hl. induction fuel as [|fuel IH]; intros pre suf cursor Hn Hne Hf Hc; [lia|]. cbn [follow].
  assert (E : (if String.eqb cursor "" then pre ++ suf else default (pre ++ suf) (from_cursor (pre ++ suf) cursor)) = suf).
  { destruct Hc as [[-> ->]|(l & rest & -> & ->)]; [done|]. apply Forall_cons in Hne as [Hne _].
    rewrite (proj2 (String.eqb_neq _ "") Hne), from_cursor_app by done. done. }
  unfold pageLocks. rewrite E, (ltb_true 0 limit Hl). destruct (drop (Z.to_nat limit) suf) as [|l rest] eqn:Ed; [by rewrite app_nil_r|].
  assert (Es : suf = take (Z.to_nat limit) suf ++ l :: rest) by (by rewrite <-Ed, take_drop).
  assert (Hne' : Forall (fun l => ID l <> "") (l :: rest)) by (rewrite Es in Hne; by apply Forall_app in Hne as [_ ?]).
  assert (Hid : ID l <> "") by (by apply Forall_cons in Hne' as [? _]).
  rewrite (proj2 (String.eqb_neq _ "") Hid). rewrite Es at 2 3. rewrite app_assoc, IH; [by rewrite <-Es| |done| |].
  - by rewrite <-app_assoc, <-Es.
  - apply (f_equal length) in Ed. rewrite length_drop in Ed. cbn in Ed |- *. lia.
  - right. by eexists _, _.
Qed.

(** a client that asks for pages and follows the cursors until there is none is
    given every lock once, in order, whatever the page size. *)
Theorem pages_complete locks limit : 0 < limit -> NoDup (ID <$> locks) -> Forall (fun l => ID l <> "") locks ->
  follow (S (length locks)) locks "" limit = locks.
Proof. intros Hl Hn Hne. apply (follow_suffix _ _ Hl [] locks ""); [done|done|lia|by left]. Qed.

Definition sample_lock (id path who : string) : Lock := {| ID := id; Path := path; LockedAt := 5; Owner := who; Ref := "" |}.

Definition three_locks : list Lock := [sample_lock "a" "1.psd" "ada"; sample_lock "b" "2.psd" "bob"; sample_lock "c" "3.psd" "ada"].

Lemma pages_complete_witness : follow 4 three_locks "" 2 = three_locks /\ pageLocks three_locks "" 2 = (take 2 three_locks, "c").
Proof.
  split; [|reflexivity]. apply (pages_complete three_locks 2); [done|by apply (bool_decide_unpack _)|by repeat constructor].
Defined.

(** A cursor whose lock was released starts over: the client sees the first page
    again. *)
Lemma stale_cursor : pageLocks (take 2 three_locks) "c" 2 = (take 2 three_locks, "").
Proof. reflexivity. Qed.

(** ** Examples *)

Lemma hex_time : time_law FormatHex ParseInt16.
Proof.
  intros t Ht. split; [apply lower_hex_valid, FormatHex_digits; lia|by apply ParseInt16_FormatHex].
Qed.

Definition sample_lfs : Local FS :=
  {| lstore := NewStore sample_mount "lfs"; AllowPush := true; MaxUpload := 0; Guard := {| Immutable := true; QuotaBytes := 0 |} |}.

Lemma sample_wf : store_wf (lstore sample_lfs).
Proof. split; [right; by apply (bool_decide_unpack _)|exact sample_mount_ok]. Qed.

Lemma sample_no_object oid : ValidOID oid = true -> stored (lstore sample_lfs) (objectRel oid) = None.
Proof.
  intros Hv. unfold stored. change (sfs (lstore sample_lfs)) with sample_mount. rewrite local_file_at by exact sample_mount_ok.
  unfold target. destruct (StoreJoin_resolve (lstore sample_lfs) [objectRel oid] (proj1 sample_wf)) as [-> _].
  cbn [fmap list_fmap concat]. rewrite object_resolve by done.
  change (resolve (basePath (lstore sample_lfs))) with ["lfs"]. change (rootSegs sample_mount) with ["srv"; "data"].
  cbn [app]. rewrite node_at_ne by done. destruct (nodes _ !! _) as [n|] eqn:E; [|done]. exfalso.
  pose proof (forall_nodes (fun kv => (length kv.1 <=? 3)%nat) sample_os ltac:(vm_compute; reflexivity) _ _ E) as H.
  discriminate H.
Qed.

Lemma sample_lfs_ok : lfs_ok sample_lfs.
Proof. split; [exact sample_wf|]. intros oid x Hv. by rewrite sample_no_object. Qed.

Definition hello_oid : string := "2cf24dba5fb0a30e26e83b2ac5b9e29e1b161e5c1fa7425e73043362938b9824".

Definition request (method path auth body : string) (length : Z) : Request :=
  {| Method := method; URLPath := path; Query := fun _ => ""; Authorization := auth; ContentLength := length;
     Body := reader body; PublicBase := "https://kutu.example.com/registries/team/lfs" |}.

Definition put_hello : Request := request "PUT" ("/repo.git/info/lfs/objects/" +:+ hello_oid) "" "hello" 5.
Definition get_hello : Request := request "GET" ("/objects/" +:+ hello_oid) "" "" 0.

Definition calm : Env := {| efuel := 8; enow := 7000000000; etemp := None |}.
Definition broken (t : TempFault) : Env := {| efuel := 8; enow := 7000000000; etemp := Some t |}.

Definition run (e : Env) (l : Local FS) (r : Request) : Answer * Local FS := ServeHTTP FormatHex ParseInt16 e l r.

Lemma lfs_integrity_witness : exists c,
  (run calm (run calm sample_lfs put_hello).2 get_hello).1 = Served c /\
  objectsOID (route (URLPath get_hello)) = Some (hexSHA256 (rData c)).
Proof.
  assert (E : (run calm (run calm sample_lfs put_hello).2 get_hello).1 = Served (reader "hello")) by (vm_compute; reflexivity).
  eexists. split; [exact E|].
  refine (lfs_integrity FormatHex ParseInt16 sample_lfs _ calm get_hello _ sample_lfs_ok _ E eq_refl).
  apply rtc_once. by apply step_serve.
Defined.

Lemma upload_spec_witness :
  let '(a, l') := upload calm sample_lfs put_hello hello_oid in
  code_of a = 200 /\ exists data, stored (lstore l') (objectRel hello_oid) = Some data /\ hexSHA256 data = hello_oid.
Proof.
  assert (Hv : ValidOID hello_oid = true) by (vm_compute; reflexivity).
  assert (Hx : (HasObject (lstore sample_lfs) hello_oid (-1)).2 = false) by (vm_compute; reflexivity).
  pose proof (upload_spec calm sample_lfs put_hello hello_oid sample_wf I Hv Hx) as H.
  assert (Hc : code_of (upload calm sample_lfs put_hello hello_oid).1 = 200) by (vm_compute; reflexivity).
  destruct (upload calm sample_lfs put_hello hello_oid) as [a l']. cbn [fst] in Hc. destruct H as [_ H]. rewrite Hc in H.
  split; [exact Hc|]. destruct H as (data & H1 & H2 & _). exists data. split; [exact H1|exact H2].
Defined.

(** What ada and bob ask for. *)
Definition ada : string := "Basic " +:+ EncodeBase64 "ada:x".
Definition bob : string := "Basic " +:+ EncodeBase64 "bob:x".
Definition json_path (p : string) : string := write (JObject [("path", JString p)]).
Definition lock_art (who : string) : Request := request "POST" "/locks" who (json_path "art.psd") 0.
Definition unlock_by (who id : string) : Request := request "POST" ("/locks/" +:+ id +:+ "/unlock") who "{}" 2.

Definition art_lock : Lock :=
  {| ID := newLockID 7000000000; Path := "art.psd"; LockedAt := 7000000000; Owner := "ada"; Ref := "" |}.

Definition locked_lfs : Local FS := (run calm sample_lfs (lock_art ada)).2.

Lemma locked_table : table ParseInt16 (lstore locked_lfs) = Some [art_lock].
Proof. vm_compute. reflexivity. Qed.

Lemma art_lock_ok : table_ok [art_lock].
Proof.
  split; [|by constructor|by apply (bool_decide_unpack _)]. constructor; [|done].
  split; [vm_compute; reflexivity..|vm_compute; by split].
Qed.

Lemma empty_ok : table_ok [].
Proof. split; constructor. Qed.

Lemma lock_discipline_witness : exists T', table ParseInt16 (lstore locked_lfs) = Some T' /\
  lock_change (lock_art ada) [] 201 T'.
Proof.
  assert (Ht : table ParseInt16 (lstore sample_lfs) = Some []) by (vm_compute; reflexivity).
  pose proof (lock_discipline FormatHex ParseInt16 hex_time calm sample_lfs (lock_art ada) [] sample_wf Ht empty_ok
    ltac:(by vm_compute; split) ltac:(vm_compute; reflexivity)) as H.
  unfold locked_lfs, run. assert (Hc : code_of (run calm sample_lfs (lock_art ada)).1 = 201) by (vm_compute; reflexivity).
  unfold run in Hc. destruct (ServeHTTP FormatHex ParseInt16 calm sample_lfs (lock_art ada)) as [a l'].
  cbn [fst snd] in *. rewrite Hc in H. destruct H as (T' & H1 & _ & H2). exists T'. split; [exact H1|exact H2].
Defined.

Lemma locked_wf : store_wf (lstore locked_lfs).
Proof.
  unfold locked_lfs. apply (proj1 (serve_answer FormatHex ParseInt16 hex_time calm sample_lfs (lock_art ada) [] sample_wf
    ltac:(vm_compute; reflexivity) empty_ok ltac:(by vm_compute; split) ltac:(vm_compute; reflexivity))).
Qed.

(** Bob can neither lock the file nor unlock it. *)
Lemma lock_held_witness :
  let l' := (run calm (run calm locked_lfs (lock_art bob)).2 (unlock_by bob (newLockID 7000000000))).2 in
  exists T, table ParseInt16 (lstore l') = Some T /\ art_lock ∈ T.
Proof.
  assert (Hh : holds ParseInt16 art_lock locked_lfs).
  { split; [exact locked_wf|]. exists [art_lock]. split; [exact locked_table|]. split; [exact art_lock_ok|by left]. }
  assert (Hn : 0 <= enow calm <= int64_max) by (by vm_compute; split).
  assert (Ho : forall r, Authorization r = bob -> owner r = "bob").
  { intros r E. unfold owner. rewrite E. vm_compute. reflexivity. }
  assert (Hstep : forall l r, Authorization r = bob -> forced r = false -> others FormatHex ParseInt16 art_lock l (run calm l r).2).
  { intros l r E Hf. pose proof (Ho r E) as Eo. apply (other_serve FormatHex ParseInt16 art_lock calm l r); [exact Hn|by rewrite Eo|by rewrite Eo|exact Hf]. }
  assert (Hheld : forall l, rtc (others FormatHex ParseInt16 art_lock) locked_lfs l -> exists T, table ParseInt16 (lstore l) = Some T /\ art_lock ∈ T).
  { intros l Hl. destruct (lock_held FormatHex ParseInt16 hex_time art_lock locked_lfs l Hh Hl) as (T & H1 & H2 & _). by exists T. }
  cbv zeta. apply Hheld. clear Hheld Hh Ho Hn. revert Hstep. generalize locked_lfs. intros l Hstep.
  eapply rtc_l; [apply Hstep|apply rtc_once, Hstep]; [reflexivity|vm_compute; reflexivity|reflexivity|vm_compute; reflexivity].
Defined.

(** A temporary file that cannot be read back leaves a part of the object under
    its id.  From then on every upload of the object is taken for a duplicate:
    one that announces the length is refused, one that does not is told 200, and
    what is served is the part. *)
Lemma poisoned_upload :
  let l := (run (broken (ReadFails 2)) sample_lfs put_hello).2 in
  let chunked := request "PUT" ("/objects/" +:+ hello_oid) "" "hello" (-1) in
  code_of (run calm l put_hello).1 = 400 /\
  code_of (run calm l chunked).1 = 200 /\
  (run calm (run calm l chunked).2 get_hello).1 = Served (reader "he").
Proof. cbv zeta. split; [|split]; vm_compute; reflexivity. Qed.

(** The ref of a lock is not written to the file: listing by another ref shows it. *)
Lemma ref_forgotten :
  let lock := request "POST" "/locks" ada (write (JObject [("path", JString "art.psd"); ("ref", JObject [("name", JString "refs/heads/main")])])) 0 in
  let ask := {| Method := "GET"; URLPath := "/locks"; Query := fun k => if String.eqb k "refspec" then "refs/heads/other" else "";
                Authorization := ada; ContentLength := 0; Body := reader ""; PublicBase := "" |} in
  (run calm (run calm sample_lfs lock).2 ask).1 = Reply 200 (JObject [("locks", JArray [lock_json FormatHex art_lock])]).
Proof. cbv zeta. vm_compute. reflexivity. Qed.

(** A user whose name is not UTF-8 does not own the lock it created. *)
Lemma foreign_name :
  let who := "Basic " +:+ EncodeBase64 (String (chr 255) ":x") in
  let l := (run calm sample_lfs (lock_art who)).2 in
  code_of (run calm sample_lfs (lock_art who)).1 = 201 /\
  code_of (run calm l (unlock_by who (newLockID 7000000000))).1 = 403.
Proof. cbv zeta. split; vm_compute; reflexivity. Qed.
