(* ===== verification/GitLfsRemote.v ===== *)
(** * internal/registry/gitlfs/remote.go: the pull-through LFS cache

    A remote repository negotiates downloads with an upstream LFS server, keeps
    the actions it was offered until they expire, and fills its store while it
    streams an object to the first client that asks.  The HTTP client, net/url,
    the layout of timestamps and the secret resolver are parameters; the world
    [W] is what the client changes.  A fill is four steps, so that other requests
    may come in between. *)

From Stdlib Require Import ZArith Lia Ascii.
From stdpp Require Import base list strings gmap.
From S2P Require Import Prelude GoStrings GoHash GoBase64 GoJson Backend PkgStore GitLfs.

Local Open Scope Z_scope.
Local Open Scope kutu_scope.

(** ** Upstream requests *)

Record HttpReq := { qMethod : string; qURL : string; qHeader : list (string * string); qBody : string }.

(** A response: its status, its headers and its body. *)
Record HttpResp := { pStatus : Z; pHeader : string -> string; pBody : Reader }.

Definition set_header (q : HttpReq) (k v : string) : HttpReq :=
  {| qMethod := qMethod q; qURL := qURL q;
     qHeader := List.filter (fun kv => negb (EqualFold kv.1 k)) (qHeader q) ++ [(k, v)]; qBody := qBody q |}.

Inductive UpstreamAuth :=
| AuthBasic (username password : string)
| AuthBearer (token : string)
| AuthHeader (header value : string)
| AuthOther (type : string).

Inductive RemoteError := Missing | Busy | Upstream (msg : string) | StoreErr (e : StoreError).

(** ** Documents *)

Record action := { Href : string; Header : list (string * string); ExpiresIn : Z; ExpiresAt : string }.

Record upObject := { uOID : string; uSize : Z; uDownload : option action; uError : option (Z * string) }.

Definition scan_action (j : Json) : action :=
  let m := members j in
  {| Href := scan_field as_string "href" "" m;
     Header := foldl (fun h j => match j with JNull => [] | j => default h (decode_strings h j) end) [] (struct_field "header" m);
     ExpiresIn := scan_field as_int "expires_in" 0 m;
     ExpiresAt := scan_field as_string "expires_at" "" m |}.

(** [Actions["download"]], a pointer in a map. *)
Definition scan_download (old : option action) (m : list (string * Json)) : option action :=
  foldl (fun a j =>
           match j with
           | JNull => None
           | j => match field "download" (members j) with
                  | None => a
                  | Some JNull => None
                  | Some d => Some (scan_action d)
                  end
           end) old (struct_field "actions" m).

Definition scan_error (old : option (Z * string)) (m : list (string * Json)) : option (Z * string) :=
  foldl (fun e j =>
           match j with
           | JNull => None
           | j => let '(code, msg) := default (0, "") e in
                  Some (scan_field as_int "code" code (members j), scan_field as_string "message" msg (members j))
           end) old (struct_field "error" m).

Definition scan_upObject (o : upObject) (j : Json) : upObject :=
  let m := members j in
  {| uOID := scan_field as_string "oid" (uOID o) m; uSize := scan_field as_int "size" (uSize o) m;
     uDownload := scan_download (uDownload o) m; uError := scan_error (uError o) m |}.

Definition response_shape : Shape :=
  TStruct [("transfer", TString); ("objects", TSlice object_shape); ("hash_algo", TString)].

(** The batch request for some objects. *)
Definition batch_json (objs : list batchObject) : string :=
  write (JObject [("operation", JString "download"); ("transfers", JArray [JString "basic"]);
    ("objects", JArray ((fun o => JObject [("oid", JString (OID o)); ("size", JNumber (itoa (Size o)))]) <$> objs));
    ("hash_algo", JString "sha256")]).

Record pendingObject := { pSize : Z; pAction : action; pExpires : Z }.

Section remote.
Context {F W : Type} `{Backend F}.

(** [http.Client.Do], [url.Parse(u).Host], [time.Parse(time.RFC3339, s)] and the
    resolver of secret references, when there is one. *)
Variables (Do : HttpReq -> W -> result string HttpResp * W)
          (UrlHost : string -> option string)
          (ParseRFC3339 : string -> option Z)
          (ResolveSecret : option (string -> result string string)).

Record Remote := {
  rstore : Store F; rbase : string; rauth : option UpstreamAuth;
  pending : gmap string pendingObject; flight : gset string;
}.

Definition with_store (rr : Remote) (s : Store F) : Remote :=
  {| rstore := s; rbase := rbase rr; rauth := rauth rr; pending := pending rr; flight := flight rr |}.

Definition with_pending (rr : Remote) (p : gmap string pendingObject) : Remote :=
  {| rstore := rstore rr; rbase := rbase rr; rauth := rauth rr; pending := p; flight := flight rr |}.

Definition with_flight (rr : Remote) (f : gset string) : Remote :=
  {| rstore := rstore rr; rbase := rbase rr; rauth := rauth rr; pending := pending rr; flight := f |}.

Definition resolveSecret (v : string) : result string string :=
  match ResolveSecret with
  | Some resolve => if HasPrefix v "raw://" || HasPrefix v "config://" then resolve v else Ok v
  | None => Ok v
  end.

Definition applyAuth (rr : Remote) (q : HttpReq) : result string HttpReq :=
  match rauth rr with
  | None => Ok q
  | Some (AuthBasic u p) =>
      let! u := resolveSecret u in
      let! p := resolveSecret p in
      Ok (set_header q "Authorization" ("Basic " +:+ EncodeBase64 (u +:+ ":" +:+ p)))
  | Some (AuthBearer t) => let! t := resolveSecret t in Ok (set_header q "Authorization" ("Bearer " +:+ t))
  | Some (AuthHeader h v) => let! v := resolveSecret v in Ok (set_header q h v)
  | Some (AuthOther t) => Err ("unsupported auth type " +:+ t)
  end.

(** ** Negotiation *)

Definition record_action (now : Z) (p : gmap string pendingObject) (o : upObject) : gmap string pendingObject :=
  match uError o, uDownload o with
  | None, Some a =>
      if ValidOID (uOID o) then
        let exp := if 0 <? ExpiresIn a then now + wrap64 (ExpiresIn a * nanos) else now + 3600 * nanos in
        let exp := match ParseRFC3339 (ExpiresAt a) with
                   | Some t => if t <? exp then t else exp
                   | None => exp
                   end in
        <[ uOID o := {| pSize := uSize o; pAction := a; pExpires := exp - 30 * nanos |} ]> p
      else p
  | _, _ => p
  end.

Definition batch_request (rr : Remote) (objs : list batchObject) : HttpReq :=
  {| qMethod := "POST"; qURL := rbase rr +:+ "/objects/batch";
     qHeader := [("Accept", "application/vnd.git-lfs+json"); ("Content-Type", "application/vnd.git-lfs+json")];
     qBody := batch_json objs |}.

Definition upstreamBatch (now : Z) (rr : Remote) (objs : list batchObject) (w : W)
    : result RemoteError (list upObject) * Remote * W :=
  match applyAuth rr (batch_request rr objs) with
  | Err m => (Err (Upstream ("upstream auth: " +:+ m)), rr, w)
  | Ok q =>
      match Do q w with
      | (Err m, w) => (Err (Upstream ("upstream batch: " +:+ m)), rr, w)
      | (Ok resp, w) =>
          if negb (pStatus resp =? 200) then (Err (Upstream "upstream batch: status"), rr, w)
          else match decode_first (rData (LimitReader (pBody resp) 67108864)) with
          | None => (Err (Upstream "upstream batch: decode"), rr, w)
          | Some j =>
              if negb (fits response_shape j) then (Err (Upstream "upstream batch: decode"), rr, w)
              else
                let transfer := scan_field as_string "transfer" "" (members j) in
                if negb (String.eqb transfer "") && negb (String.eqb transfer "basic")
                then (Err (Upstream ("upstream batch: unsupported transfer " +:+ transfer)), rr, w)
                else
                  let objects := scan_slice scan_upObject {| uOID := ""; uSize := 0; uDownload := None; uError := None |}
                                   "objects" (members j) in
                  (Ok objects, with_pending rr (foldl (record_action now) (pending rr) objects), w)
          end
      end
  end.

(** [lookup]: what the table still knows is asked once more when it expired. *)
Definition ask (now : Z) (rr : Remote) (oid : string) (size : Z) (w : W)
    : result RemoteError pendingObject * Remote * W :=
  if size <? 0 then (Err Missing, rr, w)
  else match upstreamBatch now rr [{| OID := oid; Size := size |}] w with
  | (Err e, rr, w) => (Err e, rr, w)
  | (Ok objs, rr, w) =>
      if existsb (fun o => String.eqb (uOID o) oid && is_some (uError o)) objs then (Err Missing, rr, w)
      else match pending rr !! oid with
           | Some p => (Ok p, rr, w)
           | None => (Err Missing, rr, w)
           end
  end.

Definition lookup (now : Z) (rr : Remote) (oid : string) (size : Z) (w : W)
    : result RemoteError pendingObject * Remote * W :=
  match pending rr !! oid with
  | Some p =>
      if (now <? pExpires p) && ((size <? 0) || (pSize p =? size)) then (Ok p, rr, w)
      else ask now (with_pending rr (delete oid (pending rr))) oid (if size <? 0 then pSize p else size) w
  | None => ask now rr oid size w
  end.

Definition hasObject (now : Z) (rr : Remote) (oid : string) (size : Z) (w : W) : bool * Remote * W :=
  if (HasObject (rstore rr) oid size).2 then (true, rr, w)
  else let '(r, rr, w) := lookup now rr oid size w in (is_ok r, rr, w).

(** ** Downloads *)

Definition sameHost (a b : string) : bool :=
  match UrlHost a, UrlHost b with
  | Some x, Some y => EqualFold x y
  | _, _ => false
  end.

Definition download_request (rr : Remote) (p : pendingObject) (range : string) : result string HttpReq :=
  let q := foldl (fun q kv => set_header q kv.1 kv.2)
             {| qMethod := "GET"; qURL := Href (pAction p); qHeader := []; qBody := "" |} (Header (pAction p)) in
  let hasAuth := existsb (fun kv => EqualFold kv.1 "Authorization") (Header (pAction p)) in
  let! q := if negb hasAuth && sameHost (Href (pAction p)) (rbase rr) then applyAuth rr q else Ok q in
  Ok (if String.eqb range "" then q else set_header q "Range" range).

Definition openUpstream (rr : Remote) (p : pendingObject) (range : string) (w : W) : result RemoteError HttpResp * W :=
  match download_request rr p range with
  | Err m => (Err (Upstream m), w)
  | Ok q =>
      match Do q w with
      | (Err m, w) => (Err (Upstream ("upstream download: " +:+ m)), w)
      | (Ok resp, w) =>
          if negb (pStatus resp =? 200) && negb (pStatus resp =? 206)
          then (Err (Upstream "upstream download: status"), w) else (Ok resp, w)
      end
  end.

(** [fill], step by step: taking the object, writing what the upstream sends
    (the hash and the count are of the bytes the store has read), and keeping it
    or dropping it. *)
Definition fill_begin (rr : Remote) (oid : string) : option Remote :=
  if bool_decide (oid ∈ flight rr) then None else Some (with_flight rr ({[ oid ]} ∪ flight rr)).

Definition fill_write (rr : Remote) (oid : string) (p : pendingObject) (body : Reader)
    : result RemoteError unit * Remote :=
  let src := LimitReader body (pSize p) in
  match WriteStream (rstore rr) (objectRel oid) src (pSize p) with
  | (Some e, s) => (Err (StoreErr e), with_store rr s)
  | (None, s) =>
      let n := Z.of_nat (len (rData src)) in
      (if negb (n =? pSize p) then Err (Upstream "size mismatch")
       else if negb (String.eqb (hexSHA256 (rData src)) oid) then Err (Upstream "sha256 mismatch")
       else Ok tt, with_store rr s)
  end.

Definition fill_end (rr : Remote) (oid : string) (r : result RemoteError unit) : Remote :=
  let rr := match r with
    | Ok _ => with_pending rr (delete oid (pending rr))
    | Err _ => with_store rr (StoreDelete (rstore rr) (objectRel oid)).2
    end in
  with_flight rr (flight rr ∖ {[ oid ]}).

(** With what was sent to the client once the download was started: None when the
    store stopped reading, which cuts the stream. *)
Definition sent (r : result RemoteError unit) (p : pendingObject) (body : Reader) : option Reader :=
  match r with Err (StoreErr _) => None | _ => Some (LimitReader body (pSize p)) end.

Definition fill (rr : Remote) (oid : string) (p : pendingObject) (w : W)
    : result RemoteError unit * option (option Reader) * Remote * W :=
  match fill_begin rr oid with
  | None => (Err Busy, None, rr, w)
  | Some rr =>
      match openUpstream rr p "" w with
      | (Err e, w) => (Err e, None, with_flight rr (flight rr ∖ {[ oid ]}), w)
      | (Ok resp, w) =>
          let '(r, rr) := fill_write rr oid p (pBody resp) in
          (r, Some (sent r p (pBody resp)), fill_end rr oid r, w)
      end
  end.

(** ** Requests *)

Definition query_size (s : string) : Z :=
  match ParseInt10 s with Some v => if 0 <=? v then v else -1 | None => -1 end.

Definition failure (e : RemoteError) : Answer :=
  match e with Missing => lfsError 404 "object does not exist" | _ => failed 502 end.

(** An object through the cache: [Served] with what the client was sent. *)
Definition remoteObject (now : Z) (rr : Remote) (r : Request) (range : string) (oid : string) (w : W)
    : Answer * Remote * W :=
  match (if bool_decide (oid ∈ flight rr) then None else serveObject (rstore rr) oid) with
  | Some c => (Served c, rr, w)
  | None =>
      match lookup now rr oid (query_size (Query r "size")) w with
      | (Err e, rr, w) => (failure e, rr, w)
      | (Ok p, rr, w) =>
          if is_method r "HEAD" then (Done 200, rr, w)
          else
            let proxy (rr : Remote) (w : W) :=
              match openUpstream rr p range w with
              | (Err _, w) => (failed 502, rr, w)
              | (Ok resp, w) => (Served (pBody resp), rr, w)
              end in
            if String.eqb range "" then
              match fill rr oid p w with
              | (_, Some (Some content), rr, w) => (Served content, rr, w)
              | (_, Some None, rr, w) => (Done 200, rr, w)
              | (Err Busy, None, rr, w) => proxy rr w
              | (_, None, rr, w) => (failed 502, rr, w)
              end
            else proxy rr w
      end
  end.

(** A batch: what is not cached is asked of the upstream, each id once, with the
    first size it has. *)
Definition missing_step (s : Store F) (acc : list batchObject) (o : batchObject) : list batchObject :=
  if invalid_object o || (HasObject s (OID o) (Size o)).2 || existsb (fun x => String.eqb (OID x) (OID o)) acc then acc
  else acc ++ [o].

Definition resolved (ups : list upObject) (oid : string) : option (option (Z * string)) :=
  foldl (fun acc o =>
           if String.eqb (uOID o) oid then
             match uError o, uDownload o with
             | Some e, _ => Some (Some e)
             | None, Some _ => Some None
             | None, None => acc
             end
           else acc) None ups.

Definition remote_verdict (r : Request) (s : Store F) (ups : list upObject) (o : batchObject) : Verdict :=
  if invalid_object o then Refused 422 "invalid object"
  else if (HasObject s (OID o) (Size o)).2 then Offered [("download", newAction r (objectHref r (OID o)))]
  else match resolved ups (OID o) with
       | None => Refused 404 "object does not exist"
       | Some (Some (code, msg)) => Refused code msg
       | Some None => Offered [("download", newAction r (objectHref r (OID o) +:+ "?size=" +:+ itoa (Size o)))]
       end.

Definition remoteBatch (now : Z) (rr : Remote) (r : Request) (w : W) : Answer * Remote * W :=
  match decodeBatch r with
  | Err a => (a, rr, w)
  | Ok req =>
      if negb (String.eqb (Operation req) "download") then (lfsError 405 "remote registry is read-only", rr, w)
      else
        let s := rstore rr in
        match foldl (missing_step s) [] (Objects req) with
        | [] => (batchResponse ((fun o => (o, remote_verdict r s [] o)) <$> Objects req), rr, w)
        | missing =>
            match upstreamBatch now rr missing w with
            | (Err _, rr, w) => (failed 502, rr, w)
            | (Ok ups, rr, w) => (batchResponse ((fun o => (o, remote_verdict r s ups o)) <$> Objects req), rr, w)
            end
        end
  end.

Definition RemoteServeHTTP (now : Z) (rr : Remote) (r : Request) (range : string) (w : W) : Answer * Remote * W :=
  let p := route (URLPath r) in
  if String.eqb p "/objects/batch" && is_method r "POST" then remoteBatch now rr r w
  else if String.eqb p "/objects/verify" && is_method r "POST" then (verify r (rstore rr), rr, w)
  else if HasPrefix p "/objects/" && IsRead r then
    match objectsOID p with
    | None => (lfsError 404 "not found", rr, w)
    | Some oid => remoteObject now rr r range oid w
    end
  else if HasPrefix p "/locks" then
    if String.eqb p "/locks" && is_method r "GET" then (Reply 200 (JObject [("locks", JArray [])]), rr, w)
    else if String.eqb p "/locks/verify" && is_method r "POST" then
      (Reply 200 (JObject [("ours", JArray []); ("theirs", JArray [])]), rr, w)
    else (lfsError 405 "remote registry is read-only", rr, w)
  else if negb (IsRead r) then (lfsError 405 "remote registry is read-only", rr, w)
  else (lfsError 404 "not found", rr, w).

(** ** Optional interfaces *)

Definition PurgeCache (fuel : nat) (rr : Remote) (all : bool) : (Z * Z * list StoreError) * Remote :=
  if all then let '(r, s) := Purge fuel (rstore rr) true [] in (r, with_store rr s) else ((0, 0, []), rr).

Definition RemoteDeleteVersion (rr : Remote) (name : string) : option LfsError * Remote :=
  if negb (HasObject (rstore rr) name (-1)).2 then (Some PackageNotFound, rr)
  else let '(e, s) := StoreDelete (rstore rr) (objectRel name) in (StoreFailed <$> e, with_store rr s).

Definition Prefetch (now : Z) (rr : Remote) (name version : string) (w : W) : option RemoteError * Remote * W :=
  if negb (ValidOID name) then (Some Missing, rr, w)
  else if (HasObject (rstore rr) name (-1)).2 then (None, rr, w)
  else match lookup now rr name (default (-1) (ParseInt10 version)) w with
  | (Err e, rr, w) => (Some e, rr, w)
  | (Ok p, rr, w) =>
      match fill rr name p w with
      | (Err Busy, _, rr, w) | (Ok _, _, rr, w) => (None, rr, w)
      | (Err e, _, rr, w) => (Some e, rr, w)
      end
  end.

End remote.

Arguments Remote : clear implicits.
