(* ===== verification/GitLfsRemoteSafety.v ===== *)
(** * The pull-through LFS cache keeps what it has verified

    Fills of different objects, negotiations and deletions in any order: an object
    that no fill holds hashes to its id.  The check of a request and its read are
    two calls, and a fill that starts between them is what the race at the end is
    about. *)

From Stdlib Require Import ZArith Lia Ascii.
From stdpp Require Import base list strings gmap relations.
From S2P Require Import Prelude GoStrings GoPath GoHash GoJson Backend PkgStore LocalFS AtomicFS PkgStoreSafety StoreLaws GitLfs GitLfsSafety GitLfsRemote.

Local Open Scope Z_scope.

Section safety.
Context {F : Type} {HF : Backend F} {HL : BackendLaws F} {HA : AtomicWrites F}.
Implicit Types rr : Remote F.

(** The remote repository, the fills whose download has been answered, and among
    them those that have written and not ended. *)
Record Config := { crr : Remote F; opened : gset string; written : gmap string (result RemoteError unit) }.

Definition at_store (c : Config) : Store F := rstore (crr c).

(** A fill that is streaming into the store. *)
Definition filling (c : Config) (oid : string) : Prop := ValidOID oid = true /\ oid ∈ opened c /\ written c !! oid = None.

(** What a fill does of itself; [step_partial] is what others see while it
    writes.  A fill whose download is refused ends at once, whatever is stored; a
    fill that fails later ends with a deletion that takes. *)
Inductive cache_step : Config -> Config -> Prop :=
| step_begin c oid rr : ValidOID oid = true -> fill_begin (crr c) oid = Some rr ->
    cache_step c {| crr := rr; opened := opened c; written := written c |}
| step_unavailable c oid : oid ∈ flight (crr c) -> oid ∉ opened c ->
    cache_step c {| crr := with_flight (crr c) (flight (crr c) ∖ {[ oid ]}); opened := opened c; written := written c |}
| step_open c oid : ValidOID oid = true -> oid ∈ flight (crr c) -> oid ∉ opened c ->
    cache_step c {| crr := crr c; opened := {[ oid ]} ∪ opened c; written := written c |}
| step_partial c oid p part e : filling c oid ->
    cache_step c {| crr := (fill_write (crr c) oid p {| rData := part; rErr := Some e |}).2; opened := opened c; written := written c |}
| step_write c oid p body : filling c oid ->
    cache_step c {| crr := (fill_write (crr c) oid p body).2; opened := opened c;
                    written := <[ oid := (fill_write (crr c) oid p body).1 ]> (written c) |}
| step_end c oid r : written c !! oid = Some r ->
    (is_ok r = false -> stored (rstore (fill_end (crr c) oid r)) (objectRel oid) = None) ->
    cache_step c {| crr := fill_end (crr c) oid r; opened := opened c ∖ {[ oid ]}; written := delete oid (written c) |}
| step_negotiate c p : cache_step c {| crr := with_pending (crr c) p; opened := opened c; written := written c |}
| step_evict c name : cache_step c {| crr := (RemoteDeleteVersion (crr c) name).2; opened := opened c; written := written c |}.

Record cache_ok (c : Config) : Prop := {
  ca_wf : store_wf (at_store c);
  ca_kept oid x : ValidOID oid = true -> oid ∉ opened c -> stored (at_store c) (objectRel oid) = Some x -> hexSHA256 x = oid;
  ca_written oid : written c !! oid = Some (Ok tt) ->
    exists x, stored (at_store c) (objectRel oid) = Some x /\ hexSHA256 x = oid \/ stored (at_store c) (objectRel oid) = None;
  ca_opened oid r : written c !! oid = Some r -> ValidOID oid = true /\ oid ∈ opened c;
  ca_flight : opened c ⊆ flight (crr c);
}.

Lemma fill_write_frame rr oid p body : ValidOID oid = true -> store_wf (rstore rr) ->
  let rr' := (fill_write rr oid p body).2 in
  store_wf (rstore rr') /\ flight rr' = flight rr /\
  (forall oid', ValidOID oid' = true -> oid' <> oid -> stored (rstore rr') (objectRel oid') = stored (rstore rr) (objectRel oid')) /\
  ((fill_write rr oid p body).1 = Ok tt -> exists x, stored (rstore rr') (objectRel oid) = Some x /\ hexSHA256 x = oid).
Proof.
  intros Hv Hw. unfold fill_write. cbv zeta.
  pose proof (stream_wf (rstore rr) (objectRel oid) (LimitReader body (pSize p)) (pSize p) Hw) as Hw'.
  pose proof (fun oid' Hv' Hne => stream_other (rstore rr) (objectRel oid) (LimitReader body (pSize p)) (pSize p) (objectRel oid')
    Hw (object_inside _ Hv) (object_inside _ Hv') (object_apart _ _ Hv' Hv Hne)) as Hot.
  destruct (WriteStream _ _ _ _) as [[e|] s] eqn:E; [by split_and!|]. cbn [fst snd with_store rstore flight].
  split_and!; [done|done|done|]. destruct (stream_ok _ _ _ _ _ Hw (object_inside _ Hv) E) as [_ Hs].
  destruct (negb (_ =? _)); [done|]. destruct (String.eqb (hexSHA256 _) oid) eqn:Eh; [|done]. intros _.
  apply String.eqb_eq in Eh. by eexists.
Qed.

Lemma filling_written c oid : filling c oid -> forall oid' r, written c !! oid' = Some r -> oid' <> oid.
Proof. intros (_ & _ & Hn) oid' r Hr ->. congruence. Qed.

(** A fill ends: its object has the digest, or is deleted. *)
Lemma fill_end_ok c oid r : cache_ok c -> written c !! oid = Some r ->
  (is_ok r = false -> stored (rstore (fill_end (crr c) oid r)) (objectRel oid) = None) ->
  cache_ok {| crr := fill_end (crr c) oid r; opened := opened c ∖ {[ oid ]}; written := delete oid (written c) |}.
Proof.
  intros [Hw Hk Hwr Hop Hfl] Hr Hdel. unfold at_store in *. destruct (Hop oid r Hr) as [Hv Hin].
  assert (Hrest : forall oid' r', delete oid (written c) !! oid' = Some r' -> oid' <> oid /\ written c !! oid' = Some r').
  { intros oid' r' H. by apply lookup_delete_Some in H as [? ?]. }
  assert (Hopen : forall oid' r', delete oid (written c) !! oid' = Some r' -> ValidOID oid' = true /\ oid' ∈ opened c ∖ {[ oid ]}).
  { intros oid' r' H. apply Hrest in H as [Hne H]. destruct (Hop oid' r' H). split; [done|set_solver]. }
  destruct r as [[]|e].
  - split; unfold at_store; cbn [fill_end crr opened written with_flight with_pending rstore flight]; [done| | |exact Hopen|set_solver].
    + intros oid' x Hv' Hni Hx. destruct (decide (oid' = oid)) as [->|Hne]; [|apply (Hk oid' x); [done|set_solver|done]].
      destruct (Hwr oid Hr) as (y & [[E Eh]|E]); congruence.
    + intros oid' H. apply Hrest in H as [_ H]. by apply Hwr.
  - specialize (Hdel eq_refl). cbn [fill_end with_flight with_store rstore] in Hdel.
    assert (Hot : forall oid', ValidOID oid' = true -> oid' <> oid ->
      stored (StoreDelete (rstore (crr c)) (objectRel oid)).2 (objectRel oid') = stored (rstore (crr c)) (objectRel oid')).
    { intros oid' Hv' Hne. apply delete_other; [done|by apply object_inside..|by apply object_apart]. }
    split; unfold at_store; cbn [fill_end crr opened written with_flight with_store rstore flight]; [by apply store_delete_wf| | |exact Hopen|set_solver].
    + intros oid' x Hv' Hni Hx. destruct (decide (oid' = oid)) as [->|Hne]; [congruence|].
      rewrite Hot in Hx by done. apply (Hk oid' x); [done|set_solver|done].
    + intros oid' H. apply Hrest in H as [Hne H]. rewrite Hot; [by apply Hwr|by eapply Hop|done].
Qed.

Lemma evict_ok c name : cache_ok c -> cache_ok {| crr := (RemoteDeleteVersion (crr c) name).2; opened := opened c; written := written c |}.
Proof.
  intros Hc. pose proof Hc as [Hw Hk Hwr Hop Hfl]. unfold at_store in *.
  unfold RemoteDeleteVersion. destruct (HasObject (rstore (crr c)) name (-1)).2 eqn:Ex; cbn [negb snd]; [|by destruct c].
  apply HasObject_valid in Ex. pose proof (store_delete_wf (rstore (crr c)) (objectRel name) Hw) as Hw'.
  assert (Hot : forall oid, ValidOID oid = true ->
    stored (StoreDelete (rstore (crr c)) (objectRel name)).2 (objectRel oid) = stored (rstore (crr c)) (objectRel oid) \/
    stored (StoreDelete (rstore (crr c)) (objectRel name)).2 (objectRel oid) = None).
  { intros oid Hv. destruct (decide (oid = name)) as [->|Hne]; [by apply delete_stored; [|apply object_inside]|].
    left. apply delete_other; [done|by apply object_inside..|by apply object_apart]. }
  destruct (StoreDelete _ _) as [er s]. split; unfold at_store; cbn [crr opened written with_store rstore flight snd] in *; [done| | |done|done].
  - intros oid x Hv Hni Hx. destruct (Hot oid Hv) as [E|E]; rewrite E in Hx; [|done]. by apply (Hk oid).
  - intros oid Hr. destruct (Hop oid _ Hr) as [Hv _]. destruct (Hwr oid Hr) as (x & [[H1 H2]|H1]); exists x;
      (destruct (Hot oid Hv) as [E|E]; rewrite E; [|by right]); [by left|by right].
Qed.

Lemma cache_step_ok c c' : cache_ok c -> cache_step c c' -> cache_ok c'.
Proof.
  intros Hc Hstep. pose proof Hc as [Hw Hk Hwr Hop Hfl].
  destruct Hstep as [c oid rr Hv Hb|c oid Hf Hn|c oid Hv Hf Hn|c oid p part e Hf|c oid p body Hf|c oid r Hr Hdel|c p|c name]; unfold at_store in *.
  - unfold fill_begin in Hb. destruct (bool_decide _) eqn:Ed; [done|]. injection Hb as <-.
    split; [done..|]. cbn [crr with_flight flight opened]. set_solver.
  - split; [done..|]. cbn [crr with_flight flight opened]. set_solver.
  - split; unfold at_store; cbn [crr opened written]; [done| |done| |set_solver].
    + intros oid' x Hv' Hni. apply Hk; [done|set_solver].
    + intros oid' r Hr. destruct (Hop oid' r Hr). split; [done|set_solver].
  - destruct (fill_write_frame (crr c) oid p {| rData := part; rErr := Some e |} (proj1 Hf) Hw) as (Hw' & Ef & Hot & _).
    split; unfold at_store; cbn [crr opened written]; [done| | |done|by rewrite Ef].
    + intros oid' x Hv' Hni. assert (oid' <> oid) by (by destruct Hf as (_ & ? & _); intros ->).
      rewrite Hot by done. by apply Hk.
    + intros oid' Hr. pose proof (filling_written c oid Hf oid' _ Hr). rewrite Hot; [by apply Hwr|by eapply Hop|done].
  - destruct (fill_write_frame (crr c) oid p body (proj1 Hf) Hw) as (Hw' & Ef & Hot & Hok).
    split; unfold at_store; cbn [crr opened written]; [done| | | |by rewrite Ef].
    + intros oid' x Hv' Hni. assert (oid' <> oid) by (by destruct Hf as (_ & ? & _); intros ->).
      rewrite Hot by done. by apply Hk.
    + intros oid'. destruct (decide (oid' = oid)) as [->|Hne].
      * rewrite lookup_insert_eq. intros [= Hr]. destruct (Hok Hr) as (x & H1 & H2). exists x. by left.
      * rewrite lookup_insert_ne by done. intros Hr. rewrite Hot; [by apply Hwr|by eapply Hop|done].
    + intros oid' r. destruct (decide (oid' = oid)) as [->|Hne].
      * intros _. by destruct Hf as (? & ? & _).
      * rewrite lookup_insert_ne by done. apply Hop.
  - by apply fill_end_ok.
  - by split.
  - by apply evict_ok.
Qed.


(** ** Credentials *)

Definition with_auth rr (a : option UpstreamAuth) : Remote F :=
  {| rstore := rstore rr; rbase := rbase rr; rauth := a; pending := pending rr; flight := flight rr |}.

(** A download that goes to another host than the upstream's, or that the
    upstream has given credentials for, does not depend on the configured ones. *)
Lemma credentials_stay UrlHost Resolve rr p range a :
  sameHost UrlHost (Href (pAction p)) (rbase rr) = false \/
  existsb (fun kv => EqualFold kv.1 "Authorization") (Header (pAction p)) = true ->
  download_request UrlHost Resolve (with_auth rr a) p range = download_request UrlHost Resolve rr p range.
Proof.
  unfold download_request. cbv zeta. change (rbase (with_auth rr a)) with (rbase rr).
  intros [->| ->]; [by rewrite andb_false_r|done].
Qed.

End safety.

Arguments Config : clear implicits.

(** ** Examples *)

Definition remote_repo : Remote FS :=
  {| rstore := lstore sample_lfs; rbase := "https://git.example.com/x.git/info/lfs"; rauth := None; pending := ∅; flight := ∅ |}.

Definition hello_action : pendingObject :=
  {| pSize := 5; pAction := {| Href := "https://cdn.example.com/hello"; Header := []; ExpiresIn := 0; ExpiresAt := "" |};
     pExpires := 100 |}.

Definition idle : Config FS := {| crr := remote_repo; opened := ∅; written := ∅ |}.

Lemma idle_ok : cache_ok idle.
Proof.
  split; unfold at_store; cbn [idle crr opened written remote_repo rstore flight]; [exact sample_wf| |intros oid H|intros oid r H|done].
  - intros oid x Hv _ H. by rewrite sample_no_object in H.
  - by rewrite lookup_empty in H.
  - by rewrite lookup_empty in H.
Qed.

(** The upstream answers one request. *)
Definition upstream_hello (q : HttpReq) (w : unit) : result string HttpResp * unit :=
  (Ok {| pStatus := 200; pHeader := fun _ => ""; pBody := reader "hello, and more" |}, w).

Definition filled : result RemoteError unit * option (option Reader) * Remote FS * unit :=
  fill upstream_hello (fun _ => None) None remote_repo hello_oid hello_action tt.

Lemma filled_result : filled.1.1.1 = Ok tt /\ filled.1.1.2 = Some (Some (reader "hello")) /\
  serveObject (rstore filled.1.2) hello_oid = Some (reader "hello").
Proof. split; [|split]; vm_compute; reflexivity. Qed.

Definition hello_body : Reader := reader "hello".

(** One fill, seen from outside: begun, answered, half written, written, kept. *)
Definition begun : Config FS := {| crr := with_flight remote_repo {[ hello_oid ]}; opened := ∅; written := ∅ |}.
Definition answered : Config FS := {| crr := crr begun; opened := {[ hello_oid ]} ∪ ∅; written := ∅ |}.
Definition half : Config FS :=
  {| crr := (fill_write (crr answered) hello_oid hello_action {| rData := "he"; rErr := Some "EOF" |}).2;
     opened := {[ hello_oid ]} ∪ ∅; written := ∅ |}.
Definition whole : Config FS :=
  {| crr := (fill_write (crr half) hello_oid hello_action hello_body).2; opened := {[ hello_oid ]} ∪ ∅; written := {[ hello_oid := Ok tt ]} |}.
Definition kept : Config FS :=
  {| crr := fill_end (crr whole) hello_oid (Ok tt); opened := ({[ hello_oid ]} ∪ ∅) ∖ {[ hello_oid ]}; written := ∅ |}.

Lemma half_filled : rtc cache_step idle half.
Proof.
  assert (Hv : ValidOID hello_oid = true) by (vm_compute; reflexivity).
  assert (Hb : fill_begin remote_repo hello_oid = Some (crr begun)) by (vm_compute; reflexivity).
  assert (Hf1 : filling answered hello_oid) by (split; [exact Hv|split; [cbn; set_solver|reflexivity]]).
  eapply rtc_l; [exact (step_begin idle hello_oid (crr begun) Hv Hb)|].
  eapply rtc_l; [exact (step_open begun hello_oid Hv ltac:(cbn; set_solver) ltac:(cbn; set_solver))|].
  apply rtc_once. exact (step_partial answered hello_oid hello_action "he" "EOF" Hf1).
Qed.

Lemma one_fill : rtc cache_step idle kept.
Proof.
  assert (Hv : ValidOID hello_oid = true) by (vm_compute; reflexivity). etrans; [exact half_filled|].
  assert (Hf2 : filling half hello_oid) by (split; [exact Hv|split; [cbn; set_solver|reflexivity]]).
  assert (Er : (fill_write (crr half) hello_oid hello_action hello_body).1 = Ok tt) by (vm_compute; reflexivity).
  eapply rtc_l; [exact (step_write half hello_oid hello_action hello_body Hf2)|]. rewrite Er.
  change {| crr := _; opened := _; written := _ |} with whole at 1. apply rtc_once.
  assert (Hw : written whole !! hello_oid = Some (Ok tt)) by (vm_compute; reflexivity).
  pose proof (step_end whole hello_oid (Ok tt) Hw ltac:(done)) as H.
  assert (Ed : delete hello_oid (written whole) = ∅) by (vm_compute; reflexivity). rewrite Ed in H. exact H.
Qed.


(** A request that has checked that nothing is being filled reads the store after a
    fill has begun: it is served the part that is there. *)
Lemma served_while_filling :
  (hello_oid ∉ flight (crr idle) /\ serveObject (rstore (crr idle)) hello_oid = None) /\
  rtc cache_step idle half /\
  serveObject (rstore (crr half)) hello_oid = Some (reader "he").
Proof.
  split; [split; [cbn; apply not_elem_of_empty|vm_compute; reflexivity]|]. split; [exact half_filled|vm_compute; reflexivity].
Qed.
