(* ===== verification/DockerStore.v ===== *)
(** * internal/registry/docker: store.go and oci.go

    Manifests, tags and referrers indexes as files of a [RawFS], next to a
    [BlobStore].  [repoDir], [manifestPath], [tagPath] and [referrersIndexPath]
    give the layout.  A decoded manifest body is a JSON document; the referrers
    index is the struct [ociImageIndex].  The lemmas: the layout is injective
    on plain names, so an operation on one file leaves the others alone. *)

From Stdlib Require Import ZArith Lia Ascii.
From stdpp Require Import base list strings gmap.
From S2P Require Import Prelude GoStrings GoPath GoHash GoJson BlobStore RawFS.

Local Open Scope Z_scope.

(** ** Data *)

Inductive DockerError :=
| ErrManifestUnknown | ErrTagUnknown | ErrTagImmutable | ErrNameInvalid | ErrDigestInvalid
| ErrReadOnly | ErrDigest (e : DigestError) | ErrBackend (text : string).

Record Store (F B : Type) := { fs : F; blobs : B; basePath : string }.

Arguments fs {F B} s.
Arguments blobs {F B} s.
Arguments basePath {F B} s.
Arguments Build_Store {F B} _ _ _.

Definition NewStore {F B} (f : F) (b : B) (base : string) : Store F B :=
  {| fs := f; blobs := b; basePath := Trim base "/" |}.

Definition with_fs {F B} (s : Store F B) (f : F) : Store F B :=
  {| fs := f; blobs := blobs s; basePath := basePath s |}.

Definition with_blobs {F B} (s : Store F B) (b : B) : Store F B :=
  {| fs := fs s; blobs := b; basePath := basePath s |}.

Record ManifestRecord := { Body : string; ContentType : string; rDigest : Digest }.

Record manifestDescriptor := {
  MediaType : string;
  ArtifactType : string;
  dDigest : string;
  dSize : Z;
  Annotations : list (string * string);
}.

Record ociImageIndex := {
  iSchemaVersion : Z;
  iMediaType : string;
  Manifests : list manifestDescriptor;
}.

Definition newEmptyReferrersIndex : ociImageIndex := {|
  iSchemaVersion := 2; iMediaType := "application/vnd.oci.image.index.v1+json"; Manifests := [];
|}.

Definition defaultContentType : string := "application/vnd.docker.distribution.manifest.v2+json".

(** ** Decoding and encoding *)

Definition zeroDescriptor : manifestDescriptor :=
  {| MediaType := ""; ArtifactType := ""; dDigest := ""; dSize := 0; Annotations := [] |}.

Definition decodeDescriptor (j : Json) : option manifestDescriptor :=
  match j with
  | JNull => Some zeroDescriptor
  | JObject m =>
      media ← decode_field decode_string false "mediaType" "" m;
      artifact ← decode_field decode_string false "artifactType" "" m;
      digest ← decode_field decode_string false "digest" "" m;
      size ← decode_field decode_int false "size" 0 m;
      annotations ← decode_field decode_strings true "annotations" [] m;
      Some {| MediaType := media; ArtifactType := artifact; dDigest := digest; dSize := size;
              Annotations := annotations |}
  | _ => None
  end.

(** The decoded array replaces the old one: kutu writes the key once. *)
Definition decodeDescriptors (_ : list manifestDescriptor) (j : Json)
    : option (list manifestDescriptor) :=
  l ← as_array j; mapM decodeDescriptor l.

Definition decodeIndex (body : string) : option ociImageIndex :=
  match parse body with
  | Some (JObject m) =>
      schema ← decode_field decode_int false "schemaVersion" 0 m;
      media ← decode_field decode_string false "mediaType" "" m;
      manifests ← decode_field decodeDescriptors true "manifests" [] m;
      Some {| iSchemaVersion := schema; iMediaType := media; Manifests := manifests |}
  | Some JNull => Some {| iSchemaVersion := 0; iMediaType := ""; Manifests := [] |}
  | _ => None
  end.

Definition encodeDescriptor (d : manifestDescriptor) : Json :=
  JObject (
    [("mediaType", JString (MediaType d))]
    ++ (if String.eqb (ArtifactType d) "" then [] else [("artifactType", JString (ArtifactType d))])
    ++ [("digest", JString (dDigest d)); ("size", JNumber (itoa (dSize d)))]
    ++ (match Annotations d with
        | [] => []
        | a => [("annotations",
                 JObject ((fun kv => (kv.1, JString kv.2)) <$>
                          SliceStable (fun x y => str_ltb x.1 y.1) a))]
        end)).

Definition encodeIndex (idx : ociImageIndex) : string :=
  write (JObject [("schemaVersion", JNumber (itoa (iSchemaVersion idx)));
                  ("mediaType", JString (iMediaType idx));
                  ("manifests", JArray (encodeDescriptor <$> Manifests idx))]).

(** What [inspectManifest] reads of a pushed manifest. *)
Record inspectedManifest := {
  mArtifactType : string;
  mConfigMediaType : string;     (** "" without a config *)
  mSubject : string;             (** the digest, "" without a subject *)
  mAnnotations : list (string * string);
}.

(** A field of a nested struct, decoded in order of the members that set it;
    [types] are the types of its other fields, which must decode as well. *)
Definition decode_nested (name : string) (ints : list string) (strs : list string) (old : string)
    (j : Json) : option string :=
  m ← as_object j;
  _ ← mapM (fun k => decode_field decode_int false k 0 m) ints;
  _ ← mapM (fun k => decode_field decode_string false k "" m) strs;
  decode_field decode_string false name old m.

Definition inspectManifest (body : string) : option inspectedManifest :=
  match parse body with
  | Some (JObject m) =>
      _ ← decode_field decode_string false "mediaType" "" m;
      artifact ← decode_field decode_string false "artifactType" "" m;
      config ← decode_field (decode_nested "mediaType" [] []) true "config" "" m;
      subject ← decode_field (decode_nested "digest" ["size"] ["mediaType"]) true "subject" "" m;
      annotations ← decode_field decode_strings true "annotations" [] m;
      Some {| mArtifactType := artifact; mConfigMediaType := config; mSubject := subject;
              mAnnotations := annotations |}
  | Some JNull =>
      Some {| mArtifactType := ""; mConfigMediaType := ""; mSubject := ""; mAnnotations := [] |}
  | _ => None
  end.

Definition effectiveArtifactType (m : inspectedManifest) : string :=
  if negb (String.eqb (mArtifactType m) "") then mArtifactType m
  else if String.eqb (mConfigMediaType m) "application/vnd.oci.image.config.v1+json"
          || String.eqb (mConfigMediaType m) "application/vnd.docker.container.image.v1+json"
  then "" else mConfigMediaType m.

(** ** The store *)

Section store.
Context {F B : Type} {HF : RawFS F}.

Implicit Types s : Store F B.

Definition join s (parts : list string) : string :=
  PathJoin (if String.eqb (basePath s) "" then parts else basePath s :: parts).

Definition repoDir s (name : string) : string := join s ["repositories"; name].

Definition manifestPath s (name : string) (d : Digest) : string :=
  PathJoin [repoDir s name; "manifests"; DigestString d +:+ ".json"].

Definition tagPath s (name tag : string) : string := PathJoin [repoDir s name; "tags"; tag].

Definition referrersIndexPath s (name subject : string) : string :=
  PathJoin [repoDir s name; "_referrers"; subject +:+ ".json"].

Definition write_file s (p c : string) : result DockerError (Store F B) :=
  if negb (writable (fs s)) then Err ErrReadOnly
  else match Write (fs s) p c with
       | Ok f => Ok (with_fs s f)
       | Err e => Err (ErrBackend e)
       end.

(** The sidecar of the content type may fail to be written. *)
Definition WriteManifest s (name : string) (d : Digest) (body contentType : string)
    : result DockerError (Store F B) :=
  match write_file s (manifestPath s name d) body with
  | Err e => Err e
  | Ok s => match write_file s (manifestPath s name d +:+ ".media") contentType with
            | Ok s' => Ok s'
            | Err _ => Ok s
            end
  end.

Definition ReadManifest s (name : string) (d : Digest) : result DockerError ManifestRecord :=
  match Open (fs s) (manifestPath s name d) with
  | Err e => if isNotFound e then Err ErrManifestUnknown else Err (ErrBackend e)
  | Ok body =>
      let ct := match Open (fs s) (manifestPath s name d +:+ ".media") with
        | Ok m => if (0 <? len m)%nat then TrimSpace m else defaultContentType
        | Err _ => defaultContentType
        end in
      Ok {| Body := body; ContentType := ct; rDigest := d |}
  end.

(** Deleting a sidecar is best effort. *)
Definition remove_quietly (f : F) (p : string) : F :=
  match Remove f p with Ok f' => f' | Err _ => f end.

Definition DeleteManifest s (name : string) (d : Digest) : result DockerError (Store F B) :=
  if negb (writable (fs s)) then Err ErrReadOnly
  else match Remove (fs s) (manifestPath s name d) with
       | Err e => if isNotFound e then Err ErrManifestUnknown else Err (ErrBackend e)
       | Ok f => Ok (with_fs s (remove_quietly f (manifestPath s name d +:+ ".media")))
       end.

(** 0 when the file does not exist; an unknown time is the year 1. *)
Definition ManifestModTime s (name : string) (d : Digest) : Z :=
  match Stat (fs s) (manifestPath s name d) with
  | Err _ => 0
  | Ok fi => default (-62135596800) (fiModTime fi)
  end.

Definition SetTag s (name tag : string) (d : Digest) : result DockerError (Store F B) :=
  write_file s (tagPath s name tag) (DigestString d).

Definition ReadTag s (name tag : string) : result DockerError Digest :=
  match Open (fs s) (tagPath s name tag) with
  | Err e => if isNotFound e then Err ErrTagUnknown else Err (ErrBackend e)
  | Ok body => match ParseDigest (TrimSpace body) with
               | Ok d => Ok d
               | Err e => Err (ErrDigest e)
               end
  end.

Definition DeleteTag s (name tag : string) : result DockerError (Store F B) :=
  if negb (writable (fs s)) then Err ErrReadOnly
  else match Remove (fs s) (tagPath s name tag) with
       | Err e => if isNotFound e then Err ErrTagUnknown else Err (ErrBackend e)
       | Ok f => Ok (with_fs s f)
       end.

Definition sortStrings (l : list string) : list string := SliceStable str_ltb l.

Definition ListTags s (name : string) : result DockerError (list string) :=
  match ReadDir (fs s) (PathJoin [repoDir s name; "tags"]) with
  | Err e => if isNotFound e then Ok [] else Err (ErrBackend e)
  | Ok entries =>
      Ok (sortStrings (omap (fun e =>
        if IsDir e then None else if String.eqb (Name e) "" then None else Some (Name e)) entries))
  end.

Definition ReadReferrers s (name subject : string) : result DockerError ociImageIndex :=
  match Open (fs s) (referrersIndexPath s name subject) with
  | Err e => if isNotFound e then Ok newEmptyReferrersIndex else Err (ErrBackend e)
  | Ok body => match decodeIndex body with
               | None => Ok newEmptyReferrersIndex
               | Some idx => Ok idx
               end
  end.

Definition writeReferrers s (name subject : string) (idx : ociImageIndex)
    : result DockerError (Store F B) :=
  match Write (fs s) (referrersIndexPath s name subject) (encodeIndex idx) with
  | Ok f => Ok (with_fs s f)
  | Err e => Err (ErrBackend e)
  end.

Definition with_manifests (idx : ociImageIndex) (l : list manifestDescriptor) : ociImageIndex :=
  {| iSchemaVersion := iSchemaVersion idx; iMediaType := iMediaType idx; Manifests := l |}.

(** The index of a failed read is the zero struct. *)
Definition zeroIndex : ociImageIndex :=
  {| iSchemaVersion := 0; iMediaType := ""; Manifests := [] |}.

(** Replace the first entry of the same digest, or append. *)
Fixpoint put_descriptor (l : list manifestDescriptor) (desc : manifestDescriptor)
    : list manifestDescriptor :=
  match l with
  | [] => [desc]
  | d :: l => if String.eqb (dDigest d) (dDigest desc) then desc :: l else d :: put_descriptor l desc
  end.

Definition AddReferrer s (name subject : string) (desc : manifestDescriptor)
    : result DockerError (Store F B) :=
  if negb (writable (fs s)) then Err ErrReadOnly
  else
    let idx := match ReadReferrers s name subject with Ok i => i | Err _ => zeroIndex end in
    writeReferrers s name subject (with_manifests idx (put_descriptor (Manifests idx) desc)).

Definition RemoveReferrer s (name subject referrer : string) : result DockerError (Store F B) :=
  if negb (writable (fs s)) then Err ErrReadOnly
  else match ReadReferrers s name subject with
       | Err e => Err e
       | Ok idx =>
           let out := List.filter (fun m => negb (String.eqb (dDigest m) referrer)) (Manifests idx) in
           match out with
           | [] => Ok (with_fs s (remove_quietly (fs s) (referrersIndexPath s name subject)))
           | _ => writeReferrers s name subject (with_manifests idx out)
           end
       end.

Definition DeleteReferrersIndex s (name subject : string) : result DockerError (Store F B) :=
  if negb (writable (fs s)) then Err ErrReadOnly
  else match Remove (fs s) (referrersIndexPath s name subject) with
       | Err e => if isNotFound e then Ok s else Err (ErrBackend e)
       | Ok f => Ok (with_fs s f)
       end.

(** [walkRepos]: the repositories below a directory.  A directory with "tags"
    or "manifests" is a repository and is not entered.  An error below the root
    is skipped.  One unit of fuel per level. *)
Fixpoint walkRepos (fuel : nat) (f : F) (dir prefix : string) : result string (list string) :=
  match fuel with
  | O => Err "out of fuel"
  | S fuel =>
      match ReadDir f dir with
      | Err e => Err e
      | Ok entries =>
          Ok (entries ≫= fun e =>
            if negb (IsDir e) then []
            else
              let name := if String.eqb prefix "" then Name e else prefix +:+ "/" +:+ Name e in
              if is_ok (Stat f (PathJoin [dir; Name e; "tags"])) then [name]
              else if is_ok (Stat f (PathJoin [dir; Name e; "manifests"])) then [name]
              else match walkRepos fuel f (PathJoin [dir; Name e]) name with
                   | Ok sub => sub
                   | Err _ => []
                   end)
      end
  end.

Definition ListRepositories s : result DockerError (list string) :=
  match walkRepos (S (depth (fs s))) (fs s) (join s ["repositories"]) "" with
  | Err e => if isNotFound e then Ok [] else Err (ErrBackend e)
  | Ok out => Ok (sortStrings out)
  end.

End store.

(** ** Lemmas: the layout *)

Lemma good_seg_suffix a b : good_seg a -> no_byte "/" b = true -> (2 < len b)%nat ->
  good_seg (a +:+ b).
Proof.
  intros (H1 & _ & _ & H2) Hb Hl. unfold good_seg. rewrite no_byte_app, H2, Hb.
  split_and!; [|intros E..|done]; [by destruct a| |];
    apply (f_equal len) in E; rewrite len_app in E; cbn in E; lia.
Qed.

Lemma suffix_clash a b : a +:+ ".json" <> b +:+ ".media".
Proof.
  intros E. apply (f_equal str_rev) in E. rewrite !str_rev_dist in E. by vm_compute in E.
Qed.

Lemma app_suffix_inj (a b c : string) : a +:+ c = b +:+ c -> a = b.
Proof.
  intros E. apply (f_equal str_rev) in E. rewrite !str_rev_dist in E.
  apply str_app_inj_l in E. by rewrite <-(str_rev_invol a), E, str_rev_invol.
Qed.

Section layout.
Context {F B : Type}.
Implicit Types s : Store F B.

(** The base path is empty or a path of plain segments. *)
Definition good_base s : Prop := basePath s = "" \/ good_path (basePath s).

Definition prefix s : string := if String.eqb (basePath s) "" then "" else basePath s +:+ "/".

Lemma join_good s parts : good_base s -> parts <> [] -> Forall good_path parts ->
  join s parts = prefix s +:+ Join parts "/" /\ good_path (join s parts).
Proof.
  intros Hb Hp Hg. unfold join, prefix. destruct (String.eqb_spec (basePath s) "") as [E|E].
  - rewrite PathJoin_good by done. split; [done|by apply Join_good].
  - destruct Hb as [?|Hb]; [done|]. rewrite PathJoin_good by (done || by constructor).
    split; [|apply Join_good; [done|by constructor]].
    destruct parts as [|q parts]; [done|]. by rewrite Join_cons, !str_app_assoc.
Qed.

Lemma repoDir_good s name : good_base s -> good_path name ->
  repoDir s name = prefix s +:+ "repositories/" +:+ name /\ good_path (repoDir s name).
Proof.
  intros Hb Hn. destruct (join_good s ["repositories"; name] Hb) as [E Hg]; [done| |].
  - apply Forall_cons. split; [by apply (bool_decide_unpack _); vm_compute|by apply Forall_singleton].
  - split; [|done]. unfold repoDir. rewrite E. by rewrite Join_cons.
Qed.

Lemma repoDir_inj s n n' : good_base s -> good_path n -> good_path n' ->
  repoDir s n = repoDir s n' -> n = n'.
Proof.
  intros Hb Hn Hn'. rewrite (proj1 (repoDir_good s n Hb Hn)), (proj1 (repoDir_good s n' Hb Hn')).
  by intros ?%str_app_inj_l%str_app_inj_l.
Qed.

(** A file of a repository: its kind and its name. *)
Lemma repo_file s name kind x : good_base s -> good_path name -> good_seg kind -> good_seg x ->
  PathJoin [repoDir s name; kind; x] = repoDir s name +:+ "/" +:+ kind +:+ "/" +:+ x.
Proof.
  intros Hb Hn Hk Hx. pose proof (proj2 (repoDir_good s name Hb Hn)).
  rewrite PathJoin_good; [done|done|]. repeat constructor; eauto with kutu.
Qed.

Lemma repo_file_inj s n n' k k' x x' : good_base s -> good_path n -> good_path n' ->
  no_byte "/" k = true -> no_byte "/" k' = true -> no_byte "/" x = true -> no_byte "/" x' = true ->
  repoDir s n +:+ "/" +:+ k +:+ "/" +:+ x = repoDir s n' +:+ "/" +:+ k' +:+ "/" +:+ x' ->
  n = n' /\ k = k' /\ x = x'.
Proof.
  intros Hb Hn Hn' Hk Hk' Hx Hx' E.
  assert (E' : (repoDir s n +:+ "/" +:+ k) +:+ "/" +:+ x
             = (repoDir s n' +:+ "/" +:+ k') +:+ "/" +:+ x') by (by rewrite !str_app_assoc).
  apply last_segment in E' as [E' ->]; [|done..].
  apply last_segment in E' as [E' ->]; [|done..].
  by apply repoDir_inj in E' as ->.
Qed.

End layout.
