(* ===== verification/DockerGC.v ===== *)
(** * internal/registry/docker/gc.go: garbage collection of an image registry

    The mark phase ([markRepo], [markManifestRecursive]) collects the digests
    reachable from tags and referrers indexes, the sweep phase deletes the
    blobs and manifest files that are not in the set and older than the grace
    period, and [runGC] puts them together.  The clock is an argument, and
    [ctx] gives the error of the request's context at its n-th poll.  Recursion
    over manifests takes the number of references in the store as fuel, which
    [mark_fuel] shows to be enough.  The lemmas describe what marking reaches;
    the theorems about a collection are in DockerGCSafety.v. *)

From Stdlib Require Import ZArith Lia Ascii.
From stdpp Require Import base list strings gmap relations.
From S2P Require Import Prelude GoStrings GoPath GoJson BlobStore RawFS DockerStore.

Local Open Scope Z_scope.

(** ** Data *)

Inductive GCError :=
| MarkRepoFailed (name : string) (e : DockerError)
| ReadTagFailed (name tag : string) (e : DockerError)
| MarkManifestFailed (name digest : string) (e : DockerError)
| MarkReferrerFailed (name digest : string) (e : DockerError)
| SweepBlobFailed (d : Digest) (e : BlobError)
| BlobWalkFailed (e : CtxError)
| DeleteManifestFailed (name digest text : string)
| AbandonedUploadsFailed (e : BlobError).

Record GCStats := {
  MarkedBlobs : nat;
  SweptBlobs : nat;
  SweptBytes : Z;
  SweptManifests : nat;
  SkippedYoung : nat;
  AbandonedUploadsRemoved : nat;
  AbandonedUploadsBytes : Z;
  StatsDryRun : bool;
  Errors : list GCError;
}.

Record GCOptions := { MinAge : Z; AbandonedUploadMaxAge : Z; DryRun : bool }.

Record liveSet := { lBlobs : gset string; lManifests : gset (string * string) }.

Definition newLiveSet : liveSet := {| lBlobs := ∅; lManifests := ∅ |}.

Definition addBlob (live : liveSet) (digest : string) : liveSet :=
  {| lBlobs := {[ digest ]} ∪ lBlobs live; lManifests := lManifests live |}.

Definition hasBlob (live : liveSet) (digest : string) : bool := bool_decide (digest ∈ lBlobs live).

Definition addManifest (name : string) (live : liveSet) (digest : string) : liveSet :=
  {| lBlobs := lBlobs live; lManifests := {[ (name, digest) ]} ∪ lManifests live |}.

Definition hasManifest (live : liveSet) (name digest : string) : bool :=
  bool_decide ((name, digest) ∈ lManifests live).

(** ** References of a manifest body *)

Definition digest_of (j : Json) : option string :=
  m ← as_object j; v ← field "digest" m; d ← as_string v;
  if String.eqb d "" then None else Some d.

Definition digests_in (key : string) (parsed : list (string * Json)) : list string :=
  match field key parsed ≫= as_array with Some l => omap digest_of l | None => [] end.

Definition digest_at (key : string) (parsed : list (string * Json)) : list string :=
  option_list (field key parsed ≫= digest_of).

(** Config and layers; then sub-manifests of an index and the subject. *)
Definition blobRefs (parsed : list (string * Json)) : list string :=
  digest_at "config" parsed ++ digests_in "layers" parsed.

Definition manifestRefs (parsed : list (string * Json)) : list string :=
  digests_in "manifests" parsed ++ digest_at "subject" parsed.

Definition bodyRefs (body : string) : list string :=
  match UnmarshalMap body with Some parsed => manifestRefs parsed | None => [] end.

(** ** Marking *)

Section gc.
Context {F B : Type} {HF : RawFS F} {HB : BlobStore B}.

Implicit Types s : Store F B.

Fixpoint markManifestRecursive (fuel : nat) s (name digest : string) (live : liveSet)
    : option DockerError * liveSet :=
  match fuel with
  | O => (Some (ErrBackend "out of fuel"), live)
  | S fuel =>
      if hasManifest live name digest then (None, live)
      else match ParseDigest digest with
      | Err e => (Some (ErrDigest e), live)
      | Ok dgst =>
          let live := addBlob (addManifest name live digest) digest in
          match ReadManifest s name dgst with
          | Err e => (Some e, live)
          | Ok rec =>
              match UnmarshalMap (Body rec) with
              | None => (None, live)
              | Some parsed =>
                  let live := foldl addBlob live (blobRefs parsed) in
                  let mark live d := snd (markManifestRecursive fuel s name d live) in
                  let live := foldl mark live (digests_in "manifests" parsed) in
                  (None, foldl mark live (digest_at "subject" parsed))
              end
          end
      end
  end.

Definition gcFuel s : nat := S (S (length (contents (fs s) ≫= bodyRefs))).

Definition mark s name (live : liveSet) (digest : string) : option DockerError * liveSet :=
  markManifestRecursive (gcFuel s) s name digest live.

Definition refDir s (name : string) : string := PathJoin [repoDir s name; "_referrers"].

Definition json_file (e : DirEntry) : bool := negb (IsDir e) && HasSuffix (Name e) ".json".

Definition markTag s name (acc : liveSet * list GCError) (tag : string)
    : liveSet * list GCError :=
  let '(live, errs) := acc in
  match ReadTag s name tag with
  | Err e => (live, errs ++ [ReadTagFailed name tag e])
  | Ok dgst =>
      match mark s name live (DigestString dgst) with
      | (None, live) => (live, errs)
      | (Some e, live) => (live, errs ++ [MarkManifestFailed name (DigestString dgst) e])
      end
  end.

Definition markReferrer s name (acc : liveSet * list GCError) (m : manifestDescriptor)
    : liveSet * list GCError :=
  let '(live, errs) := acc in
  let live := addManifest name live (dDigest m) in
  match mark s name live (dDigest m) with
  | (None, live) => (live, errs)
  | (Some e, live) => (live, errs ++ [MarkReferrerFailed name (dDigest m) e])
  end.

(** One file of the referrers directory. *)
Definition markReferrersFile s name (acc : liveSet * list GCError) (e : DirEntry)
    : liveSet * list GCError :=
  let '(live, errs) := acc in
  if negb (json_file e) then acc
  else
    let subject := TrimSuffix (Name e) ".json" in
    let live := addBlob (addManifest name live subject) subject in
    match Open (fs s) (PathJoin [refDir s name; Name e]) with
    | Err _ => (live, errs)
    | Ok body => match decodeIndex body with
                 | None => (live, errs)
                 | Some idx => foldl (markReferrer s name) (live, errs) (Manifests idx)
                 end
    end.

Definition markRepo s (name : string) (acc : liveSet * list GCError)
    : option DockerError * (liveSet * list GCError) :=
  match ListTags s name with
  | Err e => (Some e, acc)
  | Ok tags =>
      let acc := foldl (markTag s name) acc tags in
      match ReadDir (fs s) (refDir s name) with
      | Err _ => (None, acc)
      | Ok entries => (None, foldl (markReferrersFile s name) acc entries)
      end
  end.

(** The mark phase over the repositories from the [i]-th poll on. *)
Fixpoint markRepos (ctx : nat -> option CtxError) s (i : nat) (repos : list string)
    (acc : liveSet * list GCError) : option CtxError * (liveSet * list GCError) :=
  match repos with
  | [] => (None, acc)
  | name :: repos =>
      match ctx i with
      | Some e => (Some e, acc)
      | None =>
          let acc := match markRepo s name acc with
            | (None, acc) => acc
            | (Some e, (live, errs)) => (live, errs ++ [MarkRepoFailed name e])
            end in
          markRepos ctx s (S i) repos acc
      end
  end.

(** ** Sweeping *)

Definition young (opt : GCOptions) (now : Z) (mtime : option Z) : bool :=
  (0 <? MinAge opt) &&
  match mtime with Some t => wrap64 (now - t) <? MinAge opt | None => false end.

Definition sweep_stats (st : GCStats) (bytes : Z) : GCStats := {|
  MarkedBlobs := MarkedBlobs st; SweptBlobs := S (SweptBlobs st);
  SweptBytes := wrap64 (SweptBytes st + bytes);
  SweptManifests := SweptManifests st; SkippedYoung := SkippedYoung st;
  AbandonedUploadsRemoved := AbandonedUploadsRemoved st;
  AbandonedUploadsBytes := AbandonedUploadsBytes st; StatsDryRun := StatsDryRun st;
  Errors := Errors st;
|}.

Definition skip_stats (st : GCStats) : GCStats := {|
  MarkedBlobs := MarkedBlobs st; SweptBlobs := SweptBlobs st; SweptBytes := SweptBytes st;
  SweptManifests := SweptManifests st; SkippedYoung := S (SkippedYoung st);
  AbandonedUploadsRemoved := AbandonedUploadsRemoved st;
  AbandonedUploadsBytes := AbandonedUploadsBytes st; StatsDryRun := StatsDryRun st;
  Errors := Errors st;
|}.

Definition add_errors (st : GCStats) (errs : list GCError) : GCStats := {|
  MarkedBlobs := MarkedBlobs st; SweptBlobs := SweptBlobs st; SweptBytes := SweptBytes st;
  SweptManifests := SweptManifests st; SkippedYoung := SkippedYoung st;
  AbandonedUploadsRemoved := AbandonedUploadsRemoved st;
  AbandonedUploadsBytes := AbandonedUploadsBytes st; StatsDryRun := StatsDryRun st;
  Errors := Errors st ++ errs;
|}.

Definition add_manifests (st : GCStats) (n : nat) (errs : list GCError) : GCStats := {|
  MarkedBlobs := MarkedBlobs st; SweptBlobs := SweptBlobs st; SweptBytes := SweptBytes st;
  SweptManifests := (SweptManifests st + n)%nat; SkippedYoung := SkippedYoung st;
  AbandonedUploadsRemoved := AbandonedUploadsRemoved st;
  AbandonedUploadsBytes := AbandonedUploadsBytes st; StatsDryRun := StatsDryRun st;
  Errors := Errors st ++ errs;
|}.

Definition set_uploads (st : GCStats) (n : nat) (bytes : Z) : GCStats := {|
  MarkedBlobs := MarkedBlobs st; SweptBlobs := SweptBlobs st; SweptBytes := SweptBytes st;
  SweptManifests := SweptManifests st; SkippedYoung := SkippedYoung st;
  AbandonedUploadsRemoved := n; AbandonedUploadsBytes := bytes;
  StatsDryRun := StatsDryRun st; Errors := Errors st;
|}.

(** One call of the walk's callback after its poll of the context. *)
Definition sweepBlob (live : liveSet) (opt : GCOptions) (now : Z) (b : B) (st : GCStats)
    (d : Digest) (info : BlobInfo) : B * GCStats :=
  if hasBlob live (DigestString d) then (b, st)
  else if young opt now (ModTime info) then (b, skip_stats st)
  else if DryRun opt then (b, sweep_stats st (Size info))
  else match Delete b d with
       | Err e => (b, add_errors st [SweepBlobFailed d e])
       | Ok b => (b, sweep_stats st (Size info))
       end.

Fixpoint sweepBlobs (ctx : nat -> option CtxError) (i : nat) (live : liveSet) (opt : GCOptions)
    (now : Z) (b : B) (st : GCStats) (l : list (Digest * BlobInfo)) : B * GCStats :=
  match l with
  | [] => (b, st)
  | (d, info) :: l =>
      match ctx i with
      | Some Canceled => (b, st)
      | Some e => (b, add_errors st [BlobWalkFailed e])
      | None =>
          let '(b, st) := sweepBlob live opt now b st d info in
          sweepBlobs ctx (S i) live opt now b st l
      end
  end.

Definition manifestsDir s (name : string) : string := PathJoin [repoDir s name; "manifests"].

(** One entry of a manifests directory: the file system, the count and the
    errors so far. *)
Definition sweepManifest (dir name : string) (live : liveSet) (opt : GCOptions) (now : Z)
    (acc : F * nat * list GCError) (e : DirEntry) : F * nat * list GCError :=
  let '(f, count, errs) := acc in
  if IsDir e || HasSuffix (Name e) ".media" then acc
  else if negb (HasSuffix (Name e) ".json") then acc
  else
    let digestStr := TrimSuffix (Name e) ".json" in
    if hasManifest live name digestStr then acc
    else
      let p := PathJoin [dir; Name e] in
      let mtime := match Stat f p with Ok fi => fiModTime fi | Err _ => None end in
      if young opt now mtime then acc
      else if DryRun opt then (f, S count, errs)
      else match Remove f p with
           | Err t => (f, count, errs ++ [DeleteManifestFailed name digestStr t])
           | Ok f => (remove_quietly f (PathJoin [dir; Name e +:+ ".media"]), S count, errs)
           end.

Definition sweepUnreferencedManifests s (name : string) (live : liveSet) (opt : GCOptions)
    (now : Z) : Store F B * nat * list GCError :=
  let dir := manifestsDir s name in
  match ReadDir (fs s) dir with
  | Err _ => (s, O, [])
  | Ok entries =>
      let '(f, count, errs) :=
        foldl (sweepManifest dir name live opt now) (fs s, O, []) entries in
      (with_fs s f, count, errs)
  end.

Definition sweepRepos (live : liveSet) (opt : GCOptions) (now : Z) (acc : Store F B * GCStats)
    (repos : list string) : Store F B * GCStats :=
  foldl (fun '(s, st) name =>
    let '(s, n, errs) := sweepUnreferencedManifests s name live opt now in
    (s, add_manifests st n errs)) acc repos.

Definition pruneUploads (opt : GCOptions) (acc : Store F B * GCStats) : Store F B * GCStats :=
  let '(s, st) := acc in
  if 0 <? AbandonedUploadMaxAge opt then
    match PruneAbandonedUploads with
    | None => acc
    | Some prune =>
        let '(n, bytes, err, b) := prune (blobs s) (AbandonedUploadMaxAge opt) (DryRun opt) in
        let st := match err with Some e => add_errors st [AbandonedUploadsFailed e] | None => st end in
        (with_blobs s b, set_uploads st n bytes)
    end
  else acc.

(** ** The pass *)

Inductive GCFailure := BackendReadOnly | ListReposFailed (e : DockerError) | Cancelled (e : CtxError).

(** The error of the pass, its statistics when it has any, and the store. *)
Definition runGC (ctx : nat -> option CtxError) (now : Z) s (opt : GCOptions)
    : option GCFailure * option GCStats * Store F B :=
  if negb (writable (fs s)) then (Some BackendReadOnly, None, s)
  else match ListRepositories s with
  | Err e => (Some (ListReposFailed e), None, s)
  | Ok repos =>
      let stats errs marked := {|
        MarkedBlobs := marked; SweptBlobs := 0; SweptBytes := 0; SweptManifests := 0;
        SkippedYoung := 0; AbandonedUploadsRemoved := 0; AbandonedUploadsBytes := 0;
        StatsDryRun := DryRun opt; Errors := errs |} in
      match markRepos ctx s 0 repos (newLiveSet, []) with
      | (Some e, (_, errs)) => (Some (Cancelled e), Some (stats errs O), s)
      | (None, (live, errs)) =>
          let st := stats errs (size (lBlobs live)) in
          let '(b, st) := sweepBlobs ctx (length repos) live opt now (blobs s) st
                                     (ListBlobs (blobs s)) in
          let '(s, st) := pruneUploads opt (sweepRepos live opt now (with_blobs s b, st) repos) in
          (None, Some st, s)
      end
  end.

(** [Local.GarbageCollect]: the size of the event a completed pass emits. *)
Definition GarbageCollect (ctx : nat -> option CtxError) (now : Z) s (opt : GCOptions)
    : option GCFailure * option GCStats * Store F B * option Z :=
  let '(err, stats, s') := runGC ctx now s opt in
  let event := match err, stats with
    | None, Some st =>
        if DryRun opt then None else Some (wrap64 (SweptBytes st + AbandonedUploadsBytes st))
    | _, _ => None
    end in
  (err, stats, s', event).

(** ** The cascade of a delete *)

Definition scopedTag s name exclude (live : liveSet) (tag : string) : liveSet :=
  match ReadTag s name tag with
  | Err _ => live
  | Ok dgst =>
      if String.eqb (DigestString dgst) exclude then live
      else snd (mark s name live (DigestString dgst))
  end.

Definition scopedReferrer s name exclude (live : liveSet) (m : manifestDescriptor) : liveSet :=
  if String.eqb (dDigest m) exclude then live
  else snd (mark s name (addManifest name live (dDigest m)) (dDigest m)).

Definition scopedReferrersFile s name exclude (live : liveSet) (e : DirEntry) : liveSet :=
  if negb (json_file e) then live
  else
    let subject := TrimSuffix (Name e) ".json" in
    if String.eqb subject exclude then live
    else
      let live := addBlob (addManifest name live subject) subject in
      match Open (fs s) (PathJoin [refDir s name; Name e]) with
      | Err _ => live
      | Ok body => match decodeIndex body with
                   | None => live
                   | Some idx => foldl (scopedReferrer s name exclude) live (Manifests idx)
                   end
      end.

Definition markRepoScoped s (name exclude : string) : liveSet :=
  let live := match ListTags s name with
    | Ok tags => foldl (scopedTag s name exclude) newLiveSet tags
    | Err _ => newLiveSet
    end in
  match ReadDir (fs s) (refDir s name) with
  | Ok entries => foldl (scopedReferrersFile s name exclude) live entries
  | Err _ => live
  end.

End gc.

(** ** Lemmas: marking *)

Section marking.
Context {F B : Type} {HF : RawFS F} {HFL : RawFSLaws F} {HB : BlobStore B}.

Implicit Types (s : Store F B) (live : liveSet).

Definition grows live live' : Prop :=
  lBlobs live ⊆ lBlobs live' /\ lManifests live ⊆ lManifests live'.

#[export] Instance grows_preorder : PreOrder grows.
Proof. split; unfold grows; [done|]. intros a b c [? ?] [? ?]. set_solver. Qed.

Lemma grows_addBlob live d : grows live (addBlob live d).
Proof. unfold grows, addBlob. cbn. set_solver. Qed.

Lemma grows_addManifest name live d : grows live (addManifest name live d).
Proof. unfold grows, addManifest. cbn. set_solver. Qed.

Lemma addBlobs_spec l live : grows live (foldl addBlob live l) /\
  lManifests (foldl addBlob live l) = lManifests live /\
  forall b, b ∈ l -> b ∈ lBlobs (foldl addBlob live l).
Proof.
  revert live. induction l as [|x l IH]; intros live; [split_and!; [done..|]; by intros b ?%elem_of_nil|].
  cbn [foldl]. destruct (IH (addBlob live x)) as (Hg & Hm & Hb). split_and!.
  - by etrans; [apply grows_addBlob|].
  - done.
  - intros b [->|Hb']%elem_of_cons; [|by apply Hb]. apply Hg. cbn. set_solver.
Qed.

(** The decoded body of a stored manifest. *)
Definition body_of s name (digest : string) (parsed : list (string * Json)) : Prop :=
  exists dgst rec, ParseDigest digest = Ok dgst /\ ReadManifest s name dgst = Ok rec /\
    UnmarshalMap (Body rec) = Some parsed.

(** A manifest refers to a manifest (a sub-manifest or its subject), or to a
    blob (its config or a layer). *)
Definition refers s name (digest r : string) : Prop :=
  is_ok (ParseDigest r) = true /\
  exists parsed, body_of s name digest parsed /\ r ∈ manifestRefs parsed.

Definition uses s name (digest b : string) : Prop :=
  exists parsed, body_of s name digest parsed /\ b ∈ blobRefs parsed.

(** Everything a manifest refers to directly is live. *)
Definition closed s name live (digest : string) : Prop :=
  (is_ok (ParseDigest digest) = true -> digest ∈ lBlobs live) /\
  (forall r, refers s name digest r -> (name, r) ∈ lManifests live) /\
  (forall b, uses s name digest b -> b ∈ lBlobs live).

Lemma closed_grows s name live live' d : grows live live' -> closed s name live d ->
  closed s name live' d.
Proof. intros [Hb Hm] (H1 & H2 & H3). split_and!; eauto. Qed.

(** The new marks are of the repository and closed. *)
Definition fresh_closed s name live live' : Prop :=
  forall n x, (n, x) ∈ lManifests live' ->
    (n, x) ∈ lManifests live \/ (n = name /\ closed s name live' x).

Lemma fresh_closed_trans s name a b c : fresh_closed s name a b -> fresh_closed s name b c ->
  grows b c -> fresh_closed s name a c.
Proof.
  intros Hab Hbc Hg n x Hx. destruct (Hbc n x Hx) as [Hb|?]; [|by right].
  destruct (Hab n x Hb) as [?|[-> ?]]; [by left|right; eauto using closed_grows].
Qed.

Lemma fresh_closed_same s name a b : lManifests a = lManifests b -> fresh_closed s name a b.
Proof. intros E n x. rewrite E. by left. Qed.

(** The references of the store that are not marked yet. *)
Definition refUniverse s : list string := contents (fs s) ≫= bodyRefs.

Definition pending s name live : nat :=
  length (filter (fun r => (name, r) ∉ lManifests live) (refUniverse s)).

Lemma body_universe s name d parsed r : body_of s name d parsed -> r ∈ manifestRefs parsed ->
  r ∈ refUniverse s.
Proof.
  intros (dg & rec & _ & Hr & Hu) Hin. apply list_elem_of_bind. exists (Body rec).
  split; [by unfold bodyRefs; rewrite Hu|].
  unfold ReadManifest in Hr. destruct (Open _ _) as [body|e] eqn:E.
  - injection Hr as <-. by eapply Open_contents.
  - by destruct (isNotFound e).
Qed.

Lemma filter_length_sub {A} (P Q : A -> Prop) `{forall x, Decision (P x)} `{forall x, Decision (Q x)}
    (l : list A) :
  (forall x, Q x -> P x) -> (length (filter Q l) <= length (filter P l))%nat.
Proof.
  intros HQP. induction l as [|x l IH]; [done|]. rewrite !filter_cons.
  destruct (decide (Q x)), (decide (P x)); cbn [length]; [lia|naive_solver|lia|lia].
Qed.

Lemma filter_length_lt {A} (P Q : A -> Prop) `{forall x, Decision (P x)} `{forall x, Decision (Q x)}
    (l : list A) y :
  (forall x, Q x -> P x) -> y ∈ l -> P y -> ~ Q y ->
  (length (filter Q l) < length (filter P l))%nat.
Proof.
  intros HQP Hy HP HQ. induction l as [|x l IH]; [by apply elem_of_nil in Hy|].
  rewrite !filter_cons. apply elem_of_cons in Hy as [->|Hy].
  - rewrite decide_False, decide_True by done. cbn [length].
    pose proof (filter_length_sub P Q l HQP). lia.
  - specialize (IH Hy). destruct (decide (Q x)), (decide (P x)); cbn [length]; [lia|naive_solver|lia|lia].
Qed.

Lemma pending_grows s name live live' : grows live live' ->
  (pending s name live' <= pending s name live)%nat.
Proof. intros [_ Hm]. apply filter_length_sub. set_solver. Qed.

(** The calls still needed below a digest. *)
Definition need s name live (digest : string) : nat :=
  (pending s name live + if bool_decide (digest ∈ refUniverse s) then 0 else 1)%nat.

Lemma need_child s name live digest : hasManifest live name digest = false ->
  (pending s name (addManifest name live digest) < S (need s name live digest))%nat /\
  (digest ∈ refUniverse s ->
   pending s name (addManifest name live digest) < need s name live digest)%nat.
Proof.
  intros Hn. unfold hasManifest in Hn. bool_prop. unfold need.
  pose proof (pending_grows s name _ _ (grows_addManifest name live digest)). split; [lia|].
  intros Hd. rewrite bool_decide_true by done.
  assert (pending s name (addManifest name live digest) < pending s name live)%nat; [|lia].
  apply (filter_length_lt _ _ _ digest); [|done|done|]; unfold addManifest; cbn; set_solver.
Qed.

(** What one marking call establishes. *)
Definition marks s name live (digest : string) live' : Prop :=
  grows live live' /\ fresh_closed s name live live' /\
  (is_ok (ParseDigest digest) = true -> (name, digest) ∈ lManifests live').

Lemma marks_list s name (f : liveSet -> string -> liveSet) l : forall live,
  (forall live', grows live live' -> forall d, d ∈ l -> marks s name live' d (f live' d)) ->
  grows live (foldl f live l) /\ fresh_closed s name live (foldl f live l) /\
  forall d, d ∈ l -> is_ok (ParseDigest d) = true -> (name, d) ∈ lManifests (foldl f live l).
Proof.
  induction l as [|x l IH]; intros live Hf.
  { split_and!; [done|by apply fresh_closed_same|]. by intros d ?%elem_of_nil. }
  cbn [foldl]. destruct (Hf live ltac:(done) x ltac:(apply list_elem_of_here)) as (Hg & Hc & Hx).
  destruct (IH (f live x)) as (Hg' & Hc' & Hx').
  { intros live' Hl d Hd. apply Hf; [by etrans|by apply list_elem_of_further]. }
  split_and!; [by etrans|by eapply fresh_closed_trans|].
  intros d [->|Hd]%elem_of_cons Hp; [apply Hg', Hx, Hp|by apply Hx'].
Qed.

Lemma mark_spec s name fuel : forall digest live, (need s name live digest < fuel)%nat ->
  marks s name live digest (snd (markManifestRecursive fuel s name digest live)).
Proof.
  induction fuel as [|fuel IH]; intros digest live Hfuel; [lia|]. cbn [markManifestRecursive].
  destruct (hasManifest live name digest) eqn:Hm.
  { split_and!; [done|by apply fresh_closed_same|]. intros _. unfold hasManifest in Hm.
    by bool_prop. }
  destruct (need_child s name live digest Hm) as [Hlt Hlt'].
  destruct (ParseDigest digest) as [dgst|e] eqn:Hd; cbn [snd].
  2:{ split_and!; [done|by apply fresh_closed_same|]. by rewrite Hd. }
  set (live1 := addBlob (addManifest name live digest) digest).
  assert (Hg1 : grows live live1)
    by (etrans; [apply grows_addManifest|apply grows_addBlob]).
  assert (Hin1 : (name, digest) ∈ lManifests live1 /\ digest ∈ lBlobs live1) by (cbn; set_solver).
  assert (Hnew : forall live', grows live1 live' -> closed s name live' digest ->
    fresh_closed s name live1 live' -> marks s name live digest live').
  { intros live' Hg Hcl Hfr. split_and!; [by etrans| |intros _; apply Hg, Hin1].
    intros n x Hx. destruct (Hfr n x Hx) as [Hx'|?]; [|by right]. cbn in Hx'.
    apply elem_of_union in Hx' as [Heq|?]; [|by left]. right.
    apply elem_of_singleton in Heq. by injection Heq as -> ->. }
  destruct (ReadManifest s name dgst) as [rec|e] eqn:Hr; cbn [snd].
  2:{ apply Hnew; [done| |by apply fresh_closed_same]. split_and!; [by intros _; apply Hin1| |].
      - intros r (_ & p & (dg & rec & Hd' & Hr' & _) & _). congruence.
      - intros b (p & (dg & rec & Hd' & Hr' & _) & _). congruence. }
  destruct (UnmarshalMap (Body rec)) as [parsed|] eqn:Hu; cbn [snd].
  2:{ apply Hnew; [done| |by apply fresh_closed_same]. split_and!; [by intros _; apply Hin1| |].
      - intros r (_ & p & (dg & rec' & Hd' & Hr' & Hu') & _). congruence.
      - intros b (p & (dg & rec' & Hd' & Hr' & Hu') & _). congruence. }
  assert (Hbody : forall p, body_of s name digest p -> p = parsed).
  { intros p (dg & rec' & Hd' & Hr' & Hu'). congruence. }
  assert (Hb0 : body_of s name digest parsed) by (by exists dgst, rec).
  destruct (addBlobs_spec (blobRefs parsed) live1) as (Hg2 & Hm2 & Hb2).
  set (live2 := foldl addBlob live1 (blobRefs parsed)) in *.
  set (f := fun live d => snd (markManifestRecursive fuel s name d live)).
  assert (Hf : forall live', grows live1 live' -> forall d, d ∈ manifestRefs parsed ->
    marks s name live' d (f live' d)).
  { intros live' Hg d Hd'. apply IH. unfold need.
    rewrite bool_decide_true by (by eapply body_universe).
    pose proof (pending_grows s name _ _ Hg).
    assert (pending s name live1 = pending s name (addManifest name live digest)) by done.
    destruct (decide (digest ∈ refUniverse s)) as [Hu'|Hu']; [specialize (Hlt' Hu'); lia|].
    unfold need in Hfuel, Hlt. rewrite bool_decide_false in Hfuel by done.
    pose proof (pending_grows s name _ _ (grows_addManifest name live digest)). lia. }
  destruct (marks_list s name f (digests_in "manifests" parsed) live2) as (Hg3 & Hc3 & Hi3).
  { intros live' Hl d Hd'. apply Hf; [by etrans|]. apply elem_of_app. by left. }
  set (live3 := foldl f live2 _) in *.
  destruct (marks_list s name f (digest_at "subject" parsed) live3) as (Hg4 & Hc4 & Hi4).
  { intros live' Hl d Hd'. apply Hf; [|apply elem_of_app; by right].
    transitivity live2; [done|]. by transitivity live3. }
  apply Hnew.
  - transitivity live2; [done|]. by transitivity live3.
  - split_and!.
    + intros _. apply Hg4, Hg3, Hg2, Hin1.
    + intros r (Hok & p & ->%Hbody & Hp). apply elem_of_app in Hp as [Hp|Hp]; [|by apply Hi4].
      by apply Hg4, Hi3.
    + intros b (p & ->%Hbody & Hp). by apply Hg4, Hg3, Hb2.
  - eapply fresh_closed_trans; [|exact Hc4|exact Hg4].
    eapply fresh_closed_trans; [by apply fresh_closed_same|exact Hc3|exact Hg3].
Qed.

(** ** The fuel is enough *)

(** The calls of a manifest need less fuel than its own. *)
Lemma need_refs s name live digest dgst rec parsed live' r : hasManifest live name digest = false ->
  ParseDigest digest = Ok dgst -> ReadManifest s name dgst = Ok rec -> UnmarshalMap (Body rec) = Some parsed ->
  grows (addManifest name live digest) live' -> r ∈ manifestRefs parsed ->
  (need s name live' r < need s name live digest)%nat.
Proof.
  intros Hm Hd Hr Hu Hg Hin. destruct (need_child s name live digest Hm) as [Hlt Hlt'].
  assert (Hb0 : body_of s name digest parsed) by (by exists dgst, rec).
  unfold need at 1. rewrite bool_decide_true by (by eapply body_universe).
  pose proof (pending_grows s name _ _ Hg).
  destruct (decide (digest ∈ refUniverse s)) as [Hi|Hi]; [specialize (Hlt' Hi); lia|].
  pose proof (pending_grows s name _ _ (grows_addManifest name live digest)).
  unfold need. rewrite bool_decide_false by done. lia.
Qed.

Lemma need_gcFuel s name live digest : (need s name live digest < gcFuel s)%nat.
Proof.
  unfold need, pending, gcFuel. fold (refUniverse s).
  pose proof (length_filter (fun r => (name, r) ∉ lManifests live) (refUniverse s)).
  case_bool_decide; lia.
Qed.

(** The fuel of [mark] is enough. *)
Lemma mark_fuel s name digest live : marks s name live digest (snd (mark s name live digest)).
Proof. apply mark_spec, need_gcFuel. Qed.

(** What the tags of a repository reach. *)
Definition tagged s name (root : string) : Prop :=
  exists tags tag dgst, ListTags s name = Ok tags /\ tag ∈ tags /\
    ReadTag s name tag = Ok dgst /\ root = DigestString dgst.

Definition protected s name live : Prop :=
  forall root d, tagged s name root -> rtc (refers s name) root d ->
    (name, d) ∈ lManifests live /\ closed s name live d.

Lemma protected_grows s name live live' : grows live live' -> protected s name live ->
  protected s name live'.
Proof.
  intros Hg Hp root d Hr Hd. destruct (Hp root d Hr Hd) as [Hm Hc].
  split; [by apply Hg|by eapply closed_grows].
Qed.

Lemma markTag_spec s name live errs tag :
  let '(live', _) := markTag s name (live, errs) tag in
  grows live live' /\ fresh_closed s name live live' /\
  forall dgst, ReadTag s name tag = Ok dgst -> (name, DigestString dgst) ∈ lManifests live'.
Proof.
  unfold markTag. destruct (ReadTag s name tag) as [dgst|e] eqn:E.
  2:{ split_and!; [done|by apply fresh_closed_same|done]. }
  destruct (mark_fuel s name (DigestString dgst) live) as (Hg & Hc & Hm).
  assert (Hin : (name, DigestString dgst) ∈ lManifests (snd (mark s name live (DigestString dgst)))).
  { apply Hm. unfold ReadTag in E. destruct (Open _ _) as [body|t]; [|by destruct (isNotFound t)].
    destruct (ParseDigest (TrimSpace body)) as [d|t] eqn:Ed; [|done]. injection E as ->.
    by rewrite (proj2 (ParseDigest_normal _ _ Ed)). }
  destruct (mark s name live _) as [[e|] live']; cbn in *; split_and!; try done;
    by intros ? [= <-].
Qed.

Lemma markTags_spec s name tags : forall live errs,
  let '(live', _) := foldl (markTag s name) (live, errs) tags in
  grows live live' /\ fresh_closed s name live live' /\
  forall tag dgst, tag ∈ tags -> ReadTag s name tag = Ok dgst ->
    (name, DigestString dgst) ∈ lManifests live'.
Proof.
  induction tags as [|t tags IH]; intros live errs; cbn [foldl].
  { split_and!; [done|by apply fresh_closed_same|]. by intros tag d ?%elem_of_nil. }
  pose proof (markTag_spec s name live errs t) as Ht.
  destruct (markTag s name (live, errs) t) as [live1 errs1]. destruct Ht as (Hg & Hc & Ht).
  specialize (IH live1 errs1). destruct (foldl _ (live1, errs1) tags) as [live2 errs2].
  destruct IH as (Hg' & Hc' & IH). split_and!; [by etrans|by eapply fresh_closed_trans|].
  intros tag dgst [->|Hin]%elem_of_cons Hr; [by apply Hg', Ht|by eapply IH].
Qed.

(** Marks closed from a root reach everything below it. *)
Lemma fresh_closed_reach s name live live' root d :
  (forall x, (name, x) ∉ lManifests live) -> fresh_closed s name live live' ->
  (name, root) ∈ lManifests live' -> rtc (refers s name) root d ->
  (name, d) ∈ lManifests live' /\ closed s name live' d.
Proof.
  intros Hno Hc Hroot Hd. revert Hroot.
  assert (Hcl : forall x, (name, x) ∈ lManifests live' -> closed s name live' x).
  { intros x Hx. by destruct (Hc name x Hx) as [?%Hno|[_ ?]]. }
  induction Hd as [x|x y z Hxy _ IH]; intros Hroot; [split; [done|by apply Hcl]|].
  apply IH. by apply (Hcl x Hroot).
Qed.

(** New marks are of one repository. *)
Definition only s name live live' : Prop :=
  grows live live' /\
  forall n x, (n, x) ∈ lManifests live' -> (n, x) ∈ lManifests live \/ n = name.

Lemma only_trans s name a b c : only s name a b -> only s name b c -> only s name a c.
Proof.
  intros [Hg Ho] [Hg' Ho']. split; [by etrans|]. intros n x Hx.
  destruct (Ho' n x Hx) as [?|?]; [by apply Ho|by right].
Qed.

Lemma fresh_closed_only s name a b : grows a b -> fresh_closed s name a b -> only s name a b.
Proof. intros Hg Hc. split; [done|]. intros n x Hx. destruct (Hc n x Hx) as [?|[? _]]; auto. Qed.

Lemma addManifest_only s name live d : only s name live (addManifest name live d).
Proof.
  split; [apply grows_addManifest|]. intros n x [Hx|Hx]%elem_of_union; [|by left].
  right. apply elem_of_singleton in Hx. congruence.
Qed.

Lemma markReferrer_only s name live errs m :
  only s name live (fst (markReferrer s name (live, errs) m)).
Proof.
  unfold markReferrer. eapply only_trans; [apply (addManifest_only s name live (dDigest m))|].
  destruct (mark_fuel s name (dDigest m) (addManifest name live (dDigest m))) as (Hg & Hc & _).
  destruct (mark _ _ _ _) as [[e|] live']; by apply fresh_closed_only.
Qed.

Lemma foldl_only {A} s name (f : liveSet * list GCError -> A -> liveSet * list GCError) l :
  (forall live errs x, only s name live (fst (f (live, errs) x))) ->
  forall live errs, only s name live (fst (foldl f (live, errs) l)).
Proof.
  intros Hf. induction l as [|x l IH]; intros live errs.
  - split; [done|]. intros n y. by left.
  - cbn [foldl]. specialize (Hf live errs x). destruct (f (live, errs) x) as [live1 errs1].
    eapply only_trans; [exact Hf|apply IH].
Qed.

Lemma markReferrersFile_only s name live errs e :
  only s name live (fst (markReferrersFile s name (live, errs) e)).
Proof.
  unfold markReferrersFile. destruct (json_file e); cbn [negb].
  2:{ split; [done|]. intros n y. by left. }
  set (live1 := addBlob (addManifest name live _) _).
  assert (H1 : only s name live live1).
  { eapply only_trans; [apply addManifest_only|]. split; [apply grows_addBlob|]. by left. }
  destruct (Open _ _) as [body|]; [|done]. destruct (decodeIndex body); [|done].
  eapply only_trans; [exact H1|]. apply foldl_only. intros. apply markReferrer_only.
Qed.

Lemma markRepo_spec s name live errs :
  let '(_, (live', _)) := markRepo s name (live, errs) in
  only s name live live' /\
  ((forall x, (name, x) ∉ lManifests live) -> protected s name live').
Proof.
  unfold markRepo. destruct (ListTags s name) as [tags|e] eqn:Et.
  2:{ split; [split; [done|by left]|]. intros _ root d (tags & ? & ? & E & _). congruence. }
  pose proof (markTags_spec s name tags live errs) as Ht.
  destruct (foldl (markTag s name) (live, errs) tags) as [live1 errs1].
  destruct Ht as (Hg & Hc & Ht).
  assert (Hp : (forall x, (name, x) ∉ lManifests live) -> protected s name live1).
  { intros Hno root d (tags' & tag & dgst & E & Hin & Hr & ->) Hd.
    replace tags' with tags in Hin by congruence.
    apply (fresh_closed_reach s name live live1 (DigestString dgst)); eauto. }
  destruct (ReadDir _ _) as [entries|]; [|split; [by apply fresh_closed_only|done]].
  pose proof (foldl_only s name (markReferrersFile s name) entries
    (markReferrersFile_only s name) live1 errs1) as Ho.
  destruct (foldl _ (live1, errs1) entries) as [live2 errs2]. cbn in Ho.
  split; [|by intros Hno; eapply protected_grows; [apply Ho|apply Hp]].
  eapply only_trans; [|exact Ho]. by apply fresh_closed_only.
Qed.

(** The mark phase protects the tags of every repository it visits. *)
Lemma markRepos_spec ctx s repos : forall i (seen : list string) live errs live' errs',
  (forall n x, (n, x) ∈ lManifests live -> n ∈ seen) ->
  (forall n, n ∈ seen -> protected s n live) ->
  markRepos ctx s i repos (live, errs) = (None, (live', errs')) ->
  forall n, n ∈ seen \/ n ∈ repos -> protected s n live'.
Proof.
  induction repos as [|name repos IH]; intros i seen live errs live' errs' Hs Hp; cbn [markRepos].
  { intros [= <- <-] n [Hn|Hn]; [by apply Hp|by apply elem_of_nil in Hn]. }
  destruct (ctx i); [done|]. pose proof (markRepo_spec s name live errs) as Hm.
  destruct (markRepo s name (live, errs)) as [oe [live1 errs1]]. destruct Hm as [[Hg Ho] Hm].
  intros Hrun.
  assert (Hrun' : exists errs2, markRepos ctx s (S i) repos (live1, errs2) = (None, (live', errs')))
    by (destruct oe; eauto).
  destruct Hrun' as [errs2 Hrun'].
  assert (Hp1 : forall n, n ∈ name :: seen -> protected s n live1).
  { intros n Hn. destruct (decide (n ∈ seen)) as [Hin|Hnin].
    - eapply protected_grows; [exact Hg|by apply Hp].
    - apply elem_of_cons in Hn as [->|?]; [|done]. apply Hm. intros x Hx. by apply Hs in Hx. }
  intros n Hn. apply (IH (S i) (name :: seen) live1 errs2 live' errs'); [|done|done|].
  - intros n' x Hx. destruct (Ho n' x Hx) as [?| ->];
      [apply list_elem_of_further; eauto|apply list_elem_of_here].
  - rewrite elem_of_cons in Hn |- *. tauto.
Qed.

End marking.

(** ** Termination *)

Section termination.
Context {F B : Type} {HF : RawFS F} {HL : RawFSLaws F} {HB : BlobStore B}.
Variables (s : Store F B) (name : string).

Definition marked_here (live : liveSet) (digest : string) : liveSet := addBlob (addManifest name live digest) digest.

(** The recursion of [markManifestRecursive] as the code has it, without fuel: a
    call that returns, with its error and the live set it leaves, and the loops
    over the references of a manifest, which drop the errors.  A recursion that
    does not end has no derivation. *)
Inductive returns : string -> liveSet -> option DockerError -> liveSet -> Prop :=
| returns_seen digest live : hasManifest live name digest = true -> returns digest live None live
| returns_digest digest live e : hasManifest live name digest = false -> ParseDigest digest = Err e ->
    returns digest live (Some (ErrDigest e)) live
| returns_unread digest live dgst e : hasManifest live name digest = false -> ParseDigest digest = Ok dgst ->
    ReadManifest s name dgst = Err e -> returns digest live (Some e) (marked_here live digest)
| returns_opaque digest live dgst rec : hasManifest live name digest = false -> ParseDigest digest = Ok dgst ->
    ReadManifest s name dgst = Ok rec -> UnmarshalMap (Body rec) = None ->
    returns digest live None (marked_here live digest)
| returns_refs digest live dgst rec parsed live' : hasManifest live name digest = false -> ParseDigest digest = Ok dgst ->
    ReadManifest s name dgst = Ok rec -> UnmarshalMap (Body rec) = Some parsed ->
    returns_all (manifestRefs parsed) (foldl addBlob (marked_here live digest) (blobRefs parsed)) live' ->
    returns digest live None live'
with returns_all : list string -> liveSet -> liveSet -> Prop :=
| returns_all_nil live : returns_all [] live live
| returns_all_cons digest l live e live1 live2 : returns digest live e live1 -> returns_all l live1 live2 ->
    returns_all (digest :: l) live live2.

Scheme returns_ind' := Minimality for returns Sort Prop
with returns_all_ind' := Minimality for returns_all Sort Prop.
Combined Scheme returns_mutind from returns_ind', returns_all_ind'.

(** A call has one outcome. *)
Definition one_outcome (digest : string) (live : liveSet) (err : option DockerError) (live' : liveSet) : Prop :=
  forall err2 live2, returns digest live err2 live2 -> err2 = err /\ live2 = live'.

Lemma returns_once :
  (forall digest live e live', returns digest live e live' -> one_outcome digest live e live') /\
  (forall l live live', returns_all l live live' -> forall live2, returns_all l live live2 -> live2 = live').
Proof.
  apply returns_mutind; unfold one_outcome.
  all: intros.
  all: match goal with
       | H : returns ?d _ ?e _ |- ?e = _ /\ _ => inversion H; subst; simplify_eq
       | H : returns_all _ _ ?l |- ?l = _ => inversion H; subst
       end.
  all: try (split; congruence || naive_solver).
  - assert (dgst0 = dgst) as -> by congruence. assert (rec0 = rec) as -> by congruence.
    assert (parsed0 = parsed) as -> by congruence. auto.
  - match goal with IH : forall _ _, returns _ _ _ _ -> _ , H : returns_all _ _ ?l |- ?l = _ =>
      destruct (IH e0 live4) as [-> ->]; [done|]; auto end.
Qed.

Lemma returns_loop fuel l : forall live,
  (forall live' d, grows live live' -> d ∈ l ->
     returns d live' (markManifestRecursive fuel s name d live').1 (markManifestRecursive fuel s name d live').2 /\
     grows live' (markManifestRecursive fuel s name d live').2) ->
  returns_all l live (foldl (fun live d => (markManifestRecursive fuel s name d live).2) live l).
Proof.
  induction l as [|x l IH]; intros live H; cbn [foldl]; [constructor|].
  destruct (H live x) as [Hr Hg]; [done|apply list_elem_of_here|]. econstructor; [exact Hr|]. apply IH.
  intros live' d Hl Hd. apply H; [by etrans|by apply list_elem_of_further].
Qed.

Lemma mark_returns fuel : forall digest live, (need s name live digest < fuel)%nat ->
  returns digest live (markManifestRecursive fuel s name digest live).1 (markManifestRecursive fuel s name digest live).2.
Proof.
  induction fuel as [|fuel IH]; intros digest live Hfuel; [lia|]. cbn [markManifestRecursive].
  destruct (hasManifest live name digest) eqn:Hm; [by constructor|].
  destruct (ParseDigest digest) as [dgst|e] eqn:Hd; [|by constructor].
  destruct (ReadManifest s name dgst) as [rec|e] eqn:Hr; [|by eapply returns_unread].
  destruct (UnmarshalMap (Body rec)) as [parsed|] eqn:Hu; [|by eapply returns_opaque].
  cbn [fst snd]. rewrite <-foldl_app. eapply returns_refs; [done..|]. apply returns_loop. intros live' d Hg Hin.
  assert (Hn : (need s name live' d < fuel)%nat).
  { assert (need s name live' d < need s name live digest)%nat; [|lia]. eapply need_refs; [done..| |done].
    etrans; [|exact Hg]. etrans; [apply grows_addBlob|]. apply addBlobs_spec. }
  split; [by apply IH|by apply mark_spec].
Qed.

End termination.

(** ** Property *)

(** C32: marking ends, on cyclic manifests too: over a mount whose contents can be
    enumerated, the code's recursion from any digest and live set, without a bound
    on its depth, returns, with one outcome, and that is what [mark] computes with
    the fuel of one more than the references of the whole store. *)
Theorem mark_terminates {F B} `{RawFSLaws F} `{BlobStore B} (s : Store F B) name live digest :
  let '(err, live') := mark s name live digest in
  returns s name digest live err live' /\
  forall err2 live2, returns s name digest live err2 live2 -> err2 = err /\ live2 = live'.
Proof.
  pose proof (mark_returns s name (gcFuel s) digest live (need_gcFuel _ _ _ _)) as Hr.
  unfold mark. destruct (markManifestRecursive _ _ _ _ _) as [err live']. split; [done|].
  intros err2 live2. by apply (proj1 (returns_once s name)).
Qed.
