(* ===== verification/DockerGCSafety.v ===== *)
(** * What a garbage collection keeps and what it loses

    The sweep lemmas and the theorems about [runGC] of DockerGC.v, with the
    examples on the object store and the in-memory blob store. *)

From Stdlib Require Import ZArith Lia Ascii.
From stdpp Require Import base list strings gmap relations.
From S2P Require Import Prelude GoStrings GoPath GoHash GoJson BlobStore RawFS DockerStore DockerGC.

Local Open Scope Z_scope.

Section sweep.
Context {F B : Type} {HF : RawFS F} {HFL : RawFSLaws F} {HB : BlobStore B} {HBL : BlobStoreLaws B}.

Implicit Types (s : Store F B) (live : liveSet).

(** ** Repository names *)

Lemma walkRepos_good fuel : forall f dir prefix out,
  prefix = "" \/ good_path prefix -> walkRepos fuel f dir prefix = Ok out -> Forall good_path out.
Proof.
  induction fuel as [|fuel IH]; intros f dir prefix out Hp; [done|]. cbn [walkRepos].
  destruct (ReadDir f dir) as [entries|] eqn:E; [|done]. intros [= <-].
  apply Forall_forall. intros x (e & Hx & He)%list_elem_of_bind.
  destruct (IsDir e); [|by apply elem_of_nil in Hx]. cbn [negb] in Hx.
  assert (Hn : good_path (if String.eqb prefix "" then Name e else prefix +:+ "/" +:+ Name e)).
  { pose proof (good_seg_path _ (ReadDir_names f dir entries e E He)) as Hg.
    destruct (String.eqb_spec prefix "") as [->|Hne]; [done|].
    destruct Hp as [?|Hp]; [done|by apply good_path_app]. }
  set (name := if String.eqb prefix "" then _ else _) in *.
  destruct (is_ok _); [by apply list_elem_of_singleton in Hx as ->|].
  destruct (is_ok _); [by apply list_elem_of_singleton in Hx as ->|].
  destruct (walkRepos fuel f _ name) as [sub|] eqn:Es; [|by apply elem_of_nil in Hx].
  eapply Forall_forall in Hx; [exact Hx|]. eapply IH; [|exact Es]. by right.
Qed.

Lemma ListRepositories_good s repos : ListRepositories s = Ok repos -> Forall good_path repos.
Proof.
  unfold ListRepositories. destruct (walkRepos _ _ _ _) as [out|e] eqn:E.
  - intros [= <-]. unfold sortStrings. rewrite SliceStable_perm.
    by apply walkRepos_good in E; [|left].
  - destruct (isNotFound e); [intros [= <-]; constructor|done].
Qed.

(** ** Sweeping blobs *)

Lemma sweepBlob_spec live opt now (b : B) st d info : admissible b -> normal d ->
  let '(b', _) := sweepBlob live opt now b st d info in
  admissible b' /\ forall d', normal d' -> DigestString d' ∈ lBlobs live -> Get b' d' = Get b d'.
Proof.
  intros Hb Hn. unfold sweepBlob. destruct (hasBlob live (DigestString d)) eqn:Hl; [done|].
  destruct (young _ _ _); [done|]. destruct (DryRun opt); [done|].
  destruct (Delete b d) as [b'|e] eqn:E; [|done].
  split; [by eapply (Delete_admissible b d)|]. intros d' Hn' Hd'. eapply Delete_other; [exact Hb|exact Hn|exact Hn'|exact E|].
  intros ->. unfold hasBlob in Hl. by bool_prop.
Qed.

Lemma sweepBlobs_spec ctx live opt now l : Forall normal l.*1 -> forall i (b : B) st, admissible b ->
  let '(b', _) := sweepBlobs ctx i live opt now b st l in
  admissible b' /\ forall d', normal d' -> DigestString d' ∈ lBlobs live -> Get b' d' = Get b d'.
Proof.
  induction l as [|[d info] l IH]; intros Hl i b st Hb; [done|]. inversion_clear Hl as [|? ? Hd Hl']. cbn [sweepBlobs].
  destruct (ctx i) as [[]|]; [done|done|].
  pose proof (sweepBlob_spec live opt now b st d info Hb Hd) as Hs.
  destruct (sweepBlob _ _ _ _ _ _ _) as [b1 st1]. destruct Hs as [Hb1 Hs].
  specialize (IH Hl' (S i) b1 st1 Hb1). destruct (sweepBlobs _ _ _ _ _ b1 st1 l) as [b2 st2].
  destruct IH as [Hb2 IH]. split; [done|]. intros d' Hn' Hd'. by rewrite IH, Hs.
Qed.

(** ** Sweeping manifests *)

(** The files the sweep must leave alone: the manifest of a live digest and
    its sidecar. *)
Definition kept s live (p : string) : Prop :=
  exists name d, good_path name /\ ParseDigest (DigestString d) = Ok d /\
    (name, DigestString d) ∈ lManifests live /\
    (p = manifestPath s name d \/ p = manifestPath s name d +:+ ".media").

Lemma kept_path s live p : good_base s -> kept s live p ->
  exists name digest x, good_path name /\ (name, digest) ∈ lManifests live /\
    (x = digest +:+ ".json" \/ x = digest +:+ ".json.media") /\ no_byte "/" x = true /\
    p = repoDir s name +:+ "/" +:+ "manifests" +:+ "/" +:+ x.
Proof.
  intros Hb (name & d & Hn & Hd & Hl & Hp). pose proof (DigestString_good d Hd) as Hg.
  assert (Hx : good_seg (DigestString d +:+ ".json")) by (apply good_seg_suffix; [done|done|cbn; lia]).
  assert (Em : manifestPath s name d
    = repoDir s name +:+ "/" +:+ "manifests" +:+ "/" +:+ (DigestString d +:+ ".json")).
  { by apply repo_file. }
  destruct Hg as (_ & _ & _ & Hg).
  destruct Hp as [-> | ->].
  - exists name, (DigestString d), (DigestString d +:+ ".json").
    rewrite no_byte_app, Hg. split_and!; try done. by left.
  - exists name, (DigestString d), (DigestString d +:+ ".json.media").
    rewrite no_byte_app, Hg. split_and!; try done; [by right|]. rewrite Em.
    by rewrite !str_app_assoc.
Qed.

(** Neither a swept manifest file nor its sidecar is a kept file. *)
Lemma swept_not_kept s live name e p : good_base s -> good_path name -> good_seg (Name e) ->
  HasSuffix (Name e) ".json" = true ->
  hasManifest live name (TrimSuffix (Name e) ".json") = false -> kept s live p ->
  p <> PathJoin [manifestsDir s name; Name e] /\
  p <> PathJoin [manifestsDir s name; Name e +:+ ".media"].
Proof.
  intros Hb Hn He Hsuf Hl Hk. apply HasSuffix_spec in Hsuf as [t Ht]. rewrite Ht in *.
  rewrite TrimSuffix_app in Hl. unfold hasManifest in Hl. bool_prop.
  destruct (kept_path s live p Hb Hk) as (n' & dig & x & Hn' & Hin & Hx & Hsl & ->).
  assert (Hdir : manifestsDir s name = repoDir s name +:+ "/" +:+ "manifests" /\
    good_path (manifestsDir s name)).
  { pose proof (proj2 (repoDir_good s name Hb Hn)).
    assert (good_seg "manifests") by (by apply (bool_decide_unpack _); vm_compute).
    unfold manifestsDir. rewrite PathJoin_good; [|done|repeat constructor; eauto with kutu].
    rewrite Join_cons. split; [done|]. apply good_path_app; eauto with kutu. }
  destruct Hdir as [Ed Hd].
  assert (Hpath : forall y, good_seg y -> PathJoin [manifestsDir s name; y]
    = repoDir s name +:+ "/" +:+ "manifests" +:+ "/" +:+ y).
  { intros y Hy. rewrite PathJoin_good; [|done|repeat constructor; eauto with kutu].
    rewrite Join_cons, Ed. by rewrite !str_app_assoc. }
  assert (He' : good_seg ((t +:+ ".json") +:+ ".media"))
    by (apply good_seg_suffix; [done|done|cbn; lia]).
  rewrite !Hpath by done. destruct He as (_ & _ & _ & He). destruct He' as (_ & _ & _ & He').
  split; intros E; apply repo_file_inj in E as (-> & _ & E); try done;
    destruct Hx as [-> | ->].
  - apply app_suffix_inj in E as ->. done.
  - change ".json.media" with (".json" +:+ ".media") in E. rewrite <-str_app_assoc in E.
    by apply eq_sym, suffix_clash in E.
  - by apply suffix_clash in E.
  - change ".json.media" with (".json" +:+ ".media") in E. rewrite <-str_app_assoc in E.
    apply app_suffix_inj, app_suffix_inj in E as ->. done.
Qed.

Lemma remove_quietly_other (f : F) p q : q <> p -> Open (remove_quietly f p) q = Open f q.
Proof.
  intros Hne. unfold remove_quietly. destruct (Remove f p) as [f'|] eqn:E; [|done].
  by eapply Remove_other.
Qed.

Lemma sweepManifest_spec s live opt now name acc e p : good_base s -> good_path name ->
  good_seg (Name e) -> kept s live p ->
  Open (sweepManifest (manifestsDir s name) name live opt now acc e).1.1 p = Open acc.1.1 p.
Proof.
  intros Hb Hn He Hk. destruct acc as [[f count] errs]. unfold sweepManifest.
  destruct (IsDir e || _); [done|]. destruct (HasSuffix (Name e) ".json") eqn:Hsuf; [|done].
  cbn [negb]. destruct (hasManifest _ _ _) eqn:Hl; [done|]. destruct (young _ _ _); [done|].
  destruct (DryRun opt); [done|]. destruct (Remove f _) as [f'|] eqn:Er; [|done]. cbn [fst].
  destruct (swept_not_kept s live name e p Hb Hn He Hsuf Hl Hk) as [H1 H2].
  rewrite remove_quietly_other by done. by eapply Remove_other.
Qed.

Lemma sweepManifests_spec s live opt now name entries p : good_base s -> good_path name ->
  Forall (fun e => good_seg (Name e)) entries -> kept s live p -> forall acc,
  Open (foldl (sweepManifest (manifestsDir s name) name live opt now) acc entries).1.1 p
  = Open acc.1.1 p.
Proof.
  intros Hb Hn Hes Hk. induction Hes as [|e entries He _ IH]; intros acc; [done|].
  cbn [foldl]. by rewrite IH, sweepManifest_spec.
Qed.

(** Paths only depend on the base path. *)
Lemma sweepRepos_spec live opt now repos p : Forall good_path repos -> forall s st,
  good_base s -> kept s live p ->
  let '(s', _) := sweepRepos live opt now (s, st) repos in
  basePath s' = basePath s /\ blobs s' = blobs s /\ Open (fs s') p = Open (fs s) p.
Proof.
  intros Hg. induction Hg as [|name repos Hn _ IH]; intros s st Hb Hk; [done|].
  unfold sweepRepos in *. cbn [foldl]. unfold sweepUnreferencedManifests.
  destruct (ReadDir (fs s) (manifestsDir s name)) as [entries|] eqn:E.
  2:{ by apply IH. }
  assert (Hes : Forall (fun e => good_seg (Name e)) entries).
  { apply Forall_forall. intros e He. by eapply ReadDir_names. }
  pose proof (sweepManifests_spec s live opt now name entries p Hb Hn Hes Hk (fs s, O, [])) as Hs.
  destruct (foldl _ (fs s, O, []) entries) as [[f count] errs]. cbn [fst] in Hs.
  specialize (IH (with_fs s f) (add_manifests st count errs) Hb Hk).
  destruct (foldl _ (with_fs s f, _) repos) as [s' st']. destruct IH as (-> & -> & ->). done.
Qed.

Lemma pruneUploads_spec opt s st : admissible (blobs s) ->
  let '(s', _) := pruneUploads opt (s, st) in
  basePath s' = basePath s /\ fs s' = fs s /\ forall d, normal d -> Get (blobs s') d = Get (blobs s) d.
Proof.
  intros Ha. unfold pruneUploads. destruct (0 <? _); [|done].
  destruct PruneAbandonedUploads as [prune|] eqn:E; [|done].
  pose proof (Prune_Get prune (blobs s) (AbandonedUploadMaxAge opt) (DryRun opt)) as Hp.
  destruct (prune _ _ _) as [[[n bytes] err] b]. cbn in Hp. split_and!; [done|done|].
  intros d Hd. by apply Hp.
Qed.

(** ** The pass *)

Lemma runGC_keeps ctx now s opt err stats s' :
  good_base s -> admissible (blobs s) -> runGC ctx now s opt = (err, stats, s') ->
  forall repos name root d b, ListRepositories s = Ok repos -> name ∈ repos ->
    tagged s name root -> rtc (refers s name) root (DigestString d) ->
    ParseDigest (DigestString d) = Ok d ->
    ReadManifest s' name d = ReadManifest s name d /\
    (uses s name (DigestString d) (DigestString b) \/ b = d -> normal b ->
     Get (blobs s') b = Get (blobs s) b).
Proof.
  intros Hb Ha Hrun repos name root d b Hrepos Hname Htag Hreach Hd. unfold runGC in Hrun.
  destruct (writable (fs s)); cbn [negb] in Hrun; [|by injection Hrun as <- <- <-].
  rewrite Hrepos in Hrun. cbv zeta in Hrun.
  destruct (markRepos ctx s 0 repos (newLiveSet, [])) as [[e|] [live errs]] eqn:Hm;
    [by injection Hrun as <- <- <-|].
  assert (Hlive : (name, DigestString d) ∈ lManifests live /\ closed s name live (DigestString d)).
  { refine (markRepos_spec ctx s repos 0 [] newLiveSet [] live errs _ _ Hm name _ root _ Htag Hreach).
    - intros n x Hx. cbn in Hx. set_solver.
    - by intros n ?%elem_of_nil.
    - by right. }
  destruct Hlive as [Hman (Hself & _ & Huses)].
  assert (Hnl : Forall normal (ListBlobs (blobs s)).*1).
  { apply Forall_forall. intros x ([x' info] & -> & Hx)%list_elem_of_fmap. by eapply List_parsed. }
  pose proof (sweepBlobs_spec ctx live opt now (ListBlobs (blobs s)) Hnl (length repos) (blobs s)
    {| MarkedBlobs := size (lBlobs live); SweptBlobs := 0; SweptBytes := 0; SweptManifests := 0;
       SkippedYoung := 0; AbandonedUploadsRemoved := 0; AbandonedUploadsBytes := 0;
       StatsDryRun := DryRun opt; Errors := errs |} Ha) as Hsb.
  destruct (sweepBlobs _ _ _ _ _ _ _ _) as [b1 st1]. destruct Hsb as [Ha1 Hsb].
  assert (Hg : Forall good_path repos) by (by eapply ListRepositories_good).
  assert (Hngood : good_path name) by (by eapply Forall_forall in Hg).
  assert (Hopen : forall p, p = manifestPath s name d \/ p = manifestPath s name d +:+ ".media" ->
    let '(s2, _) := sweepRepos live opt now (with_blobs s b1, st1) repos in
    basePath s2 = basePath s /\ blobs s2 = b1 /\ Open (fs s2) p = Open (fs s) p).
  { intros p Hp. apply (sweepRepos_spec live opt now repos p Hg (with_blobs s b1) st1 Hb).
    by exists name, d. }
  destruct (sweepRepos _ _ _ _ _) as [s2 st2].
  destruct (Hopen _ (or_introl eq_refl)) as (Hbase2 & Hblobs & Ho1).
  pose proof (pruneUploads_spec opt s2 st2) as Hpr. rewrite Hblobs in Hpr. specialize (Hpr Ha1).
  destruct (pruneUploads opt (s2, st2)) as [s3 st3].
  injection Hrun as <- <- <-. destruct Hpr as (Hbase & Hfs & Hget).
  destruct (Hopen _ (or_intror eq_refl)) as (_ & _ & Ho2). split.
  - assert (Hpath : manifestPath s3 name d = manifestPath s name d).
    { unfold manifestPath, repoDir, join. by rewrite Hbase, Hbase2. }
    unfold ReadManifest. by rewrite Hpath, Hfs, Ho1, Ho2.
  - intros Hu Hn. rewrite Hget by done. apply Hsb; [done|]. destruct Hu as [Hu| ->]; [by apply Huses|].
    apply Hself. by rewrite Hd.
Qed.

End sweep.

(** ** Examples: stores built by pushes *)

Definition DStore := Store ObjectStore MemBlobStore.

Definition emptyStore : DStore :=
  NewStore {| files := ∅; faulty := ∅; now := 1000 |} NewMemBlobStore "/docker/".

Definition sha (x : string) : Digest := DigestFromHash "sha256" (Sum256 x).
Definition sha_of (x : string) : string := DigestString (sha x).

(** A finished upload of [x]. *)
Definition push_blob (s : DStore) (x : string) : DStore :=
  let m := DockerStore.blobs s in
  match writeAll "u" [x] (memStartUpload "u" m) with
  | Ok m => with_blobs s (snd (sessionCommit "u" (sha x) 1000 m))
  | Err _ => s
  end.

(** JSON with single quotes. *)
Definition json (s : string) : string := ReplaceByte s "'" (chr 34).

Definition image (config layer : string) : string :=
  json ("{'config':{'digest':'" +:+ sha_of config +:+ "'},'layers':[{'digest':'"
        +:+ sha_of layer +:+ "'}]}").

Definition signature_of (subject layer : string) : string :=
  json ("{'layers':[{'digest':'" +:+ sha_of layer +:+ "'}],'subject':{'digest':'"
        +:+ sha_of subject +:+ "'}}").

Definition push_manifest (s : DStore) (name body : string) : DStore :=
  match WriteManifest s name (sha body) body "application/json" with Ok s => s | Err _ => s end.

Definition tag (s : DStore) (name t body : string) : DStore :=
  match SetTag s name t (sha body) with Ok s => s | Err _ => s end.

Definition refer (s : DStore) (name subject body : string) : DStore :=
  match AddReferrer s name (sha_of subject)
          {| MediaType := ""; ArtifactType := ""; dDigest := sha_of body; dSize := 0;
             Annotations := [] |} with
  | Ok s => s | Err _ => s end.

Definition push_image (s : DStore) (name t config layer : string) : DStore :=
  tag (push_manifest (push_blob (push_blob s config) layer) name (image config layer))
      name t (image config layer).

Definition never (n : nat) : option CtxError := None.
Definition collect : GCOptions := {| MinAge := 3600; AbandonedUploadMaxAge := 86400; DryRun := false |}.

Definition has_blob (s : DStore) (x : string) : bool := is_ok (Get (DockerStore.blobs s) (sha x)).
Definition has_manifest (s : DStore) (name body : string) : bool :=
  is_ok (ReadManifest s name (sha body)).

Definition after_gc (s : DStore) : DStore := (runGC never 10000 s collect).2.

Lemma writeAll_ok id chunks m m' : mem_ok m -> writeAll id chunks m = Ok m' -> mem_ok m'.
Proof.
  revert m. induction chunks as [|p chunks IH]; intros m Hm; cbn [writeAll]; [by intros [= <-]|].
  destruct (sessionWrite id p m) as [m1|] eqn:E; [|done]. apply IH.
  eapply mem_step_ok; [done|by eapply ms_write].
Qed.

Lemma push_blob_ok s x : mem_ok (blobs s) -> mem_ok (blobs (push_blob s x)).
Proof.
  intros Hm. unfold push_blob. destruct (writeAll _ _ _) as [m|] eqn:E; [|done].
  cbn [blobs with_blobs]. eapply mem_step_ok; [|apply ms_commit].
  eapply writeAll_ok; [|exact E]. eapply mem_step_ok; [exact Hm|apply ms_start].
Qed.

Lemma write_file_blobs (s s' : DStore) p c : write_file s p c = Ok s' -> blobs s' = blobs s.
Proof. unfold write_file. case_match; [done|]. case_match; [|done]. by intros [= <-]. Qed.

Lemma push_manifest_blobs s name body : blobs (push_manifest s name body) = blobs s.
Proof.
  unfold push_manifest, WriteManifest. destruct (write_file s _ body) as [s1|] eqn:E1; [|done].
  apply write_file_blobs in E1 as <-.
  destruct (write_file s1 _ _) as [s2|] eqn:E2; [|done]. by apply write_file_blobs in E2.
Qed.

Lemma tag_blobs s name t body : blobs (tag s name t body) = blobs s.
Proof.
  unfold tag, SetTag. destruct (write_file s _ _) as [s1|] eqn:E1; [|done].
  by apply write_file_blobs in E1.
Qed.

Lemma push_image_ok s name t config layer : mem_ok (blobs s) ->
  mem_ok (blobs (push_image s name t config layer)).
Proof.
  intros Hm. unfold push_image. rewrite tag_blobs, push_manifest_blobs.
  by apply push_blob_ok, push_blob_ok.
Qed.

Definition one_image : DStore := push_image emptyStore "app" "v1" "cfg" "layer".

(** [root] is tagged and reaches the manifest of [d]. *)
Definition tag_needs {F B} `{RawFS F} (s : Store F B) (name root : string) (d : Digest) : Prop :=
  tagged s name root /\ rtc (refers s name) root (DigestString d) /\
  ParseDigest (DigestString d) = Ok d.

(** ** Properties *)



(** ** Dry runs *)

Section dry_run.
Context {F B : Type} {HF : RawFS F} {HB : BlobStore B} {HBL : BlobStoreLaws B}.
Variable opt : GCOptions.
Hypothesis Hdry : DryRun opt = true.

Implicit Types (s : Store F B) (live : liveSet).

Lemma sweepBlobs_dry ctx live now l : forall i (b : B) st,
  (sweepBlobs ctx i live opt now b st l).1 = b.
Proof.
  induction l as [|[d info] l IH]; intros i b st; [done|]. cbn [sweepBlobs].
  destruct (ctx i) as [[]|]; [done|done|]. unfold sweepBlob.
  destruct (hasBlob _ _); [apply IH|]. destruct (young _ _ _); [apply IH|].
  rewrite Hdry. apply IH.
Qed.

Lemma sweepManifests_dry dir name live now es : forall acc : F * nat * list GCError,
  (foldl (sweepManifest dir name live opt now) acc es).1.1 = acc.1.1.
Proof.
  induction es as [|e es IH]; intros acc; [done|]. cbn [foldl]. rewrite IH.
  destruct acc as [[f c] er]. unfold sweepManifest. rewrite Hdry.
  destruct (_ || _); [done|]. destruct (negb _); [done|]. destruct (hasManifest _ _ _); [done|].
  by destruct (young _ _ _).
Qed.

Lemma sweepRepos_dry live now repos : forall s st, (sweepRepos live opt now (s, st) repos).1 = s.
Proof.
  induction repos as [|name repos IH]; intros s st; [done|]. unfold sweepRepos in *. cbn [foldl].
  unfold sweepUnreferencedManifests. destruct (ReadDir _ _) as [es|]; [|apply IH].
  pose proof (sweepManifests_dry (manifestsDir s name) name live now es (fs s, O, [])) as Hes.
  destruct (foldl _ (fs s, O, []) es) as [[f c] er]. cbn in Hes. rewrite Hes.
  replace (with_fs s (fs s)) with s by (by destruct s). apply IH.
Qed.

Lemma pruneUploads_dry s st : (pruneUploads opt (s, st)).1 = s.
Proof.
  unfold pruneUploads. destruct (0 <? _); [|done].
  destruct PruneAbandonedUploads as [prune|] eqn:Ep; [|done].
  pose proof (Prune_dry prune (blobs s) (AbandonedUploadMaxAge opt) Ep) as Hp. rewrite Hdry.
  destruct (prune _ _ _) as [[[n bytes] er] b]. cbn in Hp |- *. rewrite Hp. by destruct s.
Qed.

Lemma runGC_dry ctx now s : (runGC ctx now s opt).2 = s.
Proof.
  unfold runGC. destruct (writable (fs s)); cbn [negb]; [|done].
  destruct (ListRepositories s) as [repos|]; [|done]. cbv zeta.
  destruct (markRepos _ _ _ _ _) as [[e|] [live errs]]; [done|].
  match goal with |- context [sweepBlobs ctx ?i live opt now (blobs s) ?st ?l] =>
    pose proof (sweepBlobs_dry ctx live now l i (blobs s) st) as Hb;
    destruct (sweepBlobs ctx i live opt now (blobs s) st l) as [b st1] end.
  cbn in Hb. subst b. replace (with_blobs s (blobs s)) with s by (by destruct s).
  pose proof (sweepRepos_dry live now repos s st1) as Hr.
  destruct (sweepRepos _ _ _ _ _) as [s2 st2]. cbn in Hr. subst s2.
  pose proof (pruneUploads_dry s st2) as Hp. by destruct (pruneUploads _ _) as [s3 st3].
Qed.

End dry_run.

(** ** Repositories below a repository *)

Section nested.
Context {F : Type} {HF : RawFS F} {HFL : RawFSLaws F}.

(** The directory of the tags of a repository is there. *)
Definition has_tags {B} (s : Store F B) (name : string) : Prop :=
  is_ok (Stat (fs s) (PathJoin [repoDir s name; "tags"])) = true.

Definition under (prefix : string) : string :=
  if String.eqb prefix "" then "" else prefix +:+ "/".

Lemma under_name prefix n :
  (if String.eqb prefix "" then n else prefix +:+ "/" +:+ n) = under prefix +:+ n.
Proof. unfold under. destruct (String.eqb prefix ""); [done|]. by rewrite str_app_assoc. Qed.

Lemma under_nonempty p n : p <> "" -> under p +:+ n = p +:+ "/" +:+ n.
Proof. intros Hp%String.eqb_neq. unfold under. rewrite Hp. by rewrite str_app_assoc. Qed.

(** The results of a walk: an entry itself, or a path below an entry that has
    no "tags". *)
Lemma walkRepos_inv fuel (f : F) dir prefix out x : good_path dir ->
  walkRepos (S fuel) f dir prefix = Ok out -> x ∈ out ->
  exists e, good_seg e /\
    (x = under prefix +:+ e \/
     is_ok (Stat f (dir +:+ "/" +:+ e +:+ "/tags")) = false /\
     exists sub, walkRepos fuel f (dir +:+ "/" +:+ e) (under prefix +:+ e) = Ok sub /\ x ∈ sub).
Proof.
  intros Hd. cbn [walkRepos]. destruct (ReadDir f dir) as [entries|] eqn:E; [|done].
  intros [= <-] (e & Hx & He)%list_elem_of_bind. exists (Name e).
  pose proof (ReadDir_names f dir entries e E He) as Hg. split; [done|].
  destruct (IsDir e); [|by apply elem_of_nil in Hx]. cbn [negb] in Hx.
  rewrite under_name in Hx.
  assert (good_seg "tags") by (by apply (bool_decide_unpack _); vm_compute).
  assert (Et : PathJoin [dir; Name e; "tags"] = dir +:+ "/" +:+ Name e +:+ "/tags")
    by (rewrite PathJoin_good; [done|done|repeat constructor; eauto with kutu]).
  assert (Es : PathJoin [dir; Name e] = dir +:+ "/" +:+ Name e)
    by (rewrite PathJoin_good; [done|done|repeat constructor; eauto with kutu]).
  rewrite Et, Es in Hx.
  destruct (is_ok (Stat f (dir +:+ _))); [left; by apply list_elem_of_singleton in Hx|].
  destruct (is_ok _); [left; by apply list_elem_of_singleton in Hx|].
  right. split; [done|]. destruct (walkRepos fuel f _ _) as [sub|]; [eauto|].
  by apply elem_of_nil in Hx.
Qed.

Lemma walkRepos_under fuel : forall (f : F) dir prefix out x, good_path dir ->
  walkRepos fuel f dir prefix = Ok out -> x ∈ out -> exists y, x = under prefix +:+ y.
Proof.
  induction fuel as [|fuel IH]; intros f dir prefix out x Hd Hw Hx; [done|].
  destruct (walkRepos_inv fuel f dir prefix out x Hd Hw Hx)
    as (e & He & [->|(_ & sub & Hs & Hxs)]); [eauto|].
  destruct (IH f _ _ sub x (good_path_app dir e Hd (good_seg_path e He)) Hs Hxs) as [y ->].
  rewrite under_nonempty.
  - rewrite str_app_assoc. eauto.
  - intros E. apply (f_equal len) in E. rewrite len_app in E. destruct He as [He _].
    destruct e; [done|]. cbn in E. lia.
Qed.

Lemma walkRepos_no_nested fuel : forall (f : F) dir prefix out x n rest, good_path dir ->
  walkRepos fuel f dir prefix = Ok out -> x ∈ out ->
  x = under prefix +:+ n +:+ "/" +:+ rest ->
  is_ok (Stat f (dir +:+ "/" +:+ n +:+ "/tags")) = false.
Proof.
  induction fuel as [|fuel IH]; intros f dir prefix out x n rest Hd Hw Hx Ex; [done|].
  destruct (walkRepos_inv fuel f dir prefix out x Hd Hw Hx) as (e & He & Hcase).
  pose proof He as (Hne & _ & _ & Hsl).
  destruct Hcase as [->|(Ht & sub & Hs & Hxs)].
  { apply str_app_inj_l in Ex. rewrite Ex, !no_byte_app in Hsl. bool_prop. done. }
  pose proof (good_path_app dir e Hd (good_seg_path e He)) as Hde.
  destruct (walkRepos_under fuel f _ _ sub x Hde Hs Hxs) as [y Ey].
  assert (Hpne : under prefix +:+ e <> "").
  { intros E. apply (f_equal len) in E. rewrite len_app in E. destruct e; [done|]. cbn in E. lia. }
  rewrite (under_nonempty _ _ Hpne), str_app_assoc in Ey. rewrite Ey in Ex.
  apply str_app_inj_l in Ex. change ("/" +:+ y) with (String "/" y) in Ex.
  destruct (IndexByte n "/") as [i|] eqn:Ei.
  - destruct (IndexByte_Some _ _ _ Ei) as [En Hn0]. set (a := str_take i n) in *.
    set (n2 := str_drop (i + 1) n) in *. rewrite En in Ex |- *.
    rewrite str_app_assoc, app_cons in Ex.
    apply no_byte_cut in Ex as [<- Ey2]; [|done..].
    match goal with |- is_ok (Stat _ ?p) = _ =>
      replace p with ((dir +:+ "/" +:+ e) +:+ "/" +:+ n2 +:+ "/tags")
        by (by rewrite !str_app_assoc) end.
    eapply (IH f _ _ sub x n2 rest Hde Hs Hxs).
    rewrite under_nonempty, Ey, !str_app_assoc, Ey2 by done. done.
  - apply IndexByte_None in Ei. apply no_byte_cut in Ex as [<- _]; done.
Qed.

End nested.

(** a repository whose name extends the name of another one that has tags is
    not listed: the walk does not enter a directory with "tags".  The catalog
    does not show it and garbage collection does not mark it. *)
Theorem ListRepositories_skips_nested {F B} `{RawFSLaws F} (s : Store F B) name rest repos :
  good_base s -> good_path name -> has_tags s name ->
  ListRepositories s = Ok repos -> name +:+ "/" +:+ rest ∉ repos.
Proof.
  intros Hb Hn Ht Hr Hin. unfold ListRepositories in Hr. unfold has_tags in Ht.
  assert (Hroot : join s ["repositories"] = prefix s +:+ "repositories" /\
    good_path (join s ["repositories"])).
  { apply join_good; [done|done|]. by apply (bool_decide_unpack _); vm_compute. }
  destruct Hroot as [Er Hg].
  destruct (walkRepos _ _ _ _) as [out|e] eqn:E.
  2:{ destruct (isNotFound e); [|done]. injection Hr as <-. by apply elem_of_nil in Hin. }
  injection Hr as <-. unfold sortStrings in Hin. rewrite SliceStable_perm in Hin.
  pose proof (walkRepos_no_nested _ _ _ _ _ _ name rest Hg E Hin eq_refl) as Hno.
  destruct (repoDir_good s name Hb Hn) as [Ed Hgd].
  assert (good_seg "tags") by (by apply (bool_decide_unpack _); vm_compute).
  rewrite PathJoin_good in Ht by (first [done | repeat constructor; eauto with kutu]).
  rewrite Join_cons, Ed in Ht. rewrite Er in Hno.
  match type of Ht with is_ok (Stat _ ?p) = _ => match type of Hno with is_ok (Stat _ ?q) = _ =>
    replace p with q in Ht by (by rewrite !str_app_assoc) end end.
  congruence.
Qed.

(** Two images: "team" and, below it, "team/app". *)
Definition nested_images : DStore :=
  push_image (push_image emptyStore "team" "v1" "c1" "l1") "team/app" "v1" "c2" "l2".

Lemma ListRepositories_skips_nested_witness : "team" +:+ "/" +:+ "app" ∉ ["team"].
Proof.
  apply (ListRepositories_skips_nested nested_images "team" "app" ["team"]).
  - right. by apply (bool_decide_unpack _); vm_compute.
  - by apply (bool_decide_unpack _); vm_compute.
  - by vm_compute.
  - by vm_compute.
Defined.

(** a collection destroys a tagged image: the layer of "team/app" is deleted
    although its tag, its manifest and the blob were all there, because "team"
    hides the repository from the walk. *)
Theorem gc_loses_nested_image :
  let s := nested_images in
  let s' := after_gc s in
  has_blob s "l2" = true /\ ReadTag s' "team/app" "v1" = Ok (sha (image "c2" "l2")) /\
  has_manifest s' "team/app" (image "c2" "l2") = true /\ has_blob s' "l2" = false /\
  has_blob s' "l1" = true.
Proof. by vm_compute. Qed.

(** An image with a signature that refers to it. *)
Definition signed_image : DStore :=
  let im := image "c1" "l1" in
  let sg := signature_of im "sig" in
  refer (push_manifest (push_blob (push_image emptyStore "app" "v1" "c1" "l1") "sig") "app" sg)
        "app" im sg.

(** a collection destroys the signature of a tagged image: the referrer's
    manifest is kept, but it is put in the live set before it is walked, so its
    layer is not marked and is deleted. *)
Theorem gc_loses_referrer_blobs :
  let s := signed_image in
  let s' := after_gc s in
  let sg := signature_of (image "c1" "l1") "sig" in
  has_blob s "sig" = true /\ has_manifest s' "app" sg = true /\ has_blob s' "sig" = false /\
  has_blob s' "l1" = true.
Proof. by vm_compute. Qed.

(** The tag file of [one_image] cannot be read. *)
Definition unreadable_tag : DStore :=
  with_fs one_image {| files := files (fs one_image);
                       faulty := {[ tagPath one_image "app" "v1" ]}; now := 1000 |}.

(** a tag that cannot be read at the moment does not stop the pass: it is
    noted among the errors, and its manifest and blobs are deleted. *)
Theorem gc_loses_unreadable_tag :
  let '(err, stats, s') := runGC never 10000 unreadable_tag collect in
  err = None /\
  Errors <$> stats = Some [ReadTagFailed "app" "v1" (ErrBackend "i/o timeout")] /\
  has_blob s' "layer" = false /\ has_manifest s' "app" (image "cfg" "layer") = false.
Proof. by vm_compute. Qed.

(** An image that names its layer in upper-case hexadecimal. *)
Definition upper_image : string :=
  json ("{'layers':[{'digest':'sha256:" +:+ ToUpper (Hex (sha "layer")) +:+ "'}]}").

(** [ParseDigest] accepts upper-case hexadecimal, so such a reference names
    a stored blob, but the live set holds the text of the reference and the
    sweep looks for the digest in normal form: the layer is deleted. *)
Theorem gc_loses_uppercase_reference :
  let s := tag (push_manifest (push_blob emptyStore "layer") "app" upper_image) "app" "v1" upper_image in
  ParseDigest ("sha256:" +:+ ToUpper (Hex (sha "layer"))) = Ok (sha "layer") /\
  has_blob s "layer" = true /\ has_blob (after_gc s) "layer" = false.
Proof. by vm_compute. Qed.

(** a dry run changes nothing: neither a file nor a blob nor an event. *)
Theorem gc_dry_run {F B} `{RawFSLaws F} `{BlobStoreLaws B} ctx now (s : Store F B) opt :
  DryRun opt = true ->
  (runGC ctx now s opt).2 = s /\ (GarbageCollect ctx now s opt).2 = None.
Proof.
  intros Hdry. split; [by apply runGC_dry|]. unfold GarbageCollect.
  destruct (runGC ctx now s opt) as [[err stats] s']. rewrite Hdry. by destruct err, stats.
Qed.

Lemma gc_dry_run_witness :
  (runGC never 10000 nested_images {| MinAge := 0; AbandonedUploadMaxAge := 0; DryRun := true |}).2
  = nested_images.
Proof. by apply gc_dry_run. Defined.
