(* ===== verification/DockerNames.v ===== *)
(** * internal/registry/docker: name.go and the request parser of handler.go

    Repository names, tags and [classify], which turns the method and path of
    a /v2/ request into an operation.  The theorems: a repository name is valid
    exactly when it is made of the components of the OCI grammar; what
    [classify] returns has a valid name, tag or digest; the requests of a
    repository without a "blobs" component are recognised. *)

From Stdlib Require Import ZArith Lia Ascii.
From stdpp Require Import base list strings.
From S2P Require Import Prelude GoStrings GoPath GoRegexp GoHash BlobStore.

Local Open Scope Z_scope.

(** ** Names *)

Definition alnum (c : ascii) : bool := is_lower c || is_digit c.

(** [[a-z0-9]+(?:(?:[._]|__|[-]+)[a-z0-9]+)*] *)
Definition separatorRegexp : re :=
  Alt (Class (fun c => Ascii.eqb c "." || Ascii.eqb c "_"))
      (Alt (Cat (Chr "_") (Chr "_")) (Plus (Chr "-"))).

Definition componentRegexp : re :=
  Cat (Plus (Class alnum)) (Star (Cat separatorRegexp (Plus (Class alnum)))).

Definition repoNameRegexp : re := Cat componentRegexp (Star (Cat (Chr "/") componentRegexp)).

Inductive NameError := EmptyName | NameTooLong | InvalidCharacters.

Definition ValidateRepoName (name : string) : option NameError :=
  if String.eqb name "" then Some EmptyName
  else if (255 <? len name)%nat then Some NameTooLong
  else if negb (re_match repoNameRegexp name) then Some InvalidCharacters
  else None.

Definition IsDigestReference (ref : string) : bool := Contains ref ":".

Inductive TagError := TagLength | BadLeading | BadCharacter.

Definition tag_first (c : ascii) : bool :=
  is_upper c || is_lower c || is_digit c || Ascii.eqb c "_".

Definition tag_char (c : ascii) : bool :=
  is_upper c || is_lower c || is_digit c || Ascii.eqb c "." || Ascii.eqb c "_" || Ascii.eqb c "-".

Definition ValidateTag (tag : string) : option TagError :=
  match tag with
  | "" => Some TagLength
  | String c rest =>
      if (128 <? len tag)%nat then Some TagLength
      else if negb (tag_first c) then Some BadLeading
      else if negb (str_forallb tag_char rest) then Some BadCharacter
      else None
  end.

(** ** Requests *)

Inductive dockerOp :=
| opVersionProbe | opToken | opManifest | opBlob | opUploadStart | opUploadProgress
| opUploadAppend | opUploadFinalize | opUploadCancel | opTagsList | opCatalog | opReferrers.

Record parsedRequest := {
  Op : dockerOp; RepoName : string; Ref : string; RefDigest : Digest; UploadID : string;
}.

Definition request (op : dockerOp) (name ref : string) (d : Digest) (id : string)
    : option parsedRequest :=
  Some {| Op := op; RepoName := name; Ref := ref; RefDigest := d; UploadID := id |}.

Definition valid (name : string) (r : option parsedRequest) : option parsedRequest :=
  match ValidateRepoName name with None => r | Some _ => None end.

Definition with_digest (ref : string) (k : Digest -> option parsedRequest) : option parsedRequest :=
  match ParseDigest ref with Ok d => k d | Err _ => None end.

Definition classifyUpload (method name rest : string) : option parsedRequest :=
  valid name
    (if String.eqb rest "" || String.eqb rest "/" then
       if String.eqb method "POST" then request opUploadStart name "" zeroDigest "" else None
     else match rest with
     | String "/" uuid =>
         if String.eqb uuid "" then None
         else if String.eqb method "GET" then request opUploadProgress name "" zeroDigest uuid
         else if String.eqb method "PATCH" then request opUploadAppend name "" zeroDigest uuid
         else if String.eqb method "PUT" then request opUploadFinalize name "" zeroDigest uuid
         else if String.eqb method "DELETE" then request opUploadCancel name "" zeroDigest uuid
         else None
     | _ => None
     end).

Definition classifyManifest (name ref : string) : option parsedRequest :=
  valid name
    (if IsDigestReference ref then
       with_digest ref (fun d => request opManifest name ref d "")
     else match ValidateTag ref with
          | None => request opManifest name ref zeroDigest ""
          | Some _ => None
          end).

(** The part of a path after "/v2/". *)
Definition classifyBody (method body : string) : option parsedRequest :=
  match cut_at body "/blobs/uploads" (Index body "/blobs/uploads") with
  | Some (name, rest) => classifyUpload method name rest
  | None =>
  match cut_at body "/blobs/" (LastIndex body "/blobs/") with
  | Some (name, ref) => valid name (with_digest ref (fun d => request opBlob name "" d ""))
  | None =>
  match cut_at body "/manifests/" (LastIndex body "/manifests/") with
  | Some (name, ref) => classifyManifest name ref
  | None =>
  if HasSuffix body "/tags/list" then
    let name := TrimSuffix body "/tags/list" in
    valid name (request opTagsList name "" zeroDigest "")
  else
  match cut_at body "/referrers/" (LastIndex body "/referrers/") with
  | Some (name, ref) => valid name (with_digest ref (fun d => request opReferrers name "" d ""))
  | None => None
  end end end end.

Definition classify (method p : string) : option parsedRequest :=
  if negb (HasPrefix p "/v2") then None
  else if String.eqb p "/v2" || String.eqb p "/v2/" then request opVersionProbe "" "" zeroDigest ""
  else if String.eqb p "/v2/token" then request opToken "" "" zeroDigest ""
  else if String.eqb p "/v2/_catalog" then request opCatalog "" "" zeroDigest ""
  else classifyBody method (TrimPrefix p "/v2/").

(** ** The OCI grammar *)

Definition word (w : string) : Prop := w <> "" /\ str_forallb alnum w = true.

Definition separator (s : string) : Prop :=
  s = "." \/ s = "_" \/ s = "__" \/ (s <> "" /\ str_forallb (Ascii.eqb "-") s = true).

(** component ::= alpha-numeric (separator alpha-numeric)* *)
Inductive component : string -> Prop :=
| comp_word w : word w -> component w
| comp_more w s c : word w -> separator s -> component c -> component (w +:+ s +:+ c).

(** ** Lemmas: the regular expression *)

Lemma lang_star_class p s : lang (Star (Class p)) s <-> str_forallb p s = true.
Proof.
  split.
  - intros H. pose proof (lang_alphabet _ _ H). done.
  - induction s as [|c s IH]; [constructor|]. cbn. intros [Hc Hs]%andb_true_iff.
    apply (lang_star_cons _ (String c "") s); [by constructor|by apply IH].
Qed.

Lemma lang_plus_class p s : lang (Plus (Class p)) s <-> s <> "" /\ str_forallb p s = true.
Proof.
  unfold Plus. split.
  - inversion 1 as [| | | |? ? u t Hu Ht| |]; subst. inversion Hu; subst.
    apply lang_star_class in Ht. cbn. by rewrite Ht, andb_true_r.
  - intros [Hne Hs]. destruct s as [|c s]; [done|]. cbn in Hs. bool_prop.
    apply (lang_cat _ _ (String c "") s); [by constructor|by apply lang_star_class].
Qed.

Lemma lang_chr c s : lang (Chr c) s <-> s = String c "".
Proof.
  split; [inversion 1; subst; bool_prop; f_equal; symmetry; by apply Ascii.eqb_eq|].
  intros ->. constructor. apply Ascii.eqb_refl.
Qed.

Lemma lang_cat_inv a b s : lang (Cat a b) s <-> exists u t, s = u +:+ t /\ lang a u /\ lang b t.
Proof. split; [inversion 1; subst; eauto|]. intros (u & t & -> & ? & ?). by constructor. Qed.

Lemma lang_alt_inv a b s : lang (Alt a b) s <-> lang a s \/ lang b s.
Proof. split; [inversion 1; subst; auto|]. intros []; [by apply lang_alt_l|by apply lang_alt_r]. Qed.

Lemma lang_separator s : lang separatorRegexp s <-> separator s.
Proof.
  unfold separatorRegexp, separator. rewrite !lang_alt_inv, lang_cat_inv.
  assert (Hc : lang (Class (fun c => Ascii.eqb c "." || Ascii.eqb c "_")) s <-> s = "." \/ s = "_").
  { split.
    - inversion 1 as [|? c Hc| | | | |]; subst. apply orb_true_iff in Hc as [Hc|Hc];
        apply Ascii.eqb_eq in Hc as ->; auto.
    - intros [-> | ->]; by constructor. }
  unfold Chr at 3. rewrite Hc, lang_plus_class.
  assert (Hu : (exists u t, s = u +:+ t /\ lang (Chr "_") u /\ lang (Chr "_") t) <-> s = "__").
  { setoid_rewrite lang_chr. split; [by intros (u & t & -> & -> & ->)|]. intros ->.
    by exists "_", "_". }
  rewrite Hu. tauto.
Qed.

Lemma lang_component s : lang componentRegexp s <-> component s.
Proof.
  unfold componentRegexp. rewrite lang_cat_inv. split.
  - intros (w & t & -> & Hw%lang_plus_class & Ht).
    remember (Star (Cat separatorRegexp (Plus (Class alnum)))) as r eqn:Hr. revert w Hw.
    induction Ht as [| | | | | |a u t Hu _ Ht IH]; intros w Hw; simplify_eq.
    + rewrite app_empty_r. by constructor.
    + apply lang_cat_inv in Hu as (sep & w' & -> & Hs%lang_separator & Hw'%lang_plus_class).
      rewrite str_app_assoc. apply comp_more; [done|done|by apply IH].
  - induction 1 as [w Hw|w sep c Hw Hs _ (w' & t & -> & Hw' & Ht)].
    + exists w, "". rewrite app_empty_r. split_and!; [done|by apply lang_plus_class|constructor].
    + exists w, (sep +:+ w' +:+ t). split_and!; [done|by apply lang_plus_class|].
      rewrite <-str_app_assoc. constructor; [|done]. constructor; [by apply lang_separator|done].
Qed.

Lemma component_alphabet s : component s ->
  str_forallb (fun c => alphabet componentRegexp c) s = true.
Proof. intros H%lang_component. by apply lang_alphabet. Qed.

Lemma component_no_slash s : component s -> no_byte "/" s = true.
Proof. intros H%lang_component. by apply (lang_no_byte componentRegexp). Qed.

Lemma component_first s : component s -> exists c t, s = String c t /\ alnum c = true.
Proof.
  assert (Hw : forall w u, word w -> exists c t, w +:+ u = String c t /\ alnum c = true).
  { intros [|c w] u [Hne Hall]; [done|]. cbn in Hall. bool_prop. eauto. }
  intros H. destruct H as [w Hw'|w sep c Hw' _ _]; [|by apply Hw].
  destruct (Hw w "" Hw') as (c & t & E & Hc). rewrite app_empty_r in E. eauto.
Qed.

Lemma component_good s : component s -> good_seg s.
Proof.
  intros H. pose proof (component_no_slash s H) as Hs.
  destruct (component_first s H) as (c & t & -> & Hc). unfold good_seg.
  split_and!; [done|intros [= -> ->]..|done]; done.
Qed.

Lemma slash_components l t : (forall w, w ∈ l -> component w) ->
  t = foldr (fun w acc => "/" +:+ w +:+ acc) "" l ->
  lang (Star (Cat (Chr "/") componentRegexp)) t.
Proof.
  intros Hl ->. induction l as [|w l IH]; [constructor|]. cbn [foldr].
  rewrite <-str_app_assoc. constructor.
  - constructor; [by apply lang_chr|]. apply lang_component, Hl, list_elem_of_here.
  - apply IH. intros x Hx. by apply Hl, list_elem_of_further.
Qed.

Lemma Split_slashes w l : no_byte "/" w = true -> Forall (fun w => no_byte "/" w = true) l ->
  Split (w +:+ foldr (fun w acc => "/" +:+ w +:+ acc) "" l) "/" = w :: l.
Proof.
  intros Hw Hl. revert w Hw. induction Hl as [|x l Hx _ IH]; intros w Hw; cbn [foldr].
  - by rewrite app_empty_r, Split_single.
  - change ("/" +:+ x +:+ ?r) with (String "/" (x +:+ r)).
    rewrite Split_app_sep by done. by rewrite IH.
Qed.

(** The whole expression: components between slashes. *)
Lemma repoName_components s : re_match repoNameRegexp s = true <-> Forall component (Split s "/").
Proof.
  rewrite re_match_spec. unfold repoNameRegexp. rewrite lang_cat_inv. split.
  - intros (w & t & -> & Hw%lang_component & Ht).
    assert (Hl : exists l, Forall component l /\
      t = foldr (fun w acc => "/" +:+ w +:+ acc) "" l).
    { remember (Star (Cat (Chr "/") componentRegexp)) as r eqn:Hr.
      induction Ht as [| | | | | |a u t Hu _ Ht IH]; simplify_eq; [by exists []|].
      destruct (IH eq_refl) as (l & Hl & ->).
      apply lang_cat_inv in Hu as (sl & c & -> & ->%lang_chr & Hc%lang_component).
      exists (c :: l). split; [by constructor|]. cbn [foldr]. by rewrite str_app_assoc. }
    destruct Hl as (l & Hl & ->). rewrite Split_slashes; [by constructor|by apply component_no_slash|].
    eapply Forall_impl; [exact Hl|]. apply component_no_slash.
  - intros H. pose proof (Join_Split s "/") as E. pose proof (Split_nonempty s "/").
    destruct (Split s "/") as [|w l]; [done|].
    apply Forall_cons in H as [Hw Hl].
    exists w, (foldr (fun w acc => "/" +:+ w +:+ acc) "" l). split_and!.
    + rewrite <-E. clear. revert w. induction l as [|x l IH]; intros w; [by rewrite app_empty_r|].
      rewrite Join_cons. cbn [foldr]. by rewrite IH.
    + by apply lang_component.
    + eapply slash_components; [|done]. by apply Forall_forall.
Qed.

Lemma ValidateRepoName_components name : ValidateRepoName name = None <->
  (len name <= 255)%nat /\ Forall component (Split name "/").
Proof.
  unfold ValidateRepoName. rewrite <-repoName_components.
  destruct (String.eqb_spec name "") as [->|Hne]; [split; [done|intros [_ H]; by vm_compute in H]|].
  destruct (Nat.ltb_spec 255 (len name)); [split; [done|intros [? _]; lia]|].
  destruct (re_match _ _); cbn; naive_solver lia.
Qed.

Lemma ValidateRepoName_good name : ValidateRepoName name = None -> good_path name.
Proof.
  intros [_ H]%ValidateRepoName_components. eapply Forall_impl; [exact H|apply component_good].
Qed.

Lemma ValidateTag_good tag : ValidateTag tag = None ->
  good_seg tag /\ IsDigestReference tag = false.
Proof.
  unfold ValidateTag. destruct tag as [|c rest]; [done|]. destruct (128 <? _)%nat; [done|].
  destruct (tag_first c) eqn:Hc; [|done]. destruct (str_forallb tag_char rest) eqn:Hr; [|done].
  intros _. cbn [negb] in *.
  assert (Hall : str_forallb tag_char (String c rest) = true).
  { cbn. rewrite Hr, andb_true_r. unfold tag_first, tag_char in *.
    repeat (apply orb_true_iff in Hc as [Hc|Hc]); rewrite Hc, ?orb_true_r; done. }
  assert (Hslash : no_byte "/" (String c rest) = true)
    by (eapply no_byte_forallb; [|exact Hall]; done).
  assert (Hcolon : no_byte ":" (String c rest) = true)
    by (eapply no_byte_forallb; [|exact Hall]; done).
  split.
  - unfold good_seg. split_and!; [done| | |done]; intros E; injection E as -> _; done.
  - unfold IsDigestReference, Contains, is_some. by rewrite Index_byte_none.
Qed.

#[export] Hint Resolve ValidateRepoName_good component_good : kutu.

Lemma valid_Some name k r : valid name k = Some r -> ValidateRepoName name = None /\ k = Some r.
Proof. unfold valid. by destruct (ValidateRepoName name). Qed.

Lemma with_digest_Some ref k r : with_digest ref k = Some r ->
  exists d, ParseDigest ref = Ok d /\ k d = Some r.
Proof. unfold with_digest. destruct (ParseDigest ref); [eauto|done]. Qed.

(** What a recognised request says of its path. *)
Definition request_ok (p : string) (r : parsedRequest) : Prop :=
  match Op r with
  | opVersionProbe | opToken | opCatalog => True
  | opManifest =>
      ValidateRepoName (RepoName r) = None /\
      p = "/v2/" +:+ RepoName r +:+ "/manifests/" +:+ Ref r /\
      if IsDigestReference (Ref r) then ParseDigest (Ref r) = Ok (RefDigest r)
      else ValidateTag (Ref r) = None /\ RefDigest r = zeroDigest
  | opBlob =>
      ValidateRepoName (RepoName r) = None /\
      exists ref, p = "/v2/" +:+ RepoName r +:+ "/blobs/" +:+ ref /\ ParseDigest ref = Ok (RefDigest r)
  | opReferrers =>
      ValidateRepoName (RepoName r) = None /\
      exists ref, p = "/v2/" +:+ RepoName r +:+ "/referrers/" +:+ ref /\
        ParseDigest ref = Ok (RefDigest r)
  | opTagsList =>
      ValidateRepoName (RepoName r) = None /\ p = "/v2/" +:+ RepoName r +:+ "/tags/list"
  | opUploadStart =>
      ValidateRepoName (RepoName r) = None /\
      HasPrefix p ("/v2/" +:+ RepoName r +:+ "/blobs/uploads") = true
  | _ =>
      ValidateRepoName (RepoName r) = None /\ UploadID r <> "" /\
      p = "/v2/" +:+ RepoName r +:+ "/blobs/uploads/" +:+ UploadID r
  end.

(** A name that follows "/v2" without a slash is not valid. *)
Lemma body_of_path p name rest : HasPrefix p "/v2" = true -> ValidateRepoName name = None ->
  TrimPrefix p "/v2/" = name +:+ rest -> p = "/v2/" +:+ name +:+ rest.
Proof.
  intros Hp Hn E. unfold TrimPrefix in E. destruct (HasPrefix p "/v2/") eqn:Hs.
  - apply HasPrefix_spec in Hs as [r ->]. by rewrite str_drop_app in E; subst.
  - exfalso. apply ValidateRepoName_components in Hn as [_ Hn].
    apply HasPrefix_spec in Hp as [r ->]. destruct name as [|c name]; [by inversion Hn as [|? ? Hc]; apply component_first in Hc as (? & ? & ? & _)|].
    injection E as <- _.
    change (String "/" name) with ("" +:+ String "/" name) in Hn.
    rewrite Split_app in Hn. inversion Hn as [|? ? Hc]. by apply component_first in Hc as (? & ? & ? & _).
Qed.

Lemma classifyUpload_ok p method name rest r : HasPrefix p "/v2" = true ->
  TrimPrefix p "/v2/" = name +:+ "/blobs/uploads" +:+ rest ->
  classifyUpload method name rest = Some r -> request_ok p r.
Proof.
  intros Hp E (Hn & H)%valid_Some. pose proof (body_of_path p name _ Hp Hn E) as Ep.
  destruct (String.eqb rest "" || _).
  { destruct (String.eqb method "POST"); [|done]. injection H as <-. split; [done|].
    cbn [RepoName]. rewrite Ep, <-!str_app_assoc. apply HasPrefix_app. }
  destruct rest as [|c uuid]; [done|]. destruct (Ascii.eqb_spec c "/") as [->|Hc].
  2:{ destruct c as [[] [] [] [] [] [] [] []]; done. }
  destruct (String.eqb_spec uuid ""); [done|].
  destruct (String.eqb method "GET"); [injection H as <-; by split_and!|].
  destruct (String.eqb method "PATCH"); [injection H as <-; by split_and!|].
  destruct (String.eqb method "PUT"); [injection H as <-; by split_and!|].
  destruct (String.eqb method "DELETE"); [injection H as <-; by split_and!|done].
Qed.

Lemma classifyManifest_ok p name ref r : HasPrefix p "/v2" = true ->
  TrimPrefix p "/v2/" = name +:+ "/manifests/" +:+ ref ->
  classifyManifest name ref = Some r -> request_ok p r.
Proof.
  intros Hp E (Hn & H)%valid_Some. pose proof (body_of_path p name _ Hp Hn E) as Ep.
  destruct (IsDigestReference ref) eqn:Ed.
  - apply with_digest_Some in H as (d & Hd & [= <-]). split_and!; [done|done|]. cbn. by rewrite Ed.
  - destruct (ValidateTag ref) eqn:Et; [done|]. injection H as <-. split_and!; [done|done|].
    cbn. by rewrite Ed.
Qed.

(** ** Lemmas: recognising paths *)

Lemma list_cut {A} (N R X Y : list A) k : N ++ k :: R = X ++ k :: Y -> X <> [] -> Y <> [] ->
  k ∉ tl N -> k ∉ removelast R -> N = X /\ R = Y.
Proof.
  intros E HX HY HN HR. apply app_eq_inv in E as [(z & -> & E)|(z & -> & E)].
  - destruct z as [|y z]; [rewrite app_nil_r; by injection E as ->|]. injection E as <- E.
    exfalso. apply HN. destruct X as [|x X]; [done|]. cbn. apply elem_of_app. right.
    apply list_elem_of_here.
  - destruct z as [|y z]; [rewrite app_nil_r; by injection E as ->|]. injection E as <- ->.
    exfalso. apply HR. rewrite removelast_app by done. apply elem_of_app. right.
    destruct Y as [|v Y]; [done|]. apply list_elem_of_here.
Qed.

Lemma list_interior {A} (N R X Y : list A) k : N ++ R = X ++ k :: Y -> X <> [] -> Y <> [] ->
  k ∉ tl N -> k ∈ removelast R.
Proof.
  intros E HX HY HN. apply app_eq_inv in E as [(z & -> & E)|(z & -> & ->)].
  - destruct z as [|y z].
    + cbn in E. subst R. destruct Y as [|v Y]; [done|]. apply list_elem_of_here.
    + injection E as <- E. exfalso. apply HN. destruct X as [|x X]; [done|]. cbn.
      apply elem_of_app. right. apply list_elem_of_here.
  - rewrite removelast_app by done. apply elem_of_app. right.
    destruct Y as [|v Y]; [done|]. apply list_elem_of_here.
Qed.

Section routes.
Variable name : string.
Hypothesis Hname : ValidateRepoName name = None.

Definition path_segs (u k v : string) : Split (u +:+ "/" +:+ k +:+ "/" +:+ v) "/"
    = Split u "/" ++ Split (k +:+ "/" +:+ v) "/" := Split_app u (k +:+ "/" +:+ v) "/".

Lemma Split_mid u k v : no_byte "/" k = true ->
  Split (u +:+ "/" +:+ k +:+ "/" +:+ v) "/" = Split u "/" ++ k :: Split v "/".
Proof.
  intros Hk. rewrite path_segs. change ("/" +:+ v) with (String "/" v).
  by rewrite Split_app_sep.
Qed.

(** [k] is not a segment of [name/rest] with something on both sides. *)
Lemma no_mid k rest u v : no_byte "/" k = true -> k ∉ tl (Split name "/") ->
  k ∉ removelast (Split rest "/") -> name +:+ "/" +:+ rest <> u +:+ "/" +:+ k +:+ "/" +:+ v.
Proof.
  intros Hk HN HR E. apply (f_equal (fun s => Split s "/")) in E. rewrite Split_mid in E by done.
  change ("/" +:+ rest) with (String "/" rest) in E. rewrite Split_app in E.
  apply HR. eapply list_interior; [exact E|apply Split_nonempty..|done].
Qed.

Lemma Index_uploads rest : "blobs" ∉ tl (Split name "/") ->
  "blobs" ∉ removelast (Split rest "/") -> forall sep,
  cut_at (name +:+ "/" +:+ rest) "/blobs/uploads" (Index (name +:+ "/" +:+ rest) "/blobs/uploads")
  = None /\
  cut_at (name +:+ "/" +:+ rest) sep (LastIndex (name +:+ "/" +:+ rest) "/blobs/") = None.
Proof.
  intros HN HR sep. split.
  - destruct (Index _ _) as [i|] eqn:E; [|done]. exfalso.
    apply Index_Some in E as (r & E & _).
    by apply (no_mid "blobs" rest (str_take i (name +:+ "/" +:+ rest)) ("uploads" +:+ r)) in E.
  - destruct (LastIndex _ _) as [i|] eqn:E; [|done]. exfalso. apply LastIndex_Some in E.
    eapply (no_mid "blobs" rest); [done|done|done|exact E].
Qed.

Lemma cut_mid k rest : no_byte "/" k = true -> k ∉ tl (Split name "/") ->
  k ∉ removelast (Split rest "/") ->
  let body := name +:+ "/" +:+ k +:+ "/" +:+ rest in
  cut_at body ("/" +:+ k +:+ "/") (LastIndex body ("/" +:+ k +:+ "/")) = Some (name, rest).
Proof.
  intros Hk HN HR. cbv zeta. set (body := name +:+ "/" +:+ k +:+ "/" +:+ rest).
  assert (Hcut : forall a b, body = a +:+ ("/" +:+ k +:+ "/") +:+ b -> a = name /\ b = rest).
  { intros a b E. unfold body in E. rewrite !str_app_assoc in E.
    apply (f_equal (fun s => Split s "/")) in E. rewrite !Split_mid in E by done.
    apply list_cut in E as [En Er]; [|apply Split_nonempty..|done|done].
    split; [by rewrite <-(Join_Split a "/"), <-En, Join_Split
           |by rewrite <-(Join_Split b "/"), <-Er, Join_Split]. }
  destruct (LastIndex body _) as [i|] eqn:E.
  - apply LastIndex_Some in E. destruct (Hcut _ _ E) as [Ea Eb].
    destruct i as [|i]; [|cbn [cut_at]; by rewrite Ea, Eb].
    exfalso. cbn in Ea. by apply ValidateRepoName_good, good_path_nonempty in Hname.
  - exfalso. apply (LastIndex_None _ _ E name rest). unfold body. by rewrite !str_app_assoc.
Qed.

Lemma classify_body method rest :
  classify method ("/v2/" +:+ name +:+ "/" +:+ rest) = classifyBody method (name +:+ "/" +:+ rest).
Proof.
  unfold classify.
  assert (Hp : forall x, HasPrefix ("/v2/" +:+ x) "/v2" = true)
    by (intros x; exact (HasPrefix_app "/v2" (String "/" x))).
  rewrite Hp. cbn [negb].
  assert (Hne : forall w, no_byte "/" w = true ->
    String.eqb ("/v2/" +:+ name +:+ "/" +:+ rest) ("/v2/" +:+ w) = false).
  { intros w Hw. apply String.eqb_neq. intros E%str_app_inj_l. rewrite <-E, !no_byte_app in Hw.
    bool_prop. done. }
  assert (H1 : String.eqb ("/v2/" +:+ name +:+ "/" +:+ rest) "/v2" = false) by done.
  rewrite H1, (Hne "" eq_refl : String.eqb _ "/v2/" = false).
  rewrite (Hne "token" eq_refl : String.eqb _ "/v2/token" = false).
  rewrite (Hne "_catalog" eq_refl : String.eqb _ "/v2/_catalog" = false). cbn [orb].
  by rewrite TrimPrefix_app.
Qed.

Hypothesis HB : "blobs" ∉ tl (Split name "/").

Lemma route_manifest method ref : "manifests" ∉ tl (Split name "/") -> no_byte "/" ref = true ->
  classify method ("/v2/" +:+ name +:+ "/manifests/" +:+ ref) = classifyManifest name ref.
Proof.
  intros HM Hr. etransitivity; [exact (classify_body method ("manifests/" +:+ ref))|]. unfold classifyBody.
  assert (HR : "blobs" ∉ removelast (Split ("manifests/" +:+ ref) "/")).
  { change ("manifests/" +:+ ref) with ("manifests" +:+ String "/" ref).
    rewrite Split_app_sep, Split_single by done. cbn. by intros ?%list_elem_of_singleton. }
  destruct (Index_uploads _ HB HR "/blobs/") as [-> ->].
  pose proof (cut_mid "manifests" ref eq_refl HM) as Hc. cbv zeta in Hc.
  rewrite Split_single in Hc by done. cbn [removelast] in Hc.
  change ("/" +:+ "manifests" +:+ "/") with "/manifests/" in Hc.
  change ("/" +:+ "manifests/" +:+ ref) with ("/" +:+ "manifests" +:+ "/" +:+ ref).
  rewrite Hc; [done|]. by intros ?%elem_of_nil.
Qed.

Lemma route_tags method : "manifests" ∉ tl (Split name "/") ->
  classify method ("/v2/" +:+ name +:+ "/tags/list") = request opTagsList name "" zeroDigest "".
Proof.
  intros HM. etransitivity; [exact (classify_body method "tags/list")|]. unfold classifyBody.
  assert (HR : forall k, k <> "tags" -> k ∉ removelast (Split "tags/list" "/")).
  { intros k Hk. cbn. by intros ?%list_elem_of_singleton. }
  destruct (Index_uploads "tags/list" HB (HR "blobs" ltac:(done)) "/blobs/") as [-> ->].
  destruct (LastIndex _ "/manifests/") as [i|] eqn:E.
  { exfalso. apply LastIndex_Some in E.
    eapply (no_mid "manifests" "tags/list"); [done|done|by apply HR|exact E]. }
  cbn [cut_at]. rewrite HasSuffix_app, TrimSuffix_app. unfold valid. by rewrite Hname.
Qed.

(** "/blobs/uploads" does not start the reference of a blob. *)
Lemma route_blob method d : ParseDigest (DigestString d) = Ok d ->
  classify method ("/v2/" +:+ name +:+ "/blobs/" +:+ DigestString d) = request opBlob name "" d "".
Proof.
  intros Hd. destruct (DigestString_good d Hd) as (_ & _ & _ & Hs). set (ref := DigestString d) in *.
  etransitivity; [exact (classify_body method ("blobs/" +:+ ref))|]. unfold classifyBody.
  change ("/" +:+ "blobs/" +:+ ref) with ("/" +:+ "blobs" +:+ "/" +:+ ref).
  assert (Hi : cut_at (name +:+ "/" +:+ "blobs" +:+ "/" +:+ ref) "/blobs/uploads"
    (Index (name +:+ "/" +:+ "blobs" +:+ "/" +:+ ref) "/blobs/uploads") = None).
  { destruct (Index _ _) as [i|] eqn:E; [|done]. exfalso. apply Index_Some in E as (r & E & _).
    apply (f_equal (fun s => Split s "/")) in E.
    change ("/blobs/uploads" +:+ r) with ("/" +:+ "blobs" +:+ "/" +:+ ("uploads" +:+ r)) in E.
    rewrite !Split_mid in E by done. rewrite (Split_single ref) in E by done.
    apply list_cut in E as [_ E]; [|apply Split_nonempty..|done|by intros ?%elem_of_nil].
    apply (f_equal (fun l => Join l "/")) in E. rewrite Join_Split in E. cbn [Join] in E.
    destruct (ParseDigest_inv _ _ Hd) as (alg & hx & n & E' & Ha & _). fold ref in E'.
    rewrite E' in E. by destruct (algorithmHexLength_Some _ _ Ha) as [[-> _]|[-> _]]. }
  rewrite Hi. pose proof (cut_mid "blobs" ref eq_refl HB) as Hc. cbv zeta in Hc.
  rewrite (Split_single ref) in Hc by done. cbn [removelast] in Hc.
  change ("/" +:+ "blobs" +:+ "/") with "/blobs/" in Hc. rewrite Hc by (by intros ?%elem_of_nil).
  unfold valid, with_digest. by rewrite Hname, Hd.
Qed.

Lemma route_upload uuid : uuid <> "" -> no_byte "/" uuid = true ->
  classify "PATCH" ("/v2/" +:+ name +:+ "/blobs/uploads/" +:+ uuid)
  = request opUploadAppend name "" zeroDigest uuid.
Proof.
  intros Hu Hs. etransitivity; [exact (classify_body "PATCH" ("blobs/uploads/" +:+ uuid))|]. unfold classifyBody.
  set (body := name +:+ "/" +:+ ("blobs/uploads/" +:+ uuid)).
  assert (Hbody : body = name +:+ "/" +:+ "blobs" +:+ "/" +:+ ("uploads/" +:+ uuid)) by done.
  assert (Hcut : exists i, Index body "/blobs/uploads" = Some i).
  { destruct (Index body _) as [i|] eqn:E; [eauto|]. exfalso.
    apply (Index_None _ _ name (String "/" uuid)) in E. by apply E. }
  destruct Hcut as [i E]. rewrite E.
  assert (Hr : cut_at body "/blobs/uploads" (Some i) = Some (name, "/" +:+ uuid)).
  { destruct (cut_at body "/blobs/uploads" (Some i)) as [[a b]|] eqn:Ec.
    - assert (Eb : body = a +:+ "/" +:+ "blobs" +:+ "/" +:+ ("uploads" +:+ b))
        by (apply (cut_Index body "/blobs/uploads" a b); by rewrite E).
      pose proof Eb as Es. apply (f_equal (fun s => Split s "/")) in Es.
      rewrite Hbody, !Split_mid in Es by done.
      apply list_cut in Es as [En Er]; [|apply Split_nonempty..|done|].
      + apply (f_equal (fun l => Join l "/")) in En, Er. rewrite !Join_Split in En, Er.
        change ("uploads/" +:+ uuid) with ("uploads" +:+ "/" +:+ uuid) in Er.
        apply str_app_inj_l in Er. congruence.
      + change ("uploads/" +:+ uuid) with ("uploads" +:+ String "/" uuid).
        rewrite Split_app_sep, Split_single by done. cbn. by intros ?%list_elem_of_singleton.
    - exfalso. destruct i as [|i]; [|done]. apply Index_Some in E as (r & E & _).
      cbn [str_take] in E. rewrite Hbody in E.
      apply ValidateRepoName_components in Hname as [_ H].
      apply (f_equal (fun s => Split s "/")) in E.
      rewrite Split_mid in E by done. cbn in E. destruct (Split name "/") as [|w l]; [done|].
      injection E as -> _. inversion H as [|? ? Hc]. by apply component_first in Hc as (? & ? & ? & _). }
  rewrite Hr. unfold classifyUpload, valid. rewrite Hname. cbn.
  apply String.eqb_neq in Hu. by rewrite Hu.
Qed.

End routes.

(** What [classify] recognises is spelt by the path. *)
Lemma classify_request method p r : classify method p = Some r -> request_ok p r.
Proof.
  unfold classify. destruct (HasPrefix p "/v2") eqn:Hp; [|done]. cbn [negb].
  destruct (_ || _); [by intros [= <-]|]. destruct (String.eqb p "/v2/token"); [by intros [= <-]|].
  destruct (String.eqb p "/v2/_catalog"); [by intros [= <-]|]. unfold classifyBody.
  destruct (cut_at _ _ (Index _ "/blobs/uploads")) as [[name rest]|] eqn:E1.
  { by apply classifyUpload_ok; [|apply cut_Index]. }
  destruct (cut_at _ _ (LastIndex _ "/blobs/")) as [[name ref]|] eqn:E2.
  { intros (Hn & (d & Hd & [= <-])%with_digest_Some)%valid_Some. apply cut_LastIndex in E2.
    split; [done|]. exists ref. split; [|done]. by apply body_of_path. }
  destruct (cut_at _ _ (LastIndex _ "/manifests/")) as [[name ref]|] eqn:E3.
  { by apply classifyManifest_ok; [|apply cut_LastIndex]. }
  destruct (HasSuffix _ "/tags/list") eqn:E4.
  { intros (Hn & [= <-])%valid_Some. split; [done|]. apply HasSuffix_spec in E4 as [name E4].
    cbn [RepoName]. rewrite E4, TrimSuffix_app in Hn |- *. by apply body_of_path. }
  destruct (cut_at _ _ (LastIndex _ "/referrers/")) as [[name ref]|] eqn:E5; [|done].
  intros (Hn & (d & Hd & [= <-])%with_digest_Some)%valid_Some. apply cut_LastIndex in E5.
  split; [done|]. exists ref. split; [|done]. by apply body_of_path.
Qed.

(** ** Properties *)

(** a repository name is accepted exactly when it has at most 255 bytes and
    its parts between slashes are components of the OCI grammar. *)
Theorem ValidateRepoName_spec name : ValidateRepoName name = None <->
  (len name <= 255)%nat /\ Forall component (Split name "/").
Proof. apply ValidateRepoName_components. Qed.

(** what [classify] recognises is what the path spells: a valid repository
    name, a parsed digest or a valid tag, and an upload id, at the place the
    operation has in the path. *)
Theorem classify_sound method p r : classify method p = Some r -> request_ok p r.
Proof. apply classify_request. Qed.

Lemma classify_sound_witness : request_ok "/v2/library/nginx/manifests/1.27-alpine"
  {| Op := opManifest; RepoName := "library/nginx"; Ref := "1.27-alpine"; RefDigest := zeroDigest;
     UploadID := "" |}.
Proof. apply (classify_sound "GET"). by vm_compute. Defined.

(** a repository whose name has no inner component "blobs" or "manifests" can
    be used: its manifest, blob, tag-list and upload paths are recognised as
    what they are, for every tag, digest and upload id. *)
Theorem classify_routes name tag d uuid method :
  ValidateRepoName name = None ->
  "blobs" ∉ tl (Split name "/") -> "manifests" ∉ tl (Split name "/") ->
  ValidateTag tag = None -> ParseDigest (DigestString d) = Ok d ->
  uuid <> "" -> no_byte "/" uuid = true ->
  let url kind := "/v2/" +:+ name +:+ "/" +:+ kind in
  classify method (url ("manifests/" +:+ tag)) = request opManifest name tag zeroDigest "" /\
  classify method (url ("manifests/" +:+ DigestString d))
    = request opManifest name (DigestString d) d "" /\
  classify method (url ("blobs/" +:+ DigestString d)) = request opBlob name "" d "" /\
  classify method (url "tags/list") = request opTagsList name "" zeroDigest "" /\
  classify "PATCH" (url ("blobs/uploads/" +:+ uuid)) = request opUploadAppend name "" zeroDigest uuid.
Proof.
  intros Hn HB HM Ht Hd Hu Hus. cbv zeta.
  destruct (ValidateTag_good tag Ht) as [(_ & _ & _ & Hts) Htd].
  destruct (DigestString_good d Hd) as (_ & _ & _ & Hds).
  split_and!; [| |by apply route_blob|by apply route_tags|by apply route_upload].
  - etransitivity; [exact (route_manifest name Hn HB method tag HM Hts)|]. unfold classifyManifest, valid.
    by rewrite Hn, Htd, Ht.
  - etransitivity; [exact (route_manifest name Hn HB method _ HM Hds)|]. unfold classifyManifest, valid, with_digest.
    assert (Hr : IsDigestReference (DigestString d) = true).
    { destruct (ParseDigest_inv _ _ Hd) as (alg & hx & n & E & _). rewrite E.
      unfold IsDigestReference, Contains. destruct (Index _ _) as [i|] eqn:Ei; [done|].
      by destruct (Index_None _ _ alg hx Ei). }
    by rewrite Hn, Hr, Hd.
Qed.

Lemma classify_routes_witness :
  classify "GET" "/v2/library/nginx/manifests/latest"
    = request opManifest "library/nginx" "latest" zeroDigest "" /\
  classify "GET" "/v2/library/blobs/manifests/latest" = None.
Proof.
  split; [|by vm_compute].
  apply (classify_routes "library/nginx" "latest" (DigestFromHash "sha256" (Sum256 "x")) "u" "GET");
    try by vm_compute.
  - by apply (bool_decide_unpack _); vm_compute.
  - by apply (bool_decide_unpack _); vm_compute.
Defined.
