(* ===== verification/DockerLocal.v ===== *)
(** * internal/registry/docker/local.go and upload_sessions.go: the hosted registry

    The handlers that change a registry: manifest push, deletion by tag or
    digest with its cascade, and the blob upload protocol over the session
    table.  A handler takes the parsed request and returns the status, the
    error code and the new state; headers, events and response bodies are not
    modelled.  Random ids and the clock are arguments. *)

From Stdlib Require Import ZArith Lia Ascii.
From stdpp Require Import base list strings gmap relations.
From S2P Require Import Prelude GoStrings GoPath GoHash GoJson BlobStore RawFS DockerStore DockerGC.
From S2P Require Import DockerNames.

Local Open Scope Z_scope.

(** ** Data *)

Record uploadEntry := { uRepoName : string; uBlobSession : string }.

Definition uploadSessions := gmap string uploadEntry.

Record Local (F B : Type) := {
  store : Store F B;
  allowPush : bool;
  maxUpload : Z;
  immutableTags : list string;
  cascadeMinAge : Z;
  uploads : uploadSessions;
}.

Arguments Build_Local {F B} _ _ _ _ _ _.
Arguments store {F B} l.
Arguments allowPush {F B} l.
Arguments maxUpload {F B} l.
Arguments immutableTags {F B} l.
Arguments cascadeMinAge {F B} l.
Arguments uploads {F B} l.

Record Response := { Status : Z; Code : string }.

Definition resp (st : Z) (code : string) : Response := {| Status := st; Code := code |}.

(** [mapError] *)
Definition mapError (e : DockerError) : Response :=
  match e with
  | ErrManifestUnknown => resp 404 "MANIFEST_UNKNOWN"
  | ErrTagUnknown => resp 404 "MANIFEST_UNKNOWN"
  | ErrTagImmutable => resp 403 "TAG_IMMUTABLE"
  | ErrNameInvalid => resp 400 "NAME_INVALID"
  | ErrDigestInvalid => resp 400 "DIGEST_INVALID"
  | ErrReadOnly | ErrDigest _ | ErrBackend _ => resp 500 "UNKNOWN"
  end.

Section handlers.
Context {F B : Type} {HF : RawFS F} {HB : BlobStore B}.

Implicit Types (s : Store F B) (l : Local F B).

Definition with_store l s : Local F B := {|
  store := s; allowPush := allowPush l; maxUpload := maxUpload l; immutableTags := immutableTags l;
  cascadeMinAge := cascadeMinAge l; uploads := uploads l;
|}.

(** A pattern that [path.Match] rejects matches nothing but itself. *)
Definition isImmutableTag (patterns : list string) (tag : string) : bool :=
  existsb (fun pat => String.eqb pat tag || GoPath.matches pat tag) patterns.

(** ** Manifests *)

(** The manifest a GET or HEAD serves; a zero digest means the tag [ref]. *)
Definition readManifest s (name ref : string) (d : Digest) : result DockerError ManifestRecord :=
  if IsZero d then
    match ReadTag s name ref with Err e => Err e | Ok d => ReadManifest s name d end
  else ReadManifest s name d.

Definition is_tag (ref : string) : bool := negb (IsDigestReference ref) && negb (String.eqb ref "").

(** Registering a pushed manifest with its subject is best effort. *)
Definition indexSubject s (name body contentType : string) (dgst : Digest) : Store F B :=
  match inspectManifest body with
  | Some insp =>
      if String.eqb (mSubject insp) "" then s
      else match AddReferrer s name (mSubject insp) {|
               MediaType := contentType; ArtifactType := effectiveArtifactType insp;
               dDigest := DigestString dgst; dSize := Z.of_nat (len body);
               Annotations := mAnnotations insp |} with
           | Ok s => s
           | Err _ => s
           end
  | None => s
  end.

Definition bodyDigest (body : string) : Digest := DigestFromHash "sha256" (Sum256 body).

Definition manifestLimit l : Z := if maxUpload l =? 0 then 4 * 1024 * 1024 else maxUpload l.

(** The check of a push to an immutable tag: the response that refuses it. *)
Definition immutableConflict l (name ref : string) (dgst : Digest) : option Response :=
  if is_tag ref && isImmutableTag (immutableTags l) ref then
    match ReadTag (store l) name ref with
    | Ok existing =>
        if String.eqb (DigestString existing) (DigestString dgst) then None
        else Some (resp 409 "TAG_IMMUTABLE")
    | Err ErrTagUnknown => None
    | Err e => Some (mapError e)
    end
  else None.

(** What the handler reads of a body: [LimitReader] of one byte more than the
    limit, which yields nothing when the sum wraps around.  (Past the limit the
    model keeps the whole body; it is refused either way.) *)
Definition received l (body : string) : string :=
  if wrap64 (manifestLimit l + 1) <=? 0 then "" else body.

(** The handler once the body is read. *)
Definition putManifest l (name ref body contentType : string) : Response * Local F B :=
  if negb (allowPush l) then (resp 405 "DENIED", l)
  else if manifestLimit l <? Z.of_nat (len body) then (resp 413 "MANIFEST_INVALID", l)
  else
    let dgst := bodyDigest body in
    match immutableConflict l name ref dgst with
    | Some r => (r, l)
    | None =>
        let contentType := if String.eqb contentType "" then defaultContentType else contentType in
        match WriteManifest (store l) name dgst body contentType with
        | Err e => (mapError e, l)
        | Ok s =>
            match (if is_tag ref then SetTag s name ref dgst else Ok s) with
            | Err e => (mapError e, with_store l s)
            | Ok s => (resp 201 "", with_store l (indexSubject s name body contentType dgst))
            end
        end
    end.

Definition deleteTagReference l (name tag : string) : option DockerError * Local F B :=
  if isImmutableTag (immutableTags l) tag then (Some ErrTagImmutable, l)
  else match DeleteTag (store l) name tag with
       | Err e => (Some e, l)
       | Ok s => (None, with_store l s)
       end.

Definition immutableTagsPointingAt l (name digest : string) : list string :=
  match ListTags (store l) name with
  | Err _ => []
  | Ok tags =>
      List.filter (fun tag =>
        isImmutableTag (immutableTags l) tag &&
        match ReadTag (store l) name tag with
        | Ok d => String.eqb (DigestString d) digest
        | Err _ => false
        end) tags
  end.

(** Forget the manifest at its subject; its sub-manifests. *)
Definition detach s (name : string) (dgst : Digest) : Store F B * list string :=
  match ReadManifest s name dgst with
  | Err _ => (s, [])
  | Ok rec =>
      let s := match inspectManifest (Body rec) with
        | Some insp =>
            if String.eqb (mSubject insp) "" then s
            else match RemoveReferrer s name (mSubject insp) (DigestString dgst) with
                 | Ok s => s
                 | Err _ => s
                 end
        | None => s
        end in
      (s, match UnmarshalMap (Body rec) with Some p => digests_in "manifests" p | None => [] end)
  end.

Definition dropIndex s (name subject : string) : Store F B :=
  match DeleteReferrersIndex s name subject with Ok s => s | Err _ => s end.

(** One sub-manifest of a deleted index: kept when it is reachable, cannot be
    parsed or is young. *)
Definition cascadeOne (live : liveSet) (minAge now : Z) (name : string) s (sub : string)
    : Store F B :=
  if hasManifest live name sub then s
  else match ParseDigest sub with
  | Err _ => s
  | Ok subDgst =>
      let t := ManifestModTime s name subDgst in
      if (0 <? minAge) && (0 <? t) && (wrap64 (now - t) <? minAge) then s
      else match DeleteManifest s name subDgst with
           | Err _ => s
           | Ok s => dropIndex s name sub
           end
  end.

Definition cascade s (minAge now : Z) (name digest : string) (subs : list string) : Store F B :=
  match subs with
  | [] => s
  | _ => foldl (cascadeOne (markRepoScoped s name digest) minAge now name) s subs
  end.

Definition deleteManifestDigest l (now : Z) (name : string) (dgst : Digest)
    : option DockerError * Local F B :=
  match immutableTagsPointingAt l name (DigestString dgst) with
  | _ :: _ => (Some ErrTagImmutable, l)
  | [] =>
      let '(s, subs) := detach (store l) name dgst in
      match DeleteManifest s name dgst with
      | Err e => (Some e, with_store l s)
      | Ok s =>
          let s := dropIndex s name (DigestString dgst) in
          (None, with_store l (cascade s (cascadeMinAge l) now name (DigestString dgst) subs))
      end
  end.

(** [Local.DeleteReference], which admin surfaces call. *)
Definition DeleteReference l (now : Z) (name ref : string) : option DockerError * Local F B :=
  match ValidateRepoName name with
  | Some _ => (Some ErrNameInvalid, l)
  | None =>
      if String.eqb ref "" then (Some ErrNameInvalid, l)
      else if IsDigestReference ref then
        match ParseDigest ref with
        | Err _ => (Some ErrDigestInvalid, l)
        | Ok d => deleteManifestDigest l now name d
        end
      else match ValidateTag ref with
           | Some _ => (Some ErrNameInvalid, l)
           | None => deleteTagReference l name ref
           end
  end.

(** The DELETE handler of a manifest. *)
Definition deleteManifest l (now : Z) (name ref : string) (d : Digest) : Response * Local F B :=
  if negb (allowPush l) then (resp 405 "DENIED", l)
  else
    let '(err, l) := if IsZero d then deleteTagReference l name ref
                     else deleteManifestDigest l now name d in
    (match err with Some e => mapError e | None => resp 202 "" end, l).

End handlers.

(** ** The upload protocol *)

(** The upload half of the blob store contract.  [session] is what a session
    that can be resumed has received so far. *)
Class BlobUploads (B : Type) := {
  StartUpload : string -> B -> result BlobError B;
  ResumeUpload : string -> B -> result BlobError string;
  SessionWrite : string -> string -> B -> result BlobError B;
  SessionOffset : string -> B -> Z;
  SessionCommit : string -> Digest -> Z -> B -> result BlobError Digest * B;
  SessionCancel : string -> B -> B;
}.

#[export] Instance MemBlobStore_uploads : BlobUploads MemBlobStore := {
  StartUpload id m := Ok (memStartUpload id m); ResumeUpload := memResumeUpload; SessionWrite := sessionWrite;
  SessionOffset := sessionOffset; SessionCommit := sessionCommit; SessionCancel := sessionCancel;
}.

Section uploads.
Context {F B : Type} {HU : BlobUploads B}.

Implicit Types l : Local F B.

Definition with_blob_store l (b : B) : Local F B := {|
  store := with_blobs (store l) b; allowPush := allowPush l; maxUpload := maxUpload l;
  immutableTags := immutableTags l; cascadeMinAge := cascadeMinAge l; uploads := uploads l;
|}.

Definition with_table l (u : uploadSessions) : Local F B := {|
  store := store l; allowPush := allowPush l; maxUpload := maxUpload l;
  immutableTags := immutableTags l; cascadeMinAge := cascadeMinAge l; uploads := u;
|}.

(** [id] is the blob session's id and [uuid] the one handed to the client. *)
Definition serveUploadStart l (name id uuid : string) : Response * Local F B :=
  if negb (allowPush l) then (resp 405 "DENIED", l)
  else match StartUpload id (blobs (store l)) with
  | Err _ => (resp 500 "UNKNOWN", l)
  | Ok b =>
      (resp 202 "", with_table (with_blob_store l b)
         (<[ uuid := {| uRepoName := name; uBlobSession := id |} ]> (uploads l)))
  end.

(** The session of a request, when the table knows it for this repository. *)
Definition findSession l (name uuid : string) : option string :=
  match uploads l !! uuid with
  | Some e => if String.eqb (uRepoName e) name then Some (uBlobSession e) else None
  | None => None
  end.

Definition serveUploadAppend l (name uuid body : string) : Response * Local F B :=
  if negb (allowPush l) then (resp 405 "DENIED", l)
  else match findSession l name uuid with
  | None => (resp 404 "BLOB_UPLOAD_UNKNOWN", l)
  | Some id =>
      match ResumeUpload id (blobs (store l)) with
      | Err _ => (resp 404 "BLOB_UPLOAD_UNKNOWN", l)
      | Ok sess =>
          match SessionWrite sess body (blobs (store l)) with
          | Err _ => (resp 500 "UNKNOWN", l)
          | Ok b => (resp 202 "", with_blob_store l b)
          end
      end
  end.

Definition serveUploadFinalize l (now : Z) (name uuid digestParam body : string)
    : Response * Local F B :=
  if negb (allowPush l) then (resp 405 "DENIED", l)
  else match findSession l name uuid with
  | None => (resp 404 "BLOB_UPLOAD_UNKNOWN", l)
  | Some id =>
      match ResumeUpload id (blobs (store l)) with
      | Err _ => (resp 404 "BLOB_UPLOAD_UNKNOWN", l)
      | Ok sess =>
          if String.eqb digestParam "" then (resp 400 "DIGEST_INVALID", l)
          else match ParseDigest digestParam with
          | Err _ => (resp 400 "DIGEST_INVALID", l)
          | Ok dgst =>
              match SessionWrite sess body (blobs (store l)) with
              | Err _ => (resp 500 "UNKNOWN", l)
              | Ok b =>
                  match SessionCommit sess dgst now b with
                  | (Err (ErrDigestMismatch _), b) => (resp 400 "DIGEST_INVALID", with_blob_store l b)
                  | (Err _, b) => (resp 500 "UNKNOWN", with_blob_store l b)
                  | (Ok _, b) =>
                      (resp 201 "", with_table (with_blob_store l b) (delete uuid (uploads l)))
                  end
              end
          end
      end
  end.

Definition serveUploadProgress l (name uuid : string) : Response :=
  match findSession l name uuid with
  | None => resp 404 "BLOB_UPLOAD_UNKNOWN"
  | Some id => match ResumeUpload id (blobs (store l)) with
               | Err _ => resp 404 "BLOB_UPLOAD_UNKNOWN"
               | Ok _ => resp 204 ""
               end
  end.

Definition serveUploadCancel l (name uuid : string) : Response * Local F B :=
  match findSession l name uuid with
  | None => (resp 404 "BLOB_UPLOAD_UNKNOWN", l)
  | Some id =>
      let l := match ResumeUpload id (blobs (store l)) with
        | Ok sess => with_blob_store l (SessionCancel sess (blobs (store l)))
        | Err _ => l
        end in
      (resp 204 "", with_table l (delete uuid (uploads l)))
  end.

End uploads.

(** ** The entry point *)

Record HTTPRequest := {
  Method : string; URLPath : string; DigestQuery : string; ReqBody : string; ReqType : string;
}.

Section http.
Context {F B : Type} {HF : RawFS F} {HB : BlobStore B} {HU : BlobUploads B}.

Implicit Types l : Local F B.

Definition status_of {A} (r : result DockerError A) : Response :=
  match r with Ok _ => resp 200 "" | Err e => mapError e end.

Definition blobError (e : BlobError) : Response :=
  match e with ErrNotFound => resp 404 "BLOB_UNKNOWN" | _ => resp 500 "UNKNOWN" end.

Definition serveManifest l (now : Z) (r : HTTPRequest) (req : parsedRequest)
    : Response * Local F B :=
  if String.eqb (Method r) "HEAD" || String.eqb (Method r) "GET" then
    (status_of (readManifest (store l) (RepoName req) (Ref req) (RefDigest req)), l)
  else if String.eqb (Method r) "PUT" then
    putManifest l (RepoName req) (Ref req) (received l (ReqBody r)) (ReqType r)
  else if String.eqb (Method r) "DELETE" then
    deleteManifest l now (RepoName req) (Ref req) (RefDigest req)
  else (resp 405 "UNSUPPORTED", l).

Definition serveBlob l (r : HTTPRequest) (req : parsedRequest) : Response * Local F B :=
  if String.eqb (Method r) "HEAD" || String.eqb (Method r) "GET" then
    (match Get (blobs (store l)) (RefDigest req) with
     | Ok _ => resp 200 ""
     | Err e => blobError e
     end, l)
  else if String.eqb (Method r) "DELETE" then
    if negb (allowPush l) then (resp 405 "DENIED", l)
    else match Delete (blobs (store l)) (RefDigest req) with
         | Ok b => (resp 202 "", with_blob_store l b)
         | Err e => (blobError e, l)
         end
  else (resp 405 "UNSUPPORTED", l).

(** [id] and [uuid] are the random ids an upload start draws. *)
Definition ServeHTTP l (now : Z) (id uuid : string) (r : HTTPRequest) : Response * Local F B :=
  match classify (Method r) (URLPath r) with
  | None => (resp 404 "UNSUPPORTED", l)
  | Some req =>
      match Op req with
      | opVersionProbe => (resp 200 "", l)
      | opCatalog => (status_of (ListRepositories (store l)), l)
      | opTagsList => (status_of (ListTags (store l) (RepoName req)), l)
      | opManifest => serveManifest l now r req
      | opBlob => serveBlob l r req
      | opUploadStart => serveUploadStart l (RepoName req) id uuid
      | opUploadProgress => (serveUploadProgress l (RepoName req) (UploadID req), l)
      | opUploadAppend => serveUploadAppend l (RepoName req) (UploadID req) (ReqBody r)
      | opUploadFinalize =>
          serveUploadFinalize l now (RepoName req) (UploadID req) (DigestQuery r) (ReqBody r)
      | opUploadCancel => serveUploadCancel l (RepoName req) (UploadID req)
      | opReferrers =>
          (status_of (ReadReferrers (store l) (RepoName req) (DigestString (RefDigest req))), l)
      | opToken => (resp 404 "UNSUPPORTED", l)
      end
  end.

(** A call on a registry: a request, or a deletion by an administrator. *)
Inductive Call :=
| HTTP (now : Z) (id uuid : string) (r : HTTPRequest)
| Admin (now : Z) (name ref : string).

Definition call l (c : Call) : Local F B :=
  match c with
  | HTTP now id uuid r => snd (ServeHTTP l now id uuid r)
  | Admin now name ref => snd (DeleteReference l now name ref)
  end.

Definition run l (calls : list Call) : Local F B := foldl call l calls.

End http.

(** ** Lemmas: files of the store *)

Section files.
Context {F B : Type} {HF : RawFS F} {HFL : RawFSLaws F}.

Implicit Types s : Store F B.

(** Names of repositories, kinds and files without a slash make distinct paths. *)
Definition repoFile s (name kind x : string) : string :=
  repoDir s name +:+ "/" +:+ kind +:+ "/" +:+ x.

Lemma json_name_good x : no_byte "/" x = true -> good_seg (x +:+ ".json").
Proof.
  intros Hx. unfold good_seg. rewrite no_byte_app, Hx.
  split_and!; [by destruct x|intros E..|done];
    apply (f_equal len) in E; rewrite len_app in E; cbn in E; lia.
Qed.

Lemma manifestPath_file s name d : good_base s -> good_path name ->
  ParseDigest (DigestString d) = Ok d ->
  manifestPath s name d = repoFile s name "manifests" (DigestString d +:+ ".json").
Proof.
  intros Hb Hn Hd. destruct (DigestString_good d Hd) as (_ & _ & _ & Hs).
  by apply repo_file; [done..|apply json_name_good].
Qed.

Lemma tagPath_file s name tag : good_base s -> good_path name -> good_seg tag ->
  tagPath s name tag = repoFile s name "tags" tag.
Proof. intros Hb Hn Ht. by apply repo_file. Qed.

Lemma referrersPath_file s name subject : good_base s -> good_path name ->
  no_byte "/" subject = true ->
  referrersIndexPath s name subject = repoFile s name "_referrers" (subject +:+ ".json").
Proof. intros Hb Hn Hs. by apply repo_file; [done..|apply json_name_good]. Qed.

Lemma repoFile_inj s n n' k k' x x' : good_base s -> good_path n -> good_path n' ->
  no_byte "/" k = true -> no_byte "/" k' = true -> no_byte "/" x = true -> no_byte "/" x' = true ->
  repoFile s n k x = repoFile s n' k' x' -> n = n' /\ k = k' /\ x = x'.
Proof. apply repo_file_inj. Qed.

(** The files a reader of the registry depends on: tags, manifests and their
    sidecars, in a valid repository. *)
Inductive registryFile s : string -> Prop :=
| rf_tag name tag : good_path name -> good_seg tag -> registryFile s (tagPath s name tag)
| rf_manifest name d : good_path name -> ParseDigest (DigestString d) = Ok d ->
    registryFile s (manifestPath s name d)
| rf_media name d : good_path name -> ParseDigest (DigestString d) = Ok d ->
    registryFile s (manifestPath s name d +:+ ".media").

Lemma registryFile_shape s p : good_base s -> registryFile s p ->
  exists name kind x, good_path name /\ (kind = "tags" \/ kind = "manifests") /\
    no_byte "/" x = true /\ p = repoFile s name kind x.
Proof.
  intros Hb H. destruct H as [name tag Hn Ht|name d Hn Hd|name d Hn Hd].
  - exists name, "tags", tag. rewrite tagPath_file by done. split_and!; try done; [by left|].
    apply Ht.
  - exists name, "manifests", (DigestString d +:+ ".json"). rewrite manifestPath_file by done.
    destruct (DigestString_good d Hd) as (_ & _ & _ & Hs). rewrite no_byte_app, Hs.
    split_and!; try done. by right.
  - exists name, "manifests", (DigestString d +:+ ".json.media"). rewrite manifestPath_file by done.
    destruct (DigestString_good d Hd) as (_ & _ & _ & Hs). rewrite no_byte_app, Hs.
    split_and!; try done; [by right|]. unfold repoFile. by rewrite !str_app_assoc.
Qed.

(** A referrers index of a plain subject is none of these files. *)
Lemma referrers_not_registry s name subject p : good_base s -> good_path name ->
  no_byte "/" subject = true -> registryFile s p -> p <> referrersIndexPath s name subject.
Proof.
  intros Hb Hn Hs Hp E. destruct (registryFile_shape s p Hb Hp) as (n & k & x & Hn' & Hk & Hx & ->).
  rewrite referrersPath_file in E by done.
  apply repoFile_inj in E as (_ & -> & _); try done; [by destruct Hk|by destruct Hk as [-> | ->]|].
  by rewrite no_byte_app, Hs.
Qed.

(** Paths depend on the base path only. *)
Lemma manifestPath_base s s' name d : basePath s' = basePath s ->
  manifestPath s' name d = manifestPath s name d.
Proof. intros Hb. unfold manifestPath, repoDir, join. by rewrite Hb. Qed.

Lemma tagPath_base s s' name tag : basePath s' = basePath s ->
  tagPath s' name tag = tagPath s name tag.
Proof. intros Hb. unfold tagPath, repoDir, join. by rewrite Hb. Qed.

Lemma registryFile_base s s' p : basePath s' = basePath s -> registryFile s p -> registryFile s' p.
Proof.
  intros Hb Hp. destruct Hp as [m t Hm Ht|m d Hm Hd|m d Hm Hd].
  - rewrite <-(tagPath_base s s') by done. by apply rf_tag.
  - rewrite <-(manifestPath_base s s') by done. by apply rf_manifest.
  - rewrite <-(manifestPath_base s s') by done. by apply rf_media.
Qed.

(** The subject of a manifest body, when it has one, is a plain name. *)
Definition plain_subject (body : string) : Prop :=
  match inspectManifest body with
  | Some insp => no_byte "/" (mSubject insp) = true
  | None => True
  end.

(** Reads only depend on the files they open. *)
Lemma ReadTag_same s s' name tag : basePath s' = basePath s ->
  Open (fs s') (tagPath s name tag) = Open (fs s) (tagPath s name tag) ->
  ReadTag s' name tag = ReadTag s name tag.
Proof. intros Hb Ho. unfold ReadTag. by rewrite (tagPath_base s s'), Ho. Qed.

Lemma ReadManifest_same s s' name d : basePath s' = basePath s ->
  Open (fs s') (manifestPath s name d) = Open (fs s) (manifestPath s name d) ->
  Open (fs s') (manifestPath s name d +:+ ".media")
    = Open (fs s) (manifestPath s name d +:+ ".media") ->
  ReadManifest s' name d = ReadManifest s name d.
Proof.
  intros Hb Ho Hm. unfold ReadManifest. by rewrite (manifestPath_base s s'), Ho, Hm.
Qed.

(** Distinct manifests have distinct files. *)
Lemma manifest_files_differ s n n' d d' : good_base s -> good_path n -> good_path n' ->
  ParseDigest (DigestString d) = Ok d -> ParseDigest (DigestString d') = Ok d' ->
  (n, d) <> (n', d') ->
  manifestPath s n d <> manifestPath s n' d' /\
  manifestPath s n d <> manifestPath s n' d' +:+ ".media" /\
  manifestPath s n d +:+ ".media" <> manifestPath s n' d' /\
  manifestPath s n d +:+ ".media" <> manifestPath s n' d' +:+ ".media".
Proof.
  intros Hb Hn Hn' Hd Hd' Hne.
  destruct (DigestString_good d Hd) as (_ & _ & _ & Hs), (DigestString_good d' Hd') as (_ & _ & _ & Hs').
  assert (Em : forall n d, good_path n -> ParseDigest (DigestString d) = Ok d ->
    manifestPath s n d +:+ ".media" = repoFile s n "manifests" (DigestString d +:+ ".json.media")).
  { intros m e Hm He. rewrite manifestPath_file by done. unfold repoFile. by rewrite !str_app_assoc. }
  rewrite !Em, !manifestPath_file by done.
  split_and!; intros E; apply repoFile_inj in E as (-> & _ & E);
    try done; rewrite ?no_byte_app, ?Hs, ?Hs'; try done.
  - apply app_suffix_inj, DigestString_inj in E as ->; [|done..]. done.
  - change ".json.media" with (".json" +:+ ".media") in E. rewrite <-str_app_assoc in E.
    by apply suffix_clash in E.
  - change ".json.media" with (".json" +:+ ".media") in E. rewrite <-str_app_assoc in E.
    by apply eq_sym, suffix_clash in E.
  - apply app_suffix_inj, DigestString_inj in E as ->; [|done..]. done.
Qed.

(** A tag's file is no manifest file. *)
Lemma tag_not_manifest s n t n' d : good_base s -> good_path n -> good_seg t -> good_path n' ->
  ParseDigest (DigestString d) = Ok d ->
  tagPath s n t <> manifestPath s n' d /\ tagPath s n t <> manifestPath s n' d +:+ ".media".
Proof.
  intros Hb Hn Ht Hn' Hd. destruct (DigestString_good d Hd) as (_ & _ & _ & Hs).
  rewrite tagPath_file, manifestPath_file by done. destruct Ht as (_ & _ & _ & Ht).
  split; [|unfold repoFile at 2; rewrite !str_app_assoc; fold (repoFile s n' "manifests" (DigestString d +:+ ".json.media"))];
    intros E; apply repoFile_inj in E as (_ & ? & _); try done; by rewrite no_byte_app, Hs.
Qed.

(** ** Lemmas: what an operation changes *)

(** The registry files that do not keep their content have one [R] allows. *)
Definition evolves (R : string -> result string string -> Prop) s s' : Prop :=
  basePath s' = basePath s /\ (healthy (fs s) -> healthy (fs s')) /\
  forall p, registryFile s p -> Open (fs s') p = Open (fs s) p \/ R p (Open (fs s') p).

Definition quiet : Store F B -> Store F B -> Prop := evolves (fun _ _ => False).

Lemma evolves_refl R s : evolves R s s.
Proof. split_and!; [done|done|]. by left. Qed.

Lemma evolves_trans R s s' s'' : evolves R s s' -> evolves R s' s'' -> evolves R s s''.
Proof.
  intros (Hb & Hh & Ho) (Hb' & Hh' & Ho'). split_and!; [congruence|by eauto|].
  intros p Hp. destruct (Ho' p (registryFile_base s s' p Hb Hp)) as [E|?]; [|by right].
  rewrite E. by apply Ho.
Qed.

Lemma evolves_mono (R R' : string -> result string string -> Prop) s s' :
  (forall p o, registryFile s p -> R p o -> R' p o) -> evolves R s s' -> evolves R' s s'.
Proof.
  intros HR (Hb & Hh & Ho). split_and!; [done..|]. intros p Hp.
  destruct (Ho p Hp); [by left|right; by apply HR].
Qed.

Lemma quiet_evolves R s s' : quiet s s' -> evolves R s s'.
Proof. by apply evolves_mono. Qed.

Lemma quiet_Open s s' p : quiet s s' -> registryFile s p -> Open (fs s') p = Open (fs s) p.
Proof. intros (_ & _ & Ho) Hp. by destruct (Ho p Hp). Qed.

Lemma evolves_write (R : string -> result string string -> Prop) s q c f : Write (fs s) q c = Ok f ->
  (registryFile s q -> R q (Ok c)) -> evolves R s (with_fs s f).
Proof.
  intros Hw HR. split_and!; [done|intros Hh; by eapply Write_healthy|]. intros p Hp.
  destruct (decide (p = q)) as [->|Hne].
  - right. cbn [fs with_fs]. rewrite (Write_same _ _ _ _ Hw). by apply HR.
  - left. by eapply Write_other.
Qed.

Lemma evolves_write_file (R : string -> result string string -> Prop) s q c s' :
  write_file s q c = Ok s' -> (registryFile s q -> R q (Ok c)) -> evolves R s s'.
Proof.
  unfold write_file. destruct (negb _); [done|]. destruct (Write _ _ _) as [f|] eqn:E; [|done].
  intros [= <-]. by apply evolves_write.
Qed.

Lemma write_file_Open s q c s' : write_file s q c = Ok s' -> Open (fs s') q = Ok c.
Proof.
  unfold write_file. destruct (negb _); [done|]. destruct (Write _ _ _) as [f|] eqn:E; [|done].
  intros [= <-]. by eapply Write_same.
Qed.

Lemma write_file_other s q c s' p : write_file s q c = Ok s' -> p <> q ->
  Open (fs s') p = Open (fs s) p.
Proof.
  unfold write_file. destruct (negb _); [done|]. destruct (Write _ _ _) as [f|] eqn:E; [|done].
  intros [= <-] Hne. by eapply Write_other.
Qed.

Lemma evolves_remove (R : string -> result string string -> Prop) s q f : Remove (fs s) q = Ok f ->
  (forall o, registryFile s q -> is_ok o = false -> R q o) -> evolves R s (with_fs s f).
Proof.
  intros Hr HR. split_and!; [done|intros Hh; by eapply Remove_healthy|]. intros p Hp.
  destruct (decide (p = q)) as [->|Hne].
  - right. by apply HR; [|eapply Remove_gone].
  - left. by eapply Remove_other.
Qed.

Lemma evolves_remove_quietly (R : string -> result string string -> Prop) s q :
  (forall o, registryFile s q -> is_ok o = false -> R q o) ->
  evolves R s (with_fs s (remove_quietly (fs s) q)).
Proof.
  intros HR. unfold remove_quietly. destruct (Remove (fs s) q) as [f|] eqn:E.
  - by eapply evolves_remove.
  - replace (with_fs s (fs s)) with s by (by destruct s). apply evolves_refl.
Qed.

(** The two files of a manifest. *)
Definition manifest_file s (name : string) (d : Digest) (p : string) : Prop :=
  p = manifestPath s name d \/ p = manifestPath s name d +:+ ".media".

Lemma evolves_DeleteManifest s name d s' : DeleteManifest s name d = Ok s' ->
  evolves (fun p o => is_ok o = false /\ manifest_file s name d p) s s'.
Proof.
  unfold DeleteManifest. destruct (negb _); [done|].
  destruct (Remove _ _) as [f|e] eqn:E; [|by destruct (isNotFound e)]. intros [= <-].
  eapply evolves_trans.
  - eapply evolves_remove; [exact E|]. intros o _ Ho. by split; [|left].
  - apply (evolves_remove_quietly _ (with_fs s f) (manifestPath s name d +:+ ".media")).
    intros o _ Ho. by split; [|right].
Qed.

(** A referrers index of a plain subject is no registry file. *)
Lemma referrers_quiet s name subject : good_base s -> good_path name -> no_byte "/" subject = true ->
  ~ registryFile s (referrersIndexPath s name subject).
Proof. intros Hb Hn Hs Hp. by eapply referrers_not_registry. Qed.

Lemma AddReferrer_quiet s name subject desc s' : good_base s -> good_path name ->
  no_byte "/" subject = true -> AddReferrer s name subject desc = Ok s' -> quiet s s'.
Proof.
  intros Hb Hn Hs. unfold AddReferrer, writeReferrers. destruct (negb _); [done|].
  destruct (Write _ _ _) as [f|] eqn:Ew; [|done]. intros [= <-].
  eapply evolves_write; [exact Ew|]. by apply referrers_quiet.
Qed.

Lemma RemoveReferrer_quiet s name subject r s' : good_base s -> good_path name ->
  no_byte "/" subject = true -> RemoveReferrer s name subject r = Ok s' -> quiet s s'.
Proof.
  intros Hb Hn Hs. pose proof (referrers_quiet s name subject Hb Hn Hs) as Hq.
  unfold RemoveReferrer, writeReferrers. destruct (negb _); [done|].
  destruct (ReadReferrers _ _ _) as [idx|]; [|done]. destruct (List.filter _ _).
  - intros [= <-]. apply evolves_remove_quietly. by intros o ?%Hq.
  - destruct (Write _ _ _) as [f|] eqn:Ew; [|done]. intros [= <-].
    eapply evolves_write; [exact Ew|]. done.
Qed.

Lemma dropIndex_quiet s name subject : good_base s -> good_path name ->
  no_byte "/" subject = true -> quiet s (dropIndex s name subject).
Proof.
  intros Hb Hn Hs. pose proof (referrers_quiet s name subject Hb Hn Hs) as Hq.
  unfold dropIndex, DeleteReferrersIndex. destruct (negb _); [apply evolves_refl|].
  destruct (Remove _ _) as [f|e] eqn:E; [|destruct (isNotFound e); apply evolves_refl].
  eapply evolves_remove; [exact E|]. by intros o ?%Hq.
Qed.

Lemma indexSubject_quiet s name body ct dgst : good_base s -> good_path name ->
  plain_subject body -> quiet s (indexSubject s name body ct dgst).
Proof.
  intros Hb Hn Hpl. unfold indexSubject, plain_subject in *.
  destruct (inspectManifest body) as [insp|]; [|apply evolves_refl].
  destruct (String.eqb _ ""); [apply evolves_refl|].
  destruct (AddReferrer _ _ _ _) as [s'|] eqn:E; [|apply evolves_refl].
  by eapply AddReferrer_quiet.
Qed.

End files.

(** ** Lemmas: the cascade *)

Section cascades.
Context {F B : Type} {HF : RawFS F} {HFL : RawFSLaws F} {HB : BlobStore B}.

Implicit Types (s : Store F B) (l : Local F B).

Lemma scopedTag_grows s name ex live tag : grows live (scopedTag s name ex live tag).
Proof.
  unfold scopedTag. destruct (ReadTag s name tag) as [d|]; [|done].
  destruct (String.eqb _ _); [done|]. apply mark_fuel.
Qed.

Lemma scopedTag_fresh s name ex live tag : fresh_closed s name live (scopedTag s name ex live tag).
Proof.
  unfold scopedTag. destruct (ReadTag s name tag) as [d|]; [|by apply fresh_closed_same].
  destruct (String.eqb _ _); [by apply fresh_closed_same|]. apply mark_fuel.
Qed.

Lemma scopedTags_spec s name ex tags : forall live,
  grows live (foldl (scopedTag s name ex) live tags) /\
  fresh_closed s name live (foldl (scopedTag s name ex) live tags) /\
  forall tag d, tag ∈ tags -> ReadTag s name tag = Ok d -> DigestString d <> ex ->
    (name, DigestString d) ∈ lManifests (foldl (scopedTag s name ex) live tags).
Proof.
  induction tags as [|t tags IH]; intros live; cbn [foldl].
  { split_and!; [done|by apply fresh_closed_same|]. by intros ? ? ?%elem_of_nil. }
  destruct (IH (scopedTag s name ex live t)) as (Hg & Hc & Hm).
  pose proof (scopedTag_grows s name ex live t) as Hg0.
  split_and!; [by etrans| |].
  - eapply fresh_closed_trans; [apply scopedTag_fresh|exact Hc|exact Hg].
  - intros tag d [->|Hin]%elem_of_cons Hr Hne; [|by eapply Hm].
    apply Hg. unfold scopedTag. rewrite Hr, (proj2 (String.eqb_neq _ _) Hne).
    apply mark_fuel. unfold ReadTag in Hr.
    destruct (Open _ _) as [body|x]; [|by destruct (isNotFound x)].
    destruct (ParseDigest (TrimSpace body)) as [y|] eqn:Ed; [|done]. injection Hr as ->.
    by rewrite (proj2 (ParseDigest_normal _ _ Ed)).
Qed.

Lemma foldl_grows {A} (f : liveSet -> A -> liveSet) xs : (forall live x, grows live (f live x)) ->
  forall live, grows live (foldl f live xs).
Proof.
  intros Hf. induction xs as [|x xs IH]; intros live; [done|]. cbn [foldl].
  transitivity (f live x); [apply Hf|apply IH].
Qed.

Lemma scopedReferrersFile_grows s name ex live e : grows live (scopedReferrersFile s name ex live e).
Proof.
  unfold scopedReferrersFile. destruct (negb _); [done|]. destruct (String.eqb _ _); [done|].
  set (live1 := addBlob _ _).
  assert (H1 : grows live live1) by (etrans; [apply grows_addManifest|apply grows_addBlob]).
  destruct (Open _ _) as [body|]; [|done]. destruct (decodeIndex body); [|done].
  etrans; [exact H1|]. apply foldl_grows. intros live' m. unfold scopedReferrer.
  destruct (String.eqb _ _); [done|]. etrans; [apply grows_addManifest|apply mark_fuel].
Qed.

(** What the scoped walk keeps: everything its tags reach. *)
Lemma markRepoScoped_spec s name ex tags tag d x : ListTags s name = Ok tags -> tag ∈ tags ->
  ReadTag s name tag = Ok d -> DigestString d <> ex -> rtc (refers s name) (DigestString d) x ->
  (name, x) ∈ lManifests (markRepoScoped s name ex).
Proof.
  intros Ht Hin Hr Hne Hx. unfold markRepoScoped. rewrite Ht.
  destruct (scopedTags_spec s name ex tags newLiveSet) as (_ & Hc & Hm).
  assert (Hl : (name, x) ∈ lManifests (foldl (scopedTag s name ex) newLiveSet tags)).
  { refine (proj1 (fresh_closed_reach s name newLiveSet _ (DigestString d) x _ Hc _ Hx)).
    - cbn. set_solver.
    - by eapply Hm. }
  destruct (ReadDir _ _) as [es|]; [|done].
  refine (proj2 (foldl_grows _ es _ _) _ Hl). apply scopedReferrersFile_grows.
Qed.

End cascades.
