(* ===== verification/DockerLocalSafety.v ===== *)
(** * Safety of the hosted registry: integrity, immutable tags, cascades

    What the calls on a registry ([DockerLocal.call]: any HTTP request, any
    deletion by an administrator) keep: a manifest is stored under the digest
    of its body, a deletion keeps what the tags reach, an immutable tag keeps
    its manifest; an upload is published under its digest or not at all.  The
    theorems ask that pushed manifests are [tidy]; the last ones run the pushes
    that break the registry otherwise. *)

From Stdlib Require Import ZArith Lia Ascii.
From stdpp Require Import base list strings gmap relations.
From S2P Require Import Prelude GoStrings GoPath GoHash GoJson BlobStore RawFS DockerStore DockerGC.
From S2P Require Import DockerGCSafety DockerNames DockerLocal.

Local Open Scope Z_scope.

(** ** Well-formed stores *)

Definition normal (d : Digest) : Prop := ParseDigest (DigestString d) = Ok d.

(** The subject of a manifest is a plain name, and its sub-manifests are in
    normal form. *)
Definition tidy (body : string) : Prop :=
  plain_subject body /\
  forall parsed r d, UnmarshalMap body = Some parsed -> r ∈ digests_in "manifests" parsed ->
    ParseDigest r = Ok d -> DigestString d = r.

(** [tidy] is decidable. *)
Definition tidyb (body : string) : bool :=
  match inspectManifest body with Some insp => no_byte "/" (mSubject insp) | None => true end &&
  match UnmarshalMap body with
  | Some parsed =>
      forallb (fun r => match ParseDigest r with
                        | Ok d => String.eqb (DigestString d) r
                        | Err _ => true
                        end) (digests_in "manifests" parsed)
  | None => true
  end.

Lemma tidyb_tidy body : tidyb body = true -> tidy body.
Proof.
  unfold tidyb, tidy, plain_subject. intros [H1 H2]%andb_true_iff. split.
  - by destruct (inspectManifest body).
  - intros parsed r d Hp Hin Hd. rewrite Hp in H2. rewrite forallb_forall in H2.
    specialize (H2 r (proj1 (list_elem_of_In _ _) Hin)). rewrite Hd in H2. by apply String.eqb_eq.
Qed.

Section safety.
Context {F B : Type} {HF : RawFS F} {HFL : RawFSLaws F} {HB : BlobStore B}.

Implicit Types (s : Store F B) (l : Local F B).

(** Every stored manifest is tidy and under the digest of its body. *)
Record sound s : Prop := {
  sound_base : good_base s;
  sound_healthy : healthy (fs s);
  sound_manifest name d body : good_path name -> normal d ->
    Open (fs s) (manifestPath s name d) = Ok body -> tidy body /\ bodyDigest body = d;
}.

Lemma bodyDigest_normal body : normal (bodyDigest body).
Proof. by apply (DigestFromHash_parses "sha256" Sum256). Qed.

Lemma sound_evolves R s s' : sound s -> evolves R s s' ->
  (forall name d body, good_path name -> normal d -> R (manifestPath s name d) (Ok body) ->
     tidy body /\ bodyDigest body = d) ->
  sound s'.
Proof.
  intros [Hb Hh Hm] (Eb & Eh & Eo) HR. split; [by unfold good_base; rewrite Eb|by apply Eh|].
  intros name d body Hn Hd. rewrite (manifestPath_base s s' name d Eb). intros Ho.
  destruct (Eo (manifestPath s name d)) as [E|Hr]; [by apply rf_manifest| |].
  - rewrite E in Ho. by eapply Hm.
  - rewrite Ho in Hr. by eapply HR.
Qed.

Lemma good_base_evolves R s s' : good_base s -> evolves R s s' -> good_base s'.
Proof. intros Hb (E & _). unfold good_base. by rewrite E. Qed.

(** The tag of a repository reads the same when its file is not changed. *)
Lemma ReadTag_evolves R s s' name tag : evolves R s s' -> good_path name -> good_seg tag ->
  (forall o, ~ R (tagPath s name tag) o) -> ReadTag s' name tag = ReadTag s name tag.
Proof.
  intros (Hb & _ & Ho) Hn Ht Hno. apply ReadTag_same; [done|].
  destruct (Ho (tagPath s name tag)) as [?|[]%Hno]; [by apply rf_tag|done].
Qed.

Lemma ReadManifest_evolves R s s' name d : evolves R s s' -> good_path name -> normal d ->
  (forall p o, manifest_file s name d p -> ~ R p o) ->
  ReadManifest s' name d = ReadManifest s name d.
Proof.
  intros (Hb & _ & Ho) Hn Hd Hno. apply ReadManifest_same; [done|..].
  - destruct (Ho (manifestPath s name d)) as [?|[]%Hno]; [by apply rf_manifest|done|by left].
  - destruct (Ho (manifestPath s name d +:+ ".media")) as [?|[]%Hno];
      [by apply rf_media|done|by right].
Qed.

Lemma ReadManifest_Open s name d rec : ReadManifest s name d = Ok rec <->
  exists body, Open (fs s) (manifestPath s name d) = Ok body /\ Body rec = body /\
    ReadManifest s name d = Ok rec.
Proof.
  split; [|by intros (? & _ & _ & ?)]. intros H. exists (Body rec). split_and!; [|done|done].
  unfold ReadManifest in H. destruct (Open _ _) as [body|e]; [by injection H as <-|].
  by destruct (isNotFound e).
Qed.

Lemma Open_ReadManifest s name d body : Open (fs s) (manifestPath s name d) = Ok body ->
  exists rec, ReadManifest s name d = Ok rec /\ Body rec = body.
Proof. intros H. unfold ReadManifest. rewrite H. eauto. Qed.

Lemma ReadTag_normal s name tag d : ReadTag s name tag = Ok d -> normal d.
Proof.
  unfold ReadTag. destruct (Open _ _) as [body|e]; [|by destruct (isNotFound e)].
  destruct (ParseDigest (TrimSpace body)) as [x|] eqn:E; [|done]. intros [= <-].
  by apply (ParseDigest_normal _ _ E).
Qed.

(** A written tag reads back. *)
Lemma ReadTag_written s name tag d : normal d ->
  Open (fs s) (tagPath s name tag) = Ok (DigestString d) -> ReadTag s name tag = Ok d.
Proof.
  intros Hd Ho. unfold ReadTag. rewrite Ho, TrimSpace_noop by (by eapply ParseDigest_graphic).
  by rewrite Hd.
Qed.

(** Distinct tags have distinct files. *)
Lemma tag_files_differ s n t n' t' : good_base s -> good_path n -> good_seg t -> good_path n' ->
  good_seg t' -> tagPath s n t = tagPath s n' t' -> n = n' /\ t = t'.
Proof.
  intros Hb Hn Ht Hn' Ht'. rewrite !tagPath_file by done.
  intros E. apply repoFile_inj in E as (-> & _ & ->); try done; [apply Ht|apply Ht'].
Qed.

Lemma manifest_file_inj s n d n' d' p : good_base s -> good_path n -> good_path n' ->
  normal d -> normal d' -> manifest_file s n d p -> manifest_file s n' d' p -> n = n' /\ d = d'.
Proof.
  intros Hb Hn Hn' Hd Hd' H H'.
  destruct (decide (n = n' /\ DigestString d = DigestString d')) as [[-> E]|Hne].
  { split; [done|]. by apply DigestString_inj. }
  exfalso. destruct (manifest_files_differ s n n' d d' Hb Hn Hn' Hd Hd') as (H1 & H2 & H3 & H4).
  { intros [= -> ->]. by apply Hne. }
  destruct H as [-> | ->], H' as [E|E]; done.
Qed.

Lemma tag_no_manifest_file s n t n' d : good_base s -> good_path n -> good_seg t -> good_path n' ->
  normal d -> ~ manifest_file s n' d (tagPath s n t).
Proof.
  intros Hb Hn Ht Hn' Hd [E|E]; destruct (tag_not_manifest s n t n' d Hb Hn Ht Hn' Hd); done.
Qed.

(** A readable tag is listed. *)
Lemma ListTags_readable s name tag d : good_base s -> healthy (fs s) -> good_path name ->
  good_seg tag -> ReadTag s name tag = Ok d ->
  exists tags, ListTags s name = Ok tags /\ tag ∈ tags.
Proof.
  intros Hb Hh Hn Ht Hr. destruct (repoDir_good s name Hb Hn) as [_ Hg].
  assert (Hs : good_seg "tags") by (by apply (bool_decide_unpack _); vm_compute).
  assert (Hp : PathJoin [repoDir s name; "tags"] = repoDir s name +:+ "/" +:+ "tags").
  { rewrite PathJoin_good; [done|done|]. repeat constructor; eauto with kutu. }
  assert (Hgp : good_path (repoDir s name +:+ "/" +:+ "tags"))
    by (apply good_path_app; eauto with kutu).
  assert (Ho : is_ok (Open (fs s) ((repoDir s name +:+ "/" +:+ "tags") +:+ "/" +:+ tag)) = true).
  { rewrite !str_app_assoc. fold (repoFile s name "tags" tag).
    rewrite <-tagPath_file by done. unfold ReadTag in Hr.
    destruct (Open _ _) as [?|e]; [done|by destruct (isNotFound e)]. }
  unfold ListTags. rewrite Hp.
  pose proof (healthy_lists _ _ _ Hh Hgp Ht Ho) as Hl.
  destruct (ReadDir (fs s) _) as [es|] eqn:E; [|done]. eexists. split; [done|].
  unfold sortStrings. rewrite SliceStable_perm. apply list_elem_of_omap.
  exists {| Name := tag; IsDir := false |}. split; [by eapply ReadDir_listed|]. cbn.
  destruct Ht as [Hne _]. by rewrite (proj2 (String.eqb_neq _ _) Hne).
Qed.

(** ** Pushing a manifest *)

Definition put_effect s (name ref body : string) (p : string) (o : result string string) : Prop :=
  (manifest_file s name (bodyDigest body) p /\
   (p = manifestPath s name (bodyDigest body) -> o = Ok body)) \/
  (is_tag ref = true /\ p = tagPath s name ref /\ o = Ok (DigestString (bodyDigest body))).

Lemma WriteManifest_effect s name ref body ct s' :
  WriteManifest s name (bodyDigest body) body ct = Ok s' ->
  evolves (put_effect s name ref body) s s' /\
  Open (fs s') (manifestPath s name (bodyDigest body)) = Ok body.
Proof.
  unfold WriteManifest. set (mp := manifestPath s name (bodyDigest body)).
  destruct (write_file s mp body) as [s1|] eqn:E1; [|done].
  assert (H1 : evolves (put_effect s name ref body) s s1).
  { eapply evolves_write_file; [exact E1|]. intros _. left. split; [by left|done]. }
  pose proof (write_file_Open _ _ _ _ E1) as Ho.
  assert (Eb : manifestPath s1 name (bodyDigest body) = mp) by (apply manifestPath_base, H1).
  rewrite Eb. destruct (write_file s1 (mp +:+ ".media") ct) as [s2|] eqn:E2; [|by intros [= <-]].
  intros [= <-].
  assert (Hne : mp +:+ ".media" <> mp).
  { intros E. apply (f_equal len) in E. rewrite len_app in E. cbn in E. lia. }
  split.
  - eapply evolves_trans; [exact H1|]. eapply evolves_write_file; [exact E2|].
    intros _. left. split; [by right|]. done.
  - by rewrite (write_file_other _ _ _ _ mp E2).
Qed.

Lemma SetTag_effect s s' name ref body : good_base s -> good_path name -> good_seg ref ->
  is_tag ref = true -> SetTag s name ref (bodyDigest body) = Ok s' ->
  evolves (put_effect s name ref body) s s' /\
  ReadTag s' name ref = Ok (bodyDigest body) /\
  Open (fs s') (manifestPath s name (bodyDigest body))
    = Open (fs s) (manifestPath s name (bodyDigest body)).
Proof.
  intros Hb Hn Hs Ht Hset. pose proof (bodyDigest_normal body) as Hd. unfold SetTag in Hset.
  assert (He : evolves (put_effect s name ref body) s s').
  { eapply evolves_write_file; [exact Hset|]. intros _. by right. }
  split_and!; [done| |].
  - apply ReadTag_written; [done|]. rewrite (tagPath_base s s') by apply He.
    by eapply write_file_Open.
  - eapply write_file_other; [exact Hset|]. intros E. symmetry in E.
    by apply (tag_not_manifest s name ref name _ Hb Hn Hs Hn Hd) in E.
Qed.

(** The effect depends on the base path only. *)
Lemma put_effect_base s s1 name ref body p o : basePath s1 = basePath s ->
  put_effect s1 name ref body p o -> put_effect s name ref body p o.
Proof.
  intros Hb. unfold put_effect, manifest_file.
  by rewrite (manifestPath_base s s1), (tagPath_base s s1).
Qed.

Lemma indexSubject_reads s name body ct dgst ref d : good_base s -> good_path name ->
  plain_subject body -> normal d ->
  let s' := indexSubject s name body ct dgst in
  quiet s s' /\ Open (fs s') (manifestPath s name d) = Open (fs s) (manifestPath s name d) /\
  (good_seg ref -> ReadTag s' name ref = ReadTag s name ref).
Proof.
  intros Hb Hn Hp Hd s'. pose proof (indexSubject_quiet s name body ct dgst Hb Hn Hp) as Hq.
  split_and!; [done|by apply quiet_Open, rf_manifest|].
  intros Hr. apply (ReadTag_evolves (fun _ _ => False) s s' name ref Hq Hn Hr). by intros o [].
Qed.

(** Every push, accepted or refused. *)
Lemma putManifest_effect l name ref body ct r l' : good_base (store l) -> good_path name ->
  (is_tag ref = true -> good_seg ref) -> plain_subject body ->
  putManifest l name ref body ct = (r, l') ->
  evolves (put_effect (store l) name ref body) (store l) (store l') /\
  (Status r = 201 ->
    Open (fs (store l')) (manifestPath (store l) name (bodyDigest body)) = Ok body /\
    (is_tag ref = true -> ReadTag (store l') name ref = Ok (bodyDigest body))).
Proof.
  intros Hb Hn Ht Hp. set (d := bodyDigest body). pose proof (bodyDigest_normal body) as Hd.
  unfold putManifest. destruct (allowPush l); cbn [negb].
  2:{ intros [= <- <-]. split; [apply evolves_refl|done]. }
  destruct (_ <? _). { intros [= <- <-]. split; [apply evolves_refl|done]. }
  cbv zeta. destruct (immutableConflict l name ref (bodyDigest body)) as [rc|] eqn:Ec.
  { intros [= <- <-]. split; [apply evolves_refl|].
    unfold immutableConflict in Ec. destruct (_ && _); [|done].
    destruct (ReadTag _ _ _) as [x|[]]; [destruct (String.eqb _ _)|..]; try done; by injection Ec as <-. }
  destruct (WriteManifest _ _ _ _ _) as [s1|e] eqn:Ew.
  2:{ intros [= <- <-]. split; [apply evolves_refl|]. by destruct e. }
  destruct (WriteManifest_effect _ _ ref _ _ _ Ew) as [H1 Ho1]. fold d in Ho1, Ew |- *.
  set (ct' := if String.eqb ct "" then defaultContentType else ct) in *.
  pose proof (good_base_evolves _ _ _ Hb H1) as Hb1. pose proof (proj1 H1) as Eb1.
  destruct (is_tag ref) eqn:Et.
  - specialize (Ht eq_refl). destruct (SetTag s1 name ref d) as [s2|e] eqn:Es.
    2:{ intros [= <- <-]. split; [done|by destruct e]. }
    destruct (SetTag_effect s1 s2 name ref body Hb1 Hn Ht Et Es) as (H2 & Hr2 & Ho2).
    pose proof (good_base_evolves _ _ _ Hb1 H2) as Hb2.
    destruct (indexSubject_reads s2 name body ct' d ref d Hb2 Hn Hp Hd) as (Hq & Ho3 & Hr3).
    intros [= <- <-]. cbn [store with_store].
    rewrite (manifestPath_base s1 s2) in Ho3 by apply H2.
    rewrite (manifestPath_base (store l) s1) in Ho2, Ho3 by done. split.
    + eapply evolves_trans; [exact H1|]. eapply evolves_trans; [|by apply quiet_evolves].
      eapply evolves_mono; [|exact H2]. intros p o _. by apply put_effect_base.
    + intros _. split; [exact (eq_trans Ho3 (eq_trans Ho2 Ho1))|]. intros _. by rewrite Hr3.
  - destruct (indexSubject_reads s1 name body ct' d ref d Hb1 Hn Hp Hd) as (Hq & Ho3 & _).
    rewrite (manifestPath_base (store l) s1) in Ho3 by done.
    intros [= <- <-]. cbn [store with_store].
    split; [|intros _; split; [exact (eq_trans Ho3 Ho1)|done]].
    eapply evolves_trans; [exact H1|]. by apply quiet_evolves.
Qed.

(** ** Deleting *)

(** One manifest refers to another along a chain that does not pass [dgst]. *)
Definition refers_avoiding s (name : string) (dgst : Digest) (a b : string) : Prop :=
  refers s name a b /\ ParseDigest a <> Ok dgst.

(** A tag that is not on [dgst] reaches [d]. *)
Definition tag_reaches s (name : string) (dgst d : Digest) : Prop :=
  exists tag t, good_seg tag /\ ReadTag s name tag = Ok t /\ t <> dgst /\
    rtc (refers_avoiding s name dgst) (DigestString t) (DigestString d).

Definition delete_effect s (name : string) (dgst : Digest) (p : string) (o : result string string)
    : Prop :=
  is_ok o = false /\
  exists d, normal d /\ manifest_file s name d p /\ (d = dgst \/ ~ tag_reaches s name dgst d).

(** Removing a manifest breaks no chain that avoids it. *)
Lemma refers_kept R s s' name dgst a b : evolves R s s' -> good_path name ->
  (forall d p o, normal d -> d <> dgst -> manifest_file s name d p -> ~ R p o) ->
  refers_avoiding s name dgst a b -> refers s' name a b.
Proof.
  intros He Hn HR [[Hb (parsed & (d & rec & Hd & Hr & Hu) & Hin)] Hne]. split; [done|].
  exists parsed. split; [|done]. exists d, rec. split_and!; [done| |done].
  pose proof (proj2 (ParseDigest_normal _ _ Hd)) as Hnd.
  rewrite (ReadManifest_evolves R s s' name d He Hn Hnd); [done|].
  intros p o Hp. apply (HR d); [done| |done]. congruence.
Qed.

Lemma detach_spec s name dgst : sound s -> good_path name -> normal dgst ->
  quiet s (fst (detach s name dgst)) /\
  forall sub d, sub ∈ snd (detach s name dgst) -> ParseDigest sub = Ok d -> DigestString d = sub.
Proof.
  intros Hs Hn Hd. unfold detach. destruct (ReadManifest s name dgst) as [rec|] eqn:Er.
  2:{ split; [apply evolves_refl|]. by intros sub d ?%elem_of_nil. }
  apply ReadManifest_Open in Er as (body & Ho & <- & _).
  destruct (sound_manifest s Hs name dgst (Body rec) Hn Hd Ho) as [[Hp Ht] _]. split; cbn [fst snd].
  - unfold plain_subject in Hp. destruct (inspectManifest _) as [insp|]; [|apply evolves_refl].
    destruct (String.eqb _ ""); [apply evolves_refl|].
    destruct (RemoveReferrer _ _ _ _) as [s'|] eqn:E; [|apply evolves_refl].
    eapply RemoveReferrer_quiet; [apply Hs|exact Hn|exact Hp|exact E].
  - intros sub d. destruct (UnmarshalMap _) as [parsed|] eqn:Eu; [|by intros ?%elem_of_nil].
    by apply (Ht parsed).
Qed.

Lemma manifest_file_base s s' name d p : basePath s' = basePath s ->
  manifest_file s' name d p -> manifest_file s name d p.
Proof. intros Hb. unfold manifest_file. by rewrite (manifestPath_base s s'). Qed.

Lemma cascadeOne_effect R live minAge now s name sub : good_base s -> good_path name ->
  (forall d p o, ParseDigest sub = Ok d -> hasManifest live name sub = false ->
     is_ok o = false -> manifest_file s name d p -> R p o) ->
  evolves R s (cascadeOne live minAge now name s sub).
Proof.
  intros Hb Hn HR. unfold cascadeOne. destruct (hasManifest live name sub) eqn:Hl;
    [apply evolves_refl|].
  destruct (ParseDigest sub) as [d|] eqn:Hd; [|apply evolves_refl]. cbv zeta.
  destruct (_ && _); [apply evolves_refl|].
  destruct (DeleteManifest s name d) as [s1|] eqn:E; [|apply evolves_refl].
  apply evolves_DeleteManifest in E. eapply evolves_trans.
  - eapply evolves_mono; [|exact E]. intros p o _ [Ho Hp]. by eapply HR.
  - apply quiet_evolves, dropIndex_quiet; [by eapply good_base_evolves|done|].
    by eapply ParseDigest_no_slash.
Qed.

Lemma cascade_fold (R : string -> result string string -> Prop) live minAge now name subs :
  good_path name -> forall s, good_base s ->
  (forall sub d p o, sub ∈ subs -> ParseDigest sub = Ok d -> hasManifest live name sub = false ->
     is_ok o = false -> manifest_file s name d p -> R p o) ->
  evolves R s (foldl (cascadeOne live minAge now name) s subs).
Proof.
  intros Hn. induction subs as [|sub subs IH]; intros s Hb HR; [apply evolves_refl|].
  cbn [foldl]. assert (H1 : evolves R s (cascadeOne live minAge now name s sub)).
  { apply cascadeOne_effect; [done..|]. intros d p o. apply HR. left. }
  eapply evolves_trans; [exact H1|]. apply IH; [by eapply good_base_evolves|].
  intros sub' d p o Hin Hd Hl Ho Hp. eapply (HR sub'); try done; [by right|].
  eapply manifest_file_base; [|exact Hp]. apply H1.
Qed.

(** What a tag reaches is live in a walk of a store without the manifest. *)
Lemma markRepoScoped_reaches R s s' name dgst d : good_base s -> good_path name ->
  healthy (fs s') -> normal dgst -> evolves R s s' ->
  (forall x p o, normal x -> x <> dgst -> manifest_file s name x p -> ~ R p o) ->
  (forall tag o, good_seg tag -> ~ R (tagPath s name tag) o) ->
  tag_reaches s name dgst d ->
  hasManifest (markRepoScoped s' name (DigestString dgst)) name (DigestString d) = true.
Proof.
  intros Hb Hn Hh Hnd He HR HRt (tag & t & Hg & Hr & Hne & Hx).
  pose proof (ReadTag_normal _ _ _ _ Hr) as Hnt.
  rewrite <-(ReadTag_evolves R s s' name tag He Hn Hg) in Hr by (intros o; by apply HRt).
  destruct (ListTags_readable s' name tag t) as (tags & Hl & Hin); try done.
  { by eapply good_base_evolves. }
  apply bool_decide_eq_true. eapply markRepoScoped_spec; [exact Hl|exact Hin|exact Hr| |].
  - intros E. apply Hne. by apply DigestString_inj.
  - clear -Hx He Hn HR. induction Hx as [|x y z Hxy _ IH]; [done|].
    eapply rtc_l; [|exact IH]. by eapply refers_kept.
Qed.

Lemma deleteManifestDigest_effect l now name dgst err l' : sound (store l) -> good_path name ->
  normal dgst -> deleteManifestDigest l now name dgst = (err, l') ->
  evolves (delete_effect (store l) name dgst) (store l) (store l') /\
  (immutableTagsPointingAt l name (DigestString dgst) <> [] -> l' = l).
Proof.
  intros Hs Hn Hd. unfold deleteManifestDigest.
  destruct (immutableTagsPointingAt _ _ _) as [|x xs].
  2:{ intros [= <- <-]. split; [apply evolves_refl|done]. }
  destruct (detach_spec (store l) name dgst Hs Hn Hd) as [Hq Hsubs].
  destruct (detach (store l) name dgst) as [s0 subs]. cbn [fst snd] in Hq, Hsubs.
  pose proof (sound_base _ Hs) as Hb. pose proof (good_base_evolves _ _ _ Hb Hq) as Hb0.
  destruct (DeleteManifest s0 name dgst) as [s1|e] eqn:Edel.
  2:{ intros [= <- <-]. split; [by apply quiet_evolves|done]. }
  apply evolves_DeleteManifest in Edel.
  set (R := fun p (o : result string string) => is_ok o = false /\ manifest_file (store l) name dgst p).
  assert (H1 : evolves R (store l) s1).
  { eapply evolves_trans; [by apply quiet_evolves|]. eapply evolves_mono; [|exact Edel].
    intros p o _ [Ho Hp]. split; [done|]. eapply manifest_file_base; [|exact Hp]. apply Hq. }
  pose proof (good_base_evolves _ _ _ Hb H1) as Hb1.
  assert (H2 : evolves R (store l) (dropIndex s1 name (DigestString dgst))).
  { eapply evolves_trans; [exact H1|]. apply quiet_evolves, dropIndex_quiet; [done|done|].
    by eapply ParseDigest_no_slash. }
  set (s2 := dropIndex s1 name (DigestString dgst)) in *.
  pose proof (good_base_evolves _ _ _ Hb H2) as Hb2.
  assert (HR : forall p o, R p o -> delete_effect (store l) name dgst p o).
  { intros p o [Ho Hp]. split; [done|]. exists dgst. by split_and!; [..|left]. }
  intros [= <- <-]. split; [|done]. cbn [store with_store].
  eapply evolves_trans; [eapply evolves_mono; [|exact H2]; intros p o _; apply HR|].
  unfold cascade. destruct subs as [|sub0 subs0] eqn:Esubs; [apply evolves_refl|].
  rewrite <-Esubs in *. apply cascade_fold; [done..|].
  intros sub d p o Hin Hsub Hlive Ho Hp. split; [done|]. exists d.
  pose proof (proj2 (ParseDigest_normal _ _ Hsub)) as Hnd. split_and!; [done| |right].
  { eapply manifest_file_base; [|exact Hp]. apply H2. }
  intros Hreach. rewrite <-(Hsubs sub d Hin Hsub) in Hlive.
  rewrite (markRepoScoped_reaches R (store l) s2 name dgst d) in Hlive; try done.
  - apply H2, Hs.
  - intros x q r Hx Hne Hq' [_ Hq2]. by destruct (manifest_file_inj (store l) name x name dgst q).
  - intros tag r Ht [_ Hq']. by apply tag_no_manifest_file in Hq'.
Qed.

(** ** Immutable tags *)

(** [tag] of [name] is immutable, points at [d], and its manifest is there. *)
Record pinned l (name tag : string) (d : Digest) : Prop := {
  pin_immutable : isImmutableTag (immutableTags l) tag = true;
  pin_tag : ReadTag (store l) name tag = Ok d;
  pin_manifest : is_ok (Open (fs (store l)) (manifestPath (store l) name d)) = true;
}.

Lemma pinned_frame R l l' name tag d : good_path name -> good_seg tag -> pinned l name tag d ->
  evolves R (store l) (store l') -> immutableTags l' = immutableTags l ->
  (forall o, R (tagPath (store l) name tag) o -> o = Ok (DigestString d)) ->
  (forall o, R (manifestPath (store l) name d) o -> is_ok o = true) ->
  pinned l' name tag d.
Proof.
  intros Hn Ht [Hi Htag Hm] (Eb & _ & Ho) Ei HRt HRm.
  pose proof (ReadTag_normal _ _ _ _ Htag) as Hd. split; [by rewrite Ei| |].
  - destruct (Ho (tagPath (store l) name tag)) as [E|E%HRt]; [by apply rf_tag| |].
    + by rewrite (ReadTag_same (store l) (store l')).
    + apply ReadTag_written; [done|]. by rewrite (tagPath_base (store l)).
  -  rewrite (manifestPath_base (store l)) by done.
    destruct (Ho (manifestPath (store l) name d)) as [-> | Hr]; [by apply rf_manifest|done|].
    by eapply HRm.
Qed.

(** A pin is found by the check of a deletion. *)
Lemma pinned_pointing l name tag d : sound (store l) -> good_path name -> good_seg tag ->
  pinned l name tag d -> immutableTagsPointingAt l name (DigestString d) <> [].
Proof.
  intros Hs Hn Ht [Hi Htag _] E. unfold immutableTagsPointingAt in E.
  destruct (ListTags_readable (store l) name tag d) as (tags & Hl & Hin);
    [apply Hs..|done|done|done|].
  rewrite Hl in E.
  assert (H : List.In tag []); [|by apply in_nil in H].
  rewrite <-E. apply filter_In. split; [by apply list_elem_of_In|].
  by rewrite Hi, Htag, String.eqb_refl.
Qed.

(** A call that keeps the invariant, the policy and every pin. *)
Definition safe l l' : Prop :=
  sound (store l') /\ immutableTags l' = immutableTags l /\
  forall name tag d, good_path name -> good_seg tag -> pinned l name tag d -> pinned l' name tag d.

Lemma safe_files l l' : sound (store l) -> fs (store l') = fs (store l) ->
  basePath (store l') = basePath (store l) -> immutableTags l' = immutableTags l -> safe l l'.
Proof.
  intros Hs Ef Eb Ei.
  assert (He : quiet (store l) (store l')).
  { split_and!; [done|by rewrite Ef|]. intros p _. left. by rewrite Ef. }
  split_and!; [by eapply (sound_evolves _ _ _ Hs He)|done|].
  intros name tag d Hn Ht Hp. by eapply pinned_frame.
Qed.

Lemma safe_refl l : sound (store l) -> safe l l.
Proof. intros Hs. by apply safe_files. Qed.

Lemma putManifest_immutable l name ref body ct : immutableTags (putManifest l name ref body ct).2
  = immutableTags l.
Proof. unfold putManifest. repeat (case_match; try done). Qed.

(** A push to a pinned tag is of the manifest it points at, or refused. *)
Lemma putManifest_pinned l name tag d body ct r l' : pinned l name tag d -> is_tag tag = true ->
  putManifest l name tag body ct = (r, l') -> l' = l \/ bodyDigest body = d.
Proof.
  intros [Hi Hr _] Ht. unfold putManifest. destruct (negb _); [intros [= <- <-]; by left|].
  destruct (_ <? _); [intros [= <- <-]; by left|]. cbv zeta.
  unfold immutableConflict. rewrite Ht, Hi, Hr. cbn [andb].
  destruct (String.eqb_spec (DigestString d) (DigestString (bodyDigest body))) as [E|];
    [|intros [= <- <-]; by left]. intros _. right.
  by apply DigestString_inj; [apply bodyDigest_normal|eapply ReadTag_normal|].
Qed.

Lemma safe_put l name ref body ct : sound (store l) -> good_path name ->
  (is_tag ref = true -> good_seg ref) -> tidy body -> safe l (putManifest l name ref body ct).2.
Proof.
  intros Hs Hn Href Ht. pose proof (sound_base _ Hs) as Hb.
  pose proof (bodyDigest_normal body) as Hbd. pose proof (putManifest_immutable l name ref body ct) as Ei.
  destruct (putManifest l name ref body ct) as [r l'] eqn:E. cbn [snd] in Ei |- *.
  destruct (putManifest_effect l name ref body ct r l' Hb Hn Href (proj1 Ht) E) as [He _].
  assert (Hman : forall n d o, good_path n -> normal d ->
    put_effect (store l) name ref body (manifestPath (store l) n d) o ->
    o = Ok body /\ d = bodyDigest body).
  { intros n d o Hgn Hd [[Hf Ho]|(Hr & Hp & _)].
    - destruct (manifest_file_inj (store l) name (bodyDigest body) n d (manifestPath (store l) n d))
        as [-> <-]; try done; [by left|]. by split; [apply Ho|].
    - symmetry in Hp. by apply tag_not_manifest in Hp; auto. }
  split_and!; [|done|].
  - apply (sound_evolves _ _ _ Hs He). intros n d b Hgn Hd Hr.
    by destruct (Hman n d (Ok b) Hgn Hd Hr) as [[= ->] ->].
  - intros n tag d Hgn Hgt Hpin. pose proof (ReadTag_normal _ _ _ _ (pin_tag _ _ _ _ Hpin)) as Hd.
    destruct (decide (is_tag ref = true /\ n = name /\ tag = ref)) as [(Hr & -> & ->)|Hno].
    + destruct (putManifest_pinned l name ref d body ct r l' Hpin Hr E) as [-> | <-]; [done|].
      eapply pinned_frame; try done.
      * intros o [[Hf _]|(_ & _ & ->)]; [|done]. by apply tag_no_manifest_file in Hf.
      * intros o Ho. by destruct (Hman name (bodyDigest body) o Hn Hbd Ho) as [-> _].
    + eapply pinned_frame; try done.
      * intros o [[Hf _]|(Hr & Hp & _)]; [by apply tag_no_manifest_file in Hf|].
        exfalso. apply Hno. by apply tag_files_differ in Hp as [-> ->]; auto.
      * intros o Ho. by destruct (Hman n d o Hgn Hd Ho) as [-> _].
Qed.

Lemma safe_deleteTag l name tag : sound (store l) -> good_path name -> good_seg tag ->
  safe l (deleteTagReference l name tag).2.
Proof.
  intros Hs Hn Ht. pose proof (sound_base _ Hs) as Hb. unfold deleteTagReference.
  destruct (isImmutableTag _ tag) eqn:Ei; [by apply safe_refl|].
  unfold DeleteTag. destruct (negb _); [by apply safe_refl|].
  destruct (Remove _ _) as [f|e] eqn:Er; [|destruct (isNotFound e); by apply safe_refl].
  assert (He : evolves (fun p o => is_ok o = false /\ p = tagPath (store l) name tag) (store l)
    (with_fs (store l) f)) by (by eapply evolves_remove).
  split_and!; [|done|].
  - apply (sound_evolves _ _ _ Hs He). by intros ? ? ? _ _ [].
  - intros n t d Hgn Hgt Hpin. pose proof (ReadTag_normal _ _ _ _ (pin_tag _ _ _ _ Hpin)) as Hd.
    eapply pinned_frame; try done.
    + intros o [_ Hp]. apply tag_files_differ in Hp as [-> ->]; try done.
      pose proof (pin_immutable _ _ _ _ Hpin). congruence.
    + intros o [_ Hp]. symmetry in Hp. by apply tag_not_manifest in Hp.
Qed.

Lemma deleteManifestDigest_immutable l now name dgst :
  immutableTags (deleteManifestDigest l now name dgst).2 = immutableTags l.
Proof. unfold deleteManifestDigest. repeat (case_match; try done). Qed.

Lemma safe_deleteDigest l now name dgst : sound (store l) -> good_path name -> normal dgst ->
  safe l (deleteManifestDigest l now name dgst).2.
Proof.
  intros Hs Hn Hnd. pose proof (sound_base _ Hs) as Hb.
  pose proof (deleteManifestDigest_immutable l now name dgst) as Ei.
  destruct (deleteManifestDigest l now name dgst) as [err l'] eqn:E. cbn [snd] in Ei |- *.
  destruct (deleteManifestDigest_effect l now name dgst err l' Hs Hn Hnd E) as [He Hkeep].
  split_and!; [|done|].
  - apply (sound_evolves _ _ _ Hs He). by intros ? ? ? _ _ [].
  - intros n t d Hgn Hgt Hpin. pose proof (ReadTag_normal _ _ _ _ (pin_tag _ _ _ _ Hpin)) as Hd.
    destruct (decide (n = name /\ DigestString d = DigestString dgst)) as [[-> Ed]|Hno].
    { apply DigestString_inj in Ed as ->; [|done..]. rewrite Hkeep; [done|]. by eapply pinned_pointing. }
    eapply pinned_frame; try done.
    + intros o (_ & x & Hx & Hp & _). by apply tag_no_manifest_file in Hp.
    + intros o (_ & x & Hx & Hp & Hreach).
      destruct (manifest_file_inj (store l) name x n d (manifestPath (store l) n d)) as [-> ->];
        try done; [by left|]. exfalso.
      destruct Hreach as [-> |Hreach]; [by apply Hno|]. apply Hreach.
      exists t, d. split_and!; [done|apply Hpin| |done]. intros ->. by apply Hno.
Qed.

End safety.

(** ** Calls *)

(** A pushed manifest is tidy. *)
Definition tidy_request (r : HTTPRequest) : Prop :=
  match classify (Method r) (URLPath r) with
  | Some req => Op req = opManifest -> Method r = "PUT" -> tidy (ReqBody r)
  | None => True
  end.

Definition tidy_call (c : Call) : Prop :=
  match c with HTTP _ _ _ r => tidy_request r | Admin _ _ _ => True end.

Section calls.
Context {F B : Type} {HF : RawFS F} {HFL : RawFSLaws F} {HB : BlobStore B} {HU : BlobUploads B}.

Implicit Types l : Local F B.

(** An upload call touches no file. *)
Lemma safe_upload l l' : sound (store l) ->
  (exists b u, l' = with_table (with_blob_store l b) u) \/ (exists b, l' = with_blob_store l b) \/
  l' = l -> safe l l'.
Proof. intros Hs [(b & u & ->)|[[b ->]| ->]]; by apply safe_files. Qed.

Lemma serveUploadStart_safe l name id uuid : sound (store l) ->
  safe l (serveUploadStart l name id uuid).2.
Proof.
  intros Hs. apply safe_upload; [done|]. unfold serveUploadStart.
  repeat case_match; cbn [snd]; eauto.
Qed.

Lemma serveUploadAppend_safe l name uuid body : sound (store l) ->
  safe l (serveUploadAppend l name uuid body).2.
Proof.
  intros Hs. apply safe_upload; [done|]. unfold serveUploadAppend.
  repeat case_match; cbn [snd]; eauto.
Qed.

Lemma serveUploadFinalize_safe l now name uuid q body : sound (store l) ->
  safe l (serveUploadFinalize l now name uuid q body).2.
Proof.
  intros Hs. apply safe_upload; [done|]. unfold serveUploadFinalize.
  repeat case_match; cbn [snd]; eauto.
Qed.

Lemma serveUploadCancel_safe l name uuid : sound (store l) ->
  safe l (serveUploadCancel l name uuid).2.
Proof.
  intros Hs. unfold serveUploadCancel. destruct (findSession _ _ _); [|by apply safe_refl].
  destruct (ResumeUpload _ _); by apply safe_files.
Qed.

Lemma serveBlob_safe l r req : sound (store l) -> safe l (serveBlob l r req).2.
Proof.
  intros Hs. apply safe_upload; [done|]. unfold serveBlob.
  repeat case_match; cbn [snd]; eauto.
Qed.

Lemma deleteManifest_safe l now name ref d : sound (store l) -> good_path name ->
  (IsZero d = true -> good_seg ref) -> (IsZero d = false -> normal d) ->
  safe l (deleteManifest l now name ref d).2.
Proof.
  intros Hs Hn Hr Hd. unfold deleteManifest. destruct (negb _); [by apply safe_refl|].
  destruct (IsZero d).
  - pose proof (safe_deleteTag l name ref Hs Hn (Hr eq_refl)) as H.
    by destruct (deleteTagReference l name ref).
  - pose proof (safe_deleteDigest l now name d Hs Hn (Hd eq_refl)) as H.
    by destruct (deleteManifestDigest l now name d).
Qed.

Lemma normal_not_zero d : normal d -> IsZero d = false.
Proof.
  intros H. destruct (IsZero d) eqn:E; [|done]. unfold IsZero in E. bool_prop.
  destruct d as [a h]. cbn in *. subst. by vm_compute in H.
Qed.

Lemma manifest_request p req : request_ok p req -> Op req = opManifest ->
  good_path (RepoName req) /\ (is_tag (Ref req) = true -> good_seg (Ref req)) /\
  (IsZero (RefDigest req) = true -> good_seg (Ref req)) /\
  (IsZero (RefDigest req) = false -> normal (RefDigest req)).
Proof.
  unfold request_ok, is_tag. intros H E. rewrite E in H. destruct H as (Hn & _ & Hr).
  split; [by apply ValidateRepoName_good|]. destruct (IsDigestReference (Ref req)).
  - destruct (ParseDigest_normal _ _ Hr) as [_ Hd]. split; [done|].
    rewrite normal_not_zero by done. done.
  - destruct Hr as [[Hg _]%ValidateTag_good ->]. split_and!; try done.
Qed.

Lemma tidy_received l body : tidy body -> tidy (received l body).
Proof. unfold received. case_match; [|done]. intros _. by apply tidyb_tidy. Qed.

Lemma ServeHTTP_safe l now id uuid r : sound (store l) -> tidy_request r ->
  safe l (ServeHTTP l now id uuid r).2.
Proof.
  intros Hs Ht. unfold ServeHTTP, tidy_request in *.
  destruct (classify _ _) as [req|] eqn:Ec; [|by apply safe_refl].
  pose proof (classify_request _ _ _ Ec) as Hok.
  destruct (Op req) eqn:Eop; cbn [snd];
    [by apply safe_refl|by apply safe_refl| |by apply serveBlob_safe|by apply serveUploadStart_safe
    |by apply safe_refl|by apply serveUploadAppend_safe|by apply serveUploadFinalize_safe
    |by apply serveUploadCancel_safe|by apply safe_refl..].
  destruct (manifest_request _ _ Hok Eop) as (Hn & Hr & Hz & Hd). unfold serveManifest.
  destruct (_ || _); [by apply safe_refl|].
  destruct (String.eqb_spec (Method r) "PUT"); [by apply safe_put; auto using tidy_received|].
  destruct (String.eqb (Method r) "DELETE"); [by apply deleteManifest_safe|by apply safe_refl].
Qed.

Lemma DeleteReference_safe l now name ref : sound (store l) ->
  safe l (DeleteReference l now name ref).2.
Proof.
  intros Hs. unfold DeleteReference.
  destruct (ValidateRepoName name) eqn:En; [by apply safe_refl|].
  apply ValidateRepoName_good in En. destruct (String.eqb ref ""); [by apply safe_refl|].
  destruct (IsDigestReference ref).
  - destruct (ParseDigest ref) as [d|] eqn:Ed; [|by apply safe_refl].
    apply safe_deleteDigest; [done..|]. by apply (ParseDigest_normal _ _ Ed).
  - destruct (ValidateTag ref) eqn:Et; [by apply safe_refl|].
    apply safe_deleteTag; [done..|]. by apply ValidateTag_good in Et as [? _].
Qed.

Lemma call_safe l c : sound (store l) -> tidy_call c -> safe l (call l c).
Proof.
  intros Hs. destruct c as [now id uuid r|now name ref]; cbn [tidy_call call].
  - by apply ServeHTTP_safe.
  - intros _. by apply DeleteReference_safe.
Qed.

Lemma run_safe calls : forall l, sound (store l) -> Forall tidy_call calls -> safe l (run l calls).
Proof.
  induction calls as [|c calls IH]; intros l Hs Hc; [by apply safe_refl|].
  apply Forall_cons in Hc as [Hc Hcs]. destruct (call_safe l c Hs Hc) as (Hs1 & Hi1 & Hp1).
  destruct (IH (call l c) Hs1 Hcs) as (Hs2 & Hi2 & Hp2).
  unfold run in *. cbn [foldl]. split_and!; [done|congruence|by eauto].
Qed.

End calls.

(** ** An upload on the in-memory blob store *)

Section upload.
Context {F : Type}.

Implicit Types l : Local F MemBlobStore.

(** The upload [uuid] of [name] is open and has received [b]. *)
Record receiving l (name uuid id b : string) : Prop := {
  rv_push : allowPush l = true;
  rv_entry : uploads l !! uuid = Some {| uRepoName := name; uBlobSession := id |};
  rv_session : id ∈ sessions (blobs (store l));
  rv_object : objects (blobs (store l)) !! id = Some {| buf := b; BlobStore.closed := false |};
}.

Lemma receiving_find l name uuid id b : receiving l name uuid id b ->
  allowPush l = true /\ findSession l name uuid = Some id /\
  ResumeUpload id (DockerStore.blobs (store l)) = Ok id.
Proof.
  intros [Hp He Hs Ho]. split_and!; [done| |].
  - unfold findSession. by rewrite He, String.eqb_refl.
  - cbn. unfold memResumeUpload. by rewrite bool_decide_true, Ho.
Qed.

Lemma start_receiving l name id uuid : allowPush l = true ->
  let l' := (serveUploadStart l name id uuid).2 in
  receiving l' name uuid id "" /\ BlobStore.blobs (DockerStore.blobs (store l'))
    = BlobStore.blobs (DockerStore.blobs (store l)).
Proof.
  intros Hp. unfold serveUploadStart. rewrite Hp. cbn. split; [|done].
  split; cbn; [done|apply lookup_insert_eq|set_solver|apply lookup_insert_eq].
Qed.

Lemma append_receiving l name uuid id b chunk : receiving l name uuid id b ->
  let l' := (serveUploadAppend l name uuid chunk).2 in
  receiving l' name uuid id (b +:+ chunk) /\ BlobStore.blobs (DockerStore.blobs (store l'))
    = BlobStore.blobs (DockerStore.blobs (store l)).
Proof.
  intros Hr. destruct (receiving_find _ _ _ _ _ Hr) as (Hp & Hf & Hu). destruct Hr as [_ He Hs Ho].
  unfold serveUploadAppend. rewrite Hp, Hf, Hu. cbn [negb SessionWrite MemBlobStore_uploads].
  unfold sessionWrite. rewrite Ho. cbn. split; [|done].
  split; cbn; [done|done|done|apply lookup_insert_eq].
Qed.

Definition appendAll l (name uuid : string) (chunks : list string) : Local F MemBlobStore :=
  foldl (fun l c => (serveUploadAppend l name uuid c).2) l chunks.

Lemma appendAll_receiving name uuid id chunks : forall l b, receiving l name uuid id b ->
  receiving (appendAll l name uuid chunks) name uuid id (b +:+ concatAll chunks) /\
  BlobStore.blobs (DockerStore.blobs (store (appendAll l name uuid chunks)))
    = BlobStore.blobs (DockerStore.blobs (store l)).
Proof.
  induction chunks as [|c chunks IH]; intros l b Hr; cbn [appendAll foldl concatAll foldr].
  { by rewrite app_empty_r. }
  destruct (append_receiving l name uuid id b c Hr) as [Hr' Hb'].
  destruct (IH _ _ Hr') as [Hr2 Hb2]. unfold appendAll in *.
  rewrite str_app_assoc in Hr2. split; [done|]. by rewrite Hb2.
Qed.

(** The outcome of a finalizing call. *)
Definition published l l' (d : Digest) (x : string) (now : Z) : Prop :=
  Get (DockerStore.blobs (store l')) d
    = Ok (x, {| Size := Z.of_nat (len x); ModTime := Some now |}) /\
  forall d', DigestString d' <> DigestString d ->
    Get (DockerStore.blobs (store l')) d' = Get (DockerStore.blobs (store l)) d'.

Lemma finalize_receiving l name uuid id b now q last d : receiving l name uuid id b ->
  ParseDigest q = Ok d ->
  exists h, NewHasher (Algorithm d) = Some h /\
    let '(r, l') := serveUploadFinalize l now name uuid q last in
    let got := DigestFromHash (Algorithm d) (h (b +:+ last)) in
    (d = got -> r = resp 201 "" /\ published l l' d (b +:+ last) now /\ uploads l' !! uuid = None) /\
    (d <> got -> r = resp 400 "DIGEST_INVALID" /\ receiving l' name uuid id (b +:+ last) /\
       BlobStore.blobs (DockerStore.blobs (store l'))
         = BlobStore.blobs (DockerStore.blobs (store l))).
Proof.
  intros Hr Hd. destruct (receiving_find _ _ _ _ _ Hr) as (Hp & Hf & Hu).
  destruct Hr as [_ He Hs Ho]. destruct (parsed_hasher d q Hd) as (Hz & Ha & h & Hh).
  exists h. split; [done|]. unfold serveUploadFinalize. rewrite Hp, Hf, Hu, Hd.
  destruct (String.eqb_spec q "") as [->|_]; [done|].
  cbn [negb SessionWrite SessionCommit MemBlobStore_uploads]. unfold sessionWrite. rewrite Ho.
  cbn [BlobStore.closed buf]. unfold sessionCommit. cbn [objects]. rewrite lookup_insert_eq. cbn [BlobStore.closed buf].
  apply String.eqb_neq in Ha. rewrite Ha, Hh, Hz. cbv zeta. cbn [negb andb].
  pose proof (Equal_parsed d q (Algorithm d) h (b +:+ last) Hd Hh) as Heq.
  destruct (Equal d _); cbn [negb].
  - split; [|intros Hne; by destruct Hne; apply Heq]. intros <-. split_and!; [done| |].
    + split; cbn; unfold memGet; cbn; [by rewrite lookup_insert_eq|].
      intros d' Hne. by rewrite lookup_insert_ne.
    + apply lookup_delete_eq.
  - split; [intros Hg; by apply Heq in Hg|]. intros _. split_and!; [done| |done].
    split; cbn; [done|done|done|apply lookup_insert_eq].
Qed.

End upload.

(** ** Examples *)

Definition DLocal := Local ObjectStore MemBlobStore.

(** A registry that accepts pushes, with immutable tags "v*". *)
Definition registry (s : DStore) : DLocal := {|
  store := s; allowPush := true; maxUpload := 0; immutableTags := ["v*"]; cascadeMinAge := 0;
  uploads := ∅;
|}.

Definition put (path body : string) : HTTPRequest := {|
  Method := "PUT"; URLPath := path; DigestQuery := ""; ReqBody := body; ReqType := "";
|}.

Definition delete_digest (name body : string) : HTTPRequest := {|
  Method := "DELETE"; URLPath := "/v2/" +:+ name +:+ "/manifests/" +:+ sha_of body;
  DigestQuery := ""; ReqBody := ""; ReqType := "";
|}.

Definition index_of (digests : list string) : string :=
  json ("{'manifests':[" +:+ Join ((fun d => "{'digest':'" +:+ d +:+ "'}") <$> digests) "," +:+ "]}").

Lemma registry_sound : sound emptyStore.
Proof.
  split; [right; by apply (bool_decide_unpack _); vm_compute|done|].
  intros name d body _ _ Ho. generalize dependent (manifestPath emptyStore name d). intros p Ho.
  apply readable_Ok in Ho as [_ Ho].
  change (files (fs emptyStore)) with (∅ : gmap string File) in Ho. by rewrite lookup_empty in Ho.
Qed.

Definition image_a : string := image "config" "layer a".
Definition image_b : string := image "config" "layer b".

(** "app:v1" is pushed. *)
Definition pushed : DLocal :=
  run (registry emptyStore) [HTTP 1000 "s" "u" (put "/v2/app/manifests/v1" image_a)].

Lemma tidy_put now id uuid path body : tidyb body = true -> tidy_call (HTTP now id uuid (put path body)).
Proof.
  intros Hb. cbn. unfold tidy_request. destruct (classify _ _); [|done]. intros _ _. by apply tidyb_tidy.
Qed.

Lemma tidy_delete now id uuid name body : tidy_call (HTTP now id uuid (delete_digest name body)).
Proof. cbn. unfold tidy_request. by destruct (classify _ _). Qed.

Lemma pushed_sound : sound (store pushed).
Proof.
  apply (run_safe _ (registry emptyStore)); [apply registry_sound|].
  apply Forall_singleton, tidy_put. by vm_compute.
Qed.

(** Two platforms and the index "multi:latest" over them; "multi:keep" is one
    of the platforms. *)
Definition multi_index : string := index_of [sha_of image_a; sha_of image_b].

Definition multi : DLocal :=
  run (registry emptyStore)
    [HTTP 1000 "s" "u" (put ("/v2/multi/manifests/" +:+ sha_of image_a) image_a);
     HTTP 1000 "s" "u" (put "/v2/multi/manifests/keep" image_b);
     HTTP 1000 "s" "u" (put "/v2/multi/manifests/latest" multi_index)].

Lemma multi_sound : sound (store multi).
Proof.
  apply (run_safe _ (registry emptyStore)); [apply registry_sound|].
  repeat (apply Forall_cons; split; [apply tidy_put; by vm_compute|]). constructor.
Qed.

(** ** Properties *)

(** C1: an immutable tag is immutable, on a mount that can list every directory
    with a file in it and where a failed write changes nothing: whatever requests
    and deletions a registry whose manifests are in order (sound, as a run of tidy
    pushes leaves it) serves after the tag was pushed, as long as pushed
    manifests are tidy (a subject is a digest, and sub-manifests are named by the
    canonical text of their digests), the tag reads the same digest and its
    manifest is there, with a body of that digest.  [immutable_delete_fails_open],
    [push_overwrites_other_repository] and [cascade_deletes_tagged] show what
    happens otherwise. *)
Theorem immutable_tag_stable {F B} `{RawFSLaws F} `{BlobStore B} `{BlobUploads B}
    (l : Local F B) calls name tag d :
  sound (store l) -> ValidateRepoName name = None -> ValidateTag tag = None ->
  pinned l name tag d -> Forall tidy_call calls ->
  let l' := run l calls in
  ReadTag (store l') name tag = Ok d /\
  exists rec, ReadManifest (store l') name d = Ok rec /\ bodyDigest (Body rec) = d.
Proof.
  intros Hs Hn%ValidateRepoName_good [Ht _]%ValidateTag_good Hp Hc.
  destruct (run_safe calls l Hs Hc) as (Hs' & _ & Hkeep).
  destruct (Hkeep name tag d Hn Ht Hp) as [_ Htag Hm]. split; [done|].
  destruct (Open _ _) as [body|] eqn:Eo; [|done].
  destruct (Open_ReadManifest _ _ _ _ Eo) as (rec & Hr & <-). exists rec. split; [done|].
  by eapply (sound_manifest _ Hs' name d (Body rec) Hn); [eapply ReadTag_normal|].
Qed.

Lemma immutable_tag_stable_witness :
  ReadTag (store (run pushed
    [HTTP 2000 "s" "u" (put "/v2/app/manifests/v1" image_b);
     HTTP 3000 "s" "u" (delete_digest "app" image_a)])) "app" "v1" = Ok (sha image_a).
Proof.
  apply (immutable_tag_stable pushed
    [HTTP 2000 "s" "u" (put "/v2/app/manifests/v1" image_b);
     HTTP 3000 "s" "u" (delete_digest "app" image_a)] "app" "v1" (sha image_a)).
  - apply pushed_sound.
  - by vm_compute.
  - by vm_compute.
  - split; by vm_compute.
  - apply Forall_cons. split; [apply tidy_put; by vm_compute|].
    apply Forall_singleton, tidy_delete.
Defined.

(** C3: the registry is content-addressed, on a mount that can list every
    directory with a file in it and where a failed write changes nothing: in every
    state it reaches, from one whose manifests are in order (sound), by requests and deletions whose pushed manifests are tidy (a
    subject is a digest, and sub-manifests are named by the canonical text of their
    digests), a manifest it serves, by tag or by digest, hashes to the digest it is
    served under.  [push_overwrites_other_repository] shows what an untidy subject
    does. *)
Theorem registry_integrity {F B} `{RawFSLaws F} `{BlobStore B} `{BlobUploads B}
    (l : Local F B) calls name ref d rec :
  sound (store l) -> Forall tidy_call calls -> ValidateRepoName name = None ->
  (IsZero d = false -> normal d) ->
  readManifest (store (run l calls)) name ref d = Ok rec -> bodyDigest (Body rec) = rDigest rec.
Proof.
  intros Hs Hc Hn%ValidateRepoName_good Hd. destruct (run_safe calls l Hs Hc) as (Hs' & _).
  unfold readManifest. intros Hr.
  assert (Hx : exists x, normal x /\ ReadManifest (store (run l calls)) name x = Ok rec).
  { destruct (IsZero d); [|eauto]. destruct (ReadTag _ _ _) as [x|] eqn:Et; [|done].
    eauto using ReadTag_normal. }
  destruct Hx as (x & Hx & Hr'). apply ReadManifest_Open in Hr' as (body & Ho & <- & Hr').
  rewrite (proj2 (sound_manifest _ Hs' name x (Body rec) Hn Hx Ho)).
  unfold ReadManifest in Hr'. rewrite Ho in Hr'. by injection Hr' as <-.
Qed.

Lemma registry_integrity_witness :
  exists rec, readManifest (store pushed) "app" "v1" zeroDigest = Ok rec /\
    bodyDigest (Body rec) = rDigest rec.
Proof.
  destruct (readManifest (store pushed) "app" "v1" zeroDigest) as [rec|e] eqn:E.
  - exists rec. split; [done|].
    apply (registry_integrity (registry emptyStore)
      [HTTP 1000 "s" "u" (put "/v2/app/manifests/v1" image_a)] "app" "v1" zeroDigest rec).
    + apply registry_sound.
    + apply Forall_singleton, tidy_put. by vm_compute.
    + by vm_compute.
    + intros Hz. discriminate Hz.
    + exact E.
  - exfalso. by vm_compute in E.
Defined.

(** a push changes what it names and nothing else: accepted, its manifest can
    be read under its digest and through its tag; accepted or not, every other
    tag and every other manifest reads as before. *)
Theorem putManifest_spec {F B} `{RawFSLaws F} `{BlobStore B} (l : Local F B) name ref body ct :
  good_base (store l) -> ValidateRepoName name = None ->
  (is_tag ref = true -> ValidateTag ref = None) -> plain_subject body ->
  let '(r, l') := putManifest l name ref body ct in
  (Status r = 201 ->
    (exists rec, ReadManifest (store l') name (bodyDigest body) = Ok rec /\ Body rec = body) /\
    (is_tag ref = true -> ReadTag (store l') name ref = Ok (bodyDigest body))) /\
  (forall n t, good_path n -> good_seg t -> ~ (is_tag ref = true /\ n = name /\ t = ref) ->
    ReadTag (store l') n t = ReadTag (store l) n t) /\
  (forall n d, good_path n -> normal d -> ~ (n = name /\ d = bodyDigest body) ->
    ReadManifest (store l') n d = ReadManifest (store l) n d).
Proof.
  intros Hb Hn%ValidateRepoName_good Ht Hp. destruct (putManifest l name ref body ct) as [r l'] eqn:E.
  assert (Hg : is_tag ref = true -> good_seg ref) by (intros ?; by apply ValidateTag_good, Ht).
  pose proof (bodyDigest_normal body) as Hbd.
  destruct (putManifest_effect l name ref body ct r l' Hb Hn Hg Hp E) as [He Hok].
  split_and!.
  - intros [Ho Htag]%Hok. split; [|done]. apply Open_ReadManifest.
    by rewrite (manifestPath_base (store l)) by apply He.
  - intros n t Hgn Hgt Hno. eapply ReadTag_evolves; [exact He|done..|].
    intros o [[Hf _]|(Hr & Hp' & _)]; [by apply tag_no_manifest_file in Hf|].
    apply Hno. by apply tag_files_differ in Hp' as [-> ->]; auto.
  - intros n d Hgn Hd Hno. eapply ReadManifest_evolves; [exact He|done..|].
    intros p o Hf [[Hf' _]|(Hr & -> & _)].
    + apply Hno. by eapply manifest_file_inj.
    + by apply tag_no_manifest_file in Hf; auto.
Qed.

Lemma putManifest_spec_witness :
  let l' := (putManifest (registry emptyStore) "app" "v1" image_a "").2 in
  ReadTag (store l') "app" "v1" = Ok (bodyDigest image_a) /\
  ReadTag (store l') "app" "v2" = ReadTag emptyStore "app" "v2".
Proof.
  assert (Hs : (putManifest (registry emptyStore) "app" "v1" image_a "").1 = resp 201 "")
    by by vm_compute.
  pose proof (putManifest_spec (registry emptyStore) "app" "v1" image_a "") as H.
  destruct (putManifest _ _ _ _ _) as [r l']. cbn [fst snd] in Hs |- *. subst r.
  destruct H as (H1 & H2 & _); [apply registry_sound|by vm_compute..|]. split.
  - by apply H1.
  - apply (H2 "app" "v2"); [by apply (bool_decide_unpack _); vm_compute..|]. by intros (_ & _ & ?).
Defined.

(** a deletion by digest keeps what the tags need: every tag reads the same,
    and so does every other manifest that a tag on another manifest reaches by
    references that do not lead through the deleted one. *)
Theorem deleteManifestDigest_keeps {F B} `{RawFSLaws F} `{BlobStore B} (l : Local F B) now name dgst :
  sound (store l) -> ValidateRepoName name = None -> normal dgst ->
  let l' := (deleteManifestDigest l now name dgst).2 in
  (forall n t, good_path n -> good_seg t -> ReadTag (store l') n t = ReadTag (store l) n t) /\
  (forall n d, good_path n -> normal d ->
    n <> name \/ (d <> dgst /\ tag_reaches (store l) name dgst d) ->
    ReadManifest (store l') n d = ReadManifest (store l) n d).
Proof.
  intros Hs Hn%ValidateRepoName_good Hd l'. pose proof (sound_base _ Hs) as Hb.
  destruct (deleteManifestDigest l now name dgst) as [err l2] eqn:E.
  destruct (deleteManifestDigest_effect l now name dgst err l2 Hs Hn Hd E) as [He _].
  subst l'. cbn [snd]. split.
  - intros n t Hgn Hgt. eapply ReadTag_evolves; [exact He|done..|].
    intros o (_ & x & Hx & Hf & _). by apply tag_no_manifest_file in Hf.
  - intros n d Hgn Hnd Hcase. eapply ReadManifest_evolves; [exact He|done..|].
    intros p o Hf (_ & x & Hx & Hf' & Hgone).
    destruct (manifest_file_inj (store l) n d name x p) as [-> ->]; try done.
    destruct Hcase as [?|[Hne Hreach]]; [done|]. by destruct Hgone.
Qed.

(** The index of [multi] is deleted: the platform with a tag stays, the other
    goes. *)
Lemma deleteManifestDigest_keeps_witness :
  let l' := (deleteManifestDigest multi 5000 "multi" (sha multi_index)).2 in
  ReadManifest (store l') "multi" (sha image_b) = ReadManifest (store multi) "multi" (sha image_b) /\
  is_ok (ReadManifest (store multi) "multi" (sha image_a)) = true /\
  is_ok (ReadManifest (store l') "multi" (sha image_a)) = false.
Proof.
  split_and!; [|by vm_compute..].
  apply (deleteManifestDigest_keeps multi 5000 "multi" (sha multi_index)).
  - apply multi_sound.
  - by vm_compute.
  - by vm_compute.
  - by apply (bool_decide_unpack _); vm_compute.
  - by vm_compute.
  - right. split; [by vm_compute|]. exists "keep", (sha image_b).
    split_and!; [by apply (bool_decide_unpack _); vm_compute|by vm_compute|by vm_compute|done].
Defined.

(** an upload through the registry: whatever the chunks, finalizing it with
    the digest of their bytes answers 201, makes exactly that blob readable and
    closes the upload; another digest answers 400, publishes nothing and leaves
    the upload open; and so does a digest that cannot be parsed. *)
Theorem upload_flow {F} (l : Local F MemBlobStore) name id uuid chunks now q last :
  allowPush l = true ->
  let l2 := appendAll (serveUploadStart l name id uuid).2 name uuid chunks in
  let x := concatAll chunks +:+ last in
  let '(r, l3) := serveUploadFinalize l2 now name uuid q last in
  match ParseDigest q with
  | Err _ => r = resp 400 "DIGEST_INVALID" /\ l3 = l2
  | Ok d =>
      exists h, NewHasher (Algorithm d) = Some h /\
      let got := DigestFromHash (Algorithm d) (h x) in
      (d = got -> r = resp 201 "" /\ published l l3 d x now /\ uploads l3 !! uuid = None) /\
      (d <> got -> r = resp 400 "DIGEST_INVALID" /\ receiving l3 name uuid id x /\
         BlobStore.blobs (DockerStore.blobs (store l3))
           = BlobStore.blobs (DockerStore.blobs (store l)))
  end.
Proof.
  intros Hp l2 x. destruct (start_receiving l name id uuid Hp) as [Hr Hb].
  destruct (appendAll_receiving name uuid id chunks _ "" Hr) as [Hr2 Hb2]. fold l2 in Hr2, Hb2.
  change ("" +:+ concatAll chunks) with (concatAll chunks) in Hr2. rewrite Hb in Hb2.
  destruct (ParseDigest q) as [d|e] eqn:Eq.
  - destruct (finalize_receiving l2 name uuid id _ now q last d Hr2 Eq) as (h & Hh & Hf).
    destruct (serveUploadFinalize _ _ _ _ _ _) as [r l3]. exists h. split; [done|].
    rewrite Hb2 in Hf. destruct Hf as [H1 H2]. split; [|done]. intros (? & [Hg Ho] & ?)%H1.
    split_and!; [done| |done]. split; [done|]. intros d' Hne. rewrite (Ho d' Hne). cbn. unfold memGet.
    by rewrite Hb2.
  - destruct (receiving_find _ _ _ _ _ Hr2) as (Hp2 & Hf & Hu). unfold serveUploadFinalize.
    rewrite Hp2, Hf, Hu, Eq. cbn [negb]. by destruct (String.eqb q "").
Qed.

Lemma upload_flow_witness :
  let l1 := (serveUploadStart (registry emptyStore) "app" "s" "u").2 in
  (serveUploadFinalize (appendAll l1 "app" "u" ["ab"; "c"]) 7 "app" "u" (sha_of "abcd") "d").1
  = resp 201 "".
Proof.
  intros l1. pose proof (upload_flow (registry emptyStore) "app" "s" "u" ["ab"; "c"] 7
    (sha_of "abcd") "d" eq_refl) as H. fold l1 in H. cbv zeta in H.
  destruct (serveUploadFinalize _ _ _ _ _ _) as [r l3]. cbn [fst].
  assert (Ed : ParseDigest (sha_of "abcd") = Ok (sha "abcd")) by by vm_compute.
  rewrite Ed in H. destruct H as (h & Hh & Hok & _). injection Hh as <-.
  by apply Hok; vm_compute.
Defined.

(** The catalog of another team, and a signature whose subject is a path to its
    manifest. *)
Definition victim : DLocal :=
  run (registry emptyStore) [HTTP 1000 "s" "u" (put "/v2/victim/manifests/latest" image_a)].

Definition poison : string :=
  json ("{'subject':{'digest':'../../victim/manifests/" +:+ sha_of image_a +:+ "'}}").

(** the subject of a pushed manifest is not checked: a push to one repository
    replaces the manifest of another one by a referrers index, so the tag of the
    other repository serves a body that is not of its digest. *)
Theorem push_overwrites_other_repository :
  let '(r, l') := ServeHTTP victim 2000 "s" "u" (put "/v2/attacker/manifests/x" poison) in
  r = resp 201 "" /\
  readManifest (store victim) "victim" "latest" zeroDigest
    = Ok {| Body := image_a; ContentType := defaultContentType; rDigest := sha image_a |} /\
  match readManifest (store l') "victim" "latest" zeroDigest with
  | Ok rec => rDigest rec = sha image_a /\ bodyDigest (Body rec) <> sha image_a
  | Err _ => False
  end.
Proof. by vm_compute. Qed.

(** An index that names the tagged platform in upper-case hexadecimal. *)
Definition upper_index : string := index_of ["sha256:" +:+ ToUpper (Hex (sha image_a))].

(** deleting an index deletes a sub-manifest that an immutable tag points at
    when the index names it in upper-case hexadecimal: the live set holds the
    digest in normal form, and the cascade looks for the text of the reference. *)
Theorem cascade_deletes_tagged :
  let l := run pushed [HTTP 1000 "s" "u" (put "/v2/app/manifests/index" upper_index)] in
  let '(r, l') := ServeHTTP l 2000 "s" "u" (delete_digest "app" upper_index) in
  r = resp 202 "" /\
  is_ok (readManifest (store l) "app" "v1" zeroDigest) = true /\
  ReadTag (store l') "app" "v1" = Ok (sha image_a) /\
  readManifest (store l') "app" "v1" zeroDigest = Err ErrManifestUnknown.
Proof. by vm_compute. Qed.

(** The tags of "app" cannot be listed at the moment. *)
Definition unlisted : DLocal :=
  with_store pushed (with_fs (store pushed)
    {| files := files (fs (store pushed)); faulty := {[ "docker/repositories/app/tags" ]}; now := 1000 |}).

(** the check that a manifest has no immutable tag fails open: when the tags
    cannot be listed, the manifest of an immutable tag is deleted. *)
Theorem immutable_delete_fails_open :
  let '(r, l') := ServeHTTP unlisted 2000 "s" "u" (delete_digest "app" image_a) in
  (ServeHTTP pushed 2000 "s" "u" (delete_digest "app" image_a)).1 = resp 403 "TAG_IMMUTABLE" /\
  r = resp 202 "" /\
  readManifest (store l') "app" "v1" zeroDigest = Err ErrManifestUnknown.
Proof. by vm_compute. Qed.
