(* ===== verification/PkgVersion.v ===== *)
(** * internal/registry/pkgbase/version.go: tolerant version comparison

    [CompareVersions] splits a version into runs of digits and of letters and
    compares run by run, a pre-release below its release.  The Unicode tables
    above ASCII are a parameter, [UnicodeTables].  The theorems: it is a total
    preorder on all strings, so that the sort that puts the newest version
    first is one, and [Latest] is the head of that order. *)

From Stdlib Require Import ZArith Lia Ascii.
From stdpp Require Import base list strings sorting.
From S2P Require Import Prelude GoStrings.

Local Open Scope Z_scope.

(** ** Runes *)

(** [unicode.IsDigit], [IsLetter] and [ToLower] on code points above ASCII. *)
Class UnicodeTables := {
  highDigit : Z -> bool;
  highLetter : Z -> bool;
  highLower : Z -> Z;
}.

Section version.
Context {U : UnicodeTables}.

Definition IsDigit (r : Z) : bool := if r <? 128 then (48 <=? r) && (r <=? 57) else highDigit r.

Definition IsLetter (r : Z) : bool :=
  if r <? 128 then ((65 <=? r) && (r <=? 90)) || ((97 <=? r) && (r <=? 122)) else highLetter r.

Definition RuneToLower (r : Z) : Z :=
  if r <? 128 then (if (65 <=? r) && (r <=? 90) then r + 32 else r) else highLower r.

(** [strconv.ParseInt(s, 10, 64)] on a run of digits, the error dropped: an
    overflow gives the largest value, a digit that is not ASCII gives 0. *)
Definition ParseRun (s : string) : Z :=
  if str_forallb is_digit s && (0 <? len s)%nat then Z.min (digits_exact s 0) int64_max else 0.

(** ** Tokens *)

Record token := { tnum : bool; tn : Z; ts : string }.

Definition mk_token (isNum : bool) (text : string) : token :=
  {| tnum := isNum; tn := if isNum then ParseRun text else 0; ts := text |}.

(** [flush] on the current run. *)
Definition flush (cur : string) (curNum : bool) : list token :=
  if String.eqb cur "" then [] else [mk_token curNum cur].

Fixpoint tokenize_go (rs : list Z) (cur : string) (curNum : bool) : list token :=
  match rs with
  | [] => flush cur curNum
  | r :: rs =>
      if IsDigit r then
        if negb (String.eqb cur "") && negb curNum then
          flush cur curNum ++ tokenize_go rs (EncodeRune r) true
        else tokenize_go rs (cur +:+ EncodeRune r) true
      else if IsLetter r then
        if negb (String.eqb cur "") && curNum then
          flush cur curNum ++ tokenize_go rs (EncodeRune (RuneToLower r)) false
        else tokenize_go rs (cur +:+ EncodeRune (RuneToLower r)) false
      else flush cur curNum ++ tokenize_go rs "" curNum
  end.

Definition tokenize (v : string) : list token := tokenize_go (runes v) "" false.

Fixpoint compareTokens (a b : list token) : Z :=
  match a, b with
  | [], [] => 0
  | [], y :: _ => if tnum y then -1 else 1
  | x :: _, [] => if tnum x then 1 else -1
  | x :: a, y :: b =>
      if tnum x && tnum y then
        if tn x =? tn y then compareTokens a b else if tn x <? tn y then -1 else 1
      else if tnum x then 1
      else if tnum y then -1
      else if str_compare (ts x) (ts y) =? 0 then compareTokens a b else str_compare (ts x) (ts y)
  end.

(** ** Versions *)

Definition splitPre (v : string) : string * string :=
  match IndexByte v "-" with
  | Some (S i) => (str_take (S i) v, str_drop (S (S i)) v)
  | _ => (v, "")
  end.

(** Without a leading "v" and a trailing build part. *)
Definition strip (a : string) : string :=
  let a := TrimPrefix (TrimPrefix a "v") "V" in
  match IndexByte a "+" with Some i => str_take i a | None => a end.

Definition CompareVersions (a b : string) : Z :=
  if String.eqb a b then 0
  else
    let '(ac, apre) := splitPre (strip a) in
    let '(bc, bpre) := splitPre (strip b) in
    let c := compareTokens (tokenize ac) (tokenize bc) in
    if negb (c =? 0) then c
    else if String.eqb apre "" && String.eqb bpre "" then 0
    else if String.eqb apre "" then 1
    else if String.eqb bpre "" then -1
    else compareTokens (tokenize apre) (tokenize bpre).

Definition SortVersions (vs : list string) : list string :=
  SliceStable (fun a b => CompareVersions a b <? 0) vs.

Definition newer (best v : string) : string :=
  if String.eqb best "" || (0 <? CompareVersions v best) then v else best.

Definition Latest (vs : list string) : string := foldl newer "" vs.

(** [sortNewestFirst] of internal/registry/ops/search.go *)
Definition sortNewestFirst (vs : list string) : list string :=
  SliceStable (fun a b => 0 <? CompareVersions a b) vs.

(** ** Lemmas: the comparison is a total preorder *)

Notation all := (fun _ => True).

Lemma compareTokens_antisym a : forall b, compareTokens a b = - compareTokens b a.
Proof.
  induction a as [|x a IH]; intros [|y b]; cbn [compareTokens]; [done|by destruct (tnum y)|by destruct (tnum x)|].
  rewrite (str_compare_antisym (ts y)). pose proof (IH b).
  destruct (tnum x), (tnum y); cbn [andb]; try done.
  - destruct (Z.eqb_spec (tn x) (tn y)), (Z.eqb_spec (tn y) (tn x)); try lia.
    destruct (Z.ltb_spec (tn x) (tn y)), (Z.ltb_spec (tn y) (tn x)); lia.
  - destruct (Z.eqb_spec (str_compare (ts x) (ts y)) 0),
      (Z.eqb_spec (- str_compare (ts x) (ts y)) 0); lia.
Qed.

Lemma compareTokens_trans a : forall b c, compareTokens a b <= 0 -> compareTokens b c <= 0 ->
  compareTokens a c <= 0.
Proof.
  induction a as [|x a IH]; intros [|y b] [|z c]; cbn [compareTokens];
    try (destruct (tnum x)); try (destruct (tnum y)); try (destruct (tnum z)); cbn [andb]; try lia.
  - destruct (Z.eqb_spec (tn x) (tn y)) as [E|E], (Z.eqb_spec (tn y) (tn z)) as [E'|E'],
      (Z.eqb_spec (tn x) (tn z)) as [E''|E'']; try lia; try (by apply IH);
      destruct (Z.ltb_spec (tn x) (tn y)), (Z.ltb_spec (tn y) (tn z)), (Z.ltb_spec (tn x) (tn z)); lia.
  - pose proof (cmp_trans (cmp := str_compare) (P := all) (ts x) (ts y) (ts z) I I I) as Ht.
    destruct (Z.eqb_spec (str_compare (ts x) (ts y)) 0) as [E|E].
    { apply str_compare_eq in E. rewrite E.
      destruct (Z.eqb_spec (str_compare (ts y) (ts z)) 0); [apply IH|done]. }
    destruct (Z.eqb_spec (str_compare (ts y) (ts z)) 0) as [E'|E'].
    { apply str_compare_eq in E'. rewrite <-E'. intros Hxy _.
      by rewrite (proj2 (Z.eqb_neq _ _) E). }
    intros Hxy Hyz. destruct (Z.eqb_spec (str_compare (ts x) (ts z)) 0) as [E''|E'']; [|by apply Ht].
    exfalso. apply str_compare_eq in E''. rewrite <-E'' in Hyz.
    pose proof (str_compare_antisym (ts y) (ts x)). lia.
Qed.

#[export] Instance compareTokens_Comparator : Comparator compareTokens all.
Proof.
  split; [intros; apply compareTokens_antisym|]. intros x y z _ _ _. by apply compareTokens_trans.
Qed.

Lemma Comparator_map {A B} (f : A -> B) (cmp : B -> B -> Z) : Comparator cmp all ->
  Comparator (fun x y => cmp (f x) (f y)) all.
Proof.
  intros HC. split.
  - intros x y _ _. by apply (cmp_antisym (f x) (f y)).
  - intros x y z _ _ _. by apply (cmp_trans (f x) (f y) (f z)).
Qed.

(** Pre-releases: none is above any. *)
Definition comparePre (p q : string) : Z :=
  if String.eqb p "" && String.eqb q "" then 0
  else if String.eqb p "" then 1
  else if String.eqb q "" then -1
  else compareTokens (tokenize p) (tokenize q).

#[export] Instance comparePre_Comparator : Comparator comparePre all.
Proof.
  split; unfold comparePre.
  - intros p q _ _. rewrite (compareTokens_antisym (tokenize p)).
    destruct (String.eqb p ""), (String.eqb q ""); cbn [andb]; lia.
  - intros p q r _ _ _. pose proof (compareTokens_trans (tokenize p) (tokenize q) (tokenize r)).
    destruct (String.eqb p ""), (String.eqb q ""), (String.eqb r ""); cbn [andb]; lia.
Qed.

Definition core (a : string) : list token := tokenize (splitPre (strip a)).1.
Definition pre (a : string) : string := (splitPre (strip a)).2.

Lemma CompareVersions_lex a b : CompareVersions a b =
  if compareTokens (core a) (core b) =? 0 then comparePre (pre a) (pre b)
  else compareTokens (core a) (core b).
Proof.
  unfold CompareVersions, core, pre. destruct (String.eqb_spec a b) as [->|_].
  - rewrite (cmp_refl compareTokens all _ _ I). symmetry.
    exact (cmp_refl comparePre all _ _ I).
  - destruct (splitPre (strip a)) as [ac apre], (splitPre (strip b)) as [bc bpre]. cbn [fst snd].
    by destruct (_ =? 0).
Qed.

#[export] Instance CompareVersions_Comparator : Comparator CompareVersions all.
Proof.
  pose proof (Comparator_lex _ _ all (Comparator_map core compareTokens _)
    (Comparator_map pre comparePre _)) as HC.
  split.
  - intros x y _ _. rewrite !CompareVersions_lex. by apply (@cmp_antisym _ _ _ HC).
  - intros x y z _ _ _. rewrite !CompareVersions_lex. by apply (@cmp_trans _ _ _ HC).
Qed.

(** [v] is at least as new as every version of [l]. *)
Definition newest (v : string) (l : list string) : Prop :=
  forall x, x ∈ l -> CompareVersions x v <= 0.

Lemma sortNewestFirst_Sorted vs :
  StronglySorted (fun a b => CompareVersions b a <= 0) (sortNewestFirst vs).
Proof.
  pose proof (SliceStable_Sorted (fun a b => 0 <? CompareVersions a b) all vs
    (Comparator_greater _ _ _)) as H.
  assert (Hall : Forall (fun _ : string => True) vs) by (by apply Forall_forall).
  specialize (H Hall). unfold sortNewestFirst.
  induction H as [|x l Hs IH Hx]; constructor; [done|].
  eapply Forall_impl; [exact Hx|]. intros y Hy%Z.ltb_ge. done.
Qed.

Lemma sortNewestFirst_head vs v rest : sortNewestFirst vs = v :: rest ->
  v ∈ vs /\ newest v vs.
Proof.
  intros E. pose proof (SliceStable_perm (fun a b => 0 <? CompareVersions a b) vs) as Hp.
  fold (sortNewestFirst vs) in Hp. rewrite E in Hp. split.
  - rewrite <-Hp. apply list_elem_of_here.
  - intros x Hx. rewrite <-Hp in Hx. apply elem_of_cons in Hx as [->|Hx].
    + by rewrite (cmp_refl CompareVersions all _ _ I).
    + pose proof (sortNewestFirst_Sorted vs) as Hs. rewrite E in Hs.
      apply StronglySorted_inv in Hs as [_ Hs]. rewrite Forall_forall in Hs. by apply Hs.
Qed.

(** The head of the sorted list is kept by the insertion of an element that is
    not newer: the first of the newest. *)
Lemma insert_head (less : string -> string -> bool) x y l : less x y = false ->
  exists l', insert_sorted less x (y :: l) = y :: l'.
Proof. intros E. cbn [insert_sorted]. rewrite E. eauto. Qed.

Lemma Latest_go vs : forall best rest, best <> "" -> Forall (fun v => v <> "") vs ->
  exists rest', foldl (fun acc x => insert_sorted (fun a b => 0 <? CompareVersions a b) x acc)
    (best :: rest) vs = foldl newer best vs :: rest'.
Proof.
  induction vs as [|v vs IH]; intros best rest Hb Hv; cbn [foldl]; [eauto|].
  apply Forall_cons in Hv as [Hv Hvs]. unfold newer at 2.
  rewrite (proj2 (String.eqb_neq best "") Hb). cbn [orb insert_sorted].
  destruct (0 <? CompareVersions v best); apply IH; done.
Qed.

End version.

(** ** Properties *)

(** the newest-first sort is one: it permutes the versions, puts no version
    before a newer one, and its head is what [Latest] finds. *)
Theorem sortNewestFirst_spec {U : UnicodeTables} vs : Forall (fun v => v <> "") vs ->
  sortNewestFirst vs ≡ₚ vs /\
  StronglySorted (fun a b => CompareVersions b a <= 0) (sortNewestFirst vs) /\
  (vs <> [] -> head (sortNewestFirst vs) = Some (Latest vs) /\ newest (Latest vs) vs).
Proof.
  intros Hv. split_and!; [apply SliceStable_perm|apply sortNewestFirst_Sorted|].
  destruct vs as [|v vs]; [done|]. intros _. apply Forall_cons in Hv as [Hne Hvs].
  destruct (Latest_go vs v [] Hne Hvs) as [rest E].
  assert (Es : sortNewestFirst (v :: vs) = Latest (v :: vs) :: rest) by exact E.
  split; [by rewrite Es|]. by apply sortNewestFirst_head in Es as [_ ?].
Qed.

(** No code point above ASCII is a letter or a digit. *)
Definition asciiTables : UnicodeTables :=
  {| highDigit := fun _ => false; highLetter := fun _ => false; highLower := fun r => r |}.

Lemma sortNewestFirst_spec_witness :
  @sortNewestFirst asciiTables ["1.9.0"; "1.10.0-rc1"; "v1.10.0"; "1.10"]
    = ["v1.10.0"; "1.10.0-rc1"; "1.10"; "1.9.0"] /\
  newest (U := asciiTables) "v1.10.0" ["1.9.0"; "1.10.0-rc1"; "v1.10.0"; "1.10"].
Proof.
  split; [by vm_compute|].
  apply (@sortNewestFirst_spec asciiTables ["1.9.0"; "1.10.0-rc1"; "v1.10.0"; "1.10"]); [|done].
  by apply (bool_decide_unpack _); vm_compute.
Defined.

(** the comparison is a total preorder on all strings: it is antisymmetric,
    transitive, and a pre-release is below its release. *)
Theorem CompareVersions_order {U : UnicodeTables} a b c :
  CompareVersions a b = - CompareVersions b a /\
  (CompareVersions a b <= 0 -> CompareVersions b c <= 0 -> CompareVersions a c <= 0) /\
  (core a = core b -> pre a <> "" -> pre b = "" -> CompareVersions a b = -1).
Proof.
  split_and!.
  - by apply (cmp_antisym (P := fun _ => True)).
  - by apply (cmp_trans (P := fun _ => True)).
  - intros Hc Ha Hb. rewrite CompareVersions_lex, Hc, Hb.
    rewrite (cmp_refl compareTokens (fun _ => True) _ _ I). unfold comparePre.
    apply String.eqb_neq in Ha. by rewrite Ha.
Qed.

Lemma CompareVersions_order_witness :
  @CompareVersions asciiTables "2.0.0-rc.1" "v2.0.0" = -1 /\
  @CompareVersions asciiTables "2.0.0-rc.1" "2.0.1" <= 0.
Proof.
  split.
  - by apply (@CompareVersions_order asciiTables "2.0.0-rc.1" "v2.0.0" "2.0.1").
  - apply (@CompareVersions_order asciiTables "2.0.0-rc.1" "v2.0.0" "2.0.1"); by vm_compute.
Defined.
