(* ===== verification/RubyGems.v ===== *)
(** * internal/registry/rubygems: a hosted RubyGems registry (rubygems.go, gemfile.go, marshal.go)

    Gems are stored with their metadata, from which the compact index is
    regenerated after every change and the Marshal documents are synthesised.
    Reading an archive is a parameter ([ReadGem]: tar, gzip and YAML into
    [yamlSpec]); so are compression, the layouts of times and [url.ParseQuery].
    A nil slice or map and an empty one are the same.  The body of an answer to
    HEAD is the one that is not written. *)

From Stdlib Require Import ZArith Lia Ascii.
From stdpp Require Import base list strings gmap.
From S2P Require Import Prelude GoStrings GoPath GoHash GoBase64 GoJson RubyMarshal PkgVersion Backend PkgStore.

Local Open Scope Z_scope.
Local Open Scope kutu_scope.

(** ** Metadata *)

Record Dependency := { dName : string; dRequirements : list string; dType : string }.

(** [CreatedAt]: nanoseconds since 1970. *)
Record GemMeta := {
  gName : string; gVersion : string; gPlatform : string; Summary : string; Description : string; Homepage : string;
  Authors : list string; Email : list string; Licenses : list string; Metadata : gmap string string;
  Dependencies : list Dependency; RequiredRuby : list string; RequiredRubygems : list string;
  RubygemsVersion : string; SHA256 : string; gSize : Z; CreatedAt : Z;
}.

Definition platform (m : GemMeta) : string := if String.eqb (gPlatform m) "" then "ruby" else gPlatform m.

Definition versionPlatform (m : GemMeta) : string :=
  if String.eqb (platform m) "ruby" then gVersion m else gVersion m +:+ "-" +:+ platform m.

Definition FullName (m : GemMeta) : string := gName m +:+ "-" +:+ versionPlatform m.

Definition isPrerelease (v : string) : bool := negb (str_forallb (fun c => negb (is_lower c || is_upper c)) v).

Definition runtimeDeps (m : GemMeta) : list Dependency :=
  List.filter (fun d => negb (String.eqb (dType d) "development")) (Dependencies m).

(** [nameRe] and [versionRe]. *)
Definition name_char (c : ascii) : bool :=
  is_lower c || is_upper c || is_digit c || Ascii.eqb c "." || Ascii.eqb c "_" || Ascii.eqb c "-".

Definition validName (s : string) : bool :=
  negb (String.eqb s "") && negb (String.eqb s ".") && negb (String.eqb s "..") && str_forallb name_char s.

Definition validVersion (s : string) : bool := validName s.

(** The decoded YAML document: each requirement is a list of its scalars. *)
Record yamlSpec := {
  yName : string; yVersion : string; yPlatform : string; ySummary : string; yDescription : string; yHomepage : string;
  yAuthors : list string; yEmail : list string; yLicenses : list string; yMetadata : gmap string string;
  yDependencies : list (string * list (list string) * string);
  yRequiredRuby : list (list string); yRequiredRubygems : list (list string); yRubygemsVersion : string;
}.

Definition requirement_strings (y : list (list string)) : list string :=
  omap (fun pair => match pair with [op; v] => Some (op +:+ " " +:+ v) | _ => None end) y.

Definition dependency_of (d : string * list (list string) * string) : Dependency :=
  let '(name, reqs, typ) := d in
  {| dName := name;
     dRequirements := match requirement_strings reqs with [] => [">= 0"] | l => l end;
     dType := if String.eqb (TrimPrefix (TrimSpace typ) ":") "development" then "development" else "runtime" |}.

(** [parseGemspecYAML] after the document is decoded. *)
Definition gemspec_meta (y : yamlSpec) : result string GemMeta :=
  let p := if String.eqb (yPlatform y) "ruby" then "" else yPlatform y in
  let name := TrimSpace (yName y) in
  if negb (validName name) then Err "invalid gem name"
  else if negb (validVersion (yVersion y)) then Err "invalid gem version"
  else if negb (String.eqb p "") && negb (validVersion p) then Err "invalid gem platform"
  else Ok {| gName := name; gVersion := yVersion y; gPlatform := p; Summary := ySummary y; Description := yDescription y;
             Homepage := yHomepage y; Authors := yAuthors y; Email := yEmail y; Licenses := yLicenses y;
             Metadata := yMetadata y;
             Dependencies := SliceStable (fun a b => str_ltb (dName a) (dName b)) (dependency_of <$> yDependencies y);
             RequiredRuby := requirement_strings (yRequiredRuby y);
             RequiredRubygems := requirement_strings (yRequiredRubygems y);
             RubygemsVersion := yRubygemsVersion y; SHA256 := ""; gSize := 0; CreatedAt := 0 |}.

(** "{name}-{version}[-{platform}]": the version starts at the first "-" before a
    digit; [pre] is what was passed over. *)
Fixpoint split_at_version (pre s : string) : option (string * string) :=
  match s with
  | String c ((String d _) as t) =>
      if Ascii.eqb c "-" && is_digit d && negb (String.eqb pre "") then Some (pre, t)
      else split_at_version (pre +:+ String c "") t
  | _ => None
  end.

Definition splitGemFile (full : string) : option (string * string * string) :=
  match split_at_version "" full with
  | None => None
  | Some (name, rest) =>
      let '(version, platform, _) := Cut rest "-" in
      if validName name && validVersion version then Some (name, version, platform) else None
  end.

(** ** Marshal documents *)

Definition gemVersionObj (v : string) : Ruby := RUserMar "Gem::Version" (RArray [RString v]).

Definition requirement_ops : list string := [">="; "<="; "~>"; "!="; ">"; "<"; "="].

Definition splitReq (r : string) : string * string :=
  let r := TrimSpace r in
  match List.find (fun o => HasPrefix r o) requirement_ops with
  | Some o => (o, TrimSpace (str_drop (len o) r))
  | None => ("=", r)
  end.

Definition gemRequirementObj (reqs : list string) : Ruby :=
  let reqs := match reqs with [] => [">= 0"] | _ => reqs end in
  RUserMar "Gem::Requirement"
    (RArray [RArray ((fun r => let '(op, ver) := splitReq r in RArray [RString op; gemVersionObj ver]) <$> reqs)]).

Definition strOrList (v : list string) : Ruby :=
  match v with [] => RNil | [x] => RString x | _ => RArray (RString <$> v) end.

Definition dependencyObj (d : Dependency) : Ruby :=
  let req := gemRequirementObj (dRequirements d) in
  let typ := if String.eqb (TrimPrefix (dType d) ":") "development" then "development" else "runtime" in
  RObject "Gem::Dependency"
    [("@name", RString (dName d)); ("@requirement", req); ("@type", RSym typ); ("@prerelease", RBool false);
     ("@version_requirements", req)].

Definition sorted_entries (m : gmap string string) : list (string * string) :=
  SliceStable (fun a b => str_ltb a.1 b.1) (map_to_list m).

Definition gemspec_fields (m : GemMeta) : Ruby :=
  RArray [
    RString (if String.eqb (RubygemsVersion m) "" then "3.5.0" else RubygemsVersion m);
    RInt 4; RString (gName m); gemVersionObj (gVersion m); RNil; RString (Summary m);
    gemRequirementObj (RequiredRuby m); gemRequirementObj (RequiredRubygems m); RString (platform m);
    RArray (dependencyObj <$> Dependencies m); RString ""; strOrList (Email m);
    RArray (RString <$> Authors m); RString (Description m); RString (Homepage m); RBool true; RString (platform m);
    RArray (RString <$> Licenses m); RHash ((fun kv => (RString kv.1, RString kv.2)) <$> sorted_entries (Metadata m))].

Definition gemspecMarshal (m : GemMeta) : string :=
  rubyMarshal (RUserDef "Gem::Specification" (rubyMarshal (gemspec_fields m))).

Definition specsRaw (metas : list GemMeta) : string :=
  rubyMarshal (RArray ((fun m => RArray [RString (gName m); gemVersionObj (gVersion m); RString (platform m)]) <$> metas)).

Definition dependencyMarshal (ms : list GemMeta) : string :=
  rubyMarshal (RArray ((fun m => RHash [
    (RSym "name", RString (gName m)); (RSym "number", RString (gVersion m)); (RSym "platform", RString (platform m));
    (RSym "dependencies", RArray ((fun d => RArray [RString (dName d); RString (Join (dRequirements d) ", ")]) <$> runtimeDeps m))])
    <$> ms)).

(** ** The compact index *)

Definition reqString (reqs : list string) : string := Join reqs "&".

Definition isDefaultReq (reqs : list string) : bool :=
  match reqs with [] => true | [r] => String.eqb (TrimSpace r) ">= 0" | _ => false end.

Definition infoLine (m : GemMeta) : string :=
  versionPlatform m +:+ " " +:+
  Join ((fun d => dName d +:+ ":" +:+ reqString (dRequirements d)) <$> runtimeDeps m) "," +:+
  "|checksum:" +:+ SHA256 m +:+
  (if isDefaultReq (RequiredRuby m) then "" else ",ruby:" +:+ reqString (RequiredRuby m)) +:+
  (if isDefaultReq (RequiredRubygems m) then "" else ",rubygems:" +:+ reqString (RequiredRubygems m)).

Definition newline : string := String (chr 10) "".

Definition lines (l : list string) : string := foldr (fun x acc => x +:+ newline +:+ acc) "" l.

Definition buildInfo (ms : list GemMeta) : string := "---" +:+ newline +:+ lines (infoLine <$> ms).

Definition md5Hex (b : string) : string := EncodeToString (Md5Sum b).

(** The lines after the header, or all of them when there is none. *)
Fixpoint after_header (l : list string) : option (list string) :=
  match l with
  | [] => None
  | x :: l => if String.eqb (TrimRight x (String (chr 13) "")) "---" then Some l else after_header l
  end.

Definition blank (s : string) : bool := String.eqb (TrimSpace s) "".

Definition infoLines (info : string) : list string :=
  let ls := Split info (chr 10) in
  match after_header ls with
  | Some l => List.filter (fun x => negb (blank x)) ((fun x => TrimRight x (String (chr 13) "")) <$> l)
  | None => List.filter (fun x => negb (blank x)) ls
  end.

Definition infoVersions (info : string) : list string :=
  List.filter (fun t => negb (String.eqb t "")) ((fun l => (Cut l " ").1.1) <$> infoLines info).

(** [created]: the time of the header. *)
Definition versionsHeader (created : string) : string := "created_at: " +:+ created +:+ newline +:+ "---" +:+ newline.

(** The entries by name, with the versions and the hash of the info file. *)
Definition buildVersions (created : string) (entries : list (string * (list string * string))) : string :=
  versionsHeader created +:+
  lines ((fun e => e.1 +:+ " " +:+ Join e.2.1 "," +:+ " " +:+ e.2.2) <$>
         List.filter (fun e : string * (list string * string) => match e.2.1 with [] => false | _ => true end) entries).

Definition buildNames (names : list string) : string := "---" +:+ newline +:+ lines names.

(** ** The metadata file *)

Section times.
(** The RFC 3339 layout with nanoseconds, and back. *)
Variables (FormatTime : Z -> string) (ParseTime : string -> option Z).

Definition strings_json (l : list string) : Json := JArray (JString <$> l).

(** The members of a struct; [omitempty] leaves some out. *)
Definition present (fields : list (string * option Json)) : list (string * Json) :=
  omap (fun kv => (fun j => (kv.1, j)) <$> kv.2) fields.

Definition opt_str (v : string) : option Json := if String.eqb v "" then None else Some (JString v).
Definition opt_strs (l : list string) : option Json := match l with [] => None | _ => Some (strings_json l) end.

Definition dependency_json (d : Dependency) : Json :=
  JObject [("name", JString (dName d));
           ("requirements", match dRequirements d with [] => JNull | l => strings_json l end);
           ("type", JString (dType d))].

Definition opt_dependencies (l : list Dependency) : option Json :=
  match l with [] => None | _ => Some (JArray (dependency_json <$> l)) end.

Definition meta_fields (m : GemMeta) : list (string * option Json) :=
  [("name", Some (JString (gName m))); ("version", Some (JString (gVersion m))); ("platform", opt_str (gPlatform m));
   ("summary", opt_str (Summary m)); ("description", opt_str (Description m)); ("homepage", opt_str (Homepage m));
   ("authors", opt_strs (Authors m)); ("email", opt_strs (Email m)); ("licenses", opt_strs (Licenses m));
   ("metadata", if bool_decide (Metadata m = ∅) then None
                else Some (JObject ((fun kv => (kv.1, JString kv.2)) <$> sorted_entries (Metadata m))));
   ("dependencies", opt_dependencies (Dependencies m));
   ("required_ruby_version", opt_strs (RequiredRuby m)); ("required_rubygems_version", opt_strs (RequiredRubygems m));
   ("rubygems_version", opt_str (RubygemsVersion m)); ("sha256", Some (JString (SHA256 m)));
   ("size", Some (JNumber (itoa (gSize m)))); ("created_at", Some (JString (FormatTime (CreatedAt m))))].

Definition meta_json (m : GemMeta) : Json := JObject (present (meta_fields m)).

Definition encode_meta (m : GemMeta) : string := write (meta_json m).

Definition dependency_shape : Shape := TStruct [("name", TString); ("requirements", TSlice TString); ("type", TString)].

Definition meta_shape : Shape := TStruct
  [("name", TString); ("version", TString); ("platform", TString); ("summary", TString); ("description", TString);
   ("homepage", TString); ("authors", TSlice TString); ("email", TSlice TString); ("licenses", TSlice TString);
   ("metadata", TMap TString); ("dependencies", TSlice dependency_shape); ("required_ruby_version", TSlice TString);
   ("required_rubygems_version", TSlice TString); ("rubygems_version", TString); ("sha256", TString); ("size", TInt);
   ("created_at", TText (fun s => is_some (ParseTime s)))].

Definition scan_text (old : string) (j : Json) : string := default old (as_string j).

Definition scan_dependency (d : Dependency) (j : Json) : Dependency :=
  let m := members j in
  {| dName := scan_field as_string "name" (dName d) m;
     dRequirements := match struct_field "requirements" m with
                      | [] => dRequirements d | _ => scan_slice scan_text "" "requirements" m end;
     dType := scan_field as_string "type" (dType d) m |}.

(** [map[string]string]: null drops it, an object adds its members. *)
Definition scan_map (name : string) (m : list (string * Json)) : gmap string string :=
  foldl (fun old j => match j with
           | JNull => ∅
           | JObject kvs => foldl (fun old kv => <[ kv.1 := default "" (as_string kv.2) ]> old) old kvs
           | _ => old
           end) ∅ (struct_field name m).

Definition as_time (j : Json) : option Z := s ← as_string j; ParseTime s.

(** [json.Unmarshal] into a zero [GemMeta]; the zero time is year 1. *)
Definition zero_time : Z := -62135596800000000000.

Definition decode_meta (b : string) : option GemMeta :=
  j ← parse b;
  if match j with JObject _ | JNull => fits meta_shape j | _ => false end then
    let m := members j in
    let strs k := scan_slice scan_text "" k m in
    let str k := scan_field as_string k "" m in
    Some {| gName := str "name"; gVersion := str "version"; gPlatform := str "platform"; Summary := str "summary";
            Description := str "description"; Homepage := str "homepage"; Authors := strs "authors"; Email := strs "email";
            Licenses := strs "licenses"; Metadata := scan_map "metadata" m;
            Dependencies := scan_slice scan_dependency {| dName := ""; dRequirements := []; dType := "" |} "dependencies" m;
            RequiredRuby := strs "required_ruby_version"; RequiredRubygems := strs "required_rubygems_version";
            RubygemsVersion := str "rubygems_version"; SHA256 := str "sha256"; gSize := scan_field as_int "size" 0 m;
            CreatedAt := scan_field as_time "created_at" zero_time m |}
  else None.
End times.

(** ** Paths *)

Definition gemRel (full : string) : string := PathJoin ["gems"; full +:+ ".gem"].
Definition metaRel (name vp : string) : string := PathJoin ["meta"; name; vp +:+ ".json"].
Definition infoRel (name : string) : string := PathJoin ["index"; "info"; name].
Definition versionsRel : string := PathJoin ["index"; "versions"].
Definition namesRel : string := PathJoin ["index"; "names"].

(** One segment between a prefix and a suffix, for a gem's file name. *)
Definition fileFromPath (prefix suffix p : string) : option string :=
  if HasPrefix p prefix then
    let file := TrimPrefix p prefix in
    if ContainsByte file "/" || negb (HasSuffix file suffix) then None
    else let full := TrimSuffix file suffix in if String.eqb full "" then None else Some full
  else None.

Definition gemFileFromPath : string -> option string := fileFromPath "/gems/" ".gem".
Definition quickFromPath : string -> option string := fileFromPath "/quick/Marshal.4.8/" ".gemspec.rz".

Definition singleSegment (p prefix suffix : string) : option string :=
  if HasPrefix p prefix && HasSuffix (TrimPrefix p prefix) suffix then
    let s := TrimSuffix (TrimPrefix p prefix) suffix in if validName s then Some s else None
  else None.

Definition isSpecsIndex (p : string) : bool :=
  bool_decide (TrimPrefix p "/" ∈ ["specs.4.8.gz"; "latest_specs.4.8.gz"; "prerelease_specs.4.8.gz";
                                   "specs.4.8"; "latest_specs.4.8"; "prerelease_specs.4.8"]).

(** The gem a request is about, with its version when it is a download. *)
Definition classify (p : string) : option (string * string) :=
  match gemFileFromPath p with
  | Some full => match splitGemFile full with Some (n, v, _) => Some (n, v) | None => None end
  | None =>
      match quickFromPath p with
      | Some full => match splitGemFile full with Some (n, _, _) => Some (n, "") | None => None end
      | None =>
          match singleSegment p "/info/" "" with
          | Some n => Some (n, "")
          | None =>
              match singleSegment p "/api/v1/gems/" ".json" with
              | Some n => Some (n, "")
              | None => (fun n => (n, "")) <$> singleSegment p "/api/v1/versions/" ".json"
              end
          end
      end
  end.

Definition splitGemsParam (q : string) : list string :=
  List.filter validName (TrimSpace <$> Split q ",").

(** ** Selections *)

Section versions.
Context {U : UnicodeTables}.

Definition meta_less (a b : GemMeta) : bool :=
  let c := CompareVersions (gVersion a) (gVersion b) in
  if negb (c =? 0) then c <? 0 else str_ltb (platform a) (platform b).

Definition sortMetas : list GemMeta -> list GemMeta := SliceStable meta_less.

Definition uniqueVersions (ms : list GemMeta) : list string :=
  SortVersions (foldl (fun vs m => if bool_decide (gVersion m ∈ vs) then vs else vs ++ [gVersion m]) [] ms).

Definition score (m : GemMeta) : Z :=
  (if isPrerelease (gVersion m) then 0 else 2) + (if String.eqb (platform m) "ruby" then 1 else 0).

Definition latestMeta (ms : list GemMeta) : option GemMeta :=
  foldl (fun best m => match best with
    | None => Some m
    | Some b => if (score b <? score m) || (score m =? score b) && (0 <? CompareVersions (gVersion m) (gVersion b))
                then Some m else best
    end) None ms.

(** The newest release of each gem and platform, in the order of their keys. *)
Definition latest_step (acc : gmap string GemMeta) (m : GemMeta) : gmap string GemMeta :=
  if isPrerelease (gVersion m) then acc
  else
    let k := gName m +:+ String (chr 0) (platform m) in
    match acc !! k with
    | Some cur => if 0 <? CompareVersions (gVersion m) (gVersion cur) then <[ k := m ]> acc else acc
    | None => <[ k := m ]> acc
    end.

Definition specsFor (file : string) (all : list GemMeta) : list GemMeta :=
  let file := TrimSuffix (TrimPrefix file "/") ".gz" in
  if String.eqb file "prerelease_specs.4.8" then List.filter (fun m => isPrerelease (gVersion m)) all
  else if String.eqb file "latest_specs.4.8" then
    (SliceStable (fun a b => str_ltb a.1 b.1) (map_to_list (foldl latest_step ∅ all))).*2
  else List.filter (fun m => negb (isPrerelease (gVersion m))) all.

(** ** Documents of the JSON API: the members of a map in the order of their keys *)

Definition depsJSON (ds : list Dependency) : Json :=
  JArray ((fun d => JObject [("name", JString (dName d)); ("requirements", JString (Join (dRequirements d) ", "))]) <$> ds).

Definition development (d : Dependency) : bool := String.eqb (dType d) "development".

Definition firstNonEmpty (ss : list string) : string := default "" (List.find (fun s => negb (String.eqb s "")) ss).

Definition reqOrDefault (reqs : list string) : string :=
  match reqs with [] => ">= 0" | _ => Join reqs ", " end.

Definition metadata_json (m : GemMeta) : Json :=
  if bool_decide (Metadata m = ∅) then JNull else JObject ((fun kv => (kv.1, JString kv.2)) <$> sorted_entries (Metadata m)).

Section json.
Variable FormatTime : Z -> string.

Definition gemJSON (base : string) (m : GemMeta) : Json := JObject [
  ("authors", JString (Join (Authors m) ", "));
  ("dependencies", JObject [("development", depsJSON (List.filter development (Dependencies m)));
                            ("runtime", depsJSON (runtimeDeps m))]);
  ("downloads", JNumber "0"); ("gem_uri", JString (base +:+ "/gems/" +:+ FullName m +:+ ".gem"));
  ("homepage_uri", JString (Homepage m)); ("info", JString (firstNonEmpty [Description m; Summary m]));
  ("licenses", strings_json (Licenses m)); ("metadata", metadata_json m); ("name", JString (gName m));
  ("platform", JString (platform m)); ("sha", JString (SHA256 m)); ("version", JString (gVersion m));
  ("version_created_at", JString (FormatTime (CreatedAt m))); ("version_downloads", JNumber "0"); ("yanked", JBool false)].

Definition versionJSON (m : GemMeta) : Json := JObject [
  ("authors", JString (Join (Authors m) ", ")); ("created_at", JString (FormatTime (CreatedAt m)));
  ("description", JString (Description m)); ("downloads_count", JNumber "0"); ("licenses", strings_json (Licenses m));
  ("metadata", metadata_json m); ("number", JString (gVersion m)); ("platform", JString (platform m));
  ("prerelease", JBool (isPrerelease (gVersion m))); ("ruby_version", JString (reqOrDefault (RequiredRuby m)));
  ("rubygems_version", JString (reqOrDefault (RequiredRubygems m))); ("sha", JString (SHA256 m));
  ("summary", JString (Summary m))].
End json.

Definition dependencyRows (ms : list GemMeta) : Json :=
  JArray ((fun m => JObject [
    ("dependencies", JArray ((fun d => JArray [JString (dName d); JString (Join (dRequirements d) ", ")]) <$> runtimeDeps m));
    ("name", JString (gName m)); ("number", JString (gVersion m)); ("platform", JString (platform m))]) <$> ms).

(** ** The store *)

Section store.
Context {F : Type} `{Backend F}.
Variables (FormatTime : Z -> string) (ParseTime : string -> option Z).

Definition names (s : Store F) : result FSError (list string) := ListDirs s "meta".

Definition load_file (s : Store F) (name : string) (f : DirEntry) : option GemMeta :=
  if negb (HasSuffix (eName f) ".json") then None
  else match StoreRead s (PathJoin ["meta"; name; eName f]) with
  | Err _ => None
  | Ok b => match decode_meta ParseTime b with
            | Some m => if String.eqb (gName m) "" then None else Some m
            | None => None
            end
  end.

Definition LoadMetas (s : Store F) (name : string) : result FSError (list GemMeta) :=
  if negb (validName name) then Ok []
  else
    let! files := ListFiles s (PathJoin ["meta"; name]) in
    Ok (sortMetas (omap (load_file s name) files)).

(** What a caller that drops the error sees. *)
Definition metas_of (s : Store F) (name : string) : list GemMeta :=
  match LoadMetas s name with Ok ms => ms | Err _ => [] end.

Definition allMetas (s : Store F) : list GemMeta :=
  match names s with Ok ns => concat (metas_of s <$> ns) | Err _ => [] end.

Definition loadMeta (s : Store F) (name vp : string) : option GemMeta :=
  match StoreRead s (metaRel name vp) with Ok b => decode_meta ParseTime b | Err _ => None end.

Definition put (s : Store F) (m : GemMeta) (body : string) : option StoreError * Store F :=
  match StoreWrite s (gemRel (FullName m)) body with
  | (Some e, s) => (Some e, s)
  | (None, s) => StoreWrite s (metaRel (gName m) (versionPlatform m)) (encode_meta FormatTime m)
  end.

Definition remove (s : Store F) (m : GemMeta) : option StoreError * Store F :=
  match StoreDelete s (gemRel (FullName m)) with
  | (Some e, s) => (Some e, s)
  | (None, s) => StoreDelete s (metaRel (gName m) (versionPlatform m))
  end.

Definition matches_version (version plat : string) (m : GemMeta) : bool :=
  if negb (String.eqb plat "") then String.eqb (gVersion m) version && String.eqb (platform m) plat
  else String.eqb (gVersion m) version || String.eqb (versionPlatform m) version.

Definition matchVersion (s : Store F) (name version plat : string) : result FSError (list GemMeta) :=
  let! ms := LoadMetas s name in Ok (List.filter (matches_version version plat) ms).

(** An entry of /versions, for a gem whose info file lists something. *)
Definition root_entry (s : Store F) (n : string) : option (string * (list string * string)) :=
  match StoreRead s (infoRel n) with
  | Err _ => None
  | Ok info => match infoVersions info with [] => None | vs => Some (n, (vs, md5Hex info)) end
  end.

Definition rebuildRoot (created : string) (s : Store F) : option StoreError * Store F :=
  match names s with
  | Err e => (Some (ErrFS e), s)
  | Ok ns =>
      let entries := omap (root_entry s) ns in
      match StoreWrite s versionsRel (buildVersions created entries) with
      | (Some e, s) => (Some e, s)
      | (None, s) => StoreWrite s namesRel (buildNames entries.*1)
      end
  end.

Definition Regenerate (created : string) (s : Store F) (name : string) : option StoreError * Store F :=
  match LoadMetas s name with
  | Err e => (Some (ErrFS e), s)
  | Ok ms =>
      match (match ms with [] => StoreDelete s (infoRel name) | _ => StoreWrite s (infoRel name) (buildInfo ms) end) with
      | (Some e, s) => (Some e, s)
      | (None, s) => rebuildRoot created s
      end
  end.

Definition ListPackages (s : Store F) : result FSError (list (string * list string)) :=
  let! ns := names s in
  Ok (omap (fun n => match metas_of s n with [] => None | ms => Some (n, uniqueVersions ms) end) ns).

(** Removing some metas, up to the first error. *)
Fixpoint remove_all (s : Store F) (ms : list GemMeta) : option StoreError * Store F :=
  match ms with
  | [] => (None, s)
  | m :: ms => match remove s m with (Some e, s) => (Some e, s) | (None, s) => remove_all s ms end
  end.

(** ** The hosted repository *)

Record Local := { lstore : Store F; AllowPush : bool; MaxUpload : Z; Guard : PublishGuard }.

Definition with_store (l : Local) (s : Store F) : Local :=
  {| lstore := s; AllowPush := AllowPush l; MaxUpload := MaxUpload l; Guard := Guard l |}.

Record Request := {
  Method : string; Path : string; Body : Reader; Query : list (string * string); Basic : option (string * string);
  Authorization : string; IfNoneMatch : string; PublicBase : string;
}.

(** A reply's status and body; [Fail] is the JSON error of pkgbase; [Serve] streams
    a stored file. *)
Inductive Answer := Reply (code : Z) (body : string) | Fail (code : Z) | Serve (r : Reader).

(** The RFC 3339 layout. *)
Variable FormatSeconds : Z -> string.
Variable ReadGem : string -> result string yamlSpec.
Variable ParseQuery : string -> option (list (string * string)).
Variables (Gzip Deflate : string -> string).

(** The clock of a request, and the fuel for walking the store. *)
Record Env := { eNow : Z; eFuel : nat }.

Definition eCreated (e : Env) : string := FormatSeconds (eNow e).

Definition parseGem (body : string) : result string GemMeta := let! y := ReadGem body in gemspec_meta y.

Definition DefaultMaxUpload : Z := 1024 * 1024 * 1024.

(** The body, when it is not longer than [max]; a limit that wraps around lets
    nothing through. *)
Definition ReadBody (r : Reader) (max : Z) : option string :=
  let max := if max <=? 0 then DefaultMaxUpload else max in
  let n := wrap64 (max + 1) in
  if n <=? 0 then Some ""
  else if Z.of_nat (len (rData r)) <? n then match rErr r with None => Some (rData r) | Some _ => None end
  else None.

Definition stamped (m : GemMeta) (body : string) (now : Z) : GemMeta :=
  {| gName := gName m; gVersion := gVersion m; gPlatform := gPlatform m; Summary := Summary m; Description := Description m;
     Homepage := Homepage m; Authors := Authors m; Email := Email m; Licenses := Licenses m; Metadata := Metadata m;
     Dependencies := Dependencies m; RequiredRuby := RequiredRuby m; RequiredRubygems := RequiredRubygems m;
     RubygemsVersion := RubygemsVersion m; SHA256 := hexSHA256 body; gSize := Z.of_nat (len body); CreatedAt := now |}.

Definition push (e : Env) (l : Local) (r : Request) : Answer * Local :=
  if negb (AllowPush l) then (Fail 405, l)
  else match ReadBody (Body r) (MaxUpload l) with
  | None => (Fail 413, l)
  | Some body =>
      match parseGem body with
      | Err msg => (Reply 422 msg, l)
      | Ok m =>
          let m := stamped m body (eNow e) in
          match Check (eFuel e) (Guard l) (Some (lstore l)) (Exists (lstore l) (metaRel (gName m) (versionPlatform m))) (gSize m) with
          | Some code => (Fail code, l)
          | None =>
              match put (lstore l) m body with
              | (Some _, s) => (Fail 500, with_store l s)
              | (None, s) =>
                  match Regenerate (eCreated e) s (gName m) with
                  | (Some _, s) => (Fail 500, with_store l s)
                  | (None, s) =>
                      (Reply 200 ("Successfully registered gem: " +:+ gName m +:+ " (" +:+ versionPlatform m +:+ ")"), with_store l s)
                  end
              end
          end
      end
  end.

(** The first value of a form field: the query's, then the body's. *)
Definition formValues (r : Request) (max : Z) : list (string * string) :=
  match ReadBody (Body r) max with
  | None => Query r
  | Some body => if String.eqb body "" then Query r
                 else match ParseQuery body with Some b => Query r ++ b | None => Query r end
  end.

Definition form_get (vals : list (string * string)) (k : string) : string :=
  match List.find (fun kv => String.eqb kv.1 k) vals with Some kv => kv.2 | None => "" end.

(** Without a platform, the ruby build, or every one that is named so. *)
Definition yank_metas (s : Store F) (name version plat : string) : result FSError (list GemMeta) :=
  if negb (String.eqb plat "") then matchVersion s name version plat
  else
    let! ms := matchVersion s name version "ruby" in
    match ms with [] => matchVersion s name version "" | _ => Ok ms end.

Definition yank (e : Env) (l : Local) (r : Request) : Answer * Local :=
  if negb (AllowPush l) then (Fail 405, l)
  else
    let vals := formValues r 1048576 in
    let name := form_get vals "gem_name" in
    let version := form_get vals "version" in
    let plat := let p := form_get vals "platform" in if String.eqb p "ruby" then "" else p in
    if negb (validName name) || negb (validVersion version) then (Reply 400 "gem_name and version are required", l)
    else match yank_metas (lstore l) name version plat with
    | Err _ => (Fail 500, l)
    | Ok [] => (Reply 404 ("The version " +:+ version +:+ " does not exist."), l)
    | Ok ms =>
        match remove_all (lstore l) ms with
        | (Some _, s) => (Fail 500, with_store l s)
        | (None, s) =>
            match Regenerate (eCreated e) s name with
            | (Some _, s) => (Fail 500, with_store l s)
            | (None, s) => (Reply 200 ("Successfully deleted gem: " +:+ name +:+ " (" +:+ version +:+ ")"), with_store l s)
            end
        end
    end.

(** The credential the client came with. *)
Definition presentedToken (r : Request) : string :=
  match Basic r with
  | Some (_, pass) => pass
  | None =>
      let a := TrimSpace (Authorization r) in
      if (7 <? len a)%nat && EqualFold (str_take 7 a) "bearer " then TrimSpace (str_drop 7 a) else a
  end.

Definition etagMatches (inm etag : string) : bool :=
  negb (String.eqb inm "") &&
  existsb (fun t => let t := TrimPrefix (TrimSpace t) "W/" in String.eqb t etag || String.eqb t "*") (Split inm ",").

Definition serveCompact (r : Request) (body : string) : Answer :=
  if etagMatches (IfNoneMatch r) (quote +:+ md5Hex body +:+ quote) then Reply 304 "" else Reply 200 body.

Definition serve_index (s : Store F) (r : Request) (rel fallback : string) : Answer :=
  serveCompact r (match StoreRead s rel with Ok b => b | Err _ => fallback end).

Definition serveRead (e : Env) (s : Store F) (r : Request) : Answer :=
  let p := Path r in
  if String.eqb p "/" || String.eqb p "" then Reply 200 ("rubygems registry" +:+ newline)
  else if String.eqb p "/versions" then serve_index s r versionsRel (versionsHeader (eCreated e))
  else if String.eqb p "/names" then serve_index s r namesRel ("---" +:+ newline)
  else if HasPrefix p "/info/" then
    match singleSegment p "/info/" "" with
    | None => Fail 404
    | Some name => match StoreRead s (infoRel name) with Ok b => serveCompact r b | Err _ => Fail 404 end
    end
  else if HasPrefix p "/gems/" then
    match gemFileFromPath p with
    | None => Fail 404
    | Some full => match Open (sfs s) (StoreJoin s [gemRel full]) with Ok (rd, _) => Serve rd | Err _ => Fail 404 end
    end
  else if HasPrefix p "/quick/Marshal.4.8/" then
    match (full ← quickFromPath p; splitGemFile full) with
    | None => Fail 404
    | Some (name, version, plat) =>
        let vp := if negb (String.eqb plat "") && negb (String.eqb plat "ruby") then version +:+ "-" +:+ plat else version in
        match loadMeta s name vp with Some m => Reply 200 (Deflate (gemspecMarshal m)) | None => Fail 404 end
    end
  else if isSpecsIndex p then
    let raw := specsRaw (specsFor p (allMetas s)) in Reply 200 (if HasSuffix p ".gz" then Gzip raw else raw)
  else if String.eqb p "/api/v1/api_key" || String.eqb p "/api/v1/api_key.json" then Reply 200 (presentedToken r)
  else if String.eqb p "/api/v1/dependencies" || String.eqb p "/api/v1/dependencies.json" then
    let ms := concat (metas_of s <$> splitGemsParam (form_get (Query r) "gems")) in
    Reply 200 (if HasSuffix p ".json" then write_plain (dependencyRows ms) else dependencyMarshal ms)
  else if HasPrefix p "/api/v1/gems/" then
    match (name ← singleSegment p "/api/v1/gems/" ".json"; latestMeta (metas_of s name)) with
    | None => Fail 404
    | Some m => Reply 200 (write_plain (gemJSON FormatTime (PublicBase r) m))
    end
  else if HasPrefix p "/api/v1/versions/" then
    match (name ← singleSegment p "/api/v1/versions/" ".json"; Some (metas_of s name)) with
    | None | Some [] => Fail 404
    | Some ms => Reply 200 (write_plain (JArray (versionJSON FormatTime <$> reverse ms)))
    end
  else Fail 404.

Definition ServeHTTP (e : Env) (l : Local) (r : Request) : Answer * Local :=
  let via m := String.eqb (Method r) m in
  if via "GET" || via "HEAD" then (serveRead e (lstore l) r, l)
  else if via "POST" then if String.eqb (Path r) "/api/v1/gems" then push e l r else (Fail 404, l)
  else if via "DELETE" then if String.eqb (Path r) "/api/v1/gems/yank" then yank e l r else (Fail 404, l)
  else (Fail 405, l).

(** ** Optional interfaces *)

Inductive GemError := InvalidPackageName | PackageNotFound | StoreFailed (e : StoreError) | Rejected (code : Z) | LoadFailed (e : FSError).

Definition DeleteVersion (e : Env) (l : Local) (name version : string) : option GemError * Local :=
  match matchVersion (lstore l) name version "" with
  | Err er => (Some (LoadFailed er), l)
  | Ok [] => (Some PackageNotFound, l)
  | Ok ms =>
      match remove_all (lstore l) ms with
      | (Some er, s) => (Some (StoreFailed er), with_store l s)
      | (None, s) => let '(er, s) := Regenerate (eCreated e) s name in (StoreFailed <$> er, with_store l s)
      end
  end.

Definition ArtifactInfo (l : Local) (name version : string) : option (string * Z) :=
  match matchVersion (lstore l) name version "" with
  | Ok (m :: _) => Some (Join (Licenses m) " OR ", CreatedAt m)
  | _ => None
  end.

(** A version's files and metadata, and the whole package, newest version first. *)
Record VersionDetail := {
  vdVersion : string; vdFiles : list (string * Z * string); vdSize : Z; vdPublishedAt : string;
  vdMetadata : list (string * string);
}.

Record PackageDetail := {
  pdLatest : string; pdDescription : string; pdHomepage : string; pdLicense : string;
  pdMetadata : list (string * string); pdVersions : list VersionDetail;
}.

Definition first_published (ms : list GemMeta) : option Z :=
  foldl (fun p m => if CreatedAt m =? zero_time then p
                    else match p with None => Some (CreatedAt m) | Some t => Some (Z.min (CreatedAt m) t) end) None ms.

Definition versionDetail (v : string) (ms : list GemMeta) : VersionDetail :=
  {| vdVersion := v; vdFiles := (fun m => (FullName m +:+ ".gem", gSize m, SHA256 m)) <$> ms;
     vdSize := foldl (fun n m => wrap64 (n + gSize m)) 0 ms;
     vdPublishedAt := match first_published ms with Some t => FormatSeconds t | None => "" end;
     vdMetadata := ("platforms", Join (platform <$> ms) ", ") ::
       match List.find (fun m => negb (isDefaultReq (RequiredRuby m))) ms with
       | Some m => [("ruby_version", Join (RequiredRuby m) ", ")] | None => [] end |}.

Definition detailFromMetas (latest : GemMeta) (ms : list GemMeta) : PackageDetail :=
  {| pdLatest := gVersion latest; pdDescription := firstNonEmpty [Summary latest; Description latest];
     pdHomepage := Homepage latest; pdLicense := Join (Licenses latest) " OR ";
     pdMetadata := match Authors latest with [] => [] | l => [("authors", Join l ", ")] end;
     pdVersions := (fun v => versionDetail v (List.filter (fun m => String.eqb (gVersion m) v) ms)) <$> reverse (uniqueVersions ms) |}.

Definition LocalPackageDetail (l : Local) (name : string) : result GemError PackageDetail :=
  if negb (validName name) then Err InvalidPackageName
  else match LoadMetas (lstore l) name with
  | Err er => Err (LoadFailed er)
  | Ok ms => match latestMeta ms with None => Err PackageNotFound | Some latest => Ok (detailFromMetas latest ms) end
  end.

(** Copying the builds of a version into [d]. *)
Fixpoint promote_all (e : Env) (src : Store F) (d : Local) (ms : list GemMeta) : option GemError * Local :=
  match ms with
  | [] => (None, d)
  | m :: ms =>
      match StoreRead src (gemRel (FullName m)) with
      | Err er => (Some (StoreFailed er), d)
      | Ok body =>
          match Check (eFuel e) (Guard d) (Some (lstore d)) (Exists (lstore d) (metaRel (gName m) (versionPlatform m)))
                  (Z.of_nat (len body)) with
          | Some code => (Some (Rejected code), d)
          | None =>
              match put (lstore d) m body with
              | (Some er, s) => (Some (StoreFailed er), with_store d s)
              | (None, s) => promote_all e src (with_store d s) ms
              end
          end
      end
  end.

Definition PromoteVersion (e : Env) (l d : Local) (name version : string) : option GemError * Local :=
  match matchVersion (lstore l) name version "" with
  | Err er => (Some (LoadFailed er), d)
  | Ok [] => (Some PackageNotFound, d)
  | Ok ms =>
      match promote_all e (lstore l) d ms with
      | (Some er, d) => (Some er, d)
      | (None, d) => let '(er, s) := Regenerate (eCreated e) (lstore d) name in (StoreFailed <$> er, with_store d s)
      end
  end.

End store.
End versions.

Arguments Local : clear implicits.
