(* ===== verification/RubyGemsLaws.v ===== *)
(** * The documents of the RubyGems registry

    What is written is read back: the stored metadata by the server, the compact
    index by Bundler, the Marshal documents by Ruby, a gem's file name by the
    policies. *)

From Stdlib Require Import ZArith Lia Ascii.
From stdpp Require Import base list strings gmap.
From S2P Require Import Prelude GoStrings GoPath GoHash GoJson GoJsonLaws RubyMarshal PkgVersion Backend PkgStore RubyGems.

Local Open Scope Z_scope.
Local Open Scope kutu_scope.

(** ** The metadata file *)

Section metadata.
Variables (FormatTime : Z -> string) (ParseTime : string -> option Z).

(** What RFC 3339 with nanoseconds keeps of the times that fit a clock. *)
Definition time_law : Prop := forall t, 0 <= t <= int64_max ->
  ValidString (FormatTime t) = true /\ ParseTime (FormatTime t) = Some t.

Hypothesis Htime : time_law.

Definition valid_strings (l : list string) : Prop := Forall (fun s => ValidString s = true) l.

(** UTF-8 throughout, and numbers in range. *)
Record meta_valid (m : GemMeta) : Prop := {
  mv_texts : valid_strings [gName m; gVersion m; gPlatform m; Summary m; Description m; Homepage m; RubygemsVersion m; SHA256 m];
  mv_lists : valid_strings (Authors m ++ Email m ++ Licenses m ++ RequiredRuby m ++ RequiredRubygems m);
  mv_entries : map_Forall (fun k v => ValidString k = true /\ ValidString v = true) (Metadata m);
  mv_deps : Forall (fun d => valid_strings (dName d :: dType d :: dRequirements d)) (Dependencies m);
  mv_size : 0 <= gSize m <= int64_max;
  mv_created : 0 <= CreatedAt m <= int64_max;
}.

Lemma struct_field_present k L : struct_field k (present L) =
  omap (fun kv => if String.eqb (fold_key kv.1) (ToLower k) then kv.2 else None) L.
Proof.
  unfold struct_field, present. induction L as [|[k' [j|]] L IH]; [done| |].
  - cbn [omap list_omap fst snd fmap option_fmap option_map]. rewrite IH. by destruct (String.eqb _ _).
  - cbn [omap list_omap fst snd fmap option_fmap option_map]. rewrite IH. by destruct (String.eqb _ _).
Qed.

Lemma forallb_present (P : string * Json -> bool) L :
  forallb P (present L) = forallb (fun kv => match kv.2 with Some j => P (kv.1, j) | None => true end) L.
Proof.
  induction L as [|[k [j|]] L IH]; [done| |]; cbn [present omap list_omap fst snd fmap option_fmap option_map forallb] in *; by rewrite <-IH.
Qed.

Lemma strings_writable d l : valid_strings l -> d < maxNestingDepth -> writable d (strings_json l) = true.
Proof.
  intros Hl Hd. unfold strings_json. cbn [writable]. rewrite ltb_true by done. cbn [andb]. apply forallb_forall.
  intros j Hj. apply list_elem_of_In, list_elem_of_fmap in Hj as (x & -> & Hx). by apply (proj1 (Forall_forall _ _) Hl).
Qed.

Lemma strings_back l : foldl (fun (old : list string) j => match j with
    | JNull => [] | JArray l => imap (fun i j => scan_text (default "" (old !! i)) j) l | _ => old end) []
    (match l with [] => [] | _ => [strings_json l] end) = l.
Proof.
  assert (H : imap (fun i j => scan_text (default "" ([] !! i)) j) (JString <$> l) = l).
  { rewrite imap_fmap. rewrite <-(list_fmap_id l) at 2. rewrite <-imap_const. apply imap_ext. done. }
  by destruct l as [|x l].
Qed.

(** The members of a map, and the map they give. *)
Lemma foldl_insert_map (l : list (string * string)) (m : gmap string string) : NoDup l.*1 -> (forall k, k ∈ l.*1 -> m !! k = None) ->
  foldl (fun old (kv : string * Json) => <[ kv.1 := default "" (as_string kv.2) ]> old) m ((fun kv => (kv.1, JString kv.2)) <$> l)
  = list_to_map l ∪ m.
Proof.
  revert m. induction l as [|[k v] l IH]; intros m Hn Hm.
  { cbn. by rewrite (left_id_L (∅ : gmap string string) (∪)). }
  rewrite fmap_cons in Hn. apply NoDup_cons in Hn as [Hk Hn]. cbn [foldl fmap list_fmap fst snd as_string default].
  rewrite list_to_map_cons, <-insert_union_l, insert_union_r by (by apply not_elem_of_list_to_map_1).
  apply IH; [done|]. intros k' Hk'. rewrite lookup_insert_ne; [apply Hm; by right|]. by intros ->.
Qed.

Lemma sorted_entries_perm m : sorted_entries m ≡ₚ map_to_list m.
Proof. apply SliceStable_perm. Qed.

Lemma entries_back m :
  foldl (fun old j => match j with
    | JNull => ∅
    | JObject kvs => foldl (fun old kv => <[ kv.1 := default "" (as_string kv.2) ]> old) old kvs
    | _ => old end) (∅ : gmap string string)
    (match (if bool_decide (m = ∅) then None
            else Some (JObject ((fun kv => (kv.1, JString kv.2)) <$> sorted_entries m))) with Some x => [x] | None => [] end) = m.
Proof.
  case_bool_decide as Hm; [by rewrite Hm|]. cbn [foldl].
  assert (Hn : NoDup (sorted_entries m).*1).
  { rewrite sorted_entries_perm. apply NoDup_fst_map_to_list. }
  rewrite foldl_insert_map; [|done|done]. rewrite (right_id_L (∅ : gmap string string) (∪)).
  rewrite (list_to_map_proper (sorted_entries m) (map_to_list m)); [apply list_to_map_to_list|done|apply sorted_entries_perm].
Qed.

Lemma dependency_back d : scan_dependency {| dName := ""; dRequirements := []; dType := "" |} (dependency_json d) = d.
Proof.
  destruct d as [n reqs t]. pose proof (strings_back reqs) as H. unfold scan_dependency, dependency_json. cbn [dName dRequirements dType members].
  destruct reqs as [|x reqs]; [done|].
  set (l := x :: reqs) in *. change (match l with [] => JNull | _ => strings_json l end) with (strings_json l).
  cbn. f_equal. exact H.
Qed.

Lemma strings_fits l : fits (TSlice TString) (strings_json l) = true.
Proof.
  cbn [fits strings_json]. apply forallb_forall. intros j Hj. by apply list_elem_of_In, list_elem_of_fmap in Hj as (y & -> & _).
Qed.

Lemma dependency_fits d : fits dependency_shape (dependency_json d) = true.
Proof.
  destruct d as [n [|x reqs] t]; [done|]. pose proof (strings_fits (x :: reqs)) as H.
  change (true && (fits (TSlice TString) (strings_json (x :: reqs)) && (true && true)) = true). by rewrite H.
Qed.

(** The members one by one. *)
Definition meta_keys : list string :=
  ["name"; "version"; "platform"; "summary"; "description"; "homepage"; "authors"; "email"; "licenses"; "metadata";
   "dependencies"; "required_ruby_version"; "required_rubygems_version"; "rubygems_version"; "sha256"; "size"; "created_at"].

Lemma meta_fields_zip m : meta_fields FormatTime m = zip meta_keys (meta_fields FormatTime m).*2.
Proof. done. Qed.

Lemma field_at keys vals k i : NoDup (fold_key <$> keys) -> (fold_key <$> keys) !! i = Some (ToLower k) ->
  struct_field k (present (zip keys vals)) = match vals !! i with Some (Some j) => [j] | _ => [] end.
Proof.
  rewrite struct_field_present. revert vals i. induction keys as [|k' keys IH]; intros [|v vals] [|i] Hn Hi; try done.
  - rewrite fmap_cons in Hn, Hi. cbn in Hi |- *. injection Hi as E. rewrite E in Hn. apply NoDup_cons in Hn as [Hk _]. rewrite E. rewrite String.eqb_refl.
    assert (H : omap (fun kv : string * option Json => if String.eqb (fold_key kv.1) (ToLower k) then kv.2 else None) (zip keys vals) = []).
    { clear IH. revert vals. induction keys as [|k2 keys IH]; intros [|v2 vals]; [done..|].
      rewrite fmap_cons in Hk. apply not_elem_of_cons in Hk as [Hne Hk]. cbn.
      destruct (String.eqb_spec (fold_key k2) (ToLower k)); [congruence|]. by apply IH. }
    destruct v as [j|]; [|exact H]. f_equal. exact H.
  - rewrite fmap_cons in Hn, Hi. apply NoDup_cons in Hn as [Hk Hn]. cbn in Hi |- *.
    destruct (String.eqb_spec (fold_key k') (ToLower k)) as [E|E]; [|by apply IH].
    exfalso. apply Hk. rewrite E. by eapply list_elem_of_lookup_2.
Qed.

Lemma meta_keys_apart : NoDup (fold_key <$> meta_keys).
Proof. by apply (bool_decide_unpack _); vm_compute. Qed.

Lemma meta_field m k i : (fold_key <$> meta_keys) !! i = Some (ToLower k) ->
  struct_field k (present (meta_fields FormatTime m)) =
  match (meta_fields FormatTime m).*2 !! i with Some (Some j) => [j] | _ => [] end.
Proof. intros H. rewrite meta_fields_zip at 1. by apply field_at; [apply meta_keys_apart|]. Qed.

Lemma opt_str_back v : foldl (fun a j => default a (as_string j)) "" (match opt_str v with Some j => [j] | None => [] end) = v.
Proof. unfold opt_str. destruct (String.eqb_spec v "") as [->|]; done. Qed.

Lemma opt_strs_back l : foldl (fun (old : list string) j => match j with
    | JNull => [] | JArray l => imap (fun i j => scan_text (default "" (old !! i)) j) l | _ => old end) []
    (match opt_strs l with Some j => [j] | None => [] end) = l.
Proof. etrans; [|apply (strings_back l)]. by destruct l. Qed.

Lemma dependencies_back l : foldl (fun old j => match j with
    | JNull => []
    | JArray l => imap (fun i j => scan_dependency (default {| dName := ""; dRequirements := []; dType := "" |} (old !! i)) j) l
    | _ => old end) []
    (match opt_dependencies l with Some j => [j] | None => [] end) = l.
Proof.
  unfold opt_dependencies. destruct l as [|d l]; [done|]. generalize (d :: l). clear d l. intros l. cbn [foldl]. rewrite imap_fmap.
  rewrite <-(list_fmap_id l) at 2. rewrite <-imap_const. apply imap_ext. intros i d Hd. apply dependency_back.
Qed.

Lemma opt_str_writable d v : ValidString v = true -> match opt_str v with Some j => writable d j | None => true end = true.
Proof. unfold opt_str. by destruct (String.eqb v ""). Qed.

Lemma opt_strs_writable d l : valid_strings l -> d < maxNestingDepth ->
  match opt_strs l with Some j => writable d j | None => true end = true.
Proof. intros H Hd. destruct l as [|x l]; [done|]. by apply strings_writable. Qed.

Lemma dependency_writable x d : valid_strings (dName d :: dType d :: dRequirements d) -> x + 1 < maxNestingDepth ->
  writable x (dependency_json d) = true.
Proof.
  intros H Hx. do 2 (apply Forall_cons in H as [? H]). unfold dependency_json.
  assert (Hr : writable (x + 1) (match dRequirements d with [] => JNull | l => strings_json l end) = true).
  { destruct (dRequirements d); [done|]. by apply strings_writable. }
  cbn [writable forallb fst snd]. rewrite Hr, ltb_true by lia. do 2 (rewrite andb_true_iff || split); try done.
  rewrite H0, H1. done.
Qed.

(** Every member satisfies a test. *)
Definition each (P : string -> Json -> bool) (m : GemMeta) : Prop :=
  Forall (fun kv => match kv.2 with Some j => P kv.1 j | None => true end = true) (meta_fields FormatTime m).

Lemma each_present (P : string * Json -> bool) m : each (fun k j => P (k, j)) m -> forallb P (present (meta_fields FormatTime m)) = true.
Proof. intros H. rewrite forallb_present. by apply forallb_forall, List.Forall_forall. Qed.

Lemma meta_writable m : meta_valid m -> writable 0 (meta_json FormatTime m) = true.
Proof.
  intros [Ht Hl He Hd Hs Hc]. unfold meta_json. cbn [writable]. change (0 <? maxNestingDepth) with true. cbn [andb].
  apply each_present. destruct (Htime _ Hc) as [Hv _]. unfold valid_strings in Ht, Hl. rewrite !Forall_app in Hl.
  destruct Hl as (H1 & H2 & H3 & H4 & H5). do 8 (apply Forall_cons in Ht as [? Ht]).
  assert (Hw : Forall (fun kv => ValidString kv.1 = true /\ match kv.2 with Some j => writable 1 j | None => true end = true)
                 (meta_fields FormatTime m)).
  2: { revert Hw. apply List.Forall_impl. intros [k [j|]] [Hk Hj]; [|done]. cbn [fst snd] in *. by rewrite Hk. }
  unfold meta_fields. repeat (apply Forall_cons; split); [..|done]; (split; [done|]); cbn [snd]; try done.
  all: first [by apply opt_str_writable|by apply opt_strs_writable|idtac].
  - case_bool_decide; [done|]. cbn [writable]. change (1 <? maxNestingDepth) with true. cbn [andb]. apply forallb_forall.
    intros kv Hkv. apply list_elem_of_In, list_elem_of_fmap in Hkv as ([k v] & -> & Hkv). rewrite sorted_entries_perm in Hkv.
    apply elem_of_map_to_list, He in Hkv as [Hk' Hv']. cbn [fst snd]. by rewrite Hk'.
  - unfold opt_dependencies. destruct (Dependencies m) as [|d l]; [done|]. cbn [writable]. change (1 <? maxNestingDepth) with true. cbn [andb].
    apply forallb_forall. intros j Hj. apply list_elem_of_In, list_elem_of_fmap in Hj as (x & -> & Hx).
    apply dependency_writable; [|done]. by apply (proj1 (Forall_forall _ _) Hd).
  - cbn [writable]. rewrite parse_number_itoa by done. apply String.eqb_refl.
Qed.

Lemma meta_fits m : meta_valid m -> fits (meta_shape ParseTime) (meta_json FormatTime m) = true.
Proof.
  intros [_ _ _ _ Hs Hc]. destruct (Htime _ Hc) as [_ Hp]. unfold meta_json. apply each_present.
  set (fs := match meta_shape ParseTime with TStruct fs => fs | _ => [] end).
  assert (Hw : Forall (fun kv => exists sh, shape_of kv.1 fs = Some sh /\ match kv.2 with Some j => fits sh j | None => true end = true)
                 (meta_fields FormatTime m)).
  2: { revert Hw. apply List.Forall_impl. intros [k [j|]] (sh & Hk & Hj); [|done]. unfold fs in Hk.
       cbn [fst snd meta_shape] in *. by rewrite Hk. }
  assert (Hstr : forall v, match opt_str v with Some j => fits TString j | None => true end = true)
    by (intros v; unfold opt_str; by destruct (String.eqb v "")).
  assert (Hstrs : forall l, match opt_strs l with Some j => fits (TSlice TString) j | None => true end = true)
    by (intros [|x l]; [done|apply strings_fits]).
  unfold meta_fields. repeat (apply Forall_cons; split); [..|done]; (eexists; split; [reflexivity|]);
    first [done|apply Hstr|apply Hstrs|idtac].
  - cbn [snd]. case_bool_decide; [done|]. apply forallb_forall. intros kv Hkv.
    by apply list_elem_of_In, list_elem_of_fmap in Hkv as (x & -> & _).
  - cbn [snd]. unfold opt_dependencies. destruct (Dependencies m) as [|d l]; [done|]. cbn [fits]. apply forallb_forall. intros j Hj.
    apply list_elem_of_In, list_elem_of_fmap in Hj as (x & -> & _). apply dependency_fits.
  - cbn [snd fits]. by rewrite decode_int_itoa.
  - cbn [snd fits]. by rewrite Hp.
Qed.

(** The metadata that [put] stores is what [LoadMetas] reads. *)
Lemma meta_decode_encode m : meta_valid m -> decode_meta ParseTime (encode_meta FormatTime m) = Some m.
Proof.
  intros Hm. unfold decode_meta, encode_meta. rewrite parse_write by (by apply meta_writable). cbn [mbind option_bind].
  pose proof (meta_fits m Hm) as Hf. destruct Hm as [_ _ _ _ Hs Hc]. destruct (Htime _ Hc) as [_ Hp].
  unfold meta_json in *. rewrite Hf. cbn [members]. unfold scan_field, scan_slice, scan_map.
  rewrite (meta_field m "name" 0), (meta_field m "version" 1), (meta_field m "platform" 2), (meta_field m "summary" 3),
    (meta_field m "description" 4), (meta_field m "homepage" 5), (meta_field m "authors" 6), (meta_field m "email" 7),
    (meta_field m "licenses" 8), (meta_field m "metadata" 9), (meta_field m "dependencies" 10),
    (meta_field m "required_ruby_version" 11), (meta_field m "required_rubygems_version" 12),
    (meta_field m "rubygems_version" 13), (meta_field m "sha256" 14), (meta_field m "size" 15), (meta_field m "created_at" 16)
    by reflexivity.
  unfold meta_fields. cbn [fmap list_fmap snd lookup list_lookup].
  rewrite !opt_str_back, !opt_strs_back, entries_back, dependencies_back. cbn [foldl]. unfold as_int, as_time.
  rewrite decode_int_itoa by done. cbn [as_string mbind option_bind default]. rewrite Hp. by destruct m.
Qed.

End metadata.

(** ** What Ruby loads *)

(** Every integer a Fixnum, no raw bytes: read back as it is. *)
Lemma list_fmap_id_ext {A} (f : A -> A) l : Forall (fun x => f x = x) l -> f <$> l = l.
Proof. induction 1 as [|x l E _ IH]; [done|]. cbn [fmap list_fmap]. by rewrite E, IH. Qed.

Lemma loaded_strings l : RArray (as_loaded <$> (RString <$> l)) = RArray (RString <$> l).
Proof. f_equal. apply list_fmap_id_ext, Forall_fmap, Forall_true. done. Qed.

Lemma loaded_requirement reqs : as_loaded (gemRequirementObj reqs) = gemRequirementObj reqs.
Proof.
  unfold gemRequirementObj. set (l := match reqs with [] => [">= 0"] | _ => reqs end). clearbody l.
  cbn [as_loaded fmap list_fmap]. do 4 f_equal. apply list_fmap_id_ext, Forall_fmap, Forall_true. intros r. cbn.
  by destruct (splitReq r).
Qed.

Lemma loaded_dependency d : as_loaded (dependencyObj d) = dependencyObj d.
Proof. unfold dependencyObj. cbn [as_loaded fmap list_fmap fst snd]. by rewrite loaded_requirement. Qed.

Lemma loaded_fields m : as_loaded (gemspec_fields m) = gemspec_fields m.
Proof.
  unfold gemspec_fields. cbn [as_loaded fmap list_fmap]. rewrite !loaded_requirement, !loaded_strings.
  assert (Hd : as_loaded <$> (dependencyObj <$> Dependencies m) = dependencyObj <$> Dependencies m).
  { apply list_fmap_id_ext, Forall_fmap, Forall_true. apply loaded_dependency. }
  assert (He : as_loaded (strOrList (Email m)) = strOrList (Email m)).
  { unfold strOrList. destruct (Email m) as [|x [|y l]]; [done..|]. apply loaded_strings. }
  assert (Hm : (fun kv : Ruby * Ruby => (as_loaded kv.1, as_loaded kv.2)) <$>
    ((fun kv : string * string => (RString kv.1, RString kv.2)) <$> sorted_entries (Metadata m)) =
    (fun kv => (RString kv.1, RString kv.2)) <$> sorted_entries (Metadata m)).
  { apply list_fmap_id_ext, Forall_fmap, Forall_true. done. }
  by rewrite Hd, He, Hm.
Qed.

(** The quick gemspec is a [Gem::Specification] whose dump holds the fields of the
    stored metadata. *)
Lemma load_gemspec m : Z.of_nat (len (gemspecMarshal m)) < 2 ^ 32 ->
  exists dump, load (gemspecMarshal m) = Some (RUserDef "Gem::Specification" dump) /\ load dump = Some (gemspec_fields m).
Proof.
  intros Hl. exists (rubyMarshal (gemspec_fields m)). split; [by apply load_rubyMarshal|].
  rewrite load_rubyMarshal; [by rewrite loaded_fields|]. eapply Z.le_lt_trans; [|exact Hl]. unfold gemspecMarshal.
  generalize (rubyMarshal (gemspec_fields m)). intros d. unfold rubyMarshal. cbn [encode].
  destruct (symbol _ _) as [a m1]. cbn [fst]. unfold bytesRaw.
  change (String (chr 4) (String (chr 8) ("u" +:+ a +:+ long (Z.of_nat (len d)) +:+ d))) with
    (String (chr 4) (String (chr 8) "u") +:+ a +:+ long (Z.of_nat (len d)) +:+ d). rewrite !len_app. lia.
Qed.

Lemma load_specs ms : Z.of_nat (len (specsRaw ms)) < 2 ^ 32 ->
  load (specsRaw ms) = Some (RArray ((fun m => RArray [RString (gName m); gemVersionObj (gVersion m); RString (platform m)]) <$> ms)).
Proof.
  intros Hl. unfold specsRaw. rewrite load_rubyMarshal by done. cbn [as_loaded]. do 2 f_equal.
  apply list_fmap_id_ext, Forall_fmap, Forall_true. done.
Qed.

(** ** The names of gem files *)

(** No "-" before a digit. *)
Fixpoint no_dash_digit (s : string) : bool :=
  match s with
  | String c ((String d _) as t) => negb (Ascii.eqb c "-" && is_digit d) && no_dash_digit t
  | _ => true
  end.

Lemma split_at_version_next pre c e t : split_at_version pre (String c (String e t)) =
  if Ascii.eqb c "-" && is_digit e && negb (String.eqb pre "") then Some (pre, String e t)
  else split_at_version (pre +:+ String c "") (String e t).
Proof. done. Qed.

Lemma split_at_version_app s pre d r : no_dash_digit s = true -> pre +:+ s <> "" -> is_digit d = true ->
  split_at_version pre (s +:+ "-" +:+ String d r) = Some (pre +:+ s, String d r).
Proof.
  intros Hs Hne Hd. revert pre Hs Hne. induction s as [|c s IH]; intros pre Hs Hne.
  - rewrite app_empty_r in *. change ("" +:+ "-" +:+ String d r) with (String "-" (String d r)). cbn [split_at_version].
    rewrite Hd. destruct (String.eqb_spec pre ""); [done|]. done.
  - destruct s as [|e s].
    + change (String c "" +:+ "-" +:+ String d r) with (String c (String "-" (String d r))). cbn [split_at_version].
      change (is_digit "-") with false. rewrite andb_false_r. cbn [andb]. rewrite Hd.
      destruct (String.eqb_spec (pre +:+ String c "") ""); [by destruct pre|]. done.
    + cbn [no_dash_digit] in Hs. apply andb_true_iff in Hs as [Hc Hs]. apply negb_true_iff in Hc.
      change (String c (String e s) +:+ "-" +:+ String d r) with (String c (String e s +:+ "-" +:+ String d r)).
      change (String e s +:+ "-" +:+ String d r) with (String e (s +:+ "-" +:+ String d r)) at 1.
      rewrite split_at_version_next, Hc. cbn [andb]. change (String e (s +:+ "-" +:+ String d r)) with (String e s +:+ "-" +:+ String d r).
      rewrite IH; [by rewrite str_app_assoc|done|]. by destruct pre.
Qed.

Lemma Cut_absent s c : no_byte c s = true -> Cut s (String c "") = (s, "", false).
Proof. intros H. unfold Cut. by rewrite Index_byte_none. Qed.

Lemma Cut_first a c b : no_byte c a = true -> Cut (a +:+ String c b) (String c "") = (a, b, true).
Proof.
  intros H. unfold Cut. rewrite Index_byte_app by done. rewrite str_take_app.
  replace (len a + len (String c ""))%nat with (len (a +:+ String c "")) by (by rewrite len_app).
  change (String c b) with (String c "" +:+ b). by rewrite <-str_app_assoc, str_drop_app.
Qed.

(** A gem whose name has no "-" before a digit, and whose version starts with a
    digit and has no "-". *)
Definition well_named (m : GemMeta) : bool :=
  validName (gName m) && no_dash_digit (gName m) && validVersion (gVersion m) && no_byte "-" (gVersion m) &&
  match gVersion m with String d _ => is_digit d | "" => false end.

Lemma splitGemFile_FullName m : well_named m = true ->
  splitGemFile (FullName m) = Some (gName m, gVersion m, if String.eqb (platform m) "ruby" then "" else platform m).
Proof.
  unfold well_named. intros H. bool_prop. destruct (gVersion m) as [|d v] eqn:Ev; [done|].
  assert (E : exists r, versionPlatform m = String d r /\
    Cut (String d r) "-" = (String d v, if String.eqb (platform m) "ruby" then "" else platform m,
                            negb (String.eqb (platform m) "ruby"))).
  { unfold versionPlatform. rewrite Ev. destruct (String.eqb (platform m) "ruby").
    - exists v. split; [done|]. by apply Cut_absent.
    - exists (v +:+ "-" +:+ platform m). split; [done|]. change (String d (v +:+ "-" +:+ platform m)) with (String d v +:+ String "-" (platform m)).
      by apply Cut_first. }
  destruct E as (r & E & Ec). unfold splitGemFile, FullName. rewrite E, split_at_version_app; [|done| |done].
  - change ("" +:+ gName m) with (gName m). rewrite Ec.
    replace (validName (gName m) && validVersion (String d v)) with true; [done|]. symmetry. by apply andb_true_iff.
  - change ("" +:+ gName m <> ""). intros E2. change (gName m = "") in E2. by rewrite E2 in *.
Qed.

(** ** The compact index *)

Notation LF := (chr 10).
Notation CR := (chr 13).

Definition one_line (s : string) : bool := no_byte LF s && no_byte CR s.

(** The line starts with a token, and is a line. *)
Definition info_safe (m : GemMeta) : bool := validName (versionPlatform m) && one_line (infoLine m).

Lemma name_char_graphic c : name_char c = true -> graphic c = true.
Proof.
  unfold name_char, graphic. intros H. repeat (apply orb_true_iff in H as [H|H]).
  all: try (apply Ascii.eqb_eq in H as ->; done).
  all: unfold is_lower, is_upper, is_digit in H; bool_prop; apply andb_true_iff; split; [apply Z.leb_le|apply Z.ltb_lt]; lia.
Qed.

Lemma TrimRevSpace_visible c : graphic c = true -> forall n s, (len s <= n)%nat -> TrimRevSpace (s +:+ String c "") <> "".
Proof.
  intros Hc%graphic_no_space. destruct Hc as (E1 & E2 & E3 & _). intros n. induction n as [|n IH]; intros s Hn.
  - destruct s; [|unfold len in Hn; cbn in Hn; lia]. cbn. by rewrite E1.
  - assert (Hlen : forall a s, len (String a s) = S (len s)) by done.
    destruct s as [|a [|b [|d s]]]; cbn [String.append TrimRevSpace].
    + by rewrite E1.
    + destruct (ascii_space a); [by rewrite E1|]. by rewrite E2.
    + destruct (ascii_space a); [apply (IH (String b "")); rewrite !Hlen in *; lia|].
      destruct (space2 b a); [by rewrite E1|]. by rewrite E3.
    + destruct (ascii_space a); [apply (IH (String b (String d s))); rewrite !Hlen in *; lia|].
      destruct (space2 b a); [apply (IH (String d s)); rewrite !Hlen in *; lia|].
      destruct (space3 d b a); [apply (IH s); rewrite !Hlen in *; lia|done].
Qed.

Lemma not_blank c s : graphic c = true -> blank (String c s) = false.
Proof.
  intros Hc. unfold blank, TrimSpace. pose proof (graphic_no_space c Hc) as (E1 & E2 & E3 & _).
  assert (E : TrimLeftSpace (String c s) = String c s).
  { cbn [TrimLeftSpace]. rewrite E1. destruct s as [|b [|d s]]; [done| |]; rewrite E2; [done|]. by rewrite E3. }
  rewrite E, str_rev_cons. destruct (String.eqb_spec (str_rev (TrimRevSpace (str_rev s +:+ String c ""))) ""); [|done].
  exfalso. apply (TrimRevSpace_visible c Hc (len (str_rev s)) (str_rev s)); [done|].
  apply (f_equal str_rev) in e. by rewrite str_rev_invol in e.
Qed.

Lemma no_byte_rev c s : no_byte c s = true -> no_byte c (str_rev s) = true.
Proof.
  induction s as [|d s IH]; [done|]. rewrite str_rev_cons, no_byte_app. change (String d s) with (String d "" +:+ s).
  rewrite no_byte_app. intros [-> ->%IH]%andb_true_iff. done.
Qed.

Lemma TrimRight_absent s c : no_byte c s = true -> TrimRight s (String c "") = s.
Proof.
  intros H%no_byte_rev. unfold TrimRight. rewrite TrimLeft_noop; [apply str_rev_invol|]. intros t E. rewrite E in H.
  unfold no_byte in H. cbn in H. by rewrite Ascii.eqb_refl in H.
Qed.

Lemma Split_lines l : Forall (fun s => no_byte LF s = true) l -> Split (lines l) LF = l ++ [""].
Proof.
  induction 1 as [|x l Hx _ IH]; [done|]. cbn [lines foldr]. fold (lines l). unfold newline.
  change (String LF "" +:+ lines l) with (String LF (lines l)). by rewrite Split_app_sep, IH.
Qed.

Lemma infoLine_token m : validName (versionPlatform m) = true ->
  exists c s r, versionPlatform m = String c s /\ graphic c = true /\ no_byte " " (String c s) = true /\
    infoLine m = String c s +:+ String " " r.
Proof.
  unfold validName. intros [Hne H]%andb_true_iff. unfold infoLine. destruct (versionPlatform m) as [|c s]; [done|].
  eexists c, s, _. split_and!; [done| | |reflexivity].
  - cbn [str_forallb] in H. apply andb_true_iff in H as [H _]. by apply name_char_graphic.
  - by apply (no_byte_forallb name_char).
Qed.

(** The lines of an info file are read back. *)
Lemma infoLines_buildInfo ms : Forall (fun m => info_safe m = true) ms -> infoLines (buildInfo ms) = infoLine <$> ms.
Proof.
  intros H. unfold infoLines, buildInfo.
  assert (Hl : Forall (fun s => no_byte LF s = true) (infoLine <$> ms)).
  { apply Forall_fmap. revert H. apply List.Forall_impl. unfold info_safe, one_line. intros m Hm. cbn. by bool_prop. }
  change ("---" +:+ newline +:+ lines (infoLine <$> ms)) with ("---" +:+ String LF (lines (infoLine <$> ms))).
  rewrite Split_app_sep, Split_lines by done. cbn [after_header]. change (TrimRight "---" (String CR "")) with "---". cbn [String.eqb Ascii.eqb Bool.eqb].
  clear Hl. induction H as [|m ms Hm _ IH]; [done|].
  unfold info_safe, one_line in Hm. bool_prop. destruct (infoLine_token m H) as (c & s & r & Ev & Hc & Hn & El).
  rewrite fmap_cons. cbn [app fmap list_fmap List.filter]. rewrite TrimRight_absent by done.
  assert (Eb : blank (infoLine m) = false) by (rewrite El, app_cons; by apply not_blank).
  rewrite Eb. cbn [negb]. f_equal. exact IH.
Qed.

Lemma Split_lines_in l x : x ∈ l -> no_byte LF x = true -> x ∈ Split (lines l) LF.
Proof.
  intros Hx Hn. induction l as [|y l IH]; [by apply elem_of_nil in Hx|]. cbn [lines foldr]. fold (lines l). unfold newline.
  change (String LF "" +:+ lines l) with (String LF (lines l)). rewrite Split_app. apply elem_of_app.
  apply elem_of_cons in Hx as [->|Hx]; [left|right; by apply IH]. rewrite Split_single by done. by left.
Qed.

(** Whatever the other lines break, the line of a gem that is one line is read
    back. *)
Lemma infoLine_listed m ms : info_safe m = true -> m ∈ ms -> infoLine m ∈ infoLines (buildInfo ms).
Proof.
  intros Hm Hin. unfold info_safe, one_line in Hm. bool_prop. unfold infoLines, buildInfo.
  change ("---" +:+ newline +:+ lines (infoLine <$> ms)) with ("---" +:+ String LF (lines (infoLine <$> ms))).
  rewrite Split_app_sep by done. cbn [after_header]. change (TrimRight "---" (String CR "")) with "---". cbn [String.eqb Ascii.eqb Bool.eqb].
  destruct (infoLine_token m H) as (c & s & r & Ev & Hc & Hn & El).
  apply list_elem_of_In, filter_In. split.
  - apply list_elem_of_In, list_elem_of_fmap. exists (infoLine m). split; [by rewrite TrimRight_absent|].
    apply Split_lines_in; [by apply list_elem_of_fmap_2|done].
  - assert (Eb : blank (infoLine m) = false) by (rewrite El, app_cons; by apply not_blank). by rewrite Eb.
Qed.

Definition depsText (m : GemMeta) : string :=
  Join ((fun d => dName d +:+ ":" +:+ reqString (dRequirements d)) <$> runtimeDeps m) ",".

(** The line is one, and its first bar is the one before the checksum. *)
Definition plain_line (m : GemMeta) : bool := info_safe m && no_byte "|" (depsText m).

Lemma infoLine_checksum m : plain_line m = true ->
  exists rest, Cut (infoLine m) "|" = (versionPlatform m +:+ " " +:+ depsText m, "checksum:" +:+ SHA256 m +:+ rest, true).
Proof.
  unfold plain_line, info_safe. intros H. bool_prop. eexists.
  assert (E : infoLine m = (versionPlatform m +:+ " " +:+ depsText m) +:+ String "|" ("checksum:" +:+ SHA256 m +:+
    ((if isDefaultReq (RequiredRuby m) then "" else ",ruby:" +:+ reqString (RequiredRuby m)) +:+
     (if isDefaultReq (RequiredRubygems m) then "" else ",rubygems:" +:+ reqString (RequiredRubygems m))))).
  { unfold infoLine. fold (depsText m). by rewrite !str_app_assoc. }
  rewrite E. apply Cut_first. rewrite !no_byte_app. apply andb_true_iff. split.
  - match goal with H : validName _ = true |- _ => unfold validName in H; apply andb_true_iff in H as [_ H] end.
    by apply (no_byte_forallb name_char).
  - done.
Qed.

Lemma info_token m : info_safe m = true -> (Cut (infoLine m) " ").1.1 = versionPlatform m.
Proof.
  unfold info_safe. intros H. bool_prop. destruct (infoLine_token m H) as (c & s & r & Ev & Hc & Hn & El).
  rewrite El. change (Cut (String c s +:+ String " " r) " ") with (Cut (String c s +:+ String " " r) (String " " "")).
  by rewrite Cut_first.
Qed.

(** The versions that /versions lists are the ones whose lines /info has. *)
Lemma infoVersions_buildInfo ms : Forall (fun m => info_safe m = true) ms ->
  infoVersions (buildInfo ms) = versionPlatform <$> ms.
Proof.
  intros H. unfold infoVersions. rewrite infoLines_buildInfo by done. induction H as [|m ms Hm _ IH]; [done|].
  rewrite !fmap_cons. cbn [List.filter]. rewrite info_token by done.
  destruct (String.eqb_spec (versionPlatform m) "") as [E|]; [|cbn [negb]; by rewrite IH].
  unfold info_safe in Hm. rewrite E in Hm. discriminate Hm.
Qed.

(** ** What a gemspec becomes *)

Definition named_ok (m : GemMeta) : bool :=
  validName (gName m) && validVersion (gVersion m) && (String.eqb (gPlatform m) "" || validVersion (gPlatform m)).

(** UTF-8 throughout, as YAML is. *)
Record yaml_valid (y : yamlSpec) : Prop := {
  yv_texts : valid_strings [ySummary y; yDescription y; yHomepage y; yRubygemsVersion y];
  yv_lists : valid_strings (yAuthors y ++ yEmail y ++ yLicenses y);
  yv_entries : map_Forall (fun k v => ValidString k = true /\ ValidString v = true) (yMetadata y);
  yv_deps : Forall (fun d => ValidString d.1.1 = true /\ Forall valid_strings d.1.2) (yDependencies y);
  yv_ruby : Forall valid_strings (yRequiredRuby y);
  yv_rubygems : Forall valid_strings (yRequiredRubygems y);
}.

Lemma validName_valid s : validName s = true -> ValidString s = true.
Proof.
  unfold validName. intros [_ H]%andb_true_iff. apply ValidString_ascii. unfold is_ascii. eapply str_forallb_impl; [|exact H].
  intros c Hc%name_char_graphic. unfold graphic in Hc. apply Z.ltb_lt. bool_prop. lia.
Qed.

Lemma requirement_valid y : Forall valid_strings y -> valid_strings (requirement_strings y).
Proof.
  intros H. apply Forall_forall. intros x (l & Hl & E)%list_elem_of_omap. apply (proj1 (Forall_forall _ _) H) in Hl.
  destruct l as [|a [|b [|]]]; try done. injection E as <-. apply Forall_cons in Hl as [Ha Hl]. apply Forall_cons in Hl as [Hb _].
  apply ValidString_app; [done|]. by apply (ValidString_app " ").
Qed.

Lemma dependency_valid d : ValidString d.1.1 = true -> Forall valid_strings d.1.2 ->
  valid_strings (dName (dependency_of d) :: dType (dependency_of d) :: dRequirements (dependency_of d)).
Proof.
  destruct d as [[n reqs] t]. cbn [fst snd]. intros Hn Hr. unfold dependency_of. cbn [dName dType dRequirements].
  constructor; [done|]. constructor; [by destruct (String.eqb _ _)|]. apply requirement_valid in Hr.
  destruct (requirement_strings reqs); [by constructor|done].
Qed.

Lemma gemspec_ok y m : gemspec_meta y = Ok m -> yaml_valid y -> named_ok m = true /\
  forall body now, Z.of_nat (len body) <= int64_max -> 0 <= now <= int64_max -> meta_valid (stamped m body now).
Proof.
  unfold gemspec_meta. cbv zeta. set (p := if String.eqb (yPlatform y) "ruby" then "" else yPlatform y).
  destruct (validName (TrimSpace (yName y))) eqn:En; [|done]. destruct (validVersion (yVersion y)) eqn:Ev; [|done]. cbn [negb].
  destruct (negb (String.eqb p "") && negb (validVersion p)) eqn:Ep; [done|]. intros [= <-] [Ht Hl He Hd Hr Hg].
  assert (Hp : String.eqb p "" || validVersion p = true) by (by destruct (String.eqb p ""), (validVersion p)).
  split; [unfold named_ok; cbn; by rewrite En, Ev|]. intros body now Hb Hnow.
  assert (Hpv : ValidString p = true).
  { apply orb_true_iff in Hp as [H%String.eqb_eq|H]; [by rewrite H|by apply validName_valid]. }
  unfold valid_strings in Ht, Hl. rewrite !Forall_app in Hl. destruct Hl as (H1 & H2 & H3).
  do 4 (apply Forall_cons in Ht as [? Ht]).
  split; cbn [stamped gName gVersion gPlatform Summary Description Homepage RubygemsVersion SHA256 Authors Email Licenses
    RequiredRuby RequiredRubygems Metadata Dependencies gSize CreatedAt]; [| |done| |unfold int64_max in *; lia|done].
  - repeat (apply List.Forall_cons; [first [done|by apply validName_valid|idtac]|]); [|apply List.Forall_nil].
    apply lower_hex_valid, EncodeToString_lower.
  - unfold valid_strings. rewrite !Forall_app. split_and!; try done; by apply requirement_valid.
  - assert (Hf : Forall (fun d => valid_strings (dName d :: dType d :: dRequirements d)) (dependency_of <$> yDependencies y)).
    { apply Forall_fmap. revert Hd. apply List.Forall_impl. intros d [? ?]. by apply dependency_valid. }
    by rewrite SliceStable_perm.
Qed.
