(* ===== verification/RubyGemsSafety.v ===== *)
(** * The hosted RubyGems registry: its index and its gems

    Over any mount whose directories list their files: the compact index of a gem
    is the one of its stored metadata after every push, yank and deletion that
    does not fail, and /versions carries the hash of each gem's index; a push
    that succeeds is served, with the checksum the index names.  The last part
    shows on closed stores what the file names of gems confuse. *)

From Stdlib Require Import ZArith Lia Ascii.
From stdpp Require Import base list strings gmap.
From S2P Require Import Prelude GoStrings GoPath GoHash GoJson GoJsonLaws S3Chunked RubyMarshal PkgVersion Backend PkgStore LocalFS AtomicFS Listing PkgStoreSafety StoreLaws StoreListing RubyGems RubyGemsLaws.

Local Open Scope Z_scope.
Local Open Scope kutu_scope.

(** ** Places *)

Lemma validName_seg n : validName n = true -> good_seg n.
Proof.
  unfold validName. intros H. bool_prop. repeat match goal with H : String.eqb _ _ = false |- _ => apply String.eqb_neq in H end.
  split_and!; [done..|]. by apply (no_byte_forallb name_char).
Qed.

Lemma suffix_seg s x : no_byte "/" s = true -> (2 < len x)%nat -> no_byte "/" x = true -> good_seg (s +:+ x).
Proof.
  intros Hs Hl Hx. assert (Hn : (2 < len (s +:+ x))%nat) by (rewrite len_app; lia).
  split_and!; [..|by rewrite no_byte_app, Hs, Hx]; intros E; rewrite E in Hn; cbn in Hn; lia.
Qed.

Lemma resolve_segs l : l <> [] -> Forall good_seg l -> resolve (PathJoin l) = l.
Proof.
  intros Hl H. rewrite PathJoin_good; [|done|by eapply Forall_impl; [exact H|apply good_seg_path]].
  rewrite good_path_resolve by (by apply Join_segs_good). by apply Split_Join_good.
Qed.

Lemma seg_gems : good_seg "gems" /\ good_seg "meta" /\ good_seg "index" /\ good_seg "info" /\ good_seg "versions" /\ good_seg "names".
Proof. by apply (bool_decide_unpack _); vm_compute. Qed.

Ltac segs := destruct seg_gems as (? & ? & ? & ? & ? & ?); repeat (apply List.Forall_cons; [assumption|]); apply List.Forall_nil.

Lemma gem_resolve full : no_byte "/" full = true -> resolve (gemRel full) = ["gems"; full +:+ ".gem"].
Proof. intros H. apply resolve_segs; [done|]. assert (good_seg (full +:+ ".gem")) by (by apply suffix_seg; [|cbn; lia|]). segs. Qed.

Lemma meta_resolve n vp : good_seg n -> no_byte "/" vp = true -> resolve (metaRel n vp) = ["meta"; n; vp +:+ ".json"].
Proof. intros Hn H. apply resolve_segs; [done|]. assert (good_seg (vp +:+ ".json")) by (by apply suffix_seg; [|cbn; lia|]). segs. Qed.

Lemma metaDir_resolve n : good_seg n -> resolve (PathJoin ["meta"; n]) = ["meta"; n].
Proof. intros Hn. apply resolve_segs; [done|]. segs. Qed.

Lemma metaFile_resolve n x : good_seg n -> good_seg x -> resolve (PathJoin ["meta"; n; x]) = ["meta"; n; x].
Proof. intros Hn Hx. apply resolve_segs; [done|]. segs. Qed.

Lemma info_resolve n : good_seg n -> resolve (infoRel n) = ["index"; "info"; n].
Proof. intros Hn. apply resolve_segs; [done|]. segs. Qed.

Lemma versions_resolve : resolve versionsRel = ["index"; "versions"].
Proof. apply resolve_segs; [done|]. segs. Qed.

Lemma names_resolve : resolve namesRel = ["index"; "names"].
Proof. apply resolve_segs; [done|]. segs. Qed.

(** The parts of a gem's file names. *)
Lemma name_no_slash s : validName s = true -> no_byte "/" s = true.
Proof. intros H%validName_seg. apply H. Qed.

Lemma vp_no_slash m : named_ok m = true -> no_byte "/" (versionPlatform m) = true.
Proof.
  unfold named_ok, versionPlatform, platform. intros H. bool_prop. apply orb_true_iff in H0.
  assert (Hp : no_byte "/" (if String.eqb (gPlatform m) "" then "ruby" else gPlatform m) = true).
  { destruct (String.eqb (gPlatform m) ""); [done|]. destruct H0; [done|]. by apply name_no_slash. }
  destruct (String.eqb _ "ruby"); [by apply name_no_slash|]. rewrite !no_byte_app. rewrite Hp. by rewrite (name_no_slash (gVersion m)).
Qed.

Lemma full_no_slash m : named_ok m = true -> no_byte "/" (FullName m) = true.
Proof.
  intros H. pose proof (vp_no_slash m H) as Hv. unfold named_ok in H. bool_prop. unfold FullName.
  rewrite !no_byte_app, Hv. by rewrite (name_no_slash (gName m)).
Qed.

(** ** What a change leaves *)

Section safety.
Context {U : UnicodeTables} {F : Type} {HF : Backend F} {HL : BackendLaws F} {HA : AtomicWrites F} {HD : Listings F} {HN : Names F}.
Variables (FormatTime : Z -> string) (ParseTime : string -> option Z).
Implicit Types (l d : Local F) (s : Store F) (m : GemMeta).

Notation LoadMetas := (LoadMetas ParseTime).
Notation metas_of := (metas_of ParseTime).
Notation Regenerate := (Regenerate ParseTime).

Lemma load_file_opt s n f : store_wf s -> load_file ParseTime s n f =
  if negb (HasSuffix (eName f) ".json") then None
  else b ← stored s (PathJoin ["meta"; n; eName f]); m ← decode_meta ParseTime b; if String.eqb (gName m) "" then None else Some m.
Proof.
  intros Hw. unfold load_file. destruct (negb _); [done|]. rewrite <-read_opt by done.
  destruct (StoreRead _ _) as [b|]; [|done]. cbn. by destruct (decode_meta _ _).
Qed.

Lemma omap_ext_in {A B} (f g : A -> option B) (l : list A) : (forall x, x ∈ l -> f x = g x) -> omap f l = omap g l.
Proof.
  induction l as [|x l IH]; intros H; [done|]. cbn. rewrite (H x) by by left. rewrite IH; [done|]. intros y Hy. apply H. by right.
Qed.

Lemma ListFiles_named s dir es e : tidy s -> ListFiles s dir = Ok es -> e ∈ es -> good_seg (eName e).
Proof.
  intros Ht. unfold ListFiles. destruct (StoreReadDir s dir) as [k|] eqn:E; [|done]. intros [= <-].
  rewrite SliceStable_perm. intros He. apply list_elem_of_In, filter_In in He as [He _]. apply list_elem_of_In in He.
  by eapply lists_named.
Qed.

Lemma LoadMetas_same s s' n : tidy s -> tidy s' -> StoreReadDir s' (PathJoin ["meta"; n]) = StoreReadDir s (PathJoin ["meta"; n]) ->
  (forall x, good_seg x -> stored s' (PathJoin ["meta"; n; x]) = stored s (PathJoin ["meta"; n; x])) -> LoadMetas s' n = LoadMetas s n.
Proof.
  intros Ht Ht' Hd Hf. unfold RubyGems.LoadMetas. destruct (validName n); [|done]. cbn [negb].
  assert (E : ListFiles s' (PathJoin ["meta"; n]) = ListFiles s (PathJoin ["meta"; n])) by (unfold ListFiles; by rewrite Hd).
  rewrite E. destruct (ListFiles s _) as [es|] eqn:El; [|done]. cbn. do 2 f_equal. apply omap_ext_in. intros e He.
  rewrite !load_file_opt by (by apply tidy_wf). rewrite Hf; [done|]. by eapply ListFiles_named.
Qed.

(** Neither in the metadata of the gem nor above it. *)
Definition elsewhere (rel n : string) : Prop :=
  ~ ["meta"; n] `prefix_of` resolve rel /\ ~ resolve rel `prefix_of` ["meta"; n].

Lemma change_LoadMetas rel s s' n : tidy s -> change rel s s' -> inside rel -> elsewhere rel n -> LoadMetas s' n = LoadMetas s n.
Proof.
  intros Ht Hc Hr [H1 H2]. destruct (validName n) eqn:Hn; [|unfold RubyGems.LoadMetas; by rewrite Hn].
  pose proof (validName_seg n Hn) as Hg. pose proof (metaDir_resolve n Hg) as Ed.
  apply LoadMetas_same; [done|by eapply change_tidy| |].
  - eapply change_lists; [done|exact Hc|done|unfold inside; by rewrite Ed|]. unfold apart. by rewrite Ed.
  - intros x Hx. pose proof (metaFile_resolve n x Hg Hx) as Ef. eapply change_other; [done|exact Hc|done|unfold inside; by rewrite Ef|].
    rewrite Ef. intros E. apply H1. rewrite <-E. by exists [x].
Qed.

(** The files that belong to a gem, and the shared documents. *)
Inductive shared (n : string) : string -> Prop :=
| sh_info : shared n (infoRel n)
| sh_versions : shared n versionsRel
| sh_names : shared n namesRel.

Inductive mine (n : string) : string -> Prop :=
| my_gem full : no_byte "/" full = true -> mine n (gemRel full)
| my_meta vp : no_byte "/" vp = true -> mine n (metaRel n vp)
| my_doc rel : shared n rel -> mine n rel.

Lemma shared_resolve n rel : good_seg n -> shared n rel ->
  resolve rel = ["index"; "info"; n] \/ resolve rel = ["index"; "versions"] \/ resolve rel = ["index"; "names"].
Proof. intros Hn []; [left; by apply info_resolve|right; left; by apply versions_resolve|right; right; by apply names_resolve]. Qed.

Lemma mine_resolve n rel : good_seg n -> mine n rel -> (exists full, resolve rel = ["gems"; full]) \/
  (exists vp, resolve rel = ["meta"; n; vp]) \/ resolve rel = ["index"; "info"; n] \/
  resolve rel = ["index"; "versions"] \/ resolve rel = ["index"; "names"].
Proof.
  intros Hn [full Hf|vp Hv|rel' Hs]; [left|right; left|right; right; by apply shared_resolve].
  - eexists. by apply gem_resolve.
  - eexists. by apply meta_resolve.
Qed.

Lemma mine_inside n rel : good_seg n -> mine n rel -> inside rel.
Proof. intros Hn Hm. unfold inside. by destruct (mine_resolve n rel Hn Hm) as [[? ->]|[[? ->]|[->|[->| ->]]]]. Qed.

Lemma prefix_heads {A} (x y : A) (l k : list A) : (x :: l) `prefix_of` (y :: k) -> x = y /\ l `prefix_of` k.
Proof. intros H. split; [by apply prefix_cons_inv_1 in H|by apply prefix_cons_inv_2 in H]. Qed.

Lemma mine_elsewhere n n' rel : good_seg n -> n <> n' -> mine n rel -> elsewhere rel n'.
Proof.
  intros Hn Hne Hm. unfold elsewhere. destruct (mine_resolve n rel Hn Hm) as [[? ->]|[[? ->]|[->|[->| ->]]]];
    split; intros H; repeat (apply prefix_heads in H as [? H]); congruence.
Qed.

Lemma shared_elsewhere n n' rel : good_seg n -> shared n rel -> elsewhere rel n'.
Proof.
  intros Hn Hm. unfold elsewhere. destruct (shared_resolve n rel Hn Hm) as [->|[->| ->]];
    split; intros H; repeat (apply prefix_heads in H as [? H]); congruence.
Qed.

Lemma gem_elsewhere n full : no_byte "/" full = true -> elsewhere (gemRel full) n.
Proof.
  intros Hf. unfold elsewhere. rewrite gem_resolve by done. split; intros H; repeat (apply prefix_heads in H as [? H]); congruence.
Qed.

Lemma mine_not_info n n' rel : good_seg n -> good_seg n' -> n <> n' -> mine n rel -> resolve (infoRel n') <> resolve rel.
Proof.
  intros Hn Hn' Hne Hm. rewrite info_resolve by done.
  destruct (mine_resolve n rel Hn Hm) as [[? ->]|[[? ->]|[->|[->| ->]]]]; congruence.
Qed.

(** ** Several changes *)

Definition only (P : string -> Prop) : Store F -> Store F -> Prop := rtc (fun s s' => exists rel, P rel /\ change rel s s').

Lemma only_one (P : string -> Prop) rel s s' : P rel -> change rel s s' -> only P s s'.
Proof. intros H Hc. apply rtc_once. by exists rel. Qed.

(** What every single change keeps, several keep. *)
Lemma only_keeps (P : string -> Prop) (Q : Store F -> Prop) s s' :
  (forall rel s s', P rel -> tidy s -> change rel s s' -> Q s -> Q s') -> only P s s' -> tidy s -> Q s -> tidy s' /\ Q s'.
Proof.
  intros H Hr. induction Hr as [s|s s1 s2 (rel & Hp & Hc) _ IH]; intros Ht Hq; [done|].
  apply IH; [by eapply change_tidy|by eapply H].
Qed.

Lemma only_weaken (P P' : string -> Prop) s s' : (forall rel, P rel -> P' rel) -> only P s s' -> only P' s s'.
Proof. intros H. apply rtc_subrel. intros x y (rel & Hp & Hc). exists rel. auto. Qed.

Lemma only_metas n n' s s' : good_seg n -> n <> n' -> only (mine n) s s' -> tidy s -> LoadMetas s' n' = LoadMetas s n'.
Proof.
  intros Hn Hne Hr Ht. apply (only_keeps (mine n) (fun t => LoadMetas t n' = LoadMetas s n') s s'); [|done..].
  intros rel t t' Hm Ht1 Hc <-. eapply change_LoadMetas; [done|exact Hc|by apply (mine_inside n)|by apply (mine_elsewhere n)].
Qed.

Lemma only_shared_metas n n' s s' : good_seg n -> only (shared n) s s' -> tidy s -> LoadMetas s' n' = LoadMetas s n'.
Proof.
  intros Hn Hr Ht. apply (only_keeps (shared n) (fun t => LoadMetas t n' = LoadMetas s n') s s'); [|done..].
  intros rel t t' Hm Ht1 Hc <-. eapply change_LoadMetas; [done|exact Hc|apply (mine_inside n); [done|by apply my_doc]|by apply (shared_elsewhere n)].
Qed.

Lemma only_info n n' s s' : good_seg n -> good_seg n' -> n <> n' -> only (mine n) s s' -> tidy s ->
  stored s' (infoRel n') = stored s (infoRel n').
Proof.
  intros Hn Hn' Hne Hr Ht. apply (only_keeps (mine n) (fun t => stored t (infoRel n') = stored s (infoRel n')) s s'); [|done..].
  intros rel t t' Hm Ht1 Hc <-. eapply change_other; [done|exact Hc|by apply (mine_inside n)| |by apply (mine_not_info n)].
  unfold inside. by rewrite info_resolve.
Qed.

(** ** The index *)

Definition current s n : Prop :=
  match LoadMetas s n with
  | Ok [] => stored s (infoRel n) = None
  | Ok ms => stored s (infoRel n) = Some (buildInfo ms)
  | Err _ => True
  end.

(** /versions and /names are those of the indexes there are. *)
Definition root_current (created : string) s : Prop := exists ns, names s = Ok ns /\
  stored s versionsRel = Some (buildVersions created (omap (root_entry s) ns)) /\
  stored s namesRel = Some (buildNames (omap (root_entry s) ns).*1).

Lemma current_same s s' n : LoadMetas s' n = LoadMetas s n -> stored s' (infoRel n) = stored s (infoRel n) -> current s n -> current s' n.
Proof. unfold current. by intros -> ->. Qed.

Lemma root_entry_opt s n : store_wf s -> root_entry s n =
  (info ← stored s (infoRel n); match infoVersions info with [] => None | vs => Some (n, (vs, md5Hex info)) end).
Proof. intros Hw. unfold root_entry. rewrite <-read_opt by done. by destruct (StoreRead _ _). Qed.

Lemma names_named s ns n : tidy s -> names s = Ok ns -> n ∈ ns -> good_seg n.
Proof.
  intros Ht. unfold names, ListDirs. destruct (StoreReadDir s "meta") as [es|] eqn:E; [|done]. intros [= <-].
  unfold sortStr. rewrite SliceStable_perm. intros (e & -> & He)%list_elem_of_fmap.
  apply list_elem_of_In, filter_In in He as [He _]. apply list_elem_of_In in He. by eapply lists_named.
Qed.

Lemma root_resolve rel : rel = versionsRel \/ rel = namesRel -> resolve rel = ["index"; "versions"] \/ resolve rel = ["index"; "names"].
Proof. intros [->| ->]; [left; apply versions_resolve|right; apply names_resolve]. Qed.

Lemma root_change rel s s' : tidy s -> rel = versionsRel \/ rel = namesRel -> change rel s s' ->
  tidy s' /\ names s' = names s /\ (forall n, good_seg n -> stored s' (infoRel n) = stored s (infoRel n)).
Proof.
  intros Ht Hr%root_resolve Hc. assert (Hi : inside rel) by (unfold inside; by destruct Hr as [->| ->]).
  split; [by eapply change_tidy|split].
  - unfold names, ListDirs. rewrite (change_lists rel s s' "meta"); [done..|].
    unfold apart. change (resolve "meta") with ["meta"].
    destruct Hr as [->| ->]; split; intros H; apply prefix_heads in H as [? H]; congruence.
  - intros n Hn. eapply change_other; [done|exact Hc|done|unfold inside; by rewrite info_resolve|].
    rewrite info_resolve by done. destruct Hr as [->| ->]; congruence.
Qed.

Lemma write_stored s rel b s' : tidy s -> inside rel -> StoreWrite s rel b = (None, s') -> stored s' rel = Some b.
Proof. intros [Hw _] Hi E. by destruct (stream_ok _ _ _ _ _ Hw Hi E). Qed.

Lemma rebuildRoot_spec created s : tidy s -> let '(e, s') := rebuildRoot created s in
  only (fun rel => rel = versionsRel \/ rel = namesRel) s s' /\ (e = None -> root_current created s').
Proof.
  intros Ht. unfold rebuildRoot. destruct (names s) as [ns|] eqn:En; [|split; [apply rtc_refl|done]].
  destruct (StoreWrite s versionsRel _) as [[er|] s1] eqn:E1.
  { split; [|done]. eapply only_one; [by left|by eapply write_change]. }
  pose proof (write_change _ _ _ _ _ E1) as C1. destruct (root_change _ _ _ Ht (or_introl eq_refl) C1) as (Ht1 & Hn1 & Hi1).
  destruct (StoreWrite s1 namesRel _) as [e s2] eqn:E2. pose proof (write_change _ _ _ _ _ E2) as C2.
  destruct (root_change _ _ _ Ht1 (or_intror eq_refl) C2) as (Ht2 & Hn2 & Hi2). split.
  { eapply rtc_l; [exists versionsRel; by split; [left|]|]. apply rtc_once. exists namesRel. by split; [right|]. }
  intros ->. assert (E : omap (root_entry s2) ns = omap (root_entry s) ns).
  { apply omap_ext_in. intros n Hn. rewrite !root_entry_opt by (by apply tidy_wf). rewrite Hi2, Hi1; [done|by apply (names_named s ns)..]. }
  exists ns. split; [congruence|]. rewrite E. split.
  - rewrite (change_other namesRel s1 s2 versionsRel); [|done..]. by eapply write_stored; [exact Ht| |exact E1].
  - by eapply write_stored; [exact Ht1| |exact E2].
Qed.

Lemma Regenerate_spec created s n : tidy s -> good_seg n -> let '(e, s') := Regenerate created s n in
  only (shared n) s s' /\ (e = None -> current s' n /\ root_current created s').
Proof.
  intros Ht Hn. unfold RubyGems.Regenerate. destruct (LoadMetas s n) as [ms|] eqn:El; [|split; [apply rtc_refl|done]].
  assert (Hi : inside (infoRel n)) by (unfold inside; by rewrite info_resolve).
  set (step := match ms with [] => StoreDelete s (infoRel n) | _ => StoreWrite s (infoRel n) (buildInfo ms) end).
  assert (Hs : change (infoRel n) s step.2 /\ (step.1 = None -> stored step.2 (infoRel n) =
    match ms with [] => None | _ => Some (buildInfo ms) end)).
  { unfold step. destruct ms as [|m ms].
    - destruct (StoreDelete s (infoRel n)) as [e s1] eqn:E. split; [by eapply delete_change|]. cbn. intros ->. by eapply deleted_gone.
    - destruct (StoreWrite s (infoRel n) _) as [e s1] eqn:E. split; [by eapply write_change|]. cbn. intros ->. by eapply write_stored. }
  destruct step as [[e|] s1]; cbn [fst snd] in Hs; destruct Hs as [Hc Hst].
  { split; [|done]. eapply only_one; [|exact Hc]. constructor. }
  pose proof (change_tidy _ _ _ Ht Hc) as Ht1. pose proof (rebuildRoot_spec created s1 Ht1) as Hr.
  destruct (rebuildRoot created s1) as [e s2]. destruct Hr as [Ho Hroot].
  assert (Ho' : only (shared n) s1 s2) by (eapply only_weaken; [|exact Ho]; intros rel [->| ->]; constructor).
  split; [eapply rtc_l; [exists (infoRel n); split; [constructor|done]|exact Ho']|].
  intros He. split; [|by apply Hroot]. unfold current.
  rewrite (only_shared_metas n n s1 s2), (change_LoadMetas _ _ _ _ Ht Hc Hi), El by (done || (apply (shared_elsewhere n); [done|constructor])).
  assert (Ei : stored s2 (infoRel n) = stored s1 (infoRel n)).
  { apply (only_keeps _ (fun t => stored t (infoRel n) = stored s1 (infoRel n)) s1 s2) in Ho; [by apply Ho| |done..].
    intros rel t t' Hp Htt Hct <-. by apply (root_change rel t t'). }
  rewrite Ei, Hst by done. by destruct ms.
Qed.

(** ** The metadata files *)

(** Every metadata file is under its gem, version and platform. *)
Definition meta_here n x m : Prop :=
  gName m = n /\ named_ok m = true /\ x = versionPlatform m +:+ ".json" /\ meta_valid m.

Definition sound s : Prop := forall n x b m, validName n = true -> good_seg x -> stored s (PathJoin ["meta"; n; x]) = Some b ->
  decode_meta ParseTime b = Some m -> gName m <> "" -> HasSuffix x ".json" = true -> meta_here n x m.

Lemma named_ok_name m : named_ok m = true -> validName (gName m) = true.
Proof. unfold named_ok. intros H. by bool_prop. Qed.

Lemma named_ok_seg m : named_ok m = true -> good_seg (gName m).
Proof. intros H. by apply validName_seg, named_ok_name. Qed.

Lemma metaFile_inside n x : validName n = true -> good_seg x -> inside (PathJoin ["meta"; n; x]).
Proof. intros Hn Hx. unfold inside. rewrite metaFile_resolve; [done|by apply validName_seg|done]. Qed.

(** A change keeps that when what it leaves in a metadata file belongs there. *)
Lemma sound_change rel s s' : tidy s -> change rel s s' -> inside rel -> sound s ->
  (forall n x b m, resolve rel = ["meta"; n; x] -> stored s' rel = Some b -> decode_meta ParseTime b = Some m ->
    stored s' rel = stored s rel \/ meta_here n x m) -> sound s'.
Proof.
  intros Ht Hc Hi Hs Hnew n x b m Hn Hx Hb Hm Hne Hj. pose proof (metaFile_inside n x Hn Hx) as Hf.
  pose proof (metaFile_resolve n x (validName_seg n Hn) Hx) as Ef.
  destruct (decide (resolve (PathJoin ["meta"; n; x]) = resolve rel)) as [E|E].
  - assert (Hb' : rel_ok (basePath s')) by (rewrite (change_base _ _ _ Hc); apply (tidy_wf _ Ht)).
    rewrite (stored_same s' _ rel Hb' Hf E) in Hb. destruct (Hnew n x b m) as [H|H]; [congruence|done..| |done].
    apply (Hs n x b m); [done..| |done|done|done]. rewrite (stored_same s _ rel); [congruence|apply (tidy_wf _ Ht)|done|done].
  - apply (Hs n x b m); [done..| |done|done|done]. rewrite <-Hb. symmetry. by eapply change_other.
Qed.

Lemma sound_elsewhere rel s s' : tidy s -> change rel s s' -> inside rel -> (forall n, elsewhere rel n) -> sound s -> sound s'.
Proof.
  intros Ht Hc Hi He Hs. eapply sound_change; [done|exact Hc|done|done|]. intros n x b m E. destruct (He n) as [H _].
  exfalso. apply H. rewrite E. by exists [x].
Qed.

Lemma sound_deleted rel s : tidy s -> inside rel -> sound s -> sound (StoreDelete s rel).2.
Proof.
  intros Ht Hi Hs. eapply sound_change; [done|apply change_delete|done|done|]. intros n x b m _ Hb _. left.
  destruct (delete_stored s rel (tidy_wf _ Ht) Hi) as [H|H]; [done|congruence].
Qed.

Hypothesis Htime : time_law FormatTime ParseTime.

Lemma sound_meta s m : tidy s -> sound s -> named_ok m = true -> meta_valid m ->
  sound (StoreWrite s (metaRel (gName m) (versionPlatform m)) (encode_meta FormatTime m)).2.
Proof.
  intros Ht Hs Hok Hv. pose proof (meta_resolve (gName m) (versionPlatform m) (named_ok_seg m Hok) (vp_no_slash m Hok)) as Er.
  assert (Hi : inside (metaRel (gName m) (versionPlatform m))) by (unfold inside; by rewrite Er).
  eapply sound_change; [done|apply change_write|done|done|]. intros n x b m' E Hb Hm. rewrite Er in E. injection E as <- <-.
  destruct (StoreWrite s _ _) as [[e|] s'] eqn:Ew; cbn [snd] in *.
  - left. rewrite StoreWrite_stream in Ew. by eapply stream_failed; [apply tidy_wf| |exact Ew].
  - right. apply write_stored in Ew; [|done|done]. rewrite Ew in Hb. injection Hb as <-.
    rewrite meta_decode_encode in Hm by done. by injection Hm as <-.
Qed.

(** ** Putting and removing gems *)

Lemma only_step (P : string -> Prop) rel s s1 s2 : P rel -> change rel s s1 -> only P s1 s2 -> only P s s2.
Proof. intros H Hc. apply rtc_l. by exists rel. Qed.

Lemma gem_inside m : named_ok m = true -> inside (gemRel (FullName m)).
Proof. intros H. unfold inside. by rewrite gem_resolve by (by apply full_no_slash). Qed.

Lemma meta_inside m : named_ok m = true -> inside (metaRel (gName m) (versionPlatform m)).
Proof. intros H. unfold inside. by rewrite meta_resolve by (by apply named_ok_seg || by apply vp_no_slash). Qed.

Lemma put_spec s m body : tidy s -> sound s -> named_ok m = true -> meta_valid m ->
  let '(e, s') := put FormatTime s m body in only (mine (gName m)) s s' /\ sound s' /\
  (e = None -> stored s' (gemRel (FullName m)) = Some body /\
               stored s' (metaRel (gName m) (versionPlatform m)) = Some (encode_meta FormatTime m)).
Proof.
  intros Ht Hs Hok Hv. unfold put. pose proof (full_no_slash m Hok) as Hf. pose proof (vp_no_slash m Hok) as Hvp.
  pose proof (gem_inside m Hok) as Hi. pose proof (meta_inside m Hok) as Hi'.
  assert (Hg : sound (StoreWrite s (gemRel (FullName m)) body).2).
  { eapply sound_elsewhere; [done|apply change_write|done| |done]. intros n. by apply gem_elsewhere. }
  destruct (StoreWrite s (gemRel (FullName m)) body) as [[e|] s1] eqn:E1; pose proof (write_change _ _ _ _ _ E1) as C1.
  { split_and!; [exact (only_one _ _ _ _ (my_gem _ _ Hf) C1)|done|done]. }
  pose proof (change_tidy _ _ _ Ht C1) as Ht1. pose proof (sound_meta s1 m Ht1 Hg Hok Hv) as Hm.
  destruct (StoreWrite s1 (metaRel (gName m) (versionPlatform m)) _) as [e s2] eqn:E2. pose proof (write_change _ _ _ _ _ E2) as C2.
  split_and!.
  - exact (only_step _ _ _ _ _ (my_gem _ _ Hf) C1 (only_one _ _ _ _ (my_meta _ _ Hvp) C2)).
  - exact Hm.
  - intros ->. split; [|by eapply write_stored; [exact Ht1| |exact E2]].
    rewrite (change_other _ _ _ _ Ht1 C2 Hi' Hi); [by eapply write_stored; [exact Ht| |exact E1]|].
    rewrite gem_resolve, meta_resolve by (done || by apply named_ok_seg). congruence.
Qed.

Lemma remove_spec s m : tidy s -> sound s -> named_ok m = true ->
  let '(e, s') := remove s m in only (mine (gName m)) s s' /\ sound s' /\
  (e = None -> stored s' (metaRel (gName m) (versionPlatform m)) = None).
Proof.
  intros Ht Hs Hok. unfold remove. pose proof (full_no_slash m Hok) as Hf. pose proof (vp_no_slash m Hok) as Hvp.
  pose proof (sound_deleted _ s Ht (gem_inside m Hok) Hs) as Hg.
  destruct (StoreDelete s (gemRel (FullName m))) as [[e|] s1] eqn:E1; pose proof (delete_change _ _ _ _ E1) as C1.
  { split_and!; [exact (only_one _ _ _ _ (my_gem _ _ Hf) C1)|done|done]. }
  pose proof (change_tidy _ _ _ Ht C1) as Ht1. pose proof (sound_deleted _ s1 Ht1 (meta_inside m Hok) Hg) as Hm.
  destruct (StoreDelete s1 (metaRel (gName m) (versionPlatform m))) as [e s2] eqn:E2. pose proof (delete_change _ _ _ _ E2) as C2.
  split_and!.
  - exact (only_step _ _ _ _ _ (my_gem _ _ Hf) C1 (only_one _ _ _ _ (my_meta _ _ Hvp) C2)).
  - exact Hm.
  - intros ->. eapply deleted_gone; [exact Ht1|by apply meta_inside|exact E2].
Qed.

(** ** Loaded metadata *)

Lemma load_file_inv s n e m : tidy s -> good_seg (eName e) -> validName n = true -> load_file ParseTime s n e = Some m ->
  exists b, stored s (PathJoin ["meta"; n; eName e]) = Some b /\ decode_meta ParseTime b = Some m /\ gName m <> "" /\
    HasSuffix (eName e) ".json" = true.
Proof.
  intros Ht Hg Hn. rewrite load_file_opt by (by apply tidy_wf). destruct (HasSuffix (eName e) ".json"); [|done]. cbn [negb].
  destruct (stored s _) as [b|]; [|done]. cbn [mbind option_bind]. destruct (decode_meta ParseTime b) as [m'|] eqn:Em; [|done].
  cbn [mbind option_bind]. destruct (String.eqb_spec (gName m') ""); [done|]. intros [= <-]. by exists b.
Qed.

Lemma load_file_some s n e b m : tidy s -> stored s (PathJoin ["meta"; n; eName e]) = Some b -> decode_meta ParseTime b = Some m ->
  gName m <> "" -> HasSuffix (eName e) ".json" = true -> load_file ParseTime s n e = Some m.
Proof.
  intros Ht Hb Hm Hne Hj. rewrite load_file_opt by (by apply tidy_wf). rewrite Hj, Hb. cbn [negb mbind option_bind]. rewrite Hm.
  cbn [mbind option_bind]. by destruct (String.eqb_spec (gName m) "").
Qed.

Lemma loaded_here s n ms m : tidy s -> sound s -> LoadMetas s n = Ok ms -> m ∈ ms ->
  validName n = true /\ gName m = n /\ named_ok m = true /\ meta_valid m.
Proof.
  intros Ht Hs. unfold RubyGems.LoadMetas. destruct (validName n) eqn:Hn; cbn [negb]; [|intros [= <-] H; by apply elem_of_nil in H].
  destruct (ListFiles s _) as [es|] eqn:El; [|done]. cbn [rbind]. intros [= <-]. unfold sortMetas. rewrite SliceStable_perm.
  intros (e & He & Hm)%list_elem_of_omap. assert (Hg : good_seg (eName e)) by (by eapply ListFiles_named).
  destruct (load_file_inv s n e m Ht Hg Hn Hm) as (b & Hb & Hd & Hne & Hj).
  destruct (Hs n (eName e) b m Hn Hg Hb Hd Hne Hj) as (H1 & H2 & _ & H3). done.
Qed.

(** The metadata in the file of its version is loaded. *)
Lemma stored_loaded s m ms : tidy s -> named_ok m = true -> meta_valid m ->
  stored s (metaRel (gName m) (versionPlatform m)) = Some (encode_meta FormatTime m) -> LoadMetas s (gName m) = Ok ms -> m ∈ ms.
Proof.
  intros Ht Hok Hv Hst. pose proof (named_ok_name m Hok) as Hn. pose proof (named_ok_seg m Hok) as Hg.
  pose proof (vp_no_slash m Hok) as Hvp. unfold RubyGems.LoadMetas. rewrite Hn. cbn [negb].
  destruct (ListFiles s _) as [es|] eqn:El; [|done]. cbn [rbind]. intros [= <-]. unfold sortMetas. rewrite SliceStable_perm.
  assert (Hx : good_seg (versionPlatform m +:+ ".json")) by (by apply suffix_seg; [|cbn; lia|]).
  assert (Er : resolve (metaRel (gName m) (versionPlatform m)) = resolve (PathJoin ["meta"; gName m]) ++ [versionPlatform m +:+ ".json"])
    by (by rewrite meta_resolve, metaDir_resolve).
  assert (Hd : inside (PathJoin ["meta"; gName m])) by (unfold inside; by rewrite metaDir_resolve).
  destruct (file_in_listing s _ _ _ es Ht Hd Hx Er El) as (e & He & En); [by eexists|].
  apply list_elem_of_omap. exists e. split; [done|]. unfold metaRel in Hst. rewrite <-En in Hst.
  eapply load_file_some; [done|exact Hst|by apply meta_decode_encode| |by rewrite En, HasSuffix_app].
  intros E. by rewrite E in Hn.
Qed.

(** ** Stale indexes *)

(** The gems outside [X] have current indexes. *)
Definition good (X : gset string) s : Prop :=
  tidy s /\ sound s /\ forall n, validName n = true -> n ∉ X -> current s n.

Lemma touched_good X n s s' : good X s -> validName n = true -> only (mine n) s s' -> sound s' -> good (X ∪ {[n]}) s'.
Proof.
  intros (Ht & Hs & Hc) Hn%validName_seg Ho Hs'. split_and!; [|done|].
  - by apply (only_keeps (mine n) (fun _ => True) s s').
  - intros n' Hv Hx. assert (Hne : n <> n') by set_solver. apply (current_same s); [by apply (only_metas n)| |apply Hc; [done|set_solver]].
    by apply (only_info n); [|apply validName_seg| | |].
Qed.

Lemma docs_sound n s s' : good_seg n -> only (shared n) s s' -> tidy s -> sound s -> sound s'.
Proof.
  intros Hn Ho Ht Hs. apply (only_keeps (shared n) sound s s'); [|done..]. intros rel t t' Hm Htt Hc Hst.
  eapply sound_elsewhere; [exact Htt|exact Hc|apply (mine_inside n); [done|by apply my_doc]| |done].
  intros n'. by apply (shared_elsewhere n).
Qed.

(** What an operation on a gem leaves: an error makes its index stale at worst. *)
Definition outcome (created : string) X n s (failed : bool) s' : Prop :=
  if failed then good (X ∪ {[n]}) s' else s' = s \/ good (X ∖ {[n]}) s' /\ root_current created s'.

Lemma changed_outcome created X n s s1 : good X s -> validName n = true -> only (mine n) s s1 -> sound s1 ->
  let '(e, s') := Regenerate created s1 n in outcome created X n s (is_some e) s' /\ (e = None -> current s' n) /\
  only (shared n) s1 s'.
Proof.
  intros Hg Hn Ho Hs1. pose proof (touched_good X n s s1 Hg Hn Ho Hs1) as (Ht1 & _ & Hc1).
  pose proof (validName_seg n Hn) as Hseg. pose proof (Regenerate_spec created s1 n Ht1 Hseg) as Hr.
  destruct (Regenerate created s1 n) as [e s']. destruct Hr as [Hd Hr].
  assert (Hg' : good (X ∪ {[n]}) s').
  { replace (X ∪ {[n]}) with ((X ∪ {[n]}) ∪ {[n]}) by set_solver. apply (touched_good _ n s1); [done|done| |].
    - eapply only_weaken; [|exact Hd]. intros rel. apply my_doc.
    - by apply (docs_sound n s1). }
  destruct e as [e|]; cbn [is_some outcome]; split_and!; try done; [|by intros _; apply Hr]. right.
  destruct Hr as [Hcur Hroot]; [done|]. split; [|done]. destruct Hg' as (Ht' & Hs' & Hc'). split_and!; [done..|].
  intros n' Hv Hx. destruct (decide (n' = n)) as [->|Hne]; [done|]. apply Hc'; [done|]. set_solver.
Qed.

Lemma Regenerate_loaded created s n s' : Regenerate created s n = (None, s') -> exists ms, LoadMetas s n = Ok ms.
Proof. unfold RubyGems.Regenerate. destruct (LoadMetas s n) as [ms|]; [by exists ms|done]. Qed.

Lemma docs_stored n rel s s' : good_seg n -> only (shared n) s s' -> tidy s -> inside rel -> hd "" (resolve rel) <> "index" ->
  stored s' rel = stored s rel.
Proof.
  intros Hn Ho Ht Hi Hr. apply (only_keeps (shared n) (fun t => stored t rel = stored s rel) s s'); [|done..].
  intros rel' t t' Hm Htt Hc <-. eapply change_other; [exact Htt|exact Hc|apply (mine_inside n); [done|by apply my_doc]|done|].
  intros E. rewrite E in Hr. by destruct (shared_resolve n rel' Hn Hm) as [H|[H|H]]; rewrite H in Hr.
Qed.

Lemma remove_all_spec n ms s : good_seg n -> tidy s -> sound s -> Forall (fun m => gName m = n /\ named_ok m = true) ms ->
  let '(e, s') := remove_all s ms in only (mine n) s s' /\ sound s'.
Proof.
  intros Hn. revert s. induction ms as [|m ms IH]; intros s Ht Hs Hm; cbn [remove_all]; [by split; [apply rtc_refl|]|].
  apply Forall_cons in Hm as [[<- Hok] Hm]. pose proof (remove_spec s m Ht Hs Hok) as Hr.
  destruct (remove s m) as [[e|] s1]; destruct Hr as (Ho & Hs1 & _); [by split|].
  assert (Ht1 : tidy s1) by (by apply (only_keeps (mine (gName m)) (fun _ => True) s s1)).
  specialize (IH s1 Ht1 Hs1 Hm). destruct (remove_all s1 ms) as [e s2]. destruct IH as [Ho2 Hs2]. split; [|done].
  by etrans.
Qed.

(** ** Operations *)

Variables (FormatSeconds : Z -> string) (ReadGem : string -> result string yamlSpec)
  (ParseQuery : string -> option (list (string * string))) (Gzip Deflate : string -> string).

Notation ServeHTTP := (ServeHTTP FormatTime ParseTime FormatSeconds ReadGem ParseQuery Gzip Deflate).
Notation push := (push FormatTime ParseTime FormatSeconds ReadGem).
Notation yank := (yank ParseTime FormatSeconds ParseQuery).
Notation DeleteVersion := (DeleteVersion ParseTime FormatSeconds).
Notation PromoteVersion := (PromoteVersion FormatTime ParseTime FormatSeconds).

(** The YAML of a gem is UTF-8. *)
Hypothesis Hyaml : forall body y, ReadGem body = Ok y -> yaml_valid y.

Lemma ReadBody_len r max body : ReadBody r max = Some body -> Z.of_nat (len body) <= int64_max.
Proof.
  unfold ReadBody. cbv zeta. set (k := wrap64 _). destruct (k <=? 0); [by intros [= <-]|].
  destruct (_ <? k) eqn:E; [|done]. destruct (rErr r); [done|]. intros [= <-]. apply Z.ltb_lt in E.
  pose proof (wrap64_range ((if max <=? 0 then DefaultMaxUpload else max) + 1)) as Hr. fold k in Hr. unfold in64 in Hr. lia.
Qed.

Lemma parseGem_ok body m : parseGem ReadGem body = Ok m -> Z.of_nat (len body) <= int64_max -> named_ok m = true /\
  forall now, 0 <= now <= int64_max -> meta_valid (stamped m body now).
Proof.
  unfold parseGem. destruct (ReadGem body) as [y|] eqn:Ey; [|done]. cbn [rbind]. intros Hm Hl.
  destruct (gemspec_ok y m Hm (Hyaml _ _ Ey)) as [H1 H2]. split; [done|]. intros now. by apply H2.
Qed.

Definition internal (a : Answer) : bool := match a with Fail c => c =? 500 | _ => false end.

Lemma outcome_same created X n s : good X s -> validName n = true -> outcome created X n s false s.
Proof. by left. Qed.

(** The gem of a push, when there is one. *)
Definition pushed l (r : Request) : option (GemMeta * string) :=
  body ← ReadBody (Body r) (MaxUpload l); match parseGem ReadGem body with Ok m => Some (m, body) | Err _ => None end.

Lemma push_cases X e l r : good X (lstore l) -> 0 <= eNow e <= int64_max -> let '(a, l') := push e l r in
  (lstore l' = lstore l /\ internal a = false /\ (forall b, a <> Reply 200 b)) \/
  exists m0 body, let m := stamped m0 body (eNow e) in pushed l r = Some (m0, body) /\ validName (gName m) = true /\
    outcome (FormatSeconds (eNow e)) X (gName m) (lstore l) (internal a) (lstore l') /\
    (internal a = false -> stored (lstore l') (gemRel (FullName m)) = Some body /\
      exists ms, LoadMetas (lstore l') (gName m) = Ok ms /\ m ∈ ms /\ current (lstore l') (gName m)).
Proof.
  intros Hg Hnow. pose proof Hg as (Ht & Hs & _). unfold RubyGems.push, pushed. destruct (AllowPush l); [|by left]. cbn [negb].
  destruct (ReadBody (Body r) (MaxUpload l)) as [body|] eqn:Eb; [|by left]. cbn [mbind option_bind].
  destruct (parseGem ReadGem body) as [m0|msg] eqn:Em; [|by left]. cbv zeta.
  destruct (parseGem_ok body m0 Em (ReadBody_len _ _ _ Eb)) as [Hok Hv]. specialize (Hv (eNow e) Hnow).
  set (m := stamped m0 body (eNow e)) in *. assert (Hok' : named_ok m = true) by done.
  destruct (Check _ _ _ _ _) as [code|] eqn:Ec.
  { left. split_and!; [done| |done]. cbn. unfold Check in Ec. repeat case_match; simplify_eq; done. }
  pose proof (put_spec (lstore l) m body Ht Hs Hok' Hv) as Hp. destruct (put FormatTime (lstore l) m body) as [[er|] s1].
  - destruct Hp as (Ho & Hs1 & _). right. exists m0, body. split_and!; [done|by apply named_ok_name| |done].
    cbn [internal outcome lstore with_store]. apply (touched_good X (gName m) (lstore l)); [done|by apply named_ok_name|done|done].
  - destruct Hp as (Ho & Hs1 & Hst). destruct (Hst eq_refl) as [Hgem Hmeta].
    pose proof (changed_outcome (FormatSeconds (eNow e)) X (gName m) (lstore l) s1 Hg (named_ok_name m Hok') Ho Hs1) as Hr.
    change (eCreated FormatSeconds e) with (FormatSeconds (eNow e)).
    destruct (Regenerate _ s1 (gName m)) as [[er|] s2] eqn:Er; destruct Hr as (Hout & Hcur & Hdocs);
      (right; exists m0, body; split_and!; [done|by apply named_ok_name|exact Hout|]); [done|]. intros _. cbn [lstore with_store].
    assert (Ht1 : tidy s1) by (by apply (only_keeps (mine (gName m)) (fun _ => True) (lstore l) s1)).
    destruct (Regenerate_loaded _ _ _ _ Er) as [ms Hms]. pose proof (named_ok_seg m Hok') as Hseg.
    rewrite (docs_stored (gName m) _ s1 s2), (only_shared_metas (gName m) _ s1 s2);
      [|done..|by apply gem_inside|by rewrite gem_resolve by (by apply full_no_slash)].
    split; [done|]. exists ms. split_and!; [done|by apply (stored_loaded s1)|by apply Hcur].
Qed.

Lemma matched_here s n v p ms : tidy s -> sound s -> matchVersion ParseTime s n v p = Ok ms ->
  Forall (fun m => gName m = n /\ named_ok m = true /\ meta_valid m) ms /\ (ms <> [] -> validName n = true).
Proof.
  intros Ht Hs. unfold matchVersion. destruct (LoadMetas s n) as [all|] eqn:El; [|done]. cbn [rbind]. intros [= <-].
  assert (H : forall m, m ∈ List.filter (matches_version v p) all ->
    validName n = true /\ gName m = n /\ named_ok m = true /\ meta_valid m).
  { intros m Hm. apply list_elem_of_In, filter_In in Hm as [Hm _]. apply list_elem_of_In in Hm. by eapply loaded_here. }
  split; [apply Forall_forall; intros m Hm; by apply H|]. destruct (List.filter _ all) as [|m l]; [done|]. intros _. apply (H m). by left.
Qed.

Lemma yank_metas_here s n v p ms : tidy s -> sound s -> yank_metas ParseTime s n v p = Ok ms ->
  Forall (fun m => gName m = n /\ named_ok m = true /\ meta_valid m) ms /\ (ms <> [] -> validName n = true).
Proof.
  intros Ht Hs. unfold yank_metas. destruct (negb _); [by apply matched_here|].
  destruct (matchVersion ParseTime s n v "ruby") as [[|m l]|] eqn:E; cbn [rbind]; [by apply matched_here| |done].
  intros [= <-]. by eapply matched_here.
Qed.

(** Removing metas of a gem and writing its index again. *)
Lemma removed_outcome created X n s ms : good X s -> validName n = true ->
  Forall (fun m => gName m = n /\ named_ok m = true /\ meta_valid m) ms ->
  match remove_all s ms with
  | (Some _, s1) => outcome created X n s true s1
  | (None, s1) => let '(e, s2) := Regenerate created s1 n in outcome created X n s (is_some e) s2
  end.
Proof.
  intros Hg Hn Hm. pose proof Hg as (Ht & Hs & _). pose proof (remove_all_spec n ms s (validName_seg n Hn) Ht Hs) as Hr.
  destruct (remove_all s ms) as [[e|] s1]; destruct Hr as [Ho Hs1]; try (revert Hm; apply List.Forall_impl; by intros m (? & ? & _)).
  - by apply (touched_good X n s).
  - pose proof (changed_outcome created X n s s1 Hg Hn Ho Hs1) as H.
    destruct (Regenerate created s1 n) as [e s2]. apply H.
Qed.

Definition yanked (r : Request) : string := form_get (formValues ParseQuery r 1048576) "gem_name".

Lemma yank_outcome X e l r : good X (lstore l) -> let '(a, l') := yank e l r in
  outcome (FormatSeconds (eNow e)) X (yanked r) (lstore l) (internal a) (lstore l').
Proof.
  intros Hg. pose proof Hg as (Ht & Hs & _). unfold RubyGems.yank. destruct (AllowPush l); [|by left]. cbn [negb]. cbv zeta.
  fold (yanked r). destruct (_ || _) eqn:Ev; [by left|]. bool_prop.
  destruct (yank_metas _ _ _ _ _) as [[|m ms]|] eqn:Em; [by left| |].
  - apply yank_metas_here in Em as [Hm Hn]; [|done..].
    pose proof (removed_outcome (FormatSeconds (eNow e)) X (yanked r) (lstore l) (m :: ms) Hg H Hm) as Hr.
    change (eCreated FormatSeconds e) with (FormatSeconds (eNow e)).
    destruct (remove_all (lstore l) (m :: ms)) as [[er|] s1]; [exact Hr|].
    by destruct (Regenerate _ s1 (yanked r)) as [[er|] s2].
  - cbn [internal outcome]. destruct Hg as (? & ? & Hc). split_and!; [done..|]. intros n Hv Hx. apply Hc; [done|set_solver].
Qed.

(** Errors of the optional interfaces after which the index may be stale. *)
Definition broken (e : option GemError) : bool :=
  match e with None | Some PackageNotFound => false | Some _ => true end.

Lemma good_more X n s : good X s -> good (X ∪ {[n]}) s.
Proof. intros (Ht & Hs & Hc). split_and!; [done..|]. intros n' Hv Hx. apply Hc; [done|set_solver]. Qed.

Lemma DeleteVersion_outcome X e l n v : good X (lstore l) -> let '(er, l') := DeleteVersion e l n v in
  outcome (FormatSeconds (eNow e)) X n (lstore l) (broken er) (lstore l').
Proof.
  intros Hg. pose proof Hg as (Ht & Hs & _). unfold RubyGems.DeleteVersion.
  destruct (matchVersion _ _ _ _ _) as [[|m ms]|] eqn:Em; [by left| |by apply good_more].
  apply matched_here in Em as [Hm Hn]; [|done..].
  pose proof (removed_outcome (FormatSeconds (eNow e)) X n (lstore l) (m :: ms) Hg (Hn ltac:(done)) Hm) as Hr.
  change (eCreated FormatSeconds e) with (FormatSeconds (eNow e)).
  destruct (remove_all (lstore l) (m :: ms)) as [[er|] s1]; [exact Hr|].
  by destruct (Regenerate _ s1 n) as [[er|] s2].
Qed.

Lemma promote_all_spec n e src ms d : good_seg n -> tidy (lstore d) -> sound (lstore d) ->
  Forall (fun m => gName m = n /\ named_ok m = true /\ meta_valid m) ms ->
  let '(er, d') := promote_all FormatTime e src d ms in only (mine n) (lstore d) (lstore d') /\ sound (lstore d') /\
  er <> Some PackageNotFound.
Proof.
  intros Hn. revert d. induction ms as [|m ms IH]; intros d Ht Hs Hm; cbn [promote_all]; [by split_and!; [apply rtc_refl|..]|].
  apply Forall_cons in Hm as [(<- & Hok & Hv) Hm]. destruct (StoreRead src _) as [body|]; [|by split_and!; [apply rtc_refl|..]].
  destruct (Check _ _ _ _ _); [by split_and!; [apply rtc_refl|..]|]. pose proof (put_spec (lstore d) m body Ht Hs Hok Hv) as Hp.
  destruct (put FormatTime (lstore d) m body) as [[er|] s1]; destruct Hp as (Ho & Hs1 & _); [by split_and!|].
  assert (Ht1 : tidy s1) by (by apply (only_keeps (mine (gName m)) (fun _ => True) (lstore d) s1)).
  specialize (IH (with_store d s1) Ht1 Hs1 Hm). destruct (promote_all _ _ _ _ _) as [er d']. destruct IH as (Ho2 & Hs2 & He). split_and!; [by etrans|done..].
Qed.

Lemma PromoteVersion_outcome X e l d n v : tidy (lstore l) -> sound (lstore l) -> good X (lstore d) ->
  let '(er, d') := PromoteVersion e l d n v in outcome (FormatSeconds (eNow e)) X n (lstore d) (broken er) (lstore d').
Proof.
  intros Htl Hsl Hg. pose proof Hg as (Ht & Hs & _). unfold RubyGems.PromoteVersion.
  destruct (matchVersion _ _ _ _ _) as [[|m ms]|] eqn:Em; [by left| |by apply good_more].
  apply matched_here in Em as [Hm Hn]; [|done..]. specialize (Hn ltac:(done)).
  pose proof (promote_all_spec n e (lstore l) (m :: ms) d (validName_seg n Hn) Ht Hs Hm) as Hp.
  destruct (promote_all _ _ _ _ _) as [[er|] d1]; destruct Hp as (Ho & Hs1 & He).
  - pose proof (touched_good X n _ _ Hg Hn Ho Hs1) as H. by destruct er.
  - pose proof (changed_outcome (FormatSeconds (eNow e)) X n _ _ Hg Hn Ho Hs1) as Hr.
    change (eCreated FormatSeconds e) with (FormatSeconds (eNow e)).
    destruct (Regenerate _ (lstore d1) n) as [[er|] s2]; apply Hr.
Qed.

Inductive Op := OpHttp (r : Request) | OpDelete (name version : string) | OpPromote (from : Local F) (name version : string).

(** Whether an operation failed inside, and the repository after it. *)
Definition perform e (op : Op) l : bool * Local F :=
  match op with
  | OpHttp r => let '(a, l') := ServeHTTP e l r in (internal a, l')
  | OpDelete n v => let '(er, l') := DeleteVersion e l n v in (broken er, l')
  | OpPromote src n v => let '(er, l') := PromoteVersion e src l n v in (broken er, l')
  end.

(** The gem it is about. *)
Definition target (op : Op) l : string :=
  match op with
  | OpHttp r => if String.eqb (Method r) "POST" then match pushed l r with Some (m, _) => gName m | None => "" end else yanked r
  | OpDelete n _ | OpPromote _ n _ => n
  end.

Definition op_ok e (op : Op) : Prop := 0 <= eNow e <= int64_max /\
  match op with OpPromote src _ _ => tidy (lstore src) /\ sound (lstore src) | _ => True end.

Lemma serveRead_quiet e s r : internal (serveRead FormatTime ParseTime FormatSeconds Gzip Deflate e s r) = false.
Proof. unfold serveRead, serve_index, serveCompact. cbv zeta. repeat case_match; done. Qed.

Lemma perform_outcome X e op l : good X (lstore l) -> op_ok e op -> let '(failed, l') := perform e op l in
  outcome (FormatSeconds (eNow e)) X (target op l) (lstore l) failed (lstore l').
Proof.
  intros Hg [Hnow Hop]. destruct op as [r|n v|src n v]; cbn [perform target].
  - unfold RubyGems.ServeHTTP. cbv zeta. destruct (_ || _) eqn:Eg; [rewrite serveRead_quiet; by left|].
    destruct (String.eqb (Method r) "POST").
    + destruct (String.eqb (Path r) _); [|by left]. pose proof (push_cases X e l r Hg Hnow) as H.
      destruct (push e l r) as [a l']. destruct H as [(E & Ei & _)|(m & body & Ep & _ & Ho & _)].
      * rewrite Ei. by left.
      * rewrite Ep. exact Ho.
    + destruct (String.eqb (Method r) "DELETE"); [|by left]. destruct (String.eqb (Path r) _); [|by left].
      pose proof (yank_outcome X e l r Hg) as H. by destruct (yank e l r).
  - pose proof (DeleteVersion_outcome X e l n v Hg) as H. by destruct (DeleteVersion e l n v).
  - pose proof (PromoteVersion_outcome X e src l n v (proj1 Hop) (proj2 Hop) Hg) as H. by destruct (PromoteVersion e src l n v).
Qed.

(** A history: the gems whose last change failed, the time in /versions when the
    last change of the store was a success, the repository. *)
Inductive history : gset string -> option string -> Local F -> Prop :=
| hist_start l : good ∅ (lstore l) -> history ∅ None l
| hist_same X c l e op l' : history X c l -> op_ok e op -> perform e op l = (false, l') -> lstore l' = lstore l -> history X c l'
| hist_done X c l e op l' : history X c l -> op_ok e op -> perform e op l = (false, l') -> lstore l' <> lstore l ->
    history (X ∖ {[target op l]}) (Some (FormatSeconds (eNow e))) l'
| hist_failed X c l e op l' : history X c l -> op_ok e op -> perform e op l = (true, l') ->
    history (X ∪ {[target op l]}) None l'.

(** C24: whatever requests, deletions and promotions a hosted RubyGems repository
    sees, on a mount where a rejected write or deletion leaves the file as it was,
    and unless the last change of a gem failed inside: /info of the gem is the
    rendering of the metadata stored for it and absent when there is none; when no
    text of that metadata breaks a line its lines are one per stored version and
    platform, and those are the versions it lists.  After a successful change
    /versions and /names list the gems that have an index, with the hash of each. *)
Theorem index_current X c l : history X c l -> tidy (lstore l) /\
  (forall n, validName n = true -> n ∉ X -> current (lstore l) n) /\
  (forall n ms b, validName n = true -> n ∉ X -> LoadMetas (lstore l) n = Ok ms -> stored (lstore l) (infoRel n) = Some b ->
     Forall (fun m => info_safe m = true) ms ->
     infoLines b = infoLine <$> ms /\ infoVersions b = versionPlatform <$> ms) /\
  (forall t, c = Some t -> root_current t (lstore l)).
Proof.
  intros H. assert (Hg : good X (lstore l) /\ forall t, c = Some t -> root_current t (lstore l)).
  2: { destruct Hg as [(? & ? & Hcur) ?]. split_and!; [done|done| |done]. intros n ms b Hn Hx Hm Hb Hs. specialize (Hcur n Hn Hx).
    unfold current in Hcur. rewrite Hm in Hcur. destruct ms as [|m ms]; [by rewrite Hb in Hcur|]. rewrite Hb in Hcur. injection Hcur as ->.
    split; [by apply infoLines_buildInfo|by apply infoVersions_buildInfo]. }
  induction H as [l Hg|X c l e op l' _ [Hg Hc] Hop Ep Es|X c l e op l' _ [Hg Hc] Hop Ep Es|X c l e op l' _ [Hg Hc] Hop Ep]; [done|..];
    try (pose proof (perform_outcome X e op l Hg Hop) as Ho; rewrite Ep in Ho).
  - by rewrite Es.
  - destruct Ho as [Ho|[Ho Hr]]; [done|]. split; [done|]. by intros t [= <-].
  - by split.
Qed.

(** ** What is served *)

Lemma stored_open s rel b : stored s rel = Some b -> exists fi, Open (sfs s) (StoreJoin s [rel]) = Ok (reader b, fi).
Proof.
  unfold stored, file_at. destruct (Open _ _) as [[[dat er] fi]|]; [|done]. destruct (IsDir fi); [done|].
  destruct er; [done|]. intros [= <-]. by exists fi.
Qed.

Lemma file_path pre suf full : no_byte "/" full = true -> no_byte "/" suf = true -> full <> "" ->
  fileFromPath pre suf (pre +:+ full +:+ suf) = Some full.
Proof.
  intros Hf Hs Hne. unfold fileFromPath. rewrite HasPrefix_app, TrimPrefix_app, HasSuffix_app, TrimSuffix_app.
  assert (Hb : ContainsByte (full +:+ suf) "/" = false).
  { assert (H : no_byte "/" (full +:+ suf) = true) by (by rewrite no_byte_app, Hf). unfold no_byte in H. by apply negb_true_iff in H. }
  rewrite Hb. cbn [negb orb]. by destruct (String.eqb_spec full "").
Qed.

Lemma gemFile_path full : no_byte "/" full = true -> full <> "" -> gemFileFromPath ("/gems/" +:+ full +:+ ".gem") = Some full.
Proof. intros Hf. by apply file_path. Qed.

Lemma info_path n : validName n = true -> singleSegment ("/info/" +:+ n) "/info/" "" = Some n.
Proof.
  intros Hn. pose proof (HasSuffix_app n "") as H1. pose proof (TrimSuffix_app n "") as H2. rewrite app_empty_r in H1, H2.
  unfold singleSegment. rewrite HasPrefix_app, TrimPrefix_app, H1, H2. cbn [andb]. by rewrite Hn.
Qed.

Lemma serve_gem e s r full b : stored s (gemRel full) = Some b -> no_byte "/" full = true -> full <> "" ->
  Path r = "/gems/" +:+ full +:+ ".gem" -> serveRead FormatTime ParseTime FormatSeconds Gzip Deflate e s r = Serve (reader b).
Proof.
  intros Hs Hf Hne Hp. destruct (stored_open s _ b Hs) as [fi Ho]. pose proof (gemFile_path full Hf Hne) as Hg.
  unfold serveRead. cbv zeta. rewrite Hp.
  change (String.eqb ("/gems/" +:+ full +:+ ".gem") "/" || String.eqb ("/gems/" +:+ full +:+ ".gem") "") with false.
  change (String.eqb ("/gems/" +:+ full +:+ ".gem") "/versions") with false.
  change (String.eqb ("/gems/" +:+ full +:+ ".gem") "/names") with false.
  change (HasPrefix ("/gems/" +:+ full +:+ ".gem") "/info/") with false. rewrite HasPrefix_app, Hg. cbv iota. by rewrite Ho.
Qed.

Lemma serve_info e s r n b : stored s (infoRel n) = Some b -> store_wf s -> validName n = true ->
  Path r = "/info/" +:+ n -> IfNoneMatch r = "" ->
  serveRead FormatTime ParseTime FormatSeconds Gzip Deflate e s r = Reply 200 b.
Proof.
  intros Hs Hw Hn Hp Hm. pose proof (info_path n Hn) as Hi. apply StoreRead_stored in Hs; [|done].
  unfold serveRead. cbv zeta. rewrite Hp.
  change (String.eqb ("/info/" +:+ n) "/" || String.eqb ("/info/" +:+ n) "") with false.
  change (String.eqb ("/info/" +:+ n) "/versions") with false.
  change (String.eqb ("/info/" +:+ n) "/names") with false. rewrite HasPrefix_app, Hi. cbv iota. rewrite Hs.
  unfold serveCompact, etagMatches. by rewrite Hm.
Qed.

(** C25: a gem whose push is answered with success is served, on a mount where a
    rejected write or deletion leaves the file as it was: its file gives back the
    bytes that were pushed; /info of its name is the rendering of the stored
    metadata, the pushed gem among it; and when the texts of its gemspec break no
    line and hold no bar before the checksum, one of the lines is its own: the
    version and platform, the runtime dependencies, and behind the first bar the
    SHA-256 of those bytes. *)
Theorem push_served X e l r msg l' : good X (lstore l) -> 0 <= eNow e <= int64_max -> push e l r = (Reply 200 msg, l') ->
  exists m body ms, pushed l r = Some (m, body) /\
    let m' := stamped m body (eNow e) in m' ∈ ms /\
    (plain_line m' = true -> exists line rest, line ∈ infoLines (buildInfo ms) /\
       Cut line "|" = (versionPlatform m +:+ " " +:+ depsText m, "checksum:" +:+ hexSHA256 body +:+ rest, true)) /\
    forall e' r', IfNoneMatch r' = "" ->
      (Path r' = "/gems/" +:+ FullName m' +:+ ".gem" ->
        serveRead FormatTime ParseTime FormatSeconds Gzip Deflate e' (lstore l') r' = Serve (reader body)) /\
      (Path r' = "/info/" +:+ gName m' ->
        serveRead FormatTime ParseTime FormatSeconds Gzip Deflate e' (lstore l') r' = Reply 200 (buildInfo ms)).
Proof.
  intros Hg Hnow Hp. pose proof (push_cases X e l r Hg Hnow) as H. rewrite Hp in H. destruct H as [(_ & _ & H)|H]; [by destruct (H msg)|].
  destruct H as (m & body & Epd & Hn & Ho & Hdone). cbv zeta in *. set (m' := stamped m body (eNow e)) in *.
  destruct (Hdone eq_refl) as (Hgem & ms & Hms & Hin & Hcur). exists m, body, ms. fold m'. split; [done|]. split; [done|]. split.
  { intros Hpl. destruct (infoLine_checksum m' Hpl) as [rest Hr]. exists (infoLine m'), rest. split; [|exact Hr].
    apply infoLine_listed; [|done]. unfold plain_line in Hpl. by apply andb_true_iff in Hpl as [? _]. }
  assert (Ht : tidy (lstore l')). { destruct Ho as [->|[(Ht & _) _]]; [apply Hg|exact Ht]. }
  assert (Hinfo : stored (lstore l') (infoRel (gName m')) = Some (buildInfo ms)).
  { unfold current in Hcur. rewrite Hms in Hcur. destruct ms; [by apply elem_of_nil in Hin|done]. }
  assert (Hok : named_ok m' = true).
  { unfold pushed in Epd. destruct (ReadBody _ _) as [b|] eqn:Eb; [|done]. cbn [mbind option_bind] in Epd.
    destruct (parseGem ReadGem b) as [m1|] eqn:Em; [|done]. injection Epd as -> ->.
    by destruct (parseGem_ok body m Em (ReadBody_len _ _ _ Eb)). }
  intros e' r' Hm. split; intros Hpath.
  - apply (serve_gem e' _ r' (FullName m')); [done|by apply full_no_slash| |done].
    unfold FullName. revert Hn. by destruct (gName m').
  - apply (serve_info e' _ r' (gName m')); [done|by apply tidy_wf|done..].
Qed.
(** the quick index of a gem whose name has no "-" before a digit is the
    stored metadata: for such a name and version the reply inflates to a stream
    that Ruby loads as a [Gem::Specification] with exactly the stored fields. *)
Theorem quick_spec_loads e s r m : tidy s -> well_named m = true -> meta_valid m ->
  no_byte "/" (platform m) = true ->
  stored s (metaRel (gName m) (versionPlatform m)) = Some (encode_meta FormatTime m) ->
  Z.of_nat (len (gemspecMarshal m)) < 2 ^ 32 -> Path r = "/quick/Marshal.4.8/" +:+ FullName m +:+ ".gemspec.rz" ->
  exists stream dump, serveRead FormatTime ParseTime FormatSeconds Gzip Deflate e s r = Reply 200 (Deflate stream) /\
    load stream = Some (RUserDef "Gem::Specification" dump) /\ load dump = Some (gemspec_fields m).
Proof.
  intros Ht Hw Hv Hpl Hst Hlen Hp. destruct (load_gemspec m Hlen) as (dump & Hd). exists (gemspecMarshal m), dump.
  split; [|done]. pose proof (splitGemFile_FullName m Hw) as Hsplit. unfold well_named in Hw. bool_prop.
  assert (Hvp : no_byte "/" (versionPlatform m) = true).
  { unfold versionPlatform. destruct (String.eqb _ _); [by apply name_no_slash|].
    rewrite !no_byte_app, Hpl. by rewrite (name_no_slash (gVersion m)). }
  assert (Hf : no_byte "/" (FullName m) = true).
  { unfold FullName. rewrite !no_byte_app, Hvp. by rewrite (name_no_slash (gName m)). }
  assert (Hq : quickFromPath ("/quick/Marshal.4.8/" +:+ FullName m +:+ ".gemspec.rz") = Some (FullName m)).
  { apply file_path; [done..|]. unfold FullName. by destruct (gName m). }
  unfold serveRead. cbv zeta. rewrite Hp. clear Hp. remember (FullName m) as full eqn:Efull. clear Efull.
  change (String.eqb ("/quick/Marshal.4.8/" +:+ full +:+ ".gemspec.rz") "/" || String.eqb ("/quick/Marshal.4.8/" +:+ full +:+ ".gemspec.rz") "") with false.
  change (String.eqb ("/quick/Marshal.4.8/" +:+ full +:+ ".gemspec.rz") "/versions") with false.
  change (String.eqb ("/quick/Marshal.4.8/" +:+ full +:+ ".gemspec.rz") "/names") with false.
  change (HasPrefix ("/quick/Marshal.4.8/" +:+ full +:+ ".gemspec.rz") "/info/") with false.
  change (HasPrefix ("/quick/Marshal.4.8/" +:+ full +:+ ".gemspec.rz") "/gems/") with false.
  rewrite HasPrefix_app, Hq. cbn [mbind option_bind]. rewrite Hsplit.
  assert (E : (if negb (String.eqb (if String.eqb (platform m) "ruby" then "" else platform m) "") &&
      negb (String.eqb (if String.eqb (platform m) "ruby" then "" else platform m) "ruby")
    then gVersion m +:+ "-" +:+ (if String.eqb (platform m) "ruby" then "" else platform m) else gVersion m) = versionPlatform m).
  { unfold versionPlatform. destruct (String.eqb (platform m) "ruby") eqn:Er; [done|]. rewrite Er.
    destruct (String.eqb_spec (platform m) "") as [E|E]; [|done]. unfold platform in E. by destruct (String.eqb_spec (gPlatform m) ""). }
  rewrite E. unfold loadMeta. apply StoreRead_stored in Hst; [|by apply tidy_wf]. rewrite Hst. by rewrite meta_decode_encode.
Qed.

End safety.

(** for such a name the policies see the gem and the version that the file
    is. *)
Theorem classify_download m : well_named m = true -> no_byte "/" (FullName m) = true ->
  classify ("/gems/" +:+ FullName m +:+ ".gem") = Some (gName m, gVersion m).
Proof.
  intros Hw Hf. unfold classify. rewrite gemFile_path; [by rewrite splitGemFile_FullName|done|].
  unfold well_named in Hw. bool_prop. unfold FullName. by destruct (gName m).
Qed.

(** ** Examples *)

Section examples.
#[local] Existing Instance asciiTables.

Lemma hex_times : time_law FormatHex ParseInt16.
Proof. intros t Ht. split; [apply lower_hex_valid, FormatHex_digits; lia|by apply ParseInt16_FormatHex]. Qed.

(** What the archives "a", "b", ... hold. *)
Definition demo_spec (name version plat : string) (deps : list (string * list (list string) * string)) : yamlSpec :=
  {| yName := name; yVersion := version; yPlatform := plat; ySummary := "demo"; yDescription := ""; yHomepage := "";
     yAuthors := ["ada"]; yEmail := []; yLicenses := ["MIT"]; yMetadata := ∅; yDependencies := deps;
     yRequiredRuby := []; yRequiredRubygems := []; yRubygemsVersion := "3.5.0" |}.

Definition demo_gem (body : string) : result string yamlSpec :=
  if String.eqb body "a" then Ok (demo_spec "rake" "13.0" "ruby" [("mini", [[">="; "1"]], ":runtime")])
  else if String.eqb body "b" then Ok (demo_spec "foo" "1-2" "ruby" [])
  else if String.eqb body "c" then Ok (demo_spec "foo-1" "2" "ruby" [])
  else if String.eqb body "d" then Ok (demo_spec "net-2ch" "1.0" "ruby" [])
  else if String.eqb body "e" then Ok (demo_spec "foo" "1" "x86" [])
  else if String.eqb body "f" then Ok (demo_spec "foo" "1" "ruby" [])
  else if String.eqb body "g" then
    Ok (demo_spec "foo" "3" "ruby" [("x:>= 0|checksum:00" +:+ newline +:+ "9.9.9 y", [[">="; "0"]], ":runtime")])
  else Err "read gem archive".

Lemma demo_gem_utf8 body y : demo_gem body = Ok y -> yaml_valid y.
Proof.
  unfold demo_gem. intros H. repeat case_match; simplify_eq; split;
    first [by apply (bool_decide_unpack _); vm_compute|by apply map_Forall_empty|idtac].
  all: repeat constructor; vm_compute; reflexivity.
Qed.

Definition demo_store (base : string) : Store FS := NewStore sample_mount base.
Definition demo_repo : Local FS :=
  {| lstore := demo_store "gems"; AllowPush := true; MaxUpload := 0; Guard := {| Immutable := true; QuotaBytes := 0 |} |}.

Definition demo_env : Env := {| eNow := 7000000000; eFuel := 8 |}.
Definition call (method path body : string) : Request :=
  {| Method := method; Path := path; Body := reader body; Query := []; Basic := None; Authorization := ""; IfNoneMatch := "";
     PublicBase := "" |}.
Definition post (body : string) : Request := call "POST" "/api/v1/gems" body.
Definition get (path : string) : Request := call "GET" path "".

Definition serve (l : Local FS) (r : Request) : Answer * Local FS :=
  ServeHTTP FormatHex ParseInt16 FormatHex demo_gem (fun _ => None) (fun s => s) (fun s => s) demo_env l r.

Lemma demo_repo_wf : store_wf (lstore demo_repo).
Proof. split; [right; by apply (bool_decide_unpack _)|exact sample_mount_ok]. Qed.

Lemma demo_tidy : tidy (lstore demo_repo).
Proof. split; [exact demo_repo_wf|]. apply os_goodb_spec. by vm_compute. Qed.

Lemma demo_empty rel : inside rel -> stored (lstore demo_repo) rel = None.
Proof.
  intros Hi. unfold stored. change (sfs (lstore demo_repo)) with sample_mount. rewrite local_file_at by exact sample_mount_ok.
  unfold LocalFS.target. destruct (StoreJoin_resolve (lstore demo_repo) [rel] (proj1 demo_repo_wf)) as [-> _].
  cbn [fmap list_fmap concat]. rewrite app_nil_r. unfold inside in Hi. destruct (resolve rel) as [|x p]; [done|].
  change (resolve (basePath (lstore demo_repo))) with ["gems"]. change (rootSegs sample_mount) with ["srv"; "data"].
  cbn [app]. rewrite node_at_ne by done. destruct (nodes _ !! _) as [n|] eqn:E; [|done]. exfalso.
  pose proof (forall_nodes (fun kv => (length kv.1 <=? 3)%nat) sample_os ltac:(vm_compute; reflexivity) _ _ E) as H.
  discriminate H.
Qed.

Lemma demo_good : good ParseInt16 ∅ (lstore demo_repo).
Proof.
  split_and!; [exact demo_tidy| |].
  - intros n x b m Hn Hx. by rewrite demo_empty by (by apply metaFile_inside).
  - intros n Hn _. pose proof (validName_seg n Hn) as Hg. unfold current, LoadMetas. rewrite Hn. cbn [negb].
    destruct (ListFiles _ _) as [es|] eqn:El; [|done]. cbn [rbind].
    assert (Hd : inside (PathJoin ["meta"; n])) by (unfold inside; by rewrite metaDir_resolve).
    assert (E : es = []).
    { destruct es as [|e es]; [done|]. exfalso. assert (He : e ∈ e :: es) by by left.
      pose proof (ListFiles_named _ _ _ _ demo_tidy El He) as Hseg.
      destruct (listing_has_file _ _ _ _ (PathJoin ["meta"; n; eName e]) demo_tidy Hd El He) as [_ [b Hb]].
      - by rewrite metaDir_resolve, metaFile_resolve.
      - by rewrite demo_empty in Hb by (by apply metaFile_inside). }
    subst es. change (sortMetas (omap (load_file ParseInt16 (lstore demo_repo) n) [])) with (@nil GemMeta).
    apply demo_empty. unfold inside. by rewrite info_resolve.
Qed.

Definition with_rake : Local FS := (serve demo_repo (post "a")).2.

Lemma rake_pushed : (serve demo_repo (post "a")).1 = Reply 200 "Successfully registered gem: rake (13.0)".
Proof. vm_compute. reflexivity. Qed.

Lemma rake_served :
  (serve with_rake (get "/gems/rake-13.0.gem")).1 = Serve (reader "a") /\
  (serve with_rake (get "/info/rake")).1 =
    Reply 200 ("---" +:+ newline +:+ "13.0 mini:>= 1|checksum:" +:+ hexSHA256 "a" +:+ newline).
Proof. by split; vm_compute. Qed.

Lemma index_current_witness : current ParseInt16 (lstore with_rake) "rake" /\ root_current (FormatHex 7000000000) (lstore with_rake).
Proof.
  assert (Hp : perform FormatHex ParseInt16 FormatHex demo_gem (fun _ => None) (fun s => s) (fun s => s) demo_env
    (OpHttp (post "a")) demo_repo = (false, with_rake)).
  { cbn [perform]. unfold with_rake. pose proof rake_pushed as H. unfold serve in *.
    destruct (ServeHTTP _ _ _ _ _ _ _ _ _ _) as [a l']. cbn [fst snd] in *. by rewrite H. }
  assert (Hne : lstore with_rake <> lstore demo_repo).
  { intros E. assert (Hx : Exists (lstore with_rake) versionsRel = Exists (lstore demo_repo) versionsRel) by (by rewrite E).
    revert Hx. vm_compute. discriminate. }
  pose proof (index_current FormatHex ParseInt16 hex_times FormatHex demo_gem (fun _ => None) (fun s => s) (fun s => s) demo_gem_utf8
    _ _ with_rake (hist_done _ _ _ _ _ _ _ ∅ None demo_repo demo_env (OpHttp (post "a")) with_rake
      (hist_start _ _ _ _ _ _ _ demo_repo demo_good) (conj (ltac:(by vm_compute; split) : 0 <= 7000000000 <= int64_max) I) Hp Hne)) as (_ & Hc & _ & Hr).
  split; [|by apply Hr]. apply Hc; [by vm_compute|].
  apply not_elem_of_difference. left. apply not_elem_of_empty.
Defined.

Definition rake_spec : GemMeta :=
  {| gName := "rake"; gVersion := "13.0"; gPlatform := ""; Summary := "demo"; Description := ""; Homepage := ""; Authors := ["ada"];
     Email := []; Licenses := ["MIT"]; Metadata := ∅;
     Dependencies := [{| dName := "mini"; dRequirements := [">= 1"]; dType := "runtime" |}];
     RequiredRuby := []; RequiredRubygems := []; RubygemsVersion := "3.5.0"; SHA256 := ""; gSize := 0; CreatedAt := 0 |}.
Definition rake_meta : GemMeta := stamped rake_spec "a" 7000000000.

Lemma push_served_witness : exists m body (ms : list GemMeta) line rest, pushed demo_gem demo_repo (post "a") = Some (m, body) /\
  line ∈ infoLines (buildInfo ms) /\
  Cut line "|" = (versionPlatform m +:+ " " +:+ depsText m, "checksum:" +:+ hexSHA256 body +:+ rest, true).
Proof.
  destruct (push_served FormatHex ParseInt16 hex_times FormatHex demo_gem (fun s => s) (fun s => s) demo_gem_utf8 ∅ demo_env demo_repo
    (post "a") "Successfully registered gem: rake (13.0)" with_rake demo_good ltac:(by vm_compute; split) ltac:(vm_compute; reflexivity))
    as (m & body & ms & H1 & H2 & H3 & _).
  assert (E : pushed demo_gem demo_repo (post "a") = Some (rake_spec, "a")) by (vm_compute; reflexivity).
  assert (Em : m = rake_spec /\ body = "a") by (rewrite E in H1; injection H1 as <- <-; split; reflexivity). destruct Em as [-> ->].
  assert (Hpl : plain_line (stamped rake_spec "a" 7000000000) = true) by (vm_compute; reflexivity).
  destruct (H3 Hpl) as (line & rest & Hl & Hc). exists rake_spec, "a", ms, line, rest. split; [exact H1|]. split; [exact Hl|exact Hc].
Defined.

Lemma rake_valid : meta_valid rake_meta.
Proof.
  assert (E : parseGem demo_gem "a" = Ok rake_spec) by reflexivity.
  destruct (parseGem_ok demo_gem demo_gem_utf8 "a" rake_spec E ltac:(by vm_compute)) as [_ H]. apply H. by vm_compute.
Qed.

Lemma with_rake_tidy : tidy (lstore with_rake).
Proof.
  pose proof (perform_outcome FormatHex ParseInt16 hex_times FormatHex demo_gem (fun _ => None) (fun s => s) (fun s => s) demo_gem_utf8
    ∅ demo_env (OpHttp (post "a")) demo_repo demo_good (conj (ltac:(by vm_compute; split) : 0 <= 7000000000 <= int64_max) I)) as H.
  cbn [perform] in H. unfold with_rake. pose proof rake_pushed as Hp. unfold serve in *.
  destruct (ServeHTTP _ _ _ _ _ _ _ _ _ _) as [a l']. cbn [fst snd] in *. rewrite Hp in H. cbn [internal outcome] in H.
  destruct H as [->|[H _]]; [exact demo_tidy|apply H].
Qed.

Lemma quick_spec_loads_witness : exists stream dump,
  (serve with_rake (get "/quick/Marshal.4.8/rake-13.0.gemspec.rz")).1 = Reply 200 stream /\
  load stream = Some (RUserDef "Gem::Specification" dump) /\ load dump = Some (gemspec_fields rake_meta).
Proof.
  destruct (quick_spec_loads FormatHex ParseInt16 hex_times FormatHex (fun s => s) (fun s => s) demo_env (lstore with_rake)
    (get "/quick/Marshal.4.8/rake-13.0.gemspec.rz") rake_meta with_rake_tidy) as (stream & dump & H1 & H2 & H3).
  - vm_compute. reflexivity.
  - exact rake_valid.
  - vm_compute. reflexivity.
  - vm_compute. reflexivity.
  - vm_compute. reflexivity.
  - vm_compute. reflexivity.
  - exists stream, dump. split; [exact H1|]. split; [exact H2|exact H3].
Defined.

Lemma classify_download_witness : classify "/gems/rake-13.0.gem" = Some ("rake", "13.0").
Proof. exact (classify_download rake_meta eq_refl eq_refl). Defined.

(** ** What file names confuse *)

Definition after (l : Local FS) (bodies : list string) : list Answer * Local FS :=
  foldl (fun al b => let '(a, l) := serve al.2 (post b) in (al.1 ++ [a], l)) ([], l) bodies.

(** foo 1-2 and foo-1 2 are one file: in an immutable repository the second push
    is accepted, and the file of the first has its bytes, against the checksum
    that /info names. *)
Theorem immutable_gem_overwritten : Immutable (Guard demo_repo) = true /\
  let '(answers, l) := after demo_repo ["b"; "c"] in
  answers = [Reply 200 "Successfully registered gem: foo (1-2)"; Reply 200 "Successfully registered gem: foo-1 (2)"] /\
  (serve l (get "/gems/foo-1-2.gem")).1 = Serve (reader "c") /\
  (serve l (get "/info/foo")).1 = Reply 200 ("---" +:+ newline +:+ "1-2 |checksum:" +:+ hexSHA256 "b" +:+ newline).
Proof. split; [done|]. vm_compute. split; [reflexivity|split; reflexivity]. Qed.

(** A gem whose name has a digit after a "-" is pushed and listed, and has no quick
    index; a policy sees another name and version for its file. *)
Theorem dashed_name_misread :
  let '(answers, l) := after demo_repo ["d"] in
  answers = [Reply 200 "Successfully registered gem: net-2ch (1.0)"] /\
  (serve l (get "/quick/Marshal.4.8/net-2ch-1.0.gemspec.rz")).1 = Fail 404 /\
  classify "/gems/net-2ch-1.0.gem" = Some ("net", "2ch").
Proof. vm_compute. split; [reflexivity|split; reflexivity]. Qed.

(** A line break in the name of a dependency makes /versions list a version that
    nobody pushed. *)
Theorem dependency_injects_version :
  let l := (after demo_repo ["g"]).2 in
  uniqueVersions (metas_of ParseInt16 (lstore l) "foo") = ["3"] /\
  match StoreRead (lstore l) (infoRel "foo") with Ok info => infoVersions info = ["3"; "9.9.9"] | Err _ => False end.
Proof. vm_compute. split; reflexivity. Qed.

(** A promotion that the target rejects half way leaves builds that its index does
    not list. *)
Definition other_repo : Local FS :=
  {| lstore := demo_store "copies"; AllowPush := true; MaxUpload := 0; Guard := {| Immutable := true; QuotaBytes := 0 |} |}.

Theorem promotion_half_listed :
  let src := (after demo_repo ["e"; "f"]).2 in
  let dst := (after other_repo ["e"]).2 in
  let '(err, dst) := PromoteVersion FormatHex ParseInt16 FormatHex demo_env src dst "foo" "1" in
  err = Some (Rejected 409) /\
  versionPlatform <$> metas_of ParseInt16 (lstore dst) "foo" = ["1"; "1-x86"] /\
  match StoreRead (lstore dst) (infoRel "foo") with Ok info => infoVersions info = ["1-x86"] | Err _ => False end.
Proof. vm_compute. split; [reflexivity|split; reflexivity]. Qed.

(** The guard is asked about the bytes of the gem: a quota of 20 bytes lets a push
    through that leaves 474. *)
Definition small_repo : Local FS :=
  {| lstore := demo_store "gems"; AllowPush := true; MaxUpload := 0; Guard := {| Immutable := false; QuotaBytes := 20 |} |}.

Theorem push_exceeds_quota :
  let '(a, l) := serve small_repo (post "a") in
  a = Reply 200 "Successfully registered gem: rake (13.0)" /\ (Usage 8 (lstore l) "").2 = 474.
Proof. vm_compute. split; reflexivity. Qed.

(** The largest limit wraps around: every upload is read as empty. *)
Theorem largest_limit_reads_nothing r : ReadBody r int64_max = Some "".
Proof. reflexivity. Qed.

End examples.
