(* ===== verification/Retention.v ===== *)
(** * internal/registry/ops/retention.go: deleting old versions

    [PlanRetention] computes what a policy deletes of a local repository and
    [ApplyRetention] deletes it.  A registry is a record of the optional
    interfaces the planner asks for; the state that deletions change is
    explicit.  The layouts [time.Parse] is tried with are one parameter,
    [parseTime]; times are nanoseconds since Go's zero time.  The theorems: the
    plan is exactly the versions the policy retires, carrying it out touches no
    other version, and the age limit overflows. *)

From Stdlib Require Import ZArith Lia.
From stdpp Require Import base list strings gmap sorting.
From S2P Require Import Prelude GoStrings GoPath Policy PkgVersion.

Local Open Scope Z_scope.

(** ** Data *)

Inductive RetentionReason := BeyondNewest (n : Z) | OlderThan (days : Z).

Record RetentionItem := { iName : string; iVersion : string; iReason : RetentionReason }.

Definition RetentionPlan := list RetentionItem.

Record PackageSummary := { pName : string; pVersions : list string }.

(** The interfaces of a registry: the list of packages, whether it deletes
    versions, the version and time texts of a package's details in the order
    they are collected, and the publish time of a version. *)
Record RetentionRegistry := {
  Kind : string;
  ListPackages : option (result string (list PackageSummary));
  isVersionDeleter : bool;
  PackageDetail : option (string -> option (list (string * string)));
  ArtifactInfo : option (string -> string -> option Z);
}.

Inductive RetentionError :=
| ErrIncompatible | ErrUnsupported (what : string) | ListFailed (e : string) | CtxFailed (e : CtxError).

Section plan.
Context {U : UnicodeTables}.
Variable parseTime : string -> option Z.

Definition keepByPattern (patterns : list string) (version : string) : bool :=
  existsb (fun p => negb (String.eqb p "") && GoPath.matches p version) patterns.

(** ** Publish times *)

Definition collectDetailTimes (det : list (string * string)) (out : gmap string Z) : gmap string Z :=
  foldl (fun out '(v, ts) => match parseTime ts with Some t => <[ v := t ]> out | None => out end)
        out det.

Definition publishTimes (reg : RetentionRegistry) (name : string) (versions : list string)
    : gmap string Z :=
  let out := match PackageDetail reg with
    | Some detail => match detail name with Some det => collectDetailTimes det ∅ | None => ∅ end
    | None => ∅
    end in
  match ArtifactInfo reg with
  | None => out
  | Some info =>
      foldl (fun out v =>
        match out !! v with
        | Some _ => out
        | None => match info name v with
                  | Some t => if t =? 0 then out else <[ v := t ]> out
                  | None => out
                  end
        end) out versions
  end.

(** ** The plan *)

(** [time.Time.Sub] saturates. *)
Definition Sub (a b : Z) : Z := Z.max int64_min (Z.min int64_max (a - b)).

(** [time.Duration(days) * 24 * time.Hour] wraps around. *)
Definition maxAge (days : Z) : Z := wrap64 (wrap64 (days * 24) * hour).

(** The decision on the version at index [i] of the sorted list. *)
Definition verdict (pol : RegistryRetentionPolicy) (now : Z) (times : gmap string Z) (i : nat)
    (v : string) : option RetentionReason :=
  if (i =? 0)%nat || keepByPattern (KeepPatterns pol) v then None
  else if (0 <? KeepLastVersions pol) && (KeepLastVersions pol <=? Z.of_nat i) then
    Some (BeyondNewest (KeepLastVersions pol))
  else if 0 <? MaxVersionAgeDays pol then
    match times !! v with
    | Some t => if maxAge (MaxVersionAgeDays pol) <? Sub now t
                then Some (OlderThan (MaxVersionAgeDays pol)) else None
    | None => None
    end
  else None.

Definition item (name v : string) (r : RetentionReason) : RetentionItem :=
  {| iName := name; iVersion := v; iReason := r |}.

Definition planPackage (reg : RetentionRegistry) (pol : RegistryRetentionPolicy) (now : Z)
    (p : PackageSummary) : RetentionPlan :=
  let vs := sortNewestFirst (pVersions p) in
  let times := if (0 <? MaxVersionAgeDays pol) && (1 <? length vs)%nat
               then publishTimes reg (pName p) (tail vs) else ∅ in
  concat (imap (fun i v => option_list (item (pName p) v <$> verdict pol now times i v)) vs).

Fixpoint planPackages (ctx : nat -> option CtxError) (i : nat) (reg : RetentionRegistry)
    (pol : RegistryRetentionPolicy) (now : Z) (pkgs : list PackageSummary) (plan : RetentionPlan)
    : RetentionPlan * option RetentionError :=
  match pkgs with
  | [] => (plan, None)
  | p :: pkgs =>
      match ctx i with
      | Some e => (plan, Some (CtxFailed e))
      | None => planPackages ctx (S i) reg pol now pkgs (plan ++ planPackage reg pol now p)
      end
  end.

Definition PlanRetention (ctx : nat -> option CtxError) (reg : RetentionRegistry)
    (pol : RegistryRetentionPolicy) (now : Z) : RetentionPlan * option RetentionError :=
  if negb (String.eqb (Kind reg) "local") then ([], Some ErrIncompatible)
  else match ListPackages reg with
  | None => ([], Some (ErrUnsupported "listing packages"))
  | Some listed =>
      if negb (isVersionDeleter reg) then ([], Some (ErrUnsupported "deleting versions"))
      else if (KeepLastVersions pol <=? 0) && (MaxVersionAgeDays pol <=? 0) then ([], None)
      else match listed with
           | Err e => ([], Some (ListFailed e))
           | Ok pkgs => planPackages ctx 0 reg pol now pkgs []
           end
  end.

End plan.

(** ** Carrying it out *)

Section apply.
Context {St : Type}.
Variable DeleteVersion : string -> string -> St -> option RegistryError * St.

Inductive ApplyError :=
| ApplyUnsupported | ApplyCancelled (e : CtxError) | DeleteFailed (name version : string) (e : RegistryError).

Fixpoint applyItems (ctx : nat -> option CtxError) (i : nat) (plan : RetentionPlan)
    (deleted : nat) (errs : list ApplyError) (s : St) : nat * list ApplyError * St :=
  match plan with
  | [] => (deleted, errs, s)
  | it :: plan =>
      match ctx i with
      | Some e => (deleted, errs ++ [ApplyCancelled e], s)
      | None =>
          match DeleteVersion (iName it) (iVersion it) s with
          | (None, s) => applyItems ctx (S i) plan (S deleted) errs s
          | (Some ErrPackageNotFound, s) => applyItems ctx (S i) plan deleted errs s
          | (Some e, s) =>
              applyItems ctx (S i) plan deleted (errs ++ [DeleteFailed (iName it) (iVersion it) e]) s
          end
      end
  end.

Definition ApplyRetention (ctx : nat -> option CtxError) (reg : RetentionRegistry)
    (plan : RetentionPlan) (s : St) : nat * list ApplyError * St :=
  if negb (isVersionDeleter reg) then (O, [ApplyUnsupported], s)
  else applyItems ctx 0 plan 0 [] s.

End apply.

(** ** Lemmas *)

Section lemmas.
Context {U : UnicodeTables}.
Variable parseTime : string -> option Z.

Lemma planPackages_spec ctx reg pol now pkgs : forall i plan plan' err,
  planPackages parseTime ctx i reg pol now pkgs plan = (plan', err) ->
  exists k, plan' = plan ++ (take k pkgs ≫= planPackage parseTime reg pol now) /\
    (err = None -> k = length pkgs).
Proof.
  induction pkgs as [|p pkgs IH]; intros i plan plan' err; cbn [planPackages].
  { intros [= <- <-]. exists O. by rewrite app_nil_r. }
  destruct (ctx i) as [e|].
  { intros [= <- <-]. exists O. by rewrite app_nil_r. }
  intros (k & -> & Hk)%IH. exists (S k). cbn [take mbind list_bind length].
  split; [by rewrite app_assoc|]. intros E. by rewrite (Hk E).
Qed.

Lemma planPackage_elem reg pol now p it : it ∈ planPackage parseTime reg pol now p <->
  exists i v r, sortNewestFirst (pVersions p) !! i = Some v /\ it = item (pName p) v r /\
    verdict pol now
      (if (0 <? MaxVersionAgeDays pol) && (1 <? length (sortNewestFirst (pVersions p)))%nat
       then publishTimes parseTime reg (pName p) (tail (sortNewestFirst (pVersions p))) else ∅) i v
    = Some r.
Proof.
  unfold planPackage. cbv zeta. rewrite list_elem_of_In, in_concat. split.
  - intros (l & Hl & Hit). apply list_elem_of_In in Hl, Hit.
    apply elem_of_lookup_imap in Hl as (i & v & -> & Hi).
    destruct (verdict _ _ _ _ _) as [r|] eqn:E; [|by apply elem_of_nil in Hit].
    apply list_elem_of_singleton in Hit as ->. eauto 10.
  - intros (i & v & r & Hi & -> & Hr). eexists. rewrite <-!list_elem_of_In. split.
    + apply elem_of_lookup_imap. eauto.
    + rewrite Hr. apply list_elem_of_here.
Qed.

(** Only the last 106751 days fit in a duration. *)
Lemma maxAge_exact days now t : 0 <= days <= 106751 ->
  (maxAge days <? Sub now t) = (days * 86400000000000 <? now - t).
Proof.
  intros Hd. unfold maxAge, Sub, hour, int64_min, int64_max.
  rewrite (wrap64_id (days * 24)) by (unfold in64, int64_min, int64_max; lia).
  rewrite wrap64_id by (unfold in64, int64_min, int64_max; lia).
  destruct (Z.ltb_spec (days * 86400000000000) (now - t)); [apply Z.ltb_lt|apply Z.ltb_ge]; lia.
Qed.

Lemma keepByPattern_spec patterns v : keepByPattern patterns v = true <->
  exists p, p ∈ patterns /\ p <> "" /\ GoPath.matches p v = true.
Proof.
  unfold keepByPattern. rewrite existsb_exists. setoid_rewrite <-list_elem_of_In.
  split; intros (p & Hp & H); exists p.
  - apply andb_true_iff in H as [H1 H2]. by apply negb_true_iff, String.eqb_neq in H1.
  - destruct H as [Hne Hm]. by rewrite (proj2 (String.eqb_neq _ _) Hne).
Qed.

End lemmas.

(** ** What a policy retires *)

Section spec.
Context {U : UnicodeTables}.
Variable parseTime : string -> option Z.

(** The version at index [i] of the newest-first list of [p] is retired: it is
    not the newest, no pattern keeps it, and there are enough newer ones or it
    is known to be too old. *)
Definition retired (reg : RetentionRegistry) (pol : RegistryRetentionPolicy) (now : Z)
    (p : PackageSummary) (i : nat) (v : string) (r : RetentionReason) : Prop :=
  (1 <= i)%nat /\
  (forall pat, pat ∈ KeepPatterns pol -> pat <> "" -> GoPath.matches pat v = false) /\
  ((0 < KeepLastVersions pol <= Z.of_nat i /\ r = BeyondNewest (KeepLastVersions pol)) \/
   (~ (0 < KeepLastVersions pol <= Z.of_nat i) /\ 0 < MaxVersionAgeDays pol /\
    r = OlderThan (MaxVersionAgeDays pol) /\
    exists t, publishTimes parseTime reg (pName p) (tail (sortNewestFirst (pVersions p))) !! v
                = Some t /\
      MaxVersionAgeDays pol * 86400000000000 < now - t)).

Lemma keepByPattern_none patterns v : keepByPattern patterns v = false <->
  forall p, p ∈ patterns -> p <> "" -> GoPath.matches p v = false.
Proof.
  split.
  - intros H p Hp Hne. destruct (GoPath.matches p v) eqn:E; [|done].
    assert (Ht : keepByPattern patterns v = true) by (apply keepByPattern_spec; eauto). congruence.
  - intros H. destruct (keepByPattern patterns v) eqn:E; [|done].
    apply keepByPattern_spec in E as (p & Hp & Hne & Hm). by rewrite (H p Hp Hne) in Hm.
Qed.

Lemma old_verdict (times : gmap string Z) now days v r : days <= 106751 ->
  (if 0 <? days then
     match (if 0 <? days then times else ∅) !! v with
     | Some t => if maxAge days <? Sub now t then Some (OlderThan days) else None
     | None => None
     end
   else None) = Some r <->
  0 < days /\ r = OlderThan days /\
  exists t, times !! v = Some t /\ days * 86400000000000 < now - t.
Proof.
  intros Hmax. destruct (Z.ltb_spec 0 days) as [Hd|Hd]; [|split; [done|intros [? _]; lia]].
  destruct (times !! v) as [t|]; [|split; [done|by intros (_ & _ & t & ? & _)]].
  rewrite maxAge_exact by lia. destruct (Z.ltb_spec (days * 86400000000000) (now - t)).
  - split; [intros [= <-]; eauto|by intros (_ & -> & _)].
  - split; [done|]. intros (_ & _ & t' & [= <-] & ?). lia.
Qed.

Lemma verdict_retired reg pol now p i v r : MaxVersionAgeDays pol <= 106751 ->
  sortNewestFirst (pVersions p) !! i = Some v ->
  verdict pol now
    (if (0 <? MaxVersionAgeDays pol) && (1 <? length (sortNewestFirst (pVersions p)))%nat
     then publishTimes parseTime reg (pName p) (tail (sortNewestFirst (pVersions p))) else ∅) i v
  = Some r <-> retired reg pol now p i v r.
Proof.
  intros Hmax Hi. unfold verdict, retired. pose proof (keepByPattern_none (KeepPatterns pol) v) as Hk.
  destruct (Nat.eqb_spec i 0) as [->|Hi0]; cbn [orb]; [split; [done|intros [? _]; lia]|].
  pose proof (lookup_lt_Some _ _ _ Hi) as Hlen.
  rewrite (proj2 (Nat.ltb_lt 1 (length (sortNewestFirst (pVersions p))))) by lia. rewrite andb_true_r.
  destruct (keepByPattern _ v).
  { split; [done|]. intros (_ & Hno & _). by apply Hk in Hno. }
  assert (Hno := proj1 Hk eq_refl).
  destruct ((0 <? KeepLastVersions pol) && (KeepLastVersions pol <=? Z.of_nat i)) eqn:E.
  - bool_prop. split; [intros [= <-]; split_and!; [lia|done|by left]|].
    intros (_ & _ & [[_ ->]|[Hn _]]); [done|by destruct Hn].
  - assert (Hn : ~ (0 < KeepLastVersions pol <= Z.of_nat i)).
    { intros [H1 H2]. apply andb_false_iff in E as [E|E]; bool_prop; lia. }
    rewrite (old_verdict _ _ _ _ _ Hmax). split; [|intros (_ & _ & [[? _]|[_ ?]]); [by destruct Hn|done]].
    intros H. split_and!; [lia|done|by right].
Qed.

(** What is planned is retired, also in a run that was cancelled. *)
Lemma PlanRetention_sound ctx reg pol now plan err pkgs it :
  ListPackages reg = Some (Ok pkgs) -> MaxVersionAgeDays pol <= 106751 ->
  PlanRetention parseTime ctx reg pol now = (plan, err) -> it ∈ plan ->
  exists p i v r, p ∈ pkgs /\ sortNewestFirst (pVersions p) !! i = Some v /\
    it = item (pName p) v r /\ retired reg pol now p i v r.
Proof.
  intros Hl Hmax. unfold PlanRetention. rewrite Hl.
  destruct (negb _); [by intros [= <- <-] ?%elem_of_nil|].
  destruct (negb _); [by intros [= <- <-] ?%elem_of_nil|].
  destruct (_ && _); [by intros [= <- <-] ?%elem_of_nil|].
  intros Hp. apply planPackages_spec in Hp as (k & -> & _). cbn [app].
  rewrite list_elem_of_bind. intros (p & (i & v & r & Hi & -> & Hr)%planPackage_elem & Hin).
  exists p, i, v, r. split_and!; [|done..|by apply verdict_retired].
  by eapply (subseteq_take k).
Qed.

End spec.

(** ** Lemmas: deletions *)

Section deletions.
Context {St : Type}.
Variable DeleteVersion : string -> string -> St -> option RegistryError * St.

(** [has] is changed by a deletion at its own version at most. *)
Definition deletes_only (has : St -> string -> string -> Prop) : Prop :=
  forall name v s n' v', (n', v') <> (name, v) ->
    has (snd (DeleteVersion name v s)) n' v' <-> has s n' v'.

Lemma applyItems_frame has ctx n v plan : deletes_only has ->
  forall i deleted errs s, (forall r, item n v r ∉ plan) ->
  has (applyItems DeleteVersion ctx i plan deleted errs s).2 n v <-> has s n v.
Proof.
  intros Hd. induction plan as [|it plan IH]; intros i deleted errs s Hno; cbn [applyItems]; [done|].
  destruct (ctx i); [done|].
  pose proof (Hd (iName it) (iVersion it) s n v) as Hone.
  assert (Hne : (n, v) <> (iName it, iVersion it)).
  { intros [= -> ->]. apply (Hno (iReason it)). destruct it. apply list_elem_of_here. }
  specialize (Hone Hne).
  assert (Hrest : forall r, item n v r ∉ plan).
  { intros r Hin. apply (Hno r). by apply list_elem_of_further. }
  destruct (DeleteVersion _ _ s) as [[[|]|] s1]; cbn [snd] in Hone; by rewrite IH.
Qed.

Lemma applyItems_count ctx plan : forall i deleted errs s,
  let '(n, es, _) := applyItems DeleteVersion ctx i plan deleted errs s in
  (n + length es <= deleted + length errs + S (length plan))%nat /\ (deleted <= n)%nat.
Proof.
  induction plan as [|it plan IH]; intros i deleted errs s; cbn [applyItems length]; [lia|].
  destruct (ctx i) as [e|]; [rewrite length_app; cbn; lia|].
  destruct (DeleteVersion _ _ s) as [[[|]|] s1].
  - specialize (IH (S i) deleted errs s1). destruct (applyItems _ _ _ _ _ _ _) as [[n es] s2]. lia.
  - specialize (IH (S i) deleted (errs ++ [DeleteFailed (iName it) (iVersion it) (OtherError msg)]) s1).
    destruct (applyItems _ _ _ _ _ _ _) as [[n es] s2]. rewrite length_app in IH. cbn in IH. lia.
  - specialize (IH (S i) (S deleted) errs s1). destruct (applyItems _ _ _ _ _ _ _) as [[n es] s2]. lia.
Qed.

End deletions.

Lemma NoDup_name_eq (pkgs : list PackageSummary) p q : NoDup (pName <$> pkgs) -> p ∈ pkgs ->
  q ∈ pkgs -> pName p = pName q -> p = q.
Proof.
  intros Hnd [i Hi]%list_elem_of_lookup [j Hj]%list_elem_of_lookup E.
  assert (i = j); [|congruence].
  eapply NoDup_lookup; [exact Hnd|by rewrite list_lookup_fmap, Hi|].
  by rewrite list_lookup_fmap, Hj, E.
Qed.

(** ** Properties *)

(** the plan is exactly the versions the policy retires: never the newest of
    a package, never one that a pattern keeps, and every other one that is
    beyond the newest [KeepLastVersions] or known to be older than the age
    limit, if the limit fits in a duration. *)
Theorem PlanRetention_spec {U : UnicodeTables} parseTime ctx reg pol now plan pkgs :
  Kind reg = "local" -> ListPackages reg = Some (Ok pkgs) -> isVersionDeleter reg = true ->
  MaxVersionAgeDays pol <= 106751 ->
  PlanRetention parseTime ctx reg pol now = (plan, None) ->
  forall it, it ∈ plan <-> exists p i v r, p ∈ pkgs /\
    sortNewestFirst (pVersions p) !! i = Some v /\ it = item (pName p) v r /\
    retired parseTime reg pol now p i v r.
Proof.
  intros Hk Hl Hd Hmax. unfold PlanRetention. rewrite Hk, Hl, Hd, String.eqb_refl. cbn [negb].
  destruct (Z.leb_spec (KeepLastVersions pol) 0) as [H1|H1],
    (Z.leb_spec (MaxVersionAgeDays pol) 0) as [H2|H2]; cbn [andb].
  { intros [= <-] it. split; [by intros ?%elem_of_nil|].
    intros (p & i & v & r & _ & _ & _ & _ & _ & [[? _]|(_ & ? & _)]); lia. }
  all: intros Hp it; apply planPackages_spec in Hp as (k & -> & ->); [|done].
  all: rewrite take_ge by done; cbn [app]; rewrite list_elem_of_bind; split.
  all: try (intros (p & (i & v & r & Hi & -> & Hr)%planPackage_elem & Hin); exists p, i, v, r;
    split_and!; [done..|by apply verdict_retired]).
  all: intros (p & i & v & r & Hin & Hi & -> & Hr); exists p; split; [|done];
    apply planPackage_elem; exists i, v, r; split_and!; [done..|by apply verdict_retired].
Qed.

(** Three packages of one repository: the age of "app 1.0" is unknown. *)
Definition sample_repo : RetentionRegistry := {|
  Kind := "local";
  ListPackages := Some (Ok [{| pName := "app"; pVersions := ["1.0"; "2.0-rc1"; "2.0"; "1.5"] |};
                            {| pName := "lib"; pVersions := ["0.1"] |}]);
  isVersionDeleter := true; PackageDetail := None;
  ArtifactInfo := Some (fun name v => if String.eqb v "1.5" then Some 1000 else None);
|}.

Definition sample_retention : RegistryRetentionPolicy := {|
  GCMinAgeSeconds := 0; AbandonedUploadMaxAgeSeconds := 0; KeepLastVersions := 3;
  MaxVersionAgeDays := 30; KeepPatterns := ["*-rc*"];
|}.

Definition no_time (_ : string) : option Z := None.

(** 31 days after the zero time. *)
Definition sample_now : Z := 31 * 86400000000000 + 2000.

Definition sample_plan : RetentionPlan :=
  [item "app" "1.5" (OlderThan 30); item "app" "1.0" (BeyondNewest 3)].

Lemma PlanRetention_spec_witness :
  PlanRetention (U := asciiTables) no_time (fun _ => None) sample_repo sample_retention sample_now
    = (sample_plan, None) /\
  exists r, retired (U := asciiTables) no_time sample_repo sample_retention sample_now
    {| pName := "app"; pVersions := ["1.0"; "2.0-rc1"; "2.0"; "1.5"] |} 2 "1.5" r.
Proof.
  split; [by vm_compute|].
  destruct (proj1 (@PlanRetention_spec asciiTables no_time (fun _ => None) sample_repo
    sample_retention sample_now sample_plan
    [{| pName := "app"; pVersions := ["1.0"; "2.0-rc1"; "2.0"; "1.5"] |};
     {| pName := "lib"; pVersions := ["0.1"] |}] eq_refl eq_refl eq_refl ltac:(by vm_compute)
    ltac:(by vm_compute) (item "app" "1.5" (OlderThan 30))) ltac:(apply list_elem_of_here))
    as (p & i & v & r & Hin & Hi & Hit & Hr).
  exists r. injection Hit as En Ev Er. subst v.
  apply elem_of_cons in Hin as [->|Hin].
  - cbn [pVersions] in Hi. change (@sortNewestFirst asciiTables ["1.0"; "2.0-rc1"; "2.0"; "1.5"])
      with (@sortNewestFirst asciiTables ["1.0"; "2.0-rc1"; "2.0"; "1.5"]) in Hi.
    assert (Es : @sortNewestFirst asciiTables ["1.0"; "2.0-rc1"; "2.0"; "1.5"]
      = ["2.0"; "2.0-rc1"; "1.5"; "1.0"]) by by vm_compute.
    rewrite Es in Hi. destruct i as [|[|[|[|i]]]]; try discriminate Hi. exact Hr.
  - apply list_elem_of_singleton in Hin as ->. discriminate En.
Defined.

(** Retention, for a policy whose ages are below 106752 days (beyond, see
    [retention_age_overflow]) and a registry whose DeleteVersion touches no other
    version than its own, a hypothesis: whatever deletions answer and however the
    run is cut short, a version that the policy does not retire, the newest of
    every package among them, is there after the run when it was there before. *)
Theorem retention_keeps {U : UnicodeTables} {St} parseTime
    (DeleteVersion : string -> string -> St -> option RegistryError * St)
    (has : St -> string -> string -> Prop) ctx ctx' reg pol now pkgs s p i v :
  deletes_only DeleteVersion has -> ListPackages reg = Some (Ok pkgs) ->
  MaxVersionAgeDays pol <= 106751 -> NoDup (pName <$> pkgs) ->
  p ∈ pkgs -> NoDup (pVersions p) -> sortNewestFirst (pVersions p) !! i = Some v ->
  (i = O \/ forall r, ~ retired parseTime reg pol now p i v r) ->
  let plan := (PlanRetention parseTime ctx reg pol now).1 in
  let '(deleted, errs, s') := ApplyRetention DeleteVersion ctx' reg plan s in
  (has s' (pName p) v <-> has s (pName p) v) /\ (deleted + length errs <= S (length plan))%nat.
Proof.
  intros Hd Hl Hmax Hnd Hin Hvs Hi Hret plan.
  destruct (PlanRetention parseTime ctx reg pol now) as [plan' err] eqn:Ep. subst plan. cbn [fst].
  assert (Hno : forall r, item (pName p) v r ∉ plan').
  { intros r Hit.
    destruct (PlanRetention_sound parseTime ctx reg pol now plan' err pkgs _ Hl Hmax Ep Hit)
      as (q & j & w & r' & Hq & Hj & E & Hr).
    injection E as E1 E2 _. subst w.
    assert (q = p) as -> by (by eapply NoDup_name_eq).
    assert (Hs : NoDup (sortNewestFirst (pVersions p))) 
      by (unfold sortNewestFirst; by rewrite SliceStable_perm).
    assert (j = i) as -> by (by eapply NoDup_lookup).
    destruct Hret as [->|Hret]; [destruct Hr as [? _]; lia|by apply (Hret r')]. }
  unfold ApplyRetention. destruct (negb _); [cbn; split; [done|lia]|].
  pose proof (applyItems_frame DeleteVersion has ctx' (pName p) v plan' Hd 0 0 [] s Hno) as Hf.
  pose proof (applyItems_count DeleteVersion ctx' plan' 0 0 [] s) as Hc.
  destruct (applyItems _ _ _ _ _ _ _) as [[n es] s']. cbn [snd] in Hf. cbn [length] in Hc.
  split; [done|lia].
Qed.

(** A repository as the list of its versions. *)
Definition list_delete (name v : string) (l : list (string * string))
    : option RegistryError * list (string * string) :=
  if bool_decide ((name, v) ∈ l) then (None, filter (fun x => x <> (name, v)) l)
  else (Some ErrPackageNotFound, l).

Definition list_has (l : list (string * string)) (name v : string) : Prop := (name, v) ∈ l.

Lemma list_deletes_only : deletes_only list_delete list_has.
Proof.
  intros name v l n' v' Hne. unfold list_delete, list_has. case_bool_decide; [|done]. cbn [snd].
  rewrite list_elem_of_filter. naive_solver.
Qed.

Lemma retention_keeps_witness :
  let l := [("app", "1.0"); ("app", "2.0"); ("lib", "0.1")] in
  list_has (ApplyRetention list_delete (fun _ => None) sample_repo
    (PlanRetention (U := asciiTables) no_time (fun _ => None) sample_repo sample_retention
       sample_now).1 l).2 "app" "2.0".
Proof.
  intros l.
  pose proof (@retention_keeps asciiTables _ no_time list_delete list_has (fun _ => None)
    (fun _ => None) sample_repo sample_retention sample_now
    [{| pName := "app"; pVersions := ["1.0"; "2.0-rc1"; "2.0"; "1.5"] |};
     {| pName := "lib"; pVersions := ["0.1"] |}] l
    {| pName := "app"; pVersions := ["1.0"; "2.0-rc1"; "2.0"; "1.5"] |} 0 "2.0"
    list_deletes_only eq_refl ltac:(by vm_compute) ltac:(by apply (bool_decide_unpack _); vm_compute)
    ltac:(apply list_elem_of_here) ltac:(by apply (bool_decide_unpack _); vm_compute)
    ltac:(by vm_compute) (or_introl eq_refl)) as H.
  cbv zeta in H. destruct (ApplyRetention _ _ _ _ _) as [[n es] s']. cbn [snd].
  apply H, list_elem_of_further, list_elem_of_here.
Defined.

(** an age limit of more than 106751 days wraps around to a negative
    duration: with 106752 days a version published this instant is planned for
    deletion as too old. *)
Theorem retention_age_overflow :
  let pol := {| GCMinAgeSeconds := 0; AbandonedUploadMaxAgeSeconds := 0; KeepLastVersions := 0;
                MaxVersionAgeDays := 106752; KeepPatterns := [] |} in
  let reg := {| Kind := "local"; isVersionDeleter := true; PackageDetail := None;
                ListPackages := Some (Ok [{| pName := "app"; pVersions := ["1.1"; "1.0"] |}]);
                ArtifactInfo := Some (fun _ _ => Some 5000) |} in
  maxAge 106752 < 0 /\
  PlanRetention (U := asciiTables) no_time (fun _ => None) reg pol 5000
    = ([item "app" "1.0" (OlderThan 106752)], None).
Proof. by vm_compute. Qed.
