(* ===== verification/Virtual.v ===== *)
(** * internal/registry/virtualbase, pkgbase/virtual.go and gate.go: virtual registries

    A virtual registry answers from its members, looked up by name on every
    request and asked in their configured order, each behind the request gate.
    Members and the gate may change the state of the process: a call takes and
    returns a world [W].  Headers are lists in the order the map is ranged
    over, the order of a ranged set is the parameter [range].  The theorems:
    what a member that the gate denies would answer has no influence, the first
    hit and the line union are those of the answers of the admitted members,
    and the package list is the union of the members' lists. *)

From Stdlib Require Import ZArith Lia Ascii.
From stdpp Require Import base list strings gmap sorting.
From S2P Require Import Prelude GoStrings PkgVersion Retention.

Local Open Scope Z_scope.

(** ** Headers *)

Definition Header := list (string * list string).

(** The bytes of an HTTP token. *)
Definition token_byte (c : ascii) : bool :=
  is_upper c || is_lower c || is_digit c || ContainsByte "!#$%&'*+-.^_`|~" c.

Fixpoint canonical_go (s : string) (up : bool) : string :=
  match s with
  | "" => ""
  | String c s => String (if up then upper c else lower c) (canonical_go s (Ascii.eqb c "-"))
  end.

(** [http.CanonicalHeaderKey] *)
Definition CanonicalHeaderKey (h : string) : string :=
  if str_forallb token_byte h then canonical_go h true else h.

Definition hopByHop : list string :=
  ["Connection"; "Keep-Alive"; "Proxy-Authenticate"; "Proxy-Authorization"; "Te"; "Trailer";
   "Transfer-Encoding"; "Upgrade"].

Definition isHopByHop (h : string) : bool := bool_decide (CanonicalHeaderKey h ∈ hopByHop).

(** [Header.Add] *)
Fixpoint add_value (dst : Header) (k v : string) : Header :=
  match dst with
  | [] => [(k, [v])]
  | (k', vs) :: dst => if String.eqb k' k then (k', vs ++ [v]) :: dst else (k', vs) :: add_value dst k v
  end.

Definition Add (dst : Header) (k v : string) : Header := add_value dst (CanonicalHeaderKey k) v.

Definition CopyHeaders (dst src : Header) : Header :=
  foldl (fun dst '(k, vs) => if isHopByHop k then dst else foldl (fun dst v => Add dst k v) dst vs)
        dst src.

Record Response := { rCode : Z; rHeader : Header; rBody : string }.

(** ** internal/registry/registry.go: the registries of a virtual *)

Section virtual.
Context {Reg Req W : Type}.

(** The manager, the data plane of a registry, its optional interfaces, and
    the installed gate. *)
Variables (Lookup : W -> string -> string -> option Reg)
          (serve : Reg -> Req -> W -> Response * W)
          (gate : option (Reg -> Req -> W -> (Z * string * bool) * W))
          (method : Req -> string).

Record Base := { bNamespace : string; bName : string; memberNames : list string }.

(** [CheckGate] *)
Definition CheckGate (reg : Reg) (r : Req) (w : W) : (Z * string * bool) * W :=
  match gate with None => ((0, "", true), w) | Some g => g reg r w end.

(** [ForEachMember]: [fn] gets the member and the accumulator and says whether
    to stop. *)
Fixpoint forEach {A} (ns : string) (names : list string) (fn : Reg -> A -> W -> bool * A * W)
    (acc : A) (w : W) : A * W :=
  match names with
  | [] => (acc, w)
  | name :: names =>
      match Lookup w ns name with
      | None => forEach ns names fn acc w
      | Some reg =>
          let '(stop, acc, w) := fn reg acc w in
          if stop then (acc, w) else forEach ns names fn acc w
      end
  end.

Definition ForEachMember {A} (b : Base) (fn : Reg -> A -> W -> bool * A * W) (acc : A) (w : W)
    : A * W :=
  forEach (bNamespace b) (memberNames b) fn acc w.

Definition success (code : Z) : bool := (200 <=? code) && (code <? 300).

(** The response written over [w.Header()], None when no member had one. *)
Definition serve_member (hdr : Header) (r : Req) (reg : Reg) (acc : option Response) (w : W)
    : bool * option Response * W :=
  let '((_, _, ok), w) := CheckGate reg r w in
  if negb ok then (false, acc, w)
  else
    let '(rec, w) := serve reg r w in
    if success (rCode rec) then
      (true, Some {| rCode := rCode rec; rHeader := CopyHeaders hdr (rHeader rec);
                     rBody := rBody rec |}, w)
    else (false, acc, w).

Definition ServeFirstHit (b : Base) (hdr : Header) (r : Req) (w : W) : option Response * W :=
  ForEachMember b (serve_member hdr r) None w.

(** The bodies of the members that answer 200. *)
Definition collect_member (r : Req) (reg : Reg) (acc : list string) (w : W) : bool * list string * W :=
  let '((_, _, ok), w) := CheckGate reg r w in
  if negb ok then (false, acc, w)
  else
    let '(rec, w) := serve reg r w in
    (false, if rCode rec =? 200 then acc ++ [rBody rec] else acc, w).

Definition CollectMembers (b : Base) (r : Req) (w : W) : list string * W :=
  ForEachMember b (collect_member r) [] w.

Definition newline : ascii := "010"%char.

Definition add_line (acc : gset string * list string) (line : string) : gset string * list string :=
  let line := TrimSpace line in if String.eqb line "" then acc else push_new acc line.

Definition lines_member (r : Req) (reg : Reg) (acc : gset string * list string) (w : W)
    : bool * (gset string * list string) * W :=
  let '((_, _, ok), w) := CheckGate reg r w in
  if negb ok then (false, acc, w)
  else
    let '(rec, w) := serve reg r w in
    (false, if rCode rec =? 200 then foldl add_line acc (Split (rBody rec) newline) else acc, w).

Definition CollectListLines (b : Base) (r : Req) (w : W) : list string * W :=
  let '(acc, w) := ForEachMember b (lines_member r) (∅, []) w in (acc.2, w).

(** [pkgbase.Virtual.ServeHTTP]: None is the error response that is written. *)
Definition ServeHTTP (b : Base) (hdr : Header) (r : Req) (w : W) : (Z + Response) * W :=
  if negb (String.eqb (method r) "GET" || String.eqb (method r) "HEAD") then (inl 405, w)
  else match ServeFirstHit b hdr r w with
       | (Some resp, w) => (inr resp, w)
       | (None, w) => (inl 404, w)
       end.

(** [DelegatePackageDetail]: a member without the interface or with an error is
    passed over, and the first answer stops the search; a nil detail is no
    package. *)
Definition DelegatePackageDetail {D}
    (PackageDetail : Reg -> option (string -> W -> result string (option D) * W))
    (b : Base) (name : string) (w : W) : option D * W :=
  ForEachMember b (fun reg found w =>
    match PackageDetail reg with
    | None => (false, found, w)
    | Some pd => match pd name w with
                 | (Ok out, w) => (true, out, w)
                 | (Err _, w) => (false, found, w)
                 end
    end) None w.

(** ** The union of the package lists *)

Section packages.
Context {U : UnicodeTables}.
Variables (ListPackages : Reg -> option (W -> result string (list PackageSummary) * W))
          (range : gset string -> list string).

(** The versions by package, and the packages in the order they are met. *)
Definition merged : Type := gmap string (gset string) * list string.

Definition merge_summary (acc : merged) (p : PackageSummary) : merged :=
  let '(m, order) := acc in
  match m !! pName p with
  | Some set => (<[ pName p := list_to_set (pVersions p) ∪ set ]> m, order)
  | None => (<[ pName p := list_to_set (pVersions p) ]> m, order ++ [pName p])
  end.

Definition list_member (reg : Reg) (acc : merged) (w : W) : bool * merged * W :=
  match ListPackages reg with
  | None => (false, acc, w)
  | Some l => match l w with
              | (Ok pkgs, w) => (false, foldl merge_summary acc pkgs, w)
              | (Err _, w) => (false, acc, w)
              end
  end.

Definition summary_of (m : gmap string (gset string)) (name : string) : PackageSummary :=
  {| pName := name; pVersions := SortVersions (range (default ∅ (m !! name))) |}.

Definition VirtualListPackages (b : Base) (w : W) : list PackageSummary * W :=
  let '((m, order), w) := ForEachMember b list_member (∅, []) w in (summary_of m <$> order, w).

End packages.

(** ** Reference definitions *)

(** The responses of the members that the gate admits, in order. *)
Fixpoint answers (ns : string) (names : list string) (r : Req) (w : W) : list Response * W :=
  match names with
  | [] => ([], w)
  | name :: names =>
      match Lookup w ns name with
      | None => answers ns names r w
      | Some reg =>
          let '((_, _, ok), w) := CheckGate reg r w in
          if negb ok then answers ns names r w
          else let '(rec, w) := serve reg r w in
               let '(l, w) := answers ns names r w in (rec :: l, w)
      end
  end.

(** The bodies of the 200 responses, and their lines. *)
Definition bodies (l : list Response) : list string :=
  rBody <$> filter (fun rec => rCode rec = 200) l.

Definition lines (l : list Response) : list string :=
  filter (fun x => x <> "") (TrimSpace <$> (bodies l ≫= fun body => Split body newline)).

(** ** Lemmas *)

Lemma bodies_cons rec l : bodies (rec :: l) = (if rCode rec =? 200 then [rBody rec] else []) ++ bodies l.
Proof.
  unfold bodies. rewrite filter_cons. destruct (Z.eqb_spec (rCode rec) 200).
  - by rewrite decide_True.
  - by rewrite decide_False.
Qed.

Lemma CollectMembers_go ns names r : forall acc w,
  forEach ns names (collect_member r) acc w
  = (acc ++ bodies (answers ns names r w).1, (answers ns names r w).2).
Proof.
  induction names as [|name names IH]; intros acc w; cbn [forEach answers]; [by rewrite app_nil_r|].
  destruct (Lookup w ns name) as [reg|]; [|apply IH]. unfold collect_member.
  destruct (CheckGate reg r w) as [[[st msg] ok] w1]. destruct ok; cbn [negb]; [|apply IH].
  destruct (serve reg r w1) as [rec w2]. rewrite IH.
  destruct (answers ns names r w2) as [l w3]. cbn [fst snd]. rewrite bodies_cons.
  destruct (rCode rec =? 200); cbn [app]; by rewrite <-?app_assoc.
Qed.

Lemma add_lines body : forall acc, foldl add_line acc body
  = push_all acc (filter (fun x => x <> "") (TrimSpace <$> body)).
Proof.
  induction body as [|x body IH]; intros acc; [done|]. cbn [foldl fmap list_fmap].
  rewrite IH, filter_cons. unfold add_line. destruct (String.eqb_spec (TrimSpace x) "") as [->|Hne].
  - rewrite decide_False; [done|]. intros H. by apply H.
  - by rewrite decide_True.
Qed.

Lemma lines_cons rec l : lines (rec :: l) =
  (if rCode rec =? 200 then filter (fun x => x <> "") (TrimSpace <$> Split (rBody rec) newline) else [])
  ++ lines l.
Proof.
  unfold lines. rewrite bodies_cons. destruct (rCode rec =? 200); [|done].
  cbn [app mbind list_bind]. by rewrite fmap_app, filter_app.
Qed.

Lemma CollectListLines_go ns names r : forall acc w,
  forEach ns names (lines_member r) acc w
  = (push_all acc (lines (answers ns names r w).1), (answers ns names r w).2).
Proof.
  induction names as [|name names IH]; intros acc w; cbn [forEach answers]; [done|].
  destruct (Lookup w ns name) as [reg|]; [|apply IH]. unfold lines_member.
  destruct (CheckGate reg r w) as [[[st msg] ok] w1]. destruct ok; cbn [negb]; [|apply IH].
  destruct (serve reg r w1) as [rec w2]. rewrite IH.
  destruct (answers ns names r w2) as [l w3]. cbn [fst snd]. rewrite lines_cons, push_all_app.
  destruct (rCode rec =? 200); [by rewrite add_lines|done].
Qed.

End virtual.

(** ** Lemmas: headers *)

Lemma token_byte_case c : token_byte (upper c) = token_byte c /\ token_byte (lower c) = token_byte c.
Proof. by destruct c as [[] [] [] [] [] [] [] []]; vm_compute. Qed.

Lemma case_idem c : upper (upper c) = upper c /\ lower (lower c) = lower c /\
  Ascii.eqb (upper c) "-" = Ascii.eqb c "-" /\ Ascii.eqb (lower c) "-" = Ascii.eqb c "-".
Proof. by destruct c as [[] [] [] [] [] [] [] []]; vm_compute. Qed.

Lemma canonical_go_idem s : forall up, canonical_go (canonical_go s up) up = canonical_go s up.
Proof.
  induction s as [|c s IH]; intros up; cbn [canonical_go]; [done|].
  destruct (case_idem c) as (Hu & Hl & Eu & El).
  destruct up; [rewrite Hu, Eu|rewrite Hl, El]; by rewrite IH.
Qed.

Lemma canonical_go_token s : forall up, str_forallb token_byte (canonical_go s up)
  = str_forallb token_byte s.
Proof.
  induction s as [|c s IH]; intros up; cbn [canonical_go str_forallb]; [done|].
  destruct (token_byte_case c) as [Hu Hl]. rewrite IH. by destruct up; [rewrite Hu|rewrite Hl].
Qed.

Lemma CanonicalHeaderKey_idem h : CanonicalHeaderKey (CanonicalHeaderKey h) = CanonicalHeaderKey h.
Proof.
  unfold CanonicalHeaderKey. destruct (str_forallb token_byte h) eqn:E; [|by rewrite E].
  by rewrite canonical_go_token, E, canonical_go_idem.
Qed.

Definition no_hop (h : Header) : Prop := forall k vs, (k, vs) ∈ h -> isHopByHop k = false.

Lemma add_value_keys dst k v k' vs : (k', vs) ∈ add_value dst k v -> k' = k \/ exists vs', (k', vs') ∈ dst.
Proof.
  induction dst as [|[k0 vs0] dst IH]; cbn [add_value].
  - intros [= -> _]%list_elem_of_singleton. by left.
  - destruct (String.eqb_spec k0 k) as [->|_].
    + intros [[= -> _]|?]%elem_of_cons; [by left|]. right. eexists. by apply list_elem_of_further.
    + intros [[= -> _]|?]%elem_of_cons; [right; eexists; apply list_elem_of_here|].
      destruct (IH H) as [?|[vs' ?]]; [by left|right; eexists; by apply list_elem_of_further].
Qed.

Lemma CopyHeaders_no_hop dst src : no_hop dst -> no_hop (CopyHeaders dst src).
Proof.
  unfold CopyHeaders. revert dst. induction src as [|[k vs] src IH]; intros dst Hd; [done|].
  cbn [foldl]. apply IH. destruct (isHopByHop k) eqn:E; [done|].
  revert dst Hd. induction vs as [|v vs IHv]; intros dst Hd; [done|]. cbn [foldl]. apply IHv.
  intros k' vs' [->|[vs2 H]]%add_value_keys; [|by eapply Hd].
  unfold isHopByHop in *. by rewrite CanonicalHeaderKey_idem.
Qed.

(** ** Lemmas: the loop over the members *)

Section loop.
Context {Reg W : Type}.
Variable Lookup : W -> string -> string -> option Reg.

Lemma forEach_ext {A} (fn fn' : Reg -> A -> W -> bool * A * W) ns names :
  (forall reg acc w, fn reg acc w = fn' reg acc w) -> forall acc w,
  forEach Lookup ns names fn acc w = forEach Lookup ns names fn' acc w.
Proof.
  intros Hfn. induction names as [|name names IH]; intros acc w; cbn [forEach]; [done|].
  destruct (Lookup w ns name) as [reg|]; [|done]. rewrite Hfn.
  destruct (fn' reg acc w) as [[[] acc'] w']; [done|apply IH].
Qed.

(** What every step of the loop keeps, the loop keeps. *)
Lemma forEach_ind {A} (P : A -> Prop) (fn : Reg -> A -> W -> bool * A * W) ns names :
  (forall reg acc w, P acc -> P (fn reg acc w).1.2) -> forall acc w,
  P acc -> P (forEach Lookup ns names fn acc w).1.
Proof.
  intros Hfn. induction names as [|name names IH]; intros acc w Hp; cbn [forEach]; [done|].
  destruct (Lookup w ns name) as [reg|]; [|by apply IH].
  specialize (Hfn reg acc w Hp). destruct (fn reg acc w) as [[[] acc'] w']; [done|by apply IH].
Qed.

End loop.

(** ** Lemmas: the union *)

Section union.
Context {U : UnicodeTables} {Reg W : Type}.

Variables (Lookup : W -> string -> string -> option Reg)
          (ListPackages : Reg -> option (W -> result string (list PackageSummary) * W))
          (range : gset string -> list string).

(** The summaries of the members that list, in order. *)
Fixpoint listed (ns : string) (names : list string) (w : W) : list PackageSummary :=
  match names with
  | [] => []
  | name :: names =>
      match Lookup w ns name with
      | None => listed ns names w
      | Some reg =>
          match ListPackages reg with
          | None => listed ns names w
          | Some l => match l w with
                      | (Ok pkgs, w) => pkgs ++ listed ns names w
                      | (Err _, w) => listed ns names w
                      end
          end
      end
  end.

Lemma list_members_go ns names : forall acc w,
  (forEach Lookup ns names (list_member ListPackages) acc w).1
  = foldl merge_summary acc (listed ns names w).
Proof.
  induction names as [|name names IH]; intros acc w; cbn [forEach listed]; [done|].
  destruct (Lookup w ns name) as [reg|]; [|apply IH]. unfold list_member.
  destruct (ListPackages reg) as [l|]; [|apply IH].
  destruct (l w) as [[pkgs|e] w']; rewrite IH; [by rewrite foldl_app|done].
Qed.

End union.

(** What the merge has seen of [ps]. *)
Record merge_ok (acc : merged) (ps : list PackageSummary) : Prop := {
  mo_order : acc.2 = dedup (pName <$> ps);
  mo_names name : is_Some (acc.1 !! name) <-> name ∈ pName <$> ps;
  mo_versions name set v : acc.1 !! name = Some set ->
    v ∈ set <-> exists p, p ∈ ps /\ pName p = name /\ v ∈ pVersions p;
}.

Lemma dedup_snoc (l : list string) x : dedup (l ++ [x]) = if bool_decide (x ∈ l) then dedup l else dedup l ++ [x].
Proof.
  unfold dedup. rewrite push_all_app. cbn [push_all foldl]. unfold push_new at 1.
  pose proof (push_all_wf (∅, []) l empty_wf) as [_ Hset].
  assert (E : x ∈ (push_all (∅, []) l).1 <-> x ∈ l).
  { rewrite Hset, elem_of_list_to_set, push_all_elem by apply empty_wf. set_solver. }
  by rewrite (bool_decide_ext _ _ E); destruct (bool_decide (x ∈ l)).
Qed.

Lemma merge_summary_ok acc ps p : merge_ok acc ps -> merge_ok (merge_summary acc p) (ps ++ [p]).
Proof.
  intros [Ho Hn Hv]. destruct acc as [m order]. cbn [fst snd] in *. unfold merge_summary.
  pose proof (Hn (pName p)) as Hp.
  assert (Ed : bool_decide (pName p ∈ pName <$> ps) = is_some (m !! pName p)).
  { destruct (m !! pName p) as [set|]; cbn [is_some]; [apply bool_decide_true|apply bool_decide_false];
      rewrite <-Hp; [done|by intros []]. }
  assert (Hmap : pName <$> ps ++ [p] = (pName <$> ps) ++ [pName p]) by (by rewrite fmap_app).
  split; rewrite ?Hmap, ?dedup_snoc, ?Ed.
  - destruct (m !! pName p); cbn [snd is_some]; [done|by rewrite Ho].
  - intros name. rewrite elem_of_app, list_elem_of_singleton, <-Hn.
    destruct (m !! pName p) as [set|] eqn:E; cbn [fst];
      (destruct (decide (pName p = name)) as [<-|Hne];
        [rewrite lookup_insert_eq; naive_solver|rewrite lookup_insert_ne by done; naive_solver]).
  - intros name set v. destruct (m !! pName p) as [old|] eqn:E; cbn [fst];
      (destruct (decide (pName p = name)) as [<-|Hne];
        [rewrite lookup_insert_eq; intros [= <-]|rewrite lookup_insert_ne by done; intros Hs]).
    + rewrite elem_of_union, elem_of_list_to_set, (Hv _ _ v E). setoid_rewrite elem_of_app.
      setoid_rewrite list_elem_of_singleton. naive_solver.
    + rewrite (Hv name set v Hs). setoid_rewrite elem_of_app.
      setoid_rewrite list_elem_of_singleton. naive_solver.
    + rewrite elem_of_list_to_set. setoid_rewrite elem_of_app.
      setoid_rewrite list_elem_of_singleton. split; [by eauto|].
      intros (q & [Hq| ->] & Eq & Hvq); [|done]. exfalso.
      assert (is_Some (m !! pName p)) as [? ?]; [|congruence].
      apply Hn. rewrite <-Eq. by apply list_elem_of_fmap_2.
    + rewrite (Hv name set v Hs). setoid_rewrite elem_of_app.
      setoid_rewrite list_elem_of_singleton. naive_solver.
Qed.

Lemma merge_all_ok ps : merge_ok (foldl merge_summary (∅, []) ps) ps.
Proof.
  induction ps as [|p ps IH] using rev_ind.
  - split; cbn; [done| |]; [intros name; rewrite lookup_empty; split; [by intros []|by intros ?%elem_of_nil]|].
    intros name set v. by rewrite lookup_empty.
  - rewrite foldl_app. by apply merge_summary_ok.
Qed.

Lemma SortVersions_Sorted {U : UnicodeTables} vs :
  StronglySorted (fun a b => CompareVersions a b <= 0) (SortVersions vs).
Proof.
  assert (Hall : Forall (fun _ : string => True) vs) by (by apply Forall_forall).
  pose proof (SliceStable_Sorted (fun a b => CompareVersions a b <? 0) (fun _ => True) vs
    (Comparator_less _ _ _) Hall) as H. unfold SortVersions.
  induction H as [|x l Hs IH Hx]; constructor; [done|].
  eapply Forall_impl; [exact Hx|]. intros y Hy%Z.ltb_ge.
  pose proof (cmp_antisym (cmp := CompareVersions) (P := fun _ => True) x y I I). lia.
Qed.

(** ** Properties *)

(** the gate cannot be bypassed through a virtual registry: two processes
    whose registries answer alike wherever the gate admits the request give the
    same first hit, the same member bodies and the same lines; what a denied
    member would answer, or do, has no influence. *)
Theorem gate_noninterference {Reg Req W} (Lookup : W -> string -> string -> option Reg)
    (serve serve' : Reg -> Req -> W -> Response * W) gate b hdr (r : Req) w :
  (forall reg w st msg w1, CheckGate gate reg r w = ((st, msg, true), w1) ->
     serve reg r w1 = serve' reg r w1) ->
  ServeFirstHit Lookup serve gate b hdr r w = ServeFirstHit Lookup serve' gate b hdr r w /\
  CollectMembers Lookup serve gate b r w = CollectMembers Lookup serve' gate b r w /\
  CollectListLines Lookup serve gate b r w = CollectListLines Lookup serve' gate b r w.
Proof.
  intros Hs. unfold ServeFirstHit, CollectMembers, CollectListLines, ForEachMember.
  split_and!; [| |f_equal]; try apply forEach_ext; try (erewrite forEach_ext; [done|]);
    intros reg acc w0; unfold serve_member, collect_member, lines_member;
    destruct (CheckGate gate reg r w0) as [[[st msg] []] w1] eqn:E; cbn [negb]; try done;
    by rewrite (Hs reg w0 st msg w1 E).
Qed.

(** A process of two registries, "blocked" and "open", that answer their name. *)
Definition demo_lookup (w : list string) (ns name : string) : option string :=
  if String.eqb name "gone" then None else Some name.

Definition demo_serve (reg : string) (r : unit) (w : list string) : Response * list string :=
  ({| rCode := 200; rHeader := [("Content-Type", ["text/plain"]); ("connection", ["close"])];
      rBody := reg |}, w ++ [reg]).

Definition demo_gate (reg : string) (r : unit) (w : list string) : (Z * string * bool) * list string :=
  (if String.eqb reg "blocked" then (403, "policy", false) else (0, "", true), w).

Definition demo : Base :=
  {| bNamespace := "team"; bName := "all"; memberNames := ["gone"; "blocked"; "open"; "late"] |}.

(** The registry "blocked" answers something else. *)
Definition evil_serve (reg : string) (r : unit) (w : list string) : Response * list string :=
  if String.eqb reg "blocked" then ({| rCode := 200; rHeader := []; rBody := "evil" |}, [])
  else demo_serve reg r w.

Lemma gate_noninterference_witness :
  ServeFirstHit demo_lookup evil_serve (Some demo_gate) demo [] tt []
  = (Some {| rCode := 200; rHeader := [("Content-Type", ["text/plain"])]; rBody := "open" |}, ["open"]).
Proof.
  transitivity (ServeFirstHit demo_lookup demo_serve (Some demo_gate) demo [] tt []);
    [|by vm_compute].
  apply gate_noninterference. intros reg w st msg w1. unfold CheckGate, demo_gate, evil_serve.
  by destruct (String.eqb reg "blocked").
Defined.

(** first hit: when members and gate do not change what they look up and
    answer, the response is that of the first member in the configured order
    that exists, that the gate admits and that answers 2xx, without its
    hop-by-hop headers; the rest is not asked. *)
Theorem ServeFirstHit_spec {Reg Req W} (Lookup : W -> string -> string -> option Reg)
    (serve : Reg -> Req -> W -> Response * W) gate b hdr (r : Req) w
    (look : string -> option Reg) (admits : Reg -> bool) (answer : Reg -> Response) :
  (forall w name, Lookup w (bNamespace b) name = look name) ->
  (forall reg w, (CheckGate gate reg r w).1.2 = admits reg) ->
  (forall reg w, (serve reg r w).1 = answer reg) ->
  (ServeFirstHit Lookup serve gate b hdr r w).1 =
    (fun reg => {| rCode := rCode (answer reg); rHeader := CopyHeaders hdr (rHeader (answer reg));
                   rBody := rBody (answer reg) |}) <$>
    List.find (fun reg => admits reg && success (rCode (answer reg))) (omap look (memberNames b)) /\
  (no_hop hdr -> forall resp, (ServeFirstHit Lookup serve gate b hdr r w).1 = Some resp ->
     no_hop (rHeader resp)).
Proof.
  intros Hl Hg Ha. unfold ServeFirstHit, ForEachMember. split.
  - revert w. induction (memberNames b) as [|name names IH]; intros w; cbn [forEach omap list_omap];
      [done|].
    rewrite Hl. destruct (look name) as [reg|]; [|apply IH]. cbn [List.find].
    unfold serve_member at 1. specialize (Hg reg w).
    destruct (CheckGate gate reg r w) as [[[st msg] ok] w1]. cbn [fst snd] in Hg. subst ok.
    destruct (admits reg); cbn [negb andb]; [|apply IH].
    specialize (Ha reg w1). destruct (serve reg r w1) as [rec w2]. cbn [fst] in Ha. subst rec.
    destruct (success (rCode (answer reg))); [done|apply IH].
  - intros Hh resp. set (P := fun o : option Response => forall x, o = Some x -> no_hop (rHeader x)).
    apply (forEach_ind Lookup P); [|by intros ?]. intros reg acc w0 Hacc. unfold serve_member.
    destruct (CheckGate gate reg r w0) as [[[st msg] ok] w1]. destruct ok; cbn [negb]; [|done].
    destruct (serve reg r w1) as [rec w2]. destruct (success (rCode rec)); [|done].
    cbn [fst snd]. intros x [= <-]. by apply CopyHeaders_no_hop.
Qed.

Lemma ServeFirstHit_spec_witness :
  (ServeFirstHit demo_lookup demo_serve (Some demo_gate) demo [] tt []).1
  = Some {| rCode := 200; rHeader := [("Content-Type", ["text/plain"])]; rBody := "open" |}.
Proof.
  etransitivity; [apply (ServeFirstHit_spec demo_lookup demo_serve (Some demo_gate) demo [] tt []
    (fun name => if String.eqb name "gone" then None else Some name)
    (fun reg => negb (String.eqb reg "blocked"))
    (fun reg => (demo_serve reg tt []).1)); try done|by vm_compute].
  intros reg w. cbn. by destruct (String.eqb reg "blocked").
Defined.

(** the collected lines are the first occurrences, in order, of the
    non-empty trimmed lines of the 200 answers of the admitted members; no line
    is repeated.  The collected bodies are those answers' bodies. *)
Theorem CollectListLines_spec {Reg Req W} (Lookup : W -> string -> string -> option Reg)
    (serve : Reg -> Req -> W -> Response * W) gate b (r : Req) w :
  let '(l, w') := answers Lookup serve gate (bNamespace b) (memberNames b) r w in
  CollectListLines Lookup serve gate b r w = (dedup (lines l), w') /\
  CollectMembers Lookup serve gate b r w = (bodies l, w') /\
  NoDup (dedup (lines l)) /\ (forall x, x ∈ dedup (lines l) <-> x ∈ lines l).
Proof.
  unfold CollectListLines, CollectMembers, ForEachMember.
  rewrite CollectListLines_go, CollectMembers_go.
  destruct (answers _ _ _ _ _ _ _) as [l w']. cbn [fst snd app].
  split_and!; [done|done|apply dedup_NoDup|]. intros x. unfold dedup.
  rewrite push_all_elem by apply empty_wf. cbn [snd]. set_solver.
Qed.

(** the package list of a virtual registry is the union of its members'
    lists: every package once, in the order it is first met, with every version
    a member lists for it, once, oldest first. *)
Theorem VirtualListPackages_spec {U : UnicodeTables} {Reg W}
    (Lookup : W -> string -> string -> option Reg) ListPackages range b (w : W) :
  (forall X : gset string, range X ≡ₚ elements X) ->
  let ps := listed Lookup ListPackages (bNamespace b) (memberNames b) w in
  let out := (VirtualListPackages Lookup ListPackages range b w).1 in
  pName <$> out = dedup (pName <$> ps) /\
  forall s, s ∈ out ->
    NoDup (pVersions s) /\ StronglySorted (fun a b => CompareVersions a b <= 0) (pVersions s) /\
    forall v, v ∈ pVersions s <-> exists p, p ∈ ps /\ pName p = pName s /\ v ∈ pVersions p.
Proof.
  intros Hr ps out. subst out. unfold VirtualListPackages, ForEachMember.
  pose proof (list_members_go Lookup ListPackages (bNamespace b) (memberNames b) (∅, []) w) as Hgo.
  destruct (forEach _ _ _ _ _ _) as [[m order] w']. cbn [fst] in Hgo |- *.
  pose proof (merge_all_ok ps) as Hok. fold ps in Hgo. rewrite <-Hgo in Hok.
  destruct Hok as [Ho Hn Hv]. cbn [fst snd] in *. split.
  - rewrite <-Ho, <-list_fmap_compose. apply list_fmap_id.
  - intros s (name & -> & Hin)%list_elem_of_fmap. cbn [pName pVersions summary_of].
    assert (Hps : name ∈ pName <$> ps).
    { rewrite Ho in Hin. unfold dedup in Hin. rewrite push_all_elem in Hin by apply empty_wf.
      by destruct Hin as [?%elem_of_nil|]. }
    apply Hn in Hps as [set Hset]. rewrite Hset. cbn [default].
    assert (Hp : SortVersions (range set) ≡ₚ elements set)
      by (unfold SortVersions; by rewrite SliceStable_perm).
    split_and!; [rewrite Hp; apply NoDup_elements|apply SortVersions_Sorted|].
    intros v. rewrite Hp, elem_of_elements. by apply Hv.
Qed.

Lemma VirtualListPackages_spec_witness :
  pName <$> (VirtualListPackages (U := asciiTables) demo_lookup
    (fun reg => Some (fun w => (Ok [{| pName := reg; pVersions := ["1.0"] |};
                                     {| pName := "shared"; pVersions := [reg; "1.0"] |}], w)))
    (fun X => elements X) demo []).1 = ["blocked"; "shared"; "open"; "late"].
Proof.
  etransitivity; [apply (@VirtualListPackages_spec asciiTables)|]; [done|by vm_compute].
Defined.
