(* ===== verification/RubyGemsRemote.v ===== *)
(** * internal/registry/rubygems: remote and virtual repositories (remote.go, virtual.go)

    A remote keeps what it fetches: small documents through [FetchCached], large
    ones through a temporary file with a sidecar that holds their hashes.  A
    virtual merges the compact indexes of its members.  The upstream client, the
    temporary file and the layout of times are parameters; Range headers are not
    modelled. *)

From Stdlib Require Import ZArith Lia Ascii.
From stdpp Require Import base list strings gmap.
From S2P Require Import Prelude GoStrings GoPath GoHash GoBase64 GoJson RubyMarshal PkgVersion Backend PkgStore Virtual RubyGems.

Local Open Scope Z_scope.
Local Open Scope kutu_scope.

(** ** Info lines *)

Definition info_dependency (d : string) : option Dependency :=
  let '(dn, dr, ok) := Cut (TrimSpace d) ":" in
  if ok && negb (String.eqb dn "") then Some {| dName := dn; dRequirements := Split dr "&"; dType := "runtime" |} else None.

(** The fields after the bar. *)
Record Fields3 := { fChecksum : string; fRuby : list string; fRubygems : list string }.

Definition set_field3 (f : Fields3) (kv : string) : Fields3 :=
  let '(k, v, _) := Cut (TrimSpace kv) ":" in
  if String.eqb k "checksum" then {| fChecksum := v; fRuby := fRuby f; fRubygems := fRubygems f |}
  else if String.eqb k "ruby" then {| fChecksum := fChecksum f; fRuby := Split v "&"; fRubygems := fRubygems f |}
  else if String.eqb k "rubygems" then {| fChecksum := fChecksum f; fRuby := fRuby f; fRubygems := Split v "&" |}
  else f.

(** A stub of the metadata; its other fields are zero. *)
Definition info_stub (name version plat : string) (deps : list Dependency) (f : Fields3) : GemMeta :=
  {| gName := name; gVersion := version; gPlatform := plat; Summary := ""; Description := ""; Homepage := ""; Authors := [];
     Email := []; Licenses := []; Metadata := ∅; Dependencies := deps; RequiredRuby := fRuby f; RequiredRubygems := fRubygems f;
     RubygemsVersion := ""; SHA256 := fChecksum f; gSize := 0; CreatedAt := zero_time |}.

Definition meta_of_line (name line : string) : option GemMeta :=
  let '(tok, rest, _) := Cut line " " in
  if String.eqb tok "" then None
  else
    let '(version, plat, _) := Cut tok "-" in
    let '(deps, reqs, _) := Cut rest "|" in
    Some (info_stub name version plat (omap info_dependency (Split deps ","))
            (foldl set_field3 {| fChecksum := ""; fRuby := []; fRubygems := [] |} (Split reqs ","))).

(** ** Merging *)

Definition line_token (line : string) : string := (Cut line " ").1.1.

(** The first line of each token. *)
Definition add_info_line (acc : gset string * list string) (line : string) : gset string * list string :=
  let tok := line_token line in
  if String.eqb tok "" || bool_decide (tok ∈ acc.1) then acc else ({[tok]} ∪ acc.1, acc.2 ++ [line]).

Definition mergeInfo (bodies : list string) : string :=
  "---" +:+ RubyGems.newline +:+ RubyGems.lines (foldl add_info_line (∅, []) (bodies ≫= infoLines)).2.

(** [strings.Fields]; [cur] is the reversed field before. *)
Definition flush (cur : string) (l : list string) : list string := if String.eqb cur "" then l else str_rev cur :: l.

Fixpoint fields_from (s cur : string) : list string :=
  match s with
  | "" => flush cur []
  | String a s1 =>
      if ascii_space a then flush cur (fields_from s1 "") else
      match s1 with
      | "" => flush (String a cur) []
      | String b s2 =>
          if space2 a b then flush cur (fields_from s2 "") else
          match s2 with
          | "" => fields_from s1 (String a cur)
          | String c s3 => if space3 a b c then flush cur (fields_from s3 "") else fields_from s1 (String a cur)
          end
      end
  end.

Definition removeToken (l : list string) (tok : string) : list string := List.filter (fun t => negb (String.eqb t tok)) l.

Definition add_token (vs : list string) (tok : string) : list string :=
  match tok with
  | String "-" t => removeToken vs t
  | "" => vs
  | _ => vs ++ [tok]
  end.

(** A member's /versions: the versions and the hash by name, and the names in the
    order they are met. *)
Record VersionsFile := { vInto : gmap string (list string); vMd5s : gmap string string; vOrder : list string }.

Definition add_versions_line (f : VersionsFile) (line : string) : VersionsFile :=
  match fields_from line "" with
  | name :: toks :: rest =>
      let old := default [] (vInto f !! name) in
      {| vInto := <[ name := foldl add_token old (Split toks ",") ]> (vInto f);
         vMd5s := match rest with md5 :: _ => <[ name := md5 ]> (vMd5s f) | [] => vMd5s f end;
         vOrder := if vInto f !! name then vOrder f else vOrder f ++ [name] |}
  | _ => f
  end.

(** The lines after the header, none without one. *)
Definition body_lines (b : string) : list string :=
  match after_header (Split b (chr 10)) with
  | Some l => (fun x => TrimRight x (String (chr 13) "")) <$> l
  | None => []
  end.

Definition parseVersionsFile (b : string) : VersionsFile :=
  foldl add_versions_line {| vInto := ∅; vMd5s := ∅; vOrder := [] |} (body_lines b).

Definition versions_of (f : VersionsFile) (n : string) : list string := default [] (vInto f !! n).

Definition has_versions (f : VersionsFile) (n : string) : bool := match versions_of f n with [] => false | _ => true end.

(** The names of all members, in the order they are first met with a version. *)
Definition all_names (fs : list VersionsFile) : list string :=
  foldl (fun acc n => if bool_decide (n ∈ acc) then acc else acc ++ [n]) []
    (fs ≫= fun f => List.filter (has_versions f) (vOrder f)).

(** /names: here the lines are trimmed of all space before the header is looked for. *)
Fixpoint after_dashes (l : list string) : list string :=
  match l with [] => [] | x :: l => if String.eqb x "---" then l else after_dashes l end.

Definition add_name (acc : list string) (line : string) : list string :=
  if String.eqb line "" || bool_decide (line ∈ acc) then acc else acc ++ [line].

Section virtual.
Context {Reg W : Type}.
Variables (Lookup : W -> string -> string -> option Reg) (serve : Reg -> Request -> W -> Response * W)
          (gate : option (Reg -> Request -> W -> (Z * string * bool) * W)).

(** The request that goes to the members. *)
Definition plain (r : Request) : Request :=
  {| Method := "GET"; Path := Path r; Body := Body r; Query := Query r; Basic := Basic r; Authorization := Authorization r;
     IfNoneMatch := ""; PublicBase := PublicBase r |}.

Definition info_request (r : Request) (n : string) : Request :=
  {| Method := Method r; Path := "/info/" +:+ n; Body := Body r; Query := []; Basic := Basic r; Authorization := Authorization r;
     IfNoneMatch := IfNoneMatch r; PublicBase := PublicBase r |}.

Definition collect (b : Base) (r : Request) (w : W) : list string * W := CollectMembers Lookup serve gate b (plain r) w.

(** The entry of a name: the one member's own, or that of the merged /info. *)
Definition merged_entry (b : Base) (r : Request) (fs : list VersionsFile) (n : string) (w : W)
    : option (string * (list string * string)) * W :=
  match List.filter (fun f => has_versions f n) fs with
  | [f] => (Some (n, (versions_of f n, default "" (vMd5s f !! n))), w)
  | _ =>
      let '(infos, w) := collect b (info_request r n) w in
      match infos with
      | [] => (None, w)
      | _ => let merged := mergeInfo infos in (Some (n, (infoVersions merged, md5Hex merged)), w)
      end
  end.

Fixpoint merged_entries (b : Base) (r : Request) (fs : list VersionsFile) (ns : list string) (w : W)
    : list (string * (list string * string)) * W :=
  match ns with
  | [] => ([], w)
  | n :: ns =>
      let '(e, w) := merged_entry b r fs n w in
      let '(es, w) := merged_entries b r fs ns w in
      (match e with Some e => e :: es | None => es end, w)
  end.

Definition mergedVersions (created : string) (b : Base) (r : Request) (w : W) : string * W :=
  let '(bodies, w) := collect b r w in
  let fs := parseVersionsFile <$> bodies in
  let '(es, w) := merged_entries b r fs (sortStr (all_names fs)) w in
  (buildVersions created es, w).

Definition mergedNames (b : Base) (r : Request) (w : W) : list string * W :=
  let '(bodies, w) := collect b r w in
  (sortStr (foldl add_name [] (bodies ≫= fun body => after_dashes (TrimSpace <$> Split body (chr 10)))), w).

(** A reply of the virtual itself, or a member's. *)
Definition VirtualServeHTTP (created : string) (b : Base) (hdr : Header) (r : Request) (w : W) : (Answer + Response) * W :=
  let p := Path r in
  if negb (String.eqb (Method r) "GET" || String.eqb (Method r) "HEAD") then (inl (Fail 405), w)
  else if String.eqb p "/versions" then let '(v, w) := mergedVersions created b r w in (inl (serveCompact r v), w)
  else if String.eqb p "/names" then let '(ns, w) := mergedNames b r w in (inl (serveCompact r (buildNames ns)), w)
  else if HasPrefix p "/info/" then
    match singleSegment p "/info/" "" with
    | None => (inl (Fail 404), w)
    | Some _ =>
        let '(bodies, w) := collect b r w in
        (inl (match bodies with [] => Fail 404 | _ => serveCompact r (mergeInfo bodies) end), w)
    end
  else
    match ServeFirstHit Lookup serve gate b hdr r w with
    | (Some resp, w) => (inr resp, w)
    | (None, w) => (inl (Fail 404), w)
    end.

End virtual.

(** ** The remote repository *)

Definition sidecarRel (rel : string) : string := rel +:+ ".hdr.json".
Definition remoteInfoRel (name : string) : string := PathJoin ["cache"; "info"; name].

(** The hashes kept next to a file. *)
Record cachedHeaders := { ETag : string; ReprDigest : string; hdrSize : Z }.

Definition headers_json (h : cachedHeaders) : Json :=
  JObject [("etag", JString (ETag h)); ("repr_digest", JString (ReprDigest h)); ("size", JNumber (itoa (hdrSize h)))].

Definition headers_shape : Shape := TStruct [("etag", TString); ("repr_digest", TString); ("size", TInt)].

Definition decode_headers (b : string) : option cachedHeaders :=
  j ← parse b;
  if match j with JObject _ | JNull => fits headers_shape j | _ => false end then
    let m := members j in
    Some {| ETag := scan_field as_string "etag" "" m; ReprDigest := scan_field as_string "repr_digest" "" m;
            hdrSize := scan_field as_int "size" 0 m |}
  else None.

Definition headers_of (body : string) : cachedHeaders :=
  {| ETag := quote +:+ md5Hex body +:+ quote; ReprDigest := "sha-256=:" +:+ EncodeBase64 (Sum256 body) +:+ ":";
     hdrSize := Z.of_nat (len body) |}.

(** A row of the upstream's versions document. *)
Record apiVersion := {
  aNumber : string; aPlatform : string; aCreatedAt : string; aLicenses : list string; aSummary : string; aAuthors : string;
}.

Definition api_shape : Shape := TSlice (TStruct
  [("number", TString); ("platform", TString); ("created_at", TString); ("licenses", TSlice TString); ("summary", TString);
   ("authors", TString)]).

Definition scan_api (j : Json) : apiVersion :=
  let m := members j in
  {| aNumber := scan_field as_string "number" "" m; aPlatform := scan_field as_string "platform" "" m;
     aCreatedAt := scan_field as_string "created_at" "" m; aLicenses := scan_slice scan_text "" "licenses" m;
     aSummary := scan_field as_string "summary" "" m; aAuthors := scan_field as_string "authors" "" m |}.

Definition decode_api (b : string) : option (list apiVersion) :=
  j ← parse b;
  if fits api_shape j then match j with JArray l => Some (scan_api <$> l) | JNull => Some [] | _ => None end else None.

(** [map[string]any]: the members of the decoded object by their keys. *)
Definition doc_text (k : string) (m : gmap string Json) : string := match m !! k with Some (JString s) => s | _ => "" end.

Definition doc_members (m : gmap string Json) : list (string * Json) :=
  SliceStable (fun a b => str_ltb a.1 b.1) (map_to_list m).

Section remote.
Context {U : UnicodeTables} {F : Type} `{Backend F}.
(** The client, the layouts of times, and what a value decoded into [any] is
    encoded as: numbers are floats, objects have sorted keys. *)
Variables (Get : string -> result UpstreamError Reader) (MutableTTL now : Z) (FormatSeconds : Z -> string)
          (ParseNano : string -> option Z) (AsAny : Json -> Json).

Definition metasFromInfo (name info : string) : list GemMeta := sortMetas (omap (meta_of_line name) (infoLines info)).

(** Why a file could not be had. *)
Inductive FetchError := FromUpstream (e : UpstreamError) | FromTemp (msg : string) | FromStore (e : StoreError).

Definition readSidecar (s : Store F) (rel : string) : option cachedHeaders :=
  match StoreRead s (sidecarRel rel) with Ok b => decode_headers b | Err _ => None end.

(** [temp]: an error of the temporary file. *)
Definition fetchStream (temp : option string) (s : Store F) (rel upstreamPath : string) (mutable : bool)
    : option FetchError * Store F :=
  if Exists s rel && (negb mutable || Fresh MutableTTL now s rel) then (None, s)
  else match Get upstreamPath with
  | Err e =>
      if Exists s rel && match e with UpNotFound => false | _ => true end then (None, s) else (Some (FromUpstream e), s)
  | Ok r =>
      match temp, rErr r with
      | Some msg, _ | None, Some msg => (Some (FromTemp msg), s)
      | None, None =>
          match WriteStream s rel (reader (rData r)) (Z.of_nat (len (rData r))) with
          | (Some e, s) => (Some (FromStore e), s)
          | (None, s) => (None, (StoreWrite s (sidecarRel rel) (write (headers_json (headers_of (rData r))))).2)
          end
      end
  end.

Definition fetch_answer (e : FetchError) : Answer :=
  match e with FromUpstream UpNotFound => Fail 404 | _ => Fail 502 end.

Definition serveStored (s : Store F) (rel : string) : Answer :=
  match Open (sfs s) (StoreJoin s [rel]) with Ok (rd, _) => Serve rd | Err _ => Fail 404 end.

Definition serveStreamed (temp : option string) (s : Store F) (r : Request) (rel upstreamPath : string) (mutable : bool)
    : Answer * Store F :=
  match fetchStream temp s rel upstreamPath mutable with
  | (Some e, s) => (fetch_answer e, s)
  | (None, s) =>
      (match readSidecar s rel with
       | Some h => if etagMatches (IfNoneMatch r) (ETag h) then Reply 304 "" else serveStored s rel
       | None => serveStored s rel
       end, s)
  end.

Definition FetchCached (s : Store F) := PkgStore.FetchCached Get MutableTTL now s.

Definition fetchInfo (s : Store F) (name : string) : result UpstreamError string * Store F :=
  FetchCached s (remoteInfoRel name) ("/info/" +:+ name) true.

Definition cached_answer (k : string -> Answer) (res : result UpstreamError string * Store F) : Answer * Store F :=
  match res with
  | (Ok b, s) => (k b, s)
  | (Err UpNotFound, s) => (Fail 404, s)
  | (Err _, s) => (Fail 502, s)
  end.

Definition ServeCached (s : Store F) (rel upstreamPath : string) (mutable : bool) : Answer * Store F :=
  cached_answer (Reply 200) (FetchCached s rel upstreamPath mutable).

Definition rewriteGemJSON (body base : string) : string :=
  match parse body with
  | Some (JObject kvs) =>
      if forallb (fun kv => numbers_ok kv.2) kvs then
        let doc := foldl (fun m kv => <[ kv.1 := kv.2 ]> m) (∅ : gmap string Json) kvs in
        let name := doc_text "name" doc in let version := doc_text "version" doc in let plat := doc_text "platform" doc in
        let doc := if negb (String.eqb name "") && negb (String.eqb version "") then
            let full := name +:+ "-" +:+ version +:+
              (if negb (String.eqb plat "") && negb (String.eqb plat "ruby") then "-" +:+ plat else "") in
            <[ "gem_uri" := JString (base +:+ "/gems/" +:+ full +:+ ".gem") ]> doc
          else doc in
        write_plain (JObject ((fun kv => (kv.1, AsAny kv.2)) <$> doc_members doc))
      else body
  | Some JNull => "null"
  | _ => body
  end.

Definition RemoteServeHTTP (temp : option string) (s : Store F) (r : Request) : Answer * Store F :=
  let p := Path r in
  if negb (String.eqb (Method r) "GET" || String.eqb (Method r) "HEAD") then (Fail 405, s)
  else if String.eqb p "/" || String.eqb p "" then (Reply 200 ("rubygems registry" +:+ RubyGems.newline), s)
  else if String.eqb p "/versions" then serveStreamed temp s r (PathJoin ["cache"; "versions"]) "/versions" true
  else if String.eqb p "/names" then serveStreamed temp s r (PathJoin ["cache"; "names"]) "/names" true
  else if HasPrefix p "/info/" then
    match singleSegment p "/info/" "" with
    | None => (Fail 404, s)
    | Some name => cached_answer (serveCompact r) (fetchInfo s name)
    end
  else if HasPrefix p "/gems/" then
    match gemFileFromPath p with
    | None => (Fail 404, s)
    | Some full => serveStreamed temp s r (gemRel full) ("/gems/" +:+ full +:+ ".gem") false
    end
  else if HasPrefix p "/quick/Marshal.4.8/" then
    match quickFromPath p with
    | None => (Fail 404, s)
    | Some full => ServeCached s (PathJoin ["quick"; full +:+ ".gemspec.rz"]) p false
    end
  else if isSpecsIndex p then serveStreamed temp s r (PathJoin ["cache"; "specs"; TrimPrefix p "/"]) p true
  else if String.eqb p "/api/v1/api_key" || String.eqb p "/api/v1/api_key.json" then (Reply 200 (presentedToken r), s)
  else if String.eqb p "/api/v1/dependencies" || String.eqb p "/api/v1/dependencies.json" then
    match splitGemsParam (form_get (Query r) "gems") with
    | [] => (Reply 200 (if HasSuffix p ".json" then "[]" else rubyMarshal (RArray [])), s)
    | gems =>
        let q := Join gems "," in
        ServeCached s (PathJoin ["cache"; "api"; TrimPrefix p "/api/v1/"; hexSHA256 q]) (p +:+ "?gems=" +:+ q) true
    end
  else if HasPrefix p "/api/v1/gems/" then
    match singleSegment p "/api/v1/gems/" ".json" with
    | None => (Fail 404, s)
    | Some name =>
        cached_answer (fun b => Reply 200 (rewriteGemJSON b (PublicBase r)))
          (FetchCached s (PathJoin ["cache"; "api"; "gems"; name +:+ ".json"]) p true)
    end
  else if HasPrefix p "/api/v1/versions/" then
    match singleSegment p "/api/v1/versions/" ".json" with
    | None => (Fail 404, s)
    | Some name => ServeCached s (PathJoin ["cache"; "api"; "versions"; name +:+ ".json"]) p true
    end
  else (Fail 404, s).

(** ** What the cache tells *)

Definition cached_package (s : Store F) (f : DirEntry) : option (string * list string) :=
  if negb (validName (eName f)) || HasSuffix (eName f) ".json" then None
  else match StoreRead s (remoteInfoRel (eName f)) with
  | Err _ => None
  | Ok b => match metasFromInfo (eName f) b with [] => None | ms => Some (eName f, uniqueVersions ms) end
  end.

Definition RemoteListPackages (s : Store F) : result FSError (list (string * list string)) :=
  let! files := ListFiles s (PathJoin ["cache"; "info"]) in Ok (omap (cached_package s) files).

Definition api_key (number plat : string) : string := number +:+ String (chr 0) plat.

Definition enrich (idx : gmap string apiVersion) (m : GemMeta) : GemMeta :=
  match idx !! api_key (gVersion m) (platform m) with
  | None => m
  | Some row =>
      {| gName := gName m; gVersion := gVersion m; gPlatform := gPlatform m; Summary := aSummary row; Description := Description m;
         Homepage := Homepage m; Authors := if String.eqb (aAuthors row) "" then Authors m else [aAuthors row]; Email := Email m;
         Licenses := aLicenses row; Metadata := Metadata m; Dependencies := Dependencies m; RequiredRuby := RequiredRuby m;
         RequiredRubygems := RequiredRubygems m; RubygemsVersion := RubygemsVersion m; SHA256 := SHA256 m; gSize := gSize m;
         CreatedAt := default (CreatedAt m) (ParseNano (aCreatedAt row)) |}
  end.

Definition enrichMetas (ms : list GemMeta) (body : string) : list GemMeta :=
  match decode_api body with
  | None => ms
  | Some rows =>
      let idx := foldl (fun m row => <[ api_key (aNumber row) (aPlatform row) := row ]> m) (∅ : gmap string apiVersion) rows in
      enrich idx <$> ms
  end.

Definition with_size (s : Store F) (m : GemMeta) : GemMeta :=
  match StoreStat s (gemRel (FullName m)) with
  | Err _ => m
  | Ok fi =>
      {| gName := gName m; gVersion := gVersion m; gPlatform := gPlatform m; Summary := Summary m; Description := Description m;
         Homepage := Homepage m; Authors := Authors m; Email := Email m; Licenses := Licenses m; Metadata := Metadata m;
         Dependencies := Dependencies m; RequiredRuby := RequiredRuby m; RequiredRubygems := RequiredRubygems m;
         RubygemsVersion := RubygemsVersion m; SHA256 := SHA256 m; gSize := Size fi; CreatedAt := CreatedAt m |}
  end.

Definition RemotePackageDetail (s : Store F) (name : string) : result GemError PackageDetail :=
  if negb (validName name) then Err InvalidPackageName
  else match StoreRead s (remoteInfoRel name) with
  | Err _ => Err PackageNotFound
  | Ok body =>
      let ms := metasFromInfo name body in
      let ms := match StoreRead s (PathJoin ["cache"; "api"; "versions"; name +:+ ".json"]) with
                | Ok vb => enrichMetas ms vb | Err _ => ms end in
      let ms := with_size s <$> ms in
      match latestMeta ms with
      | None => Err PackageNotFound
      | Some latest => Ok (detailFromMetas FormatSeconds latest ms)
      end
  end.

Definition RemoteArtifactInfo (s : Store F) (name version : string) : option (string * option Z) * Store F :=
  if negb (validName name) then (None, s)
  else
    match FetchCached s (PathJoin ["cache"; "api"; "versions"; name +:+ ".json"]) ("/api/v1/versions/" +:+ name +:+ ".json") true with
    | (Err _, s) => (None, s)
    | (Ok body, s) =>
        (rows ← decode_api body;
         row ← List.find (fun row => String.eqb (aNumber row) version ||
                                     String.eqb (aNumber row +:+ "-" +:+ aPlatform row) version) rows;
         Some (Join (aLicenses row) " OR ", ParseNano (aCreatedAt row)), s)
    end.

Inductive PrefetchError := BadName | NoVersion | FetchFailed (e : FetchError).

Fixpoint fetch_all (temp : option string) (s : Store F) (ms : list GemMeta) : option PrefetchError * Store F :=
  match ms with
  | [] => (None, s)
  | m :: ms =>
      match fetchStream temp s (gemRel (FullName m)) ("/gems/" +:+ FullName m +:+ ".gem") false with
      | (Some e, s) => (Some (FetchFailed e), s)
      | (None, s) => fetch_all temp s ms
      end
  end.

Definition Prefetch (temp : option string) (s : Store F) (name version : string) : option PrefetchError * Store F :=
  if negb (validName name) then (Some BadName, s)
  else match fetchInfo s name with
  | (Err e, s) => (Some (FetchFailed (FromUpstream e)), s)
  | (Ok body, s) =>
      let ms := metasFromInfo name body in
      let targets := if String.eqb version "" then option_list (latestMeta ms)
                     else List.filter (fun m => String.eqb (gVersion m) version || String.eqb (versionPlatform m) version) ms in
      match targets with [] => (Some NoVersion, s) | _ => fetch_all temp s targets end
  end.

End remote.
