(* ===== verification/RubyGemsRemoteSafety.v ===== *)
(** * Proxied and merged RubyGems repositories

    A repository that proxies another sees the metadata of its gems through the
    compact index; a virtual serves each version from its first member, and
    /versions carries the hash of the index that it serves, where several
    members have the gem.  The last part shows when one member has it. *)

From Stdlib Require Import ZArith Lia Ascii.
From stdpp Require Import base list strings gmap.
From S2P Require Import Prelude GoStrings GoPath GoHash GoJson PkgVersion Backend PkgStore Virtual RubyGems RubyGemsLaws RubyGemsRemote.

Local Open Scope Z_scope.
Local Open Scope kutu_scope.

(** ** An index read by a proxy *)

Definition no_bytes (cs : list ascii) (s : string) : bool := forallb (fun c => no_byte c s) cs.

Definition trimmed (s : string) : bool := String.eqb (TrimSpace s) s.

(** Requirements that a line can hold. *)
Definition clean_reqs (key : string) (reqs : list string) : bool :=
  forallb (no_bytes [","%char; "&"%char; "|"%char]) reqs && trimmed (key +:+ ":" +:+ reqString reqs).

Definition clean_dep (d : Dependency) : bool :=
  negb (String.eqb (dName d) "") && no_bytes [","%char; ":"%char; "|"%char] (dName d) &&
  match dRequirements d with [] => false | _ => true end && clean_reqs (dName d) (dRequirements d).

Definition clean_meta (m : GemMeta) : bool :=
  info_safe m && no_byte "-" (gVersion m) && no_bytes [","%char] (SHA256 m) && trimmed ("checksum:" +:+ SHA256 m) &&
  forallb clean_dep (runtimeDeps m) &&
  (isDefaultReq (RequiredRuby m) || clean_reqs "ruby" (RequiredRuby m)) &&
  (isDefaultReq (RequiredRubygems m) || clean_reqs "rubygems" (RequiredRubygems m)).

(** What the line tells: the version, the platform unless it is ruby, the runtime
    dependencies, the checksum and the requirements that are not the default. *)
Definition seen (m : GemMeta) : GemMeta :=
  info_stub (gName m) (gVersion m) (if String.eqb (platform m) "ruby" then "" else platform m)
    ((fun d => {| dName := dName d; dRequirements := dRequirements d; dType := "runtime" |}) <$> runtimeDeps m)
    {| fChecksum := SHA256 m; fRuby := if isDefaultReq (RequiredRuby m) then [] else RequiredRuby m;
       fRubygems := if isDefaultReq (RequiredRubygems m) then [] else RequiredRubygems m |}.

Lemma reqs_back key reqs : clean_reqs key reqs = true -> reqs <> [] -> Split (reqString reqs) "&" = reqs.
Proof.
  unfold clean_reqs. intros [H _]%andb_true_iff Hne. unfold reqString. apply Split_Join; [done|].
  apply Forall_forall. intros x Hx. apply forallb_forall with (x := x) in H; [|by apply list_elem_of_In].
  unfold no_bytes in H. cbn [forallb] in H. by bool_prop.
Qed.

Lemma reqs_no c key reqs : c = ","%char \/ c = "|"%char -> clean_reqs key reqs = true -> no_byte c (reqString reqs) = true.
Proof.
  unfold clean_reqs. intros Hc [H _]%andb_true_iff. unfold reqString. apply (no_byte_Join c "&"); [by destruct Hc as [->| ->]|].
  apply Forall_forall. intros x Hx. apply forallb_forall with (x := x) in H; [|by apply list_elem_of_In].
  unfold no_bytes in H. cbn [forallb] in H. bool_prop. by destruct Hc as [->| ->].
Qed.

Lemma clean_dep_inv d : clean_dep d = true -> dName d <> "" /\ no_byte "," (dName d) = true /\ no_byte ":" (dName d) = true /\
  no_byte "|" (dName d) = true /\ dRequirements d <> [] /\ clean_reqs (dName d) (dRequirements d) = true.
Proof.
  unfold clean_dep, no_bytes. cbn [forallb]. rewrite !andb_true_iff. intros (((H1 & H2 & H3 & H4 & _) & H5) & H6).
  split_and!; try done; [by intros E; rewrite E in H1|by intros E; rewrite E in H5].
Qed.

Definition dep_text (d : Dependency) : string := dName d +:+ ":" +:+ reqString (dRequirements d).

Lemma field_cut key v : no_byte ":" key = true -> trimmed (key +:+ ":" +:+ v) = true ->
  Cut (TrimSpace (key +:+ ":" +:+ v)) ":" = (key, v, true).
Proof.
  unfold trimmed. intros Hk ->%String.eqb_eq. change (Cut (key +:+ ":" +:+ v) ":") with (Cut (key +:+ String ":" v) (String ":" "")).
  by rewrite Cut_first.
Qed.

Lemma clean_trimmed key reqs : clean_reqs key reqs = true -> trimmed (key +:+ ":" +:+ reqString reqs) = true.
Proof. unfold clean_reqs. by intros [_ H]%andb_true_iff. Qed.

Lemma dep_back d : clean_dep d = true -> info_dependency (dep_text d) =
  Some {| dName := dName d; dRequirements := dRequirements d; dType := "runtime" |}.
Proof.
  intros (Hne & _ & Hcol & _ & Hr & Hc)%clean_dep_inv. unfold info_dependency, dep_text.
  rewrite field_cut by (done || by apply clean_trimmed). destruct (String.eqb_spec (dName d) ""); [done|]. cbn [andb negb].
  by rewrite (reqs_back (dName d)).
Qed.

(** The fields behind the bar, each once. *)
Definition field_texts (m : GemMeta) : list string :=
  ("checksum:" +:+ SHA256 m) ::
  (if isDefaultReq (RequiredRuby m) then [] else ["ruby:" +:+ reqString (RequiredRuby m)]) ++
  (if isDefaultReq (RequiredRubygems m) then [] else ["rubygems:" +:+ reqString (RequiredRubygems m)]).

Lemma infoLine_parts m : infoLine m = versionPlatform m +:+ String " "
  (Join (dep_text <$> runtimeDeps m) "," +:+ String "|" (Join (field_texts m) ",")).
Proof.
  unfold infoLine, field_texts.
  change (fun d => dName d +:+ ":" +:+ reqString (dRequirements d)) with dep_text.
  change (String " " (Join (dep_text <$> runtimeDeps m) "," +:+
    String "|" (Join (("checksum:" +:+ SHA256 m) :: (if isDefaultReq (RequiredRuby m) then [] else ["ruby:" +:+ reqString (RequiredRuby m)]) ++
      (if isDefaultReq (RequiredRubygems m) then [] else ["rubygems:" +:+ reqString (RequiredRubygems m)])) ","))) with
    (" " +:+ Join (dep_text <$> runtimeDeps m) "," +:+
    String "|" (Join (("checksum:" +:+ SHA256 m) :: (if isDefaultReq (RequiredRuby m) then [] else ["ruby:" +:+ reqString (RequiredRuby m)]) ++
      (if isDefaultReq (RequiredRubygems m) then [] else ["rubygems:" +:+ reqString (RequiredRubygems m)])) ",")).
  do 3 f_equal. change ("|checksum:" +:+ SHA256 m +:+
    (if isDefaultReq (RequiredRuby m) then "" else ",ruby:" +:+ reqString (RequiredRuby m)) +:+
    (if isDefaultReq (RequiredRubygems m) then "" else ",rubygems:" +:+ reqString (RequiredRubygems m))) with
    (String "|" ("checksum:" +:+ SHA256 m +:+
    (if isDefaultReq (RequiredRuby m) then "" else ",ruby:" +:+ reqString (RequiredRuby m)) +:+
    (if isDefaultReq (RequiredRubygems m) then "" else ",rubygems:" +:+ reqString (RequiredRubygems m)))).
  f_equal. destruct (isDefaultReq (RequiredRuby m)), (isDefaultReq (RequiredRubygems m)); cbn [app];
    rewrite ?Join_cons; cbn [Join]; change ("" +:+ "") with ""; rewrite ?app_empty_r; try done.
  all: by rewrite ?str_app_assoc.
Qed.

Lemma set_checksum f v : trimmed ("checksum:" +:+ v) = true ->
  set_field3 f ("checksum:" +:+ v) = {| fChecksum := v; fRuby := fRuby f; fRubygems := fRubygems f |}.
Proof. intros H. unfold set_field3. change ("checksum:" +:+ v) with ("checksum" +:+ ":" +:+ v) in *. by rewrite field_cut. Qed.

Lemma set_ruby f reqs : clean_reqs "ruby" reqs = true -> reqs <> [] ->
  set_field3 f ("ruby:" +:+ reqString reqs) = {| fChecksum := fChecksum f; fRuby := reqs; fRubygems := fRubygems f |}.
Proof.
  intros Hc Hne. unfold set_field3. change ("ruby:" +:+ reqString reqs) with ("ruby" +:+ ":" +:+ reqString reqs).
  rewrite field_cut by (done || by apply clean_trimmed). cbn [String.eqb Ascii.eqb Bool.eqb]. by rewrite (reqs_back "ruby").
Qed.

Lemma set_rubygems f reqs : clean_reqs "rubygems" reqs = true -> reqs <> [] ->
  set_field3 f ("rubygems:" +:+ reqString reqs) = {| fChecksum := fChecksum f; fRuby := fRuby f; fRubygems := reqs |}.
Proof.
  intros Hc Hne. unfold set_field3. change ("rubygems:" +:+ reqString reqs) with ("rubygems" +:+ ":" +:+ reqString reqs).
  rewrite field_cut by (done || by apply clean_trimmed). cbn [String.eqb Ascii.eqb Bool.eqb]. by rewrite (reqs_back "rubygems").
Qed.

(** The tests one by one. *)
Lemma clean_meta_inv m : clean_meta m = true -> info_safe m = true /\ no_byte "-" (gVersion m) = true /\
  no_byte "," (SHA256 m) = true /\ trimmed ("checksum:" +:+ SHA256 m) = true /\ forallb clean_dep (runtimeDeps m) = true /\
  (isDefaultReq (RequiredRuby m) = false -> clean_reqs "ruby" (RequiredRuby m) = true) /\
  (isDefaultReq (RequiredRubygems m) = false -> clean_reqs "rubygems" (RequiredRubygems m) = true).
Proof.
  unfold clean_meta, no_bytes. cbn [forallb]. rewrite !andb_true_iff. intros ((((((H1 & H2) & H3 & _) & H4) & H5) & H6) & H7).
  split_and!; try done; intros E; by rewrite E in *.
Qed.

Lemma not_default reqs : isDefaultReq reqs = false -> reqs <> [].
Proof. by destruct reqs. Qed.

Lemma fields_back m : clean_meta m = true ->
  foldl set_field3 {| fChecksum := ""; fRuby := []; fRubygems := [] |} (field_texts m) =
  {| fChecksum := SHA256 m; fRuby := if isDefaultReq (RequiredRuby m) then [] else RequiredRuby m;
     fRubygems := if isDefaultReq (RequiredRubygems m) then [] else RequiredRubygems m |}.
Proof.
  intros (_ & _ & _ & Ht & _ & Hr & Hg)%clean_meta_inv. unfold field_texts. cbn [foldl]. rewrite set_checksum by done. rewrite foldl_app.
  destruct (isDefaultReq (RequiredRuby m)) eqn:Er, (isDefaultReq (RequiredRubygems m)) eqn:Eg; cbn [foldl];
    rewrite ?set_ruby by (by apply Hr || by apply not_default); rewrite ?set_rubygems by (by apply Hg || by apply not_default); done.
Qed.

Lemma fields_no_comma m : clean_meta m = true -> Forall (fun x => no_byte "," x = true) (field_texts m).
Proof.
  intros (_ & _ & Hs & _ & _ & Hr & Hg)%clean_meta_inv. unfold field_texts. constructor; [by rewrite no_byte_app, Hs|].
  apply Forall_app. split.
  - destruct (isDefaultReq (RequiredRuby m)) eqn:E; [constructor|]. constructor; [|constructor]. rewrite no_byte_app.
    by rewrite (reqs_no "," "ruby" _ (or_introl eq_refl) (Hr eq_refl)).
  - destruct (isDefaultReq (RequiredRubygems m)) eqn:E; [constructor|]. constructor; [|constructor]. rewrite no_byte_app.
    by rewrite (reqs_no "," "rubygems" _ (or_introl eq_refl) (Hg eq_refl)).
Qed.

Lemma dep_text_no c d : c = ","%char \/ c = "|"%char -> clean_dep d = true -> no_byte c (dep_text d) = true.
Proof.
  intros Hc (_ & H1 & _ & H3 & _ & Hr)%clean_dep_inv. unfold dep_text. rewrite !no_byte_app, (reqs_no c (dName d) _ Hc) by done.
  by destruct Hc as [-> | ->]; rewrite ?H1, ?H3.
Qed.

Lemma deps_back ds : forallb clean_dep ds = true -> omap info_dependency (Split (Join (dep_text <$> ds) ",") ",") =
  (fun d => {| dName := dName d; dRequirements := dRequirements d; dType := "runtime" |}) <$> ds.
Proof.
  intros H. destruct ds as [|d ds]; [done|]. rewrite Split_Join; [|done|].
  - generalize (d :: ds) H. clear d ds H. induction l as [|d ds IH]; [done|]. cbn [forallb]. intros [Hd H]%andb_true_iff.
    rewrite !fmap_cons. cbn [omap list_omap]. by rewrite dep_back, IH.
  - apply Forall_fmap, Forall_forall. intros x Hx. apply dep_text_no; [by left|].
    apply (proj1 (forallb_forall _ _) H). by apply list_elem_of_In.
Qed.

Lemma meta_of_line_seen m : clean_meta m = true -> meta_of_line (gName m) (infoLine m) = Some (seen m).
Proof.
  intros Hm. pose proof (fields_back m Hm) as Hf. pose proof (fields_no_comma m Hm) as Hc.
  apply clean_meta_inv in Hm as (Hsafe & Hdash & _ & _ & Hdeps & _).
  unfold meta_of_line. rewrite infoLine_parts.
  set (rest := Join (dep_text <$> runtimeDeps m) "," +:+ String "|" (Join (field_texts m) ",")).
  assert (Hsp : no_byte " " (versionPlatform m) = true).
  { unfold info_safe, validName in Hsafe. bool_prop. by apply (no_byte_forallb name_char). }
  change (Cut (versionPlatform m +:+ String " " rest) " ") with (Cut (versionPlatform m +:+ String " " rest) (String " " "")).
  rewrite Cut_first by done. assert (Hne : versionPlatform m <> "").
  { intros E. unfold info_safe in Hsafe. by rewrite E in Hsafe. }
  destruct (String.eqb_spec (versionPlatform m) ""); [done|].
  assert (Ev : Cut (versionPlatform m) "-" = (gVersion m, if String.eqb (platform m) "ruby" then "" else platform m,
                                              negb (String.eqb (platform m) "ruby"))).
  { unfold versionPlatform. destruct (String.eqb (platform m) "ruby"); [by apply Cut_absent|].
    change (gVersion m +:+ "-" +:+ platform m) with (gVersion m +:+ String "-" (platform m)). by apply Cut_first. }
  rewrite Ev. assert (Hb : no_byte "|" (Join (dep_text <$> runtimeDeps m) ",") = true).
  { apply (no_byte_Join "|" ","); [done|]. apply Forall_fmap, Forall_forall. intros d Hd. apply dep_text_no; [by right|].
    apply (proj1 (forallb_forall _ _) Hdeps). by apply list_elem_of_In. }
  unfold rest. change (Cut (Join (dep_text <$> runtimeDeps m) "," +:+ String "|" (Join (field_texts m) ",")) "|") with
    (Cut (Join (dep_text <$> runtimeDeps m) "," +:+ String "|" (Join (field_texts m) ",")) (String "|" "")).
  rewrite Cut_first by done. rewrite (Split_Join (field_texts m)) by done. by rewrite Hf, deps_back.
Qed.

(** C26: a repository that proxies a hosted one reads the hosted metadata back from
    /info: for names, versions, dependencies and requirements that a line can
    hold, the versions it sees are those stored, with their platforms, runtime
    dependencies, checksums and required versions, in the order of the index. *)
Theorem proxied_metadata {U : UnicodeTables} name ms :
  Forall (fun m => gName m = name /\ clean_meta m = true) ms ->
  metasFromInfo name (buildInfo ms) = sortMetas (seen <$> ms).
Proof.
  intros H. unfold metasFromInfo. rewrite infoLines_buildInfo.
  - f_equal. induction H as [|m ms [<- Hm] _ IH]; [done|]. rewrite !fmap_cons. cbn [omap list_omap]. by rewrite meta_of_line_seen, IH.
  - revert H. apply List.Forall_impl. intros m [_ Hm]. by apply clean_meta_inv in Hm as [? _].
Qed.

(** ** Merged indexes *)

(** The lines that are kept: their tokens are distinct, and every line with a token
    has one of that token before it or is kept. *)
Record kept (L : list string) (acc : gset string * list string) : Prop := {
  kp_set : acc.1 = list_to_set (line_token <$> acc.2);
  kp_once : NoDup (line_token <$> acc.2);
  kp_from : forall x, x ∈ acc.2 -> x ∈ L /\ line_token x <> "";
  kp_all : forall x, x ∈ L -> line_token x <> "" -> line_token x ∈ line_token <$> acc.2;
  kp_first : forall a x b, L = a ++ x :: b -> line_token x <> "" -> line_token x ∉ line_token <$> a -> x ∈ acc.2;
}.

Lemma kept_nil : kept [] (∅, []).
Proof. split; [done|constructor|by intros x ?%elem_of_nil|by intros x ?%elem_of_nil|by intros [|] ? ? ?]. Qed.

Lemma snoc_split {A} (L a b : list A) y x : L ++ [y] = a ++ x :: b -> (b = [] /\ a = L /\ x = y) \/ exists b', b = b' ++ [y] /\ L = a ++ x :: b'.
Proof.
  intros E. destruct b as [|z b] using rev_ind; [left|right].
  - apply app_inj_tail in E as [-> ->]. done.
  - exists b. rewrite app_comm_cons, app_assoc in E. by apply app_inj_tail in E as [-> ->].
Qed.

Lemma kept_snoc L acc y : kept L acc -> kept (L ++ [y]) (add_info_line acc y).
Proof.
  intros [H1 H2 H3 H4 H5]. unfold add_info_line. destruct (String.eqb_spec (line_token y) "") as [Ey|Ey]; cbn [orb].
  - split; [done|done| | |].
    + intros x Hx. destruct (H3 x Hx). split; [apply elem_of_app; by left|done].
    + intros x [Hx|Hx%list_elem_of_singleton]%elem_of_app Hne; [by apply H4|]. by subst x.
    + intros a x b [(-> & -> & ->)|(b' & -> & ->)]%snoc_split Hne Ha; [done|]. by eapply H5.
  - case_bool_decide as Hin.
    + rewrite H1, elem_of_list_to_set in Hin. split; [done|done| | |].
      * intros x Hx. destruct (H3 x Hx). split; [apply elem_of_app; by left|done].
      * intros x [Hx|Hx%list_elem_of_singleton]%elem_of_app Hne; [by apply H4|]. by subst x.
      * intros a x b [(-> & -> & ->)|(b' & -> & ->)]%snoc_split Hne Ha; [|by eapply H5].
        exfalso. apply list_elem_of_fmap in Hin as (z & Ez & Hz). apply Ha. rewrite Ez. apply list_elem_of_fmap. exists z.
        split; [done|]. by apply H3.
    + rewrite H1, elem_of_list_to_set in Hin. split; cbn [fst snd].
      * rewrite fmap_app, list_to_set_app_L, H1. cbn. set_solver.
      * rewrite fmap_app. apply NoDup_app. split_and!; [done| |apply NoDup_singleton].
        intros x Hx Hx'%list_elem_of_singleton. by subst x.
      * intros x [Hx|Hx%list_elem_of_singleton]%elem_of_app.
        -- destruct (H3 x Hx). split; [apply elem_of_app; by left|done].
        -- subst x. split; [apply elem_of_app; right; by apply list_elem_of_singleton|done].
      * intros x Hx Hne. rewrite fmap_app. apply elem_of_app. apply elem_of_app in Hx as [Hx|Hx%list_elem_of_singleton]; [left; by apply H4|].
        subst x. right. by apply list_elem_of_singleton.
      * intros a x b [(-> & -> & ->)|(b' & -> & ->)]%snoc_split Hne Ha; apply elem_of_app; [right; by apply list_elem_of_singleton|].
        left. by eapply H5.
Qed.

Lemma kept_all L : kept L (foldl add_info_line (∅, []) L).
Proof. induction L as [|x L IH] using rev_ind; [apply kept_nil|]. rewrite foldl_app. by apply kept_snoc. Qed.

(** The lines of a merged index. *)
Definition merged_lines (bodies : list string) : list string := (foldl add_info_line (∅, []) (bodies ≫= infoLines)).2.

(** A single index of distinct versions is merged to itself. *)
Lemma add_distinct L acc : NoDup (line_token <$> L) -> (forall x, x ∈ L -> line_token x <> "" /\ line_token x ∉ acc.1) ->
  (foldl add_info_line acc L).2 = acc.2 ++ L.
Proof.
  revert acc. induction L as [|y L IH]; intros acc Hn Hx; [cbn; by rewrite app_nil_r|].
  rewrite fmap_cons in Hn. apply NoDup_cons in Hn as [Hy Hn]. cbn [foldl].
  destruct (Hx y ltac:(by left)) as [Hne Hin]. unfold add_info_line at 2.
  destruct (String.eqb_spec (line_token y) ""); [done|]. cbn [orb]. rewrite bool_decide_false by done.
  rewrite IH; [cbn [snd]; by rewrite <-app_assoc|done|]. intros x Hxl. destruct (Hx x ltac:(by right)) as [H1 H2]. split; [done|].
  cbn [fst]. rewrite not_elem_of_union, not_elem_of_singleton. split; [|done]. intros E. apply Hy. rewrite <-E. by apply list_elem_of_fmap_2.
Qed.

Lemma mergeInfo_one ms : Forall (fun m => info_safe m = true) ms -> NoDup (versionPlatform <$> ms) -> mergeInfo [buildInfo ms] = buildInfo ms.
Proof.
  intros Hs Hn. unfold mergeInfo. cbn [mbind list_bind]. rewrite app_nil_r, infoLines_buildInfo by done.
  assert (Ht : line_token <$> (infoLine <$> ms) = versionPlatform <$> ms).
  { rewrite <-list_fmap_compose. clear Hn. induction Hs as [|m ms Hm _ IH]; [done|]. rewrite !fmap_cons. rewrite IH. f_equal. by apply info_token. }
  rewrite add_distinct; [done|by rewrite Ht|]. intros x Hx. split; [|set_solver].
  apply list_elem_of_fmap in Hx as (m & -> & Hm). unfold line_token. rewrite info_token by (by apply (proj1 (Forall_forall _ _) Hs)).
  pose proof (proj1 (Forall_forall _ _) Hs m Hm) as H. unfold info_safe in H. intros E. by rewrite E in H.
Qed.

(** The merge of the documents that members answered, in their order: for every
    version in one of them exactly one line, that of the first document that has
    it. *)
Theorem merged_first_wins bodies :
  NoDup (line_token <$> merged_lines bodies) /\
  (forall v, v <> "" -> v ∈ line_token <$> merged_lines bodies <-> exists b x, b ∈ bodies /\ x ∈ infoLines b /\ line_token x = v) /\
  (forall before b after l x l', bodies = before ++ b :: after -> infoLines b = l ++ x :: l' -> line_token x <> "" ->
    line_token x ∉ line_token <$> (before ≫= infoLines) ++ l -> x ∈ merged_lines bodies) /\
  mergeInfo bodies = "---" +:+ RubyGems.newline +:+ RubyGems.lines (merged_lines bodies).
Proof.
  unfold merged_lines. pose proof (kept_all (bodies ≫= infoLines)) as [H1 H2 H3 H4 H5]. split_and!; [done| | |done].
  - intros v Hv. split.
    + intros (x & -> & Hx)%list_elem_of_fmap. apply H3 in Hx as [Hx _]. apply list_elem_of_bind in Hx as (b & Hx & Hb). by exists b, x.
    + intros (b & x & Hb & Hx & <-). apply H4; [|done]. apply list_elem_of_bind. by exists b.
  - intros before b after l x l' -> Eb Hne Hx. apply (H5 ((before ≫= infoLines) ++ l) x (l' ++ (after ≫= infoLines))); [|done|done].
    rewrite bind_app, bind_cons, Eb. by rewrite <-!app_assoc.
Qed.

(** ** The hashes in /versions *)

Section hashes.
Context {Reg W : Type}.
Variables (Lookup : W -> string -> string -> option Reg) (serve : Reg -> Request -> W -> Response * W)
          (gate : option (Reg -> Request -> W -> (Z * string * bool) * W)).

(** Nothing changes while a request is answered. *)
Hypothesis Hquiet : forall b r w, (CollectMembers Lookup serve gate b r w).2 = w.

Notation collect := (collect Lookup serve gate).
Notation merged_entry := (merged_entry Lookup serve gate).
Notation merged_entries := (merged_entries Lookup serve gate).
Notation VirtualServeHTTP := (VirtualServeHTTP Lookup serve gate).

Lemma collect_quiet b r w : collect b r w = ((collect b r w).1, w).
Proof. unfold RubyGemsRemote.collect. rewrite (surjective_pairing (CollectMembers _ _ _ _ _ _)). by rewrite Hquiet. Qed.

Lemma merged_entry_quiet b r fs n w : merged_entry b r fs n w = ((merged_entry b r fs n w).1, w).
Proof.
  unfold RubyGemsRemote.merged_entry. destruct (List.filter _ fs) as [|f [|f' l]]; [|done|];
    rewrite collect_quiet; by destruct (collect b (info_request r n) w).1.
Qed.

Lemma merged_entries_in b r fs ns w e : e ∈ (merged_entries b r fs ns w).1 -> exists n, n ∈ ns /\ (merged_entry b r fs n w).1 = Some e.
Proof.
  induction ns as [|n ns IH]; cbn [RubyGemsRemote.merged_entries]; [by intros ?%elem_of_nil|].
  rewrite merged_entry_quiet. destruct (merged_entries b r fs ns w) as [es w'] eqn:E. cbn [fst] in *.
  destruct (merged_entry b r fs n w).1 as [e'|] eqn:En; cbn [fst].
  - intros [->|H]%elem_of_cons; [exists n; split; [by left|done]|]. destruct (IH H) as (n' & ? & ?). exists n'. split; [by right|done].
  - intros H. destruct (IH H) as (n' & ? & ?). exists n'. split; [by right|done].
Qed.

(** C27: in a virtual whose members stand still, the hash that /versions gives for
    a gem is the one of the index that /info of the gem answers, and the versions
    are those of that index, unless one member alone lists the gem: then both are
    what that member's /versions says. *)
Theorem versions_hash_served created b hdr r w n vs h : Method r = "GET" -> IfNoneMatch r = "" -> validName n = true ->
  let fs := parseVersionsFile <$> (collect b r w).1 in
  (n, (vs, h)) ∈ (merged_entries b r fs (sortStr (all_names fs)) w).1 ->
  (exists f, List.filter (fun f => has_versions f n) fs = [f] /\ vs = versions_of f n /\ h = default "" (vMd5s f !! n)) \/
  exists body, (VirtualServeHTTP created b hdr (info_request r n) w).1 = inl (Reply 200 body) /\ vs = infoVersions body /\ h = md5Hex body.
Proof.
  intros Hm Hi Hn fs (n' & _ & He)%merged_entries_in. revert He. unfold RubyGemsRemote.merged_entry.
  assert (Hmany : (let '(infos, w0) := collect b (info_request r n') w in
      match infos with [] => (None, w0) | _ => (Some (n', (infoVersions (mergeInfo infos), md5Hex (mergeInfo infos))), w0) end).1
      = Some (n, (vs, h)) ->
    exists body, (VirtualServeHTTP created b hdr (info_request r n) w).1 = inl (Reply 200 body) /\ vs = infoVersions body /\ h = md5Hex body).
  { rewrite collect_quiet. destruct (collect b (info_request r n') w).1 as [|x l] eqn:Ec; [done|]. cbn [fst]. intros [= -> <- <-].
    exists (mergeInfo (x :: l)). split; [|done]. unfold RubyGemsRemote.VirtualServeHTTP. cbv zeta.
    change (Path (info_request r n)) with ("/info/" +:+ n). change (Method (info_request r n)) with (Method r). rewrite Hm.
    change (negb (String.eqb "GET" "GET" || String.eqb "GET" "HEAD")) with false.
    change (String.eqb ("/info/" +:+ n) "/versions") with false. change (String.eqb ("/info/" +:+ n) "/names") with false. cbv iota.
    assert (Hs : singleSegment ("/info/" +:+ n) "/info/" "" = Some n).
    { pose proof (HasSuffix_app n "") as H1. pose proof (TrimSuffix_app n "") as H2. rewrite app_empty_r in H1, H2.
      unfold singleSegment. rewrite HasPrefix_app, TrimPrefix_app, H1, H2. cbn [andb]. by rewrite Hn. }
    rewrite HasPrefix_app, Hs, collect_quiet. rewrite Ec. cbn [fst]. unfold serveCompact, etagMatches.
    change (IfNoneMatch (info_request r n)) with (IfNoneMatch r). by rewrite Hi. }
  destruct (List.filter (fun f => has_versions f n') fs) as [|f [|f' l]] eqn:Ef; try (intros H; right; apply Hmany; exact H).
  cbn [fst]. intros [= -> <- <-]. left. exists f. done.
Qed.

End hashes.

(** ** Examples *)

Section examples.
#[local] Existing Instance asciiTables.

Definition a_meta (n v : string) : GemMeta :=
  {| gName := n; gVersion := v; gPlatform := ""; Summary := ""; Description := ""; Homepage := ""; Authors := []; Email := [];
     Licenses := []; Metadata := ∅; Dependencies := [{| dName := "mini"; dRequirements := [">= 1"; "< 3"]; dType := "runtime" |}];
     RequiredRuby := [">= 2.7"]; RequiredRubygems := []; RubygemsVersion := "3.5.0"; SHA256 := hexSHA256 v; gSize := 1; CreatedAt := 5 |}.

Lemma proxied_metadata_witness :
  metasFromInfo "rake" (buildInfo [a_meta "rake" "12.0"; a_meta "rake" "13.0"]) = sortMetas (seen <$> [a_meta "rake" "12.0"; a_meta "rake" "13.0"]).
Proof. apply (proxied_metadata "rake"). repeat constructor; vm_compute; reflexivity. Defined.

(** Two members: the first lists and serves foo; the second serves its own foo, and
    its /versions is down. *)
Definition demo_info (reg : string) : string :=
  buildInfo [a_meta "foo" (if String.eqb reg "a" then "1.0" else "2.0")].

Definition demo_serve (down : bool) (reg : string) (r : Request) (w : unit) : Response * unit :=
  let body := demo_info reg in
  ((if String.eqb (Path r) "/info/foo" then {| rCode := 200; rHeader := []; rBody := body |}
    else if String.eqb (Path r) "/versions" && negb (down && String.eqb reg "b") then
      {| rCode := 200; rHeader := []; rBody := buildVersions "now" [("foo", (infoVersions body, md5Hex body))] |}
    else {| rCode := 502; rHeader := []; rBody := "" |}), w).

Definition demo_base : Base := {| bNamespace := "team"; bName := "all"; memberNames := ["a"; "b"] |}.
Definition demo_lookup (w : unit) (ns name : string) : option string := Some name.
Definition demo_get (p : string) : Request :=
  {| Method := "GET"; Path := p; Body := reader ""; Query := []; Basic := None; Authorization := ""; IfNoneMatch := ""; PublicBase := "" |}.

Definition virtual_get (down : bool) (p : string) : Answer + Response :=
  (VirtualServeHTTP demo_lookup (demo_serve down) None "now" demo_base [] (demo_get p) tt).1.

Definition demo_merged : string := mergeInfo [demo_info "a"; demo_info "b"].

Lemma versions_hash_served_witness : exists body, virtual_get false "/info/foo" = inl (Reply 200 body) /\
  ["1.0"; "2.0"] = infoVersions body /\ md5Hex demo_merged = md5Hex body.
Proof.
  destruct (versions_hash_served demo_lookup (demo_serve false) None ltac:(by intros ? ? []; destruct (CollectMembers _ _ _ _ _ _) as [? []]) "now" demo_base [] (demo_get "/versions") tt "foo"
    ["1.0"; "2.0"] (md5Hex demo_merged) eq_refl eq_refl eq_refl) as [(f & Hf & _)|(body & H1 & H2 & H3)].
  - apply list_elem_of_In. vm_compute. by left.
  - exfalso. apply (f_equal length) in Hf. revert Hf. vm_compute. discriminate.
  - exists body. split; [exact H1|]. split; [exact H2|exact H3].
Defined.

(** When a member that has the gem does not answer /versions, the listed hash is
    the other member's, and /info is that of both. *)
Theorem lone_listing_hash : virtual_get true "/versions" =
    inl (Reply 200 (buildVersions "now" [("foo", (["1.0"], md5Hex (demo_info "a")))])) /\
  virtual_get true "/info/foo" = inl (Reply 200 demo_merged) /\
  md5Hex (demo_info "a") <> md5Hex demo_merged.
Proof. vm_compute. split; [reflexivity|split; [reflexivity|discriminate]]. Qed.

End examples.
