(* ===== verification/GoProxy.v ===== *)
(** * internal/registry/goproxy: the Go module proxy

    [GoStore] is the store of one repository over any mount of Backend.v
    (store.go); [Local] the hosted repository (local.go, extensions.go), the
    section [remote] the pull-through cache (remote.go), the section [virtual]
    the virtual repository on top of Virtual.v (virtual.go); [parsePath] reads
    the requests (handler.go) and [buildPackageDetail] the admin view
    (detail.go).  Paths, versions and go.mod are those of GoModule.v.

    A time of a .info file is an abstract type with its RFC 3339 layout and
    parser; file times and TTLs are seconds.  The upstream client is the
    parameter [Upstream] of a module and a URL path. *)

From Stdlib Require Import ZArith Lia Ascii.
From stdpp Require Import base list strings gmap sorting.
From S2P Require Import Prelude GoStrings GoPath GoHash GoJson Semver GoModule Backend PkgStore.

Local Open Scope Z_scope.
Local Open Scope kutu_scope.

(** ** Errors *)

(** [ErrNotFound], a read-only mount, an error of the mount, an error while
    reading a body. *)
Inductive GoError := ErrNotFound | ReadOnlyMount | OfMount (e : FSError) | OfReader (msg : string).

Definition text_missing (text : string) : bool :=
  let low := ToLower text in
  Contains low "not found" || Contains low "no such file" || Contains low "does not exist".

Definition isNotFound (e : FSError) : bool := text_missing (errText e).

Definition go_text (e : GoError) : string :=
  match e with
  | ErrNotFound => "goproxy: not found"
  | ReadOnlyMount => "goproxy: backend is read-only"
  | OfMount e => errText e
  | OfReader msg => msg
  end.

Definition missing (e : GoError) : bool := text_missing (go_text e).

Definition mapNotFound (e : FSError) : GoError := if isNotFound e then ErrNotFound else OfMount e.

Definition read_all (r : Reader) : result GoError string :=
  match rErr r with None => Ok (rData r) | Some msg => Err (OfReader msg) end.

(** ** .info documents *)

Section times.
Context {T : Type}.
Variables (FormatTime : T -> string) (ParseTime : string -> option T) (zeroTime : T).

Record VersionInfo := { viVersion : string; viTime : T }.

Definition info_json (i : VersionInfo) : Json :=
  JObject [("Version", JString (viVersion i)); ("Time", JString (FormatTime (viTime i)))].

Definition encode_info (i : VersionInfo) : string := write (info_json i).

Definition info_shape : Shape := TStruct [("Version", TString); ("Time", TText (fun s => is_some (ParseTime s)))].

Definition json_time (j : Json) : option T := s ← as_string j; ParseTime s.

(** [json.Unmarshal] into a zero [VersionInfo]. *)
Definition decode_info (b : string) : option VersionInfo :=
  j ← parse b;
  if match j with JObject _ | JNull => fits info_shape j | _ => false end then
    let m := members j in
    Some {| viVersion := scan_field as_string "Version" "" m; viTime := scan_field json_time "Time" zeroTime m |}
  else None.
End times.

Arguments VersionInfo : clear implicits.

(** ** The store *)

Section store.
Context {F : Type} `{Backend F}.

Record GoStore := { gfs : F; gbase : string }.

Definition NewGoStore (fs : F) (base : string) : GoStore := {| gfs := fs; gbase := Trim base "/" |}.

Definition set_fs (s : GoStore) (f : F) : GoStore := {| gfs := f; gbase := gbase s |}.

Definition join (s : GoStore) (parts : list string) : string :=
  PathJoin (if String.eqb (gbase s) "" then parts else gbase s :: parts).

Definition moduleDir (s : GoStore) (m : string) : string := join s ["modules"; EncodeModulePath m].

Definition versionPath (s : GoStore) (m v ext : string) : string :=
  PathJoin [moduleDir s m; "@v"; v +:+ "." +:+ ext].

Definition listPath (s : GoStore) (m : string) : string := PathJoin [moduleDir s m; "@v"; "list"].
Definition latestPath (s : GoStore) (m : string) : string := PathJoin [moduleDir s m; "@latest"].

Definition OpenVersionFile (s : GoStore) (m v ext : string) : result GoError (Reader * FileInfo) :=
  match Open (gfs s) (versionPath s m v ext) with Ok x => Ok x | Err e => Err (mapNotFound e) end.

Definition StatVersionFile (s : GoStore) (m v ext : string) : result GoError FileInfo :=
  match Stat (gfs s) (versionPath s m v ext) with Ok x => Ok x | Err e => Err (mapNotFound e) end.

(** The cached list and latest are deleted; an error there is dropped. *)
Definition invalidate (s : GoStore) (m : string) : GoStore :=
  let f := (Delete (gfs s) (listPath s m)).2 in set_fs s (Delete f (latestPath s m)).2.

Definition WriteVersionFile (s : GoStore) (m v ext : string) (r : Reader) (size : Z) : option GoError * GoStore :=
  if IsWritable (gfs s) then
    match Write (gfs s) (versionPath s m v ext) r size with
    | (Some e, f) => (Some (OfMount e), set_fs s f)
    | (None, f) => (None, invalidate (set_fs s f) m)
    end
  else (Some ReadOnlyMount, s).

Definition delete_ext (m v : string) (st : option GoError * GoStore) (ext : string) : option GoError * GoStore :=
  let '(first, s) := st in
  let '(e, f) := Delete (gfs s) (versionPath s m v ext) in
  (match e with
   | Some e => if isNotFound e then first else match first with None => Some (OfMount e) | _ => first end
   | None => first
   end, set_fs s f).

Definition versionFileExts : list string := ["info"; "mod"; "zip"].

Definition DeleteVersion (s : GoStore) (m v : string) : option GoError * GoStore :=
  if IsWritable (gfs s) then
    let '(first, s) := foldl (delete_ext m v) (None, s) versionFileExts in (first, invalidate s m)
  else (Some ReadOnlyMount, s).

(** The version an entry of @v marks. *)
Definition marked (e : DirEntry) : option string :=
  if eIsDir e || negb (HasSuffix (eName e) ".info") then None
  else let v := TrimSuffix (eName e) ".info" in if String.eqb v "" then None else Some v.

Definition cachedListVersions (s : GoStore) (m : string) : result GoError (list string) :=
  match Open (gfs s) (listPath s m) with
  | Err e => Err (mapNotFound e)
  | Ok (r, _) =>
      let! body := read_all r in
      Ok (List.filter (fun v => negb (String.eqb v "")) (TrimSpace <$> Split body (chr 10)))
  end.

Context {T : Type}.
Variables (FormatTime : T -> string) (ParseTime : string -> option T) (zeroTime : T).

Definition cachedLatestVersion (s : GoStore) (m : string) : result GoError string :=
  match Open (gfs s) (latestPath s m) with
  | Err e => Err (mapNotFound e)
  | Ok (r, _) =>
      let! body := read_all r in
      Ok (match decode_info ParseTime zeroTime body with Some i => TrimSpace (viVersion i) | None => "" end)
  end.

(** A missing source adds nothing; another error ends the listing. *)
Definition tolerate {A} (none : A) (r : result GoError A) : result GoError A :=
  match r with Err e => if missing e then Ok none else Err e | r => r end.

Definition ListVersions (s : GoStore) (m : string) : result GoError (list string) :=
  let! marks := tolerate [] (match ReadDir (gfs s) (PathJoin [moduleDir s m; "@v"]) with
                             | Ok es => Ok (omap marked es) | Err e => Err (OfMount e) end) in
  let! listed := tolerate [] (cachedListVersions s m) in
  let! latest := tolerate "" (cachedLatestVersion s m) in
  Ok (sortStr (remove_dups (marks ++ listed ++ (if String.eqb latest "" then [] else [latest])))).

(** A cached copy that is younger than the TTL. *)
Definition fresh_copy (s : GoStore) (key : string) (ttl now : Z) : option Reader :=
  if 0 <? ttl then
    match Open (gfs s) key with
    | Ok (r, fi) => if now - ModTime fi <? ttl then Some r else None
    | Err _ => None
    end
  else None.

(** The copy is written back; an error is dropped, as is a read-only mount. *)
Definition write_back (s : GoStore) (key body : string) : GoStore :=
  if IsWritable (gfs s) then set_fs s (Write (gfs s) key (reader body) (Z.of_nat (len body))).2 else s.

Definition newline : string := String (chr 10) "".

Definition list_body (versions : list string) : string :=
  Join versions newline +:+ match versions with [] => "" | _ => newline end.

Definition CachedList (s : GoStore) (m : string) (ttl now : Z) : result GoError string * GoStore :=
  match fresh_copy s (listPath s m) ttl now with
  | Some r => (read_all r, s)
  | None =>
      match ListVersions s m with
      | Err e => (Err e, s)
      | Ok vs => (Ok (list_body vs), write_back s (listPath s m) (list_body vs))
      end
  end.

Definition SortVersionsDesc (vs : list string) : list string := SortDesc vs ModeStrict.

Definition CachedLatest (s : GoStore) (m : string) (ttl now : Z) : result GoError string * GoStore :=
  match fresh_copy s (latestPath s m) ttl now with
  | Some r => (read_all r, s)
  | None =>
      match ListVersions s m with
      | Err e => (Err e, s)
      | Ok vs =>
          match SortVersionsDesc vs with
          | [] => (Err ErrNotFound, s)
          | latest :: _ =>
              match OpenVersionFile s m latest "info" with
              | Err e => (Err e, s)
              | Ok (r, _) =>
                  match read_all r with
                  | Err e => (Err e, s)
                  | Ok body => (Ok body, write_back s (latestPath s m) body)
                  end
              end
          end
      end
  end.

(** ** The tree of modules *)

Definition joinPrefix (prefix seg : string) : string :=
  if String.eqb prefix "" then seg else prefix +:+ "/" +:+ seg.

Definition moduleDirHasVersionMarkers (fs : F) (dir : string) : bool :=
  match ReadDir fs (PathJoin [dir; "@v"]) with
  | Ok es => existsb (fun e => negb (eIsDir e) && (String.eqb (eName e) "list" || HasSuffix (eName e) ".info")) es
  | Err _ => false
  end || is_ok (Stat fs (PathJoin [dir; "@latest"])).

(** An entry whose name does not decode is skipped with all it holds. *)
Fixpoint walkModules (fuel : nat) (fs : F) (dir prefix : string) : result FSError (list string) :=
  match fuel with
  | O => Err (Failed "out of fuel")
  | S fuel =>
      let! es := ReadDir fs dir in
      Ok (es ≫= fun e =>
        if negb (eIsDir e) then []
        else
          let child := PathJoin [dir; eName e] in
          let sub := match walkModules fuel fs child (joinPrefix prefix (eName e)) with Ok l => l | Err _ => [] end in
          if moduleDirHasVersionMarkers fs child then
            match DecodeModulePath (joinPrefix prefix (eName e)) with
            | Err _ => []
            | Ok m => m :: sub
            end
          else sub)
  end.

Definition ListModules (fuel : nat) (s : GoStore) : result FSError (list string) :=
  match walkModules fuel (gfs s) (join s ["modules"]) "" with
  | Ok l => Ok (sortStr l)
  | Err e => if isNotFound e then Ok [] else Err e
  end.

Definition WriteInfo (s : GoStore) (m v : string) (i : VersionInfo T) : option GoError * GoStore :=
  let body := encode_info FormatTime i in WriteVersionFile s m v "info" (reader body) (Z.of_nat (len body)).

Definition EtagFor (fingerprint : string) : string :=
  if String.eqb fingerprint "" then "" else String (chr 34) (str_take 32 (hexSHA256 fingerprint)) +:+ String (chr 34) "".

Definition EtagForList (body : string) : string := EtagFor body.

Definition ReadVersionInfo (s : GoStore) (m v : string) : result GoError (VersionInfo T) :=
  let! x := OpenVersionFile s m v "info" in
  let! body := read_all x.1 in
  Ok (match decode_info ParseTime zeroTime body with
      | Some i => i
      | None => {| viVersion := v; viTime := zeroTime |}
      end).

Definition ReadGoMod (s : GoStore) (m v : string) : result GoError string :=
  let! x := OpenVersionFile s m v "mod" in read_all x.1.

Definition VersionSize (s : GoStore) (m v ext : string) : Z :=
  match Stat (gfs s) (versionPath s m v ext) with Ok fi => Size fi | Err _ => 0 end.

Definition LatestVersionSemver (s : GoStore) (m : string) : string :=
  match ListVersions s m with Ok vs => default "" (head (SortVersionsDesc vs)) | Err _ => "" end.

(** The modules, whatever the walk made of them. *)
Definition modules_of (fuel : nat) (s : GoStore) : list string :=
  match ListModules fuel s with Ok l => l | Err _ => [] end.

Definition count_module (s : GoStore) (acc : Z * Z) (m : string) : Z * Z :=
  let atV := PathJoin [moduleDir s m; "@v"] in
  match ReadDir (gfs s) atV with
  | Err _ => acc
  | Ok es =>
      let '(n, b) := foldl (fun '(n, b) e =>
          if eIsDir e then (n, b)
          else (if HasSuffix (eName e) ".info" then n + 1 else n,
                match Stat (gfs s) (PathJoin [atV; eName e]) with
                | Ok fi => wrap64 (b + Size fi) | Err _ => b end)) acc es in
      (n, match Stat (gfs s) (latestPath s m) with Ok fi => wrap64 (b + Size fi) | Err _ => b end)
  end.

Definition CountModulesVersionsBytes (fuel : nat) (s : GoStore) : Z * Z * Z :=
  let mods := modules_of fuel s in
  let '(n, b) := foldl (count_module s) (0, 0) mods in (Z.of_nat (length mods), n, b).

(** ** Purging *)

Record Purged := { pgCount : Z; pgBytes : Z; pgErrors : list FSError }.

(** A file that is there is deleted; [report] says whether a failure is noted. *)
Definition purge_file (report : bool) (st : Purged * GoStore) (p : string) : Purged * GoStore :=
  let '(acc, s) := st in
  match Stat (gfs s) p with
  | Err _ => (acc, s)
  | Ok fi =>
      match Delete (gfs s) p with
      | (None, f) => ({| pgCount := pgCount acc + 1; pgBytes := wrap64 (pgBytes acc + Size fi); pgErrors := pgErrors acc |}, set_fs s f)
      | (Some e, f) =>
          (if report && negb (isNotFound e)
           then {| pgCount := pgCount acc; pgBytes := pgBytes acc; pgErrors := pgErrors acc ++ [e] |} else acc, set_fs s f)
      end
  end.

Definition purge_pointers (report : bool) (st : Purged * GoStore) (m : string) : Purged * GoStore :=
  foldl (purge_file report) st [listPath st.2 m; latestPath st.2 m].

Definition purge_module (st : Purged * GoStore) (m : string) : Purged * GoStore :=
  let st := purge_pointers false st m in
  let atV := PathJoin [moduleDir st.2 m; "@v"] in
  match ReadDir (gfs st.2) atV with
  | Err _ => st
  | Ok es => foldl (purge_file true) st ((fun e => PathJoin [atV; eName e]) <$> List.filter (fun e => negb (eIsDir e)) es)
  end.

Definition nothing_purged : Purged := {| pgCount := 0; pgBytes := 0; pgErrors := [] |}.

Definition PurgeMutable (fuel : nat) (s : GoStore) : Purged * GoStore :=
  if IsWritable (gfs s) then foldl (purge_pointers true) (nothing_purged, s) (modules_of fuel s)
  else ({| pgCount := 0; pgBytes := 0; pgErrors := [Failed "goproxy: backend is read-only"] |}, s).

Definition PurgeAll (fuel : nat) (s : GoStore) : Purged * GoStore :=
  if IsWritable (gfs s) then foldl purge_module (nothing_purged, s) (modules_of fuel s)
  else ({| pgCount := 0; pgBytes := 0; pgErrors := [Failed "goproxy: backend is read-only"] |}, s).

End store.

Arguments GoStore : clear implicits.
