(* ===== verification/GoProxyPaths.v ===== *)
(** * Paths of the Go module proxy

    The case encoding acts on each segment of a module path, whatever its bytes;
    so the files of an accepted module are below base/modules, and two canonical
    modules share none.  A "." segment is accepted and dropped by path.Join. *)

From Stdlib Require Import ZArith Lia Ascii.
From stdpp Require Import base list strings gmap.
From S2P Require Import Prelude GoStrings GoPath GoRegexp GoJsonLaws GoModule Backend GoProxy.

Local Open Scope Z_scope.

(** ** Runes at an ASCII byte *)

Ltac rune_cases := unfold DecodeRune;
  repeat match goal with
  | |- context [match ?t with "" => _ | String _ _ => _ end] => destruct t; cbn [fst snd]
  | |- context [if ?b then _ else _] => destruct b eqn:?; cbn [fst snd]
  end.

Lemma DecodeRune_width s : s <> "" -> (1 <= (DecodeRune s).2 <= len s)%nat.
Proof. intros Hs. destruct s as [|c t]; [done|]. unfold len. rune_cases; cbn; lia. Qed.

(** A rune below 128 is a byte. *)
Lemma DecodeRune_low c t : (DecodeRune (String c t)).1 < 128 -> DecodeRune (String c t) = (ord c, 1%nat) /\ ord c < 128.
Proof.
  pose proof (ord_range c). unfold DecodeRune, RuneError.
  destruct (ord c <? 0x80) eqn:E0; [bool_prop; by split|].
  destruct ((ord c <? 0xC2) || (0xF4 <? ord c)) eqn:E1; [cbn; lia|].
  destruct t as [|c1 t]; [cbn; lia|]. pose proof (ord_range c1).
  destruct (negb (second_ok (ord c) c1)) eqn:E2; [cbn; lia|]. unfold second_ok, is_cont in E2.
  destruct (ord c <? 0xE0) eqn:E3; [cbn [fst]; bool_prop; intros; exfalso; euclid|].
  destruct t as [|c2 t]; [cbn; lia|]. pose proof (ord_range c2).
  destruct (negb (is_cont c2)) eqn:E4; [cbn; lia|]. unfold is_cont in E4.
  destruct (ord c <? 0xF0) eqn:E5.
  { cbn [fst]. revert E2. cases; intros; bool_prop; exfalso; euclid. }
  destruct t as [|c3 t]; [cbn; lia|]. pose proof (ord_range c3).
  destruct (negb (is_cont c3)) eqn:E6; [cbn; lia|]. unfold is_cont in E6.
  cbn [fst]. revert E2. cases; intros; bool_prop; exfalso; euclid.
Qed.

(** An ASCII byte ends what comes before it. *)
Lemma DecodeRune_ends a c b : a <> "" -> ord c < 128 -> DecodeRune (a +:+ String c b) = DecodeRune a.
Proof.
  intros Ha Hc. assert (Hcont : is_cont c = false) by (unfold is_cont; by rewrite (leb_false 128)).
  assert (H2 : forall b0, second_ok b0 c = false).
  { intros b0. unfold second_ok. rewrite Hcont, !(leb_false _ (ord c)) by lia. by repeat match goal with |- context [if ?b then _ else _] => destruct b end. }
  destruct a as [|c0 [|c1 [|c2 [|c3 a]]]]; [done|..]; cbn [String.append DecodeRune]; rewrite ?H2, ?Hcont; cbn [negb];
    repeat match goal with |- (if ?b then _ else _) = _ => destruct b; [done|] end; reflexivity.
Qed.

Lemma runes_go_more fuel : forall s, (len s <= fuel)%nat -> runes_go fuel s = runes s.
Proof.
  assert (H : forall n m s, (len s <= n)%nat -> (len s <= m)%nat -> runes_go n s = runes_go m s).
  { induction n as [|n IH]; intros [|m] s Hn Hm.
    - done.
    - destruct s; [done|]. cbn in Hn. lia.
    - destruct s; [done|]. cbn in Hm. lia.
    - destruct s as [|c t]; [done|]. cbn [runes_go]. pose proof (DecodeRune_width (String c t)) as Hw.
      destruct (DecodeRune (String c t)) as [r k]. f_equal. destruct Hw as [H1 H2]; [done|]. cbn [snd] in *.
      apply IH; rewrite len_drop; lia. }
  intros s Hs. by apply H.
Qed.

Lemma runes_step s : s <> "" -> runes s = (DecodeRune s).1 :: runes (str_drop (DecodeRune s).2 s).
Proof.
  intros Hs. pose proof (DecodeRune_width s Hs) as Hw. unfold runes at 1. destruct s as [|c t]; [done|].
  change (len (String c t)) with (S (len t)). cbn [runes_go]. destruct (DecodeRune (String c t)) as [r k]. cbn [fst snd] in *. f_equal.
  apply runes_go_more. rewrite len_drop. change (len (String c t)) with (S (len t)). lia.
Qed.

Lemma str_drop_app_le n a b : (n <= len a)%nat -> str_drop n (a +:+ b) = str_drop n a +:+ b.
Proof.
  revert n. induction a as [|c a IH]; intros [|n] Hn; [done|by cbn in Hn; lia|done|]. cbn. apply IH.
  change (len (String c a)) with (S (len a)) in Hn. lia.
Qed.

Lemma runes_cut a c b : ord c < 128 -> runes (a +:+ String c b) = runes a ++ ord c :: runes b.
Proof.
  intros Hc. remember (len a) as n eqn:En. revert a En. induction n as [n IH] using lt_wf_ind. intros a ->.
  destruct (decide (a = "")) as [->|Ha].
  { change ("" +:+ String c b) with (String c b). rewrite runes_step by done. unfold DecodeRune. rewrite ltb_true by done. done. }
  rewrite (runes_step (a +:+ String c b)) by (by destruct a). rewrite DecodeRune_ends, (runes_step a) by done.
  pose proof (DecodeRune_width a Ha) as Hw. rewrite str_drop_app_le by lia. cbn [app]. f_equal.
  eapply IH; [|done]. rewrite len_drop. lia.
Qed.

(** The bytes below 128 of a string are its runes below 128. *)
Lemma runes_low s r : r ∈ runes s -> r < 128 -> exists a b, s = a +:+ String (chr r) b.
Proof.
  remember (len s) as n eqn:En. revert s En. induction n as [n IH] using lt_wf_ind. intros s -> Hin Hr.
  destruct (decide (s = "")) as [->|Hs]; [by apply elem_of_nil in Hin|].
  rewrite runes_step in Hin by done. pose proof (DecodeRune_width s Hs) as Hw.
  apply elem_of_cons in Hin as [->|Hin].
  - destruct s as [|c t]; [done|]. destruct (DecodeRune_low c t Hr) as [E _]. rewrite E. cbn [fst]. exists "", t.
    by rewrite chr_ord.
  - destruct (IH (len (str_drop (DecodeRune s).2 s)) ltac:(rewrite len_drop; lia) _ eq_refl Hin Hr) as (a & b & E).
    exists (str_take (DecodeRune s).2 s +:+ a), b. rewrite str_app_assoc, <-E. by rewrite take_drop_str.
Qed.

(** ** Encoded segments *)

Lemma Encode_cons s : s <> "" -> EncodeModulePath s = encode_rune (DecodeRune s).1 +:+ EncodeModulePath (str_drop (DecodeRune s).2 s).
Proof. intros Hs. rewrite !EncodeModulePath_eq, (runes_step s) by done. done. Qed.

Lemma Encode_cut a b : EncodeModulePath (a +:+ String "/" b) = EncodeModulePath a +:+ String "/" (EncodeModulePath b).
Proof.
  rewrite !EncodeModulePath_eq, runes_cut by done. rewrite foldr_app. cbn [foldr].
  set (x := foldr (fun r acc => encode_rune r +:+ acc) "" (runes b)).
  change (encode_rune (ord "/") +:+ x) with (String "/" x). generalize (String "/" x). intros y.
  induction (runes a) as [|r l IH]; [done|]. cbn [foldr]. by rewrite IH, str_app_assoc.
Qed.

Lemma encode_rune_bytes r c : 0 <= r -> no_byte c (encode_rune r) = false -> ord c < 128 -> is_lower c = false -> c <> "!"%char -> r = ord c.
Proof.
  intros H0 Hn Hc Hl Hb. unfold encode_rune in Hn.
  destruct ((65 <=? r) && (r <=? 90)) eqn:E; bool_prop.
  - exfalso. destruct (EncodeRune_bytes (r + 32)) as [[_ Er]|[? _]]; [|lia]. rewrite Er in Hn. unfold no_byte in Hn. cbn [ContainsByte] in Hn.
    destruct (Ascii.eqb_spec "!" c); [by subst|]. cbn [orb] in Hn.
    destruct (Ascii.eqb_spec (chr (r + 32)) c) as [<-|]; [|done]. unfold is_lower in Hl. rewrite ord_chr in Hl by lia.
    rewrite (leb_true 97), (leb_true _ 122) in Hl by lia. done.
  - destruct (EncodeRune_bytes r) as [[Hr Er]|[_ Hh]].
    + rewrite Er in Hn. unfold no_byte in Hn. cbn [ContainsByte] in Hn. destruct (Ascii.eqb_spec (chr r) c) as [<-|]; [|done]. by rewrite ord_chr by lia.
    + exfalso. revert Hn Hh. generalize (EncodeRune r). intros x. induction x as [|d x IH]; [done|]. cbn [str_forallb].
      unfold no_byte. cbn [ContainsByte]. intros Hn [Hd Hh]%andb_true_iff. apply Z.leb_le in Hd.
      destruct (Ascii.eqb_spec d c) as [->|]; [lia|]. cbn [orb] in Hn. by apply IH.
Qed.

(** An ASCII byte that no encoding makes up comes from the path itself. *)
Lemma Encode_byte s c : ord c < 128 -> is_lower c = false -> c <> "!"%char -> no_byte c s = true -> no_byte c (EncodeModulePath s) = true.
Proof.
  intros Hc Hl Hb Hs. rewrite EncodeModulePath_eq.
  assert (H : forall r, r ∈ runes s -> 0 <= r /\ r <> ord c).
  { intros r Hr. assert (H0 : 0 <= r).
    { pose proof (proj1 (Forall_forall _ _) (runes_go_scalar (len s) s) r Hr) as Hsc. unfold scalar in Hsc. lia. }
    split; [done|]. intros ->. destruct (runes_low s (ord c) Hr Hc) as (a & b & E). rewrite chr_ord in E. subst s.
    rewrite no_byte_app in Hs. apply andb_true_iff in Hs as [_ Hs]. unfold no_byte in Hs. cbn in Hs. by rewrite Ascii.eqb_refl in Hs. }
  induction (runes s) as [|r l IH]; [done|]. cbn [foldr]. rewrite no_byte_app. apply andb_true_iff. split.
  - destruct (no_byte c (encode_rune r)) eqn:E; [done|]. exfalso. destruct (H r ltac:(by left)) as [H0 Hne].
    apply Hne. by apply encode_rune_bytes.
  - apply IH. intros r' Hr'. apply H. by right.
Qed.

Lemma EncodeRune_ne r : EncodeRune r <> "".
Proof. unfold EncodeRune. by repeat case_match. Qed.

Lemma encode_rune_first r : 0 <= r -> exists c t, encode_rune r = String c t /\ (ord c = 46 -> r = 46 /\ t = "").
Proof.
  intros H0. unfold encode_rune. destruct ((65 <=? r) && (r <=? 90)) eqn:E; [by exists "!"%char, (EncodeRune (r + 32))|].
  destruct (EncodeRune_bytes r) as [[Hr ->]|[Hr Hh]].
  - exists (chr r), "". split; [done|]. rewrite ord_chr by lia. done.
  - pose proof (EncodeRune_ne r) as Hne. destruct (EncodeRune r) as [|c t]; [done|]. exists c, t. split; [done|]. cbn [str_forallb] in Hh.
    apply andb_true_iff in Hh as [Hh _]. apply Z.leb_le in Hh. lia.
Qed.

(** A dot in front of an encoded string is one of the string. *)
Lemma Encode_dot s t : EncodeModulePath s = String "." t -> exists s', s = String "." s' /\ EncodeModulePath s' = t.
Proof.
  intros E. destruct (decide (s = "")) as [->|Hs]; [done|]. rewrite Encode_cons in E by done.
  assert (H0 : 0 <= (DecodeRune s).1).
  { pose proof (DecodeRune_scalar s) as H. unfold scalar in H. lia. }
  destruct (encode_rune_first _ H0) as (c & x & Ec & Hc). rewrite Ec in E. injection E as -> E.
  destruct (Hc eq_refl) as [Hr ->]. destruct s as [|d u]; [done|]. destruct (DecodeRune_low d u) as [Ed Hd]; [lia|].
  rewrite Ed in E, Hr. cbn [fst snd] in E, Hr. exists u. split; [|exact E]. f_equal. rewrite <-(chr_ord d), Hr. done.
Qed.

Lemma Encode_nonempty s : s <> "" -> EncodeModulePath s <> "".
Proof.
  intros Hs. rewrite Encode_cons by done. pose proof (DecodeRune_scalar s) as H. unfold scalar in H.
  destruct (encode_rune_first (DecodeRune s).1 ltac:(lia)) as (c & x & -> & _). done.
Qed.

Lemma Encode_segments p : Split (EncodeModulePath p) "/" = EncodeModulePath <$> Split p "/".
Proof.
  pose proof (Split_no_sep p "/") as Hall. pose proof (Split_nonempty p "/") as Hne. pose proof (Join_Split p "/") as HJ. revert Hall Hne HJ.
  generalize (Split p "/"). intros l. revert p. induction l as [|x l IH]; intros p Hall Hne <-; [done|].
  apply Forall_cons in Hall as [Hx Hall]. assert (Hx' : no_byte "/" (EncodeModulePath x) = true) by (by apply Encode_byte).
  destruct l as [|y l]; [cbn [Join]; by rewrite Split_single|].
  rewrite Join_cons. change (String "/" "" +:+ Join (y :: l) (String "/" "")) with (String "/" (Join (y :: l) (String "/" ""))).
  rewrite Encode_cut, Split_app, Split_single by done. rewrite (IH _ Hall) by done. done.
Qed.

(** ** Joining with "." segments *)

Definition dotless (l : list string) : list string := List.filter (fun x => negb (String.eqb x ".")) l.

Definition ok_seg (x : string) : Prop := x = "." \/ good_seg x.

Lemma dotless_good l : Forall ok_seg l -> Forall good_seg (dotless l).
Proof.
  induction 1 as [|x l [->|Hx] _ IH]; [constructor|done|]. cbn [dotless List.filter].
  destruct (String.eqb_spec x "."); [done|]. by constructor.
Qed.

Lemma dotless_id l : Forall good_seg l -> dotless l = l.
Proof.
  induction 1 as [|x l (_ & Hx & _) _ IH]; [done|]. cbn [dotless List.filter]. destruct (String.eqb_spec x "."); [done|]. cbn. by f_equal.
Qed.

Lemma dotless_app a b : dotless (a ++ b) = dotless a ++ dotless b.
Proof. apply List.filter_app. Qed.

Lemma clean_dots l : Forall ok_seg l -> forall stack, foldl (clean_step false) stack l = rev (dotless l) ++ stack.
Proof.
  induction 1 as [|x l Hx _ IH]; intros stack; [done|]. cbn [foldl]. destruct Hx as [->|(H1 & H2 & H3 & _)].
  - cbn [clean_step String.eqb orb]. by rewrite IH.
  - cbn [dotless List.filter]. unfold clean_step at 2. apply String.eqb_neq in H1, H2, H3. rewrite H1, H2, H3. cbn [orb negb rev].
    by rewrite IH, <-app_assoc.
Qed.

Lemma Split_Join_concat p l : Split (Join (p :: l) "/") "/" = concat ((fun q => Split q "/") <$> (p :: l)).
Proof.
  revert p. induction l as [|q l IH]; intros p; [cbn; by rewrite app_nil_r|].
  rewrite Join_cons. change ("/" +:+ Join (q :: l) "/") with (String "/" (Join (q :: l) "/")). rewrite Split_app, IH. done.
Qed.

Lemma join_texts l : forall buf, buf <> "" -> foldl join_step buf l = Join (buf :: l) "/".
Proof.
  induction l as [|p l IH]; intros buf Hb; [done|]. cbn [foldl].
  assert (E : join_step buf p = buf +:+ "/" +:+ p).
  { unfold join_step. replace (0 <? len buf)%nat with true by (by destruct buf). cbn [orb]. by rewrite str_app_assoc. }
  rewrite E, IH by (by destruct buf). destruct l as [|q l]; [by rewrite Join_cons|]. by rewrite !Join_cons, !str_app_assoc.
Qed.

(** [path.Join] of segments and dots is the segments. *)
Lemma PathJoin_dots p l : let segs := concat ((fun q => Split q "/") <$> (p :: l)) in
  Forall ok_seg segs -> dotless segs <> [] -> PathJoin (p :: l) = Join (dotless segs) "/".
Proof.
  intros segs Hs Hne. assert (Hp : p <> "").
  { intros ->. apply Forall_cons in Hs as [[Hs|[Hs _]] _]; done. }
  assert (Hu : HasPrefix (Join (p :: l) "/") "/" = false).
  { destruct (HasPrefix _ _) eqn:E; [|done]. apply HasPrefix_spec in E as [r E]. pose proof (Split_Join_concat p l) as H. rewrite E in H.
    fold segs in H. rewrite <-H in Hs. apply Forall_cons in Hs as [[Hs|[Hs _]] _]; done. }
  unfold PathJoin. cbn [forallb]. rewrite (proj2 (String.eqb_neq p "") Hp). cbn [andb foldl].
  assert (E : join_step "" p = p) by (unfold join_step; by rewrite (proj2 (String.eqb_neq p "") Hp)).
  rewrite E, join_texts by done. unfold Clean. rewrite Hu, Split_Join_concat, clean_dots, app_nil_r, rev_involutive by done.
  fold segs. destruct (String.eqb_spec (Join (dotless segs) "/") "") as [E'|]; [|done]. exfalso.
  pose proof (Join_segs_good _ Hne (dotless_good _ Hs)) as Hg. rewrite E' in Hg. by apply good_path_nonempty in Hg.
Qed.

(** ** Paths of a module *)

Definition accepted (m : string) : Prop := ValidateModulePath m = None.

(** What the encoding and the mount keep apart. *)
Record canonical (m : string) : Prop := {
  cn_accepted : accepted m;
  cn_text : ValidString m = true;
  cn_bang : no_byte "!" m = true;
  cn_dots : "." ∉ Split m "/";
}.

Definition module_segs (m : string) : list string := dotless (EncodeModulePath <$> Split m "/").

Lemma Encode_dots x : EncodeModulePath x = "." -> x = ".".
Proof.
  intros (y & -> & Hy)%Encode_dot. destruct (decide (y = "")) as [->|Hn]; [done|]. by apply Encode_nonempty in Hn.
Qed.

Lemma Encode_seg x : good_seg x -> good_seg (EncodeModulePath x).
Proof.
  intros (H1 & H2 & H3 & H4). split_and!.
  - by apply Encode_nonempty.
  - by intros ?%Encode_dots.
  - intros (y & -> & Hy%Encode_dots)%Encode_dot. by subst.
  - by apply Encode_byte.
Qed.

Lemma ok_segs l : Forall ok_seg l -> Forall ok_seg (EncodeModulePath <$> l).
Proof.
  intros H. apply Forall_fmap. eapply Forall_impl; [exact H|]. intros x [->|Hx]; [by left|right]. by apply Encode_seg.
Qed.

(** A segment of a path is part of its text. *)
Lemma Join_infix l x : x ∈ l -> exists u w, Join l "/" = u +:+ x +:+ w.
Proof.
  intros (a & b & ->)%list_elem_of_split. induction a as [|q a (u & w & IH)].
  - destruct b as [|y b]; [exists "", ""; cbn [app Join]; by rewrite app_empty_r|]. by exists "", ("/" +:+ Join (y :: b) "/").
  - exists (q +:+ "/" +:+ u), w. cbn [app].
    assert (Hc : exists q' l, a ++ x :: b = q' :: l) by (destruct a; eauto). destruct Hc as (q' & l & Hc).
    rewrite Hc in IH |- *. by rewrite Join_cons, IH, !str_app_assoc.
Qed.

Lemma accepted_segs m : accepted m -> Forall ok_seg (EncodeModulePath <$> Split m "/").
Proof.
  intros (_ & Hdd & _ & Hseg)%ValidateModulePath_spec. apply ok_segs, Forall_forall. intros x Hx.
  destruct (decide (x = ".")) as [->|Hd]; [by left|right]. split_and!; [|done|..].
  - by apply (proj1 (Forall_forall _ _) Hseg).
  - intros ->. destruct (Join_infix _ _ Hx) as (u & w & E). rewrite Join_Split in E. by apply (Hdd u w).
  - by apply (proj1 (Forall_forall _ _) (Split_no_sep m "/")).
Qed.

(** A module path whose segments, encoded, name directories. *)
Definition proper (m : string) : Prop := Forall ok_seg (EncodeModulePath <$> Split m "/").

Lemma accepted_proper m : accepted m -> proper m.
Proof. apply accepted_segs. Qed.

Lemma canonical_proper m : canonical m -> proper m.
Proof. intros H. apply accepted_proper, H. Qed.

Lemma module_segs_good m : proper m -> Forall good_seg (module_segs m).
Proof. intros H. by apply dotless_good. Qed.

Definition base_segs (b : string) : list string := if String.eqb b "" then [] else Split b "/".

Definition base_ok (b : string) : Prop := b = "" \/ good_path b.

Lemma base_segs_good b : base_ok b -> Forall good_seg (base_segs b).
Proof. unfold base_segs. intros [->|H]; [constructor|]. destruct (String.eqb_spec b ""); [constructor|done]. Qed.

(** ** Decoded directory names *)

Lemma Decode_cut a : forall b m, DecodeModulePath (a +:+ String "/" b) = Ok m ->
  exists x y, DecodeModulePath a = Ok x /\ DecodeModulePath b = Ok y /\ m = x +:+ String "/" y.
Proof.
  remember (len a) as n eqn:En. revert a En. induction n as [n IH] using lt_wf_ind. intros a -> b m.
  destruct a as [|c a].
  - cbn. destruct (DecodeModulePath b) as [y|]; [|done]. intros [= <-]. by exists "", y.
  - rewrite app_cons. cbn [DecodeModulePath]. destruct (negb (Ascii.eqb c "!")).
    + destruct (DecodeModulePath (a +:+ String "/" b)) as [m'|] eqn:E; [|done]. intros [= <-].
      destruct (IH (len a) ltac:(unfold len; cbn; lia) a eq_refl b m' E) as (x & y & -> & Hy & ->). by exists (String c x), y.
    + destruct a as [|d a]; [done|]. rewrite app_cons. destruct (_ || _); [done|].
      destruct (DecodeModulePath (a +:+ String "/" b)) as [m'|] eqn:E; [|done]. intros [= <-].
      destruct (IH (len a) ltac:(unfold len; cbn; lia) a eq_refl b m' E) as (x & y & -> & Hy & ->). by eexists _, y.
Qed.

Lemma Decode_nonempty x : DecodeModulePath x = Ok "" -> x = "".
Proof. destruct x as [|c x]; [done|]. cbn [DecodeModulePath]. repeat case_match; intros; simplify_eq. Qed.

Lemma Decode_dot x t : DecodeModulePath x = Ok (String "." t) -> exists x', x = String "." x' /\ DecodeModulePath x' = Ok t.
Proof.
  destruct x as [|c x]; [done|]. cbn [DecodeModulePath]. destruct (Ascii.eqb_spec c "!") as [->|].
  - destruct x as [|d x]; [done|]. cbn [negb]. destruct (_ || _) eqn:E; [done|]. destruct (DecodeModulePath x) as [y|]; [|done].
    bool_prop. intros [= Hd _]. apply (f_equal ord) in Hd. rewrite ord_chr in Hd by (pose proof (ord_range d); lia).
    change (ord ".") with 46 in Hd. lia.
  - cbn [negb]. destruct (DecodeModulePath x) as [y|] eqn:E; [|done]. intros [= -> ->]. by exists x.
Qed.

Lemma Decode_no_slash x y : DecodeModulePath x = Ok y -> no_byte "/" x = true -> no_byte "/" y = true.
Proof.
  remember (len x) as n eqn:En. revert x y En. induction n as [n IH] using lt_wf_ind. intros x y -> Hd Hn.
  destruct x as [|c x]; [by injection Hd as <-|]. unfold no_byte in Hn. cbn [ContainsByte] in Hn.
  apply negb_true_iff, orb_false_iff in Hn as [Hc Hn]. cbn [DecodeModulePath] in Hd.
  destruct (negb (Ascii.eqb c "!")).
  - destruct (DecodeModulePath x) as [z|] eqn:E; [|done]. injection Hd as <-. unfold no_byte. cbn [ContainsByte]. rewrite Hc.
    apply (IH (len x) ltac:(unfold len; cbn; lia) x z eq_refl E). unfold no_byte. by rewrite Hn.
  - destruct x as [|d x]; [done|]. destruct (_ || _) eqn:Eb; [done|]. destruct (DecodeModulePath x) as [z|] eqn:E; [|done]. injection Hd as <-.
    cbn [ContainsByte] in Hn. apply orb_false_iff in Hn as [_ Hn]. unfold no_byte. cbn [ContainsByte]. bool_prop.
    assert (Hs : Ascii.eqb (chr (ord d - 32)) "/" = false).
    { apply Ascii.eqb_neq. intros Hs. apply (f_equal ord) in Hs. rewrite ord_chr in Hs by (pose proof (ord_range d); lia).
      change (ord "/") with 47 in Hs. lia. }
    rewrite Hs. apply (IH (len x) ltac:(unfold len; cbn; lia) x z eq_refl E). unfold no_byte. by rewrite Hn.
Qed.

Lemma Decode_seg x y : DecodeModulePath x = Ok y -> good_seg x -> good_seg y.
Proof.
  intros Hd (H1 & H2 & H3 & H4). split_and!.
  - intros ->. by apply Decode_nonempty in Hd.
  - intros ->. apply Decode_dot in Hd as (x' & -> & Hd). apply Decode_nonempty in Hd. by subst.
  - intros ->. apply Decode_dot in Hd as (x' & -> & (x'' & -> & Hd)%Decode_dot). apply Decode_nonempty in Hd. by subst.
  - by eapply Decode_no_slash.
Qed.

Lemma Decode_good l : l <> [] -> Forall good_seg l -> forall m, DecodeModulePath (Join l "/") = Ok m -> Forall good_seg (Split m "/").
Proof.
  intros Hne H. induction H as [|x l Hx H IH]; [done|]. intros m. destruct l as [|y l].
  - cbn [Join]. intros Hd. pose proof (Decode_seg _ _ Hd Hx) as Hm. rewrite Split_single by apply Hm. by constructor.
  - rewrite Join_cons. change (x +:+ "/" +:+ Join (y :: l) "/") with (x +:+ String "/" (Join (y :: l) "/")).
    intros (a & b & Ha & Hb & ->)%Decode_cut. pose proof (Decode_seg _ _ Ha Hx) as Hg. rewrite Split_app, Split_single by apply Hg.
    constructor; [done|]. by apply IH.
Qed.

(** A directory path decodes to a module whose files are below it. *)
Lemma Decode_proper p m : good_path p -> DecodeModulePath p = Ok m -> proper m.
Proof.
  intros Hp Hd. apply ok_segs. eapply Forall_impl; [|intros x Hx; right; exact Hx].
  apply (Decode_good (Split p "/")); [apply Split_nonempty|done|by rewrite Join_Split].
Qed.

Section paths.
Context {F : Type} `{Backend F}.
Implicit Types s : GoStore F.

Definition dir_segs s (m : string) : list string := base_segs (gbase s) ++ "modules" :: module_segs m.

Lemma dir_segs_good s m : base_ok (gbase s) -> proper m -> Forall good_seg (dir_segs s m).
Proof.
  intros Hb Hm. unfold dir_segs. apply Forall_app. split; [by apply base_segs_good|]. constructor; [|by apply module_segs_good].
  by vm_compute.
Qed.

Lemma dir_segs_ne s m : dir_segs s m <> [].
Proof. unfold dir_segs. by destruct (base_segs _). Qed.

Lemma moduleDir_eq s m : base_ok (gbase s) -> proper m -> moduleDir s m = Join (dir_segs s m) "/".
Proof.
  intros Hb Hm. unfold moduleDir, join, dir_segs, module_segs. pose proof Hm as Hs. unfold proper in Hs.
  assert (Hg : good_seg "modules") by (by vm_compute).
  unfold base_segs. destruct Hb as [Hb|Hb]; [rewrite Hb|].
  - cbn [String.eqb app]. rewrite PathJoin_dots; cbn [fmap list_fmap concat]; rewrite app_nil_r, Encode_segments, (Split_single "modules") by done.
    + done.
    + constructor; [by right|done].
    + done.
  - destruct (String.eqb_spec (gbase s) "") as [Eb|Eb]; [by rewrite Eb in Hb; apply good_path_nonempty in Hb|].
    assert (Hok : Forall ok_seg (Split (gbase s) "/")) by (eapply Forall_impl; [exact Hb|by right]).
    rewrite PathJoin_dots; cbn [fmap list_fmap concat]; rewrite app_nil_r, Encode_segments, (Split_single "modules") by done.
    + rewrite dotless_app. rewrite (dotless_id (Split (gbase s) "/")) by done. done.
    + apply Forall_app. split; [done|]. constructor; [by right|done].
    + rewrite dotless_app. intros [_ E]%app_eq_nil. done.
Qed.

Lemma below_dir s m l : base_ok (gbase s) -> proper m -> Forall good_seg l -> l <> [] ->
  PathJoin (moduleDir s m :: l) = Join (dir_segs s m ++ l) "/" /\ good_path (Join (dir_segs s m ++ l) "/").
Proof.
  intros Hb Hm Hl Hne. pose proof (dir_segs_good s m Hb Hm) as Hd. pose proof (dir_segs_ne s m) as Hn.
  assert (Hgp : good_path (Join (dir_segs s m) "/")) by (by apply Join_segs_good). split.
  - rewrite moduleDir_eq by done. rewrite PathJoin_good; [|done|].
    + symmetry. rewrite <-(Join_Split (Join (_ :: l) _) "/"), Split_Join_concat. cbn [fmap list_fmap concat].
      rewrite Split_Join_good by done. do 2 f_equal. clear Hne. induction Hl as [|x l Hx _ IH]; [done|]. cbn [fmap list_fmap concat].
      rewrite (Split_single x) by apply Hx. cbn. by f_equal.
    + constructor; [done|]. eapply Forall_impl; [exact Hl|]. intros x. apply good_seg_path.
  - apply Join_segs_good; [by destruct (dir_segs s m)|]. by apply Forall_app.
Qed.

Lemma versionPath_eq s m v ext : base_ok (gbase s) -> proper m -> good_seg (v +:+ "." +:+ ext) ->
  versionPath s m v ext = Join (dir_segs s m ++ ["@v"; v +:+ "." +:+ ext]) "/" /\ good_path (versionPath s m v ext).
Proof.
  intros Hb Hm Hv. destruct (below_dir s m ["@v"; v +:+ "." +:+ ext] Hb Hm) as [E Hg]; [|done|].
  - constructor; [by vm_compute|by constructor].
  - unfold versionPath. by rewrite E.
Qed.

Lemma listPath_eq s m : base_ok (gbase s) -> proper m ->
  listPath s m = Join (dir_segs s m ++ ["@v"; "list"]) "/" /\ good_path (listPath s m).
Proof.
  intros Hb Hm. destruct (below_dir s m ["@v"; "list"] Hb Hm) as [E Hg]; [|done|].
  - by repeat constructor.
  - unfold listPath. by rewrite E.
Qed.

Lemma latestPath_eq s m : base_ok (gbase s) -> proper m ->
  latestPath s m = Join (dir_segs s m ++ ["@latest"]) "/" /\ good_path (latestPath s m).
Proof.
  intros Hb Hm. destruct (below_dir s m ["@latest"] Hb Hm) as [E Hg]; [|done|].
  - by repeat constructor.
  - unfold latestPath. by rewrite E.
Qed.
End paths.

(** ** Files of a version *)

Definition file_ok (v ext : string) : Prop := ValidateVersion v = None /\ ext ∈ versionFileExts.

Lemma file_first v ext : file_ok v ext -> exists t, v +:+ "." +:+ ext = String "v" t.
Proof. intros [(_ & _ & d & rest & -> & _)%ValidateVersion_safe _]. by eexists. Qed.

Lemma ext_plain ext : ext ∈ versionFileExts -> no_byte "/" ext = true /\ no_byte "." ext = true.
Proof. unfold versionFileExts. rewrite !elem_of_cons, elem_of_nil. intros [->|[->|[->|[]]]]; by vm_compute. Qed.

Lemma file_seg v ext : file_ok v ext -> good_seg (v +:+ "." +:+ ext).
Proof.
  intros Hf. destruct (file_first v ext Hf) as [t E]. destruct Hf as [(_ & Hn & _)%ValidateVersion_safe [He _]%ext_plain].
  split_and!; [by rewrite E..|]. rewrite !no_byte_app, Hn, He. done.
Qed.

Lemma file_inj v ext v' ext' : file_ok v ext -> file_ok v' ext' -> v +:+ "." +:+ ext = v' +:+ "." +:+ ext' -> v = v' /\ ext = ext'.
Proof. intros [_ [_ H]%ext_plain] [_ [_ H']%ext_plain] E. by apply (last_cut "."). Qed.

Lemma Join_inj l l' : l <> [] -> l' <> [] -> Forall good_seg l -> Forall good_seg l' -> Join l "/" = Join l' "/" -> l = l'.
Proof. intros Hn Hn' Hl Hl' E. by rewrite <-(Split_Join_good l), <-(Split_Join_good l'), E. Qed.

Lemma canonical_segs m : canonical m -> module_segs m = EncodeModulePath <$> Split m "/".
Proof.
  intros [Ha _ _ Hd]. unfold module_segs. apply dotless_id. pose proof (accepted_segs m Ha) as H. rewrite Forall_fmap in H |- *.
  apply Forall_forall. intros x Hx. destruct (proj1 (Forall_forall _ _) H x Hx) as [E%Encode_dots|Hg]; [by subst|done].
Qed.

Lemma canonical_inj m m' : canonical m -> canonical m' -> module_segs m = module_segs m' -> m = m'.
Proof.
  intros Hm Hm'. rewrite !canonical_segs, <-!Encode_segments by done. intros E.
  apply (f_equal (fun l => Join l "/")) in E. rewrite !Join_Split in E.
  pose proof (EncodeModulePath_roundtrip m (cn_text _ Hm) (cn_bang _ Hm)) as H.
  pose proof (EncodeModulePath_roundtrip m' (cn_text _ Hm') (cn_bang _ Hm')) as H'. rewrite E, H' in H. by injection H.
Qed.

Section files.
Context {F : Type} `{Backend F}.
Implicit Types s : GoStore F.

Lemma dir_join_inj s m m' l l' : base_ok (gbase s) -> proper m -> proper m' -> Forall good_seg l -> Forall good_seg l' ->
  Join (dir_segs s m ++ l) "/" = Join (dir_segs s m' ++ l') "/" -> module_segs m ++ l = module_segs m' ++ l'.
Proof.
  intros Hb Hm Hm' Hl Hl' E. apply Join_inj in E.
  - unfold dir_segs in E. rewrite <-!app_assoc in E. apply app_inv_head in E. by injection E.
  - destruct (dir_segs s m) eqn:Ed; [by apply dir_segs_ne in Ed|done].
  - destruct (dir_segs s m') eqn:Ed; [by apply dir_segs_ne in Ed|done].
  - apply Forall_app. split; [by apply dir_segs_good|done].
  - apply Forall_app. split; [by apply dir_segs_good|done].
Qed.

Lemma atv_good x : good_seg x -> Forall good_seg ["@v"; x].
Proof. intros Hx. constructor; [by vm_compute|by constructor]. Qed.

Lemma version_same s m v ext m' v' ext' : base_ok (gbase s) -> proper m -> proper m' -> file_ok v ext -> file_ok v' ext' ->
  versionPath s m v ext = versionPath s m' v' ext' -> module_segs m = module_segs m' /\ v = v' /\ ext = ext'.
Proof.
  intros Hb Hm Hm' Hf Hf' E. rewrite !(fun m v ext Hm Hv => proj1 (versionPath_eq s m v ext Hb Hm Hv)) in E by (done || by apply file_seg).
  apply dir_join_inj in E; [|done..|by apply atv_good, file_seg|by apply atv_good, file_seg].
  change (module_segs m ++ ["@v"; v +:+ "." +:+ ext]) with (module_segs m ++ ["@v"] ++ [v +:+ "." +:+ ext]) in E.
  change (module_segs m' ++ ["@v"; v' +:+ "." +:+ ext']) with (module_segs m' ++ ["@v"] ++ [v' +:+ "." +:+ ext']) in E.
  rewrite !app_assoc in E. apply app_inj_tail in E as [E Ev]. apply app_inj_tail in E as [E _]. split; [done|]. by apply file_inj.
Qed.

Lemma version_not_list s m v ext m' : base_ok (gbase s) -> proper m -> proper m' -> file_ok v ext ->
  versionPath s m v ext <> listPath s m'.
Proof.
  intros Hb Hm Hm' Hf E. rewrite (proj1 (versionPath_eq s m v ext Hb Hm (file_seg v ext Hf))), (proj1 (listPath_eq s m' Hb Hm')) in E.
  apply dir_join_inj in E; [|done..|by apply atv_good, file_seg|by apply atv_good].
  destruct (file_first v ext Hf) as [t Et]. rewrite Et in E.
  change (module_segs m ++ ["@v"; String "v" t]) with (module_segs m ++ ["@v"] ++ [String "v" t]) in E.
  change (module_segs m' ++ ["@v"; "list"]) with (module_segs m' ++ ["@v"] ++ ["list"]) in E.
  rewrite !app_assoc in E. by apply app_inj_tail in E as [_ E].
Qed.

Lemma version_not_latest s m v ext m' : base_ok (gbase s) -> proper m -> proper m' -> file_ok v ext ->
  versionPath s m v ext <> latestPath s m'.
Proof.
  intros Hb Hm Hm' Hf E. rewrite (proj1 (versionPath_eq s m v ext Hb Hm (file_seg v ext Hf))), (proj1 (latestPath_eq s m' Hb Hm')) in E.
  apply dir_join_inj in E; [|done..|by apply atv_good, file_seg|by repeat constructor].
  destruct (file_first v ext Hf) as [t Et]. rewrite Et in E.
  change (module_segs m ++ ["@v"; String "v" t]) with (module_segs m ++ ["@v"] ++ [String "v" t]) in E.
  rewrite !app_assoc in E. by apply app_inj_tail in E as [_ E].
Qed.

Lemma version_good s m v ext : base_ok (gbase s) -> proper m -> file_ok v ext -> good_path (versionPath s m v ext).
Proof. intros Hb Hm Hf. apply versionPath_eq; [done..|by apply file_seg]. Qed.

Lemma list_good s m : base_ok (gbase s) -> proper m -> good_path (listPath s m).
Proof. intros Hb Hm. by apply listPath_eq. Qed.

Lemma latest_good s m : base_ok (gbase s) -> proper m -> good_path (latestPath s m).
Proof. intros Hb Hm. by apply latestPath_eq. Qed.

Lemma list_not_latest s m m' : base_ok (gbase s) -> proper m -> proper m' -> listPath s m <> latestPath s m'.
Proof.
  intros Hb Hm Hm' E. rewrite (proj1 (listPath_eq s m Hb Hm)), (proj1 (latestPath_eq s m' Hb Hm')) in E.
  apply dir_join_inj in E; [|done..|by apply atv_good|by repeat constructor].
  change (module_segs m ++ ["@v"; "list"]) with (module_segs m ++ ["@v"] ++ ["list"]) in E.
  rewrite !app_assoc in E. by apply app_inj_tail in E as [_ E].
Qed.

End files.
