(* ===== verification/GoRegistry.v ===== *)
(** * internal/registry/goproxy: requests and the three kinds of repository

    [parsePath] and the answers of handler.go, [LocalServeHTTP] with uploads,
    deletions and promotions (local.go, extensions.go), [RemoteServeHTTP] with
    the pull-through cache (remote.go), [VirtualServeHTTP] (virtual.go) and
    [buildPackageDetail] (detail.go), over the store of GoProxy.v.  Headers
    other than If-None-Match and the events are left out; a coalesced fetch is
    one fetch (see Singleflight.v). *)

From Stdlib Require Import ZArith Lia Ascii.
From stdpp Require Import base list strings gmap sorting.
From S2P Require Import Prelude GoStrings GoPath GoHash GoJson Semver GoModule Backend PkgStore PkgVersion Retention Virtual GoProxy.

Local Open Scope Z_scope.
Local Open Scope kutu_scope.

(** ** Requests *)

Record parsedRequest := { Module_ : string; pVersion : string; pExt : string; IsLatest : bool; IsList : bool }.

Definition valid_module (enc : string) : option string :=
  match DecodeModulePath enc with
  | Err _ => None
  | Ok m => match ValidateModulePath m with None => Some m | Some _ => None end
  end.

(** The file of a module below "/@v/". *)
Definition parseFile (m rest : string) : option parsedRequest :=
  if String.eqb rest "list" then Some {| Module_ := m; pVersion := ""; pExt := "list"; IsLatest := false; IsList := true |}
  else match LastIndexByte rest "." with
       | Some (S i) =>
           let ver := str_take (S i) rest in
           let ext := str_drop (S (S i)) rest in
           if String.eqb ext "" then None
           else match ValidateVersion ver with
                | Some _ => None
                | None => if bool_decide (ext ∈ versionFileExts)
                          then Some {| Module_ := m; pVersion := ver; pExt := ext; IsLatest := false; IsList := false |} else None
                end
       | _ => None
       end.

Definition parsePath (p : string) : option parsedRequest :=
  if negb (HasPrefix p "/") then None
  else
    let p := str_drop 1 p in
    let at_latest := match LastIndex p "/@latest" with
                     | Some (S i) => if String.eqb (str_drop (S i) p) "/@latest" then Some (str_take (S i) p) else None
                     | _ => None
                     end in
    match at_latest with
    | Some enc =>
        m ← valid_module enc;
        Some {| Module_ := m; pVersion := ""; pExt := "latest"; IsLatest := true; IsList := false |}
    | None =>
        '(enc, rest) ← cut_at p "/@v/" (LastIndex p "/@v/");
        m ← valid_module enc; parseFile m rest
    end.

Record Request := { Method : string; Path : string; Body : Reader; ContentLength : Z; IfNoneMatch : string }.

Definition IsRead (r : Request) : bool := String.eqb (Method r) "GET" || String.eqb (Method r) "HEAD".

(** A reply with its body, a streamed file, or an error whose text is left out. *)
Inductive Answer := Reply (code : Z) (body : string) | Serve (r : Reader) | Fail (code : Z).

Definition MatchIfNoneMatch (inm etag : string) : bool :=
  if String.eqb etag "" || String.eqb inm "" then false
  else String.eqb (TrimSpace inm) "*" ||
       existsb (fun c => String.eqb (TrimPrefix (TrimSpace c) "W/") (TrimPrefix etag "W/")) (Split inm ",").

Inductive RegError := BadModulePath | InvalidPackageName | PackageNotFound | WrongTarget | OfStore (e : GoError).

Section registry.
Context {U : UnicodeTables} {F : Type} `{Backend F} {T : Type}.
Variables (FormatTime : T -> string) (ParseTime : string -> option T) (FormatSeconds : T -> string) (zeroTime : T)
          (IsZero : T -> bool).
Implicit Types s : GoStore F.

(** The time of a request, for the mount and for documents. *)
Record Env := { eNow : Z; eTime : T }.

Definition serveFileFromStore s (r : Request) (m v ext : string) : Answer :=
  match OpenVersionFile s m v ext with
  | Err _ => Fail 404
  | Ok (rc, _) =>
      if MatchIfNoneMatch (IfNoneMatch r) (EtagFor (m +:+ "@" +:+ v +:+ "." +:+ ext)) then Reply 304 "" else Serve rc
  end.

(** A cached document: the list or the latest version. *)
Definition serve_cached (r : Request) (res : result GoError string * GoStore F) : Answer * GoStore F :=
  match res with
  | (Err _, s) => (Fail 404, s)
  | (Ok body, s) => (if MatchIfNoneMatch (IfNoneMatch r) (EtagFor body) then Reply 304 "" else Reply 200 body, s)
  end.

Definition serveCachedList (now : Z) s (r : Request) (m : string) (ttl : Z) : Answer * GoStore F :=
  serve_cached r (CachedList ParseTime zeroTime s m ttl now).

Definition serveCachedLatest (now : Z) s (r : Request) (m : string) (ttl : Z) : Answer * GoStore F :=
  serve_cached r (CachedLatest ParseTime zeroTime s m ttl now).

(** ** Modules and versions *)

Definition listPackages (fuel : nat) s : result RegError (list (string * list string)) :=
  match ListModules fuel s with
  | Err e => Err (OfStore (OfMount e))
  | Ok mods =>
      foldr (fun m acc =>
        match ListVersions ParseTime zeroTime s m with
        | Err e => Err (OfStore e)
        | Ok vs => let! l := acc in Ok ((m, SliceStable (fun a b => Compare a b ModeStrict <? 0) vs) :: l)
        end) (Ok []) mods
  end.

(** The module and version that policies see. *)
Definition classify (p : string) : option (string * string) :=
  q ← parsePath p; Some (Module_ q, if IsList q || IsLatest q then "" else pVersion q).

Definition checked (m v : string) : bool := negb (is_some (ValidateModulePath m)) && negb (is_some (ValidateVersion v)).

Definition artifactInfo s (m v : string) : result RegError T :=
  if negb (checked m v) then Err PackageNotFound
  else match ReadVersionInfo ParseTime zeroTime s m v with
       | Err ErrNotFound => Err PackageNotFound
       | Err e => Err (OfStore e)
       | Ok i => Ok (viTime i)
       end.

Record GoVersionDetail := {
  gdVersion : string; gdPublishedAt : string; gdModSize : Z; gdZipSize : Z; gdRetracted : option string;
}.

Record GoModuleDetail := { gdLatest : string; gdVersions : list GoVersionDetail }.

Definition retract_map (body : string) : gmap string string :=
  foldl (fun acc r => <[ GoModule.Version r := Rationale r ]> acc) ∅ (Retracts (ParseGoMod body)).

Definition version_detail s (m : string) (retracts : gmap string string) (v : string) : GoVersionDetail :=
  {| gdVersion := v;
     gdPublishedAt := match ReadVersionInfo ParseTime zeroTime s m v with
                      | Ok i => if IsZero (viTime i) then "" else FormatSeconds (viTime i)
                      | Err _ => ""
                      end;
     gdModSize := VersionSize s m v "mod"; gdZipSize := VersionSize s m v "zip"; gdRetracted := retracts !! v |}.

Definition buildPackageDetail s (m : string) : result RegError GoModuleDetail :=
  if is_some (ValidateModulePath m) then Err InvalidPackageName
  else match ListVersions ParseTime zeroTime s m with
  | Err e => Err (OfStore e)
  | Ok vs =>
      match SortVersionsDesc vs with
      | [] => Err PackageNotFound
      | latest :: _ as vs =>
          let retracts := match ReadGoMod s m latest with Ok body => retract_map body | Err _ => ∅ end in
          Ok {| gdLatest := latest; gdVersions := version_detail s m (if String.eqb latest "" then ∅ else retracts) <$> vs |}
      end
  end.

(** ** The hosted repository *)

Record Local := { lstore : GoStore F; allowPush : bool; maxUpload : Z; mutableTTL : Z }.

Definition with_store (l : Local) s : Local :=
  {| lstore := s; allowPush := allowPush l; maxUpload := maxUpload l; mutableTTL := mutableTTL l |}.

Definition info_limit : nat := Z.to_nat 65536.

(** The body of a .info upload, with the missing fields filled in. *)
Definition maybeFillInfoTime (e : Env) (r : Reader) (v : string) : result string (Reader * Z) :=
  let over := (info_limit <? len (rData r))%nat in
  if over then Err "body too large"
  else match rErr r with
  | Some msg => Err msg
  | None =>
      let out := match decode_info ParseTime zeroTime (rData r) with
                 | None => rData r
                 | Some i => encode_info FormatTime
                     {| viVersion := if String.eqb (viVersion i) "" then v else viVersion i;
                        viTime := if IsZero (viTime i) then eTime e else viTime i |}
                 end in
      Ok (reader out, Z.of_nat (len out))
  end.

Definition serveUpload (e : Env) (l : Local) (r : Request) (q : parsedRequest) : Answer * Local :=
  if negb (allowPush l) then (Fail 405, l)
  else if IsLatest q || IsList q then (Fail 405, l)
  else if negb (bool_decide (pExt q ∈ versionFileExts)) then (Fail 404, l)
  else if (0 <? maxUpload l) && (maxUpload l <? ContentLength r) then (Fail 413, l)
  else
    match (if String.eqb (pExt q) "info" then maybeFillInfoTime e (Body r) (pVersion q) else Ok (Body r, ContentLength r)) with
    | Err _ => (Fail 400, l)
    | Ok (body, size) =>
        match WriteVersionFile (lstore l) (Module_ q) (pVersion q) (pExt q) body size with
        | (Some _, s) => (Fail 500, with_store l s)
        | (None, s) => (Reply 204 "", with_store l s)
        end
    end.

Definition serveRead (e : Env) (l : Local) (r : Request) (q : parsedRequest) : Answer * Local :=
  if IsList q then let '(a, s) := serveCachedList (eNow e) (lstore l) r (Module_ q) (mutableTTL l) in (a, with_store l s)
  else if IsLatest q then let '(a, s) := serveCachedLatest (eNow e) (lstore l) r (Module_ q) (mutableTTL l) in (a, with_store l s)
  else (serveFileFromStore (lstore l) r (Module_ q) (pVersion q) (pExt q), l).

Definition LocalServeHTTP (e : Env) (l : Local) (r : Request) : Answer * Local :=
  match parsePath (Path r) with
  | None => (Fail 404, l)
  | Some q => if IsRead r then serveRead e l r q
              else if String.eqb (Method r) "PUT" then serveUpload e l r q
              else (Fail 405, l)
  end.

(** The version must be valid and have its .info. *)
Definition known (s : GoStore F) (m v : string) : option RegError :=
  if negb (checked m v) then Some PackageNotFound
  else match StatVersionFile s m v "info" with
       | Ok _ => None
       | Err ErrNotFound => Some PackageNotFound
       | Err e => Some (OfStore e)
       end.

Definition LocalDeleteVersion (l : Local) (m v : string) : option RegError * Local :=
  match known (lstore l) m v with
  | Some e => (Some e, l)
  | None => let '(e, s) := DeleteVersion (lstore l) m v in (OfStore <$> e, with_store l s)
  end.

Fixpoint promote_files s (d : Local) (m v : string) (exts : list string) : option RegError * Local :=
  match exts with
  | [] => (None, d)
  | ext :: exts =>
      match OpenVersionFile s m v ext with
      | Err ErrNotFound => promote_files s d m v exts
      | Err e => (Some (OfStore e), d)
      | Ok (rc, _) =>
          match read_all rc with
          | Err e => (Some (OfStore e), d)
          | Ok body =>
              match WriteVersionFile (lstore d) m v ext (reader body) (Z.of_nat (len body)) with
              | (Some e, ds) => (Some (OfStore e), with_store d ds)
              | (None, ds) => promote_files s (with_store d ds) m v exts
              end
          end
      end
  end.

(** [dst] is None when the target is not a hosted Go repository. *)
Definition PromoteVersion (l : Local) (dst : option Local) (m v : string) : option RegError * option Local :=
  match dst with
  | None => (Some WrongTarget, None)
  | Some d =>
      match known (lstore l) m v with
      | Some e => (Some e, Some d)
      | None => let '(e, d) := promote_files (lstore l) d m v versionFileExts in (e, Some d)
      end
  end.

(** ** The pull-through cache *)

Inductive RemoteError := BadModule | BadVersion | BadExt | FromUpstream (e : UpstreamError) | FromBody (msg : string) | FromStore (e : GoError)
  | NoPackage.

Section remote.
(** [router.For(module).Get] of a URL path: the response's body, or the error. *)
Variable Upstream : string -> string -> result UpstreamError Reader.
Variables (ttl : Z) (e : Env).

Definition fetch (m path : string) : result RemoteError string :=
  match Upstream m path with
  | Err er => Err (FromUpstream er)
  | Ok r => match rErr r with Some msg => Err (FromBody msg) | None => Ok (rData r) end
  end.

Definition fetchAndStoreVersion s (m v ext : string) : option RemoteError * GoStore F :=
  match fetch m ("/" +:+ EncodeModulePath m +:+ "/@v/" +:+ v +:+ "." +:+ ext) with
  | Err er => (Some er, s)
  | Ok body => let '(er, s) := WriteVersionFile s m v ext (reader body) (Z.of_nat (len body)) in (FromStore <$> er, s)
  end.

(** The file that was asked for; its siblings as far as they can be had. *)
Definition warm_sibling (m v required : string) s (ext : string) : GoStore F :=
  if String.eqb ext required || is_ok (StatVersionFile s m v ext) then s else (fetchAndStoreVersion s m v ext).2.

Definition ensureVersionCached s (m v required : string) : option RemoteError * GoStore F :=
  let '(er, s) := if is_ok (StatVersionFile s m v required) then (None, s) else fetchAndStoreVersion s m v required in
  match er with
  | Some er => (Some er, s)
  | None => (None, foldl (warm_sibling m v required) s versionFileExts)
  end.

Definition WarmVersionFile s (m v required : string) : option RemoteError * GoStore F :=
  if is_some (ValidateModulePath m) then (Some BadModule, s)
  else if is_some (ValidateVersion v) then (Some BadVersion, s)
  else if negb (bool_decide (required ∈ versionFileExts)) then (Some BadExt, s)
  else ensureVersionCached s m v required.

Definition serveVersionFile s (r : Request) (m v ext : string) : Answer * GoStore F :=
  let s := (WarmVersionFile s m v ext).2 in
  (if is_ok (StatVersionFile s m v ext) then serveFileFromStore s r m v ext else Fail 404, s).

(** The upstream's document replaces the cached one. *)
Definition refetch s (m key path : string) : option RemoteError * GoStore F :=
  match fetch m path with
  | Err er => (Some er, s)
  | Ok body =>
      if IsWritable (gfs s) then
        let '(er, f) := Write (gfs s) key (reader body) (Z.of_nat (len body)) in
        ((fun er => FromStore (OfMount er)) <$> er, set_fs s f)
      else (Some (FromStore ReadOnlyMount), s)
  end.

Definition refetchList s (m : string) : option RemoteError * GoStore F :=
  refetch s m (listPath s m) ("/" +:+ EncodeModulePath m +:+ "/@v/list").

Definition refetchLatest s (m : string) : option RemoteError * GoStore F :=
  refetch s m (latestPath s m) ("/" +:+ EncodeModulePath m +:+ "/@latest").

Definition cachedFresh s (path : string) : bool :=
  match Stat (gfs s) path with
  | Err _ => false
  | Ok fi => (0 <? ttl) && (eNow e - ModTime fi <? ttl)
  end.

Definition serveList s (r : Request) (m : string) : Answer * GoStore F :=
  let '(body, s) := CachedList ParseTime zeroTime s m ttl (eNow e) in
  let have := match body with Ok b => negb (String.eqb b "") | Err _ => false end in
  if have && cachedFresh s (listPath s m) then serveCachedList (eNow e) s r m ttl
  else serveCachedList (eNow e) (refetchList s m).2 r m ttl.

Definition cachedLatestRaw s (m : string) : result GoError string :=
  match Open (gfs s) (latestPath s m) with
  | Err er => Err (mapNotFound er)
  | Ok (r, _) => read_all r
  end.

Definition serveLatest s (r : Request) (m : string) : Answer * GoStore F :=
  if cachedFresh s (latestPath s m) then serveCachedLatest (eNow e) s r m ttl
  else let s := (refetchLatest s m).2 in serve_cached r (cachedLatestRaw s m, s).

Definition RemoteServeHTTP s (r : Request) : Answer * GoStore F :=
  match parsePath (Path r) with
  | None => (Fail 404, s)
  | Some q =>
      if negb (IsRead r) then (Fail 405, s)
      else if IsList q then serveList s r (Module_ q)
      else if IsLatest q then serveLatest s r (Module_ q)
      else serveVersionFile s r (Module_ q) (pVersion q) (pExt q)
  end.

Definition RemoteArtifactInfo s (m v : string) : result RegError T * GoStore F :=
  if negb (checked m v) then (Err PackageNotFound, s)
  else
    let s := if is_ok (StatVersionFile s m v "info") then s else (fetchAndStoreVersion s m v "info").2 in
    (artifactInfo s m v, s).

(** The version of [Prefetch] when none is named: the upstream's latest, or the
    highest of its list. *)
Definition latest_version s (m : string) : result RemoteError string * GoStore F :=
  let '(listErr, s) := refetchList s m in
  let '(latestErr, s) := refetchLatest s m in
  let named := match latestErr, cachedLatestRaw s m with
               | None, Ok body => match decode_info ParseTime zeroTime body with
                                  | Some i => TrimSpace (viVersion i) | None => "" end
               | _, _ => ""
               end in
  let v := if String.eqb named "" then
             match listErr, cachedListVersions s m with
             | None, Ok vs => default "" (head (SortVersionsDesc vs))
             | _, _ => ""
             end
           else named in
  (if String.eqb v "" then
     Err (match latestErr, listErr with Some er, _ => er | None, Some er => er | None, None => NoPackage end)
   else Ok v, s).

Definition Prefetch s (m version : string) : option RemoteError * GoStore F :=
  if is_some (ValidateModulePath m) then (Some BadModule, s)
  else
    let '(v, s) := if String.eqb version "" then latest_version s m else (Ok version, s) in
    match v with
    | Err er => (Some er, s)
    | Ok v =>
        match WarmVersionFile s m v "info" with
        | (Some er, s) => (Some er, s)
        | (None, s) =>
            (foldr (fun ext rest => match StatVersionFile s m v ext with Err er => Some (FromStore er) | Ok _ => rest end)
               None versionFileExts, s)
        end
    end.

Definition PurgeCache (fuel : nat) s (all : bool) : Purged * GoStore F :=
  if all then PurgeAll fuel s else PurgeMutable fuel s.

End remote.
End registry.

Arguments Local : clear implicits.

(** ** The virtual repository *)

Section virtual.
Context {Reg W : Type}.
Variables (Lookup : W -> string -> string -> option Reg) (serve : Reg -> Request -> W -> Response * W)
          (gate : option (Reg -> Request -> W -> (Z * string * bool) * W)).

Definition union_body (versions : list string) : string :=
  foldl (fun acc v => acc +:+ v +:+ GoProxy.newline) "" (sortStr versions).

(** A reply of the virtual itself, or a member's. *)
Definition VirtualServeHTTP (b : Base) (hdr : Header) (r : Request) (w : W) : (Answer + Response) * W :=
  match parsePath (Path r) with
  | None => (inl (Fail 404), w)
  | Some q =>
      if negb (IsRead r) then (inl (Fail 405), w)
      else if IsList q then
        let '(vs, w) := CollectListLines Lookup serve gate b r w in (inl (Reply 200 (union_body vs)), w)
      else match ServeFirstHit Lookup serve gate b hdr r w with
           | (Some resp, w) => (inr resp, w)
           | (None, w) => (inl (Fail 404), w)
           end
  end.

End virtual.
