(* ===== verification/GoProxySafety.v ===== *)
(** * What the Go module cache keeps

    A version file that is in the cache of a remote repository stays there, with
    its bytes, under every request, prefetch, policy check and purge of the
    mutable documents, whatever the upstream answers. *)

From Stdlib Require Import ZArith Lia Ascii.
From stdpp Require Import base list strings gmap sorting.
From S2P Require Import Prelude GoStrings GoPath GoJson GoJsonLaws GoModule Backend LocalFS AtomicFS PkgStore PkgStoreSafety Listing StoreLaws StoreListing.
From S2P Require Import PkgVersion Retention Virtual GoProxy GoProxyPaths GoRegistry.

Local Open Scope Z_scope.

Section laws.
Context {F : Type} {HF : Backend F} {HL : BackendLaws F} {HA : AtomicWrites F} {HD : Listings F} {HN : Names F}.
Implicit Types s : GoStore F.

(** ** Changes of single files *)

Record go_ok s : Prop := { go_base : base_ok (gbase s); go_wf : wf (gfs s); go_named : named (gfs s) }.

Definition file s (p : string) : option string := file_at (gfs s) p.

Inductive touch (p : string) s : GoStore F -> Prop :=
| touch_write r n : touch p s (set_fs s (Write (gfs s) p r n).2)
| touch_delete : touch p s (set_fs s (Backend.Delete (gfs s) p).2).

(** A run of changes, each of a file in [P]. *)
Inductive touches (P : string -> Prop) s : GoStore F -> Prop :=
| touches_refl : touches P s s
| touches_step p s1 s2 : touches P s s1 -> P p -> touch p s1 s2 -> touches P s s2.

Lemma touches_trans P s1 s2 s3 : touches P s1 s2 -> touches P s2 s3 -> touches P s1 s3.
Proof. intros H1 H2. induction H2; [done|]. by econstructor. Qed.

Lemma touches_one (P : string -> Prop) p s s' : P p -> touch p s s' -> touches P s s'.
Proof. intros. econstructor; [constructor|done..]. Qed.

Lemma touches_mono (P Q : string -> Prop) s s' : (forall p, P p -> Q p) -> touches P s s' -> touches Q s s'.
Proof. intros HPQ H. induction H; [constructor|]. econstructor; [done| |done]. by apply HPQ. Qed.

Lemma touch_base p s s' : touch p s s' -> gbase s' = gbase s.
Proof. by intros [r n|]. Qed.

Lemma touches_base P s s' : touches P s s' -> gbase s' = gbase s.
Proof. induction 1 as [|p s1 s2 _ IH _ Ht]; [done|]. by rewrite (touch_base _ _ _ Ht). Qed.

Lemma touch_ok p s s' : touch p s s' -> go_ok s -> go_ok s'.
Proof.
  intros Ht [Hb Hw Hn]. split; [by rewrite (touch_base _ _ _ Ht)|..].
  - destruct Ht; [by apply Write_wf|by apply Delete_wf].
  - destruct Ht; [by apply Write_named|by apply Delete_named].
Qed.

Lemma touches_ok P s s' : touches P s s' -> go_ok s -> go_ok s'.
Proof. induction 1; eauto using touch_ok. Qed.

Lemma touch_file p s s' q : touch p s s' -> go_ok s -> good_path p -> good_path q -> q <> p -> file s' q = file s q.
Proof. intros [r n|] [_ Hw _] Hp Hq Hne; [by apply Write_other|by apply Delete_other]. Qed.

(** Changes of other files leave a file alone. *)
Definition spares (q : string) : GoStore F -> GoStore F -> Prop := touches (fun p => good_path p /\ q <> p).

Lemma spares_file q s s' : spares q s s' -> go_ok s -> good_path q -> file s' q = file s q.
Proof.
  intros H Hok Hq. induction H as [|p s1 s2 H IH [Hp Hne] Ht]; [done|]. rewrite <-IH.
  eapply touch_file; [done|by eapply touches_ok|done..].
Qed.

Lemma file_exists s q b : go_ok s -> good_path q -> file s q = Some b -> is_ok (Stat (gfs s) q) = true.
Proof.
  intros [_ Hw _] Hq Hf. destruct (is_ok (Stat (gfs s) q)) eqn:E; [done|]. unfold file in Hf.
  rewrite (gone_file _ _ Hw Hq E) in Hf. done.
Qed.

(** ** Paths only depend on the base *)

Lemma paths_base s s' m : gbase s' = gbase s ->
  (forall v ext, versionPath s' m v ext = versionPath s m v ext) /\ listPath s' m = listPath s m /\ latestPath s' m = latestPath s m.
Proof. intros E. unfold versionPath, listPath, latestPath, moduleDir, join. by rewrite E. Qed.

Lemma version_base P s s' m v ext : touches P s s' -> versionPath s' m v ext = versionPath s m v ext.
Proof. intros H. apply (paths_base s s' m), (touches_base _ _ _ H). Qed.

(** ** The store's operations *)

Lemma invalidate_touches s m : touches (fun p => p = listPath s m \/ p = latestPath s m) s (invalidate s m).
Proof.
  unfold invalidate. eapply touches_step; [eapply touches_one; [by left|apply touch_delete]|by right|].
  apply (touch_delete _ (set_fs s (Backend.Delete (gfs s) (listPath s m)).2)).
Qed.

Lemma WriteVersionFile_touches s m v ext r n :
  touches (fun p => p = versionPath s m v ext \/ p = listPath s m \/ p = latestPath s m) s (WriteVersionFile s m v ext r n).2.
Proof.
  unfold WriteVersionFile. destruct (IsWritable _); [|constructor].
  pose proof (touch_write (versionPath s m v ext) s r n) as Ht. destruct (Write _ _ _ _) as [[e|] f]; cbn [snd] in *.
  - eapply touches_one; [by left|done].
  - eapply touches_trans; [eapply touches_one; [by left|done]|]. eapply touches_mono; [|apply invalidate_touches].
    intros p Hp. by right.
Qed.

Lemma write_back_touches s key body : touches (eq key) s (write_back s key body).
Proof. unfold write_back. destruct (IsWritable _); [|constructor]. eapply touches_one; [done|apply touch_write]. Qed.

Section info.
Context {T : Type}.
Variables (ParseTime : string -> option T) (zeroTime : T).

Lemma CachedList_touches s m ttl now : touches (eq (listPath s m)) s (CachedList ParseTime zeroTime s m ttl now).2.
Proof. unfold CachedList. repeat case_match; try constructor. apply write_back_touches. Qed.

Lemma CachedLatest_touches s m ttl now : touches (eq (latestPath s m)) s (CachedLatest ParseTime zeroTime s m ttl now).2.
Proof. unfold CachedLatest. repeat case_match; try constructor. apply write_back_touches. Qed.
End info.

(** A write to another file of an accepted module spares [q]; so do its list and
    its latest version when [q] is a version file. *)
Record version_file (base q : string) : Prop := {
  vf_good : good_path q;
  vf_pointers s m : gbase s = base -> proper m -> q <> listPath s m /\ q <> latestPath s m;
}.

Lemma versionPath_file s m v ext : base_ok (gbase s) -> proper m -> file_ok v ext -> version_file (gbase s) (versionPath s m v ext).
Proof.
  intros Hb Hm Hf. split; [by apply version_good|]. intros s' m' E Hm'.
  destruct (paths_base s s' m E) as (Ep & _). rewrite <-Ep. rewrite <-E in Hb. split.
  - by apply version_not_list.
  - by apply version_not_latest.
Qed.

Lemma pointers_spared s m q : go_ok s -> proper m -> version_file (gbase s) q ->
  forall p, p = listPath s m \/ p = latestPath s m -> good_path p /\ q <> p.
Proof.
  intros Hok Hm Hq p Hp. destruct (vf_pointers _ _ Hq s m eq_refl Hm) as [H1 H2]. pose proof (go_base _ Hok).
  destruct Hp as [->| ->]; (split; [|done]); [by apply list_good|by apply latest_good].
Qed.

Lemma list_spared s s' m q : go_ok s -> proper m -> version_file (gbase s) q -> touches (eq (listPath s m)) s s' -> spares q s s'.
Proof. intros Hok Hm Hq. apply touches_mono. intros p <-. eapply pointers_spared; eauto. Qed.

Lemma latest_spared s s' m q : go_ok s -> proper m -> version_file (gbase s) q -> touches (eq (latestPath s m)) s s' -> spares q s s'.
Proof. intros Hok Hm Hq. apply touches_mono. intros p <-. eapply pointers_spared; eauto. Qed.

Lemma WriteVersionFile_spares s m v ext r n q : go_ok s -> proper m -> file_ok v ext -> version_file (gbase s) q ->
  q <> versionPath s m v ext -> spares q s (WriteVersionFile s m v ext r n).2.
Proof.
  intros Hok Hm Hf Hq Hne. eapply touches_mono; [|apply WriteVersionFile_touches]. intros p [->|Hp].
  - split; [|done]. apply version_good; [apply Hok|done..].
  - eapply pointers_spared; eauto.
Qed.
End laws.

(** ** The pull-through cache *)

Section remote.
Context {F : Type} {HF : Backend F} {HL : BackendLaws F} {HA : AtomicWrites F} {HD : Listings F} {HN : Names F} {T : Type}.
Variables (ParseTime : string -> option T) (FormatSeconds : T -> string) (zeroTime : T) (IsZero : T -> bool).
Variables (base q b : string).
Implicit Types s : GoStore F.

(** The file [q] of a version is there. *)
Record kept s : Prop := {
  kp_ok : go_ok s; kp_base : gbase s = base; kp_version : version_file (F := F) base q; kp_file : file s q = Some b;
}.

Lemma spares_kept s s' : kept s -> spares q s s' -> kept s'.
Proof.
  intros [Hok Hb Hq Hf] H. split; [by eapply touches_ok|by rewrite (touches_base _ _ _ H)|done|].
  by rewrite (spares_file _ _ _ H) by (done || apply Hq).
Qed.

Lemma kept_stat s m v ext : kept s -> q = versionPath s m v ext -> is_ok (StatVersionFile s m v ext) = true.
Proof.
  intros [Hok _ Hq Hf] E. pose proof (file_exists s q b Hok (vf_good _ _ Hq) Hf) as H. unfold StatVersionFile. rewrite <-E.
  by destruct (Stat _ _).
Qed.

Variables (Upstream : string -> string -> result UpstreamError Reader) (ttl : Z) (e : Env (T := T)).

Lemma fetch_spares s m v ext : kept s -> proper m -> file_ok v ext -> is_ok (StatVersionFile s m v ext) = false ->
  spares q s (fetchAndStoreVersion Upstream s m v ext).2.
Proof.
  intros Hk Hm Hf Hs. unfold fetchAndStoreVersion. destruct (fetch _ _ _) as [body|er]; [|constructor].
  pose proof (WriteVersionFile_spares s m v ext (reader body) (Z.of_nat (len body)) q (kp_ok _ Hk) Hm Hf) as H.
  destruct (WriteVersionFile _ _ _ _ _ _) as [er s']. apply H; [rewrite (kp_base _ Hk); apply Hk|].
  intros E. by rewrite (kept_stat s m v ext Hk E) in Hs.
Qed.

(** The file is fetched when it is missing. *)
Lemma fill_spares s m v ext : kept s -> proper m -> file_ok v ext ->
  spares q s (if is_ok (StatVersionFile s m v ext) then (None, s) else fetchAndStoreVersion Upstream s m v ext).2.
Proof. intros Hk Hm Hf. destruct (is_ok _) eqn:E; [constructor|]. by apply fetch_spares. Qed.

Lemma warm_spares s m v required exts : kept s -> proper m -> ValidateVersion v = None -> Forall (fun x => x ∈ versionFileExts) exts ->
  spares q s (foldl (warm_sibling Upstream m v required) s exts).
Proof.
  intros Hk Hm Hv Hx. revert s Hk. induction Hx as [|ext exts He _ IH]; intros s Hk; [constructor|]. cbn [foldl].
  assert (H : spares q s (warm_sibling Upstream m v required s ext)).
  { unfold warm_sibling. destruct (_ || _) eqn:E; [constructor|]. apply orb_false_iff in E as [_ E]. by apply fetch_spares. }
  eapply touches_trans; [exact H|]. apply IH. by eapply spares_kept.
Qed.

Lemma WarmVersionFile_spares s m v ext : kept s -> spares q s (WarmVersionFile Upstream s m v ext).2.
Proof.
  intros Hk. unfold WarmVersionFile. destruct (ValidateModulePath m) eqn:Em; [constructor|]. apply accepted_proper in Em.
  destruct (ValidateVersion v) eqn:Ev; [constructor|]. case_bool_decide as Hx; [|constructor]. cbn [is_some negb].
  unfold ensureVersionCached. pose proof (fill_spares s m v ext Hk Em (conj Ev Hx)) as H1.
  destruct (if is_ok (StatVersionFile s m v ext) then (None, s) else fetchAndStoreVersion Upstream s m v ext) as [[er|] s1]; [done|].
  eapply touches_trans; [exact H1|]. apply warm_spares; [by eapply spares_kept|done..|]. by apply Forall_forall.
Qed.

Lemma refetch_spares s m key path : kept s -> good_path key /\ q <> key -> spares q s (refetch Upstream s m key path).2.
Proof.
  intros Hk Hkey. unfold refetch. destruct (fetch _ _ _) as [body|er]; [|constructor]. destruct (IsWritable _); [|constructor].
  pose proof (touch_write key s (reader body) (Z.of_nat (len body))) as Ht. destruct (Write _ _ _ _) as [er f].
  by eapply touches_one.
Qed.

Lemma pointer_ok s m p : kept s -> proper m -> p = listPath s m \/ p = latestPath s m -> good_path p /\ q <> p.
Proof. intros [Hok Hb Hq _] Hm. apply pointers_spared; [done..|by rewrite Hb]. Qed.

Lemma refetchList_spares s m : kept s -> proper m -> spares q s (refetchList Upstream s m).2.
Proof. intros Hk Hm. apply refetch_spares; [done|]. eapply pointer_ok; eauto. Qed.

Lemma refetchLatest_spares s m : kept s -> proper m -> spares q s (refetchLatest Upstream s m).2.
Proof. intros Hk Hm. apply refetch_spares; [done|]. eapply pointer_ok; eauto. Qed.

Lemma cached_list_spares s m : kept s -> proper m -> spares q s (CachedList ParseTime zeroTime s m ttl (eNow e)).2.
Proof. intros [Hok Hb Hq _] Hm. eapply list_spared; [done..|by rewrite Hb|apply CachedList_touches]. Qed.

Lemma cached_latest_spares s m : kept s -> proper m -> spares q s (CachedLatest ParseTime zeroTime s m ttl (eNow e)).2.
Proof. intros [Hok Hb Hq _] Hm. eapply latest_spared; [done..|by rewrite Hb|apply CachedLatest_touches]. Qed.

Lemma serve_cached_state (r : Request) res : (serve_cached (F := F) r res).2 = res.2.
Proof. by destruct res as [[?|?] ?]. Qed.

Lemma serveList_spares s r m : kept s -> proper m -> spares q s (serveList ParseTime zeroTime Upstream ttl e s r m).2.
Proof.
  intros Hk Hm. unfold serveList. pose proof (cached_list_spares s m Hk Hm) as H1.
  destruct (CachedList _ _ _ _ _ _) as [body s1]. cbn [snd] in H1. pose proof (spares_kept _ _ Hk H1) as Hk1.
  eapply touches_trans; [exact H1|]. destruct (_ && _); unfold serveCachedList; rewrite serve_cached_state.
  - by apply cached_list_spares.
  - pose proof (refetchList_spares s1 m Hk1 Hm) as H2. eapply touches_trans; [exact H2|].
    apply cached_list_spares; [by eapply spares_kept|done].
Qed.

Lemma serveLatest_spares s r m : kept s -> proper m -> spares q s (serveLatest ParseTime zeroTime Upstream ttl e s r m).2.
Proof.
  intros Hk Hm. unfold serveLatest. destruct (cachedFresh _ _ _ _).
  - unfold serveCachedLatest. rewrite serve_cached_state. by apply cached_latest_spares.
  - cbv zeta. rewrite serve_cached_state. by apply refetchLatest_spares.
Qed.

(** ** Requests *)

Lemma parsePath_module p r : parsePath p = Some r -> accepted (Module_ r).
Proof.
  unfold parsePath, valid_module. destruct (negb _); [done|]. cbv zeta.
  assert (Hv : forall enc m, (match DecodeModulePath enc with Err _ => None
      | Ok m => match ValidateModulePath m with None => Some m | Some _ => None end end) = Some m -> accepted m).
  { intros enc m. destruct (DecodeModulePath enc) as [m'|]; [|done]. destruct (ValidateModulePath m') eqn:E; [done|]. by intros [= <-]. }
  match goal with |- match ?x with _ => _ end = _ -> _ => destruct x as [enc|] end.
  - destruct (match DecodeModulePath enc with Err _ => _ | Ok _ => _ end) as [m|] eqn:E; [|done]. cbn. intros [= <-]. by eapply Hv.
  - destruct (cut_at _ _ _) as [[enc rest]|]; [|done]. cbn [mbind option_bind].
    destruct (match DecodeModulePath enc with Err _ => _ | Ok _ => _ end) as [m|] eqn:E; [|done]. cbn [mbind option_bind].
    intros H. apply Hv in E. revert H. unfold parseFile. repeat case_match; intros; simplify_eq/=; done.
Qed.

Lemma RemoteServeHTTP_spares s r : kept s -> spares q s (RemoteServeHTTP ParseTime zeroTime Upstream ttl e s r).2.
Proof.
  intros Hk. unfold RemoteServeHTTP. destruct (parsePath (Path r)) as [p|] eqn:Ep; [|constructor].
  apply parsePath_module, accepted_proper in Ep. destruct (negb _); [constructor|].
  destruct (IsList p); [by apply serveList_spares|]. destruct (IsLatest p); [by apply serveLatest_spares|].
  unfold serveVersionFile. by apply WarmVersionFile_spares.
Qed.

Lemma checked_ok m v : checked m v = true -> proper m /\ ValidateVersion v = None.
Proof.
  unfold checked. destruct (ValidateModulePath m) eqn:Em; [done|]. destruct (ValidateVersion v) eqn:Ev; [done|].
  intros _. split; [by apply accepted_proper|done].
Qed.

Lemma RemoteArtifactInfo_spares s m v : kept s -> spares q s (RemoteArtifactInfo ParseTime zeroTime Upstream s m v).2.
Proof.
  intros Hk. unfold RemoteArtifactInfo. destruct (checked m v) eqn:Ec; [|constructor]. apply checked_ok in Ec as [Hm Hv]. cbn [negb snd].
  destruct (is_ok _) eqn:E; [constructor|]. apply fetch_spares; [done..| |done]. split; [done|by left].
Qed.

Lemma Prefetch_spares s m v : kept s -> spares q s (Prefetch ParseTime zeroTime Upstream s m v).2.
Proof.
  intros Hk. unfold Prefetch. destruct (ValidateModulePath m) eqn:Em; [constructor|]. apply accepted_proper in Em. cbn [is_some].
  assert (H : forall x : result RemoteError string * GoStore F, spares q s x.2 ->
    spares q s (match x with (Err er, s) => (Some er, s) | (Ok v, s) =>
        match WarmVersionFile Upstream s m v "info" with
        | (Some er, s) => (Some er, s)
        | (None, s) => (foldr (fun ext rest => match StatVersionFile s m v ext with Err er => Some (FromStore er) | Ok _ => rest end)
               None versionFileExts, s)
        end end).2).
  { intros [[v'|er] s1] H; [|done]. cbn [snd] in H. pose proof (spares_kept _ _ Hk H) as Hk1.
    pose proof (WarmVersionFile_spares s1 m v' "info" Hk1) as H2. destruct (WarmVersionFile _ _ _ _ _) as [[er|] s2];
      (eapply touches_trans; [exact H|exact H2]). }
  apply (H (if String.eqb v "" then _ else _)). destruct (String.eqb v ""); [|constructor].
  unfold latest_version. pose proof (refetchList_spares s m Hk Em) as H1. destruct (refetchList _ _ _) as [le s1]. cbn [snd] in H1.
  pose proof (refetchLatest_spares s1 m (spares_kept _ _ Hk H1) Em) as H2. destruct (refetchLatest _ _ _) as [lte s2].
  by eapply touches_trans.
Qed.

(** ** Purging the mutable documents *)

Lemma walk_proper f : wf f -> named f -> forall fuel dir prefix l, prefix = "" \/ good_path prefix ->
  walkModules fuel f dir prefix = Ok l -> Forall proper l.
Proof.
  intros Hw Hn. induction fuel as [|fuel IH]; intros dir prefix l Hp; [done|]. cbn [walkModules].
  destruct (ReadDir f dir) as [es|er] eqn:Er; [|done]. cbn [rbind]. intros [= <-]. apply Forall_forall. intros x Hx.
  apply list_elem_of_bind in Hx as (en & Hx & He). destruct (negb (eIsDir en)); [by apply elem_of_nil in Hx|].
  assert (Hc : good_path (joinPrefix prefix (eName en))).
  { pose proof (named_listed f dir es en Hw Hn Er He) as Hg. unfold joinPrefix. destruct (String.eqb_spec prefix ""); [by apply good_seg_path|].
    destruct Hp as [?|Hp]; [done|]. apply good_path_app; [done|by apply good_seg_path]. }
  cbv zeta in Hx. set (sub := match walkModules _ _ _ _ with Ok l => l | Err _ => [] end) in *.
  assert (Hs : Forall proper sub).
  { subst sub. destruct (walkModules _ _ _ _) as [l|] eqn:El; [|constructor]. eapply IH; [|exact El]. by right. }
  destruct (moduleDirHasVersionMarkers _ _); [|by apply (proj1 (Forall_forall _ _) Hs)].
  destruct (DecodeModulePath _) as [m|] eqn:Ed; [|by apply elem_of_nil in Hx].
  apply elem_of_cons in Hx as [->|Hx]; [by eapply Decode_proper|by apply (proj1 (Forall_forall _ _) Hs)].
Qed.

Lemma modules_proper s fuel : go_ok s -> Forall proper (modules_of fuel s).
Proof.
  intros [_ Hw Hn]. unfold modules_of, ListModules. destruct (walkModules _ _ _ _) as [l|er] eqn:E.
  - pose proof (walk_proper _ Hw Hn _ _ _ _ (or_introl eq_refl) E) as H. unfold sortStr. apply Forall_forall. intros x Hx.
    rewrite SliceStable_perm in Hx. by apply (proj1 (Forall_forall _ _) H).
  - destruct (GoProxy.isNotFound er); constructor.
Qed.

Lemma purge_file_spares report acc s p : good_path p /\ q <> p -> spares q s (purge_file report (acc, s) p).2.
Proof.
  intros Hp. unfold purge_file. destruct (Stat _ _) as [fi|]; [|constructor].
  pose proof (touch_delete p s) as Ht. destruct (Backend.Delete _ _) as [[er|] f]; by eapply touches_one.
Qed.

Lemma purge_pointers_spares report st m : kept st.2 -> proper m -> spares q st.2 (purge_pointers report st m).2.
Proof.
  intros Hk Hm. destruct st as [acc s]. cbn [snd] in *. unfold purge_pointers. cbn [foldl snd].
  pose proof (purge_file_spares report acc s (listPath s m) (pointer_ok s m _ Hk Hm (or_introl eq_refl))) as H1.
  destruct (purge_file report (acc, s) (listPath s m)) as [acc1 s1] eqn:E1. cbn [snd] in H1.
  eapply touches_trans; [exact H1|]. apply purge_file_spares. eapply pointer_ok; eauto.
Qed.

Lemma PurgeMutable_spares fuel s : kept s -> spares q s (PurgeMutable fuel s).2.
Proof.
  intros Hk. unfold PurgeMutable. destruct (IsWritable _); [|constructor]. pose proof (modules_proper s fuel (kp_ok _ Hk)) as Hm.
  assert (H : forall ms st, Forall proper ms -> kept st.2 -> spares q st.2 (foldl (purge_pointers true) st ms).2).
  { induction ms as [|m ms IH]; intros st Hms Hst; [constructor|]. apply Forall_cons in Hms as [Hx Hms]. cbn [foldl].
    pose proof (purge_pointers_spares true st m Hst Hx) as H1. eapply touches_trans; [exact H1|].
    apply IH; [done|]. by eapply spares_kept. }
  by apply (H _ (nothing_purged, s)).
Qed.

End remote.

(** ** The fuel of the walk *)

(** Every directory below is read with fuel left. *)
Fixpoint walk_fits {F} `{Backend F} (fuel : nat) (fs : F) (dir : string) : Prop :=
  match fuel with
  | O => False
  | S fuel => forall es e, ReadDir fs dir = Ok es -> e ∈ es -> eIsDir e = true -> walk_fits fuel fs (PathJoin [dir; eName e])
  end.

Lemma bind_ext_in {A B} (f g : A -> list B) (l : list A) : (forall x, x ∈ l -> f x = g x) -> (l ≫= f) = (l ≫= g).
Proof. induction l as [|x l IH]; intros H; [done|]. cbn. rewrite H by (by left). f_equal. apply IH. intros y Hy. apply H. by right. Qed.

(** More fuel than the depth of the tree finds no other modules. *)
Lemma walk_enough {F} `{Backend F} (fs : F) fuel : forall dir prefix more, walk_fits fuel fs dir ->
  walkModules (fuel + more) fs dir prefix = walkModules fuel fs dir prefix.
Proof.
  induction fuel as [|fuel IH]; intros dir prefix more Hf; [done|]. cbn [Nat.add walkModules]. cbn [walk_fits] in Hf.
  destruct (ReadDir fs dir) as [es|er]; [|done]. cbn [rbind]. f_equal. apply bind_ext_in. intros e He.
  destruct (eIsDir e) eqn:Ed; cbn [negb]; [|done]. cbv zeta. rewrite IH; [done|]. by apply (Hf es).
Qed.

(** A local directory that is [fuel] levels deep is walked to its end. *)
Lemma local_walk_fits (f : FS) fuel : fs_ok f -> os_good (os f) -> forall dir, good_path dir -> shallow (os f) (LocalFS.target f dir) fuel ->
  walk_fits (S fuel) f dir.
Proof.
  intros Hf Hg. induction fuel as [|fuel IH]; intros dir Hd Hs es e Hr He Ed; destruct (local_listed f dir es Hf Hr) as (t & _ & Hl);
    apply Hl in He as (x & n & Hn & ->); [by apply not_shallow in Hn|].
  pose proof (Hg _ _ Hn) as [_ Hx]%Forall_app. apply Forall_cons in Hx as [Hx _]. change (eName (entry_of (os f) (x, n))) with x.
  assert (E : PathJoin [dir; x] = dir +:+ "/" +:+ x).
  { pose proof (good_seg_path x Hx) as Hp. rewrite PathJoin_good; [done|done|]. by repeat apply Forall_cons_2. }
  rewrite E. apply IH; [apply good_path_app; [done|by apply good_seg_path]|]. rewrite target_child by done. by apply shallow_child.
Qed.

(** ** Every version file of the cache is stable *)

Section stable.
Context {F : Type} {HF : Backend F} {HL : BackendLaws F} {HA : AtomicWrites F} {HD : Listings F} {HN : Names F} {T : Type}.
Variables (ParseTime : string -> option T) (FormatSeconds : T -> string) (zeroTime : T) (IsZero : T -> bool).
Implicit Types s : GoStore F.

(** A remote repository at work: each step may find another upstream, another
    time and another TTL. *)
Inductive works : GoStore F -> GoStore F -> Prop :=
| works_here s : works s s
| works_request s s' up ttl e r : works s s' -> works s (RemoteServeHTTP ParseTime zeroTime up ttl e s' r).2
| works_policy s s' up m v : works s s' -> works s (RemoteArtifactInfo ParseTime zeroTime up s' m v).2
| works_warm s s' up m v ext : works s s' -> works s (WarmVersionFile up s' m v ext).2
| works_prefetch s s' up m v : works s s' -> works s (Prefetch ParseTime zeroTime up s' m v).2
| works_purge s s' fuel : works s s' -> works s (PurgeCache fuel s' false).2.

Lemma works_kept base q b s s' : works s s' -> kept base q b s -> kept base q b s'.
Proof.
  induction 1 as [s|s s' up ttl e r _ IH|s s' up m v _ IH|s s' up m v ext _ IH|s s' up m v _ IH|s s' fuel _ IH]; intros Hk; [done|..];
    (eapply spares_kept; [by apply IH|]).
  - by eapply RemoteServeHTTP_spares, IH.
  - by eapply RemoteArtifactInfo_spares, IH.
  - by eapply WarmVersionFile_spares, IH.
  - by eapply Prefetch_spares, IH.
  - by eapply PurgeMutable_spares, IH.
Qed.

Lemma serve_version s r m v ext b : go_ok s -> good_path (versionPath s m v ext) -> file s (versionPath s m v ext) = Some b -> IfNoneMatch r = "" ->
  serveFileFromStore s r m v ext = Serve (reader b).
Proof.
  intros Hok Hg Hf Hi. unfold file, file_at in Hf. unfold serveFileFromStore, OpenVersionFile.
  destruct (Open _ _) as [[[dat er] fi]|]; [|done]. destruct (IsDir fi); [done|]. cbn [rErr rData] in Hf. destruct er; [done|].
  injection Hf as ->. unfold MatchIfNoneMatch. rewrite Hi, orb_true_r. done.
Qed.

(** C31: on a mount that lists its directories faithfully, on which a write or
    deletion that fails leaves the file as it was, and below a clean base path
    (go_ok), a file of a valid version of an accepted module that a remote Go
    repository has cached is what it answers from then on: after any sequence of
    its own requests, prefetches, policy checks and purges of the mutable
    documents, each with its own upstream, clock and TTL, a request for it (GET or
    HEAD, without If-None-Match) is answered with the same bytes, whatever the
    upstream then says.  Purging everything is not among the steps. *)
Theorem cached_version_stable s s' m v ext b up ttl e r : go_ok s -> accepted m -> file_ok v ext ->
  file s (versionPath s m v ext) = Some b -> works s s' ->
  parsePath (Path r) = Some {| Module_ := m; pVersion := v; pExt := ext; IsLatest := false; IsList := false |} ->
  IsRead r = true -> IfNoneMatch r = "" ->
  (RemoteServeHTTP ParseTime zeroTime up ttl e s' r).1 = Serve (reader b).
Proof.
  intros Hok Hm%accepted_proper Hf Hb Hw Hp Hr Hi.
  assert (Hk : kept (gbase s) (versionPath s m v ext) b s).
  { split; [done..| |done]. apply versionPath_file; [apply Hok|done..]. }
  pose proof (works_kept _ _ _ _ _ Hw Hk) as Hk'. unfold RemoteServeHTTP. rewrite Hp, Hr. cbn [negb IsList IsLatest Module_ pVersion pExt].
  unfold serveVersionFile. cbn [fst]. pose proof (WarmVersionFile_spares _ _ _ up s' m v ext Hk') as Hs.
  pose proof (spares_kept _ _ _ _ _ Hk' Hs) as Hk2. set (s2 := (WarmVersionFile up s' m v ext).2) in *.
  assert (Hv : versionPath s2 m v ext = versionPath s m v ext) by (apply (paths_base s s2 m), (kp_base _ _ _ _ Hk2)).
  rewrite (kept_stat _ _ _ s2 m v ext Hk2) by done. apply serve_version; [apply Hk2| |by rewrite Hv; apply Hk2|done].
  rewrite Hv. apply (vf_good _ _ (kp_version _ _ _ _ Hk2)).
Qed.
End stable.

(** ** Examples *)

(** Two instants of the .info documents, and the zero time. *)
Inductive Stamp := Never | Noon.

Definition FormatStamp (t : Stamp) : string := match t with Never => "0001-01-01T00:00:00Z" | Noon => "2024-05-01T12:00:00Z" end.
Definition ParseStamp (s : string) : option Stamp :=
  if String.eqb s (FormatStamp Never) then Some Never else if String.eqb s (FormatStamp Noon) then Some Noon else None.
Definition never (t : Stamp) : bool := match t with Never => true | Noon => false end.

Definition demo_store : GoStore FS := NewGoStore sample_mount "/go/".
Definition demo_env : Env (T := Stamp) := {| eNow := 12; eTime := Noon |}.
Definition demo_call (method path body : string) : Request :=
  {| Method := method; Path := path; Body := reader body; ContentLength := Z.of_nat (len body); IfNoneMatch := "" |}.
Definition demo_get (path : string) : Request := demo_call "GET" path "".

(** An upstream with one document behind every path. *)
Definition upstream_of (text : string) (m path : string) : result UpstreamError Reader := Ok (reader (text +:+ path)).

(** A store below /srv/data, checked. *)
Definition demo_okb (s : GoStore FS) : bool :=
  String.eqb (root (gfs s)) "/srv/data" && String.eqb (gbase s) "go" && os_wfb (os (gfs s)) && os_goodb (os (gfs s)) &&
  match node_at (os (gfs s)) ["srv"] with Some (Directory _) => true | _ => false end.

Lemma demo_okb_spec s : demo_okb s = true -> go_ok s.
Proof.
  unfold demo_okb. intros H. apply andb_true_iff in H as [H Ha]. apply andb_true_iff in H as [H Hg]. apply andb_true_iff in H as [H Hw].
  apply andb_true_iff in H as [Hr Hb]. apply String.eqb_eq in Hr, Hb. apply os_wfb_spec in Hw. apply os_goodb_spec in Hg.
  split; [rewrite Hb; right; by apply (bool_decide_unpack _)| |done].
  assert (E : rootSegs (gfs s) = ["srv"; "data"]) by (unfold rootSegs; rewrite Hr; by vm_compute).
  split; [by rewrite E, Hr|by rewrite E|done|]. rewrite E. unfold is_dir. cbn [parent removelast].
  destruct (node_at _ _) as [[|t]|]; [done|by exists t|done].
Qed.

Lemma demo_store_ok : go_ok demo_store.
Proof. apply demo_okb_spec. by vm_compute. Qed.

(** The file system with a module zip fetched. *)
Definition demo_cached : GoStore FS :=
  (RemoteServeHTTP ParseStamp Never (upstream_of "old ") 60 demo_env demo_store (demo_get "/example.com/!mod/@v/v1.2.0.zip")).2.

Lemma cached_version_stable_witness :
  (RemoteServeHTTP ParseStamp Never (upstream_of "new ") 60 demo_env (PurgeCache 9 demo_cached false).2
     (demo_get "/example.com/!mod/@v/v1.2.0.zip")).1 = Serve (reader "old /example.com/!mod/@v/v1.2.0.zip").
Proof.
  refine (cached_version_stable ParseStamp Never demo_cached _ "example.com/Mod" "v1.2.0" "zip" _ _ 60 demo_env
    (demo_get "/example.com/!mod/@v/v1.2.0.zip") _ _ _ _ (works_purge _ _ _ _ 9 (works_here _ _ _)) _ _ _).
  - apply demo_okb_spec. by vm_compute.
  - by vm_compute.
  - by split; apply (bool_decide_unpack _).
  - by vm_compute.
  - by vm_compute.
  - done.
  - done.
Defined.
