(* ===== verification/GoRegistrySafety.v ===== *)
(** * What a hosted Go repository serves

    Every file has one request path; an upload is served back and touches only
    its module's derived documents; @v/list is exactly the versions that have a
    .info, as long as the .info documents name their own version and the cached
    documents can be deleted.  GoRegistryCases.v shows what happens otherwise. *)

From Stdlib Require Import ZArith Lia Ascii Sorted.
From stdpp Require Import base list strings gmap sorting.
From S2P Require Import Prelude GoStrings GoPath GoRegexp GoHash GoJson GoJsonLaws Semver GoModule Backend LocalFS AtomicFS PkgStore PkgStoreSafety Listing StoreLaws StoreListing.
From S2P Require Import PkgVersion Retention Virtual GoProxy GoProxyPaths GoRegistry GoProxySafety.

Local Open Scope Z_scope.

(** ** Requests *)

Lemma LastIndex_absent s sub : (forall a b, s <> a +:+ sub +:+ b) -> LastIndex s sub = None.
Proof.
  intros H. destruct (LastIndex s sub) as [i|] eqn:E; [|done]. apply LastIndex_Some in E. by apply H in E.
Qed.

Lemma LastIndex_prefix a s sub i : LastIndex s sub = Some i -> LastIndex (a +:+ s) sub = Some (len a + i)%nat.
Proof. intros H. induction a as [|c a IH]; [done|]. rewrite app_cons. cbn [LastIndex]. by rewrite IH. Qed.

(** The separator is found where it is, when it cannot start later. *)
Lemma LastIndex_at a c t b : LastIndex (t +:+ b) (String c t) = None -> LastIndex (a +:+ String c t +:+ b) (String c t) = Some (len a).
Proof.
  intros H. rewrite (LastIndex_prefix a _ _ 0); [f_equal; lia|]. rewrite app_cons. cbn [LastIndex]. rewrite H.
  change (String c (t +:+ b)) with (String c t +:+ b). by rewrite HasPrefix_app.
Qed.

Lemma at_file a rest : no_byte "/" rest = true -> a <> "" ->
  cut_at (a +:+ "/@v/" +:+ rest) "/@v/" (LastIndex (a +:+ "/@v/" +:+ rest) "/@v/") = Some (a, rest).
Proof.
  intros Hr Ha. rewrite (LastIndex_at a "/" "@v/" rest).
  - destruct a as [|c a]; [done|]. unfold cut_at. change (len (String c a)) with (S (len a)).
    cbv iota. change (S (len a)) with (len (String c a)). rewrite str_take_app.
    pose proof (str_drop_app (String c a +:+ "/@v/") rest) as Hd. rewrite len_app, str_app_assoc in Hd. by rewrite Hd.
  - apply LastIndex_absent. intros x y E. apply (f_equal (fun s => length (Split s "/"))) in E.
    change ("@v/" +:+ rest) with ("@v" +:+ String "/" rest) in E. change (x +:+ "/@v/" +:+ y) with (x +:+ String "/" ("@v" +:+ String "/" y)) in E.
    rewrite !Split_app, (Split_single rest), !length_app in E by done. cbn [length] in E.
    pose proof (Split_nonempty x "/"). pose proof (Split_nonempty y "/"). destruct (Split x "/"), (Split y "/"); [done..|]. cbn [length] in E.
    change (length (Split "@v" "/")) with 1%nat in E. lia.
Qed.

Lemma at_latest_here a : a <> "" -> LastIndex (a +:+ "/@latest") "/@latest" = Some (len a).
Proof.
  intros Ha. pose proof (LastIndex_at a "/" "@latest" "") as H. rewrite !app_empty_r in H. apply H. apply LastIndex_absent. intros x y E.
  apply (f_equal (fun s => length (Split s "/"))) in E. change (x +:+ "/@latest" +:+ y) with (x +:+ String "/" ("@latest" +:+ y)) in E.
  rewrite Split_app, length_app in E. pose proof (Split_nonempty x "/"). pose proof (Split_nonempty ("@latest" +:+ y) "/").
  destruct (Split x "/"), (Split ("@latest" +:+ y) "/"); [done..|]. cbn [length] in E. change (length (Split "@latest" "/")) with 1%nat in E. lia.
Qed.

Lemma canonical_decodes m : canonical m -> valid_module (EncodeModulePath m) = Some m /\ EncodeModulePath m <> "".
Proof.
  intros Hm. pose proof (EncodeModulePath_roundtrip m (cn_text _ Hm) (cn_bang _ Hm)) as Hd. split.
  - unfold valid_module. rewrite Hd. by rewrite (cn_accepted _ Hm).
  - intros E. rewrite E in Hd. injection Hd as <-. by destruct Hm.
Qed.

Lemma version_cut v ext : file_ok v ext -> exists i, LastIndexByte (v +:+ "." +:+ ext) "." = Some (S i) /\
  str_take (S i) (v +:+ "." +:+ ext) = v /\ str_drop (S (S i)) (v +:+ "." +:+ ext) = ext.
Proof.
  intros Hf. destruct Hf as [(_ & _ & d & t & -> & _)%ValidateVersion_safe [_ He]%ext_plain].
  set (v := String "v" (String d t)). assert (Hl : LastIndexByte (v +:+ "." +:+ ext) "." = Some (len v)).
  { assert (Hn : LastIndexByte ext "." = None).
    { clear -He. induction ext as [|c ext IH]; [done|]. unfold no_byte in He. cbn [ContainsByte] in He.
      apply negb_true_iff, orb_false_iff in He as [Hc He]. cbn [LastIndexByte]. rewrite IH by (unfold no_byte; by rewrite He).
      by rewrite Hc. }
    generalize v. clear -Hn. intros v. induction v as [|c v IH]; [cbn; by rewrite Hn|]. rewrite app_cons. cbn [LastIndexByte]. by rewrite IH. }
  exists (len (String d t)). rewrite Hl. split; [done|]. change (S (len (String d t))) with (len v). split; [apply str_take_app|].
  change (S (len v)) with (1 + len v)%nat. pose proof (str_drop_app (v +:+ ".") ext) as Hd.
  rewrite len_app, str_app_assoc in Hd. rewrite Nat.add_comm. exact Hd.
Qed.

Definition file_request (m v ext : string) : parsedRequest :=
  {| Module_ := m; pVersion := v; pExt := ext; IsLatest := false; IsList := false |}.
Definition list_request (m : string) : parsedRequest :=
  {| Module_ := m; pVersion := ""; pExt := "list"; IsLatest := false; IsList := true |}.
Definition latest_request (m : string) : parsedRequest :=
  {| Module_ := m; pVersion := ""; pExt := "latest"; IsLatest := true; IsList := false |}.

(** The path the go command asks for. *)
Definition request_path (q : parsedRequest) : string :=
  "/" +:+ EncodeModulePath (Module_ q) +:+
    (if IsLatest q then "/@latest" else "/@v/" +:+ (if IsList q then "list" else pVersion q +:+ "." +:+ pExt q)).

Lemma not_latest_path a rest : rest <> "@latest" -> no_byte "/" rest = true ->
  match LastIndex (a +:+ "/@v/" +:+ rest) "/@latest" with
  | Some (S i) => if String.eqb (str_drop (S i) (a +:+ "/@v/" +:+ rest)) "/@latest" then Some (str_take (S i) (a +:+ "/@v/" +:+ rest)) else None
  | _ => None
  end = None.
Proof.
  intros Hne Hr. destruct (LastIndex _ _) as [[|i]|]; [done| |done]. destruct (String.eqb_spec (str_drop (S i) (a +:+ "/@v/" +:+ rest)) "/@latest") as [E|]; [|done].
  exfalso. pose proof (take_drop_str (S i) (a +:+ "/@v/" +:+ rest)) as Hs. rewrite E in Hs.
  change (a +:+ "/@v/" +:+ rest) with (a +:+ String "/" ("@v" +:+ "/" +:+ rest)) in Hs at 2.
  assert (Ha : a +:+ "/@v/" +:+ rest = (a +:+ "/@v") +:+ "/" +:+ rest) by (by rewrite str_app_assoc).
  change (a +:+ String "/" ("@v" +:+ "/" +:+ rest)) with (a +:+ "/@v/" +:+ rest) in Hs. rewrite Ha in Hs at 2.
  apply (last_segment _ _ "@latest" rest) in Hs as [_ Hs]; [by apply Hne|done|done].
Qed.

(** for a module path that is accepted, is valid UTF-8 and holds neither "!"
    nor a segment that is a single dot (canonical), the path the go command asks for is read back as the document it names: the list, the latest
    and every version file with a valid version and a known extension. *)
Theorem request_roundtrip m : canonical m ->
  (forall v ext, file_ok v ext -> parsePath (request_path (file_request m v ext)) = Some (file_request m v ext)) /\
  parsePath (request_path (list_request m)) = Some (list_request m) /\
  parsePath (request_path (latest_request m)) = Some (latest_request m).
Proof.
  intros Hm. destruct (canonical_decodes m Hm) as [Hd Hne]. unfold request_path, parsePath. cbn [file_request list_request latest_request IsLatest IsList Module_ pVersion pExt].
  rewrite !HasPrefix_app. cbn [negb]. set (a := EncodeModulePath m) in *. split_and!.
  - intros v ext Hf. pose proof (file_seg v ext Hf) as (_ & _ & _ & Hn). destruct (file_first v ext Hf) as [t Et].
    destruct (version_cut v ext Hf) as (i & Hi & Htake & Hdrop). destruct Hf as [Hv Hx].
    change (str_drop 1 ("/" +:+ a +:+ "/@v/" +:+ v +:+ "." +:+ ext)) with (a +:+ "/@v/" +:+ v +:+ "." +:+ ext). cbv zeta.
    rewrite not_latest_path by (done || by rewrite Et). rewrite at_file by done. cbn [mbind option_bind]. rewrite Hd. cbn [mbind option_bind].
    unfold parseFile. rewrite Hi, Htake, Hdrop, Hv, bool_decide_true by done. rewrite Et. cbn [String.eqb].
    destruct (String.eqb_spec ext "") as [->|]; [by apply (bool_decide_pack ("" ∈ versionFileExts)) in Hx; vm_compute in Hx|]. done.
  - change (str_drop 1 ("/" +:+ a +:+ "/@v/" +:+ "list")) with (a +:+ "/@v/" +:+ "list"). cbv zeta.
    rewrite not_latest_path by done. rewrite at_file by done. cbn [mbind option_bind]. by rewrite Hd.
  - change (str_drop 1 ("/" +:+ a +:+ "/@latest")) with (a +:+ "/@latest"). cbv zeta. rewrite at_latest_here by done.
    destruct (len a) as [|n] eqn:El; [by destruct a|]. rewrite <-El. pose proof (str_drop_app a "/@latest") as ->. rewrite str_take_app. cbn [String.eqb Ascii.eqb Bool.eqb].
    rewrite Hd. done.
Qed.

Lemma parsePath_file p q : parsePath p = Some q -> IsLatest q = false -> IsList q = false -> file_ok (pVersion q) (pExt q).
Proof.
  unfold parsePath. destruct (negb _); [done|]. cbv zeta.
  match goal with |- match ?x with _ => _ end = _ -> _ => destruct x as [enc|] end.
  - destruct (valid_module enc) as [m|]; [|done]. by intros [= <-].
  - destruct (cut_at _ _ _) as [[enc rest]|]; [|done]. cbn [mbind option_bind].
    destruct (valid_module enc) as [m|]; [|done]. cbn [mbind option_bind]. unfold parseFile, file_ok.
    destruct (String.eqb rest "list"); [by intros [= <-]|]. destruct (LastIndexByte rest ".") as [[|i]|]; [done| |done]. cbv zeta.
    destruct (String.eqb _ ""); [done|]. destruct (ValidateVersion _) eqn:Ev; [done|]. case_bool_decide; [|done]. by intros [= <-].
Qed.

(** ** .info documents *)

Section info.
Context {T : Type}.
Variables (FormatTime : T -> string) (ParseTime : string -> option T) (zeroTime : T).

(** The layout is text, and is parsed back. *)
Definition time_law : Prop := forall t, ValidString (FormatTime t) = true /\ ParseTime (FormatTime t) = Some t.

Hypothesis Htime : time_law.

Lemma info_back i : ValidString (viVersion i) = true -> decode_info ParseTime zeroTime (encode_info FormatTime i) = Some i.
Proof.
  intros Hv. destruct (Htime (viTime i)) as [Hf Hp]. unfold decode_info, encode_info. rewrite parse_write.
  - cbn [mbind option_bind]. unfold info_json at 1.
    change (fits (info_shape ParseTime) (info_json FormatTime i)) with (is_some (ParseTime (FormatTime (viTime i))) && true). rewrite Hp.
    cbn [is_some andb].
    change (scan_field as_string "Version" "" (members (info_json FormatTime i))) with (viVersion i).
    change (scan_field (json_time ParseTime) "Time" zeroTime (members (info_json FormatTime i))) with (default zeroTime (ParseTime (FormatTime (viTime i)))).
    rewrite Hp. by destruct i.
  - cbn [info_json writable]. change (0 <? maxNestingDepth) with true. cbn [andb forallb fst snd writable]. by rewrite Hv, Hf.
Qed.
End info.

Section local.
Context {F : Type} {HF : Backend F} {HL : BackendLaws F} {HA : AtomicWrites F} {HD : Listings F} {HN : Names F} {T : Type}.
Variables (FormatTime : T -> string) (ParseTime : string -> option T) (zeroTime : T) (IsZero : T -> bool).
Implicit Types s : GoStore F.
Notation serve := (LocalServeHTTP FormatTime ParseTime zeroTime IsZero).
Notation decode := (decode_info ParseTime zeroTime).

(** ** Uploads *)

Lemma WriteVersionFile_stored s m v ext r n s' : go_ok s -> proper m -> file_ok v ext ->
  WriteVersionFile s m v ext r n = (None, s') -> rErr r = None /\ file s' (versionPath s m v ext) = Some (rData r).
Proof.
  intros Hok Hm Hf. unfold WriteVersionFile. destruct (IsWritable _); [|done].
  pose proof (touch_write (versionPath s m v ext) s r n) as Ht. destruct (Write _ _ _ _) as [[er|] f] eqn:Ew; [done|]. intros [= <-].
  pose proof (version_good s m v ext (go_base _ Hok) Hm Hf) as Hg.
  destruct (Write_file _ _ _ _ _ (go_wf _ Hok) Hg Ew) as [Hr Hd]. split; [done|]. cbn [snd] in Ht.
  pose proof (touch_ok _ _ _ Ht Hok) as Hok'.
  assert (Hs : spares (versionPath s m v ext) (set_fs s f) (invalidate (set_fs s f) m)).
  { eapply touches_mono; [|apply invalidate_touches]. apply pointers_spared; [done..|].
    pose proof (versionPath_file s m v ext (go_base _ Hok) Hm Hf). done. }
  by rewrite (spares_file _ _ _ Hs).
Qed.

Definition filled (e : Env (T := T)) (v : string) (i : VersionInfo T) : VersionInfo T :=
  {| viVersion := if String.eqb (viVersion i) "" then v else viVersion i; viTime := if IsZero (viTime i) then eTime e else viTime i |}.

(** What a .info upload stores. *)
Definition info_upload (e : Env) (v text : string) : string :=
  match decode text with None => text | Some i => encode_info FormatTime (filled e v i) end.

Lemma fill_body e r v body n : maybeFillInfoTime FormatTime ParseTime zeroTime IsZero e r v = Ok (body, n) ->
  body = reader (info_upload e v (rData r)).
Proof.
  unfold maybeFillInfoTime, info_upload. destruct (_ <? _)%nat; [done|]. destruct (rErr r); [done|]. intros [= <- _].
  by destruct (decode (rData r)).
Qed.

(** C30: on a mount that lists its directories faithfully, on which a write or
    deletion that fails leaves the file as it was, and below a clean base path
    (go_ok), an upload to a hosted Go repository that is
    answered 204 was allowed and, where a limit is set, declared no more than it
    (a body without a length is not bounded, chunked_upload_unbounded); in the
    state it leaves, a GET without If-None-Match of its path is answered with the
    uploaded bytes, a .info that decodes being written again with its missing version
    and time filled in; and no
    other file changed than the cached list and latest of its module. *)
Theorem upload_served e l r q l' : go_ok (lstore l) -> parsePath (Path r) = Some q -> Method r = "PUT" -> serve e l r = (Reply 204 "", l') ->
  allowPush l = true /\ (0 < maxUpload l -> ContentLength r <= maxUpload l) /\
  let body := if String.eqb (pExt q) "info" then info_upload e (pVersion q) (rData (Body r)) else rData (Body r) in
  (forall e' r', Path r' = Path r -> IsRead r' = true -> IfNoneMatch r' = "" -> (serve e' l' r').1 = Serve (reader body)) /\
  (forall p, good_path p -> p <> versionPath (lstore l) (Module_ q) (pVersion q) (pExt q) -> p <> listPath (lstore l) (Module_ q) ->
     p <> latestPath (lstore l) (Module_ q) -> file (lstore l') p = file (lstore l) p).
Proof.
  intros Hok Hp Hput. unfold LocalServeHTTP at 1. rewrite Hp. assert (Hnr : IsRead r = false) by (unfold IsRead; by rewrite Hput).
  rewrite Hnr, Hput. cbn [String.eqb Ascii.eqb Bool.eqb]. unfold serveUpload. destruct (allowPush l) eqn:Ea; [|done]. cbn [negb].
  destruct (IsLatest q) eqn:El; [done|]. destruct (IsList q) eqn:Ei; [done|]. cbn [orb].
  destruct (negb (bool_decide _)); [done|]. destruct ((0 <? maxUpload l) && (maxUpload l <? ContentLength r)) eqn:Em; [done|].
  pose proof (parsePath_file _ _ Hp El Ei) as Hf. pose proof (parsePath_module _ _ Hp) as Hm%accepted_proper.
  set (m := Module_ q) in *. set (v := pVersion q) in *. set (ext := pExt q) in *.
  destruct (if String.eqb ext "info" then _ else _) as [[rd n]|] eqn:Eb; [|done].
  destruct (WriteVersionFile _ _ _ _ _ _) as [[er|] s'] eqn:Ew; [done|]. intros [= <-]. split; [done|]. split.
  { intros H0. apply Z.ltb_lt in H0. rewrite H0 in Em. by apply Z.ltb_ge in Em. }
  cbv zeta. set (body := if String.eqb ext "info" then info_upload e v (rData (Body r)) else rData (Body r)).
  destruct (WriteVersionFile_stored _ _ _ _ _ _ _ Hok Hm Hf Ew) as [Hr Hs].
  assert (Hb : rData rd = body).
  { subst body. destruct (String.eqb ext "info"); [by apply fill_body in Eb as ->|]. by injection Eb as -> _. }
  rewrite Hb in Hs. pose proof (WriteVersionFile_touches (lstore l) m v ext rd n) as Ht. rewrite Ew in Ht. cbn [snd] in Ht.
  pose proof (touches_ok _ _ _ Ht Hok) as Hok'. pose proof (version_base _ _ _ m v ext Ht) as Hv. split.
  - intros e' r' Hp' Hr' Hi. unfold LocalServeHTTP. rewrite Hp', Hp, Hr'. unfold serveRead. rewrite Ei, El. cbn [fst with_store lstore].
    fold m v ext. apply serve_version; [done| |by rewrite Hv|done]. apply version_good; [apply Hok'|done..].
  - intros p Hg H1 H2 H3. cbn [with_store lstore].
    assert (Hsp : spares p (lstore l) s').
    { eapply touches_mono; [|exact Ht]. intros x [->|[->| ->]]; (split; [|done]);
        [apply version_good|apply list_good|apply latest_good]; (done || apply Hok). }
    by apply (spares_file _ _ _ Hsp).
Qed.

(** ** The versions of a module *)

(** A version is published when it has a .info. *)
Definition published s (m v : string) : Prop :=
  v <> "" /\ no_byte "/" v = true /\ is_Some (file s (versionPath s m v "info")).

Record lists_exactly s (m : string) (vs : list string) : Prop := {
  le_sorted : StronglySorted (not_after str_ltb) vs;
  le_once : NoDup vs;
  le_all v : v ∈ vs <-> published s m v;
}.

(** The derived documents of a module say what is published. *)
Record current s (m : string) : Prop := {
  cu_names v : published s m v -> ValidateVersion v = None;
  cu_honest v b i : published s m v -> file s (versionPath s m v "info") = Some b -> decode b = Some i ->
    TrimSpace (viVersion i) = "" \/ TrimSpace (viVersion i) = v;
  cu_list b : file s (listPath s m) = Some b -> exists vs, b = list_body vs /\ lists_exactly s m vs;
  cu_latest b i : file s (latestPath s m) = Some b -> decode b = Some i ->
    TrimSpace (viVersion i) = "" \/ published s m (TrimSpace (viVersion i));
}.

Lemma Join_snoc l x : l <> [] -> Join (l ++ [x]) "/" = Join l "/" +:+ "/" +:+ x.
Proof.
  destruct l as [|y l]; [done|]. intros _. revert y. induction l as [|z l IH]; intros y; [done|].
  change ((y :: z :: l) ++ [x]) with (y :: z :: (l ++ [x])). rewrite !Join_cons. change (z :: (l ++ [x])) with ((z :: l) ++ [x]).
  by rewrite IH, !str_app_assoc.
Qed.

Lemma info_seg v : v <> "" -> no_byte "/" v = true -> good_seg (v +:+ "." +:+ "info").
Proof.
  intros Hv Hn. destruct v as [|c v]; [done|]. split_and!; [done|..|by rewrite !no_byte_app, Hn].
  - destruct v; [done|]. by intros [=].
  - destruct v as [|d [|]]; by intros [=].
Qed.

Lemma atV_eq s m x : base_ok (gbase s) -> proper m -> good_seg x ->
  let atV := PathJoin [moduleDir s m; "@v"] in good_path atV /\ PathJoin [moduleDir s m; "@v"; x] = atV +:+ "/" +:+ x.
Proof.
  intros Hb Hm Hx atV. destruct (below_dir s m ["@v"] Hb Hm) as [E Hg]; [by repeat constructor|done|].
  destruct (below_dir s m ["@v"; x] Hb Hm) as [E' _]; [by apply atv_good|done|]. subst atV. rewrite E, E'. split; [done|].
  change ["@v"; x] with (["@v"] ++ [x]). rewrite app_assoc. apply Join_snoc. by destruct (dir_segs s m).
Qed.

Lemma marks_published s m es v : go_ok s -> proper m -> ReadDir (gfs s) (PathJoin [moduleDir s m; "@v"]) = Ok es ->
  v ∈ omap marked es <-> published s m v.
Proof.
  intros Hok Hm Hr. pose proof (go_base _ Hok) as Hb. rewrite list_elem_of_omap. split.
  - intros (e & He & Hv). unfold marked in Hv. destruct (eIsDir e) eqn:Ed; [done|]. destruct (HasSuffix (eName e) ".info") eqn:Es; [|done].
    cbn [orb negb] in Hv. destruct (String.eqb_spec (TrimSuffix (eName e) ".info") "") as [|Hne]; [done|]. injection Hv as <-.
    apply HasSuffix_spec in Es as [v Ev]. rewrite Ev, TrimSuffix_app in Hne |- *.
    pose proof (named_listed _ _ _ _ (go_wf _ Hok) (go_named _ Hok) Hr He) as Hg. pose proof Hg as (_ & _ & _ & Hn). rewrite Ev in Hn.
    rewrite no_byte_app in Hn. apply andb_true_iff in Hn as [Hn _]. split_and!; [done..|].
    unfold versionPath. change ("." +:+ "info") with ".info". rewrite <-Ev.
    destruct (atV_eq s m (eName e) Hb Hm Hg) as [Hp E]. unfold file. rewrite E.
    eapply listed_file; [apply Hok|done|exact Hr|done..].
  - intros (Hne & Hn & Hf). pose proof (info_seg v Hne Hn) as Hg. destruct (atV_eq s m _ Hb Hm Hg) as [Hp E].
    unfold versionPath, file in Hf. rewrite E in Hf.
    destruct (file_listed _ _ _ (go_wf _ Hok) Hp Hg Hf) as (es' & e & Hr' & He & En & Ed). rewrite Hr in Hr'. injection Hr' as <-.
    exists e. split; [done|]. unfold marked. rewrite Ed, En. change ("." +:+ "info") with ".info". rewrite HasSuffix_app, TrimSuffix_app.
    cbn [orb negb]. by destruct (String.eqb_spec v "").
Qed.

Lemma no_marks s m er v : go_ok s -> proper m -> ReadDir (gfs s) (PathJoin [moduleDir s m; "@v"]) = Err er -> ~ published s m v.
Proof.
  intros Hok Hm Hr (Hne & Hn & Hf). pose proof (info_seg v Hne Hn) as Hg. destruct (atV_eq s m _ (go_base _ Hok) Hm Hg) as [Hp E].
  unfold versionPath, file in Hf. rewrite E in Hf.
  destruct (file_listed _ _ _ (go_wf _ Hok) Hp Hg Hf) as (es' & e & Hr' & _). congruence.
Qed.

(** What an open file reads is the file. *)
Lemma open_read s p r fi body : go_ok s -> Open (gfs s) p = Ok (r, fi) -> read_all r = Ok body -> file s p = Some body.
Proof.
  intros Hok Ho Hr. unfold file, file_at. rewrite Ho. unfold read_all in Hr. destruct (rErr r) eqn:Er; [done|]. injection Hr as <-.
  destruct (IsDir fi) eqn:Ed; [|done]. by apply (Open_dir _ _ _ _ (go_wf _ Hok) Ho) in Ed.
Qed.

Lemma version_line v : ValidateVersion v = None -> v <> "" /\ no_byte (chr 10) v = true /\ TrimSpace v = v.
Proof.
  intros (Hb & _ & d & t & E & _)%ValidateVersion_safe. split_and!.
  - by rewrite E.
  - clear -Hb. induction v as [|c v IH]; [done|]. cbn [str_forallb] in Hb. apply andb_true_iff in Hb as [Hc Hb].
    unfold no_byte. cbn [ContainsByte]. destruct (Ascii.eqb_spec c (chr 10)) as [->|]; [by vm_compute in Hc|]. by apply IH.
  - apply TrimSpace_noop. revert Hb. apply str_forallb_impl. intros c Hc. unfold version_byte, version_char in Hc. unfold graphic.
    destruct c as [[] [] [] [] [] [] [] []]; first [by vm_compute in Hc|by vm_compute].
Qed.

Definition body_versions (b : string) : list string := List.filter (fun v => negb (String.eqb v "")) (TrimSpace <$> Split b (chr 10)).

Lemma list_body_back vs : Forall (fun v => ValidateVersion v = None) vs -> body_versions (list_body vs) = vs.
Proof.
  intros Hv. assert (H : forall l, Forall (fun v => ValidateVersion v = None) l -> List.filter (fun v => negb (String.eqb v "")) (TrimSpace <$> l) = l).
  { induction 1 as [|v l (Hne & _ & Ht)%version_line _ IH]; [done|]. cbn [fmap list_fmap List.filter]. rewrite Ht.
    apply String.eqb_neq in Hne. rewrite Hne. cbn [negb]. by f_equal. }
  unfold body_versions, list_body. destruct vs as [|v vs]; [done|]. change (GoProxy.newline) with (String (chr 10) "").
  rewrite Split_app, Split_Join, fmap_app, List.filter_app, H; [by rewrite app_nil_r|done..|].
  eapply Forall_impl; [exact Hv|]. intros x Hx. by apply version_line.
Qed.

(** The versions that the store lists are those that are published. *)
Lemma ListVersions_exact s m vs : go_ok s -> proper m -> current s m -> ListVersions ParseTime zeroTime s m = Ok vs -> lists_exactly s m vs.
Proof.
  intros Hok Hm Hc. unfold ListVersions.
  destruct (tolerate [] (match ReadDir _ _ with Ok es => Ok (omap marked es) | Err e => Err (OfMount e) end)) as [marks|] eqn:E1; [|done].
  destruct (tolerate [] (cachedListVersions s m)) as [listed|] eqn:E2; [|done].
  destruct (tolerate "" (cachedLatestVersion ParseTime zeroTime s m)) as [latest|] eqn:E3; [|done]. cbn [rbind]. intros [= <-].
  assert (Hmarks : forall v, v ∈ marks <-> published s m v).
  { intros v. revert E1. destruct (ReadDir _ _) as [es|er] eqn:Er; cbn [tolerate].
    - intros [= <-]. by apply marks_published.
    - destruct (missing _); [|done]. intros [= <-]. split; [by intros ?%elem_of_nil|]. intros Hp. by apply (no_marks _ _ _ _ Hok Hm Er) in Hp. }
  assert (Hlisted : forall v, v ∈ listed -> published s m v).
  { intros v. revert E2. unfold cachedListVersions. destruct (Open _ _) as [[r fi]|er] eqn:Eo; cbn [tolerate].
    - destruct (read_all r) as [body|er] eqn:Er; cbn [rbind tolerate].
      + intros [= <-]. fold (body_versions body). destruct (cu_list _ _ Hc body) as (l & -> & Hl); [by eapply open_read|].
        rewrite list_body_back; [by apply Hl|]. apply Forall_forall. intros x Hx. by apply (cu_names _ _ Hc), Hl.
      + destruct (missing er); [|done]. by intros [= <-] ?%elem_of_nil.
    - destruct (missing _); [|done]. by intros [= <-] ?%elem_of_nil. }
  assert (Hlatest : latest = "" \/ published s m latest).
  { revert E3. unfold cachedLatestVersion. destruct (Open _ _) as [[r fi]|er] eqn:Eo; cbn [tolerate].
    - destruct (read_all r) as [body|er] eqn:Er; cbn [rbind tolerate].
      + intros [= <-]. destruct (decode body) as [i|] eqn:Ed; [|by left]. eapply (cu_latest _ _ Hc); [by eapply open_read|done].
      + destruct (missing er); [|done]. intros [= <-]. by left.
    - destruct (missing _); [|done]. intros [= <-]. by left. }
  unfold sortStr. split.
  - apply (SliceStable_Sorted _ (fun _ => True)); [apply str_ltb_strict_weak|by apply Forall_true].
  - rewrite SliceStable_perm. apply NoDup_remove_dups.
  - intros v. rewrite SliceStable_perm, elem_of_remove_dups, !elem_of_app. split.
    + intros [H|[H|H]]; [by apply Hmarks|by apply Hlisted|]. destruct (String.eqb_spec latest ""); [by apply elem_of_nil in H|].
      apply list_elem_of_singleton in H as ->. by destruct Hlatest.
    + intros H. left. by apply Hmarks.
Qed.

(** ** Changes of a module *)

(** A document that names the version it is stored under. *)
Definition honest (v b : string) : Prop := forall i, decode b = Some i -> TrimSpace (viVersion i) = "" \/ TrimSpace (viVersion i) = v.

Definition module_path s (m p : string) : Prop :=
  p = listPath s m \/ p = latestPath s m \/ exists v ext, file_ok v ext /\ p = versionPath s m v ext.

Inductive edit (m : string) s : GoStore F -> Prop :=
| edit_info v b n : file_ok v "info" -> honest v b -> edit m s (set_fs s (Write (gfs s) (versionPath s m v "info") (reader b) n).2)
| edit_file v ext r n : file_ok v ext -> ext <> "info" -> edit m s (set_fs s (Write (gfs s) (versionPath s m v ext) r n).2)
| edit_drop p : module_path s m p -> edit m s (set_fs s (Backend.Delete (gfs s) p).2).

Notation edits m := (rtc (edit m)).

Lemma edit_touch m s s' : edit m s s' -> exists p, module_path s m p /\ touch p s s'.
Proof.
  intros [v b n Hf _|v ext r n Hf _|p Hp].
  - exists (versionPath s m v "info"). split; [right; right; eauto|constructor].
  - exists (versionPath s m v ext). split; [right; right; eauto|constructor].
  - exists p. split; [done|constructor].
Qed.

Lemma edit_base m s s' : edit m s s' -> gbase s' = gbase s.
Proof. intros (p & _ & Ht)%edit_touch. by eapply touch_base. Qed.

Lemma edit_ok m s s' : edit m s s' -> go_ok s -> go_ok s'.
Proof. intros (p & _ & Ht)%edit_touch. by eapply touch_ok. Qed.

Lemma edits_base m s s' : edits m s s' -> gbase s' = gbase s.
Proof. induction 1 as [|s1 s2 s3 He _ IH]; [done|]. by rewrite IH, (edit_base _ _ _ He). Qed.

Lemma edits_ok m s s' : edits m s s' -> go_ok s -> go_ok s'.
Proof. induction 1; eauto using edit_ok. Qed.

Lemma module_path_good s m p : base_ok (gbase s) -> proper m -> module_path s m p -> good_path p.
Proof.
  intros Hb Hm [->|[->|(v & ext & Hf & ->)]]; [by apply list_good|by apply latest_good|by apply version_good].
Qed.

(** A path of one module is none of another. *)
Lemma other_module s m m' p x : base_ok (gbase s) -> proper m -> proper m' -> module_segs m <> module_segs m' -> module_path s m p ->
  (good_seg x -> x <> "@latest" -> PathJoin [moduleDir s m'; "@v"; x] <> p) /\ latestPath s m' <> p.
Proof.
  intros Hb Hm Hm' Hne Hp.
  assert (Hcase : exists y l, Forall good_seg (l ++ [y]) /\ p = Join (dir_segs s m ++ l ++ [y]) "/" /\ (l = [] /\ y = "@latest" \/ l = ["@v"] /\ y <> "@latest")).
  { destruct Hp as [->|[->|(v & ext & Hf & ->)]].
    - exists "list", ["@v"]. rewrite (proj1 (listPath_eq s m Hb Hm)). split_and!; [by apply atv_good|done|by right].
    - exists "@latest", []. rewrite (proj1 (latestPath_eq s m Hb Hm)). split_and!; [by repeat constructor|done|by left].
    - exists (v +:+ "." +:+ ext), ["@v"]. pose proof (file_seg v ext Hf) as Hg. rewrite (proj1 (versionPath_eq s m v ext Hb Hm Hg)).
      split_and!; [by apply atv_good|done|]. right. split; [done|]. destruct (file_first v ext Hf) as [t ->]. done. }
  destruct Hcase as (y & l & Hl & -> & Hc). split.
  - intros Hx Hnx. destruct (below_dir s m' ["@v"; x] Hb Hm') as [-> _]; [by apply atv_good|done|]. intros E.
    apply dir_join_inj in E; [|done..|by apply atv_good|done]. change ["@v"; x] with (["@v"] ++ [x]) in E. rewrite !app_assoc in E.
    apply app_inj_tail in E as [E ->]. destruct Hc as [[-> ->]|[-> _]]; [done|]. by apply app_inj_tail in E as [E _].
  - intros E. rewrite (proj1 (latestPath_eq s m' Hb Hm')) in E. apply dir_join_inj in E; [|done..|by repeat constructor|done].
    rewrite !app_assoc in E. apply app_inj_tail in E as [E <-]. destruct Hc as [[-> _]|[_ ?]]; [|done]. by rewrite app_nil_r in E.
Qed.

(** ** What changes of other files leave *)

Lemma published_same s s' m v : gbase s' = gbase s ->
  file s' (versionPath s m v "info") = file s (versionPath s m v "info") -> published s' m v <-> published s m v.
Proof. intros Hb Hf. unfold published. destruct (paths_base s s' m Hb) as (-> & _). by rewrite Hf. Qed.

Lemma lists_same s s' m vs : (forall v, published s' m v <-> published s m v) -> lists_exactly s m vs -> lists_exactly s' m vs.
Proof. intros H [H1 H2 H3]. split; [done..|]. intros v. by rewrite H3, H. Qed.

Lemma current_frame s s' m : gbase s' = gbase s ->
  (forall v, v <> "" -> no_byte "/" v = true -> file s' (versionPath s m v "info") = file s (versionPath s m v "info")) ->
  file s' (listPath s m) = file s (listPath s m) -> file s' (latestPath s m) = file s (latestPath s m) ->
  current s m -> current s' m.
Proof.
  intros Hb Hv Hl Ha [H1 H2 H3 H4]. destruct (paths_base s s' m Hb) as (Ev & El & Ea).
  assert (Hp : forall v, published s' m v <-> published s m v).
  { intros v. split; intros Hp; pose proof Hp as (Hne & Hn & _).
    - by apply (published_same s s'); [..|apply Hv|].
    - by apply (published_same s s'); [..|apply Hv|]. }
  split.
  - intros v Hp'. by apply H1, Hp.
  - intros v b i Hp'. pose proof Hp' as (Hne & Hn & _). rewrite Ev, Hv by done. apply H2. by apply Hp.
  - intros b. rewrite El, Hl. intros Hf. destruct (H3 b Hf) as (vs & -> & Hx). exists vs. split; [done|]. by eapply lists_same.
  - intros b i. rewrite Ea, Ha. intros Hf Hd. destruct (H4 b i Hf Hd); [by left|right]. by apply Hp.
Qed.

Lemma same_segs s m m' : module_segs m = module_segs m' -> base_ok (gbase s) -> proper m -> proper m' -> moduleDir s m = moduleDir s m'.
Proof. intros E Hb Hm Hm'. rewrite !moduleDir_eq by done. unfold dir_segs. by rewrite E. Qed.

Lemma current_alias s m m' : moduleDir s m = moduleDir s m' -> current s m -> current s m'.
Proof.
  intros E. assert (Ep : forall v, versionPath s m' v "info" = versionPath s m v "info") by (intros v; unfold versionPath; by rewrite E).
  assert (El : listPath s m' = listPath s m) by (unfold listPath; by rewrite E).
  assert (Ea : latestPath s m' = latestPath s m) by (unfold latestPath; by rewrite E).
  assert (Hp : forall v, published s m' v <-> published s m v) by (intros v; unfold published; by rewrite Ep).
  intros [H1 H2 H3 H4]. split.
  - intros v Hv. by apply H1, Hp.
  - intros v b i Hv. rewrite Ep. apply H2. by apply Hp.
  - intros b. rewrite El. intros Hf. destruct (H3 b Hf) as (vs & -> & [? ? Hx]). exists vs. split; [done|]. split; [done..|].
    intros v. by rewrite Hx, Hp.
  - intros b i. rewrite Ea. intros Hf Hd. destruct (H4 b i Hf Hd); [by left|right]. by apply Hp.
Qed.

Definition all_current s : Prop := forall m, proper m -> current s m.

(** A change of one module leaves the others current. *)
Lemma other_current s s' m m' p : go_ok s -> proper m -> proper m' -> module_segs m <> module_segs m' -> module_path s m p -> touch p s s' ->
  current s m' -> current s' m'.
Proof.
  intros Hok Hm Hm' Hne Hp Ht. pose proof (go_base _ Hok) as Hb. pose proof (module_path_good s m p Hb Hm Hp) as Hg.
  destruct (other_module s m m' p "list" Hb Hm Hm' Hne Hp) as [Hl Ha].
  apply current_frame; [by eapply touch_base|..].
  - intros v Hv Hn. pose proof (info_seg v Hv Hn) as Hi. eapply touch_file; [done..| |].
    + destruct (atV_eq s m' _ Hb Hm' Hi) as [Hgp E]. unfold versionPath. rewrite E. apply good_path_app; [done|by apply good_seg_path].
    + apply (other_module s m m' p (v +:+ "." +:+ "info") Hb Hm Hm' Hne Hp); [done|]. intros E.
      apply (f_equal (fun x => HasSuffix x ".info")) in E. change (v +:+ "." +:+ "info") with (v +:+ ".info") in E.
      by rewrite HasSuffix_app in E.
  - eapply touch_file; [done..|by apply list_good|]. unfold listPath. by apply Hl.
  - eapply touch_file; [done..|by apply latest_good|done].
Qed.

Lemma edits_others s s' m m' : edits m s s' -> go_ok s -> proper m -> proper m' -> module_segs m <> module_segs m' ->
  current s m' -> current s' m'.
Proof.
  induction 1 as [|s1 s2 s3 He _ IH]; intros Hok Hm Hm' Hne Hc; [done|]. apply IH; [by eapply edit_ok|done..|].
  destruct (edit_touch _ _ _ He) as (p & Hp & Ht). by apply (other_current s1 s2 m m' p).
Qed.

(** ** The module itself *)

(** Every .info is named by a valid version and names it. *)
Definition infos_ok s (m : string) : Prop := forall v, published s m v ->
  ValidateVersion v = None /\ forall b, file s (versionPath s m v "info") = Some b -> honest v b.

Lemma current_infos s m : current s m -> infos_ok s m.
Proof. intros Hc v Hv. split; [by apply (cu_names _ _ Hc)|]. intros b Hb i. by apply (cu_honest _ _ Hc). Qed.

Lemma info_path_good s m v : base_ok (gbase s) -> proper m -> v <> "" -> no_byte "/" v = true -> good_path (versionPath s m v "info").
Proof.
  intros Hb Hm Hv Hn. destruct (atV_eq s m _ Hb Hm (info_seg v Hv Hn)) as [Hg E]. unfold versionPath. rewrite E.
  apply good_path_app; [done|]. by apply good_seg_path, info_seg.
Qed.

(** The .info of a version is no other document of its module. *)
Lemma info_path_only s m v p : base_ok (gbase s) -> proper m -> v <> "" -> no_byte "/" v = true -> module_path s m p ->
  versionPath s m v "info" = p -> p = versionPath s m v "info" /\ file_ok v "info".
Proof.
  intros Hb Hm Hv Hn Hp E. split; [done|]. pose proof (info_seg v Hv Hn) as Hi.
  destruct (below_dir s m ["@v"; v +:+ "." +:+ "info"] Hb Hm) as [E1 _]; [by apply atv_good|done|].
  unfold versionPath in E. rewrite E1 in E. destruct Hp as [->|[->|(v' & ext & Hf & ->)]].
  - rewrite (proj1 (listPath_eq s m Hb Hm)) in E. apply dir_join_inj in E; [|done..|by apply atv_good|by apply atv_good].
    apply app_inv_head in E. injection E as E. apply (f_equal (fun x => HasSuffix x ".info")) in E.
    change (v +:+ "." +:+ "info") with (v +:+ ".info") in E. by rewrite HasSuffix_app in E.
  - rewrite (proj1 (latestPath_eq s m Hb Hm)) in E. apply dir_join_inj in E; [|done..|by apply atv_good|by repeat constructor].
    by apply app_inv_head in E.
  - rewrite (proj1 (versionPath_eq s m v' ext Hb Hm (file_seg _ _ Hf))) in E.
    apply dir_join_inj in E; [|done..|by apply atv_good|by apply atv_good, file_seg].
    apply app_inv_head in E. injection E as E. destruct Hf as [Hv' Hx]. pose proof (ext_plain ext Hx) as [_ Hd].
    destruct (last_cut "." v v' "info" ext) as [-> <-]; [done..|]. by split.
Qed.

Lemma edit_infos s s' m : edit m s s' -> go_ok s -> proper m -> infos_ok s m -> infos_ok s' m.
Proof.
  intros He Hok Hm Hi v Hv. pose proof Hv as (Hne & Hn & [b Hf]). pose proof (go_base _ Hok) as Hb.
  destruct (edit_touch _ _ _ He) as (p & Hp & Ht). destruct (paths_base s s' m (edit_base _ _ _ He)) as (Ev & _). rewrite Ev in Hf |- *.
  pose proof (info_path_good s m v Hb Hm Hne Hn) as Hg.
  assert (Hback : file s' (versionPath s m v "info") = file s (versionPath s m v "info") ->
    ValidateVersion v = None /\ forall b, file s' (versionPath s m v "info") = Some b -> honest v b).
  { intros E. rewrite E in Hf |- *. apply Hi. split_and!; [done..|by exists b]. }
  destruct (decide (versionPath s m v "info" = p)) as [E|Hd].
  2: { apply Hback. eapply touch_file; [done..|by eapply module_path_good|done|done]. }
  destruct (info_path_only s m v p Hb Hm Hne Hn Hp E) as [_ Hfo]. destruct He as [v' x n Hf' Hx|v' ext r n Hf' Hx|p' Hp'].
  - pose proof (version_good s m v' "info" Hb Hm Hf') as Hg'.
    destruct (decide (versionPath s m v "info" = versionPath s m v' "info")) as [E'|E'].
    2: { apply Hback. by apply Write_other; [apply Hok|..]. }
    destruct (version_same s m v "info" m v' "info" Hb Hm Hm Hfo Hf' E') as (_ & <- & _).
    destruct (Write (gfs s) (versionPath s m v "info") (reader x) n) as [[er|] f] eqn:Ew.
    + apply Hback. cbn [snd set_fs]. by apply (Write_atomic _ _ _ _ _ _ (go_wf _ Hok) Hg Ew).
    + split; [apply Hfo|]. intros b' Hb'. destruct (Write_file _ _ _ _ _ (go_wf _ Hok) Hg Ew) as [_ Hw]. cbn [snd] in Hb'.
      unfold file in Hb'. cbn [set_fs gfs] in Hb'. rewrite Hw in Hb'. by injection Hb' as <-.
  - apply Hback. apply Write_other; [apply Hok|by apply version_good|done|]. intros E'.
    by destruct (version_same s m v "info" m v' ext Hb Hm Hm Hfo Hf' E') as (_ & _ & <-).
  - destruct (decide (versionPath s m v "info" = p')) as [<-|E'].
    2: { apply Hback. apply Delete_other; [apply Hok|by eapply module_path_good|done|done]. }
    destruct (Backend.Delete (gfs s) (versionPath s m v "info")) as [[er|] f] eqn:Ed.
    + apply Hback. by apply (Delete_atomic _ _ _ _ (go_wf _ Hok) Hg Ed).
    + exfalso. unfold file in Hf. cbn [snd set_fs gfs] in Hf.
      pose proof (Delete_gone _ _ _ (go_wf _ Hok) Hg Ed) as Hx. apply (gone_file f) in Hx; [by rewrite Hf in Hx| |done].
      pose proof (Delete_wf (gfs s) (versionPath s m v "info") (go_wf _ Hok)) as Hw. by rewrite Ed in Hw.
Qed.

(** A derived document is left alone or dropped. *)
Lemma edit_pointer s s' m p : edit m s s' -> go_ok s -> proper m -> p = listPath s m \/ p = latestPath s m ->
  file s' p = file s p \/ file s' p = None.
Proof.
  intros He Hok Hm Hp. pose proof (go_base _ Hok) as Hb.
  assert (Hg : good_path p) by (destruct Hp as [->| ->]; [by apply list_good|by apply latest_good]).
  assert (Hne : forall v ext, file_ok v ext -> p <> versionPath s m v ext).
  { intros v ext Hf E. destruct Hp as [->| ->]; [by eapply version_not_list|by eapply version_not_latest]. }
  destruct He as [v x n Hf _|v ext r n Hf _|p' Hp'].
  - left. apply Write_other; [apply Hok|by apply version_good|done|by apply Hne].
  - left. apply Write_other; [apply Hok|by apply version_good|done|by apply Hne].
  - destruct (decide (p = p')) as [<-|E]; [|left; apply Delete_other; [apply Hok|by eapply module_path_good|done|done]].
    destruct (Backend.Delete (gfs s) p) as [[er|] f] eqn:Ed.
    + left. by apply (Delete_atomic _ _ _ _ (go_wf _ Hok) Hg Ed).
    + right. unfold file. cbn [snd set_fs gfs]. apply gone_file; [|done|by eapply Delete_gone; [apply Hok|done|exact Ed]].
      pose proof (Delete_wf (gfs s) p (go_wf _ Hok)) as Hw. by rewrite Ed in Hw.
Qed.

Lemma edits_keep s s' m : edits m s s' -> go_ok s -> proper m -> infos_ok s m ->
  infos_ok s' m /\ forall p, p = listPath s m \/ p = latestPath s m -> file s' p = file s p \/ file s' p = None.
Proof.
  induction 1 as [|s1 s2 s3 He Hes IH]; intros Hok Hm Hi; [split; [done|by left]|].
  destruct IH as [Hi' Hp']; [by eapply edit_ok|done|by eapply edit_infos|]. split; [done|]. intros p Hp.
  destruct (paths_base s1 s2 m (edit_base _ _ _ He)) as (_ & El & Ea). rewrite El, Ea in Hp'.
  destruct (Hp' p Hp) as [->|]; [|by right]. by apply (edit_pointer s1 s2 m).
Qed.

(** The change is over when no .info has changed or the derived documents are
    gone. *)
Definition settled (m : string) s s' : Prop :=
  (forall v, file_ok v "info" -> file s' (versionPath s m v "info") = file s (versionPath s m v "info")) \/
  (file s' (listPath s m) = None /\ file s' (latestPath s m) = None).

Lemma edits_current s s' m : edits m s s' -> settled m s s' -> go_ok s -> proper m -> all_current s -> all_current s'.
Proof.
  intros He Hs Hok Hm Hc m' Hm'. destruct (decide (module_segs m = module_segs m')) as [E|E]; [|by eapply edits_others; eauto].
  pose proof (edits_base _ _ _ He) as Hb. apply (current_alias s' m m').
  { apply same_segs; [done| |done..]. rewrite Hb. apply Hok. }
  destruct (edits_keep s s' m He Hok Hm (current_infos _ _ (Hc m Hm))) as [Hi Hp]. destruct (paths_base s s' m Hb) as (Ev & El & Ea).
  pose proof (Hc m Hm) as [H1 H2 H3 H4]. split.
  - intros v Hv. by apply Hi.
  - intros v b i Hv Hf. by apply (Hi v Hv).
  - intros b. rewrite El. intros Hf. destruct Hs as [Hs|[Hs _]]; [|congruence].
    destruct (Hp _ (or_introl eq_refl)) as [Ef|Ef]; [|congruence]. rewrite Ef in Hf. destruct (H3 b Hf) as (vs & -> & Hx).
    exists vs. split; [done|]. apply (lists_same s); [|done]. intros v. split; intros Hv.
    + destruct (Hi v Hv) as [Hvv _]. apply (published_same s s' m v Hb); [|done]. apply Hs. split; [done|by left].
    + apply (published_same s s' m v Hb); [|done]. apply Hs. split; [by apply H1|by left].
  - intros b i. rewrite Ea. intros Hf Hd. destruct Hs as [Hs|[_ Hs]]; [|congruence].
    destruct (Hp _ (or_intror eq_refl)) as [Ef|Ef]; [|congruence]. rewrite Ef in Hf. destruct (H4 b i Hf Hd) as [?|Hv]; [by left|right].
    apply (published_same s s' m _ Hb); [|done]. apply Hs. split; [by apply H1|by left].
Qed.

(** ** The operations as changes *)

Lemma module_path_base s s' m p : gbase s' = gbase s -> module_path s m p -> module_path s' m p.
Proof.
  intros Hb. destruct (paths_base s s' m Hb) as (Ev & El & Ea). unfold module_path. rewrite El, Ea.
  intros [->|[->|(v & ext & Hf & ->)]]; [by left|by right; left|]. right; right. exists v, ext. by rewrite Ev.
Qed.

Lemma drop_edits m s0 s p : gbase s = gbase s0 -> module_path s0 m p -> edits m s (set_fs s (Backend.Delete (gfs s) p).2).
Proof. intros Hb Hp. apply rtc_once, edit_drop. by eapply module_path_base. Qed.

Lemma invalidate_edits s m : edits m s (invalidate s m).
Proof.
  unfold invalidate. etrans; [apply (drop_edits m s s (listPath s m)); [done|by left]|].
  apply (drop_edits m s (set_fs s (Backend.Delete (gfs s) (listPath s m)).2) (latestPath s m)); [done|by right; left].
Qed.

Lemma write_edits m s s' v ext r n : edit m s (set_fs s (Write (gfs s) (versionPath s m v ext) r n).2) ->
  s' = (WriteVersionFile s m v ext r n).2 -> edits m s s'.
Proof.
  intros He ->. unfold WriteVersionFile. destruct (IsWritable _); [|done]. destruct (Write _ _ _ _) as [[er|] f]; cbn [snd] in *.
  - by apply rtc_once.
  - etrans; [by apply rtc_once|apply invalidate_edits].
Qed.

Lemma WriteInfo_edits m s v b n : file_ok v "info" -> honest v b -> edits m s (WriteVersionFile s m v "info" (reader b) n).2.
Proof. intros Hf Hh. eapply write_edits; [by apply edit_info|done]. Qed.

Lemma WriteFile_edits m s v ext r n : file_ok v ext -> ext <> "info" -> edits m s (WriteVersionFile s m v ext r n).2.
Proof. intros Hf Hx. eapply write_edits; [by apply edit_file|done]. Qed.

Lemma DeleteVersion_edits m s v : ValidateVersion v = None -> edits m s (DeleteVersion s m v).2.
Proof.
  intros Hv. unfold DeleteVersion. destruct (IsWritable _); [|done].
  assert (H : forall exts st, (forall x, x ∈ exts -> x ∈ versionFileExts) -> edits m st.2 (foldl (delete_ext m v) st exts).2).
  { induction exts as [|ext exts IH]; intros [first s1] Hx; [done|]. cbn [foldl snd].
    etrans; [|apply IH; intros x Hx'; apply Hx; by right]. unfold delete_ext.
    assert (Hp : module_path s1 m (versionPath s1 m v ext)).
    { right; right. exists v, ext. split; [|done]. split; [done|]. apply Hx. by left. }
    pose proof (edit_drop m s1 _ Hp) as He. destruct (Backend.Delete _ _) as [er f]. by apply rtc_once. }
  specialize (H versionFileExts (None, s) (fun _ h => h)). destruct (foldl _ _ _) as [first s1]. cbn [snd] in *.
  etrans; [exact H|apply invalidate_edits].
Qed.

(** ** The requests *)

Lemma write_back_result s p body : go_ok s -> good_path p -> file (write_back s p body) p = Some body \/ file (write_back s p body) p = file s p.
Proof.
  intros Hok Hp. unfold write_back. destruct (IsWritable _); [|by right]. unfold file. cbn [set_fs gfs].
  destruct (Write _ _ _ _) as [[er|] f] eqn:Ew; cbn [snd].
  - right. by apply (Write_atomic _ _ _ _ _ _ (go_wf _ Hok) Hp Ew).
  - left. by apply (Write_file _ _ _ _ _ (go_wf _ Hok) Hp Ew).
Qed.

Lemma write_back_touch s p body : write_back s p body = s \/ touch p s (write_back s p body).
Proof. unfold write_back. destruct (IsWritable _); [right; constructor|by left]. Qed.

(** A derived document is written back. *)
Lemma pointer_written s m p body : go_ok s -> proper m -> all_current s -> p = listPath s m \/ p = latestPath s m ->
  (p = listPath s m -> exists vs, body = list_body vs /\ lists_exactly s m vs) ->
  (p = latestPath s m -> forall i, decode body = Some i -> TrimSpace (viVersion i) = "" \/ published s m (TrimSpace (viVersion i))) ->
  all_current (write_back s p body) /\ go_ok (write_back s p body).
Proof.
  intros Hok Hm Hc Hp Hl Ha. pose proof (go_base _ Hok) as Hb. set (s' := write_back s p body).
  assert (Hg : good_path p) by (destruct Hp as [->| ->]; [by apply list_good|by apply latest_good]).
  destruct (write_back_touch s p body) as [E|Ht]; [unfold s'; by rewrite E|]. fold s' in Ht.
  pose proof (touch_base _ _ _ Ht) as Hb'. split; [|by eapply touch_ok]. intros m' Hm'.
  assert (Hmp : module_path s m p) by (destruct Hp; [by left|by right; left]).
  destruct (decide (module_segs m = module_segs m')) as [E|E]; [|by apply (other_current s s' m m' p); auto].
  apply (current_alias s' m m'). { apply same_segs; [done| |done..]. by rewrite Hb'. }
  pose proof (Hc m Hm) as [H1 H2 H3 H4]. destruct (paths_base s s' m Hb') as (Ev & El & Ea).
  assert (Hi : forall v, v <> "" -> no_byte "/" v = true -> file s' (versionPath s m v "info") = file s (versionPath s m v "info")).
  { intros v Hv Hn. eapply touch_file; [done..|by apply info_path_good|]. intros E'.
    destruct (info_path_only s m v p Hb Hm Hv Hn Hmp E') as [_ Hfo]. rewrite <-E' in Hp.
    destruct Hp as [Hp|Hp]; [by apply (version_not_list s m v "info" m Hb Hm Hm Hfo)|by apply (version_not_latest s m v "info" m Hb Hm Hm Hfo)]. }
  assert (Hpub : forall v, published s' m v <-> published s m v).
  { intros v. split; intros Hv; pose proof Hv as (Hne & Hn & _); (apply (published_same s s' m v Hb'); [by apply Hi|done]). }
  assert (Hother : forall q, good_path q -> q <> p -> file s' q = file s q) by (intros q Hq Hne; by eapply touch_file).
  pose proof (write_back_result s p body Hok Hg) as Hr. fold s' in Hr. split.
  - intros v Hv. by apply H1, Hpub.
  - intros v b i Hv. pose proof Hv as (Hne & Hn & _). rewrite Ev, Hi by done. apply H2. by apply Hpub.
  - intros b. rewrite El. intros Hf. assert (Hx : exists vs, b = list_body vs /\ lists_exactly s m vs).
    { destruct (decide (listPath s m = p)) as [E'|E']; [|rewrite Hother in Hf by (done || by apply list_good); by apply H3].
      rewrite E' in Hf. destruct Hr as [Hr|Hr]; rewrite Hr in Hf; [injection Hf as <-; by apply Hl|]. rewrite <-E' in Hf. by apply H3. }
    destruct Hx as (vs & -> & Hx). exists vs. split; [done|]. by eapply lists_same.
  - intros b i. rewrite Ea. intros Hf Hd. assert (Hx : TrimSpace (viVersion i) = "" \/ published s m (TrimSpace (viVersion i))).
    { destruct (decide (latestPath s m = p)) as [E'|E']; [|rewrite Hother in Hf by (done || by apply latest_good); by eapply H4].
      rewrite E' in Hf. destruct Hr as [Hr|Hr]; rewrite Hr in Hf; [injection Hf as <-; by apply Ha|]. rewrite <-E' in Hf. by eapply H4. }
    destruct Hx; [by left|right]. by apply Hpub.
Qed.

Lemma CachedList_current s m ttl now : go_ok s -> proper m -> all_current s ->
  let res := CachedList ParseTime zeroTime s m ttl now in
  all_current res.2 /\ go_ok res.2 /\
  forall b, res.1 = Ok b -> exists vs, b = list_body vs /\ lists_exactly s m vs /\ (forall v, published res.2 m v <-> published s m v).
Proof.
  intros Hok Hm Hc. unfold CachedList. destruct (fresh_copy _ _ _ _) as [r|] eqn:Ef.
  - cbn [fst snd]. split; [done|]. split; [done|]. intros b Hb. unfold fresh_copy in Ef. destruct (0 <? ttl); [|done].
    destruct (Open _ _) as [[r' fi]|] eqn:Eo; [|done]. destruct (_ <? _); [|done]. injection Ef as ->.
    destruct (cu_list _ _ (Hc m Hm) b) as (vs & -> & Hx); [by eapply open_read|]. by exists vs.
  - destruct (ListVersions _ _ _ _) as [vs|] eqn:El; [|by split_and!]. pose proof (ListVersions_exact s m vs Hok Hm (Hc m Hm) El) as Hx.
    cbn [fst snd]. destruct (pointer_written s m (listPath s m) (list_body vs) Hok Hm Hc) as [H1 H2]; [by left|by eauto| |].
    { intros E. exfalso. by apply (list_not_latest s m m (go_base _ Hok) Hm Hm). }
    split; [done|]. split; [done|]. intros b [= <-]. exists vs. split; [done|]. split; [done|]. intros v.
    destruct (write_back_touch s (listPath s m) (list_body vs)) as [->|Ht]; [done|].
    assert (Hi : forall v, v <> "" -> no_byte "/" v = true ->
      file (write_back s (listPath s m) (list_body vs)) (versionPath s m v "info") = file s (versionPath s m v "info")).
    { intros x Hne Hn. pose proof (go_base _ Hok) as Hb. eapply touch_file; [done..|by apply list_good|by apply info_path_good|]. intros E.
      destruct (info_path_only s m x (listPath s m) Hb Hm Hne Hn (or_introl eq_refl) E) as [_ Hfo]. by apply (version_not_list s m x "info" m Hb Hm Hm Hfo). }
    split; intros Hv; pose proof Hv as (Hne & Hn & _);
      (apply (published_same s _ m v (touch_base _ _ _ Ht)); [by apply Hi|done]).
Qed.

Lemma CachedLatest_current s m ttl now : go_ok s -> proper m -> all_current s ->
  let res := CachedLatest ParseTime zeroTime s m ttl now in all_current res.2 /\ go_ok res.2.
Proof.
  intros Hok Hm Hc. unfold CachedLatest. destruct (fresh_copy _ _ _ _) as [r|]; [done|].
  destruct (ListVersions _ _ _ _) as [vs|] eqn:El; [|done]. pose proof (ListVersions_exact s m vs Hok Hm (Hc m Hm) El) as Hx.
  destruct (SortVersionsDesc vs) as [|v l] eqn:Es; [done|]. unfold OpenVersionFile. destruct (Open _ _) as [[r fi]|] eqn:Eo; [|done].
  destruct (read_all r) as [body|] eqn:Er; [|done]. cbn [snd].
  assert (Hv : published s m v).
  { apply (le_all _ _ _ Hx). assert (Hin : v ∈ SortVersionsDesc vs) by (rewrite Es; by left).
    unfold SortVersionsDesc, SortDesc in Hin. by rewrite SliceStable_perm in Hin. }
  apply (pointer_written s m); [done..|by right| |].
  - intros E. exfalso. by apply (list_not_latest s m m (go_base _ Hok) Hm Hm).
  - intros _ i Hd. destruct (cu_honest _ _ (Hc m Hm) v body i Hv) as [E|E]; [by eapply open_read|done|by left|].
    rewrite E. by right.
Qed.

(** ** A hosted repository at work *)

Hypothesis Htime : time_law FormatTime ParseTime.

(** A .info that names no version, or the one it is uploaded for. *)
Definition honest_upload (q : parsedRequest) (r : Request) : Prop :=
  pExt q = "info" -> forall i, decode (rData (Body r)) = Some i -> viVersion i = "" \/ viVersion i = pVersion q.

Inductive history : Local F -> Prop :=
| hist_start l : go_ok (lstore l) -> all_current (lstore l) -> history l
| hist_request e l r a l' : history l -> serve e l r = (a, l') ->
    (forall q, parsePath (Path r) = Some q -> IsRead r = false -> honest_upload q r /\ settled (Module_ q) (lstore l) (lstore l')) ->
    history l'
| hist_delete l m v er l' : history l -> LocalDeleteVersion l m v = (er, l') -> settled m (lstore l) (lstore l') -> history l'
| hist_promote src l m v er l' : history src -> history l -> PromoteVersion src (Some l) m v = (er, Some l') ->
    settled m (lstore l) (lstore l') -> history l'.

Lemma version_text v : ValidateVersion v = None -> ValidString v = true.
Proof.
  intros (Hb & _)%ValidateVersion_safe. apply ValidString_ascii. unfold is_ascii. revert Hb. apply str_forallb_impl. intros c Hc.
  unfold version_byte, version_char in Hc. destruct c as [[] [] [] [] [] [] [] []]; first [by vm_compute in Hc|by vm_compute].
Qed.

Lemma info_upload_honest e v text : ValidateVersion v = None -> (forall i, decode text = Some i -> viVersion i = "" \/ viVersion i = v) ->
  honest v (info_upload e v text).
Proof.
  intros Hv Hu i. unfold info_upload. destruct (decode text) as [j|] eqn:Ed; [|by rewrite Ed].
  assert (Hf : viVersion (filled e v j) = v).
  { cbn [filled viVersion]. destruct (String.eqb_spec (viVersion j) ""); [done|]. by destruct (Hu j eq_refl). }
  rewrite info_back; [|done|by rewrite Hf; apply version_text]. intros [= <-]. right. rewrite Hf. by apply version_line.
Qed.

Lemma upload_edits e l r q : honest_upload q r -> file_ok (pVersion q) (pExt q) \/ IsLatest q || IsList q = true ->
  edits (Module_ q) (lstore l) (lstore (serveUpload FormatTime ParseTime zeroTime IsZero e l r q).2).
Proof.
  intros Hh Hq. unfold serveUpload. destruct (negb (allowPush l)); [done|]. destruct (IsLatest q || IsList q) eqn:El; [done|].
  destruct Hq as [Hf|]; [|done]. destruct (negb (bool_decide _)); [done|]. destruct (_ && _); [done|].
  destruct (String.eqb_spec (pExt q) "info") as [Ex|Ex].
  - destruct (maybeFillInfoTime _ _ _ _ _ _ _) as [[body n]|] eqn:Eb; [|done]. apply fill_body in Eb as ->.
    pose proof (WriteInfo_edits (Module_ q) (lstore l) (pVersion q) (info_upload e (pVersion q) (rData (Body r))) n) as H.
    rewrite Ex in Hf |- *. destruct (WriteVersionFile _ _ _ _ _ _) as [[er|] s]; (apply H; [done|]);
      (apply info_upload_honest; [apply Hf|by apply Hh]).
  - pose proof (WriteFile_edits (Module_ q) (lstore l) (pVersion q) (pExt q) (Body r) (ContentLength r) Hf Ex) as H.
    by destruct (WriteVersionFile _ _ _ _ _ _) as [[er|] s].
Qed.

Lemma known_ok s m v : known s m v = None -> proper m /\ ValidateVersion v = None.
Proof. unfold known. destruct (checked m v) eqn:E; [|done]. intros _. by apply checked_ok. Qed.

Lemma promote_edits s m v exts : go_ok s -> all_current s -> proper m -> ValidateVersion v = None -> (forall x, x ∈ exts -> x ∈ versionFileExts) ->
  forall d, edits m (lstore d) (lstore (promote_files s d m v exts).2).
Proof.
  intros Hok Hc Hm Hv. induction exts as [|ext exts IH]; intros Hx d; [done|]. cbn [promote_files].
  assert (Hf : file_ok v ext) by (split; [done|apply Hx; by left]). assert (Hxs : forall x, x ∈ exts -> x ∈ versionFileExts) by (intros x Hin; apply Hx; by right).
  unfold OpenVersionFile. destruct (Open _ _) as [[rc fi]|er] eqn:Eo.
  2: { unfold mapNotFound. destruct (GoProxy.isNotFound er); [by apply IH|done]. }
  destruct (read_all rc) as [body|] eqn:Er; [|done].
  assert (He : edits m (lstore d) (WriteVersionFile (lstore d) m v ext (reader body) (Z.of_nat (len body))).2).
  { destruct (decide (ext = "info")) as [->|Hn]; [|by apply WriteFile_edits]. apply WriteInfo_edits; [done|]. intros i Hi.
    pose proof (open_read _ _ _ _ _ Hok Eo Er) as Hb. apply (cu_honest _ _ (Hc m Hm) v body i); [|done..].
    pose proof (ValidateVersion_safe v Hv) as (_ & Hn & d' & t & -> & _). split; [done|]. split; [done|]. by exists body. }
  destruct (WriteVersionFile _ _ _ _ _ _) as [[er|] ds]; [done|]. cbn [snd] in He. etrans; [exact He|]. by apply (IH Hxs (with_store d ds)).
Qed.

Lemma history_current l : history l -> go_ok (lstore l) /\ all_current (lstore l).
Proof.
  induction 1 as [l Hok Hc|e l r a l' _ [Hok Hc] Hs Hu|l m v er l' _ [Hok Hc] Hd Hs|src l m v er l' _ [Hoks Hcs] _ [Hok Hc] Hp Hs]; [done|..].
  - unfold LocalServeHTTP in Hs. destruct (parsePath (Path r)) as [q|] eqn:Ep; [|by injection Hs as _ <-].
    pose proof (parsePath_module _ _ Ep) as Hm%accepted_proper. destruct (IsRead r) eqn:Er.
    + unfold serveRead in Hs. destruct (IsList q).
      { pose proof (CachedList_current (lstore l) (Module_ q) (mutableTTL l) (eNow e) Hok Hm Hc) as (H1 & H2 & _).
        unfold serveCachedList in Hs. pose proof (serve_cached_state r (CachedList ParseTime zeroTime (lstore l) (Module_ q) (mutableTTL l) (eNow e))) as E.
        destruct (serve_cached _ _) as [a' s']. injection Hs as _ <-. cbn [with_store lstore snd] in *. by rewrite E. }
      destruct (IsLatest q); [|by injection Hs as _ <-].
      pose proof (CachedLatest_current (lstore l) (Module_ q) (mutableTTL l) (eNow e) Hok Hm Hc) as (H1 & H2).
      unfold serveCachedLatest in Hs. pose proof (serve_cached_state r (CachedLatest ParseTime zeroTime (lstore l) (Module_ q) (mutableTTL l) (eNow e))) as E.
      destruct (serve_cached _ _) as [a' s']. injection Hs as _ <-. cbn [with_store lstore snd] in *. by rewrite E.
    + destruct (Hu q eq_refl eq_refl) as [Hh Hset]. destruct (String.eqb (Method r) "PUT"); [|by injection Hs as _ <-].
      assert (Hq : file_ok (pVersion q) (pExt q) \/ IsLatest q || IsList q = true).
      { destruct (IsLatest q) eqn:E1; [by right|]. destruct (IsList q) eqn:E2; [by right|left]. by eapply parsePath_file. }
      pose proof (upload_edits e l r q Hh Hq) as He. rewrite Hs in He. cbn [snd] in He.
      split; [by eapply edits_ok|by eapply edits_current].
  - unfold LocalDeleteVersion in Hd. destruct (known (lstore l) m v) eqn:Ek; [by injection Hd as _ <-|]. apply known_ok in Ek as [Hm Hv].
    pose proof (DeleteVersion_edits m (lstore l) v Hv) as He. destruct (DeleteVersion _ _ _) as [e' s']. injection Hd as _ <-.
    cbn [with_store lstore snd] in *. split; [by eapply edits_ok|by eapply edits_current].
  - unfold PromoteVersion in Hp. destruct (known (lstore src) m v) eqn:Ek; [by injection Hp as _ <-|]. apply known_ok in Ek as [Hm Hv].
    pose proof (promote_edits (lstore src) m v versionFileExts Hoks Hcs Hm Hv (fun _ h => h) l) as He.
    destruct (promote_files _ _ _ _ _) as [e' d]. injection Hp as _ <-. cbn [snd] in He.
    split; [by eapply edits_ok|by eapply edits_current].
Qed.

End local.

(** ** Examples *)

Lemma stamp_times : time_law FormatStamp ParseStamp.
Proof. by intros []. Qed.

Definition demo_repo : Local FS := {| lstore := demo_store; allowPush := true; maxUpload := 100; mutableTTL := 60 |}.
Definition demo_serve : Local FS -> Request -> Answer * Local FS := LocalServeHTTP FormatStamp ParseStamp Never never demo_env.
Definition demo_put (path body : string) : Request := demo_call "PUT" path body.

Definition q2 (s : string) : string := String (chr 34) s +:+ String (chr 34) "".
Definition info_text (v : string) : string := "{" +:+ q2 "Version" +:+ ":" +:+ q2 v +:+ "}".

Lemma request_roundtrip_witness :
  parsePath "/example.com/!mod/@v/v1.2.0.zip" = Some (file_request "example.com/Mod" "v1.2.0" "zip").
Proof.
  assert (H : canonical "example.com/Mod") by (split; [by vm_compute|by vm_compute|by vm_compute|by apply (bool_decide_unpack _)]).
  destruct (request_roundtrip "example.com/Mod" H) as [Hf _]. apply (Hf "v1.2.0" "zip"). by split; apply (bool_decide_unpack _).
Defined.

Definition with_info : Local FS := (demo_serve demo_repo (demo_put "/a.org/m/@v/v1.0.0.info" (info_text "v1.0.0"))).2.

Lemma upload_served_witness :
  (demo_serve with_info (demo_get "/a.org/m/@v/v1.0.0.info")).1 =
    Serve (reader ("{" +:+ q2 "Version" +:+ ":" +:+ q2 "v1.0.0" +:+ "," +:+ q2 "Time" +:+ ":" +:+ q2 "2024-05-01T12:00:00Z" +:+ "}")).
Proof.
  destruct (upload_served FormatStamp ParseStamp Never never demo_env demo_repo
    (demo_put "/a.org/m/@v/v1.0.0.info" (info_text "v1.0.0")) {| Module_ := "a.org/m"; pVersion := "v1.0.0"; pExt := "info"; IsLatest := false; IsList := false |}
    with_info demo_store_ok ltac:(by vm_compute) eq_refl) as (_ & _ & H & _).
  - by vm_compute.
  - refine (eq_trans (H demo_env (demo_get "/a.org/m/@v/v1.0.0.info") _ _ _) _); by vm_compute.
Defined.

Lemma empty_file m l : proper m -> Forall good_seg l -> l <> [] -> file demo_store (PathJoin (moduleDir demo_store m :: l)) = None.
Proof.
  intros Hm Hl Hne. destruct (below_dir demo_store m l (go_base _ demo_store_ok) Hm Hl Hne) as [-> Hg].
  unfold file. rewrite local_file_at by exact sample_mount_ok. unfold LocalFS.target. rewrite good_path_resolve by done.
  rewrite Split_Join_good; [|by destruct (dir_segs demo_store m)|by apply Forall_app; split; [apply dir_segs_good; [apply demo_store_ok|done]|]].
  change (rootSegs (gfs demo_store)) with ["srv"; "data"]. change (dir_segs demo_store m) with ("go" :: "modules" :: module_segs m).
  destruct l as [|x l]; [done|]. cbn [app]. rewrite node_at_ne by done. destruct (nodes _ !! _) as [n|] eqn:E; [|done]. exfalso.
  pose proof (forall_nodes (fun kv => (length kv.1 <=? 3)%nat) sample_os ltac:(vm_compute; reflexivity) _ _ E) as H.
  cbn [fst length Nat.leb] in H. discriminate H.
Qed.

Lemma empty_current : all_current ParseStamp Never demo_store.
Proof.
  intros m Hm. assert (Hi : forall v, ~ published demo_store m v).
  { intros v (Hv & Hn & [b Hb]). unfold versionPath in Hb. by rewrite empty_file in Hb by (done || by apply atv_good, info_seg). }
  split.
  - by intros v ?%Hi.
  - by intros v b i ?%Hi.
  - intros b. unfold listPath. by rewrite empty_file by (done || by apply atv_good).
  - intros b i. unfold latestPath. by rewrite empty_file by (done || by repeat constructor).
Qed.

Lemma demo_history : history FormatStamp ParseStamp Never never with_info.
Proof.
  refine (hist_request _ _ _ _ demo_env demo_repo (demo_put "/a.org/m/@v/v1.0.0.info" (info_text "v1.0.0")) (Reply 204 "") with_info
    (hist_start _ _ _ _ demo_repo demo_store_ok empty_current) _ _); [by vm_compute|].
  intros q Hq _. assert (E : q = file_request "a.org/m" "v1.0.0" "info") by (revert Hq; vm_compute; by intros [= <-]).
  subst q. split.
  - intros _ i. vm_compute. intros [= <-]. by right.
  - right. by split; vm_compute.
Qed.

