(* ===== verification/GoRegistryCases.v ===== *)
(** * Where the Go proxy departs from what it means to do

    A remote repository that knows one version of a module never fetches the list
    of the module again; then, on small repositories below /srv/data: an
    upload under another version, a chunked upload, a re-upload behind its ETag,
    module paths with "." and "@v" segments, and files that a purge leaves. *)

From Stdlib Require Import ZArith Lia Ascii.
From stdpp Require Import base list strings gmap sorting.
From S2P Require Import Prelude GoStrings GoPath GoHash GoJson GoModule Backend LocalFS AtomicFS PkgStore PkgStoreSafety Listing StoreLaws StoreListing.
From S2P Require Import PkgVersion Retention Virtual GoProxy GoProxyPaths GoRegistry GoProxySafety GoRegistrySafety.

Local Open Scope Z_scope.

(** ** A list that is never fetched again *)

Lemma opened_stat (f : FS) p r fi : fs_ok f -> Open f p = Ok (r, fi) -> Stat f p = Ok fi.
Proof.
  intros Hf. cbn [Open Stat LocalFS_backend]. unfold localOpen, localStat. rewrite !at_path_ok by done.
  destruct (find _ _) as [n|]; [|done]. by intros [= _ <-].
Qed.

Lemma written_stat (f f' : FS) p r n : fs_ok f -> Write f p r n = (None, f') -> exists fi, Stat f' p = Ok fi /\ ModTime fi = clock (os f').
Proof.
  intros Hf Hw. pose proof (Write_changes f p r n Hf) as H. rewrite Hw in H. destruct H as (Hr & Ho & Hc & Hn).
  destruct (Hn eq_refl) as [_ Hnode]. pose proof (with_os_ok f f' p Hf Hr Ho Hc) as Hf'. cbn [Stat LocalFS_backend]. unfold localStat.
  rewrite at_path_ok by done. rewrite (target_root f f' p Hr). apply find_spec in Hnode; [|done]. rewrite Hnode. by eexists.
Qed.

(** As soon as a remote repository knows one version, a request for the list is
    answered from the cache whatever the upstream says: when the cached list is
    older than the TTL it is rebuilt from itself, and is fresh again. *)
Theorem upstream_list_unread {T} (ParseTime : string -> option T) (zeroTime : T) (s s' : GoStore FS) m b up up' ttl (e : Env (T := T)) r :
  fs_ok (gfs s) -> 0 < ttl -> CachedList ParseTime zeroTime s m ttl (eNow e) = (Ok b, s') -> b <> "" -> eNow e <= clock (os (gfs s')) ->
  is_Some (fresh_copy s (listPath s m) ttl (eNow e)) \/ (Write (gfs s) (listPath s m) (reader b) (Z.of_nat (len b))).1 = None ->
  serveList ParseTime zeroTime up ttl e s r m = serveList ParseTime zeroTime up' ttl e s r m.
Proof.
  intros Hf Ht Hc Hb Hnow Hw. unfold serveList. rewrite Hc. apply String.eqb_neq in Hb. rewrite Hb. cbn [negb andb].
  assert (Hfresh : cachedFresh ttl e s' (listPath s' m) = true); [|by rewrite Hfresh].
  unfold cachedFresh, CachedList in *. destruct (fresh_copy s _ ttl (eNow e)) as [rd|] eqn:Ef.
  - injection Hc as _ <-. unfold fresh_copy in Ef. destruct (0 <? ttl); [|done].
    destruct (Open _ _) as [[rd' fi]|] eqn:Eo; [|done]. apply opened_stat in Eo as ->; [|done]. by destruct (_ <? _).
  - destruct Hw as [[? Hw]|Hw]; [done|]. destruct (ListVersions _ _ _ _) as [vs|]; [|done]. injection Hc as <- <-.
    unfold write_back in *. cbn [IsWritable LocalFS_backend] in *. destruct (Write _ _ _ _) as [er f'] eqn:Ew. cbn [fst snd] in *. subst er.
    change (listPath (set_fs s f') m) with (listPath s m). cbn [set_fs gfs] in *.
    destruct (written_stat _ _ _ _ _ Hf Ew) as (fi & -> & ->). apply Z.ltb_lt in Ht. rewrite Ht. cbn [andb]. apply Z.ltb_lt in Ht.
    apply Z.ltb_lt. lia.
Qed.

Definition at_time (now : Z) : Env (T := Stamp) := {| eNow := now; eTime := Noon |}.
Definition fetch_list (up : string) (now : Z) (s : GoStore FS) : Answer * GoStore FS :=
  RemoteServeHTTP ParseStamp Never (fun _ _ => Ok (reader up)) 60 (at_time now) s (demo_get "/a.org/m/@v/list").
Definition line (v : string) : string := v +:+ GoProxy.newline.

(** The mount's clock. *)
Definition set_clock (now : Z) (s : GoStore FS) : GoStore FS :=
  let f := gfs s in set_fs s {| root := root f; os := {| nodes := nodes (os f); clock := now; dirSize := dirSize (os f) |} |}.

(** A day after v2.0.0 was published the list still is the one that was read first. *)
Lemma upstream_list_unread_witness :
  let s := (fetch_list (line "v1.0.0") 100 (set_clock 100 demo_store)).2 in
  (fetch_list (line "v1.0.0" +:+ line "v2.0.0") 86500 (set_clock 86500 s)).1 = Reply 200 (line "v1.0.0").
Proof.
  intros s. unfold fetch_list, RemoteServeHTTP.
  change (parsePath (Path (demo_get "/a.org/m/@v/list"))) with (Some (list_request "a.org/m")). cbv beta iota.
  change (negb (IsRead (demo_get "/a.org/m/@v/list"))) with false. cbn [IsList list_request Module_]. cbv iota.
  rewrite (upstream_list_unread ParseStamp Never (set_clock 86500 s) (CachedList ParseStamp Never (set_clock 86500 s) "a.org/m" 60 86500).2 "a.org/m"
    (line "v1.0.0") (fun _ _ => Ok (reader (line "v1.0.0" +:+ line "v2.0.0"))) (fun _ _ => Err UpNotFound) 60 (at_time 86500)
    (demo_get "/a.org/m/@v/list")).
  - by vm_compute.
  - assert (H : demo_okb (set_clock 86500 s) = true) by (by vm_compute). by apply demo_okb_spec in H as [_ H _].
  - done.
  - by vm_compute.
  - done.
  - by vm_compute.
  - right. by vm_compute.
Defined.

(** ** Uploads *)

Definition run (l : Local FS) (rs : list Request) : list Answer * Local FS :=
  foldl (fun al r => let '(a, l) := demo_serve al.2 r in (al.1 ++ [a], l)) ([], l) rs.

(** A .info that names another version is kept; once @latest has been asked for,
    that version is listed, and @latest is answered 404. *)
Theorem foreign_info_breaks_latest :
  let '(answers, l) := run demo_repo [demo_put "/a.org/m/@v/v1.0.0.info" (info_text "v9.9.9"); demo_get "/a.org/m/@latest"] in
  head answers = Some (Reply 204 "") /\
  ListVersions ParseStamp Never (lstore l) "a.org/m" = Ok ["v1.0.0"; "v9.9.9"] /\
  (LocalServeHTTP FormatStamp ParseStamp Never never (at_time 1000) l (demo_get "/a.org/m/@latest")).1 = Fail 404.
Proof. vm_compute. split; [reflexivity|split; reflexivity]. Qed.

(** A body without a length passes any limit. *)
Theorem chunked_upload_unbounded n : 
  let r := {| Method := "PUT"; Path := "/a.org/m/@v/v1.0.0.zip"; Body := reader n; ContentLength := -1; IfNoneMatch := "" |} in
  (demo_serve demo_repo r).1 = Reply 204 "" /\ file (lstore (demo_serve demo_repo r).2) "go/modules/a.org/m/@v/v1.0.0.zip" = Some n.
Proof. cbv zeta. split; vm_compute; reflexivity. Qed.

(** The ETag of a version file is made of its name: after another upload of the
    file a client is told that nothing has changed. *)
Theorem etag_ignores_content :
  let l := (run demo_repo [demo_put "/a.org/m/@v/v1.0.0.mod" "one"; demo_put "/a.org/m/@v/v1.0.0.mod" "two"]).2 in
  let again := {| Method := "GET"; Path := "/a.org/m/@v/v1.0.0.mod"; Body := reader ""; ContentLength := 0;
                  IfNoneMatch := EtagFor "a.org/m@v1.0.0.mod" |} in
  (demo_serve l again).1 = Reply 304 "" /\ (demo_serve l (demo_get "/a.org/m/@v/v1.0.0.mod")).1 = Serve (reader "two").
Proof. vm_compute. split; reflexivity. Qed.

(** ** Module paths *)

(** "a.org/./m" is a module of its own for the policies, with the files of "a.org/m". *)
Theorem dot_segment_alias :
  let l := (run demo_repo [demo_put "/a.org/m/@v/v1.0.0.zip" "zip"]).2 in
  (demo_serve l (demo_get "/a.org/./m/@v/v1.0.0.zip")).1 = Serve (reader "zip") /\
  classify "/a.org/./m/@v/v1.0.0.zip" = Some ("a.org/./m", "v1.0.0") /\
  classify "/a.org/m/@v/v1.0.0.zip" = Some ("a.org/m", "v1.0.0").
Proof. vm_compute. split; [reflexivity|split; reflexivity]. Qed.

(** A module below "@v/list" of another makes the list of the other a directory. *)
Theorem module_shadows_list :
  let before := run demo_repo [demo_put "/a.org/m/@v/v1.0.0.info" (info_text "v1.0.0"); demo_get "/a.org/m/@v/list"] in
  let after := run before.2 [demo_put "/a.org/m/@v/v1.0.0.mod" "module a.org/m"; demo_put "/a.org/m/@v/list/x/@v/v1.0.0.mod" "module x";
                             demo_get "/a.org/m/@v/list"] in
  before.1 = [Reply 204 ""; Reply 200 (line "v1.0.0")] /\ after.1 = [Reply 204 ""; Reply 204 ""; Fail 404].
Proof. vm_compute. split; reflexivity. Qed.

(** ** Purging *)

(** A module with files and no .info is not found, and a purge of everything leaves
    its files. *)
Theorem purge_leaves_orphans :
  let l := (run demo_repo [demo_put "/a.org/m/@v/v1.0.0.zip" "zip"]).2 in
  let '(purged, s) := PurgeAll 9 (lstore l) in
  purged = nothing_purged /\ ListModules 9 s = Ok [] /\ file s "go/modules/a.org/m/@v/v1.0.0.zip" = Some "zip".
Proof. vm_compute. split; [reflexivity|split; reflexivity]. Qed.
