(* ===== verification/Singleflight.v ===== *)
(** * internal/registry/common/singleflight.go: coalesced calls

    [Singleflight] is the table of pending calls with the goroutines inside [Do],
    each with its local variables; [advance] is one atomic step of a goroutine:
    a critical section of the mutex, the end of [fn], or the end of a wait.  [fn]
    returns a result or panics, as the step's argument says.  At most one [fn]
    runs per key, a shared result is the one that its [fn] returned, and no
    schedule blocks. *)

From Stdlib Require Import Lia.
From stdpp Require Import base list strings gmap relations.
From S2P Require Import Prelude.

Section singleflight.
(** The pair of a value and an error; [nothing] is a pair of nils. *)
Context {R : Type} (nothing : R).

Record sfCall := { outcome : R; released : bool }.

Inductive Goroutine :=
| Calling (key : string)
| Running (key : string) (call : nat)
| Leaving (key : string) (call : nat) (panicked : bool)
| Releasing (key : string) (call : nat) (panicked : bool)
| Waiting (key : string) (existing : nat)
| Returned (key : string) (call : nat) (r : R) (shared : bool)
| Panicked (key : string) (call : nat).

(** [calls] holds every call by its number. *)
Record Singleflight := { pending : gmap string nat; calls : list sfCall; goroutines : list Goroutine }.

Definition NewSingleflight (keys : list string) : Singleflight :=
  {| pending := ∅; calls := []; goroutines := Calling <$> keys |}.

Definition move (s : Singleflight) (t : nat) (p : gmap string nat) (l : list sfCall) (g : Goroutine) : Singleflight :=
  {| pending := p; calls := l; goroutines := <[ t := g ]> (goroutines s) |}.

(** One step of [Do] by goroutine [t]; [fn] is what its function does when it
    ends in this step. *)
Definition advance (s : Singleflight) (t : nat) (fn : option R) : option Singleflight :=
  g ← goroutines s !! t;
  match g with
  | Calling key =>
      match pending s !! key with
      | Some existing => Some (move s t (pending s) (calls s) (Waiting key existing))
      | None =>
          let c := length (calls s) in
          Some (move s t (<[ key := c ]> (pending s)) (calls s ++ [{| outcome := nothing; released := false |}]) (Running key c))
      end
  | Running key c =>
      match fn with
      | Some r => Some (move s t (pending s) (<[ c := {| outcome := r; released := false |} ]> (calls s)) (Leaving key c false))
      | None => Some (move s t (pending s) (calls s) (Leaving key c true))
      end
  | Leaving key c p => Some (move s t (delete key (pending s)) (calls s) (Releasing key c p))
  | Releasing key c p =>
      call ← calls s !! c;
      Some (move s t (pending s) (<[ c := {| outcome := outcome call; released := true |} ]> (calls s))
              (if p then Panicked key c else Returned key c (outcome call) false))
  | Waiting key c =>
      call ← calls s !! c;
      if released call then Some (move s t (pending s) (calls s) (Returned key c (outcome call) true)) else None
  | Returned _ _ _ _ | Panicked _ _ => None
  end.

Definition step (s s' : Singleflight) : Prop := exists t fn, advance s t fn = Some s'.
Definition reachable (s : Singleflight) : Prop := exists keys, rtc step (NewSingleflight keys) s.

Definition over (g : Goroutine) : bool := match g with Returned _ _ _ _ | Panicked _ _ => true | _ => false end.

(** ** The invariant *)

(** The call a goroutine has not released yet, with its key. *)
Definition owned (g : Goroutine) : option (string * nat) :=
  match g with Running k c | Leaving k c _ | Releasing k c _ => Some (k, c) | _ => None end.

Definition in_table (g : Goroutine) : bool := match g with Running _ _ | Leaving _ _ _ => true | _ => false end.

(** The goroutine that a released call was made by. *)
Definition made (g : Goroutine) (k : string) (c : nat) (r : R) : Prop :=
  g = Returned k c r false \/ (g = Panicked k c /\ r = nothing).

Definition holds (s : Singleflight) (t : nat) (k : string) (c : nat) : Prop :=
  exists g, goroutines s !! t = Some g /\ owned g = Some (k, c).

Record sound (s : Singleflight) : Prop := {
  so_owner t k c : holds s t k c -> exists r, calls s !! c = Some {| outcome := r; released := false |};
  so_unique t t' k k' c : holds s t k c -> holds s t' k' c -> t = t' /\ k = k';
  so_table t g k c : goroutines s !! t = Some g -> owned g = Some (k, c) -> in_table g = true -> pending s !! k = Some c;
  so_pending k c : pending s !! k = Some c -> exists t g, goroutines s !! t = Some g /\ owned g = Some (k, c) /\ in_table g = true;
  so_zero t g k c : goroutines s !! t = Some g -> (g = Running k c \/ g = Leaving k c true \/ g = Releasing k c true) ->
    calls s !! c = Some {| outcome := nothing; released := false |};
  so_waits t k c : goroutines s !! t = Some (Waiting k c) -> (exists t', holds s t' k c) \/
    exists r t' g, calls s !! c = Some {| outcome := r; released := true |} /\ goroutines s !! t' = Some g /\ made g k c r;
  so_shared t k c r : goroutines s !! t = Some (Returned k c r true) -> exists t' g, goroutines s !! t' = Some g /\ made g k c r;
}.

Lemma start_sound keys : sound (NewSingleflight keys).
Proof.
  assert (H : forall t g, goroutines (NewSingleflight keys) !! t = Some g -> exists k, g = Calling k).
  { intros t g. cbn [NewSingleflight goroutines]. rewrite list_lookup_fmap. intros (k & _ & ->)%fmap_Some. by exists k. }
  split; unfold holds.
  - intros t k c (g & [? ->]%H & [=]).
  - intros t t' k k' c (g & [? ->]%H & [=]).
  - intros t g k c [? ->]%H [=].
  - intros k c. cbn [NewSingleflight pending]. by rewrite lookup_empty.
  - intros t g k c [? ->]%H. naive_solver.
  - intros t k c [? [=]]%H.
  - intros t k c r [? [=]]%H.
Qed.

Lemma moved s t p l g t' g' : goroutines (move s t p l g) !! t' = Some g' <->
  t' = t /\ g' = g /\ (t < length (goroutines s))%nat \/ t' <> t /\ goroutines s !! t' = Some g'.
Proof. cbn [move goroutines]. rewrite list_lookup_insert_Some. naive_solver. Qed.

Lemma held s t g k c : goroutines s !! t = Some g -> owned g = Some (k, c) -> holds s t k c.
Proof. intros H1 H2. by exists g. Qed.

(** A goroutine that owns nothing before and after leaves the owners alone. *)
Lemma holds_moved s t p l g g0 : goroutines s !! t = Some g0 -> owned g = owned g0 ->
  forall t' k c, holds (move s t p l g) t' k c <-> holds s t' k c.
Proof.
  intros Hg Ho t' k c. pose proof (lookup_lt_Some _ _ _ Hg) as Hlt. unfold holds. split.
  - intros (g' & [(-> & -> & _)|[_ H]]%moved & Hk); [exists g0; by rewrite <-Ho|by exists g'].
  - intros (g' & H & Hk). destruct (decide (t' = t)) as [->|Hne].
    + exists g. rewrite moved. split; [by left|]. rewrite Ho. by simplify_eq.
    + exists g'. rewrite moved. split; [by right|done].
Qed.

(** What a finished goroutine says stays. *)
Lemma made_stays s t p l g g0 t' g' k c r : goroutines s !! t = Some g0 -> over g0 = false ->
  goroutines s !! t' = Some g' -> made g' k c r -> goroutines (move s t p l g) !! t' = Some g'.
Proof.
  intros Hg Ho Hg' Hm. apply moved. right. split; [|done]. intros ->. rewrite Hg in Hg'. injection Hg' as <-.
  by destruct Hm as [->|[-> _]].
Qed.

(** Joining a call, and the end of a wait. *)
Lemma quiet_sound s t g g0 : sound s -> goroutines s !! t = Some g0 -> over g0 = false -> owned g0 = None -> owned g = None ->
  (forall k c, g = Waiting k c -> exists t', holds s t' k c) ->
  (forall k c r, g = Returned k c r true -> exists t' g', goroutines s !! t' = Some g' /\ made g' k c r) ->
  sound (move s t (pending s) (calls s) g).
Proof.
  intros [H1 H2 H3 H4 H5 H6 H7] Hg Ho Hg0 Hgn Hw Hr.
  assert (Hh := holds_moved s t (pending s) (calls s) g g0 Hg (eq_trans Hgn (eq_sym Hg0))). split.
  - intros t' k c. rewrite Hh. apply H1.
  - intros t' t'' k k' c. rewrite !Hh. apply H2.
  - intros t' g' k c [(-> & -> & _)|[_ H]]%moved Hk; [congruence|]. by eapply H3.
  - intros k c (t' & g' & H & Hk & Ht)%H4. exists t', g'. split; [|done]. apply moved. right. split; [|done]. intros ->. congruence.
  - intros t' g' k c [(-> & -> & _)|[_ H]]%moved Hk; [|by eapply H5]. by destruct Hk as [->|[->| ->]].
  - intros t' k c [(-> & E & _)|[_ H]]%moved.
    + destruct (Hw k c (eq_sym E)) as [t' H]. left. exists t'. by apply Hh.
    + destruct (H6 _ _ _ H) as [[t'' Ht]|(r & t'' & g' & Hc & Ht & Hm)]; [left; exists t''; by apply Hh|right].
      exists r, t'', g'. split_and!; [done|by eapply made_stays|done].
  - intros t' k c r [(-> & E & _)|[_ H]]%moved; [destruct (Hr k c r (eq_sym E)) as (t'' & g' & Ht & Hm)|
      destruct (H7 _ _ _ _ H) as (t'' & g' & Ht & Hm)]; exists t'', g'; (split; [by eapply made_stays|done]).
Qed.

Lemma pending_call s k c : sound s -> pending s !! k = Some c -> exists t, holds s t k c.
Proof. intros Hs (t & g & H & Hk & _)%(so_pending _ Hs). exists t. by exists g. Qed.

(** The first call of a key. *)
Lemma first_sound s t k : sound s -> goroutines s !! t = Some (Calling k) -> pending s !! k = None ->
  sound (move s t (<[ k := length (calls s) ]> (pending s)) (calls s ++ [{| outcome := nothing; released := false |}]) (Running k (length (calls s)))).
Proof.
  intros [H1 H2 H3 H4 H5 H6 H7] Hg Hp. set (c0 := length (calls s)). pose proof (lookup_lt_Some _ _ _ Hg) as Hlt.
  set (s' := move _ _ _ _ _).
  assert (Hold : forall c x, calls s !! c = Some x -> calls s' !! c = Some x) by (intros c x H; by apply lookup_app_l_Some).
  assert (Hnew : calls s' !! c0 = Some {| outcome := nothing; released := false |}) by (by apply list_lookup_middle).
  assert (Hh : forall t' k' c', holds s' t' k' c' <-> t' = t /\ k' = k /\ c' = c0 \/ t' <> t /\ holds s t' k' c').
  { intros t' k' c'. split.
    - intros (g' & [(-> & -> & _)|[Hne H]]%moved & Hk); [injection Hk as <- <-; by left|right]. split; [done|by exists g'].
    - intros [(-> & -> & ->)|[Hne (g' & H & Hk)]].
      + exists (Running k c0). split; [apply moved; by left|done].
      + exists g'. split; [apply moved; by right|done]. }
  assert (Hfresh : forall t' k', ~ holds s t' k' c0).
  { intros t' k' [r H]%H1. apply lookup_lt_Some in H. unfold c0 in H. lia. }
  split.
  - intros t' k' c' [(-> & -> & ->)|[_ H]]%Hh; [by exists nothing|]. destruct (H1 _ _ _ H) as [r Hr]. exists r. by apply Hold.
  - intros t1 t2 k1 k2 c [(-> & -> & ->)|[_ Ha]]%Hh [(-> & -> & E)|[_ Hb]]%Hh; [done|by apply Hfresh in Hb|subst c; by apply Hfresh in Ha|by eapply H2].
  - intros t' g' k' c' [(-> & -> & _)|[_ H]]%moved Hk Ht; [injection Hk as <- <-; apply lookup_insert_eq|].
    pose proof (H3 _ _ _ _ H Hk Ht) as Hx. cbn [move pending s']. rewrite lookup_insert_ne; [done|]. intros <-. congruence.
  - intros k' c'. cbn [move pending s']. rewrite lookup_insert_Some. intros [[<- <-]|[Hne Hx]].
    + exists t, (Running k c0). split_and!; [apply moved; by left|done..].
    + destruct (H4 _ _ Hx) as (t' & g' & H & Hk & Ht). exists t', g'. split; [|done]. apply moved. right. split; [|done]. intros ->. rewrite Hg in H. by simplify_eq.
  - intros t' g' k' c' [(-> & -> & _)|[_ H]]%moved Hk; [destruct Hk as [[= <- <-]|[[=]|[=]]]; done|]. apply Hold. by eapply H5.
  - intros t' k' c' [(_ & [=] & _)|[_ H]]%moved. destruct (H6 _ _ _ H) as [[t'' Ht]|(r & t'' & g' & Hc & Ht & Hm)].
    + left. exists t''. apply Hh. right. split; [|done]. intros ->. destruct Ht as (g' & Ht & Hk). rewrite Hg in Ht. by simplify_eq.
    + right. exists r, t'', g'. split_and!; [by apply Hold|by eapply made_stays|done].
  - intros t' k' c' r [(_ & [=] & _)|[_ H]]%moved. destruct (H7 _ _ _ _ H) as (t'' & g' & Ht & Hm). exists t'', g'.
    split; [by eapply made_stays|done].
Qed.

(** The function ends. *)
Lemma end_sound s t k c l p : sound s -> goroutines s !! t = Some (Running k c) ->
  (p = true /\ l = calls s \/ exists r, p = false /\ l = <[ c := {| outcome := r; released := false |} ]> (calls s)) ->
  sound (move s t (pending s) l (Leaving k c p)).
Proof.
  intros [H1 H2 H3 H4 H5 H6 H7] Hg Hl. assert (Hh := holds_moved s t (pending s) l (Leaving k c p) _ Hg eq_refl).
  assert (Hme : holds s t k c) by (by exists (Running k c)). destruct (H1 _ _ _ Hme) as [r0 Hc0]. set (s' := move _ _ _ _ _) in *.
  assert (Hother : forall c', c' <> c -> calls s' !! c' = calls s !! c').
  { intros c' Hne. cbn [move calls s']. destruct Hl as [[_ ->]|(r & _ & ->)]; [done|]. by rewrite list_lookup_insert_ne. }
  assert (Hthis : exists r, calls s' !! c = Some {| outcome := r; released := false |}).
  { cbn [move calls s']. destruct Hl as [[_ ->]|(r & _ & ->)]; [by exists r0|]. exists r. apply list_lookup_insert_eq. by eapply lookup_lt_Some. }
  split.
  - intros t' k' c' H%Hh. destruct (decide (c' = c)) as [->|Hne]; [done|]. rewrite Hother by done. by eapply H1.
  - intros t' t'' k1 k2 c'. rewrite !Hh. apply H2.
  - intros t' g' k' c' [(-> & -> & _)|[_ H]]%moved Hk Ht; [|by eapply H3]. injection Hk as <- <-. by apply (H3 t (Running k c)).
  - intros k' c' (t' & g' & H & Hk & Ht)%H4. destruct (decide (t' = t)) as [->|Hne].
    + exists t, (Leaving k c p). split; [apply moved; left; split_and!; try done; by eapply lookup_lt_Some|]. split; [|done]. rewrite Hg in H. by simplify_eq.
    + exists t', g'. split; [apply moved; by right|done].
  - intros t' g' k' c' [(-> & -> & _)|[Hne H]]%moved Hk.
    + destruct Hk as [[=]|[[= <- <- ->]|[=]]]. destruct Hl as [[_ ->]|(r & [=] & _)]. exact (H5 t _ k c Hg (or_introl eq_refl)).
    + assert (Ho : holds s t' k' c') by (exists g'; split; [done|]; by destruct Hk as [->|[->| ->]]).
      rewrite Hother; [by eapply H5|]. intros ->. by destruct (H2 _ _ _ _ _ Ho Hme).
  - intros t' k' c' [(_ & [=] & _)|[_ H]]%moved. destruct (H6 _ _ _ H) as [[t'' Ht]|(r & t'' & g' & Hc & Ht & Hm)].
    + left. exists t''. by apply Hh.
    + right. exists r, t'', g'. split_and!; [|by eapply made_stays|done]. rewrite Hother; [done|]. intros ->. congruence.
  - intros t' k' c' r [(_ & [=] & _)|[_ H]]%moved. destruct (H7 _ _ _ _ H) as (t'' & g' & Ht & Hm). exists t'', g'.
    split; [by eapply made_stays|done].
Qed.

(** The key leaves the table. *)
Lemma leave_sound s t k c p : sound s -> goroutines s !! t = Some (Leaving k c p) ->
  sound (move s t (delete k (pending s)) (calls s) (Releasing k c p)).
Proof.
  intros [H1 H2 H3 H4 H5 H6 H7] Hg. assert (Hh := holds_moved s t (delete k (pending s)) (calls s) (Releasing k c p) _ Hg eq_refl).
  pose proof (H3 t _ k c Hg eq_refl eq_refl) as Hp. split.
  - intros t' k' c' H%Hh. by eapply H1.
  - intros t' t'' k1 k2 c'. rewrite !Hh. apply H2.
  - intros t' g' k' c' [(-> & -> & _)|[Hne H]]%moved Hk Ht; [done|]. pose proof (H3 _ _ _ _ H Hk Ht) as Hx.
    cbn [move pending]. rewrite lookup_delete_ne; [done|]. intros <-. rewrite Hp in Hx. injection Hx as <-.
    by destruct (H2 t' t k k c (held _ _ _ _ _ H Hk) (held s t (Leaving k c p) k c Hg eq_refl)).
  - intros k' c'. cbn [move pending]. intros [Hne Hx]%lookup_delete_Some. destruct (H4 _ _ Hx) as (t' & g' & H & Hk & Ht).
    exists t', g'. split; [|done]. apply moved. right. split; [|done]. intros ->. rewrite Hg in H. injection H as <-. by injection Hk as <- <-.
  - intros t' g' k' c' [(-> & -> & _)|[Hne H]]%moved Hk; [|by apply (H5 t' g' k' c')].
    destruct Hk as [[=]|[[=]|[= <- <- ->]]]. exact (H5 t _ k c Hg (or_intror (or_introl eq_refl))).
  - intros t' k' c' [(_ & [=] & _)|[_ H]]%moved. destruct (H6 _ _ _ H) as [[t'' Ht]|(r & t'' & g' & Hc & Ht & Hm)].
    + left. exists t''. by apply Hh.
    + right. exists r, t'', g'. split_and!; [done|by eapply made_stays|done].
  - intros t' k' c' r [(_ & [=] & _)|[_ H]]%moved. destruct (H7 _ _ _ _ H) as (t'' & g' & Ht & Hm). exists t'', g'.
    split; [by eapply made_stays|done].
Qed.

(** The waiting goroutines are let go. *)
Lemma release_sound s t k c p r0 b g : sound s -> goroutines s !! t = Some (Releasing k c p) -> calls s !! c = Some {| outcome := r0; released := b |} ->
  g = (if p then Panicked k c else Returned k c r0 false) ->
  sound (move s t (pending s) (<[ c := {| outcome := r0; released := true |} ]> (calls s)) g).
Proof.
  intros [H1 H2 H3 H4 H5 H6 H7] Hg Hc0 Eg. pose proof (lookup_lt_Some _ _ _ Hg) as Hlt. pose proof (lookup_lt_Some _ _ _ Hc0) as Hcl.
  assert (Hme : holds s t k c) by (by exists (Releasing k c p)). set (s' := move _ _ _ _ _).
  assert (Hown : owned g = None /\ over g = true) by (subst g; by destruct p). destruct Hown as [Hown Hov].
  assert (Hother : forall c', c' <> c -> calls s' !! c' = calls s !! c') by (intros c' Hne; apply list_lookup_insert_ne; congruence).
  assert (Hthis : calls s' !! c = Some {| outcome := r0; released := true |}) by (by apply list_lookup_insert_eq).
  assert (Hh : forall t' k' c', holds s' t' k' c' <-> t' <> t /\ holds s t' k' c').
  { intros t' k' c'. split.
    - intros (g' & [(-> & -> & _)|[Hne H]]%moved & Hk); [congruence|]. split; [done|by exists g'].
    - intros [Hne (g' & H & Hk)]. exists g'. split; [apply moved; by right|done]. }
  assert (Hne : forall t' k' c', t' <> t -> holds s t' k' c' -> c' <> c).
  { intros t' k' c' Hd Ho ->. by destruct (H2 _ _ _ _ _ Ho Hme). }
  assert (Hmade : made g k c r0).
  { subst g. destruct p; [right|by left]. split; [done|]. pose proof (H5 t _ k c Hg (or_intror (or_intror eq_refl))) as Hz. congruence. }
  assert (Hgs : goroutines s' !! t = Some g) by (apply moved; by left). split.
  - intros t' k' c' [Hd Ho]%Hh. rewrite Hother by (by eapply Hne). by eapply H1.
  - intros t1 t2 k1 k2 c' [_ Ha]%Hh [_ Hb]%Hh. by eapply H2.
  - intros t' g' k' c' [(-> & -> & _)|[_ H]]%moved Hk Ht; [congruence|by eapply H3].
  - intros k' c' (t' & g' & H & Hk & Ht)%H4. exists t', g'. split; [|done]. apply moved. right. split; [|done]. intros ->. rewrite Hg in H. by simplify_eq.
  - intros t' g' k' c' [(-> & -> & _)|[Hd H]]%moved Hk; [subst g; destruct p; by destruct Hk as [[=]|[[=]|[=]]]|].
    assert (Ho : holds s t' k' c') by (exists g'; split; [done|]; by destruct Hk as [->|[->| ->]]).
    rewrite Hother by (by eapply Hne). by apply (H5 t' g' k' c').
  - intros t' k' c' [(-> & E & _)|[_ H]]%moved; [subst g; by destruct p|].
    destruct (H6 _ _ _ H) as [[t'' Ht]|(r & t'' & g' & Hc & Ht & Hm)].
    + destruct (decide (t'' = t)) as [->|Hd]; [|left; exists t''; by apply Hh]. right. exists r0, t, g.
      destruct Ht as (g' & Ht & Hk). rewrite Hg in Ht. injection Ht as <-. injection Hk as <- <-. done.
    + right. destruct (decide (c' = c)) as [->|Hd]; [|exists r, t'', g'; rewrite Hother by done; split_and!; [done|by eapply made_stays|done]].
      exfalso. destruct (H1 _ _ _ Hme) as [r' Hx]. congruence.
  - intros t' k' c' r [(-> & E & _)|[_ H]]%moved; [subst g; by destruct p|]. destruct (H7 _ _ _ _ H) as (t'' & g' & Ht & Hm). exists t'', g'.
    split; [by eapply made_stays|done].
Qed.

Lemma step_sound s s' : step s s' -> sound s -> sound s'.
Proof.
  intros (t & fn & Ha) Hs. unfold advance in Ha. destruct (goroutines s !! t) as [g|] eqn:Hg; [|done]. cbn [mbind option_bind] in Ha.
  destruct g as [k|k c|k c p|k c p|k c|k c r sh|k c]; [| | | | |done|done].
  - destruct (pending s !! k) as [c|] eqn:Hp; injection Ha as <-; [|by apply first_sound].
    eapply quiet_sound; [done..| |done]. intros k' c' [= <- <-]. by apply pending_call.
  - destruct fn as [r|]; injection Ha as <-; (eapply end_sound; [done..|]); [right; by exists r|by left].
  - injection Ha as <-. by apply leave_sound.
  - destruct (calls s !! c) as [[r0 b]|] eqn:Hc; [|done]. injection Ha as <-. by eapply release_sound.
  - destruct (calls s !! c) as [[r0 b]|] eqn:Hc; [|done]. cbn [mbind option_bind released outcome] in Ha. destruct b; [|done]. injection Ha as <-.
    eapply quiet_sound; [done..|]. intros k' c' r [= <- <- <-].
    destruct (so_waits _ Hs _ _ _ Hg) as [[t' Ho]|(r & t' & g & Hx & Ht & Hm)]; [|exists t', g; rewrite Hc in Hx; by injection Hx as <-].
    destruct (so_owner _ Hs _ _ _ Ho) as [r Hx]. congruence.
Qed.

Lemma reachable_sound s : reachable s -> sound s.
Proof.
  intros (keys & H). assert (Hs := start_sound keys). induction H as [|s1 s2 s3 H _ IH]; [done|]. apply IH. by eapply step_sound.
Qed.

(** ** Properties *)

Definition work (g : Goroutine) : nat :=
  match g with Calling _ => 5 | Running _ _ => 4 | Leaving _ _ _ => 3 | Releasing _ _ _ => 2 | Waiting _ _ => 1 | _ => 0 end.

Lemma work_moved l t g0 g : l !! t = Some g0 -> (work g < work g0)%nat -> (sum_list_with work (<[ t := g ]> l) < sum_list_with work l)%nat.
Proof.
  revert t. induction l as [|x l IH]; intros t; [done|]. destruct t as [|t]; cbn [lookup list_lookup insert list_insert sum_list_with].
  - intros [= ->] Hw. lia.
  - intros Hl Hw. apply (proj1 (Nat.add_lt_mono_l _ _ _)). by apply IH.
Qed.

(** A goroutine that waits is not alone. *)
Lemma can_advance s t g fn : sound s -> goroutines s !! t = Some g -> owned g <> None \/ (exists k, g = Calling k) -> exists s', advance s t fn = Some s'.
Proof.
  intros Hs Hg Ho. unfold advance. rewrite Hg. cbn [mbind option_bind]. destruct g as [k|k c|k c p|k c p|k c|k c r sh|k c].
  - destruct (pending s !! k); by eexists.
  - destruct fn; by eexists.
  - by eexists.
  - destruct (so_owner _ Hs t k c) as [r ->]; [by eapply held|]. by eexists.
  - by destruct Ho as [[]|[? [=]]].
  - by destruct Ho as [[]|[? [=]]].
  - by destruct Ho as [[]|[? [=]]].
Qed.

(** in every state that concurrent callers reach by atomic steps of Do, at most
    one function runs per key, and what a caller that shares a call returns is
    what the goroutine that made this very call for the same key returned, or a
    pair of nils when its function panicked (panic_shared_as_success). *)
Theorem call_shared s : reachable s ->
  (forall t t' k c c', goroutines s !! t = Some (Running k c) -> goroutines s !! t' = Some (Running k c') -> t = t') /\
  (forall t k c r, goroutines s !! t = Some (Returned k c r true) -> exists t', t' <> t /\
     (goroutines s !! t' = Some (Returned k c r false) \/ (goroutines s !! t' = Some (Panicked k c) /\ r = nothing))).
Proof.
  intros Hs%reachable_sound. split.
  - intros t t' k c c' Ht Ht'. pose proof (so_table _ Hs _ _ k c Ht eq_refl eq_refl) as H1.
    pose proof (so_table _ Hs _ _ k c' Ht' eq_refl eq_refl) as H2. rewrite H1 in H2. injection H2 as <-.
    by destruct (so_unique _ Hs t t' k k c (held _ _ _ _ _ Ht eq_refl) (held _ _ _ _ _ Ht' eq_refl)).
  - intros t k c r Hr. destruct (so_shared _ Hs _ _ _ _ Hr) as (t' & g & Hg & Hm). exists t'. split.
    + intros ->. rewrite Hg in Hr. injection Hr as ->. destruct Hm as [[=]|[[=] _]].
    + destruct Hm as [->|[-> ->]]; [by left|by right].
Qed.

(** C33: in every state that any number of concurrent callers reach by atomic steps
    of Do, either all have returned or some goroutine can take a step (a caller
    that waits is never left behind, also when the function panics), and every
    step is one towards the end: the sum of the steps that remain goes down.  So
    when every function that was started ends, every caller returns. *)
Theorem calls_end s : reachable s ->
  (Forall (fun g => over g = true) (goroutines s) \/ forall fn, exists t s', advance s t fn = Some s') /\
  (forall s', step s s' -> (sum_list_with work (goroutines s') < sum_list_with work (goroutines s))%nat).
Proof.
  intros Hs%reachable_sound. split.
  - destruct (decide (Forall (fun g => over g = true) (goroutines s))) as [|Hn]; [by left|right].
    apply not_Forall_Exists in Hn; [|apply _]. apply Exists_exists in Hn as (g & [t Hg]%list_elem_of_lookup & Ho). intros fn.
    assert (H : owned g <> None \/ (exists k, g = Calling k) \/ exists k c, g = Waiting k c) by (destruct g; naive_solver).
    destruct H as [H|[H|(k & c & ->)]]; [exists t; by eapply can_advance; eauto|exists t; by eapply can_advance; eauto|].
    destruct (so_waits _ Hs _ _ _ Hg) as [(t' & g & Hg' & Hk)|(r & t' & g & Hc & _)].
    + exists t'. eapply can_advance; [done..|]. left. congruence.
    + exists t. unfold advance. rewrite Hg. cbn [mbind option_bind]. rewrite Hc. by eexists.
  - intros s' (t & fn & Ha). unfold advance in Ha. destruct (goroutines s !! t) as [g|] eqn:Hg; [|done]. cbn [mbind option_bind] in Ha.
    assert (H : exists g', goroutines s' = <[ t := g' ]> (goroutines s) /\ (work g' < work g)%nat).
    { destruct g; repeat (case_match || destruct (calls s !! _) || cbn [mbind option_bind] in Ha); simplify_eq; eexists;
        (split; [reflexivity|]); cbn [work]; repeat case_match; lia. }
    destruct H as (g' & -> & Hw). by eapply work_moved.
Qed.
End singleflight.

(** ** Examples *)

(** A result or an error; [None] is a pair of nils. *)
Notation Result := (option (string + string)).
Definition good (v : string) : Result := Some (inl v).
Definition bad (e : string) : Result := Some (inr e).

Definition schedule (s : Singleflight (R := Result)) (l : list (nat * option Result)) : option (Singleflight (R := Result)) :=
  foldl (fun s x => s ← s; advance None s x.1 x.2) (Some s) l.

Lemma schedule_steps l : forall s s', schedule s l = Some s' -> rtc (step None) s s'.
Proof.
  unfold schedule. induction l as [|[t fn] l IH] using rev_ind; intros s s'; [by intros [= <-]|]. rewrite foldl_app. cbn [foldl fst snd].
  destruct (foldl _ _ l) as [s1|] eqn:E; [|done]. cbn [mbind option_bind]. intros H. eapply rtc_r; [by apply IH|]. by exists t, fn.
Qed.

Definition two_callers : Singleflight (R := Result) := NewSingleflight ["list"; "list"].
Definition in_flight : list (nat * option Result) := [(0, None); (1, None)].

Lemma two_reachable l s : schedule two_callers l = Some s -> reachable None s.
Proof. intros H. exists ["list"; "list"]. by eapply schedule_steps. Qed.

Definition both (fn : option Result) : option (list (Goroutine (R := Result))) :=
  goroutines <$> schedule two_callers (in_flight ++ [(0, fn); (0, None); (0, None); (1, None)]).

Lemma call_shared_witness : exists s t', schedule two_callers (in_flight ++ [(0, Some (good "v1.0.0")); (0, None); (0, None); (1, None)]) = Some s /\
  t' <> 1 /\ (goroutines s !! t' = Some (Returned "list" 0 (good "v1.0.0") false) \/
              (goroutines s !! t' = Some (Panicked "list" 0) /\ good "v1.0.0" = None)).
Proof.
  destruct (schedule two_callers (in_flight ++ [(0, Some (good "v1.0.0")); (0, None); (0, None); (1, None)])) as [s|] eqn:E;
    [|by vm_compute in E].
  destruct (call_shared None s (two_reachable _ _ E)) as [_ H].
  destruct (H 1 "list" 0 (good "v1.0.0")) as (t' & H1 & H2); [by vm_compute in E; injection E as <-|]. by exists s, t'.
Defined.

Lemma calls_end_witness : exists s, schedule two_callers in_flight = Some s /\
  (Forall (fun g => over g = true) (goroutines s) \/ forall fn, exists t s', advance None s t fn = Some s').
Proof.
  destruct (schedule two_callers in_flight) as [s|] eqn:E; [|by vm_compute in E].
  exists s. split; [done|]. exact (proj1 (calls_end None s (two_reachable _ _ E))).
Defined.

(** When the function panics, the caller that waits is told of a success without a
    value. *)
Theorem panic_shared_as_success :
  both None = Some [Panicked "list" 0; Returned "list" 0 None true] /\
  both (Some (bad "timeout")) = Some [Returned "list" 0 (bad "timeout") false; Returned "list" 0 (bad "timeout") true].
Proof. by split. Qed.
