(* ===== verification/S3Objects.v ===== *)
(** * internal/serve/s3serve: objects and multipart uploads

    The handlers of handlers.go, the upload manager of multipart.go and the
    dispatch of server.go, over mounts that implement Backend.v.  The state is
    the mounts, by the identity of their file system, the table of pending
    uploads and the temporary files of their parts; shares and users are
    configuration.  What a request meets outside the program (random bytes, the
    temporary disk failing) is its environment.  The XML documents of bodies are
    decoded by parameters; replies are the status and what clients rely on, and
    [RRead] is a document that is not modelled (S3List.v has the listing). *)

From Stdlib Require Import ZArith Lia Ascii.
From stdpp Require Import base list strings gmap.
From S2P Require Import Prelude GoStrings GoPath GoHash Identity S3Chunked S3Sig Backend.

Local Open Scope Z_scope.

(** ** Data *)

Record ShareSource := { Mount : string; Path : string }.

Record Share := { ShareName : string; Sources : list ShareSource; ReadOnly : bool }.

(** The start time of an upload is only printed. *)
Record partInfo := { number : Z; path : string; size : Z; etag : string }.

Record multipartUpload := {
  id : string;
  bucket : string;
  key : string;
  dir : string;
  parts : gmap Z partInfo;
}.

Record State (F : Type) := {
  mounts : string -> F;
  uploads : gmap string multipartUpload;
  tmp : gmap string string;
}.

Arguments Build_State {F}.
Arguments mounts {F}.
Arguments uploads {F}.
Arguments tmp {F}.

Record Env := {
  random : option string;
  mkdirFails : bool;
  createFails : bool;
  closeFails : bool;
}.

Record completedPart := { PartNumber : Z; ETag : string }.

Record deleteRequest := { Quiet : bool; Objects : list string }.

(** The status and code of an S3 error. *)
Record s3Error := { HTTPStatus : Z; Code : string }.

Definition errNoSuchBucket := {| HTTPStatus := 404; Code := "NoSuchBucket" |}.
Definition errNoSuchKey := {| HTTPStatus := 404; Code := "NoSuchKey" |}.
Definition errNoSuchUpload := {| HTTPStatus := 404; Code := "NoSuchUpload" |}.
Definition errAccessDenied := {| HTTPStatus := 403; Code := "AccessDenied" |}.
Definition errInvalidArgument := {| HTTPStatus := 400; Code := "InvalidArgument" |}.
Definition errInvalidRequest := {| HTTPStatus := 400; Code := "InvalidRequest" |}.
Definition errMethodNotAllowed := {| HTTPStatus := 405; Code := "MethodNotAllowed" |}.
Definition errNotImplemented := {| HTTPStatus := 501; Code := "NotImplemented" |}.
Definition errInternal := {| HTTPStatus := 500; Code := "InternalError" |}.

Definition authError (e : S3Error) : s3Error :=
  match e with
  | MissingAuth | ExpiredPresign => errAccessDenied
  | AuthMalformed _ => {| HTTPStatus := 400; Code := "AuthorizationHeaderMalformed" |}
  | InvalidAccessKey => {| HTTPStatus := 403; Code := "InvalidAccessKeyId" |}
  | TimeSkewed => {| HTTPStatus := 403; Code := "RequestTimeTooSkewed" |}
  | SignatureMismatch => {| HTTPStatus := 403; Code := "SignatureDoesNotMatch" |}
  | InvalidArgument _ => errInvalidArgument
  end.

Inductive Reply :=
| RError (e : s3Error)
| RStatus (status : Z)
| REtag (etag : string)
| RObject (data : Reader) (etag : string)
| RHead (size : Z) (etag : string)
| RUploadId (id : string)
| RParts (l : list partInfo)
| RDeleted (deleted : list string) (errors : list (string * string))
| RBuckets (l : list string)
| RRead.

(** ** Paths and keys *)

Definition sourceFSPath (s : ShareSource) (relPath : string) : string :=
  if String.eqb (Path s) "" then relPath
  else if String.eqb relPath "" then Path s
  else Path s +:+ "/" +:+ relPath.

Definition cleanKey (key : string) : option string :=
  let key := Trim key "/" in
  if String.eqb key "" then Some ""
  else
    let cleaned := Clean key in
    if String.eqb cleaned "." || String.eqb cleaned ".." || HasPrefix cleaned "../" then None
    else Some cleaned.

Definition splitBucketKey (p : string) : string * string :=
  let p := TrimPrefix p "/" in
  if String.eqb p "" then ("", "")
  else match IndexByte p "/" with
       | Some i => (str_take i p, str_drop (i + 1) p)
       | None => (p, "")
       end.

Definition PathUnescape : string -> option string := uri_decode.

Definition parseCopySource (src : string) : option (string * string) :=
  let src := match IndexByte src "?" with Some i => str_take i src | None => src end in
  let unescaped := TrimPrefix (default src (PathUnescape src)) "/" in
  match IndexByte unescaped "/" with
  | None => None
  | Some i => if (i =? 0)%nat || (i =? len unescaped - 1)%nat then None
              else Some (str_take i unescaped, str_drop (i + 1) unescaped)
  end.

Definition emptyMD5 : string := "d41d8cd98f00b204e9800998ecf8427e".

(** [pseudoETag]: the MD5 of the key, the size and the Unix time. *)
Definition NUL : string := String (chr 0) "".

Definition pseudoETag (key : string) (size modTime : Z) : string :=
  EncodeToString (Md5Sum (key +:+ NUL +:+ itoa size +:+ NUL +:+ itoa modTime)).

Definition trimQuote (s : string) : string :=
  let q := String (chr 34) "" in
  if (2 <=? len s)%nat && HasPrefix s q && HasSuffix s q then str_take (len s - 2) (str_drop 1 s) else s.

(** ** Request bodies *)

(** Reading an aws-chunked body to its end in buffers of 32 KiB: a transport
    error is only met when the stream is not finished before it. *)
Fixpoint dechunk_go (fuel : nat) (c : chunkedReader) : string * option ReadError * bool :=
  match fuel with
  | O => ("", Some ErrUnexpectedEOF, false)
  | S fuel =>
      let '(data, err, c) := Read 32768 32768 c in
      match err with
      | Some EOF => (data, None, finished c)
      | Some e => (data, Some e, finished c)
      | None => let '(rest, e, fin) := dechunk_go fuel c in (data +:+ rest, e, fin)
      end
  end.

Definition readError (e : ReadError) : string :=
  match e with
  | EOF => "EOF"
  | ErrUnexpectedEOF => "unexpected EOF"
  | InvalidChunkSize s => "aws-chunked: invalid chunk size " +:+ s
  | MalformedTerminator => "aws-chunked: malformed chunk terminator"
  end.

(** Every read but the last consumes input. *)
Definition dechunk (r : Reader) : Reader :=
  let '(data, e, fin) := dechunk_go (2 + len (rData r)) (newChunkedReader (rData r)) in
  {| rData := data;
     rErr := match e with
             | Some e => Some (readError e)
             | None => if fin then None else rErr r
             end |}.

Definition Has (r : Request) (k : string) : bool := is_some (Identity.assoc k (Query r)).

(** The reader of a body and its declared size. *)
Definition requestBody (r : Request) (body : Reader) (contentLength : Z) : result s3Error (Reader * Z) :=
  if isStreamingPayload r then
    let v := HeaderGet r "X-Amz-Decoded-Content-Length" in
    if String.eqb v "" then Ok (dechunk body, -1)
    else match ParseInt10 v with
         | None => Err errInvalidRequest
         | Some n => Ok (dechunk body, n)
         end
  else Ok (body, contentLength).

Definition maxXMLBodySize : nat := 4 * 1024 * 1024.

(** [io.LimitReader] *)
Definition LimitReader (r : Reader) (n : nat) : Reader :=
  if (n <=? len (rData r))%nat then reader (str_take n (rData r)) else r.

(** ** Uploads *)

(** The five digits of "part-%05d" for a valid part number. *)
Definition pad5 (n : Z) : string :=
  string_of ((fun d => 48 + n / d mod 10) <$> [10000; 1000; 100; 10; 1]).

Definition partPath (dir : string) (number : Z) : string := PathJoin [dir; "part-" +:+ pad5 number].

(** [os.RemoveAll] *)
Definition RemoveAll (dir : string) (tmp : gmap string string) : gmap string string :=
  filter (fun kv => ~ (kv.1 = dir \/ HasPrefix kv.1 (dir +:+ "/") = true)) tmp.

Section uploads.
Context {F : Type}.
(** The directory of the temporary files. *)
Variable tmpRoot : string.

Definition set_uploads (s : State F) (u : gmap string multipartUpload) (t : gmap string string) : State F :=
  {| mounts := mounts s; uploads := u; tmp := t |}.

Definition create (env : Env) (bucket key : string) (s : State F) : option multipartUpload * State F :=
  match random env with
  | None => (None, s)
  | Some b =>
      let uid := EncodeToString b in
      let d := PathJoin [tmpRoot; uid] in
      if mkdirFails env then (None, s)
      else
        let up := {| id := uid; bucket := bucket; key := key; dir := d; parts := ∅ |} in
        (Some up, set_uploads s (<[ uid := up ]> (uploads s)) (tmp s))
  end.

Definition get (s : State F) (uid b k : string) : option multipartUpload :=
  match uploads s !! uid with
  | None => None
  | Some up => if negb (String.eqb (bucket up) b) || negb (String.eqb (key up) k) then None else Some up
  end.

Definition remove (uid : string) (s : State F) : State F :=
  match uploads s !! uid with
  | None => s
  | Some up => set_uploads s (delete uid (uploads s)) (RemoveAll (dir up) (tmp s))
  end.

(** [cleanup], when the server stops. *)
Definition cleanup (s : State F) : State F :=
  set_uploads s ∅ (foldl (fun t kv => RemoveAll (dir kv.2) t) (tmp s) (map_to_list (uploads s))).

Definition add_part (up : multipartUpload) (pi : partInfo) : multipartUpload :=
  {| id := id up; bucket := bucket up; key := key up; dir := dir up;
     parts := <[ number pi := pi ]> (parts up) |}.

(** The body is written over the file of the part while it is read; after an
    error that file is removed, and the table is as it was. *)
Definition putPart (env : Env) (up : multipartUpload) (n : Z) (body : Reader) (s : State F)
    : option partInfo * State F :=
  if (n <? 1) || (10000 <? n) then (None, s)
  else
    let p := partPath (dir up) n in
    if createFails env then (None, s)
    else
      let t := <[ p := rData body ]> (tmp s) in
      if bool_decide (is_Some (rErr body)) || closeFails env
      then (None, set_uploads s (uploads s) (delete p t))
      else
        let pi := {| number := n; path := p; size := Z.of_nat (len (rData body));
                     etag := EncodeToString (Md5Sum (rData body)) |} in
        let t := match parts up !! n with
                 | Some old => if negb (String.eqb (path old) p) then delete (path old) t else t
                 | None => t
                 end in
        (Some pi, set_uploads s (<[ id up := add_part up pi ]> (uploads s)) t).

Definition less_number (a b : partInfo) : bool := number a <? number b.

Definition listParts (up : multipartUpload) : list partInfo :=
  SliceStable less_number (map_to_list (parts up)).*2.

(** The parts of a completion, from the last part number that was accepted. *)
Fixpoint assemble_go (up : multipartUpload) (prev : Z) (requested : list completedPart)
    : option (list partInfo * Z * string) :=
  match requested with
  | [] => Some ([], 0, "")
  | rp :: requested =>
      if PartNumber rp <=? prev then None
      else match parts up !! PartNumber rp with
           | None => None
           | Some pi =>
               let want := trimQuote (ETag rp) in
               if negb (String.eqb want "") && negb (String.eqb want (etag pi)) then None
               else match DecodeString (etag pi) with
                    | None => None
                    | Some raw =>
                        match assemble_go up (PartNumber rp) requested with
                        | None => None
                        | Some (pis, total, hashed) =>
                            Some (pi :: pis, size pi + total, raw +:+ hashed)
                        end
                    end
           end
  end.

Definition assemble (up : multipartUpload) (requested : list completedPart)
    : option (list partInfo * Z * string) :=
  if bool_decide (requested = []) then None
  else match assemble_go up 0 requested with
       | None => None
       | Some (pis, total, hashed) =>
           Some (pis, wrap64 total,
                 EncodeToString (Md5Sum hashed) +:+ "-" +:+ itoa (Z.of_nat (length pis)))
       end.

(** The files of the parts, one after the other, up to one that is missing. *)
Fixpoint partsReader (t : gmap string string) (pis : list partInfo) : Reader :=
  match pis with
  | [] => reader ""
  | pi :: pis =>
      match t !! path pi with
      | None => {| rData := ""; rErr := Some "no such file or directory" |}
      | Some d => let r := partsReader t pis in {| rData := d +:+ rData r; rErr := rErr r |}
      end
  end.
End uploads.

(** ** The handlers *)

Section server.
Context {F : Type} `{Backend F}.
Variable tmpRoot : string.
Variables (shares : list Share) (users : list User).
(** The decoders of the XML bodies. *)
Variable decodeComplete : Reader -> option (list completedPart).
Variable decodeDelete : Reader -> option deleteRequest.

Definition userShares (user : User) : list Share :=
  if bool_decide (Shares user = []) then shares
  else List.filter (fun sh => bool_decide (ShareName sh ∈ Shares user)) shares.

Definition findShare (user : User) (bucket : string) : option Share :=
  List.find (fun sh => String.eqb (ShareName sh) bucket) (userShares user).

Definition isReadOnly (user : User) (share : Share) : bool := ReadOnly share || UserReadOnly user.

Definition findInSources (s : State F) (share : Share) (relPath : string) : option ShareSource :=
  List.find (fun src => is_ok (Stat (mounts s (Mount src)) (sourceFSPath src relPath))) (Sources share).

Definition firstWritableSource (s : State F) (share : Share) : option ShareSource :=
  List.find (fun src => IsWritable (mounts s (Mount src))) (Sources share).

Definition writeTarget (s : State F) (share : Share) (key : string) : result s3Error (ShareSource * string) :=
  match findInSources s share key with
  | Some src => if IsWritable (mounts s (Mount src)) then Ok (src, sourceFSPath src key)
                else Err errAccessDenied
  | None => match firstWritableSource s share with
            | Some src => Ok (src, sourceFSPath src key)
            | None => Err errAccessDenied
            end
  end.

(** An operation on a mount: all sources of that mount see it. *)
Definition on_mount (s : State F) (m : string) (op : F -> option FSError * F) : option FSError * State F :=
  let '(e, f) := op (mounts s m) in
  (e, {| mounts := fun m' => if String.eqb m' m then f else mounts s m';
         uploads := uploads s; tmp := tmp s |}).

Definition getObject (share : Share) (key : string) (trailingSlash : bool) (s : State F) : Reply :=
  match findInSources s share key with
  | None => RError errNoSuchKey
  | Some src =>
      let f := mounts s (Mount src) in
      match Stat f (sourceFSPath src key) with
      | Err _ => RError errNoSuchKey
      | Ok fi =>
          if IsDir fi then
            if negb trailingSlash then RError errNoSuchKey else RObject (reader "") emptyMD5
          else match Open f (sourceFSPath src key) with
               | Err _ => RError errInternal
               | Ok (r, fi) => RObject r (pseudoETag key (Size fi) (ModTime fi))
               end
      end
  end.

Definition headObject (share : Share) (key : string) (trailingSlash : bool) (s : State F) : Reply :=
  match findInSources s share key with
  | None => RError errNoSuchKey
  | Some src =>
      match Stat (mounts s (Mount src)) (sourceFSPath src key) with
      | Err _ => RError errNoSuchKey
      | Ok fi =>
          if IsDir fi && negb trailingSlash then RError errNoSuchKey
          else if IsDir fi then RHead 0 emptyMD5
          else RHead (Size fi) (pseudoETag key (Size fi) (ModTime fi))
      end
  end.

(** The reply of a change to a mount. *)
Definition finish (r : option FSError * State F) (ok : State F -> Reply) : Reply * State F :=
  match r with
  | (Some _, s) => (RError errInternal, s)
  | (None, s) => (ok s, s)
  end.

Definition putObject (user : User) (r : Request) (body : Reader) (contentLength : Z) (share : Share)
    (key : string) (trailingSlash : bool) (s : State F) : Reply * State F :=
  if isReadOnly user share then (RError errAccessDenied, s)
  else match requestBody r body contentLength with
  | Err e => (RError e, s)
  | Ok (body, size) =>
      if trailingSlash && (size =? 0) then
        match firstWritableSource s share with
        | None => (RError errAccessDenied, s)
        | Some src => finish (on_mount s (Mount src) (fun f => MkDir f (sourceFSPath src key)))
                             (fun _ => REtag emptyMD5)
        end
      else match writeTarget s share key with
      | Err e => (RError e, s)
      | Ok (src, fsPath) =>
          finish (on_mount s (Mount src) (fun f => Write f fsPath body size))
                 (fun _ => REtag (EncodeToString (Md5Sum (rData body))))
      end
  end.

Definition copyObject (user : User) (r : Request) (dstShare : Share) (dstKey : string) (now : Z)
    (s : State F) : Reply * State F :=
  if isReadOnly user dstShare then (RError errAccessDenied, s)
  else match parseCopySource (HeaderGet r "X-Amz-Copy-Source") with
  | None => (RError errInvalidArgument, s)
  | Some (srcBucket, srcKey) =>
      match findShare user srcBucket with
      | None => (RError errNoSuchBucket, s)
      | Some srcShare =>
          match cleanKey srcKey with
          | None => (RError errInvalidArgument, s)
          | Some cleanSrc =>
              if String.eqb cleanSrc "" then (RError errInvalidArgument, s)
              else match findInSources s srcShare cleanSrc with
              | None => (RError errNoSuchKey, s)
              | Some src =>
                  match writeTarget s dstShare dstKey with
                  | Err e => (RError e, s)
                  | Ok (dst, dstPath) =>
                      let srcPath := sourceFSPath src cleanSrc in
                      let copy f :=
                        if IsCopyable (mounts s (Mount src)) && String.eqb (Mount src) (Mount dst)
                        then Copy f srcPath dstPath
                        else GenericCopy (mounts s (Mount src)) srcPath f dstPath in
                      finish (on_mount s (Mount dst) copy) (fun s =>
                        let '(size, modTime) :=
                          match Stat (mounts s (Mount dst)) dstPath with
                          | Ok fi => (Size fi, ModTime fi)
                          | Err _ => (0, now)
                          end in
                        REtag (pseudoETag dstKey size modTime))
                  end
              end
          end
      end
  end.

(** A missing key is deleted already. *)
Definition deleteFromShare (share : Share) (key : string) (s : State F) : option s3Error * State F :=
  match findInSources s share key with
  | None => (None, s)
  | Some src =>
      if negb (IsWritable (mounts s (Mount src))) then (Some errAccessDenied, s)
      else match on_mount s (Mount src) (fun f => Delete f (sourceFSPath src key)) with
           | (None, s) | (Some NotFound, s) => (None, s)
           | (Some _, s) => (Some errInternal, s)
           end
  end.

Definition deleteObject (user : User) (share : Share) (key : string) (s : State F) : Reply * State F :=
  if isReadOnly user share then (RError errAccessDenied, s)
  else match deleteFromShare share key s with
       | (Some e, s) => (RError e, s)
       | (None, s) => (RStatus 204, s)
       end.

Fixpoint deleteKeys (share : Share) (quiet : bool) (keys : list string) (s : State F)
    : list string * list (string * string) * State F :=
  match keys with
  | [] => ([], [], s)
  | k :: keys =>
      match (match cleanKey k with Some k' => if String.eqb k' "" then None else Some k' | None => None end) with
      | None => let '(del, errs, s) := deleteKeys share quiet keys s in
                (del, (k, "InvalidArgument") :: errs, s)
      | Some k' =>
          match deleteFromShare share k' s with
          | (Some e, s) => let '(del, errs, s) := deleteKeys share quiet keys s in
                           (del, (k, Code e) :: errs, s)
          | (None, s) => let '(del, errs, s) := deleteKeys share quiet keys s in
                         (if quiet then del else k :: del, errs, s)
          end
      end
  end.

Definition deleteObjects (user : User) (r : Request) (body : Reader) (contentLength : Z)
    (share : Share) (s : State F) : Reply * State F :=
  if isReadOnly user share then (RError errAccessDenied, s)
  else match requestBody r body contentLength with
  | Err e => (RError e, s)
  | Ok (body, _) =>
      match decodeDelete (LimitReader body maxXMLBodySize) with
      | None => (RError errInvalidRequest, s)
      | Some req => let '(del, errs, s) := deleteKeys share (Quiet req) (Objects req) s in
                    (RDeleted del errs, s)
      end
  end.

Definition createMultipartUpload (env : Env) (user : User) (bucket : string) (share : Share)
    (key : string) (s : State F) : Reply * State F :=
  if isReadOnly user share then (RError errAccessDenied, s)
  else match writeTarget s share key with
  | Err e => (RError e, s)
  | Ok _ => match create tmpRoot env bucket key s with
            | (None, s) => (RError errInternal, s)
            | (Some up, s) => (RUploadId (id up), s)
            end
  end.

Definition uploadPart (env : Env) (user : User) (r : Request) (body : Reader) (contentLength : Z)
    (bucket : string) (share : Share) (key : string) (s : State F) : Reply * State F :=
  if isReadOnly user share then (RError errAccessDenied, s)
  else match get s (QueryGet r "uploadId") bucket key with
  | None => (RError errNoSuchUpload, s)
  | Some up =>
      match ParseInt10 (QueryGet r "partNumber") with
      | None => (RError errInvalidArgument, s)
      | Some n =>
          match requestBody r body contentLength with
          | Err e => (RError e, s)
          | Ok (body, _) =>
              match putPart env up n body s with
              | (None, s) => (RError errInvalidArgument, s)
              | (Some pi, s) => (REtag (etag pi), s)
              end
          end
      end
  end.

Definition completeMultipartUpload (user : User) (r : Request) (body : Reader) (bucket : string)
    (share : Share) (key : string) (s : State F) : Reply * State F :=
  if isReadOnly user share then (RError errAccessDenied, s)
  else
    let uploadID := QueryGet r "uploadId" in
    match get s uploadID bucket key with
    | None => (RError errNoSuchUpload, s)
    | Some up =>
        match decodeComplete (LimitReader body maxXMLBodySize) with
        | None => (RError errInvalidRequest, s)
        | Some req =>
            match assemble up req with
            | None => (RError errInvalidRequest, s)
            | Some (pis, total, tag) =>
                match writeTarget s share key with
                | Err e => (RError e, s)
                | Ok (src, fsPath) =>
                    let parts := partsReader (tmp s) pis in
                    match on_mount s (Mount src) (fun f => Write f fsPath parts total) with
                    | (Some _, s) => (RError errInternal, s)
                    | (None, s) => (REtag tag, remove uploadID s)
                    end
                end
            end
        end
    end.

Definition handleListParts (r : Request) (bucket key : string) (s : State F) : Reply :=
  match get s (QueryGet r "uploadId") bucket key with
  | None => RError errNoSuchUpload
  | Some up => RParts (listParts up)
  end.

(** ** Dispatch *)

Definition subresources : list string :=
  ["acl"; "policy"; "lifecycle"; "cors"; "encryption"; "website"; "replication";
   "tagging"; "object-lock"; "logging"; "notification"].

Definition handleBucket (user : User) (r : Request) (body : Reader) (contentLength : Z)
    (bucket : string) (s : State F) : Reply * State F :=
  let share := findShare user bucket in
  let m := Method r in
  if String.eqb m "HEAD" then
    (match share with None => RError errNoSuchBucket | Some _ => RStatus 200 end, s)
  else if String.eqb m "GET" then
    (match share with
     | None => RError errNoSuchBucket
     | Some _ =>
         if Has r "location" || Has r "uploads" || Has r "versioning" then RRead
         else if existsb (Has r) subresources then RError errNotImplemented
         else RRead
     end, s)
  else if String.eqb m "PUT" then
    (if negb (bool_decide (Query r = [])) then RError errNotImplemented
     else match share with None => RError errNotImplemented | Some _ => RStatus 200 end, s)
  else if String.eqb m "POST" then
    match share with
    | None => (RError errNoSuchBucket, s)
    | Some share => if Has r "delete" then deleteObjects user r body contentLength share s
                    else (RError errMethodNotAllowed, s)
    end
  else if String.eqb m "DELETE" then (RError errNotImplemented, s)
  else (RError errMethodNotAllowed, s).

Definition handleObject (env : Env) (now : Z) (user : User) (r : Request) (body : Reader)
    (contentLength : Z) (bucket rawKey : string) (s : State F) : Reply * State F :=
  match findShare user bucket with
  | None => (RError errNoSuchBucket, s)
  | Some share =>
      let trailingSlash := HasSuffix rawKey "/" in
      match cleanKey rawKey with
      | None => (RError errInvalidArgument, s)
      | Some key =>
          let m := Method r in
          if String.eqb key "" then (RError errInvalidArgument, s)
          else if String.eqb m "GET" then
            (if Has r "uploadId" then handleListParts r bucket key s
             else if Has r "tagging" then RRead
             else if Has r "acl" then RError errNotImplemented
             else getObject share key trailingSlash s, s)
          else if String.eqb m "HEAD" then (headObject share key trailingSlash s, s)
          else if String.eqb m "PUT" then
            if negb (String.eqb (HeaderGet r "X-Amz-Copy-Source") "") then
              if Has r "partNumber" || Has r "uploadId" then (RError errNotImplemented, s)
              else copyObject user r share key now s
            else if Has r "partNumber" && Has r "uploadId" then
              uploadPart env user r body contentLength bucket share key s
            else if Has r "tagging" || Has r "acl" then (RStatus 200, s)
            else putObject user r body contentLength share key trailingSlash s
          else if String.eqb m "POST" then
            if Has r "uploads" then createMultipartUpload env user bucket share key s
            else if Has r "uploadId" then completeMultipartUpload user r body bucket share key s
            else (RError errMethodNotAllowed, s)
          else if String.eqb m "DELETE" then
            if Has r "uploadId" then (RStatus 204, remove (QueryGet r "uploadId") s)
            else if Has r "tagging" then (RStatus 204, s)
            else deleteObject user share key s
          else (RError errMethodNotAllowed, s)
      end
  end.

(** [handle]: the clock of signatures is in nanoseconds since 1970. *)
Definition handle (env : Env) (clock : Z) (r : Request) (body : Reader) (contentLength : Z)
    (s : State F) : Reply * State F :=
  match authenticate users clock r with
  | Err e => (RError (authError e), s)
  | Ok user =>
      let '(bucket, key) := splitBucketKey (URLPath r) in
      if String.eqb bucket "" then
        (if String.eqb (Method r) "GET" then RBuckets (ShareName <$> userShares user)
         else RError errMethodNotAllowed, s)
      else if String.eqb key "" then handleBucket user r body contentLength bucket s
      else handleObject env (clock / nanos) user r body contentLength bucket key s
  end.
End server.
