(* ===== verification/S3ObjectsSafety.v ===== *)
(** * What the object handlers of the S3 server guarantee

    Keys are cleaned to paths that stay below their source; a request changes
    only files of a share that its user sees and neither marks read-only; what
    was put is what is read; the table of pending uploads refines a map from
    upload ids to part contents, and completing an upload writes their
    concatenation. *)

From Stdlib Require Import ZArith Lia Ascii.
From stdpp Require Import base list strings gmap sorting.
From S2P Require Import Prelude GoStrings GoPath GoHash S3Chunked S3Sig Backend LocalFS S3Objects.

Local Open Scope Z_scope.

(** ** Clean keys *)

Lemma TrimLeft_suffix s cut : exists t, s = t +:+ TrimLeft s cut.
Proof.
  induction s as [|c s [t IH]]; [by exists ""|]. cbn [TrimLeft]. case_if; [|by exists ""].
  exists (String c t). by rewrite app_cons, <-IH.
Qed.

Lemma TrimRight_prefix s cut : exists t, s = TrimRight s cut +:+ t.
Proof.
  unfold TrimRight. destruct (TrimLeft_suffix (str_rev s) cut) as [t Ht].
  exists (str_rev t). rewrite <-str_rev_dist, <-Ht. by rewrite str_rev_invol.
Qed.

Lemma TrimLeft_head s c t : TrimLeft s (String c "") <> String c t.
Proof.
  induction s as [|d s IH]; [done|]. cbn [TrimLeft]. case_if as E; [exact IH|].
  intros [= -> ->]. cbn [ContainsByte] in E. by rewrite Ascii.eqb_refl in E.
Qed.

Lemma Trim_unrooted s : HasPrefix (Trim s "/") "/" = false.
Proof.
  apply not_true_iff_false. intros [r Hr]%HasPrefix_spec. unfold Trim in Hr.
  destruct (TrimRight_prefix (TrimLeft s "/") "/") as [t Ht]. rewrite Hr in Ht.
  by apply (TrimLeft_head s "/" (r +:+ t)).
Qed.

(** The kept segments of a relative path: plain ones over leading "..". *)
Lemma clean_false_shape segs : Forall (fun w => no_byte "/" w = true) segs -> forall stack,
  (exists g k, stack = g ++ repeat ".." k /\ Forall good_seg g) ->
  exists g k, foldl (clean_step false) stack segs = g ++ repeat ".." k /\ Forall good_seg g.
Proof.
  induction 1 as [|seg segs Hn _ IH]; intros stack Hs; [done|]. cbn [foldl]. apply IH.
  destruct Hs as (g & k & -> & Hg). unfold clean_step. case_if; [by exists g, k|]. case_if as E2.
  - destruct g as [|top g]; cbn [app].
    + destruct k; [by exists [], 1%nat|]. cbn [repeat]. by exists [], (S (S k)).
    + inversion Hg as [|? ? (_ & _ & Ht & _) Hr]; subst.
      rewrite (proj2 (String.eqb_neq top "..") Ht). by exists g, k.
  - exists (seg :: g), k. split; [done|]. constructor; [|done]. by bool_prop.
Qed.

Lemma Join_prefix x l : l <> [] -> HasPrefix (Join (x :: l) "/") (x +:+ "/") = true.
Proof. destruct l as [|y l]; [done|]. intros _. rewrite Join_cons, <-str_app_assoc. apply HasPrefix_app. Qed.

Lemma cleanKey_good k c : cleanKey k = Some c -> c = "" \/ good_path c.
Proof.
  unfold cleanKey. case_if; [intros [= <-]; by left|].
  destruct (_ || _ || _) eqn:E; [done|]. intros [= <-]. right.
  apply orb_false_iff in E as [E Ep]. apply orb_false_iff in E as [Ed Edd]. bool_prop.
  unfold Clean in *. rewrite Trim_unrooted in *. cbv zeta in *.
  destruct (clean_false_shape (Split (Trim k "/") "/") (Split_no_sep _ _) []) as (g & n & E & Hg).
  { by exists [], 0%nat. }
  rewrite E in *. destruct n as [|n].
  - rewrite app_nil_r in *. destruct (String.eqb_spec (Join (rev g) "/") "") as [|Hne]; [done|].
    apply Join_good; [by intros E'; rewrite E' in Hne|]. apply Forall_rev.
    eapply Forall_impl; [exact Hg|]. apply good_seg_path.
  - exfalso. rewrite rev_app_distr in *.
    assert (Hr : exists l, rev (repeat ".." (S n)) = ".." :: l).
    { assert (Hall : Forall (fun x : string => x = "..") (rev (repeat ".." (S n)))).
      { apply Forall_rev. apply Forall_forall. intros x Hx%list_elem_of_In. by apply repeat_spec in Hx. }
      destruct (rev (repeat ".." (S n))) as [|x l] eqn:El.
      - apply (f_equal length) in El. rewrite length_rev in El. done.
      - inversion Hall; subst. by exists l. }
    destruct Hr as [l Hl]. rewrite Hl in *. cbn [app] in *.
    assert (Hne : Join (".." :: (l ++ rev g)) "/" <> "").
    { destruct (l ++ rev g); [done|]. by rewrite Join_cons. }
    rewrite (proj2 (String.eqb_neq _ "") Hne) in *.
    destruct (l ++ rev g) as [|y r] eqn:Elr; [done|].
    pose proof (Join_prefix ".." (y :: r)) as Hp. change (".." +:+ "/") with "../" in Hp.
    by rewrite Hp in Ep.
Qed.

Lemma cleanKey_fixed p : good_path p -> cleanKey p = Some p.
Proof.
  intros Hp. pose proof (good_path_nonempty p Hp) as Hne. unfold cleanKey.
  rewrite Trim_good, Clean_good by done. rewrite (proj2 (String.eqb_neq p "") Hne).
  assert (H1 : p <> "."). { intros ->. by inversion Hp as [|? ? (_ & ? & _)]. }
  assert (H2 : p <> ".."). { intros ->. by inversion Hp as [|? ? (_ & _ & ? & _)]. }
  assert (H3 : HasPrefix p "../" = false).
  { apply not_true_iff_false. intros [r ->]%HasPrefix_spec. unfold good_path in Hp.
    change ("../" +:+ r) with (".." +:+ String "/" r) in Hp. rewrite Split_app in Hp.
    apply Forall_app in Hp as [Hp _]. by inversion Hp as [|? ? (_ & _ & ? & _)]. }
  by rewrite (proj2 (String.eqb_neq p ".") H1), (proj2 (String.eqb_neq p "..") H2), H3.
Qed.

(** ** Frames *)

Definition src_ok (src : ShareSource) : Prop := Path src = "" \/ good_path (Path src).

Definition share_ok (sh : Share) : Prop := Forall src_ok (Sources sh).

Lemma sourceFSPath_good src key : src_ok src -> good_path key -> good_path (sourceFSPath src key).
Proof.
  intros Hs Hk. unfold sourceFSPath. case_if; [done|].
  rewrite (proj2 (String.eqb_neq key "") (good_path_nonempty key Hk)).
  destruct Hs as [|Hs]; [done|]. by apply good_path_app.
Qed.

Section frame.
Context {F : Type} `{BackendLaws F}.

(** The files a key of a share can name. *)
Definition in_share (sh : Share) (m p : string) : Prop :=
  exists src key, src ∈ Sources sh /\ Mount src = m /\ good_path key /\ p = sourceFSPath src key.

(** Outside [P] every file is as it was, and the mounts stay well-formed. *)
Definition frame (P : string -> string -> Prop) (s s' : State F) : Prop :=
  (forall m, wf (mounts s m)) -> (forall m, wf (mounts s' m)) /\
  forall m p, good_path p -> P m p \/ file_at (mounts s' m) p = file_at (mounts s m) p.

Lemma frame_same P s s' : mounts s' = mounts s -> frame P s s'.
Proof. intros E Hw. rewrite E. split; [done|by right]. Qed.

Lemma frame_trans P s1 s2 s3 : frame P s1 s2 -> frame P s2 s3 -> frame P s1 s3.
Proof.
  intros H12 H23 Hw. destruct (H12 Hw) as [Hw2 F2]. destruct (H23 Hw2) as [Hw3 F3].
  split; [done|]. intros m p Hp.
  destruct (F2 m p Hp) as [|E2]; [by left|]. destruct (F3 m p Hp) as [|E3]; [by left|]. right. congruence.
Qed.

(** An operation of a mount that changes at most one file. *)
Definition changes_only (op : F -> option FSError * F) (path : string) : Prop :=
  forall f, wf f -> wf (op f).2 /\ forall q, good_path q -> q <> path -> file_at (op f).2 q = file_at f q.

Lemma frame_on_mount (P : string -> string -> Prop) s m op path : changes_only op path -> P m path ->
  frame P s (on_mount s m op).2.
Proof.
  intros Hop HP Hw. unfold on_mount. destruct (Hop (mounts s m) (Hw m)) as [Hw' Hf].
  destruct (op (mounts s m)) as [e f]. cbn [snd mounts] in *. split.
  - intros m'. by case_if.
  - intros m' p Hp. case_if as E; [subst m'|by right].
    destruct (decide (p = path)) as [->|Hne]; [by left|right; by apply Hf].
Qed.

Lemma Write_only path r n : good_path path -> changes_only (fun f => Write f path r n) path.
Proof. intros Hp f Hf. split; [by apply Write_wf|]. intros q Hq Hne. by apply Write_other. Qed.

Lemma Delete_only path : good_path path -> changes_only (fun f => Delete f path) path.
Proof. intros Hp f Hf. split; [by apply Delete_wf|]. intros q Hq Hne. by apply Delete_other. Qed.

Lemma MkDir_only path : good_path path -> changes_only (fun f => MkDir f path) path.
Proof. intros Hp f Hf. split; [by apply MkDir_wf|]. intros q Hq Hne. by apply MkDir_other. Qed.

Lemma Copy_only src path : good_path src -> good_path path -> changes_only (fun f => Copy f src path) path.
Proof. intros Hs Hp f Hf. split; [by apply Copy_wf|]. intros q Hq Hne. by apply Copy_other. Qed.

Lemma GenericCopy_only f0 src path : good_path path ->
  changes_only (fun f => GenericCopy f0 src f path) path.
Proof.
  intros Hp f Hf. unfold GenericCopy. destruct (Open f0 src) as [[r fi]|]; [|done].
  by apply (Write_only path r (Size fi) Hp f Hf).
Qed.

Lemma findInSources_elem s sh key src : findInSources s sh key = Some src ->
  src ∈ Sources sh /\ exists_at (mounts s (Mount src)) (sourceFSPath src key) = true.
Proof. intros [Hin Hx]%List.find_some. split; [by apply list_elem_of_In|exact Hx]. Qed.

Lemma firstWritableSource_elem s sh src : firstWritableSource s sh = Some src ->
  src ∈ Sources sh /\ IsWritable (mounts s (Mount src)) = true.
Proof. intros [Hin Hx]%List.find_some. split; [by apply list_elem_of_In|exact Hx]. Qed.

Lemma writeTarget_elem s sh key src p : writeTarget s sh key = Ok (src, p) ->
  src ∈ Sources sh /\ p = sourceFSPath src key.
Proof.
  unfold writeTarget. destruct (findInSources s sh key) as [src'|] eqn:E.
  - case_if; [|done]. intros [= -> <-]. by apply findInSources_elem in E as [? _].
  - destruct (firstWritableSource s sh) as [src'|] eqn:E'; [|done]. intros [= -> <-].
    by apply firstWritableSource_elem in E' as [? _].
Qed.

Lemma finish_state r ok : (finish (F := F) r ok).2 = r.2.
Proof. by destruct r as [[e|] s]. Qed.

(** The files a user may change. *)
Definition may_write (user : User) (sh : Share) (m p : string) : Prop :=
  isReadOnly user sh = false /\ in_share sh m p.

Lemma frame_source user sh key s src op : share_ok sh -> good_path key -> src ∈ Sources sh ->
  isReadOnly user sh = false ->
  (good_path (sourceFSPath src key) -> changes_only op (sourceFSPath src key)) ->
  frame (may_write user sh) s (on_mount s (Mount src) op).2.
Proof.
  intros Hs Hk Hin Hr Hop. apply (frame_on_mount _ s (Mount src) op (sourceFSPath src key)).
  - apply Hop, sourceFSPath_good; [|done]. by eapply Forall_forall in Hs.
  - split; [done|]. by exists src, key.
Qed.

(** ** The handlers *)

Section handlers.
Variable tmpRoot : string.
Variables (shares : list Share) (users : list User).
Variable decodeComplete : Reader -> option (list completedPart).
Variable decodeDelete : Reader -> option deleteRequest.
Hypothesis shares_ok : Forall share_ok shares.

Lemma findShare_ok user b sh : findShare shares user b = Some sh -> share_ok sh.
Proof.
  intros [Hin _]%List.find_some. unfold userShares in Hin.
  assert (In sh shares) as Hs%list_elem_of_In.
  { case_bool_decide; [done|]. by apply List.filter_In in Hin as [? _]. }
  by eapply Forall_forall in shares_ok.
Qed.

Lemma putObject_frame user r body n sh key ts s : share_ok sh -> good_path key ->
  frame (may_write user sh) s (putObject user r body n sh key ts s).2.
Proof.
  intros Hs Hk. unfold putObject. destruct (isReadOnly user sh) eqn:Er; [by apply frame_same|].
  destruct (requestBody r body n) as [[b sz]|e]; [|by apply frame_same]. case_if.
  - destruct (firstWritableSource s sh) as [src|] eqn:Ef; [|by apply frame_same].
    apply firstWritableSource_elem in Ef as [Hin _]. rewrite finish_state.
    apply (frame_source user sh key); try done. apply MkDir_only.
  - destruct (writeTarget s sh key) as [[src p0]|e] eqn:Et; [|by apply frame_same].
    apply writeTarget_elem in Et as [Hin ->]. rewrite finish_state.
    apply (frame_source user sh key); try done. apply Write_only.
Qed.

Lemma copyObject_frame user r sh key now s : share_ok sh -> good_path key ->
  frame (may_write user sh) s (copyObject shares user r sh key now s).2.
Proof.
  intros Hs Hk. unfold copyObject. destruct (isReadOnly user sh) eqn:Er; [by apply frame_same|].
  destruct (parseCopySource _) as [[sb sk]|]; [|by apply frame_same].
  destruct (findShare shares user sb) as [ssh|] eqn:Esh; [|by apply frame_same].
  destruct (cleanKey sk) as [ck|] eqn:Eck; [|by apply frame_same].
  case_if as Ee; [by apply frame_same|].
  destruct (findInSources s ssh ck) as [src|] eqn:Ef; [|by apply frame_same].
  destruct (writeTarget s sh key) as [[dst p0]|e] eqn:Et; [|by apply frame_same].
  apply writeTarget_elem in Et as [Hin ->]. rewrite finish_state.
  apply (frame_source user sh key); try done. intros Hp.
  apply findInSources_elem in Ef as [Hsin _]. apply cleanKey_good in Eck as [|Hck]; [done|].
  case_if.
  - apply Copy_only; [|done]. apply sourceFSPath_good; [|done].
    pose proof (findShare_ok _ _ _ Esh) as Hss. by eapply Forall_forall in Hss.
  - by apply GenericCopy_only.
Qed.

Lemma deleteFromShare_frame user sh key s : share_ok sh -> good_path key -> isReadOnly user sh = false ->
  frame (may_write user sh) s (deleteFromShare sh key s).2.
Proof.
  intros Hs Hk Hr. unfold deleteFromShare.
  destruct (findInSources s sh key) as [src|] eqn:Ef; [|by apply frame_same].
  apply findInSources_elem in Ef as [Hin _]. case_if; [by apply frame_same|].
  pose proof (frame_source user sh key s src (fun f => Delete f (sourceFSPath src key)) Hs Hk Hin Hr
    (Delete_only _)) as Hf.
  by destruct (on_mount s (Mount src) _) as [[[| |]|] s'].
Qed.

Lemma deleteKeys_frame user sh quiet keys : share_ok sh -> isReadOnly user sh = false ->
  forall s, frame (may_write user sh) s (deleteKeys sh quiet keys s).2.
Proof.
  intros Hs Hr. induction keys as [|k keys IH]; intros s; [by apply frame_same|]. cbn [deleteKeys].
  destruct (cleanKey k) as [k'|] eqn:Ek.
  - apply cleanKey_good in Ek. case_if as Ee.
    + specialize (IH s). by destruct (deleteKeys sh quiet keys s) as [[d e] s'].
    + destruct Ek as [|Ek]; [done|]. pose proof (deleteFromShare_frame user sh k' s Hs Ek Hr) as Hf.
      destruct (deleteFromShare sh k' s) as [[e|] s1]; specialize (IH s1);
        destruct (deleteKeys sh quiet keys s1) as [[d e'] s2]; by eapply frame_trans.
  - specialize (IH s). by destruct (deleteKeys sh quiet keys s) as [[d e] s'].
Qed.

Lemma deleteObject_frame user sh key s : share_ok sh -> good_path key ->
  frame (may_write user sh) s (deleteObject user sh key s).2.
Proof.
  intros Hs Hk. unfold deleteObject. destruct (isReadOnly user sh) eqn:Er; [by apply frame_same|].
  pose proof (deleteFromShare_frame user sh key s Hs Hk Er) as Hf.
  by destruct (deleteFromShare sh key s) as [[e|] s'].
Qed.

Lemma deleteObjects_frame user r body n sh s : share_ok sh ->
  frame (may_write user sh) s (deleteObjects decodeDelete user r body n sh s).2.
Proof.
  intros Hs. unfold deleteObjects. destruct (isReadOnly user sh) eqn:Er; [by apply frame_same|].
  destruct (requestBody r body n) as [[b sz]|e]; [|by apply frame_same].
  destruct (decodeDelete _) as [req|]; [|by apply frame_same].
  pose proof (deleteKeys_frame user sh (Quiet req) (Objects req) Hs Er s) as Hf.
  by destruct (deleteKeys sh (Quiet req) (Objects req) s) as [[d e] s'].
Qed.

Lemma create_mounts env b k s : mounts (create (F := F) tmpRoot env b k s).2 = mounts s.
Proof. unfold create. destruct (random env); [|done]. by destruct (mkdirFails env). Qed.

Lemma putPart_mounts env up n body s : mounts (putPart (F := F) env up n body s).2 = mounts s.
Proof. unfold putPart. case_if; [done|]. case_if; [done|]. by destruct (bool_decide _ || _). Qed.

Lemma remove_mounts uid s : mounts (remove (F := F) uid s) = mounts s.
Proof. unfold remove. by destruct (uploads s !! uid). Qed.

Lemma createMultipartUpload_mounts env user b sh key (s : State F) :
  mounts (createMultipartUpload tmpRoot env user b sh key s).2 = mounts s.
Proof.
  unfold createMultipartUpload. destruct (isReadOnly user sh); [done|].
  destruct (writeTarget s sh key) as [|]; [|done]. pose proof (create_mounts env b key s) as E.
  by destruct (create tmpRoot env b key s) as [[up|] s'].
Qed.

Lemma uploadPart_mounts env user r body n b sh key (s : State F) :
  mounts (uploadPart env user r body n b sh key s).2 = mounts s.
Proof.
  unfold uploadPart. destruct (isReadOnly user sh); [done|].
  destruct (get s _ b key) as [up|]; [|done]. destruct (ParseInt10 _) as [k|]; [|done].
  destruct (requestBody r body n) as [[body' sz]|]; [|done].
  pose proof (putPart_mounts env up k body' s) as E.
  by destruct (putPart env up k body' s) as [[pi|] s'].
Qed.

Lemma completeMultipartUpload_frame user r body b sh key s : share_ok sh -> good_path key ->
  frame (may_write user sh) s (completeMultipartUpload decodeComplete user r body b sh key s).2.
Proof.
  intros Hs Hk. unfold completeMultipartUpload.
  destruct (isReadOnly user sh) eqn:Er; [by apply frame_same|].
  destruct (get s _ b key) as [up|]; [|by apply frame_same].
  destruct (decodeComplete _) as [req|]; [|by apply frame_same].
  destruct (assemble up req) as [[[pis total] tag]|]; [|by apply frame_same].
  destruct (writeTarget s sh key) as [[src p0]|e] eqn:Et; [|by apply frame_same].
  apply writeTarget_elem in Et as [Hin ->].
  pose proof (frame_source user sh key s src
    (fun f => Write f (sourceFSPath src key) (partsReader (tmp s) pis) total) Hs Hk Hin Er
    (Write_only _ _ _)) as Hf.
  destruct (on_mount s (Mount src) _) as [[e|] s']; [done|]. cbn [snd] in *.
  eapply frame_trans; [exact Hf|]. apply frame_same, remove_mounts.
Qed.

Lemma handleObject_frame env now user r body n b raw s sh : findShare shares user b = Some sh ->
  frame (may_write user sh) s
    (handleObject tmpRoot shares decodeComplete env now user r body n b raw s).2.
Proof.
  intros Esh. pose proof (findShare_ok _ _ _ Esh) as Hs. unfold handleObject. rewrite Esh.
  destruct (cleanKey raw) as [key|] eqn:Ek; [|by apply frame_same].
  apply cleanKey_good in Ek. case_if as Ee; [by apply frame_same|]. destruct Ek as [|Ek]; [done|].
  repeat (case_if; [|]); try (by apply frame_same); try by apply frame_same, remove_mounts.
  all: first [by apply copyObject_frame|by apply putObject_frame|by apply deleteObject_frame
    |by apply frame_same, uploadPart_mounts|by apply frame_same, createMultipartUpload_mounts
    |by apply completeMultipartUpload_frame].
Qed.

Lemma handleBucket_frame user r body n b s sh : findShare shares user b = Some sh ->
  frame (may_write user sh) s (handleBucket shares decodeDelete user r body n b s).2.
Proof.
  intros Esh. pose proof (findShare_ok _ _ _ Esh) as Hs. unfold handleBucket. rewrite Esh.
  repeat (case_if; [|]); try (by apply frame_same). by apply deleteObjects_frame.
Qed.
End handlers.
End frame.

(** ** What was written is what is read *)

Section readback.
Context {F : Type} `{BackendLaws F}.

Lemma find_same {A} (f g : A -> bool) l : (forall y, y ∈ l -> g y = f y) -> List.find g l = List.find f l.
Proof.
  intros Hfg. induction l as [|y l IH]; [done|]. cbn [List.find].
  rewrite Hfg by (by left). case_if; [done|]. apply IH. intros z Hz. apply Hfg. by right.
Qed.

Lemma find_first {A} (w g : A -> bool) l x : List.find w l = Some x -> g x = true ->
  (forall y, y ∈ l -> w y = false -> g y = false) -> List.find g l = Some x.
Proof.
  intros Hw Hx Hg. induction l as [|y l IH]; [done|]. cbn [List.find] in *.
  destruct (w y) eqn:E; [injection Hw as ->; by rewrite Hx|].
  rewrite (Hg y) by (done || by left). apply IH; [done|]. intros z Hz. apply Hg. by right.
Qed.

Lemma on_mount_eq (s : State F) m op e s' : on_mount s m op = (e, s') ->
  mounts s' m = (op (mounts s m)).2 /\ (op (mounts s m)).1 = e /\
  (forall m', m' <> m -> mounts s' m' = mounts s m') /\ uploads s' = uploads s /\ tmp s' = tmp s.
Proof.
  unfold on_mount. destruct (op (mounts s m)) as [e0 f]. intros [= <- <-]. cbn.
  rewrite String.eqb_refl. split_and!; [done|done| |done|done].
  intros m' Hne. by rewrite (proj2 (String.eqb_neq m' m) Hne).
Qed.

(** The source a write went to is the one later reads find. *)
Lemma write_found (s s1 : State F) sh key src p body n : share_ok sh -> good_path key ->
  (forall m, wf (mounts s m)) -> writeTarget s sh key = Ok (src, p) ->
  on_mount s (Mount src) (fun f => Write f p body n) = (None, s1) ->
  findInSources s1 sh key = Some src /\ p = sourceFSPath src key /\ good_path p.
Proof.
  intros Hs Hk Hw Ht Hm. pose proof (writeTarget_elem _ _ _ _ _ Ht) as [Hin ->].
  assert (Hgood : forall y, y ∈ Sources sh -> good_path (sourceFSPath y key)).
  { intros y Hy. apply sourceFSPath_good; [|done]. by eapply Forall_forall in Hs. }
  split; [|by split; [|apply Hgood]].
  apply on_mount_eq in Hm as (Em & Ew & Eo & _).
  set (ex := fun (st : State F) y => exists_at (mounts st (Mount y)) (sourceFSPath y key)).
  change (findInSources s1 sh key) with (List.find (ex s1) (Sources sh)).
  assert (Ewr : Write (mounts s (Mount src)) (sourceFSPath src key) body n = (None, mounts s1 (Mount src))).
  { rewrite Em, <-Ew. by destruct (Write _ _ _ _). }
  unfold writeTarget in Ht. destruct (findInSources s sh key) as [src'|] eqn:Ef.
  - destruct (IsWritable (mounts s (Mount src'))); [|done]. injection Ht as -> _. rewrite <-Ef. pose proof Ef as [_ Hx]%findInSources_elem.
    apply find_same. intros y Hy. unfold ex. destruct (decide (Mount y = Mount src)) as [E|E].
    + rewrite E, Em. by apply Write_keeps; auto.
    + by rewrite Eo.
  - destruct (firstWritableSource s sh) as [src'|] eqn:Ef'; [|done]. injection Ht as ->.
    unfold firstWritableSource in Ef'. eapply find_first; [exact Ef'| |].
    + unfold ex, exists_at. destruct (Write_stat _ _ _ _ _ (Hw (Mount src)) (Hgood src Hin) Ewr) as (fi & -> & _).
      done.
    + intros y Hy Hyw. unfold ex. assert (Mount y <> Mount src).
      { intros E. apply List.find_some in Ef' as [_ Hsw]. cbv beta in *.
        rewrite E in Hyw. congruence. }
      rewrite Eo by done. unfold findInSources in Ef.
      by apply (List.find_none _ _ Ef), list_elem_of_In.
Qed.

Lemma write_read (s s1 : State F) sh key src p body n ts : share_ok sh -> good_path key ->
  (forall m, wf (mounts s m)) -> writeTarget s sh key = Ok (src, p) ->
  on_mount s (Mount src) (fun f => Write f p body n) = (None, s1) ->
  rErr body = None /\
  (exists tag, getObject sh key ts s1 = RObject (reader (rData body)) tag) /\
  (exists tag, headObject sh key ts s1 = RHead (Z.of_nat (len (rData body))) tag).
Proof.
  intros Hs Hk Hw Ht Hm. destruct (write_found s s1 sh key src p body n Hs Hk Hw Ht Hm) as (Ef & Ep & Hp).
  apply on_mount_eq in Hm as (Em & Ew & _).
  assert (Ewr : Write (mounts s (Mount src)) p body n = (None, mounts s1 (Mount src))).
  { rewrite Em, <-Ew. by destruct (Write _ _ _ _). }
  destruct (Write_file _ _ _ _ _ (Hw (Mount src)) Hp Ewr) as [Hr Hf].
  destruct (Write_stat _ _ _ _ _ (Hw (Mount src)) Hp Ewr) as (fi & Hst & Hd & Hsz).
  unfold getObject, headObject. rewrite Ef, <-Ep, Hst, Hd. cbn [andb negb].
  split; [done|]. split; [|rewrite Hsz; by eexists].
  unfold file_at in Hf. destruct (Open _ p) as [[r fi']|]; [|done].
  destruct (IsDir fi'); [done|]. destruct r as [d [e|]]; [done|]. cbn in Hf. injection Hf as ->. by eexists.
Qed.
End readback.

(** ** The table of uploads and what it stands for *)

Lemma Split_abs l : l <> [] -> Forall good_seg l -> Split (abs l) "/" = "" :: l.
Proof.
  intros Hl Hg. unfold abs. change ("/" +:+ Join l "/") with ("" +:+ String "/" (Join l "/")).
  by rewrite Split_app, Split_Join_good.
Qed.

Lemma string_of_digits ds : Forall (fun d => 48 <= d <= 57) ds -> str_forallb is_digit (string_of ds) = true.
Proof.
  induction 1 as [|d ds Hd _ IH]; [done|].
  change (is_digit (chr d) && str_forallb is_digit (string_of ds) = true). rewrite IH.
  unfold is_digit. rewrite ord_chr by lia.
  replace (48 <=? d) with true by lia. by replace (d <=? 57) with true by lia.
Qed.

Lemma part_good n : good_seg ("part-" +:+ pad5 n).
Proof.
  unfold good_seg. split_and!; [done|done|done|]. rewrite no_byte_app. cbn [andb].
  apply (no_byte_forallb is_digit); [done|]. unfold pad5. apply string_of_digits.
  repeat constructor; pose proof (Z.mod_pos_bound (n / 10000) 10); pose proof (Z.mod_pos_bound (n / 1000) 10);
    pose proof (Z.mod_pos_bound (n / 100) 10); pose proof (Z.mod_pos_bound (n / 10) 10);
    pose proof (Z.mod_pos_bound (n / 1) 10); lia.
Qed.

Lemma pad5_inj n m : 0 <= n < 100000 -> 0 <= m < 100000 -> pad5 n = pad5 m -> n = m.
Proof.
  intros Hn Hm E. unfold pad5, string_of in E. cbn [fmap list_fmap String.string_of_list_ascii] in E.
  assert (Hc : forall a b, chr (48 + a mod 10) = chr (48 + b mod 10) -> a mod 10 = b mod 10).
  { intros a b Ec. apply (f_equal ord) in Ec.
    pose proof (Z.mod_pos_bound a 10). pose proof (Z.mod_pos_bound b 10).
    rewrite !ord_chr in Ec by lia. lia. }
  injection E as E1 E2 E3 E4 E5. apply Hc in E1, E2, E3, E4, E5.
  Z.to_euclidean_division_equations; lia.
Qed.

(** The specification: per upload id its bucket, key and parts by number. *)
Notation AUploads := (gmap string (string * string * gmap Z string)).

Definition hexMD5 (d : string) : string := EncodeToString (Md5Sum d).

Definition partOf (dir : string) (n : Z) (d : string) : partInfo :=
  {| number := n; path := partPath dir n; size := Z.of_nat (len d); etag := hexMD5 d |}.

Section refinement.
Context {F : Type}.
Variable rootPath : list string.
Hypothesis rootPath_good : Forall good_seg rootPath.

Notation tmpRoot := (abs rootPath).

Definition uploadDir (uid : string) : string := PathJoin [tmpRoot; uid].

Lemma uploadDir_abs uid : good_seg uid -> uploadDir uid = abs (rootPath ++ [uid]).
Proof.
  intros Hu. unfold uploadDir. rewrite PathJoin_abs; [|done|left; by apply good_seg_path].
  rewrite Split_single by apply Hu. by rewrite (proj2 (String.eqb_neq uid "")) by apply Hu.
Qed.

Lemma partPath_abs uid n : good_seg uid ->
  partPath (uploadDir uid) n = abs (rootPath ++ [uid; "part-" +:+ pad5 n]).
Proof.
  intros Hu. unfold partPath. rewrite uploadDir_abs by done. pose proof (part_good n) as Hp.
  rewrite PathJoin_abs; [| |left; by apply good_seg_path].
  - rewrite Split_single by apply Hp. rewrite (proj2 (String.eqb_neq _ "")) by apply Hp.
    rewrite <-app_assoc. reflexivity.
  - apply Forall_app. split; [done|]. by constructor.
Qed.

Lemma two_good uid n : good_seg uid -> Forall good_seg (rootPath ++ [uid; "part-" +:+ pad5 n]).
Proof.
  intros Hu. apply Forall_app. split; [done|]. constructor; [done|]. constructor; [apply part_good|done].
Qed.

Lemma partPath_inj u v n m : good_seg u -> good_seg v -> 0 <= n < 100000 -> 0 <= m < 100000 ->
  partPath (uploadDir u) n = partPath (uploadDir v) m -> u = v /\ n = m.
Proof.
  intros Hu Hv Hn Hm. rewrite !partPath_abs by done. intros E.
  apply abs_inj in E; [|by apply two_good|by apply two_good]. apply (app_inv_head rootPath) in E.
  pose proof (f_equal (List.hd "") E) as E1. pose proof (f_equal (fun l => List.nth 1 l "") E) as E2.
  split; [exact E1|]. apply pad5_inj; [done|done|]. by apply (str_app_inj_l "part-").
Qed.

(** The directory of an upload holds no part of another. *)
Lemma partPath_removed u v n : good_seg u -> good_seg v ->
  (partPath (uploadDir v) n = uploadDir u \/
   HasPrefix (partPath (uploadDir v) n) (uploadDir u +:+ "/") = true) -> u = v.
Proof.
  intros Hu Hv. rewrite partPath_abs, uploadDir_abs by done.
  assert (Hg1 : Forall good_seg (rootPath ++ [u])) by (apply Forall_app; split; [done|by constructor]).
  pose proof (two_good v n Hv) as Hg2. intros [E|[r E]%HasPrefix_spec].
  - apply abs_inj in E; [|done|done]. apply (f_equal length) in E.
    rewrite !length_app in E. cbn in E. lia.
  - apply (f_equal (fun s => Split s "/")) in E. rewrite str_app_assoc in E.
    change ("/" +:+ r) with (String "/" r) in E.
    rewrite Split_app, !Split_abs in E by (done || by destruct rootPath).
    cbn [app] in E. injection E as E. rewrite <-app_assoc in E. apply (app_inv_head rootPath) in E.
    by injection E as -> _.
Qed.

(** The parts in the table, and their files. *)
Definition holds (t : gmap string string) (uid : string) (ps : gmap Z partInfo) (c : gmap Z string) : Prop :=
  forall n, match c !! n with
            | Some d => 1 <= n <= 10000 /\ ps !! n = Some (partOf (uploadDir uid) n d) /\
                        t !! partPath (uploadDir uid) n = Some d
            | None => ps !! n = None
            end.

Definition upload_refines (t : gmap string string) (uid : string) (up : multipartUpload)
    (a : string * string * gmap Z string) : Prop :=
  good_seg uid /\ id up = uid /\ dir up = uploadDir uid /\
  bucket up = a.1.1 /\ key up = a.1.2 /\ holds t uid (parts up) a.2.

Definition refines (s : State F) (a : AUploads) : Prop :=
  forall uid, match uploads s !! uid, a !! uid with
              | Some up, Some au => upload_refines (tmp s) uid up au
              | None, None => True
              | _, _ => False
              end.

(** ** Steps of the upload manager *)

Inductive Event :=
| ECreate (env : Env) (bucket key : string)
| EPut (env : Env) (uid bucket key : string) (n : Z) (body : Reader)
| ERemove (uid : string)
| ECleanup.

Definition step (s : State F) (e : Event) : State F :=
  match e with
  | ECreate env b k => (create tmpRoot env b k s).2
  | EPut env uid b k n body =>
      match get s uid b k with
      | Some up => (putPart env up n body s).2
      | None => s
      end
  | ERemove uid => remove uid s
  | ECleanup => cleanup s
  end.

Definition accepted (env : Env) (n : Z) (body : Reader) : bool :=
  (1 <=? n) && (n <=? 10000) && negb (createFails env) &&
  negb (bool_decide (is_Some (rErr body)) || closeFails env).

Definition astep (a : AUploads) (e : Event) : AUploads :=
  match e with
  | ECreate env b k =>
      match random env with
      | Some r => if mkdirFails env then a else <[ EncodeToString r := (b, k, ∅) ]> a
      | None => a
      end
  | EPut env uid b k n body =>
      match a !! uid with
      | Some (b', k', c) =>
          if String.eqb b' b && String.eqb k' k && accepted env n body
          then <[ uid := (b', k', <[ n := rData body ]> c) ]> a else a
      | None => a
      end
  | ERemove uid => delete uid a
  | ECleanup => ∅
  end.

(** The two things the manager relies on: ids are random bytes, and no upload
    of a part fails while an earlier one of the same number is in the table. *)
Definition regular (a : AUploads) (e : Event) : Prop :=
  match e with
  | ECreate env _ _ => forall r, random env = Some r -> r <> ""
  | EPut env uid _ _ n body =>
      forall b c, a !! uid = Some (b, c) -> is_Some (c !! n) -> accepted env n body = true
  | _ => True
  end.

Lemma hex_good r : r <> "" -> good_seg (EncodeToString r).
Proof.
  intros Hr. pose proof (EncodeToString_lower r) as Hl. pose proof (len_EncodeToString r) as Hn.
  assert (Hc : forall s, str_forallb is_lower_hex s = true -> s <> "." /\ s <> ".." /\ no_byte "/" s = true).
  { intros s H'. split_and!; [by intros ->|by intros ->|by apply (no_byte_forallb is_lower_hex)]. }
  destruct (Hc _ Hl) as (H1 & H2 & H3). unfold good_seg. split_and!; [|done|done|done].
  intros E. rewrite E in Hn. destruct r; [done|]. cbn in Hn. lia.
Qed.

(** Changing the file of one part leaves the parts of the others. *)
Lemma holds_other t t' uid ps c :
  (forall n d, c !! n = Some d -> 1 <= n <= 10000 ->
     t' !! partPath (uploadDir uid) n = t !! partPath (uploadDir uid) n) ->
  holds t uid ps c -> holds t' uid ps c.
Proof.
  intros Ht Hh n. specialize (Hh n). destruct (c !! n) as [d|] eqn:E; [|done].
  destruct Hh as (H1 & H2 & H3). split; [done|]. split; [done|]. by rewrite (Ht n d).
Qed.

Lemma step_create s a env b k : refines s a -> regular a (ECreate env b k) ->
  refines (step s (ECreate env b k)) (astep a (ECreate env b k)).
Proof.
  intros Hr Hreg uid. cbn [step astep regular] in *. unfold create.
  destruct (random env) as [r|]; [|apply Hr]. destruct (mkdirFails env); [apply Hr|].
  cbn [snd set_uploads uploads tmp]. destruct (decide (uid = EncodeToString r)) as [->|Hne].
  - rewrite !lookup_insert_eq. unfold upload_refines. split; [by apply hex_good, Hreg|].
    do 4 (split; [done|]). intros n. cbn [snd]. by rewrite !lookup_empty.
  - rewrite !lookup_insert_ne by done. apply Hr.
Qed.

Lemma RemoveAll_keeps t u v n : good_seg u -> good_seg v -> u <> v ->
  RemoveAll (uploadDir u) t !! partPath (uploadDir v) n = t !! partPath (uploadDir v) n.
Proof.
  intros Hu Hv Hne. unfold RemoveAll. apply option_eq. intros d. rewrite map_lookup_filter_Some.
  cbn [fst]. split; [by intros [? _]|]. intros Hd. split; [done|].
  intros Hp. by apply Hne, (partPath_removed u v n).
Qed.

Lemma step_remove s a uid : refines s a -> refines (remove uid s) (delete uid a).
Proof.
  intros Hr v. unfold remove. pose proof (Hr uid) as Hu. pose proof (Hr v) as Hv.
  destruct (decide (v = uid)) as [->|Hne].
  - rewrite lookup_delete_eq. destruct (uploads s !! uid) as [up|] eqn:E.
    + cbn [set_uploads uploads]. by rewrite lookup_delete_eq.
    + by rewrite E.
  - rewrite lookup_delete_ne by done. destruct (uploads s !! uid) as [up|] eqn:E; [|done].
    cbn [set_uploads uploads tmp]. rewrite lookup_delete_ne by done.
    destruct (uploads s !! v) as [upv|], (a !! v) as [av|]; try done.
    destruct (a !! uid) as [au|]; [|done].
    destruct Hu as (Hg & _ & Hd & _). destruct Hv as (Hgv & H1 & H2 & H3 & H4 & H5).
    unfold upload_refines; do 5 (split; [done|]). eapply holds_other; [|exact H5]. intros n d _ _. rewrite Hd.
    by apply RemoveAll_keeps.
Qed.

Lemma step_put s a env uid b k n body : refines s a -> regular a (EPut env uid b k n body) ->
  refines (step s (EPut env uid b k n body)) (astep a (EPut env uid b k n body)).
Proof.
  intros Hr Hreg. pose proof (Hr uid) as Hu. cbn [step astep regular] in *. unfold get.
  destruct (uploads s !! uid) as [up|] eqn:E; [|by destruct (a !! uid)].
  destruct (a !! uid) as [[[b' k'] c]|] eqn:Ea; [|done].
  destruct Hu as (Hg & Hid & Hd & Hb & Hk & Hh). cbn [fst snd] in *.
  rewrite Hb, Hk. destruct (String.eqb b' b); [|done]. destruct (String.eqb k' k); [|done].
  cbn [negb andb orb]. unfold putPart, accepted in *.
  replace ((n <? 1) || (10000 <? n)) with (negb ((1 <=? n) && (n <=? 10000))) by lia.
  destruct ((1 <=? n) && (n <=? 10000)) eqn:En; [|done]. cbn [negb andb] in *.
  assert (Hn : 1 <= n <= 10000) by lia. clear En.
  destruct (createFails env); [done|]. cbn [negb andb] in *. rewrite Hd.
  assert (Hother : forall t' v upv av, v <> uid -> uploads s !! v = Some upv -> a !! v = Some av ->
    (forall q, q <> partPath (uploadDir uid) n -> t' !! q = tmp s !! q) -> upload_refines t' v upv av).
  { intros t' v upv av Hne Ev Eav Ht'. specialize (Hr v). rewrite Ev, Eav in Hr.
    destruct Hr as (Hgv & H1 & H2 & H3 & H4 & H5). unfold upload_refines; do 5 (split; [done|]).
    eapply holds_other; [|exact H5]. intros m d _ Hm. apply Ht'. intros Ep.
    apply partPath_inj in Ep as [? _]; try done; lia. }
  destruct (bool_decide _ || _); cbn [negb] in *.
  - (* the body fails: the file of the part is removed *)
    assert (Hnone : c !! n = None).
    { destruct (c !! n) eqn:Ec; [|done]. by specialize (Hreg (b', k') c eq_refl ltac:(rewrite Ec; by eexists)). }
    intros v. cbn [snd set_uploads uploads tmp].
    assert (Hlook : forall q, q <> partPath (uploadDir uid) n ->
      delete (partPath (uploadDir uid) n) (<[ partPath (uploadDir uid) n := rData body ]> (tmp s)) !! q
      = tmp s !! q).
    { intros q Hq. by rewrite lookup_delete_ne, lookup_insert_ne. }
    destruct (decide (v = uid)) as [->|Hne].
    + rewrite E, Ea. unfold upload_refines; do 5 (split; [done|]). eapply holds_other; [|exact Hh].
      intros m d Hm Hm'. apply Hlook. intros Ep. apply partPath_inj in Ep as [_ ->]; try done; [cbn [snd] in Hm; congruence|lia|lia].
    + specialize (Hr v) as Hv. destruct (uploads s !! v) eqn:Ev, (a !! v) eqn:Eav; try done.
      by eapply Hother.
  - intros v. cbn [snd set_uploads uploads tmp].
    assert (Et : match parts up !! n with
      | Some old => if negb (String.eqb (path old) (partPath (uploadDir uid) n))
                    then delete (path old) (<[ partPath (uploadDir uid) n := rData body ]> (tmp s))
                    else <[ partPath (uploadDir uid) n := rData body ]> (tmp s)
      | None => <[ partPath (uploadDir uid) n := rData body ]> (tmp s)
      end = <[ partPath (uploadDir uid) n := rData body ]> (tmp s)).
    { specialize (Hh n). destruct (c !! n); [|by rewrite Hh].
      destruct Hh as (_ & -> & _). cbn [partOf path]. by rewrite String.eqb_refl. }
    rewrite Et, Hid. clear Et. destruct (decide (v = uid)) as [->|Hne].
    + rewrite !lookup_insert_eq. unfold upload_refines; do 5 (split; [done|]). intros m. cbn [snd add_part parts number].
      destruct (decide (m = n)) as [->|Hmn].
      * rewrite !lookup_insert_eq. by split; [|split].
      * rewrite !lookup_insert_ne by done. specialize (Hh m). destruct (c !! m) as [d|]; [|done].
        destruct Hh as (H1 & H2 & H3). split_and!; [lia|lia|done|].
        rewrite lookup_insert_ne; [done|]. intros Ep.
        apply partPath_inj in Ep as [_ ?]; try done; lia.
    + rewrite !lookup_insert_ne by done. specialize (Hr v) as Hv.
      destruct (uploads s !! v) eqn:Ev, (a !! v) eqn:Eav; try done.
      eapply Hother; try done. intros q Hq. by rewrite lookup_insert_ne.
Qed.

Lemma step_refines s a e : refines s a -> regular a e -> refines (step s e) (astep a e).
Proof.
  intros Hr Hreg. destruct e as [env b k|env uid b k n body|uid|].
  - by apply step_create.
  - by apply step_put.
  - by apply step_remove.
  - intros uid. cbn [step astep cleanup set_uploads uploads]. by rewrite !lookup_empty.
Qed.

(** ** Completion *)

(** The parts a completion asks for, in ascending order, if they are there and
    the given ETags are those of their contents. *)
Fixpoint aAssemble (c : gmap Z string) (prev : Z) (req : list completedPart) : option (list (Z * string)) :=
  match req with
  | [] => Some []
  | rp :: req =>
      if PartNumber rp <=? prev then None
      else match c !! PartNumber rp with
           | None => None
           | Some d =>
               let want := trimQuote (ETag rp) in
               if negb (String.eqb want "") && negb (String.eqb want (hexMD5 d)) then None
               else (fun nds => (PartNumber rp, d) :: nds) <$> aAssemble c (PartNumber rp) req
           end
  end.

Definition joined (ds : list string) : string := foldr String.append "" ds.

(** The ETag of a multipart object: the MD5 of the MD5s of its parts. *)
Definition multipartETag (ds : list string) : string :=
  hexMD5 (joined (Md5Sum <$> ds)) +:+ "-" +:+ itoa (Z.of_nat (length ds)).

Definition partsOf (uid : string) (nds : list (Z * string)) : list partInfo :=
  (fun nd => partOf (uploadDir uid) nd.1 nd.2) <$> nds.

Lemma assemble_go_spec t uid up c req : holds t uid (parts up) c -> forall prev,
  match aAssemble c prev req with
  | None => assemble_go up prev req = None
  | Some nds => exists total,
      assemble_go up prev req = Some (partsOf uid nds, total, joined (Md5Sum <$> nds.*2)) /\
      partsReader t (partsOf uid nds) = reader (joined nds.*2)
  end.
Proof.
  intros Hh. induction req as [|rp req IH]; intros prev; cbn [aAssemble assemble_go]; [by exists 0|].
  destruct (PartNumber rp <=? prev); [done|]. specialize (Hh (PartNumber rp)).
  destruct (c !! PartNumber rp) as [d|]; [|by rewrite Hh]. destruct Hh as (Hn & -> & Hf).
  cbn [etag partOf]. destruct (negb _ && negb _); [done|]. unfold hexMD5. rewrite Decode_Encode.
  specialize (IH (PartNumber rp)).
  destruct (aAssemble c (PartNumber rp) req) as [nds|]; cbn [fmap option_fmap option_map]; [|by rewrite IH].
  destruct IH as (total & -> & Hr). cbn [partOf size]. eexists. split; [reflexivity|].
  change (partsReader t (partOf (uploadDir uid) (PartNumber rp) d :: partsOf uid nds) =
          reader (d +:+ joined nds.*2)).
  cbn [partsReader partOf path]. by rewrite Hf, Hr.
Qed.

Lemma assemble_spec t uid up c req : holds t uid (parts up) c -> req <> [] ->
  match aAssemble c 0 req with
  | None => assemble up req = None
  | Some nds => exists total, assemble up req = Some (partsOf uid nds, total, multipartETag nds.*2) /\
      partsReader t (partsOf uid nds) = reader (joined nds.*2)
  end.
Proof.
  intros Hh Hne. pose proof (assemble_go_spec t uid up c req Hh 0) as H. unfold assemble.
  rewrite bool_decide_false by done. destruct (aAssemble c 0 req) as [nds|]; [|by rewrite H].
  destruct H as (total & -> & Hr). eexists. split; [|done]. unfold multipartETag, partsOf.
  by rewrite !length_fmap.
Qed.

Lemma refines_same s s' a : uploads s' = uploads s -> tmp s' = tmp s -> refines s a -> refines s' a.
Proof. intros Eu Et Hr uid. rewrite Eu, Et. apply Hr. Qed.

End refinement.

Arguments refines {F}.
Arguments step {F}.

(** ** A server over a local mount *)

Definition demo_user : User := {|
  Username := "AKID"; Password := "secret"; Shares := ["docs"]; UserReadOnly := false |}.

Definition demo_share : Share := {|
  ShareName := "docs"; Sources := [{| Mount := "disk"; Path := "" |}]; ReadOnly := false |}.

Definition demo_state : State FS :=
  {| mounts := fun _ => sample_mount; uploads := ∅; tmp := ∅ |}.

(** 2015-08-30T12:36:00Z *)
Definition demo_clock : Z := 1440938160 * nanos.

(** A request signed with the user's secret. *)
Definition signed (method path : string) (query : list (string * list string)) : Request :=
  let hs := [("x-amz-date", ["20150830T123600Z"])] in
  let req := fun hs => {| Method := method; URLPath := path; Query := query; Host := "s3.local"; Header := hs |} in
  let cred := "AKID/20150830/us-east-1/s3/aws4_request" in
  match parseCredential cred with
  | Ok c =>
      let sig := computeSignature "secret" c "20150830T123600Z"
                   (canonicalRequest (req hs) "host;x-amz-date" unsignedPayload false) in
      req (("authorization", ["AWS4-HMAC-SHA256 Credential=" +:+ cred +:+
             ", SignedHeaders=host;x-amz-date, Signature=" +:+ sig]) :: hs)
  | Err _ => req hs
  end.

Definition no_faults (r : string) : Env :=
  {| random := Some r; mkdirFails := false; createFails := false; closeFails := false |}.

(** A decoder of completion bodies that lists the one part 1. *)
Definition first_part (_ : Reader) : option (list completedPart) :=
  Some [{| PartNumber := 1; ETag := "" |}].

Definition demo_handle (r : Request) (body : Reader) : State FS -> Reply * State FS :=
  handle "/tmp/kutu-s3serve" [demo_share] [demo_user] first_part (fun _ => None)
    (no_faults "0123456789abcdef") demo_clock r body (Z.of_nat (len (rData body))).

Lemma demo_wf m : wf (mounts demo_state m).
Proof. apply sample_mount_ok. Qed.

Lemma demo_share_ok : share_ok demo_share.
Proof. repeat constructor. Qed.

(** ** Properties *)

(** C5: a request changes at most files of one share, the one its path names:
    the request must be authenticated, the share visible to its user, neither
    of them read-only, and every file that changes must be a clean key below
    one of the share's sources. *)
Theorem handle_confined {F} `{BackendLaws F} tmpRoot shares users decodeComplete decodeDelete env now r
    body n (s : State F) : Forall share_ok shares -> (forall m, wf (mounts s m)) ->
  let s' := (handle tmpRoot shares users decodeComplete decodeDelete env now r body n s).2 in
  (forall m, wf (mounts s' m)) /\
  forall m p, good_path p -> file_at (mounts s' m) p <> file_at (mounts s m) p ->
    exists user sh src key,
      authenticate users now r = Ok user /\
      findShare shares user (splitBucketKey (URLPath r)).1 = Some sh /\
      ReadOnly sh = false /\ UserReadOnly user = false /\
      src ∈ Sources sh /\ Mount src = m /\ good_path key /\ p = sourceFSPath src key.
Proof.
  intros Hs Hw s'. subst s'. unfold handle.
  destruct (authenticate users now r) as [user|e] eqn:Ea; [|by split].
  destruct (splitBucketKey (URLPath r)) as [b k]. cbn [fst].
  destruct (String.eqb b ""); [by split|].
  destruct (findShare shares user b) as [sh|] eqn:Esh.
  - match goal with |- context [if String.eqb k "" then ?x else ?y] =>
      assert (Hf : frame (may_write user sh) s (if String.eqb k "" then x else y).2) end.
    { destruct (String.eqb k ""); [by apply handleBucket_frame|by apply handleObject_frame]. }
    destruct (Hf Hw) as [Hw' Hf']. split; [done|]. intros m p Hp Hne.
    destruct (Hf' m p Hp) as [[Hro (src & key & H1 & H2 & H3 & H4)]|]; [|done].
    apply orb_false_iff in Hro as [? ?]. by exists user, sh, src, key.
  - assert (E : (if String.eqb k "" then handleBucket shares decodeDelete user r body n b s
        else handleObject tmpRoot shares decodeComplete env (now / nanos) user r body n b k s).2 = s).
    { unfold handleBucket, handleObject. rewrite Esh. destruct (String.eqb k ""); [|done].
      by repeat (case_if; [done|]). }
    rewrite E. by split.
Qed.

Lemma handle_confined_witness :
  let s' := (demo_handle (signed "PUT" "/docs/b/c.txt" []) (reader "hi") demo_state).2 in
  file_at (mounts s' "disk") "b/c.txt" = Some "hi" /\
  exists user sh src key,
    authenticate [demo_user] demo_clock (signed "PUT" "/docs/b/c.txt" []) = Ok user /\
    findShare [demo_share] user (splitBucketKey "/docs/b/c.txt").1 = Some sh /\
    ReadOnly sh = false /\ UserReadOnly user = false /\
    src ∈ Sources sh /\ Mount src = "disk" /\ good_path key /\ "b/c.txt" = sourceFSPath src key.
Proof.
  cbv zeta. split; [by vm_compute|].
  destruct (handle_confined "/tmp/kutu-s3serve" [demo_share] [demo_user] first_part (fun _ => None)
    (no_faults "0123456789abcdef") demo_clock (signed "PUT" "/docs/b/c.txt" []) (reader "hi") 2 demo_state
    (Forall_cons_2 _ _ _ demo_share_ok (Forall_nil_2 _)) demo_wf)
    as [_ Hc].
  apply (Hc "disk" "b/c.txt").
  - by apply (bool_decide_unpack _); vm_compute.
  - vm_compute. discriminate.
Defined.

(** C39: a PUT that succeeds (and is not a directory marker) answers the MD5 of
    the whole body, and from then on GET returns that body and HEAD its
    length, whichever of the sources of the share took the write. *)
Theorem put_get {F} `{BackendLaws F} user r body n sh key ts (s s1 : State F) tag :
  share_ok sh -> good_path key -> (forall m, wf (mounts s m)) ->
  match requestBody r body n with Ok (_, sz) => ts && (sz =? 0) = false | Err _ => True end ->
  putObject user r body n sh key ts s = (REtag tag, s1) ->
  exists content, requestBody r body n = Ok content /\ rErr content.1 = None /\
    tag = EncodeToString (Md5Sum (rData content.1)) /\
    (exists t, getObject sh key ts s1 = RObject (reader (rData content.1)) t) /\
    (exists t, headObject sh key ts s1 = RHead (Z.of_nat (len (rData content.1))) t).
Proof.
  intros Hs Hk Hw Hm. unfold putObject. destruct (isReadOnly user sh); [done|].
  destruct (requestBody r body n) as [[b sz]|]; [|done]. rewrite Hm.
  destruct (writeTarget s sh key) as [[src p]|] eqn:Et; [|done].
  destruct (on_mount s (Mount src) _) as [[e|] s2] eqn:Eo; [done|]. intros [= <- <-].
  exists (b, sz). cbn [fst].
  destruct (write_read s s2 sh key src p b sz ts Hs Hk Hw Et Eo) as (H1 & H2 & H3). by split_and!.
Qed.

Lemma put_get_witness :
  let '(reply, s') := putObject demo_user (signed "PUT" "/docs/b/c.txt" []) (reader "hi") 2 demo_share
                        "b/c.txt" false demo_state in
  reply = REtag "49f68a5c8493ec2c0bf489821c21fc3b" /\
  exists t, getObject demo_share "b/c.txt" false s' = RObject (reader "hi") t.
Proof.
  destruct (put_get demo_user (signed "PUT" "/docs/b/c.txt" []) (reader "hi") 2 demo_share "b/c.txt" false
    demo_state (putObject demo_user (signed "PUT" "/docs/b/c.txt" []) (reader "hi") 2 demo_share
      "b/c.txt" false demo_state).2 "49f68a5c8493ec2c0bf489821c21fc3b" demo_share_ok)
    as ([d sz] & Hd & _ & _ & Hget & _).
  - by apply (bool_decide_unpack _); vm_compute.
  - apply demo_wf.
  - vm_compute. reflexivity.
  - vm_compute. reflexivity.
  - assert (E : d = reader "hi") by (vm_compute in Hd; injection Hd as <- _; reflexivity). rewrite E in Hget.
    split; [by vm_compute|exact Hget].
Defined.

(** C7: the table of pending uploads and the temporary files refine a map from
    upload ids to a bucket, a key and the contents of the parts: creating an
    upload adds an entry, an accepted part replaces the part of its number, a
    removal drops the entry, and a rejected part changes nothing, as long as no
    part fails whose number is already in the table. *)
Theorem uploads_refine {F} rootPath (evs : list Event) (s : State F) a :
  Forall good_seg rootPath -> refines rootPath s a ->
  (forall l1 e l2, evs = l1 ++ e :: l2 -> regular (foldl astep a l1) e) ->
  refines rootPath (foldl (step rootPath) s evs) (foldl astep a evs).
Proof.
  intros Hg. revert s a. induction evs as [|e evs IH]; intros s a Hr Hreg; [done|].
  cbn [foldl]. apply IH.
  - apply step_refines; [done|done|]. by apply (Hreg [] e evs).
  - intros l1 e' l2 ->. by apply (Hreg (e :: l1) e' l2).
Qed.

Lemma uploads_refine_witness :
  let env := no_faults "0123456789abcdef" in
  let uid := EncodeToString "0123456789abcdef" in
  let evs := [ECreate env "docs" "a.txt"; EPut env uid "docs" "a.txt" 2 (reader "BB");
              EPut env uid "docs" "a.txt" 1 {| rData := "x"; rErr := Some "broken" |};
              EPut env uid "docs" "a.txt" 2 (reader "CC")] in
  refines ["tmp"] (foldl (step ["tmp"]) demo_state evs) (foldl astep ∅ evs) /\
  foldl astep ∅ evs !! uid = Some ("docs", "a.txt", {[ 2 := "CC" ]}).
Proof.
  cbv zeta. split; [|vm_compute; reflexivity].
  apply uploads_refine.
  - repeat constructor; by vm_compute.
  - intros uid. cbn [uploads demo_state]. by rewrite !lookup_empty.
  - intros l1 e l2 E. destruct l1 as [|e1 [|e2 [|e3 [|e4 l1]]]]; cbn [app] in E; simplify_eq.
    + intros r [= <-]. done.
    + by intros b c _ _; vm_compute.
    + intros b c Hc Hn. exfalso. vm_compute in Hc. injection Hc as _ <-. vm_compute in Hn. by destruct Hn.
    + by intros b c _ _; vm_compute.
    + by destruct l1.
Defined.


Definition demo_uid : string := EncodeToString "0123456789abcdef".

(** One pending upload of "a.txt" with the part "AAAA". *)
Definition demo_events : list Event :=
  [ECreate (no_faults "0123456789abcdef") "docs" "a.txt";
   EPut (no_faults "0123456789abcdef") demo_uid "docs" "a.txt" 1 (reader "AAAA")].

Definition demo_pending : State FS := foldl (step ["tmp"]) demo_state demo_events.

Lemma demo_pending_refines : refines ["tmp"] demo_pending (foldl astep ∅ demo_events).
Proof.
  unfold demo_pending, demo_events. cbn [foldl]. apply step_refines; [repeat constructor; by vm_compute| |].
  - apply step_refines; [repeat constructor; by vm_compute| |by intros r [= <-]].
    intros uid. cbn [uploads demo_state]. by rewrite !lookup_empty.
  - by intros b c _ _; vm_compute.
Qed.


(** a part that was accepted can be lost: uploading it again with a body
    that breaks off removes its file, while the table still lists the first
    upload; the completion then fails with 500, and the object it was to
    replace has become empty. *)
Theorem failed_reupload_loses_part :
  let get := signed "GET" "/docs/a.txt" [] in
  let part := signed "PUT" "/docs/a.txt" [("partNumber", ["1"]); ("uploadId", [demo_uid])] in
  let list := signed "GET" "/docs/a.txt" [("uploadId", [demo_uid])] in
  let complete := signed "POST" "/docs/a.txt" [("uploadId", [demo_uid])] in
  let s1 := (demo_handle (signed "POST" "/docs/a.txt" [("uploads", [""])]) (reader "") demo_state).2 in
  let '(r2, s2) := demo_handle part (reader "AAAA") s1 in
  let '(r3, s3) := demo_handle part {| rData := "BB"; rErr := Some "unexpected EOF" |} s2 in
  let '(r4, s4) := demo_handle list (reader "") s3 in
  let '(r5, s5) := demo_handle complete (reader "<xml>") s4 in
  file_at (mounts s1 "disk") "a.txt" = Some "hello" /\
  r2 = REtag (hexMD5 "AAAA") /\ r3 = RError errInvalidArgument /\
  (exists p, r4 = RParts [{| number := 1; path := p; size := 4; etag := hexMD5 "AAAA" |}]) /\
  r5 = RError errInternal /\
  file_at (mounts s5 "disk") "a.txt" = Some "".
Proof. vm_compute. split_and!; try reflexivity. by eexists. Qed.

