(* ===== verification/Prog.v ===== *)
(** * Programs that call shared services

    A handler is a tree of calls: [Ret] answers, [Do e k] makes the call [e]
    and goes on with its reply.  A call is atomic (one SQL statement, one
    critical section of a mutex); between two calls of a handler those of
    others may run.  [run] executes one handler alone; [step] interleaves a
    pool of them, with steps of the environment (the clock, a background
    sweep), and logs every call with its thread.  [trace] is what a handler may
    see, whatever the others do. *)

From Stdlib Require Import Lia.
From stdpp Require Import base list relations.
From S2P Require Import Prelude.

Declare Scope prog_scope.
Delimit Scope prog_scope with prog.

(** ** Handlers *)

Section prog.
Context {E : Type -> Type}.

Inductive prog (A : Type) : Type :=
| Ret (a : A)
| Do {X : Type} (e : E X) (k : X -> prog A).

Arguments Ret {A} a.
Arguments Do {A X} e k.

Fixpoint bind {A B} (p : prog A) (f : A -> prog B) : prog B :=
  match p with
  | Ret a => f a
  | Do e k => Do e (fun x => bind (k x) f)
  end.

Definition call {X} (e : E X) : prog X := Do e Ret.

(** A handler that can fail: the error ends it. *)
Definition try {F A B} (p : prog (result F A)) (f : A -> prog (result F B)) : prog (result F B) :=
  bind p (fun r => match r with Ok a => f a | Err e => Ret (Err e) end).

(** ** Alone *)

Context {S : Type}.
Variable exec : forall X, E X -> S -> X * S.

Fixpoint run {A} (p : prog A) (s : S) : A * S :=
  match p with
  | Ret a => (a, s)
  | Do e k => let '(x, s) := exec _ e s in run (k x) s
  end.

Lemma run_bind {A B} (p : prog A) (f : A -> prog B) s :
  run (bind p f) s = let '(a, s) := run p s in run (f a) s.
Proof.
  revert s. induction p as [a|X e k IH]; intros s; [done|].
  cbn [bind run]. destruct (exec X e s) as [x s1]. apply IH.
Qed.

(** What every call keeps, a handler keeps. *)
Lemma run_inv {A} (I : S -> Prop) : (forall X (e : E X) s, I s -> I (exec X e s).2) ->
  forall (p : prog A) s, I s -> I (run p s).2.
Proof.
  intros HI p. induction p as [a|X e k IH]; intros s Hs; [done|]. cbn [run].
  specialize (HI X e s Hs). destruct (exec X e s) as [x s1]. by apply IH.
Qed.

(** ** What a handler may see *)

Context {Ev : Type}.
(** What the log keeps of a call: the call, its reply, the state it was made in. *)
Variable obs : forall X, E X -> X -> S -> Ev.

Fixpoint trace {A} (p : prog A) (l : list Ev) (a : A) : Prop :=
  match p with
  | Ret a' => l = [] /\ a' = a
  | Do e k => exists x s l', l = obs _ e x s :: l' /\ trace (k x) l' a
  end.

(** The handler that is left after some of its calls. *)
Fixpoint path {A} (p : prog A) (l : list Ev) (q : prog A) {struct l} : Prop :=
  match l with
  | [] => p = q
  | ev :: l => match p with
               | Ret _ => False
               | Do e k => exists x s, ev = obs _ e x s /\ path (k x) l q
               end
  end.

Lemma path_ret {A} (p : prog A) l a : path p l (Ret a) -> trace p l a.
Proof.
  revert p. induction l as [|ev l IH]; intros p H; cbn [path] in H.
  - subst p. done.
  - destruct p as [a'|X e k]; [done|]. destruct H as (x & s & -> & H). cbn [trace]. exists x, s, l.
    split; [done|]. by apply IH.
Qed.

Lemma trace_path {A} (p : prog A) l a : trace p l a -> path p l (Ret a).
Proof.
  revert l. induction p as [a'|X e k IH]; intros l H; cbn [trace] in H; [by destruct H as [-> ->]|].
  destruct H as (x & s & l' & -> & H). cbn [path]. exists x, s. split; [done|]. by apply IH.
Qed.

Lemma path_snoc {A} (p : prog A) l X (e : E X) k x s : path p l (Do e k) ->
  path p (l ++ [obs X e x s]) (k x).
Proof.
  revert p. induction l as [|ev l IH]; intros p H; cbn [path app] in *.
  - subst p. exists x, s. done.
  - destruct p as [a'|Y e' k']; [done|]. destruct H as (y & s' & -> & H). exists y, s'.
    split; [done|]. by apply IH.
Qed.

Lemma trace_bind {A B} (p : prog A) (f : A -> prog B) l b : trace (bind p f) l b ->
  exists l1 l2 a, l = l1 ++ l2 /\ trace p l1 a /\ trace (f a) l2 b.
Proof.
  revert l. induction p as [a|X e k IH]; intros l H; cbn [bind trace] in *.
  - by exists [], l, a.
  - destruct H as (x & s & l' & -> & H). apply IH in H as (l1 & l2 & a & -> & H1 & H2).
    exists (obs X e x s :: l1), l2, a. split; [done|]. split; [|done].
    cbn [trace]. exists x, s, l1. done.
Qed.

Lemma path_bind {A B} (p : prog A) (f : A -> prog B) l q : path (bind p f) l q ->
  (exists q', q = bind q' f /\ path p l q') \/
  exists l1 l2 a, l = l1 ++ l2 /\ trace p l1 a /\ path (f a) l2 q.
Proof.
  revert l. induction p as [a|X e k IH]; intros l H.
  - right. by exists [], l, a.
  - destruct l as [|ev l]; [left; exists (Do e k); by cbn in *|]. cbn [bind path] in H.
    destruct H as (x & s & -> & H). apply IH in H as [(q' & -> & H)|(l1 & l2 & a & -> & H1 & H2)].
    + left. exists q'. split; [done|]. cbn [path]. eauto.
    + right. exists (obs X e x s :: l1), l2, a. split; [done|]. split; [|done]. cbn [trace]. eauto.
Qed.

(** Every call a handler may make satisfies [P]. *)
Fixpoint makes (P : forall X, E X -> Prop) {A} (p : prog A) : Prop :=
  match p with
  | Ret _ => True
  | Do e k => P _ e /\ forall x, makes P (k x)
  end.

Lemma makes_bind P {A B} (p : prog A) (f : A -> prog B) : makes P p -> (forall a, makes P (f a)) ->
  makes P (bind p f).
Proof.
  intros Hp Hf. induction p as [a|X e k IH]; [apply Hf|]. destruct Hp as [He Hk].
  split; [done|]. intros x. by apply IH.
Qed.

Lemma path_makes P {A} (p : prog A) l q : makes P p -> path p l q ->
  forall ev, ev ∈ l -> exists X (e : E X) x s, ev = obs X e x s /\ P X e.
Proof.
  revert p. induction l as [|ev l IH]; intros p Hp H ev' Hev; [by apply elem_of_nil in Hev|].
  destruct p as [a|X e k]; [done|]. destruct H as (x & s & -> & H), Hp as [He Hk].
  apply elem_of_cons in Hev as [->|Hev]; [by exists X, e, x, s|]. by apply (IH (k x)).
Qed.

Lemma makes_run P (I : S -> Prop) : (forall X (e : E X) s, P X e -> I s -> I (exec X e s).2) ->
  forall A (p : prog A) s, makes P p -> I s -> I (run p s).2.
Proof.
  intros HI A p. induction p as [a|X e k IH]; intros s Hp Hs; [done|]. destruct Hp as [He Hk]. cbn [run].
  specialize (HI X e s He Hs). destruct (exec X e s) as [x s1]. apply IH; [apply Hk|done].
Qed.

(** ** Together *)

Section pool.
Context {A : Type}.

Record Pool := { threads : list (prog A); shared : S; log : list (nat * Ev) }.

Variable env : S -> S -> Prop.

Inductive step : Pool -> Pool -> Prop :=
| step_turn i X (e : E X) k x s' c : threads c !! i = Some (Do e k) -> exec X e (shared c) = (x, s') ->
    step c {| threads := <[ i := k x ]> (threads c); shared := s'; log := log c ++ [(i, obs X e x (shared c))] |}
| step_env s' c : env (shared c) s' ->
    step c {| threads := threads c; shared := s'; log := log c |}.

Definition start (ps : list (prog A)) (s : S) : Pool := {| threads := ps; shared := s; log := [] |}.

Definition answer (c : Pool) (i : nat) : option A :=
  match threads c !! i with Some (Ret a) => Some a | _ => None end.

(** The events of one thread. *)
Definition of_thread (i : nat) (l : list (nat * Ev)) : list Ev := snd <$> filter (fun x => x.1 = i) l.

(** A turn of a thread as a function, and a schedule of turns. *)
Definition turn (c : Pool) (i : nat) : Pool :=
  match threads c !! i with
  | Some (Do e k) => let '(x, s) := exec _ e (shared c) in
      {| threads := <[ i := k x ]> (threads c); shared := s; log := log c ++ [(i, obs _ e x (shared c))] |}
  | _ => c
  end.

Definition play (sched : list nat) (c : Pool) : Pool := foldl turn c sched.

Lemma play_turn i sched ps s l X (e : E X) k x s' : ps !! i = Some (Do e k) -> exec X e s = (x, s') ->
  play (i :: sched) {| threads := ps; shared := s; log := l |} =
  play sched {| threads := <[ i := k x ]> ps; shared := s'; log := l ++ [(i, obs X e x s)] |}.
Proof. intros Hi Hx. cbn [play foldl]. unfold turn. cbn [threads shared log]. by rewrite Hi, Hx. Qed.

Lemma turn_steps c i : rtc step c (turn c i).
Proof.
  unfold turn. destruct (threads c !! i) as [[a|X e k]|] eqn:Ei; [done| |done].
  destruct (exec X e (shared c)) as [x s] eqn:Ex. apply rtc_once. by eapply step_turn.
Qed.

Lemma play_steps sched c : rtc step c (play sched c).
Proof.
  revert c. induction sched as [|i sched IH]; intros c; [done|]. cbn.
  etrans; [apply turn_steps|apply IH].
Qed.

(** What every call and the environment keep, of the state and the log. *)
Lemma steps_inv (I : S -> list (nat * Ev) -> Prop) :
  (forall i X (e : E X) s l, I s l -> let '(x, s') := exec X e s in I s' (l ++ [(i, obs X e x s)])) ->
  (forall s s' l, I s l -> env s s' -> I s' l) ->
  forall c c', rtc step c c' -> I (shared c) (log c) -> I (shared c') (log c').
Proof.
  intros Hc He c c' H. induction H as [c|c c1 c2 Hs _ IH]; [done|]. intros Hi. apply IH.
  destruct Hs as [i X e k x s' c Ei Ex|s' c Hs]; cbn [shared log].
  - specialize (Hc i X e (shared c) (log c) Hi). by rewrite Ex in Hc.
  - by apply (He (shared c)).
Qed.

Lemma of_thread_app i l l' : of_thread i (l ++ l') = of_thread i l ++ of_thread i l'.
Proof. unfold of_thread. by rewrite filter_app, fmap_app. Qed.

Lemma of_thread_one i j ev : of_thread i [(j, ev)] = if decide (j = i) then [ev] else [].
Proof.
  unfold of_thread. case_decide as Hj; [by rewrite filter_cons_True|by rewrite filter_cons_False].
Qed.

Lemma of_thread_elem i l ev : ev ∈ of_thread i l <-> (i, ev) ∈ l.
Proof.
  unfold of_thread. rewrite list_elem_of_fmap. split.
  - intros ([j ev'] & -> & [<- H]%list_elem_of_filter). exact H.
  - intros H. exists (i, ev). split; [done|]. by apply list_elem_of_filter.
Qed.

(** Each thread follows its own program. *)
Lemma steps_path ps s c : rtc step (start ps s) c ->
  length (threads c) = length ps /\
  forall i p q, ps !! i = Some p -> threads c !! i = Some q -> path p (of_thread i (log c)) q.
Proof.
  intros H.
  assert (G : forall c1 c2, rtc step c1 c2 -> length (threads c1) = length ps ->
    (forall i p q, ps !! i = Some p -> threads c1 !! i = Some q -> path p (of_thread i (log c1)) q) ->
    length (threads c2) = length ps /\
    forall i p q, ps !! i = Some p -> threads c2 !! i = Some q -> path p (of_thread i (log c2)) q).
  { clear c H. intros c1 c2 H. induction H as [c1|c1 c2 c3 Hs _ IH]; [done|]. intros Hl Hp. apply IH; clear IH.
    - destruct Hs; cbn [threads]; [by rewrite length_insert|done].
    - destruct Hs as [i X e k x s' c Ei Ex|s' c Hs]; [|exact Hp]. cbn [threads log].
      intros j p q Hj Hq. rewrite of_thread_app, of_thread_one.
      destruct (decide (i = j)) as [<-|Hne].
      + rewrite list_lookup_insert_eq in Hq by (by eapply lookup_lt_Some).
        injection Hq as <-. apply (path_snoc p _ X e k x (shared c)). by apply Hp.
      + rewrite app_nil_r. rewrite list_lookup_insert_ne in Hq by done. by apply Hp. }
  apply (G _ c) in H; [done|done|]. intros i p q Hi Hq. cbn in *. rewrite Hi in Hq. by injection Hq.
Qed.

(** Every event is of a thread of the pool. *)
Lemma steps_owner ps s c : rtc step (start ps s) c -> forall i ev, (i, ev) ∈ log c ->
  exists p q, ps !! i = Some p /\ path p (of_thread i (log c)) q.
Proof.
  intros H i ev Hin. destruct (steps_path ps s c H) as [Hl Hp].
  assert (Hi : (i < length (threads c))%nat).
  { assert (G : forall c1 c2, rtc step c1 c2 -> (forall x, x ∈ log c1 -> (x.1 < length (threads c1))%nat) ->
      forall x, x ∈ log c2 -> (x.1 < length (threads c2))%nat).
    { clear. intros c1 c2 H. induction H as [c1|c1 c2 c3 Hs _ IH]; [done|]. intros Hc. apply IH; clear IH.
      destruct Hs as [i X e k x s' c Ei Ex|s' c Hs]; cbn [threads log]; [|done].
      rewrite length_insert. intros y [Hy| ->%list_elem_of_singleton]%elem_of_app; [by apply Hc|].
      by eapply lookup_lt_Some. }
    apply (G _ c H) in Hin; [done|]. by intros x ?%elem_of_nil. }
  destruct (lookup_lt_is_Some_2 (threads c) i Hi) as [q Hq].
  destruct (lookup_lt_is_Some_2 ps i) as [p Hpi]; [by rewrite <-Hl|]. exists p, q. split; [done|]. by apply Hp.
Qed.

(** What an answered thread has seen. *)
Lemma answer_trace ps s c i a : rtc step (start ps s) c -> answer c i = Some a ->
  exists p, ps !! i = Some p /\ trace p (of_thread i (log c)) a.
Proof.
  intros [Hl Hp]%steps_path Ha. unfold answer in Ha.
  destruct (threads c !! i) as [[a'|]|] eqn:Ei; [|done|done]. injection Ha as ->.
  destruct (lookup_lt_is_Some_2 ps i) as [p Hpi]; [rewrite <-Hl; by eapply lookup_lt_Some|].
  exists p. split; [done|]. apply path_ret. by apply Hp.
Qed.

End pool.
End prog.

Arguments prog : clear implicits.
Arguments Ret {E A} a.
Arguments Do {E A X} e k.

Notation "x <- p ;; q" := (bind p (fun x => q)) (at level 100, p at next level, right associativity) : prog_scope.
Notation "x <-? p ;; q" := (try p (fun x => q)) (at level 100, p at next level, right associativity) : prog_scope.
