(* ===== verification/Accounts.v ===== *)
(** * Users, their sessions and external identities

    internal/service/auth.go, password.go and external_user.go over the tables
    of internal/storage/auth_store.go.  A handler is a program (Prog.v) of
    [Call]s: one constructor per SQL statement, per critical section of the
    TOTP coordinator (its maps and mutexes are used by Totp.v), and per draw of
    random bytes or reading of the clock.  [exec] is what a call does to the
    [World]; every call to the database fails while it is not [online].  bcrypt
    is a parameter. *)

From Stdlib Require Import ZArith Lia Ascii.
From stdpp Require Import base list strings gmap.
From S2P Require Import Prelude GoStrings Prog.

Local Open Scope Z_scope.

(** ** Rows *)

Inductive SvcError :=
| ErrNotFound | ErrBadRequest | ErrUnauthorized | ErrForbidden | ErrConflict | ErrInternal
| ErrTOTPNotEnrolled | ErrTOTPNotEnabled | ErrTOTPInvalidCode | ErrTOTPAlreadyEnrolled.

#[export] Instance SvcError_eq : EqDecision SvcError.
Proof. solve_decision. Defined.

(** Times are in nanoseconds; [None] is Go's zero time. *)
Record User := {
  ID : string;
  Username : string;
  PasswordHash : string;
  Email : string;
  DisplayName : string;
  External : bool;
  Disabled : bool;
  IsSuperadmin : bool;
  DeniedCapabilities : list string;
  CreatedAt : Z;
  UpdatedAt : Z;
}.

Record Session := {
  sID : string; sUserID : string; sUsername : string; Payload : string; RefreshID : string;
  sCreatedAt : Z; ExpiresAt : Z;
}.

Record UserIdentity := {
  iID : string; iUserID : string; Provider : string; Subject : string; iEmail : string;
  iDisplayName : string;
}.

Record UserTOTP := {
  tUserID : string; Secret : string; Enabled : bool; RecoveryCodes : list string;
  tCreatedAt : Z; LastUsedAt : option Z;
}.

(** A phase-1 identity waiting for its second factor. *)
Record totpPending := { identityJSON : string; expires : Z }.

(** The coordinator's constants: the code's period and skew, the replay
    window, the time between the phases. *)
Record Config := { Period : Z; Skew : Z; pendingTTL : Z }.

Definition replayTTL (c : Config) : Z := Period c * (2 * Skew c + 1).

Record World := {
  users : gmap string User;
  identities : gmap (string * string) UserIdentity;
  sessions : gmap string Session;
  totps : gmap string UserTOTP;
  replay : gmap string Z;
  pending : gmap string totpPending;
  clock : Z;
  draws : nat;
  online : bool;
}.

Definition set_users f w := {| users := f (users w); identities := identities w; sessions := sessions w;
  totps := totps w; replay := replay w; pending := pending w; clock := clock w; draws := draws w;
  online := online w |}.
Definition set_identities f w := {| users := users w; identities := f (identities w); sessions := sessions w;
  totps := totps w; replay := replay w; pending := pending w; clock := clock w; draws := draws w;
  online := online w |}.
Definition set_sessions f w := {| users := users w; identities := identities w; sessions := f (sessions w);
  totps := totps w; replay := replay w; pending := pending w; clock := clock w; draws := draws w;
  online := online w |}.
Definition set_totps f w := {| users := users w; identities := identities w; sessions := sessions w;
  totps := f (totps w); replay := replay w; pending := pending w; clock := clock w; draws := draws w;
  online := online w |}.
Definition set_replay f w := {| users := users w; identities := identities w; sessions := sessions w;
  totps := totps w; replay := f (replay w); pending := pending w; clock := clock w; draws := draws w;
  online := online w |}.
Definition set_pending f w := {| users := users w; identities := identities w; sessions := sessions w;
  totps := totps w; replay := replay w; pending := f (pending w); clock := clock w; draws := draws w;
  online := online w |}.
Definition set_clock t w := {| users := users w; identities := identities w; sessions := sessions w;
  totps := totps w; replay := replay w; pending := pending w; clock := t; draws := draws w;
  online := online w |}.
Definition set_online b w := {| users := users w; identities := identities w; sessions := sessions w;
  totps := totps w; replay := replay w; pending := pending w; clock := clock w; draws := draws w;
  online := b |}.
Definition draw w := {| users := users w; identities := identities w; sessions := sessions w;
  totps := totps w; replay := replay w; pending := pending w; clock := clock w; draws := S (draws w);
  online := online w |}.

(** ** Calls *)

Inductive Call : Type -> Type :=
| Now : Call Z
| NewID : Call string
| Entropy : Call (list (list Z))
| UserGet (id : string) : Call (result SvcError User)
| UserGetByUsername (name : string) : Call (result SvcError User)
| UserGetByEmail (email : string) : Call (result SvcError User)
| UserCreate (u : User) : Call (result SvcError unit)
| UserUpdate (u : User) : Call (result SvcError unit)
| UserDeleteRow (id : string) : Call (result SvcError unit)
| UserCountRows : Call (result SvcError Z)
| UserList : Call (result SvcError (list User))
| IdentityFind (provider subject : string) : Call (result SvcError UserIdentity)
| IdentityUpsert (i : UserIdentity) : Call (result SvcError UserIdentity)
| SessionPut (s : Session) : Call (result SvcError unit)
| SessionGet (id : string) : Call (result SvcError Session)
| SessionDelete (id : string) : Call (result SvcError unit)
| SessionDeleteByUserID (uid : string) : Call (result SvcError unit)
| SessionListByUserID (uid : string) : Call (result SvcError (list Session))
| TotpGet (uid : string) : Call (result SvcError UserTOTP)
| TotpSet (t : UserTOTP) : Call (result SvcError unit)
| TotpDelete (uid : string) : Call (result SvcError unit)
| MarkReplay (uid code : string) : Call bool
| SavePending (identJSON : string) : Call string
| ConsumePending (sid : string) : Call (option string).

Section exec.
Context {cfg : Config}.
(** crypto/rand: the random identifiers and buffers in the order they are drawn. *)
Variable ids : nat -> string.
Variable buffers : nat -> list (list Z).

Definition db {A} (w : World) (r : result SvcError A * World) : result SvcError A * World :=
  if online w then r else (Err ErrInternal, w).

Definition found {A} (o : option A) : result SvcError A :=
  match o with Some a => Ok a | None => Err ErrNotFound end.

Definition byUsername (w : World) (name : string) : option User :=
  snd <$> List.find (fun kv : string * User => String.eqb (Username kv.2) name) (map_to_list (users w)).

Definition byEmail (w : World) (email : string) : option User :=
  snd <$> List.find (fun kv : string * User => String.eqb (Email kv.2) email) (map_to_list (users w)).

(** [getBy]: an empty value is no row. *)
Definition getBy (w : World) (val : string) (o : option User) : result SvcError User * World :=
  if String.eqb val "" then (Err ErrNotFound, w) else db w (found o, w).

Definition taken (w : World) (name except : string) : bool :=
  match byUsername w name with Some u => negb (String.eqb (ID u) except) | None => false end.

(** [Update] leaves the deny overlay and the creation time. *)
Definition updated (old u : User) : User :=
  {| ID := ID old; Username := Username u; PasswordHash := PasswordHash u; Email := Email u;
     DisplayName := DisplayName u; External := External u; Disabled := Disabled u;
     IsSuperadmin := IsSuperadmin u; DeniedCapabilities := DeniedCapabilities old;
     CreatedAt := CreatedAt old; UpdatedAt := UpdatedAt u |}.

(** What the foreign keys remove with a user's row. *)
Definition cascade (id : string) (w : World) : World :=
  set_totps (delete id) (set_identities (filter (fun kv => iUserID kv.2 <> id)) (set_users (delete id) w)).

Definition by_name (a b : User) : bool := str_ltb (Username a) (Username b).

Definition newest (a b : Session) : bool := sCreatedAt b <? sCreatedAt a.

(** [markReplay]: whether the code was not used within the window. *)
Definition markReplay (w : World) (uid code : string) : bool * World :=
  let key := uid +:+ ":" +:+ code in
  match replay w !! key with
  | Some exp => if clock w <? exp then (false, w)
                else (true, set_replay <[ key := clock w + replayTTL cfg ]> w)
  | None => (true, set_replay <[ key := clock w + replayTTL cfg ]> w)
  end.

Definition savePending (w : World) (identJSON : string) : string * World :=
  let sid := ids (draws w) in
  (sid, set_pending <[ sid := {| identityJSON := identJSON; expires := clock w + pendingTTL cfg |} ]> (draw w)).

Definition consumePending (w : World) (sid : string) : option string * World :=
  match pending w !! sid with
  | None => (None, w)
  | Some e => (if expires e <? clock w then None else Some (identityJSON e), set_pending (delete sid) w)
  end.

(** ** Statements: the methods of [userStore], [identityStore], [sessionStore]
    and [totpStore], with the constraints of the tables. *)

Definition userCreate (w : World) (u : User) : result SvcError unit * World :=
  db w (if is_some (users w !! ID u) || is_some (byUsername w (Username u)) then (Err ErrConflict, w)
        else (Ok tt, set_users <[ ID u := u ]> w)).

Definition userUpdate (w : World) (u : User) : result SvcError unit * World :=
  db w (match users w !! ID u with
        | None => (Err ErrNotFound, w)
        | Some old => if taken w (Username u) (ID u) then (Err ErrConflict, w)
                      else (Ok tt, set_users <[ ID u := updated old u ]> w)
        end).

(** [Delete] removes the sessions first, which no foreign key binds to the user,
    whether or not there is a row. *)
Definition userDelete (w : World) (id : string) : result SvcError unit * World :=
  let w' := set_sessions (filter (fun kv => sUserID kv.2 <> id)) w in
  db w (if is_some (users w !! id) then (Ok tt, cascade id w') else (Err ErrNotFound, w')).

Definition userCount (w : World) : result SvcError Z * World :=
  db w (Ok (Z.of_nat (size (users w))), w).

Definition userList (w : World) : result SvcError (list User) * World :=
  db w (Ok (SliceStable by_name (map_to_list (users w)).*2), w).

Definition identityFind (w : World) (p s : string) : result SvcError UserIdentity * World :=
  db w (found (identities w !! (p, s)), w).

Definition identityUpsert (w : World) (i : UserIdentity) : result SvcError UserIdentity * World :=
  db w (match identities w !! (Provider i, Subject i) with
        | Some old =>
            let row := {| iID := iID old; iUserID := iUserID old; Provider := Provider old; Subject := Subject old;
                          iEmail := iEmail i; iDisplayName := iDisplayName i |} in
            (Ok row, set_identities <[ (Provider i, Subject i) := row ]> w)
        | None => if is_some (users w !! iUserID i)
                  then (Ok i, set_identities <[ (Provider i, Subject i) := i ]> w)
                  else (Err ErrInternal, w)
        end).

Definition sessionPut (w : World) (s : Session) : result SvcError unit * World :=
  db w (let row := match sessions w !! sID s with
                   | Some old => {| sID := sID s; sUserID := sUserID s; sUsername := sUsername s;
                       Payload := Payload s; RefreshID := RefreshID s; sCreatedAt := sCreatedAt old;
                       ExpiresAt := ExpiresAt s |}
                   | None => s
                   end in (Ok tt, set_sessions <[ sID s := row ]> w)).

Definition sessionGet (w : World) (id : string) : result SvcError Session * World :=
  db w (found (sessions w !! id), w).

Definition sessionDelete (w : World) (id : string) : result SvcError unit * World :=
  db w (Ok tt, set_sessions (delete id) w).

Definition sessionDeleteByUserID (w : World) (uid : string) : result SvcError unit * World :=
  if String.eqb uid "" then (Ok tt, w)
  else db w (Ok tt, set_sessions (filter (fun kv => sUserID kv.2 <> uid)) w).

Definition sessionListByUserID (w : World) (uid : string) : result SvcError (list Session) * World :=
  db w (Ok (SliceStable newest (List.filter (fun s => String.eqb (sUserID s) uid && (clock w <? ExpiresAt s))
                                  (map_to_list (sessions w)).*2)), w).

Definition totpGet (w : World) (uid : string) : result SvcError UserTOTP * World :=
  db w (found (totps w !! uid), w).

Definition totpSet (w : World) (t : UserTOTP) : result SvcError unit * World :=
  db w (if is_some (users w !! tUserID t) then (Ok tt, set_totps <[ tUserID t := t ]> w)
        else (Err ErrInternal, w)).

Definition totpDelete (w : World) (uid : string) : result SvcError unit * World :=
  db w (if is_some (totps w !! uid) then (Ok tt, set_totps (delete uid) w) else (Err ErrNotFound, w)).

Definition exec (X : Type) (c : Call X) (w : World) : X * World :=
  match c in Call X return X * World with
  | Now => (clock w, w)
  | NewID => (ids (draws w), draw w)
  | Entropy => (buffers (draws w), draw w)
  | UserGet id => getBy w id (users w !! id)
  | UserGetByUsername name => getBy w name (byUsername w name)
  | UserGetByEmail email => getBy w email (byEmail w email)
  | UserCreate u => userCreate w u
  | UserUpdate u => userUpdate w u
  | UserDeleteRow id => userDelete w id
  | UserCountRows => userCount w
  | UserList => userList w
  | IdentityFind p s => identityFind w p s
  | IdentityUpsert i => identityUpsert w i
  | SessionPut s => sessionPut w s
  | SessionGet id => sessionGet w id
  | SessionDelete id => sessionDelete w id
  | SessionDeleteByUserID uid => sessionDeleteByUserID w uid
  | SessionListByUserID uid => sessionListByUserID w uid
  | TotpGet uid => totpGet w uid
  | TotpSet t => totpSet w t
  | TotpDelete uid => totpDelete w uid
  | MarkReplay uid code => markReplay w uid code
  | SavePending j => savePending w j
  | ConsumePending sid => consumePending w sid
  end.

(** The background sweep of the coordinator, and what else may happen between
    two calls: time passes, the database goes down or comes back. *)
Definition gc (w : World) : World :=
  set_pending (filter (fun kv => clock w < expires kv.2)) (set_replay (filter (fun kv => clock w < kv.2)) w).

Inductive env : World -> World -> Prop :=
| env_tick w t : clock w <= t -> env w (set_clock t w)
| env_gc w : env w (gc w)
| env_online w b : env w (set_online b w).
End exec.

(** Opens the statements a goal or a hypothesis speaks of. *)
Ltac sql := unfold getBy, userCreate, userUpdate, userDelete, userCount, userList, identityFind, identityUpsert,
  sessionPut, sessionGet, sessionDelete, sessionDeleteByUserID, sessionListByUserID, totpGet, totpSet, totpDelete, db.
Tactic Notation "sql" "in" hyp(H) := unfold getBy, userCreate, userUpdate, userDelete, userCount, userList,
  identityFind, identityUpsert, sessionPut, sessionGet, sessionDelete, sessionDeleteByUserID, sessionListByUserID,
  totpGet, totpSet, totpDelete, db in H.

(** ** Handlers *)

Notation M A := (prog Call (result SvcError A)).
Notation fail e := (Ret (Err e)).
Notation ok a := (Ret (Ok a)).

Definition minPasswordLength : nat := 8.

Definition validatePassword (p : string) : bool := (minPasswordLength <=? len p)%nat.

(** unicode.IsPrint, and ASCII letters for strings.ToLower (GoStrings.v). *)
Definition normalizeEmail (email : string) : string := ToLower (TrimSpace email).

Record UserInfo := {
  inID : string; inUsername : string; inEmail : string; inDisplayName : string; inExternal : bool;
  inDisabled : bool; inIsSuperadmin : bool; inHasTOTP : bool; inDenied : list string;
  inCreatedAt : Z; inUpdatedAt : Z;
}.

Definition toInfo (u : User) : UserInfo :=
  {| inID := ID u; inUsername := Username u; inEmail := Email u; inDisplayName := DisplayName u;
     inExternal := External u; inDisabled := Disabled u; inIsSuperadmin := IsSuperadmin u;
     inHasTOTP := false; inDenied := DeniedCapabilities u; inCreatedAt := CreatedAt u;
     inUpdatedAt := UpdatedAt u |}.

Record UpdateUserRequest := {
  rUsername : option string; rPassword : option string; rEmail : option string;
  rDisplayName : option string; rDisabled : option bool;
}.

(** What a strategy hands to the issuer. *)
Record AuthIdentity := {
  aSubject : string; aName : string; aProvider : string; aRoles : list string; aIssuedAt : Z;
}.

Definition set_hash (u : User) (h : string) (t : Z) : User :=
  {| ID := ID u; Username := Username u; PasswordHash := h; Email := Email u; DisplayName := DisplayName u;
     External := External u; Disabled := Disabled u; IsSuperadmin := IsSuperadmin u;
     DeniedCapabilities := DeniedCapabilities u; CreatedAt := CreatedAt u; UpdatedAt := t |}.

Definition set_super (u : User) (b : bool) (t : Z) : User :=
  {| ID := ID u; Username := Username u; PasswordHash := PasswordHash u; Email := Email u;
     DisplayName := DisplayName u; External := External u; Disabled := Disabled u; IsSuperadmin := b;
     DeniedCapabilities := DeniedCapabilities u; CreatedAt := CreatedAt u; UpdatedAt := t |}.

Local Open Scope prog_scope.

Section accounts.
(** golang.org/x/crypto/bcrypt: [GenerateFromPassword] with its salt, None when
    the password is too long; [CompareHashAndPassword]; [Cost]. *)
Variable bcryptGenerate : string -> string -> option string.
Variable bcryptCompare : string -> string -> bool.
Variable bcryptCost : string -> option Z.

Definition passwordCost : Z := 12.

Definition hashPassword (pwd : string) : M string :=
  salt <- call NewID;;
  Ret (match bcryptGenerate salt pwd with Some h => Ok h | None => Err ErrInternal end).

Definition createUser (name pwd : string) (superadmin : bool) : M UserInfo :=
  if String.eqb name "" then fail ErrBadRequest
  else if negb (validatePassword pwd) then fail ErrBadRequest
  else
    hash <-? hashPassword pwd;;
    id <- call NewID;;
    now <- call Now;;
    let user := {| ID := id; Username := name; PasswordHash := hash; Email := ""; DisplayName := "";
                   External := false; Disabled := false; IsSuperadmin := superadmin;
                   DeniedCapabilities := []; CreatedAt := now; UpdatedAt := now |} in
    _ <-? call (UserCreate user);;
    ok (toInfo user).

Definition CreateUser name pwd : M UserInfo := createUser name pwd false.
Definition CreateSetupUser name pwd : M UserInfo := createUser name pwd true.

(** The user with its new hash: the pointer is changed even when the update
    fails. *)
Definition rehashIfStale (user : User) (pwd : string) : prog Call User :=
  match bcryptCost (PasswordHash user) with
  | None => Ret user
  | Some cost =>
      if passwordCost <=? cost then Ret user
      else
        r <- hashPassword pwd;;
        match r with
        | Err _ => Ret user
        | Ok h =>
            now <- call Now;;
            let user := set_hash user h now in
            _ <- call (UserUpdate user);;
            Ret user
        end
  end.

Definition Authenticate (name pwd : string) : M UserInfo :=
  r <- call (UserGetByUsername name);;
  match r with
  | Err ErrNotFound => fail ErrUnauthorized
  | Err e => fail e
  | Ok user =>
      if Disabled user then fail ErrForbidden
      else if negb (bcryptCompare (PasswordHash user) pwd) then fail ErrUnauthorized
      else user <- rehashIfStale user pwd;; ok (toInfo user)
  end.

Definition GetUserByUsername (name : string) : M UserInfo :=
  user <-? call (UserGetByUsername name);; ok (toInfo user).

Definition other_super (id : string) (u : User) : bool :=
  negb (String.eqb (ID u) id) && IsSuperadmin u && negb (Disabled u).

Definition guardLastSuperadmin (id : string) : M unit :=
  user <-? call (UserGet id);;
  if negb (IsSuperadmin user) || Disabled user then ok tt
  else
    users <-? call UserList;;
    if existsb (other_super id) users then ok tt else fail ErrConflict.

Definition apply_request (u : User) (req : UpdateUserRequest) (hash : string) (t : Z) : User :=
  {| ID := ID u; Username := default (Username u) (rUsername req); PasswordHash := hash;
     Email := match rEmail req with Some e => normalizeEmail e | None => Email u end;
     DisplayName := default (DisplayName u) (rDisplayName req);
     External := External u; Disabled := default (Disabled u) (rDisabled req);
     IsSuperadmin := IsSuperadmin u; DeniedCapabilities := DeniedCapabilities u;
     CreatedAt := CreatedAt u; UpdatedAt := t |}.

Definition newHash (user : User) (req : UpdateUserRequest) : M string :=
  match rPassword req with
  | None => ok (PasswordHash user)
  | Some p => if validatePassword p then hashPassword p else fail ErrBadRequest
  end.

Definition disables (user : User) (req : UpdateUserRequest) : bool :=
  match rDisabled req with Some true => negb (Disabled user) | _ => false end.

Definition UpdateUser (id : string) (req : UpdateUserRequest) : M unit :=
  user <-? call (UserGet id);;
  hash <-? newHash user req;;
  _ <-? (if disables user req then guardLastSuperadmin id else ok tt);;
  now <- call Now;;
  _ <-? call (UserUpdate (apply_request user req hash now));;
  if disables user req then _ <- call (SessionDeleteByUserID id);; ok tt else ok tt.

Definition KickUser (id : string) : M unit :=
  _ <-? call (UserGet id);; call (SessionDeleteByUserID id).

(** [userStore.Delete] is two statements. *)
Definition DeleteUser (id : string) : M unit :=
  _ <-? guardLastSuperadmin id;;
  _ <-? call (SessionDeleteByUserID id);;
  call (UserDeleteRow id).

Definition SetUserSuperadmin (id : string) (superadmin : bool) : M unit :=
  user <-? call (UserGet id);;
  if Bool.eqb (IsSuperadmin user) superadmin then ok tt
  else
    _ <-? (if superadmin then ok tt else guardLastSuperadmin id);;
    now <- call Now;;
    call (UserUpdate (set_super user superadmin now)).

Definition earliest (u : User) (us : list User) : User :=
  foldl (fun a u => if CreatedAt u <? CreatedAt a then u else a) u us.

Definition EnsureSuperadmin : M unit :=
  users <-? call UserList;;
  match users with
  | [] => ok tt
  | u :: us =>
      if existsb IsSuperadmin users then ok tt
      else now <- call Now;; call (UserUpdate (set_super (earliest u us) true now))
  end.

Definition BootstrapFirstUser (name pwd : string) : M AuthIdentity :=
  count <-? call UserCountRows;;
  if 0 <? count then fail ErrConflict
  else
    info <-? CreateSetupUser name pwd;;
    now <- call Now;;
    ok {| aSubject := inUsername info; aName := ""; aProvider := "local"; aRoles := ["superadmin"];
          aIssuedAt := now |}.

Definition VerifyIdentity (name pwd : string) : M AuthIdentity :=
  info <-? Authenticate name pwd;;
  now <- call Now;;
  ok {| aSubject := inUsername info; aName := inUsername info; aProvider := "local";
        aRoles := if inIsSuperadmin info then ["superadmin"] else []; aIssuedAt := now |}.

Fixpoint delete_sessions (l : list Session) (keep : string) : M unit :=
  match l with
  | [] => ok tt
  | s :: l => if String.eqb (sID s) keep then delete_sessions l keep
              else _ <- call (SessionDelete (sID s));; delete_sessions l keep
  end.

Definition ChangeOwnPassword (uid current next keepSessionID : string) : M unit :=
  if String.eqb uid "" then fail ErrUnauthorized
  else
    user <-? call (UserGet uid);;
    if String.eqb (PasswordHash user) "" then fail ErrForbidden
    else if negb (bcryptCompare (PasswordHash user) current) then fail ErrUnauthorized
    else if negb (validatePassword next) then fail ErrBadRequest
    else
      hash <-? hashPassword next;;
      now <- call Now;;
      _ <-? call (UserUpdate (set_hash user hash now));;
      r <- call (SessionListByUserID uid);;
      match r with Err _ => ok tt | Ok l => delete_sessions l keepSessionID end.
End accounts.

(** ** External identities *)

Record ExternalIdentityInput := {
  exProvider : string; exSubject : string; exEmail : string; EmailVerified : bool;
  exDisplayName : string; exUsername : string;
}.

Definition Upsert (i : UserIdentity) : M UserIdentity :=
  if String.eqb (iID i) "" then
    id <- call NewID;;
    call (IdentityUpsert {| iID := id; iUserID := iUserID i; Provider := Provider i; Subject := Subject i;
                            iEmail := iEmail i; iDisplayName := iDisplayName i |})
  else call (IdentityUpsert i).

Definition link_of (i : ExternalIdentityInput) (id uid : string) : UserIdentity :=
  {| iID := id; iUserID := uid; Provider := exProvider i; Subject := exSubject i;
     iEmail := normalizeEmail (exEmail i); iDisplayName := exDisplayName i |}.

Section external.
(** unicode.IsPrint, and the setting [LinkByVerifiedEmail]. *)
Variable isPrint : Z -> bool.
Variable linkByVerifiedEmail : bool.

Definition link_by_email (i : ExternalIdentityInput) : M UserInfo :=
  r <- call (UserGetByEmail (normalizeEmail (exEmail i)));;
  match r with
  | Ok user =>
      if Disabled user then fail ErrForbidden
      else _ <-? Upsert (link_of i "" (ID user));; ok (toInfo user)
  | Err e => fail e
  end.

Definition FindExternalUser (i : ExternalIdentityInput) : M UserInfo :=
  if String.eqb (exProvider i) "" || String.eqb (exSubject i) "" then fail ErrBadRequest
  else
    r <- call (IdentityFind (exProvider i) (exSubject i));;
    match r with
    | Ok link =>
        user <-? call (UserGet (iUserID link));;
        if Disabled user then fail ErrForbidden
        else _ <- Upsert (link_of i (iID link) (iUserID link));; ok (toInfo user)
    | Err ErrNotFound =>
        if linkByVerifiedEmail && EmailVerified i && negb (String.eqb (normalizeEmail (exEmail i)) "")
        then link_by_email i
        else fail ErrNotFound
    | Err e => fail e
    end.

Definition name_rune (r : Z) : bool :=
  (97 <=? r) && (r <=? 122) || (48 <=? r) && (r <=? 57) || (r =? 45) || (r =? 95).

(** The loop over the runes; [lastUnderscore] collapses replaced runs. *)
Fixpoint sanitize_go (rs : list Z) (lastUnderscore : bool) : string :=
  match rs with
  | [] => ""
  | r :: rs =>
      if name_rune r then String (chr r) (sanitize_go rs false)
      else if negb lastUnderscore && isPrint r then String "_" (sanitize_go rs true)
      else sanitize_go rs lastUnderscore
  end.

Definition sanitizeUsername (s : string) : string :=
  Trim (sanitize_go (runes (TrimSpace (ToLower s))) false) "_-".

Definition emailLocalPart (email : string) : string :=
  match IndexByte email "@" with
  | Some (S n) => str_take (S n) email
  | _ => ""
  end.

Definition username_base (i : ExternalIdentityInput) : string :=
  match List.find (fun c => negb (String.eqb c ""))
      [sanitizeUsername (exUsername i); sanitizeUsername (emailLocalPart (exEmail i));
       sanitizeUsername (exProvider i +:+ ":" +:+ exSubject i)] with
  | Some c => c
  | None => "user"
  end.

(** The [n]th candidate, cut at 32 bytes. *)
Definition username_candidate (base : string) (n : nat) : string :=
  let c := if (0 <? n)%nat then base +:+ "_" +:+ itoa (Z.of_nat n + 1) else base in
  if (32 <? len c)%nat then str_take 32 c else c.

Fixpoint first_free (base : string) (tries : list nat) : M string :=
  match tries with
  | [] => fail ErrConflict
  | n :: tries =>
      r <- call (UserGetByUsername (username_candidate base n));;
      match r with
      | Err ErrNotFound => ok (username_candidate base n)
      | Err e => fail e
      | Ok _ => first_free base tries
      end
  end.

Definition chooseExternalUsername (i : ExternalIdentityInput) : M string :=
  first_free (username_base i) (seq 0 100).

Definition provision (i : ExternalIdentityInput) : M UserInfo :=
  username <-? chooseExternalUsername i;;
  id <- call NewID;;
  now <- call Now;;
  let user := {| ID := id; Username := username; PasswordHash := ""; Email := normalizeEmail (exEmail i);
                 DisplayName := exDisplayName i; External := true; Disabled := false; IsSuperadmin := false;
                 DeniedCapabilities := []; CreatedAt := now; UpdatedAt := now |} in
  _ <-? call (UserCreate user);;
  _ <-? Upsert (link_of i "" id);;
  ok (toInfo user).

Definition FindOrCreateExternalUser (i : ExternalIdentityInput) : M UserInfo :=
  r <- FindExternalUser i;;
  match r with
  | Ok info => ok info
  | Err ErrNotFound => provision i
  | Err e => fail e
  end.
End external.
