(* ===== verification/Totp.v ===== *)
(** * The second factor

    internal/service/totp.go, the coordinator of enrolment, verification and
    recovery codes, and internal/server/authx/mfa_strategy.go, the login in two
    phases, as programs over the calls of Accounts.v.  The TOTP algorithm and
    bcrypt are parameters; so are the strategy of the first phase and the JSON
    of an identity. *)

From Stdlib Require Import ZArith Lia Ascii.
From stdpp Require Import base list strings gmap.
From S2P Require Import Prelude GoStrings GoJson Prog Accounts.

Local Open Scope Z_scope.
Local Open Scope prog_scope.

(** ** Recovery codes *)

Definition recoveryCodeAlphabet : string := "23456789ABCDEFGHJKMNPQRSTVWXYZ".

(** [byte(256 - 256 % len(alphabet))] *)
Definition limit (alphabet : string) : Z :=
  (256 - 256 mod Z.of_nat (len alphabet)) mod 256.

Definition pick (alphabet : string) (b : Z) : ascii :=
  default "000"%char (String.get (Z.to_nat (b mod Z.of_nat (len alphabet))) alphabet).

(** The bytes of one buffer, until [need] characters are chosen; what is still
    needed then. *)
Fixpoint accept (alphabet : string) (buf : list Z) (need : nat) : string * nat :=
  match need, buf with
  | O, _ => ("", O)
  | _, [] => ("", need)
  | S n, b :: buf =>
      if limit alphabet <=? b then accept alphabet buf need
      else let '(s, n) := accept alphabet buf n in (String (pick alphabet b) s, n)
  end.

(** None: rand.Read failed, after the buffers it filled. *)
Fixpoint randomFromAlphabet (length : nat) (alphabet : string) (bufs : list (list Z)) : option string :=
  match length with
  | O => Some ""
  | _ =>
      match bufs with
      | [] => None
      | buf :: bufs =>
          let '(s, need) := accept alphabet buf length in
          String.append s <$> randomFromAlphabet need alphabet bufs
      end
  end.

(** "xxxx-xxxx-xxxx" *)
Definition format_code (raw : string) : string :=
  str_take 4 raw +:+ "-" +:+ str_take 4 (str_drop 4 raw) +:+ "-" +:+ str_drop 8 raw.

Section totp.
Variable bcryptGenerate : string -> string -> option string.
Variable bcryptCompare : string -> string -> bool.
(** The package totp: a secret from random bytes, in base 32, and back; the
    otpauth URL; whether a code is right at a time. *)
Variable NewSecret : string -> string.
Variable SecretFromBase32 : string -> option string.
Variable URL : string -> string -> string.
Variable Verify : string -> string -> Z -> bool.

(** One code and its hash. *)
Definition newRecoveryCode : M (string * string) :=
  bufs <- call Entropy;;
  match randomFromAlphabet 12 recoveryCodeAlphabet bufs with
  | None => fail ErrInternal
  | Some raw =>
      let formatted := format_code raw in
      hash <-? hashPassword bcryptGenerate (ToLower formatted);;
      ok (formatted, hash)
  end.

Fixpoint recovery_go (n : nat) : M (list string * list string) :=
  match n with
  | O => ok ([], [])
  | S n =>
      ph <-? newRecoveryCode;;
      rest <-? recovery_go n;;
      ok (ph.1 :: rest.1, ph.2 :: rest.2)
  end.

Definition newRecoveryCodes (n : Z) : M (list string * list string) :=
  recovery_go (Z.to_nat (if n <=? 0 then 10 else n)).

(** ** Enrolment *)

Record TOTPStatus := {
  stEnabled : bool; stCreatedAt : option Z; stLastUsedAt : option Z; RecoveryCodesLeft : nat;
  PendingEnrollment : bool;
}.

Record TOTPEnrollment := { SecretBase32 : string; OTPAuthURL : string }.

Definition set_row (row : UserTOTP) (enabled : bool) (codes : list string) (used : option Z) : UserTOTP :=
  {| tUserID := tUserID row; Secret := Secret row; Enabled := enabled; RecoveryCodes := codes;
     tCreatedAt := tCreatedAt row; LastUsedAt := used |}.

Definition Status (uid : string) : M TOTPStatus :=
  r <- call (TotpGet uid);;
  match r with
  | Err ErrNotFound => ok {| stEnabled := false; stCreatedAt := None; stLastUsedAt := None;
                             RecoveryCodesLeft := 0; PendingEnrollment := false |}
  | Err e => fail e
  | Ok row => ok {| stEnabled := Enabled row; stCreatedAt := Some (tCreatedAt row);
                    stLastUsedAt := LastUsedAt row; RecoveryCodesLeft := length (RecoveryCodes row);
                    PendingEnrollment := negb (Enabled row) |}
  end.

Definition enroll (uid : string) : M TOTPEnrollment :=
  user <-? call (UserGet uid);;
  bytes <- call NewID;;
  now <- call Now;;
  let secret := NewSecret bytes in
  _ <-? call (TotpSet {| tUserID := uid; Secret := secret; Enabled := false; RecoveryCodes := [];
                         tCreatedAt := now; LastUsedAt := None |});;
  ok {| SecretBase32 := secret; OTPAuthURL := URL secret (Username user) |}.

Definition BeginEnroll (uid : string) : M TOTPEnrollment :=
  r <- call (TotpGet uid);;
  match r with
  | Ok row => if Enabled row then fail ErrTOTPAlreadyEnrolled else enroll uid
  | Err ErrNotFound => enroll uid
  | Err e => fail e
  end.

(** The row of an enrolled user, or the error that tells what is missing. *)
Definition get_row (uid : string) : M UserTOTP :=
  r <- call (TotpGet uid);;
  Ret (match r with Err ErrNotFound => Err ErrTOTPNotEnrolled | r => r end).

(** The plaintext recovery codes. *)
Definition FinishEnroll (uid code : string) : M (list string) :=
  row <-? get_row uid;;
  if Enabled row then fail ErrTOTPAlreadyEnrolled
  else
    match SecretFromBase32 (Secret row) with
    | None => fail ErrInternal
    | Some secret =>
        now <- call Now;;
        if negb (Verify secret code now) then fail ErrTOTPInvalidCode
        else
          codes <-? newRecoveryCodes 10;;
          now <- call Now;;
          _ <-? call (TotpSet (set_row row true codes.2 (Some now)));;
          ok codes.1
    end.

(** The password again, before the factor may change. *)
Definition reauthenticate (uid password : string) : M unit :=
  user <-? call (UserGet uid);;
  if String.eqb (PasswordHash user) "" then fail ErrForbidden
  else if negb (bcryptCompare (PasswordHash user) password) then fail ErrUnauthorized
  else ok tt.

Definition Disable (uid password : string) : M unit :=
  _ <-? reauthenticate uid password;;
  call (TotpDelete uid).

Definition RegenerateRecoveryCodes (uid password : string) : M (list string) :=
  _ <-? reauthenticate uid password;;
  row <-? get_row uid;;
  if negb (Enabled row) then fail ErrTOTPNotEnabled
  else
    codes <-? newRecoveryCodes 10;;
    _ <-? call (TotpSet (set_row row (Enabled row) codes.2 (LastUsedAt row)));;
    ok codes.1.

Definition AdminResetTOTP (callerID targetID : string) : M unit :=
  if String.eqb targetID "" then fail ErrBadRequest
  else if String.eqb callerID targetID then fail ErrForbidden
  else
    _ <-? call (UserGet targetID);;
    r <- call (TotpDelete targetID);;
    Ret (match r with Err ErrNotFound => Ok tt | r => r end).

Definition IsEnabledForUser (uid : string) : M bool :=
  r <- call (TotpGet uid);;
  Ret (match r with Err ErrNotFound => Ok false | Err e => Err e | Ok row => Ok (Enabled row) end).

(** ** Verification *)

(** The place of the first recovery code whose hash matches. *)
Fixpoint match_code (codes : list string) (code : string) : option nat :=
  match codes with
  | [] => None
  | h :: codes => if bcryptCompare h code then Some O else S <$> match_code codes code
  end.

Definition VerifyForLogin (uid code : string) : M unit :=
  row <-? get_row uid;;
  if negb (Enabled row) then fail ErrTOTPNotEnabled
  else
    let code := TrimSpace code in
    if String.eqb code "" then fail ErrTOTPInvalidCode
    else
      match SecretFromBase32 (Secret row) with
      | None => fail ErrInternal
      | Some secret =>
          now <- call Now;;
          if Verify secret code now then
            fresh <- call (MarkReplay uid code);;
            if negb fresh then fail ErrTOTPInvalidCode
            else
              now <- call Now;;
              _ <- call (TotpSet (set_row row (Enabled row) (RecoveryCodes row) (Some now)));;
              ok tt
          else
            match match_code (RecoveryCodes row) (ToLower code) with
            | None => fail ErrTOTPInvalidCode
            | Some i =>
                let codes := take i (RecoveryCodes row) ++ drop (S i) (RecoveryCodes row) in
                now <- call Now;;
                call (TotpSet (set_row row (Enabled row) codes (Some now)))
            end
      end.

(** ** The login in two phases *)

(** What a login gives: an identity the issuer may mint a session for, a
    failure with its HTTP status, or the challenge with its session id. *)
Inductive Outcome :=
| Continue (id : AuthIdentity)
| Failed (status : Z)
| Pending (sid : string).

Variable encodeIdentity : AuthIdentity -> string.
Variable decodeIdentity : string -> option AuthIdentity.
(** The first phase on a request body; whether the wrapper has a coordinator. *)
Variable inner : string -> prog Call Outcome.
Variable coord : bool.

Definition isMFAFinishBody (body : string) : bool :=
  match parse body with
  | Some (JObject m) => is_some (field "totp_session_id" m) && is_some (field "code" m)
  | _ => false
  end.

Definition parseFinish (body : string) : option (string * string) :=
  match parse body with
  | Some (JObject m) =>
      sid ← decode_field decode_string false "totp_session_id" "" m;
      code ← decode_field decode_string false "code" "" m;
      Some (sid, code)
  | _ => None
  end.

Definition resolveUserID (id : AuthIdentity) : M string :=
  if String.eqb (aSubject id) "" then fail ErrInternal
  else info <-? GetUserByUsername (aSubject id);; ok (inID info).

Definition handleBegin (body : string) : prog Call Outcome :=
  o <- inner body;;
  match o with
  | Continue id =>
      if negb coord then Ret (Continue id)
      else
        u <- resolveUserID id;;
        match u with
        | Err _ => Ret (Failed 500)
        | Ok uid =>
            e <- IsEnabledForUser uid;;
            match e with
            | Err _ => Ret (Failed 500)
            | Ok false => Ret (Continue id)
            | Ok true =>
                sid <- call (SavePending (encodeIdentity id));;
                Ret (Pending sid)
            end
        end
  | o => Ret o
  end.

(** The status of a verification that failed. *)
Definition verify_status (e : SvcError) : Z :=
  match e with
  | ErrTOTPInvalidCode | ErrTOTPNotEnrolled | ErrTOTPNotEnabled => 401
  | _ => 500
  end.

Definition handleFinish (body : string) : prog Call Outcome :=
  if negb coord then Ret (Failed 400)
  else
    match parseFinish body with
    | None => Ret (Failed 400)
    | Some (sid, code) =>
        if String.eqb sid "" || String.eqb code "" then Ret (Failed 400)
        else
          j <- call (ConsumePending sid);;
          match j with
          | None => Ret (Failed 401)
          | Some j =>
              match decodeIdentity j with
              | None => Ret (Failed 500)
              | Some id =>
                  u <- resolveUserID id;;
                  match u with
                  | Err _ => Ret (Failed 500)
                  | Ok uid =>
                      r <- VerifyForLogin uid code;;
                      match r with
                      | Err e => Ret (Failed (verify_status e))
                      | Ok _ => Ret (Continue id)
                      end
                  end
              end
          end
    end.

(** [bodyLimit]: 128 KiB are read of a body. *)
Definition bodyLimit : Z := Z.shiftl 1 17.

Definition limited (body : string) : string :=
  if bodyLimit <? Z.of_nat (len body) then str_take (Z.to_nat bodyLimit) body else body.

Definition Login (isPost : bool) (body : string) : prog Call Outcome :=
  if negb isPost then inner body
  else
    let body := limited body in
    if isMFAFinishBody body then handleFinish body else handleBegin body.
End totp.
