(* ===== verification/TotpSafety.v ===== *)
(** * What the second factor guarantees, whatever runs at the same time

    The theorems about interleavings are about any pool of handlers: what the
    coordinator's critical sections keep of its maps and of the log of calls,
    and what a login's own calls say when it succeeds. *)

From Stdlib Require Import ZArith Lia Ascii.
From stdpp Require Import base list strings gmap relations.
From S2P Require Import Prelude GoStrings GoJson Prog Accounts Totp.

Local Open Scope Z_scope.
Local Open Scope prog_scope.

(** ** The log *)

Inductive Ev :=
| Marked (uid code : string) (t : Z) (fresh : bool)
| Saved (sid j : string) (t : Z)
| Consumed (sid : string) (j : option string) (t : Z)
| ReadUser (name : string) (r : result SvcError User)
| ReadRow (uid : string) (r : result SvcError UserTOTP)
| ReadClock (t : Z)
| WroteRow (row : UserTOTP) (r : result SvcError unit)
| Other.

Definition obs (X : Type) (c : Call X) (x : X) (w : World) : Ev :=
  match c in Call X return X -> Ev with
  | MarkReplay uid code => fun x => Marked uid code (clock w) x
  | SavePending j => fun sid => Saved sid j (clock w)
  | ConsumePending sid => fun j => Consumed sid j (clock w)
  | UserGetByUsername name => fun r => ReadUser name r
  | TotpGet uid => fun r => ReadRow uid r
  | TotpSet row => fun r => WroteRow row r
  | Now => fun t => ReadClock t
  | _ => fun _ => Other
  end x.

(** The calls that leave the coordinator's maps alone. *)
Definition touches {X} (c : Call X) : bool :=
  match c with MarkReplay _ _ | SavePending _ | ConsumePending _ => true | _ => false end.

Section log.
Context {cfg : Config}.
Variable ids : nat -> string.
Variable buffers : nat -> list (list Z).

Notation exec := (@exec cfg ids buffers).
Notation Log := (list (nat * Ev)).

Lemma exec_maps X (c : Call X) w : touches c = false ->
  replay (exec X c w).2 = replay w /\ pending (exec X c w).2 = pending w /\
  clock (exec X c w).2 = clock w /\ (draws w <= draws (exec X c w).2)%nat.
Proof.
  intros Ht. destruct c; try done; cbn [Accounts.exec];
    sql; repeat case_match; cbn; split_and!; lia || done.
Qed.

Lemma obs_other X (c : Call X) x w : touches c = false ->
  (forall u k t b, obs X c x w <> Marked u k t b) /\ (forall s j t, obs X c x w <> Saved s j t) /\
  (forall s j t, obs X c x w <> Consumed s j t).
Proof. destruct c; try done; intros _; split_and!; by intros. Qed.

(** ** A code is accepted once in its window *)

Definition key (uid code : string) : string := uid +:+ ":" +:+ code.

Record replay_ok (w : World) (l : Log) : Prop := {
  ro_live : forall i u k t, (i, Marked u k t true) ∈ l -> t <= clock w /\
    (clock w < t + replayTTL cfg -> exists exp, replay w !! key u k = Some exp /\ t + replayTTL cfg <= exp);
  ro_spaced : forall a b i j u k t t', l !! a = Some (i, Marked u k t true) ->
    l !! b = Some (j, Marked u k t' true) -> (a < b)%nat -> t + replayTTL cfg <= t';
}.

Lemma replay_ok_snoc w l i ev : replay_ok w l -> (forall u k t, ev <> Marked u k t true) ->
  replay_ok w (l ++ [(i, ev)]).
Proof.
  intros [H1 H2] Hev. split.
  - intros i' u k t [H|H%list_elem_of_singleton]%elem_of_app; [by apply (H1 i')|]. by injection H as _ <-; destruct (Hev u k t).
  - intros a b i' j u k t t' Ha Hb Hab. apply lookup_snoc_Some in Hb as [[Hb Hb']|[-> Hb]].
    + rewrite lookup_app_l in Ha by lia. by apply (H2 a b i' j u k).
    + injection Hb as _ Hb. by destruct (Hev u k t').
Qed.

Lemma replay_ok_world w w' l : replay_ok w l -> replay w' = replay w -> clock w' = clock w -> replay_ok w' l.
Proof.
  intros [H1 H2] E1 E2. split; [|done]. intros i u k t Hin. rewrite E1, E2. by apply (H1 i).
Qed.

Lemma replay_ok_mark w l i u k : replay_ok w l ->
  let '(b, w') := markReplay (cfg := cfg) w u k in replay_ok w' (l ++ [(i, Marked u k (clock w) b)]).
Proof.
  intros Hok. unfold markReplay. fold (key u k).
  assert (Hgo : (forall i' t, (i', Marked u k t true) ∈ l -> t + replayTTL cfg <= clock w) ->
    replay_ok (set_replay <[ key u k := clock w + replayTTL cfg ]> w) (l ++ [(i, Marked u k (clock w) true)])).
  { intros Hold. split.
    - intros i' u' k' t [H|H%list_elem_of_singleton]%elem_of_app; cbn [set_replay clock replay].
      + pose proof (ro_live _ _ Hok _ _ _ _ H) as [Ht Hexp]. split; [done|]. intros Hlt.
        destruct (decide (key u k = key u' k')) as [Ek|Ek].
        * exists (clock w + replayTTL cfg). rewrite Ek, lookup_insert_eq. split; [done|lia].
        * rewrite lookup_insert_ne by done. by apply Hexp.
      + injection H as -> -> -> ->. split; [lia|]. intros _. exists (clock w + replayTTL cfg).
        rewrite lookup_insert_eq. split; [done|lia].
    - intros a b i' j u' k' t t' Ha Hb Hab. apply lookup_snoc_Some in Hb as [[Hb Hb']|[-> Hb]].
      + rewrite lookup_app_l in Ha by lia. by apply (ro_spaced _ _ Hok a b i' j u' k').
      + injection Hb as -> <- <- <-. rewrite lookup_app_l in Ha by done.
        apply (Hold i'). by apply list_elem_of_lookup_2 in Ha. }
  assert (Hold : (forall exp, replay w !! key u k = Some exp -> exp <= clock w) ->
    forall i' t, (i', Marked u k t true) ∈ l -> t + replayTTL cfg <= clock w).
  { intros Hexp i' t Hin. apply (ro_live _ _ Hok) in Hin as [_ Hl].
    destruct (Z.lt_ge_cases (clock w) (t + replayTTL cfg)) as [Hlt|]; [|done].
    destruct (Hl Hlt) as (exp & He & ?). apply Hexp in He. lia. }
  destruct (replay w !! key u k) as [exp|] eqn:Er.
  - destruct (clock w <? exp) eqn:El; [by apply replay_ok_snoc|]. apply Z.ltb_ge in El.
    apply Hgo, Hold. by intros exp' [= <-].
  - apply Hgo, Hold. by intros.
Qed.

Lemma replay_ok_exec i X (c : Call X) w l : replay_ok w l ->
  let '(x, w') := exec X c w in replay_ok w' (l ++ [(i, obs X c x w)]).
Proof.
  intros Hok. destruct (touches c) eqn:Ht.
  - destruct c; try done; cbn [Accounts.exec obs].
    + pose proof (replay_ok_mark w l i uid code Hok) as H. by destruct (markReplay w uid code).
    + unfold savePending. apply replay_ok_snoc; [|done]. by eapply replay_ok_world.
    + unfold consumePending. destruct (pending w !! sid); (apply replay_ok_snoc; [|done]);
        [by eapply replay_ok_world|done].
  - destruct (exec_maps X c w Ht) as (E1 & _ & E3 & _). destruct (exec X c w) as [x w'] eqn:Ex. cbn [snd] in *.
    apply replay_ok_snoc; [by eapply replay_ok_world|]. intros u k t. by apply obs_other.
Qed.

Lemma replay_ok_env w w' l : replay_ok w l -> env w w' -> replay_ok w' l.
Proof.
  intros [H1 H2] He. destruct He as [w t Ht|w|w b]; split; try done.
  - intros i u k t' Hin. cbn [set_clock clock replay]. apply H1 in Hin as [? Hl]. split; [lia|]. intros ?.
    apply Hl. lia.
  - intros i u k t Hin. unfold gc. cbn [set_pending set_replay clock replay].
    apply H1 in Hin as [? Hl]. split; [done|]. intros Hlt. destruct (Hl Hlt) as (exp & He & ?).
    exists exp. split; [|done]. apply map_lookup_filter_Some. split; [done|]. cbn. lia.
Qed.

(** ** A pending identity is redeemed once *)

Definition drawn (w : World) (sid : string) : Prop := exists n, (n < draws w)%nat /\ sid = ids n.

Record pending_ok (w : World) (l : Log) : Prop := {
  po_saved : forall i sid j t, (i, Saved sid j t) ∈ l -> drawn w sid;
  po_pending : forall sid e, pending w !! sid = Some e ->
    (exists i t, (i, Saved sid (identityJSON e) t) ∈ l /\ t <= clock w /\ expires e = t + pendingTTL cfg) /\
    (forall i j t, (i, Consumed sid (Some j) t) ∉ l);
  po_consumed : forall b i sid j t, l !! b = Some (i, Consumed sid (Some j) t) -> t <= clock w /\
    exists a i' t0, (a < b)%nat /\ l !! a = Some (i', Saved sid j t0) /\ t0 <= t <= t0 + pendingTTL cfg;
  po_once : forall a b i i' sid j j' t t', l !! a = Some (i, Consumed sid (Some j) t) ->
    l !! b = Some (i', Consumed sid (Some j') t') -> a = b;
}.

Lemma drawn_le w w' sid : drawn w sid -> (draws w <= draws w')%nat -> drawn w' sid.
Proof. intros (n & Hn & ->) Hle. exists n. split; [lia|done]. Qed.

(** A call that neither saves nor redeems. *)
Lemma pending_ok_snoc w w' l i ev : pending_ok w l -> pending w' = pending w -> clock w <= clock w' ->
  (draws w <= draws w')%nat -> (forall s j t, ev <> Saved s j t) -> (forall s j t, ev <> Consumed s (Some j) t) ->
  pending_ok w' (l ++ [(i, ev)]).
Proof.
  intros [H1 H2 H3 H4] Ep Ec Ed Hs Hc. split.
  - intros i' sid j t [H|H%list_elem_of_singleton]%elem_of_app; [eapply drawn_le; [by eapply H1|done]|].
    injection H as _ E. by destruct (Hs sid j t).
  - intros sid e He. rewrite Ep in He. destruct (H2 sid e He) as [(i' & t & Hin & Ht & Hx) Hn]. split.
    + exists i', t. split; [by apply elem_of_app; left|]. split; [lia|done].
    + intros i0 j t0 [H|H%list_elem_of_singleton]%elem_of_app; [by eapply Hn|].
      injection H as _ E. by destruct (Hc sid j t0).
  - intros b i' sid j t Hb. apply lookup_snoc_Some in Hb as [[Hb Hb']|[-> Hb]].
    + destruct (H3 b i' sid j t Hb') as [Ht (a & i0 & t0 & Ha & Hl & ?)]. split; [lia|].
      exists a, i0, t0. split; [done|]. split; [|done]. by apply lookup_app_l_Some.
    + injection Hb as _ E. by destruct (Hc sid j t).
  - intros a b i1 i2 sid j j' t t' Ha Hb.
    apply lookup_snoc_Some in Ha as [[Ha Ha']|[-> Ha]]; [|injection Ha as _ E; by destruct (Hc sid j t)].
    apply lookup_snoc_Some in Hb as [[Hb Hb']|[-> Hb]]; [|injection Hb as _ E; by destruct (Hc sid j' t')].
    by eapply H4.
Qed.

Lemma pending_ok_save w l i j : (forall n m, ids n = ids m -> n = m) -> pending_ok w l ->
  let '(sid, w') := savePending (cfg := cfg) ids w j in pending_ok w' (l ++ [(i, Saved sid j (clock w))]).
Proof.
  intros Hinj [H1 H2 H3 H4]. unfold savePending.
  assert (Hfresh : ~ drawn w (ids (draws w))) by (intros (n & Hn & E); apply Hinj in E; lia).
  assert (Hlog : forall i' j' t, (i', Consumed (ids (draws w)) (Some j') t) ∉ l).
  { intros i' j' t Hin. apply list_elem_of_lookup in Hin as [b Hb].
    destruct (H3 b _ _ _ _ Hb) as [_ (a & i0 & t0 & _ & Ha & _)]. apply Hfresh, (H1 i0 _ j' t0).
    by apply list_elem_of_lookup_2 in Ha. }
  split.
  - intros i' sid j' t [H|H%list_elem_of_singleton]%elem_of_app.
    + eapply drawn_le; [by eapply H1|]. cbn. lia.
    + injection H as _ -> _ _. exists (draws w). split; [cbn; lia|done].
  - intros sid e He. cbn [set_pending draw pending clock] in *.
    apply lookup_insert_Some in He as [[<- <-]|[Hne He]].
    + split.
      * exists i, (clock w). split; [apply elem_of_app; right; by apply list_elem_of_singleton|]. split; [lia|done].
      * intros i0 j0 t0 [H|H%list_elem_of_singleton]%elem_of_app; [by eapply Hlog|done].
    + destruct (H2 sid e He) as [(i' & t & Hin & Ht & Hx) Hn]. split.
      * exists i', t. split; [by apply elem_of_app; left|done].
      * intros i0 j0 t0 [H|H%list_elem_of_singleton]%elem_of_app; [by eapply Hn|done].
  - intros b i' sid j' t Hb. apply lookup_snoc_Some in Hb as [[Hb Hb']|[-> Hb]]; [|done].
    destruct (H3 b i' sid j' t Hb') as [Ht (a & i0 & t0 & Ha & Hl & ?)]. split; [done|].
    exists a, i0, t0. split; [done|]. split; [|done]. by apply lookup_app_l_Some.
  - intros a b i1 i2 sid j1 j2 t t' Ha Hb.
    apply lookup_snoc_Some in Ha as [[Ha Ha']|[-> Ha]]; [|done].
    apply lookup_snoc_Some in Hb as [[Hb Hb']|[-> Hb]]; [|done]. by eapply H4.
Qed.

Lemma pending_ok_delete w l sid : pending_ok w l -> pending_ok (set_pending (delete sid) w) l.
Proof.
  intros [H1 H2 H3 H4]. split; [done| |done|done].
  intros s e He. cbn [set_pending pending] in He. apply lookup_delete_Some in He as [_ He]. by apply H2.
Qed.

Lemma pending_ok_consume w l i sid : pending_ok w l ->
  let '(j, w') := consumePending w sid in pending_ok w' (l ++ [(i, Consumed sid j (clock w))]).
Proof.
  intros Hok. unfold consumePending.
  assert (Hnone : forall w', pending_ok w' l -> clock w' = clock w ->
    pending_ok w' (l ++ [(i, Consumed sid None (clock w))])).
  { intros w' Hw' _. by eapply pending_ok_snoc. }
  destruct (pending w !! sid) as [e|] eqn:Ep; [|by apply Hnone].
  destruct (expires e <? clock w) eqn:Ee; [by apply Hnone; [apply pending_ok_delete|]|].
  apply Z.ltb_ge in Ee. pose proof Hok as [H1 H2 H3 H4].
  destruct (H2 sid e Ep) as [(i0 & t0 & Hin & Ht0 & Hx) Hn]. split.
  - intros i' s j t [H|H%list_elem_of_singleton]%elem_of_app; [by eapply H1|done].
  - intros s e' He. cbn [set_pending pending clock] in *. apply lookup_delete_Some in He as [Hne He].
    destruct (H2 s e' He) as [(i' & t & Hin' & Ht & Hx') Hn']. split.
    + exists i', t. split; [by apply elem_of_app; left|done].
    + intros i1 j1 t1 [H|H%list_elem_of_singleton]%elem_of_app; [by eapply Hn'|]. by injection H as _ ->.
  - intros b i' s j t Hb. cbn [set_pending clock]. apply lookup_snoc_Some in Hb as [[Hb Hb']|[-> Hb]].
    + destruct (H3 b i' s j t Hb') as [Ht (a & i1 & t1 & Ha & Hl & ?)]. split; [done|].
      exists a, i1, t1. split; [done|]. split; [|done]. by apply lookup_app_l_Some.
    + injection Hb as <- <- <- <-. split; [done|]. apply list_elem_of_lookup in Hin as [a Ha].
      exists a, i0, t0. split; [by eapply lookup_lt_Some|]. split; [by apply lookup_app_l_Some|lia].
  - assert (Hl : forall a i' j t, l !! a <> Some (i', Consumed sid (Some j) t)).
    { intros a i' j t Ha. apply (Hn i' j t). by apply list_elem_of_lookup_2 in Ha. }
    intros a b i1 i2 s j1 j2 t t' Ha Hb.
    apply lookup_snoc_Some in Ha as [[Ha Ha']|[-> Ha]]; apply lookup_snoc_Some in Hb as [[Hb Hb']|[-> Hb]].
    + by eapply H4.
    + injection Hb as _ <- _ _. by destruct (Hl _ _ _ _ Ha').
    + injection Ha as _ <- _ _. by destruct (Hl _ _ _ _ Hb').
    + done.
Qed.

Lemma pending_ok_exec i X (c : Call X) w l : (forall n m, ids n = ids m -> n = m) -> pending_ok w l ->
  let '(x, w') := exec X c w in pending_ok w' (l ++ [(i, obs X c x w)]).
Proof.
  intros Hinj Hok. destruct (touches c) eqn:Ht.
  - destruct c; try done; cbn [Accounts.exec obs].
    + unfold markReplay. repeat case_match; simplify_eq; by eapply pending_ok_snoc.
    + by apply (pending_ok_save w l i).
    + pose proof (pending_ok_consume w l i sid Hok) as H. by destruct (consumePending w sid).
  - destruct (exec_maps X c w Ht) as (_ & E2 & E3 & E4). destruct (obs_other X c (exec X c w).1 w Ht) as (_ & Hs & Hc).
    destruct (exec X c w) as [x w'] eqn:Ex. cbn [fst snd] in *. eapply pending_ok_snoc; [done|done|lia|done|done|].
    intros s j t. apply Hc.
Qed.

Lemma pending_ok_env w w' l : pending_ok w l -> env w w' -> pending_ok w' l.
Proof.
  intros [H1 H2 H3 H4] He. destruct He as [w t Ht|w|w b]; split; try done.
  - intros sid e He. destruct (H2 sid e He) as [(i' & t0 & Hin & Ht0 & Hx) Hn]. split; [|done].
    exists i', t0. split; [done|]. split; [cbn; lia|done].
  - intros b i sid j t' Hb. destruct (H3 b i sid j t' Hb) as [? ?]. split; [cbn; lia|done].
  - intros sid e He. unfold gc in He. cbn [set_pending set_replay pending] in He.
    apply map_lookup_filter_Some in He as [He _]. by apply H2.
Qed.
End log.

(** ** What a handler has seen when it succeeds *)

Section traces.
Variable bcryptGenerate : string -> string -> option string.
Variable bcryptCompare : string -> string -> bool.
Variable SecretFromBase32 : string -> option string.
Variable Verify : string -> string -> Z -> bool.
Variable encodeIdentity : AuthIdentity -> string.
Variable decodeIdentity : string -> option AuthIdentity.
Variable inner : string -> prog Call Outcome.

Notation VerifyForLogin := (VerifyForLogin bcryptCompare SecretFromBase32 Verify).
Notation Login := (Login bcryptCompare SecretFromBase32 Verify encodeIdentity decodeIdentity inner true true).
Notation trace := (trace obs).
Notation path := (path obs).

(** The row that was read, and the code it admits: the authenticator's, burned
    by this call, or a recovery code, taken off the row. *)
Inductive verified (uid code : string) (l : list Ev) : Prop :=
| by_authenticator row secret now t : ReadRow uid (Ok row) ∈ l -> Enabled row = true ->
    SecretFromBase32 (Secret row) = Some secret -> ReadClock now ∈ l -> Verify secret (TrimSpace code) now = true ->
    Marked uid (TrimSpace code) t true ∈ l -> verified uid code l
| by_recovery row n now : ReadRow uid (Ok row) ∈ l -> Enabled row = true ->
    match_code bcryptCompare (RecoveryCodes row) (ToLower (TrimSpace code)) = Some n ->
    WroteRow (set_row row true (take n (RecoveryCodes row) ++ drop (S n) (RecoveryCodes row)) (Some now)) (Ok tt) ∈ l ->
    verified uid code l.

Lemma get_row_trace uid l r : trace (get_row uid) l r ->
  exists r', l = [ReadRow uid r'] /\ r = match r' with Err ErrNotFound => Err ErrTOTPNotEnrolled | r' => r' end.
Proof. intros (x & s & l' & -> & -> & <-). by exists x. Qed.

Lemma VerifyForLogin_trace uid code l : trace (VerifyForLogin uid code) l (Ok tt) -> verified uid code l.
Proof.
  intros H. unfold Totp.VerifyForLogin, try in H.
  apply trace_bind in H as (l1 & l2 & r & -> & (r' & -> & ->)%get_row_trace & H).
  destruct r' as [row|e]; [|by destruct e, H].
  destruct (Enabled row) eqn:En; cbn [negb] in H; [|by destruct H].
  destruct (String.eqb (TrimSpace code) "") eqn:Ec; [by destruct H|].
  destruct (SecretFromBase32 (Secret row)) as [secret|] eqn:Es; [|by destruct H].
  destruct H as (now & s & l' & -> & H). cbn [bind call obs] in H.
  destruct (Verify secret (TrimSpace code) now) eqn:Ev.
  - destruct H as (fresh & s1 & l'' & -> & H). cbn [bind call obs] in H.
    destruct fresh; cbn [negb] in H; [|by destruct H].
    eapply by_authenticator; [| |exact Es| |exact Ev|]; [by left|done|right; left|right; right; left].
  - destruct (match_code bcryptCompare (RecoveryCodes row) (ToLower (TrimSpace code))) as [n|] eqn:Em; [|by destruct H].
    destruct H as (now' & s1 & l'' & -> & H). cbn [bind call obs] in H.
    destruct H as (x & s2 & l3 & -> & -> & ->).
    eapply by_recovery; [by left|done|exact Em|]. right; right; right; left.
Qed.

Definition no_save X (c : Call X) : Prop := match c with SavePending _ => False | _ => True end.

Definition saves (j : string) X (c : Call X) : Prop := match c with SavePending j' => j' = j | _ => True end.

Lemma makes_saved P {A} (p : prog Call A) l q sid j t : path p l q -> makes P p ->
  Saved sid j t ∈ l -> P _ (SavePending j).
Proof.
  intros H Hp Hin. destruct (path_makes obs P p l q Hp H _ Hin) as (X & e & x & s & E & HP).
  destruct e; try discriminate E. injection E as _ <- _. exact HP.
Qed.

(** What the two ways to an identity have seen. *)
Inductive released (body : string) (l : list Ev) (id : AuthIdentity) : Prop :=
| first_phase l1 l2 u r : l = l1 ++ l2 -> trace (inner body) l1 (Continue id) ->
    ReadUser (aSubject id) (Ok u) ∈ l2 -> ReadRow (ID u) r ∈ l2 ->
    (r = Err ErrNotFound \/ exists row, r = Ok row /\ Enabled row = false) -> released body l id
| second_phase sid code j t u : parseFinish body = Some (sid, code) -> Consumed sid (Some j) t ∈ l ->
    decodeIdentity j = Some id -> ReadUser (aSubject id) (Ok u) ∈ l -> verified (ID u) code l ->
    released body l id.

Lemma resolve_trace id l uid : trace (resolveUserID id) l (Ok uid) ->
  exists u, l = [ReadUser (aSubject id) (Ok u)] /\ uid = ID u.
Proof.
  unfold resolveUserID. destruct (String.eqb (aSubject id) ""); [by intros [_ ?]|].
  intros (x & s & l' & -> & H). cbn [bind call obs] in H. destruct x as [u|e]; [|by destruct H].
  destruct H as [-> [= <-]]. by exists u.
Qed.

Lemma enabled_trace uid l : trace (IsEnabledForUser uid) l (Ok false) ->
  exists r, l = [ReadRow uid r] /\ (r = Err ErrNotFound \/ exists row, r = Ok row /\ Enabled row = false).
Proof.
  intros (r & s & l' & -> & -> & H). exists r. split; [done|].
  destruct r as [row|e]; [right; exists row; split; congruence|left]. by destruct e.
Qed.

Lemma Login_trace body l id : trace (Login body) l (Continue id) -> released (limited body) l id.
Proof.
  unfold Totp.Login. cbn [negb]. generalize (limited body). clear body. intros body H.
  destruct (isMFAFinishBody body).
  - unfold handleFinish in H. cbn [negb] in H. destruct (parseFinish body) as [[sid code]|] eqn:Ep; [|by destruct H].
    destruct (String.eqb sid "" || String.eqb code ""); [by destruct H|].
    destruct H as (j & s & l' & -> & H). cbn [bind call obs] in H. destruct j as [j|]; [|by destruct H].
    destruct (decodeIdentity j) as [id'|] eqn:Ed; [|by destruct H].
    apply trace_bind in H as (l1 & l2 & r & -> & H1 & H). destruct r as [uid|]; [|by destruct H].
    apply resolve_trace in H1 as (u & -> & ->).
    apply trace_bind in H as (l3 & l4 & r & -> & H3 & H). destruct r as [[]|e]; [|by destruct H].
    destruct H as [-> [= ->]]. apply VerifyForLogin_trace in H3. rewrite app_nil_r.
    eapply (second_phase _ _ _ sid code j (clock s) u); [done|by left|done|right; by left|].
    assert (Hsub : forall ev, ev ∈ l3 -> ev ∈ Consumed sid (Some j) (clock s) :: [ReadUser (aSubject id) (Ok u)] ++ l3).
    { intros ev Hev. right. right. exact Hev. }
    destruct H3 as [row secret now t ? ? ? ? ? ?|row n now ? ? ? ?].
    + eapply by_authenticator; eauto.
    + eapply by_recovery; eauto.
  - unfold handleBegin in H. apply trace_bind in H as (l1 & l2 & o & -> & H1 & H).
    destruct o as [id'|st|sid]; [|by destruct H|by destruct H]. cbn [negb] in H.
    apply trace_bind in H as (l3 & l4 & r & -> & H3 & H). destruct r as [uid|]; [|by destruct H].
    apply resolve_trace in H3 as (u & -> & ->).
    apply trace_bind in H as (l5 & l6 & r & -> & H5 & H).
    destruct r as [[]|e]; [by destruct H as (? & ? & ? & _ & ? & ?)| |by destruct H].
    destruct H as [-> [= ->]]. apply enabled_trace in H5 as (r & -> & Hr). rewrite app_nil_r.
    eapply (first_phase _ _ _ l1 _ u r); [done|done|by left|right; by left|done].
Qed.

Ltac no_saves := repeat first
  [ progress cbn [makes bind call try] | split | done | intros ?
  | case_match ].

Lemma makes_VerifyForLogin uid code : makes (fun X c => no_save X c) (VerifyForLogin uid code).
Proof. unfold Totp.VerifyForLogin, get_row. no_saves. Qed.

(** An identity is only parked by a first phase that succeeded. *)
Lemma Login_saves body l q sid j t : (forall b, makes (fun X c => no_save X c) (inner b)) ->
  path (Login body) l q -> Saved sid j t ∈ l ->
  exists l1 l2 id, l = l1 ++ l2 /\ trace (inner (limited body)) l1 (Continue id) /\ j = encodeIdentity id.
Proof.
  intros Hinner. unfold Totp.Login. cbn [negb]. generalize (limited body). clear body. intros body H Hin.
  destruct (isMFAFinishBody body).
  - exfalso. refine (makes_saved (fun X c => no_save X c) _ _ _ sid j t H _ Hin).
    unfold handleFinish. cbn [negb]. destruct (parseFinish body) as [[s code]|]; [|done].
    destruct (_ || _); [done|]. cbn [bind call makes]. split; [done|]. intros [j'|]; [|done].
    destruct (decodeIdentity j'); [|done]. apply makes_bind; [unfold resolveUserID, GetUserByUsername; no_saves|].
    intros [uid|e]; [|done]. apply makes_bind; [apply makes_VerifyForLogin|]. by intros [|].
  - unfold handleBegin in H. apply path_bind in H as [(q' & -> & H)|(l1 & l2 & o & -> & H1 & H)].
    + exfalso. exact (makes_saved (fun X c => no_save X c) _ _ _ sid j t H (Hinner body) Hin).
    + apply elem_of_app in Hin as [Hin|Hin].
      { exfalso. assert (H1' : path (inner body) l1 (Ret o)) by by apply trace_path.
        exact (makes_saved (fun X c => no_save X c) _ _ _ sid j t H1' (Hinner body) Hin). }
      destruct o as [id|st|s]; cbn [negb] in H.
      * exists l1, l2, id. split; [done|]. split; [done|].
        refine (makes_saved (fun X c => saves (encodeIdentity id) X c) _ _ _ sid j t H _ Hin).
        apply makes_bind; [unfold resolveUserID, GetUserByUsername; no_saves|].
        intros [uid|e]; [|done]. apply makes_bind; [no_saves|]. intros [[]|]; no_saves.
      * exfalso. destruct l2; [by apply elem_of_nil in Hin|done].
      * exfalso. destruct l2; [by apply elem_of_nil in Hin|done].
Qed.
End traces.

(** ** Recovery codes, one verification after the other *)

Definition codes_of (w : World) (uid : string) : list string :=
  match totps w !! uid with Some row => RecoveryCodes row | None => [] end.

Definition rows_keyed (w : World) : Prop := forall uid row, totps w !! uid = Some row -> tUserID row = uid.

Section histories.
Context {cfg : Config}.
Variable ids : nat -> string.
Variable buffers : nat -> list (list Z).
Variable bcryptCompare : string -> string -> bool.
Variable SecretFromBase32 : string -> option string.
Variable Verify : string -> string -> Z -> bool.

Notation exec := (@exec cfg ids buffers).
Notation VerifyForLogin := (VerifyForLogin bcryptCompare SecretFromBase32 Verify).

Lemma run_step {A X} (e : Call X) (k : X -> prog Call A) w :
  run exec (Do e k) w = run exec (k (exec X e w).1) (exec X e w).2.
Proof. cbn [run]. by destruct (exec X e w). Qed.

Lemma match_code_spec codes code n : match_code bcryptCompare codes code = Some n ->
  exists h, codes !! n = Some h /\ bcryptCompare h code = true.
Proof.
  revert n. induction codes as [|h codes IH]; intros n H; [done|]. cbn [match_code] in H.
  destruct (bcryptCompare h code) eqn:Eh; [injection H as <-; by exists h|].
  destruct (match_code bcryptCompare codes code) as [m|]; [|done]. injection H as <-. by apply IH.
Qed.

(** A verification changes the codes of its user only: it takes off one that
    matches, and then it succeeds. *)
Inductive verify_effect (uid code : string) (w : World) : result SvcError unit -> World -> Prop :=
| effect_same r w' : rows_keyed w' -> (forall u, codes_of w' u = codes_of w u) ->
    (r = Ok tt -> exists secret, Verify secret (TrimSpace code) (clock w) = true) -> verify_effect uid code w r w'
| effect_burn w' n h : rows_keyed w' -> codes_of w uid !! n = Some h ->
    bcryptCompare h (ToLower (TrimSpace code)) = true ->
    codes_of w' uid = take n (codes_of w uid) ++ drop (S n) (codes_of w uid) ->
    (forall u, u <> uid -> codes_of w' u = codes_of w u) -> verify_effect uid code w (Ok tt) w'.

Lemma rows_keyed_set w row : rows_keyed w -> rows_keyed (set_totps <[ tUserID row := row ]> w).
Proof.
  intros Hk u r Hr. cbn [set_totps totps] in Hr. apply lookup_insert_Some in Hr as [[<- <-]|[_ Hr]]; [done|].
  by apply Hk.
Qed.

Lemma codes_of_set w row u : codes_of (set_totps <[ tUserID row := row ]> w) u =
  if decide (u = tUserID row) then RecoveryCodes row else codes_of w u.
Proof.
  unfold codes_of. cbn [set_totps totps]. case_decide as E.
  - by rewrite E, lookup_insert_eq.
  - by rewrite lookup_insert_ne.
Qed.

Lemma exec_set w row : exec _ (TotpSet row) w = (Ok tt, set_totps <[ tUserID row := row ]> w) \/
  exec _ (TotpSet row) w = (Err ErrInternal, w).
Proof. cbn. sql. repeat case_match; eauto. Qed.

Lemma exec_mark w uid code : exists b w', exec _ (MarkReplay uid code) w = (b, w') /\ totps w' = totps w /\
  clock w' = clock w.
Proof. cbn. unfold markReplay. repeat case_match; eauto 10. Qed.

Lemma VerifyForLogin_run uid code w : rows_keyed w ->
  verify_effect uid code w (run exec (VerifyForLogin uid code) w).1 (run exec (VerifyForLogin uid code) w).2.
Proof.
  intros Hk. assert (Herr : forall e, verify_effect uid code w (Err e) w) by (intros e; by apply effect_same).
  unfold Totp.VerifyForLogin, get_row, try, call. cbn [bind]. rewrite run_step. cbn [Accounts.exec]. sql.
  destruct (online w) eqn:Eo; [|cbn; apply Herr]. cbn [fst snd].
  destruct (totps w !! uid) as [row|] eqn:Er; [|cbn; apply Herr]. cbn [found bind].
  pose proof (Hk uid row Er) as Euid.
  destruct (Enabled row); [|cbn; apply Herr]. cbn [negb].
  destruct (String.eqb (TrimSpace code) ""); [cbn; apply Herr|].
  destruct (SecretFromBase32 (Secret row)) as [secret|]; [|cbn; apply Herr].
  rewrite run_step. cbn [Accounts.exec fst snd bind].
  destruct (Verify secret (TrimSpace code) (clock w)) eqn:Ev.
  - rewrite run_step. destruct (exec_mark w uid (TrimSpace code)) as (b & w1 & -> & Et & Ec). cbn [fst snd bind].
    assert (Hk1 : rows_keyed w1) by (intros u r; rewrite Et; apply Hk).
    assert (Hc1 : forall u, codes_of w1 u = codes_of w u) by (intros u; unfold codes_of; by rewrite Et).
    destruct b; cbn [negb]; [|by apply effect_same].
    rewrite run_step. cbn [Accounts.exec fst snd bind]. rewrite run_step.
    apply effect_same; [| |by exists secret].
    + destruct (exec_set w1 (set_row row true (RecoveryCodes row) (Some (clock w1)))) as [->| ->]; cbn [run fst snd]; [|done].
      by apply rows_keyed_set.
    + intros u. destruct (exec_set w1 (set_row row true (RecoveryCodes row) (Some (clock w1)))) as [->| ->]; cbn [run fst snd].
      * rewrite codes_of_set. cbn [set_row tUserID RecoveryCodes]. rewrite Euid. case_decide as E; [|done].
        subst u. unfold codes_of. by rewrite Er.
      * done.
  - destruct (match_code bcryptCompare (RecoveryCodes row) (ToLower (TrimSpace code))) as [n|] eqn:Em; [|cbn; apply Herr].
    apply match_code_spec in Em as (h & Eh & Hh). rewrite run_step. cbn [Accounts.exec fst snd bind]. rewrite run_step.
    destruct (exec_set w (set_row row true (take n (RecoveryCodes row) ++ drop (S n) (RecoveryCodes row)) (Some (clock w))))
      as [->| ->]; cbn [run fst snd]; [|apply Herr].
    assert (Ec : codes_of w uid = RecoveryCodes row) by (unfold codes_of; by rewrite Er).
    apply (effect_burn _ _ _ _ n h); [by apply rows_keyed_set|by rewrite Ec|done| |].
    + rewrite codes_of_set, Ec. cbn [set_row tUserID RecoveryCodes]. by rewrite decide_True.
    + intros u Hu. rewrite codes_of_set. cbn [set_row tUserID]. by rewrite decide_False by congruence.
Qed.

(** A history of verifications, each at its time. *)
Fixpoint verifications (h : list (string * string * Z)) (w : World) : list (result SvcError unit) * World :=
  match h with
  | [] => ([], w)
  | (uid, code, t) :: h =>
      let '(r, w) := run exec (VerifyForLogin uid code) (set_clock t w) in
      let '(rs, w) := verifications h w in (r :: rs, w)
  end.

(** How many stored hashes a code matches. *)
Definition matching (code : string) (l : list string) : nat :=
  length (List.filter (fun h => bcryptCompare h (ToLower (TrimSpace code))) l).

Definition accepted (uid code : string) (h : list (string * string * Z)) (rs : list (result SvcError unit)) : nat :=
  length (List.filter (fun x => String.eqb x.1.1.1 uid && String.eqb x.1.1.2 code && is_ok x.2) (combine h rs)).

Lemma matching_burn code l n h : l !! n = Some h ->
  (matching code (take n l ++ drop (S n) l) <= matching code l)%nat /\
  (bcryptCompare h (ToLower (TrimSpace code)) = true ->
   S (matching code (take n l ++ drop (S n) l)) = matching code l).
Proof.
  intros Hn. pose proof (take_drop_middle l n h Hn) as El.
  assert (E : matching code l = (matching code (take n l ++ drop (S n) l) +
    if bcryptCompare h (ToLower (TrimSpace code)) then 1 else 0)%nat).
  { rewrite <-El at 1. unfold matching. rewrite !List.filter_app, !length_app. cbn [List.filter].
    destruct (bcryptCompare h _); cbn [length]; lia. }
  rewrite E. destruct (bcryptCompare h _); split; (lia || by intros).
Qed.

Lemma matching_le uid code w uid' code' r w' : verify_effect uid' code' w r w' ->
  (matching code (codes_of w' uid) <= matching code (codes_of w uid))%nat.
Proof.
  intros [r' w1 _ Hc _|w1 n h _ Hn _ Hc Ho].
  - by rewrite Hc.
  - destruct (decide (uid = uid')) as [->|Hne]; [|by rewrite Ho]. rewrite Hc. by eapply matching_burn.
Qed.

Lemma verify_effect_clock uid code w t r w' : verify_effect uid code (set_clock t w) r w' ->
  rows_keyed w' /\ (forall u, codes_of (set_clock t w) u = codes_of w u).
Proof. by intros [? ? ? ? ?|? ? ? ? ? ? ? ?]. Qed.

Lemma verifications_count uid code : (forall secret t, Verify secret (TrimSpace code) t = false) ->
  forall h w, rows_keyed w ->
  (accepted uid code h (verifications h w).1 + matching code (codes_of (verifications h w).2 uid) <=
   matching code (codes_of w uid))%nat.
Proof.
  intros Hv. induction h as [|[[uid' code'] t] h IH]; intros w Hk; [cbn; lia|].
  cbn [verifications]. pose proof (VerifyForLogin_run uid' code' (set_clock t w) Hk) as He.
  destruct (run exec (VerifyForLogin uid' code') (set_clock t w)) as [r w1]. cbn [fst snd] in He.
  pose proof (matching_le uid code _ _ _ _ _ He) as Hle.
  destruct (verify_effect_clock _ _ _ _ _ _ He) as [Hk1 _]. specialize (IH w1 Hk1).
  destruct (verifications h w1) as [rs w2]. cbn [fst snd] in *.
  change (codes_of (set_clock t w) uid) with (codes_of w uid) in Hle.
  unfold accepted in *. cbn [combine List.filter fst snd].
  destruct (String.eqb uid' uid && String.eqb code' code && is_ok r) eqn:Em; [|lia].
  apply andb_true_iff in Em as [Em Hr]. apply andb_true_iff in Em as [<-%String.eqb_eq <-%String.eqb_eq].
  cbn [length]. destruct He as [r w1 _ _ Hsec|w1 n x _ Hn Hx Hc _].
  - destruct r as [[]|]; [|done]. destruct (Hsec eq_refl) as [secret Hs]. by rewrite Hv in Hs.
  - change (codes_of (set_clock t w) uid') with (codes_of w uid') in *. rewrite Hc in *.
    pose proof (proj2 (matching_burn code' _ _ _ Hn) Hx). lia.
Qed.
End histories.

(** ** Recovery codes are drawn uniformly *)

(** The bytes that are not rejected. *)
Definition kept (alphabet : string) (buf : list Z) : list Z := List.filter (fun b => b <? limit alphabet) buf.

Definition picks (alphabet : string) (bs : list Z) : string := String.string_of_list_ascii (pick alphabet <$> bs).

Lemma accept_spec alphabet buf : forall need,
  accept alphabet buf need = (picks alphabet (take need (kept alphabet buf)),
                              (need - length (kept alphabet buf))%nat).
Proof.
  induction buf as [|b buf IH]; intros need; cbn [accept kept List.filter].
  - by destruct need.
  - destruct need as [|need]; [done|]. fold (kept alphabet buf). rewrite Z.leb_antisym.
    destruct (b <? limit alphabet); cbn [negb]; [|apply IH]. rewrite IH. done.
Qed.

Lemma picks_app alphabet l l' : picks alphabet (l ++ l') = picks alphabet l +:+ picks alphabet l'.
Proof.
  unfold picks. rewrite fmap_app. induction (pick alphabet <$> l) as [|c s IH]; [done|].
  cbn [app String.string_of_list_ascii String.append]. by rewrite IH.
Qed.

Lemma random_spec alphabet bufs : forall n, randomFromAlphabet n alphabet bufs =
  if (n <=? length (kept alphabet (concat bufs)))%nat
  then Some (picks alphabet (take n (kept alphabet (concat bufs)))) else None.
Proof.
  induction bufs as [|buf bufs IH]; intros n; cbn [randomFromAlphabet concat].
  - destruct n; [done|]. done.
  - destruct n as [|n]; [by rewrite take_0|]. rewrite accept_spec. unfold kept at 3 4. rewrite List.filter_app.
    fold (kept alphabet buf) (kept alphabet (concat bufs)). rewrite length_app, IH.
    destruct (Nat.leb_spec (S n) (length (kept alphabet buf) + length (kept alphabet (concat bufs)))) as [Hle|Hgt].
    + rewrite (proj2 (Nat.leb_le _ _)) by lia. cbn [fmap option_fmap option_map].
      by rewrite take_app, picks_app.
    + rewrite (proj2 (Nat.leb_gt _ _)) by lia. done.
Qed.

Lemma picks_len alphabet l : len (picks alphabet l) = length l.
Proof. unfold picks, len. induction l as [|b l IH]; [done|]. cbn. by rewrite IH. Qed.

Lemma kept_none alphabet l : limit alphabet = 0 -> Forall (fun b => 0 <= b) l -> kept alphabet l = [].
Proof.
  intros Hl. unfold kept. rewrite Hl. induction 1 as [|b l Hb _ IH]; [done|]. cbn.
  destruct (Z.ltb_spec b 0); [lia|done].
Qed.

(** ** Properties *)

Section properties.
Context {cfg : Config}.
Variable ids : nat -> string.
Variable buffers : nat -> list (list Z).
Variable bcryptCompare : string -> string -> bool.
Variable SecretFromBase32 : string -> option string.
Variable Verify : string -> string -> Z -> bool.

Notation exec := (@exec cfg ids buffers).
Notation VerifyForLogin := (VerifyForLogin bcryptCompare SecretFromBase32 Verify).

(** C13: one code, one login: in any interleaving of any handlers with the
    clock and the background sweep, two verifications of the same user that
    succeed on the same authenticator code are a whole acceptance window
    apart. *)
Theorem code_accepted_once (ps : list (M unit)) w c i j uid code code' :
  rtc (step exec obs env) (start ps w) c -> i <> j ->
  ps !! i = Some (VerifyForLogin uid code) -> ps !! j = Some (VerifyForLogin uid code') ->
  TrimSpace code = TrimSpace code' ->
  (forall h, bcryptCompare h (ToLower (TrimSpace code)) = false) ->
  answer c i = Some (Ok tt) -> answer c j = Some (Ok tt) ->
  exists t t', (i, Marked uid (TrimSpace code) t true) ∈ log c /\
    (j, Marked uid (TrimSpace code) t' true) ∈ log c /\ Period cfg * (2 * Skew cfg + 1) <= Z.abs (t - t').
Proof.
  intros Hr Hij Hi Hj Ec Hno Ai Aj.
  assert (Hok : replay_ok (cfg := cfg) (shared c) (log c)).
  { refine (steps_inv exec obs env (replay_ok (cfg := cfg)) _ _ _ _ Hr _).
    - intros i' X e s l. by apply replay_ok_exec.
    - intros s s' l. by apply replay_ok_env.
    - split; [by intros ? ? ? ? ?%elem_of_nil|]. intros a b ? ? ? ? ? ? Ha. cbn [start log] in Ha. by rewrite lookup_nil in Ha. }
  assert (Hmark : forall i0 code0, TrimSpace code0 = TrimSpace code -> ps !! i0 = Some (VerifyForLogin uid code0) ->
    answer c i0 = Some (Ok tt) -> exists t, (i0, Marked uid (TrimSpace code) t true) ∈ log c).
  { intros i0 code0 E0 H0 A0. destruct (answer_trace exec obs env ps w c i0 _ Hr A0) as (p & Hp & Ht).
    rewrite H0 in Hp. injection Hp as <-. apply VerifyForLogin_trace in Ht.
    destruct Ht as [row secret now t _ _ _ _ _ Hm|row n now _ _ Hm _].
    - exists t. rewrite E0 in Hm. by apply of_thread_elem.
    - apply match_code_spec in Hm as (h & _ & Hh). rewrite E0 in Hh. by rewrite Hno in Hh. }
  destruct (Hmark i code eq_refl Hi Ai) as [t Hti], (Hmark j code' (eq_sym Ec) Hj Aj) as [t' Htj].
  exists t, t'. split; [done|]. split; [done|].
  apply list_elem_of_lookup in Hti as [a Ha], Htj as [b Hb]. unfold replayTTL in *.
  destruct (Nat.lt_trichotomy a b) as [Hlt|[->|Hlt]].
  - pose proof (ro_spaced _ _ Hok a b i j _ _ t t' Ha Hb Hlt) as H. unfold replayTTL in H. lia.
  - rewrite Ha in Hb. by injection Hb as ->.
  - pose proof (ro_spaced _ _ Hok b a j i _ _ t' t Hb Ha Hlt) as H. unfold replayTTL in H. lia.
Qed.

Lemma pool_pending {A} (ps : list (prog Call A)) w c : (forall n m, ids n = ids m -> n = m) ->
  rtc (step exec obs env) (start ps w) c -> pending w = ∅ -> pending_ok (cfg := cfg) ids (shared c) (log c).
Proof.
  intros Hinj Hr Hp. refine (steps_inv exec obs env (pending_ok (cfg := cfg) ids) _ _ _ _ Hr _).
  - intros i X e s l. by apply pending_ok_exec.
  - intros s s' l. by apply pending_ok_env.
  - cbn [start log shared]. split.
    + by intros ? ? ? ? ?%elem_of_nil.
    + intros sid e He. by rewrite Hp in He.
    + intros b ? ? ? ? Hb. by rewrite lookup_nil in Hb.
    + intros a b ? ? ? ? ? ? ? Ha. by rewrite lookup_nil in Ha.
Qed.

Variable encodeIdentity : AuthIdentity -> string.
Variable decodeIdentity : string -> option AuthIdentity.
Variable inner : string -> prog Call Outcome.

Notation Login := (Login bcryptCompare SecretFromBase32 Verify encodeIdentity decodeIdentity inner true true).

(** A thread of the server: a login, or any handler that parks no identity. *)
Definition server_thread (p : prog Call Outcome) : Prop :=
  (exists body, p = Login body) \/ makes (fun X c => no_save X c) p.

(** What a pool's thread [i] has proved of an identity it releases: either the
    user had no second factor when the first phase succeeded, or a code was
    verified for an identity that an earlier first phase of a thread [i0]
    parked, at most [pendingTTL] before, and that nobody else redeems. *)
Inductive proved (ps : list (prog Call Outcome)) (l : list (nat * Ev)) (i : nat) (body : string)
    (id : AuthIdentity) : Prop :=
| without_factor l1 l2 u r : of_thread i l = l1 ++ l2 -> trace obs (inner (limited body)) l1 (Continue id) ->
    (i, ReadUser (aSubject id) (Ok u)) ∈ l -> (i, ReadRow (ID u) r) ∈ l ->
    (r = Err ErrNotFound \/ exists row, r = Ok row /\ Enabled row = false) -> proved ps l i body id
| with_factor sid code j t u i0 body0 t0 l1 l2 : parseFinish (limited body) = Some (sid, code) ->
    (i, Consumed sid (Some j) t) ∈ l -> (forall i' j' t', (i', Consumed sid (Some j') t') ∈ l -> i' = i) ->
    (i, ReadUser (aSubject id) (Ok u)) ∈ l ->
    verified bcryptCompare SecretFromBase32 Verify (ID u) code (of_thread i l) ->
    ps !! i0 = Some (Login body0) -> (i0, Saved sid j t0) ∈ l -> t0 <= t <= t0 + pendingTTL cfg ->
    of_thread i0 l = l1 ++ l2 -> trace obs (inner (limited body0)) l1 (Continue id) -> proved ps l i body id.

(** C4: the second factor cannot be skipped: in any interleaving of logins
    with any other handlers, the clock and the sweep, a login that releases an
    identity has proved it ([proved]). *)
Theorem mfa_gate (ps : list (prog Call Outcome)) w c i body id :
  (forall n m, ids n = ids m -> n = m) -> (forall a, decodeIdentity (encodeIdentity a) = Some a) ->
  (forall b, makes (fun X c => no_save X c) (inner b)) ->
  pending w = ∅ -> Forall server_thread ps -> rtc (step exec obs env) (start ps w) c ->
  ps !! i = Some (Login body) -> answer c i = Some (Continue id) -> proved ps (log c) i body id.
Proof.
  intros Hinj Hdec Hinner Hp Hps Hr Hi Ha.
  pose proof (pool_pending ps w c Hinj Hr Hp) as Hok.
  destruct (answer_trace exec obs env ps w c i _ Hr Ha) as (p & Hpi & Ht). rewrite Hi in Hpi. injection Hpi as <-.
  apply Login_trace in Ht. destruct Ht as [l1 l2 u r El Ht Hu Hrow Hoff|sid code j t u Ep Hc Hd Hu Hv].
  - apply (without_factor _ _ _ _ _ l1 l2 u r); [done|done| | |done];
      (apply of_thread_elem; rewrite El; by apply elem_of_app; right).
  - apply of_thread_elem in Hc, Hu. pose proof Hc as [b Hb]%list_elem_of_lookup.
    destruct (po_consumed _ _ _ Hok b i sid j t Hb) as [_ (a & i0 & t0 & _ & Hs & Htime)].
    apply list_elem_of_lookup_2 in Hs.
    destruct (steps_path exec obs env ps w c Hr) as [Hlen Hpath].
    assert (Hex : exists p0 q0, ps !! i0 = Some p0 /\ path obs p0 (of_thread i0 (log c)) q0).
    { destruct (steps_owner exec obs env ps w c Hr i0 _ Hs) as (p0 & q0 & H1 & H2). eauto. }
    destruct Hex as (p0 & q0 & Hp0 & Hpa). apply of_thread_elem in Hs.
    rewrite Forall_lookup in Hps. destruct (Hps i0 p0 Hp0) as [[body0 ->]|Hno].
    + destruct (Login_saves _ _ _ _ _ _ _ _ _ _ _ _ Hinner Hpa Hs) as (l1 & l2 & id0 & El & Htr & ->).
      rewrite Hdec in Hd. injection Hd as ->. apply of_thread_elem in Hs.
      apply (with_factor _ _ _ _ _ sid code (encodeIdentity id) t u i0 body0 t0 l1 l2); try done.
      intros i' j' t' [b' Hb']%list_elem_of_lookup.
      pose proof (po_once _ _ _ Hok _ _ _ _ _ _ _ _ _ Hb Hb') as ->. rewrite Hb in Hb'. by injection Hb' as <-.
    + exfalso. exact (makes_saved (fun X c => no_save X c) _ _ _ _ _ _ Hpa Hno Hs).
Qed.

(** one after the other, recovery codes are single-use: in any history of
    verifications of any users, a code that no secret accepts as an
    authenticator's code succeeds at most as often as it matches stored
    hashes. *)
Theorem recovery_codes_burn uid code h w : rows_keyed w ->
  (forall secret t, Verify secret (TrimSpace code) t = false) ->
  (accepted uid code h (verifications (cfg := cfg) ids buffers bcryptCompare SecretFromBase32 Verify h w).1 <=
   matching bcryptCompare code (codes_of w uid))%nat.
Proof.
  intros Hk Hv. pose proof (verifications_count (cfg := cfg) ids buffers bcryptCompare SecretFromBase32 Verify uid code Hv h w Hk).
  lia.
Qed.

(** at the same time they are not: two verifications that both read the
    row before one of them writes it both succeed on the same recovery code. *)
Theorem recovery_code_raced uid code row secret n w :
  online w = true -> is_Some (users w !! uid) -> totps w !! uid = Some row -> tUserID row = uid ->
  Enabled row = true -> SecretFromBase32 (Secret row) = Some secret -> TrimSpace code <> "" ->
  Verify secret (TrimSpace code) (clock w) = false ->
  match_code bcryptCompare (RecoveryCodes row) (ToLower (TrimSpace code)) = Some n ->
  let c := play exec obs [0; 1; 0; 0; 0; 1; 1; 1]%nat (start [VerifyForLogin uid code; VerifyForLogin uid code] w) in
  answer c 0 = Some (Ok tt) /\ answer c 1 = Some (Ok tt).
Proof.
  intros Ho Hu Hrow Ek Hen Hs Hne Hv Hm.
  assert (Hc : String.eqb (TrimSpace code) "" = false) by (by apply String.eqb_neq).
  assert (Hsome : is_some (users w !! uid) = true) by (destruct Hu as [x ->]; done).
  assert (Hget : exec _ (TotpGet uid) w = (Ok row, w)) by (cbn; sql; by rewrite Ho, Hrow).
  assert (Hset : forall w' codes t, users w' = users w -> online w' = true ->
    exec _ (TotpSet (set_row row true codes t)) w' = (Ok tt, set_totps <[ uid := set_row row true codes t ]> w')).
  { intros w' codes t E1 E2. cbn. sql. cbn. by rewrite E2, Ek, E1, Hsome. }
  assert (Hnow : forall w', exec _ Now w' = (clock w', w')) by done.
  cbv zeta. unfold start, Totp.VerifyForLogin, get_row, try, call.
  erewrite play_turn; [|reflexivity|apply Hget]. cbn [bind insert list_insert].
  erewrite play_turn; [|reflexivity|apply Hget]. cbn [bind insert list_insert].
  rewrite Hen, Hc, Hs. cbn [negb].
  erewrite play_turn; [|reflexivity|apply Hnow]. cbn [insert list_insert]. rewrite Hv, Hm.
  erewrite play_turn; [|reflexivity|apply Hnow]. cbn [insert list_insert].
  erewrite play_turn; [|reflexivity|by apply Hset]. cbn [insert list_insert].
  erewrite play_turn; [|reflexivity|apply Hnow]. cbn [insert list_insert set_totps clock]. rewrite Hv.
  erewrite play_turn; [|reflexivity|apply Hnow]. cbn [insert list_insert].
  erewrite play_turn; [|reflexivity|by apply Hset]. done.
Qed.

(** an admin's reset can be undone: a verification that read the row
    before the reset writes it back, and the lost authenticator is required
    again although the reset reported success. *)
Theorem reset_undone admin uid code row secret w :
  online w = true -> is_Some (users w !! uid) -> uid <> "" -> admin <> uid -> totps w !! uid = Some row ->
  tUserID row = uid -> Enabled row = true -> SecretFromBase32 (Secret row) = Some secret ->
  TrimSpace code <> "" -> Verify secret (TrimSpace code) (clock w) = true ->
  replay w !! key uid (TrimSpace code) = None ->
  let c := play exec obs [0; 1; 1; 0; 0; 0; 0]%nat
    (start [VerifyForLogin uid code; AdminResetTOTP admin uid] w) in
  answer c 1 = Some (Ok tt) /\
  exists row', totps (shared c) !! uid = Some row' /\ Enabled row' = true /\ Secret row' = Secret row.
Proof.
  intros Ho [u Hu] Huid Hadm Hrow Ek Hen Hs Hne Hv Hrep.
  assert (Hc : String.eqb (TrimSpace code) "" = false) by (by apply String.eqb_neq).
  assert (Hu0 : String.eqb uid "" = false) by (by apply String.eqb_neq).
  assert (Ha : String.eqb admin uid = false) by (by apply String.eqb_neq).
  assert (Hmark : forall w', replay w' = replay w -> exec _ (MarkReplay uid (TrimSpace code)) w' =
    (true, set_replay <[ key uid (TrimSpace code) := clock w' + replayTTL cfg ]> w')).
  { intros w' E. cbn. unfold markReplay. fold (key uid (TrimSpace code)). by rewrite E, Hrep. }
  cbv zeta. unfold start, Totp.VerifyForLogin, get_row, AdminResetTOTP, try, call. rewrite Hu0, Ha.
  erewrite play_turn; [|reflexivity|cbn; sql; rewrite Ho, Hrow; reflexivity]. cbn [found bind insert list_insert].
  rewrite Hen, Hc, Hs. cbn [negb].
  erewrite play_turn; [|reflexivity|cbn; sql; rewrite Hu0, Ho, Hu; reflexivity].
  cbn [found bind insert list_insert].
  erewrite play_turn; [|reflexivity|cbn; sql; rewrite Ho, Hrow; reflexivity]. cbn [insert list_insert].
  erewrite play_turn; [|reflexivity|reflexivity]. cbn [insert list_insert set_totps clock]. rewrite Hv.
  erewrite play_turn; [|reflexivity|by apply Hmark].
  cbn [insert list_insert negb].
  erewrite play_turn; [|reflexivity|reflexivity]. cbn [insert list_insert].
  erewrite play_turn; [|reflexivity|cbn; sql; cbn; rewrite Ho, Ek, Hu; reflexivity]. cbn [insert list_insert].
  split; [done|]. exists (set_row row true (RecoveryCodes row) (Some (clock w))).
  split; [by apply lookup_insert_eq|done].
Qed.

End properties.

(** recovery codes are drawn without bias and the drawing ends: it
    delivers exactly the first accepted bytes, as soon as there are enough of
    them, and each character of the alphabet stands for the same number of
    accepted bytes. *)
Theorem recovery_codes_uniform n bufs :
  randomFromAlphabet n recoveryCodeAlphabet bufs =
    (let bytes := kept recoveryCodeAlphabet (concat bufs) in
     if (n <=? length bytes)%nat then Some (picks recoveryCodeAlphabet (take n bytes)) else None) /\
  NoDup (String.list_ascii_of_string recoveryCodeAlphabet) /\
  Forall (fun c => length (List.filter (fun b => (b <? limit recoveryCodeAlphabet) &&
                                          Ascii.eqb (pick recoveryCodeAlphabet b) c)
                             (Z.of_nat <$> seq 0 256)) = 8%nat)
    (String.list_ascii_of_string recoveryCodeAlphabet).
Proof.
  split; [apply random_spec|]. split.
  - apply (bool_decide_unpack _). by vm_compute.
  - apply (bool_decide_unpack _). by vm_compute.
Qed.

(** An alphabet whose length divides 256 would reject every byte. *)
Theorem alphabet_of_32_never_ends n alphabet bufs : len alphabet = 32%nat ->
  Forall (fun b => 0 <= b) (concat bufs) -> randomFromAlphabet (S n) alphabet bufs = None.
Proof.
  intros Hl Hb. rewrite random_spec, kept_none; [done| |done]. unfold limit. rewrite Hl. done.
Qed.

(** ** A concrete server *)

Definition demo_cfg : Config := {| Period := 30; Skew := 1; pendingTTL := 300 |}.

Definition demo_id (n : nat) : string := String "s" (Nat.iter n (String "a") "").

Lemma demo_id_inj n m : demo_id n = demo_id m -> n = m.
Proof.
  assert (Hl : forall k, len (demo_id k) = S k).
  { intros k. unfold demo_id. cbn [len String.length]. f_equal. induction k as [|k IH]; [done|]. cbn. by f_equal. }
  intros E. apply (f_equal len) in E. rewrite !Hl in E. lia.
Qed.

Definition demo_buffers (_ : nat) : list (list Z) := [Z.of_nat <$> seq 0 24].
Definition demo_hash (salt p : string) : option string := Some p.
Definition demo_secret (s : string) : option string := Some s.
Definition demo_verify (_ code : string) (_ : Z) : bool := String.eqb code "123456".

(** An identity as a string: a field's bytes are marked with "1" each and end
    with "0". *)
Fixpoint put_field (s rest : string) : string :=
  match s with "" => String "0" rest | String c s => String "1" (String c (put_field s rest)) end.

Fixpoint get_field (s : string) : option (string * string) :=
  match s with
  | String "1" (String c s) => (fun x => (String c x.1, x.2)) <$> get_field s
  | String _ s => Some ("", s)
  | "" => None
  end.

Lemma get_put s rest : get_field (put_field s rest) = Some (s, rest).
Proof. induction s as [|c s IH]; [done|]. cbn [put_field get_field]. by rewrite IH. Qed.

Fixpoint put_fields (l : list string) (rest : string) : string :=
  match l with [] => rest | s :: l => put_field s (put_fields l rest) end.

Fixpoint get_fields (n : nat) (s : string) : option (list string * string) :=
  match n with
  | O => Some ([], s)
  | S n => '(x, s) ← get_field s; '(l, s) ← get_fields n s; Some (x :: l, s)
  end.

Lemma get_put_fields l rest : get_fields (length l) (put_fields l rest) = Some (l, rest).
Proof. induction l as [|s l IH]; [done|]. cbn [put_fields length get_fields]. rewrite get_put. cbn. by rewrite IH. Qed.

Fixpoint unary (n : nat) : string := match n with O => "" | S n => String "1" (unary n) end.

Fixpoint put_pos (p : positive) : string :=
  match p with xH => "" | xO p => String "0" (put_pos p) | xI p => String "1" (put_pos p) end.

Fixpoint get_pos (s : string) : positive :=
  match s with "" => xH | String c s => if Ascii.eqb c "0" then xO (get_pos s) else xI (get_pos s) end.

Lemma get_put_pos p : get_pos (put_pos p) = p.
Proof. induction p as [p IH|p IH|]; cbn; congruence. Qed.

Lemma unary_len n : len (unary n) = n.
Proof. induction n as [|n IH]; [done|]. cbn. by f_equal. Qed.

Definition demo_encode (a : AuthIdentity) : string :=
  let l := [aSubject a; aName a; aProvider a] ++ aRoles a in
  put_field (unary (length l)) (put_fields l
    (match aIssuedAt a with Z0 => "z" | Zpos p => String "p" (put_pos p) | Zneg p => String "n" (put_pos p) end)).

Definition demo_decode (s : string) : option AuthIdentity :=
  '(n, s) ← get_field s; '(l, s) ← get_fields (len n) s;
  match l with
  | su :: na :: pr :: ro =>
      Some {| aSubject := su; aName := na; aProvider := pr; aRoles := ro;
              aIssuedAt := match s with
                           | String "p" s => Zpos (get_pos s) | String "n" s => Zneg (get_pos s) | _ => 0 end |}
  | _ => None
  end.

Lemma demo_decode_encode a : demo_decode (demo_encode a) = Some a.
Proof.
  unfold demo_decode, demo_encode. rewrite get_put. cbn [mbind option_bind]. rewrite unary_len, get_put_fields.
  cbn [mbind option_bind app]. destruct a as [su na pr ro [|p|p]]; cbn [aIssuedAt aSubject aName aProvider aRoles];
    [done| |]; by rewrite get_put_pos.
Qed.

Definition ann : User := {| ID := "u1"; Username := "ann"; PasswordHash := "hunter22"; Email := ""; DisplayName := "";
  External := false; Disabled := false; IsSuperadmin := false; DeniedCapabilities := []; CreatedAt := 0; UpdatedAt := 0 |}.

Definition ann_row : UserTOTP := {| tUserID := "u1"; Secret := "S"; Enabled := true;
  RecoveryCodes := ["abcd-efgh-jkmn"; "2222-3333-4444"]; tCreatedAt := 1; LastUsedAt := None |}.

Definition demo_world : World := {| users := {[ "u1" := ann ]}; identities := ∅; sessions := ∅;
  totps := {[ "u1" := ann_row ]}; replay := ∅; pending := ∅; clock := 1000; draws := 0; online := true |}.

Definition ann_identity : AuthIdentity :=
  {| aSubject := "ann"; aName := "ann"; aProvider := "local"; aRoles := []; aIssuedAt := 0 |}.

Definition demo_inner (_ : string) : prog Call Outcome := Ret (Continue ann_identity).

Definition phase2_body : string :=
  write (JObject [("totp_session_id", JString (demo_id 0)); ("code", JString "123456")]).

Definition demo_compare (h p : string) : bool := (10 <? len p)%nat && String.eqb h p.

Notation demo_login := (Login demo_compare demo_secret demo_verify demo_encode demo_decode demo_inner true true).
Notation demo_exec := (@exec demo_cfg demo_id demo_buffers).
Notation demo_VerifyForLogin := (VerifyForLogin demo_compare demo_secret demo_verify).

Lemma code_accepted_once_witness :
  let p := demo_VerifyForLogin "u1" " 123456" in
  let c := play demo_exec obs [1; 1; 1; 1; 1]%nat
    (let c := play demo_exec obs [0; 0; 0; 0; 0]%nat (start [p; p] demo_world) in
     {| threads := threads c; shared := set_clock 1100 (shared c); log := log c |}) in
  exists t t', (0%nat, Marked "u1" "123456" t true) ∈ log c /\ (1%nat, Marked "u1" "123456" t' true) ∈ log c /\
    90 <= Z.abs (t - t').
Proof.
  intros p c.
  apply (code_accepted_once (cfg := demo_cfg) demo_id demo_buffers demo_compare demo_secret demo_verify
           [p; p] demo_world c 0 1 "u1" " 123456" " 123456").
  - etrans; [|apply play_steps]. etrans; [apply (play_steps _ _ (@env))|]. apply rtc_once, step_env.
    apply env_tick. by vm_compute.
  - done.
  - reflexivity.
  - reflexivity.
  - reflexivity.
  - intros h. change (ToLower (TrimSpace " 123456")) with "123456". done.
  - vm_compute. reflexivity.
  - vm_compute. reflexivity.
Defined.

Lemma mfa_gate_witness :
  let ps := [demo_login "{}"; demo_login phase2_body] in
  let c := play demo_exec obs [0; 0; 0; 1; 1; 1; 1; 1; 1; 1]%nat (start ps demo_world) in
  answer c 0 = Some (Pending (demo_id 0)) /\
  proved (cfg := demo_cfg) demo_compare demo_secret demo_verify demo_encode demo_decode demo_inner ps (log c) 1
    phase2_body ann_identity.
Proof.
  intros ps c. split; [vm_compute; reflexivity|].
  apply (mfa_gate (cfg := demo_cfg) demo_id demo_buffers demo_compare demo_secret demo_verify demo_encode demo_decode
           demo_inner ps demo_world c 1 phase2_body ann_identity).
  - apply demo_id_inj.
  - apply demo_decode_encode.
  - done.
  - done.
  - apply Forall_cons; split; [left; by eexists|]. apply Forall_cons; split; [left; by eexists|done].
  - apply play_steps.
  - reflexivity.
  - vm_compute. reflexivity.
Defined.

Lemma recovery_codes_burn_witness :
  let h := [("u1", "ABCD-EFGH-JKMN", 5); ("u1", "2222-3333-4444", 6); ("u1", "ABCD-EFGH-JKMN", 7)] in
  let rs := (verifications (cfg := demo_cfg) demo_id demo_buffers demo_compare demo_secret demo_verify h demo_world).1 in
  rs = [Ok tt; Ok tt; Err ErrTOTPInvalidCode] /\ (accepted "u1" "ABCD-EFGH-JKMN" h rs <= 1)%nat.
Proof.
  intros h rs. split; [vm_compute; reflexivity|].
  apply (recovery_codes_burn (cfg := demo_cfg) demo_id demo_buffers demo_compare demo_secret demo_verify "u1"
           "ABCD-EFGH-JKMN" h demo_world).
  - intros uid row Hr. cbn [demo_world totps] in Hr. by apply lookup_singleton_Some in Hr as [<- <-].
  - intros secret t. done.
Defined.

Lemma recovery_code_raced_witness :
  let p := demo_VerifyForLogin "u1" "2222-3333-4444" in
  let c := play demo_exec obs [0; 1; 0; 0; 0; 1; 1; 1]%nat (start [p; p] demo_world) in
  answer c 0 = Some (Ok tt) /\ answer c 1 = Some (Ok tt).
Proof.
  apply (recovery_code_raced (cfg := demo_cfg) demo_id demo_buffers demo_compare demo_secret demo_verify "u1"
           "2222-3333-4444" ann_row "S" 1 demo_world); try reflexivity; [by eexists|].
  by apply (bool_decide_unpack _); vm_compute.
Defined.

Lemma reset_undone_witness :
  let c := play demo_exec obs [0; 1; 1; 0; 0; 0; 0]%nat
    (start [demo_VerifyForLogin "u1" "123456"; AdminResetTOTP "root" "u1"] demo_world) in
  answer c 1 = Some (Ok tt) /\
  exists row', totps (shared c) !! "u1" = Some row' /\ Enabled row' = true /\ Secret row' = "S".
Proof.
  apply (reset_undone (cfg := demo_cfg) demo_id demo_buffers demo_compare demo_secret demo_verify "root" "u1" "123456"
           ann_row "S" demo_world); try reflexivity; [by eexists|done|done|].
  by apply (bool_decide_unpack _); vm_compute.
Defined.

(** Overlapping enrolments: the page that finished is told the factor is on,
    and the one that began again has switched it off. *)
Definition as_unit {A} (p : M A) : M unit := x <-? p;; ok tt.

Definition enrolling_world : World := set_totps <[ "u1" := set_row ann_row false [] None ]> demo_world.

Theorem enrolment_lost :
  let c := play demo_exec obs ([0]%nat ++ replicate 40 1%nat ++ replicate 4 0%nat)
    (start [as_unit (BeginEnroll (fun s => s) (fun _ _ => "") "u1");
            as_unit (FinishEnroll demo_hash demo_secret demo_verify "u1" "123456")] enrolling_world) in
  answer c 0 = Some (Ok tt) /\ answer c 1 = Some (Ok tt) /\
  Enabled <$> totps (shared c) !! "u1" = Some false.
Proof. vm_compute. done. Qed.
