(* ===== verification/AccountsSafety.v ===== *)
(** * What the account service guarantees

    Handlers run one after the other keep an enabled superadmin, revoke
    sessions with a changed password, and find an external identity's user
    again; run at the same time, two demotions can leave no superadmin. *)

From Stdlib Require Import ZArith Lia Ascii.
From stdpp Require Import base list strings gmap relations.
From S2P Require Import Prelude GoStrings Prog Accounts.

Local Open Scope Z_scope.
Local Open Scope prog_scope.

Section accounts.
Context {cfg : Config}.
Variable ids : nat -> string.
Variable buffers : nat -> list (list Z).
Variable bcryptGenerate : string -> string -> option string.
Variable bcryptCompare : string -> string -> bool.
Variable bcryptCost : string -> option Z.

Notation exec := (@exec cfg ids buffers).
Notation run := (run exec).

Lemma run_Do {A X} (e : Call X) (k : X -> prog Call A) w :
  run (Do e k) w = run (k (exec X e w).1) (exec X e w).2.
Proof. cbn [Prog.run]. by destruct (exec X e w). Qed.

Lemma run_try {A B} (p : M A) (f : A -> M B) w :
  run (try p f) w = match run p w with (Ok a, w) => run (f a) w | (Err e, w) => (Err e, w) end.
Proof. unfold try. rewrite run_bind. destruct (run p w) as [[a|e] w']; done. Qed.

Lemma run_then {A B} (p : prog Call A) (f : A -> prog Call B) w :
  run (bind p f) w = let '(a, w) := run p w in run (f a) w.
Proof. apply run_bind. Qed.

Lemma run_call {X} (e : Call X) w : run (call e) w = exec X e w.
Proof. unfold call. rewrite run_Do. cbn [Prog.run]. by destruct (exec X e w). Qed.

Lemma run_seq {A X} (e : Call X) (f : X -> prog Call A) w :
  run (bind (call e) f) w = run (f (exec X e w).1) (exec X e w).2.
Proof. rewrite run_then, run_call. by destruct (exec X e w). Qed.

(** ** Superadmins *)

Definition is_super (u : User) : bool := IsSuperadmin u && negb (Disabled u).

Record has_super (w : World) : Prop := {
  hs_keyed : forall id u, users w !! id = Some u -> ID u = id;
  hs_some : exists u, users w !! ID u = Some u /\ is_super u = true;
}.

(** The calls that leave the users alone. *)
Definition keeps_users {X} (c : Call X) : bool :=
  match c with UserCreate _ | UserUpdate _ | UserDeleteRow _ => false | _ => true end.

Lemma exec_users X (c : Call X) w : keeps_users c = true -> users (exec X c w).2 = users w.
Proof.
  destruct c; try done; intros _; cbn [Accounts.exec];
    sql; unfold markReplay, savePending, consumePending; repeat case_match; done.
Qed.

Lemma has_super_users w w' : users w' = users w -> has_super w -> has_super w'.
Proof. intros E [H1 H2]. split; rewrite E; done. Qed.

(** A superadmin other than [id]. *)
Definition another (w : World) (id : string) : Prop :=
  exists u, users w !! ID u = Some u /\ is_super u = true /\ ID u <> id.

Lemma exec_update w u : has_super w ->
  (is_super u = true \/ (forall old, users w !! ID u = Some old -> is_super old = false) \/ another w (ID u)) ->
  has_super (exec _ (UserUpdate u) w).2.
Proof.
  intros Hw Hu. cbn [Accounts.exec]. sql. destruct (online w); [|done].
  destruct (users w !! ID u) as [old|] eqn:Eo; [|done]. destruct (taken w (Username u) (ID u)); [done|].
  cbn [snd]. destruct Hw as [Hk (v & Hv & Hs)]. pose proof (Hk _ _ Eo) as Eid. split; cbn [set_users users].
  - intros id x Hx. apply lookup_insert_Some in Hx as [[<- <-]|[_ Hx]]; [done|by apply Hk].
  - assert (Hother : another w (ID u) -> exists x, <[ ID u := updated old u ]> (users w) !! ID x = Some x /\ is_super x = true).
    { intros (x & Hx & Hxs & Hne). exists x. by rewrite lookup_insert_ne. }
    destruct Hu as [Hsu|[Hold|Hother']]; [| |by apply Hother].
    + exists (updated old u). cbn [updated ID]. rewrite Eid, lookup_insert_eq. split; [done|exact Hsu].
    + apply Hother. exists v. split; [done|]. split; [done|]. intros E. rewrite E, Eo in Hv.
      injection Hv as ->. by rewrite (Hold v eq_refl) in Hs.
Qed.

Lemma exec_create w u : has_super w -> has_super (exec _ (UserCreate u) w).2.
Proof.
  intros Hw. cbn [Accounts.exec]. sql. destruct (online w); [|done].
  destruct (users w !! ID u) as [old|] eqn:Eo; cbn [is_some orb]; [done|].
  destruct (is_some _); [done|]. cbn [snd]. destruct Hw as [Hk (v & Hv & Hs)]. split; cbn [set_users users].
  - intros id x Hx. apply lookup_insert_Some in Hx as [[<- <-]|[_ Hx]]; [done|by apply Hk].
  - exists v. split; [|done]. rewrite lookup_insert_ne; [done|]. intros E. congruence.
Qed.

Lemma exec_delete w id : has_super w ->
  ((forall old, users w !! id = Some old -> is_super old = false) \/ another w id) ->
  has_super (exec _ (UserDeleteRow id) w).2.
Proof.
  intros [Hk (v & Hv & Hs)] Hd. cbn [Accounts.exec]. sql. destruct (online w); [|by split; eauto].
  destruct (is_some (users w !! id)); [|by split; eauto]. cbn [snd].
  split; cbn [cascade set_totps set_identities set_users users].
  - intros i x Hx. apply lookup_delete_Some in Hx as [_ Hx]. by apply Hk.
  - destruct Hd as [Hold|(x & Hx & Hxs & Hne)].
    + exists v. split; [|done]. rewrite lookup_delete_ne; [done|]. intros E. rewrite <-E in Hv.
      specialize (Hold v Hv). congruence.
    + exists x. by rewrite lookup_delete_ne.
Qed.

(** The guard: it changes nothing, and when it passes the user is no enabled
    superadmin or there is another one. *)
Lemma guard_run id w : (forall i u, users w !! i = Some u -> ID u = i) ->
  let '(r, w') := run (guardLastSuperadmin id) w in w' = w /\
  (r = Ok tt -> (forall old, users w !! id = Some old -> is_super old = false) \/ another w id).
Proof.
  intros Hk. unfold guardLastSuperadmin. rewrite run_try. unfold call. rewrite run_Do. cbn [Prog.run fst snd Accounts.exec].
  sql. destruct (String.eqb id ""); [done|]. destruct (online w) eqn:Eo; [|done].
  destruct (users w !! id) as [u|] eqn:Eu; [|done]. cbn [found fst snd].
  destruct (negb (IsSuperadmin u) || Disabled u) eqn:Es.
  - cbn [Prog.run]. split; [done|]. intros _. left. intros old [= <-]. unfold is_super.
    by destruct (IsSuperadmin u), (Disabled u).
  - rewrite run_try, run_Do. cbn [Prog.run fst snd Accounts.exec]. sql. rewrite Eo. cbn [fst snd].
    destruct (existsb (other_super id) _) eqn:Ex; cbn [Prog.run]; [|done]. split; [done|]. intros _. right.
    apply existsb_exists in Ex as (v & Hv & Ho). apply list_elem_of_In in Hv.
    rewrite SliceStable_perm in Hv. apply list_elem_of_fmap in Hv as ([i v'] & -> & Hv).
    apply elem_of_map_to_list in Hv. cbn [snd] in *. unfold other_super in Ho.
    apply andb_true_iff in Ho as [Ho Hd]. apply andb_true_iff in Ho as [Hne Hsu].
    exists v'. rewrite (Hk _ _ Hv). split; [done|]. unfold is_super. rewrite Hsu, Hd. split; [done|].
    apply negb_true_iff, String.eqb_neq in Hne. by rewrite <-(Hk _ _ Hv).
Qed.

Notation hashPassword := (hashPassword bcryptGenerate).

(** Calls that cannot take a superadmin away. *)
Definition adds_only X (c : Call X) : Prop := match c with UserUpdate _ | UserDeleteRow _ => False | _ => True end.

Lemma adds_only_run {A} (p : prog Call A) w : makes adds_only p -> has_super w -> has_super (run p w).2.
Proof.
  apply (makes_run exec adds_only has_super). intros X c w' Hc Hw.
  destruct (keeps_users c) eqn:Ek.
  - apply (has_super_users w'); [by apply exec_users|done].
  - destruct c; try discriminate Ek; [by apply exec_create|destruct Hc|destruct Hc].
Qed.

Lemma quiet_run {A} (p : prog Call A) w : makes (fun X c => keeps_users (X := X) c = true) p ->
  users (run p w).2 = users w.
Proof.
  intros Hp. apply (makes_run exec (fun X c => keeps_users (X := X) c = true) (fun w' => users w' = users w)); [|done|done].
  intros X c w' Hc <-. by apply exec_users.
Qed.

Lemma byUsername_row w name u : (forall i x, users w !! i = Some x -> ID x = i) ->
  byUsername w name = Some u -> users w !! ID u = Some u /\ Username u = name.
Proof.
  intros Hk H. unfold byUsername in H. destruct (List.find _ _) as [[i x]|] eqn:E; [|done]. injection H as ->.
  apply List.find_some in E as [Hin Hn]. apply list_elem_of_In, elem_of_map_to_list in Hin.
  apply String.eqb_eq in Hn. by rewrite (Hk _ _ Hin).
Qed.

Lemma get_by_name w name : has_super w ->
  let '(r, w') := exec _ (UserGetByUsername name) w in w' = w /\ forall u, r = Ok u -> users w !! ID u = Some u.
Proof.
  intros Hw. cbn [Accounts.exec]. sql. destruct (String.eqb name ""); [done|].
  destruct (online w); [|done]. split; [done|]. intros u Hu. destruct (byUsername w name) as [x|] eqn:E; [|done].
  injection Hu as ->. by apply (byUsername_row w name u (hs_keyed _ Hw)).
Qed.

Lemma get_by_id w id : has_super w ->
  let '(r, w') := exec _ (UserGet id) w in w' = w /\ forall u, r = Ok u -> users w !! id = Some u /\ ID u = id.
Proof.
  intros Hw. cbn [Accounts.exec]. sql. destruct (String.eqb id ""); [done|].
  destruct (online w); [|done]. split; [done|]. intros u Hu. destruct (users w !! id) as [x|] eqn:E; [|done].
  injection Hu as ->. split; [done|]. by apply (hs_keyed _ Hw).
Qed.

(** An update that keeps who is a superadmin, of a row as it was read. *)
Lemma update_same w u v : has_super w -> users w !! ID u = Some u -> ID v = ID u ->
  (is_super u = true -> is_super v = true) -> has_super (exec _ (UserUpdate v) w).2.
Proof.
  intros Hw Hu Ev Hs. apply exec_update; [done|]. destruct (is_super v) eqn:Esv; [by left|right; left].
  intros old. rewrite Ev, Hu. intros [= <-]. by destruct (is_super u); [specialize (Hs eq_refl)|].
Qed.

Lemma rehash_super user pwd w : has_super w -> users w !! ID user = Some user ->
  has_super (run (rehashIfStale bcryptGenerate bcryptCost user pwd) w).2.
Proof.
  intros Hw Hu. unfold rehashIfStale. destruct (bcryptCost _) as [cost|]; [|done].
  destruct (passwordCost <=? cost); [done|]. rewrite run_then.
  assert (Ew : users (run (hashPassword pwd) w).2 = users w) by (by apply quiet_run).
  destruct (run (hashPassword pwd) w) as [[h|e] w1]; cbn [fst snd] in *;
    [|by eapply has_super_users].
  assert (Hw1 : has_super w1) by (by eapply has_super_users).
  unfold call. cbn [bind]. rewrite !run_Do. cbn [Prog.run snd].
  apply (update_same _ user); [exact Hw1|change (users w1 !! ID user = Some user); by rewrite Ew|done|done].
Qed.

Lemma Authenticate_super name pwd w : has_super w ->
  has_super (run (Authenticate bcryptGenerate bcryptCompare bcryptCost name pwd) w).2.
Proof.
  intros Hw. unfold Authenticate, call. cbn [bind]. rewrite run_Do.
  pose proof (get_by_name w name Hw) as H. destruct (exec _ (UserGetByUsername name) w) as [r w1].
  cbn [fst snd]. destruct H as [-> Hu]. destruct r as [u|e]; [|by destruct e].
  destruct (Disabled u); [done|]. destruct (negb _); [done|]. rewrite run_then.
  pose proof (rehash_super u pwd w Hw (Hu u eq_refl)) as H. by destruct (run (rehashIfStale _ _ u pwd) w).
Qed.

Lemma newHash_users user req w : users (run (newHash bcryptGenerate user req) w).2 = users w.
Proof.
  apply quiet_run. unfold newHash. destruct (rPassword req) as [p|]; [|done].
  by destruct (validatePassword p).
Qed.

Lemma another_users w w' id : users w' = users w -> another w id -> another w' id.
Proof. unfold another. by intros ->. Qed.

Lemma UpdateUser_super id req w : has_super w -> has_super (run (UpdateUser bcryptGenerate id req) w).2.
Proof.
  intros Hw. unfold UpdateUser. rewrite run_try. rewrite run_call.
  pose proof (get_by_id w id Hw) as H. destruct (exec _ (UserGet id) w) as [r w0]. cbn [fst snd].
  destruct H as [-> Hu]. destruct r as [user|]; [|done]. destruct (Hu user eq_refl) as [Hrow Hid].
  rewrite run_try. pose proof (newHash_users user req w) as E1.
  destruct (run (newHash bcryptGenerate user req) w) as [[hash|] w1]; cbn [fst snd] in *; [|by apply (has_super_users w)].
  assert (Hw1 : has_super w1) by (by apply (has_super_users w)).
  rewrite run_try.
  assert (Hg : exists r w2, run (if disables user req then guardLastSuperadmin id else ok tt) w1 = (r, w2) /\
    w2 = w1 /\ (r = Ok tt -> disables user req = true -> is_super user = false \/ another w1 id)).
  { destruct (disables user req); [|by eexists _, _].
    pose proof (guard_run id w1 (hs_keyed _ Hw1)) as H. destruct (run _ w1) as [r w2]. destruct H as [-> H].
    exists r, w1. split; [done|]. split; [done|]. intros -> _. destruct (H eq_refl) as [H'|]; [left|by right].
    apply H'. by rewrite E1. }
  destruct Hg as (r & w2 & -> & -> & Hg). cbn [fst snd]. destruct r as [[]|]; [|done].
  unfold call at 1. cbn [bind]. rewrite run_Do. cbn [fst snd]. rewrite run_try. unfold call at 1. rewrite run_Do.
  cbn [Prog.run fst snd].
  set (v := apply_request user req hash _).
  assert (Hup : has_super (exec _ (UserUpdate v) (exec Z Now w1).2).2).
  { apply exec_update; [exact Hw1|]. unfold v. cbn [apply_request ID]. rewrite Hid.
    change (users (exec Z Now w1).2) with (users w1). rewrite E1, Hrow.
    destruct (disables user req) eqn:Ed.
    - destruct (Hg eq_refl eq_refl) as [Hno|Ha]; [right; left; by intros old [= <-]|by right; right].
    - destruct (is_super user) eqn:Es; [left|right; left; by intros old [= <-]].
      unfold is_super, disables in *. cbn [apply_request IsSuperadmin Disabled].
      destruct (rDisabled req) as [[]|]; cbn [default] in *; destruct (IsSuperadmin user), (Disabled user); done. }
  destruct (exec _ (UserUpdate v) _) as [[[]|] w3]; cbn [fst snd] in *; [|done].
  destruct (disables user req); [|done]. rewrite run_seq. cbn [Prog.run snd].
  apply (has_super_users w3); [by apply exec_users|done].
Qed.

Lemma DeleteUser_super id w : has_super w -> has_super (run (DeleteUser id) w).2.
Proof.
  intros Hw. unfold DeleteUser. rewrite run_try. pose proof (guard_run id w (hs_keyed _ Hw)) as H.
  destruct (run (guardLastSuperadmin id) w) as [r w0]. destruct H as [-> Hg]. cbn [fst snd].
  destruct r as [[]|]; [|done]. rewrite run_try, run_call.
  assert (E : users (exec _ (SessionDeleteByUserID id) w).2 = users w) by (by apply exec_users).
  destruct (exec _ (SessionDeleteByUserID id) w) as [[[]|] w1]; cbn [fst snd] in *; [|by apply (has_super_users w)].
  rewrite run_call. apply exec_delete; [by apply (has_super_users w)|].
  rewrite E. destruct (Hg eq_refl) as [H|H]; [by left|right; by apply (another_users w)].
Qed.

Lemma SetUserSuperadmin_super id b w : has_super w -> has_super (run (SetUserSuperadmin id b) w).2.
Proof.
  intros Hw. unfold SetUserSuperadmin. rewrite run_try. rewrite run_call.
  pose proof (get_by_id w id Hw) as H. destruct (exec _ (UserGet id) w) as [r w0]. cbn [fst snd].
  destruct H as [-> Hu]. destruct r as [user|]; [|done]. destruct (Hu user eq_refl) as [Hrow Hid].
  destruct (Bool.eqb _ _); [done|]. rewrite run_try.
  assert (Hg : exists r w2, run (if b then ok tt else guardLastSuperadmin id) w = (r, w2) /\ w2 = w /\
    (r = Ok tt -> b = true \/ is_super user = false \/ another w id)).
  { destruct b; [by eexists _, _; eauto|]. pose proof (guard_run id w (hs_keyed _ Hw)) as H.
    destruct (run _ w) as [r w2]. destruct H as [-> H]. exists r, w. split; [done|]. split; [done|].
    intros ->. destruct (H eq_refl) as [H'|]; [right; left; by apply H'|by right; right]. }
  destruct Hg as (r & w2 & -> & -> & Hg). cbn [fst snd]. destruct r as [[]|]; [|done].
  rewrite run_seq, run_call. apply exec_update; [exact Hw|]. cbn [set_super ID]. rewrite Hid. change (users (exec Z Now w).2) with (users w).
  rewrite Hrow. destruct (Hg eq_refl) as [->|[Hno|Ha]].
  - unfold is_super. cbn [set_super IsSuperadmin Disabled]. destruct (Disabled user) eqn:Ed; [right; left|by left].
    intros old [= <-]. rewrite Ed. by rewrite andb_false_r.
  - right; left. by intros old [= <-].
  - by right; right.
Qed.

Lemma EnsureSuperadmin_super w : has_super w -> has_super (run EnsureSuperadmin w).2.
Proof.
  intros Hw. unfold EnsureSuperadmin. rewrite run_try. rewrite run_call.
  cbn [Accounts.exec]. sql. destruct (online w); [|done]. cbn [fst snd].
  destruct (SliceStable by_name (map_to_list (users w)).*2) as [|u us] eqn:El; [done|].
  destruct (existsb IsSuperadmin (u :: us)) eqn:Ex; [done|]. exfalso. destruct (hs_some _ Hw) as (v & Hv & Hs).
  assert (Hin : v ∈ u :: us).
  { rewrite <-El, SliceStable_perm. apply list_elem_of_fmap. exists (ID v, v). split; [done|].
    by apply elem_of_map_to_list. }
  assert (Ht : existsb IsSuperadmin (u :: us) = true); [|congruence].
  apply existsb_elem. exists v. split; [done|]. unfold is_super in Hs. by apply andb_true_iff in Hs as [? _].
Qed.

Lemma delete_sessions_quiet l keep : makes (fun X c => keeps_users (X := X) c = true) (delete_sessions l keep).
Proof. induction l as [|s l IH]; [done|]. cbn [delete_sessions]. by destruct (String.eqb _ _). Qed.

Lemma ChangeOwnPassword_super uid cur nxt keep w : has_super w ->
  has_super (run (ChangeOwnPassword bcryptGenerate bcryptCompare uid cur nxt keep) w).2.
Proof.
  intros Hw. unfold ChangeOwnPassword. destruct (String.eqb uid ""); [done|]. rewrite run_try.
  rewrite run_call. pose proof (get_by_id w uid Hw) as H. destruct (exec _ (UserGet uid) w) as [r w0]. cbn [fst snd].
  destruct H as [-> Hu]. destruct r as [user|]; [|done]. destruct (Hu user eq_refl) as [Hrow Hid].
  destruct (String.eqb (PasswordHash user) ""); [done|]. destruct (negb _); [done|]. destruct (negb _); [done|].
  rewrite run_try. assert (E1 : users (run (hashPassword nxt) w).2 = users w) by (by apply quiet_run).
  destruct (run (hashPassword nxt) w) as [[h|] w1]; cbn [fst snd] in *; [|by apply (has_super_users w)].
  assert (Hw1 : has_super w1) by (by apply (has_super_users w)).
  rewrite run_seq, run_try, run_call.
  assert (Hup : has_super (exec _ (UserUpdate (set_hash user h (exec Z Now w1).1)) (exec Z Now w1).2).2).
  { apply (update_same _ user); [exact Hw1| |done|done].
    change (users w1 !! ID user = Some user). by rewrite E1, Hid. }
  destruct (exec _ (UserUpdate _) _) as [[[]|] w3]; cbn [fst snd] in *; [|done].
  rewrite run_seq.
  assert (E4 : users (exec _ (SessionListByUserID uid) w3).2 = users w3) by (by apply exec_users).
  destruct (exec _ (SessionListByUserID uid) w3) as [[l|] w4]; cbn [fst snd] in *.
  - apply (has_super_users w3); [|done]. rewrite quiet_run by apply delete_sessions_quiet. done.
  - by apply (has_super_users w3).
Qed.

(** ** The service's operations *)

Variable isPrint : Z -> bool.

Inductive AdminOp :=
| OpCreate (name pwd : string) (superadmin : bool)
| OpBootstrap (name pwd : string)
| OpAuthenticate (name pwd : string)
| OpUpdate (id : string) (req : UpdateUserRequest)
| OpDelete (id : string)
| OpKick (id : string)
| OpSetSuper (id : string) (superadmin : bool)
| OpEnsure
| OpChangePassword (uid current next keep : string)
| OpExternal (linkByVerifiedEmail : bool) (i : ExternalIdentityInput).

Definition quietly {A} (p : prog Call A) : prog Call unit := _ <- p;; Ret tt.

Definition handle (op : AdminOp) : prog Call unit :=
  match op with
  | OpCreate name pwd b => quietly (createUser bcryptGenerate name pwd b)
  | OpBootstrap name pwd => quietly (BootstrapFirstUser bcryptGenerate name pwd)
  | OpAuthenticate name pwd => quietly (Authenticate bcryptGenerate bcryptCompare bcryptCost name pwd)
  | OpUpdate id req => quietly (UpdateUser bcryptGenerate id req)
  | OpDelete id => quietly (DeleteUser id)
  | OpKick id => quietly (KickUser id)
  | OpSetSuper id b => quietly (SetUserSuperadmin id b)
  | OpEnsure => quietly EnsureSuperadmin
  | OpChangePassword uid cur nxt keep => quietly (ChangeOwnPassword bcryptGenerate bcryptCompare uid cur nxt keep)
  | OpExternal l i => quietly (FindOrCreateExternalUser isPrint l i)
  end.

Lemma quietly_run {A} (p : prog Call A) w : (run (quietly p) w).2 = (run p w).2.
Proof. unfold quietly. rewrite run_then. by destruct (run p w). Qed.

Ltac all_calls := repeat first
  [ progress cbn [makes bind call try adds_only] | split | done | intros ? | case_match ].

Lemma createUser_adds name pwd b : makes adds_only (createUser bcryptGenerate name pwd b).
Proof. unfold createUser, Accounts.hashPassword. all_calls. Qed.

Lemma Bootstrap_adds name pwd : makes adds_only (BootstrapFirstUser bcryptGenerate name pwd).
Proof.
  unfold BootstrapFirstUser, try. cbn [bind call makes adds_only]. split; [done|].
  intros [n|]; [|done]. destruct (0 <? n); [done|]. apply makes_bind; [apply createUser_adds|].
  intros [info|]; all_calls.
Qed.

Lemma Upsert_adds i : makes adds_only (Upsert i).
Proof. unfold Upsert. all_calls. Qed.

Lemma Find_adds l i : makes adds_only (FindExternalUser l i).
Proof.
  unfold FindExternalUser, link_by_email, try. destruct (_ || _); [done|].
  cbn [bind call makes adds_only]. split; [done|]. intros [link|[]]; try done.
  - cbn [bind makes adds_only]. split; [done|]. intros [u|]; [|done]. destruct (Disabled u); [done|].
    apply makes_bind; [apply Upsert_adds|done].
  - destruct (_ && _); [|done]. cbn [bind makes adds_only]. split; [done|].
    intros [u|]; [|done]. destruct (Disabled u); [done|]. apply makes_bind; [apply Upsert_adds|by intros []].
Qed.

Lemma first_free_adds base l : makes adds_only (first_free base l).
Proof.
  induction l as [|n l IH]; [done|]. cbn [first_free call bind makes adds_only]. split; [done|].
  intros [u|[]]; done.
Qed.

Lemma FindOrCreate_adds l i : makes adds_only (FindOrCreateExternalUser isPrint l i).
Proof.
  unfold FindOrCreateExternalUser. apply makes_bind; [apply Find_adds|]. intros [info|[]]; try done.
  unfold provision, chooseExternalUsername, try. apply makes_bind; [apply first_free_adds|].
  intros [name|]; [|done]. cbn [bind call makes adds_only]. do 2 (split; [done|intros ?]). split; [done|].
  intros [u|]; [|done]. apply makes_bind; [apply Upsert_adds|by intros []].
Qed.

(** Rows under their ids, usernames distinct: the table's constraints. *)
Record rows_ok (w : World) : Prop := {
  rows_keyed : forall id u, users w !! id = Some u -> ID u = id;
  rows_names : forall id id' u u', users w !! id = Some u -> users w !! id' = Some u' ->
    Username u = Username u' -> id = id';
}.

Lemma not_taken w u : rows_ok w -> users w !! ID u = Some u -> taken w (Username u) (ID u) = false.
Proof.
  intros [Hk Hn] Hu. unfold taken. destruct (byUsername w (Username u)) as [x|] eqn:E; [|done].
  apply (byUsername_row w _ x Hk) in E as [Hx En]. by rewrite (Hn _ _ _ _ Hx Hu En), String.eqb_refl.
Qed.

Lemma set_super_ok w u b t : rows_ok w -> online w = true -> users w !! ID u = Some u ->
  exec _ (UserUpdate (set_super u b t)) w = (Ok tt, set_users <[ ID u := set_super u b t ]> w) /\
  rows_ok (set_users <[ ID u := set_super u b t ]> w).
Proof.
  intros Hok Ho Hu. split.
  - cbn [Accounts.exec]. sql. rewrite Ho. cbn [set_super ID Username]. rewrite Hu, not_taken by done.
    unfold updated. by destruct u.
  - destruct Hok as [Hk Hn]. split; cbn [set_users users].
    + intros id x Hx. apply lookup_insert_Some in Hx as [[<- <-]|[_ Hx]]; [done|by apply Hk].
    + assert (Hname : forall id x, <[ ID u := set_super u b t ]> (users w) !! id = Some x ->
        exists x', users w !! id = Some x' /\ Username x' = Username x).
      { intros id x Hx. apply lookup_insert_Some in Hx as [[<- <-]|[_ Hx]]; [by exists u|by exists x]. }
      intros id id' x x' Hx Hx' En. apply Hname in Hx as (y & Hy & Ey), Hx' as (y' & Hy' & Ey').
      apply (Hn _ _ _ _ Hy Hy'). congruence.
Qed.

(** C35: handlers that run one after the other never leave the server without
    an enabled superadmin, whatever is created, changed, disabled, demoted or
    deleted, and whether or not the database answers. *)
Theorem superadmin_remains ops w : has_super w ->
  has_super (foldl (fun w x => (run (handle x.2) (set_online x.1 w)).2) w ops).
Proof.
  revert w. induction ops as [|[b op] ops IH]; intros w Hw; [done|]. cbn [foldl fst snd]. apply IH.
  apply (has_super_users w (set_online b w) eq_refl) in Hw.
  destruct op; cbn [handle]; rewrite quietly_run.
  - apply adds_only_run; [apply createUser_adds|done].
  - apply adds_only_run; [apply Bootstrap_adds|done].
  - by apply Authenticate_super.
  - by apply UpdateUser_super.
  - by apply DeleteUser_super.
  - apply adds_only_run; [|done]. unfold KickUser. all_calls.
  - by apply SetUserSuperadmin_super.
  - by apply EnsureSuperadmin_super.
  - by apply ChangeOwnPassword_super.
  - apply adds_only_run; [apply FindOrCreate_adds|done].
Qed.

(** at the same time they can: two superadmins demoted by overlapping
    requests both pass the guard that protects the last one. *)
Theorem superadmins_race {Ev} (obs : forall X, Call X -> X -> World -> Ev) w a b ua ub :
  rows_ok w -> online w = true -> a <> b -> a <> "" -> b <> "" ->
  users w !! a = Some ua -> users w !! b = Some ub ->
  (forall id u, users w !! id = Some u -> is_super u = true <-> id = a \/ id = b) ->
  let c := play exec obs [0; 0; 0; 1; 1; 1; 0; 0; 1; 1]%nat
    (start [SetUserSuperadmin a false; SetUserSuperadmin b false] w) in
  answer c 0 = Some (Ok tt) /\ answer c 1 = Some (Ok tt) /\
  forall id u, users (shared c) !! id = Some u -> is_super u = false.
Proof.
  intros Hok Ho Hab Ha Hb Hua Hub Hs. pose proof Hok as [Hk Hn].
  pose proof (Hk _ _ Hua) as Ea. pose proof (Hk _ _ Hub) as Eb.
  assert (Hget : forall w' id u, users w' = users w -> online w' = true -> id <> "" -> users w !! id = Some u ->
    exec _ (UserGet id) w' = (Ok u, w')).
  { intros w' id u E1 E2 Hne Hu. cbn [Accounts.exec]. sql. apply String.eqb_neq in Hne.
    by rewrite Hne, E2, E1, Hu. }
  assert (Hsup : forall id u, users w !! id = Some u -> id = a \/ id = b -> IsSuperadmin u = true /\ Disabled u = false).
  { intros id u Hu Hid. apply (Hs id u Hu) in Hid. unfold is_super in Hid. apply andb_true_iff in Hid as [? ?].
    by destruct (Disabled u). }
  destruct (Hsup a ua Hua) as [Sa Da]; [by left|]. destruct (Hsup b ub Hub) as [Sb Db]; [by right|].
  set (us := SliceStable by_name (map_to_list (users w)).*2).
  assert (Hlist : exec _ UserList w = (Ok us, w)) by (cbn [Accounts.exec]; sql; by rewrite Ho).
  assert (Hother : forall id id' u, users w !! id' = Some u -> id' <> id -> IsSuperadmin u = true -> Disabled u = false ->
    existsb (other_super id) us = true).
  { intros id id' u Hu Hne Su Du. apply existsb_elem. exists u. split.
    - unfold us. rewrite SliceStable_perm. apply list_elem_of_fmap. exists (id', u). split; [done|].
      by apply elem_of_map_to_list.
    - unfold other_super. rewrite (Hk _ _ Hu), Su, Du. by apply String.eqb_neq in Hne as ->. }
  cbv zeta. unfold start, SetUserSuperadmin, guardLastSuperadmin, try, call.
  erewrite play_turn; [|reflexivity|by apply Hget]. cbn [bind insert list_insert]. rewrite Sa. cbn [Bool.eqb bind].
  erewrite play_turn; [|reflexivity|by apply Hget]. cbn [bind insert list_insert]. rewrite Sa, Da. cbn [negb orb bind].
  erewrite play_turn; [|reflexivity|apply Hlist]. cbn [bind insert list_insert].
  rewrite (Hother a b ub) by done. cbn [bind].
  erewrite play_turn; [|reflexivity|by apply Hget]. cbn [bind insert list_insert]. rewrite Sb. cbn [Bool.eqb bind].
  erewrite play_turn; [|reflexivity|by apply Hget]. cbn [bind insert list_insert]. rewrite Sb, Db. cbn [negb orb bind].
  erewrite play_turn; [|reflexivity|apply Hlist]. cbn [bind insert list_insert].
  rewrite (Hother b a ua) by done. cbn [bind].
  erewrite play_turn; [|reflexivity|reflexivity]. cbn [insert list_insert].
  destruct (set_super_ok w ua false (clock w) Hok Ho) as [Hu1 Hok1]; [by rewrite Ea|]. rewrite Ea in *.
  erewrite play_turn; [|reflexivity|apply Hu1]. cbn [insert list_insert].
  erewrite play_turn; [|reflexivity|reflexivity]. cbn [insert list_insert set_users clock].
  set (w1 := set_users _ w) in *.
  destruct (set_super_ok w1 ub false (clock w) Hok1 Ho) as [Hu2 _].
  { unfold w1. cbn [set_users users]. rewrite Eb. by rewrite lookup_insert_ne. }
  erewrite play_turn; [|reflexivity|apply Hu2]. split; [done|]. split; [done|]. cbn [play foldl shared].
  intros id u Hu. unfold w1 in Hu. cbn [set_users users] in Hu. rewrite Eb in Hu.
  apply lookup_insert_Some in Hu as [[_ <-]|[Hne Hu]]; [done|].
  apply lookup_insert_Some in Hu as [[_ <-]|[Hne' Hu]]; [done|].
  destruct (is_super u) eqn:Es; [|done]. apply (Hs id u Hu) in Es as [->| ->]; done.
Qed.

(** ** Sessions *)

Definition sessions_keyed (w : World) : Prop := forall sid s, sessions w !! sid = Some s -> sID s = sid.

Lemma delete_sessions_run l keep : forall w, online w = true ->
  let '(r, w') := run (delete_sessions l keep) w in
  r = Ok tt /\ users w' = users w /\
  forall sid, sessions w' !! sid = if decide (sid ∈ sID <$> l /\ sid <> keep) then None else sessions w !! sid.
Proof.
  clear bcryptCompare bcryptCost isPrint.
  induction l as [|s l IH]; intros w Ho; cbn [delete_sessions].
  - cbn [Prog.run]. split; [done|]. split; [done|]. intros sid. rewrite decide_False; [done|].
    by intros [H%elem_of_nil _].
  - destruct (String.eqb_spec (sID s) keep) as [E|E].
    + specialize (IH w Ho). destruct (run (delete_sessions l keep) w) as [r w']. destruct IH as (-> & Hu & IH).
      split; [done|]. split; [done|]. intros sid. rewrite IH. cbn [fmap list_fmap].
      apply decide_ext. rewrite elem_of_cons. naive_solver.
    + rewrite run_seq. cbn [Accounts.exec]. sql. rewrite Ho. cbn [fst snd].
      specialize (IH (set_sessions (delete (sID s)) w) Ho).
      destruct (run (delete_sessions l keep) _) as [r w']. destruct IH as (-> & Hu & IH).
      split; [done|]. split; [done|]. intros sid. rewrite IH. cbn [fmap list_fmap set_sessions sessions].
      destruct (decide (sid = sID s)) as [->|Hne].
      * rewrite lookup_delete_eq. rewrite (decide_True (P := _ ∈ sID s :: _ /\ _)) by (by split; [left|]).
        by case_decide.
      * rewrite lookup_delete_ne by done. apply decide_ext. rewrite elem_of_cons. naive_solver.
Qed.

Lemma hash_run pwd w : exists r w', run (hashPassword pwd) w = (r, w') /\ users w' = users w /\
  sessions w' = sessions w /\ online w' = online w /\ clock w' = clock w /\
  forall h, r = Ok h -> exists salt, bcryptGenerate salt pwd = Some h.
Proof.
  unfold Accounts.hashPassword. rewrite run_seq. cbn [Accounts.exec fst snd Prog.run].
  eexists _, _. split; [done|]. do 4 (split; [done|]). intros h.
  destruct (bcryptGenerate _ pwd) eqn:E; [intros [= <-]; eauto|done].
Qed.

(** a changed password revokes the user's other sessions: afterwards the
    only unexpired session of the user is the caller's own, the sessions of
    other users are as they were, and the row holds a hash of the new
    password. *)
Theorem password_change_revokes uid cur nxt keep w w' : rows_ok w -> online w = true -> sessions_keyed w ->
  run (ChangeOwnPassword bcryptGenerate bcryptCompare uid cur nxt keep) w = (Ok tt, w') ->
  (forall sid s, sessions w' !! sid = Some s -> sUserID s = uid -> clock w < ExpiresAt s -> sid = keep) /\
  (forall sid s, sessions w !! sid = Some s -> sUserID s <> uid \/ sid = keep -> sessions w' !! sid = Some s) /\
  exists u u' salt, users w !! uid = Some u /\ bcryptCompare (PasswordHash u) cur = true /\
    users w' !! uid = Some u' /\ bcryptGenerate salt nxt = Some (PasswordHash u').
Proof.
  clear bcryptCost isPrint. intros Hok Ho Hsk H. unfold ChangeOwnPassword in H. destruct (String.eqb uid "") eqn:E0; [done|].
  rewrite run_try, run_call in H. cbn [Accounts.exec] in H. sql in H. rewrite E0, Ho in H.
  destruct (users w !! uid) as [u|] eqn:Eu; [|done]. cbn [found] in H.
  destruct (String.eqb (PasswordHash u) ""); [done|].
  destruct (bcryptCompare (PasswordHash u) cur) eqn:Ec; [|done]. cbn [negb] in H.
  destruct (validatePassword nxt); [|done]. cbn [negb] in H. rewrite run_try in H.
  destruct (hash_run nxt w) as (r & w1 & Er & Eus & Ese & Eon & Ecl & Eh). rewrite Er in H.
  destruct r as [h|]; [|done]. destruct (Eh h eq_refl) as [salt Hsalt].
  rewrite run_seq, run_try, run_call in H. cbn [Accounts.exec fst snd] in H. sql in H. rewrite Eon, Ho in H.
  cbn [set_hash ID Username] in H. pose proof (rows_keyed _ Hok _ _ Eu) as Eid.
  rewrite Eid, Eus, Eu in H.
  assert (Ht : taken w1 (Username u) uid = false).
  { rewrite <-Eid. apply not_taken; [|by rewrite Eus, Eid]. destruct Hok as [Hk Hn]. split; rewrite Eus; done. }
  rewrite Ht in H. rewrite run_seq in H. cbn [Accounts.exec fst snd] in H. sql in H.
  cbn [set_users online sessions clock] in H. rewrite Eon, Ho in H. cbn [fst snd] in H.
  set (l := SliceStable newest _) in H. set (w2 := set_users _ w1) in H.
  pose proof (delete_sessions_run l keep w2) as Hd. cbn [w2 set_users online] in Hd.
  rewrite Eon in Hd. specialize (Hd Ho). rewrite H in Hd. destruct Hd as (_ & Hu & Hd).
  assert (Hl : forall sid s, sessions w !! sid = Some s -> sid ∈ sID <$> l <->
    sUserID s = uid /\ clock w < ExpiresAt s).
  { intros sid s Hs. unfold l. rewrite Ese, Ecl, list_elem_of_fmap. split.
    - intros (s' & -> & Hin). rewrite SliceStable_perm in Hin. apply list_elem_of_In, List.filter_In in Hin as [Hin Hf].
      apply list_elem_of_In, list_elem_of_fmap in Hin as ([k x] & -> & Hin). apply elem_of_map_to_list in Hin.
      cbn [snd] in *. pose proof (Hsk _ _ Hin) as <-. rewrite Hs in Hin. injection Hin as ->.
      apply andb_true_iff in Hf as [?%String.eqb_eq ?%Z.ltb_lt]. done.
    - intros [Hsu He]. exists s. split; [symmetry; by apply Hsk|]. rewrite SliceStable_perm.
      apply list_elem_of_In, List.filter_In. split.
      + apply list_elem_of_In, list_elem_of_fmap. exists (sid, s). split; [done|]. by apply elem_of_map_to_list.
      + apply andb_true_iff. split; [by apply String.eqb_eq|by apply Z.ltb_lt]. }
  assert (Hse : forall sid, sessions w2 !! sid = sessions w !! sid) by (intros sid; unfold w2; cbn; by rewrite Ese).
  split; [|split].
  - intros sid s Hs Hsu He. rewrite Hd, Hse in Hs. case_decide as Hc; [done|].
    destruct (decide (sid = keep)) as [|Hne]; [done|]. destruct Hc. split; [|done]. by apply (Hl sid s Hs).
  - intros sid s Hs Hor. rewrite Hd, Hse. rewrite decide_False; [done|]. intros [Hin Hne].
    apply (Hl sid s Hs) in Hin as [? _]. by destruct Hor.
  - eexists u, _, salt. split; [done|]. split; [done|]. rewrite Hu. unfold w2. cbn [set_users users].
    split; [apply lookup_insert_eq|done].
Qed.

(** ** External identities *)

Lemma str_take_prefix n a b : (n <= len a)%nat -> str_take n (a +:+ b) = str_take n a.
Proof.
  revert n. induction a as [|c a IH]; intros n Hn; cbn [len String.length] in Hn.
  - assert (n = O) as -> by lia. by destruct b.
  - destruct n as [|n]; [done|]. cbn. f_equal. apply IH. unfold len. lia.
Qed.

Lemma candidate_long base n : (32 <= len base)%nat -> username_candidate base n = str_take 32 base.
Proof.
  intros Hb. unfold username_candidate. destruct (Nat.ltb_spec 0 n).
  - destruct (Nat.ltb_spec 32 (len (base +:+ "_" +:+ itoa (Z.of_nat n + 1)))) as [|Hle].
    + by apply str_take_prefix.
    + rewrite !len_app in Hle. change (len "_") with 1%nat in Hle. lia.
  - destruct (Nat.ltb_spec 32 (len base)); [done|]. replace 32%nat with (len base) by lia. by rewrite str_take_len.
Qed.

(** a second external user whose name's first 32 bytes are taken is never
    provisioned: the counter that should make the name free is cut off with the
    rest, and all 100 attempts ask for the same name. *)
Theorem long_username_stuck i u w : online w = true -> (32 <= len (username_base isPrint i))%nat ->
  byUsername w (str_take 32 (username_base isPrint i)) = Some u ->
  run (chooseExternalUsername isPrint i) w = (Err ErrConflict, w).
Proof.
  intros Ho Hl Hu. unfold chooseExternalUsername. set (base := username_base isPrint i) in *.
  assert (Hne : String.eqb (str_take 32 base) "" = false).
  { apply String.eqb_neq. destruct base; [cbn in Hl; lia|done]. }
  induction (seq 0 100) as [|n l IH]; [done|]. cbn [first_free]. rewrite run_seq, candidate_long by done.
  cbn [Accounts.exec]. sql. rewrite Hne, Ho, Hu. exact IH.
Qed.

(** An identity that is linked to a user. *)
Definition linked (w : World) (i : ExternalIdentityInput) (u : User) : Prop :=
  exists l, identities w !! (exProvider i, exSubject i) = Some l /\ iUserID l = ID u /\
    users w !! ID u = Some u /\ ID u <> "".

Lemma Upsert_run w i uid id : online w = true ->
  (is_Some (users w !! uid) \/ is_Some (identities w !! (exProvider i, exSubject i))) ->
  exists row w', run (Upsert (link_of i id uid)) w = (Ok row, w') /\ users w' = users w /\ online w' = true /\
    identities w' !! (exProvider i, exSubject i) = Some row /\
    iUserID row = match identities w !! (exProvider i, exSubject i) with Some l => iUserID l | None => uid end.
Proof.
  intros Ho Hu. unfold Upsert. cbn [link_of iID iUserID Provider Subject iEmail iDisplayName].
  assert (Hgo : forall w0 id', users w0 = users w -> identities w0 = identities w -> online w0 = true ->
    exists row w', exec _ (IdentityUpsert {| iID := id'; iUserID := uid; Provider := exProvider i;
        Subject := exSubject i; iEmail := normalizeEmail (exEmail i); iDisplayName := exDisplayName i |}) w0 = (Ok row, w') /\
      users w' = users w /\ online w' = true /\ identities w' !! (exProvider i, exSubject i) = Some row /\
      iUserID row = match identities w !! (exProvider i, exSubject i) with Some l => iUserID l | None => uid end).
  { intros w0 id' E1 E2 E3. cbn [Accounts.exec]. sql. rewrite E3. cbn [Provider Subject iUserID].
    rewrite E1, E2. destruct (identities w !! (exProvider i, exSubject i)) as [l|] eqn:El.
    - eexists _, _. split; [done|]. do 2 (split; [done|]). split; [|done]. cbn. apply lookup_insert_eq.
    - destruct Hu as [[u Hu]|[? ?]]; [|done]. rewrite Hu. cbn [is_some]. eexists _, _. split; [done|].
      do 2 (split; [done|]). split; [|done]. cbn. apply lookup_insert_eq. }
  destruct (String.eqb id "").
  - rewrite run_seq. cbn [Accounts.exec fst snd]. rewrite run_call. by apply Hgo.
  - rewrite run_call. by apply Hgo.
Qed.

Lemma Find_linked l w i u : online w = true -> exProvider i <> "" -> exSubject i <> "" -> linked w i u ->
  Disabled u = false ->
  exists w', run (FindExternalUser l i) w = (Ok (toInfo u), w') /\ users w' = users w /\ online w' = true /\ linked w' i u.
Proof.
  intros Ho Hp%String.eqb_neq Hs%String.eqb_neq (x & Hx & Ex & Hu & Hne) Hd. unfold FindExternalUser.
  rewrite Hp, Hs. cbn [orb]. rewrite run_seq. cbn [Accounts.exec]. sql. rewrite Ho, Hx. cbn [found fst snd].
  rewrite run_try, run_call. cbn [Accounts.exec]. sql.
  rewrite Ex, (proj2 (String.eqb_neq _ _) Hne), Ho, Hu. cbn [found]. rewrite Hd, run_then.
  destruct (Upsert_run w i (ID u) (iID x) Ho) as (row & w' & -> & E1 & E2 & E3 & E4); [by right|].
  exists w'. split; [done|]. split; [done|]. split; [done|]. exists row. rewrite E1. rewrite Hx in E4.
  split; [done|]. split; [congruence|done].
Qed.

Lemma first_free_run base l w : run (first_free base l) w = (match (run (first_free base l) w).1 with r => r end, w).
Proof.
  induction l as [|n l IH]; [done|]. cbn [first_free]. rewrite run_seq. cbn [Accounts.exec].
  sql. destruct (String.eqb _ ""); [done|]. destruct (online w); [|done]. cbn [fst snd].
  destruct (byUsername w _); [exact IH|done].
Qed.

Lemma byEmail_row w e u : (forall i x, users w !! i = Some x -> ID x = i) -> byEmail w e = Some u ->
  users w !! ID u = Some u.
Proof.
  intros Hk H. unfold byEmail in H. destruct (List.find _ _) as [[k x]|] eqn:E; [|done]. injection H as ->.
  apply List.find_some in E as [Hin _]. apply list_elem_of_In, elem_of_map_to_list in Hin. cbn in *. by rewrite (Hk _ _ Hin).
Qed.

(** What the lookup finds, or that it found nothing and changed nothing. *)
Lemma Find_result l i w : online w = true -> rows_ok w -> users w !! "" = None ->
  let '(r, w') := run (FindExternalUser l i) w in
  match r with
  | Ok info => exists u, info = toInfo u /\ Disabled u = false /\ online w' = true /\ linked w' i u /\
                 exProvider i <> "" /\ exSubject i <> ""
  | Err ErrNotFound => (exists x, identities w !! (exProvider i, exSubject i) = Some x) \/
      (w' = w /\ identities w !! (exProvider i, exSubject i) = None /\ exProvider i <> "" /\ exSubject i <> "")
  | Err _ => True
  end.
Proof.
  intros Ho Hok He. unfold FindExternalUser.
  destruct (String.eqb_spec (exProvider i) "") as [|Hp]; [done|].
  destruct (String.eqb_spec (exSubject i) "") as [|Hs]; [done|]. cbn [orb].
  rewrite run_seq. cbn [Accounts.exec]. sql. rewrite Ho. cbn [fst snd].
  destruct (identities w !! (exProvider i, exSubject i)) as [x|] eqn:Ex; cbn [found].
  - rewrite run_try, run_call. cbn [Accounts.exec]. sql. rewrite Ho.
    destruct (String.eqb_spec (iUserID x) "") as [|Hx]; [by left; exists x|].
    destruct (users w !! iUserID x) as [u|] eqn:Eu; cbn [found]; [|by left; exists x].
    pose proof (rows_keyed _ Hok _ _ Eu) as Eid. destruct (Disabled u) eqn:Ed; [done|].
    rewrite run_then. destruct (Upsert_run w i (iUserID x) (iID x) Ho) as (row & w' & -> & E1 & E2 & E3 & E4); [by right|].
    cbn [Prog.run]. exists u. split; [done|]. split; [done|]. split; [done|]. split; [|done]. exists row.
    rewrite Ex in E4. split; [done|]. split; [congruence|]. rewrite E1, Eid. split; [done|congruence].
  - destruct (l && EmailVerified i && _) eqn:Ec; [|by cbn [Prog.run]; right].
    apply andb_true_iff in Ec as [_ Ee]. apply negb_true_iff in Ee.
    unfold link_by_email. rewrite run_seq. cbn [Accounts.exec]. sql. rewrite Ee, Ho. cbn [fst snd].
    destruct (byEmail w _) as [u|] eqn:Eu; cbn [found]; [|by cbn [Prog.run]; right].
    apply (byEmail_row w _ u (rows_keyed _ Hok)) in Eu. destruct (Disabled u) eqn:Ed; [done|].
    rewrite run_try. destruct (Upsert_run w i (ID u) "" Ho) as (row & w' & -> & E1 & E2 & E3 & E4); [left; by eexists|].
    cbn [Prog.run]. exists u. split; [done|]. split; [done|]. split; [done|]. split; [|done]. exists row.
    rewrite Ex in E4. split; [done|]. split; [done|]. rewrite E1. split; [done|]. intros E. rewrite E, He in Eu. done.
Qed.

(** an external identity keeps its user: when a login found or created a
    user for it, the next one finds the same user, and creates nothing. *)
Theorem external_login_stable l i w info w' : online w = true -> rows_ok w -> users w !! "" = None ->
  (forall n, ids n <> "") ->
  (forall x, identities w !! (exProvider i, exSubject i) = Some x -> is_Some (users w !! iUserID x)) ->
  run (FindOrCreateExternalUser isPrint l i) w = (Ok info, w') ->
  exists w2, run (FindOrCreateExternalUser isPrint l i) w' = (Ok info, w2) /\ users w2 = users w'.
Proof.
  intros Ho Hok He Hids Hfk H.
  assert (Hgo : exists u, info = toInfo u /\ Disabled u = false /\ online w' = true /\ linked w' i u /\
    exProvider i <> "" /\ exSubject i <> "").
  { unfold FindOrCreateExternalUser in H. rewrite run_then in H. pose proof (Find_result l i w Ho Hok He) as Hf.
    destruct (run (FindExternalUser l i) w) as [[info'|e] w1] eqn:Ef.
    { cbn [Prog.run] in H. by injection H as <- <-. }
    destruct e; try done. destruct Hf as [[x Hx]|(-> & Hnone & Hp & Hs)].
    { exfalso. destruct (Hfk x Hx) as [u Hu]. clear H. unfold FindExternalUser in Ef.
      destruct (_ || _); [done|]. rewrite run_seq in Ef. cbn [Accounts.exec] in Ef. sql in Ef.
      rewrite Ho, Hx in Ef. cbn [found fst snd] in Ef. rewrite run_try, run_call in Ef. cbn [Accounts.exec] in Ef.
      sql in Ef. rewrite Ho, Hu in Ef. destruct (String.eqb_spec (iUserID x) "") as [E|_].
      - rewrite E, He in Hu. done.
      - cbn [found] in Ef. destruct (Disabled u); [done|]. rewrite run_then in Ef. by destruct (run (Upsert _) w). }
    unfold provision in H. rewrite run_try in H. unfold chooseExternalUsername in H. rewrite first_free_run in H.
    destruct (run (first_free _ _) w).1 as [name|]; [|done].
    rewrite !run_seq, run_try, run_call in H. cbn [Accounts.exec fst snd] in H. sql in H.
    cbn [draw online users ID Username] in H. rewrite Ho in H.
    destruct (users w !! ids (draws w)) eqn:Eu; cbn [is_some orb] in H; [done|].
    destruct (is_some _); [done|]. rewrite run_try in H.
    set (u := {| ID := ids (draws w) |}) in *. set (w1 := set_users _ _) in H.
    destruct (Upsert_run w1 i (ID u) "" Ho) as (row & w2 & E & E1 & E2 & E3 & E4).
    { left. unfold w1. cbn. rewrite lookup_insert_eq. by eexists. }
    change (ids (draws w)) with (ID u) in H. rewrite E in H. cbn [Prog.run] in H. injection H as <- <-.
    exists u. split; [done|]. split; [done|]. split; [done|]. split; [|done]. exists row. split; [done|].
    change (identities w1) with (identities w) in E4. rewrite Hnone in E4. split; [done|]. rewrite E1. unfold w1. cbn.
    split; [apply lookup_insert_eq|apply Hids]. }
  destruct Hgo as (u & -> & Hd & Ho' & Hl & Hp & Hs).
  destruct (Find_linked l w' i u Ho' Hp Hs Hl Hd) as (w2 & E & Eu & _).
  exists w2. split; [|done]. unfold FindOrCreateExternalUser. by rewrite run_then, E.
Qed.
End accounts.

(** ** A concrete server *)

Definition sample_cfg : Config := {| Period := 30; Skew := 1; pendingTTL := 300 |}.
Definition sample_id (n : nat) : string := "id-" +:+ itoa (Z.of_nat n).
Definition sample_buffers (_ : nat) : list (list Z) := [].
Definition sample_hash (salt p : string) : option string := Some p.
Definition sample_cost (_ : string) : option Z := Some 12.
Definition sample_print (r : Z) : bool := 32 <=? r.

Definition sample_user (id name : string) (b : bool) : User :=
  {| ID := id; Username := name; PasswordHash := "password1"; Email := ""; DisplayName := ""; External := false;
     Disabled := false; IsSuperadmin := b; DeniedCapabilities := []; CreatedAt := 0; UpdatedAt := 0 |}.

Definition sample_session (id uid : string) : Session :=
  {| sID := id; sUserID := uid; sUsername := ""; Payload := ""; RefreshID := ""; sCreatedAt := 0; ExpiresAt := 9000 |}.

Definition long_name : string := "a-very-long-preferred-user-name-from-the-idp".

Definition sample_world : World := {|
  users := list_to_map [("u1", sample_user "u1" "ann" true); ("u2", sample_user "u2" "bob" true);
                        ("u3", sample_user "u3" (str_take 32 long_name) false)];
  identities := ∅; sessions := list_to_map [("s1", sample_session "s1" "u1"); ("s2", sample_session "s2" "u1");
                                           ("s3", sample_session "s3" "u2")];
  totps := ∅; replay := ∅; pending := ∅; clock := 1000; draws := 0; online := true |}.

Definition sample_input : ExternalIdentityInput :=
  {| exProvider := "idp"; exSubject := "42"; exEmail := "Eve@Example.org"; EmailVerified := true;
     exDisplayName := "Eve"; exUsername := "Eve!" |}.

Notation sample_exec := (@exec sample_cfg sample_id sample_buffers).

(** Checking the rows of a concrete world. *)
Definition rows_okb (w : World) : bool :=
  forallb (fun kv : string * User => String.eqb (ID kv.2) kv.1) (map_to_list (users w)) &&
  bool_decide (NoDup ((fun kv : string * User => Username kv.2) <$> map_to_list (users w))).

Lemma rows_okb_spec w : rows_okb w = true -> rows_ok w.
Proof.
  intros [H1 H2]%andb_true_iff. apply bool_decide_eq_true in H2. rewrite forallb_forall in H1.
  assert (Hk : forall id u, users w !! id = Some u -> ID u = id).
  { intros id u Hu. apply String.eqb_eq, (H1 (id, u)). by apply list_elem_of_In, elem_of_map_to_list. }
  split; [done|]. intros id id' u u' Hu Hu' E.
  apply elem_of_map_to_list, list_elem_of_lookup in Hu as [n Hn], Hu' as [n' Hn'].
  assert (En : n = n').
  { apply (NoDup_lookup _ n n' (Username u) H2); rewrite list_lookup_fmap; [by rewrite Hn|by rewrite Hn', E]. }
  rewrite En, Hn' in Hn. congruence.
Qed.

Lemma sample_rows : rows_ok sample_world.
Proof. apply rows_okb_spec. by vm_compute. Qed.

Lemma superadmin_remains_witness :
  let ops := [(true, OpSetSuper "u1" false); (true, OpSetSuper "u2" false); (false, OpDelete "u2");
              (true, OpDelete "u2"); (true, OpUpdate "u2" {| rUsername := None; rPassword := None; rEmail := None;
                rDisplayName := None; rDisabled := Some true |})] in
  has_super (foldl (fun w x => (run sample_exec (handle sample_hash String.eqb sample_cost sample_print x.2)
                                  (set_online x.1 w)).2) sample_world ops).
Proof.
  intros ops. apply (superadmin_remains (cfg := sample_cfg)). split; [apply (rows_keyed _ sample_rows)|].
  exists (sample_user "u1" "ann" true). split; by vm_compute.
Defined.

Lemma superadmins_race_witness :
  let c := play sample_exec (fun _ _ _ _ => tt) [0; 0; 0; 1; 1; 1; 0; 0; 1; 1]%nat
    (start [SetUserSuperadmin "u1" false; SetUserSuperadmin "u2" false] sample_world) in
  answer c 0 = Some (Ok tt) /\ answer c 1 = Some (Ok tt) /\
  forall id u, users (shared c) !! id = Some u -> is_super u = false.
Proof.
  apply (superadmins_race (cfg := sample_cfg) sample_id sample_buffers (fun _ _ _ _ => tt) sample_world "u1" "u2"
           (sample_user "u1" "ann" true) (sample_user "u2" "bob" true)); [apply sample_rows| | | | | | |];
    try done; try (by vm_compute).
  intros id u Hu. cbn [sample_world users list_to_map foldr fst snd] in Hu.
  apply lookup_insert_Some in Hu as [[<- <-]|[H1 Hu]]; [by split; [left|]|].
  apply lookup_insert_Some in Hu as [[<- <-]|[H2 Hu]]; [by split; [right|]|].
  apply lookup_insert_Some in Hu as [[<- <-]|[H3 Hu]]; [|done]. split; [done|]. intros [?|?]; congruence.
Defined.

Lemma password_change_revokes_witness :
  let w' := (run sample_exec (ChangeOwnPassword sample_hash String.eqb "u1" "password1" "password2" "s1") sample_world).2 in
  sessions w' !! "s2" = None /\
  forall sid s, sessions w' !! sid = Some s -> sUserID s = "u1" -> 1000 < ExpiresAt s -> sid = "s1".
Proof.
  intros w'. split; [by vm_compute|].
  apply (password_change_revokes (cfg := sample_cfg) sample_id sample_buffers sample_hash String.eqb "u1" "password1"
           "password2" "s1" sample_world w' sample_rows); [done| |].
  - intros sid s Hs. cbn [sample_world sessions list_to_map foldr fst snd] in Hs.
    repeat (apply lookup_insert_Some in Hs as [[<- <-]|[_ Hs]]; [done|]). done.
  - unfold w'. vm_compute. reflexivity.
Defined.

Lemma long_username_stuck_witness :
  run sample_exec (chooseExternalUsername sample_print
    {| exProvider := "idp"; exSubject := "43"; exEmail := ""; EmailVerified := false; exDisplayName := "";
       exUsername := long_name |}) sample_world = (Err ErrConflict, sample_world).
Proof.
  apply (long_username_stuck (cfg := sample_cfg) sample_id sample_buffers sample_print _
           (sample_user "u3" (str_take 32 long_name) false)).
  - done.
  - vm_compute. lia.
  - vm_compute. reflexivity.
Defined.

Lemma external_login_stable_witness :
  let f := FindOrCreateExternalUser sample_print true sample_input in
  let w' := (run sample_exec f sample_world).2 in
  exists w2, run sample_exec f w' =
    (Ok (toInfo {| ID := "id-0"; Username := "eve"; PasswordHash := ""; Email := "eve@example.org";
      DisplayName := "Eve"; External := true; Disabled := false; IsSuperadmin := false; DeniedCapabilities := [];
      CreatedAt := 1000; UpdatedAt := 1000 |}), w2) /\ users w2 = users w'.
Proof.
  intros f w'. apply (external_login_stable (cfg := sample_cfg) sample_id sample_buffers sample_print true sample_input
                        sample_world _ w'); [done|apply sample_rows|done|done|done|].
  unfold w', f. vm_compute. reflexivity.
Defined.
