(* ===== verification/RegistryConf.v ===== *)
(** * internal/service/registry.go, registry_validate.go, registry_listener.go

    The configuration of the registries: namespaces of repositories, the
    validator that runs before a repository is stored and the validator of the
    dedicated listeners.  An error is the repository (or listener) it names and
    what is wrong; the wording of messages is not kept.  The parsers of net/url,
    time and crypto/tls are parameters. *)

From Stdlib Require Import ZArith Lia Ascii.
From stdpp Require Import base list strings gmap.
From S2P Require Import Prelude GoStrings GoPath Policy.

Local Open Scope Z_scope.
Local Open Scope kutu_scope.

(** ** Data *)

Record RegistryUpstreamAuth := {
  aType : string; Username : string; Password : string; Token : string; Header : string; Value : string;
}.

Record RegistryUpstream := {
  uPrefix : string; uURL : string; uAuth : option RegistryUpstreamAuth; SSHKey : string;
}.

Record RegistryPrefetch := { Packages : list string; fInterval : string }.

Record RegistryReplication := {
  SourceURL : string; rpToken : string; rpInterval : string; rpDisabled : bool;
}.

Record RegistryRepository := {
  rName : string;
  Description : string;
  Type_ : string;
  Kind : string;
  Mount : string;
  BasePath : string;
  AllowPush : bool;
  URL : string;
  Auth : option RegistryUpstreamAuth;
  Upstreams : list RegistryUpstream;
  MutableTTL : string;
  FloatingTags : list string;
  InsecureSkipVerify : bool;
  Members : list string;
  DefaultLocal : string;
  CORSOrigins : list string;
  MaxUploadSize : Z;
  rPolicy : option RegistryPolicy;
  SigningKey : string;
  SigningKeyName : string;
  Prefetch : option RegistryPrefetch;
  Replication : option RegistryReplication;
}.

Record RegistryNamespace := {
  nName : string; nDescription : string; Repositories : list RegistryRepository;
}.

Record RegistrySettings := { rsDisabled : bool; Namespaces : list RegistryNamespace }.

Definition KnownRegistryTypes : list string :=
  ["go"; "npm"; "docker"; "helm"; "maven"; "pypi"; "cargo"; "generic"; "nuget"; "rubygems";
   "composer"; "terraform"; "pub"; "swift"; "apt"; "rpm"; "alpine"; "conda"; "huggingface";
   "conan"; "cran"; "vagrant"; "ansible"; "puppet"; "chef"; "cocoapods"; "bower"; "gitlfs"; "p2"].

Definition RegistryTypesWithPrefixUpstreams : list string := ["go"; "npm"; "maven"].
Definition RegistryTypesWithSigning : list string := ["apt"; "rpm"; "alpine"].

Definition registryTypeIn (t : string) (l : list string) : bool := existsb (String.eqb t) l.
Definition IsKnownRegistryType (t : string) : bool := existsb (String.eqb t) KnownRegistryTypes.

Definition DefaultRegistryNamespace : string := "default".

(** ** Errors *)

(** The repository and what is wrong with it. *)
Definition Invalid : Type := string * string.

Definition reject (b : bool) (who what : string) : result Invalid unit :=
  if b then Err (who, what) else Ok tt.

(** A loop that stops at the first error. *)
Fixpoint check_all {A} (f : A -> result Invalid unit) (l : list A) : result Invalid unit :=
  match l with
  | [] => Ok tt
  | x :: l => let! _ := f x in check_all f l
  end.

(** ** Names *)

Definition name_char (c : ascii) : bool :=
  is_lower c || is_digit c || Ascii.eqb c "-" || Ascii.eqb c "_".

(** A rune above 127 is refused like the bytes that spell it. *)
Definition validateRegistryName (name : string) : result Invalid unit :=
  let! _ := reject (String.eqb name "") name "empty" in
  let! _ := reject (64 <? len name)%nat name "exceeds 64 characters" in
  reject (negb (str_forallb name_char name)) name "invalid character".

(** ** internal/secretref: the references a credential may be *)

Fixpoint pointer_token (s : string) : bool :=
  match s with
  | "" => true
  | String "~" t =>
      match t with
      | String c _ => (Ascii.eqb c "0" || Ascii.eqb c "1") && pointer_token t
      | "" => false
      end
  | String _ t => pointer_token t
  end.

Definition ValidateSelector (selector : string) : bool :=
  match selector with
  | String "/" s => forallb pointer_token (Split s "/")
  | _ => false
  end.

(** The location, or None for an error. *)
Definition SplitRef (target : string) : option string :=
  let '(location, selector, has) := Cut target "#" in
  if String.eqb location "" then None
  else if has && negb (ValidateSelector selector) then None
  else Some location.

Definition validateRegistryAuthSecretValue (field value : string) : result Invalid unit :=
  if String.eqb value "" then Ok tt
  else
    let! _ := reject (HasPrefix value "secret://") field "unsupported secret:// reference" in
    let! _ := (if HasPrefix value "raw://" then
      match SplitRef (TrimPrefix value "raw://") with
      | None => Err (field, "raw:// reference is invalid")
      | Some ref =>
          let '(mount, rest, found) := Cut ref "/" in
          reject (negb found || String.eqb mount "" || String.eqb rest "") field "must be raw://mount/path"
      end else Ok tt) in
    if HasPrefix value "config://" then
      match SplitRef (TrimPrefix value "config://") with
      | None => Err (field, "config:// reference is invalid")
      | Some _ => Ok tt
      end
    else Ok tt.

Definition validateRegistryAuth (a : RegistryUpstreamAuth) : result Invalid unit :=
  if String.eqb (aType a) "basic" then
    let! _ := reject (String.eqb (Username a) "") "auth" "basic auth requires username" in
    let! _ := validateRegistryAuthSecretValue "basic username" (Username a) in
    validateRegistryAuthSecretValue "basic password" (Password a)
  else if String.eqb (aType a) "bearer" then
    let! _ := reject (String.eqb (Token a) "") "auth" "bearer auth requires token" in
    validateRegistryAuthSecretValue "bearer token" (Token a)
  else if String.eqb (aType a) "header" then
    let! _ := reject (String.eqb (Header a) "") "auth" "header auth requires header name" in
    let! _ := reject (String.eqb (Value a) "") "auth" "header auth requires value" in
    validateRegistryAuthSecretValue "header value" (Value a)
  else Err ("auth", "invalid auth type").

(** ** The fields a kind excludes *)

Definition nonempty (s : string) : bool := negb (String.eqb s "").
Definition filled {A} (l : list A) : bool := match l with [] => false | _ => true end.
Definition present {A} (o : option A) : bool := match o with Some _ => true | None => false end.

Definition validateRegistryKindFields (r : RegistryRepository) : result Invalid unit :=
  let no (b : bool) (f : string) := reject b (rName r) f in
  if String.eqb (Kind r) "local" then
    let! _ := no (nonempty (URL r)) "url" in
    let! _ := no (present (Auth r)) "auth" in
    let! _ := no (nonempty (MutableTTL r)) "mutable_ttl" in
    let! _ := no (filled (FloatingTags r)) "floating_tags" in
    let! _ := no (InsecureSkipVerify r) "insecure_skip_verify" in
    let! _ := no (filled (Members r)) "members" in
    no (nonempty (DefaultLocal r)) "default_local"
  else if String.eqb (Kind r) "remote" then
    let! _ := no (AllowPush r) "allow_push" in
    let! _ := no (filled (Members r)) "members" in
    no (nonempty (DefaultLocal r)) "default_local"
  else if String.eqb (Kind r) "virtual" then
    let! _ := no (nonempty (Mount r)) "mount" in
    let! _ := no (nonempty (BasePath r)) "base_path" in
    let! _ := no (AllowPush r) "allow_push" in
    let! _ := no (nonempty (URL r)) "url" in
    let! _ := no (present (Auth r)) "auth" in
    let! _ := no (nonempty (MutableTTL r)) "mutable_ttl" in
    let! _ := no (filled (FloatingTags r)) "floating_tags" in
    no (InsecureSkipVerify r) "insecure_skip_verify"
  else Ok tt.

(** ** Policies *)

Definition bad_pattern (pat : string) : bool := match Match pat "candidate" with None => true | Some _ => false end.

Definition immutable_pattern (r : RegistryRepository) (pat : string) : result Invalid unit :=
  let trimmed := TrimSpace pat in
  let! _ := reject (String.eqb trimmed "") (rName r) "immutable_tags: empty pattern" in
  let! _ := reject (negb (String.eqb pat trimmed)) (rName r) "immutable_tags: spaces" in
  let! _ := reject (Contains pat "/") (rName r) "immutable_tags: a path" in
  reject (bad_pattern pat) (rName r) "immutable_tags: invalid pattern".

Definition filter_pattern (r : RegistryRepository) (pat : string) : result Invalid unit :=
  let! _ := reject (String.eqb (TrimSpace pat) "") (rName r) "include/exclude: empty pattern" in
  reject (bad_pattern (TrimSuffix pat "**" +:+ "x")) (rName r) "include/exclude: invalid pattern".

Definition validate_retention (r : RegistryRepository) (t : RegistryRetentionPolicy) : result Invalid unit :=
  let! _ := reject (negb (String.eqb (Kind r) "local")) (rName r) "retention: not local" in
  let! _ := reject (negb (String.eqb (Type_ r) "docker") &&
                    (negb (GCMinAgeSeconds t =? 0) || negb (AbandonedUploadMaxAgeSeconds t =? 0)))
                   (rName r) "retention: GC settings outside docker" in
  let! _ := reject ((KeepLastVersions t <? 0) || (MaxVersionAgeDays t <? 0)) (rName r) "retention: negative" in
  let! _ := check_all (fun pat => reject (bad_pattern pat || String.eqb (TrimSpace pat) "")
                                         (rName r) "retention: keep pattern") (KeepPatterns t) in
  let! _ := reject (GCMinAgeSeconds t <? 0) (rName r) "retention: gc_min_age_seconds" in
  reject (AbandonedUploadMaxAgeSeconds t <? 0) (rName r) "retention: abandoned_upload_max_age_seconds".

Definition severity_known (s : string) : bool :=
  existsb (String.eqb (ToLower s)) [""; "low"; "moderate"; "medium"; "high"; "critical"].

Definition validateRegistryPolicy (r : RegistryRepository) : result Invalid unit :=
  match rPolicy r with
  | None => Ok tt
  | Some p =>
      let! _ := (if filled (ImmutableTags p) then
        let! _ := reject (negb (String.eqb (Type_ r) "docker") || negb (String.eqb (Kind r) "local"))
                         (rName r) "immutable_tags: not docker local" in
        check_all (immutable_pattern r) (ImmutableTags p) else Ok tt) in
      let! _ := match Retention p with None => Ok tt | Some t => validate_retention r t end in
      let! _ := check_all (check_all (filter_pattern r)) [Include p; Exclude p] in
      let! _ := reject (QuotaBytes p <? 0) (rName r) "quota_bytes" in
      let! _ := reject (QuarantineDays p <? 0) (rName r) "quarantine_days" in
      let! _ := reject (negb (severity_known (MinSeverity p))) (rName r) "min_severity" in
      let! _ := reject (RequireSignature p && negb (String.eqb (Type_ r) "docker")) (rName r) "require_signature" in
      reject ((ImmutableVersions p || (0 <? QuotaBytes p)) && negb (String.eqb (Kind r) "local"))
             (rName r) "immutable_versions / quota_bytes"
  end.

(** ** Repositories *)

Section validate.
(** [url.Parse] succeeds with a host and the scheme http or https;
    [time.ParseDuration], in nanoseconds. *)
Variable http_url : string -> bool.
Variable ParseDuration : string -> option Z.

Definition Minute : Z := 60 * 10 ^ 9.

Definition interval_ok (s : string) : bool :=
  String.eqb s "" || match ParseDuration s with Some d => Minute <=? d | None => false end.

(** The loop over the upstreams, with the prefixes seen. *)
Fixpoint upstreams_go (r : RegistryRepository) (seen : gset string) (l : list RegistryUpstream)
    : result Invalid unit :=
  match l with
  | [] => Ok tt
  | u :: l =>
      let! _ := reject (String.eqb (uPrefix u) "") (rName r) "upstream requires a prefix" in
      let! _ := reject (bool_decide (uPrefix u ∈ seen)) (rName r) "duplicate upstream prefix" in
      let! _ := reject (String.eqb (uURL u) "") (rName r) "upstream requires url" in
      let! _ := reject (negb (http_url (uURL u))) (rName r) "upstream url must be http(s)" in
      let! _ := match uAuth u with Some a => validateRegistryAuth a | None => Ok tt end in
      upstreams_go r ({[uPrefix u]} ∪ seen) l
  end.

Definition validateRegistryUpstreams (r : RegistryRepository) : result Invalid unit :=
  if negb (filled (Upstreams r)) then Ok tt
  else
    let! _ := reject (negb (registryTypeIn (Type_ r) RegistryTypesWithPrefixUpstreams)) (rName r) "upstreams" in
    upstreams_go r ∅ (Upstreams r).

Definition validate_kind (r : RegistryRepository) : result Invalid unit :=
  let no (b : bool) (what : string) := reject b (rName r) what in
  if String.eqb (Kind r) "local" then
    let! _ := validateRegistryKindFields r in
    let! _ := no (String.eqb (Mount r) "") "local kind requires mount" in
    no (String.eqb (BasePath r) "") "local kind requires base_path"
  else if String.eqb (Kind r) "remote" then
    let! _ := validateRegistryKindFields r in
    let! _ := no (String.eqb (URL r) "") "remote kind requires url" in
    let! _ := no (negb (http_url (URL r))) "url must be http(s)" in
    let! _ := no (String.eqb (Mount r) "") "remote kind requires cache mount" in
    let! _ := no (String.eqb (BasePath r) "") "remote kind requires cache base_path" in
    let! _ := match Auth r with Some a => validateRegistryAuth a | None => Ok tt end in
    let! _ := validateRegistryUpstreams r in
    no (nonempty (MutableTTL r) && negb (present (ParseDuration (MutableTTL r)))) "invalid mutable_ttl"
  else if String.eqb (Kind r) "virtual" then
    let! _ := validateRegistryKindFields r in
    no (negb (filled (Members r))) "virtual kind requires members"
  else Err (rName r, "invalid kind").

(** One repository alone, after its name. *)
Definition validate_repo (r : RegistryRepository) : result Invalid unit :=
  let no (b : bool) (what : string) := reject b (rName r) what in
  let! _ := no (negb (IsKnownRegistryType (Type_ r))) "invalid type" in
  let! _ := no (MaxUploadSize r <? 0) "max_upload_size" in
  let! _ := validate_kind r in
  let! _ := validateRegistryPolicy r in
  let! _ := match Prefetch r with
    | None => Ok tt
    | Some p =>
        let! _ := no (negb (String.eqb (Kind r) "remote")) "prefetch: not remote" in
        no (negb (interval_ok (fInterval p))) "prefetch.interval"
    end in
  let! _ := match Replication r with
    | None => Ok tt
    | Some p =>
        let! _ := no (negb (String.eqb (Kind r) "local")) "replication: not local" in
        let! _ := no (negb (http_url (SourceURL p))) "replication.source_url" in
        no (negb (interval_ok (rpInterval p))) "replication.interval"
    end in
  no ((nonempty (SigningKey r) || nonempty (SigningKeyName r)) &&
      (negb (registryTypeIn (Type_ r) RegistryTypesWithSigning) || negb (String.eqb (Kind r) "local")))
     "signing_key".

(** The first pass; [seen] maps a name to its repository. *)
Fixpoint first_pass (seen : gmap string RegistryRepository) (l : list RegistryRepository)
    : result Invalid (gmap string RegistryRepository) :=
  match l with
  | [] => Ok seen
  | r :: l =>
      let! _ := validateRegistryName (rName r) in
      let! _ := reject (present (seen !! rName r)) (rName r) "duplicate repo" in
      let! _ := validate_repo r in
      first_pass (<[rName r := r]> seen) l
  end.

(** The members of a virtual repository. *)
Fixpoint members_go (seen : gmap string RegistryRepository) (r : RegistryRepository)
    (seenMember : gset string) (l : list string) : result Invalid unit :=
  match l with
  | [] => Ok tt
  | m :: l =>
      let! _ := reject (String.eqb m (rName r)) (rName r) "virtual cannot reference itself" in
      let! _ := reject (bool_decide (m ∈ seenMember)) (rName r) "duplicate member" in
      match seen !! m with
      | None => Err (rName r, "member not found")
      | Some x =>
          let! _ := reject (negb (String.eqb (Type_ x) (Type_ r))) (rName r) "member of another type" in
          let! _ := reject (String.eqb (Kind x) "virtual") (rName r) "member is itself virtual" in
          members_go seen r ({[m]} ∪ seenMember) l
      end
  end.

Definition validate_virtual (seen : gmap string RegistryRepository) (r : RegistryRepository)
    : result Invalid unit :=
  if negb (String.eqb (Kind r) "virtual") then Ok tt
  else
    let! _ := members_go seen r ∅ (Members r) in
    if String.eqb (DefaultLocal r) "" then Ok tt
    else match seen !! DefaultLocal r with
         | None => Err (rName r, "default_local not found")
         | Some x => reject (negb (String.eqb (Kind x) "local")) (rName r) "default_local is not local"
         end.

Definition validateNamespaceRepos (ns : RegistryNamespace) : result Invalid unit :=
  let! seen := first_pass ∅ (Repositories ns) in
  check_all (validate_virtual seen) (Repositories ns).

Fixpoint namespaces_go (seen : gset string) (l : list RegistryNamespace) : result Invalid unit :=
  match l with
  | [] => Ok tt
  | ns :: l =>
      let! _ := validateRegistryName (nName ns) in
      let! _ := reject (bool_decide (nName ns ∈ seen)) (nName ns) "duplicate namespace" in
      let! _ := validateNamespaceRepos ns in
      namespaces_go ({[nName ns]} ∪ seen) l
  end.

Definition Validate (rs : RegistrySettings) : result Invalid unit := namespaces_go ∅ (Namespaces rs).

End validate.

Definition FindNamespace (rs : RegistrySettings) (name : string) : option RegistryNamespace :=
  find (fun ns => String.eqb (nName ns) name) (Namespaces rs).

Definition FindRepository (ns : RegistryNamespace) (name : string) : option RegistryRepository :=
  find (fun r => String.eqb (rName r) name) (Repositories ns).

(** ** registry_listener.go *)

Record RegistryListener := {
  lID : string; lName : string; Enabled : bool; Host : string; Port : Z; Hostname : string;
  lNamespace : string; lRepo : string; TLSCertPEM : string; TLSKeyPEM : string;
}.

Definition hostname_char (c : ascii) : bool := is_lower c || is_digit c || Ascii.eqb c "-".

Definition validate_label (hostname label : string) : result Invalid unit :=
  let! _ := reject (String.eqb label "") hostname "empty label" in
  let! _ := reject (negb (str_forallb hostname_char label)) hostname "invalid character" in
  reject (HasPrefix label "-" || HasSuffix label "-") hostname "label starts or ends with '-'".

Definition ValidateListenerHostname (hostname : string) : result Invalid unit :=
  if String.eqb hostname "" then Ok tt
  else
    let h := TrimPrefix hostname "*." in
    let! _ := reject (String.eqb h "" || Contains h "*") hostname "wildcard must be a single leading label" in
    let! _ := reject (Contains h ":") hostname "must not contain a port" in
    let! _ := reject (253 <? len h)%nat hostname "too long" in
    check_all (validate_label hostname) (Split h ".").

Definition registryListenerLabel (l : RegistryListener) : string :=
  if nonempty (lName l) then lName l
  else if nonempty (lID l) then lID l
  else lNamespace l +:+ "/" +:+ lRepo l +:+ ":" +:+ itoa (Port l).

Section listeners.
(** [tls.X509KeyPair] accepts the certificate and the key. *)
Variable X509KeyPair : string -> string -> bool.

(** What the loop has collected: the ids, the enabled hostnames of each port,
    the ports with and without TLS. *)
Record listenerState := {
  seenID : gset string; seenHost : gset (Z * string); tlsOnPort : gset Z; plainOnPort : gset Z;
}.

Definition with_hostname (l : RegistryListener) (h : string) : RegistryListener :=
  {| lID := lID l; lName := lName l; Enabled := Enabled l; Host := Host l; Port := Port l; Hostname := h;
     lNamespace := lNamespace l; lRepo := lRepo l; TLSCertPEM := TLSCertPEM l; TLSKeyPEM := TLSKeyPEM l |}.

(** One listener: it is normalised in place. *)
Definition validate_listener (rs : option RegistrySettings) (st : listenerState) (l : RegistryListener)
    : result Invalid (listenerState * RegistryListener) :=
  let label := registryListenerLabel l in
  let! _ := reject (nonempty (lID l) && bool_decide (lID l ∈ seenID st)) (lID l) "duplicate listener id" in
  let ids := if nonempty (lID l) then {[lID l]} ∪ seenID st else seenID st in
  let! _ := reject ((Port l <? 1) || (65535 <? Port l)) label "port must be 1-65535" in
  let l := with_hostname l (ToLower (TrimSpace (Hostname l))) in
  let! _ := ValidateListenerHostname (Hostname l) in
  let! _ := reject (String.eqb (lNamespace l) "" || String.eqb (lRepo l) "") label "namespace and repo are required" in
  let! _ := match rs with
    | None => Ok tt
    | Some rs =>
        match FindNamespace rs (lNamespace l) with
        | None => Err (label, "namespace not found")
        | Some ns => reject (negb (present (FindRepository ns (lRepo l)))) label "repository not found"
        end
    end in
  let! _ := reject (xorb (String.eqb (TLSCertPEM l) "") (String.eqb (TLSKeyPEM l) "")) label "certificate and key" in
  let! _ := reject (nonempty (TLSCertPEM l) && negb (X509KeyPair (TLSCertPEM l) (TLSKeyPEM l))) label "TLS keypair" in
  if negb (Enabled l) then
    Ok ({| seenID := ids; seenHost := seenHost st; tlsOnPort := tlsOnPort st; plainOnPort := plainOnPort st |}, l)
  else
    let! _ := reject (bool_decide ((Port l, Hostname l) ∈ seenHost st)) label "hostname claimed twice" in
    Ok ({| seenID := ids; seenHost := {[(Port l, Hostname l)]} ∪ seenHost st;
           tlsOnPort := if nonempty (TLSCertPEM l) then {[Port l]} ∪ tlsOnPort st else tlsOnPort st;
           plainOnPort := if nonempty (TLSCertPEM l) then plainOnPort st else {[Port l]} ∪ plainOnPort st |}, l).

Fixpoint listeners_go (rs : option RegistrySettings) (st : listenerState) (ls : list RegistryListener)
    : result Invalid (listenerState * list RegistryListener) :=
  match ls with
  | [] => Ok (st, [])
  | l :: ls =>
      let! p := validate_listener rs st l in
      let! q := listeners_go rs p.1 ls in
      Ok (q.1, p.2 :: q.2)
  end.

(** The listeners as they are stored, or the first error. *)
Definition ValidateListeners (rs : option RegistrySettings) (ls : list RegistryListener)
    : result Invalid (list RegistryListener) :=
  let! q := listeners_go rs {| seenID := ∅; seenHost := ∅; tlsOnPort := ∅; plainOnPort := ∅ |} ls in
  if bool_decide (tlsOnPort q.1 ∩ plainOnPort q.1 = ∅) then Ok q.2
  else Err ("port", "mixes TLS and plain listeners").

End listeners.
