(* ===== verification/RegistryConfSafety.v ===== *)
(** * The validators of the registry configuration, against what they promise

    [namespace_wf] says declaratively when a namespace is well formed;
    [validate_iff] shows that the validator accepts exactly those.  The
    listeners that pass share no hostname on a port, do not mix TLS and plain
    text on one and point at repositories that exist. *)

From Stdlib Require Import ZArith Lia Ascii.
From stdpp Require Import base list strings gmap.
From S2P Require Import Prelude GoStrings GoPath RegistryConf.

Local Open Scope Z_scope.
Local Open Scope kutu_scope.

(** ** Reading a validator as a conjunction *)

Lemma seq_ok {B} (a : result Invalid unit) (b : result Invalid B) v :
  (let! _ := a in b) = Ok v <-> a = Ok tt /\ b = Ok v.
Proof. destruct a as [[]|e]; cbn; naive_solver. Qed.

Lemma reject_ok b who what : reject b who what = Ok tt <-> b = false.
Proof. destruct b; cbn; naive_solver. Qed.

Lemma check_all_ok {A} (f : A -> result Invalid unit) l : check_all f l = Ok tt <-> Forall (fun x => f x = Ok tt) l.
Proof.
  induction l as [|x l IH]; cbn [check_all]; [by split; [constructor|]|].
  rewrite seq_ok, IH, Forall_cons. done.
Qed.

Lemma nonempty_iff s : nonempty s = false <-> s = "".
Proof. unfold nonempty. by destruct (String.eqb_spec s ""). Qed.
Lemma filled_false {A} (l : list A) : filled l = false <-> l = [].
Proof. by destruct l. Qed.
Lemma present_false {A} (o : option A) : present o = false <-> o = None.
Proof. by destruct o. Qed.
Lemma eqb_false s t : String.eqb s t = false <-> s <> t.
Proof. apply String.eqb_neq. Qed.
Lemma eqb_true s t : String.eqb s t = true <-> s = t.
Proof. apply String.eqb_eq. Qed.
Lemma decide_false (P : Prop) `{Decision P} : bool_decide P = false <-> ~ P.
Proof. apply bool_decide_eq_false. Qed.
Lemma zltb_false a b : (a <? b) = false <-> b <= a.
Proof. apply Z.ltb_ge. Qed.

Hint Rewrite @seq_ok @reject_ok @check_all_ok @nonempty_iff @filled_false @present_false
  eqb_false eqb_true negb_false_iff negb_true_iff orb_false_iff @decide_false zltb_false : valid.

(** ** Well-formed repositories *)

Section spec.
Variable http_url : string -> bool.
Variable ParseDuration : string -> option Z.

Definition auth_wf (o : option RegistryUpstreamAuth) : Prop :=
  forall a, o = Some a -> validateRegistryAuth a = Ok tt.

Definition upstream_wf (u : RegistryUpstream) : Prop :=
  uPrefix u <> "" /\ uURL u <> "" /\ http_url (uURL u) = true /\ auth_wf (uAuth u).

Definition interval_wf (s : string) : Prop := s = "" \/ exists d, ParseDuration s = Some d /\ Minute <= d.

(** What each kind requires and excludes. *)
Definition kind_wf (r : RegistryRepository) : Prop :=
  (Kind r = "local" /\ Mount r <> "" /\ BasePath r <> "" /\ URL r = "" /\ Auth r = None /\ MutableTTL r = "" /\
     FloatingTags r = [] /\ InsecureSkipVerify r = false /\ Members r = [] /\ DefaultLocal r = "") \/
  (Kind r = "remote" /\ Mount r <> "" /\ BasePath r <> "" /\ URL r <> "" /\ http_url (URL r) = true /\ auth_wf (Auth r) /\
     AllowPush r = false /\ Members r = [] /\ DefaultLocal r = "" /\
     (Upstreams r <> [] -> registryTypeIn (Type_ r) RegistryTypesWithPrefixUpstreams = true) /\
     Forall upstream_wf (Upstreams r) /\ NoDup (uPrefix <$> Upstreams r) /\
     (MutableTTL r = "" \/ is_Some (ParseDuration (MutableTTL r)))) \/
  (Kind r = "virtual" /\ Members r <> [] /\ Mount r = "" /\ BasePath r = "" /\ AllowPush r = false /\ URL r = "" /\
     Auth r = None /\ MutableTTL r = "" /\ FloatingTags r = [] /\ InsecureSkipVerify r = false).

Record repo_wf (r : RegistryRepository) : Prop := {
  wf_name : rName r <> "" /\ (len (rName r) <= 64)%nat /\ str_forallb name_char (rName r) = true;
  wf_type : Type_ r ∈ KnownRegistryTypes;
  wf_size : 0 <= MaxUploadSize r;
  wf_kind : kind_wf r;
  wf_policy : validateRegistryPolicy r = Ok tt;
  wf_prefetch : forall p, Prefetch r = Some p -> Kind r = "remote" /\ interval_wf (fInterval p);
  wf_replication : forall p, Replication r = Some p ->
    Kind r = "local" /\ http_url (SourceURL p) = true /\ interval_wf (rpInterval p);
  wf_signing : SigningKey r <> "" \/ SigningKeyName r <> "" ->
    Type_ r ∈ RegistryTypesWithSigning /\ Kind r = "local";
}.

(** What a virtual repository refers to: other repositories of the namespace,
    of its type, none of them virtual. *)
Definition virtual_wf (l : list RegistryRepository) (r : RegistryRepository) : Prop :=
  Kind r = "virtual" ->
  NoDup (Members r) /\
  (forall m, m ∈ Members r -> m <> rName r /\
     exists x, x ∈ l /\ rName x = m /\ Type_ x = Type_ r /\ Kind x <> "virtual") /\
  (DefaultLocal r <> "" -> exists x, x ∈ l /\ rName x = DefaultLocal r /\ Kind x = "local").

Definition namespace_wf (l : list RegistryRepository) : Prop :=
  Forall repo_wf l /\ NoDup (rName <$> l) /\ Forall (virtual_wf l) l.

(** ** The loops *)

Lemma auth_match o : match o with Some a => validateRegistryAuth a | None => Ok tt end = Ok tt <-> auth_wf o.
Proof. unfold auth_wf. destruct o as [a|]; naive_solver. Qed.

Lemma upstreams_go_ok r seen l : upstreams_go http_url r seen l = Ok tt <->
  Forall upstream_wf l /\ NoDup (uPrefix <$> l) /\ forall u, u ∈ l -> uPrefix u ∉ seen.
Proof.
  revert seen. induction l as [|u l IH]; intros seen; cbn [upstreams_go fmap list_fmap].
  { split; [intros _; split_and!; [constructor|constructor|intros u Hu; inversion Hu]|done]. }
  autorewrite with valid. rewrite auth_match, IH, Forall_cons, NoDup_cons. unfold upstream_wf at 2.
  rewrite list_elem_of_fmap. set_solver.
Qed.

Lemma upstreams_ok r : validateRegistryUpstreams http_url r = Ok tt <->
  (Upstreams r <> [] -> registryTypeIn (Type_ r) RegistryTypesWithPrefixUpstreams = true) /\
  Forall upstream_wf (Upstreams r) /\ NoDup (uPrefix <$> Upstreams r).
Proof.
  unfold validateRegistryUpstreams. destruct (Upstreams r) as [|u l] eqn:E; cbn [filled negb].
  - split; [intros _|done]. split_and!; [done|constructor|constructor].
  - autorewrite with valid. rewrite upstreams_go_ok. split; [naive_solver|].
    intros (H1 & H2 & H3). split_and!; [by apply H1|done|done|set_solver].
Qed.

Lemma interval_ok_iff s : interval_ok ParseDuration s = true <-> interval_wf s.
Proof.
  unfold interval_ok, interval_wf. rewrite orb_true_iff, eqb_true.
  destruct (ParseDuration s) as [d|]; [|naive_solver]. rewrite Z.leb_le. naive_solver.
Qed.

Lemma kind_ok r : validate_kind http_url ParseDuration r = Ok tt <-> kind_wf r.
Proof.
  unfold validate_kind, kind_wf, validateRegistryKindFields.
  destruct (String.eqb_spec (Kind r) "local") as [E|N1]; [rewrite E; cbn [String.eqb Ascii.eqb Bool.eqb]|].
  { autorewrite with valid. naive_solver. }
  destruct (String.eqb_spec (Kind r) "remote") as [E|N2]; [rewrite E; cbn [String.eqb Ascii.eqb Bool.eqb]|].
  { autorewrite with valid. rewrite auth_match, upstreams_ok, andb_false_iff.
    autorewrite with valid. unfold present. destruct (ParseDuration _); naive_solver. }
  destruct (String.eqb_spec (Kind r) "virtual") as [E|N3]; [rewrite E; cbn [String.eqb Ascii.eqb Bool.eqb]|].
  { autorewrite with valid. unfold filled. destruct (Members r); naive_solver. }
  naive_solver.
Qed.

Lemma name_ok s : validateRegistryName s = Ok tt <-> s <> "" /\ (len s <= 64)%nat /\ str_forallb name_char s = true.
Proof. unfold validateRegistryName. autorewrite with valid. rewrite Nat.ltb_ge. done. Qed.

Lemma string_elem t l : existsb (String.eqb t) l = true <-> t ∈ l.
Proof. rewrite existsb_elem. setoid_rewrite eqb_true. naive_solver. Qed.

Lemma prefetch_ok r : match Prefetch r with
    | None => Ok tt
    | Some p =>
        let! _ := reject (negb (String.eqb (Kind r) "remote")) (rName r) "prefetch: not remote" in
        reject (negb (interval_ok ParseDuration (fInterval p))) (rName r) "prefetch.interval"
    end = Ok tt <-> forall p, Prefetch r = Some p -> Kind r = "remote" /\ interval_wf (fInterval p).
Proof.
  destruct (Prefetch r) as [p|]; [|naive_solver]. autorewrite with valid. rewrite interval_ok_iff. naive_solver.
Qed.

Lemma replication_ok r : match Replication r with
    | None => Ok tt
    | Some p =>
        let! _ := reject (negb (String.eqb (Kind r) "local")) (rName r) "replication: not local" in
        let! _ := reject (negb (http_url (SourceURL p))) (rName r) "replication.source_url" in
        reject (negb (interval_ok ParseDuration (rpInterval p))) (rName r) "replication.interval"
    end = Ok tt <-> forall p, Replication r = Some p ->
      Kind r = "local" /\ http_url (SourceURL p) = true /\ interval_wf (rpInterval p).
Proof.
  destruct (Replication r) as [p|]; [|naive_solver]. autorewrite with valid. rewrite interval_ok_iff. naive_solver.
Qed.

Lemma signing_ok r : reject ((nonempty (SigningKey r) || nonempty (SigningKeyName r)) &&
      (negb (registryTypeIn (Type_ r) RegistryTypesWithSigning) || negb (String.eqb (Kind r) "local")))
     (rName r) "signing_key" = Ok tt <->
  (SigningKey r <> "" \/ SigningKeyName r <> "" -> Type_ r ∈ RegistryTypesWithSigning /\ Kind r = "local").
Proof.
  rewrite reject_ok, andb_false_iff, !orb_false_iff, !negb_false_iff, !nonempty_iff, eqb_true.
  unfold registryTypeIn. rewrite string_elem.
  destruct (decide (SigningKey r = "")), (decide (SigningKeyName r = "")); naive_solver.
Qed.

Lemma repo_ok r : validateRegistryName (rName r) = Ok tt /\ validate_repo http_url ParseDuration r = Ok tt <-> repo_wf r.
Proof.
  unfold validate_repo. cbv zeta. rewrite !seq_ok, name_ok, prefetch_ok, replication_ok, signing_ok, kind_ok, !reject_ok.
  rewrite negb_false_iff, zltb_false. unfold IsKnownRegistryType. rewrite string_elem.
  split; [by intros (? & ? & ? & ? & ? & ? & ? & ?)|by intros []].
Qed.

(** The table of the first pass: the repositories by name. *)
Definition by_name (l : list RegistryRepository) (seen : gmap string RegistryRepository) : Prop :=
  forall m x, seen !! m = Some x <-> x ∈ l /\ rName x = m.

Lemma first_pass_ok pre l seen out : by_name pre seen ->
  first_pass http_url ParseDuration seen l = Ok out <->
  Forall repo_wf l /\ NoDup (rName <$> l) /\ (forall r, r ∈ l -> seen !! rName r = None) /\
  out = foldl (fun m r => <[rName r := r]> m) seen l.
Proof.
  revert pre seen. induction l as [|r l IH]; intros pre seen Hs; cbn [first_pass fmap list_fmap foldl].
  { split; [intros [= ->]; split_and!; [constructor|constructor|intros r Hr; inversion Hr|done]|naive_solver]. }
  rewrite !seq_ok, reject_ok, present_false, Forall_cons, NoDup_cons, list_elem_of_fmap.
  split.
  - intros (Hn & Hd & Hr & Hl).
    apply (IH (r :: pre)) in Hl as (H1 & H2 & H3 & H4).
    + split_and!; [by apply repo_ok|done| |done| |done].
      * intros (y & Ey & Hy). apply H3 in Hy. rewrite <-Ey, lookup_insert_eq in Hy. done.
      * intros y [->|Hy]%elem_of_cons; [done|]. apply H3, lookup_insert_None in Hy. naive_solver.
    + intros m x. rewrite lookup_insert_Some, (Hs m x), elem_of_cons. split; [naive_solver|].
      intros [[->|Hx] <-]; [by left|]. right. split; [|done]. intros E.
      assert (seen !! rName r = Some x) by (by apply Hs). congruence.
  - intros ((Hw & Hl) & (Hnot & Hnd) & Hnone & Hout). apply repo_ok in Hw as [Hn Hr].
    split_and!; [done|apply Hnone; by left|done|]. apply (IH (r :: pre)).
    + intros m x. rewrite lookup_insert_Some, (Hs m x), elem_of_cons. split; [naive_solver|].
      intros [[->|Hx] <-]; [by left|]. right. split; [|done]. intros E.
      assert (seen !! rName r = Some x) by (by apply Hs). rewrite Hnone in *; [done|by left].
    + split_and!; [done|done| |done]. intros y Hy. rewrite lookup_insert_ne; [apply Hnone; by right|].
      intros E. apply Hnot. by exists y.
Qed.

Lemma table_by_name l : NoDup (rName <$> l) -> by_name l (foldl (fun m r => <[rName r := r]> m) ∅ l).
Proof.
  intros Hnd. assert (H : forall l pre seen, by_name pre seen -> NoDup (rName <$> pre ++ l) ->
    by_name (pre ++ l) (foldl (fun m r => <[rName r := r]> m) seen l)).
  { clear. induction l as [|r l IH]; intros pre seen Hs Hnd; cbn [foldl]; [by rewrite app_nil_r|].
    replace (pre ++ r :: l) with ((pre ++ [r]) ++ l) in * by (by rewrite <-app_assoc).
    apply IH; [|done]. intros m x. rewrite lookup_insert_Some, (Hs m x), elem_of_app, list_elem_of_singleton.
    split; [naive_solver|]. intros [[Hx| ->] <-]; [|by left]. right. split; [|done]. intros E.
    rewrite !fmap_app in Hnd. cbn in Hnd. apply NoDup_app in Hnd as [Hnd _]. apply NoDup_app in Hnd as (_ & Hd & _).
    apply (Hd (rName x)); [apply list_elem_of_fmap; by exists x|rewrite E; by left]. }
  apply (H l []); [|done]. intros m x. rewrite lookup_empty. split; [done|]. intros [Hx _]. inversion Hx.
Qed.

Lemma members_go_ok l seen r done_ ms : by_name l seen ->
  members_go seen r done_ ms = Ok tt <->
  NoDup ms /\ (forall m, m ∈ ms -> m ∉ done_) /\
  (forall m, m ∈ ms -> m <> rName r /\ exists x, x ∈ l /\ rName x = m /\ Type_ x = Type_ r /\ Kind x <> "virtual").
Proof.
  intros Hs. revert done_. induction ms as [|m ms IH]; intros done_; cbn [members_go].
  { split; [intros _; split_and!; [constructor|set_solver..]|done]. }
  autorewrite with valid. rewrite NoDup_cons. destruct (seen !! m) as [x|] eqn:Em.
  - autorewrite with valid. rewrite IH. pose proof (proj1 (Hs m x) Em) as [Hx Hm].
    split; [set_solver|]. intros ((Hnm & Hnd) & Hd & H).
    destruct (H m) as (Hr & y & Hy & Ey & Ht & Hk); [by left|].
    assert (y = x) as -> by (pose proof (proj2 (Hs m y) (conj Hy Ey)); congruence). set_solver.
  - split; [naive_solver|]. intros (_ & _ & H). destruct (H m) as (_ & x & Hx & Ex & _); [by left|].
    pose proof (proj2 (Hs m x) (conj Hx Ex)). congruence.
Qed.

Lemma virtual_ok l seen r : by_name l seen -> validate_virtual seen r = Ok tt <-> virtual_wf l r.
Proof.
  intros Hs. unfold validate_virtual, virtual_wf.
  destruct (String.eqb_spec (Kind r) "virtual") as [E|N]; cbn [negb]; [|naive_solver].
  rewrite seq_ok, (members_go_ok l) by done.
  assert (Hd : (if String.eqb (DefaultLocal r) "" then Ok tt
    else match seen !! DefaultLocal r with
         | None => Err (rName r, "default_local not found")
         | Some x => reject (negb (String.eqb (Kind x) "local")) (rName r) "default_local is not local"
         end) = Ok tt <-> (DefaultLocal r <> "" -> exists x, x ∈ l /\ rName x = DefaultLocal r /\ Kind x = "local")).
  { destruct (String.eqb_spec (DefaultLocal r) "") as [E0|E0]; [naive_solver|].
    destruct (seen !! DefaultLocal r) as [x|] eqn:Ex.
    - autorewrite with valid. pose proof (proj1 (Hs _ _) Ex) as [Hx Hm]. split; [naive_solver|].
      intros H. destruct (H E0) as (y & Hy & Ey & Hk). pose proof (proj2 (Hs _ y) (conj Hy Ey)). congruence.
    - split; [done|]. intros H. destruct (H E0) as (y & Hy & Ey & _). pose proof (proj2 (Hs _ y) (conj Hy Ey)). congruence. }
  rewrite Hd. set_solver.
Qed.

(** C21: the validator accepts exactly the well-formed namespaces: every repository
    has a well-formed name, a known type and the fields of its kind ([kind_wf]: a
    local one no URL, credentials, TTL, floating tags, TLS switch, members or
    default; a remote one no members, default or pushes; a virtual one none of the
    fields of the other two, but upstreams are allowed everywhere), its URLs,
    credentials, durations, limits and policy are valid, prefetching is of remote
    repositories, replication and signing of local ones, names are unique, and a virtual repository names each of its members once, all of them
    other repositories of the namespace of the same type and not virtual, and as
    its default a local repository of the namespace, member or not. *)
Theorem validate_iff ns :
  validateNamespaceRepos http_url ParseDuration ns = Ok tt <-> namespace_wf (Repositories ns).
Proof.
  unfold validateNamespaceRepos, namespace_wf. rewrite rbind_ok.
  assert (He : by_name [] ∅).
  { intros m x. rewrite lookup_empty. split; [done|]. intros [Hx _]. inversion Hx. }
  split.
  - intros (seen & Hf & Hc). apply (first_pass_ok [] _ _ _ He) in Hf as (Hw & Hnd & _ & ->).
    split_and!; [done|done|]. apply check_all_ok in Hc. eapply Forall_impl; [exact Hc|].
    intros r. apply virtual_ok. by apply table_by_name.
  - intros (Hw & Hnd & Hv). eexists. split.
    + apply (first_pass_ok [] _ _ _ He). split_and!; [done|done|intros r _; apply lookup_empty|done].
    + apply check_all_ok. eapply Forall_impl; [exact Hv|]. intros r. apply virtual_ok. by apply table_by_name.
Qed.

End spec.

(** ** Listeners *)

Section listeners.
Variable X509KeyPair : string -> string -> bool.

Definition normalised (l : RegistryListener) : RegistryListener :=
  with_hostname l (ToLower (TrimSpace (Hostname l))).

(** One listener alone. *)
Definition listener_wf (rs : option RegistrySettings) (l : RegistryListener) : Prop :=
  1 <= Port l <= 65535 /\ ValidateListenerHostname (Hostname l) = Ok tt /\
  (forall s, rs = Some s -> exists ns r, FindNamespace s (lNamespace l) = Some ns /\ FindRepository ns (lRepo l) = Some r) /\
  (TLSCertPEM l = "" <-> TLSKeyPEM l = "") /\
  (TLSCertPEM l <> "" -> X509KeyPair (TLSCertPEM l) (TLSKeyPEM l) = true).

Definition claims (l : RegistryListener) : Z * string := (Port l, Hostname l).

(** What the loop knows of the enabled listeners before it. *)
Definition collected (st : listenerState) (ls : list RegistryListener) : Prop :=
  (forall l, l ∈ ls -> Enabled l = true ->
     claims l ∈ seenHost st /\ (TLSCertPEM l <> "" -> Port l ∈ tlsOnPort st) /\ (TLSCertPEM l = "" -> Port l ∈ plainOnPort st)) /\
  NoDup (claims <$> filter (fun l => Enabled l = true) ls).

Lemma target_ok rs l label : match rs with
    | None => Ok tt
    | Some rs =>
        match FindNamespace rs (lNamespace l) with
        | None => Err (label, "namespace not found")
        | Some ns => reject (negb (present (FindRepository ns (lRepo l)))) label "repository not found"
        end
    end = Ok tt <->
  (forall s, rs = Some s -> exists ns r, FindNamespace s (lNamespace l) = Some ns /\ FindRepository ns (lRepo l) = Some r).
Proof.
  destruct rs as [rs|]; [|naive_solver].
  destruct (FindNamespace rs (lNamespace l)) as [ns|] eqn:E; [|naive_solver].
  autorewrite with valid. unfold present. destruct (FindRepository ns (lRepo l)) eqn:E2; naive_solver.
Qed.

Lemma validate_listener_ok rs st l st' l' : validate_listener X509KeyPair rs st l = Ok (st', l') ->
  l' = normalised l /\ listener_wf rs l' /\
  seenHost st ⊆ seenHost st' /\ tlsOnPort st ⊆ tlsOnPort st' /\ plainOnPort st ⊆ plainOnPort st' /\
  (Enabled l' = true -> claims l' ∉ seenHost st /\ claims l' ∈ seenHost st' /\
     (TLSCertPEM l' <> "" -> Port l' ∈ tlsOnPort st') /\ (TLSCertPEM l' = "" -> Port l' ∈ plainOnPort st')).
Proof.
  unfold validate_listener. cbv zeta. fold (normalised l). set (n := normalised l).
  rewrite !seq_ok. intros (_ & Hp & Hh & _ & Ht & Hx & Hk & E).
  pose proof (proj1 (target_ok rs n (registryListenerLabel l)) Ht) as Ht2. rewrite reject_ok in Hp, Hx, Hk.
  assert (Hw : listener_wf rs n).
  { split; [change (Port n) with (Port l); bool_prop; lia|]. split; [exact Hh|]. split; [exact Ht2|]. split.
    - destruct (String.eqb_spec (TLSCertPEM n) ""), (String.eqb_spec (TLSKeyPEM n) ""); done.
    - intros Hc. apply andb_false_iff in Hk as [Hk|Hk]; [by apply nonempty_iff in Hk|by apply negb_false_iff in Hk]. }
  destruct (Enabled n) eqn:En; cbn [negb] in E.
  - rewrite seq_ok, reject_ok, decide_false in E. destruct E as [Hd E]. injection E as <- <-. cbn [seenHost tlsOnPort plainOnPort].
    split; [done|]. split; [exact Hw|]. change (TLSCertPEM n) with (TLSCertPEM l). change (Port n) with (Port l).
    change (claims n) with (Port l, ToLower (TrimSpace (Hostname l))).
    unfold nonempty. destruct (String.eqb_spec (TLSCertPEM l) "") as [Ec|Ec]; cbn [negb]; set_solver.
  - injection E as <- <-. split; [done|]. split; [exact Hw|]. rewrite En. cbn [seenHost tlsOnPort plainOnPort]. by split_and!.
Qed.

Lemma listeners_go_ok rs st pre ls st' out : collected st pre -> listeners_go X509KeyPair rs st ls = Ok (st', out) ->
  out = normalised <$> ls /\ Forall (listener_wf rs) out /\ collected st' (pre ++ out).
Proof.
  revert st pre out. induction ls as [|l ls IH]; intros st pre out Hc E; cbn [listeners_go] in E.
  - injection E as <- <-. rewrite app_nil_r. by split_and!.
  - apply rbind_ok in E as ([st1 l1] & E1 & E). apply rbind_ok in E as ([st2 out2] & E2 & E).
    cbn [fst snd] in *. injection E as <- <-.
    destruct (validate_listener_ok _ _ _ _ _ E1) as (-> & Hw & H1 & H2 & H3 & H4).
    destruct (IH st1 (pre ++ [normalised l]) out2) as (-> & Hall & Hc'); [|done|].
    + destruct Hc as [Ha Hn]. split.
      * intros x [Hx|Hx]%elem_of_app He; [destruct (Ha x Hx He) as (? & ? & ?); set_solver|].
        apply list_elem_of_singleton in Hx as ->. by apply H4.
      * rewrite filter_app, fmap_app. destruct (decide (Enabled (normalised l) = true)) as [He|He].
        -- rewrite filter_cons_True, filter_nil by done. cbn [fmap list_fmap]. apply NoDup_app. split_and!; [done| |apply NoDup_singleton].
           intros c Hcl. rewrite list_elem_of_fmap in Hcl. destruct Hcl as (y & -> & Hy).
           apply list_elem_of_filter in Hy as [Hey Hy]. rewrite list_elem_of_singleton. intros Ey.
           apply (proj1 (H4 He)). rewrite <-Ey. by apply Ha.
        -- rewrite filter_cons_False, filter_nil by done. by rewrite app_nil_r.
    + rewrite <-app_assoc in Hc'. split_and!; [done|by constructor|done].
Qed.

(** the listeners that pass the validator are stored with their hostnames
    normalised; no two enabled ones claim a hostname on a port, a port is all
    TLS or all plain, and each is bound to a valid port and hostname and, when
    the registry tree is given, to a repository that exists. *)
Theorem listeners_disjoint rs ls out : ValidateListeners X509KeyPair rs ls = Ok out ->
  out = normalised <$> ls /\ Forall (listener_wf rs) out /\
  NoDup (claims <$> filter (fun l => Enabled l = true) out) /\
  (forall a b, a ∈ out -> b ∈ out -> Enabled a = true -> Enabled b = true -> Port a = Port b ->
     (TLSCertPEM a = "" <-> TLSCertPEM b = "")).
Proof.
  unfold ValidateListeners. intros ([st out'] & E & Eo)%rbind_ok. cbn [fst snd] in Eo.
  destruct (bool_decide (tlsOnPort st ∩ plainOnPort st = ∅)) eqn:Ed; [|done]. injection Eo as <-. bool_prop.
  destruct (listeners_go_ok rs _ [] ls st out' ltac:(split; [intros l Hl; inversion Hl|apply NoDup_nil; done]) E) as (-> & Hw & Hc & Hn).
  split_and!; [done|done|done|]. intros a b Ha Hb Hea Heb Hp.
  destruct (Hc a Ha Hea) as (_ & Hat & Hap). destruct (Hc b Hb Heb) as (_ & Hbt & Hbp).
  assert (Hno : forall p, p ∈ tlsOnPort st -> p ∈ plainOnPort st -> False).
  { intros p Ht Hq. apply (not_elem_of_empty (C := gset Z) p). rewrite <-Ed. by apply elem_of_intersection. }
  rewrite Hp in *. destruct (decide (TLSCertPEM a = "")) as [Ea|Ea], (decide (TLSCertPEM b = "")) as [Eb|Eb].
  - done.
  - exfalso. eauto.
  - exfalso. eauto.
  - done.
Qed.

End listeners.

Definition two_listeners : list RegistryListener :=
  [ {| lID := "1"; lName := "main"; Enabled := true; Host := ""; Port := 8443; Hostname := " Registry.Example.COM ";
       lNamespace := "team"; lRepo := "docker"; TLSCertPEM := "pair"; TLSKeyPEM := "pair" |};
    {| lID := "2"; lName := ""; Enabled := true; Host := ""; Port := 8443; Hostname := "*.example.com";
       lNamespace := "team"; lRepo := "npm"; TLSCertPEM := "pair"; TLSKeyPEM := "pair" |};
    {| lID := ""; lName := ""; Enabled := false; Host := ""; Port := 80; Hostname := "";
       lNamespace := "team"; lRepo := "npm"; TLSCertPEM := ""; TLSKeyPEM := "" |} ].

Lemma listeners_disjoint_witness :
  exists out, ValidateListeners String.eqb None two_listeners = Ok out /\
    map Hostname out = ["registry.example.com"; "*.example.com"; ""] /\
    NoDup (claims <$> filter (fun l => Enabled l = true) out).
Proof.
  assert (H : ValidateListeners String.eqb None two_listeners = Ok (normalised <$> two_listeners)) by reflexivity.
  eexists. split; [exact H|]. split; [reflexivity|].
  exact (proj1 (proj2 (proj2 (listeners_disjoint String.eqb None two_listeners _ H)))).
Defined.
