(* ===== verification/Vhost.v ===== *)
(** * internal/server/vhost: the shared HTTP listeners

    Subsystems publish bindings; bindings on one address share a listener, which
    routes requests by their Host header and picks certificates by SNI.  The
    manager's state is its record; a running listener carries the number of the
    [net.Listen] call that made it.  Certificates and handlers are opaque;
    [tls.X509KeyPair], what [net.Listen] says of an address during a call, and the
    order in which a map of addresses is ranged over are parameters.  The last part
    is internal/server/api/registry-listen.go, which publishes the registry's
    listeners. *)

From Stdlib Require Import ZArith Lia Ascii.
From stdpp Require Import base list strings gmap.
From S2P Require Import Prelude GoStrings RegistryConf.

Local Open Scope Z_scope.

(** ** package net *)

Definition JoinHostPort (host port : string) : string :=
  if ContainsByte host ":" then "[" +:+ host +:+ "]:" +:+ port else host +:+ ":" +:+ port.

(** The host of [net.SplitHostPort]. *)
Definition SplitHost (hostport : string) : option string :=
  match LastIndexByte hostport ":" with
  | None => None
  | Some i =>
      let clean (s : string) := negb (ContainsByte s "[") in
      if HasPrefix hostport "[" then
        match IndexByte hostport "]" with
        | None => None
        | Some e =>
            if (S e =? i)%nat && clean (str_drop 1 hostport) && negb (ContainsByte (str_drop (S e) hostport) "]")
            then Some (str_take (e - 1) (str_drop 1 hostport)) else None
        end
      else
        let host := str_take i hostport in
        if ContainsByte host ":" || negb (clean hostport) || ContainsByte hostport "]" then None else Some host
  end.

Definition hostOnly (hostport : string) : string :=
  match SplitHost hostport with
  | Some h => ToLower h
  | None => ToLower (TrimSuffix hostport ":")
  end.

Definition bindAddr (host : string) (port : Z) : string :=
  JoinHostPort (if String.eqb host "" then "0.0.0.0" else host) (itoa port).

Definition statusKey (owner id : string) : string := owner +:+ String (chr 0) id.

Section vhost.
Context {H Cert : Type}.

Record Binding := {
  Owner : string; ID : string; Name : string; Host : string; Port : Z; Hostname : string;
  TLSCertPEM : string; TLSKeyPEM : string; Handler : option H;
}.

Record Status := {
  sOwner : string; sID : string; sName : string; Address : string; sHostname : string;
  TLS : bool; Running : bool; Shared : bool; Error : string;
}.

Record route := { binding : Binding; cert : option Cert }.

Record routeTable := { byHost : gmap string route; wildcard : gmap string route; defaultCert : option Cert }.

(** [gListen]: which call of [net.Listen] the listener comes from. *)
Record group := { useTLS : bool; routes : routeTable; gListen : nat }.

Record Manager := {
  owners : gmap string (list Binding); groups : gmap string group; status : gmap string Status; listens : nat;
}.

Definition NewManager : Manager := {| owners := ∅; groups := ∅; status := ∅; listens := O |}.

(** ** Routing *)

(** [match] of the code. *)
Definition match_host (rt : routeTable) (host : string) : option route :=
  let hit :=
    if String.eqb host "" then None
    else match byHost rt !! host with
         | Some r => Some r
         | None => match IndexByte host "." with
                   | Some (S i) => wildcard rt !! str_drop (S i) host
                   | _ => None
                   end
         end in
  match hit with Some r => Some r | None => byHost rt !! "" end.

(** The handler that gets a request, or 421. *)
Definition dispatch (g : group) (host : string) : Z + option H :=
  match match_host (routes g) (hostOnly host) with
  | Some r => inr (Handler (binding r))
  | None => inl 421
  end.

Definition getCertificate (g : group) (serverName : string) : option Cert :=
  match match_host (routes g) (ToLower serverName) with
  | Some {| cert := Some c |} => Some c
  | _ => defaultCert (routes g)
  end.

(** ** Tables *)

Variable X509KeyPair : string -> string -> option Cert.

Definition buildRoute (b : Binding) (groupTLS : bool) : result string route :=
  match Handler b with
  | None => Err "no handler"
  | Some _ =>
      if xorb (String.eqb (TLSCertPEM b) "") (String.eqb (TLSKeyPEM b) "") then
        Err "TLS requires both a certificate and a key"
      else if negb (String.eqb (TLSCertPEM b) "") then
        match X509KeyPair (TLSCertPEM b) (TLSKeyPEM b) with
        | Some c => Ok {| binding := b; cert := Some c |}
        | None => Err "invalid TLS keypair"
        end
      else if groupTLS then Err "port serves TLS: this binding needs its own certificate or a different port"
      else Ok {| binding := b; cert := None |}
  end.

Definition route_host (b : Binding) : string := ToLower (TrimSpace (Hostname b)).

Definition installRoute (rt : routeTable) (r : route) : result string routeTable :=
  let host := route_host (binding r) in
  if HasPrefix host "*." then
    let suffix := str_drop 1 host in
    match wildcard rt !! suffix with
    | Some _ => Err "hostname already bound on this port"
    | None => Ok {| byHost := byHost rt; wildcard := <[ suffix := r ]> (wildcard rt); defaultCert := defaultCert rt |}
    end
  else match byHost rt !! host with
       | Some _ => Err (if String.eqb host "" then "another binding is already the catch-all on this port"
                        else "hostname already bound on this port")
       | None => Ok {| byHost := <[ host := r ]> (byHost rt); wildcard := wildcard rt; defaultCert := defaultCert rt |}
       end.

Definition empty_table : routeTable := {| byHost := ∅; wildcard := ∅; defaultCert := None |}.

Definition install (tls : bool) (rt : routeTable) (b : Binding) : result string routeTable :=
  match buildRoute b tls with
  | Err e => Err e
  | Ok r => installRoute rt r
  end.

Definition new_status (addr : string) (tls shared : bool) (b : Binding) (err : string) : Status :=
  {| sOwner := Owner b; sID := ID b; sName := Name b; Address := addr; sHostname := Hostname b;
     TLS := tls; Running := false; Shared := shared; Error := err |}.

(** The loop over the bindings of an address: the table, how many are in it, and
    the statuses. *)
Definition install_step (addr : string) (tls shared : bool)
    (acc : routeTable * nat * gmap string Status) (b : Binding) : routeTable * nat * gmap string Status :=
  let '(rt, valid, sts) := acc in
  match install tls rt b with
  | Err e => (rt, valid, <[ statusKey (Owner b) (ID b) := new_status addr tls shared b e ]> sts)
  | Ok rt => (rt, S valid, <[ statusKey (Owner b) (ID b) := new_status addr tls shared b "" ]> sts)
  end.

Definition sorted_keys {A} (m : gmap string A) : list string := SliceStable str_ltb (map_to_list m).*1.

Definition fallback_cert (rt : routeTable) : option Cert :=
  let cert_of (m : gmap string route) (k : string) := r ← m !! k; cert r in
  match byHost rt !! "" with
  | Some r => cert r
  | None => match sorted_keys (byHost rt) with
            | h :: _ => cert_of (byHost rt) h
            | [] => match sorted_keys (wildcard rt) with
                    | h :: _ => cert_of (wildcard rt) h
                    | [] => None
                    end
            end
  end.

Definition group_tls (bs : list Binding) : bool :=
  existsb (fun b => negb (String.eqb (TLSCertPEM b) "") || negb (String.eqb (TLSKeyPEM b) "")) bs.

(** [markGroup] *)
Definition mark (f : Status -> Status) (bs : list Binding) (sts : gmap string Status) : gmap string Status :=
  foldl (fun sts b => alter f (statusKey (Owner b) (ID b)) sts) sts bs.

Definition set_running (s : Status) : Status :=
  {| sOwner := sOwner s; sID := sID s; sName := sName s; Address := Address s; sHostname := sHostname s;
     TLS := TLS s; Running := String.eqb (Error s) ""; Shared := Shared s; Error := Error s |}.

Definition set_error (e : string) (s : Status) : Status :=
  {| sOwner := sOwner s; sID := sID s; sName := sName s; Address := Address s; sHostname := sHostname s;
     TLS := TLS s; Running := Running s; Shared := Shared s;
     Error := if String.eqb (Error s) "" then e else Error s |}.

Definition with_default (tls : bool) (rt : routeTable) : routeTable :=
  {| byHost := byHost rt; wildcard := wildcard rt; defaultCert := if tls then fallback_cert rt else defaultCert rt |}.

(** [listen addr]: the error of [net.Listen] on this address, None when it
    succeeds. *)
Definition reconcileGroup (listen : string -> option string) (m : Manager) (addr : string) (bs : list Binding) : Manager :=
  let tls := group_tls bs in
  let '(rt, valid, sts) := foldl (install_step addr tls (1 <? length bs)%nat) (empty_table, O, status m) bs in
  let rt := with_default tls rt in
  let running := match groups m !! addr with
    | Some g => if Bool.eqb (useTLS g) tls then Some g else None
    | None => None
    end in
  let stopped := delete addr (groups m) in
  if (valid =? 0)%nat then {| owners := owners m; groups := stopped; status := sts; listens := listens m |}
  else match running with
  | Some g =>
      {| owners := owners m; groups := <[ addr := {| useTLS := useTLS g; routes := rt; gListen := gListen g |} ]> (groups m);
         status := mark set_running bs sts; listens := listens m |}
  | None =>
      match listen addr with
      | Some e => {| owners := owners m; groups := stopped; status := mark (set_error e) bs sts; listens := S (listens m) |}
      | None =>
          {| owners := owners m; groups := <[ addr := {| useTLS := tls; routes := rt; gListen := listens m |} ]> (groups m);
             status := mark set_running bs sts; listens := S (listens m) |}
      end
  end.

(** ** Reconciling *)

(** Every binding, owners in the order of their names. *)
Definition all_bindings (m : Manager) : list Binding :=
  concat ((fun o => default [] (owners m !! o)) <$> sorted_keys (owners m)).

Definition addr_of (b : Binding) : string := bindAddr (Host b) (Port b).

Definition at_addr (m : Manager) (addr : string) : list Binding :=
  List.filter (fun b => String.eqb (addr_of b) addr) (all_bindings m).

Definition desired (m : Manager) : gset string := list_to_set (addr_of <$> all_bindings m).

Variable range : gset string -> list string.

Definition reconcileLocked (listen : string -> option string) (m : Manager) : Manager :=
  let m := {| owners := owners m; groups := filter (fun ag => ag.1 ∈ desired m) (groups m);
              status := ∅; listens := listens m |} in
  foldl (fun acc addr => reconcileGroup listen acc addr (at_addr m addr)) m (range (desired m)).

Definition with_owner (o : string) (b : Binding) : Binding :=
  {| Owner := o; ID := ID b; Name := Name b; Host := Host b; Port := Port b; Hostname := Hostname b;
     TLSCertPEM := TLSCertPEM b; TLSKeyPEM := TLSKeyPEM b; Handler := Handler b |}.

Definition SetBindings (listen : string -> option string) (m : Manager) (owner : string) (bs : list Binding) : Manager :=
  let bs := with_owner owner <$> bs in
  reconcileLocked listen
    {| owners := match bs with [] => delete owner (owners m) | _ => <[ owner := bs ]> (owners m) end;
       groups := groups m; status := status m; listens := listens m |}.

Definition StatusOf (m : Manager) (owner : string) : list Status :=
  omap (fun b => status m !! statusKey (Owner b) (ID b)) (default [] (owners m !! owner)).

Definition Stop (m : Manager) : Manager :=
  {| owners := owners m; groups := ∅; status := status m; listens := listens m |}.

(** ** api/registry-listen.go: the registry's listeners *)

(** [handler ns repo] serves one repository. *)
Definition listener_binding (handler : string -> string -> H) (l : RegistryListener) : Binding :=
  {| Owner := ""; ID := lID l; Name := lName l; Host := RegistryConf.Host l; Port := RegistryConf.Port l;
     Hostname := RegistryConf.Hostname l; TLSCertPEM := RegistryConf.TLSCertPEM l; TLSKeyPEM := RegistryConf.TLSKeyPEM l;
     Handler := Some (handler (lNamespace l) (lRepo l)) |}.

Definition reconcileRegistryListeners (listen : string -> option string) (handler : string -> string -> H)
    (listeners : list RegistryListener) (m : Manager) : Manager :=
  SetBindings listen m "registry" (listener_binding handler <$> List.filter Enabled listeners).

End vhost.

Arguments Binding : clear implicits.
Arguments route : clear implicits.
Arguments routeTable : clear implicits.
Arguments group : clear implicits.
Arguments Manager : clear implicits.
