(* ===== verification/VhostSafety.v ===== *)
(** * Shared listeners: who answers for a host

    [claim] is the declarative routing table of an address: the first binding
    that builds and names the host.  A reconcile brings every running listener's
    table to it and leaves a listener that already runs in the same mode alone;
    the listeners that the registry's validator accepts are all reachable. *)

From Stdlib Require Import ZArith Lia Ascii.
From stdpp Require Import base list strings gmap.
From S2P Require Import Prelude GoStrings RegistryConf RegistryConfSafety Vhost.

Local Open Scope Z_scope.

Section safety.
Context {H Cert : Type}.
Variable X509KeyPair : string -> string -> option Cert.
Implicit Types (b : Binding H) (bs : list (Binding H)) (rt : routeTable H Cert) (m : Manager H Cert).

Notation buildRoute := (buildRoute X509KeyPair).
Notation install := (install X509KeyPair).
Notation install_step := (install_step X509KeyPair).
Notation reconcileGroup := (reconcileGroup X509KeyPair).

(** ** The table of an address *)

(** What a binding claims: a host, or the hosts one label below a suffix. *)
Definition slot b : bool * string :=
  let h := route_host b in if HasPrefix h "*." then (true, str_drop 1 h) else (false, h).

Definition entry rt (s : bool * string) : option (route H Cert) :=
  if s.1 then wildcard rt !! s.2 else byHost rt !! s.2.

Fixpoint claim (tls : bool) bs (s : bool * string) : option (route H Cert) :=
  match bs with
  | [] => None
  | b :: bs =>
      match buildRoute b tls with
      | Ok r => if bool_decide (slot b = s) then Some r else claim tls bs s
      | Err _ => claim tls bs s
      end
  end.

Lemma buildRoute_binding b tls r : buildRoute b tls = Ok r -> binding r = b.
Proof. unfold Vhost.buildRoute. intros E. repeat case_match; simplify_eq; done. Qed.

Lemma install_entry tls rt b rt' : install tls rt b = Ok rt' ->
  exists r, buildRoute b tls = Ok r /\ entry rt (slot b) = None /\
    forall s, entry rt' s = if bool_decide (slot b = s) then Some r else entry rt s.
Proof.
  unfold Vhost.install. destruct (buildRoute b tls) as [r|] eqn:E; [|done]. pose proof (buildRoute_binding _ _ _ E) as Eb.
  unfold installRoute, slot, entry. rewrite Eb. cbv zeta. destruct (HasPrefix (route_host b) "*.").
  - destruct (wildcard rt !! _) eqn:Ew; [done|]. intros [= <-]. exists r. split_and!; [done|done|].
    intros [[] k]; cbn [fst snd wildcard byHost].
    + case_bool_decide as Ek; [injection Ek as <-; by rewrite lookup_insert_eq|].
      rewrite lookup_insert_ne; [done|]. intros <-. by apply Ek.
    + by rewrite bool_decide_false.
  - destruct (byHost rt !! _) eqn:Ew; [done|]. intros [= <-]. exists r. split_and!; [done|done|].
    intros [[] k]; cbn [fst snd wildcard byHost].
    + by rewrite bool_decide_false.
    + case_bool_decide as Ek; [injection Ek as <-; by rewrite lookup_insert_eq|].
      rewrite lookup_insert_ne; [done|]. intros <-. by apply Ek.
Qed.

Lemma install_rejected tls rt b e : install tls rt b = Err e ->
  (exists e', buildRoute b tls = Err e') \/ exists r, buildRoute b tls = Ok r /\ entry rt (slot b) <> None.
Proof.
  unfold Vhost.install. destruct (buildRoute b tls) as [r|e'] eqn:E; [|intros _; left; by exists e'].
  pose proof (buildRoute_binding _ _ _ E) as Eb. unfold installRoute, slot, entry. rewrite Eb. cbv zeta. intros Hi. right. exists r.
  split; [done|]. destruct (HasPrefix (route_host b) "*."); cbn [fst snd]; [destruct (wildcard rt !! _)|destruct (byHost rt !! _)]; done.
Qed.

Lemma fold_entry addr tls sh bs rt v sts : let '(rt', v', sts') := foldl (install_step addr tls sh) (rt, v, sts) bs in
  (forall s, entry rt' s = match entry rt s with Some r => Some r | None => claim tls bs s end) /\
  (v <= v')%nat /\ (v' = v -> rt' = rt) /\ (v <> v' -> exists s, claim tls bs s <> None).
Proof.
  revert rt v sts. induction bs as [|b bs IH]; intros rt v sts; cbn [foldl].
  { split_and!; [|lia|done|lia]. intros s. cbn. by destruct (entry rt s). }
  unfold Vhost.install_step at 2. destruct (install tls rt b) as [rt1|e] eqn:E.
  - specialize (IH rt1 (S v) (<[ statusKey (Owner b) (ID b) := new_status addr tls sh b "" ]> sts)).
    destruct (foldl _ _ bs) as [[rt' v'] sts']. destruct IH as (He & Hv & _ & _).
    destruct (install_entry _ _ _ _ E) as (r & Er & Hn & Hs). split_and!; [|lia|lia|].
    + intros s. rewrite He, Hs. cbn [claim]. rewrite Er. case_bool_decide as Ek; [by subst; rewrite Hn|done].
    + intros _. exists (slot b). cbn [claim]. rewrite Er. by rewrite bool_decide_true.
  - specialize (IH rt v (<[ statusKey (Owner b) (ID b) := new_status addr tls sh b e ]> sts)).
    destruct (foldl _ _ bs) as [[rt' v'] sts']. destruct IH as (He & Hv & Hsame & Hsome).
    assert (Hc : forall s, entry rt s = None -> claim tls (b :: bs) s = claim tls bs s).
    { intros s Hs. cbn [claim]. destruct (install_rejected _ _ _ _ E) as [[e' ->]|(r & -> & Hr)]; [done|].
      case_bool_decide as Ek; [by subst|done]. }
    split_and!; [|done|done|].
    + intros s. rewrite He. destruct (entry rt s) eqn:Es; [done|]. by rewrite Hc.
    + intros Hne. destruct (Hsome Hne) as (s & Hs). exists s. cbn [claim].
      destruct (buildRoute b tls); [|done]. by case_bool_decide.
Qed.

(** Building no route is the same as claiming nothing. *)
Lemma claim_none tls bs : (forall s, claim tls bs s = None) <-> Forall (fun b => is_ok (buildRoute b tls) = false) bs.
Proof.
  induction bs as [|b bs IH]; [done|]. rewrite Forall_cons, <-IH. cbn [claim]. split.
  - intros Hs. destruct (buildRoute b tls) as [r|e].
    + specialize (Hs (slot b)). by rewrite bool_decide_true in Hs.
    + done.
  - intros [Hb Hs] s. by destruct (buildRoute b tls).
Qed.

(** ** One address *)

(** The running listener of an address after a reconcile, from the one before. *)
Definition group_after (listen : string -> option string) (addr : string) bs (g g' : option (group H Cert)) : Prop :=
  let tls := group_tls bs in
  match g' with
  | Some g' =>
      useTLS g' = tls /\ (forall s, entry (routes g') s = claim tls bs s) /\ (exists s, claim tls bs s <> None) /\
      (forall g0, g = Some g0 -> useTLS g0 = tls -> gListen g' = gListen g0) /\
      ((exists g0, g = Some g0 /\ useTLS g0 = tls) \/ listen addr = None)
  | None =>
      (forall s, claim tls bs s = None) \/
      ((forall g0, g = Some g0 -> useTLS g0 <> tls) /\ listen addr <> None)
  end.

Lemma with_default_entry tls rt s : entry (with_default tls rt) s = entry rt s.
Proof. done. Qed.

Lemma reconcileGroup_after listen m addr bs :
  let m' := reconcileGroup listen m addr bs in
  owners m' = owners m /\ (forall a, a <> addr -> groups m' !! a = groups m !! a) /\
  group_after listen addr bs (groups m !! addr) (groups m' !! addr).
Proof.
  unfold Vhost.reconcileGroup. cbv zeta.
  pose proof (fold_entry addr (group_tls bs) (1 <? length bs)%nat bs empty_table O (status m)) as Hf.
  destruct (foldl _ _ bs) as [[rt v] sts]. destruct Hf as (He & _ & Hsame & Hsome).
  assert (He' : forall s, entry (with_default (group_tls bs) rt) s = claim (group_tls bs) bs s).
  { intros s. rewrite with_default_entry, He. unfold entry. destruct s as [[] k]; cbn; by rewrite lookup_empty. }
  destruct (v =? 0)%nat eqn:Ev.
  { apply Nat.eqb_eq in Ev as ->. cbn [owners groups]. split_and!; [done|intros a Ha; by rewrite lookup_delete_ne|].
    rewrite lookup_delete_eq. left. intros s. rewrite <-He', (Hsame eq_refl).
    unfold entry. destruct s as [[] k]; cbn; by rewrite lookup_empty. }
  apply Nat.eqb_neq in Ev. specialize (Hsome ltac:(lia)).
  assert (Hnone : forall g, groups m !! addr = g -> (match g with Some g => if Bool.eqb (useTLS g) (group_tls bs) then Some g else None | None => None end) = None ->
    forall g0, g = Some g0 -> useTLS g0 <> group_tls bs).
  { intros g _ E g0 -> Et. rewrite Et, Bool.eqb_reflx in E. done. }
  destruct (match groups m !! addr with Some g => _ | None => None end) as [g|] eqn:Er.
  - destruct (groups m !! addr) as [g0|] eqn:Eg; [|done]. destruct (Bool.eqb (useTLS g0) _) eqn:Et; [|done]. injection Er as ->.
    apply Bool.eqb_prop in Et. cbn [owners groups]. split_and!; [done|intros a Ha; by rewrite lookup_insert_ne|].
    rewrite lookup_insert_eq. split_and!; [done|done|done|by intros g1 [= <-]|left; by exists g].
  - specialize (Hnone _ eq_refl Er). destruct (listen addr) as [e|] eqn:El; cbn [owners groups].
    + split_and!; [done|intros a Ha; by rewrite lookup_delete_ne|]. rewrite lookup_delete_eq. right. by rewrite El.
    + split_and!; [done|intros a Ha; by rewrite lookup_insert_ne|]. rewrite lookup_insert_eq.
      split_and!; [done|done|done| |by right]. intros g0 E Et. exfalso. by apply (Hnone g0).
Qed.

Lemma fold_groups listen m0 l m : NoDup l ->
  let m' := foldl (fun acc addr => reconcileGroup listen acc addr (at_addr m0 addr)) m l in
  owners m' = owners m /\
  forall a, (a ∉ l -> groups m' !! a = groups m !! a) /\
            (a ∈ l -> group_after listen a (at_addr m0 a) (groups m !! a) (groups m' !! a)).
Proof.
  revert m. induction l as [|x l IH]; intros m Hn; cbn [foldl].
  { split; [done|]. intros a. split; [done|]. intros Hx. by inversion Hx. }
  apply NoDup_cons in Hn as [Hx Hn]. destruct (reconcileGroup_after listen m x (at_addr m0 x)) as (Eo & Hot & Hg).
  destruct (IH (reconcileGroup listen m x (at_addr m0 x)) Hn) as (Eo' & Hall). split; [by rewrite Eo', Eo|].
  intros a. destruct (Hall a) as [Hni Hin]. split.
  - intros Ha. apply not_elem_of_cons in Ha as [Hax Hal]. rewrite Hni by done. by apply Hot.
  - intros Ha. destruct (decide (a = x)) as [->|Hax].
    + rewrite Hni by done. exact Hg.
    + apply elem_of_cons in Ha as [?|Ha]; [done|]. rewrite <-(Hot a Hax). by apply Hin.
Qed.

(** ** A reconcile *)

Variable range : gset string -> list string.
Hypothesis range_law : forall s, range s ≡ₚ elements s.

Notation SetBindings := (SetBindings X509KeyPair range).

Lemma all_bindings_owners m m' : owners m' = owners m -> all_bindings m' = all_bindings m.
Proof. intros E. unfold all_bindings. by rewrite E. Qed.

Lemma SetBindings_owners listen m owner bs :
  owners (SetBindings listen m owner bs) =
    match bs with [] => delete owner (owners m) | _ => <[ owner := with_owner owner <$> bs ]> (owners m) end.
Proof.
  unfold Vhost.SetBindings, reconcileLocked.
  set (m2 := {| owners := _; groups := filter _ _; status := ∅; listens := _ |}).
  assert (Hnd : NoDup (range (desired m2))) by (rewrite range_law; apply NoDup_elements).
  destruct (fold_groups listen m2 (range (desired m2)) m2 Hnd) as (Eo & _). rewrite Eo. unfold m2. cbn [owners]. by destruct bs.
Qed.

(** C19: after a subsystem has published its bindings every address that a binding
    names has a listener exactly when one of its bindings builds and the listener
    already ran in that mode or could be opened; its table maps every host to the
    first binding that builds and claims it; a listener that ran in the same mode
    is the same listener; every other address is closed. *)
Theorem SetBindings_spec listen m owner bs addr :
  let m' := SetBindings listen m owner bs in
  owners m' = (match bs with [] => delete owner (owners m) | _ => <[ owner := with_owner owner <$> bs ]> (owners m) end) /\
  if decide (addr ∈ desired m') then group_after listen addr (at_addr m' addr) (groups m !! addr) (groups m' !! addr)
  else groups m' !! addr = None.
Proof.
  cbv zeta. unfold Vhost.SetBindings, reconcileLocked.
  set (os := match with_owner owner <$> bs with [] => _ | _ => _ end).
  set (m1 := {| owners := os; groups := groups m; status := status m; listens := listens m |}).
  set (m2 := {| owners := owners m1; groups := _; status := ∅; listens := listens m1 |}).
  assert (Hnd : NoDup (range (desired m2))) by (rewrite range_law; apply NoDup_elements).
  destruct (fold_groups listen m2 (range (desired m2)) m2 Hnd) as (Eo & Hall).
  set (m' := foldl _ m2 _) in *.
  assert (Ed : desired m' = desired m2) by (unfold desired; by rewrite (all_bindings_owners m2 m' Eo)).
  assert (Ea : at_addr m' addr = at_addr m2 addr) by (unfold at_addr; by rewrite (all_bindings_owners m2 m' Eo)).
  split.
  { rewrite Eo. unfold m2, m1, os. cbn [owners]. by destruct bs. }
  rewrite Ed, Ea. destruct (Hall addr) as [Hni Hin].
  assert (Hr : addr ∈ range (desired m2) <-> addr ∈ desired m2) by (rewrite range_law; apply elem_of_elements).
  destruct (decide (addr ∈ desired m2)) as [Hd|Hd].
  - specialize (Hin (proj2 Hr Hd)). assert (Eg : groups m2 !! addr = groups m !! addr).
    { unfold m2. cbn [groups]. rewrite map_lookup_filter. change (groups m !! addr) with (groups m1 !! addr).
      destruct (groups m1 !! addr) as [g|]; [|done]. cbn. by rewrite option_guard_True. }
    by rewrite Eg in Hin.
  - rewrite Hni by (by rewrite Hr). unfold m2. cbn [groups]. rewrite map_lookup_filter.
    destruct (groups m1 !! addr) as [g|]; [|done]. cbn. by rewrite option_guard_False.
Qed.

(** ** The registry's listeners *)

Variable handler : string -> string -> H.

(** What the validator knows of a key pair. *)
Definition pair_ok (c k : string) : bool := is_some (X509KeyPair c k).

Definition host_char (c : ascii) : bool := hostname_char c || Ascii.eqb c "." || Ascii.eqb c "*".

Lemma Join_forallb p l sep : str_forallb p sep = true -> Forall (fun w => str_forallb p w = true) l -> str_forallb p (Join l sep) = true.
Proof.
  intros Hs. induction 1 as [|w l Hw Hl IH]; [done|]. destruct l as [|w' l]; [done|].
  rewrite Join_cons, !str_forallb_app, Hw, Hs. exact IH.
Qed.

Lemma valid_hostname_chars h : ValidateListenerHostname h = Ok tt -> str_forallb host_char h = true.
Proof.
  unfold ValidateListenerHostname. destruct (String.eqb_spec h "") as [->|_]; [done|]. cbv zeta.
  rewrite !seq_ok, check_all_ok. intros (_ & _ & _ & Hl).
  assert (Hc : str_forallb host_char (TrimPrefix h "*.") = true).
  { rewrite <-(Join_Split (TrimPrefix h "*.") "."). apply Join_forallb; [done|]. eapply Forall_impl; [exact Hl|].
    intros w Hw. unfold validate_label in Hw. rewrite !seq_ok, !reject_ok in Hw. destruct Hw as (_ & Hw & _).
    apply negb_false_iff in Hw. eapply str_forallb_impl; [|exact Hw]. intros c Hcc. unfold host_char. by rewrite Hcc. }
  unfold TrimPrefix in Hc. destruct (HasPrefix h "*.") eqn:Ep; [|done].
  apply HasPrefix_spec in Ep as (r & ->). rewrite str_forallb_app. cbn [str_forallb]. rewrite str_drop_app in Hc. by rewrite Hc.
Qed.

Lemma host_char_graphic c : host_char c = true -> graphic c = true /\ lower c = c.
Proof.
  destruct c as [[] [] [] [] [] [] [] []]; vm_compute; try discriminate; intros _; by split.
Qed.

Lemma valid_hostname_normal h : ValidateListenerHostname h = Ok tt -> ToLower (TrimSpace h) = h.
Proof.
  intros Hv. apply valid_hostname_chars in Hv. rewrite TrimSpace_noop.
  - unfold ToLower. induction h as [|c h IH]; [done|]. cbn in Hv |- *. apply andb_true_iff in Hv as [Hc Hv].
    destruct (host_char_graphic c Hc) as [_ ->]. by rewrite IH.
  - eapply str_forallb_impl; [|exact Hv]. intros c Hc. by apply host_char_graphic.
Qed.

Definition listener_slot (l : RegistryListener) : bool * string := slot (listener_binding handler l).

Lemma listener_slot_inj l l' : ValidateListenerHostname (RegistryConf.Hostname l) = Ok tt ->
  ValidateListenerHostname (RegistryConf.Hostname l') = Ok tt ->
  listener_slot l = listener_slot l' -> RegistryConf.Hostname l = RegistryConf.Hostname l'.
Proof.
  intros Hv Hv'. unfold listener_slot, slot, route_host. cbn [listener_binding Hostname].
  rewrite !valid_hostname_normal by done. cbv zeta.
  destruct (HasPrefix (RegistryConf.Hostname l) "*.") eqn:E, (HasPrefix (RegistryConf.Hostname l') "*.") eqn:E'; try done; [|by intros [= ->]].
  apply HasPrefix_spec in E as (r & ->), E' as (r' & ->). intros [= E]. cbn in E. congruence.
Qed.

Lemma bindAddr_port h h' p p' : 1 <= p <= 65535 -> 1 <= p' <= 65535 -> bindAddr h p = bindAddr h' p' -> p = p'.
Proof.
  intros Hp Hp'. assert (Hi : forall h p, 1 <= p <= 65535 -> exists x, bindAddr h p = x +:+ String ":" (itoa p)).
  { clear. intros h p Hp. unfold bindAddr, JoinHostPort. set (a := if String.eqb h "" then _ else _).
    destruct (ContainsByte a ":"); [exists ("[" +:+ a +:+ "]")|by exists a]. by rewrite !str_app_assoc. }
  assert (Hn : forall p, 1 <= p <= 65535 -> no_byte ":" (itoa p) = true).
  { clear. intros p Hp. apply (no_byte_forallb is_digit); [done|]. apply itoa_digits. lia. }
  destruct (Hi h p Hp) as (x & ->), (Hi h' p' Hp') as (y & ->). intros E.
  apply last_cut in E as [_ E]; [|by apply Hn..]. apply itoa_inj in E; [done|unfold int64_max; lia..].
Qed.

Lemma claim_unique tls bs b r : b ∈ bs -> buildRoute b tls = Ok r -> (forall b', b' ∈ bs -> slot b' = slot b -> b' = b) ->
  claim tls bs (slot b) = Some r.
Proof.
  intros Hb Hr Hu. induction bs as [|x bs IH]; [by inversion Hb|]. cbn [claim].
  destruct (decide (slot x = slot b)) as [E|E].
  - assert (x = b) as -> by (apply Hu; [by left|done]). rewrite Hr. by rewrite bool_decide_true.
  - assert (Hb' : b ∈ bs) by (apply elem_of_cons in Hb as [->|Hb]; done).
    rewrite bool_decide_false by done. rewrite IH; [by destruct (buildRoute x tls)|done|].
    intros b' Hb''. apply Hu. by right.
Qed.

Lemma claim_absent tls bs s : (forall b, b ∈ bs -> slot b <> s) -> claim tls bs s = None.
Proof.
  induction bs as [|b bs IH]; intros Hs; [done|]. cbn [claim]. rewrite bool_decide_false by (apply Hs; by left).
  rewrite IH; [by destruct (buildRoute b tls)|]. intros b' Hb'. apply Hs. by right.
Qed.

(** The listeners of [out] on an address. *)
Definition on_addr (out : list RegistryListener) (addr : string) (l : RegistryListener) : Prop :=
  l ∈ out /\ Enabled l = true /\ bindAddr (RegistryConf.Host l) (RegistryConf.Port l) = addr.

Definition owned (l : RegistryListener) : Binding H := with_owner "registry" (listener_binding handler l).

Lemma elem_of_sorted_keys {A} (mp : gmap string A) k : k ∈ sorted_keys mp <-> is_Some (mp !! k).
Proof.
  unfold sorted_keys. rewrite SliceStable_perm, list_elem_of_fmap. split.
  - intros ([k' v] & -> & Hv). apply elem_of_map_to_list in Hv. by eexists.
  - intros [v Hv]. exists (k, v). split; [done|]. by apply elem_of_map_to_list.
Qed.

Lemma at_addr_listeners listen m out addr :
  (forall o bs b, owners m !! o = Some bs -> o <> "registry" -> b ∈ bs -> addr_of b <> addr) ->
  forall b, b ∈ at_addr (reconcileRegistryListeners X509KeyPair range listen handler out m) addr <->
    exists l, b = owned l /\ on_addr out addr l.
Proof.
  intros Hoth b. set (m' := reconcileRegistryListeners _ _ _ _ _ _).
  destruct (SetBindings_spec listen m "registry" (listener_binding handler <$> List.filter Enabled out) addr) as [Eo _].
  fold (reconcileRegistryListeners X509KeyPair range listen handler out m) in Eo. fold m' in Eo.
  unfold at_addr, all_bindings. rewrite list_elem_of_In, List.filter_In, <-list_elem_of_In, String.eqb_eq.
  assert (Hown : forall o bs, owners m' !! o = Some bs ->
    (o = "registry" /\ bs = owned <$> List.filter Enabled out) \/ (o <> "registry" /\ owners m !! o = Some bs)).
  { intros o bs Ho. rewrite Eo in Ho. destruct (decide (o = "registry")) as [->|Hne].
    - left. split; [done|]. revert Ho. rewrite <-list_fmap_compose. destruct (List.filter Enabled out) as [|x xs]; cbn [fmap list_fmap].
      + by rewrite lookup_delete_eq.
      + rewrite lookup_insert_eq. by intros [= <-].
    - right. split; [done|]. destruct (listener_binding handler <$> List.filter Enabled out) as [|x xs];
        [by rewrite lookup_delete_ne in Ho|by rewrite lookup_insert_ne in Ho]. }
  split.
  - intros [Hb Ea]. apply list_elem_of_In, List.in_concat in Hb as (bs & Hbs & Hb). apply list_elem_of_In in Hbs, Hb.
    apply list_elem_of_fmap in Hbs as (o & -> & Ho). apply elem_of_sorted_keys in Ho as [bs Ho]. rewrite Ho in Hb. cbn in Hb.
    destruct (Hown o bs Ho) as [[_ ->]|[Hne Hm]]; [|by destruct (Hoth o bs b Hm Hne Hb)].
    apply list_elem_of_fmap in Hb as (l & -> & Hl). apply list_elem_of_In, List.filter_In in Hl as [Hl He].
    exists l. split; [done|]. split; [by apply list_elem_of_In|]. by split.
  - intros (l & -> & Hl & He & Ea). split; [|exact Ea].
    assert (Hin : l ∈ List.filter Enabled out) by (apply list_elem_of_In, List.filter_In; split; [by apply list_elem_of_In|done]).
    assert (Ho : owners m' !! "registry" = Some (owned <$> List.filter Enabled out)).
    { rewrite Eo. destruct (List.filter Enabled out) as [|x xs]; [by inversion Hin|]. cbn [fmap list_fmap].
      by rewrite lookup_insert_eq, <-list_fmap_compose. }
    apply list_elem_of_In, List.in_concat. eexists. split.
    + apply list_elem_of_In, list_elem_of_fmap. exists "registry". split; [done|]. apply elem_of_sorted_keys. by eexists.
    + rewrite Ho. apply list_elem_of_In, list_elem_of_fmap. by exists l.
Qed.

(** A listener answers for a host: it names it, or covers it and nobody names it,
    or takes what nobody names or covers. *)
Definition answers (out : list RegistryListener) (addr : string) (l : RegistryListener) (h : string) : Prop :=
  let hn := RegistryConf.Hostname in
  let named := exists l', on_addr out addr l' /\ hn l' = h in
  let covers l' := exists label suffix, h = label +:+ String "." suffix /\ label <> "" /\ no_byte "." label = true /\
                     hn l' = "*." +:+ suffix in
  (HasPrefix h "*." = false /\ hn l = h) \/
  (covers l /\ HasPrefix h "*." = false /\ ~ named) \/
  (hn l = "" /\ HasPrefix h "*." = false /\ ~ named /\ ~ exists l', on_addr out addr l' /\ covers l').

Lemma listener_slot_eq l : ValidateListenerHostname (RegistryConf.Hostname l) = Ok tt ->
  slot (owned l) = if HasPrefix (RegistryConf.Hostname l) "*." then (true, str_drop 1 (RegistryConf.Hostname l))
                   else (false, RegistryConf.Hostname l).
Proof. intros Hv. unfold slot, route_host. cbn [owned with_owner listener_binding Hostname]. by rewrite valid_hostname_normal. Qed.

(** The route of a host in a table that holds the claims of listeners. *)
Lemma match_listener out addr tls bs rt l r h :
  (forall s, entry rt s = claim tls bs s) -> (forall b, b ∈ bs <-> exists l, b = owned l /\ on_addr out addr l) ->
  (forall l, on_addr out addr l -> ValidateListenerHostname (RegistryConf.Hostname l) = Ok tt) ->
  on_addr out addr l -> claim tls bs (slot (owned l)) = Some r -> answers out addr l h -> match_host rt h = Some r.
Proof.
  intros He Hbs Hval Hl Hr Ha.
  assert (Hex : forall k, byHost rt !! k = claim tls bs (false, k)) by (intros k; apply (He (false, k))).
  assert (Hwi : forall k, wildcard rt !! k = claim tls bs (true, k)) by (intros k; apply (He (true, k))).
  assert (Hs : slot (owned l) = if HasPrefix (RegistryConf.Hostname l) "*." then (true, str_drop 1 (RegistryConf.Hostname l))
                                else (false, RegistryConf.Hostname l)) by (apply listener_slot_eq, Hval, Hl).
  assert (Hnamed : HasPrefix h "*." = false -> (~ exists l', on_addr out addr l' /\ RegistryConf.Hostname l' = h) ->
    claim tls bs (false, h) = None).
  { intros _ Hn. apply claim_absent. intros b Hb. apply Hbs in Hb as (l' & -> & Hl'). intros E. apply Hn. exists l'.
    split; [done|]. rewrite listener_slot_eq in E by (by apply Hval). destruct (HasPrefix (RegistryConf.Hostname l') "*."); congruence. }
  unfold match_host. destruct Ha as [(Hp & Eh)|[((label & suffix & Eh & Hne & Hlab & Ew) & Hp & Hn)|(Ee & Hp & Hn & Hc)]].
  - rewrite Eh, Hp in Hs. rewrite Hs in Hr. destruct (String.eqb_spec h "") as [->|_].
    + by rewrite Hex, Hr.
    + by rewrite Hex, Hr.
  - assert (Hs' : slot (owned l) = (true, String "." suffix)) by (rewrite Hs, Ew; done). rewrite Hs' in Hr.
    assert (Hh : String.eqb h "" = false) by (apply String.eqb_neq; rewrite Eh; by destruct label).
    rewrite Hh, Hex, Hnamed by done. rewrite Eh, (IndexByte_app label "." suffix Hlab).
    destruct (len label) as [|n] eqn:En; [by destruct label|]. rewrite <-En, str_drop_app, Hwi, Hr. done.
  - rewrite Ee in Hs. cbn in Hs. rewrite Hs in Hr. destruct (String.eqb_spec h "") as [->|Hh]; [by rewrite Hex, Hr|].
    rewrite (Hex h), Hnamed by done.
    assert (Hw : match IndexByte h "." with Some (S i) => wildcard rt !! str_drop (S i) h | _ => None end = None).
    { destruct (IndexByte h ".") as [[|i]|] eqn:Ei; [done| |done]. apply IndexByte_Some in Ei as (Eab & Hna).
      rewrite Hwi. apply claim_absent. intros x Hx. apply Hbs in Hx as (l' & -> & Hl'). intros E.
      rewrite listener_slot_eq in E by (by apply Hval). destruct (HasPrefix (RegistryConf.Hostname l') "*.") eqn:Ep; [|done].
      apply HasPrefix_spec in Ep as (suffix & Es).
      assert (Ed : str_drop (S i) h = String "." (str_drop (S i + 1) h)).
      { apply (str_app_inj_l (str_take (S i) h)). by rewrite take_drop_str, <-Eab. }
      rewrite Ed, Es in E. cbn in E. injection E as E. apply Hc. exists l'. split; [done|].
      exists (str_take (S i) h), suffix. split_and!; [by rewrite E|by destruct h|done|done]. }
    rewrite Hw. by rewrite Hex, Hr.
Qed.

(** C18: the listeners that the validator has accepted are reachable: once they are
    published, and no other subsystem binds the address, every enabled listener
    whose address can be opened has a listener in the right mode, and a request
    whose Host it answers for gets the repository it points at. *)
Theorem listeners_served listen m rs ls out l host :
  ValidateListeners pair_ok rs ls = Ok out -> l ∈ out -> Enabled l = true ->
  let addr := bindAddr (RegistryConf.Host l) (RegistryConf.Port l) in
  (forall o bs b, owners m !! o = Some bs -> o <> "registry" -> b ∈ bs -> addr_of b <> addr) ->
  listen addr = None ->
  exists g, groups (reconcileRegistryListeners X509KeyPair range listen handler out m) !! addr = Some g /\
    useTLS g = nonempty (RegistryConf.TLSCertPEM l) /\
    (answers out addr l (hostOnly host) -> dispatch g host = inr (Some (handler (lNamespace l) (lRepo l)))).
Proof.
  intros Hv Hl He addr Hoth Hli. destruct (listeners_disjoint pair_ok rs ls out Hv) as (_ & Hwf & Hnd & Htls).
  set (m' := reconcileRegistryListeners _ _ _ _ _ _).
  pose proof (at_addr_listeners listen m out addr Hoth) as Hbs. fold m' in Hbs.
  assert (Hon : on_addr out addr l) by (split; [done|by split]).
  assert (Hval : forall l', on_addr out addr l' -> listener_wf pair_ok rs l') by (intros l' (Hin & _); by apply (proj1 (Forall_forall _ _) Hwf)).
  assert (Hport : forall l', on_addr out addr l' -> RegistryConf.Port l' = RegistryConf.Port l).
  { intros l' Hl'. pose proof (Hval l' Hl') as (Hp' & _). pose proof (Hval l Hon) as (Hp & _). destruct Hl' as (_ & _ & Ea).
    by apply (bindAddr_port (RegistryConf.Host l') (RegistryConf.Host l)). }
  assert (Hsame : forall l', on_addr out addr l' -> (RegistryConf.TLSCertPEM l' = "" <-> RegistryConf.TLSCertPEM l = "")).
  { intros l' Hl'. pose proof (Hport l' Hl'). destruct Hl' as (Hin & Hen & _). by apply Htls. }
  assert (Hg : group_tls (at_addr m' addr) = nonempty (RegistryConf.TLSCertPEM l)).
  { unfold group_tls, nonempty. destruct (String.eqb_spec (RegistryConf.TLSCertPEM l) "") as [Ec|Ec]; cbn [negb].
    - apply not_true_iff_false. intros Hx. apply existsb_exists in Hx as (b & Hb & Hx). apply list_elem_of_In, Hbs in Hb as (l' & -> & Hl').
      pose proof (Hval l' Hl') as (_ & _ & _ & Hk & _). apply (Hsame l' Hl') in Ec. cbn in Hx. rewrite Ec, (proj1 Hk Ec) in Hx. done.
    - apply existsb_exists. exists (owned l). split; [apply list_elem_of_In, Hbs; by exists l|]. cbn.
      by rewrite (proj2 (String.eqb_neq _ _) Ec). }
  assert (Hb : exists r, buildRoute (owned l) (nonempty (RegistryConf.TLSCertPEM l)) = Ok r /\ binding r = owned l).
  { pose proof (Hval l Hon) as (_ & _ & _ & Hk & Hx). unfold Vhost.buildRoute, nonempty. cbn [owned with_owner listener_binding Handler TLSCertPEM TLSKeyPEM].
    destruct (String.eqb_spec (RegistryConf.TLSCertPEM l) "") as [Ec|Ec].
    - rewrite (proj1 Hk Ec). cbn. by eexists.
    - destruct (String.eqb_spec (RegistryConf.TLSKeyPEM l) "") as [Ek|_]; [by apply Hk in Ek|]. cbn [xorb negb].
      specialize (Hx Ec). unfold pair_ok in Hx. destruct (X509KeyPair _ _); [|done]. by eexists. }
  destruct Hb as (r & Hr & Hrb).
  assert (Hclaim : claim (group_tls (at_addr m' addr)) (at_addr m' addr) (slot (owned l)) = Some r).
  { rewrite Hg. apply claim_unique; [apply Hbs; by exists l|done|]. intros b Hb' Es. apply Hbs in Hb' as (l' & -> & Hl').
    f_equal. pose proof (Hval l' Hl') as (_ & Hh' & _). pose proof (Hval l Hon) as (_ & Hh & _).
    assert (Ehn : RegistryConf.Hostname l' = RegistryConf.Hostname l) by (by apply listener_slot_inj).
    pose proof (Hport l' Hl') as Hp. destruct Hl' as (Hin' & Hen' & _).
    apply (NoDup_fmap_eq claims (filter (fun l => Enabled l = true) out)); [done|by apply list_elem_of_filter..|].
    unfold claims. by rewrite Hp, Ehn. }
  destruct (SetBindings_spec listen m "registry" (listener_binding handler <$> List.filter Enabled out) addr) as [_ Hspec].
  fold (reconcileRegistryListeners X509KeyPair range listen handler out m) in Hspec. fold m' in Hspec.
  assert (Hd : addr ∈ desired m').
  { unfold desired. apply elem_of_list_to_set, list_elem_of_fmap. exists (owned l). split; [done|].
    assert (Hin : owned l ∈ at_addr m' addr) by (apply Hbs; by exists l). unfold at_addr in Hin.
    by apply list_elem_of_In, List.filter_In in Hin as [Hin%list_elem_of_In _]. }
  rewrite decide_True in Hspec by done. unfold group_after in Hspec. destruct (groups m' !! addr) as [g|].
  2:{ destruct Hspec as [Hno|[_ Hno]]; [|done]. by rewrite Hno in Hclaim. }
  destruct Hspec as (Eu & Hent & _). exists g. split; [done|]. split; [by rewrite Eu|]. intros Ha. unfold dispatch.
  rewrite (match_listener out addr _ _ (routes g) l r _ Hent Hbs) by (done || intros l' Hl'; by apply Hval). by rewrite Hrb.
Qed.

End safety.

(** ** Examples *)

Definition sample_pair (c k : string) : option string := if String.eqb c k then Some c else None.
Definition open_all (_ : string) : option string := None.
Definition by_name (ns repo : string) : string * string := (ns, repo).

Definition published : Manager (string * string) string :=
  reconcileRegistryListeners sample_pair elements open_all by_name (normalised <$> two_listeners) NewManager.

Lemma elements_law (s : gset string) : elements s ≡ₚ elements s.
Proof. done. Qed.

Definition docker_listener : RegistryListener :=
  {| lID := "1"; lName := "main"; Enabled := true; RegistryConf.Host := ""; RegistryConf.Port := 8443;
     RegistryConf.Hostname := "registry.example.com"; lNamespace := "team"; lRepo := "docker";
     RegistryConf.TLSCertPEM := "pair"; RegistryConf.TLSKeyPEM := "pair" |}.

Lemma listeners_served_witness : exists g, groups published !! "0.0.0.0:8443" = Some g /\
  useTLS g = true /\ dispatch g "Registry.Example.com:8443" = inr (Some ("team", "docker")).
Proof.
  assert (Hv : ValidateListeners (pair_ok sample_pair) None two_listeners = Ok (normalised <$> two_listeners)) by reflexivity.
  assert (Hl : docker_listener ∈ normalised <$> two_listeners) by (by left).
  destruct (listeners_served sample_pair elements elements_law by_name open_all NewManager None two_listeners
    (normalised <$> two_listeners) docker_listener "Registry.Example.com:8443" Hv Hl eq_refl) as (g & Hg & Ht & Hd).
  - intros o bs b Ho. cbn in Ho. by rewrite lookup_empty in Ho.
  - reflexivity.
  - exists g. split; [exact Hg|]. split; [exact Ht|]. apply Hd. left. by split.
Defined.

(** Another host of the domain falls to the wildcard; a host nobody names is
    misdirected. *)
Lemma published_hosts : exists g, groups published !! "0.0.0.0:8443" = Some g /\
  dispatch g "npm.example.com" = inr (Some ("team", "npm")) /\ dispatch g "a.npm.example.com" = inl 421 /\
  dispatch g "other.org:8443" = inl 421.
Proof.
  destruct (groups published !! "0.0.0.0:8443") as [g|] eqn:E; [|by vm_compute in E].
  exists g. split; [done|]. revert E. vm_compute. intros [= <-]. by split_and!.
Qed.

(** A second reconcile keeps the listener. *)
Lemma SetBindings_spec_witness :
  let again := reconcileRegistryListeners sample_pair elements open_all by_name (normalised <$> two_listeners) published in
  group_after sample_pair open_all "0.0.0.0:8443" (at_addr again "0.0.0.0:8443")
    (groups published !! "0.0.0.0:8443") (groups again !! "0.0.0.0:8443") /\
  (gListen <$> groups again !! "0.0.0.0:8443") = Some O.
Proof.
  cbv zeta. split; [|vm_compute; reflexivity].
  pose proof (SetBindings_spec sample_pair elements elements_law open_all published "registry"
    (listener_binding by_name <$> List.filter Enabled (normalised <$> two_listeners)) "0.0.0.0:8443") as [_ H].
  fold (reconcileRegistryListeners sample_pair elements open_all by_name (normalised <$> two_listeners) published) in H.
  set (again := reconcileRegistryListeners sample_pair elements open_all by_name (normalised <$> two_listeners) published) in *.
  assert (Hd : "0.0.0.0:8443" ∈ desired again) by (apply (bool_decide_unpack _); vm_compute; reflexivity).
  rewrite decide_True in H by exact Hd. exact H.
Defined.
