(* ===== verification/ServeManager.v ===== *)
(** * internal/server/serve/manager.go and api/serve.go: the file-serving servers

    The settings document of the FTP, SFTP, TFTP, WebDAV and S3 servers: its
    validation, and the manager that brings the running instances in line with
    it, publishing the HTTP ones on the shared listeners of Vhost.v.  An instance
    carries the shares and users it was last given and the number of the start
    that made it.  The servers themselves, the mounts behind the shares and the
    ports are parameters: [NewServer] answers with a handler and the host key it
    had to generate, [preflight] and [listen] with the error of a bind. *)

From Stdlib Require Import ZArith Lia Ascii.
From stdpp Require Import base list strings gmap.
From S2P Require Import Prelude GoStrings GoJson RegistryConf Vhost.

Local Open Scope Z_scope.
Local Open Scope kutu_scope.

(** ** service/settings_feature.go *)

Record FTPServeSettings := {
  fPort : Z; fHost : string; PublicIP : string; PassivePorts : string; fCertFile : string; fKeyFile : string;
  fCertPEM : string; fKeyPEM : string; TLSRequired : Z;
}.
Record SFTPServeSettings := { sfPort : Z; sfHost : string; HostKeyPath : string; HostKeyPEM : string }.
Record TFTPServeSettings := { tPort : Z; tHost : string }.
Record WebDAVServeSettings := {
  wPort : Z; wHost : string; wHostname : string; wPrefix : string; wCertPEM : string; wKeyPEM : string;
}.
Record S3ServeSettings := {
  s3Port : Z; s3Host : string; s3Hostname : string; Region : string; s3CertPEM : string; s3KeyPEM : string;
}.

Record ServeServerEntry := {
  eID : string; eName : string; Protocol : string; eEnabled : bool; eShares : list string;
  FTP : option FTPServeSettings; SFTP : option SFTPServeSettings; TFTP : option TFTPServeSettings;
  WebDAV : option WebDAVServeSettings; S3 : option S3ServeSettings;
}.

Record FTPUserEntry := {
  Username : string; Password : string; uShares : list string; AuthorizedKeys : string; uReadOnly : bool;
}.

Record FTPShareEntry := { shName : string; Paths : list string; shReadOnly : bool; Root : bool }.

Record ServeSettings := { Servers : list ServeServerEntry; Users : list FTPUserEntry; Shares : list FTPShareEntry }.

Definition ftp_zero : FTPServeSettings :=
  {| fPort := 0; fHost := ""; PublicIP := ""; PassivePorts := ""; fCertFile := ""; fKeyFile := ""; fCertPEM := "";
     fKeyPEM := ""; TLSRequired := 0 |}.
Definition sftp_zero : SFTPServeSettings := {| sfPort := 0; sfHost := ""; HostKeyPath := ""; HostKeyPEM := "" |}.
Definition tftp_zero : TFTPServeSettings := {| tPort := 0; tHost := "" |}.
Definition webdav_zero : WebDAVServeSettings :=
  {| wPort := 0; wHost := ""; wHostname := ""; wPrefix := ""; wCertPEM := ""; wKeyPEM := "" |}.
Definition s3_zero : S3ServeSettings :=
  {| s3Port := 0; s3Host := ""; s3Hostname := ""; Region := ""; s3CertPEM := ""; s3KeyPEM := "" |}.

(** ** The signature of an entry: its JSON document *)

Definition omit_int (k : string) (v : Z) : list (string * Json) := if v =? 0 then [] else [(k, JNumber (itoa v))].
Definition omit_str (k v : string) : list (string * Json) := if String.eqb v "" then [] else [(k, JString v)].

Definition ftp_json (c : FTPServeSettings) : Json := JObject
  (omit_int "port" (fPort c) ++ omit_str "host" (fHost c) ++ omit_str "public_ip" (PublicIP c) ++
   omit_str "passive_ports" (PassivePorts c) ++ omit_str "tls_cert_file" (fCertFile c) ++
   omit_str "tls_key_file" (fKeyFile c) ++ omit_str "tls_cert_pem" (fCertPEM c) ++
   omit_str "tls_key_pem" (fKeyPEM c) ++ omit_int "tls_required" (TLSRequired c)).

Definition sftp_json (c : SFTPServeSettings) : Json := JObject
  (omit_int "port" (sfPort c) ++ omit_str "host" (sfHost c) ++ omit_str "host_key_path" (HostKeyPath c) ++
   omit_str "host_key_pem" (HostKeyPEM c)).

Definition tftp_json (c : TFTPServeSettings) : Json := JObject (omit_int "port" (tPort c) ++ omit_str "host" (tHost c)).

Definition webdav_json (c : WebDAVServeSettings) : Json := JObject
  (omit_int "port" (wPort c) ++ omit_str "host" (wHost c) ++ omit_str "hostname" (wHostname c) ++
   omit_str "prefix" (wPrefix c) ++ omit_str "tls_cert_pem" (wCertPEM c) ++ omit_str "tls_key_pem" (wKeyPEM c)).

Definition s3_json (c : S3ServeSettings) : Json := JObject
  (omit_int "port" (s3Port c) ++ omit_str "host" (s3Host c) ++ omit_str "hostname" (s3Hostname c) ++
   omit_str "region" (Region c) ++ omit_str "tls_cert_pem" (s3CertPEM c) ++ omit_str "tls_key_pem" (s3KeyPEM c)).

Definition omit_ptr {A} (k : string) (f : A -> Json) (o : option A) : list (string * Json) :=
  match o with Some a => [(k, f a)] | None => [] end.

Definition entry_json (e : ServeServerEntry) : Json := JObject
  ([("id", JString (eID e))] ++ omit_str "name" (eName e) ++
   [("protocol", JString (Protocol e)); ("enabled", JBool (eEnabled e))] ++
   (match eShares e with [] => [] | l => [("shares", JArray (JString <$> l))] end) ++
   omit_ptr "ftp" ftp_json (FTP e) ++ omit_ptr "sftp" sftp_json (SFTP e) ++ omit_ptr "tftp" tftp_json (TFTP e) ++
   omit_ptr "webdav" webdav_json (WebDAV e) ++ omit_ptr "s3" s3_json (S3 e)).

Definition with_names (e : ServeServerEntry) (name : string) (shares : list string) : ServeServerEntry :=
  {| eID := eID e; eName := name; Protocol := Protocol e; eEnabled := eEnabled e; eShares := shares;
     FTP := FTP e; SFTP := SFTP e; TFTP := TFTP e; WebDAV := WebDAV e; S3 := S3 e |}.

Definition entrySignature (e : ServeServerEntry) : string := write (entry_json (with_names e "" [])).

(** ** Addresses *)

Definition DefaultPort (protocol : string) : Z :=
  if String.eqb protocol "ftp" then 2121
  else if String.eqb protocol "sftp" then 2222
  else if String.eqb protocol "tftp" then 69
  else if String.eqb protocol "webdav" then 9119
  else if String.eqb protocol "s3" then 9000
  else 0.

Definition host_port (e : ServeServerEntry) : string * Z :=
  let p := Protocol e in
  if String.eqb p "ftp" then let c := default ftp_zero (FTP e) in (fHost c, fPort c)
  else if String.eqb p "sftp" then let c := default sftp_zero (SFTP e) in (sfHost c, sfPort c)
  else if String.eqb p "tftp" then let c := default tftp_zero (TFTP e) in (tHost c, tPort c)
  else if String.eqb p "webdav" then let c := default webdav_zero (WebDAV e) in (wHost c, wPort c)
  else if String.eqb p "s3" then let c := default s3_zero (S3 e) in (s3Host c, s3Port c)
  else ("", 0).

Definition entryAddr (e : ServeServerEntry) : string :=
  let '(host, port) := host_port e in
  JoinHostPort (if String.eqb host "" then "0.0.0.0" else host)
               (itoa (if port =? 0 then DefaultPort (Protocol e) else port)).

Definition entryHostname (e : ServeServerEntry) : string :=
  if String.eqb (Protocol e) "webdav" then wHostname (default webdav_zero (WebDAV e))
  else if String.eqb (Protocol e) "s3" then s3Hostname (default s3_zero (S3 e))
  else "".

Definition isVhostProtocol (p : string) : bool := String.eqb p "s3" || String.eqb p "webdav".

Definition splitMountPath (p : string) : string * string :=
  let p := TrimPrefix (TrimSpace p) "/" in
  match IndexByte p "/" with
  | Some i => (str_take i p, str_drop (i + 1) p)
  | None => (p, "")
  end.

(** ** Shares and users *)

Section manager.
Context {M H Cert : Type}.

Record ShareSource := { Mount : string; Path : string; MountFS : M }.
Record Share := { Name : string; ReadOnly : bool; IsRoot : bool; Sources : list ShareSource }.

Definition build_source (resolve : string -> option M) (p : string) : option ShareSource :=
  let '(prefix, sub) := splitMountPath p in
  if String.eqb prefix "" then None
  else match resolve prefix with
       | None => None
       | Some fs => Some {| Mount := prefix; Path := sub; MountFS := fs |}
       end.

Definition buildShares (resolve : string -> option M) (entries : list FTPShareEntry) : list Share :=
  omap (fun e => if String.eqb (shName e) "" then None
                 else Some {| Name := shName e; ReadOnly := shReadOnly e; IsRoot := Root e;
                              Sources := omap (build_source resolve) (Paths e) |}) entries.

Definition filterShares (all : list Share) (names : list string) : list Share :=
  match names with
  | [] => all
  | _ => List.filter (fun s => bool_decide (Name s ∈ names)) all
  end.

(** ** The manager *)

Record instance := {
  sig : string; iShares : list Share; iUsers : option (list FTPUserEntry); iBinding : option (Binding H); iStart : nat;
}.

Record Status := {
  stID : string; stName : string; stProtocol : string; stEnabled : bool; stRunning : bool; stAddress : string;
  stHostname : string; stTLS : bool; SharedPort : bool; stError : string;
}.

(** [hostKeys]: the generated SFTP keys handed to [onSFTPKey], latest last. *)
Record Manager := {
  instances : gmap string instance; order : list string; status : gmap string Status; starts : nat;
  hostKeys : list (string * string); vhosts : Vhost.Manager H Cert;
}.

(** A server of some protocol: its handler, and the host key it generated. *)
Variable NewServer : ServeServerEntry -> list Share -> list FTPUserEntry -> result string (H * option string).

Definition new_status (e : ServeServerEntry) (hostname : string) (running : bool) (err : string) : Status :=
  {| stID := eID e; stName := eName e; stProtocol := Protocol e; stEnabled := eEnabled e; stRunning := running;
     stAddress := entryAddr e; stHostname := hostname; stTLS := false; SharedPort := false; stError := err |}.

Definition set_status (m : Manager) (id : string) (st : Status) : Manager :=
  {| instances := instances m; order := order m; status := <[ id := st ]> (status m); starts := starts m;
     hostKeys := hostKeys m; vhosts := vhosts m |}.

Definition set_instance (m : Manager) (id : string) (i : instance) : Manager :=
  {| instances := <[ id := i ]> (instances m); order := order m; status := status m; starts := starts m;
     hostKeys := hostKeys m; vhosts := vhosts m |}.

Definition drop_instance (m : Manager) (id : string) : Manager :=
  {| instances := delete id (instances m); order := order m; status := status m; starts := starts m;
     hostKeys := hostKeys m; vhosts := vhosts m |}.

Definition started (m : Manager) (keys : list (string * string)) : Manager :=
  {| instances := instances m; order := order m; status := status m; starts := S (starts m);
     hostKeys := hostKeys m ++ keys; vhosts := vhosts m |}.

(** An instance that goes on running is given its shares and users. *)
Definition refresh (i : instance) (shares : list Share) (users : list FTPUserEntry) : instance :=
  {| sig := sig i; iShares := shares; iUsers := (fun _ => users) <$> iUsers i; iBinding := iBinding i; iStart := iStart i |}.

(** The settings pointer of the entry's protocol, filled in. *)
Definition with_settings (e : ServeServerEntry) (pem : option string) : ServeServerEntry :=
  let p := Protocol e in
  let sftp (c : SFTPServeSettings) := match pem with
    | Some k => {| sfPort := sfPort c; sfHost := sfHost c; HostKeyPath := HostKeyPath c; HostKeyPEM := k |}
    | None => c
    end in
  {| eID := eID e; eName := eName e; Protocol := p; eEnabled := eEnabled e; eShares := eShares e;
     FTP := if String.eqb p "ftp" then Some (default ftp_zero (FTP e)) else FTP e;
     SFTP := if String.eqb p "sftp" then Some (sftp (default sftp_zero (SFTP e))) else SFTP e;
     TFTP := if String.eqb p "tftp" then Some (default tftp_zero (TFTP e)) else TFTP e;
     WebDAV := if String.eqb p "webdav" then Some (default webdav_zero (WebDAV e)) else WebDAV e;
     S3 := if String.eqb p "s3" then Some (default s3_zero (S3 e)) else S3 e |}.

Definition startInstance (m : Manager) (e : ServeServerEntry) (shares : list Share) (users : list FTPUserEntry)
    : result string (instance * list (string * string)) :=
  let p := Protocol e in
  if String.eqb p "ftp" || String.eqb p "sftp" || String.eqb p "tftp" then
    let! hk := NewServer (with_settings e None) shares users in
    let pem := if String.eqb p "sftp" then hk.2 else None in
    Ok ({| sig := entrySignature (with_settings e pem); iShares := shares;
           iUsers := if String.eqb p "tftp" then None else Some users; iBinding := None; iStart := starts m |},
        match pem with Some k => [(eID e, k)] | None => [] end)
  else Err "unknown serve protocol".

(** An entry that has no instance, or none that may go on: [preflight transport
    addr] is the error of a probe. *)
Definition freshInstance (preflight : string -> string -> option string) (m : Manager) (e : ServeServerEntry)
    (shares : list Share) (users : list FTPUserEntry) : Manager :=
  if negb (eEnabled e) then set_status m (eID e) (new_status e "" false "")
  else
    let p := Protocol e in
    match (if String.eqb p "ftp" then preflight "tcp" (entryAddr e)
           else if String.eqb p "tftp" then preflight "udp" (entryAddr e) else None) with
    | Some err => set_status m (eID e) (new_status e "" false err)
    | None =>
        match startInstance m e shares users with
        | Err err => set_status m (eID e) (new_status e "" false err)
        | Ok (i, keys) => set_status (set_instance (started m keys) (eID e) i) (eID e) (new_status e "" true "")
        end
    end.

Definition reconcileInstance (preflight : string -> string -> option string) (m : Manager) (e : ServeServerEntry)
    (shares : list Share) (users : list FTPUserEntry) : Manager :=
  match instances m !! eID e with
  | Some i =>
      if eEnabled e && String.eqb (sig i) (entrySignature e)
      then set_status (set_instance m (eID e) (refresh i shares users)) (eID e) (new_status e "" true "")
      else freshInstance preflight (drop_instance m (eID e)) e shares users
  | None => freshInstance preflight m e shares users
  end.

Definition vhost_binding (e : ServeServerEntry) (h : H) : Binding H :=
  let port p := if p =? 0 then DefaultPort (Protocol e) else p in
  let d := default webdav_zero (WebDAV e) in
  let s := default s3_zero (S3 e) in
  if String.eqb (Protocol e) "s3" then
    {| Owner := ""; Vhost.ID := eID e; Vhost.Name := eName e; Vhost.Host := s3Host s; Vhost.Port := port (s3Port s);
       Vhost.Hostname := s3Hostname s; Vhost.TLSCertPEM := s3CertPEM s; Vhost.TLSKeyPEM := s3KeyPEM s; Handler := Some h |}
  else
    {| Owner := ""; Vhost.ID := eID e; Vhost.Name := eName e; Vhost.Host := wHost d; Vhost.Port := port (wPort d);
       Vhost.Hostname := wHostname d; Vhost.TLSCertPEM := wCertPEM d; Vhost.TLSKeyPEM := wKeyPEM d; Handler := Some h |}.

Definition freshVhostInstance (m : Manager) (e : ServeServerEntry) (shares : list Share) (users : list FTPUserEntry)
    : list (Binding H) * Manager :=
  let st := new_status e (entryHostname e) false in
  if negb (eEnabled e) then ([], set_status m (eID e) (st ""))
  else match NewServer (with_settings e None) shares users with
       | Err err => ([], set_status m (eID e) (st err))
       | Ok (h, _) =>
           let b := vhost_binding e h in
           let i := {| sig := entrySignature (with_settings e None); iShares := shares; iUsers := Some users;
                       iBinding := Some b; iStart := starts m |} in
           ([b], set_status (set_instance (started m []) (eID e) i) (eID e) (st ""))
       end.

Definition reconcileVhostInstance (m : Manager) (e : ServeServerEntry) (shares : list Share) (users : list FTPUserEntry)
    : list (Binding H) * Manager :=
  match instances m !! eID e with
  | Some i =>
      match (if eEnabled e && String.eqb (sig i) (entrySignature e) then iBinding i else None) with
      | Some b => ([b], set_status (set_instance m (eID e) (refresh i shares users)) (eID e)
                          (new_status e (entryHostname e) false ""))
      | None => freshVhostInstance (drop_instance m (eID e)) e shares users
      end
  | None => freshVhostInstance m e shares users
  end.

(** The entries that count: an empty id gets one, a second one of an id is
    dropped. *)
Definition with_id (e : ServeServerEntry) (id : string) : ServeServerEntry :=
  {| eID := id; eName := eName e; Protocol := Protocol e; eEnabled := eEnabled e; eShares := eShares e;
     FTP := FTP e; SFTP := SFTP e; TFTP := TFTP e; WebDAV := WebDAV e; S3 := S3 e |}.

Definition identified (l : list ServeServerEntry) : list ServeServerEntry :=
  imap (fun i e => if String.eqb (eID e) "" then with_id e (Protocol e +:+ "-" +:+ itoa (Z.of_nat i)) else e) l.

Definition add_entry (acc : list ServeServerEntry) (e : ServeServerEntry) : list ServeServerEntry :=
  if bool_decide (eID e ∈ (eID <$> acc)) then acc else acc ++ [e].

Definition desired (cfg : ServeSettings) : list ServeServerEntry := foldl add_entry [] (identified (Servers cfg)).

Variables (X509KeyPair : string -> string -> option Cert) (range : gset string -> list string).

Definition reconcile_entry (preflight : string -> string -> option string) (all : list Share) (users : list FTPUserEntry)
    (acc : list (Binding H) * Manager) (e : ServeServerEntry) : list (Binding H) * Manager :=
  let '(bs, m) := acc in
  if isVhostProtocol (Protocol e) then
    let '(b, m) := reconcileVhostInstance m e (filterShares all (eShares e)) users in (bs ++ b, m)
  else (bs, reconcileInstance preflight m e (filterShares all (eShares e)) users).

Definition with_vhosts (m : Manager) (v : Vhost.Manager H Cert) : Manager :=
  {| instances := instances m; order := order m; status := status m; starts := starts m; hostKeys := hostKeys m; vhosts := v |}.

Definition Reconcile (preflight : string -> string -> option string) (listen : string -> option string)
    (resolve : string -> option M) (cfg : ServeSettings) (m : Manager) : Manager :=
  let all := buildShares resolve (Shares cfg) in
  let want := desired cfg in
  let ids := eID <$> want in
  let m := {| instances := filter (fun ki => ki.1 ∈ ids) (instances m); order := ids;
              status := filter (fun ks => ks.1 ∈ ids) (status m); starts := starts m; hostKeys := hostKeys m;
              vhosts := vhosts m |} in
  let '(bs, m) := foldl (reconcile_entry preflight all (Users cfg)) ([], m) want in
  with_vhosts m (SetBindings X509KeyPair range listen (vhosts m) "serve" bs).

(** The statuses in configured order, the HTTP ones with the state of their
    binding. *)
Definition overlay (vs : list Vhost.Status) (st : Status) : Status :=
  match last (List.filter (fun v => String.eqb (sID v) (stID st)) vs) with
  | None => st
  | Some v =>
      {| stID := stID st; stName := stName st; stProtocol := stProtocol st; stEnabled := stEnabled st;
         stRunning := Vhost.Running v; stAddress := Vhost.Address v; stHostname := stHostname st; stTLS := Vhost.TLS v;
         SharedPort := Vhost.Shared v; stError := if String.eqb (Vhost.Error v) "" then stError st else Vhost.Error v |}
  end.

Definition ManagerStatus (m : Manager) : list Status :=
  let vs := StatusOf (vhosts m) "serve" in
  omap (fun id => overlay vs <$> status m !! id) (order m).

Definition StopAll (listen : string -> option string) (m : Manager) : Manager :=
  {| instances := ∅; order := order m; status := status m; starts := starts m; hostKeys := hostKeys m;
     vhosts := SetBindings X509KeyPair range listen (vhosts m) "serve" [] |}.

End manager.

Arguments Share : clear implicits.
Arguments Manager : clear implicits.
Arguments instance : clear implicits.
