(* ===== verification/ServeConf.v ===== *)
(** * internal/server/api/serve.go: validating the file-serving settings

    The document is normalised in place while it is checked; [newID] draws the id
    of an entry that has none.  The theorem: the enabled servers of a document
    that passes do not get in each other's way. *)

From Stdlib Require Import ZArith Lia Ascii.
From stdpp Require Import base list strings gmap.
From S2P Require Import Prelude GoStrings RegistryConf RegistryConfSafety Vhost ServeManager.

Local Open Scope Z_scope.
Local Open Scope kutu_scope.

(** ** Shares and users *)

Definition trim_share (s : FTPShareEntry) : FTPShareEntry :=
  {| shName := TrimSpace (shName s); Paths := Paths s; shReadOnly := shReadOnly s; Root := Root s |}.

Fixpoint validate_shares (seen : gset string) (l : list FTPShareEntry) : result Invalid (list FTPShareEntry) :=
  match l with
  | [] => Ok []
  | s :: l =>
      let s := trim_share s in
      let! _ := reject (String.eqb (shName s) "") "share" "every share needs a name" in
      let! _ := reject (ContainsAny (shName s) "/\") (shName s) "share name must not contain slashes" in
      let! _ := reject (bool_decide (shName s ∈ seen)) (shName s) "duplicate share name" in
      let! _ := reject (negb (filled (Paths s))) (shName s) "share needs at least one path" in
      let! l := validate_shares ({[ shName s ]} ∪ seen) l in
      Ok (s :: l)
  end.

Definition trim_user (u : FTPUserEntry) : FTPUserEntry :=
  {| Username := TrimSpace (Username u); Password := Password u; uShares := uShares u;
     AuthorizedKeys := AuthorizedKeys u; uReadOnly := uReadOnly u |}.

Fixpoint validate_users (shares : gset string) (seen : gset string) (l : list FTPUserEntry) : result Invalid (list FTPUserEntry) :=
  match l with
  | [] => Ok []
  | u :: l =>
      let u := trim_user u in
      let! _ := reject (String.eqb (Username u) "") "user" "every user needs a username" in
      let! _ := reject (bool_decide (Username u ∈ seen)) (Username u) "duplicate username" in
      let! _ := reject (String.eqb (Password u) "" && String.eqb (AuthorizedKeys u) "") (Username u) "needs a password or key" in
      let! _ := check_all (fun s => reject (negb (bool_decide (s ∈ shares))) (Username u) "unknown share") (uShares u) in
      let! l := validate_users shares ({[ Username u ]} ∪ seen) l in
      Ok (u :: l)
  end.

(** ** Servers *)

Definition validProtocols : list string := ["ftp"; "sftp"; "tftp"; "webdav"; "s3"].

Definition serverVhostFields (e : ServeServerEntry) : string * string * string :=
  if String.eqb (Protocol e) "s3" then
    match S3 e with Some c => (s3Hostname c, s3CertPEM c, s3KeyPEM c) | None => ("", "", "") end
  else if String.eqb (Protocol e) "webdav" then
    match WebDAV e with Some c => (wHostname c, wCertPEM c, wKeyPEM c) | None => ("", "", "") end
  else ("", "", "").

Definition serverLabel (e : ServeServerEntry) : string :=
  if nonempty (eName e) then eName e else if nonempty (eID e) then eID e else Protocol e.

Definition serverBind (e : ServeServerEntry) : string * Z :=
  let port := match
    (if String.eqb (Protocol e) "ftp" then fPort <$> FTP e
     else if String.eqb (Protocol e) "sftp" then sfPort <$> SFTP e
     else if String.eqb (Protocol e) "tftp" then tPort <$> TFTP e
     else if String.eqb (Protocol e) "webdav" then wPort <$> WebDAV e
     else if String.eqb (Protocol e) "s3" then s3Port <$> S3 e
     else None) with Some p => p | None => 0 end in
  (if String.eqb (Protocol e) "tftp" then "udp" else "tcp", if port =? 0 then DefaultPort (Protocol e) else port).

Definition normal_server (newID : string) (e : ServeServerEntry) : ServeServerEntry :=
  {| eID := if String.eqb (eID e) "" then newID else eID e; eName := TrimSpace (eName e);
     Protocol := ToLower (TrimSpace (Protocol e)); eEnabled := eEnabled e; eShares := eShares e;
     FTP := FTP e; SFTP := SFTP e; TFTP := TFTP e; WebDAV := WebDAV e; S3 := S3 e |}.

(** What the loop knows: the ids, the ports with an exclusive server, the
    hostnames by port, the ports with and without TLS. *)
Record seen := {
  ids : gset string; exclusive : gset (string * Z); hosts : gset (Z * string); tlsPorts : gset Z; plainPorts : gset Z;
}.

Section servers.
Variable X509KeyPair : string -> string -> bool.
Variable newID : nat -> string -> string.

(** The hostname as the check compares it. *)
Definition server_host (e : ServeServerEntry) : string := ToLower (TrimSpace (serverVhostFields e).1.1).

Definition claim_port (st : seen) (e : ServeServerEntry) : result Invalid seen :=
  let '(transport, port) := serverBind e in
  if isVhostProtocol (Protocol e) then
    let! _ := reject (bool_decide ((port, server_host e) ∈ hosts st)) (serverLabel e) "hostname claimed twice" in
    let! _ := reject (bool_decide (("tcp", port) ∈ exclusive st)) (serverLabel e) "port taken" in
    Ok {| ids := ids st; exclusive := exclusive st; hosts := {[ (port, server_host e) ]} ∪ hosts st;
          tlsPorts := if nonempty (serverVhostFields e).1.2 then {[ port ]} ∪ tlsPorts st else tlsPorts st;
          plainPorts := if nonempty (serverVhostFields e).1.2 then plainPorts st else {[ port ]} ∪ plainPorts st |}
  else
    let! _ := reject (bool_decide ((transport, port) ∈ exclusive st)) (serverLabel e) "port taken" in
    let! _ := reject (String.eqb transport "tcp" &&
                      bool_decide (Exists (fun ph : Z * string => ph.1 = port) (elements (hosts st)))) (serverLabel e) "port taken" in
    Ok {| ids := ids st; exclusive := {[ (transport, port) ]} ∪ exclusive st; hosts := hosts st;
          tlsPorts := tlsPorts st; plainPorts := plainPorts st |}.

(** [i]: the index of the entry. *)
Definition validate_server (shares : gset string) (users hasPassword : bool) (st : seen) (i : nat) (e : ServeServerEntry)
    : result Invalid (seen * ServeServerEntry) :=
  let e := normal_server (newID i (ToLower (TrimSpace (Protocol e)))) e in
  let who := serverLabel e in
  let! _ := reject (negb (bool_decide (Protocol e ∈ validProtocols))) who "unknown protocol" in
  let! _ := reject (bool_decide (eID e ∈ ids st)) (eID e) "duplicate server id" in
  let st := {| ids := {[ eID e ]} ∪ ids st; exclusive := exclusive st; hosts := hosts st;
               tlsPorts := tlsPorts st; plainPorts := plainPorts st |} in
  let! _ := check_all (fun s => reject (negb (bool_decide (s ∈ shares))) who "unknown share") (eShares e) in
  let '(_, certPEM, keyPEM) := serverVhostFields e in
  let! _ := ValidateListenerHostname (server_host e) in
  let! _ := reject (nonempty (server_host e) && negb (isVhostProtocol (Protocol e))) who "no hostnames" in
  let! _ := reject (xorb (String.eqb certPEM "") (String.eqb keyPEM "")) who "certificate and key" in
  let! _ := reject (nonempty certPEM && negb (X509KeyPair certPEM keyPEM)) who "invalid TLS keypair" in
  if negb (eEnabled e) then Ok (st, e)
  else
    let! st := claim_port st e in
    let! _ := reject (negb (String.eqb (Protocol e) "tftp") && negb users) who "requires at least one user" in
    let! _ := reject (String.eqb (Protocol e) "s3" && negb hasPassword) who "requires a user with a password" in
    Ok (st, e).

Fixpoint servers_go (shares : gset string) (users hasPassword : bool) (st : seen) (i : nat) (l : list ServeServerEntry)
    : result Invalid (seen * list ServeServerEntry) :=
  match l with
  | [] => Ok (st, [])
  | e :: l =>
      let! p := validate_server shares users hasPassword st i e in
      let! q := servers_go shares users hasPassword p.1 (S i) l in
      Ok (q.1, p.2 :: q.2)
  end.

Definition nothing_seen : seen := {| ids := ∅; exclusive := ∅; hosts := ∅; tlsPorts := ∅; plainPorts := ∅ |}.

Definition validateServeServers (shares : gset string) (users hasPassword : bool) (l : list ServeServerEntry)
    : result Invalid (list ServeServerEntry) :=
  let! q := servers_go shares users hasPassword nothing_seen O l in
  if bool_decide (tlsPorts q.1 ∩ plainPorts q.1 = ∅) then Ok q.2 else Err ("port", "mixes TLS and plain instances").

(** The document as it is stored. *)
Definition validateServeSettings (cfg : ServeSettings) : result Invalid ServeSettings :=
  let! shares := validate_shares ∅ (Shares cfg) in
  let! _ := reject (1 <? length (List.filter Root (Shares cfg)))%nat "root" "only one share may be marked as root" in
  let names := list_to_set (shName <$> shares) in
  let! users := validate_users names ∅ (Users cfg) in
  let! servers := validateServeServers names (filled users) (existsb (fun u => nonempty (Password u)) users) (Servers cfg) in
  Ok {| Servers := servers; Users := users; Shares := shares |}.

End servers.

(** ** The enabled servers do not get in each other's way *)

Section safety.
Variable X509KeyPair : string -> string -> bool.
Variable newID : nat -> string -> string.

(** Two enabled servers on a port are HTTP servers of different hosts. *)
Definition apart (a b : ServeServerEntry) : Prop :=
  eID a <> eID b /\
  (eEnabled a = true -> eEnabled b = true -> serverBind a = serverBind b ->
     isVhostProtocol (Protocol a) = true /\ isVhostProtocol (Protocol b) = true /\ server_host a <> server_host b).

Definition has_tls (e : ServeServerEntry) : bool := nonempty (serverVhostFields e).1.2.

(** What the loop has collected of the entries before. *)
Record collected_servers (st : seen) (l : list ServeServerEntry) : Prop := {
  cs_ids e : e ∈ l -> eID e ∈ ids st;
  cs_exclusive e : e ∈ l -> eEnabled e = true -> isVhostProtocol (Protocol e) = false -> serverBind e ∈ exclusive st;
  cs_hosts e : e ∈ l -> eEnabled e = true -> isVhostProtocol (Protocol e) = true ->
    ((serverBind e).2, server_host e) ∈ hosts st /\
    (if has_tls e then (serverBind e).2 ∈ tlsPorts st else (serverBind e).2 ∈ plainPorts st);
  cs_apart : ForallOrdPairs apart l;
}.

Lemma ForallOrdPairs_snoc {A} (R : A -> A -> Prop) l x : ForallOrdPairs R l -> Forall (fun a => R a x) l -> ForallOrdPairs R (l ++ [x]).
Proof.
  induction 1 as [|a l Ha Hl IH]; intros Hx; cbn [app]; [constructor; constructor|].
  apply Forall_cons in Hx as [Hax Hx]. constructor; [|by apply IH]. apply Forall_app. split; [done|by constructor].
Qed.

Lemma vhost_tcp e : isVhostProtocol (Protocol e) = true -> (serverBind e).1 = "tcp".
Proof.
  unfold isVhostProtocol, serverBind. intros [E|E]%orb_true_iff; apply String.eqb_eq in E; rewrite E; done.
Qed.

Lemma claim_port_ok st e st' l : collected_servers st l -> eEnabled e = true -> claim_port st e = Ok st' ->
  eID e ∉ (eID <$> l) -> eID e ∈ ids st -> collected_servers st' (l ++ [e]).
Proof.
  intros [Hi Hx Hh Ha] He. unfold claim_port. destruct (serverBind e) as [tr port] eqn:Eb.
  intros Hc Hid Hin. destruct (isVhostProtocol (Protocol e)) eqn:Ev.
  - rewrite !seq_ok, !reject_ok, !decide_false in Hc. destruct Hc as (Hno & Hex & Hc). injection Hc as <-.
    pose proof (vhost_tcp e Ev) as Etr. rewrite Eb in Etr. cbn in Etr. subst tr.
    split; cbn [ids exclusive hosts tlsPorts plainPorts].
    + intros x [Hxl|Hxl]%elem_of_app; [by apply Hi|]. by apply list_elem_of_singleton in Hxl as ->.
    + intros x [Hxl|Hxl]%elem_of_app; [by apply Hx|]. apply list_elem_of_singleton in Hxl as ->. congruence.
    + intros x [Hxl|Hxl]%elem_of_app He' Hv'.
      * destruct (Hh x Hxl He' Hv') as [H1 H2]. split; [set_solver|].
        destruct (has_tls x), (nonempty (serverVhostFields e).1.2); set_solver.
      * apply list_elem_of_singleton in Hxl as ->. rewrite Eb. cbn [snd]. split; [set_solver|].
        unfold has_tls. destruct (nonempty _); set_solver.
    + apply ForallOrdPairs_snoc; [done|]. apply Forall_forall. intros a Hal. split.
      * intros E. apply Hid. rewrite <-E. apply list_elem_of_fmap. by exists a.
      * intros Hae _ Eab. rewrite Eb in Eab. destruct (isVhostProtocol (Protocol a)) eqn:Eva.
        -- split_and!; [done|done|]. intros Eh. destruct (Hh a Hal Hae Eva) as [H1 _]. rewrite Eab, Eh in H1. done.
        -- pose proof (Hx a Hal Hae Eva) as H1. rewrite Eab in H1. done.
  - rewrite !seq_ok, !reject_ok, !decide_false in Hc. destruct Hc as (Hno & Hex & Hc). injection Hc as <-.
    split; cbn [ids exclusive hosts tlsPorts plainPorts].
    + intros x [Hxl|Hxl]%elem_of_app; [by apply Hi|]. by apply list_elem_of_singleton in Hxl as ->.
    + intros x [Hxl|Hxl]%elem_of_app He' Hv'; [pose proof (Hx x Hxl He' Hv'); set_solver|].
      apply list_elem_of_singleton in Hxl as ->. rewrite Eb. set_solver.
    + intros x [Hxl|Hxl]%elem_of_app He' Hv'; [by apply Hh|]. apply list_elem_of_singleton in Hxl as ->. congruence.
    + apply ForallOrdPairs_snoc; [done|]. apply Forall_forall. intros a Hal. split.
      * intros E. apply Hid. rewrite <-E. apply list_elem_of_fmap. by exists a.
      * intros Hae _ Eab. exfalso. rewrite Eb in Eab. destruct (isVhostProtocol (Protocol a)) eqn:Eva.
        -- pose proof (vhost_tcp a Eva) as Et. rewrite Eab in Et. cbn in Et. subst tr.
           destruct (Hh a Hal Hae Eva) as [H1 _]. rewrite Eab in H1. cbn [snd] in H1.
           cbn [String.eqb andb] in Hex. change (bool_decide (Exists (fun ph : Z * string => ph.1 = port) (elements (hosts st))) = false) in Hex.
           apply bool_decide_eq_false in Hex. apply Hex, Exists_exists. exists (port, server_host a). split; [by apply elem_of_elements|done].
        -- pose proof (Hx a Hal Hae Eva) as H1. rewrite Eab in H1. done.
Qed.

Lemma servers_go_ok shares users pw l : forall st i pre st' out, collected_servers st pre ->
  servers_go X509KeyPair newID shares users pw st i l = Ok (st', out) -> collected_servers st' (pre ++ out).
Proof.
  induction l as [|e l IH]; intros st i pre st' out Hc E; cbn [servers_go] in E.
  { injection E as <- <-. by rewrite app_nil_r. }
  apply rbind_ok in E as ([st1 e1] & E1 & E). apply rbind_ok in E as ([st2 out2] & E2 & E). cbn [fst snd] in *. injection E as <- <-.
  assert (H1 : collected_servers st1 (pre ++ [e1])).
  { unfold validate_server in E1. set (n := normal_server _ e) in *. cbv zeta in E1.
    destruct (serverVhostFields n) as [[hn cert] key] eqn:Ef.
    rewrite !seq_ok in E1. destruct E1 as (_ & Hid & _ & _ & _ & _ & _ & E1). rewrite reject_ok, decide_false in Hid.
    set (st0 := {| ids := _; exclusive := exclusive st; hosts := _; tlsPorts := _; plainPorts := _ |}) in *.
    assert (Hni : eID n ∉ (eID <$> pre)).
    { intros (x & Ex & Hx)%list_elem_of_fmap. apply Hid. rewrite Ex. by apply (cs_ids _ _ Hc). }
    assert (Hc0 : collected_servers st0 pre).
    { destruct Hc as [Hi Hx Hh Ha]. split; cbn; [|done..]. intros x Hxl. pose proof (Hi x Hxl). set_solver. }
    assert (Hin : eID n ∈ ids st0) by (cbn; set_solver).
    destruct (eEnabled n) eqn:Een; cbn [negb] in E1.
    - apply rbind_ok in E1 as (st3 & E3 & E1). rewrite !seq_ok in E1. destruct E1 as (_ & _ & E1). injection E1 as <- <-.
      by apply (claim_port_ok st0 n st3 pre).
    - injection E1 as <- <-. destruct Hc0 as [Hi Hx Hh Ha]. split.
      + intros x [Hxl|Hxl]%elem_of_app; [by apply Hi|]. by apply list_elem_of_singleton in Hxl as ->.
      + intros x [Hxl|Hxl]%elem_of_app; [by apply Hx|]. apply list_elem_of_singleton in Hxl as ->. congruence.
      + intros x [Hxl|Hxl]%elem_of_app; [by apply Hh|]. apply list_elem_of_singleton in Hxl as ->. congruence.
      + apply ForallOrdPairs_snoc; [done|]. apply Forall_forall. intros a Hal. split; [|congruence].
        intros E. apply Hni. rewrite <-E. apply list_elem_of_fmap. by exists a. }
  pose proof (IH st1 (S i) (pre ++ [e1]) st2 out2 H1 E2) as H2. by rewrite <-app_assoc in H2.
Qed.

Lemma ForallOrdPairs_lookup {A} (R : A -> A -> Prop) l i j a b : ForallOrdPairs R l -> l !! i = Some a -> l !! j = Some b ->
  (i < j)%nat -> R a b.
Proof.
  intros Hl. revert i j. induction Hl as [|x l Hx Hl IH]; intros i j Hi Hj Hij; [done|]. destruct j as [|j]; [lia|].
  destruct i as [|i]; cbn in Hi, Hj.
  - injection Hi as ->. apply (proj1 (Forall_forall _ _) Hx). by apply list_elem_of_lookup_2 in Hj.
  - apply (IH i j); [done|done|lia].
Qed.

(** C22: the servers of a document that passes have different ids, and two enabled
    ones on the same port of a transport are both HTTP servers of different
    hostnames, with TLS both or neither. *)
Theorem servers_apart shares users pw l out i j a b :
  validateServeServers X509KeyPair newID shares users pw l = Ok out ->
  out !! i = Some a -> out !! j = Some b -> (i < j)%nat ->
  eID a <> eID b /\
  (eEnabled a = true -> eEnabled b = true -> serverBind a = serverBind b ->
     isVhostProtocol (Protocol a) = true /\ isVhostProtocol (Protocol b) = true /\ server_host a <> server_host b /\
     has_tls a = has_tls b).
Proof.
  unfold validateServeServers. intros ([st out'] & E & Eo)%rbind_ok Ha Hb Hij. cbn [fst snd] in Eo.
  destruct (bool_decide _) eqn:Ed; [|done]. injection Eo as ->. apply bool_decide_eq_true in Ed.
  assert (H0 : collected_servers nothing_seen []) by (split; try (intros x Hx; by inversion Hx); constructor).
  pose proof (servers_go_ok shares users pw l nothing_seen O [] st out H0 E) as Hc. cbn [app] in Hc.
  destruct (ForallOrdPairs_lookup _ _ _ _ _ _ (cs_apart _ _ Hc) Ha Hb Hij) as [Hid Hap]. split; [done|].
  intros Hea Heb Eab. destruct (Hap Hea Heb Eab) as (Hva & Hvb & Hh). split_and!; [done|done|done|].
  destruct (cs_hosts _ _ Hc a) as [_ Hta]; [by apply list_elem_of_lookup_2 in Ha|done|done|].
  destruct (cs_hosts _ _ Hc b) as [_ Htb]; [by apply list_elem_of_lookup_2 in Hb|done|done|]. rewrite Eab in Hta.
  destruct (has_tls a), (has_tls b); try done; exfalso;
    apply (not_elem_of_empty (C := gset Z) (serverBind b).2); rewrite <-Ed; by apply elem_of_intersection.
Qed.

End safety.

(** ** Example: two HTTP servers on a port, and FTP *)

Definition http_server (id proto host : string) : ServeServerEntry :=
  {| eID := id; eName := ""; Protocol := proto; eEnabled := true; eShares := []; FTP := None; SFTP := None; TFTP := None;
     WebDAV := Some {| wPort := 9443; wHost := ""; wHostname := host; wPrefix := ""; wCertPEM := ""; wKeyPEM := "" |};
     S3 := Some {| s3Port := 9443; s3Host := ""; s3Hostname := host; Region := ""; s3CertPEM := ""; s3KeyPEM := "" |} |}.

Definition ftp_server (settings : option FTPServeSettings) : ServeServerEntry :=
  {| eID := "files"; eName := "Files"; Protocol := "ftp"; eEnabled := true; eShares := []; FTP := settings; SFTP := None;
     TFTP := None; WebDAV := None; S3 := None |}.

Definition sample_servers : list ServeServerEntry :=
  [http_server "a" "s3" "s3.example.com"; http_server "b" "webdav" "dav.example.com"; ftp_server None].

Lemma servers_apart_witness :
  "a" <> "b" /\ server_host (http_server "a" "s3" "s3.example.com") <> server_host (http_server "b" "webdav" "dav.example.com").
Proof.
  assert (H : validateServeServers String.eqb (fun _ p => p) ∅ true true sample_servers = Ok sample_servers) by reflexivity.
  destruct (servers_apart String.eqb (fun _ p => p) ∅ true true sample_servers sample_servers 0 1
    (http_server "a" "s3" "s3.example.com") (http_server "b" "webdav" "dav.example.com") H eq_refl eq_refl ltac:(lia)) as [Hid Hap].
  split; [exact Hid|]. apply (Hap eq_refl eq_refl eq_refl).
Defined.

(** The same hostname twice is refused, and so is FTP on the port of the HTTP
    servers. *)
Lemma servers_refused :
  validateServeServers String.eqb (fun _ p => p) ∅ true true
    [http_server "a" "s3" "s3.example.com"; http_server "b" "webdav" "S3.example.com "] = Err ("b", "hostname claimed twice") /\
  validateServeServers String.eqb (fun _ p => p) ∅ true true
    [http_server "a" "s3" "s3.example.com";
     ftp_server (Some {| fPort := 9443; fHost := ""; PublicIP := ""; PassivePorts := ""; fCertFile := ""; fKeyFile := "";
                         fCertPEM := ""; fKeyPEM := ""; TLSRequired := 0 |})] = Err ("Files", "port taken").
Proof. split; reflexivity. Qed.
