(* ===== verification/ServeSafety.v ===== *)
(** * The file-serving manager brings the servers in line

    After a reconcile the running instances are enabled servers of the document
    with its shares and users, what is published is the bindings of the HTTP ones,
    and an instance whose signature has not changed is the same instance. *)

From Stdlib Require Import ZArith Lia Ascii.
From stdpp Require Import base list strings gmap.
From S2P Require Import Prelude GoStrings GoJson RegistryConf Vhost VhostSafety ServeManager ServeConf.

Local Open Scope Z_scope.

Section safety.
Context {M H Cert : Type}.
Variable NewServer : ServeServerEntry -> list (Share M) -> list FTPUserEntry -> result string (H * option string).
Variables (X509KeyPair : string -> string -> option Cert) (range : gset string -> list string).
Variables (preflight : string -> string -> option string) (listen : string -> option string) (resolve : string -> option M).
Implicit Types (m : Manager M H Cert) (e : ServeServerEntry) (i : instance M H).

Notation Reconcile := (Reconcile NewServer X509KeyPair range preflight listen resolve).
Notation reconcile_entry := (reconcile_entry NewServer preflight).

(** ** One entry *)

(** The instance of an entry after a reconcile, from the one before. *)
Definition entry_after (all : list (Share M)) (users : list FTPUserEntry) e (before after : option (instance M H)) : Prop :=
  let shares := filterShares all (eShares e) in
  match after with
  | None => True
  | Some i =>
      eEnabled e = true /\ iShares i = shares /\ (forall us, iUsers i = Some us -> us = users)
  end /\
  (forall i, before = Some i -> eEnabled e = true -> sig i = entrySignature e ->
     (isVhostProtocol (Protocol e) = true -> iBinding i <> None) -> after = Some (refresh i shares users)).

(** What is published of an entry. *)
Definition entry_bindings e (after : option (instance M H)) : list (Binding H) :=
  if isVhostProtocol (Protocol e) then match after ≫= iBinding with Some b => [b] | None => [] end else [].

(** The status tells whether an own listener runs. *)
Definition entry_status e (after : option (instance M H)) (st : option Status) : Prop :=
  exists s, st = Some s /\ stID s = eID e /\ stEnabled s = eEnabled e /\
    (isVhostProtocol (Protocol e) = false -> stRunning s = is_some after).

Lemma refresh_users i shares us us' : iUsers (refresh i shares us) = Some us' -> us' = us.
Proof. cbn. destruct (iUsers i); [|done]. by intros [= <-]. Qed.

(** Nothing but the entry's own instance and status changes. *)
Definition touches e m m' : Prop :=
  (forall id, id <> eID e -> instances m' !! id = instances m !! id /\ status m' !! id = status m !! id) /\
  order m' = order m /\ vhosts m' = vhosts m.

(** What a fresh start leaves. *)
Definition fresh_after shares (users : list FTPUserEntry) e m m' : Prop :=
  touches e m m' /\
  match instances m' !! eID e with
  | None => True
  | Some i => eEnabled e = true /\ iShares i = shares /\ (forall us, iUsers i = Some us -> us = users)
  end /\ entry_status e (instances m' !! eID e) (status m' !! eID e).

Lemma set_status_fresh shares users e m s : instances m !! eID e = None -> stID s = eID e -> stEnabled s = eEnabled e ->
  stRunning s = false -> fresh_after shares users e m (set_status m (eID e) s).
Proof.
  intros Hn Hi He Hr. unfold fresh_after, touches, entry_status. cbn [set_status instances status order vhosts].
  rewrite Hn, lookup_insert_eq. split_and!; [|done|done|done|by eexists]. intros id Hid. by rewrite lookup_insert_ne.
Qed.

Lemma set_instance_fresh shares users e m i keys s : eEnabled e = true -> iShares i = shares ->
  (forall us, iUsers i = Some us -> us = users) -> stID s = eID e -> stEnabled s = true ->
  (isVhostProtocol (Protocol e) = false -> stRunning s = true) ->
  fresh_after shares users e m (set_status (set_instance (started m keys) (eID e) i) (eID e) s).
Proof.
  intros He Hsh Hu Hi Hen Hr. unfold fresh_after, touches, entry_status.
  cbn [set_status set_instance started instances status order vhosts]. rewrite !lookup_insert_eq, He.
  split_and!; [|done|done|done|done|done|by eexists]. intros id Hid. by rewrite !lookup_insert_ne.
Qed.

Lemma freshVhost_spec shares users e m : isVhostProtocol (Protocol e) = true -> instances m !! eID e = None ->
  let '(b, m') := freshVhostInstance NewServer m e shares users in
  fresh_after shares users e m m' /\ b = entry_bindings e (instances m' !! eID e).
Proof.
  intros Ev Hn. unfold freshVhostInstance, entry_bindings. cbv zeta. rewrite Ev.
  destruct (eEnabled e) eqn:Ee; cbn [negb]; [|split; [by apply set_status_fresh|cbn; by rewrite Hn]].
  destruct (NewServer _ shares users) as [[h k]|err]; [|split; [by apply set_status_fresh|cbn; by rewrite Hn]].
  split; [|cbn; by rewrite lookup_insert_eq]. apply set_instance_fresh; try done; [by intros us [= <-]|congruence].
Qed.

Lemma fresh_spec shares users e m : instances m !! eID e = None ->
  fresh_after shares users e m (freshInstance NewServer preflight m e shares users).
Proof.
  intros Hn. unfold freshInstance. cbv zeta. destruct (eEnabled e) eqn:Ee; cbn [negb]; [|by apply set_status_fresh].
  destruct (if String.eqb (Protocol e) "ftp" then _ else _) as [err|]; [by apply set_status_fresh|].
  unfold startInstance. cbv zeta. destruct (String.eqb (Protocol e) "ftp" || _ || _); [|by apply set_status_fresh].
  destruct (NewServer _ shares users) as [[h k]|err]; cbn [rbind]; [|by apply set_status_fresh].
  apply set_instance_fresh; try done. cbn. destruct (String.eqb (Protocol e) "tftp"); [done|]. by intros us [= <-].
Qed.

(** A fresh start after the old instance was dropped. *)
Lemma dropped_fresh shares users e m m' : fresh_after shares users e (drop_instance m (eID e)) m' ->
  fresh_after shares users e m m'.
Proof.
  intros ((Hf & Ho & Hv) & H2). split; [|exact H2]. split_and!; [|done|done]. intros id Hid.
  destruct (Hf id Hid) as [-> ->]. cbn. by rewrite lookup_delete_ne.
Qed.

Lemma refresh_entry shares users e m i s : eEnabled e = true -> stID s = eID e -> stEnabled s = true ->
  (isVhostProtocol (Protocol e) = false -> stRunning s = true) ->
  fresh_after shares users e m (set_status (set_instance m (eID e) (refresh i shares users)) (eID e) s).
Proof.
  intros He Hi Hen Hr. unfold fresh_after, touches, entry_status.
  cbn [set_status set_instance instances status order vhosts]. rewrite !lookup_insert_eq, He.
  split_and!; [|done|done|done|done|apply refresh_users|by eexists]. intros id Hid. by rewrite !lookup_insert_ne.
Qed.

Lemma reconcile_entry_spec all users bs m e :
  let '(bs', m') := reconcile_entry all users (bs, m) e in
  touches e m m' /\ entry_after all users e (instances m !! eID e) (instances m' !! eID e) /\
  entry_status e (instances m' !! eID e) (status m' !! eID e) /\
  bs' = bs ++ entry_bindings e (instances m' !! eID e).
Proof.
  unfold ServeManager.reconcile_entry, entry_after. cbv zeta. set (sh := filterShares all (eShares e)).
  destruct (isVhostProtocol (Protocol e)) eqn:Ev.
  - unfold reconcileVhostInstance. destruct (instances m !! eID e) as [i|] eqn:Ei.
    + destruct (if eEnabled e && String.eqb (sig i) (entrySignature e) then iBinding i else None) as [b|] eqn:Eb.
      * destruct (eEnabled e) eqn:Ee; [|done]. destruct (String.eqb (sig i) _); [|done]. cbn [andb] in Eb.
        destruct (refresh_entry sh users e m i (new_status e (entryHostname e) false "")) as (Ht & Hs & Hst); [done|done|done|congruence|].
        split_and!; [apply Ht..| | |exact Hst|].
        -- rewrite Ee in Hs. exact Hs.
        -- cbn. rewrite lookup_insert_eq. by intros i0 [= <-] _ _ _.
        -- f_equal. unfold entry_bindings. rewrite Ev. cbn. by rewrite lookup_insert_eq; cbn; rewrite Eb.
      * pose proof (freshVhost_spec sh users e (drop_instance m (eID e)) Ev (lookup_delete_eq _ _)) as H0.
        destruct (freshVhostInstance _ _ _ _ _) as [b m']. destruct H0 as [(Ht & Hi & Hst)%dropped_fresh Hb].
        split_and!; [apply Ht..|exact Hi| |exact Hst|by rewrite Hb]. intros i0 [= <-] Hen Hsig Hbi. exfalso.
        rewrite Hen, (proj2 (String.eqb_eq _ _) Hsig) in Eb. cbn in Eb. by destruct (Hbi eq_refl).
    + pose proof (freshVhost_spec sh users e m Ev Ei) as H0. destruct (freshVhostInstance _ _ _ _ _) as [b m'].
      destruct H0 as [(Ht & Hi & Hst) Hb]. split_and!; [apply Ht..|exact Hi|done|exact Hst|by rewrite Hb].
  - assert (Eb : forall o, bs = bs ++ entry_bindings e o) by (intros o; unfold entry_bindings; by rewrite Ev, app_nil_r).
    unfold reconcileInstance. destruct (instances m !! eID e) as [i|] eqn:Ei.
    + destruct (eEnabled e && String.eqb (sig i) (entrySignature e)) eqn:Es.
      * apply andb_true_iff in Es as [Ee Es].
        destruct (refresh_entry sh users e m i (new_status e "" true "")) as (Ht & Hs & Hst); [done..|].
        split_and!; [apply Ht..|exact Hs| |exact Hst|apply Eb]. cbn. rewrite lookup_insert_eq. by intros i0 [= <-] _ _ _.
      * destruct (dropped_fresh _ _ _ _ _ (fresh_spec sh users e (drop_instance m (eID e)) (lookup_delete_eq _ _))) as (Ht & Hi & Hst).
        split_and!; [apply Ht..|exact Hi| |exact Hst|apply Eb]. intros i0 [= <-] Hen Hsig _. exfalso.
        by rewrite Hen, (proj2 (String.eqb_eq _ _) Hsig) in Es.
    + destruct (fresh_spec sh users e m Ei) as (Ht & Hi & Hst). split_and!; [apply Ht..|exact Hi|done|exact Hst|apply Eb].
Qed.

(** ** All entries *)

Lemma fold_entries all users es : NoDup (eID <$> es) -> forall bs m,
  let '(bs', m') := foldl (reconcile_entry all users) (bs, m) es in
  (forall id, id ∉ (eID <$> es) -> instances m' !! id = instances m !! id /\ status m' !! id = status m !! id) /\
  order m' = order m /\ vhosts m' = vhosts m /\
  (forall e, e ∈ es -> entry_after all users e (instances m !! eID e) (instances m' !! eID e) /\
                       entry_status e (instances m' !! eID e) (status m' !! eID e)) /\
  bs' = bs ++ concat ((fun e => entry_bindings e (instances m' !! eID e)) <$> es).
Proof.
  induction es as [|x es IH]; intros Hn bs m; cbn [foldl].
  { split_and!; [done|done|done|by intros e He; inversion He|by rewrite app_nil_r]. }
  rewrite fmap_cons, NoDup_cons in Hn. destruct Hn as [Hx Hn].
  pose proof (reconcile_entry_spec all users bs m x) as H1. destruct (reconcile_entry all users (bs, m) x) as [bs1 m1].
  destruct H1 as ((Hf & Ho & Hv) & Ha & Hs & Hb). specialize (IH Hn bs1 m1).
  destruct (foldl _ (bs1, m1) es) as [bs' m']. destruct IH as (Hf' & Ho' & Hv' & Ha' & Hb').
  destruct (Hf' (eID x) Hx) as [Ei Es]. split_and!; [|congruence|congruence| |].
  - intros id Hid. rewrite fmap_cons, not_elem_of_cons in Hid. destruct Hid as [Hne Hid].
    destruct (Hf' id Hid) as [-> ->]. by apply Hf.
  - intros e [->|He]%elem_of_cons; [by rewrite Ei, Es|]. destruct (Ha' e He) as [H1 H2]. split; [|done].
    assert (Hne : eID e <> eID x) by (intros E; apply Hx; rewrite <-E; apply list_elem_of_fmap; by exists e).
    by rewrite <-(proj1 (Hf (eID e) Hne)).
  - rewrite Hb', Hb, fmap_cons. cbn [concat]. by rewrite <-app_assoc, Ei.
Qed.

Lemma desired_NoDup cfg : NoDup (eID <$> desired cfg).
Proof.
  unfold desired. assert (H0 : forall l acc, NoDup (eID <$> acc) -> NoDup (eID <$> foldl add_entry acc l)).
  { induction l as [|e l IH]; intros acc Ha; [done|]. cbn [foldl]. apply IH. unfold add_entry. case_bool_decide as Ed; [done|].
    rewrite fmap_app. cbn [fmap list_fmap]. apply NoDup_app. split_and!; [done| |apply NoDup_singleton].
    intros x Hx. rewrite list_elem_of_singleton. by intros ->. }
  apply H0. constructor.
Qed.

Hypothesis range_law : forall s, range s ≡ₚ elements s.

(** C23: after a reconcile the configured servers are those of the document, each id
    once; every running instance is an enabled server with exactly the shares the
    document gives it and no other users than the document's, whatever ran
    before; an enabled server whose signature is that of its running instance
    keeps it; nothing else runs; and what is published on the shared listeners
    is the bindings of the HTTP instances, in order. *)
Theorem Reconcile_spec cfg m :
  let m' := Reconcile cfg m in
  let all := buildShares resolve (Shares cfg) in
  order m' = eID <$> desired cfg /\ NoDup (order m') /\
  (forall id, id ∉ order m' -> instances m' !! id = None /\ status m' !! id = None) /\
  (forall e, e ∈ desired cfg -> entry_after all (Users cfg) e (instances m !! eID e) (instances m' !! eID e) /\
                                entry_status e (instances m' !! eID e) (status m' !! eID e)) /\
  default [] (owners (vhosts m') !! "serve") =
    with_owner "serve" <$> concat ((fun e => entry_bindings e (instances m' !! eID e)) <$> desired cfg).
Proof.
  cbv zeta. unfold ServeManager.Reconcile. cbv zeta. pose proof (desired_NoDup cfg) as Hn.
  set (m0 := {| instances := _; order := _; status := _; starts := _; hostKeys := _; vhosts := _ |}).
  pose proof (fold_entries (buildShares resolve (Shares cfg)) (Users cfg) (desired cfg) Hn [] m0) as Hf.
  destruct (foldl _ ([], m0) (desired cfg)) as [bs m1]. destruct Hf as (Hf & Ho & Hv & Ha & Hb). cbn [app] in Hb.
  cbn [with_vhosts order instances status vhosts]. rewrite Ho. split_and!; [done|exact Hn| | |].
  - intros id Hid. destruct (Hf id Hid) as [-> ->]. unfold m0. cbn [instances status]. rewrite !map_lookup_filter.
    split; [destruct (instances m !! id)|destruct (status m !! id)]; try done; cbn; by rewrite option_guard_False.
  - intros e He. destruct (Ha e He) as [H1 H2]. split; [|done].
    assert (E : instances m0 !! eID e = instances m !! eID e); [|by rewrite <-E].
    unfold m0. cbn [instances]. rewrite map_lookup_filter. destruct (instances m !! eID e); [|done]. cbn.
    rewrite option_guard_True; [done|]. apply list_elem_of_fmap. by exists e.
  - rewrite (SetBindings_owners X509KeyPair range range_law). rewrite <-Hb. destruct bs as [|b bs]; [by rewrite lookup_delete_eq|].
    by rewrite lookup_insert_eq.
Qed.

End safety.

(** ** Examples *)

Definition sample_serve (settings : option FTPServeSettings) : ServeSettings :=
  {| Servers := [http_server "a" "s3" "s3.example.com"; ftp_server settings];
     Users := [{| Username := "ada"; Password := "secret"; uShares := []; AuthorizedKeys := ""; uReadOnly := false |}];
     Shares := [{| shName := "docs"; Paths := ["/data/docs"]; shReadOnly := true; Root := false |}] |}.

Definition sample_NewServer (e : ServeServerEntry) (_ : list (Share string)) (_ : list FTPUserEntry) : result string (string * option string) :=
  Ok (eID e, None).

Definition no_instances : Manager string string string :=
  {| instances := ∅; order := []; status := ∅; starts := 0; hostKeys := []; vhosts := Vhost.NewManager |}.

Definition sample_reconcile (settings : option FTPServeSettings) : Manager string string string -> Manager string string string :=
  Reconcile sample_NewServer sample_pair elements (fun _ _ => None) open_all (fun p => Some p) (sample_serve settings).

Lemma Reconcile_spec_witness :
  order (sample_reconcile None no_instances) = ["a"; "files"] /\
  (Vhost.Hostname <$> default [] (owners (vhosts (sample_reconcile None no_instances)) !! "serve")) = ["s3.example.com"].
Proof.
  destruct (Reconcile_spec sample_NewServer sample_pair elements (fun _ _ => None) open_all (fun p => Some p) elements_law
    (sample_serve None) no_instances) as (Ho & _ & _ & _ & Hv).
  fold (sample_reconcile None no_instances) in Ho, Hv. split; [exact Ho|]. rewrite Hv. vm_compute. reflexivity.
Defined.

(** An FTP server whose settings are spelled out keeps running over a reconcile;
    one that leaves them to the defaults is started again every time, since the
    signature of the instance is taken after the defaults were filled in. *)
Lemma nil_settings_restart :
  starts (sample_reconcile (Some ftp_zero) no_instances) = 2%nat /\
  starts (sample_reconcile (Some ftp_zero) (sample_reconcile (Some ftp_zero) no_instances)) = 2%nat /\
  starts (sample_reconcile None no_instances) = 2%nat /\
  starts (sample_reconcile None (sample_reconcile None no_instances)) = 3%nat.
Proof. vm_compute. by split_and!. Qed.
