(* ===== verification/ServerKeys.v ===== *)
(** * The at-rest key and the registry tables it protects

    internal/secret (crypto/chacha.go, envelope/envelope.go, keymgr/manager.go),
    internal/storage/registry_store.go, the registry part of
    internal/service/service.go, and the key lifecycle of
    internal/service/keyops.go.  One process: the live key, the tables and the
    failures of the database are the state of an error monad, and every SQL
    statement is one call of [sql], which takes the next of [faults].  The AEAD
    and the random bytes are parameters.  A JSONB column holds the document
    itself; the text of the sealed credentials, which is what gets encrypted, is
    written and parsed with GoJson.v.  Rows are listed in byte order. *)

From Stdlib Require Import ZArith Lia Ascii.
From stdpp Require Import base list strings gmap.
From S2P Require Import Prelude GoStrings GoHash GoJson RegistryConf.

Local Open Scope Z_scope.

(** ** Data *)

Inductive KeyErr :=
| ErrBadRequest | ErrConflict | ErrForbidden | ErrNotFound | ErrDatabase
| ErrLocked | ErrUnknownFormat | ErrInvalidKeySize | ErrInvalidCiphertext | ErrDecryptionFailed.

Record repoAuthMeta := { mType : string; mUsername : string; mHeader : string }.

Record upstreamSecret := { sPassword : string; sToken : string; sValue : string; sSSHKey : string }.

Record repoSealedSecrets := {
  xSigningKey : string; xReplicationToken : string; xPassword : string; xToken : string; xValue : string;
  xUpstreams : list upstreamSecret;
}.

(** A row of kutu_registry_repository; NULL is None. *)
Record Row := {
  cType : string; cKind : string; cAuth : option repoAuthMeta; cSealed : option string;
  cData : RegistryRepository;
}.

(** A document of kutu_meta, as the program writes them. *)
Inductive Meta := MBytes (b : string) | MString (s : string) | MBool (b : bool).

(** [active] is the key of the live encryptor, None when locked. *)
Record World := {
  active : option string;
  initialized : bool;
  meta : gmap string Meta;
  nsTable : gmap string string;
  repoTable : gmap (string * string) Row;
  drawn : nat;
  faults : list bool;
}.

Definition with_active (k : option string) (w : World) : World :=
  {| active := k; initialized := initialized w; meta := meta w; nsTable := nsTable w;
     repoTable := repoTable w; drawn := drawn w; faults := faults w |}.
Definition with_initialized (w : World) : World :=
  {| active := active w; initialized := true; meta := meta w; nsTable := nsTable w;
     repoTable := repoTable w; drawn := drawn w; faults := faults w |}.
Definition with_meta (m : gmap string Meta) (w : World) : World :=
  {| active := active w; initialized := initialized w; meta := m; nsTable := nsTable w;
     repoTable := repoTable w; drawn := drawn w; faults := faults w |}.
Definition with_tables (n : gmap string string) (r : gmap (string * string) Row) (w : World) : World :=
  {| active := active w; initialized := initialized w; meta := meta w; nsTable := n;
     repoTable := r; drawn := drawn w; faults := faults w |}.
Definition with_drawn (w : World) : World :=
  {| active := active w; initialized := initialized w; meta := meta w; nsTable := nsTable w;
     repoTable := repoTable w; drawn := S (drawn w); faults := faults w |}.
Definition with_faults (l : list bool) (w : World) : World :=
  {| active := active w; initialized := initialized w; meta := meta w; nsTable := nsTable w;
     repoTable := repoTable w; drawn := drawn w; faults := l |}.

(** ** The monad *)

Definition M (A : Type) : Type := World -> result KeyErr A * World.

Definition ret {A} (a : A) : M A := fun w => (Ok a, w).
Definition fail {A} (e : KeyErr) : M A := fun w => (Err e, w).
Definition mbind_ {A B} (m : M A) (f : A -> M B) : M B := fun w =>
  match m w with (Ok a, w) => f a w | (Err e, w) => (Err e, w) end.
(** [x, _ := m]: an error leaves nil. *)
Definition attempt {A} (m : M A) : M (option A) := fun w =>
  match m w with (Ok a, w) => (Ok (Some a), w) | (Err _, w) => (Ok None, w) end.
Definition lift {A} (r : result KeyErr A) : M A := fun w => (r, w).

Declare Scope keys_scope.
Notation "x <- p ;; q" := (mbind_ p (fun x => q)) (at level 100, p at next level, right associativity) : keys_scope.
Local Open Scope keys_scope.

(** One statement: it fails when the next of [faults] says so. *)
Definition sql {A} (q : World -> result KeyErr A * World) : M A := fun w =>
  match faults w with
  | true :: l => (Err ErrDatabase, with_faults l w)
  | false :: l => q (with_faults l w)
  | [] => q w
  end.

Definition refuse (b : bool) (e : KeyErr) : M unit := if b then fail e else ret tt.

Section keys.
(** XChaCha20-Poly1305: [SealX key nonce plaintext] is the ciphertext with its
    tag, [OpenX key nonce ciphertext] the plaintext or nothing. *)
Variable SealX : string -> string -> string -> string.
Variable OpenX : string -> string -> string -> option string.
(** [rand.Read]: the bytes of the n-th draw, of a given length. *)
Variable Random : nat -> nat -> string.

Definition draw (n : nat) : M string := fun w => (Ok (Random (drawn w) n), with_drawn w).

(** ** crypto/chacha.go *)

Definition KeySize : nat := 32.
Definition NonceSize : nat := 24.
Definition Overhead : nat := 16.

(** An encryptor is its key. *)
Definition NewChaCha20 (key : string) : result KeyErr string :=
  if negb (len key =? KeySize)%nat then Err ErrInvalidKeySize else Ok key.

Definition Encrypt (key plaintext : string) : M string :=
  nonce <- draw NonceSize;; ret (nonce +:+ SealX key nonce plaintext).

Definition Decrypt (key ciphertext : string) : result KeyErr string :=
  if (len ciphertext <? NonceSize + Overhead)%nat then Err ErrInvalidCiphertext
  else match OpenX key (str_take NonceSize ciphertext) (str_drop NonceSize ciphertext) with
       | Some p => Ok p
       | None => Err ErrDecryptionFailed
       end.

Record RotatedEncryptor := { current : string; old : string }.

Definition RotateTo (key newKey : string) : result KeyErr RotatedEncryptor :=
  match NewChaCha20 newKey with
  | Ok k => Ok {| current := k; old := key |}
  | Err e => Err e
  end.

Definition rotatedEncrypt (r : RotatedEncryptor) : string -> M string := Encrypt (current r).

Definition rotatedDecrypt (r : RotatedEncryptor) (c : string) : result KeyErr string :=
  match Decrypt (current r) c with Ok p => Ok p | Err _ => Decrypt (old r) c end.

(** ** keymgr/manager.go *)

Definition Encryptor_ : M (option string) := fun w => (Ok (active w), w).
Definition IsUnlocked (w : World) : bool := present (active w).
Definition MarkInitialized : M unit := fun w => (Ok tt, with_initialized w).
Definition Unlock (key : string) : M unit := fun w => (Ok tt, with_active (Some key) w).
Definition Lock : M unit := fun w => (Ok tt, with_active None w).

(** ** envelope/envelope.go *)

Definition formatV1 : ascii := chr 1.

Definition Seal (plaintext : string) : M string :=
  k <- Encryptor_;;
  match k with
  | None => fail ErrLocked
  | Some k => ct <- Encrypt k plaintext;; ret (String formatV1 ct)
  end.

(** [Open] with the live key [k]. *)
Definition Open (k : option string) (ciphertext : string) : result KeyErr string :=
  match ciphertext with
  | "" => Err ErrUnknownFormat
  | String c ct =>
      if Ascii.eqb c formatV1 then
        match k with None => Err ErrLocked | Some k => Decrypt k ct end
      else Err ErrUnknownFormat
  end.

Definition IsSealed (blob : string) : bool :=
  match blob with "" => false | String c _ => Ascii.eqb c formatV1 end.

(** ** storage.go: the meta table *)

Definition GetMeta (key : string) : M (option Meta) := sql (fun w => (Ok (meta w !! key), w)).
Definition SetMeta (key : string) (v : Meta) : M unit :=
  sql (fun w => (Ok tt, with_meta (<[key := v]> (meta w)) w)).

(** ** registry_store.go: credentials *)

Definition omit (k v : string) : list (string * Json) := if String.eqb v "" then [] else [(k, JString v)].

Definition encodeUpstream (u : upstreamSecret) : Json :=
  JObject (omit "password" (sPassword u) ++ omit "token" (sToken u) ++ omit "value" (sValue u)
           ++ omit "ssh_key" (sSSHKey u)).

Definition encodeSecrets (x : repoSealedSecrets) : Json :=
  JObject (omit "signing_key" (xSigningKey x) ++ omit "replication_token" (xReplicationToken x)
           ++ omit "password" (xPassword x) ++ omit "token" (xToken x) ++ omit "value" (xValue x)
           ++ match xUpstreams x with [] => [] | l => [("upstreams", JArray (encodeUpstream <$> l))] end).

Definition object_members (j : Json) : list (string * Json) := match j with JObject m => m | _ => [] end.

(** [json.Unmarshal] with its error ignored: a member of the wrong type is
    skipped. *)
Definition stringField (k : string) (m : list (string * Json)) : string :=
  foldl (fun acc j => match j with JString s => s | _ => acc end) "" (struct_field k m).

Definition decodeUpstream (j : Json) : upstreamSecret :=
  let m := object_members j in
  {| sPassword := stringField "password" m; sToken := stringField "token" m;
     sValue := stringField "value" m; sSSHKey := stringField "ssh_key" m |}.

Definition decodeSecrets (j : Json) : repoSealedSecrets :=
  let m := object_members j in
  {| xSigningKey := stringField "signing_key" m; xReplicationToken := stringField "replication_token" m;
     xPassword := stringField "password" m; xToken := stringField "token" m; xValue := stringField "value" m;
     xUpstreams := foldl (fun acc j => match j with JArray l => decodeUpstream <$> l | JNull => [] | _ => acc end)
                         [] (struct_field "upstreams" m) |}.

Definition no_secrets : repoSealedSecrets :=
  {| xSigningKey := ""; xReplicationToken := ""; xPassword := ""; xToken := ""; xValue := ""; xUpstreams := [] |}.

Definition upstreamSecrets (u : RegistryUpstream) : upstreamSecret :=
  match uAuth u with
  | Some a => {| sPassword := Password a; sToken := Token a; sValue := Value a; sSSHKey := SSHKey u |}
  | None => {| sPassword := ""; sToken := ""; sValue := ""; sSSHKey := SSHKey u |}
  end.

Definition repoSecrets (r : RegistryRepository) : repoSealedSecrets :=
  {| xSigningKey := SigningKey r;
     xReplicationToken := match Replication r with Some p => rpToken p | None => "" end;
     xPassword := match Auth r with Some a => Password a | None => "" end;
     xToken := match Auth r with Some a => Token a | None => "" end;
     xValue := match Auth r with Some a => Value a | None => "" end;
     xUpstreams := upstreamSecrets <$> Upstreams r |}.

Definition upstreamHasSecret (u : upstreamSecret) : bool :=
  nonempty (sPassword u) || nonempty (sToken u) || nonempty (sValue u) || nonempty (sSSHKey u).

Definition hasSecret (x : repoSealedSecrets) : bool :=
  nonempty (xSigningKey x) || nonempty (xReplicationToken x) ||
  (nonempty (xPassword x) || nonempty (xToken x) || nonempty (xValue x)) ||
  existsb upstreamHasSecret (xUpstreams x).

Definition authMeta (a : RegistryUpstreamAuth) : repoAuthMeta :=
  {| mType := aType a; mUsername := Username a; mHeader := Header a |}.

Definition sealRepoSecrets (r : RegistryRepository) : M (option repoAuthMeta * option string) :=
  let metaArg := authMeta <$> Auth r in
  let sec := repoSecrets r in
  if negb (hasSecret sec) then ret (metaArg, None)
  else
    k <- Encryptor_;;
    _ <- refuse (negb (present k)) ErrBadRequest;;
    sealed <- Seal (write (encodeSecrets sec));;
    ret (metaArg, Some sealed).

Definition with_secret (us : upstreamSecret) (u : RegistryUpstream) : RegistryUpstream :=
  {| uPrefix := uPrefix u; uURL := uURL u;
     uAuth := match uAuth u with
       | Some a => Some {| aType := aType a; Username := Username a; Password := sPassword us;
                           Token := sToken us; Header := Header a; Value := sValue us |}
       | None =>
           if nonempty (sPassword us) || nonempty (sToken us) || nonempty (sValue us)
           then Some {| aType := ""; Username := ""; Password := sPassword us; Token := sToken us;
                        Header := ""; Value := sValue us |}
           else None
       end;
     SSHKey := sSSHKey us |}.

Fixpoint with_secrets (us : list upstreamSecret) (l : list RegistryUpstream) : list RegistryUpstream :=
  match us, l with
  | s :: us, u :: l => with_secret s u :: with_secrets us l
  | _, _ => l
  end.

(** The fields of a repository that carry credentials, replaced. *)
Definition with_credentials (auth : option RegistryUpstreamAuth) (key : string)
    (rep : option RegistryReplication) (ups : list RegistryUpstream) (r : RegistryRepository) : RegistryRepository :=
  {| rName := rName r; Description := Description r; Type_ := Type_ r; Kind := Kind r; Mount := Mount r;
     BasePath := BasePath r; AllowPush := AllowPush r; URL := URL r; Auth := auth; Upstreams := ups;
     MutableTTL := MutableTTL r; FloatingTags := FloatingTags r; InsecureSkipVerify := InsecureSkipVerify r;
     Members := Members r; DefaultLocal := DefaultLocal r; CORSOrigins := CORSOrigins r;
     MaxUploadSize := MaxUploadSize r; rPolicy := rPolicy r; SigningKey := key;
     SigningKeyName := SigningKeyName r; Prefetch := Prefetch r; Replication := rep |}.

Definition with_token (t : string) (p : RegistryReplication) : RegistryReplication :=
  {| SourceURL := SourceURL p; rpToken := t; rpInterval := rpInterval p; rpDisabled := rpDisabled p |}.

(** What the sealed column says with the live key [k]. *)
Definition openSecrets (k : option string) (sealed : option string) : repoSealedSecrets :=
  match sealed with
  | Some b =>
      match Open k b with
      | Ok raw => match parse raw with Some j => decodeSecrets j | None => no_secrets end
      | Err _ => no_secrets
      end
  | None => no_secrets
  end.

Definition openRepoSecrets (k : option string) (auth : option repoAuthMeta) (sealed : option string)
    (r : RegistryRepository) : RegistryRepository :=
  let sec := openSecrets k sealed in
  with_credentials
    (match auth with
     | Some m => Some {| aType := mType m; Username := mUsername m; Password := xPassword sec;
                         Token := xToken sec; Header := mHeader m; Value := xValue sec |}
     | None => Auth r
     end)
    (xSigningKey sec) (with_token (xReplicationToken sec) <$> Replication r)
    (with_secrets (xUpstreams sec) (Upstreams r)) r.

(** ** registry_store.go: rows *)

Definition strip_auth (a : RegistryUpstreamAuth) : RegistryUpstreamAuth :=
  {| aType := aType a; Username := Username a; Password := ""; Token := ""; Header := Header a; Value := "" |}.

Definition strip_upstream (u : RegistryUpstream) : RegistryUpstream :=
  {| uPrefix := uPrefix u; uURL := uURL u; uAuth := strip_auth <$> uAuth u; SSHKey := "" |}.

(** The repository as it goes into the data column. *)
Definition strip (r : RegistryRepository) : RegistryRepository :=
  with_credentials None "" (with_token "" <$> Replication r) (strip_upstream <$> Upstreams r) r.

Definition repoRecord (r : RegistryRepository) : M Row :=
  p <- sealRepoSecrets r;;
  ret {| cType := Type_ r; cKind := Kind r; cAuth := p.1; cSealed := p.2; cData := strip r |}.

Definition scanRepo (k : option string) (row : Row) : RegistryRepository :=
  openRepoSecrets k (cAuth row) (cSealed row) (cData row).

Definition by_key {A} (m : gmap string A) : list (string * A) :=
  SliceStable (fun x y => str_ltb x.1 y.1) (map_to_list m).

Definition key_ltb (a b : (string * string) * Row) : bool :=
  str_ltb a.1.1 b.1.1 || (String.eqb a.1.1 b.1.1 && str_ltb a.1.2 b.1.2).

Definition ListNamespaces : M (list RegistryNamespace) :=
  sql (fun w => (Ok ((fun kv => {| nName := kv.1; nDescription := kv.2; Repositories := [] |}) <$> by_key (nsTable w)), w)).

Definition GetNamespace (name : string) : M RegistryNamespace :=
  sql (fun w => (match nsTable w !! name with
                 | Some d => Ok {| nName := name; nDescription := d; Repositories := [] |}
                 | None => Err ErrNotFound
                 end, w)).

Definition CountNamespaces : M nat := sql (fun w => (Ok (size (nsTable w)), w)).

Definition insertNamespace (ns : RegistryNamespace) : M unit :=
  sql (fun w => match nsTable w !! nName ns with
                | Some _ => (Err ErrDatabase, w)
                | None => (Ok tt, with_tables (<[nName ns := nDescription ns]> (nsTable w)) (repoTable w) w)
                end).

Definition UpdateNamespace (ns : RegistryNamespace) : M unit :=
  sql (fun w => match nsTable w !! nName ns with
                | None => (Err ErrNotFound, w)
                | Some _ => (Ok tt, with_tables (<[nName ns := nDescription ns]> (nsTable w)) (repoTable w) w)
                end).

(** The foreign key deletes the repositories of the namespace. *)
Definition DeleteNamespace (name : string) : M unit :=
  sql (fun w => match nsTable w !! name with
                | None => (Err ErrNotFound, w)
                | Some _ => (Ok tt, with_tables (delete name (nsTable w))
                                      (filter (fun kv => kv.1.1 <> name) (repoTable w)) w)
                end).

(** The namespace and the repository of each row; "" lists every namespace. *)
Definition ListRepositories (namespace : string) : M (list (string * RegistryRepository)) :=
  sql (fun w =>
    let rows := SliceStable key_ltb (map_to_list (repoTable w)) in
    let rows := if String.eqb namespace "" then rows
                else filter (fun kv => kv.1.1 = namespace) rows in
    (Ok ((fun kv => (kv.1.1, scanRepo (active w) kv.2)) <$> rows), w)).

Definition GetRepository (namespace name : string) : M RegistryRepository :=
  sql (fun w => (match repoTable w !! (namespace, name) with
                 | Some row => Ok (scanRepo (active w) row)
                 | None => Err ErrNotFound
                 end, w)).

(** A duplicate key or an unknown namespace is an error of the database. *)
Definition insertRepository (namespace : string) (r : RegistryRepository) : M unit :=
  row <- repoRecord r;;
  sql (fun w => if present (repoTable w !! (namespace, rName r)) || negb (present (nsTable w !! namespace))
                then (Err ErrDatabase, w)
                else (Ok tt, with_tables (nsTable w) (<[(namespace, rName r) := row]> (repoTable w)) w)).

Definition updateRow (namespace : string) (r : RegistryRepository) : M unit :=
  row <- repoRecord r;;
  sql (fun w => match repoTable w !! (namespace, rName r) with
                | None => (Err ErrNotFound, w)
                | Some _ => (Ok tt, with_tables (nsTable w) (<[(namespace, rName r) := row]> (repoTable w)) w)
                end).

Definition DeleteRepository (namespace name : string) : M unit :=
  sql (fun w => match repoTable w !! (namespace, name) with
                | None => (Err ErrNotFound, w)
                | Some _ => (Ok tt, with_tables (nsTable w) (delete (namespace, name) (repoTable w)) w)
                end).

Definition LoadRegistryTree : M (list RegistryNamespace) :=
  nss <- ListNamespaces;;
  repos <- ListRepositories "";;
  ret ((fun ns => {| nName := nName ns; nDescription := nDescription ns;
                     Repositories := (filter (fun p => p.1 = nName ns) repos).*2 |}) <$> nss).

(** ** service.go: the registry configuration *)

Section service.
Variable http_url : string -> bool.
Variable ParseDuration : string -> option Z.

Definition metaRegistryDisabled : string := "registry_disabled".

Definition boolFlag (key : string) : M bool :=
  v <- attempt (GetMeta key);;
  ret (match v with Some (Some (MBool b)) => b | _ => false end).

Definition RegistryEnabled : M bool := b <- boolFlag metaRegistryDisabled;; ret (negb b).
Definition SetRegistryDisabled (disabled : bool) : M unit := SetMeta metaRegistryDisabled (MBool disabled).

Definition GetRegistrySettings : M (option RegistrySettings) :=
  t <- attempt LoadRegistryTree;;
  match t with
  | None => ret None
  | Some nss => b <- RegistryEnabled;; ret (Some {| rsDisabled := negb b; Namespaces := nss |})
  end.

Definition bad_request (r : result Invalid unit) : M unit :=
  match r with Ok _ => ret tt | Err _ => fail ErrBadRequest end.

Definition CreateNamespace (ns : RegistryNamespace) : M unit :=
  _ <- bad_request (validateRegistryName (nName ns));;
  existing <- attempt (GetNamespace (nName ns));;
  _ <- refuse (present existing) ErrConflict;;
  insertNamespace ns.

(** The repositories of the namespace with [r] in its place, or at the end. *)
Definition with_repo (rows : list RegistryRepository) (r : RegistryRepository) : list RegistryRepository :=
  let repos := (fun x => if String.eqb (rName x) (rName r) then r else x) <$> rows in
  if existsb (fun x => String.eqb (rName x) (rName r)) rows then repos else repos ++ [r].

Definition validateRepoInNamespace (namespace : string) (r : RegistryRepository) : M unit :=
  rows <- ListRepositories namespace;;
  bad_request (Validate http_url ParseDuration
    {| rsDisabled := false;
       Namespaces := [{| nName := namespace; nDescription := ""; Repositories := with_repo rows.*2 r |}] |}).

Definition CreateRepository (namespace : string) (r : RegistryRepository) : M unit :=
  _ <- GetNamespace namespace;;
  existing <- attempt (GetRepository namespace (rName r));;
  _ <- refuse (present existing) ErrConflict;;
  _ <- validateRepoInNamespace namespace r;;
  insertRepository namespace r.

Definition UpdateRepository (namespace : string) (r : RegistryRepository) : M unit :=
  _ <- GetRepository namespace (rName r);;
  _ <- validateRepoInNamespace namespace r;;
  updateRow namespace r.

Definition EnsureDefaultRegistryNamespace : M unit :=
  n <- CountNamespaces;;
  if (0 <? n)%nat then ret tt
  else fun w =>
    match insertNamespace {| nName := DefaultRegistryNamespace; nDescription := ""; Repositories := [] |} w with
    | (Ok _, w) => (Ok tt, w)
    | (Err e, w) =>
        match attempt (GetNamespace DefaultRegistryNamespace) w with
        | (Ok (Some _), w) => (Ok tt, w)
        | (_, w) => (Err e, w)
        end
    end.

End service.

(** ** keyops.go *)

Definition metaEncVerifier : string := "encryption_verifier".
Definition verifierMagic : string := "KUTU_KEY_VERIFIER_v1|".

(** A missing row is the empty verifier; a document of another shape does not
    decode. *)
Definition getVerifier : M string :=
  v <- GetMeta metaEncVerifier;;
  match v with
  | None => ret ""
  | Some (MBytes b) => ret b
  | Some _ => fail ErrDatabase
  end.

Definition setVerifier (v : string) : M unit := SetMeta metaEncVerifier (MBytes v).

Record KeyStatus := { ksInitialized : bool; ksUnlocked : bool }.

Definition GetKeyStatus : M KeyStatus :=
  v <- getVerifier;;
  let init := nonempty v in
  _ <- (if init then MarkInitialized else ret tt);;
  fun w => (Ok {| ksInitialized := init; ksUnlocked := IsUnlocked w |}, w).

Definition verifierPlaintext : M string := random <- draw 16;; ret (verifierMagic +:+ random).

Definition deriveKeyMaterial (passphrase : string) : string := Sum256 passphrase.

Definition InitializeServerKey (passphrase : string) : M unit :=
  _ <- refuse (String.eqb passphrase "") ErrBadRequest;;
  verifier <- getVerifier;;
  _ <- refuse (nonempty verifier) ErrConflict;;
  enc <- lift (NewChaCha20 (deriveKeyMaterial passphrase));;
  plain <- verifierPlaintext;;
  newVerifier <- Encrypt enc plain;;
  _ <- Unlock enc;;
  fun w =>
    match setVerifier newVerifier w with
    | (Ok _, w) => MarkInitialized w
    | (Err e, w) => (Err e, (Lock w).2)
    end.

(** The plaintext of a verifier that [passphrase] opens. *)
Definition check_passphrase (passphrase verifier : string) : M (string * string) :=
  enc <- lift (NewChaCha20 (deriveKeyMaterial passphrase));;
  match Decrypt enc verifier with
  | Err _ => fail ErrForbidden
  | Ok plain => _ <- refuse (negb (HasPrefix plain verifierMagic)) ErrForbidden;; ret (enc, plain)
  end.

Definition UnlockServerKey (passphrase : string) : M unit :=
  _ <- refuse (String.eqb passphrase "") ErrBadRequest;;
  verifier <- getVerifier;;
  _ <- refuse (negb (nonempty verifier)) ErrBadRequest;;
  p <- check_passphrase passphrase verifier;;
  _ <- Unlock p.1;;
  MarkInitialized.

Definition LockServerKey : M unit := Lock.

(** The repositories a rotation writes again. *)
Definition rewrapped (r : RegistryRepository) : bool :=
  match Auth r with
  | None => false
  | Some a => nonempty (Password a) || nonempty (Token a) || nonempty (Value a)
  end.

Fixpoint rewrap (l : list (string * RegistryRepository)) : M unit :=
  match l with
  | [] => ret tt
  | (ns, r) :: l => _ <- updateRow ns r;; rewrap l
  end.

Definition tree_repos (tree : list RegistryNamespace) : list (string * RegistryRepository) :=
  tree ≫= fun ns => (fun r => (nName ns, r)) <$> Repositories ns.

Definition RotateServerKey (oldPassphrase newPassphrase : string) : M unit :=
  _ <- refuse (String.eqb oldPassphrase "" || String.eqb newPassphrase "") ErrBadRequest;;
  _ <- refuse (String.eqb oldPassphrase newPassphrase) ErrBadRequest;;
  verifier <- getVerifier;;
  _ <- refuse (negb (nonempty verifier)) ErrBadRequest;;
  p <- check_passphrase oldPassphrase verifier;;
  tree <- LoadRegistryTree;;
  newEnc <- lift (NewChaCha20 (deriveKeyMaterial newPassphrase));;
  newVerifier <- Encrypt newEnc p.2;;
  _ <- Unlock newEnc;;
  _ <- setVerifier newVerifier;;
  rewrap (filter (fun p => rewrapped p.2 = true) (tree_repos tree)).

(** ** service/registry_token_key.go *)

Definition metaRegistryTokenKey : string := "registry_token_key".

Definition hexKey (s : string) : M string :=
  match DecodeString s with Some k => ret k | None => fail ErrDatabase end.

(** The stored key, "" for none. *)
Definition storedTokenKey : M string :=
  v <- GetMeta metaRegistryTokenKey;;
  match v with
  | None => ret ""
  | Some (MString s) => ret s
  | Some _ => fail ErrDatabase
  end.

(** The first use, after nothing was found. *)
Definition newTokenKey : M string :=
  b <- draw 32;;
  _ <- SetMeta metaRegistryTokenKey (MString (EncodeToString b));;
  s <- storedTokenKey;;
  hexKey s.

Definition RegistryTokenKey : M string :=
  s <- storedTokenKey;;
  if nonempty s then hexKey s else newTokenKey.

(** The process stops and starts again: the key is gone, the tables are not. *)
Definition restart (w : World) : World :=
  {| active := None; initialized := false; meta := meta w; nsTable := nsTable w;
     repoTable := repoTable w; drawn := drawn w; faults := faults w |}.

End keys.
