(* ===== verification/ServerKeysSafety.v ===== *)
(** * What the at-rest key protects, and when it is lost

    A stored repository is read back with its credentials; nothing of them is
    in the clear columns; the live key is the one of the verifier; a rotation
    of an unlocked server keeps every credential it writes again.  The theorems
    about locked servers and skipped repositories show when credentials are
    lost. *)

From Stdlib Require Import ZArith Lia Ascii.
From stdpp Require Import base list strings gmap relations.
From S2P Require Import Prelude GoStrings GoHash GoJson GoJsonLaws RegistryConf RegistryConfSafety ServerKeys.

Local Open Scope Z_scope.
Local Open Scope keys_scope.

(** ** The monad *)

Lemma bind_ok {A B} (m : M A) (f : A -> M B) w b w' :
  (x <- m;; f x) w = (Ok b, w') <-> exists a w1, m w = (Ok a, w1) /\ f a w1 = (Ok b, w').
Proof. unfold mbind_. destruct (m w) as [[a|e] w1]; naive_solver. Qed.

Lemma bind_run {A B} (m : M A) (f : A -> M B) w a w1 : m w = (Ok a, w1) -> (x <- m;; f x) w = f a w1.
Proof. unfold mbind_. by intros ->. Qed.

Lemma refuse_ok b e w u w' : refuse b e w = (Ok u, w') <-> b = false /\ w' = w.
Proof. unfold refuse, ret, fail. destruct b, u; naive_solver. Qed.

Lemma lift_ok {A} (r : result KeyErr A) w a w' : lift r w = (Ok a, w') <-> r = Ok a /\ w' = w.
Proof. unfold lift. naive_solver. Qed.

(** What reading leaves alone. *)
Record same (w w' : World) : Prop := {
  same_active : active w' = active w;
  same_initialized : initialized w' = initialized w;
  same_meta : meta w' = meta w;
  same_ns : nsTable w' = nsTable w;
  same_repo : repoTable w' = repoTable w;
}.

Lemma same_refl w : same w w.
Proof. by constructor. Qed.

Lemma same_trans a b c : same a b -> same b c -> same a c.
Proof. intros [] []. constructor; congruence. Qed.

(** A program that only reads. *)
Definition quiet {A} (m : M A) : Prop := forall w, same w (m w).2.

Lemma quiet_sql {A} (q : World -> result KeyErr A * World) : (forall w, (q w).2 = w) -> quiet (sql q).
Proof.
  intros Hq w. unfold sql. destruct (faults w) as [|[] l]; cbn [snd]; [by rewrite Hq; apply same_refl|by constructor|].
  rewrite Hq. by constructor.
Qed.

Lemma quiet_bind {A B} (m : M A) (f : A -> M B) : quiet m -> (forall a, quiet (f a)) -> quiet (x <- m;; f x).
Proof.
  intros Hm Hf w. unfold mbind_. specialize (Hm w). destruct (m w) as [[a|e] w1]; cbn [snd] in *; [|done].
  eapply same_trans; [exact Hm|apply Hf].
Qed.

Lemma quiet_ret {A} (a : A) : quiet (ret a).
Proof. intros w. apply same_refl. Qed.
Lemma quiet_fail {A} e : quiet (@fail A e).
Proof. intros w. apply same_refl. Qed.
Lemma quiet_lift {A} (r : result KeyErr A) : quiet (lift r).
Proof. intros w. apply same_refl. Qed.
Lemma quiet_refuse b e : quiet (refuse b e).
Proof. intros w. destruct b; apply same_refl. Qed.
Lemma quiet_attempt {A} (m : M A) : quiet m -> quiet (attempt m).
Proof. intros Hm w. specialize (Hm w). unfold attempt. by destruct (m w) as [[a|e] w1]. Qed.
Lemma quiet_draw R n : quiet (draw R n).
Proof. intros w. by constructor. Qed.
Lemma quiet_encryptor : quiet Encryptor_.
Proof. intros w. apply same_refl. Qed.

Create HintDb quiet.
#[export] Hint Resolve @quiet_bind @quiet_ret @quiet_fail @quiet_lift quiet_refuse @quiet_attempt quiet_draw
  quiet_encryptor : quiet.

Lemma quiet_ok {A} (m : M A) w a w' : quiet m -> m w = (Ok a, w') -> same w w'.
Proof. intros Hq E. specialize (Hq w). by rewrite E in Hq. Qed.

(** ** Encryption *)

Class AEAD (SealX : string -> string -> string -> string) (OpenX : string -> string -> string -> option string)
    (Random : nat -> nat -> string) : Prop := {
  Open_Seal k n p : OpenX k n (SealX k n p) = Some p;
  len_Seal k n p : len (SealX k n p) = (len p + Overhead)%nat;
  len_Random i n : len (Random i n) = n;
}.

Section safety.
Context {SealX : string -> string -> string -> string} {OpenX : string -> string -> string -> option string}.
Context {Random : nat -> nat -> string} `{!AEAD SealX OpenX Random}.

Notation Encrypt := (Encrypt SealX Random).
Notation Decrypt := (Decrypt OpenX).
Notation Seal := (Seal SealX Random).
Notation Open := (Open OpenX).
Notation openSecrets := (openSecrets OpenX).
Notation openRepoSecrets := (openRepoSecrets OpenX).
Notation sealRepoSecrets := (sealRepoSecrets SealX Random).
Notation repoRecord := (repoRecord SealX Random).
Notation scanRepo := (scanRepo OpenX).
Notation updateRow := (updateRow SealX Random).
Notation insertRepository := (insertRepository SealX Random).
Notation UpdateRepository := (UpdateRepository SealX OpenX Random).
Notation CreateRepository := (CreateRepository SealX OpenX Random).
Notation GetRepository := (GetRepository OpenX).
Notation ListRepositories := (ListRepositories OpenX).
Notation LoadRegistryTree := (LoadRegistryTree OpenX).
Notation RotateServerKey := (RotateServerKey SealX OpenX Random).
Notation UnlockServerKey := (UnlockServerKey OpenX).
Notation InitializeServerKey := (InitializeServerKey SealX Random).
Notation check_passphrase := (check_passphrase OpenX).
Notation rewrap := (rewrap SealX Random).

Lemma quiet_Encrypt k p : quiet (Encrypt k p).
Proof. unfold ServerKeys.Encrypt. auto with quiet. Qed.

Lemma Encrypt_run k p w : exists c w', Encrypt k p w = (Ok c, w') /\ Decrypt k c = Ok p /\ same w w' /\ faults w' = faults w.
Proof.
  unfold ServerKeys.Encrypt, draw, ret, mbind_. eexists _, _. split; [done|]. split; [|by split].
  unfold ServerKeys.Decrypt. rewrite len_app, len_Seal, len_Random.
  case_if; [apply Nat.ltb_lt in Hif; lia|].
  pose proof (len_Random (drawn w) NonceSize) as E. set (n := Random (drawn w) NonceSize) in *. clearbody n.
  rewrite <-E. by rewrite str_take_app, str_drop_app, Open_Seal.
Qed.

Lemma Seal_run k p w : active w = Some k ->
  exists c w', Seal p w = (Ok c, w') /\ Open (Some k) c = Ok p /\ same w w' /\ faults w' = faults w.
Proof.
  intros Ha. unfold ServerKeys.Seal, Encryptor_. unfold mbind_ at 1. rewrite Ha.
  destruct (Encrypt_run k p w) as (c & w' & E & Ed & Hs & Hf). exists (String formatV1 c), w'.
  split; [by rewrite (bind_run _ _ _ _ _ E)|]. cbn [ServerKeys.Open]. by rewrite Ascii.eqb_refl.
Qed.

(** ** The text of the credentials *)

Definition upstream_valid (u : upstreamSecret) : Prop :=
  ValidString (sPassword u) = true /\ ValidString (sToken u) = true /\ ValidString (sValue u) = true /\
  ValidString (sSSHKey u) = true.

Definition secrets_valid (x : repoSealedSecrets) : Prop :=
  ValidString (xSigningKey x) = true /\ ValidString (xReplicationToken x) = true /\ ValidString (xPassword x) = true /\
  ValidString (xToken x) = true /\ ValidString (xValue x) = true /\ Forall upstream_valid (xUpstreams x).

Lemma struct_field_app n a b : struct_field n (a ++ b) = struct_field n a ++ struct_field n b.
Proof. apply omap_app. Qed.

Lemma struct_field_omit n k v : struct_field n (omit k v) =
  if String.eqb (fold_key k) (ToLower n) then if String.eqb v "" then [] else [JString v] else [].
Proof. unfold omit, struct_field. destruct (String.eqb v "") eqn:E; cbn; by destruct (String.eqb (fold_key k) _). Qed.

Lemma members_omit d k v : ValidString k = true -> ValidString v = true ->
  forallb (fun kv => ValidString kv.1 && writable d kv.2) (omit k v) = true.
Proof. intros Hk Hv. unfold omit. destruct (String.eqb v ""); cbn [forallb fst snd writable]; [done|]. by rewrite Hk, Hv. Qed.

(** [fields] reduces the members of a name in a written struct to the ones
    that have it. *)
Ltac fields :=
  unfold stringField; rewrite ?struct_field_app, ?struct_field_omit;
  repeat match goal with |- context [String.eqb (fold_key ?a) (ToLower ?b)] =>
    let x := eval vm_compute in (String.eqb (fold_key a) (ToLower b)) in
    change (String.eqb (fold_key a) (ToLower b)) with x
  end; cbv iota; rewrite ?app_nil_l, ?app_nil_r.

Lemma omitted v : foldl (fun acc j => match j with JString s => s | _ => acc end) ""
  (if String.eqb v "" then [] else [JString v]) = v.
Proof. by destruct (String.eqb_spec v "") as [->|]. Qed.

Lemma decode_encodeUpstream u : decodeUpstream (encodeUpstream u) = u.
Proof.
  destruct u as [p t v s]. unfold decodeUpstream, encodeUpstream. cbn [object_members sPassword sToken sValue sSSHKey].
  fields. by rewrite !omitted.
Qed.

Lemma struct_field_one n k j : struct_field n [(k, j)] = if String.eqb (fold_key k) (ToLower n) then [j] else [].
Proof. unfold struct_field. cbn. by destruct (String.eqb (fold_key k) _). Qed.

Lemma decode_encodeSecrets x : decodeSecrets (encodeSecrets x) = x.
Proof.
  destruct x as [k r p t v us]. unfold decodeSecrets, encodeSecrets.
  cbn [object_members xSigningKey xReplicationToken xPassword xToken xValue xUpstreams].
  destruct us as [|u us]; rewrite ?app_nil_r; fields; rewrite ?struct_field_one; fields; rewrite !omitted; [done|].
  f_equal. cbn [foldl]. rewrite <-list_fmap_compose. rewrite <-(list_fmap_id (u :: us)) at 2.
  apply list_fmap_ext. intros i y _. apply decode_encodeUpstream.
Qed.

Lemma writable_upstream d u : d < maxNestingDepth -> upstream_valid u -> writable d (encodeUpstream u) = true.
Proof.
  intros Hd (H1 & H2 & H3 & H4). unfold encodeUpstream. cbn [writable]. rewrite (ltb_true d) by done.
  rewrite !forallb_app, !members_omit by done. done.
Qed.

Lemma writable_secrets x : secrets_valid x -> writable 0 (encodeSecrets x) = true.
Proof.
  intros (H1 & H2 & H3 & H4 & H5 & Hus). unfold encodeSecrets. cbn [writable].
  change (0 <? maxNestingDepth) with true. rewrite !forallb_app, !members_omit by done. cbn [andb].
  destruct (xUpstreams x) as [|u us]; [done|]. cbn [forallb fst snd]. rewrite andb_true_r.
  change (ValidString "upstreams") with true. cbn [andb]. cbn [writable]. change (0 + 1 <? maxNestingDepth) with true.
  cbn [andb]. apply forallb_forall. intros j Hj. apply list_elem_of_In, list_elem_of_fmap in Hj as (y & -> & Hy).
  apply writable_upstream; [done|]. rewrite Forall_forall in Hus. by apply Hus.
Qed.

(** ** A row and the repository it stores *)

Definition repo_valid (r : RegistryRepository) : Prop := secrets_valid (repoSecrets r).

(** The row that stores [r] when [k] is the live key. *)
Record stores (k : option string) (row : Row) (r : RegistryRepository) : Prop := {
  st_type : cType row = Type_ r;
  st_kind : cKind row = Kind r;
  st_auth : cAuth row = (authMeta <$> Auth r);
  st_data : cData row = strip r;
  st_null : hasSecret (repoSecrets r) = false -> cSealed row = None;
  st_sealed : hasSecret (repoSecrets r) = true -> openSecrets k (cSealed row) = repoSecrets r;
}.

Lemma strip_upstream_id u : upstreamHasSecret (upstreamSecrets u) = false -> strip_upstream u = u.
Proof.
  unfold upstreamHasSecret, upstreamSecrets, strip_upstream. destruct u as [p url a key]. cbn [uAuth SSHKey uPrefix uURL].
  destruct a as [[t n pw tk h v]|]; cbn [sPassword sToken sValue sSSHKey Password Token Value fmap option_fmap option_map];
    rewrite !orb_false_iff, !nonempty_iff; [by intros (((-> & ->) & ->) & ->)|by intros (_ & ->)].
Qed.

Lemma strip_upstreams_id l : existsb upstreamHasSecret (upstreamSecrets <$> l) = false -> strip_upstream <$> l = l.
Proof.
  induction l as [|u l IH]; [done|]. cbn [fmap list_fmap existsb]. rewrite orb_false_iff. intros [Hu Hl].
  f_equal; [by apply strip_upstream_id|by apply IH].
Qed.

Lemma with_secret_strip u : with_secret (upstreamSecrets u) (strip_upstream u) = u.
Proof. destruct u as [p url [[]|] key]; done. Qed.

Lemma with_secrets_strip l : with_secrets (upstreamSecrets <$> l) (strip_upstream <$> l) = l.
Proof. induction l as [|u l IH]; [done|]. cbn [fmap list_fmap with_secrets]. by rewrite with_secret_strip, IH. Qed.

Lemma with_secrets_nil l : with_secrets [] l = l.
Proof. by destruct l. Qed.

(** Putting the credentials back undoes the split. *)
Lemma unstrip r sec : sec = repoSecrets r \/ (sec = no_secrets /\ hasSecret (repoSecrets r) = false) ->
  with_credentials
    (match authMeta <$> Auth r with
     | Some m => Some {| aType := mType m; Username := mUsername m; Password := xPassword sec;
                         Token := xToken sec; Header := mHeader m; Value := xValue sec |}
     | None => Auth (strip r)
     end)
    (xSigningKey sec) (with_token (xReplicationToken sec) <$> Replication (strip r))
    (with_secrets (xUpstreams sec) (Upstreams (strip r))) (strip r) = r.
Proof.
  intros [->|[-> Hno]].
  - destruct r as [? ? ? ? ? ? ? ? a ups ? ? ? ? ? ? ? ? ? ? ? rep]. unfold strip, with_credentials, repoSecrets; cbn.
    rewrite with_secrets_strip. by destruct a as [[]|], rep as [[]|].
  - unfold hasSecret in Hno. rewrite !orb_false_iff, !nonempty_iff in Hno.
    destruct r as [? ? ? ? ? ? ? ? a ups ? ? ? ? ? ? ? ? key ? ? rep]. unfold repoSecrets in Hno. cbn in Hno.
    destruct Hno as (((Hk & Hr) & (Hp & Ht) & Hv) & Hu). unfold strip, with_credentials; cbn.
    rewrite ?with_secrets_nil, strip_upstreams_id by done. subst key.
    destruct a as [[]|]; cbn in *; subst; destruct rep as [[]|]; cbn in *; by subst.
Qed.

Lemma stores_scan k row r : stores k row r -> scanRepo k row = r.
Proof.
  intros [_ _ Ha Hd Hn Hs]. unfold ServerKeys.scanRepo, ServerKeys.openRepoSecrets. rewrite Ha, Hd. apply unstrip.
  destruct (hasSecret (repoSecrets r)) eqn:E; [left; by apply Hs|right]. by rewrite Hn.
Qed.

(** A record is built when there is nothing to seal or the key is there. *)
Lemma repoRecord_run r w : repo_valid r -> hasSecret (repoSecrets r) = true -> is_Some (active w) ->
  exists row w', repoRecord r w = (Ok row, w') /\ stores (active w) row r /\ same w w' /\ faults w' = faults w.
Proof.
  intros Hv Hh [k Ha]. destruct (Seal_run k (write (encodeSecrets (repoSecrets r))) w Ha) as (c & w' & E & Eo & Hs & Hf).
  unfold ServerKeys.repoRecord, ServerKeys.sealRepoSecrets. rewrite Hh. cbn [negb].
  rewrite (bind_run _ _ w (authMeta <$> Auth r, Some c) w').
  - eexists _, w'. split; [done|]. split_and!; [|done|done]. split; cbn [cType cKind cAuth cSealed cData fst snd]; try done.
    + intros Hn. congruence.
    + intros _. rewrite Ha. unfold ServerKeys.openSecrets. rewrite Eo, parse_write by (by apply writable_secrets).
      apply decode_encodeSecrets.
  - unfold Encryptor_. rewrite (bind_run _ _ w (active w) w) by done. rewrite Ha. cbn [present negb refuse].
    rewrite (bind_run _ _ w tt w) by done. by rewrite (bind_run _ _ _ _ _ E).
Qed.

Lemma repoRecord_plain r w : hasSecret (repoSecrets r) = false ->
  exists row, repoRecord r w = (Ok row, w) /\ forall k, stores k row r.
Proof.
  intros Hh. unfold ServerKeys.repoRecord, ServerKeys.sealRepoSecrets. rewrite Hh. eexists. split; [done|].
  intros k. split; cbn; try done. intros Hs. congruence.
Qed.

Lemma repoRecord_locked r w : hasSecret (repoSecrets r) = true -> active w = None -> repoRecord r w = (Err ErrBadRequest, w).
Proof.
  intros Hh Ha. unfold ServerKeys.repoRecord, ServerKeys.sealRepoSecrets, mbind_, Encryptor_. rewrite Hh. cbn [negb].
  by rewrite Ha.
Qed.

(** Whatever [repoRecord] returns. *)
Lemma repoRecord_ok r w row w' : repo_valid r -> repoRecord r w = (Ok row, w') ->
  stores (active w) row r /\ same w w' /\ faults w' = faults w /\ (hasSecret (repoSecrets r) = true -> is_Some (active w)).
Proof.
  intros Hv E. destruct (hasSecret (repoSecrets r)) eqn:Hh.
  - destruct (active w) as [k|] eqn:Ha; [|rewrite repoRecord_locked in E by done; discriminate E].
    destruct (repoRecord_run r w Hv Hh) as (row' & w2 & E2 & Hst & Hs & Hf); [by eexists|].
    rewrite E2 in E. injection E as <- <-. rewrite Ha in Hst. split_and!; [done|done|done|by eexists].
  - destruct (repoRecord_plain r w Hh) as (row' & E2 & Hst). rewrite E2 in E. injection E as <- <-.
    split_and!; [done|apply same_refl|done|done].
Qed.

(** ** Statements *)

Lemma sql_ok {A} (q : World -> result KeyErr A * World) w a w' : sql q w = (Ok a, w') ->
  exists w1, same w w1 /\ q w1 = (Ok a, w') /\ (w1 = w \/ w1 = with_faults (tail (faults w)) w).
Proof.
  unfold sql. destruct (faults w) as [|[] l] eqn:E; intros Hq; [|discriminate Hq|].
  - exists w. split_and!; [apply same_refl|done|by left].
  - exists (with_faults l w). split_and!; [by constructor|done|by right].
Qed.

Lemma sql_run {A} (q : World -> result KeyErr A * World) w : faults w = [] -> sql q w = q w.
Proof. unfold sql. by intros ->. Qed.

Lemma quiet_ListNamespaces : quiet ListNamespaces.
Proof. by apply quiet_sql. Qed.
Lemma quiet_GetNamespace n : quiet (GetNamespace n).
Proof. by apply quiet_sql. Qed.
Lemma quiet_ListRepositories n : quiet (ListRepositories n).
Proof. by apply quiet_sql. Qed.
Lemma quiet_GetRepository ns n : quiet (GetRepository ns n).
Proof. by apply quiet_sql. Qed.
Lemma quiet_GetMeta k : quiet (GetMeta k).
Proof. by apply quiet_sql. Qed.
#[local] Hint Resolve quiet_ListNamespaces quiet_GetNamespace quiet_ListRepositories quiet_GetRepository quiet_GetMeta
  quiet_Encrypt : quiet.

Lemma quiet_LoadRegistryTree : quiet LoadRegistryTree.
Proof. unfold ServerKeys.LoadRegistryTree. auto with quiet. Qed.

Lemma quiet_bad_request r : quiet (bad_request r).
Proof. unfold bad_request. destruct r; auto with quiet. Qed.
#[local] Hint Resolve quiet_LoadRegistryTree quiet_bad_request : quiet.

Lemma quiet_validate h p ns r : quiet (validateRepoInNamespace OpenX h p ns r).
Proof. unfold validateRepoInNamespace. auto with quiet. Qed.
#[local] Hint Resolve quiet_validate : quiet.

(** The tables after a row is written. *)
Record wrote (w w' : World) (ns : string) (r : RegistryRepository) (row : Row) : Prop := {
  wr_active : active w' = active w;
  wr_initialized : initialized w' = initialized w;
  wr_meta : meta w' = meta w;
  wr_ns : nsTable w' = nsTable w;
  wr_repo : repoTable w' = <[(ns, rName r) := row]> (repoTable w);
}.

Lemma wrote_same w w1 w' ns r row : same w w1 -> wrote w1 w' ns r row -> wrote w w' ns r row.
Proof. intros [] []. constructor; congruence. Qed.

(** A statement that puts a row. *)
Lemma put_row w w' ns r (cond : World -> bool) e : repo_valid r ->
  (row <- repoRecord r;;
   sql (fun w => if cond w then (Err e, w)
                 else (Ok tt, with_tables (nsTable w) (<[(ns, rName r) := row]> (repoTable w)) w))) w = (Ok tt, w') ->
  exists row, wrote w w' ns r row /\ stores (active w) row r /\ (hasSecret (repoSecrets r) = true -> is_Some (active w)).
Proof.
  intros Hv E. apply bind_ok in E as (row' & w1 & E1 & E2).
  destruct (repoRecord_ok _ _ _ _ Hv E1) as (Hst & Hs & _ & Hu).
  apply sql_ok in E2 as (w2 & Hs2 & E2 & _). destruct (cond w2); [discriminate E2|]. injection E2 as <-.
  exists row'. split_and!; [|done|done]. apply (wrote_same w w2); [by eapply same_trans|]. by constructor.
Qed.

Lemma updateRow_eq ns r w : updateRow ns r w = (row <- repoRecord r;;
   sql (fun w => if negb (present (repoTable w !! (ns, rName r))) then (Err ErrNotFound, w)
                 else (Ok tt, with_tables (nsTable w) (<[(ns, rName r) := row]> (repoTable w)) w))) w.
Proof.
  unfold ServerKeys.updateRow, mbind_. destruct (repoRecord r w) as [[row|e] w1]; [|done].
  unfold sql. destruct (faults w1) as [|[] l]; cbn [repoTable with_faults]; try done; by destruct (_ !! _).
Qed.

Lemma updateRow_ok ns r w w' : repo_valid r -> updateRow ns r w = (Ok tt, w') ->
  exists row, wrote w w' ns r row /\ stores (active w) row r /\ (hasSecret (repoSecrets r) = true -> is_Some (active w)).
Proof. intros Hv E. rewrite updateRow_eq in E. by apply put_row in E. Qed.

Lemma insertRepository_ok ns r w w' : repo_valid r -> insertRepository ns r w = (Ok tt, w') ->
  exists row, wrote w w' ns r row /\ stores (active w) row r /\ (hasSecret (repoSecrets r) = true -> is_Some (active w)).
Proof. intros Hv E. by apply put_row in E. Qed.

(** The two ways to store a repository. *)
Definition stored_by h p (ns : string) (r : RegistryRepository) (w w' : World) : Prop :=
  CreateRepository h p ns r w = (Ok tt, w') \/ UpdateRepository h p ns r w = (Ok tt, w').

Lemma stored_by_ok h p ns r w w' : repo_valid r -> stored_by h p ns r w w' ->
  exists row, wrote w w' ns r row /\ stores (active w) row r /\ (hasSecret (repoSecrets r) = true -> is_Some (active w)).
Proof.
  assert (Hgo : forall w1, repo_valid r -> same w w1 ->
    (exists row, wrote w1 w' ns r row /\ stores (active w1) row r /\ (hasSecret (repoSecrets r) = true -> is_Some (active w1))) ->
    exists row, wrote w w' ns r row /\ stores (active w) row r /\ (hasSecret (repoSecrets r) = true -> is_Some (active w))).
  { intros w1 _ Hs (row & Hw & Hst & Hu). rewrite (same_active _ _ Hs) in *. exists row. split_and!; [|done|done].
    by eapply wrote_same. }
  intros Hv [E|E].
  - unfold ServerKeys.CreateRepository in E.
    apply bind_ok in E as (? & w1 & E1 & E). apply bind_ok in E as (? & w2 & E2 & E).
    apply bind_ok in E as (? & w3 & E3 & E). apply bind_ok in E as (? & w4 & E4 & E).
    apply (Hgo w4 Hv); [|by apply insertRepository_ok].
    eapply same_trans; [by eapply quiet_ok; [|exact E1]; auto with quiet|].
    eapply same_trans; [by eapply quiet_ok; [|exact E2]; auto with quiet|].
    eapply same_trans; [by eapply quiet_ok; [|exact E3]; auto with quiet|].
    by eapply quiet_ok; [|exact E4]; auto with quiet.
  - unfold ServerKeys.UpdateRepository in E.
    apply bind_ok in E as (? & w1 & E1 & E). apply bind_ok in E as (? & w2 & E2 & E).
    apply (Hgo w2 Hv); [|by apply updateRow_ok].
    eapply same_trans; [by eapply quiet_ok; [|exact E1]; auto with quiet|].
    by eapply quiet_ok; [|exact E2]; auto with quiet.
Qed.

(** C20: a repository that is created or updated is read back exactly, with its
    credentials, and no other row changes; the clear columns hold what is left
    of it without its credentials, and a repository with a credential is only
    stored while the key is there. *)
Theorem stored_credentials_roundtrip h p ns r w w' : repo_valid r -> stored_by h p ns r w w' ->
  (GetRepository ns (rName r) (with_faults [] w')).1 = Ok r /\
  (forall key, key <> (ns, rName r) -> repoTable w' !! key = repoTable w !! key) /\
  (exists row, repoTable w' !! (ns, rName r) = Some row /\ cData row = strip r /\ cAuth row = (authMeta <$> Auth r)) /\
  (hasSecret (repoSecrets r) = true -> IsUnlocked w = true).
Proof.
  intros Hv E. destruct (stored_by_ok _ _ _ _ _ _ Hv E) as (row & [Ha _ _ _ Hr] & Hst & Hu). split_and!.
  - unfold ServerKeys.GetRepository. rewrite sql_run by done. cbn [repoTable with_faults active fst].
    rewrite Hr, lookup_insert_eq, Ha. by rewrite (stores_scan _ _ _ Hst).
  - intros key Hne. by rewrite Hr, lookup_insert_ne.
  - exists row. rewrite Hr, lookup_insert_eq. split_and!; [done|apply Hst|apply Hst].
  - intros Hh. destruct (Hu Hh) as [k Hk]. unfold IsUnlocked. by rewrite Hk.
Qed.

(** ** Reading everything *)

Lemma elem_sort {A} (lt : A -> A -> bool) l x : x ∈ SliceStable lt l <-> x ∈ l.
Proof. by rewrite SliceStable_perm. Qed.

Lemma load_run w : faults w = [] -> exists tree, LoadRegistryTree w = (Ok tree, w) /\
  forall ns r, (ns, r) ∈ tree_repos tree <->
    exists n row, repoTable w !! (ns, n) = Some row /\ is_Some (nsTable w !! ns) /\ r = scanRepo (active w) row.
Proof.
  intros Hf. unfold ServerKeys.LoadRegistryTree, ListNamespaces, ServerKeys.ListRepositories, mbind_.
  rewrite !sql_run by done. cbv beta iota zeta. change (String.eqb "" "") with true. cbv iota.
  eexists. split; [done|]. intros ns r. unfold tree_repos. rewrite list_elem_of_bind.
  assert (Hrow : forall x r', (x, r') ∈ (fun kv : (string * string) * Row => (kv.1.1, scanRepo (active w) kv.2)) <$>
      SliceStable key_ltb (map_to_list (repoTable w)) <->
    exists n row, repoTable w !! (x, n) = Some row /\ r' = scanRepo (active w) row).
  { intros x r'. rewrite list_elem_of_fmap. split.
    - intros ([[x' n] row] & [= -> ->] & Hin). apply elem_sort, elem_of_map_to_list in Hin. by exists n, row.
    - intros (n & row & Hl & ->). exists ((x, n), row). split; [done|]. by apply elem_sort, elem_of_map_to_list. }
  cbn [String.eqb]. split.
  - intros (s & Hin & Hs). apply list_elem_of_fmap in Hin as (r' & [= -> ->] & Hr).
    apply list_elem_of_fmap in Hs as (s0 & -> & Hs0). cbn [nName Repositories] in *.
    apply list_elem_of_fmap in Hs0 as ([x d] & -> & Hx). cbn [nName] in *.
    apply elem_sort, elem_of_map_to_list in Hx.
    apply list_elem_of_fmap in Hr as ([y r2] & -> & Hr). apply list_elem_of_filter in Hr as [Ey Hr]. cbn [fst snd] in *. subst y.
    apply Hrow in Hr as (n & row & Hl & ->). exists n, row. split_and!; [done|by eexists|done].
  - intros (n & row & Hl & [d Hd] & ->).
    eexists. split; [|apply list_elem_of_fmap; eexists; split; [reflexivity|]; apply list_elem_of_fmap;
      exists (ns, d); split; [reflexivity|]; by apply elem_sort, elem_of_map_to_list].
    cbn [nName Repositories]. apply list_elem_of_fmap. exists (scanRepo (active w) row). split; [done|].
    apply list_elem_of_fmap. exists (ns, scanRepo (active w) row). split; [done|]. apply list_elem_of_filter.
    split; [done|]. apply Hrow. by exists n, row.
Qed.

(** ** Locked servers *)

Definition wf_rows (w : World) : Prop := forall ns n row, repoTable w !! (ns, n) = Some row ->
  rName (cData row) = n /\ strip (cData row) = cData row /\ is_Some (nsTable w !! ns).

Lemma upstream_blank u : upstreamHasSecret (upstreamSecrets (strip_upstream u)) = false.
Proof. by destruct u as [p url [[]|] key]. Qed.

Lemma blank_no_secret k row : strip (cData row) = cData row -> openSecrets k (cSealed row) = no_secrets ->
  hasSecret (repoSecrets (scanRepo k row)) = false.
Proof.
  intros Hd Ho. unfold ServerKeys.scanRepo, ServerKeys.openRepoSecrets. rewrite Ho, <-Hd. unfold hasSecret, repoSecrets.
  cbn [xSigningKey xReplicationToken xPassword xToken xValue xUpstreams SigningKey Replication Auth Upstreams
       with_credentials no_secrets strip]. rewrite with_secrets_nil, !orb_false_iff. split_and!.
  - done.
  - by destruct (Replication (cData row)).
  - by destruct (cAuth row).
  - by destruct (cAuth row).
  - by destruct (cAuth row).
  - apply not_true_is_false. intros H. apply existsb_elem in H as (u & Hu & H).
    apply list_elem_of_fmap in Hu as (v & -> & Hv). apply list_elem_of_fmap in Hv as (y & -> & _).
    by rewrite upstream_blank in H.
Qed.

Lemma open_locked sealed : openSecrets None sealed = no_secrets.
Proof.
  destruct sealed as [[|c t]|]; [done| |done]. unfold ServerKeys.openSecrets, ServerKeys.Open.
  by destruct (Ascii.eqb c formatV1).
Qed.

Lemma scan_name k row : rName (scanRepo k row) = rName (cData row).
Proof. done. Qed.

(** writing back what a locked server shows erases the stored credentials: the
    row keeps no sealed column, so no key brings them back. *)
Theorem locked_edit_erases h p ns n w r w1 w2 : wf_rows w -> active w = None ->
  GetRepository ns n w = (Ok r, w1) -> UpdateRepository h p ns r w1 = (Ok tt, w2) ->
  exists row, repoTable w2 !! (ns, n) = Some row /\ cSealed row = None /\
    forall k, hasSecret (repoSecrets (scanRepo k row)) = false.
Proof.
  intros Hwf Ha Hg Hu. pose proof (quiet_ok _ _ _ _ (quiet_GetRepository ns n) Hg) as Hs1.
  apply sql_ok in Hg as (w0 & Hs0 & Hg & _). destruct (repoTable w0 !! (ns, n)) as [row|] eqn:Er; [|discriminate Hg].
  rewrite (same_repo _ _ Hs0) in Er. destruct (Hwf _ _ _ Er) as (Hn & Hd & _).
  injection Hg as Hr Hw0. rewrite (same_active _ _ Hs0), Ha in Hr.
  assert (Hno : hasSecret (repoSecrets r) = false).
  { rewrite <-Hr. apply blank_no_secret; [done|]. apply open_locked. }
  assert (Hrow : exists row', repoTable w2 !! (ns, rName r) = Some row' /\ forall k, stores k row' r).
  { unfold ServerKeys.UpdateRepository in Hu.
    apply bind_ok in Hu as (? & w3 & _ & Hu). apply bind_ok in Hu as (? & w4 & _ & Hu).
    rewrite updateRow_eq in Hu. apply bind_ok in Hu as (row2 & w5 & E & Hu).
    destruct (repoRecord_plain r w4 Hno) as (row3 & E3 & Hst3). rewrite E3 in E. injection E as <- <-.
    apply sql_ok in Hu as (w6 & _ & Hu & _). destruct (negb _); [discriminate Hu|]. injection Hu as <-.
    exists row3. split; [|done]. cbn [repoTable with_tables]. apply lookup_insert_eq. }
  destruct Hrow as (row2 & Hl & Hst2). rewrite <-Hr, scan_name, Hn in Hl. exists row2. split_and!; [done| |].
  - by apply (Hst2 None).
  - intros k. by rewrite (stores_scan _ _ _ (Hst2 k)).
Qed.

(** ** Rotation *)

(** Every row stores a repository under the key [k]. *)
Definition vault (k : option string) (w : World) : Prop := forall ns n row, repoTable w !! (ns, n) = Some row ->
  is_Some (nsTable w !! ns) /\ exists r, repo_valid r /\ rName r = n /\ stores k row r.

Lemma NewChaCha20_derive p : NewChaCha20 (deriveKeyMaterial p) = Ok (deriveKeyMaterial p).
Proof. unfold NewChaCha20, deriveKeyMaterial. by rewrite len_Sum256. Qed.

(** The passphrase opens the verifier to a plaintext with the magic prefix. *)
Definition opens (p verifier plain : string) : Prop :=
  Decrypt (deriveKeyMaterial p) verifier = Ok plain /\ HasPrefix plain verifierMagic = true.

Lemma check_passphrase_run p v plain w : opens p v plain ->
  check_passphrase p v w = (Ok (deriveKeyMaterial p, plain), w).
Proof.
  intros [Hd Hm]. unfold ServerKeys.check_passphrase. rewrite (bind_run _ _ w (deriveKeyMaterial p) w).
  - rewrite Hd, Hm. done.
  - unfold lift. by rewrite NewChaCha20_derive.
Qed.

Lemma getVerifier_run w v : faults w = [] -> meta w !! metaEncVerifier = Some (MBytes v) -> getVerifier w = (Ok v, w).
Proof. intros Hf Hm. unfold getVerifier, GetMeta, mbind_. rewrite sql_run by done. by rewrite Hm. Qed.

(** What [unlock] needs and does. *)
Lemma unlock_run p v plain w : p <> "" -> v <> "" -> faults w = [] -> meta w !! metaEncVerifier = Some (MBytes v) ->
  opens p v plain ->
  UnlockServerKey p w = (Ok tt, with_initialized (with_active (Some (deriveKeyMaterial p)) w)).
Proof.
  intros Hp Hv Hf Hm Ho. unfold ServerKeys.UnlockServerKey.
  rewrite (bind_run _ _ w tt w) by (unfold refuse; by rewrite (proj2 (String.eqb_neq _ _) Hp)).
  rewrite (bind_run _ _ w v w) by (by apply getVerifier_run).
  rewrite (bind_run _ _ w tt w) by (unfold refuse, nonempty; by rewrite (proj2 (String.eqb_neq _ _) Hv)).
  by rewrite (bind_run _ _ w _ w (check_passphrase_run _ _ _ _ Ho)).
Qed.

(** A key of the table after the repositories of [l] were written again. *)
Definition rewritten (k : option string) (l : list (string * RegistryRepository)) (w w' : World) : Prop :=
  active w' = active w /\ meta w' = meta w /\ nsTable w' = nsTable w /\ faults w' = faults w /\
  forall ns n,
    (forall r, (ns, r) ∈ l -> rName r = n -> exists row, repoTable w' !! (ns, n) = Some row /\ stores k row r) /\
    ((forall r, (ns, r) ∈ l -> rName r <> n) -> repoTable w' !! (ns, n) = repoTable w !! (ns, n)).

Lemma updateRow_run ns r w k : active w = Some k -> faults w = [] -> repo_valid r ->
  is_Some (repoTable w !! (ns, rName r)) ->
  exists row w', updateRow ns r w = (Ok tt, w') /\ wrote w w' ns r row /\ stores (Some k) row r /\ faults w' = [].
Proof.
  intros Ha Hf Hv [row0 Hl]. rewrite updateRow_eq.
  assert (Hr : exists row w1, repoRecord r w = (Ok row, w1) /\ stores (Some k) row r /\ same w w1 /\ faults w1 = []).
  { destruct (hasSecret (repoSecrets r)) eqn:Hh.
    - destruct (repoRecord_run r w Hv Hh) as (row & w1 & E & Hst & Hs & Hf1); [by eexists|].
      rewrite Ha in Hst. exists row, w1. split_and!; [done|done|done|congruence].
    - destruct (repoRecord_plain r w Hh) as (row & E & Hst). exists row, w. split_and!; [done|done|apply same_refl|done]. }
  destruct Hr as (row & w1 & E & Hst & Hs & Hf1).
  exists row, (with_tables (nsTable w1) (<[(ns, rName r) := row]> (repoTable w1)) w1).
  rewrite (bind_run _ _ _ _ _ E), sql_run by done. rewrite (same_repo _ _ Hs), Hl. cbn [present negb].
  split_and!; [done| |done|done]. apply (wrote_same _ w1); [done|]. constructor; try done. by rewrite (same_repo _ _ Hs).
Qed.

Lemma rewrap_run k l w : active w = Some k -> faults w = [] ->
  (forall ns r, (ns, r) ∈ l -> repo_valid r /\ is_Some (repoTable w !! (ns, rName r))) ->
  (forall ns r r', (ns, r) ∈ l -> (ns, r') ∈ l -> rName r = rName r' -> r = r') ->
  exists w', rewrap l w = (Ok tt, w') /\ rewritten (Some k) l w w'.
Proof.
  revert w. induction l as [|[ns r] l IH]; intros w Ha Hf Hin Hfun.
  - exists w. split; [done|]. split_and!; [done..|]. intros ns n. split; [|done]. intros r Hr. inversion Hr.
  - destruct (Hin ns r) as [Hv Hl]; [by left|].
    destruct (updateRow_run ns r w k Ha Hf Hv Hl) as (row & w1 & E & [Hw1 _ Hw3 Hw4 Hw5] & Hst & Hf1).
    destruct (IH w1) as (w' & E' & Hr1 & Hr2 & Hr3 & Hr4 & Hrows).
    + congruence.
    + done.
    + intros ns' r' Hin'. destruct (Hin ns' r') as [Hv' Hl']; [by right|]. split; [done|].
      rewrite Hw5. destruct (decide ((ns', rName r') = (ns, rName r))) as [->|Hne];
        [rewrite lookup_insert_eq; by eexists|by rewrite lookup_insert_ne].
    + intros. eapply Hfun; [by right|by right|done].
    + exists w'. cbn [ServerKeys.rewrap]. split; [by rewrite (bind_run _ _ _ _ _ E)|].
      split_and!; [congruence..|]. intros ns' n'. destruct (Hrows ns' n') as [H1 H2]. split.
      * intros r' [[= -> ->]|Hr']%elem_of_cons Hn; [|by apply H1].
        destruct (decide (Exists (fun p => p.1 = ns /\ rName p.2 = n') l)) as [He|He].
        -- apply Exists_exists in He as ([ns2 r2] & Hr2' & E1 & E2). cbn [snd fst] in E1, E2. subst ns2.
           assert (r2 = r) as -> by (apply (Hfun ns); [by right|by left|congruence]). by apply H1.
        -- rewrite H2; [|intros r2 Hr2' E2; apply He, Exists_exists; by exists (ns, r2)].
           rewrite Hw5, <-Hn, lookup_insert_eq. by exists row.
      * intros Hno. rewrite H2 by (intros r2 Hr2'; apply Hno; by right).
        rewrite Hw5, lookup_insert_ne; [done|]. intros [= -> E2]. by apply (Hno r); [left|].
Qed.

(** The bookkeeping of a rotation up to the new verifier. *)
Lemma rotate_run old new w v plain : old <> "" -> new <> "" -> old <> new -> faults w = [] -> v <> "" ->
  meta w !! metaEncVerifier = Some (MBytes v) -> opens old v plain ->
  exists tree v' w1,
    LoadRegistryTree w = (Ok tree, w) /\ opens new v' plain /\ v' <> "" /\
    active w1 = Some (deriveKeyMaterial new) /\ meta w1 = <[metaEncVerifier := MBytes v']> (meta w) /\
    nsTable w1 = nsTable w /\ repoTable w1 = repoTable w /\ faults w1 = [] /\
    RotateServerKey old new w = rewrap (filter (fun p => rewrapped p.2 = true) (tree_repos tree)) w1.
Proof.
  intros Ho Hn Hne Hf Hv Hm Hop. destruct (load_run w Hf) as (tree & Et & _).
  destruct (Encrypt_run (deriveKeyMaterial new) plain w) as (v' & w1 & Ee & Ed & [] & Hf1).
  exists tree, v', (with_meta (<[metaEncVerifier := MBytes v']> (meta w1)) (with_active (Some (deriveKeyMaterial new)) w1)).
  split; [done|]. split; [split; [done|apply Hop]|].
  split. { intros ->. unfold ServerKeys.Decrypt in Ed. cbn in Ed. discriminate Ed. }
  split_and!; try done; cbn [meta with_meta with_active nsTable repoTable faults]; try congruence.
  unfold ServerKeys.RotateServerKey.
  rewrite (bind_run _ _ w tt w) by (unfold refuse; by rewrite (proj2 (String.eqb_neq _ _) Ho), (proj2 (String.eqb_neq _ _) Hn)).
  rewrite (bind_run _ _ w tt w) by (unfold refuse; by rewrite (proj2 (String.eqb_neq _ _) Hne)).
  rewrite (bind_run _ _ w v w) by (by apply getVerifier_run).
  rewrite (bind_run _ _ w tt w) by (unfold refuse, nonempty; by rewrite (proj2 (String.eqb_neq _ _) Hv)).
  rewrite (bind_run _ _ w _ w (check_passphrase_run _ _ _ _ Hop)), (bind_run _ _ _ _ _ Et).
  rewrite (bind_run _ _ w (deriveKeyMaterial new) w) by (unfold lift; by rewrite NewChaCha20_derive).
  rewrite (bind_run _ _ _ _ _ Ee), (bind_run _ _ _ tt (with_active (Some (deriveKeyMaterial new)) w1)) by done.
  rewrite (bind_run _ _ _ tt (with_meta (<[metaEncVerifier := MBytes v']> (meta w1)) (with_active (Some (deriveKeyMaterial new)) w1)))
    by (unfold setVerifier, SetMeta; rewrite sql_run by (cbn [faults with_active]; congruence); done).
  done.
Qed.

Lemma vault_wf k w : vault k w -> wf_rows w.
Proof.
  intros Hv ns n row Hl. destruct (Hv _ _ _ Hl) as (Hns & r & _ & Hn & Hst). rewrite (st_data _ _ _ Hst).
  split_and!; [done| |done]. unfold strip, with_credentials; cbn. f_equal.
  - rewrite <-list_fmap_compose. apply list_fmap_ext. intros i u _. by destruct u as [p url [[]|] key].
  - by destruct (Replication r).
Qed.

(** The rows after the repositories that carry a default credential were
    written again under [k']. *)
Lemma rotated_rows k k' l w w1 w' : vault (Some k) w -> repoTable w1 = repoTable w -> rewritten (Some k') l w1 w' ->
  (forall ns r, (ns, r) ∈ l <-> exists row, repoTable w !! (ns, rName r) = Some row /\ r = scanRepo (Some k) row /\ rewrapped r = true) ->
  (forall ns n row, repoTable w !! (ns, n) = Some row ->
     hasSecret (repoSecrets (scanRepo (Some k) row)) = true -> rewrapped (scanRepo (Some k) row) = true) ->
  forall ns n, match repoTable w !! (ns, n) with
    | Some row => exists row', repoTable w' !! (ns, n) = Some row' /\ repo_valid (scanRepo (Some k) row) /\
        rName (scanRepo (Some k) row) = n /\ stores (Some k') row' (scanRepo (Some k) row)
    | None => repoTable w' !! (ns, n) = None
    end.
Proof.
  intros Hvault Hr1 (_ & _ & _ & _ & Hrows) Hin Hcov ns n. destruct (Hrows ns n) as [H1 H2].
  destruct (repoTable w !! (ns, n)) as [row|] eqn:El.
  - destruct (Hvault _ _ _ El) as (_ & r & Hvr & Hnr & Hst). pose proof (stores_scan _ _ _ Hst) as Hsc.
    rewrite Hsc. destruct (rewrapped r) eqn:Erw.
    + destruct (H1 r) as (row' & Hl' & Hst'); [apply Hin; exists row; rewrite Hnr; by split_and!|done|].
      exists row'. by split_and!.
    + exists row. split_and!; try done.
      * rewrite H2, Hr1; [done|]. intros r2 (row2 & Hl2 & Hr2 & Hrw2)%Hin E. rewrite E, El in Hl2. congruence.
      * assert (Hno : hasSecret (repoSecrets r) = false).
        { apply not_true_is_false. intros Hh. specialize (Hcov _ _ _ El). rewrite Hsc in Hcov. rewrite Hcov in Erw by done. done. }
        destruct Hst. constructor; try done. intros Hh. congruence.
  - rewrite H2, Hr1; [done|]. intros r (row & Hl & _)%Hin E. rewrite E in Hl. congruence.
Qed.

(** C15: a rotation of a server that is unlocked with the key of its rows succeeds
    and loses nothing, provided every repository with a credential has one in
    its default upstream: each is read under the new key as it was under the
    old one, and the new passphrase unlocks the server after a restart. *)
Theorem rotation_preserves old new w v plain k : old <> "" -> new <> "" -> old <> new -> faults w = [] -> v <> "" ->
  meta w !! metaEncVerifier = Some (MBytes v) -> opens old v plain ->
  active w = Some k -> vault (Some k) w ->
  (forall ns n row, repoTable w !! (ns, n) = Some row ->
     hasSecret (repoSecrets (scanRepo (Some k) row)) = true -> rewrapped (scanRepo (Some k) row) = true) ->
  exists w', RotateServerKey old new w = (Ok tt, w') /\ active w' = Some (deriveKeyMaterial new) /\
    vault (active w') w' /\ nsTable w' = nsTable w /\
    (forall ns n, scanRepo (active w') <$> repoTable w' !! (ns, n) = scanRepo (active w) <$> repoTable w !! (ns, n)) /\
    exists w2, UnlockServerKey new (restart w') = (Ok tt, w2) /\ active w2 = active w'.
Proof.
  intros Ho Hn Hne Hf Hv Hm Hop Ha Hvault Hcov.
  destruct (rotate_run old new w v plain) as (tree & v' & w1 & Et & Hop' & Hv' & Ha1 & Hm1 & Hns1 & Hr1 & Hf1 & Erot); [done..|].
  destruct (load_run w Hf) as (tree' & Et' & Htree). rewrite Et in Et'. injection Et' as <-.
  set (l := filter (fun p : string * RegistryRepository => rewrapped p.2 = true) (tree_repos tree)) in *.
  assert (Hin : forall ns r, (ns, r) ∈ l <-> exists row, repoTable w !! (ns, rName r) = Some row /\ r = scanRepo (Some k) row /\ rewrapped r = true).
  { intros ns r. unfold l. rewrite list_elem_of_filter, Htree, Ha. cbn [snd]. split.
    - intros (Hrw & n & row & Hl & _ & Hr). exists row. destruct (Hvault _ _ _ Hl) as (_ & r' & _ & Hn' & Hst).
      rewrite (stores_scan _ _ _ Hst) in Hr. subst r'. rewrite Hn'. split_and!; [done|by rewrite (stores_scan _ _ _ Hst)|done].
    - intros (row & Hl & Hr & Hrw). split; [done|]. exists (rName r), row. split_and!; [done| |done]. by apply (Hvault _ _ _ Hl). }
  destruct (rewrap_run (deriveKeyMaterial new) l w1) as (w' & Ew & Hw1 & Hw2 & Hw3 & Hw4 & Hrows); [done|done| | |].
  { intros ns r (row & Hl & Hr & _)%Hin. rewrite Hr1, Hl. split; [|by eexists].
    destruct (Hvault _ _ _ Hl) as (_ & r' & Hvr & _ & Hst). rewrite (stores_scan _ _ _ Hst) in Hr. by subst r'. }
  { intros ns r r' (row & Hl & Hr & _)%Hin (row' & Hl' & Hr' & _)%Hin E. rewrite E in Hl. congruence. }
  pose proof (rotated_rows k (deriveKeyMaterial new) l w w1 w' Hvault Hr1 (conj Hw1 (conj Hw2 (conj Hw3 (conj Hw4 Hrows)))) Hin Hcov) as Hkey.
  rewrite Ha1 in Hw1. exists w'. rewrite Hw1, Ha. split_and!; [congruence|done| |congruence| |].
  - intros ns n row' Hl'. specialize (Hkey ns n). destruct (repoTable w !! (ns, n)) as [row|] eqn:El; [|congruence].
    destruct Hkey as (row2 & Hl2 & Hvr & Hnr & Hst). rewrite Hl' in Hl2. injection Hl2 as <-.
    split; [rewrite Hw3, Hns1; by apply (Hvault _ _ _ El)|by eexists].
  - intros ns n. specialize (Hkey ns n). destruct (repoTable w !! (ns, n)) as [row|]; [|by rewrite Hkey].
    destruct Hkey as (row' & -> & _ & _ & Hst). cbn. f_equal. apply (stores_scan _ _ _ Hst).
  - eexists. split; [apply (unlock_run new v' plain); [done|done| | |done]|done].
    + cbn [faults restart]. congruence.
    + cbn [meta restart]. rewrite Hw2, Hm1. apply lookup_insert_eq.
Qed.

Lemma quiet_repoRecord r : quiet (repoRecord r).
Proof.
  unfold ServerKeys.repoRecord, ServerKeys.sealRepoSecrets, ServerKeys.Seal. apply quiet_bind; [|auto with quiet].
  destruct (negb _); [auto with quiet|]. apply quiet_bind; [auto with quiet|]. intros a. apply quiet_bind; [apply quiet_refuse|].
  intros _. apply quiet_bind; [|auto with quiet]. apply quiet_bind; [auto with quiet|]. intros [k|]; auto with quiet.
Qed.
#[local] Hint Resolve quiet_repoRecord : quiet.

Lemma rewrap_frame l w : active (rewrap l w).2 = active w /\ meta (rewrap l w).2 = meta w /\
  forall ns n, (forall r, (ns, r) ∈ l -> rName r <> n) -> repoTable (rewrap l w).2 !! (ns, n) = repoTable w !! (ns, n).
Proof.
  revert w. induction l as [|[ns r] l IH]; intros w; [done|]. cbn [ServerKeys.rewrap]. unfold mbind_.
  assert (Hone : active (updateRow ns r w).2 = active w /\ meta (updateRow ns r w).2 = meta w /\
    forall ns' n, (ns', n) <> (ns, rName r) -> repoTable (updateRow ns r w).2 !! (ns', n) = repoTable w !! (ns', n)).
  { rewrite updateRow_eq. unfold mbind_. pose proof (quiet_repoRecord r) as Hq.
    specialize (Hq w). destruct (repoRecord r w) as [[row|e] w1]; cbn [snd] in *; destruct Hq as [Ha _ Hm _ Hr].
    - unfold sql. destruct (faults w1) as [|[] fl]; cbn [snd repoTable with_faults];
        repeat (destruct (negb _); cbn [snd active meta repoTable with_tables with_faults]); (split; [done|]); (split; [done|]);
        intros ns' n' Hk; rewrite ?lookup_insert_ne by done; by rewrite ?Hr.
    - split; [done|]. split; [done|]. intros. by rewrite Hr. }
  destruct (updateRow ns r w) as [[u|e] w1]; cbn [snd] in *; destruct Hone as (H1 & H2 & H3).
  - destruct (IH w1) as (H4 & H5 & H6). split_and!; [congruence|congruence|]. intros ns' n Hno.
    rewrite H6 by (intros r' Hr'; apply Hno; by right). apply H3. intros [= -> ->]. by apply (Hno r); [left|].
  - split_and!; [done|done|]. intros ns' n Hno. apply H3. intros [= -> ->]. by apply (Hno r); [left|].
Qed.

(** C40: while the database answers, the old passphrase opens the verifier and the
    new one is another, a rotation leaves the row of every repository it does not
    write again under the old key: on a locked server every repository, otherwise
    those without a credential in their default upstream (signing keys, replication
    tokens, credentials of prefix upstreams).  The verifier is of the new key then.
    Assuming that the new key does not open the sealed column of the row (the AEAD
    rejects it, which is a hypothesis on the ciphertext), the credentials of the
    row are gone for the server. *)
Theorem rotation_forgets old new w v plain ns n row : old <> "" -> new <> "" -> old <> new -> faults w = [] -> v <> "" ->
  meta w !! metaEncVerifier = Some (MBytes v) -> opens old v plain -> wf_rows w ->
  repoTable w !! (ns, n) = Some row ->
  active w = None \/ rewrapped (scanRepo (active w) row) = false ->
  openSecrets (Some (deriveKeyMaterial new)) (cSealed row) = no_secrets ->
  let w' := (RotateServerKey old new w).2 in
  active w' = Some (deriveKeyMaterial new) /\ repoTable w' !! (ns, n) = Some row /\
  hasSecret (repoSecrets (scanRepo (active w') row)) = false /\
  exists v', meta w' !! metaEncVerifier = Some (MBytes v') /\ opens new v' plain.
Proof.
  intros Ho Hn Hne Hf Hv Hm Hop Hwf Hl Hskip Hopen w'.
  destruct (rotate_run old new w v plain) as (tree & v' & w1 & Et & Hop' & Hv' & Ha1 & Hm1 & Hns1 & Hr1 & Hf1 & Erot); [done..|].
  destruct (load_run w Hf) as (tree' & Et' & Htree). rewrite Et in Et'. injection Et' as <-.
  unfold w'. rewrite Erot. destruct (Hwf _ _ _ Hl) as (Hname & Hd & _).
  assert (Hno : rewrapped (scanRepo (active w) row) = false).
  { destruct Hskip as [Ha|H]; [|done]. rewrite Ha.
    pose proof (blank_no_secret None row Hd (open_locked _)) as Hb. unfold hasSecret in Hb. rewrite !orb_false_iff in Hb.
    destruct Hb as ((_ & (Hp & Ht) & Hv0) & _). unfold rewrapped, repoSecrets in *. cbn [xPassword xToken xValue] in *.
    destruct (Auth (scanRepo None row)) as [a|]; [|done]. by rewrite Hp, Ht, Hv0. }
  edestruct (rewrap_frame) as (Ha & Hme & Hrows). rewrite Ha, Hme, Ha1. split_and!; [done| | |].
  - rewrite Hrows, Hr1; [done|]. intros r Hr. apply list_elem_of_filter in Hr as [Hrw Hr]. apply Htree in Hr as (n2 & row2 & Hl2 & _ & ->).
    cbn [snd] in Hrw. intros E. rewrite scan_name in E. destruct (Hwf _ _ _ Hl2) as (Hn2 & _). rewrite <-Hn2, E, Hl in Hl2. congruence.
  - by apply blank_no_secret.
  - exists v'. split; [|done]. rewrite Hm1. apply lookup_insert_eq.
Qed.

(** ** The live key is the key of the verifier *)

Definition matches (w : World) : Prop := forall k, active w = Some k ->
  exists v plain, meta w !! metaEncVerifier = Some (MBytes v) /\ Decrypt k v = Ok plain /\ HasPrefix plain verifierMagic = true.

(** Programs that touch neither. *)
Definition keeps {A} (m : M A) : Prop := forall w,
  active (m w).2 = active w /\ meta (m w).2 !! metaEncVerifier = meta w !! metaEncVerifier.

Lemma keeps_quiet {A} (m : M A) : quiet m -> keeps m.
Proof. intros Hq w. destruct (Hq w) as [Ha _ Hm _ _]. by rewrite Ha, Hm. Qed.

Lemma keeps_bind {A B} (m : M A) (f : A -> M B) : keeps m -> (forall a, keeps (f a)) -> keeps (x <- m;; f x).
Proof.
  intros Hm Hf w. unfold mbind_. specialize (Hm w). destruct (m w) as [[a|e] w1]; cbn [snd] in *; [|done].
  destruct Hm as [<- <-]. apply Hf.
Qed.

Lemma keeps_sql {A} (q : World -> result KeyErr A * World) : keeps q -> keeps (sql q).
Proof.
  intros Hq w. unfold sql. destruct (faults w) as [|[] l]; [apply Hq|done|]. apply (Hq (with_faults l w)).
Qed.

Lemma keeps_rows {X Y : Type} (f : World -> option Y) (g : World -> gmap string string) (h : World -> gmap (string * string) Row)
    (a : X) (e : result KeyErr X) : keeps (fun w => match f w with None => (e, w) | Some _ => (Ok a, with_tables (g w) (h w) w) end).
Proof. intros w. by destruct (f w). Qed.

Create HintDb keeps.
#[local] Hint Resolve @keeps_bind @keeps_sql @keeps_rows : keeps.
#[local] Hint Extern 2 (keeps _) => apply keeps_quiet; solve [auto with quiet] : keeps.

Lemma keeps_updateRow ns r : keeps (updateRow ns r).
Proof. unfold ServerKeys.updateRow. auto with keeps. Qed.

Lemma keeps_insertRepository ns r : keeps (insertRepository ns r).
Proof.
  unfold ServerKeys.insertRepository. apply keeps_bind; [auto with keeps|]. intros row. apply keeps_sql. intros w.
  by destruct (present _ || _).
Qed.

Lemma keeps_UpdateRepository h p ns r : keeps (UpdateRepository h p ns r).
Proof. unfold ServerKeys.UpdateRepository. auto using keeps_updateRow with keeps. Qed.

Lemma keeps_CreateRepository h p ns r : keeps (CreateRepository h p ns r).
Proof.
  unfold ServerKeys.CreateRepository. do 4 (apply keeps_bind; [by auto using quiet_refuse with keeps quiet|intros]).
  apply keeps_insertRepository.
Qed.

(** One request, whatever the database does; [ks_faults] chooses its failures.
    A rotation that fails in the database is left out. *)
Inductive key_step (h : string -> bool) (p : string -> option Z) (w : World) : World -> Prop :=
| ks_faults l : key_step h p w (with_faults l w)
| ks_restart : key_step h p w (restart w)
| ks_initialize pass : key_step h p w (InitializeServerKey pass w).2
| ks_unlock pass : key_step h p w (UnlockServerKey pass w).2
| ks_lock : key_step h p w (LockServerKey w).2
| ks_status : key_step h p w (GetKeyStatus w).2
| ks_rotate old new : (RotateServerKey old new w).1 <> Err ErrDatabase -> key_step h p w (RotateServerKey old new w).2
| ks_create_ns ns : key_step h p w (CreateNamespace ns w).2
| ks_update_ns ns : key_step h p w (UpdateNamespace ns w).2
| ks_delete_ns n : key_step h p w (DeleteNamespace n w).2
| ks_create ns r : key_step h p w (CreateRepository h p ns r w).2
| ks_update ns r : key_step h p w (UpdateRepository h p ns r w).2
| ks_delete ns n : key_step h p w (DeleteRepository ns n w).2
| ks_default : key_step h p w (EnsureDefaultRegistryNamespace w).2
| ks_flag b : key_step h p w (SetRegistryDisabled b w).2
| ks_token : key_step h p w (RegistryTokenKey Random w).2.

Lemma matches_keeps {A} (m : M A) w : keeps m -> matches w -> matches (m w).2.
Proof. intros Hk Hm. destruct (Hk w) as [Ha He]. unfold matches. rewrite Ha, He. exact Hm. Qed.

Lemma matches_same w w' : same w w' -> matches w -> matches w'.
Proof. intros [Ha _ Hme _ _] Hm. unfold matches. rewrite Ha, Hme. exact Hm. Qed.

(** A reading prefix either answers or goes on. *)
Lemma bind_quiet {A B} (m : M A) (f : A -> M B) w : quiet m ->
  (exists e, (x <- m;; f x) w = (Err e, (m w).2) /\ same w (m w).2) \/
  exists a w1, m w = (Ok a, w1) /\ same w w1 /\ (x <- m;; f x) w = f a w1.
Proof.
  intros Hq. specialize (Hq w). unfold mbind_. destruct (m w) as [[a|e] w1]; cbn [snd] in *; [right|left]; by eexists _, _ || by eexists.
Qed.

(** [next] runs a reading prefix: its failure is closed by [matches_same]. *)
Tactic Notation "next" "as" ident(a) ident(w1) ident(E) ident(Hs) :=
  match goal with |- context [mbind_ ?m ?f ?w] =>
    destruct (bind_quiet m f w) as [(? & -> & ?)|(a & w1 & E & Hs & ->)];
      [auto with quiet|try left; cbn [snd]; match goal with H : matches _ |- _ => eapply matches_same; [|exact H] end;
       solve [repeat first [eassumption | eapply same_trans; [eassumption|]]]|]
  end.

Lemma quiet_getVerifier : quiet getVerifier.
Proof. unfold getVerifier. apply quiet_bind; [apply quiet_GetMeta|]. intros [[]|]; auto with quiet. Qed.
#[local] Hint Resolve quiet_getVerifier quiet_refuse : quiet.

Lemma quiet_check pass v : quiet (check_passphrase pass v).
Proof.
  unfold ServerKeys.check_passphrase. apply quiet_bind; [auto with quiet|]. intros k. destruct (Decrypt k v); auto with quiet.
Qed.
#[local] Hint Resolve quiet_check : quiet.

Lemma check_ok pass v w k plain w' : check_passphrase pass v w = (Ok (k, plain), w') ->
  Decrypt k v = Ok plain /\ HasPrefix plain verifierMagic = true /\ k = deriveKeyMaterial pass.
Proof.
  unfold ServerKeys.check_passphrase. intros (k' & w1 & E1 & E2)%bind_ok. apply lift_ok in E1 as [E1 _].
  rewrite NewChaCha20_derive in E1. injection E1 as <-.
  destruct (Decrypt (deriveKeyMaterial pass) v) as [pl|] eqn:Ed; [|discriminate E2].
  apply bind_ok in E2 as (u & w2 & E2 & E3). apply refuse_ok in E2 as [Hm _]. injection E3 as <- <- _.
  apply negb_false_iff in Hm. done.
Qed.

Lemma getVerifier_ok w v w' : getVerifier w = (Ok v, w') -> v <> "" -> meta w !! metaEncVerifier = Some (MBytes v).
Proof.
  unfold getVerifier. intros (o & w1 & E1 & E2)%bind_ok Hv. apply sql_ok in E1 as (w0 & Hs & E1 & _).
  injection E1 as <- <-. rewrite (same_meta _ _ Hs) in E2.
  destruct (meta w !! metaEncVerifier) as [[b|s|b]|]; try discriminate E2; unfold ret in E2; by injection E2 as <- _.
Qed.

Lemma matches_unlocked k v plain w : meta w !! metaEncVerifier = Some (MBytes v) -> Decrypt k v = Ok plain ->
  HasPrefix plain verifierMagic = true -> active w = Some k -> matches w.
Proof. intros Hm Hd Hp Ha k' Hk. rewrite Ha in Hk. injection Hk as <-. by exists v, plain. Qed.

Lemma matches_locked w : active w = None -> matches w.
Proof. intros Ha k Hk. congruence. Qed.

Lemma initialize_matches pass w : matches w -> matches (InitializeServerKey pass w).2.
Proof.
  intros Hm. unfold ServerKeys.InitializeServerKey.
  next as u1 w1 E1 H1. next as v w2 E2 H2. next as u3 w3 E3 H3. next as enc w4 E4 H4.
  assert (Hq : quiet (verifierPlaintext Random)) by (unfold verifierPlaintext; auto with quiet).
  next as plain w5 E5 H5.
  assert (Hp : HasPrefix plain verifierMagic = true).
  { unfold verifierPlaintext in E5. apply bind_ok in E5 as (r & w0 & _ & E5). by injection E5 as <- _. }
  destruct (Encrypt_run enc plain w5) as (ct & w6 & E6 & Ed & Hs6 & _). rewrite (bind_run _ _ _ _ _ E6).
  rewrite (bind_run _ _ _ tt (with_active (Some enc) w6)) by done.
  unfold setVerifier, SetMeta, sql. cbn [faults with_active].
  destruct (faults w6) as [|[] l]; cbn [snd MarkInitialized Lock].
  - eapply matches_unlocked; [apply lookup_insert_eq|exact Ed|exact Hp|done].
  - by apply matches_locked.
  - eapply matches_unlocked; [apply lookup_insert_eq|exact Ed|exact Hp|done].
Qed.

Lemma unlock_matches pass w : matches w -> matches (UnlockServerKey pass w).2.
Proof.
  intros Hm. unfold ServerKeys.UnlockServerKey.
  next as u1 w1 E1 H1. next as v w2 E2 H2. next as u3 w3 E3 H3. next as p w4 E4 H4.
  destruct p as [k plain]. destruct (check_ok _ _ _ _ _ _ E4) as (Hd & Hp & _).
  apply refuse_ok in E3 as [Hv _]. apply negb_false_iff in Hv.
  pose proof (getVerifier_ok _ _ _ E2 ltac:(intros ->; discriminate Hv)) as Hme.
  rewrite <-(same_meta _ _ H2), <-(same_meta _ _ H3), <-(same_meta _ _ H4) in Hme.
  cbn [Unlock mbind_ MarkInitialized snd fst]. by eapply matches_unlocked; [exact Hme| | |].
Qed.

Lemma rotate_matches old new w : matches w ->
  matches (RotateServerKey old new w).2 \/ (RotateServerKey old new w).1 = Err ErrDatabase.
Proof.
  intros Hm. unfold ServerKeys.RotateServerKey.
  next as u1 w1 E1 H1. next as u2 w2 E2 H2. next as v w3 E3 H3. next as u4 w4 E4 H4. next as p w5 E5 H5.
  next as tree w6 E6 H6. next as enc w7 E7 H7. destruct p as [k plain]. cbn [snd].
  destruct (check_ok _ _ _ _ _ _ E5) as (_ & Hp & _).
  destruct (Encrypt_run enc plain w7) as (ct & w8 & E8 & Ed & Hs8 & _). rewrite (bind_run _ _ _ _ _ E8).
  rewrite (bind_run _ _ _ tt (with_active (Some enc) w8)) by done.
  unfold setVerifier, SetMeta. unfold mbind_, sql. cbn [faults with_active].
  destruct (faults w8) as [|[] l]; cbn [fst snd].
  2: by right.
  all: left; match goal with |- matches (rewrap ?l ?x).2 => destruct (rewrap_frame l x) as (Ha & Hme & _) end;
    eapply matches_unlocked; [rewrite Hme; apply lookup_insert_eq|exact Ed|exact Hp|by rewrite Ha].
Qed.

Lemma keeps_flag b : keeps (SetRegistryDisabled b).
Proof.
  unfold SetRegistryDisabled, SetMeta. apply keeps_sql. intros w. split; [done|]. by apply lookup_insert_ne.
Qed.

Lemma keeps_hexKey s : keeps (hexKey s).
Proof. unfold hexKey. destruct (DecodeString s); auto with keeps. Qed.

Lemma keeps_storedTokenKey : keeps storedTokenKey.
Proof.
  unfold storedTokenKey. apply keeps_quiet, quiet_bind; [apply quiet_GetMeta|]. intros [[]|]; auto with quiet.
Qed.

Lemma keeps_token : keeps (RegistryTokenKey Random).
Proof.
  unfold RegistryTokenKey, newTokenKey. apply keeps_bind; [apply keeps_storedTokenKey|]. intros s.
  destruct (nonempty s); [apply keeps_hexKey|]. apply keeps_bind; [auto with keeps|]. intros b.
  apply keeps_bind; [|intros; apply keeps_bind; [apply keeps_storedTokenKey|intros; apply keeps_hexKey]].
  unfold SetMeta. apply keeps_sql. intros w. split; [done|]. by apply lookup_insert_ne.
Qed.

Lemma keeps_default : keeps EnsureDefaultRegistryNamespace.
Proof.
  unfold EnsureDefaultRegistryNamespace. apply keeps_bind; [apply keeps_quiet; by apply quiet_sql|]. intros n.
  destruct (0 <? n)%nat; [auto with keeps|]. intros w.
  set (ns := {| nName := _ |}).
  assert (Hi : keeps (insertNamespace ns)) by (unfold insertNamespace; apply keeps_sql; intros w'; by destruct (_ !! _)).
  specialize (Hi w). destruct (insertNamespace ns w) as [[u|e] w1]; cbn [snd] in *; [done|].
  pose proof (quiet_attempt _ (quiet_GetNamespace DefaultRegistryNamespace) w1) as [Ha _ Hme _ _].
  destruct (attempt _ w1) as [[[x|]|e'] w2]; cbn [snd] in *; by rewrite Ha, Hme.
Qed.

Lemma keeps_status : keeps GetKeyStatus.
Proof.
  unfold GetKeyStatus. apply keeps_bind; [apply keeps_quiet, quiet_getVerifier|]. intros v.
  apply keeps_bind; [by destruct (nonempty v)|]. by intros _ w.
Qed.

(** C16: whatever requests come in which order and wherever the database fails, a
    live key is the one the stored verifier was made with, except after a
    rotation that the database failed. *)
Theorem live_key_matches h p w w' : matches w -> rtc (key_step h p) w w' -> matches w'.
Proof.
  intros Hm Hsteps. induction Hsteps as [|w w1 w2 Hstep _ IH]; [done|]. apply IH. clear IH.
  destruct Hstep.
  - done.
  - by apply matches_locked.
  - by apply initialize_matches.
  - by apply unlock_matches.
  - by apply matches_locked.
  - apply matches_keeps; [apply keeps_status|done].
  - by match goal with H : (RotateServerKey ?o ?n w).1 <> _ |- _ => destruct (rotate_matches o n w Hm) end.
  - apply matches_keeps; [|done]. unfold CreateNamespace, insertNamespace.
    do 3 (apply keeps_bind; [by auto with keeps quiet|intros]). apply keeps_sql. intros w0. by destruct (_ !! _).
  - apply matches_keeps; [|done]. unfold UpdateNamespace. auto with keeps.
  - apply matches_keeps; [|done]. unfold DeleteNamespace. auto with keeps.
  - apply matches_keeps; [apply keeps_CreateRepository|done].
  - apply matches_keeps; [apply keeps_UpdateRepository|done].
  - apply matches_keeps; [|done]. unfold DeleteRepository. auto with keeps.
  - apply matches_keeps; [apply keeps_default|done].
  - apply matches_keeps; [apply keeps_flag|done].
  - apply matches_keeps; [apply keeps_token|done].
Qed.

End safety.

(** ** Examples *)

(** A cipher with the laws: the tag is the key. *)
Definition toy_tag (k : string) : string := str_take 16 (k +:+ "0000000000000000").
Definition toy_seal (k n p : string) : string := p +:+ toy_tag k.
Definition toy_open (k n c : string) : option string :=
  if HasSuffix c (toy_tag k) then Some (TrimSuffix c (toy_tag k)) else None.
Definition toy_random (i n : nat) : string := String.string_of_list_ascii (repeat "r"%char n).

#[export] Instance toy_AEAD : AEAD toy_seal toy_open toy_random.
Proof.
  split.
  - intros k n p. unfold toy_open, toy_seal. by rewrite HasSuffix_app, TrimSuffix_app.
  - intros k n p. unfold toy_seal, toy_tag. rewrite len_app, len_take, len_app.
    change (len "0000000000000000") with 16%nat. unfold Overhead. lia.
  - intros i n. unfold toy_random, len. induction n as [|n IH]; [done|]. cbn. by rewrite IH.
Qed.

(** Another source of random bytes, which changes with the draw. *)
Definition toy_random2 (i n : nat) : string := String.string_of_list_ascii (repeat (chr (Z.of_nat i)) n).

Definition anyurl (s : string) : bool := true.
Definition noduration (s : string) : option Z := None.

Definition sample_repo (name type kind : string) : RegistryRepository :=
  {| rName := name; Description := ""; Type_ := type; Kind := kind; Mount := "data"; BasePath := "x/"; AllowPush := false;
     URL := ""; Auth := None; Upstreams := []; MutableTTL := ""; FloatingTags := []; InsecureSkipVerify := false;
     Members := []; DefaultLocal := ""; CORSOrigins := []; MaxUploadSize := 0; rPolicy := None; SigningKey := "";
     SigningKeyName := ""; Prefetch := None; Replication := None |}.

(** An apt repository that signs, and a remote with a bearer token and an
    upstream of its own. *)
Definition signing : RegistryRepository := with_credentials None "PEM" None [] (sample_repo "debs" "apt" "local").

Definition bearer : RegistryUpstreamAuth :=
  {| aType := "bearer"; Username := ""; Password := ""; Token := "t0p <secret>"; Header := ""; Value := "" |}.

Definition proxied : RegistryRepository :=
  {| rName := "mirror"; Description := ""; Type_ := "npm"; Kind := "remote"; Mount := "data"; BasePath := "npm/"; AllowPush := false;
     URL := "https://registry.example"; Auth := Some bearer;
     Upstreams := [{| uPrefix := "@corp/"; uURL := "https://corp.example"; uAuth := None; SSHKey := "key" |}];
     MutableTTL := ""; FloatingTags := []; InsecureSkipVerify := false; Members := []; DefaultLocal := ""; CORSOrigins := [];
     MaxUploadSize := 0; rPolicy := None; SigningKey := ""; SigningKeyName := ""; Prefetch := None; Replication := None |}.

Definition fresh : World :=
  {| active := None; initialized := false; meta := ∅; nsTable := ∅; repoTable := ∅; drawn := 0; faults := [] |}.

(** An initialised, unlocked server with one empty namespace. *)
Definition base : World :=
  (CreateNamespace {| nName := "n"; nDescription := ""; Repositories := [] |}
    (InitializeServerKey toy_seal toy_random "old" fresh).2).2.

Definition with_proxied : World := (CreateRepository toy_seal toy_open toy_random anyurl noduration "n" proxied base).2.
Definition with_signing : World := (CreateRepository toy_seal toy_open toy_random anyurl noduration "n" signing base).2.

Lemma proxied_valid : repo_valid proxied.
Proof.
  unfold repo_valid, secrets_valid. split_and!; [by vm_compute..|].
  apply Forall_cons. split; [|by apply Forall_nil]. unfold upstream_valid. split_and!; by vm_compute.
Qed.

Lemma proxied_stored : stored_by (SealX := toy_seal) (OpenX := toy_open) (Random := toy_random)
  anyurl noduration "n" proxied base with_proxied.
Proof. left. by vm_compute. Qed.

Lemma stored_credentials_roundtrip_witness :
  (GetRepository toy_open "n" (rName proxied) (with_faults [] with_proxied)).1 = Ok proxied /\
  exists row, repoTable with_proxied !! ("n", rName proxied) = Some row /\ cData row = strip proxied.
Proof.
  destruct (stored_credentials_roundtrip (SealX := toy_seal) (OpenX := toy_open) (Random := toy_random)
    anyurl noduration "n" proxied base with_proxied proxied_valid proxied_stored) as (H1 & _ & (row & H2 & H3 & _) & _).
  exact (conj H1 (ex_intro _ row (conj H2 H3))).
Defined.

Lemma single_vault h p ns r w w' : repo_valid r -> repoTable w = ∅ -> is_Some (nsTable w !! ns) ->
  stored_by (SealX := toy_seal) (OpenX := toy_open) (Random := toy_random) h p ns r w w' ->
  vault (OpenX := toy_open) (active w') w'.
Proof.
  intros Hv He Hns Hst. destruct (stored_by_ok _ _ _ _ _ _ Hv Hst) as (row & [Ha _ _ Hn Hr] & Hs & _).
  intros ns' n' row' Hl. rewrite Hr, He, lookup_insert_Some, lookup_empty in Hl. rewrite Hn, Ha.
  destruct Hl as [[[= <- <-] <-]|[_ Hl]]; [|discriminate Hl]. split; [done|by exists r].
Qed.

Lemma base_empty : repoTable base = ∅ /\ is_Some (nsTable base !! "n").
Proof. split; [by vm_compute|]. exists "". by vm_compute. Qed.

Lemma proxied_vault : vault (OpenX := toy_open) (active with_proxied) with_proxied.
Proof. apply (single_vault anyurl noduration "n" proxied base); [exact proxied_valid|apply base_empty..|exact proxied_stored]. Qed.

Lemma signing_vault : vault (OpenX := toy_open) (active with_signing) with_signing.
Proof.
  apply (single_vault anyurl noduration "n" signing base); [|apply base_empty..|left; by vm_compute].
  unfold repo_valid, secrets_valid. split_and!; [by vm_compute..|by apply Forall_nil].
Qed.

Definition verifier_of (w : World) : string := match meta w !! metaEncVerifier with Some (MBytes b) => b | _ => "" end.
Definition sample_plain : string := verifierMagic +:+ toy_random 0 16.

Lemma sample_opens : opens (OpenX := toy_open) "old" (verifier_of base) sample_plain.
Proof. split; by vm_compute. Qed.

Lemma sample_meta w : verifier_of w <> "" -> meta w !! metaEncVerifier = Some (MBytes (verifier_of w)).
Proof. unfold verifier_of. destruct (meta w !! metaEncVerifier) as [[]|]; intros H; [done|by destruct H..]. Qed.

Lemma rotation_preserves_witness : exists w',
  RotateServerKey toy_seal toy_open toy_random "old" "new" with_proxied = (Ok tt, w') /\
  scanRepo toy_open (active w') <$> repoTable w' !! ("n", rName proxied) =
  scanRepo toy_open (active with_proxied) <$> repoTable with_proxied !! ("n", rName proxied).
Proof.
  assert (Hne : verifier_of base <> "") by (intros E; vm_compute in E; discriminate E).
  assert (Em : meta with_proxied !! metaEncVerifier = Some (MBytes (verifier_of base))) by (by vm_compute).
  assert (Ha : active with_proxied = Some (deriveKeyMaterial "old")) by (by vm_compute).
  pose proof proxied_vault as Hv. rewrite Ha in Hv.
  destruct (rotation_preserves (SealX := toy_seal) (OpenX := toy_open) (Random := toy_random) "old" "new" with_proxied
    (verifier_of base) sample_plain (deriveKeyMaterial "old") ltac:(discriminate) ltac:(discriminate) ltac:(discriminate)
    eq_refl Hne Em sample_opens Ha Hv) as (w' & H1 & _ & _ & _ & H2 & _).
  - intros ns n row Hl _.
    assert (Hall : map_Forall (fun _ row => rewrapped (scanRepo toy_open (Some (deriveKeyMaterial "old")) row) = true) (repoTable with_proxied)).
    { apply (bool_decide_unpack _). by vm_compute. }
    exact (Hall _ _ Hl).
  - exact (ex_intro _ w' (conj H1 (H2 "n" (rName proxied)))).
Defined.

Lemma wf_restart w : wf_rows w -> wf_rows (restart w).
Proof. done. Qed.

Definition shown_locked : RegistryRepository := strip signing.

Lemma locked_edit_erases_witness : exists row,
  repoTable (UpdateRepository toy_seal toy_open toy_random anyurl noduration "n" shown_locked (restart with_signing)).2
    !! ("n", rName signing) = Some row /\ cSealed row = None.
Proof.
  destruct (locked_edit_erases (SealX := toy_seal) (OpenX := toy_open) (Random := toy_random) anyurl noduration "n" (rName signing)
    (restart with_signing) shown_locked (restart with_signing)
    (UpdateRepository toy_seal toy_open toy_random anyurl noduration "n" shown_locked (restart with_signing)).2)
    as (row & H1 & H2 & _).
  - exact (wf_restart _ (vault_wf _ _ signing_vault)).
  - reflexivity.
  - by vm_compute.
  - by vm_compute.
  - exact (ex_intro _ row (conj H1 H2)).
Defined.

Definition signing_row : Row := default (Build_Row "" "" None None signing) (repoTable with_signing !! ("n", rName signing)).

(** The signing key of an apt repository after a rotation of the unlocked
    server. *)
Lemma rotation_forgets_witness :
  hasSecret (repoSecrets (scanRepo toy_open (active with_signing) signing_row)) = true /\
  hasSecret (repoSecrets (scanRepo toy_open
    (active (RotateServerKey toy_seal toy_open toy_random "old" "new" with_signing).2) signing_row)) = false.
Proof.
  assert (Hne : verifier_of base <> "") by (intros E; vm_compute in E; discriminate E).
  assert (Em : meta with_signing !! metaEncVerifier = Some (MBytes (verifier_of base))) by (by vm_compute).
  assert (El : repoTable with_signing !! ("n", rName signing) = Some signing_row) by (by vm_compute).
  assert (Es : hasSecret (repoSecrets (scanRepo toy_open (active with_signing) signing_row)) = true) by (by vm_compute).
  assert (Hskip : rewrapped (scanRepo toy_open (active with_signing) signing_row) = false) by (by vm_compute).
  assert (Eo : openSecrets toy_open (Some (deriveKeyMaterial "new")) (cSealed signing_row) = no_secrets) by (by vm_compute).
  destruct (rotation_forgets (SealX := toy_seal) (OpenX := toy_open) (Random := toy_random) "old" "new" with_signing
    (verifier_of base) sample_plain "n" (rName signing) signing_row ltac:(discriminate) ltac:(discriminate) ltac:(discriminate)
    eq_refl Hne Em sample_opens (vault_wf _ _ signing_vault) El (or_intror Hskip) Eo) as (_ & _ & H & _).
  exact (conj Es H).
Defined.

Lemma live_key_matches_witness : matches (OpenX := toy_open) (InitializeServerKey toy_seal toy_random "old" fresh).2.
Proof.
  apply (live_key_matches (SealX := toy_seal) (OpenX := toy_open) (Random := toy_random) anyurl noduration fresh).
  - intros k Hk. discriminate Hk.
  - apply rtc_once. apply ks_initialize.
Defined.

(** A rotation whose verifier could not be written: the live key is the new
    one, the verifier is of the old one, and the old key no longer opens what
    is stored from then on. *)
Definition torn : World :=
  (RotateServerKey toy_seal toy_open toy_random "old" "new" (with_faults [false; false; false; true] with_proxied)).2.

Lemma torn_rotation :
  (RotateServerKey toy_seal toy_open toy_random "old" "new" (with_faults [false; false; false; true] with_proxied)).1 = Err ErrDatabase /\
  active torn = Some (deriveKeyMaterial "new") /\
  (UnlockServerKey toy_open "new" torn).1 = Err ErrForbidden /\
  hasSecret (repoSecrets (scanRepo toy_open (active torn) (default signing_row (repoTable torn !! ("n", rName proxied))))) = false.
Proof. split_and!; by vm_compute. Qed.

(** Two first uses of the registry token key that overlap: both find nothing,
    each stores a key of its own and reads it back. *)
Lemma token_keys_diverge :
  let a := newTokenKey toy_random2 fresh in
  let b := newTokenKey toy_random2 a.2 in
  a.1 <> b.1 /\ is_ok a.1 = true /\ is_ok b.1 = true.
Proof. vm_compute. split_and!; done. Qed.

(** A member of a virtual repository can be deleted; from then on no repository
    of the namespace can be changed. *)
Definition member : RegistryRepository := sample_repo "a" "npm" "local".
Definition all : RegistryRepository :=
  {| rName := "all"; Description := ""; Type_ := "npm"; Kind := "virtual"; Mount := ""; BasePath := ""; AllowPush := false;
     URL := ""; Auth := None; Upstreams := []; MutableTTL := ""; FloatingTags := []; InsecureSkipVerify := false;
     Members := ["a"]; DefaultLocal := ""; CORSOrigins := []; MaxUploadSize := 0; rPolicy := None; SigningKey := "";
     SigningKeyName := ""; Prefetch := None; Replication := None |}.

Definition with_virtual : World :=
  (CreateRepository toy_seal toy_open toy_random anyurl noduration "n" all
    (CreateRepository toy_seal toy_open toy_random anyurl noduration "n" member base).2).2.

Lemma dangling_member_blocks :
  (UpdateRepository toy_seal toy_open toy_random anyurl noduration "n" all with_virtual).1 = Ok tt /\
  (DeleteRepository "n" "a" with_virtual).1 = Ok tt /\
  (CreateRepository toy_seal toy_open toy_random anyurl noduration "n" (sample_repo "other" "npm" "local")
    (DeleteRepository "n" "a" with_virtual).2).1 = Err ErrBadRequest.
Proof. split_and!; by vm_compute. Qed.

(** While the key is locked, a remote with a bearer token blocks every change of
    its namespace. *)
Lemma locked_sibling_blocks :
  (CreateRepository toy_seal toy_open toy_random anyurl noduration "n" member with_proxied).1 = Ok tt /\
  (CreateRepository toy_seal toy_open toy_random anyurl noduration "n" member (restart with_proxied)).1 = Err ErrBadRequest.
Proof. split_and!; by vm_compute. Qed.
